(* ===== verification/_CoqProject ===== *)
-Q . S2P
Prelude.v
Time.v
Text.v
F32.v
Domain.v
Policy.v
EventBus.v
Presence.v
PresenceProps.v
PresenceStates.v
PresenceCheckpoint.v
PresenceRestore.v
Identity.v
IdentityGraph.v
IdentityMatch.v
IdentityMac.v
IdentityProps.v
IdentityTheorems.v
IdentityCheckpoint.v
IdentityRestore.v
F64.v
DoctorCheck.v
DoctorEngine.v
DoctorEngineProps.v
DoctorDiagnosis.v
DoctorRepair.v
DoctorExecutor.v
DoctorExecutorProps.v
Order.v
Bytes.v
AuditLog.v
AuditLogTheorems.v
Net.v
NetProps.v
Flow.v
FlowTheorems.v
Neighbor.v
NeighborProps.v
WasmManifest.v
WasmManifestProps.v
WasmSandbox.v
WasmBroker.v
WasmBrokerProps.v
Advisory.v
AdvisoryProps.v
AdvisoryParse.v
AdvisoryNvd.v
AdvisoryParseProps.v
AdvisoryFeed.v
AdvisoryFeedProps.v
AdvisoryWitness.v
Wire.v
Passive.v
PassiveLink.v
PassiveProps.v
PassiveTheorems.v
Active.v
ActiveScheduler.v
ActiveSchedulerProps.v
ActiveProps.v
ActiveRunner.v
W6.v
PolicyStore.v
PolicyCoordinator.v
PolicyCoordinatorProps.v
PolicyCoordinatorTheorems.v
W6Actuator.v
PolicyWitness.v
Home.v
HomeProps.v
Vault.v
VaultProps.v
DoctorSettings.v
DoctorService.v
IpText.v
Live.v
FlowStore.v
FlowStoreProps.v
FlowStoreTheorems.v
