(* ===== verification/Prelude.v ===== *)
(** * NeonHearth: a verification development

    NeonHearth (the lattice crates under crates) watches a home network, decides which devices
    are present and approved, diagnoses faults and repairs them. Its decisions are made by
    engines that the service daemon drives: sensors inventory the interfaces, guard which
    addresses may be probed, decode captured frames, probe approved targets under budgets, follow
    the neighbour table and aggregate traffic; the daemon feeds their observations to the
    intelligence engines, turns the output into events, asks the policy engine what to enforce and
    carries it out through a coordinator over durable records and a W6 appliance, runs the Network
    Doctor over injected transports, runs signed WebAssembly checks against approved targets,
    matches devices with security advisories, and writes what it did to a hash-chained audit log. This library models those
    engines from the Rust sources and proves what makes them correct.

    ** Files and what they model

    - Prelude (this file): [Result], a state monad with its weakest precondition, machine
      integers, iterator functions, shared lemmas, the hint database and tactics.
    - Order, Bytes, Wire: derived orders as comparison functions with their laws, sorted maps;
      byte strings, big-endian fields and framing, and the classes [Sha256] and [Ed25519];
      checked indexing and the text functions of the frame decoders.
    - Time, Text, F64, F32: chrono instants and durations in nanoseconds, UTF-8 text as
      bytes, binary64 and binary32 floats from the executable specification of the
      Standard Library.
    - Domain: the identifiers, evidence families and facts of lattice-domain.
    - Policy: lattice-domain/policy.rs and lattice-policy/lib.rs, the approval policy engine.
    - EventBus: lattice-event-bus/lib.rs, the sequenced bus with bounded replay.
    - Presence: lattice-intelligence/presence.rs, all data and operations; PresenceCheckpoint:
      its checkpoints. PresenceProps, PresenceStates, PresenceRestore hold the
      theorems, the last one also their concrete runs.
    - Identity: lattice-intelligence/lib.rs, all data and operations; IdentityCheckpoint: its
      checkpoints. IdentityGraph (the merge components), IdentityMatch, IdentityMac,
      IdentityProps, IdentityTheorems and IdentityRestore hold the theorems, the last one also
      their concrete runs.
    - DoctorCheck (lattice-doctor lib.rs, check.rs, probe.rs), DoctorEngine (engine.rs),
      DoctorDiagnosis (diagnosis.rs), DoctorRepair (repair.rs), DoctorExecutor (executor.rs);
      DoctorEngineProps and DoctorExecutorProps hold the theorems, the latter also the runs.
    - AuditLog: lattice-store/audit_log.rs over its two tables; AuditLogTheorems.
    - Net: lattice-sensor/lib.rs, addresses, interface inventory and the discovery target
      guard; NetProps.
    - Flow: lattice-sensor/flow.rs and lattice-domain/flow.rs, the rollup engine; FlowTheorems.
    - Neighbor: lattice-sensor/neighbor.rs, rows, kernel messages and the tracker;
      NeighborProps.
    - WasmManifest, WasmSandbox, WasmBroker: lattice-audit-wasm manifest.rs, runtime.rs,
      target.rs and broker.rs; WasmManifestProps, the second half of WasmSandbox,
      WasmBrokerProps.
    - Advisory (lattice-advisory lib.rs, match.rs), AdvisoryParse (vendor.rs, kev.rs),
      AdvisoryNvd (nvd.rs), AdvisoryFeed (transport.rs, feed.rs); AdvisoryProps,
      AdvisoryParseProps, AdvisoryFeedProps, and the runs in AdvisoryWitness.
    - Passive, PassiveLink: lattice-sensor/passive.rs and passive/link_discovery.rs, the decoders
      of every protocol and the reading of captures; PassiveProps, and
      PassiveTheorems with the runs.
    - Active, ActiveScheduler, ActiveRunner: lattice-sensor/active.rs (catalog, engine, HTTP and
      SNMP codecs; scheduler) and active/scheduler_runner.rs; ActiveProps, ActiveSchedulerProps,
      and the second half of ActiveRunner.
    - W6: lattice-w6/lib.rs, the connector of the appliance; W6Actuator: the actuator of
      lattice-service/policy.rs on it, with lattice-store/w6.rs; each with its theorems.
    - PolicyStore: lattice-store/policy.rs (and the control records of checkpoint.rs) over its
      tables; PolicyCoordinator: the coordinator of lattice-service/policy.rs over the store, an
      actuator and the event bus; PolicyCoordinatorProps,
      PolicyCoordinatorTheorems, and the runs of the last four groups in PolicyWitness.
    - Home: lattice-domain/home.rs, lattice-store/home.rs and lattice-service/home.rs, the plan of
      the home with its validation, its repository and its routes; HomeProps.
    - Vault: lattice-service/vault.rs, the secrets of cameras in the keyring of the operating system
      or in an encrypted file; VaultProps.
    - DoctorSettings, DoctorService: lattice-service/doctor.rs, the probe targets of the owner, the
      gate in front of the probes and the transports of the service, then the routes, which run
      the models of the doctor and of the audit log; both with their theorems.

    - IpText: that addresses are read back from their text.
    - Live: lattice-sensor/live.rs, live bandwidth. FlowStore: lattice-store/flow.rs, the repository
      of rollups with its compaction and the ingestor; FlowStoreProps, FlowStoreTheorems, the
      latter also with runs of the flow engine against the repository.

    Records carry the fields of the Rust structs, inductive types the variants of the enums,
    and there is one definition per function, with the source's name. Code that mutates
    [self] takes the state and returns it with the result; code that awaits an injected
    transport or clock runs in the state monad over an abstract world [W], and the trait is
    a type class ([ProbeTransport], [Clock], [RepairTransport], [FeedWorld], [W6Transport],
    [PolicyActuator], [AttemptTransport]). A HashMap is a [gmap]; where
    its iteration order could matter the code sorts, and so does the model.

    ** What the theorems show

    - Policy: the requested action, deadline and warning on every branch, and that time only
      tightens a decision.
    - Event bus: the bounded buffer refines an append-only log; publication is gap-free.
    - Presence: an invariant of every reachable engine by induction over operations,
      atomic failure, lossless replay, the state rules in declarative form, what justifies a
      published transition, that ordinary evidence cannot lift a verified block, and that a
      device without real evidence is never shown present. Checkpoints: what an accepted one
      guarantees, the round trip, that an engine which timed a device out is not restored, and other
      reachable engines whose own checkpoint is refused.
    - Identity: an invariant of every reachable engine (with values of at least 17 characters), conservative automatic correlation
      and identification, merge components as connected components of the accepted proposals,
      reversible merges, exact eviction, authoritative owner facts, what a failed operation may
      change. Checkpoints: an accepted one restores the invariant, and the exact conditions
      under which an engine is restored from its own.
    - Doctor engine: probe budget, dependency order, reports in which every status is
      justified and every failure explained; diagnoses are root causes and repair plans
      follow the measurements; a sufficient budget is never exhausted.
    - Doctor executor: its calls refine the snapshot, baseline, apply, verify, undo protocol
      given as a relation; no blind apply, no silent regression.
    - Audit log: every log reached by appends and prunes verifies, and a table that verifies
      against its head is that log above the retention anchors, or the two tables have rows whose
      hashed messages collide; what a prune removes and an append returns.
    - Target guard: what it answers on every branch; a target is authorized exactly when an owner
      approval on an eligible interface covers it, and is then private and bound to an attached network.
    - Flow: the bounded cache refines a ledger that never forgets, accepted events are not
      counted twice under the stated configuration, the limits hold; runs in which totals go
      wrong otherwise.
    - Neighbours: snapshots have typed rows, the tracker acts on every device as a per-device
      state machine and reports a departure exactly at the limit.
    - WebAssembly checks: only published modules verify, with the published digest, unless there is
      a forgery; what an admitted module looks like; whatever guest and world do, every
      exchange goes to the freshly authorized target within the declared capabilities and
      limits; budget accounting under every interleaving; the module cache.
    - Advisories: what each match label means, that an exact vendor match is signed, that an
      exploited vulnerability is never exact, stable normalisation, the composed risk and its
      dependence on order; bounded documents and the traversal as recursion; a synchronisation
      ends within its bounds, talks to the official hosts only, and returns the whole answer or
      a stale entry, which may lack later pages.
    - Passive capture: no octets make a decoder index outside of a frame or run out of its
      bounded loops; what comes out is bounded; captures are accounted for frame by frame; LLDP
      frames, CDP checksums and escaped names are read back.
    - Active discovery: nothing is sent without the owner's approval, an authorized target, the
      right mode and credential; the queue serves every request, the rate and concurrency
      budgets hold in every history, a refusal names a moment that is kept; under every
      interleaving of the locked regions of its threads the runner loses, duplicates and
      double-reports nothing and retries exactly what it should; SNMP answers are read back and correlated. Runs in which a
      limit is not kept (object identifiers, wide headers, full tables, small budgets).
    - Enforcement: between two calls to the actuator for a device the first was resolved, whatever
      faults and restarts happen; a publication interrupted anywhere is completed; no action but on
      a policy that warrants it; the W6 connector mutates at most once and reports only what it read back;
      two runs in which the coordinator gets stuck or books the opposite of what it did.
    - Home plan: validation in declarative form; the history is the last hundred versions in every
      reachable database; a stale save is refused and a current one succeeds and is loaded; a
      damaged row is recovered; the placements are the map that the owner made; every route
      commits at most once and announces what a client then reads.
    - Vault: whatever system call fails or is the last one before a crash, the encrypted file is
      whole and an acknowledged change is kept; it answers as the fake vault of the tests does;
      deletion tries every slot; the directory is private; a put that outgrows the limit on
      reading locks the vault.
    - Flow repository: compaction keeps every total, ends with an exact count, and what it removed is
      refused from then on; what was applied is read back as the last change left it; two histories of the engine that compaction never gets past.
    - Doctor service: no repair without a safe plan of the latest run or a fresh, unspent token for
      it, one run or repair at a time, no probe outside without the owner, no success without its
      audit entry, every request answered in five polls; usable settings, live tokens honoured;
      runs in which an update is lost or a dropped request escapes the log.

    ** Fuel, bounds and parameters

    Recursion is structural except where the source loops on a shrinking queue:
    [evict_rounds] takes the history length as fuel (each round pops at least one entry), and
    [bfs] twice the number of edges plus one (each device enters the queue once; that this
    reaches the whole component is proved in IdentityGraph). The walk over an audit log has
    one unit per row and one more, the node traversal of a vulnerability document one per
    node that its own limit allows and one more, the retries of a feed page one per allowed
    halving and one more, the loops over a captured frame one per byte and one more; that each is
    enough is part of the theorems; so for the batches of a compaction, one unit per row and one more. The bindings of an SNMP answer have one unit per byte, and
    each binding takes at least two bytes.
    Integers are [Z] with the Rust overflow behaviour written out (checked, saturating, wrapping);
    collection sizes are [nat]. Parameters stand for code outside the repository: chrono's
    calendar limits ([Calendar]), the text of a UUID ([uuid_to_string]), the decimal text of a
    float ([f64_display]), SHA-256 and Ed25519, the text of serde_json, chrono and base64, the
    url crate, the messages of the netlink crates, the parsed forms of etherparse, hickory,
    quick_xml and pcap_file, the guests and modules of wasmtime and
    wasmparser, [hypot] of the C library, XChaCha20-Poly1305 and the
    keyring of the operating system, the date functions of SQLite, the W6 appliance, and the transports and clocks. The laws that are assumed of them are fields of
    their classes or hypotheses of the theorems, and the witnesses have concrete instances.

    ** Concurrency and faults

    The histories of the coordinator interleave whole operations with an oracle that fails, or
    loses the answer of, any effect; two operations on the same device at the same time are not
    modelled. In the runner every region of code under one mutex is a step (in the end of a task: the
    release, the check, the time and the place of a retry, the note of a success, the removal from
    the pending set and the sending of the event), the asynchronous
    lock of the lifecycle is held across the steps that it covers, and all interleavings of
    these steps are covered; an event may so be sent after its key was accepted again. So are those of the requests of the doctor service, which may also
    be dropped between two steps; a run and an execution are one step each. In the file vault every system call can fail or be where the
    machine halts; a crash brings back some directory since the last synchronisation, in which
    files that were not synchronised themselves may hold anything. Any transaction of a compaction can fail; other writers between two of its transactions
    are not modelled.

    ** Not modelled

    Socket, SQLite, HTTP, process and operating-system calls themselves (sensor drivers, the
    protocol transports of active discovery, the rest of the store, launcher), serialization
    formats, the camera crate, authentication and sessions of the service, and the desktop user
    interface. What is left of the daemon's own logic is the rest of the discovery
    checkpoints, the web and UDP codecs of active discovery, and its background loops
    (monitors, automation). *)

From Stdlib Require Export ZArith Lia Ascii String.
From stdpp Require Export base option list strings gmap sorting pretty.

#[global] Open Scope Z_scope.

(** ** Results

    Rust's [Result<A, E>]: error paths are values. *)
Inductive result (A E : Type) : Type :=
  | Ok (a : A)
  | Err (e : E).
Arguments Ok {A E} a.
Arguments Err {A E} e.

Definition result_bind {A B E : Type} (c : result A E) (k : A -> result B E) : result B E :=
  match c with
  | Ok a => k a
  | Err e => Err e
  end.

Definition is_ok {A E : Type} (r : result A E) : bool :=
  match r with
  | Ok _ => true
  | Err _ => false
  end.

Definition ok_or {A E : Type} (o : option A) (e : E) : result A E :=
  match o with
  | Some a => Ok a
  | None => Err e
  end.

(** ** A state monad for code that threads a mutable world *)
Definition M (S A : Type) : Type := S -> A * S.

Definition mret_st {S A : Type} (a : A) : M S A := fun s => (a, s).

Definition mbind_st {S A B : Type} (m : M S A) (k : A -> M S B) : M S B :=
  fun s => let '(a, s') := m s in k a s'.

(** [m?] inside of code that threads a world: an error ends the computation. *)
Definition try_bind {S A B E : Type} (m : M S (result A E)) (k : A -> M S (result B E)) : M S (result B E) :=
  mbind_st m (fun r => match r with Ok a => k a | Err e => mret_st (Err e) end).

(** The weakest precondition of a computation from one state. *)
Definition wp {S A : Type} (m : M S A) (Q : A -> S -> Prop) (s : S) : Prop :=
  Q (fst (m s)) (snd (m s)).

Declare Scope lattice_scope.
Delimit Scope lattice_scope with lattice.
Notation "'let!' x := m 'in' k" := (mbind_st m (fun x => k))
  (at level 10, x pattern, m at level 100, k at level 200) : lattice_scope.
Notation "'let?' x := c 'in' k" := (result_bind c (fun x => k))
  (at level 10, x pattern, c at level 100, k at level 200) : lattice_scope.
Notation "'try!' x := m 'in' k" := (try_bind m (fun x => k))
  (at level 10, x pattern, m at level 100, k at level 200) : lattice_scope.
#[global] Open Scope lattice_scope.

(** ** Machine integers *)
Definition u64_max : Z := 18446744073709551615.
Definition u32_max : Z := 4294967295.

Definition checked_add_u64 (a b : Z) : option Z :=
  if a + b <=? u64_max then Some (a + b) else None.
Definition saturating_add_u64 (a b : Z) : Z := Z.min u64_max (a + b).
Definition saturating_sub_u64 (a b : Z) : Z := Z.max 0 (a - b).
Definition saturating_add_u32 (a b : Z) : Z := Z.min u32_max (a + b).
Definition saturating_sub_u32 (a b : Z) : Z := Z.max 0 (a - b).

(** ** Option and list vocabulary of the Rust standard library *)
Definition is_some_and {A : Type} (p : A -> bool) (o : option A) : bool :=
  match o with
  | Some a => p a
  | None => false
  end.

Definition is_none_or {A : Type} (p : A -> bool) (o : option A) : bool :=
  match o with
  | Some a => p a
  | None => true
  end.

(** [Iterator::max] on integers. *)
Fixpoint iter_max (l : list Z) : option Z :=
  match l with
  | [] => None
  | x :: l' => match iter_max l' with
               | Some m => Some (Z.max x m)
               | None => Some x
               end
  end.

(** [Iterator::find]. *)
Fixpoint iter_find {A : Type} (p : A -> bool) (l : list A) : option A :=
  match l with
  | [] => None
  | x :: l' => if p x then Some x else iter_find p l'
  end.

(** [Iterator::any] is [existsb]; [Iterator::filter] and [Vec::retain] are [List.filter]. *)
Abbreviation retain := List.filter (only parsing).

(** ** Lemmas *)

Lemma wp_ret {S A} (a : A) (Q : A -> S -> Prop) s : Q a s -> wp (mret_st a) Q s.
Proof. done. Qed.

Lemma wp_bind {S A B} (m : M S A) (k : A -> M S B) Q s :
  wp m (fun a => wp (k a) Q) s -> wp (mbind_st m k) Q s.
Proof. unfold wp, mbind_st. by destruct (m s). Qed.

Lemma wp_try {S A B E} (m : M S (result A E)) (k : A -> M S (result B E)) Q s :
  wp m (fun r s' => match r with Ok a => wp (k a) Q s' | Err e => Q (Err e) s' end) s -> wp (try_bind m k) Q s.
Proof. intros Hm. apply wp_bind. unfold wp in *. destruct (m s) as [[a|e] s']; exact Hm. Qed.

Lemma wp_mono {S A} (m : M S A) (Q Q' : A -> S -> Prop) s :
  wp m Q s -> (forall a s', Q a s' -> Q' a s') -> wp m Q' s.
Proof. unfold wp. auto. Qed.

Lemma result_bind_ok {A B E} (c : result A E) (k : A -> result B E) b :
  result_bind c k = Ok b -> exists a, c = Ok a /\ k a = Ok b.
Proof. destruct c; simpl; naive_solver. Qed.

Lemma is_some_and_true {A} (p : A -> bool) o :
  is_some_and p o = true <-> exists a, o = Some a /\ p a = true.
Proof. destruct o; simpl; naive_solver. Qed.

Lemma is_none_or_true {A} (p : A -> bool) o :
  is_none_or p o = true <-> forall a, o = Some a -> p a = true.
Proof. destruct o; simpl; naive_solver. Qed.

Lemma iter_max_none l : iter_max l = None <-> l = [].
Proof. destruct l as [|x l]; simpl; [done|]. destruct (iter_max l); naive_solver. Qed.

Lemma iter_max_some l m :
  iter_max l = Some m -> In m l /\ Forall (fun x => x <= m) l.
Proof.
  revert m. induction l as [|x l IH]; intros m; simpl; [done|].
  destruct (iter_max l) as [m'|] eqn:E; intros [= <-].
  - destruct (IH m' eq_refl) as [Hin Hall]. split.
    + destruct (Z.max_spec x m') as [[_ ->]|[_ ->]]; auto.
    + constructor; [lia|]. eapply Forall_impl; [exact Hall|]. simpl; lia.
  - apply iter_max_none in E. subst. split; [by left|]. by repeat constructor.
Qed.

Lemma iter_find_some {A} (p : A -> bool) l a :
  iter_find p l = Some a -> In a l /\ p a = true.
Proof. induction l as [|x l IH]; simpl; [done|]. destruct (p x) eqn:E; naive_solver. Qed.

Lemma iter_find_none {A} (p : A -> bool) l :
  iter_find p l = None <-> Forall (fun a => p a = false) l.
Proof.
  induction l as [|x l IH]; simpl; [done|].
  rewrite Forall_cons. destruct (p x) eqn:E; naive_solver.
Qed.

Lemma existsb_false_forall {A} (p : A -> bool) l :
  existsb p l = false <-> Forall (fun a => p a = false) l.
Proof.
  induction l as [|x l IH]; simpl; [done|].
  rewrite Forall_cons, orb_false_iff. naive_solver.
Qed.

Lemma filter_all {A} (p : A -> bool) l : Forall (fun x => p x = true) l -> List.filter p l = l.
Proof. induction 1 as [|x l Hx _ IH]; simpl; [done|]. by rewrite Hx, IH. Qed.

Lemma filter_nothing {A} (p : A -> bool) l : Forall (fun x => p x = false) l -> List.filter p l = [].
Proof. induction 1 as [|x l Hx _ IH]; simpl; [done|]. by rewrite Hx. Qed.

Lemma nodup_map_filter {A B} (f : A -> B) (p : A -> bool) l : NoDup (map f l) -> NoDup (map f (List.filter p l)).
Proof.
  induction l as [|x l IH]; [done|]. cbn. intros [Hx Hn]%NoDup_cons. destruct (p x); [|by apply IH]. cbn. apply NoDup_cons. split; [|by apply IH].
  rewrite list_elem_of_In, in_map_iff in *. intros (y & Hy & [Hin _]%filter_In). eauto.
Qed.
Lemma omap_split {A B} (f : A -> option B) l1 x l2 : omap f (l1 ++ x :: l2) ≡ₚ option_list (f x) ++ omap f (l1 ++ l2).
Proof. rewrite !omap_app. cbn. destruct (f x); cbn; [by rewrite Permutation_middle|done]. Qed.
Lemma Forall_replace {A} (P : A -> Prop) l1 x y l2 : Forall P (l1 ++ x :: l2) -> P y -> Forall P (l1 ++ y :: l2).
Proof. rewrite !Forall_app, !Forall_cons. tauto. Qed.

Lemma checked_add_u64_some a b c :
  checked_add_u64 a b = Some c <-> c = a + b /\ a + b <= u64_max.
Proof. unfold checked_add_u64. case_match; naive_solver lia. Qed.

Create HintDb lattice discriminated.
#[export] Hint Resolve wp_ret wp_bind : lattice.

(** Turn boolean tests in the context into propositions. *)
Ltac bprop :=
  repeat match goal with
  | H : (_ && _) = true |- _ => apply andb_true_iff in H as [? ?]
  | H : (_ || _) = false |- _ => apply orb_false_iff in H as [? ?]
  | H : negb _ = true |- _ => apply negb_true_iff in H
  | H : negb _ = false |- _ => apply negb_false_iff in H
  | H : (_ <=? _) = true |- _ => apply Z.leb_le in H
  | H : (_ <=? _) = false |- _ => apply Z.leb_gt in H
  | H : (_ <? _) = true |- _ => apply Z.ltb_lt in H
  | H : (_ <? _) = false |- _ => apply Z.ltb_ge in H
  | H : (_ =? _) = true |- _ => apply Z.eqb_eq in H
  | H : (_ =? _) = false |- _ => apply Z.eqb_neq in H
  | H : bool_decide _ = true |- _ => apply bool_decide_eq_true in H
  | H : bool_decide _ = false |- _ => apply bool_decide_eq_false in H
  end.
