(* ===== verification/Time.v ===== *)
(** * Instants and durations

    The services use chrono's [DateTime<Utc>] and [Duration] everywhere. An
    instant is modelled by its count of nanoseconds since the Unix epoch, a
    duration by its count of nanoseconds. chrono is not part of the repository:
    the two ends of its calendar are the parameters of the class [Calendar],
    and the only documented behaviour the code relies on is that
    [checked_add_signed] returns [None] exactly when the sum leaves the calendar,
    and that differences of instants never overflow. *)

From S2P Require Import Prelude.

Definition DateTime : Type := Z.
Definition Duration : Type := Z.

Class Calendar := {
  cal_min : DateTime;
  cal_max : DateTime;
  cal_inhabited : cal_min <= cal_max
}.

Definition seconds (n : Z) : Duration := n * 1000000000.
Definition minutes (n : Z) : Duration := seconds (60 * n).
Definition hours (n : Z) : Duration := seconds (3600 * n).

Definition checked_add_signed `{Calendar} (t : DateTime) (d : Duration) : option DateTime :=
  if (cal_min <=? t + d) && (t + d <=? cal_max) then Some (t + d) else None.

Definition signed_duration_since (t u : DateTime) : Duration := t - u.

(** chrono's own calendar: from -262143-01-01T00:00:00 to
    +262142-12-31T23:59:59.999999999. *)
#[global] Program Instance chrono_calendar : Calendar := {|
  cal_min := seconds (-8334601228800);
  cal_max := seconds 8210266876800 - 1
|}.
Next Obligation. vm_compute. discriminate. Qed.

Section Laws.
Context `{Calendar}.

Lemma checked_add_some t d r :
  checked_add_signed t d = Some r <-> r = t + d /\ cal_min <= t + d <= cal_max.
Proof. unfold checked_add_signed. case_match; bprop; naive_solver lia. Qed.

Lemma checked_add_none t d :
  checked_add_signed t d = None <-> ~ (cal_min <= t + d <= cal_max).
Proof.
  unfold checked_add_signed.
  destruct (Z.leb_spec cal_min (t + d)), (Z.leb_spec (t + d) cal_max); simpl; naive_solver lia.
Qed.
End Laws.
