(* ===== verification/Text.v ===== *)
(** * Text

    A Rust [String] is its UTF-8 bytes, modelled by [string] (one [ascii] per
    byte), so [len()] is [String.length]. The two character classes the
    code tests are given on the encoded bytes: [char::is_whitespace] (the Unicode
    White_Space property, what [trim] strips) and [char::is_control] (category Cc). *)

From S2P Require Import Prelude.

#[local] Open Scope N_scope.

Definition byte_of (a : ascii) : N := N_of_ascii a.

(** U+0009..U+000D and U+0020. *)
Definition white1 (a : N) : bool := ((9 <=? a) && (a <=? 13)) || (a =? 32).
(** U+0085 and U+00A0. *)
Definition white2 (a b : N) : bool := (a =? 194) && ((b =? 133) || (b =? 160)).
(** U+1680, U+2000..U+200A, U+2028, U+2029, U+202F, U+205F, U+3000. *)
Definition white3 (a b c : N) : bool :=
  ((a =? 225) && (b =? 154) && (c =? 128))
  || ((a =? 226) && (b =? 128) &&
      (((128 <=? c) && (c <=? 138)) || (c =? 168) || (c =? 169) || (c =? 175)))
  || ((a =? 226) && (b =? 129) && (c =? 159))
  || ((a =? 227) && (b =? 128) && (c =? 128)).

(** [s.trim().is_empty()]: every character is white space. *)
Fixpoint trim_is_empty (s : string) : bool :=
  match s with
  | EmptyString => true
  | String a r =>
      if white1 (byte_of a) then trim_is_empty r
      else match r with
           | EmptyString => false
           | String b r2 =>
               if white2 (byte_of a) (byte_of b) then trim_is_empty r2
               else match r2 with
                    | EmptyString => false
                    | String c r3 =>
                        white3 (byte_of a) (byte_of b) (byte_of c) && trim_is_empty r3
                    end
           end
  end.

(** [s.trim() == s]: neither the first nor the last character is white space. *)
Definition starts_white (l : list ascii) : bool :=
  match l with
  | [] => false
  | a :: r => white1 (byte_of a)
      || match r with
         | [] => false
         | b :: r2 => white2 (byte_of a) (byte_of b)
             || match r2 with [] => false | c :: _ => white3 (byte_of a) (byte_of b) (byte_of c) end
         end
  end.
Definition ends_white (l : list ascii) : bool :=
  match rev l with
  | [] => false
  | c :: r => white1 (byte_of c)
      || match r with
         | [] => false
         | b :: r2 => white2 (byte_of b) (byte_of c)
             || match r2 with [] => false | a :: _ => white3 (byte_of a) (byte_of b) (byte_of c) end
         end
  end.
Definition is_trimmed (s : string) : bool :=
  let l := String.list_ascii_of_string s in negb (starts_white l) && negb (ends_white l).

(** [s.chars().any(char::is_control)]: U+0000..U+001F, U+007F..U+009F. *)
Fixpoint has_control (s : string) : bool :=
  match s with
  | EmptyString => false
  | String a r =>
      (byte_of a <? 32) || (byte_of a =? 127)
      || match r with
         | String b _ => (byte_of a =? 194) && (128 <=? byte_of b) && (byte_of b <=? 159)
         | EmptyString => false
         end
      || has_control r
  end.

(** [s.len()], the number of bytes. *)
Definition str_len (s : string) : Z := Z.of_nat (String.length s).
Definition str_is_empty (s : string) : bool := bool_decide (s = EmptyString).

(** [v.join(sep)] on strings. *)
Fixpoint str_join (sep : string) (l : list string) : string :=
  match l with
  | [] => EmptyString
  | [s] => s
  | s :: l' => (s +:+ sep +:+ str_join sep l')%string
  end.

Lemma str_is_empty_len s : str_is_empty s = true <-> str_len s = 0%Z.
Proof. unfold str_is_empty, str_len. rewrite bool_decide_eq_true. by destruct s. Qed.
