(* ===== verification/F32.v ===== *)
(** * IEEE 754 single precision

    Rust's [f32] as the standard library's executable specification of binary32 ([SpecFloat]
    with 24 bits of precision and exponents below 128), rounding to nearest even. *)

From S2P Require Import Prelude.
From Stdlib Require Import SpecFloat.

Definition f32 : Type := spec_float.

Definition f32_of_Z (z : Z) : f32 := binary_normalize 24 128 z 0 false.
Definition f32_mul (a b : f32) : f32 := SFmul 24 128 a b.
Definition f32_le (a b : f32) : bool := SFleb a b.
Definition f32_lt (a b : f32) : bool := SFltb a b.

(** A decimal literal [n/d]: the quotient of two exact integers, rounded once. *)
Definition f32_lit (n d : Z) : f32 := SFdiv 24 128 (f32_of_Z n) (f32_of_Z d).

Definition f32_zero : f32 := S754_zero false.
Definition f32_one : f32 := f32_of_Z 1.

Definition f32_is_finite (a : f32) : bool :=
  match a with
  | S754_zero _ | S754_finite _ _ _ => true
  | S754_infinity _ | S754_nan => false
  end.

(** [(0.0..=1.0).contains(&a)] *)
Definition f32_unit_interval (a : f32) : bool := f32_le f32_zero a && f32_le a f32_one.

(** [f32::min] and [f32::max]: a NaN gives way to the other operand. Rust leaves open which
    zero is the smaller one; the model keeps the first operand on a tie. *)
Definition f32_min (a b : f32) : f32 :=
  match a, b with
  | S754_nan, _ => b
  | _, S754_nan => a
  | _, _ => if f32_lt b a then b else a
  end.
Definition f32_max (a b : f32) : f32 :=
  match a, b with
  | S754_nan, _ => b
  | _, S754_nan => a
  | _, _ => if f32_lt a b then b else a
  end.

(** [f32::total_cmp], with the one NaN above every number. *)
Definition f32_total_cmp (a b : f32) : comparison :=
  match a, b with
  | S754_nan, S754_nan => Eq
  | S754_nan, _ => Gt
  | _, S754_nan => Lt
  | S754_zero true, S754_zero false => Lt
  | S754_zero false, S754_zero true => Gt
  | _, _ => match SFcompare a b with
            | Some c => c
            | None => Eq
            end
  end.

(** [f32::to_bits] of a canonical value; the NaN is the quiet one. *)
Definition f32_to_bits (a : f32) : Z :=
  let sign (s : bool) := if s then 2 ^ 31 else 0 in
  match a with
  | S754_zero s => sign s
  | S754_infinity s => sign s + 255 * 2 ^ 23
  | S754_nan => 255 * 2 ^ 23 + 2 ^ 22
  | S754_finite s m e =>
      if Zpos m <? 2 ^ 23 then sign s + Zpos m
      else sign s + (e + 150) * 2 ^ 23 + (Zpos m - 2 ^ 23)
  end.
