(* ===== verification/Domain.v ===== *)
(** * Domain vocabulary shared by the components

    crates/lattice-domain/src: device identifiers (device.rs), evidence families
    and facts (evidence.rs) and presence states with the public presence event
    (presence.rs). *)

From S2P Require Import Prelude Time F32.

(** A UUID, by its 128-bit value. *)
Definition DeviceId : Type := N.

Inductive EvidenceFamily :=
  | LinkLayer | Addressing | Naming | Service | Cryptographic | RouterHint | Owner.
#[global] Instance EvidenceFamily_eq_dec : EqDecision EvidenceFamily.
Proof. solve_decision. Defined.

Record EvidenceFact := {
  ef_family : EvidenceFamily;
  ef_source : string;
  ef_key : string;
  ef_value : string;
  ef_confidence : f32;
  ef_observed_at : DateTime;
  ef_expires_at : option DateTime;
  ef_owner_confirmed : bool
}.

Inductive PresenceState := Online | Quiet | Offline | Blocked | Unknown.
#[global] Instance PresenceState_eq_dec : EqDecision PresenceState.
Proof. solve_decision. Defined.

Record PresenceChanged := {
  pc_transition_id : Z;
  pc_device_id : DeviceId;
  pc_from : PresenceState;
  pc_to : PresenceState;
  pc_occurred_at : DateTime;
  pc_reason : string;
  pc_trigger_source : string;
  pc_trigger_kind : string;
  pc_evidence_observed_at : DateTime;
  pc_evidence_valid_until : option DateTime;
  pc_trigger_arrival_at : DateTime;
  pc_correction_of : option Z
}.
