(* ===== verification/Policy.v ===== *)
(** * Device approval policy

    crates/lattice-domain/src/policy.rs (the vocabulary) and
    crates/lattice-policy/src/lib.rs (the pure engine that decides, from a
    device's persisted record and the current time, what enforcement to request). *)

From S2P Require Import Prelude Time Text Domain.

Inductive Identification :=
  | IdUnknown
  | IdAutomatic (confidence_basis_points : Z) (evidence_families : list EvidenceFamily).

Inductive OwnerDecision := Pending | Approved | Rejected | Quarantined.
#[global] Instance OwnerDecision_eq_dec : EqDecision OwnerDecision.
Proof. solve_decision. Defined.

Inductive RiskSignal :=
  | RiskNone
  | HighConfidenceDangerSignal (confidence_basis_points : Z) (evidence : string).

Inductive Protection := ProtNone | Router | Collector | AdministratorPhone | SafetyDevice.
#[global] Instance Protection_eq_dec : EqDecision Protection.
Proof. solve_decision. Defined.

Record DevicePolicy := {
  dp_device_id : DeviceId;
  dp_first_seen_at : DateTime;
  dp_baseline_exempt : bool;
  dp_identification : Identification;
  dp_owner_decision : OwnerDecision;
  dp_risk : RiskSignal;
  dp_protection : Protection;
  dp_extension_until : option DateTime
}.

Inductive DeadlineKind := Unknown48Hours | Automatic7Days.
Record Deadline := { dl_kind : DeadlineKind; dl_due_at : DateTime }.
Inductive DeadlineWarning := Hours24 | Hours6 | Hour1.
Inductive RequestedAction := ActNone | ActQuarantine | PermanentBan | OwnerAttention.
#[global] Instance RequestedAction_eq_dec : EqDecision RequestedAction.
Proof. solve_decision. Defined.

Inductive PolicyReason :=
  | PendingConfirmation | BaselineExempt | HighConfidenceDanger | UnknownDeadlineExpired
  | AutomaticDeadlineExpired | OwnerExtension | OwnerApproved | OwnerRejected
  | OwnerQuarantined | ProtectedDevice.

Record Evaluation := {
  policy_version : Z;
  reason : PolicyReason;
  requested_action : RequestedAction;
  deadline : option Deadline;
  warning : option DeadlineWarning
}.

Definition UNKNOWN_POLICY_DEADLINE_HOURS : Z := 48.
Definition AUTOMATIC_POLICY_DEADLINE_HOURS : Z := 7 * 24.
Definition AUTOMATIC_IDENTITY_THRESHOLD_BPS : Z := 8500.

Definition terminal (r : PolicyReason) (a : RequestedAction) : Evaluation :=
  {| policy_version := 1; reason := r; requested_action := a; deadline := None; warning := None |}.
Definition visible (r : PolicyReason) : Evaluation := terminal r ActNone.
Definition quarantine (r : PolicyReason) : Evaluation := terminal r ActQuarantine.
Definition ban (r : PolicyReason) : Evaluation := terminal r PermanentBan.
Definition owner_attention : Evaluation := terminal ProtectedDevice OwnerAttention.

Definition POLICY_VERSION : Z := 1.
Definition BASELINE_WINDOW : Duration := hours 48.
Definition UNKNOWN_DEADLINE : Duration := hours UNKNOWN_POLICY_DEADLINE_HOURS.
Definition AUTOMATIC_DEADLINE : Duration := hours AUTOMATIC_POLICY_DEADLINE_HOURS.
Definition DANGER_THRESHOLD_BPS : Z := 9000.

Record PolicyEngine := { baseline_started_at : DateTime }.

(** [collect::<BTreeSet<_>>().len()] counts distinct families. *)
Definition distinct_families (l : list EvidenceFamily) : nat := length (remove_dups l).

(** The [matches!] on the risk signal. *)
Definition dangerous (d : DevicePolicy) : bool :=
  match dp_risk d with
  | HighConfidenceDangerSignal bps evidence =>
      (DANGER_THRESHOLD_BPS <=? bps) && negb (trim_is_empty evidence)
  | RiskNone => false
  end.

Definition automatically_identified (d : DevicePolicy) : bool :=
  match dp_identification d with
  | IdAutomatic bps families =>
      (AUTOMATIC_IDENTITY_THRESHOLD_BPS <=? bps) && Nat.leb 2 (distinct_families families)
  | IdUnknown => false
  end.

(** [device.extension_until.filter(|e| *e > original_due).unwrap_or(original_due)] *)
Definition extended_due (d : DevicePolicy) (original_due : DateTime) : DateTime :=
  match dp_extension_until d with
  | Some extension => if original_due <? extension then extension else original_due
  | None => original_due
  end.

Definition warning_for (remaining : Duration) : option DeadlineWarning :=
  if remaining <=? hours 1 then Some Hour1
  else if remaining <=? hours 6 then Some Hours6
  else if remaining <=? hours 24 then Some Hours24
  else None.

Section Engine.
Context `{Calendar}.

Definition is_baseline_member (e : PolicyEngine) (first_seen_at : DateTime) : bool :=
  is_some_and (fun window_end => (baseline_started_at e <=? first_seen_at)
                                 && (first_seen_at <? window_end))
    (checked_add_signed (baseline_started_at e) BASELINE_WINDOW).

Definition evaluate (e : PolicyEngine) (device : DevicePolicy) (now : DateTime) : Evaluation :=
  match dp_owner_decision device with
  | Rejected => ban OwnerRejected
  | Quarantined => quarantine OwnerQuarantined
  | Pending | Approved =>
    if dangerous device then
      if bool_decide (dp_protection device <> ProtNone) then owner_attention
      else quarantine HighConfidenceDanger
    else if bool_decide (dp_owner_decision device = Approved) then visible OwnerApproved
    else if dp_baseline_exempt device then visible BaselineExempt
    else
      let '(kind, original_due, expired_reason) :=
        if automatically_identified device
        then (Automatic7Days, checked_add_signed (dp_first_seen_at device) AUTOMATIC_DEADLINE,
              AutomaticDeadlineExpired)
        else (Unknown48Hours, checked_add_signed (dp_first_seen_at device) UNKNOWN_DEADLINE,
              UnknownDeadlineExpired) in
      match original_due with
      | None => owner_attention
      | Some original_due =>
        let due_at := extended_due device original_due in
        if due_at <=? now then
          if bool_decide (dp_protection device <> ProtNone) then owner_attention
          else quarantine expired_reason
        else
          {| policy_version := POLICY_VERSION;
             reason := if original_due <? due_at then OwnerExtension else PendingConfirmation;
             requested_action := ActNone;
             deadline := Some {| dl_kind := kind; dl_due_at := due_at |};
             warning := warning_for (due_at - now) |}
      end
  end.
End Engine.

(** ** What the engine promises *)
Section Spec.
Context `{Calendar}.

(** The deadline a pending device gets when it is first seen. *)
Definition original_deadline (d : DevicePolicy) : option DateTime :=
  checked_add_signed (dp_first_seen_at d)
    (if automatically_identified d then AUTOMATIC_DEADLINE else UNKNOWN_DEADLINE).

Definition effective_deadline (d : DevicePolicy) : option DateTime :=
  extended_due d <$> original_deadline d.

(** The device waits for the owner: no decision, no danger, no exemption. *)
Definition awaiting_owner (d : DevicePolicy) : bool :=
  bool_decide (dp_owner_decision d = Pending) && negb (dangerous d) && negb (dp_baseline_exempt d).

(** The grounds on which enforcement may act without an owner decision. *)
Definition grounds (d : DevicePolicy) (now : DateTime) : Prop :=
  dp_owner_decision d ∈ [Pending; Approved] /\
  (dangerous d = true \/
   (awaiting_owner d = true /\ exists due, effective_deadline d = Some due /\ due <= now)).

(** How pressing a warning is; a terminal evaluation carries none. *)
Definition warning_rank (w : option DeadlineWarning) : nat :=
  match w with
  | None => 0
  | Some Hours24 => 1
  | Some Hours6 => 2
  | Some Hour1 => 3
  end.

Lemma extended_due_ge d o : o <= extended_due d o.
Proof. unfold extended_due. repeat case_match; bprop; lia. Qed.

(** [evaluate] as a table, with the deadline computed once. *)
Lemma evaluate_table e d now :
  evaluate e d now =
    match dp_owner_decision d with
    | Rejected => ban OwnerRejected
    | Quarantined => quarantine OwnerQuarantined
    | _ =>
      if dangerous d then
        if decide (dp_protection d = ProtNone) then quarantine HighConfidenceDanger
        else owner_attention
      else if decide (dp_owner_decision d = Approved) then visible OwnerApproved
      else if dp_baseline_exempt d then visible BaselineExempt
      else match original_deadline d with
           | None => owner_attention
           | Some o =>
             let due := extended_due d o in
             if due <=? now then
               if decide (dp_protection d = ProtNone) then
                 quarantine (if automatically_identified d then AutomaticDeadlineExpired
                             else UnknownDeadlineExpired)
               else owner_attention
             else {| policy_version := 1;
                     reason := if o <? due then OwnerExtension else PendingConfirmation;
                     requested_action := ActNone;
                     deadline := Some {| dl_kind := if automatically_identified d
                                                    then Automatic7Days else Unknown48Hours;
                                         dl_due_at := due |};
                     warning := warning_for (due - now) |}
           end
    end.
Proof.
  unfold evaluate, original_deadline.
  destruct (dp_owner_decision d); try done; destruct (dangerous d);
    destruct (automatically_identified d); destruct (dp_protection d); try done;
    destruct (dp_baseline_exempt d); try done;
    destruct (checked_add_signed _ _); try done; simpl; by destruct (_ <=? now).
Qed.

Lemma evaluate_action e d now :
  requested_action (evaluate e d now) =
    match dp_owner_decision d with
    | Rejected => PermanentBan
    | Quarantined => ActQuarantine
    | _ =>
      let enforce := if decide (dp_protection d = ProtNone) then ActQuarantine else OwnerAttention in
      if dangerous d then enforce
      else if awaiting_owner d then
        match effective_deadline d with
        | None => OwnerAttention
        | Some due => if due <=? now then enforce else ActNone
        end
      else ActNone
    end.
Proof.
  rewrite evaluate_table. unfold awaiting_owner, effective_deadline.
  destruct (dp_owner_decision d); try done; simpl; destruct (dangerous d); simpl;
    try done; repeat case_decide; try done;
    destruct (dp_baseline_exempt d); try done; destruct (original_deadline d); try done;
    simpl; by case_match.
Qed.

(** C3. The engine asks for exactly the enforcement the policy allows: a permanent
    ban if and only if the owner rejected the device; a quarantine if and only if the owner
    quarantined it, or the device is unprotected and there are grounds (a dangerous
    risk signal, or a pending device whose effective deadline has passed); the owner's attention
    if and only if the same grounds hold for a protected device, or a waiting device's deadline
    does not fit the calendar. In particular a protected device is never acted on
    automatically. *)
Theorem evaluate_action_spec e d now :
  (requested_action (evaluate e d now) = PermanentBan <-> dp_owner_decision d = Rejected) /\
  (requested_action (evaluate e d now) = ActQuarantine <->
     dp_owner_decision d = Quarantined \/ (dp_protection d = ProtNone /\ grounds d now)) /\
  (requested_action (evaluate e d now) = OwnerAttention <->
     (dp_protection d <> ProtNone /\ grounds d now) \/
     (awaiting_owner d = true /\ effective_deadline d = None)).
Proof.
  rewrite evaluate_action. unfold grounds.
  assert (Hw : awaiting_owner d = true -> dp_owner_decision d = Pending /\ dangerous d = false).
  { unfold awaiting_owner. intros. by bprop. }
  destruct (dp_owner_decision d) eqn:Eo; repeat case_decide; destruct (dangerous d) eqn:Ed;
    destruct (awaiting_owner d) eqn:Ew; try (by destruct Hw);
    destruct (effective_deadline d) as [due|] eqn:Edl; simpl;
    rewrite ?list_elem_of_In; simpl;
    try (destruct (Z.leb_spec due now)); naive_solver lia.
Qed.

(** Time only ever tightens a decision on an unchanged record: once an
    action is requested the evaluation never changes again, and while nothing is requested the
    deadline stays the same and the warning level does not drop. *)
Theorem evaluate_monotone e d now now' :
  now <= now' ->
  (requested_action (evaluate e d now) <> ActNone -> evaluate e d now' = evaluate e d now) /\
  (requested_action (evaluate e d now') = ActNone ->
     deadline (evaluate e d now') = deadline (evaluate e d now) /\
     (warning_rank (warning (evaluate e d now)) <= warning_rank (warning (evaluate e d now')))%nat).
Proof.
  intros Hle. rewrite !evaluate_table.
  destruct (dp_owner_decision d); simpl; try done;
    destruct (dangerous d); simpl; repeat case_decide; simpl; try done;
    destruct (dp_baseline_exempt d); simpl; try done;
    destruct (original_deadline d) as [o|]; simpl; try done;
    pose proof (extended_due_ge d o);
    destruct (Z.leb_spec (extended_due d o) now), (Z.leb_spec (extended_due d o) now');
    simpl; try lia; try done; (split; [done|]); intros _; (split; [done|]);
    unfold warning_for; repeat case_match; bprop; simpl; lia.
Qed.

(** A deadline is reported exactly for a waiting device whose effective
    deadline lies in the future; an owner extension can only move it later than the
    original 48 hours or 7 days, the reason tells which, and the warning is the tightest of
    24, 6 and 1 hours that the remaining time fits in. *)
Theorem evaluate_deadline_spec e d now dl :
  deadline (evaluate e d now) = Some dl <->
  awaiting_owner d = true /\ now < dl_due_at dl /\
  dl_kind dl = (if automatically_identified d then Automatic7Days else Unknown48Hours) /\
  exists original,
    original_deadline d = Some original /\
    dl_due_at dl = extended_due d original /\ original <= dl_due_at dl /\
    reason (evaluate e d now) =
      (if original <? dl_due_at dl then OwnerExtension else PendingConfirmation) /\
    warning (evaluate e d now) = warning_for (dl_due_at dl - now).
Proof.
  rewrite evaluate_table. unfold awaiting_owner.
  destruct (dp_owner_decision d); simpl; try naive_solver;
    destruct (dangerous d); simpl; try (repeat case_decide; naive_solver);
    destruct (dp_baseline_exempt d); simpl; try naive_solver.
  destruct (original_deadline d) as [o|]; simpl; [|naive_solver].
  pose proof (extended_due_ge d o).
  destruct (Z.leb_spec (extended_due d o) now); simpl.
  - split; [repeat case_decide; done|]. intros (_ & ? & _ & ? & [= <-] & ? & _). lia.
  - split.
    + intros [= <-]. simpl. naive_solver.
    + intros (_ & ? & Hk & ? & [= <-] & Hd & _). destruct dl; simpl in *. by subst.
Qed.
End Spec.

(** ** Witnesses *)
Definition example_device : DevicePolicy := {|
  dp_device_id := 7%N; dp_first_seen_at := 0; dp_baseline_exempt := false;
  dp_identification := IdAutomatic 9000 [Naming; Service; Naming];
  dp_owner_decision := Pending; dp_risk := RiskNone; dp_protection := ProtNone;
  dp_extension_until := Some (hours 200) |}.

Lemma evaluate_monotone_witness :
  requested_action (evaluate {| baseline_started_at := 0 |} example_device (hours 201)) = ActQuarantine /\
  evaluate {| baseline_started_at := 0 |} example_device (hours 300) =
  evaluate {| baseline_started_at := 0 |} example_device (hours 201).
Proof.
  split; [vm_compute; reflexivity|].
  apply (evaluate_monotone {| baseline_started_at := 0 |} example_device (hours 201) (hours 300));
    vm_compute; discriminate.
Defined.
