(* ===== verification/EventBus.v ===== *)
(** * The event bus

    crates/lattice-event-bus/src/lib.rs: a sequence counter, a bounded replay
    buffer and a tokio broadcast sender behind one mutex. Every operation holds
    the mutex for its whole body, so it is one atomic step on [State]. The
    broadcast channel is tokio's: the model keeps the envelopes handed to it, in
    order, and [publish] ignores whether anyone receives them. *)

From S2P Require Import Prelude Time.

Section Bus.
Context {EventPayload : Type}.

Record EventEnvelope := {
  sequence : Z;
  occurred_at : DateTime;
  payload : EventPayload
}.

Inductive Resume :=
  | Events (events : list EventEnvelope)
  | SnapshotRequired.

Record State := {
  next_sequence : Z;
  replay : list EventEnvelope
}.

Record EventBus := {
  replay_capacity : nat;
  state : State;
  sender : list EventEnvelope
}.

(** [EventBus::new]; [None] is the failed assertion on a zero capacity. *)
Definition new (replay_capacity subscriber_capacity : nat) : option EventBus :=
  if Nat.ltb 0 replay_capacity then
    if Nat.ltb 0 subscriber_capacity then
      Some {| replay_capacity := replay_capacity;
              state := {| next_sequence := 1; replay := [] |};
              sender := [] |}
    else None
  else None.

(** [while replay.len() > capacity { replay.pop_front() }] *)
Fixpoint pop_excess (capacity : nat) (l : list EventEnvelope) : list EventEnvelope :=
  match l with
  | [] => []
  | _ :: l' => if Nat.ltb capacity (length l) then pop_excess capacity l' else l
  end.

(** [publish]; [None] is the panic on an exhausted sequence, which happens
    before any field is written. *)
Definition publish (bus : EventBus) (at_ : DateTime) (p : EventPayload)
  : option (EventEnvelope * EventBus) :=
  let st := state bus in
  match checked_add_u64 (next_sequence st) 1 with
  | None => None
  | Some following_sequence =>
    let envelope := {| sequence := next_sequence st; occurred_at := at_; payload := p |} in
    Some (envelope,
          {| replay_capacity := replay_capacity bus;
             state := {| next_sequence := following_sequence;
                         replay := pop_excess (replay_capacity bus) (replay st ++ [envelope]) |};
             sender := sender bus ++ [envelope] |})
  end.

Definition current_sequence (bus : EventBus) : Z :=
  saturating_sub_u64 (next_sequence (state bus)) 1.

Definition resume_after (bus : EventBus) (seq : Z) : Resume :=
  let st := state bus in
  let last_sequence := saturating_sub_u64 (next_sequence st) 1 in
  if seq =? last_sequence then Events []
  else if last_sequence <? seq then SnapshotRequired
  else match replay st with
       | [] => SnapshotRequired
       | oldest :: _ =>
         if saturating_add_u64 seq 1 <? sequence oldest then SnapshotRequired
         else Events (List.filter (fun event => seq <? sequence event) (replay st))
       end.

(** ** Abstract specification: an append-only log

    The bus promises its subscribers the behaviour of an unbounded log of
    which only the last [cap] entries may be asked for. *)
Definition log_resume (cap : nat) (log : list EventEnvelope) (seq : nat) : Resume :=
  if decide (seq <= length log <= seq + cap)%nat then Events (drop seq log)
  else SnapshotRequired.

(** A bus after the publications [log], in order. *)
Inductive reaches (cap : nat) : list EventEnvelope -> EventBus -> Prop :=
  | reaches_new subs bus : new cap subs = Some bus -> reaches cap [] bus
  | reaches_publish log bus at_ p env bus' :
      reaches cap log bus -> publish bus at_ p = Some (env, bus') ->
      reaches cap (log ++ [env]) bus'.

(** Publishing a batch. *)
Fixpoint publish_all (bus : EventBus) (l : list (DateTime * EventPayload))
  : option (list EventEnvelope * EventBus) :=
  match l with
  | [] => Some ([], bus)
  | (t, p) :: l' =>
      match publish bus t p with
      | None => None
      | Some (env, bus1) =>
          match publish_all bus1 l' with
          | None => None
          | Some (envs, bus2) => Some (env :: envs, bus2)
          end
      end
  end.

(** The representation invariant that ties the bus to the log. *)
Definition represents (cap : nat) (log : list EventEnvelope) (bus : EventBus) : Prop :=
  replay_capacity bus = cap /\ (0 < cap)%nat /\
  next_sequence (state bus) = Z.of_nat (length log) + 1 /\
  next_sequence (state bus) <= u64_max /\
  replay (state bus) = drop (length log - cap) log /\
  sender bus = log /\
  (forall i e, log !! i = Some e -> sequence e = Z.of_nat i + 1).

Lemma pop_excess_drop c l : pop_excess c l = drop (length l - c) l.
Proof.
  induction l as [|x l IH]; [done|]. cbn [pop_excess].
  destruct (Nat.ltb_spec c (length (x :: l))) as [Hlt|Hge]; cbn [length] in *.
  - rewrite IH. by replace (S (length l) - c)%nat with (S (length l - c)) by lia.
  - by replace (S (length l) - c)%nat with 0%nat by lia.
Qed.

Lemma represents_publish cap log bus at_ p env bus' :
  represents cap log bus -> publish bus at_ p = Some (env, bus') ->
  represents cap (log ++ [env]) bus'.
Proof.
  intros (Hc & Hpos & Hn & Hmax & Hr & Hs & Hseq). unfold publish.
  destruct (checked_add_u64 _ _) as [f|] eqn:E; [|done]. apply checked_add_u64_some in E as [-> E].
  intros [= <- <-]. repeat split; simpl; try done.
  - rewrite length_app. simpl. lia.
  - rewrite pop_excess_drop, Hr, Hc, !length_app, length_drop. simpl.
    destruct (decide (length log <= cap)%nat).
    + replace (length log - cap)%nat with 0%nat by lia.
      rewrite drop_0. f_equal. lia.
    + rewrite !drop_app_le, drop_drop by (rewrite ?length_drop; lia). f_equal. f_equal. lia.
  - by rewrite Hs.
  - intros i e He. destruct (decide (i < length log)%nat).
    + rewrite lookup_app_l in He by lia. eauto.
    + rewrite lookup_app_r in He by lia.
      destruct (i - length log)%nat eqn:Ei; simpl in He; simplify_eq. simpl. lia.
Qed.

Lemma reaches_represents cap log bus : reaches cap log bus -> represents cap log bus.
Proof.
  induction 1 as [subs bus Hn|log bus at_ p env bus' Hr IH Hp]; [|eauto using represents_publish].
  unfold new in Hn. destruct (Nat.ltb_spec 0 cap), (Nat.ltb_spec 0 subs); simplify_eq.
  repeat split; simpl; try done; try lia.
Qed.

Lemma publish_all_reaches cap log bus l envs bus' :
  reaches cap log bus -> publish_all bus l = Some (envs, bus') -> reaches cap (log ++ envs) bus'.
Proof.
  revert log bus envs. induction l as [|[t p] l IH]; intros log bus envs Hr; simpl.
  - intros [= <- <-]. by rewrite app_nil_r.
  - destruct (publish bus t p) as [[env bus1]|] eqn:E; [|done].
    destruct (publish_all bus1 l) as [[es b2]|] eqn:E2; [|done]. intros [= <- <-].
    replace (log ++ env :: es) with ((log ++ [env]) ++ es) by by rewrite <- app_assoc.
    eauto using reaches_publish.
Qed.

(** Sequence numbers select a suffix of any contiguous part of the log. *)
Lemma filter_sequence (l : list EventEnvelope) (k n : nat) :
  (forall i e, l !! i = Some e -> sequence e = Z.of_nat (k + i) + 1) -> (k <= n)%nat ->
  List.filter (fun e => Z.of_nat n <? sequence e) l = drop (n - k) l.
Proof.
  revert k. induction l as [|x l IH]; intros k Hl Hk; simpl; [by rewrite drop_nil|].
  pose proof (Hl 0%nat x eq_refl) as Hx.
  assert (Hl' : forall i e, l !! i = Some e -> sequence e = Z.of_nat (S k + i) + 1).
  { intros i e He. rewrite (Hl (S i) e He). lia. }
  destruct (Z.ltb_spec (Z.of_nat n) (sequence x)).
  - replace (n - k)%nat with 0%nat by lia. simpl. f_equal.
    assert (k = n) as -> by lia. clear IH.
    enough (forall m, (n < m)%nat -> (forall i e, l !! i = Some e -> sequence e = Z.of_nat (m + i) + 1) ->
      List.filter (fun e => Z.of_nat n <? sequence e) l = l) as Hgo by (apply (Hgo (S n)); [lia|done]).
    clear Hl Hl' Hx. induction l as [|y l IH]; intros m Hm Hl; simpl; [done|].
    pose proof (Hl 0%nat y eq_refl). destruct (Z.ltb_spec (Z.of_nat n) (sequence y)); [|lia].
    f_equal. apply (IH (S m)); [lia|]. intros i e He. rewrite (Hl (S i) e He). lia.
  - replace (n - k)%nat with (S (n - S k)) by lia. simpl. apply IH; [done|lia].
Qed.

(** C4. The bounded bus refines the unbounded log: after any history of
    publications, asking to resume after sequence [n] answers with exactly the published
    events whose sequence is above [n] when at most [cap] of them are missing, and demands a
    snapshot otherwise (more than [cap] missed, or a cursor from the future); no event is ever
    silently skipped, and the broadcast channel was given the whole log in order. *)
Theorem resume_after_refines_log cap log bus (n : nat) :
  reaches cap log bus -> Z.of_nat n <= u64_max ->
  resume_after bus (Z.of_nat n) = log_resume cap log n /\
  sender bus = log /\ current_sequence bus = Z.of_nat (length log).
Proof.
  intros (Hc & Hpos & Hn & Hmax & Hr & Hs & Hseq)%reaches_represents Hu.
  unfold resume_after, log_resume, current_sequence. rewrite Hn.
  replace (saturating_sub_u64 _ 1) with (Z.of_nat (length log)) by (unfold saturating_sub_u64; lia).
  split; [|done].
  destruct (Z.eqb_spec (Z.of_nat n) (Z.of_nat (length log))) as [He|Hne].
  { rewrite decide_True by lia. f_equal. symmetry. apply drop_ge. lia. }
  destruct (Z.ltb_spec (Z.of_nat (length log)) (Z.of_nat n)); [by rewrite decide_False by lia|].
  rewrite Hr.
  assert (Hdseq : forall i e, drop (length log - cap) log !! i = Some e ->
            sequence e = Z.of_nat ((length log - cap) + i) + 1).
  { intros i e. rewrite lookup_drop. apply Hseq. }
  destruct (drop (length log - cap) log) as [|o l] eqn:Ed.
  { apply (f_equal length) in Ed. rewrite length_drop in Ed. simpl in Ed. lia. }
  pose proof (Hdseq 0%nat o eq_refl) as Ho.
  unfold saturating_add_u64. rewrite Z.min_r by lia.
  destruct (Z.ltb_spec (Z.of_nat n + 1) (sequence o)); [by rewrite decide_False by lia|].
  rewrite decide_True by lia. f_equal.
  rewrite (filter_sequence (o :: l) (length log - cap) n Hdseq) by lia.
  rewrite <- Ed, drop_drop. f_equal. lia.
Qed.

(** Publication is total and gap-free until the 64-bit sequence space is used
    up: while fewer than [u64::MAX - 1] events were published, [publish] succeeds and assigns
    the next consecutive sequence number; only at [u64::MAX] does it panic, and the bus is
    unchanged by then. *)
Theorem publish_total cap log bus at_ p :
  reaches cap log bus ->
  match publish bus at_ p with
  | Some (env, bus') =>
      sequence env = Z.of_nat (length log) + 1 /\ payload env = p /\ occurred_at env = at_ /\
      (length (replay (state bus')) <= cap)%nat /\ reaches cap (log ++ [env]) bus'
  | None => next_sequence (state bus) = u64_max
  end.
Proof.
  intros Hre. pose proof Hre as (Hc & Hpos & Hn & Hmax & Hr & Hs & Hseq)%reaches_represents.
  destruct (publish bus at_ p) as [[env bus']|] eqn:E.
  - pose proof (reaches_publish _ _ _ _ _ _ _ Hre E) as Hre'.
    pose proof Hre' as (_ & _ & _ & _ & Hr' & _)%reaches_represents.
    assert (length (replay (state bus')) <= cap)%nat by (rewrite Hr', length_drop; lia).
    unfold publish in E. destruct (checked_add_u64 _ _); simplify_eq. done.
  - unfold publish, checked_add_u64 in E.
    destruct (Z.leb_spec (next_sequence (state bus) + 1) u64_max); simplify_eq. lia.
Qed.
End Bus.
Arguments EventEnvelope : clear implicits.
Arguments EventBus : clear implicits.
Arguments Resume : clear implicits.

(** ** Witnesses *)
Definition demo_bus : option (EventBus nat) :=
  bus0 ← new 2 1; snd <$> publish_all bus0 [(10, 0%nat); (11, 1%nat); (12, 2%nat)].

Definition demo_env (i : nat) : EventEnvelope nat :=
  {| sequence := Z.of_nat i + 1; occurred_at := 10 + Z.of_nat i; payload := i |}.

Lemma demo_reaches :
  exists bus, demo_bus = Some bus /\ reaches 2 (map demo_env [0; 1; 2]%nat) bus.
Proof.
  eexists. split; [vm_compute; reflexivity|].
  apply (publish_all_reaches 2 [] {| replay_capacity := 2;
    state := {| next_sequence := 1; replay := [] |}; sender := [] |}
    [(10, 0%nat); (11, 1%nat); (12, 2%nat)]); [|vm_compute; reflexivity].
  by apply (reaches_new 2 1).
Defined.

Lemma resume_after_refines_log_witness :
  exists bus, demo_bus = Some bus /\
    resume_after bus 1 = Events (map demo_env [1; 2]%nat) /\
    resume_after bus 0 = SnapshotRequired.
Proof.
  destruct demo_reaches as (bus & Hd & Hr). exists bus. split; [exact Hd|]. split.
  - refine (eq_trans (proj1 (resume_after_refines_log 2 _ bus 1 Hr _)) _); [|reflexivity].
    vm_compute; discriminate.
  - refine (eq_trans (proj1 (resume_after_refines_log 2 _ bus 0 Hr _)) _); [|reflexivity].
    vm_compute; discriminate.
Defined.

Lemma publish_total_witness :
  exists bus env bus', demo_bus = Some bus /\ publish bus 13 3%nat = Some (env, bus') /\ sequence env = 4.
Proof.
  destruct demo_reaches as (bus & Hd & Hr). exists bus.
  pose proof (publish_total 2 _ bus 13 3%nat Hr) as Hp.
  destruct (publish bus 13 3%nat) as [[env bus']|] eqn:E.
  - exists env, bus'. split; [exact Hd|]. split; [reflexivity|]. exact (proj1 Hp).
  - vm_compute in Hd. injection Hd as <-. vm_compute in Hp. discriminate.
Defined.
