(* ===== verification/Presence.v ===== *)
(** * The presence engine: data and operations

    crates/lattice-intelligence/src/presence.rs. The engine keeps, per
    device, a bounded store of evidence, a bounded history of transitions and the
    control flags; [ingest_events], [record_verified_enforcement] and [evaluate]
    are its state-changing operations. [&mut self] is explicit state passing:
    an operation returns its [Result] together with the engine it leaves behind,
    also when it fails. The clock and every timestamp are arguments, as in the code. *)

From S2P Require Import Prelude Time Text Domain.

Record PresenceConfig := {
  online_window : Duration;
  correction_window : Duration;
  retention : Duration;
  future_skew : Duration;
  confirmation_window : Duration;
  trusted_sources : list string;
  join_confirmations : nat;
  departure_confirmations : nat;
  max_devices : nat;
  max_evidence_per_device : nat;
  max_history_per_device : nat;
  max_source_len : nat
}.

Definition default_config : PresenceConfig := {|
  online_window := seconds 30;
  correction_window := minutes 5;
  retention := hours 24;
  future_skew := seconds 5;
  confirmation_window := minutes 2;
  trusted_sources := ["sensor-a"%string];
  join_confirmations := 2;
  departure_confirmations := 2;
  max_devices := 4096;
  max_evidence_per_device := 256;
  max_history_per_device := 128;
  max_source_len := 128 |}.

Inductive PresenceError :=
  | InvalidConfig
  | Untrusted
  | InvalidEvidence (what : string)
  | Capacity (what : string)
  | DeviceNotFound
  | ClockRollback
  | SequenceExhausted
  | CursorExpired
  | InvalidCheckpoint (what : string).

Definition validate_config (c : PresenceConfig) : result unit PresenceError :=
  if (online_window c <=? 0) || (correction_window c <=? 0)
     || (retention c <? correction_window c) || (retention c <? online_window c)
     || (retention c <? confirmation_window c) || (confirmation_window c <=? 0)
     || (future_skew c <? 0)
  then Err InvalidConfig
  else if bool_decide (trusted_sources c = []) || Nat.ltb 256 (length (trusted_sources c))
          || existsb (fun s => str_is_empty s || Nat.ltb (max_source_len c) (String.length s))
               (trusted_sources c)
  then Err InvalidConfig
  else if existsb (Nat.eqb 0) [join_confirmations c; departure_confirmations c; max_devices c;
                               max_evidence_per_device c; max_history_per_device c; max_source_len c]
  then Err InvalidConfig
  else Ok tt.

Inductive PresenceEvidenceKind :=
  | Traffic | Lease | RouterAssociation | NeighborCache | ProbeSuccess | ConfirmationFailure
  | EnforcementBlocked | EnforcementUnblocked | SensorImpaired | SensorRecovered
  | Contradiction | ContradictionCleared | Evaluation.
#[global] Instance PresenceEvidenceKind_eq_dec : EqDecision PresenceEvidenceKind.
Proof. solve_decision. Defined.

(** The derived [Ord]: declaration order. *)
Definition kind_rank (k : PresenceEvidenceKind) : Z :=
  match k with
  | Traffic => 0 | Lease => 1 | RouterAssociation => 2 | NeighborCache => 3 | ProbeSuccess => 4
  | ConfirmationFailure => 5 | EnforcementBlocked => 6 | EnforcementUnblocked => 7
  | SensorImpaired => 8 | SensorRecovered => 9 | Contradiction => 10
  | ContradictionCleared => 11 | Evaluation => 12
  end.

Definition kind_as_str (k : PresenceEvidenceKind) : string :=
  match k with
  | Traffic => "traffic" | Lease => "lease" | RouterAssociation => "router_association"
  | NeighborCache => "neighbor_cache" | ProbeSuccess => "probe_success"
  | ConfirmationFailure => "confirmation_failure" | EnforcementBlocked => "enforcement_blocked"
  | EnforcementUnblocked => "enforcement_unblocked" | SensorImpaired => "sensor_impaired"
  | SensorRecovered => "sensor_recovered" | Contradiction => "contradiction"
  | ContradictionCleared => "contradiction_cleared" | Evaluation => "evaluation"
  end.

Record PresenceEvidence := {
  pe_device_id : DeviceId;
  pe_source : string;
  pe_kind : PresenceEvidenceKind;
  pe_observed_at : DateTime;
  pe_valid_until : option DateTime
}.
#[global] Instance PresenceEvidence_eq_dec : EqDecision PresenceEvidence.
Proof. solve_decision. Defined.

Record PresenceTrigger := {
  pt_source : string;
  pt_kind : PresenceEvidenceKind;
  pt_observed_at : DateTime;
  pt_valid_until : option DateTime;
  pt_arrival_at : DateTime
}.
#[global] Instance PresenceTrigger_eq_dec : EqDecision PresenceTrigger.
Proof. solve_decision. Defined.

Record PresenceTransition := {
  tr_transition_id : Z;
  tr_device_id : DeviceId;
  tr_from : PresenceState;
  tr_to : PresenceState;
  tr_occurred_at : DateTime;
  tr_trigger : PresenceTrigger;
  tr_correction_of : option Z
}.
#[global] Instance PresenceTransition_eq_dec : EqDecision PresenceTransition.
Proof. solve_decision. Defined.

(** [impl From<&PresenceTransition> for PresenceChanged]. *)
Definition presence_changed (t : PresenceTransition) : PresenceChanged := {|
  pc_transition_id := tr_transition_id t;
  pc_device_id := tr_device_id t;
  pc_from := tr_from t;
  pc_to := tr_to t;
  pc_occurred_at := tr_occurred_at t;
  pc_reason := match tr_correction_of t with
               | Some _ => "late_evidence_correction"
               | None => "presence_evidence"
               end;
  pc_trigger_source := pt_source (tr_trigger t);
  pc_trigger_kind := kind_as_str (pt_kind (tr_trigger t));
  pc_evidence_observed_at := pt_observed_at (tr_trigger t);
  pc_evidence_valid_until := pt_valid_until (tr_trigger t);
  pc_trigger_arrival_at := pt_arrival_at (tr_trigger t);
  pc_correction_of := tr_correction_of t |}.

Record DevicePresence := {
  dp_state : PresenceState;
  dp_evidence : list PresenceEvidence;
  dp_history : list PresenceTransition;
  dp_last_evaluation : DateTime;
  dp_ever_supported : bool;
  dp_blocked : bool;
  dp_impaired : bool;
  dp_contradictory : bool;
  dp_enforcement_clock : option DateTime;
  dp_impairment_clock : option DateTime;
  dp_contradiction_clock : option DateTime;
  dp_evicted_through : option Z
}.

(** The [DevicePresence] literal of a device seen for the first time. *)
Definition initial_device (arrival : DateTime) : DevicePresence := {|
  dp_state := Unknown; dp_evidence := []; dp_history := []; dp_last_evaluation := arrival;
  dp_ever_supported := false; dp_blocked := false; dp_impaired := false;
  dp_contradictory := false; dp_enforcement_clock := None; dp_impairment_clock := None;
  dp_contradiction_clock := None; dp_evicted_through := None |}.

Record PresenceEngine := {
  cfg : PresenceConfig;
  devices : gmap DeviceId DevicePresence;
  next_transition : Z
}.

(** *** Field assignments *)
Definition set_state (s : PresenceState) (d : DevicePresence) : DevicePresence := {|
  dp_state := s; dp_evidence := dp_evidence d; dp_history := dp_history d;
  dp_last_evaluation := dp_last_evaluation d; dp_ever_supported := dp_ever_supported d;
  dp_blocked := dp_blocked d; dp_impaired := dp_impaired d;
  dp_contradictory := dp_contradictory d; dp_enforcement_clock := dp_enforcement_clock d;
  dp_impairment_clock := dp_impairment_clock d;
  dp_contradiction_clock := dp_contradiction_clock d;
  dp_evicted_through := dp_evicted_through d |}.

Definition set_evidence (l : list PresenceEvidence) (d : DevicePresence) : DevicePresence := {|
  dp_state := dp_state d; dp_evidence := l; dp_history := dp_history d;
  dp_last_evaluation := dp_last_evaluation d; dp_ever_supported := dp_ever_supported d;
  dp_blocked := dp_blocked d; dp_impaired := dp_impaired d;
  dp_contradictory := dp_contradictory d; dp_enforcement_clock := dp_enforcement_clock d;
  dp_impairment_clock := dp_impairment_clock d;
  dp_contradiction_clock := dp_contradiction_clock d;
  dp_evicted_through := dp_evicted_through d |}.

Definition set_history (h : list PresenceTransition) (ev : option Z) (d : DevicePresence)
  : DevicePresence := {|
  dp_state := dp_state d; dp_evidence := dp_evidence d; dp_history := h;
  dp_last_evaluation := dp_last_evaluation d; dp_ever_supported := dp_ever_supported d;
  dp_blocked := dp_blocked d; dp_impaired := dp_impaired d;
  dp_contradictory := dp_contradictory d; dp_enforcement_clock := dp_enforcement_clock d;
  dp_impairment_clock := dp_impairment_clock d;
  dp_contradiction_clock := dp_contradiction_clock d;
  dp_evicted_through := ev |}.

Definition set_last_evaluation (t : DateTime) (d : DevicePresence) : DevicePresence := {|
  dp_state := dp_state d; dp_evidence := dp_evidence d; dp_history := dp_history d;
  dp_last_evaluation := t; dp_ever_supported := dp_ever_supported d;
  dp_blocked := dp_blocked d; dp_impaired := dp_impaired d;
  dp_contradictory := dp_contradictory d; dp_enforcement_clock := dp_enforcement_clock d;
  dp_impairment_clock := dp_impairment_clock d;
  dp_contradiction_clock := dp_contradiction_clock d;
  dp_evicted_through := dp_evicted_through d |}.

Definition set_ever_supported (b : bool) (d : DevicePresence) : DevicePresence := {|
  dp_state := dp_state d; dp_evidence := dp_evidence d; dp_history := dp_history d;
  dp_last_evaluation := dp_last_evaluation d; dp_ever_supported := b;
  dp_blocked := dp_blocked d; dp_impaired := dp_impaired d;
  dp_contradictory := dp_contradictory d; dp_enforcement_clock := dp_enforcement_clock d;
  dp_impairment_clock := dp_impairment_clock d;
  dp_contradiction_clock := dp_contradiction_clock d;
  dp_evicted_through := dp_evicted_through d |}.

Definition set_blocked (b : bool) (t : DateTime) (d : DevicePresence) : DevicePresence := {|
  dp_state := dp_state d; dp_evidence := dp_evidence d; dp_history := dp_history d;
  dp_last_evaluation := dp_last_evaluation d; dp_ever_supported := dp_ever_supported d;
  dp_blocked := b; dp_impaired := dp_impaired d;
  dp_contradictory := dp_contradictory d; dp_enforcement_clock := Some t;
  dp_impairment_clock := dp_impairment_clock d;
  dp_contradiction_clock := dp_contradiction_clock d;
  dp_evicted_through := dp_evicted_through d |}.

Definition set_impaired (b : bool) (t : DateTime) (d : DevicePresence) : DevicePresence := {|
  dp_state := dp_state d; dp_evidence := dp_evidence d; dp_history := dp_history d;
  dp_last_evaluation := dp_last_evaluation d; dp_ever_supported := dp_ever_supported d;
  dp_blocked := dp_blocked d; dp_impaired := b;
  dp_contradictory := dp_contradictory d; dp_enforcement_clock := dp_enforcement_clock d;
  dp_impairment_clock := Some t;
  dp_contradiction_clock := dp_contradiction_clock d;
  dp_evicted_through := dp_evicted_through d |}.

Definition set_contradictory (b : bool) (t : DateTime) (d : DevicePresence) : DevicePresence := {|
  dp_state := dp_state d; dp_evidence := dp_evidence d; dp_history := dp_history d;
  dp_last_evaluation := dp_last_evaluation d; dp_ever_supported := dp_ever_supported d;
  dp_blocked := dp_blocked d; dp_impaired := dp_impaired d;
  dp_contradictory := b; dp_enforcement_clock := dp_enforcement_clock d;
  dp_impairment_clock := dp_impairment_clock d;
  dp_contradiction_clock := Some t;
  dp_evicted_through := dp_evicted_through d |}.

Definition with_devices (m : gmap DeviceId DevicePresence) (pe : PresenceEngine) : PresenceEngine :=
  {| cfg := cfg pe; devices := m; next_transition := next_transition pe |}.
Definition with_next (n : Z) (pe : PresenceEngine) : PresenceEngine :=
  {| cfg := cfg pe; devices := devices pe; next_transition := n |}.

(** ** Evidence, flags and retention *)
Definition is_real_positive (k : PresenceEvidenceKind) : bool :=
  match k with
  | Traffic | Lease | RouterAssociation | NeighborCache => true
  | _ => false
  end.

Definition is_positive (k : PresenceEvidenceKind) : bool :=
  is_real_positive k || bool_decide (k = ProbeSuccess).

Definition apply_flags (d : DevicePresence) (e : PresenceEvidence) : DevicePresence :=
  let t := pe_observed_at e in
  let newer clock := is_none_or (fun x => x <=? t) clock in
  match pe_kind e with
  | EnforcementBlocked =>
      if newer (dp_enforcement_clock d) then set_blocked true t d else d
  | EnforcementUnblocked =>
      if newer (dp_enforcement_clock d) then set_blocked false t d else d
  | SensorImpaired =>
      if newer (dp_impairment_clock d) then set_impaired true t d else d
  | SensorRecovered =>
      if newer (dp_impairment_clock d) then set_impaired false t d else d
  | Contradiction =>
      if newer (dp_contradiction_clock d) then set_contradictory true t d else d
  | ContradictionCleared =>
      if newer (dp_contradiction_clock d) then set_contradictory false t d else d
  | _ => d
  end.

Definition stale_control_at (clock : option DateTime) (observed_at : DateTime)
    (active incoming_active : bool) : bool :=
  is_some_and (fun clock => (observed_at <? clock)
                            || ((observed_at =? clock) && (active || negb incoming_active))) clock.

Definition stale_control (d : DevicePresence) (e : PresenceEvidence) : bool :=
  let at_ := pe_observed_at e in
  match pe_kind e with
  | EnforcementBlocked | EnforcementUnblocked =>
      stale_control_at (dp_enforcement_clock d) at_ (dp_blocked d)
        (bool_decide (pe_kind e = EnforcementBlocked))
  | SensorImpaired | SensorRecovered =>
      stale_control_at (dp_impairment_clock d) at_ (dp_impaired d)
        (bool_decide (pe_kind e = SensorImpaired))
  | Contradiction | ContradictionCleared =>
      stale_control_at (dp_contradiction_clock d) at_ (dp_contradictory d)
        (bool_decide (pe_kind e = Contradiction))
  | _ => false
  end.

Definition semantically_retained (e : PresenceEvidence) (arrival : DateTime) (c : PresenceConfig)
  : bool :=
  match pe_kind e with
  | EnforcementBlocked | EnforcementUnblocked | SensorImpaired | SensorRecovered
  | Contradiction | ContradictionCleared => true
  | Lease | RouterAssociation | NeighborCache | ProbeSuccess =>
      match pe_valid_until e with
      | None => signed_duration_since arrival (pe_observed_at e) <=? retention c
      | Some until => signed_duration_since arrival until <=? correction_window c
      end
  | ConfirmationFailure =>
      signed_duration_since arrival (pe_observed_at e) <=? confirmation_window c
  | Traffic =>
      signed_duration_since arrival (pe_observed_at e)
        <=? Z.max (online_window c) (correction_window c)
  | Evaluation => signed_duration_since arrival (pe_observed_at e) <=? retention c
  end.

Definition control_state (evidence : list PresenceEvidence) (active inactive : PresenceEvidenceKind)
  : bool * option DateTime :=
  match iter_max (map pe_observed_at
          (List.filter (fun e => bool_decide (pe_kind e = active)
                                 || bool_decide (pe_kind e = inactive)) evidence)) with
  | None => (false, None)
  | Some clock =>
      (existsb (fun e => bool_decide (pe_kind e = active) && (pe_observed_at e =? clock)) evidence,
       Some clock)
  end.

Definition conflicting_controls (evidence : list PresenceEvidence)
    (active inactive : PresenceEvidenceKind) : bool :=
  existsb (fun left =>
    bool_decide (pe_kind left = active)
    && existsb (fun right => bool_decide (pe_kind right = inactive)
                             && (pe_observed_at right =? pe_observed_at left)) evidence) evidence.

Definition control_family (k : PresenceEvidenceKind) : option Z :=
  match k with
  | EnforcementBlocked | EnforcementUnblocked => Some 0
  | SensorImpaired | SensorRecovered => Some 1
  | Contradiction | ContradictionCleared => Some 2
  | _ => None
  end.

(** One pass of the loop [for family in 0..3]. *)
Definition prune_family (family : Z) (evidence : list PresenceEvidence) : list PresenceEvidence :=
  let latest := iter_max (map pe_observed_at
    (List.filter (fun e => bool_decide (control_family (pe_kind e) = Some family)) evidence)) in
  retain (fun e => negb (bool_decide (control_family (pe_kind e) = Some family))
                   || is_none_or (fun at_ => pe_observed_at e =? at_) latest) evidence.

Definition prune_control_evidence (evidence : list PresenceEvidence) : list PresenceEvidence :=
  prune_family 2 (prune_family 1 (prune_family 0 evidence)).

(** The tuple order of [sort_evidence]; [None] sorts before [Some]. *)
Definition option_cmp (a b : option Z) : comparison :=
  match a, b with
  | None, None => Eq
  | None, Some _ => Lt
  | Some _, None => Gt
  | Some x, Some y => Z.compare x y
  end.

Definition evidence_cmp (a b : PresenceEvidence) : comparison :=
  match Z.compare (pe_observed_at a) (pe_observed_at b) with
  | Eq => match String.compare (pe_source a) (pe_source b) with
          | Eq => match Z.compare (kind_rank (pe_kind a)) (kind_rank (pe_kind b)) with
                  | Eq => option_cmp (pe_valid_until a) (pe_valid_until b)
                  | c => c
                  end
          | c => c
          end
  | c => c
  end.

Definition evidence_le (a b : PresenceEvidence) : Prop := evidence_cmp a b <> Gt.
#[global] Instance evidence_le_dec : RelDecision evidence_le.
Proof. intros a b. unfold evidence_le. destruct (evidence_cmp a b); [left|left|right]; congruence. Defined.

Definition sort_evidence (v : list PresenceEvidence) : list PresenceEvidence :=
  merge_sort evidence_le v.

(** The [HashSet] of (source, kind, observed_at). *)
Definition distinct_count (l : list PresenceEvidence) : nat :=
  length (remove_dups (map (fun e => (pe_source e, pe_kind e, pe_observed_at e)) l)).

Definition confirmations (d : DevicePresence) (at_ : DateTime) (window : Duration)
    (pred : PresenceEvidenceKind -> bool) : nat :=
  distinct_count (List.filter (fun e =>
    pred (pe_kind e) && (pe_observed_at e <=? at_)
    && (signed_duration_since at_ (pe_observed_at e) <=? window)) (dp_evidence d)).

(** ** Bounded history *)

(** The inner [while]: corrections of the evicted departure leave with it. *)
Fixpoint drop_dependents (evicted : Z) (h : list PresenceTransition) (through : option Z)
  : list PresenceTransition * option Z :=
  match h with
  | next :: h' =>
      if bool_decide (tr_correction_of next = Some evicted)
      then drop_dependents evicted h' (Some (tr_transition_id next))
      else (h, through)
  | [] => ([], through)
  end.

(** The outer [while d.history.len() >= max]; each round pops at least one
    entry, so [length h] rounds are enough. *)
Fixpoint evict_rounds (fuel : nat) (max : nat) (h : list PresenceTransition) (through : option Z)
  : list PresenceTransition * option Z :=
  match fuel with
  | O => (h, through)
  | S fuel' =>
      if Nat.leb max (length h) then
        match h with
        | [] => (h, through)
        | evicted :: h' =>
            let '(h2, through2) :=
              drop_dependents (tr_transition_id evicted) h' (Some (tr_transition_id evicted)) in
            evict_rounds fuel' max h2 through2
        end
      else (h, through)
  end.

Definition push_history (d : DevicePresence) (t : PresenceTransition) (max : nat) : DevicePresence :=
  let '(h, through) :=
    evict_rounds (length (dp_history d)) max (dp_history d) (dp_evicted_through d) in
  set_history (h ++ [t]) through d.

(** ** Candidate state and support *)
Definition support_at (e : PresenceEvidence) (at_ : DateTime) (ever : bool) (online : Duration)
  : option PresenceState :=
  if at_ <? pe_observed_at e then None
  else match pe_kind e with
       | Traffic =>
           if signed_duration_since at_ (pe_observed_at e) <? online then Some Online else None
       | Lease | RouterAssociation | NeighborCache =>
           if is_some_and (fun x => at_ <=? x) (pe_valid_until e) then Some Quiet else None
       | ProbeSuccess =>
           if ever && is_some_and (fun x => at_ <=? x) (pe_valid_until e) then Some Quiet else None
       | _ => None
       end.

Definition is_support_kind (k : PresenceEvidenceKind) : bool :=
  match k with
  | Lease | RouterAssociation | NeighborCache | ProbeSuccess => true
  | _ => false
  end.

Section Engine.
Context `{Calendar}.

Definition support_ends (c : PresenceConfig) (e : PresenceEvidence) : option DateTime :=
  match pe_kind e with
  | Traffic => checked_add_signed (pe_observed_at e) (online_window c)
  | Lease | RouterAssociation | NeighborCache | ProbeSuccess => pe_valid_until e
  | _ => None
  end.

Definition candidate (d : DevicePresence) (at_ : DateTime) (c : PresenceConfig) : PresenceState :=
  if dp_blocked d then Blocked
  else if dp_impaired d || dp_contradictory d then Unknown
  else
    let traffic := existsb (fun e =>
      bool_decide (pe_kind e = Traffic) && (pe_observed_at e <=? at_)
      && (signed_duration_since at_ (pe_observed_at e) <? online_window c)) (dp_evidence d) in
    if traffic then Online
    else
      let support := existsb (fun e =>
        is_support_kind (pe_kind e) && (pe_observed_at e <=? at_)
        && is_some_and (fun x => at_ <=? x) (pe_valid_until e)) (dp_evidence d) in
      if support && dp_ever_supported d then Quiet
      else
        let support_end := iter_max (omap (support_ends c) (dp_evidence d)) in
        let failures := distinct_count (List.filter (fun e =>
          bool_decide (pe_kind e = ConfirmationFailure) && (pe_observed_at e <=? at_)
          && is_none_or (fun end_ => end_ <? pe_observed_at e) support_end
          && (signed_duration_since at_ (pe_observed_at e) <=? confirmation_window c))
          (dp_evidence d)) in
        if dp_ever_supported d && Nat.leb (departure_confirmations c) failures then Offline
        else match dp_state d with
             | Online | Quiet => dp_state d
             | _ => Unknown
             end.

(** ** Operations *)
Definition validate (pe : PresenceEngine) (e : PresenceEvidence) (arrival : DateTime)
    (enforcement_authorized : bool) : result unit PresenceError :=
  let c := cfg pe in
  if negb (existsb (fun s => bool_decide (s = pe_source e)) (trusted_sources c)) then Err Untrusted
  else if str_is_empty (pe_source e) || Nat.ltb (max_source_len c) (String.length (pe_source e))
  then Err (InvalidEvidence "source")
  else match checked_add_signed arrival (future_skew c) with
  | None => Err (InvalidEvidence "time overflow")
  | Some future_limit =>
    if future_limit <? pe_observed_at e then Err (InvalidEvidence "future skew")
    else if is_some_and (fun x => x <? pe_observed_at e) (pe_valid_until e)
    then Err (InvalidEvidence "validity")
    else if bool_decide (pe_kind e = NeighborCache) && negb (is_some_and (fun _ => true) (pe_valid_until e))
    then Err (InvalidEvidence "validity")
    else if bool_decide (pe_kind e = Traffic)
            && negb (is_some_and (fun _ => true)
                       (checked_add_signed (pe_observed_at e) (online_window c)))
    then Err (InvalidEvidence "time overflow")
    else if (bool_decide (pe_kind e = EnforcementBlocked)
             || bool_decide (pe_kind e = EnforcementUnblocked)) && negb enforcement_authorized
    then Err (InvalidEvidence "reserved enforcement")
    else if bool_decide (pe_kind e = Evaluation) then Err (InvalidEvidence "reserved kind")
    else Ok tt
  end.

Definition make_transition (pe : PresenceEngine) (id : DeviceId) (from to : PresenceState)
    (e : PresenceEvidence) (at_ : DateTime) (correction : option Z)
  : result PresenceTransition PresenceError * PresenceEngine :=
  let seq := next_transition pe in
  match checked_add_u64 (next_transition pe) 1 with
  | None => (Err SequenceExhausted, pe)
  | Some next =>
    (Ok {| tr_transition_id := seq; tr_device_id := id; tr_from := from; tr_to := to;
           tr_occurred_at := at_;
           tr_trigger := {| pt_source := pe_source e; pt_kind := pe_kind e;
                            pt_observed_at := pe_observed_at e;
                            pt_valid_until := pe_valid_until e; pt_arrival_at := at_ |};
           tr_correction_of := correction |},
     with_next next pe)
  end.

(** The state [recompute] moves to: the candidate, unless a join lacks confirmations. *)
Definition gated_state (c : PresenceConfig) (d : DevicePresence) (at_ : DateTime) : PresenceState :=
  let cand := candidate d at_ c in
  if (bool_decide (cand = Online) || bool_decide (cand = Quiet))
     && (bool_decide (dp_state d = Unknown) || bool_decide (dp_state d = Offline))
     && Nat.ltb (confirmations d at_ (confirmation_window c) is_real_positive) (join_confirmations c)
  then dp_state d else cand.

Definition synthetic (id : DeviceId) (at_ : DateTime) : PresenceEvidence := {|
  pe_device_id := id; pe_source := "presence.timer"; pe_kind := Evaluation;
  pe_observed_at := at_; pe_valid_until := None |}.

Definition recompute (pe : PresenceEngine) (id : DeviceId) (at_ : DateTime)
    (trigger : option PresenceEvidence)
  : result (option PresenceTransition) PresenceError * PresenceEngine :=
  match devices pe !! id with
  | None => (Err DeviceNotFound, pe)
  | Some d =>
    let gated := gated_state (cfg pe) d at_ in
    if bool_decide (gated = dp_state d) then (Ok None, pe)
    else
      let source := default (synthetic id at_) trigger in
      match make_transition pe id (dp_state d) gated source at_ None with
      | (Err x, pe1) => (Err x, pe1)
      | (Ok tr, pe1) =>
        match devices pe1 !! id with
        | None => (Err DeviceNotFound, pe1)
        | Some d1 =>
          let d2 := push_history (set_state gated d1) tr (max_history_per_device (cfg pe1)) in
          (Ok (Some tr), with_devices (<[id := d2]> (devices pe1)) pe1)
        end
      end
  end.

(** The block that computes [correction]: the device after absorbing [e], the
    departure it corrects, and whether it is late without current validity. *)
Definition absorb (c : PresenceConfig) (d0 : DevicePresence) (e : PresenceEvidence)
    (arrival : DateTime) (retain_input : bool)
  : DevicePresence * option (Z * PresenceState) * bool :=
  let d1 := set_last_evaluation arrival
              (set_evidence (retain (fun x => semantically_retained x arrival c) (dp_evidence d0)) d0) in
  let any_departure :=
    iter_find (fun x => bool_decide (tr_to x = Offline)) (rev (dp_history d1)) in
  let correct :=
    match iter_find (fun x => bool_decide (tr_to x = Offline)
                      && (signed_duration_since arrival (tr_occurred_at x) <=? correction_window c))
            (rev (dp_history d1)) with
    | None => None
    | Some dep =>
        match support_at e (tr_occurred_at dep) (dp_ever_supported d1) (online_window c) with
        | None => None
        | Some target => Some (tr_transition_id dep, target)
        end
    end in
  let late := is_some_and (fun dep => is_positive (pe_kind e)
                                      && (pe_observed_at e <=? tr_occurred_at dep)) any_departure in
  let current_valid :=
    is_some_and (fun _ => true) (support_at e arrival (dp_ever_supported d1) (online_window c)) in
  let d2 := apply_flags d1 e in
  let d3 := if is_real_positive (pe_kind e) && (negb late || current_valid)
            then set_ever_supported true d2 else d2 in
  let d4 := if retain_input && (negb late || current_valid || negb (is_positive (pe_kind e)))
            then set_evidence (prune_control_evidence (sort_evidence (dp_evidence d3 ++ [e]))) d3
            else d3 in
  (d4, correct, late && negb current_valid).

(** The checks on a device that already exists; [None] lets ingestion proceed. *)
Definition preflight (c : PresenceConfig) (d : DevicePresence) (e : PresenceEvidence)
    (arrival : DateTime) (retain_input : bool)
  : option (result (list PresenceTransition) PresenceError) :=
  if arrival <? dp_last_evaluation d then Some (Err ClockRollback)
  else if existsb (fun x => bool_decide (x = e)) (dp_evidence d) || stale_control d e
  then Some (Ok [])
  else if retain_input
          && Nat.leb (max_evidence_per_device c)
               (length (List.filter (fun x => semantically_retained x arrival c) (dp_evidence d)))
  then Some (Err (Capacity "evidence"))
  else None.

(** The part of [ingest_authorized] after the device absorbed the evidence. *)
Definition emit_transitions (pe : PresenceEngine) (e : PresenceEvidence) (arrival : DateTime)
    (correction : option (Z * PresenceState)) (late_only : bool)
  : result (list PresenceTransition) PresenceError * PresenceEngine :=
  let id := pe_device_id e in
  let finish (events : list PresenceTransition) (pe1 : PresenceEngine) :=
    if late_only && bool_decide (events = []) then (Ok events, pe1)
    else match recompute pe1 id arrival (Some e) with
         | (Err x, pe2) => (Err x, pe2)
         | (Ok (Some current), pe2) => (Ok (events ++ [current]), pe2)
         | (Ok None, pe2) => (Ok events, pe2)
         end in
  match correction with
  | None => finish [] pe
  | Some (departure_id, target) =>
    match make_transition pe id Offline target e arrival (Some departure_id) with
    | (Err x, pe1) => (Err x, pe1)
    | (Ok tr, pe1) =>
      match devices pe1 !! id with
      | None => (Err DeviceNotFound, pe1)
      | Some d =>
        finish [tr] (with_devices
          (<[id := push_history d tr (max_history_per_device (cfg pe1))]> (devices pe1)) pe1)
      end
    end
  end.

Definition ingest_authorized (pe : PresenceEngine) (e : PresenceEvidence) (arrival : DateTime)
    (enforcement_authorized : bool)
  : result (list PresenceTransition) PresenceError * PresenceEngine :=
  match validate pe e arrival enforcement_authorized with
  | Err x => (Err x, pe)
  | Ok _ =>
    if bool_decide (devices pe !! pe_device_id e = None)
       && Nat.leb (max_devices (cfg pe)) (size (devices pe))
    then (Err (Capacity "devices"), pe)
    else
      let retain_input := semantically_retained e arrival (cfg pe) in
      match d ← devices pe !! pe_device_id e; preflight (cfg pe) d e arrival retain_input with
      | Some answer => (answer, pe)
      | None =>
        match checked_add_u64 (next_transition pe) 2 with
        | None => (Err SequenceExhausted, pe)
        | Some _ =>
          let d := default (initial_device arrival) (devices pe !! pe_device_id e) in
          let '(d', correct, late_only) := absorb (cfg pe) d e arrival retain_input in
          emit_transitions (with_devices (<[pe_device_id e := d']> (devices pe)) pe)
            e arrival correct late_only
        end
      end
  end.

Definition ingest_events (pe : PresenceEngine) (e : PresenceEvidence) (arrival : DateTime) :=
  ingest_authorized pe e arrival false.

Definition pop_last (r : result (list PresenceTransition) PresenceError * PresenceEngine)
  : result (option PresenceTransition) PresenceError * PresenceEngine :=
  match r with
  | (Ok l, pe) => (Ok (last l), pe)
  | (Err x, pe) => (Err x, pe)
  end.

Definition ingest (pe : PresenceEngine) (e : PresenceEvidence) (arrival : DateTime) :=
  pop_last (ingest_events pe e arrival).

Definition record_verified_enforcement (pe : PresenceEngine) (device_id : DeviceId) (blocked : bool)
    (source : string) (observed_at arrival : DateTime) :=
  pop_last (ingest_authorized pe
    {| pe_device_id := device_id; pe_source := source;
       pe_kind := if blocked then EnforcementBlocked else EnforcementUnblocked;
       pe_observed_at := observed_at; pe_valid_until := None |} arrival true).

Definition evaluate (pe : PresenceEngine) (id : DeviceId) (at_ : DateTime)
  : result (option PresenceTransition) PresenceError * PresenceEngine :=
  match devices pe !! id with
  | None => (Err DeviceNotFound, pe)
  | Some d =>
    if at_ <? dp_last_evaluation d then (Err ClockRollback, pe)
    else if next_transition pe =? u64_max then (Err SequenceExhausted, pe)
    else recompute (with_devices (<[id := set_last_evaluation at_ d]> (devices pe)) pe) id at_ None
  end.
End Engine.

(** ** Construction and queries *)
Definition new_with_transition_sequence (c : PresenceConfig) (next : Z)
  : result PresenceEngine PresenceError :=
  let? _ := validate_config c in
  if next =? 0 then Err InvalidConfig
  else Ok {| cfg := c; devices := ∅; next_transition := next |}.

Definition new (c : PresenceConfig) : result PresenceEngine PresenceError :=
  new_with_transition_sequence c 1.

Record PresenceSnapshot := {
  ps_devices : nat; ps_evidence : nat; ps_history : nat; ps_next_transition : Z
}.

Definition snapshot (pe : PresenceEngine) : PresenceSnapshot := {|
  ps_devices := size (devices pe);
  ps_evidence := list_sum (map (fun p => length (dp_evidence p.2)) (map_to_list (devices pe)));
  ps_history := list_sum (map (fun p => length (dp_history p.2)) (map_to_list (devices pe)));
  ps_next_transition := next_transition pe |}.

Definition state (pe : PresenceEngine) (id : DeviceId) : option PresenceState :=
  dp_state <$> devices pe !! id.

Definition history (pe : PresenceEngine) (id : DeviceId)
  : result (list PresenceTransition) PresenceError :=
  ok_or (dp_history <$> devices pe !! id) DeviceNotFound.

Definition domain_events_since (pe : PresenceEngine) (id : DeviceId) (transition_id : Z)
  : result (list PresenceChanged) PresenceError :=
  let? d := ok_or (devices pe !! id) DeviceNotFound in
  if is_some_and (fun evicted => transition_id <? evicted) (dp_evicted_through d)
  then Err CursorExpired
  else Ok (map presence_changed
             (List.filter (fun t => transition_id <? tr_transition_id t) (dp_history d))).
