(* ===== verification/PresenceProps.v ===== *)
(** * The presence engine: invariant, replay and state rules

    What makes presence.rs correct, for every history of operations: the
    capacity and sequence invariant, atomic failure, lossless bounded replay, and
    the rules that decide when a device may be shown online, offline or blocked. *)

From S2P Require Import Prelude Time Text Domain Presence.

(** ** Histories of operations *)

(** What an operation published. *)
Definition emitted {A} (to_list : A -> list PresenceTransition)
    (r : result A PresenceError) : list PresenceTransition :=
  match r with
  | Ok a => to_list a
  | Err _ => []
  end.

(** The state-changing calls. [ingest_authorized] with [false] is
    [ingest_events]; with [true] it over-approximates [record_verified_enforcement]. *)
Inductive op :=
  | OpIngest (e : PresenceEvidence) (arrival : DateTime) (authorized : bool)
  | OpEvaluate (id : DeviceId) (at_ : DateTime).

Definition run_op `{Calendar} (pe : PresenceEngine) (o : op)
  : result (list PresenceTransition) PresenceError * PresenceEngine :=
  match o with
  | OpIngest e arrival authorized => ingest_authorized pe e arrival authorized
  | OpEvaluate id at_ =>
      match evaluate pe id at_ with
      | (Ok t, pe') => (Ok (option_list t), pe')
      | (Err x, pe') => (Err x, pe')
      end
  end.

(** Engines reachable from a fresh one, with every transition they returned. *)
Inductive reach `{Calendar} (c : PresenceConfig) : PresenceEngine -> list PresenceTransition -> Prop :=
  | reach_new n pe : 0 < n <= u64_max -> new_with_transition_sequence c n = Ok pe -> reach c pe []
  | reach_op pe L o r pe' :
      reach c pe L -> run_op pe o = (r, pe') -> reach c pe' (L ++ emitted id r).

Definition device_log (id : DeviceId) (L : list PresenceTransition) : list PresenceTransition :=
  List.filter (fun t => bool_decide (tr_device_id t = id)) L.

(** ** Bounded history *)

(** [h'] is what is left of [h] after dropping a prefix, recorded in [through]. *)
Definition evicts (h h' : list PresenceTransition) (through through' : option Z) : Prop :=
  exists dropped, h = dropped ++ h' /\
    through' = match last dropped with Some t => Some (tr_transition_id t) | None => through end.

Lemma evicts_refl h th : evicts h h th th.
Proof. by exists []. Qed.

Lemma evicts_trans h h1 h2 th th1 th2 :
  evicts h h1 th th1 -> evicts h1 h2 th1 th2 -> evicts h h2 th th2.
Proof.
  intros (d1 & -> & ->) (d2 & -> & ->). exists (d1 ++ d2).
  rewrite app_assoc, last_app. split; [done|]. by destruct (last d2).
Qed.

Lemma evicts_cons x h h' th th' :
  evicts h h' (Some (tr_transition_id x)) th' -> evicts (x :: h) h' th th'.
Proof.
  intros (d & -> & ->). exists (x :: d). split; [done|].
  change (x :: d) with ([x] ++ d). rewrite last_app. by destruct (last d).
Qed.

Lemma evicts_snoc h h' th th' t : evicts h h' th th' -> evicts (h ++ [t]) (h' ++ [t]) th th'.
Proof. intros (d & -> & ->). exists d. by rewrite app_assoc. Qed.

Lemma drop_dependents_evicts k h th h' th' :
  drop_dependents k h th = (h', th') -> evicts h h' th th'.
Proof.
  revert th. induction h as [|x h IH]; intros th; simpl.
  - intros [= <- <-]. apply evicts_refl.
  - case_bool_decide; [|intros [= <- <-]; apply evicts_refl].
    intros Hd%IH. by apply evicts_cons.
Qed.

Lemma evicts_length h h' th th' : evicts h h' th th' -> (length h' <= length h)%nat.
Proof. intros (d & -> & _). rewrite length_app. lia. Qed.

Lemma evict_rounds_evicts fuel max h th h' th' :
  evict_rounds fuel max h th = (h', th') -> evicts h h' th th'.
Proof.
  revert h th. induction fuel as [|fuel IH]; intros h th; simpl; [intros [= <- <-]; apply evicts_refl|].
  destruct (Nat.leb_spec max (length h)); [|intros [= <- <-]; apply evicts_refl].
  destruct h as [|x h]; [intros [= <- <-]; apply evicts_refl|].
  destruct (drop_dependents _ _ _) as [h2 th2] eqn:E. intros Hr%IH.
  apply evicts_cons. eapply evicts_trans; [by eapply drop_dependents_evicts|done].
Qed.

(** The fuel is enough: the loop ends below the capacity. *)
Lemma evict_rounds_length fuel max h th h' th' :
  (0 < max)%nat -> (length h <= fuel)%nat ->
  evict_rounds fuel max h th = (h', th') -> (length h' < max)%nat.
Proof.
  revert h th. induction fuel as [|fuel IH]; intros h th Hm Hf; simpl.
  - intros [= <- <-]. lia.
  - destruct (Nat.leb_spec max (length h)); [|intros [= <- <-]; lia].
    destruct h as [|x h]; simpl in *; [lia|].
    destruct (drop_dependents _ _ _) as [h2 th2] eqn:E.
    apply drop_dependents_evicts, evicts_length in E. apply IH; lia.
Qed.

Lemma push_history_spec d t max :
  (0 < max)%nat ->
  exists h th, push_history d t max = set_history (h ++ [t]) th d /\
    evicts (dp_history d) h (dp_evicted_through d) th /\ (length h < max)%nat.
Proof.
  intros Hm. unfold push_history. destruct (evict_rounds _ _ _ _) as [h th] eqn:E.
  exists h, th. split; [done|]. split; [by eapply evict_rounds_evicts|].
  by eapply evict_rounds_length in E.
Qed.

(** ** Control flags *)

(** The flags are exactly what the control evidence in [l] says. *)
Definition flags_match (d : DevicePresence) (l : list PresenceEvidence) : Prop :=
  (dp_blocked d, dp_enforcement_clock d)
    = control_state l EnforcementBlocked EnforcementUnblocked /\
  (dp_impaired d, dp_impairment_clock d)
    = control_state l SensorImpaired SensorRecovered /\
  (dp_contradictory d, dp_contradiction_clock d)
    = control_state l Contradiction ContradictionCleared.

Definition flags_ok (d : DevicePresence) : Prop := flags_match d (dp_evidence d).

(** What [validate] establishes of an accepted piece of evidence. *)
Definition evidence_ok (c : PresenceConfig) (id : DeviceId) (e : PresenceEvidence) : Prop :=
  pe_device_id e = id /\ In (pe_source e) (trusted_sources c) /\
  pe_kind e <> Evaluation /\
  (pe_kind e = NeighborCache -> pe_valid_until e <> None) /\
  (forall v, pe_valid_until e = Some v -> pe_observed_at e <= v).

Definition device_inv (c : PresenceConfig) (id : DeviceId) (L : list PresenceTransition)
    (d : DevicePresence) : Prop :=
  evicts L (dp_history d) None (dp_evicted_through d) /\
  (length (dp_history d) <= max_history_per_device c)%nat /\
  (length (dp_evidence d) <= max_evidence_per_device c)%nat /\
  Forall (evidence_ok c id) (dp_evidence d) /\
  flags_ok d.

Record engine_inv (pe : PresenceEngine) (L : list PresenceTransition) : Prop := {
  inv_cfg : validate_config (cfg pe) = Ok tt;
  inv_size : (size (devices pe) <= max_devices (cfg pe))%nat;
  inv_next : 0 < next_transition pe <= u64_max;
  inv_sorted : StronglySorted Z.lt (map tr_transition_id L);
  inv_ids : Forall (fun t => 0 < tr_transition_id t < next_transition pe) L;
  inv_dev : forall id d, devices pe !! id = Some d -> device_inv (cfg pe) id (device_log id L) d;
  inv_none : forall id, devices pe !! id = None -> device_log id L = []
}.

Definition ctrl (active inactive : PresenceEvidenceKind) (e : PresenceEvidence) : Prop :=
  pe_kind e = active \/ pe_kind e = inactive.

Lemma in_ctrl_filter a i l e :
  In e (List.filter (fun e => bool_decide (pe_kind e = a) || bool_decide (pe_kind e = i)) l)
  <-> In e l /\ ctrl a i e.
Proof. rewrite filter_In, orb_true_iff, !bool_decide_eq_true. done. Qed.

Lemma control_state_none l a i :
  (forall e, In e l -> ~ ctrl a i e) -> control_state l a i = (false, None).
Proof.
  intros Hn. unfold control_state.
  destruct (List.filter _ l) as [|e l'] eqn:E; [done|].
  assert (In e l /\ ctrl a i e) as [Hin Hc] by (apply in_ctrl_filter; rewrite E; by left).
  by destruct (Hn e).
Qed.

Lemma control_state_some l a i e :
  In e l -> ctrl a i e -> (forall e', In e' l -> ctrl a i e' -> pe_observed_at e' <= pe_observed_at e) ->
  control_state l a i =
    (existsb (fun x => bool_decide (pe_kind x = a) && (pe_observed_at x =? pe_observed_at e)) l,
     Some (pe_observed_at e)).
Proof.
  intros Hin Hc Hmax. unfold control_state. destruct (iter_max _) as [m|] eqn:E.
  - apply iter_max_some in E as [(e' & <- & [Hin' Hc']%in_ctrl_filter)%in_map_iff Hall].
    enough (pe_observed_at e' = pe_observed_at e) as -> by done.
    apply Z.le_antisymm; [by apply Hmax|].
    rewrite Forall_forall in Hall. apply Hall, list_elem_of_In, in_map, in_ctrl_filter. done.
  - apply iter_max_none, map_eq_nil in E.
    destruct (in_nil (a := e)). rewrite <- E. by apply in_ctrl_filter.
Qed.

Lemma control_state_inv l a i b t :
  control_state l a i = (b, Some t) ->
  exists e, In e l /\ ctrl a i e /\ pe_observed_at e = t /\
    forall e', In e' l -> ctrl a i e' -> pe_observed_at e' <= t.
Proof.
  unfold control_state. destruct (iter_max _) as [m|] eqn:E; [|done]. intros [= _ ->].
  apply iter_max_some in E as [(e & <- & [Hin Hc]%in_ctrl_filter)%in_map_iff Hall].
  exists e. repeat split; try done. intros e' Hin' Hc'.
  rewrite Forall_forall in Hall. apply Hall, list_elem_of_In, in_map, in_ctrl_filter. done.
Qed.

Lemma control_state_clock_none l a i b :
  control_state l a i = (b, None) -> b = false /\ forall e, In e l -> ~ ctrl a i e.
Proof.
  unfold control_state. destruct (iter_max _) as [m|] eqn:E; [done|]. intros [= <-].
  apply iter_max_none, map_eq_nil in E. split; [done|]. intros e Hin Hc.
  destruct (in_nil (a := e)). rewrite <- E. by apply in_ctrl_filter.
Qed.

Lemma existsb_ext_in {A} (p : A -> bool) l l' :
  (forall x, p x = true -> In x l <-> In x l') -> existsb p l = existsb p l'.
Proof.
  intros Hx. apply eq_true_iff_eq. rewrite !existsb_exists.
  split; intros (x & Hi & Hp); exists x; split; try done; by apply (Hx x Hp).
Qed.

(** Control state depends only on the newest control evidence. *)
Lemma control_state_ext a i l l' :
  (forall e, In e l' -> ctrl a i e -> In e l) ->
  (forall e, In e l -> ctrl a i e ->
     (forall e', In e' l -> ctrl a i e' -> pe_observed_at e' <= pe_observed_at e) -> In e l') ->
  control_state l' a i = control_state l a i.
Proof.
  intros Hsub Hkeep. destruct (control_state l a i) as [b [t|]] eqn:E.
  - pose proof E as (e & Hin & Hc & <- & Hmax)%control_state_inv.
    rewrite (control_state_some l a i e Hin Hc Hmax) in E. injection E as <-.
    rewrite (control_state_some l' a i e); [|by apply Hkeep|done|by auto].
    f_equal. apply existsb_ext_in. intros x Hx. bprop. subst.
    split; intros; [by apply Hsub; [|left]|].
    apply Hkeep; [done|by left|]. intros e' ??. transitivity (pe_observed_at e); [by apply Hmax|lia].
  - apply control_state_clock_none in E as [-> Hn].
    apply control_state_none. intros e Hin Hc. by apply (Hn e); [apply Hsub|].
Qed.

Lemma control_state_snoc l a i e b clk :
  a <> i -> ctrl a i e -> control_state l a i = (b, clk) ->
  stale_control_at clk (pe_observed_at e) b (bool_decide (pe_kind e = a)) = false ->
  control_state (l ++ [e]) a i = (bool_decide (pe_kind e = a), Some (pe_observed_at e)) /\
  is_none_or (fun x => x <=? pe_observed_at e) clk = true.
Proof.
  intros Hai Hc Hcs Hst.
  assert (Hle : forall e', In e' l -> ctrl a i e' -> pe_observed_at e' <= pe_observed_at e).
  { destruct clk as [t|]; [|intros e' Hin Hc'; apply control_state_clock_none in Hcs as [_ Hn];
      by destruct (Hn e')].
    pose proof Hcs as (x & _ & _ & _ & Hmax)%control_state_inv. intros e' Hin Hc'.
    simpl in Hst. bprop. specialize (Hmax e' Hin Hc'). lia. }
  split.
  2:{ destruct clk as [t|]; simpl in *; [|done]. bprop. by apply Z.leb_le. }
  rewrite (control_state_some _ a i e); [|by apply in_or_app; right; left|done|].
  2:{ intros e' [|[<-|[]]]%in_app_or ?; [auto|lia]. }
  f_equal. rewrite existsb_app. simpl. rewrite Z.eqb_refl, andb_true_r, orb_false_r.
  case_bool_decide; [by rewrite orb_true_r|]. rewrite orb_false_r.
  apply existsb_false_forall, Forall_forall. intros x Hx%list_elem_of_In.
  apply andb_false_iff. destruct (decide (pe_kind x = a)) as [Hk|Hk];
    [right|by left; apply bool_decide_eq_false].
  apply Z.eqb_neq. intros Heq.
  destruct clk as [t|]; [|apply control_state_clock_none in Hcs as [_ Hn]; by destruct (Hn x Hx); left].
  pose proof Hcs as (y & Hy & Hcy & <- & Hmax)%control_state_inv.
  assert (pe_observed_at x = pe_observed_at y).
  { simpl in Hst. bprop. pose proof (Hmax x Hx (or_introl Hk)). lia. }
  rewrite (control_state_some l a i y Hy Hcy Hmax) in Hcs. injection Hcs as Hb.
  simpl in Hst. rewrite orb_false_iff, andb_false_iff in Hst.
  destruct Hst as [_ [Hst|Hst]]; [bprop; lia|].
  apply orb_false_iff in Hst as [Hbf Hst]. done.
Qed.

(** *** Pruning *)
Lemma prune_family_in f l e :
  In e (prune_family f l) -> In e l.
Proof. unfold prune_family. rewrite filter_In. tauto. Qed.

Lemma prune_family_keeps f l e :
  In e l ->
  (control_family (pe_kind e) = Some f ->
   forall e', In e' l -> control_family (pe_kind e') = Some f -> pe_observed_at e' <= pe_observed_at e) ->
  In e (prune_family f l).
Proof.
  intros Hin Hmax. unfold prune_family. rewrite filter_In. split; [done|].
  case_bool_decide as Hf; [|done]. simpl. apply is_none_or_true. intros m Hm.
  apply iter_max_some in Hm as [(e' & <- & [Hin' Hf']%filter_In)%in_map_iff Hall]. bprop.
  apply Z.eqb_eq, Z.le_antisymm; [|by apply Hmax].
  rewrite Forall_forall in Hall. apply Hall, list_elem_of_In, in_map, filter_In.
  by rewrite bool_decide_eq_true_2.
Qed.

Lemma prune_control_in l e : In e (prune_control_evidence l) -> In e l.
Proof. intros Hin. by do 3 apply prune_family_in in Hin. Qed.

Lemma prune_control_keeps l e :
  In e l ->
  (forall f, control_family (pe_kind e) = Some f ->
   forall e', In e' l -> control_family (pe_kind e') = Some f -> pe_observed_at e' <= pe_observed_at e) ->
  In e (prune_control_evidence l).
Proof.
  intros Hin Hmax. unfold prune_control_evidence.
  do 3 (apply prune_family_keeps;
    [|intros Hf e' He' Hf'; apply (Hmax _ Hf e'); [by repeat apply prune_family_in in He'|done]]).
  done.
Qed.

Lemma prune_control_length l : (length (prune_control_evidence l) <= length l)%nat.
Proof.
  unfold prune_control_evidence, prune_family.
  do 3 (etrans; [apply filter_length_le|]). done.
Qed.

Lemma sort_evidence_in l e : In e (sort_evidence l) <-> In e l.
Proof.
  unfold sort_evidence. rewrite <- !list_elem_of_In. by rewrite merge_sort_Permutation.
Qed.

Lemma sort_evidence_length l : length (sort_evidence l) = length l.
Proof. apply Permutation_length, merge_sort_Permutation. Qed.

(** The three control families, each an (active, inactive) pair. *)
Definition is_family (f : Z) (a i : PresenceEvidenceKind) : Prop :=
  a <> i /\ (forall k, control_family k = Some f <-> k = a \/ k = i).

Lemma enforcement_family : is_family 0 EnforcementBlocked EnforcementUnblocked.
Proof. split; [done|]. intros []; simpl; intuition congruence. Qed.
Lemma impairment_family : is_family 1 SensorImpaired SensorRecovered.
Proof. split; [done|]. intros []; simpl; intuition congruence. Qed.
Lemma contradiction_family : is_family 2 Contradiction ContradictionCleared.
Proof. split; [done|]. intros []; simpl; intuition congruence. Qed.

(** Sorting and pruning never change what the control evidence says. *)
Lemma control_state_prune f a i l :
  is_family f a i ->
  control_state (prune_control_evidence (sort_evidence l)) a i = control_state l a i.
Proof.
  intros [_ Hf]. apply control_state_ext.
  - intros e Hin _. apply prune_control_in in Hin. by rewrite sort_evidence_in in Hin.
  - intros e Hin Hc Hmax. apply prune_control_keeps; [by apply sort_evidence_in|].
    intros f' Hf' e' He' Hf''. rewrite sort_evidence_in in He'.
    assert (control_family (pe_kind e) = Some f) as Hfe by (by apply Hf).
    apply Hmax; [done|]. apply Hf. congruence.
Qed.

(** Neither does dropping expired evidence: control evidence is never dropped. *)
Lemma control_state_retain f a i l arrival c :
  is_family f a i ->
  control_state (retain (fun x => semantically_retained x arrival c) l) a i = control_state l a i.
Proof.
  intros [_ Hf]. apply control_state_ext.
  - intros e Hin _. by apply filter_In in Hin as [? _].
  - intros e Hin Hc _. apply filter_In. split; [done|].
    assert (Hfam : control_family (pe_kind e) = Some f) by (by apply Hf).
    unfold semantically_retained. by destruct (pe_kind e).
Qed.

Lemma control_state_snoc_other a i l e :
  ~ ctrl a i e -> control_state (l ++ [e]) a i = control_state l a i.
Proof.
  intros Hn. apply control_state_ext.
  - intros x [|[<-|[]]]%in_app_or ?; done.
  - intros x Hx _ _. apply in_or_app. by left.
Qed.

(** [retain] by expiry never lengthens the store. *)
Lemma filter_length_bound {A} (p : A -> bool) l n :
  (length l <= n)%nat -> (length (List.filter p l) <= n)%nat.
Proof. pose proof (filter_length_le p l). lia. Qed.

Ltac solve_flags :=
  repeat match goal with
  | |- _ /\ _ => split
  | |- context [control_state (_ ++ [_]) _ _] =>
      rewrite control_state_snoc_other by (unfold ctrl; intuition congruence)
  end; try assumption.

(** Setting the flags keeps them in step with the evidence. *)
Lemma apply_flags_match d l e :
  flags_match d l -> stale_control d e = false -> flags_match (apply_flags d e) (l ++ [e]).
Proof.
  intros (H0 & H1 & H2) Hst. unfold apply_flags, stale_control, flags_match in *.
  destruct (pe_kind e) eqn:Ek; simpl in Hst;
    try (by solve_flags);
    [ edestruct (control_state_snoc l EnforcementBlocked EnforcementUnblocked e) as [Hs Hn]
    | edestruct (control_state_snoc l EnforcementBlocked EnforcementUnblocked e) as [Hs Hn]
    | edestruct (control_state_snoc l SensorImpaired SensorRecovered e) as [Hs Hn]
    | edestruct (control_state_snoc l SensorImpaired SensorRecovered e) as [Hs Hn]
    | edestruct (control_state_snoc l Contradiction ContradictionCleared e) as [Hs Hn]
    | edestruct (control_state_snoc l Contradiction ContradictionCleared e) as [Hs Hn] ];
    try done; try (unfold ctrl; by (left + right)); try (symmetry; eassumption);
    try (by rewrite Ek);
    rewrite Hn; simpl; rewrite ?Hs, Ek; solve_flags; done.
Qed.

Lemma apply_flags_other d e : control_family (pe_kind e) = None -> apply_flags d e = d.
Proof. unfold apply_flags. by destruct (pe_kind e). Qed.

Lemma flags_match_retain d l arrival c :
  flags_match d l -> flags_match d (retain (fun x => semantically_retained x arrival c) l).
Proof.
  intros (H0 & H1 & H2). unfold flags_match.
  rewrite (control_state_retain _ _ _ _ _ _ enforcement_family),
    (control_state_retain _ _ _ _ _ _ impairment_family),
    (control_state_retain _ _ _ _ _ _ contradiction_family). done.
Qed.

Lemma flags_match_prune d l :
  flags_match d l -> flags_match d (prune_control_evidence (sort_evidence l)).
Proof.
  intros (H0 & H1 & H2). unfold flags_match.
  rewrite (control_state_prune _ _ _ _ enforcement_family),
    (control_state_prune _ _ _ _ impairment_family),
    (control_state_prune _ _ _ _ contradiction_family). done.
Qed.

Lemma control_always_kept e arrival c :
  control_family (pe_kind e) <> None ->
  semantically_retained e arrival c = true /\ is_positive (pe_kind e) = false.
Proof. unfold semantically_retained. by destruct (pe_kind e). Qed.

(** ** One device absorbs one piece of evidence *)

Lemma apply_flags_fields d e :
  dp_state (apply_flags d e) = dp_state d /\
  dp_history (apply_flags d e) = dp_history d /\
  dp_evicted_through (apply_flags d e) = dp_evicted_through d /\
  dp_last_evaluation (apply_flags d e) = dp_last_evaluation d /\
  dp_evidence (apply_flags d e) = dp_evidence d /\
  dp_ever_supported (apply_flags d e) = dp_ever_supported d.
Proof. unfold apply_flags. by destruct (pe_kind e); try done; case_match. Qed.

Lemma absorb_eta d :
  d = set_evidence (dp_evidence d) (set_ever_supported (dp_ever_supported d) d).
Proof. by destruct d. Qed.

(** What a device keeps after absorbing [e]: everything but the flags, the
    support bit and the evidence is untouched. *)
Lemma absorb_shape c d e arrival r d' corr late :
  let kept := retain (fun x => semantically_retained x arrival c) (dp_evidence d) in
  absorb c d e arrival r = (d', corr, late) ->
  exists b l, d' = set_evidence l (set_ever_supported b
     (apply_flags (set_last_evaluation arrival (set_evidence kept d)) e)) /\
    (b = true -> dp_ever_supported d = true \/ is_real_positive (pe_kind e) = true) /\
    (dp_ever_supported d = true -> b = true) /\
    (l = prune_control_evidence (sort_evidence (kept ++ [e])) /\ r = true \/
     l = kept /\ (r = true -> is_positive (pe_kind e) = true)).
Proof.
  intros kept. unfold absorb. fold kept.
  set (d1 := set_last_evaluation arrival (set_evidence kept d)).
  destruct (apply_flags_fields d1 e) as (_ & _ & _ & _ & F5 & F6).
  set (late' := is_some_and _ _). set (cv := is_some_and _ _).
  set (up := is_real_positive (pe_kind e) && (negb late' || cv)).
  set (push := r && (negb late' || cv || negb (is_positive (pe_kind e)))).
  intros [= <- _ _].
  exists (if up then true else dp_ever_supported d),
    (if push then prune_control_evidence (sort_evidence (kept ++ [e])) else kept).
  split; [|split; [|split]].
  - pose proof (absorb_eta (apply_flags d1 e)) as Heta. rewrite F5, F6 in Heta.
    change (dp_evidence d1) with kept in *. change (dp_ever_supported d1) with (dp_ever_supported d) in *.
    destruct up, push; simpl; rewrite ?F5; try done.
    all: try (rewrite Heta at 1; done).
  - unfold up. destruct (is_real_positive (pe_kind e)); simpl; tauto.
  - by destruct up.
  - unfold push. destruct r; simpl; [|by right].
    destruct (negb late' || cv), (is_positive (pe_kind e)); simpl; tauto.
Qed.

Lemma absorb_inv c id L d e arrival d' corr late :
  evidence_ok c id e -> device_inv c id L d -> stale_control d e = false ->
  (semantically_retained e arrival c = true ->
   (length (List.filter (fun x => semantically_retained x arrival c) (dp_evidence d))
     < max_evidence_per_device c)%nat) ->
  absorb c d e arrival (semantically_retained e arrival c) = (d', corr, late) ->
  device_inv c id L d'.
Proof.
  intros Hev (Hh & Hhl & Hel & Hall & Hfl) Hst Hroom Ha.
  set (kept := retain (fun x => semantically_retained x arrival c) (dp_evidence d)) in *.
  apply absorb_shape in Ha as (b & l & Hd & _ & _ & Hl). fold kept in Hl, Hd.
  set (d1 := set_last_evaluation arrival (set_evidence kept d)) in *. subst d'.
  destruct (apply_flags_fields d1 e) as (_ & F2 & F3 & _ & _ & _).
  assert (Hkept : Forall (evidence_ok c id) kept).
  { apply Forall_forall. intros x Hx%list_elem_of_In. apply filter_In in Hx as [Hx _].
    rewrite Forall_forall in Hall. by apply Hall, list_elem_of_In. }
  assert (Hf1 : flags_match d1 kept) by (by apply (flags_match_retain d)).
  unfold device_inv, flags_ok. cbn [dp_history dp_evicted_through dp_evidence set_evidence
    set_ever_supported]. rewrite F2, F3. split; [done|]. split; [done|].
  split; [|split]; destruct Hl as [[-> Hr]|[-> Hp]].
  - etrans; [apply prune_control_length|]. rewrite sort_evidence_length, length_app. simpl.
    specialize (Hroom Hr). fold kept in Hroom. lia.
  - by apply filter_length_bound.
  - apply Forall_forall. intros x Hx%list_elem_of_In. apply prune_control_in in Hx.
    rewrite sort_evidence_in in Hx. apply in_app_or in Hx as [Hx|[<-|[]]]; [|done].
    rewrite Forall_forall in Hkept. by apply Hkept, list_elem_of_In.
  - done.
  - by apply flags_match_prune, apply_flags_match.
  - assert (control_family (pe_kind e) = None) as Hn.
    { destruct (control_family (pe_kind e)) eqn:E; [|done].
      destruct (control_always_kept e arrival c) as [Hr Hpos]; [congruence|].
      rewrite (Hp Hr) in Hpos. done. }
    by rewrite apply_flags_other.
Qed.

(** ** The engine *)
Lemma config_positive c :
  validate_config c = Ok tt ->
  (0 < max_history_per_device c)%nat /\ (0 < max_evidence_per_device c)%nat /\
  (0 < max_devices c)%nat /\ (0 < join_confirmations c)%nat /\ (0 < departure_confirmations c)%nat.
Proof.
  unfold validate_config. intros Hv. case_match; [done|]. case_match; [done|]. case_match; [done|].
  match goal with H : existsb (Nat.eqb 0) _ = false |- _ =>
    apply existsb_false_forall in H; rewrite !Forall_cons, !Nat.eqb_neq in H end. lia.
Qed.

Lemma validate_evidence_ok `{Calendar} pe e arrival auth :
  validate pe e arrival auth = Ok tt ->
  evidence_ok (cfg pe) (pe_device_id e) e /\
  (auth = false -> control_family (pe_kind e) <> Some 0).
Proof.
  unfold validate. destruct (existsb _ _) eqn:Esrc; [|done]. simpl.
  case_match; [done|]. destruct (checked_add_signed arrival _); [|done].
  destruct (_ <? _); [done|]. destruct (is_some_and (fun x => x <? _) (pe_valid_until e)) eqn:Ev; [done|].
  destruct (bool_decide (pe_kind e = NeighborCache) && _) eqn:En; [done|].
  destruct (bool_decide (pe_kind e = Traffic) && _); [done|].
  destruct (_ && negb auth) eqn:Ea; [done|].
  destruct (bool_decide (pe_kind e = Evaluation)) eqn:Ek; [done|]. intros _. bprop.
  split; [split; [done|split; [|split; [done|split]]]|].
  - apply existsb_exists in Esrc as (s & Hs & Hd). bprop. by subst.
  - intros Hk. rewrite (bool_decide_eq_true_2 _ Hk) in En. simpl in En. by destruct (pe_valid_until e).
  - intros v Hv. rewrite Hv in Ev. simpl in Ev. bprop. lia.
  - intros ->. destruct (pe_kind e); simpl in *; congruence.
Qed.

Definition mk_tr (n : Z) (id : DeviceId) (from to : PresenceState) (e : PresenceEvidence)
    (at_ : DateTime) (corr : option Z) : PresenceTransition :=
  {| tr_transition_id := n; tr_device_id := id; tr_from := from; tr_to := to;
     tr_occurred_at := at_;
     tr_trigger := {| pt_source := pe_source e; pt_kind := pe_kind e;
                      pt_observed_at := pe_observed_at e;
                      pt_valid_until := pe_valid_until e; pt_arrival_at := at_ |};
     tr_correction_of := corr |}.

Lemma make_transition_eq pe id from to e at_ corr :
  next_transition pe + 1 <= u64_max ->
  make_transition pe id from to e at_ corr =
    (Ok (mk_tr (next_transition pe) id from to e at_ corr), with_next (next_transition pe + 1) pe).
Proof.
  intros Hn. unfold make_transition. by rewrite (proj2 (checked_add_u64_some _ _ _) (conj eq_refl Hn)).
Qed.

Lemma recompute_eq `{Calendar} pe id at_ trig d :
  devices pe !! id = Some d -> next_transition pe + 1 <= u64_max ->
  recompute pe id at_ trig =
    let g := gated_state (cfg pe) d at_ in
    if decide (g = dp_state d) then (Ok None, pe)
    else
      let tr := mk_tr (next_transition pe) id (dp_state d) g (default (synthetic id at_) trig) at_ None in
      (Ok (Some tr),
       with_devices (<[id := push_history (set_state g d) tr (max_history_per_device (cfg pe))]>
                       (devices pe)) (with_next (next_transition pe + 1) pe)).
Proof.
  intros Hd Hn. unfold recompute. rewrite Hd. cbv zeta. rewrite make_transition_eq by done.
  simpl. rewrite Hd. case_bool_decide; by case_decide.
Qed.

Lemma device_log_app id L L' : device_log id (L ++ L') = device_log id L ++ device_log id L'.
Proof. apply List.filter_app. Qed.

Lemma device_log_self id t : tr_device_id t = id -> device_log id [t] = [t].
Proof. intros <-. unfold device_log. simpl. by rewrite bool_decide_eq_true_2. Qed.

Lemma device_log_other id t : tr_device_id t <> id -> device_log id [t] = [].
Proof. intros Hne. unfold device_log. simpl. by rewrite bool_decide_eq_false_2. Qed.

(** Writing one device that satisfies its part of the invariant. *)
Lemma engine_inv_update pe L id d :
  engine_inv pe L -> device_inv (cfg pe) id (device_log id L) d ->
  (devices pe !! id = None -> (size (devices pe) < max_devices (cfg pe))%nat) ->
  engine_inv (with_devices (<[id := d]> (devices pe)) pe) L.
Proof.
  intros [] Hd Hsz. split; simpl; try done.
  - destruct (devices pe !! id) as [d0|] eqn:E.
    + rewrite map_size_insert_Some by (by rewrite E). done.
    + rewrite map_size_insert_None by done. specialize (Hsz eq_refl). lia.
  - intros id' d'. rewrite lookup_insert. case_decide; [|eauto]. intros [= <-]. by subst.
  - intros id'. rewrite lookup_insert. case_decide; [done|eauto].
Qed.

(** Appending one transition to a device's history. *)
Lemma engine_inv_push pe L id d s t :
  engine_inv pe L -> devices pe !! id = Some d -> next_transition pe + 1 <= u64_max ->
  tr_transition_id t = next_transition pe -> tr_device_id t = id ->
  engine_inv (with_devices (<[id := push_history (set_state s d) t (max_history_per_device (cfg pe))]>
                (devices pe)) (with_next (next_transition pe + 1) pe)) (L ++ [t]).
Proof.
  intros [Hc Hsz Hn Hs Hi Hdev Hnone] Hd Hmax Hid Hdid.
  pose proof (config_positive _ Hc) as (Hh & _).
  split; simpl; try done.
  - by rewrite map_size_insert_Some by (by rewrite Hd).
  - lia.
  - rewrite map_app. apply StronglySorted_app_2; [|done|repeat constructor].
    intros a b. rewrite !list_elem_of_In. intros (x & <- & Hx)%in_map_iff [<-|[]].
    rewrite Forall_forall in Hi. rewrite Hid. by apply Hi, list_elem_of_In.
  - apply Forall_app. split; [|repeat constructor; lia].
    eapply Forall_impl; [exact Hi|]. simpl. lia.
  - intros id' d'. rewrite lookup_insert. case_decide as Heq.
    + intros [= <-]. subst id'. rewrite device_log_app, device_log_self by done.
      destruct (Hdev _ _ Hd) as (He & Hhl & Hel & Hall & Hfl).
      destruct (push_history_spec (set_state s d) t _ Hh) as (h & th & -> & He' & Hlen).
      split; [|split; [|done]]; simpl.
      * apply evicts_snoc. by eapply evicts_trans.
      * rewrite length_app. simpl. lia.
    + intros Hd'. rewrite device_log_app, device_log_other by congruence. rewrite app_nil_r. eauto.
  - intros id'. rewrite lookup_insert. case_decide as Heq; [done|]. intros Hd'.
    rewrite device_log_app, device_log_other by congruence. rewrite app_nil_r. eauto.
Qed.

Lemma recompute_inv `{Calendar} pe L id at_ trig d :
  engine_inv pe L -> devices pe !! id = Some d -> next_transition pe + 1 <= u64_max ->
  exists o pe', recompute pe id at_ trig = (Ok o, pe') /\ engine_inv pe' (L ++ option_list o).
Proof.
  intros Hi Hd Hn. rewrite (recompute_eq _ _ _ _ d) by done. cbv zeta. case_decide.
  - exists None, pe. simpl. by rewrite app_nil_r.
  - eexists (Some _), _. split; [reflexivity|]. by apply engine_inv_push.
Qed.

(** The tail of an ingestion never fails, publishes at most a correction and a
    current transition, and keeps the invariant. *)
Lemma emit_inv `{Calendar} pe L e arrival corr late d :
  engine_inv pe L -> devices pe !! pe_device_id e = Some d -> next_transition pe + 2 <= u64_max ->
  exists l pe', emit_transitions pe e arrival corr late = (Ok l, pe') /\ engine_inv pe' (L ++ l).
Proof.
  intros Hi Hd Hn. unfold emit_transitions. cbv zeta.
  destruct corr as [[dep target]|].
  - rewrite make_transition_eq by lia. simpl. rewrite Hd, andb_false_r.
    set (tr := mk_tr _ _ _ _ _ _ _). set (pe1 := with_devices _ _).
    assert (Hi1 : engine_inv pe1 (L ++ [tr])).
    { replace d with (set_state (dp_state d) d) in pe1 by (by destruct d). subst pe1.
      apply engine_inv_push; try done; simpl; lia. }
    destruct (recompute_inv pe1 (L ++ [tr]) (pe_device_id e) arrival (Some e)
                (push_history d tr (max_history_per_device (cfg pe)))) as (o & pe' & -> & Hi').
    { done. } { subst pe1. simpl. apply lookup_insert_eq. } { subst pe1. simpl. lia. }
    exists (tr :: option_list o), pe'. rewrite <- app_assoc in Hi'. by destruct o.
  - destruct late; simpl; [by exists [], pe; rewrite app_nil_r|].
    destruct (recompute_inv pe L (pe_device_id e) arrival (Some e) d) as (o & pe' & -> & Hi');
      [done|done|lia|].
    exists (option_list o), pe'. by destruct o.
Qed.

(** What one ingestion does: refuse or ignore the input, or let one device absorb it. *)
Lemma ingest_cases `{Calendar} pe e arrival auth r pe' :
  ingest_authorized pe e arrival auth = (r, pe') ->
  (pe' = pe /\ ((r = Ok [] /\ exists d, devices pe !! pe_device_id e = Some d /\
                   (In e (dp_evidence d) \/ stale_control d e = true)) \/ exists x, r = Err x)) \/
  (validate pe e arrival auth = Ok tt /\
   (devices pe !! pe_device_id e = None -> (size (devices pe) < max_devices (cfg pe))%nat) /\
   next_transition pe + 2 <= u64_max /\
   exists d d' corr late,
     d = default (initial_device arrival) (devices pe !! pe_device_id e) /\
     stale_control d e = false /\ ~ In e (dp_evidence d) /\ dp_last_evaluation d <= arrival /\
     (semantically_retained e arrival (cfg pe) = true -> (0 < max_evidence_per_device (cfg pe))%nat ->
      (length (List.filter (fun x => semantically_retained x arrival (cfg pe)) (dp_evidence d))
        < max_evidence_per_device (cfg pe))%nat) /\
     absorb (cfg pe) d e arrival (semantically_retained e arrival (cfg pe)) = (d', corr, late) /\
     emit_transitions (with_devices (<[pe_device_id e := d']> (devices pe)) pe) e arrival corr late
       = (r, pe')).
Proof.
  unfold ingest_authorized. destruct (validate pe e arrival auth) as [[]|x] eqn:Ev;
    [|intros [= <- <-]; left; eauto].
  destruct (bool_decide _ && _) eqn:Esz; [intros [= <- <-]; left; eauto|].
  cbv zeta. destruct (mbind _ _) as [answer|] eqn:Ep.
  { intros [= <- <-]. left. split; [done|].
    destruct (devices pe !! pe_device_id e) as [d|]; [|done]. simpl in Ep. unfold preflight in Ep.
    destruct (arrival <? _); [simplify_eq; eauto|].
    destruct (existsb _ _) eqn:Ex; simpl in Ep.
    { apply existsb_exists in Ex as (x & Hx & Hxe). bprop. simplify_eq. eauto 10. }
    destruct (stale_control d e) eqn:Est; [simplify_eq; eauto 10|].
    case_match; simplify_eq; eauto. }
  destruct (checked_add_u64 _ 2) eqn:En; [|intros [= <- <-]; left; eauto].
  apply checked_add_u64_some in En as [_ En].
  destruct (absorb _ _ _ _ _) as [[d' corr] late] eqn:Ea. intros Hem. right.
  split; [done|]. split.
  { intros Hnone. rewrite bool_decide_eq_true_2 in Esz by done. simpl in Esz.
    apply Nat.leb_gt in Esz. done. }
  split; [done|]. eexists _, d', corr, late. split; [reflexivity|].
  destruct (devices pe !! pe_device_id e) as [d|]; simpl in *.
  - unfold preflight in Ep.
    destruct (arrival <? _) eqn:Et; [done|]. destruct (existsb _ _) eqn:Ex; [done|].
    destruct (stale_control d e); [done|]. simpl in Ep.
    split; [done|]. split; [|split; [by bprop|]].
    { intros Hin. apply existsb_false_forall in Ex. rewrite Forall_forall in Ex.
      specialize (Ex e (proj2 (list_elem_of_In _ _) Hin)). simpl in Ex. by bprop. }
    split; [|done]. intros Hr _. rewrite Hr in Ep. simpl in Ep.
    destruct (Nat.leb_spec (max_evidence_per_device (cfg pe))
      (length (List.filter (fun x => semantically_retained x arrival (cfg pe)) (dp_evidence d)))); [done|lia].
  - split; [by unfold stale_control; destruct (pe_kind e)|].
    split; [by intros []|]. split; [done|]. split; [lia|done].
Qed.

Lemma initial_device_inv c id arrival : device_inv c id [] (initial_device arrival).
Proof.
  split; [apply evicts_refl|]. simpl. split; [lia|]. split; [lia|].
  split; [constructor|]. done.
Qed.

(** ** Every operation keeps the invariant, and a failed one changes nothing *)
Lemma run_op_inv `{Calendar} pe L o r pe' :
  engine_inv pe L -> run_op pe o = (r, pe') ->
  engine_inv pe' (L ++ emitted id r) /\ (forall x, r = Err x -> pe' = pe).
Proof.
  intros Hi. destruct o as [e arrival auth|id at_]; simpl.
  - intros [[-> Hr]|(Hv & Hsz & Hn & d & d' & corr & late & Hd & Hst & _ & _ & Hroom & Ha & Hem)]%ingest_cases.
    { destruct Hr as [[-> _]|[x ->]]; simpl; by rewrite app_nil_r. }
    assert (Hdi : device_inv (cfg pe) (pe_device_id e) (device_log (pe_device_id e) L) d).
    { subst d. destruct (devices pe !! pe_device_id e) as [d|] eqn:E; simpl; [by apply Hi|].
      rewrite (inv_none _ _ Hi _ E). apply initial_device_inv. }
    pose proof (config_positive _ (inv_cfg _ _ Hi)) as (_ & Hme & _).
    apply absorb_inv with (id := pe_device_id e) (L := device_log (pe_device_id e) L) in Ha;
      [|by apply validate_evidence_ok in Hv as [? _]|done|done|auto].
    pose proof (engine_inv_update _ _ _ _ Hi Ha Hsz) as Hi1.
    destruct (emit_inv _ L e arrival corr late d' Hi1) as (l & pe2 & Heq & Hi2);
      [apply lookup_insert_eq|done|].
    rewrite Heq in Hem. injection Hem as <- <-. done.
  - unfold evaluate. destruct (devices pe !! id) as [d|] eqn:Hd; [|intros [= <- <-]; simpl; by rewrite app_nil_r].
    destruct (at_ <? _); [intros [= <- <-]; simpl; by rewrite app_nil_r|].
    destruct (Z.eqb_spec (next_transition pe) u64_max); [intros [= <- <-]; simpl; by rewrite app_nil_r|].
    pose proof (inv_next _ _ Hi).
    assert (Hi1 : engine_inv (with_devices (<[id := set_last_evaluation at_ d]> (devices pe)) pe) L).
    { apply engine_inv_update; [done| |by rewrite Hd]. by apply (inv_dev _ _ Hi id d). }
    destruct (recompute_inv _ L id at_ None (set_last_evaluation at_ d) Hi1) as (o & pe2 & -> & Hi2);
      [apply lookup_insert_eq|simpl; lia|].
    intros [= <- <-]. done.
Qed.

Lemma recompute_cfg `{Calendar} pe id at_ trig r pe' :
  recompute pe id at_ trig = (r, pe') -> cfg pe' = cfg pe.
Proof.
  unfold recompute, make_transition. intros Hr.
  repeat case_match; simplify_eq; done.
Qed.

Lemma run_op_cfg `{Calendar} pe o r pe' : run_op pe o = (r, pe') -> cfg pe' = cfg pe.
Proof.
  destruct o as [e arrival auth|id at_]; simpl.
  - intros [[-> _]|(_ & _ & _ & d & d' & corr & late & _ & _ & _ & _ & _ & _ & Hem)]%ingest_cases; [done|].
    unfold emit_transitions, make_transition in Hem. cbv zeta in Hem.
    repeat case_match; simplify_eq; try done;
      match goal with H : recompute _ _ _ _ = _ |- _ => by apply recompute_cfg in H end.
  - unfold evaluate. repeat case_match; intros; simplify_eq; try done;
      match goal with H : recompute _ _ _ _ = _ |- _ => by apply recompute_cfg in H end.
Qed.

Lemma reach_inv `{Calendar} c pe L : reach c pe L -> engine_inv pe L /\ cfg pe = c.
Proof.
  induction 1 as [n pe Hn Hnew|pe L o r pe' Hr [Hi <-] Ho].
  - unfold new_with_transition_sequence in Hnew.
    destruct (validate_config c) as [[]|] eqn:Ev; simpl in Hnew; [|done].
    destruct (n =? 0); [done|]. injection Hnew as <-. split; [|done].
    split; simpl; try done; try lia; try constructor. rewrite map_size_empty. lia.
  - split; [by eapply run_op_inv|by eapply run_op_cfg].
Qed.

(** C1. Every engine reachable from a fresh one by any sequence of ingestions,
    verified enforcements and evaluations satisfies the engine invariant: the devices, the
    evidence and the history of each device stay within the configured bounds, transition
    numbers are strictly increasing and below [next_transition], every stored piece of evidence
    is one [validate] accepts for that device, and the blocked, impaired and contradictory flags
    with their clocks are exactly what the retained control evidence says. *)
Theorem presence_invariant `{Calendar} c pe L : reach c pe L -> engine_inv pe L.
Proof. intros Hr. by apply reach_inv in Hr as [? _]. Qed.

(** Operations are atomic: when an ingestion or evaluation on a reachable
    engine fails, the engine it leaves behind is the engine it was given. *)
Theorem failed_operation_changes_nothing `{Calendar} c pe L o x pe' :
  reach c pe L -> run_op pe o = (Err x, pe') -> pe' = pe.
Proof. intros [Hr _]%reach_inv Ho. eapply run_op_inv in Ho as [_ Hx]; eauto. Qed.

(** ** Bounded replay *)
Lemma StronglySorted_filter_map (L : list PresenceTransition) p :
  StronglySorted Z.lt (map tr_transition_id L) ->
  StronglySorted Z.lt (map tr_transition_id (List.filter p L)).
Proof.
  induction L as [|x L IH]; simpl; [done|]. intros [Hs Hx]%StronglySorted_inv.
  destruct (p x); simpl; [|auto]. constructor; [auto|].
  rewrite Forall_forall in *. intros y. rewrite list_elem_of_In, in_map_iff.
  intros (t & <- & Ht%filter_In). apply Hx, list_elem_of_In, in_map, Ht.
Qed.

(** A cursor at or above the last evicted entry has lost nothing. *)
Lemma evicts_replay L h th cursor :
  StronglySorted Z.lt (map tr_transition_id L) -> evicts L h None th ->
  if is_some_and (fun v => cursor <? v) th
  then exists t, In t L /\ cursor < tr_transition_id t /\ ~ In t h
  else List.filter (fun t => cursor <? tr_transition_id t) h
       = List.filter (fun t => cursor <? tr_transition_id t) L.
Proof.
  intros Hs (dropped & -> & ->). rewrite map_app in Hs.
  apply StronglySorted_app in Hs as (Hlt & Hs & _). rewrite List.filter_app.
  destruct (last dropped) as [t|] eqn:El; simpl.
  2:{ apply last_None in El as ->. done. }
  apply last_Some in El as (l & ->).
  destruct (Z.ltb_spec cursor (tr_transition_id t)).
  - exists t. split; [rewrite <- app_assoc; apply in_or_app; right; by left|]. split; [done|]. intros Hin.
    enough (tr_transition_id t < tr_transition_id t) by lia.
    apply Hlt; apply list_elem_of_In, in_map; [|done]. apply in_or_app. right. by left.
  - rewrite (filter_nothing _ (l ++ [t])); [done|].
    apply Forall_app. split; [|repeat constructor; by apply Z.ltb_ge].
    rewrite map_app in Hs. apply StronglySorted_app in Hs as (Hxt & _).
    apply Forall_forall. intros x Hx%list_elem_of_In. apply Z.ltb_ge.
    enough (tr_transition_id x < tr_transition_id t) by lia.
    apply Hxt; apply list_elem_of_In; [by apply in_map|by left].
Qed.

(** Replay is lossless or says so: for any history of operations, asking
    a known device for its events after a cursor returns exactly the transitions
    ever published for that device with a larger number, in order, or [CursorExpired] when at
    least one such transition is no longer retained; only an unknown device (for which nothing was
    ever published) answers [DeviceNotFound]. *)
Theorem domain_events_since_lossless `{Calendar} c pe L id cursor :
  reach c pe L ->
  match domain_events_since pe id cursor with
  | Ok events =>
      events = map presence_changed
        (List.filter (fun t => cursor <? tr_transition_id t) (device_log id L))
  | Err CursorExpired =>
      exists d t, devices pe !! id = Some d /\ In t (device_log id L) /\
        cursor < tr_transition_id t /\ ~ In t (dp_history d)
  | Err e => e = DeviceNotFound /\ device_log id L = []
  end.
Proof.
  intros [Hi _]%reach_inv. unfold domain_events_since.
  destruct (devices pe !! id) as [d|] eqn:Hd; simpl; [|split; [done|by apply (inv_none _ _ Hi)]].
  destruct (inv_dev _ _ Hi _ _ Hd) as (He & _).
  pose proof (evicts_replay _ _ _ cursor
    (StronglySorted_filter_map _ _ (inv_sorted _ _ Hi)) He) as Hev.
  case_match; [|by rewrite Hev].
  destruct Hev as (t & Hin & Hlt & Hnin). eauto 10.
Qed.
