(* ===== verification/PresenceStates.v ===== *)
(** * The presence engine: the state rules in declarative form

    [candidate] and [gated_state] against the sentences of
    docs/presence/semantics.md, late corrections, and duplicate input. *)

From S2P Require Import Prelude Time Text Domain Presence PresenceProps.

(** ** A device-local property is kept by an operation *)
Section Preservation.
Context `{Calendar} (P : DevicePresence -> Prop) (pe : PresenceEngine) (id : DeviceId).
Hypothesis P_history : forall h th d, P d -> P (set_history h th d).
Hypothesis P_clock : forall t d, P d -> P (set_last_evaluation t d).
Hypothesis P_gate : forall d at_, P d -> P (set_state (gated_state (cfg pe) d at_) d).

Lemma push_history_P d t max : P d -> P (push_history d t max).
Proof. intros Hp. unfold push_history. case_match. by apply P_history. Qed.

Lemma recompute_P pe1 i at_ trig r pe' :
  cfg pe1 = cfg pe -> (forall d, devices pe1 !! id = Some d -> P d) ->
  recompute pe1 i at_ trig = (r, pe') -> forall d, devices pe' !! id = Some d -> P d.
Proof using All.
  intros Hc Hp. unfold recompute, make_transition. rewrite Hc.
  destruct (devices pe1 !! i) as [d0|] eqn:E0; [|intros [= _ <-]; done].
  cbv zeta. case_bool_decide; [intros [= _ <-]; done|].
  destruct (checked_add_u64 _ _); [|intros [= _ <-]; done]. simpl. rewrite E0.
  intros [= _ <-] d. simpl. rewrite lookup_insert. case_decide as Hi; [|apply Hp].
  subst i. intros [= <-]. apply push_history_P, P_gate, Hp. done.
Qed.

(** The property survives if absorbing the evidence keeps it. *)
Lemma run_op_P o r pe' :
  (forall d, devices pe !! id = Some d -> P d) ->
  (forall e arrival auth d d' corr late, o = OpIngest e arrival auth -> pe_device_id e = id ->
     validate pe e arrival auth = Ok tt ->
     d = default (initial_device arrival) (devices pe !! id) -> stale_control d e = false ->
     absorb (cfg pe) d e arrival (semantically_retained e arrival (cfg pe)) = (d', corr, late) ->
     P d') ->
  run_op pe o = (r, pe') -> forall d, devices pe' !! id = Some d -> P d.
Proof using All.
  intros Hp Habs. destruct o as [e arrival auth|i at_]; simpl.
  - intros [[-> _]|(Hv & _ & _ & d & d' & corr & late & Hd & Hst & _ & _ & _ & Ha & Hem)]%ingest_cases; [done|].
    assert (Hp1 : forall x, <[pe_device_id e := d']> (devices pe) !! id = Some x -> P x).
    { intros x. rewrite lookup_insert. case_decide as Hi; [|apply Hp]. intros [= <-].
      subst id. by eapply Habs. }
    unfold emit_transitions, make_transition in Hem. cbv zeta in Hem. simpl in Hem.
    destruct corr as [[dep target]|].
    + destruct (checked_add_u64 _ _); [|by injection Hem as _ <-]. simpl in Hem.
      rewrite lookup_insert_eq, andb_false_r in Hem.
      destruct (recompute _ _ _ _) as [r2 pe2] eqn:Er.
      assert (Hpe2 : forall x, devices pe2 !! id = Some x -> P x).
      { eapply recompute_P; [| |exact Er]; [done|]. simpl. intros x. rewrite lookup_insert.
        case_decide as Hi; [|apply Hp1]. intros [= <-].
        apply push_history_P, Hp1. by rewrite <- Hi, lookup_insert_eq. }
      destruct r2 as [[|]|]; by injection Hem as _ <-.
    + destruct (late && _); [by injection Hem as _ <-|].
      destruct (recompute _ _ _ _) as [r2 pe2] eqn:Er.
      assert (Hpe2 : forall x, devices pe2 !! id = Some x -> P x).
      { eapply recompute_P; [| |exact Er]; [done|exact Hp1]. }
      destruct r2 as [[|]|]; by injection Hem as _ <-.
  - unfold evaluate. destruct (devices pe !! i) as [d0|] eqn:E0; [|intros [= _ <-]; done].
    destruct (at_ <? _); [intros [= _ <-]; done|]. destruct (_ =? u64_max); [intros [= _ <-]; done|].
    destruct (recompute _ _ _ _) as [r2 pe2] eqn:Er. intros Hr.
    assert (Hpe2 : forall x, devices pe2 !! id = Some x -> P x).
    { eapply recompute_P; [| |exact Er]; [done|]. simpl. intros x. rewrite lookup_insert.
      case_decide as Hi; [|apply Hp]. subst i. intros [= <-]. by apply P_clock, Hp. }
    destruct r2 as [|]; by injection Hr as _ <-.
Qed.
End Preservation.

(** Runs of operations; results are dropped. *)
Definition run_ops `{Calendar} (pe : PresenceEngine) (ops : list op) : PresenceEngine :=
  foldl (fun pe o => snd (run_op pe o)) pe ops.

(** An operation that does not carry verified enforcement. *)
Definition ordinary (o : op) : Prop :=
  match o with
  | OpIngest _ _ authorized => authorized = false
  | OpEvaluate _ _ => True
  end.

(** Devices are never forgotten. *)
Lemma run_op_known `{Calendar} pe o r pe' id :
  run_op pe o = (r, pe') -> is_Some (devices pe !! id) -> is_Some (devices pe' !! id).
Proof.
  intros Ho Hs.
  destruct (decide (is_Some (devices pe' !! id))) as [|Hn]; [done|]. exfalso.
  assert (Hins : forall i d (m : gmap DeviceId DevicePresence), is_Some (m !! id) -> is_Some (<[i:=d]> m !! id)).
  { intros i d m Hm. rewrite lookup_insert. case_decide; [by eexists|done]. }
  apply Hn. clear Hn.
  assert (Hrec : forall pe1 i at_ trig r1 pe2, recompute pe1 i at_ trig = (r1, pe2) ->
            is_Some (devices pe1 !! id) -> is_Some (devices pe2 !! id)).
  { intros pe1 i at_ trig r1 pe2 Hr H1. unfold recompute, make_transition in Hr.
    repeat case_match; simplify_eq; simpl; auto. }
  destruct o as [e arrival auth|i at_]; simpl in Ho.
  - apply ingest_cases in Ho as
      [[-> _]|(_ & _ & _ & d & d' & corr & late & _ & _ & _ & _ & _ & _ & Hem)]; [done|].
    unfold emit_transitions, make_transition in Hem. cbv zeta in Hem.
    repeat case_match; simplify_eq; simpl; auto;
      match goal with H : recompute _ _ _ _ = _ |- _ => apply Hrec in H; simpl; auto end.
  - unfold evaluate in Ho. repeat case_match; simplify_eq; auto;
      match goal with H : recompute _ _ _ _ = _ |- _ => apply Hrec in H; simpl; auto end.
Qed.

(** ** Blocked *)
Definition held_blocked (d : DevicePresence) : Prop := dp_blocked d = true /\ dp_state d = Blocked.

Lemma gated_blocked `{Calendar} c d at_ : dp_blocked d = true -> gated_state c d at_ = Blocked.
Proof. intros Hb. unfold gated_state, candidate. rewrite Hb. done. Qed.

Lemma absorb_state_flags c d e arrival r d' corr late :
  absorb c d e arrival r = (d', corr, late) ->
  dp_state d' = dp_state d /\
  (control_family (pe_kind e) <> Some 0 -> dp_blocked d' = dp_blocked d).
Proof.
  intros (b & l & -> & _)%absorb_shape. simpl. unfold apply_flags.
  split; [by destruct (pe_kind e); try done; case_match|].
  intros Hf. by destruct (pe_kind e); simpl in *; try done; case_match.
Qed.

Lemma run_op_held_blocked `{Calendar} pe o r pe' id d :
  ordinary o -> run_op pe o = (r, pe') -> devices pe !! id = Some d -> held_blocked d ->
  exists d', devices pe' !! id = Some d' /\ held_blocked d'.
Proof.
  intros Hord Ho Hd Hb. destruct (run_op_known pe o r pe' id Ho) as [d' Hd']; [by eexists|].
  exists d'. split; [done|]. revert d' Hd'.
  eapply (run_op_P held_blocked pe id); try exact Ho.
  - intros h th x Hx. exact Hx.
  - intros t x Hx. exact Hx.
  - intros x at_ [Hx _]. by rewrite gated_blocked.
  - intros x Hx. by simplify_eq.
  - intros e arrival auth x x' corr late -> Hid Hv Hx _ Ha. rewrite Hd in Hx. simpl in Hx. subst x.
    simpl in Hord. subst auth. apply validate_evidence_ok in Hv as [_ Hnf].
    apply absorb_state_flags in Ha as [Hs Hbl]. destruct Hb as [Hb1 Hb2].
    split; [by rewrite Hbl; auto|by rewrite Hs].
Qed.

Lemma run_ops_held_blocked `{Calendar} ops pe id d :
  Forall ordinary ops -> devices pe !! id = Some d -> held_blocked d ->
  exists d', devices (run_ops pe ops) !! id = Some d' /\ held_blocked d'.
Proof.
  intros Hall. revert pe d. induction Hall as [|o ops Ho _ IH]; intros pe d Hd Hb; [by exists d|].
  change (run_ops pe (o :: ops)) with (run_ops (snd (run_op pe o)) ops).
  destruct (run_op pe o) as [r pe'] eqn:E. simpl.
  destruct (run_op_held_blocked _ _ _ _ _ _ Ho E Hd Hb) as (d' & Hd' & Hb'). eauto.
Qed.

(** A block that is newer than the last enforcement takes effect at once. *)
Lemma block_takes_effect `{Calendar} c pe L e arrival r pe' :
  reach c pe L -> pe_kind e = EnforcementBlocked ->
  (forall d t, devices pe !! pe_device_id e = Some d -> dp_enforcement_clock d = Some t ->
     t < pe_observed_at e) ->
  ingest_authorized pe e arrival true = (Ok r, pe') ->
  exists d', devices pe' !! pe_device_id e = Some d' /\ held_blocked d'.
Proof.
  intros [Hi _]%reach_inv Hk Hnew.
  intros [[-> [[_ (d & Hd & Hdup)]|[x Hx]]]|(Hv & _ & Hn & d & d' & corr & late & Hd & Hst & _ & _ & _ & Ha & Hem)]%ingest_cases; [exfalso|done|].
  - pose proof (Hnew d) as Hlt. destruct (inv_dev _ _ Hi _ _ Hd) as (_ & _ & _ & _ & Hf & _).
    destruct Hdup as [Hin|Hst].
    + destruct (dp_enforcement_clock d) as [t|] eqn:Et; symmetry in Hf.
      * apply control_state_inv in Hf as (_ & _ & _ & _ & Hmax).
        specialize (Hmax e Hin (or_introl Hk)). specialize (Hlt t Hd eq_refl). lia.
      * apply control_state_clock_none in Hf as [_ Hno]. by apply (Hno e Hin); left.
    + unfold stale_control, stale_control_at in Hst. rewrite Hk in Hst.
      destruct (dp_enforcement_clock d) as [t|]; [|done]. simpl in Hst.
      specialize (Hlt t Hd eq_refl). apply orb_true_iff in Hst as [Hst|Hst]; bprop; lia.
  - assert (Hcl : is_none_or (fun x => x <=? pe_observed_at e) (dp_enforcement_clock d) = true).
    { apply is_none_or_true. intros t Ht. subst d.
      destruct (devices pe !! pe_device_id e) as [d|] eqn:Hd; simpl in *; [|done].
      specialize (Hnew d t eq_refl Ht). apply Z.leb_le. lia. }
    assert (Hb : dp_blocked d' = true).
    { apply absorb_shape in Ha as (b & l & -> & _). simpl. unfold apply_flags. rewrite Hk. simpl.
      by rewrite Hcl. }
    assert (corr = None /\ late = false) as [-> ->].
    { unfold absorb, support_at, is_positive in Ha. rewrite Hk in Ha. simpl in Ha.
      injection Ha as _ <- <-. unfold is_some_and. split; repeat case_match; by simplify_eq. }
    unfold emit_transitions in Hem. cbv zeta in Hem. simpl in Hem.
    rewrite (recompute_eq _ _ _ _ d') in Hem; [|apply lookup_insert_eq|simpl; lia].
    cbv zeta in Hem. rewrite gated_blocked in Hem by done.
    case_decide as Hg; injection Hem as _ <-; simpl; rewrite lookup_insert_eq.
    + by exists d'.
    + eexists. split; [done|]. by apply (push_history_P held_blocked).
Qed.

(** C7. A verified block holds until verified enforcement lifts it: once a
    block observed later than any previous enforcement is accepted, the device is shown
    [Blocked], and no sequence of ordinary evidence and evaluations, for any device, changes
    that. *)
Theorem verified_block_is_final `{Calendar} c pe L id source observed arrival r pe' ops :
  reach c pe L ->
  (forall d t, devices pe !! id = Some d -> dp_enforcement_clock d = Some t -> t < observed) ->
  record_verified_enforcement pe id true source observed arrival = (Ok r, pe') ->
  Forall ordinary ops ->
  state (run_ops pe' ops) id = Some Blocked.
Proof.
  intros Hr Hnew Hrec Hord. unfold record_verified_enforcement, pop_last in Hrec.
  destruct (ingest_authorized _ _ _ _) as [[l|] pe1] eqn:E; [|done]. injection Hrec as _ <-.
  eapply block_takes_effect in E as (d & Hd & Hb); [|exact Hr|done|exact Hnew].
  destruct (run_ops_held_blocked ops pe1 id d Hord Hd Hb) as (d' & Hd' & _ & Hs).
  unfold state. by rewrite Hd', <- Hs.
Qed.

(** ** No presence without real evidence *)
Definition unsupported (d : DevicePresence) : Prop :=
  dp_ever_supported d = false /\
  Forall (fun e => is_real_positive (pe_kind e) = false) (dp_evidence d) /\
  (dp_state d = Unknown \/ dp_state d = Blocked).

Lemma existsb_none {A} (p : A -> bool) l : (forall x, In x l -> p x = false) -> existsb p l = false.
Proof.
  intros Hn. apply existsb_false_forall, Forall_forall. intros x Hx%list_elem_of_In. auto.
Qed.

Lemma unsupported_candidate `{Calendar} c d at_ :
  unsupported d -> candidate d at_ c = Unknown \/ candidate d at_ c = Blocked.
Proof.
  intros (He & Hall & Hs). unfold candidate. destruct (dp_blocked d); [by right|].
  destruct (_ || _); [by left|]. rewrite He, andb_false_r. simpl.
  rewrite existsb_none; [by destruct Hs as [->| ->]; left|].
  intros x Hx%list_elem_of_In. rewrite Forall_forall in Hall. specialize (Hall x Hx).
  simpl in Hall. by destruct (pe_kind x).
Qed.

Lemma unsupported_absorb c d e arrival r d' corr late :
  unsupported d -> is_real_positive (pe_kind e) = false ->
  absorb c d e arrival r = (d', corr, late) -> unsupported d'.
Proof.
  intros (He & Hall & Hs) Hk Ha. pose proof Ha as [Hst _]%absorb_state_flags.
  apply absorb_shape in Ha as (b & l & -> & Hb & _ & Hl). split; [|split]; simpl.
  - destruct b; [|done]. destruct (Hb eq_refl); congruence.
  - assert (Hkept : Forall (fun e => is_real_positive (pe_kind e) = false)
              (retain (fun x => semantically_retained x arrival c) (dp_evidence d))).
    { rewrite Forall_forall in *. intros x. rewrite list_elem_of_In, filter_In, <- list_elem_of_In.
      intros [? _]. auto. }
    destruct Hl as [[-> _]|[-> _]]; [|done]. rewrite Forall_forall in *. intros x.
    rewrite list_elem_of_In. intros Hx%prune_control_in. rewrite sort_evidence_in in Hx.
    apply in_app_or in Hx as [Hx|[<-|[]]]; [|done]. by apply Hkept, list_elem_of_In.
  - simpl in Hst. by rewrite Hst.
Qed.

(** The evidence of an operation does not speak of real presence of [id]. *)
Definition no_real_evidence (id : DeviceId) (o : op) : Prop :=
  match o with
  | OpIngest e _ _ => pe_device_id e = id -> is_real_positive (pe_kind e) = false
  | OpEvaluate _ _ => True
  end.

Lemma run_op_unsupported `{Calendar} pe o r pe' id :
  no_real_evidence id o -> run_op pe o = (r, pe') ->
  (forall d, devices pe !! id = Some d -> unsupported d) ->
  forall d, devices pe' !! id = Some d -> unsupported d.
Proof.
  intros Hno Ho Hp. eapply (run_op_P unsupported pe id); try exact Ho; [done|done| |done|].
  - intros x at_ Hx. pose proof (unsupported_candidate (cfg pe) x at_ Hx) as Hc.
    destruct Hx as (He & Hall & Hs). split; [done|]. split; [done|]. simpl.
    unfold gated_state. cbv zeta. case_match; [done|]. done.
  - intros e arrival auth x x' corr late -> Hid _ Hx _ Ha. simpl in Hno.
    eapply unsupported_absorb; [|by apply Hno|exact Ha]. subst x.
    destruct (devices pe !! id) as [d|]; simpl; [by apply Hp|]. split; [done|]. split; [constructor|].
    by left.
Qed.

(** Probes, confirmation failures and control messages alone never make a
    device present: whatever operations run, as long as none of them carries traffic, a lease, an
    association or a neighbour entry for it, the device is unknown to the engine or shown
    [Unknown] or [Blocked] - never online, quiet or departed. *)
Theorem no_presence_without_real_evidence `{Calendar} c pe ops id :
  new c = Ok pe -> Forall (no_real_evidence id) ops ->
  state (run_ops pe ops) id ∈ [None; Some Unknown; Some Blocked].
Proof.
  intros Hnew Hall.
  assert (Hgo : forall d, devices (run_ops pe ops) !! id = Some d -> unsupported d).
  { assert (Hp : forall d, devices pe !! id = Some d -> unsupported d).
    { unfold new, new_with_transition_sequence in Hnew.
      destruct (validate_config c); simpl in Hnew; simplify_eq. intros d. simpl.
      by rewrite lookup_empty. }
    clear Hnew. revert pe Hp. induction Hall as [|o ops Ho _ IH]; intros pe Hp; [done|].
    change (run_ops pe (o :: ops)) with (run_ops (snd (run_op pe o)) ops).
    destruct (run_op pe o) as [r pe'] eqn:E. apply IH. by eapply run_op_unsupported. }
  rewrite list_elem_of_In. unfold state.
  destruct (devices (run_ops pe ops) !! id) as [d|]; simpl; [|by left].
  destruct (Hgo d eq_refl) as (_ & _ & [-> | ->]); auto.
Qed.

(** ** Distinct confirmations *)
Definition evidence_key (e : PresenceEvidence) : string * PresenceEvidenceKind * DateTime :=
  (pe_source e, pe_kind e, pe_observed_at e).

(** [n] pieces of evidence of [l], pairwise different in (source, kind, time). *)
Definition distinct_in (n : nat) (l : list PresenceEvidence) : Prop :=
  exists fs, length fs = n /\ List.NoDup (map evidence_key fs) /\ forall f, In f fs -> In f l.

Lemma keys_have_preimage (ks : list (string * PresenceEvidenceKind * DateTime)) l :
  (forall k, In k ks -> In k (map evidence_key l)) ->
  exists fs, map evidence_key fs = ks /\ forall f, In f fs -> In f l.
Proof.
  induction ks as [|k ks IH]; intros Hk; [by exists []|].
  destruct IH as (fs & <- & Hfs); [intros; apply Hk; by right|].
  destruct (proj1 (in_map_iff _ _ _) (Hk k (or_introl eq_refl))) as (f & <- & Hf).
  exists (f :: fs). split; [done|]. intros g [<-|]; auto.
Qed.

Lemma distinct_count_spec n l : (n <= distinct_count l)%nat <-> distinct_in n l.
Proof.
  unfold distinct_count. change (fun e => _) with evidence_key. split.
  - intros Hn. destruct (keys_have_preimage (take n (remove_dups (map evidence_key l))) l)
      as (fs & Hk & Hfs).
    { intros k Hk. rewrite <- list_elem_of_In in *. apply elem_of_take in Hk as (i & Hk & _).
      apply list_elem_of_lookup_2 in Hk. by rewrite elem_of_remove_dups in Hk. }
    exists fs. split; [|split; [|done]].
    + rewrite <- (length_map evidence_key), Hk, length_take. lia.
    + rewrite Hk. apply NoDup_ListNoDup. eapply sublist_NoDup; [apply NoDup_remove_dups|apply sublist_take].
  - intros (fs & <- & Hnd & Hin). rewrite <- (length_map evidence_key).
    apply NoDup_incl_length; [done|]. intros k (f & <- & Hf)%in_map_iff.
    apply list_elem_of_In, elem_of_remove_dups, list_elem_of_In, in_map. auto.
Qed.

(** ** The rules *)
Section Rules.
Context `{Calendar}.

Definition free (d : DevicePresence) : Prop :=
  dp_blocked d = false /\ dp_impaired d = false /\ dp_contradictory d = false.

(** Traffic seen less than the online window ago. *)
Definition live_traffic (c : PresenceConfig) (d : DevicePresence) (at_ : DateTime) : Prop :=
  exists e, In e (dp_evidence d) /\ pe_kind e = Traffic /\
    pe_observed_at e <= at_ < pe_observed_at e + online_window c.

(** A lease, association, neighbour entry or probe that is still valid. *)
Definition live_support (d : DevicePresence) (at_ : DateTime) : Prop :=
  exists e v, In e (dp_evidence d) /\ is_support_kind (pe_kind e) = true /\
    pe_valid_until e = Some v /\ pe_observed_at e <= at_ <= v.

(** A confirmation failure inside the window and strictly after every support expired. *)
Definition departure_sign (c : PresenceConfig) (d : DevicePresence) (at_ : DateTime)
    (f : PresenceEvidence) : Prop :=
  In f (dp_evidence d) /\ pe_kind f = ConfirmationFailure /\
  pe_observed_at f <= at_ <= pe_observed_at f + confirmation_window c /\
  forall e end_, In e (dp_evidence d) -> support_ends c e = Some end_ -> end_ < pe_observed_at f.

Definition departed (c : PresenceConfig) (d : DevicePresence) (at_ : DateTime) : Prop :=
  exists fs, length fs = departure_confirmations c /\ List.NoDup (map evidence_key fs) /\
    forall f, In f fs -> departure_sign c d at_ f.

(** None of the rules that settle the state of an unimpaired device applies. *)
Definition undecided (c : PresenceConfig) (d : DevicePresence) (at_ : DateTime) : Prop :=
  ~ live_traffic c d at_ /\
  ~ (live_support d at_ /\ dp_ever_supported d = true) /\
  ~ (departed c d at_ /\ dp_ever_supported d = true).

Definition candidate_rule (c : PresenceConfig) (d : DevicePresence) (at_ : DateTime)
    (s : PresenceState) : Prop :=
  match s with
  | Blocked => dp_blocked d = true
  | Online => free d /\ (live_traffic c d at_ \/ undecided c d at_ /\ dp_state d = Online)
  | Quiet =>
      free d /\ ~ live_traffic c d at_ /\
      (live_support d at_ /\ dp_ever_supported d = true \/
       undecided c d at_ /\ dp_state d = Quiet)
  | Offline =>
      free d /\ ~ live_traffic c d at_ /\ ~ live_support d at_ /\
      dp_ever_supported d = true /\ departed c d at_
  | Unknown =>
      dp_blocked d = false /\
      (dp_impaired d = true \/ dp_contradictory d = true \/
       undecided c d at_ /\ dp_state d <> Online /\ dp_state d <> Quiet)
  end.

Lemma live_traffic_b c d at_ :
  existsb (fun e => bool_decide (pe_kind e = Traffic) && (pe_observed_at e <=? at_)
      && (signed_duration_since at_ (pe_observed_at e) <? online_window c)) (dp_evidence d) = true
  <-> live_traffic c d at_.
Proof.
  rewrite existsb_exists. unfold live_traffic, signed_duration_since.
  split; intros (e & Hin & Hx); exists e; split; try done.
  - bprop. split; [done|lia].
  - destruct Hx as [Hk Hx]. rewrite bool_decide_eq_true_2 by done. simpl.
    apply andb_true_iff. rewrite Z.leb_le, Z.ltb_lt. lia.
Qed.

Lemma live_support_b d at_ :
  existsb (fun e => is_support_kind (pe_kind e) && (pe_observed_at e <=? at_)
      && is_some_and (fun x => at_ <=? x) (pe_valid_until e)) (dp_evidence d) = true
  <-> live_support d at_.
Proof.
  rewrite existsb_exists. unfold live_support. split.
  - intros (e & Hin & Hx). bprop. match goal with H : is_some_and _ _ = true |- _ =>
      apply is_some_and_true in H as (v & Hv & Hle) end. bprop. exists e, v. auto.
  - intros (e & v & Hin & Hk & Hv & Hle). exists e. split; [done|].
    rewrite Hk, Hv. simpl. apply andb_true_iff. rewrite !Z.leb_le. lia.
Qed.

Lemma departed_b c d at_ :
  Nat.leb (departure_confirmations c) (distinct_count (List.filter (fun e =>
      bool_decide (pe_kind e = ConfirmationFailure) && (pe_observed_at e <=? at_)
      && is_none_or (fun end_ => end_ <? pe_observed_at e)
           (iter_max (omap (support_ends c) (dp_evidence d)))
      && (signed_duration_since at_ (pe_observed_at e) <=? confirmation_window c))
      (dp_evidence d))) = true
  <-> departed c d at_.
Proof.
  rewrite Nat.leb_le, distinct_count_spec. unfold distinct_in, departed, departure_sign.
  assert (Hend : forall t, is_none_or (fun end_ => end_ <? t)
      (iter_max (omap (support_ends c) (dp_evidence d))) = true <->
      forall e end_, In e (dp_evidence d) -> support_ends c e = Some end_ -> end_ < t).
  { intros t. rewrite is_none_or_true. split.
    - intros Hm e end_ Hin He.
      assert (Hi : end_ ∈ omap (support_ends c) (dp_evidence d)).
      { apply list_elem_of_omap. exists e. by rewrite list_elem_of_In. }
      destruct (iter_max _) as [m|] eqn:Em.
      + specialize (Hm m eq_refl). bprop. apply iter_max_some in Em as [_ Hall].
        rewrite Forall_forall in Hall. specialize (Hall _ Hi). simpl in Hall. lia.
      + apply iter_max_none in Em. rewrite Em in Hi. by apply elem_of_nil in Hi.
    - intros Hall m Hm. apply iter_max_some in Hm as [Hi _]. apply Z.ltb_lt.
      apply list_elem_of_In, list_elem_of_omap in Hi as (e & He & Hs).
      apply (Hall e); [by apply list_elem_of_In|done]. }
  unfold signed_duration_since.
  split; intros (fs & Hl & Hnd & Hfs); exists fs; (split; [done|]); (split; [done|]); intros f Hf;
    specialize (Hfs f Hf).
  - apply filter_In in Hfs as [Hin Hx]. bprop. split; [done|]. split; [done|]. split; [lia|].
    by apply Hend.
  - destruct Hfs as (Hin & Hk & Ht & Hx). apply filter_In. split; [done|].
    rewrite bool_decide_eq_true_2 by done. simpl. rewrite !andb_true_iff, !Z.leb_le, Hend.
    split; [split; [lia|done]|lia].
Qed.

(** [candidate] computes exactly the documented precedence: verified block,
    then impairment or contradiction, then recent traffic (online), then still-valid support
    after real presence (quiet), then departure - prior real presence, no live support, and
    enough pairwise distinct confirmation failures, each inside the confirmation window and strictly
    after the latest support expiry - and otherwise an online or quiet device keeps its state
    while its departure is pending. *)
Theorem candidate_follows_rules c d at_ s :
  candidate d at_ c = s <-> candidate_rule c d at_ s.
Proof.
  unfold candidate. cbv zeta. unfold candidate_rule, undecided, free.
  pose proof (live_traffic_b c d at_) as Ht. pose proof (live_support_b d at_) as Hsup.
  pose proof (departed_b c d at_) as Hdep.
  destruct (dp_blocked d), (dp_impaired d), (dp_contradictory d); simpl;
    try (destruct s; intuition congruence).
  destruct (existsb _ _); [destruct s; intuition congruence|].
  destruct (existsb _ _), (dp_ever_supported d); simpl; try (destruct s; intuition congruence);
    destruct (Nat.leb _ _); simpl; destruct (dp_state d); destruct s; intuition congruence.
Qed.
End Rules.

(** ** Published transitions *)
Definition is_join (from to : PresenceState) : Prop :=
  (from = Unknown \/ from = Offline) /\ (to = Online \/ to = Quiet).

(** The real observations of a device inside the confirmation window. *)
Definition recent_real (c : PresenceConfig) (d : DevicePresence) (at_ : DateTime)
  : list PresenceEvidence :=
  List.filter (fun e => is_real_positive (pe_kind e) && (pe_observed_at e <=? at_)
    && (signed_duration_since at_ (pe_observed_at e) <=? confirmation_window c)) (dp_evidence d).

(** A transition to the current state: a real change, confirmed if it is a join. *)
Definition current_justified (c : PresenceConfig) (d' : DevicePresence) (t : PresenceTransition)
  : Prop :=
  tr_from t <> tr_to t /\ dp_state d' = tr_to t /\
  (is_join (tr_from t) (tr_to t) ->
   distinct_in (join_confirmations c) (recent_real c d' (tr_occurred_at t))).

(** A correction: late evidence that spans a recent departure. *)
Definition correction_justified (c : PresenceConfig) (d : DevicePresence) (e : PresenceEvidence)
    (arrival : DateTime) (t : PresenceTransition) (k : Z) : Prop :=
  exists dep, In dep (dp_history d) /\ tr_transition_id dep = k /\ tr_to dep = Offline /\
    arrival - tr_occurred_at dep <= correction_window c /\ tr_from t = Offline /\
    support_at e (tr_occurred_at dep) (dp_ever_supported d) (online_window c) = Some (tr_to t).

Section Transitions.
Context `{Calendar}.

Lemma gated_join c d at_ :
  is_join (dp_state d) (gated_state c d at_) ->
  distinct_in (join_confirmations c) (recent_real c d at_).
Proof.
  intros [Hf Ht]. apply distinct_count_spec. unfold gated_state in Ht. cbv zeta in Ht.
  change (distinct_count (recent_real c d at_))
    with (confirmations d at_ (confirmation_window c) is_real_positive).
  destruct (Nat.ltb_spec (confirmations d at_ (confirmation_window c) is_real_positive)
    (join_confirmations c)); [|done]. exfalso.
  rewrite andb_true_r in Ht.
  destruct (candidate d at_ c), (dp_state d); simpl in *; intuition congruence.
Qed.

Lemma recompute_current pe id d at_ trig t pe' :
  devices pe !! id = Some d -> next_transition pe + 1 <= u64_max ->
  recompute pe id at_ trig = (Ok (Some t), pe') ->
  tr_correction_of t = None /\ tr_device_id t = id /\
  exists d', devices pe' !! id = Some d' /\ current_justified (cfg pe) d' t.
Proof.
  intros Hd Hn. rewrite (recompute_eq _ _ _ _ d) by done. cbv zeta.
  case_decide as Hg; [done|]. intros [= <- <-]. split; [done|]. split; [done|]. simpl.
  eexists. split; [apply lookup_insert_eq|].
  unfold push_history. case_match. split; [simpl; congruence|]. split; [done|].
  intros Hj. simpl in Hj. by apply gated_join in Hj.
Qed.

Lemma absorb_correction c d e arrival r d' k target late :
  absorb c d e arrival r = (d', Some (k, target), late) ->
  exists dep, In dep (dp_history d) /\ tr_transition_id dep = k /\ tr_to dep = Offline /\
    arrival - tr_occurred_at dep <= correction_window c /\
    support_at e (tr_occurred_at dep) (dp_ever_supported d) (online_window c) = Some target.
Proof.
  unfold absorb. intros [= _ Hc _]. simpl in Hc.
  destruct (iter_find _ _) as [dep|] eqn:Ef; [|done].
  destruct (support_at _ _ _ _) as [tg|] eqn:Es; [|done]. injection Hc as <- <-.
  apply iter_find_some in Ef as [Hin%in_rev Hp]. unfold signed_duration_since in Hp. bprop.
  exists dep. auto.
Qed.

(** Every transition an operation publishes is justified. A correction
    names a departure still in the device's history, recent enough, at whose instant the late
    evidence supports exactly the corrected state. Any other transition is a real change that
    ends in the device's new state, and when it brings an unknown or departed device online
    or quiet, the device holds the configured number of pairwise distinct real observations inside the
    confirmation window: identical replays cannot advance the threshold. *)
Theorem published_transitions_justified c pe L o l pe' t :
  reach c pe L -> run_op pe o = (Ok l, pe') -> In t l ->
  match tr_correction_of t with
  | Some k => exists e arrival auth d,
      o = OpIngest e arrival auth /\ devices pe !! pe_device_id e = Some d /\
      correction_justified c d e arrival t k
  | None => exists d', devices pe' !! tr_device_id t = Some d' /\ current_justified c d' t
  end.
Proof.
  intros [Hi <-]%reach_inv Ho Hin. destruct o as [e arrival auth|id at_]; simpl in Ho.
  - apply ingest_cases in Ho as
      [[-> [[[= ->] _]|[x [=]]]]|(_ & _ & Hn & d & d' & corr & late & Hd & _ & _ & _ & _ & Ha & Hem)];
      [done|].
    unfold emit_transitions in Hem. cbv zeta in Hem. destruct corr as [[k target]|].
    + rewrite make_transition_eq in Hem by (simpl; lia). simpl in Hem.
      rewrite lookup_insert_eq, andb_false_r in Hem.
      destruct (recompute _ _ _ _) as [[[cur|]|] pe2] eqn:Er; simplify_eq.
      all: apply absorb_correction in Ha as (dep & Hdep & Hrest).
      all: assert (Hex : devices pe !! pe_device_id e
             = Some (default (initial_device arrival) (devices pe !! pe_device_id e)))
             by (destruct (devices pe !! pe_device_id e); [done|by destruct Hdep]).
      all: apply in_inv in Hin as [<-|Hin].
      1,3: simpl; exists e, arrival, auth; eexists; split; [done|]; split; [exact Hex|];
           exists dep; naive_solver.
      2: done.
      destruct Hin as [<-|[]].
      apply (recompute_current _ _ _ _ _ _ _ (lookup_insert_eq _ _ _)) in Er as (-> & -> & Hx);
        [done|simpl; lia].
    + destruct (late && _) eqn:El; [by simplify_eq|].
      destruct (recompute _ _ _ _) as [[[cur|]|] pe2] eqn:Er; simplify_eq; try done.
      destruct Hin as [<-|[]].
      apply (recompute_current _ _ _ _ _ _ _ (lookup_insert_eq _ _ _)) in Er as (-> & -> & Hx);
        [done|simpl; lia].
  - unfold evaluate in Ho. destruct (devices pe !! id) as [d|]; [|done].
    destruct (at_ <? _); [done|]. destruct (Z.eqb_spec (next_transition pe) u64_max); [done|].
    pose proof (inv_next _ _ Hi).
    destruct (recompute _ _ _ _) as [[[cur|]|] pe2] eqn:Er; simplify_eq; try done.
    destruct Hin as [<-|[]].
    apply (recompute_current _ _ _ _ _ _ _ (lookup_insert_eq _ _ _)) in Er as (-> & -> & Hx);
      [done|simpl; lia].
Qed.

(** Duplicates and stale control messages are ignored: evidence the
    device already holds, or a control message no newer than the state it would change, is
    answered with no transitions and leaves the engine exactly as it was. *)
Theorem duplicate_evidence_ignored pe e arrival auth d :
  validate pe e arrival auth = Ok tt -> devices pe !! pe_device_id e = Some d ->
  dp_last_evaluation d <= arrival -> In e (dp_evidence d) \/ stale_control d e = true ->
  ingest_authorized pe e arrival auth = (Ok [], pe).
Proof.
  intros Hv Hd Hle Hdup. unfold ingest_authorized. rewrite Hv, Hd. simpl.
  unfold preflight. rewrite (proj2 (Z.ltb_ge _ _)) by done.
  replace (existsb _ _ || stale_control d e) with true; [done|]. symmetry.
  destruct Hdup as [Hin| ->]; [|by rewrite orb_true_r].
  apply orb_true_iff. left. apply existsb_exists. exists e. by rewrite bool_decide_eq_true_2.
Qed.
End Transitions.
