(* ===== verification/PresenceCheckpoint.v ===== *)
(** * The presence engine: checkpoints

    [PresenceEngine::checkpoint] and the validating [from_checkpoint] of
    presence.rs. The textual form of a UUID, which orders the devices of a
    checkpoint, is the uuid crate's: the parameter [uuid_to_string]. *)

From S2P Require Import Prelude Time Text Domain Presence PresenceProps.

Record PresenceCheckpointDevice := {
  cd_device_id : DeviceId;
  cd_state : PresenceState;
  cd_evidence : list PresenceEvidence;
  cd_history : list PresenceTransition;
  cd_last_evaluation : DateTime;
  cd_ever_supported : bool;
  cd_blocked : bool;
  cd_impaired : bool;
  cd_contradictory : bool;
  cd_enforcement_clock : option DateTime;
  cd_impairment_clock : option DateTime;
  cd_contradiction_clock : option DateTime;
  cd_evicted_through : option Z
}.

Record PresenceCheckpoint := {
  cp_version : Z;
  cp_devices : list PresenceCheckpointDevice;
  cp_next_transition : Z
}.

Definition checkpoint_device (p : DeviceId * DevicePresence) : PresenceCheckpointDevice :=
  let '(id, d) := p in {|
  cd_device_id := id; cd_state := dp_state d; cd_evidence := dp_evidence d;
  cd_history := dp_history d; cd_last_evaluation := dp_last_evaluation d;
  cd_ever_supported := dp_ever_supported d; cd_blocked := dp_blocked d;
  cd_impaired := dp_impaired d; cd_contradictory := dp_contradictory d;
  cd_enforcement_clock := dp_enforcement_clock d; cd_impairment_clock := dp_impairment_clock d;
  cd_contradiction_clock := dp_contradiction_clock d; cd_evicted_through := dp_evicted_through d |}.

Definition restored_device (x : PresenceCheckpointDevice) : DevicePresence := {|
  dp_state := cd_state x; dp_evidence := cd_evidence x; dp_history := cd_history x;
  dp_last_evaluation := cd_last_evaluation x; dp_ever_supported := cd_ever_supported x;
  dp_blocked := cd_blocked x; dp_impaired := cd_impaired x;
  dp_contradictory := cd_contradictory x; dp_enforcement_clock := cd_enforcement_clock x;
  dp_impairment_clock := cd_impairment_clock x;
  dp_contradiction_clock := cd_contradiction_clock x; dp_evicted_through := cd_evicted_through x |}.

Section Checkpoint.
Context `{Calendar} (uuid_to_string : DeviceId -> string).

Definition key_le (a b : PresenceCheckpointDevice) : Prop :=
  String.leb (uuid_to_string (cd_device_id a)) (uuid_to_string (cd_device_id b)) = true.
#[global] Instance key_le_dec : RelDecision key_le.
Proof. intros a b. unfold key_le. apply _. Defined.

Definition checkpoint (pe : PresenceEngine) : PresenceCheckpoint := {|
  cp_version := 1;
  cp_devices := merge_sort key_le (map checkpoint_device (map_to_list (devices pe)));
  cp_next_transition := next_transition pe |}.

Definition bad (what : string) : PresenceError := InvalidCheckpoint what.

Definition trigger_bad (c : PresenceConfig) (g : PresenceTrigger) : bool :=
  str_is_empty (pt_source g) || Nat.ltb (max_source_len c) (String.length (pt_source g))
  || negb (existsb (fun s => bool_decide (s = pt_source g)) (trusted_sources c))
  || bool_decide (pt_kind g = Evaluation)
  || (bool_decide (pt_kind g = NeighborCache) && negb (is_some_and (fun _ => true) (pt_valid_until g)))
  || (pt_arrival_at g <? pt_observed_at g)
  || is_some_and (fun v => v <? pt_observed_at g) (pt_valid_until g).

(** The loop over [x.history]. *)
Fixpoint scan_history (c : PresenceConfig) (x : PresenceCheckpointDevice)
    (h : list PresenceTransition) (last : Z) (previous_state : option PresenceState)
    (global_ids : gset Z) (max_id : Z) (retained : gmap Z PresenceTransition)
  : result (gset Z * Z * gmap Z PresenceTransition) PresenceError :=
  match h with
  | [] => Ok (global_ids, max_id, retained)
  | t :: h' =>
    if (tr_transition_id t =? 0) || bool_decide (tr_transition_id t ∈ global_ids)
       || (tr_transition_id t <=? last)
       || bool_decide (tr_device_id t <> cd_device_id x)
       || is_some_and (fun s => bool_decide (tr_from t <> s)) previous_state
    then Err (bad "history")
    else match checked_add_signed (cd_last_evaluation x) (future_skew c) with
    | None => Err (bad "time")
    | Some limit =>
      if limit <? tr_occurred_at t then Err (bad "history")
      else if trigger_bad c (tr_trigger t) then Err (bad "trigger")
      else match checked_add_signed (pt_arrival_at (tr_trigger t)) (future_skew c) with
      | None => Err (bad "time")
      | Some limit2 =>
        if limit2 <? pt_observed_at (tr_trigger t) then Err (bad "trigger")
        else scan_history c x h' (tr_transition_id t) (Some (tr_to t))
               ({[tr_transition_id t]} ∪ global_ids) (Z.max max_id (tr_transition_id t))
               (<[tr_transition_id t := t]> retained)
      end
    end
  end.

Fixpoint check_corrections (retained : gmap Z PresenceTransition) (h : list PresenceTransition)
  : result unit PresenceError :=
  match h with
  | [] => Ok tt
  | t :: h' =>
    match tr_correction_of t with
    | None => check_corrections retained h'
    | Some target =>
      match retained !! target with
      | None => Err (bad "correction target")
      | Some target =>
        if (tr_transition_id t <=? tr_transition_id target)
           || bool_decide (tr_to target <> Offline)
        then Err (bad "correction target")
        else check_corrections retained h'
      end
    end
  end.

Fixpoint check_evidence (c : PresenceConfig) (x : PresenceCheckpointDevice)
    (l : list PresenceEvidence) : result unit PresenceError :=
  match l with
  | [] => Ok tt
  | e :: l' =>
    if bool_decide (pe_device_id e <> cd_device_id x) || str_is_empty (pe_source e)
       || Nat.ltb (max_source_len c) (String.length (pe_source e))
       || bool_decide (pe_kind e = Evaluation)
       || (bool_decide (pe_kind e = NeighborCache) && negb (is_some_and (fun _ => true) (pe_valid_until e)))
       || is_some_and (fun v => v <? pe_observed_at e) (pe_valid_until e)
    then Err (bad "evidence")
    else if negb (existsb (fun s => bool_decide (s = pe_source e)) (trusted_sources c))
    then Err (bad "source")
    else if (cd_last_evaluation x <? pe_observed_at e)
            || is_some_and (fun v => v <? pe_observed_at e) (pe_valid_until e)
    then Err (bad "evidence time")
    else check_evidence c x l'
  end.

Definition is_enforcement (k : PresenceEvidenceKind) : bool :=
  bool_decide (k = EnforcementBlocked) || bool_decide (k = EnforcementUnblocked).

(** An enforcement transition needs its evidence... *)
Definition unproven_trigger (x : PresenceCheckpointDevice) (enforcement_clock : option DateTime)
    (t : PresenceTransition) : bool :=
  is_enforcement (pt_kind (tr_trigger t)) &&
  negb (existsb (fun e =>
    bool_decide (pe_source e = pt_source (tr_trigger t))
    && bool_decide (pe_kind e = pt_kind (tr_trigger t))
    && (pe_observed_at e =? pt_observed_at (tr_trigger t))
    && bool_decide (pe_valid_until e = pt_valid_until (tr_trigger t))
    && (pe_observed_at e <=? default (pe_observed_at e) enforcement_clock)) (cd_evidence x)).

(** ... and enforcement evidence its transition, unless that was evicted. *)
Definition unproven_evidence (x : PresenceCheckpointDevice) (e : PresenceEvidence) : bool :=
  is_enforcement (pe_kind e)
  && negb (existsb (fun t =>
       bool_decide (pt_source (tr_trigger t) = pe_source e)
       && bool_decide (pt_kind (tr_trigger t) = pe_kind e)
       && (pt_observed_at (tr_trigger t) =? pe_observed_at e)
       && bool_decide (pt_valid_until (tr_trigger t) = pe_valid_until e)) (cd_history x))
  && negb (is_some_and (fun _ => true) (cd_evicted_through x)
           && bool_decide (cd_enforcement_clock x = Some (pe_observed_at e))
           && negb (is_some_and (fun _ => true) (pe_valid_until e))).

(** The body of [for x in c.devices]. *)
Definition check_device (c : PresenceConfig) (next : Z) (x : PresenceCheckpointDevice)
    (acc : gmap DeviceId DevicePresence * Z * gset Z)
  : result (gmap DeviceId DevicePresence * Z * gset Z) PresenceError :=
  let '(ds, max_id, global_ids) := acc in
  if negb (bool_decide (ds !! cd_device_id x = None))
     || Nat.ltb (max_evidence_per_device c) (length (cd_evidence x))
     || Nat.ltb (max_history_per_device c) (length (cd_history x))
  then Err (bad "duplicate or capacity")
  else
    let previous_state := match cd_evicted_through x with
                          | Some _ => None
                          | None => Some Unknown
                          end in
    let? (global_ids, max_id, retained) :=
      scan_history c x (cd_history x) 0 previous_state global_ids max_id ∅ in
    let? _ := check_corrections retained (cd_history x) in
    if is_some_and (fun t => bool_decide (tr_to t <> cd_state x)) (last (cd_history x))
    then Err (bad "final state")
    else
    let? _ := check_evidence c x (cd_evidence x) in
    if conflicting_controls (cd_evidence x) EnforcementBlocked EnforcementUnblocked
       || conflicting_controls (cd_evidence x) SensorImpaired SensorRecovered
       || conflicting_controls (cd_evidence x) Contradiction ContradictionCleared
    then Err (bad "conflicting controls")
    else if is_some_and (fun v => next <=? v) (cd_evicted_through x)
            || is_some_and (fun evicted =>
                 is_some_and (fun first => tr_transition_id first <=? evicted)
                   (head (cd_history x))) (cd_evicted_through x)
    then Err (bad "cursor")
    else if bool_decide ((cd_blocked x, cd_enforcement_clock x)
               <> control_state (cd_evidence x) EnforcementBlocked EnforcementUnblocked)
            || bool_decide ((cd_impaired x, cd_impairment_clock x)
               <> control_state (cd_evidence x) SensorImpaired SensorRecovered)
            || bool_decide ((cd_contradictory x, cd_contradiction_clock x)
               <> control_state (cd_evidence x) Contradiction ContradictionCleared)
    then Err (bad "control state")
    else if existsb (unproven_trigger x
              (snd (control_state (cd_evidence x) EnforcementBlocked EnforcementUnblocked)))
              (cd_history x) then Err (bad "enforcement trigger")
    else if existsb (unproven_evidence x) (cd_evidence x) then Err (bad "enforcement evidence")
    else Ok (<[cd_device_id x := restored_device x]> ds, max_id, global_ids).

Fixpoint check_devices (c : PresenceConfig) (next : Z) (l : list PresenceCheckpointDevice)
    (acc : gmap DeviceId DevicePresence * Z * gset Z)
  : result (gmap DeviceId DevicePresence * Z * gset Z) PresenceError :=
  match l with
  | [] => Ok acc
  | x :: l' => let? acc' := check_device c next x acc in check_devices c next l' acc'
  end.

Definition from_checkpoint (c : PresenceConfig) (cp : PresenceCheckpoint)
  : result PresenceEngine PresenceError :=
  let? _ := validate_config c in
  if negb (cp_version cp =? 1) || (cp_next_transition cp =? 0)
     || Nat.ltb (max_devices c) (length (cp_devices cp))
  then Err (bad "version, sequence, or capacity")
  else
    let? (ds, max_id, _) := check_devices c (cp_next_transition cp) (cp_devices cp) (∅, 0, ∅) in
    if cp_next_transition cp <=? max_id then Err (bad "sequence")
    else Ok {| cfg := c; devices := ds; next_transition := cp_next_transition cp |}.
End Checkpoint.
