(* ===== verification/PresenceRestore.v ===== *)
(** * The presence engine: restoring checkpoints

    Round trips between engines and checkpoints, what an accepted
    checkpoint guarantees, that an engine which timed a device out is not restored, and other
    reachable engines whose own checkpoint is refused. *)

From S2P Require Import Prelude Time Text Domain Presence PresenceProps PresenceStates PresenceCheckpoint.

Section Restore.
Context `{Calendar}.

(** Transition numbers of one device: positive, increasing, below [next]. *)
Definition ids_ok (next : Z) (h : list PresenceTransition) : Prop :=
  StronglySorted Z.lt (map tr_transition_id h) /\
  Forall (fun t => 0 < tr_transition_id t < next) h.

(** What [from_checkpoint] establishes of one device. *)
Definition restored_ok (c : PresenceConfig) (next : Z) (id : DeviceId) (d : DevicePresence) : Prop :=
  (length (dp_history d) <= max_history_per_device c)%nat /\
  (length (dp_evidence d) <= max_evidence_per_device c)%nat /\
  ids_ok next (dp_history d) /\
  Forall (fun t => tr_device_id t = id) (dp_history d) /\
  (forall v, dp_evicted_through d = Some v ->
     v < next /\ Forall (fun t => v < tr_transition_id t) (dp_history d)) /\
  Forall (evidence_ok c id) (dp_evidence d) /\ flags_ok d.

Lemma scan_history_ok c x h last prev g m r g' m' r' :
  0 <= last -> Forall (fun t => 0 <= tr_transition_id t) h ->
  scan_history c x h last prev g m r = Ok (g', m', r') ->
  m <= m' /\ StronglySorted Z.lt (map tr_transition_id h) /\
  Forall (fun t => last < tr_transition_id t <= m' /\ tr_device_id t = cd_device_id x) h.
Proof.
  revert last prev g m r. induction h as [|t h IH]; intros last prev g m r Hl Hn; simpl.
  { intros [= <- <- <-]. split; [done|]. split; constructor. }
  apply Forall_cons in Hn as [Ht Hn]. intros Hs.
  destruct (_ || _ || _ || _ || _) eqn:E1 in Hs; [done|]. bprop.
  destruct (checked_add_signed (cd_last_evaluation x) _) in Hs; [|done].
  destruct (_ <? tr_occurred_at t) in Hs; [done|].
  destruct (trigger_bad _ _) in Hs; [done|].
  destruct (checked_add_signed (pt_arrival_at _) _) in Hs; [|done].
  destruct (_ <? pt_observed_at _) in Hs; [done|].
  apply IH in Hs as (Hm & Hs & Hall); [|lia|done].
  split; [lia|]. split.
  - constructor; [done|]. apply Forall_map. eapply Forall_impl; [exact Hall|]. simpl. lia.
  - constructor; [split; [lia|by apply dec_stable]|].
    eapply Forall_impl; [exact Hall|]. simpl. naive_solver lia.
Qed.

Lemma check_evidence_ok c x l :
  check_evidence c x l = Ok tt -> Forall (evidence_ok c (cd_device_id x)) l.
Proof.
  induction l as [|e l IH]; simpl; [constructor|].
  destruct (_ || _ || _ || _ || _ || _) eqn:E1; [done|]. bprop.
  destruct (negb (existsb _ _)) eqn:E2; [done|].
  destruct (_ || _) eqn:E3; [done|]. intros Hl%IH. bprop. constructor; [|done].
  apply existsb_exists in E2 as (s & Hs & Hd). bprop. subst s.
  split; [by apply dec_stable|]. split; [done|]. split; [done|]. split.
  - intros Hk. rewrite (bool_decide_eq_true_2 _ Hk) in *. simpl in *. by destruct (pe_valid_until e).
  - intros v Hv. rewrite Hv in *. simpl in *. bprop. lia.
Qed.

Lemma check_device_ok c next x ds m g ds' m' g' :
  Forall (fun t => 0 <= tr_transition_id t) (cd_history x) ->
  check_device c next x (ds, m, g) = Ok (ds', m', g') ->
  ds' = <[cd_device_id x := restored_device x]> ds /\ ds !! cd_device_id x = None /\
  m <= m' /\ forall n, m' < n -> next <= n ->
  restored_ok c n (cd_device_id x) (restored_device x).
Proof.
  intros Hn. unfold check_device. destruct (_ || _ || _) eqn:E1; [done|]. bprop.
  intros ([[g1 m1] r1] & Hscan & Hk)%result_bind_ok. cbn beta iota in Hk.
  apply result_bind_ok in Hk as ([] & _ & Hk).
  destruct (is_some_and _ (last _)); [done|].
  apply result_bind_ok in Hk as ([] & Hev & Hk).
  destruct (_ || _ || _) in Hk; [done|].
  destruct (is_some_and (fun v => next <=? v) _ || _) eqn:Ecur; [done|].
  destruct (_ || _ || _) eqn:Ectl in Hk; [done|].
  destruct (existsb _ _) in Hk; [done|]. destruct (existsb _ _) in Hk; [done|].
  injection Hk as <- <- <-. split; [done|]. split; [done|].
  apply scan_history_ok in Hscan as (Hm & Hs & Hall); [|lia|done]. split; [done|]. intros n Hmn Hnn.
  repeat match goal with H : Nat.ltb _ _ = false |- _ => apply Nat.ltb_ge in H end.
  split; [done|]. split; [done|]. split; [split; [done|]|split; [|split; [|split]]].
  - eapply Forall_impl; [exact Hall|]. simpl. lia.
  - eapply Forall_impl; [exact Hall|]. simpl. tauto.
  - intros v Hv. simpl in Hv. rewrite Hv in Ecur. simpl in Ecur. bprop. split; [lia|].
    simpl. destruct (cd_history x) as [|f h]; [constructor|]. simpl in *. bprop.
    apply StronglySorted_inv in Hs as [_ Hs]. constructor; [lia|].
    rewrite Forall_map in Hs. eapply Forall_impl; [exact Hs|]. simpl. lia.
  - by apply check_evidence_ok.
  - bprop. split; [by apply dec_stable|]. split; by apply dec_stable.
Qed.

Definition u64_checkpoint (cp : PresenceCheckpoint) : Prop :=
  0 <= cp_next_transition cp <= u64_max /\
  Forall (fun x => Forall (fun t => 0 <= tr_transition_id t) (cd_history x)) (cp_devices cp).

Lemma check_devices_ok c next l ds m g ds' m' g' n :
  Forall (fun x => Forall (fun t => 0 <= tr_transition_id t) (cd_history x)) l ->
  check_devices c next l (ds, m, g) = Ok (ds', m', g') ->
  m <= m' /\
  (m' < n -> next <= n -> map_Forall (restored_ok c n) ds -> map_Forall (restored_ok c n) ds') /\
  map_to_list ds' ≡ₚ map (fun x => (cd_device_id x, restored_device x)) l ++ map_to_list ds.
Proof.
  revert ds m g. induction l as [|x l IH]; intros ds m g Hl; simpl.
  { intros [= <- <- <-]. done. }
  apply Forall_cons in Hl as [Hx Hl].
  intros ([[ds1 m1] g1] & Hx1 & Hl1)%result_bind_ok.
  apply check_device_ok in Hx1 as (-> & Hnone & Hm & Hok); [|done].
  apply IH in Hl1 as (Hm' & Hall & Hperm); [|done]. split; [lia|]. split.
  - intros Hn Hnn Hds. apply Hall; [done|done|]. apply map_Forall_insert; [done|].
    split; [apply Hok; lia|done].
  - rewrite Hperm, map_to_list_insert by done. symmetry. apply Permutation_middle.
Qed.

(** Restoring is sound: an engine rebuilt from an accepted checkpoint
    respects every capacity, has positive strictly increasing transition numbers below the next
    one for each device, eviction cursors before the first retained transition, only evidence
    that ingestion would accept, and control flags that agree with the control evidence. *)
Theorem from_checkpoint_sound c cp pe :
  u64_checkpoint cp -> from_checkpoint c cp = Ok pe ->
  validate_config c = Ok tt /\ cfg pe = c /\ 0 < next_transition pe <= u64_max /\
  (size (devices pe) <= max_devices c)%nat /\
  map_Forall (restored_ok c (next_transition pe)) (devices pe).
Proof.
  intros [Hn Hh] ([] & Hv & Hk)%result_bind_ok. destruct (_ || _ || _) eqn:E; [done|]. bprop.
  apply result_bind_ok in Hk as ([[ds m] g] & Hds & Hk). cbn beta iota in Hk.
  destruct (Z.leb_spec (cp_next_transition cp) m) as [|Hm]; [done|]. injection Hk as <-. simpl.
  apply check_devices_ok with (n := cp_next_transition cp) in Hds as (_ & Hall & Hperm); [|done].
  split; [done|]. split; [done|]. split; [lia|]. split.
  - rewrite <- length_map_to_list, Hperm, length_app, length_map, map_to_list_empty. simpl.
    repeat match goal with H : Nat.ltb _ _ = false |- _ => apply Nat.ltb_ge in H end. lia.
  - apply Hall; [done|lia|]. apply map_Forall_empty.
Qed.

Lemma restored_checkpoint id d : restored_device (checkpoint_device (id, d)) = d.
Proof. by destruct d. Qed.

Lemma checkpoint_restored x : checkpoint_device (cd_device_id x, restored_device x) = x.
Proof. by destruct x. Qed.

(** Checkpoints round-trip: when an engine's own checkpoint is accepted
    under its configuration, the restored engine is that engine; and the checkpoint of an engine
    restored from any accepted checkpoint holds the very same devices and counter. *)
Theorem checkpoint_roundtrip uuid_to_string c pe cp pe' :
  u64_checkpoint cp -> from_checkpoint c cp = Ok pe' ->
  (cp = checkpoint uuid_to_string pe -> cfg pe = c -> pe' = pe) /\
  (cp_devices (checkpoint uuid_to_string pe') ≡ₚ cp_devices cp /\
   cp_next_transition (checkpoint uuid_to_string pe') = cp_next_transition cp /\
   cp_version (checkpoint uuid_to_string pe') = cp_version cp).
Proof.
  intros [Hn Hh] ([] & Hv & Hk)%result_bind_ok. destruct (_ || _ || _) eqn:E; [done|]. bprop.
  apply result_bind_ok in Hk as ([[ds m] g] & Hds & Hk). cbn beta iota in Hk.
  destruct (_ <=? _); [done|]. injection Hk as <-.
  apply check_devices_ok with (n := 0) in Hds as (_ & _ & Hperm); [|done].
  rewrite map_to_list_empty, app_nil_r in Hperm. split.
  - intros -> Hc. destruct pe as [c0 ds0 n0]. simpl in *. subst c0. f_equal.
    apply map_to_list_inj. rewrite Hperm. rewrite merge_sort_Permutation, map_map.
    rewrite <- (map_id (map_to_list ds0)) at 2. erewrite map_ext; [done|].
    intros [id d]. by rewrite restored_checkpoint.
  - split; [|done]. unfold checkpoint. simpl. rewrite merge_sort_Permutation, Hperm, map_map.
    rewrite <- (map_id (cp_devices cp)) at 2. erewrite map_ext; [done|].
    intros x. by rewrite checkpoint_restored.
Qed.
End Restore.

(** Everything a run publishes. *)
Fixpoint run_log `{Calendar} (pe : PresenceEngine) (ops : list op) : list PresenceTransition :=
  match ops with
  | [] => []
  | o :: ops' => emitted id (fst (run_op pe o)) ++ run_log (snd (run_op pe o)) ops'
  end.

Lemma run_ops_reach `{Calendar} c ops pe L :
  reach c pe L -> reach c (run_ops pe ops) (L ++ run_log pe ops).
Proof.
  revert pe L. induction ops as [|o ops IH]; intros pe L Hr; simpl; [by rewrite app_nil_r|].
  rewrite app_assoc. apply (IH (snd (run_op pe o))).
  eapply reach_op; [exact Hr|]. apply surjective_pairing.
Qed.

(** ** Concrete runs *)
Definition demo_config : PresenceConfig := {|
  online_window := seconds 10; correction_window := seconds 30; retention := hours 1;
  future_skew := seconds 2; confirmation_window := seconds 30;
  trusted_sources := ["sensor-a"%string]; join_confirmations := 2; departure_confirmations := 2;
  max_devices := 4; max_evidence_per_device := 16; max_history_per_device := 8;
  max_source_len := 64 |}.

Definition demo_engine : PresenceEngine :=
  {| cfg := demo_config; devices := ∅; next_transition := 1 |}.

(** Evidence of device 1 from the trusted sensor, times in seconds. *)
Definition ev (k : PresenceEvidenceKind) (observed : Z) (valid : option Z) : PresenceEvidence := {|
  pe_device_id := 1%N; pe_source := "sensor-a"; pe_kind := k;
  pe_observed_at := seconds observed; pe_valid_until := seconds <$> valid |}.
Definition see (k : PresenceEvidenceKind) (observed arrival : Z) : op :=
  OpIngest (ev k observed None) (seconds arrival) false.
Definition enforce (k : PresenceEvidenceKind) (observed : Z) : op :=
  OpIngest (ev k observed None) (seconds observed) true.

Definition join_ops : list op := [see Traffic 0 0; see Traffic 1 1].
Definition depart_ops : list op :=
  join_ops ++ [see ConfirmationFailure 12 12; see ConfirmationFailure 13 13].

Lemma demo_reach : reach demo_config demo_engine [].
Proof. apply (reach_new _ 1); [unfold u64_max; lia|reflexivity]. Qed.

Lemma demo_run ops : reach demo_config (run_ops demo_engine ops) (run_log demo_engine ops).
Proof. exact (run_ops_reach demo_config ops demo_engine [] demo_reach). Qed.

(** Each run with the complaint its own checkpoint meets. *)
Definition refused_runs : list (list op * string) := [
  ([see Traffic 1 0], "evidence time"%string);
  (join_ops ++ [OpIngest (ev Lease 2 (Some 100)) (seconds 2) false; OpEvaluate 1%N (seconds 20)],
   "trigger"%string);
  (join_ops ++ [enforce EnforcementBlocked 14; enforce EnforcementUnblocked 15],
   "enforcement trigger"%string);
  ([enforce EnforcementUnblocked 14; enforce EnforcementBlocked 14], "conflicting controls"%string);
  (depart_ops ++ [see Traffic 5 16], "final state"%string)
].

(** ** Transitions of the timer *)
Section Timer.
Context `{Calendar}.

Definition timed (t : PresenceTransition) : Prop := pt_kind (tr_trigger t) = Evaluation.

Lemma scan_history_untimed c x h last prev g m r res :
  scan_history c x h last prev g m r = Ok res -> Forall (fun t => ~ timed t) h.
Proof.
  revert last prev g m r. induction h as [|t h IH]; intros last prev g m r; simpl; [constructor|]. intros Hs.
  destruct (_ || _ || _ || _ || _) in Hs; [done|]. destruct (checked_add_signed _ _) in Hs; [|done]. destruct (_ <? _) in Hs; [done|].
  destruct (trigger_bad c (tr_trigger t)) eqn:Ht; [done|]. destruct (checked_add_signed _ _) in Hs; [|done]. destruct (_ <? _) in Hs; [done|].
  constructor; [|by eapply IH]. intros Hk. unfold trigger_bad, timed in *. rewrite (bool_decide_eq_true_2 _ Hk) in Ht. by rewrite !orb_true_r in Ht.
Qed.
Lemma check_devices_untimed c next l acc res :
  check_devices c next l acc = Ok res -> Forall (fun x => Forall (fun t => ~ timed t) (cd_history x)) l.
Proof.
  revert acc. induction l as [|x l IH]; intros acc; simpl; [constructor|]. intros (acc' & Hx & Hk)%result_bind_ok.
  constructor; [|by eapply IH]. unfold check_device in Hx. destruct acc as [[ds m] g]. destruct (_ || _ || _) in Hx; [done|].
  apply result_bind_ok in Hx as ([[g' m'] r'] & Hs & _). by apply scan_history_untimed in Hs.
Qed.

(** C39. An engine that timed a device out cannot be restored. Whenever [evaluate] publishes a transition,
    in any engine, the transition is of the timer and enters the history of the device; and as
    long as it is in that history, whatever happened in between, [from_checkpoint] refuses the
    engine's own checkpoint, under every configuration. *)
Theorem timed_out_engine_is_not_restored pe id at_ t pe' :
  evaluate pe id at_ = (Ok (Some t), pe') ->
  (exists d, devices pe' !! id = Some d /\ last (dp_history d) = Some t) /\
  forall (uuid_to_string : DeviceId -> string) c later d,
    devices later !! id = Some d -> In t (dp_history d) -> exists e, from_checkpoint c (checkpoint uuid_to_string later) = Err e.
Proof.
  unfold evaluate. destruct (devices pe !! id) as [d0|]; [|done]. destruct (_ <? _); [done|]. destruct (_ =? _); [done|].
  unfold recompute, make_transition. cbn [devices with_devices]. rewrite lookup_insert_eq. case_bool_decide; [done|]. cbv zeta.
  destruct (checked_add_u64 _ _); [|done]. cbn [devices with_devices with_next]. rewrite lookup_insert_eq. intros [= <- <-]. split.
  { eexists. cbn. rewrite lookup_insert_eq. split; [reflexivity|]. unfold push_history. destruct (evict_rounds _ _ _ _) as [h th]. cbn. apply last_snoc. }
  intros uuid_to_string c later d Hd Hin. destruct (from_checkpoint c (checkpoint uuid_to_string later)) as [r|e] eqn:Hf; [exfalso|by eexists].
  unfold from_checkpoint in Hf. apply result_bind_ok in Hf as (? & _ & Hf). destruct (_ || _ || _); [done|].
  apply result_bind_ok in Hf as (? & Hc%check_devices_untimed & _). cbn in Hc. rewrite merge_sort_Permutation in Hc.
  rewrite List.Forall_forall in Hc. specialize (Hc (checkpoint_device (id, d))). rewrite List.Forall_forall in Hc.
  eapply Hc; [|exact Hin|reflexivity]. apply in_map, list_elem_of_In, elem_of_map_to_list. exact Hd.
Qed.
End Timer.

(** Not every engine can be restarted from its own checkpoint: there are
    reachable engines, one for each kind of run listed in [refused_runs] (evidence
    within the tolerated future skew, a transition made by the timer, a block followed by its
    unblock, an unblock and a block observed at the same instant, and a historical correction that leaves
    the device offline), whose checkpoint [from_checkpoint] refuses. *)
Theorem checkpoint_of_reachable_engine_refused (uuid_to_string : DeviceId -> string) ops what :
  In (ops, what) refused_runs ->
  exists pe L, run_ops demo_engine ops = pe /\ reach demo_config pe L /\
    from_checkpoint demo_config (checkpoint uuid_to_string pe) = Err (InvalidCheckpoint what).
Proof.
  intros Hin. exists (run_ops demo_engine ops), (run_log demo_engine ops). split; [reflexivity|].
  split; [exact (demo_run ops)|].
  revert Hin. unfold refused_runs. simpl In.
  intros [[= <- <-]|[[= <- <-]|[[= <- <-]|[[= <- <-]|[[= <- <-]|[]]]]]]; vm_compute; reflexivity.
Qed.

(** ** The presence engine: the theorems at concrete runs *)

Lemma presence_invariant_witness :
  exists L, engine_inv (run_ops demo_engine depart_ops) L /\
    state (run_ops demo_engine depart_ops) 1%N = Some Offline.
Proof.
  exists (run_log demo_engine depart_ops).
  split; [exact (presence_invariant _ _ _ (demo_run depart_ops))|].
  vm_compute. reflexivity.
Defined.

Lemma failed_operation_changes_nothing_witness :
  snd (run_op demo_engine (see Evaluation 0 0)) = demo_engine /\
  fst (run_op demo_engine (see Evaluation 0 0)) = Err (InvalidEvidence "reserved kind").
Proof.
  split; [|vm_compute; reflexivity].
  apply (failed_operation_changes_nothing demo_config demo_engine [] (see Evaluation 0 0)
           (InvalidEvidence "reserved kind") _ demo_reach).
  vm_compute. reflexivity.
Defined.

(** The join of device 1, as published. *)
Definition demo_join : PresenceTransition :=
  mk_tr 1 1%N Unknown Online (ev Traffic 1 None) (seconds 1) None.

Lemma demo_join_log : run_log demo_engine join_ops = [demo_join].
Proof. vm_compute. reflexivity. Qed.

Lemma demo_reach_join : reach demo_config (run_ops demo_engine join_ops) [demo_join].
Proof. rewrite <- demo_join_log. exact (demo_run join_ops). Qed.

Lemma demo_join_events :
  domain_events_since (run_ops demo_engine join_ops) 1%N 0 = Ok [presence_changed demo_join].
Proof. vm_compute. reflexivity. Qed.

Lemma domain_events_since_lossless_witness :
  [presence_changed demo_join] = map presence_changed
    (List.filter (fun t => 0 <? tr_transition_id t) (device_log 1%N [demo_join])).
Proof.
  pose proof (domain_events_since_lossless demo_config _ [demo_join] 1%N 0 demo_reach_join) as Hw.
  rewrite demo_join_events in Hw. exact Hw.
Defined.

Lemma verified_block_is_final_witness :
  state (run_ops (snd (record_verified_enforcement demo_engine 1%N true "sensor-a"
           (seconds 5) (seconds 5))) [see Traffic 6 6; OpEvaluate 1%N (seconds 9)]) 1%N = Some Blocked.
Proof.
  eapply (verified_block_is_final demo_config demo_engine [] 1%N "sensor-a" (seconds 5) (seconds 5)).
  - exact demo_reach.
  - intros d t Hd. vm_compute in Hd. discriminate.
  - vm_compute. reflexivity.
  - repeat constructor.
Defined.

Lemma no_presence_without_real_evidence_witness :
  state (run_ops demo_engine [OpIngest (ev ProbeSuccess 0 (Some 50)) 0 false;
                              see ConfirmationFailure 1 1]) 1%N ∈ [None; Some Unknown; Some Blocked].
Proof.
  apply (no_presence_without_real_evidence demo_config demo_engine); [reflexivity|].
  repeat constructor.
Defined.

Lemma published_transitions_justified_witness :
  exists d', devices (run_ops demo_engine join_ops) !! 1%N = Some d' /\
    current_justified demo_config d' demo_join.
Proof.
  assert (Ho : run_op (run_ops demo_engine [see Traffic 0 0]) (see Traffic 1 1)
               = (Ok [demo_join], run_ops demo_engine join_ops)) by (vm_compute; reflexivity).
  exact (published_transitions_justified demo_config _ _ _ _ _ demo_join
           (demo_run [see Traffic 0 0]) Ho (or_introl eq_refl)).
Defined.

Lemma duplicate_evidence_ignored_witness :
  ingest_events (run_ops demo_engine join_ops) (ev Traffic 1 None) (seconds 2)
    = (Ok [], run_ops demo_engine join_ops).
Proof.
  eapply (duplicate_evidence_ignored (run_ops demo_engine join_ops) (ev Traffic 1 None) (seconds 2) false).
  - vm_compute. reflexivity.
  - vm_compute. reflexivity.
  - vm_compute. discriminate.
  - left. vm_compute. auto.
Defined.

Definition demo_checkpoint : PresenceCheckpoint :=
  checkpoint (fun _ => EmptyString) (run_ops demo_engine depart_ops).

Lemma demo_checkpoint_u64 : u64_checkpoint demo_checkpoint.
Proof. split; [vm_compute; split; discriminate|]. vm_compute. repeat constructor; discriminate. Defined.

Lemma demo_restores :
  from_checkpoint demo_config demo_checkpoint = Ok (run_ops demo_engine depart_ops).
Proof. vm_compute. reflexivity. Qed.

Lemma from_checkpoint_sound_witness :
  map_Forall (restored_ok demo_config (next_transition (run_ops demo_engine depart_ops)))
    (devices (run_ops demo_engine depart_ops)).
Proof.
  exact (proj2 (proj2 (proj2 (proj2 (from_checkpoint_sound _ _ _ demo_checkpoint_u64 demo_restores))))).
Defined.

Lemma checkpoint_roundtrip_witness :
  cp_devices (checkpoint (fun _ => EmptyString) (run_ops demo_engine depart_ops))
    ≡ₚ cp_devices demo_checkpoint.
Proof.
  exact (proj1 (proj2 (checkpoint_roundtrip (fun _ => EmptyString) _ demo_engine _ _
           demo_checkpoint_u64 demo_restores))).
Defined.

Definition quiet_ops : list op := join_ops ++ [OpIngest (ev Lease 2 (Some 100)) (seconds 2) false].
Lemma timed_out_engine_is_not_restored_witness :
  match evaluate (run_ops demo_engine quiet_ops) 1%N (seconds 20) with
  | (Ok (Some t), pe') => exists e, from_checkpoint demo_config (checkpoint (fun _ => EmptyString) pe') = Err e
  | _ => False
  end.
Proof.
  assert (match evaluate (run_ops demo_engine quiet_ops) 1%N (seconds 20) with (Ok (Some _), _) => true | _ => false end = true) as Hev by (vm_compute; reflexivity).
  destruct (evaluate (run_ops demo_engine quiet_ops) 1%N (seconds 20)) as [[[t|]|] pe'] eqn:E; try discriminate Hev.
  destruct (timed_out_engine_is_not_restored _ _ _ _ _ E) as [(d & Hd & Hl) Hr].
  apply (Hr (fun _ => EmptyString) demo_config pe' d Hd). apply last_Some in Hl as (l & ->). apply in_or_app. right. left. reflexivity.
Defined.

Lemma checkpoint_of_reachable_engine_refused_witness :
  exists pe L, run_ops demo_engine [see Traffic 1 0] = pe /\ reach demo_config pe L /\
    from_checkpoint demo_config (checkpoint (fun _ => EmptyString) pe)
      = Err (InvalidCheckpoint "evidence time").
Proof.
  apply (checkpoint_of_reachable_engine_refused (fun _ => EmptyString)
           [see Traffic 1 0] "evidence time"). by left.
Defined.
