(* ===== verification/Identity.v ===== *)
(** * The identity engine: data and operations

    crates/lattice-intelligence/src/lib.rs: evidence facts per device, correlation of new
    evidence with known devices, merge proposals and their reversible decisions, owner
    facts, identification and eviction. Checkpoints are in IdentityCheckpoint.

    A HashMap is a [gmap] and a HashSet a [gset]; every place where the code iterates over one
    sorts the result by the text of the device identifiers, which is the parameter
    [uuid_to_string] (the uuid crate's [Display]). [Vec] indexing with a device of a merge
    component ([self.facts[d]]) reads an empty list where the map has no entry. *)

From S2P Require Import Prelude Time Text F32 Domain.

Record IdentityConfig := {
  auto_identification_threshold : f32;
  router_hint_cap : f32;
  match_threshold : f32;
  contradiction_threshold : f32;
  max_facts_per_device : nat;
  max_proposals : nat;
  max_devices : nat;
  max_merge_edges : nat;
  max_candidate_work : nat;
  max_output_facts : nat;
  max_audit_records : nat;
  max_key_len : nat;
  max_value_len : nat;
  max_source_len : nat
}.

Definition f32_085 : f32 := f32_lit 85 100.

Definition default_identity_config : IdentityConfig := {|
  auto_identification_threshold := f32_085; router_hint_cap := f32_lit 49 100;
  match_threshold := f32_085; contradiction_threshold := f32_085;
  max_facts_per_device := 256; max_proposals := 1024; max_devices := 4096;
  max_merge_edges := 4096; max_candidate_work := Z.to_nat 1000000; max_output_facts := 512;
  max_audit_records := 4096; max_key_len := 96; max_value_len := 1024; max_source_len := 128 |}.

Inductive IdentityError :=
  | InvalidConfidence
  | InvalidConfig (what : string)
  | InvalidInput (what : string)
  | Capacity (what : string)
  | DeviceNotFound
  | ProposalNotFound
  | IdSourceExhausted
  | CannotUndo
  | InvalidCheckpoint (what : string).

Definition valid (c : IdentityConfig) : result unit IdentityError :=
  if existsb (fun n => negb (f32_is_finite n) || negb (f32_unit_interval n))
       [auto_identification_threshold c; router_hint_cap c; match_threshold c;
        contradiction_threshold c]
  then Err (InvalidConfig "confidence")
  else if f32_lt (auto_identification_threshold c) f32_085
          || f32_le f32_085 (router_hint_cap c)
          || f32_lt (match_threshold c) f32_085
          || f32_lt (contradiction_threshold c) f32_085
  then Err (InvalidConfig "unsafe thresholds")
  else if existsb (Nat.eqb 0)
       [max_facts_per_device c; max_proposals c; max_devices c; max_merge_edges c;
        max_candidate_work c; max_output_facts c; max_audit_records c; max_key_len c;
        max_value_len c; max_source_len c]
  then Err (InvalidConfig "zero capacity")
  else Ok tt.

Inductive ProposalStatus := Pending | Accepted | Rejected | Undone.
#[global] Instance ProposalStatus_eq_dec : EqDecision ProposalStatus.
Proof. solve_decision. Defined.

Inductive Decision_ := Accept | Reject.

Record MergeProposal := {
  mp_id : Z;
  mp_left : DeviceId;
  mp_right : DeviceId;
  mp_score : f32;
  mp_families : list EvidenceFamily;
  mp_reasons : list string;
  mp_status : ProposalStatus
}.

Record AuditRecord := { au_proposal_id : Z; au_action : ProposalStatus }.

Record OwnerAuditRecord := {
  ow_sequence : Z;
  ow_device_id : DeviceId;
  ow_key : string;
  ow_value : option string;
  ow_recorded_at : DateTime
}.

Record Identification := {
  id_vendor : string;
  id_device_class : string;
  id_model : option string;
  id_firmware : option string;
  id_confidence : f32;
  id_families : list EvidenceFamily
}.

Record StateSnapshot := {
  ss_devices : nat; ss_facts : nat; ss_proposals : nat; ss_audit : nat; ss_owner_audit : nat;
  ss_edges : nat; ss_next_proposal : Z
}.

Record Edge := { eg_a : DeviceId; eg_b : DeviceId; eg_active : bool }.

Record IdentityEngine := {
  ie_cfg : IdentityConfig;
  ie_ids : list DeviceId;
  ie_facts : gmap DeviceId (list EvidenceFact);
  ie_proposals : list MergeProposal;
  ie_edges : gmap Z Edge;
  ie_audit : list AuditRecord;
  ie_owners : list OwnerAuditRecord;
  ie_next_proposal : Z;
  ie_next_owner : Z
}.

(** *** Field assignments *)
Definition with_facts (m : gmap DeviceId (list EvidenceFact)) (e : IdentityEngine) := {|
  ie_cfg := ie_cfg e; ie_ids := ie_ids e; ie_facts := m; ie_proposals := ie_proposals e;
  ie_edges := ie_edges e; ie_audit := ie_audit e; ie_owners := ie_owners e;
  ie_next_proposal := ie_next_proposal e; ie_next_owner := ie_next_owner e |}.
Definition with_ids (l : list DeviceId) (e : IdentityEngine) := {|
  ie_cfg := ie_cfg e; ie_ids := l; ie_facts := ie_facts e; ie_proposals := ie_proposals e;
  ie_edges := ie_edges e; ie_audit := ie_audit e; ie_owners := ie_owners e;
  ie_next_proposal := ie_next_proposal e; ie_next_owner := ie_next_owner e |}.
Definition with_proposals (l : list MergeProposal) (next : Z) (e : IdentityEngine) := {|
  ie_cfg := ie_cfg e; ie_ids := ie_ids e; ie_facts := ie_facts e; ie_proposals := l;
  ie_edges := ie_edges e; ie_audit := ie_audit e; ie_owners := ie_owners e;
  ie_next_proposal := next; ie_next_owner := ie_next_owner e |}.
Definition with_edges (m : gmap Z Edge) (e : IdentityEngine) := {|
  ie_cfg := ie_cfg e; ie_ids := ie_ids e; ie_facts := ie_facts e;
  ie_proposals := ie_proposals e; ie_edges := m; ie_audit := ie_audit e;
  ie_owners := ie_owners e; ie_next_proposal := ie_next_proposal e;
  ie_next_owner := ie_next_owner e |}.
Definition with_audit (l : list AuditRecord) (e : IdentityEngine) := {|
  ie_cfg := ie_cfg e; ie_ids := ie_ids e; ie_facts := ie_facts e;
  ie_proposals := ie_proposals e; ie_edges := ie_edges e; ie_audit := l;
  ie_owners := ie_owners e; ie_next_proposal := ie_next_proposal e;
  ie_next_owner := ie_next_owner e |}.
Definition with_owners (l : list OwnerAuditRecord) (next : Z) (e : IdentityEngine) := {|
  ie_cfg := ie_cfg e; ie_ids := ie_ids e; ie_facts := ie_facts e;
  ie_proposals := ie_proposals e; ie_edges := ie_edges e; ie_audit := ie_audit e;
  ie_owners := l; ie_next_proposal := ie_next_proposal e; ie_next_owner := next |}.

(** ** Taxonomy and normalisation *)
Definition one_of (k : string) (l : list string) : bool :=
  existsb (fun s => bool_decide (k = s)) l.

Definition is_family (f g : EvidenceFamily) : bool := bool_decide (f = g).

Definition allowed (k : string) (f : EvidenceFamily) : bool :=
  if is_family f RouterHint
  then one_of k ["vendor"; "class"; "model"; "firmware"; "label"; "hostname"; "room"]
  else if one_of k ["mac"] then is_family f LinkLayer
  else if one_of k ["ip"; "client_id"; "dhcp_client_id"; "duid"] then is_family f Addressing
  else if one_of k ["hostname"; "name"] then is_family f Naming
  else if one_of k ["tls_spki"; "ssh_host_key"] then is_family f Cryptographic
  else if one_of k ["serial"; "uuid"; "onvif_uuid"; "upnp_udn"] then is_family f Service
  else if one_of k ["vendor"; "class"; "model"; "firmware"]
  then is_family f Naming || is_family f Service || is_family f Cryptographic
  else false.

Definition anchor (k : string) : option EvidenceFamily :=
  if one_of k ["mac"] then Some LinkLayer
  else if one_of k ["client_id"; "dhcp_client_id"; "duid"] then Some Addressing
  else if one_of k ["tls_spki"; "ssh_host_key"] then Some Cryptographic
  else if one_of k ["serial"; "uuid"; "onvif_uuid"; "upnp_udn"] then Some Service
  else None.

Definition family_rank (f : EvidenceFamily) : Z :=
  match f with
  | LinkLayer => 0 | Addressing => 1 | Naming => 2 | Service => 3
  | Cryptographic => 4 | RouterHint => 5 | Owner => 6
  end.

(** [Vec::dedup]: drop an element equal to its predecessor. *)
Fixpoint dedup {A} `{EqDecision A} (l : list A) : list A :=
  match l with
  | a :: (b :: _) as l' => if bool_decide (a = b) then dedup l' else a :: dedup l'
  | _ => l
  end.

Definition rank_le (f g : EvidenceFamily) : Prop := family_rank f <= family_rank g.
#[global] Instance rank_le_dec : RelDecision rank_le.
Proof. intros f g. unfold rank_le. apply _. Defined.

Definition sortfam (v : list EvidenceFamily) : list EvidenceFamily := dedup (merge_sort rank_le v).

Definition text_le (a b : string) : Prop := String.leb a b = true.
#[global] Instance text_le_dec : RelDecision text_le.
Proof. intros a b. unfold text_le. apply _. Defined.

Definition sort_reasons (l : list string) : list string := dedup (merge_sort text_le l).

Definition live (now : DateTime) (f : EvidenceFact) : bool :=
  is_none_or (fun x => now <? x) (ef_expires_at f).

(** [split]: [n] separators make [n + 1] pieces. *)
Fixpoint split_on (c : ascii) (s : string) : list string :=
  match s with
  | EmptyString => [EmptyString]
  | String a s' =>
      if Ascii.eqb a c then EmptyString :: split_on c s'
      else match split_on c s' with
           | [] => [String a EmptyString]
           | p :: ps => String a p :: ps
           end
  end.

Fixpoint contains_char (c : ascii) (s : string) : bool :=
  match s with
  | EmptyString => false
  | String a s' => Ascii.eqb a c || contains_char c s'
  end.

Definition pieces (c : ascii) (count len : nat) (s : string) : bool :=
  Nat.eqb (length (split_on c s)) count
  && forallb (fun x => Nat.eqb (String.length x) len) (split_on c s).

Definition hex_val (a : ascii) : option Z :=
  let n := Z.of_N (N_of_ascii a) in
  if (48 <=? n) && (n <=? 57) then Some (n - 48)
  else if (97 <=? n) && (n <=? 102) then Some (n - 87)
  else if (65 <=? n) && (n <=? 70) then Some (n - 55)
  else None.

Definition hex_digit (n : Z) : ascii :=
  ascii_of_N (Z.to_N (if n <? 10 then n + 48 else n + 87)).

(** The separators removed: [v.chars().filter(..)]. *)
Fixpoint strip_separators (s : string) : list ascii :=
  match s with
  | EmptyString => []
  | String a s' =>
      if Ascii.eqb a ":" || Ascii.eqb a "-" || Ascii.eqb a "." then strip_separators s'
      else a :: strip_separators s'
  end.

(** Pairs of hexadecimal digits as bytes; [None] on an odd or non-hexadecimal rest. *)
Fixpoint hex_bytes (l : list ascii) : option (list Z) :=
  match l with
  | [] => Some []
  | h :: l0 :: rest =>
      match hex_val h, hex_val l0, hex_bytes rest with
      | Some a, Some b, Some bs => Some (16 * a + b :: bs)
      | _, _, _ => None
      end
  | [_] => None
  end.

Definition format_byte (b : Z) : string :=
  String (hex_digit (b / 16)) (String (hex_digit (b mod 16)) EmptyString).

Definition mac (v : string) : result string IdentityError :=
  let valid :=
    if contains_char ":" v then pieces ":" 6 2 v
    else if contains_char "-" v then pieces "-" 6 2 v
    else if contains_char "." v then pieces "." 3 4 v
    else false in
  if negb valid then Err (InvalidInput "mac")
  else
    let h := strip_separators v in
    if negb (Nat.eqb (length h) 12) then Err (InvalidInput "mac")
    else match hex_bytes h with
         | None => Err (InvalidInput "mac")
         | Some b =>
             if negb (Z.land (default 0 (head b)) 1 =? 0) || forallb (Z.eqb 0) b
             then Err (InvalidInput "multicast mac")
             else Ok (str_join ":" (map format_byte b))
         end.

(** [u8::from_str_radix(v.get(..2).unwrap_or(""), 16)]: a leading plus sign is accepted. *)
Definition local_mac (v : string) : bool :=
  match v with
  | String h (String l _) =>
      match (if Ascii.eqb h "+" then Some 0 else hex_val h), hex_val l with
      | Some a, Some b => negb (Z.land (16 * a + b) 2 =? 0)
      | _, _ => false
      end
  | _ => false
  end.

(** [prepare]: validate and normalise the incoming facts, one after the other. *)
Definition prepare_fact (c : IdentityConfig) (f : EvidenceFact) : result EvidenceFact IdentityError :=
  if negb (f32_is_finite (ef_confidence f)) || negb (f32_unit_interval (ef_confidence f))
  then Err InvalidConfidence
  else if ef_owner_confirmed f || is_family (ef_family f) Owner
  then Err (InvalidInput "owner provenance")
  else if str_is_empty (ef_key f) || Nat.ltb (max_key_len c) (String.length (ef_key f))
          || str_is_empty (ef_value f) || Nat.ltb (max_value_len c) (String.length (ef_value f))
          || str_is_empty (ef_source f) || Nat.ltb (max_source_len c) (String.length (ef_source f))
  then Err (InvalidInput "field bounds")
  else if negb (allowed (ef_key f) (ef_family f)) then Err (InvalidInput "taxonomy")
  else
    let? value := (if one_of (ef_key f) ["mac"] then mac (ef_value f) else Ok (ef_value f)) in
    Ok {| ef_family := ef_family f; ef_source := ef_source f; ef_key := ef_key f;
          ef_value := value;
          ef_confidence := if is_family (ef_family f) RouterHint
                           then f32_min (ef_confidence f) (router_hint_cap c)
                           else ef_confidence f;
          ef_observed_at := ef_observed_at f; ef_expires_at := ef_expires_at f;
          ef_owner_confirmed := ef_owner_confirmed f |}.

Fixpoint prepare (c : IdentityConfig) (fs : list EvidenceFact)
  : result (list EvidenceFact) IdentityError :=
  match fs with
  | [] => Ok []
  | f :: fs' => let? f' := prepare_fact c f in let? rest := prepare c fs' in Ok (f' :: rest)
  end.

(** ** Matching *)
Record Match_ := {
  mt_any : bool;
  mt_auto : bool;
  mt_score : f32;
  mt_families : list EvidenceFamily;
  mt_reasons : list string
}.

Record Tally := {
  ta_fam : list EvidenceFamily;
  ta_why : list string;
  ta_score : f32;
  ta_conflict : bool
}.

Definition match_live (now : DateTime) (f : EvidenceFact) : bool :=
  live now f && negb (is_family (ef_family f) RouterHint).

(** The body of the two nested loops. *)
Definition compare_facts (c : IdentityConfig) (t : Tally) (a b : EvidenceFact) : Tally :=
  if bool_decide (anchor (ef_key a) = Some (ef_family a)) && bool_decide (ef_key a = ef_key b)
     && bool_decide (ef_family a = ef_family b) then
    if bool_decide (ef_value a = ef_value b) then
      let s := f32_min (ef_confidence a) (ef_confidence b) in
      {| ta_fam := if f32_le (match_threshold c) s then ta_fam t ++ [ef_family a] else ta_fam t;
         ta_why := ta_why t ++ [ef_key a +:+ " matched"];
         ta_score := f32_max (ta_score t) s; ta_conflict := ta_conflict t |}
    else if negb (one_of (ef_key a) ["mac"] && local_mac (ef_value a) && local_mac (ef_value b))
            && f32_le (contradiction_threshold c) (ef_confidence a)
            && f32_le (contradiction_threshold c) (ef_confidence b)
    then {| ta_fam := ta_fam t; ta_why := ta_why t; ta_score := ta_score t; ta_conflict := true |}
    else t
  else t.

Definition matching (c : IdentityConfig) (old new : list EvidenceFact) (now : DateTime) : Match_ :=
  let t := fold_left (fun t a => fold_left (fun t b => compare_facts c t a b)
                                   (List.filter (match_live now) new) t)
             (List.filter (match_live now) old)
             {| ta_fam := []; ta_why := []; ta_score := f32_zero; ta_conflict := false |} in
  let fam := sortfam (ta_fam t) in
  let why := sort_reasons (ta_why t) in
  {| mt_any := negb (bool_decide (why = []));
     mt_auto := negb (ta_conflict t) && Nat.leb 2 (length fam);
     mt_score := if ta_conflict t then f32_mul (ta_score t) (f32_lit 25 100) else ta_score t;
     mt_families := fam; mt_reasons := why |}.

Definition validprop (s : f32) (f : list EvidenceFamily) (r : list string)
  : result unit IdentityError :=
  if negb (f32_is_finite s) || negb (f32_unit_interval s) then Err InvalidConfidence
  else if bool_decide (f = []) || Nat.ltb 7 (length f)
          || existsb (fun x => is_family x RouterHint || is_family x Owner) f
  then Err (InvalidInput "proposal families")
  else if bool_decide (r = []) || Nat.ltb 16 (length r)
          || existsb (fun x => str_is_empty x || Nat.ltb 256 (String.length x)) r
  then Err (InvalidInput "reasons")
  else Ok tt.

(** ** The merge graph and the operations *)
Definition checked_mul_u64 (a b : Z) : option Z :=
  if a * b <=? u64_max then Some (a * b) else None.

(** [iter().position(..)] *)
Fixpoint position {A} (p : A -> bool) (l : list A) : option nat :=
  match l with
  | [] => None
  | x :: l' => if p x then Some 0%nat else S <$> position p l'
  end.

(** [Iterator::max_by]: the last of the greatest elements. *)
Fixpoint max_by_acc {A} (cmp : A -> A -> comparison) (best : A) (l : list A) : A :=
  match l with
  | [] => best
  | x :: l' => max_by_acc cmp (match cmp best x with Gt => best | _ => x end) l'
  end.
Definition max_by {A} (cmp : A -> A -> comparison) (l : list A) : option A :=
  match l with
  | [] => None
  | x :: l' => Some (max_by_acc cmp x l')
  end.

Definition cmp_then (a b : comparison) : comparison := match a with Eq => b | _ => a end.

(** The neighbour of [x] along an edge. *)
Definition neighbour (x : DeviceId) (e : Edge) : option DeviceId :=
  if bool_decide (eg_a e = x) then Some (eg_b e)
  else if bool_decide (eg_b e = x) then Some (eg_a e)
  else None.

(** One edge of the inner loop of [component]: visit the unseen neighbour. *)
Definition visit (x : DeviceId) (acc : gset DeviceId * list DeviceId) (e : Edge)
  : gset DeviceId * list DeviceId :=
  let '(seen, q) := acc in
  match neighbour x e with
  | None => acc
  | Some y => if bool_decide (y ∈ seen) then acc else ({[y]} ∪ seen, q ++ [y])
  end.

(** [while let Some(x) = q.pop_front()]. *)
Fixpoint bfs (fuel : nat) (edges : list Edge) (seen : gset DeviceId) (q : list DeviceId)
  : gset DeviceId :=
  match fuel with
  | O => seen
  | S fuel' =>
    match q with
    | [] => seen
    | x :: q' => let '(seen', q'') := fold_left (visit x) edges (seen, q') in
                 bfs fuel' edges seen' q''
    end
  end.

Definition active_edges (m : gmap Z Edge) : list Edge :=
  List.filter eg_active (map snd (map_to_list m)).

Definition facts_of (e : IdentityEngine) (d : DeviceId) : list EvidenceFact :=
  default [] (ie_facts e !! d).

Definition canonical_key (k : string) : bool :=
  one_of k ["vendor"; "class"; "model"; "firmware"; "name"; "room"].

Section Engine.
Context `{Calendar} (uuid_to_string : DeviceId -> string).

Definition id_le (a b : DeviceId) : Prop := text_le (uuid_to_string a) (uuid_to_string b).
#[global] Instance id_le_dec : RelDecision id_le.
Proof. intros a b. unfold id_le. apply _. Defined.

Definition sort_ids (l : list DeviceId) : list DeviceId := merge_sort id_le l.

(** Each device enters the queue at most once, so two rounds per edge and one are enough. *)
Definition component (e : IdentityEngine) (id : DeviceId) : result (list DeviceId) IdentityError :=
  if bool_decide (ie_facts e !! id = None) then Err DeviceNotFound
  else if Z.of_nat (max_candidate_work (ie_cfg e)) <?
          Z.min (Z.of_nat (size (ie_facts e)) * Z.max (Z.of_nat (size (ie_edges e))) 1) u64_max
  then Err (Capacity "graph work")
  else
    let es := active_edges (ie_edges e) in
    Ok (sort_ids (elements (bfs (1 + 2 * length es) es {[id]} [id]))).

(** [min_by_key] keeps the first of the least; a component is never empty. *)
Fixpoint canon_acc (best : DeviceId) (l : list DeviceId) : DeviceId :=
  match l with
  | [] => best
  | x :: l' => canon_acc (if String.ltb (uuid_to_string x) (uuid_to_string best) then x else best) l'
  end.
Definition canon (v : list DeviceId) : DeviceId :=
  match v with
  | [] => 0%N
  | x :: l => canon_acc x l
  end.

Definition resolve (e : IdentityEngine) (id : DeviceId) : result DeviceId IdentityError :=
  let? c := component e id in Ok (canon c).

Fixpoint components_loop (e : IdentityEngine) (ids : list DeviceId) (seen : gset DeviceId)
  : result (list (list DeviceId)) IdentityError :=
  match ids with
  | [] => Ok []
  | id :: ids' =>
      if bool_decide (id ∈ seen) then components_loop e ids' seen
      else let? c := component e id in
           let? out := components_loop e ids' (list_to_set c ∪ seen) in
           Ok (c :: out)
  end.

Definition components (e : IdentityEngine) : result (list (list DeviceId)) IdentityError :=
  if Nat.ltb (max_merge_edges (ie_cfg e)) (size (ie_edges e)) then Err (Capacity "graph")
  else components_loop e (sort_ids (map fst (map_to_list (ie_facts e)))) ∅.

Definition refs (e : IdentityEngine) (c : list DeviceId)
  : result (list EvidenceFact) IdentityError :=
  if Nat.ltb (max_candidate_work (ie_cfg e)) (list_sum (map (fun d => length (facts_of e d)) c))
  then Err (Capacity "work")
  else Ok (concat (map (facts_of e) c)).

Definition preadd (e : IdentityEngine) (id : DeviceId) (n : nat) (now : DateTime)
  : result unit IdentityError :=
  let? c := component e id in
  let count := list_sum (map (fun d => length (List.filter (live now) (facts_of e d))) c) in
  if Nat.ltb (max_facts_per_device (ie_cfg e)) (count + n) then Err (Capacity "facts") else Ok tt.

Definition prune_device (now : DateTime) (d : DeviceId) (m : gmap DeviceId (list EvidenceFact))
  : gmap DeviceId (list EvidenceFact) := alter (retain (live now)) d m.

Definition prune_expired (e : IdentityEngine) (id : DeviceId) (now : DateTime)
  : result IdentityEngine IdentityError :=
  let? c := component e id in
  Ok (with_facts (fold_left (fun m d => prune_device now d m) c (ie_facts e)) e).

(** Prune, check the budget, append: the shared tail of [observe_at] and [add_facts_at]. The
    pruning is kept when the budget check fails. *)
Definition append_facts (e : IdentityEngine) (id : DeviceId) (fs : list EvidenceFact) (now : DateTime)
  : result unit IdentityError * IdentityEngine :=
  match prune_expired e id now with
  | Err x => (Err x, e)
  | Ok e1 =>
    match preadd e1 id (length fs) now with
    | Err x => (Err x, e1)
    | Ok _ =>
      match ie_facts e1 !! id with
      | None => (Err DeviceNotFound, e1)
      | Some old => (Ok tt, with_facts (<[id := old ++ fs]> (ie_facts e1)) e1)
      end
    end
  end.

Definition add_facts_at (e : IdentityEngine) (id : DeviceId) (fs : list EvidenceFact) (now : DateTime)
  : result unit IdentityError * IdentityEngine :=
  match prepare (ie_cfg e) fs with
  | Err x => (Err x, e)
  | Ok fs => append_facts e id fs now
  end.

Definition preprops (e : IdentityEngine) (n : nat) : result unit IdentityError :=
  if Nat.ltb (max_proposals (ie_cfg e)) (length (ie_proposals e) + n)
     || (Nat.ltb 0 n && bool_decide (checked_add_u64 (ie_next_proposal e) (Z.of_nat n) = None))
  then Err (Capacity "proposals") else Ok tt.

Definition insert_prop (e : IdentityEngine) (a b : DeviceId) (score : f32)
    (families : list EvidenceFamily) (reasons : list string) : Z * IdentityEngine :=
  let id := ie_next_proposal e in
  (id, with_proposals
         (ie_proposals e ++
            [{| mp_id := id; mp_left := a; mp_right := b; mp_score := score;
                mp_families := sortfam families; mp_reasons := sort_reasons reasons;
                mp_status := Pending |}]) (id + 1) e).

(** The candidates among the components, with the bound on the comparison work. *)
Fixpoint candidates (e : IdentityEngine) (comps : list (list DeviceId))
    (incoming : list EvidenceFact) (now : DateTime) (work : Z)
  : result (list (DeviceId * Match_)) IdentityError :=
  match comps with
  | [] => Ok []
  | c :: comps' =>
    let? rs := refs e c in
    let? product := ok_or (checked_mul_u64 (Z.of_nat (length rs)) (Z.of_nat (length incoming)))
                      (Capacity "work") in
    let? work := ok_or (checked_add_u64 work product) (Capacity "work") in
    if Z.of_nat (max_candidate_work (ie_cfg e)) <? work then Err (Capacity "work")
    else
      let m := matching (ie_cfg e) rs incoming now in
      let? rest := candidates e comps' incoming now work in
      Ok (if mt_any m then (canon c, m) :: rest else rest)
  end.

Definition match_le (x y : DeviceId * Match_) : Prop := id_le (fst x) (fst y).
#[global] Instance match_le_dec : RelDecision match_le.
Proof. intros a b. unfold match_le. apply _. Defined.

(** The end of [observe_at]: a fresh device, with a proposal for every candidate. *)
Definition enroll (e : IdentityEngine) (incoming : list EvidenceFact)
    (matches : list (DeviceId * Match_)) : result DeviceId IdentityError * IdentityEngine :=
  match preprops e (length matches) with
  | Err x => (Err x, e)
  | Ok _ =>
    match ie_ids e with
    | [] => (Err IdSourceExhausted, e)
    | fresh :: ids =>
      if bool_decide (ie_facts e !! fresh <> None) then (Err (InvalidInput "duplicate id"), e)
      else
        let e1 := with_facts (<[fresh := incoming]> (ie_facts e)) (with_ids ids e) in
        (Ok fresh, fold_left (fun e '(other, m) =>
           snd (insert_prop e other fresh (mt_score m) (mt_families m) (mt_reasons m)))
           matches e1)
    end
  end.

(** [observe_at] for evidence without a known device. *)
Definition observe_unknown (e : IdentityEngine) (incoming : list EvidenceFact) (now : DateTime)
  : result DeviceId IdentityError * IdentityEngine :=
  if Nat.ltb (max_facts_per_device (ie_cfg e)) (length incoming)
     || Nat.leb (max_devices (ie_cfg e)) (size (ie_facts e))
  then (Err (Capacity "devices or facts"), e)
  else match (let? comps := components e in candidates e comps incoming now 0) with
  | Err x => (Err x, e)
  | Ok found =>
    let matches := merge_sort match_le found in
    match matches with
    | [(root, {| mt_auto := true |})] =>
      match append_facts e root incoming now with
      | (Err x, e1) => (Err x, e1)
      | (Ok _, e1) => (Ok root, e1)
      end
    | _ => enroll e incoming matches
    end
  end.

Definition observe_at (e : IdentityEngine) (id : option DeviceId) (incoming : list EvidenceFact)
    (now : DateTime) : result DeviceId IdentityError * IdentityEngine :=
  match prepare (ie_cfg e) incoming with
  | Err x => (Err x, e)
  | Ok incoming =>
    match id with
    | Some alias =>
      match resolve e alias with
      | Err x => (Err x, e)
      | Ok root =>
        match append_facts e alias incoming now with
        | (Err x, e1) => (Err x, e1)
        | (Ok _, e1) => (Ok root, e1)
        end
      end
    | None => observe_unknown e incoming now
    end
  end.

(** *** Eviction *)
Definition evictable (e : IdentityEngine) (now cutoff : DateTime) (c : list DeviceId) : bool :=
  let stale := forallb (fun d => forallb (fun f => negb (live now f) && (ef_observed_at f <? cutoff))
                                   (facts_of e d)) c in
  let annotated := existsb (fun o => bool_decide (ow_device_id o ∈ c)) (ie_owners e) in
  let pending := existsb (fun p => bool_decide (mp_status p = Pending)
                                   && (bool_decide (mp_left p ∈ c) || bool_decide (mp_right p ∈ c)))
                   (ie_proposals e) in
  stale && negb annotated && negb pending.

(** Forget the devices [gone] and everything that mentions them. *)
Definition forget (gone : gset DeviceId) (e : IdentityEngine) : IdentityEngine :=
  let mentions p := bool_decide (mp_left p ∈ gone) || bool_decide (mp_right p ∈ gone) in
  let dropped : gset Z := list_to_set (map mp_id (List.filter mentions (ie_proposals e))) in
  with_audit (retain (fun a => negb (bool_decide (au_proposal_id a ∈ dropped))) (ie_audit e))
    (with_proposals (retain (fun p => negb (bool_decide (mp_id p ∈ dropped))) (ie_proposals e))
       (ie_next_proposal e)
       (with_edges (filter (fun '(_, g) => (eg_a g ∉ gone) /\ (eg_b g ∉ gone)) (ie_edges e))
          (with_facts (filter (fun '(d, _) => d ∉ gone) (ie_facts e)) e))).

Definition evict_stale_at (e : IdentityEngine) (now : DateTime) (retention : Duration)
  : result (list DeviceId) IdentityError * IdentityEngine :=
  match checked_add_signed now (- retention) with
  | None => (Err (InvalidInput "retention"), e)
  | Some cutoff =>
    match components e with
    | Err x => (Err x, e)
    | Ok comps =>
      let evicted := concat (List.filter (evictable e now cutoff) comps) in
      if bool_decide (evicted = []) then (Ok evicted, e)
      else (Ok (sort_ids evicted), forget (list_to_set evicted) e)
    end
  end.

(** *** Queries *)
Definition fact_cmp (x y : DeviceId * EvidenceFact) : comparison :=
  let '(da, a) := x in
  let '(db, b) := y in
  cmp_then (String.compare (uuid_to_string da) (uuid_to_string db))
  (cmp_then (Z.compare (family_rank (ef_family a)) (family_rank (ef_family b)))
  (cmp_then (String.compare (ef_key a) (ef_key b))
  (cmp_then (String.compare (ef_value a) (ef_value b))
  (cmp_then (String.compare (ef_source a) (ef_source b))
  (cmp_then (Z.compare (f32_to_bits (ef_confidence a)) (f32_to_bits (ef_confidence b)))
  (cmp_then (Z.compare (ef_observed_at a) (ef_observed_at b))
  (cmp_then (match ef_expires_at a, ef_expires_at b with
             | None, None => Eq
             | None, Some _ => Lt
             | Some _, None => Gt
             | Some s, Some t => Z.compare s t
             end)
            (match ef_owner_confirmed a, ef_owner_confirmed b with
             | false, true => Lt
             | true, false => Gt
             | _, _ => Eq
             end)))))))).

Definition fact_le (x y : DeviceId * EvidenceFact) : Prop := fact_cmp x y <> Gt.
#[global] Instance fact_le_dec : RelDecision fact_le.
Proof. intros x y. unfold fact_le. destruct (fact_cmp x y); [left|left|right]; congruence. Defined.

Definition facts (e : IdentityEngine) (id : DeviceId) : result (list EvidenceFact) IdentityError :=
  let? c := component e id in
  if Nat.ltb (max_output_facts (ie_cfg e)) (list_sum (map (fun d => length (facts_of e d)) c))
  then Err (Capacity "output")
  else Ok (map snd (merge_sort fact_le (concat (map (fun d => map (pair d) (facts_of e d)) c)))).

(** The latest owner record of a component for a key. *)
Definition own (e : IdentityEngine) (c : list DeviceId) (k : string) : option OwnerAuditRecord :=
  iter_find (fun o => bool_decide (ow_device_id o ∈ c) && bool_decide (ow_key o = k))
    (rev (ie_owners e)).

(** [own(k).filter(|x| x.value.is_some())], down to the value. *)
Definition own_value (e : IdentityEngine) (c : list DeviceId) (k : string) : option string :=
  o ← own e c k; ow_value o.

Definition pick (active : list EvidenceFact) (k : string) : option EvidenceFact :=
  max_by (fun a b => cmp_then (f32_total_cmp (ef_confidence a) (ef_confidence b))
                       (String.compare (ef_value a) (ef_value b)))
    (List.filter (fun f => bool_decide (ef_key f = k)) active).

Definition option_or {A} (a b : option A) : option A :=
  match a with Some _ => a | None => b end.

(** The fact's confidence is below the threshold, or there is no fact. *)
Definition weak (c : IdentityConfig) (f : option EvidenceFact) : bool :=
  is_none_or (fun x => f32_lt (ef_confidence x) (auto_identification_threshold c)) f.

(** Another strong value for the same key. *)
Definition disputed (c : IdentityConfig) (active : list EvidenceFact) (k v : string) : bool :=
  existsb (fun f => bool_decide (ef_key f = k) && bool_decide (ef_value f <> v)
                    && f32_le (auto_identification_threshold c) (ef_confidence f)) active.

Definition supporting_families (c : IdentityConfig) (active : list EvidenceFact)
    (vendor class : string) : list EvidenceFamily :=
  sortfam (map ef_family (List.filter (fun f =>
    ((bool_decide (ef_key f = "vendor"%string) && bool_decide (ef_value f = vendor))
     || (bool_decide (ef_key f = "class"%string) && bool_decide (ef_value f = class)))
    && f32_le (auto_identification_threshold c) (ef_confidence f)) active)).

Definition identification_at (e : IdentityEngine) (id : DeviceId) (now : DateTime)
  : result (option Identification) IdentityError :=
  let? c := component e id in
  let? rs := refs e c in
  let active := List.filter (match_live now) rs in
  let ov := own_value e c "vendor" in
  let oc := own_value e c "class" in
  let av := pick active "vendor" in
  let ac := pick active "class" in
  let is_none {A} (o : option A) := negb (is_some_and (fun _ => true) o) in
  match option_or ov (ef_value <$> av), option_or oc (ef_value <$> ac) with
  | Some vendor, Some class =>
    if (is_none ov && weak (ie_cfg e) av) || (is_none oc && weak (ie_cfg e) ac) then Ok None
    else if (is_none ov && disputed (ie_cfg e) active "vendor" vendor)
            || (is_none oc && disputed (ie_cfg e) active "class" class) then Ok None
    else
      let fam := supporting_families (ie_cfg e) active vendor class in
      if (is_none ov || is_none oc) && Nat.ltb (length fam) 2 then Ok None
      else Ok (Some {|
        id_vendor := vendor; id_device_class := class;
        id_model := option_or (own_value e c "model") (ef_value <$> pick active "model");
        id_firmware := option_or (own_value e c "firmware") (ef_value <$> pick active "firmware");
        id_confidence :=
          if negb (is_none ov) && negb (is_none oc) then f32_one
          else f32_min (default f32_one (ef_confidence <$> av)) (default f32_one (ef_confidence <$> ac));
        id_families := fam |})
  | _, _ => Ok None
  end.

(** *** Owner facts *)
Definition owner (e : IdentityEngine) (id : DeviceId) (key : string) (value : option string)
    (at_ : DateTime) : result unit IdentityError * IdentityEngine :=
  match resolve e id with
  | Err x => (Err x, e)
  | Ok root =>
    if negb (canonical_key key)
       || is_some_and (fun x => str_is_empty x || Nat.ltb (max_value_len (ie_cfg e)) (String.length x))
            value
    then (Err (InvalidInput "owner fact"), e)
    else if Nat.leb (max_audit_records (ie_cfg e)) (length (ie_owners e))
    then (Err (Capacity "owner audit"), e)
    else match checked_add_u64 (ie_next_owner e) 1 with
    | None => (Err (Capacity "owner sequence"), e)
    | Some next =>
      (Ok tt, with_owners (ie_owners e ++
         [{| ow_sequence := ie_next_owner e; ow_device_id := root; ow_key := key;
             ow_value := value; ow_recorded_at := at_ |}]) next e)
    end
  end.

Definition set_owner_fact (e : IdentityEngine) (id : DeviceId) (key value : string) (at_ : DateTime) :=
  owner e id key (Some value) at_.
Definition clear_owner_fact_at (e : IdentityEngine) (id : DeviceId) (key : string) (at_ : DateTime) :=
  owner e id key None at_.

(** *** Merge proposals and decisions *)
Definition propose_merge (e : IdentityEngine) (a b : DeviceId) (score : f32)
    (families : list EvidenceFamily) (reasons : list string)
  : result Z IdentityError * IdentityEngine :=
  match (let? _ := resolve e a in let? _ := resolve e b in
         let? _ := validprop score families reasons in preprops e 1) with
  | Err x => (Err x, e)
  | Ok _ => let '(id, e1) := insert_prop e a b score families reasons in (Ok id, e1)
  end.
End Engine.

(** [self.proposals[p].status = status] *)
Definition set_status (s : ProposalStatus) (p : MergeProposal) : MergeProposal := {|
  mp_id := mp_id p; mp_left := mp_left p; mp_right := mp_right p; mp_score := mp_score p;
  mp_families := mp_families p; mp_reasons := mp_reasons p; mp_status := s |}.

Definition find_proposal (e : IdentityEngine) (id : Z) (s : ProposalStatus) : option nat :=
  position (fun p => (mp_id p =? id) && bool_decide (mp_status p = s)) (ie_proposals e).

(** The status change and the audit record that close both decisions. *)
Definition record_decision (e : IdentityEngine) (p : nat) (id : Z) (s : ProposalStatus)
  : IdentityEngine :=
  with_audit (ie_audit e ++ [{| au_proposal_id := id; au_action := s |}])
    (with_proposals (alter (set_status s) p (ie_proposals e)) (ie_next_proposal e) e).

Definition decide_merge (e : IdentityEngine) (id : Z) (d : Decision_)
  : result unit IdentityError * IdentityEngine :=
  if Nat.leb (max_audit_records (ie_cfg e)) (length (ie_audit e)) then (Err (Capacity "audit"), e)
  else match find_proposal e id Pending with
  | None => (Err ProposalNotFound, e)
  | Some p =>
    match d with
    | Reject => (Ok tt, record_decision e p id Rejected)
    | Accept =>
      if Nat.leb (max_merge_edges (ie_cfg e)) (size (ie_edges e)) then (Err (Capacity "edges"), e)
      else match ie_proposals e !! p with
      | None => (Err ProposalNotFound, e)
      | Some prop =>
        (Ok tt, record_decision
           (with_edges (<[id := {| eg_a := mp_left prop; eg_b := mp_right prop;
                                   eg_active := true |}]> (ie_edges e)) e) p id Accepted)
      end
    end
  end.

Definition deactivate (g : Edge) : Edge :=
  {| eg_a := eg_a g; eg_b := eg_b g; eg_active := false |}.

Definition undo (e : IdentityEngine) (id : Z) : result unit IdentityError * IdentityEngine :=
  if Nat.leb (max_audit_records (ie_cfg e)) (length (ie_audit e)) then (Err (Capacity "audit"), e)
  else match find_proposal e id Accepted with
  | None => (Err CannotUndo, e)
  | Some p => (Ok tt, record_decision (with_edges (alter deactivate id (ie_edges e)) e) p id Undone)
  end.

(** *** Construction *)
Definition identity_new (c : IdentityConfig) (ids : list DeviceId)
  : result IdentityEngine IdentityError :=
  let? _ := valid c in
  Ok {| ie_cfg := c; ie_ids := take (max_devices c) ids; ie_facts := ∅; ie_proposals := [];
        ie_edges := ∅; ie_audit := []; ie_owners := []; ie_next_proposal := 1;
        ie_next_owner := 1 |}.

Definition identity_snapshot (e : IdentityEngine) : StateSnapshot := {|
  ss_devices := size (ie_facts e);
  ss_facts := list_sum (map (fun p => length (snd p)) (map_to_list (ie_facts e)));
  ss_proposals := length (ie_proposals e); ss_audit := length (ie_audit e);
  ss_owner_audit := length (ie_owners e); ss_edges := length (active_edges (ie_edges e));
  ss_next_proposal := ie_next_proposal e |}.
