(* ===== verification/IdentityGraph.v ===== *)
(** * The identity engine: the merge graph

    The breadth-first search of [component] computes the connected components of the
    active merge edges, and [resolve] picks one representative for each. *)

From S2P Require Import Prelude Time Text F32 Domain Identity.

(** [y] is one active edge away from [x]. *)
Definition step (es : list Edge) (x y : DeviceId) : Prop :=
  exists g, In g es /\ neighbour x g = Some y.

Definition connected (e : IdentityEngine) : DeviceId -> DeviceId -> Prop :=
  rtc (step (active_edges (ie_edges e))).

Lemma neighbour_sym x y g : neighbour x g = Some y -> neighbour y g = Some x.
Proof.
  unfold neighbour. repeat case_bool_decide; intros [= <-]; subst; try done;
    repeat case_bool_decide; congruence.
Qed.

Lemma step_sym es x y : step es x y -> step es y x.
Proof. intros (g & Hg & Hn). exists g. split; [done|]. by apply neighbour_sym. Qed.

Lemma rtc_step_sym es x y : rtc (step es) x y -> rtc (step es) y x.
Proof.
  induction 1 as [|x y z Hxy _ IH]; [constructor|].
  eapply rtc_r; [exact IH|]. by apply step_sym.
Qed.

(** ** The search *)
Lemma list_to_set_size (l : list DeviceId) : (size (list_to_set l : gset DeviceId) <= length l)%nat.
Proof.
  induction l as [|x l IH]; simpl; [done|].
  rewrite size_union_alt, size_singleton.
  assert (size (list_to_set l ∖ {[x]} : gset DeviceId) <= size (list_to_set l : gset DeviceId))%nat
    by (apply subseteq_size; set_solver). lia.
Qed.

Section Search.
Context (es : list Edge) (root : DeviceId).

Definition endpoints : gset DeviceId := list_to_set (map eg_a es ++ map eg_b es).
Definition universe : gset DeviceId := {[root]} ∪ endpoints.

Lemma neighbour_universe x y g : In g es -> neighbour x g = Some y -> y ∈ universe.
Proof.
  intros Hg Hn. apply elem_of_union_r. unfold endpoints. rewrite list_to_set_app, elem_of_union.
  rewrite !elem_of_list_to_set, !list_elem_of_In.
  unfold neighbour in Hn. repeat case_bool_decide; simplify_eq; [right|left]; by apply in_map.
Qed.

Lemma universe_size : (size universe <= 1 + 2 * length es)%nat.
Proof.
  unfold universe. rewrite size_union_alt, size_singleton.
  assert (size (endpoints ∖ {[root]}) <= size endpoints)%nat by (apply subseteq_size; set_solver).
  assert (size endpoints <= length (map eg_a es ++ map eg_b es))%nat.
  { unfold endpoints. apply list_to_set_size. }
  rewrite length_app, !length_map in *. lia.
Qed.

(** Visiting the edges [l] from [x] adds the unseen neighbours [new], each once. *)
Lemma visit_edges x l seen q :
  exists new,
    fold_left (visit x) l (seen, q) = (list_to_set new ∪ seen, q ++ new) /\
    size (list_to_set new ∪ seen) = (size seen + length new)%nat /\
    (forall y, y ∈ new -> exists g, In g l /\ neighbour x g = Some y) /\
    (forall g y, In g l -> neighbour x g = Some y -> y ∈ list_to_set new ∪ seen).
Proof.
  revert seen q. induction l as [|g l IH]; intros seen q; cbn [fold_left].
  { exists []. rewrite app_nil_r. cbn [list_to_set length]. rewrite union_empty_l_L.
    split_and!; [done|lia|set_solver|done]. }
  unfold visit at 2. destruct (neighbour x g) as [y|] eqn:Hn; [case_bool_decide as Hy|].
  - destruct (IH seen q) as (new & Hf & Hs & Hin & Hall). exists new. split_and!; [done..| |].
    + intros z Hz. destruct (Hin z Hz) as (g' & ? & ?). exists g'. split; [by right|done].
    + intros g' z [<-|Hg'] Hz; [|by eapply Hall]. rewrite Hn in Hz. injection Hz as <-.
      by apply elem_of_union_r.
  - destruct (IH ({[y]} ∪ seen) (q ++ [y])) as (new & Hf & Hs & Hin & Hall).
    exists (y :: new). cbn [list_to_set]. rewrite <- app_assoc in Hf.
    rewrite (comm_L _ {[y]} (list_to_set new)), <- (assoc_L _ (list_to_set new)).
    rewrite (size_union {[y]} seen), size_singleton in Hs by (by apply disjoint_singleton_l).
    split_and!; [done|simpl; lia| |].
    + intros z [->|Hz]%elem_of_cons; [exists g; split; [by left|done]|].
      destruct (Hin z Hz) as (g' & ? & ?). exists g'. split; [by right|done].
    + intros g' z [<-|Hg'] Hz; [|by eapply Hall]. rewrite Hn in Hz. injection Hz as <-.
      apply elem_of_union_r, elem_of_union_l. by apply elem_of_singleton.
  - destruct (IH seen q) as (new & Hf & Hs & Hin & Hall). exists new. split_and!; [done..| |].
    + intros z Hz. destruct (Hin z Hz) as (g' & ? & ?). exists g'. split; [by right|done].
    + intros g' z [<-|Hg'] Hz; [congruence|by eapply Hall].
Qed.

(** With enough fuel the search ends in a closed set reachable from where it started. *)
Lemma bfs_closed fuel seen q :
  seen ⊆ universe -> (forall x, x ∈ q -> x ∈ seen) ->
  (length q + (size universe - size seen) <= fuel)%nat ->
  (forall x y, x ∈ seen -> x ∉ q -> step es x y -> y ∈ seen) ->
  seen ⊆ bfs fuel es seen q /\
  (forall x y, x ∈ bfs fuel es seen q -> step es x y -> y ∈ bfs fuel es seen q) /\
  (forall y, y ∈ bfs fuel es seen q -> exists x, x ∈ seen /\ rtc (step es) x y).
Proof.
  revert seen q. induction fuel as [|fuel IH]; intros seen [|x q] Hu Hq Hm Hc; simpl in *; try lia;
    try (split_and!; [done|intros ? ? ? Hs; eapply Hc; [done| |exact Hs]; set_solver
                     |intros y Hy; exists y; split; [done|constructor]]).
  destruct (visit_edges x es seen q) as (new & Hf & Hs & Hin & Hall). rewrite Hf.
  destruct (IH (list_to_set new ∪ seen) (q ++ new)) as (Hsub & Hcl & Hre).
  - intros y [Hy%elem_of_list_to_set|Hy]%elem_of_union; [|by apply Hu].
    destruct (Hin y Hy) as (g & Hg & Hn). by eapply neighbour_universe.
  - intros y [Hy|Hy]%elem_of_app; apply elem_of_union; [right; apply Hq; set_solver|left].
    by apply elem_of_list_to_set.
  - rewrite length_app.
    assert (size (list_to_set new ∪ seen) <= size universe)%nat; [|lia]. apply subseteq_size.
    intros y [Hy%elem_of_list_to_set|Hy]%elem_of_union; [|by apply Hu].
    destruct (Hin y Hy) as (g & Hg & Hn). by eapply neighbour_universe.
  - intros a y Ha Hnq (g & Hg & Hn). destruct (decide (a = x)) as [->|Hax]; [by eapply Hall|].
    apply not_elem_of_app in Hnq as [Hnq Hnew]. apply elem_of_union_r, (Hc a); [| |by exists g].
    + apply elem_of_union in Ha as [Ha%elem_of_list_to_set|]; done.
    + by apply not_elem_of_cons.
  - split_and!; [set_solver|done|]. intros y Hy. destruct (Hre y Hy) as (z & Hz & Hrtc).
    apply elem_of_union in Hz as [Hz%elem_of_list_to_set|Hz]; [|by exists z].
    destruct (Hin z Hz) as (g & Hg & Hn). exists x. split; [set_solver|].
    eapply rtc_l; [|exact Hrtc]. by exists g.
Qed.

Lemma bfs_connected y :
  y ∈ bfs (1 + 2 * length es) es {[root]} [root] <-> rtc (step es) root y.
Proof.
  destruct (bfs_closed (1 + 2 * length es) {[root]} [root]) as (Hsub & Hcl & Hre).
  - set_solver.
  - set_solver.
  - rewrite size_singleton. pose proof universe_size. cbn [length]. lia.
  - set_solver.
  - split.
    + intros (x & ->%elem_of_singleton & Hx)%Hre. done.
    + revert y. apply rtc_ind_r; [by apply Hsub, elem_of_singleton|].
      intros y z _ Hs Hy. by eapply Hcl.
Qed.
End Search.

(** ** Components and representatives *)
#[global] Instance text_le_total : Total text_le.
Proof. intros a b. unfold text_le. apply String.leb_total. Qed.

#[global] Instance text_le_antisym : AntiSymm eq text_le.
Proof. intros a b. unfold text_le. apply String.leb_antisym. Qed.

#[global] Instance text_le_trans : Transitive text_le.
Proof.
  unfold text_le, String.leb. intros a. induction a as [|x a IH]; intros [|y b] [|z c]; simpl; try done.
  specialize (IH b c). unfold Ascii.compare.
  destruct (N.compare_spec (N_of_ascii x) (N_of_ascii y)), (N.compare_spec (N_of_ascii y) (N_of_ascii z)),
    (N.compare_spec (N_of_ascii x) (N_of_ascii z)); try done; lia.
Qed.

Section Components.
Context (uuid_to_string : DeviceId -> string).
Abbreviation component := (component uuid_to_string).
Abbreviation resolve := (resolve uuid_to_string).

#[global] Instance id_le_total : Total (id_le uuid_to_string).
Proof. intros a b. apply (total text_le). Qed.
#[global] Instance id_le_trans : Transitive (id_le uuid_to_string).
Proof. intros a b c. unfold id_le. apply text_le_trans. Qed.

(** A successful [component] is the connected component, each device once, in order. *)
Lemma component_spec e id l :
  component e id = Ok l ->
  is_Some (ie_facts e !! id) /\ (forall y, y ∈ l <-> connected e id y) /\
  NoDup l /\ StronglySorted (id_le uuid_to_string) l.
Proof.
  unfold Identity.component. case_bool_decide as Hk; [done|]. case_match; [done|]. intros [= <-].
  split; [by apply not_eq_None_Some|]. unfold sort_ids. split_and!.
  - intros y. rewrite merge_sort_Permutation, elem_of_elements. apply bfs_connected.
  - rewrite merge_sort_Permutation. apply NoDup_elements.
  - apply StronglySorted_merge_sort; apply _.
Qed.

Lemma component_known e id : is_Some (ie_facts e !! id) ->
  (exists l, component e id = Ok l) \/ component e id = Err (Capacity "graph work").
Proof.
  intros Hk. unfold Identity.component. rewrite bool_decide_eq_false_2.
  - case_match; eauto.
  - by intros Hn; rewrite Hn in Hk; destruct Hk.
Qed.

Lemma canon_in e id l : component e id = Ok l -> canon uuid_to_string l ∈ l.
Proof.
  intros (_ & Hin & _)%component_spec. destruct l as [|x l].
  - exfalso. assert (id ∈ []) as Hx by (apply Hin; constructor). by apply elem_of_nil in Hx.
  - simpl. clear. revert x. induction l as [|y l IH]; intros x; simpl; [by left|].
    case_match; [right; apply IH|]. specialize (IH x). set_solver.
Qed.

Hypothesis uuid_inj : Inj eq eq uuid_to_string.

Lemma id_le_antisym : AntiSymm eq (id_le uuid_to_string).
Proof. intros a b Hab Hba. apply uuid_inj. by apply (anti_symm text_le). Qed.

(** Connected devices have the same component, list for list. *)
Lemma component_unique e a b la lb :
  component e a = Ok la -> component e b = Ok lb -> connected e a b -> la = lb.
Proof.
  intros (_ & Ha & Hnda & Hsa)%component_spec (_ & Hb & Hndb & Hsb)%component_spec Hab.
  eapply StronglySorted_unique; [apply id_le_antisym|done|done|].
  apply NoDup_Permutation; [done|done|]. intros y. rewrite Ha, Hb. split; intros Hy.
  - eapply rtc_trans; [by apply rtc_step_sym|done].
  - by eapply rtc_trans.
Qed.

Lemma resolve_connected e a ra : resolve e a = Ok ra -> connected e a ra.
Proof.
  intros (l & Hl & [= <-])%result_bind_ok. pose proof (canon_in _ _ _ Hl) as Hin.
  apply component_spec in Hl as (_ & Hl & _). by apply Hl.
Qed.

Lemma resolve_same e a b ra rb :
  resolve e a = Ok ra -> resolve e b = Ok rb -> (ra = rb <-> connected e a b).
Proof.
  intros Hra Hrb. split.
  - intros ->. eapply rtc_trans; [by eapply resolve_connected|].
    apply rtc_step_sym. by eapply resolve_connected.
  - intros Hab. apply result_bind_ok in Hra as (la & Hla & [= <-]).
    apply result_bind_ok in Hrb as (lb & Hlb & [= <-]).
    by rewrite (component_unique _ _ _ _ _ Hla Hlb Hab).
Qed.
End Components.
