(* ===== verification/IdentityMatch.v ===== *)
(** * The identity engine: what it takes to correlate and to identify

    The sentences of docs/identity/algorithm.md about automatic merges and automatic
    identification, as theorems about [observe_at] and [identification_at]. *)

From S2P Require Import Prelude Time Text F32 Domain Identity IdentityGraph.

(** ** Sorting and deduplication *)
Lemma dedup_in {A} `{EqDecision A} (l : list A) x : In x (dedup l) <-> In x l.
Proof.
  induction l as [|a [|b l] IH]; [done|done|].
  change (dedup (a :: b :: l)) with (if bool_decide (a = b) then dedup (b :: l) else a :: dedup (b :: l)).
  case_bool_decide as Hab; [|by simpl in *; rewrite IH]. rewrite IH. subst. simpl. tauto.
Qed.

Lemma dedup_nodup {A} `{EqDecision A} (R : relation A) (l : list A) :
  AntiSymm eq R -> StronglySorted R l -> List.NoDup (dedup l).
Proof.
  intros Hanti Hs. induction Hs as [|a l Hs IH Ha]; [constructor|].
  destruct l as [|b l]; [repeat constructor; simpl; tauto|].
  change (dedup (a :: b :: l)) with (if bool_decide (a = b) then dedup (b :: l) else a :: dedup (b :: l)).
  case_bool_decide as Hab; [done|]. constructor; [|done]. rewrite dedup_in. intros Hin.
  apply StronglySorted_inv in Hs as [Hs Hb]. apply Forall_cons in Ha as [Hab' Ha].
  destruct Hin as [->|Hin]; [done|]. apply Hab, (anti_symm R); [done|].
  rewrite List.Forall_forall in Hb. by apply Hb.
Qed.

#[global] Instance rank_le_total : Total rank_le.
Proof. intros f g. unfold rank_le. lia. Qed.
#[global] Instance rank_le_trans : Transitive rank_le.
Proof. intros f g h. unfold rank_le. lia. Qed.
#[global] Instance rank_le_antisym : AntiSymm eq rank_le.
Proof. intros f g. unfold rank_le. destruct f, g; simpl; intros; done || lia. Qed.

Lemma sortfam_in v f : In f (sortfam v) <-> In f v.
Proof. unfold sortfam. rewrite dedup_in. by rewrite (merge_sort_Permutation rank_le). Qed.

Lemma sortfam_nodup v : List.NoDup (sortfam v).
Proof. unfold sortfam. eapply dedup_nodup; [apply _|]. apply StronglySorted_merge_sort; apply _. Qed.

(** Two entries of a sorted family list are two different families of the input. *)
Lemma sortfam_two v :
  (2 <= length (sortfam v))%nat -> exists f g, f <> g /\ In f v /\ In g v.
Proof.
  intros Hl. pose proof (sortfam_nodup v) as Hnd. pose proof (sortfam_in v) as Hin.
  destruct (sortfam v) as [|f [|g l]]; simpl in *; try lia. exists f, g.
  apply NoDup_cons_iff in Hnd as [Hf _]. split; [|split; apply Hin; tauto].
  intros ->. apply Hf. by left.
Qed.

Lemma sort_reasons_in l x : In x (sort_reasons l) <-> In x l.
Proof. unfold sort_reasons. rewrite dedup_in. by rewrite (merge_sort_Permutation text_le). Qed.

Lemma exists_in_cons {A} (P : A -> Prop) x l :
  (exists p, In p (x :: l) /\ P p) <-> P x \/ exists p, In p l /\ P p.
Proof.
  split; [intros (p & [<-|Hp] & Hx); eauto|]. intros [Hx|(p & Hp & Hx)]; [exists x|exists p]; simpl; auto.
Qed.

(** ** Matching, declaratively *)
Section Matching.
Context (c : IdentityConfig).

(** The two facts speak about the same anchor. *)
Definition anchored (a b : EvidenceFact) : Prop :=
  anchor (ef_key a) = Some (ef_family a) /\ ef_key a = ef_key b /\ ef_family a = ef_family b.

Definition agrees (a b : EvidenceFact) : Prop := anchored a b /\ ef_value a = ef_value b.

Definition strong_match (a b : EvidenceFact) : Prop :=
  agrees a b /\ f32_le (match_threshold c) (f32_min (ef_confidence a) (ef_confidence b)) = true.

(** Different values of one anchor, both with high confidence; two private MAC addresses do
    not contradict each other. *)
Definition contradicts (a b : EvidenceFact) : Prop :=
  anchored a b /\ ef_value a <> ef_value b /\
  one_of (ef_key a) ["mac"%string] && local_mac (ef_value a) && local_mac (ef_value b) = false /\
  f32_le (contradiction_threshold c) (ef_confidence a) = true /\
  f32_le (contradiction_threshold c) (ef_confidence b) = true.

(** What one comparison adds to the tally. *)
Lemma compare_facts_spec t a b :
  (forall f, In f (ta_fam (compare_facts c t a b)) <->
     In f (ta_fam t) \/ (strong_match a b /\ f = ef_family a)) /\
  (ta_conflict (compare_facts c t a b) = true <-> ta_conflict t = true \/ contradicts a b) /\
  (ta_why (compare_facts c t a b) = [] <-> ta_why t = [] /\ ~ agrees a b).
Proof.
  unfold compare_facts, strong_match, contradicts, agrees, anchored.
  destruct (bool_decide _ && bool_decide _ && bool_decide _) eqn:E.
  2:{ apply andb_false_iff in E as [[E|E]%andb_false_iff|E]; apply bool_decide_eq_false in E;
      split_and!; intros; intuition. }
  bprop. case_bool_decide as Hv.
  - split_and!; simpl.
    + intros f. destruct (f32_le _ _) eqn:Hle; rewrite ?in_app_iff; simpl; intuition congruence.
    + intuition.
    + split; [by intros []%app_eq_nil|]. intros [_ Hn]. exfalso. apply Hn. by split_and!.
  - destruct (negb _ && _ && _) eqn:Hc; cbn [ta_fam ta_why ta_conflict]; bprop.
    + split_and!; [intuition|split; [intros _; right; by split_and!|done]|intuition].
    + split_and!; [intuition| |intuition]. split; [by left|]. intros [?|(_ & _ & Hl & Ha & Hb)]; [done|].
      rewrite Hl, Ha, Hb in Hc. done.
Qed.

Definition tally (pairs : list (EvidenceFact * EvidenceFact)) (t : Tally) : Tally :=
  fold_left (fun t p => compare_facts c t (fst p) (snd p)) pairs t.

Lemma tally_spec pairs t :
  (forall f, In f (ta_fam (tally pairs t)) <->
     In f (ta_fam t) \/ exists p, In p pairs /\ strong_match (fst p) (snd p) /\ f = ef_family (fst p)) /\
  (ta_conflict (tally pairs t) = true <->
     ta_conflict t = true \/ exists p, In p pairs /\ contradicts (fst p) (snd p)) /\
  (ta_why (tally pairs t) = [] <->
     ta_why t = [] /\ forall p, In p pairs -> ~ agrees (fst p) (snd p)).
Proof.
  revert t. induction pairs as [|p pairs IH]; intros t.
  { simpl. split_and!; intros; naive_solver. }
  change (tally (p :: pairs) t) with (tally pairs (compare_facts c t (fst p) (snd p))).
  destruct (compare_facts_spec t (fst p) (snd p)) as (Hf & Hc & Hw).
  destruct (IH (compare_facts c t (fst p) (snd p))) as (Hf' & Hc' & Hw'). split_and!.
  - intros f. rewrite Hf', Hf, exists_in_cons. tauto.
  - rewrite Hc', Hc, exists_in_cons. tauto.
  - rewrite Hw', Hw. split.
    + intros [[? Hn] Hall]. split; [done|]. intros q [<-|Hq]; [done|by apply Hall].
    + intros [? Hall]. split_and!; [done|apply Hall; by left|]. intros q Hq. apply Hall. by right.
Qed.

Lemma nested_fold (old new : list EvidenceFact) t :
  fold_left (fun t a => fold_left (fun t b => compare_facts c t a b) new t) old t =
  tally (list_prod old new) t.
Proof.
  revert t. induction old as [|a old IH]; intros t; [done|]. simpl. rewrite IH.
  unfold tally. rewrite fold_left_app. f_equal. clear. revert t.
  induction new as [|b new IH]; intros t; simpl; [done|]. by rewrite IH.
Qed.

(** The facts that take part. *)
Definition takes_part (now : DateTime) (l : list EvidenceFact) (f : EvidenceFact) : Prop :=
  In f l /\ live now f = true /\ ef_family f <> RouterHint.

Lemma takes_part_in now l f : In f (List.filter (match_live now) l) <-> takes_part now l f.
Proof.
  unfold takes_part, match_live, is_family. rewrite filter_In, andb_true_iff, negb_true_iff.
  by rewrite bool_decide_eq_false.
Qed.

Lemma matching_spec old new now :
  let m := matching c old new now in
  (mt_any m = true <-> exists a b, takes_part now old a /\ takes_part now new b /\ agrees a b) /\
  (mt_auto m = true -> 
     (exists a b a' b', takes_part now old a /\ takes_part now new b /\ strong_match a b /\
        takes_part now old a' /\ takes_part now new b' /\ strong_match a' b' /\
        ef_family a <> ef_family a') /\
     (forall a b, takes_part now old a -> takes_part now new b -> ~ contradicts a b)).
Proof.
  cbv zeta. unfold matching. rewrite nested_fold. cbv zeta. set (pairs := list_prod _ _).
  set (t0 := {| ta_fam := []; ta_why := []; ta_score := f32_zero; ta_conflict := false |}).
  destruct (tally_spec pairs t0) as (Hf & Hc & Hw). simpl in Hf, Hc, Hw.
  assert (forall a b, In (a, b) pairs <-> takes_part now old a /\ takes_part now new b) as Hpairs.
  { intros a b. unfold pairs. by rewrite in_prod_iff, !takes_part_in. }
  split; cbn [mt_any mt_auto].
  - rewrite negb_true_iff, bool_decide_eq_false.
    assert (sort_reasons (ta_why (tally pairs t0)) = [] <-> ta_why (tally pairs t0) = []) as ->.
    { pose proof (sort_reasons_in (ta_why (tally pairs t0))) as Hs.
      split; intros He; rewrite He in *; [|done].
      destruct (ta_why _) as [|x l]; [done|]. destruct (Hs x) as [_ Hx]. destruct Hx. by left. }
    rewrite Hw. split.
    + intros Hn. destruct (existsb (fun p => bool_decide (anchor (ef_key p.1) = Some (ef_family p.1))
        && bool_decide (ef_key p.1 = ef_key p.2) && bool_decide (ef_family p.1 = ef_family p.2)
        && bool_decide (ef_value p.1 = ef_value p.2)) pairs) eqn:E.
      * apply existsb_exists in E as ([a b] & Hin & Hp). simpl in Hp. bprop. exists a, b.
        apply Hpairs in Hin as [? ?]. by split_and!.
      * exfalso. apply Hn. split; [done|]. intros p Hp ((H1 & H2 & H3) & H4).
        apply existsb_false_forall in E. rewrite List.Forall_forall in E. specialize (E p Hp).
        rewrite !bool_decide_eq_true_2 in E by done. done.
    + intros (a & b & Ha & Hb & Hm) [_ Hall]. apply (Hall (a, b)); [by apply Hpairs|done].
  - rewrite andb_true_iff, negb_true_iff. intros [Hnc Hlen]. split.
    + apply Nat.leb_le, sortfam_two in Hlen as (f & g & Hfg & Hinf & Hing).
      apply Hf in Hinf as [[]|([a b] & Hab & Hs & ->)].
      apply Hf in Hing as [[]|([a' b'] & Hab' & Hs' & ->)].
      apply Hpairs in Hab as [? ?]. apply Hpairs in Hab' as [? ?]. simpl in *. by exists a, b, a', b'.
    + intros a b Ha Hb Hcon. assert (ta_conflict (tally pairs t0) = true); [|congruence].
      apply Hc. right. exists (a, b). split; [by apply Hpairs|done].
Qed.
End Matching.

(** ** Automatic correlation *)
#[local] Arguments matching : simpl never.

Section Correlation.
Context (uuid_to_string : DeviceId -> string).

Definition device_facts (e : IdentityEngine) (c : list DeviceId) : list EvidenceFact :=
  concat (map (facts_of e) c).

(** The candidate a component contributes. *)
Definition candidate_of (e : IdentityEngine) (incoming : list EvidenceFact) (now : DateTime)
    (c : list DeviceId) : option (DeviceId * Match_) :=
  let m := matching (ie_cfg e) (device_facts e c) incoming now in
  if mt_any m then Some (canon uuid_to_string c, m) else None.

Lemma candidates_spec e comps incoming now work found :
  candidates uuid_to_string e comps incoming now work = Ok found ->
  found = omap (candidate_of e incoming now) comps.
Proof.
  revert work found. induction comps as [|c comps IH]; intros work found; simpl; [by intros [= <-]|].
  unfold refs at 1. case_match; [done|]. simpl.
  destruct (checked_mul_u64 _ _); [|done]. simpl.
  destruct (checked_add_u64 _ _); [|done]. simpl. case_match; [done|].
  intros (rest & Hr & [= <-])%result_bind_ok. apply IH in Hr as ->.
  assert (forall l, match candidate_of e incoming now c with Some y => y :: l | None => l end =
    if mt_any (matching (ie_cfg e) (device_facts e c) incoming now)
    then (canon uuid_to_string c, matching (ie_cfg e) (device_facts e c) incoming now) :: l else l) as Hc.
  { intros l. unfold candidate_of. cbv zeta. by destruct (mt_any _). }
  symmetry. apply Hc.
Qed.

Lemma omap_singleton {A B} (g : A -> option B) l x :
  omap g l = [x] -> exists l1 a l2, l = l1 ++ a :: l2 /\ g a = Some x /\
    Forall (fun b => g b = None) (l1 ++ l2).
Proof.
  induction l as [|a l IH]; simpl; [done|]. destruct (g a) as [y|] eqn:E.
  - intros [= <- Hl]. exists [], a, l. split; [done|]. split; [done|]. clear -Hl. simpl.
    induction l as [|b l IH]; [constructor|]. simpl in Hl. destruct (g b) eqn:E; [done|].
    constructor; auto.
  - intros (l1 & a' & l2 & -> & Ha & Hall)%IH. exists (a :: l1), a', l2. split; [done|]. split; [done|].
    by constructor.
Qed.

Lemma enroll_fresh e incoming matches root e' :
  enroll e incoming matches = (Ok root, e') -> ie_facts e !! root = None.
Proof.
  unfold enroll. destruct (preprops _ _); [|done]. destruct (ie_ids e) as [|fresh ids]; [done|].
  case_bool_decide as Hn; [done|]. by intros [= <- _].
Qed.

(** Attaching evidence to a known device without being told its identifier. *)
Lemma observe_unknown_known e incoming now root e' :
  observe_unknown uuid_to_string e incoming now = (Ok root, e') -> is_Some (ie_facts e !! root) ->
  exists cs m, components uuid_to_string e = Ok cs /\ mt_auto m = true /\
    omap (candidate_of e incoming now) cs = [(root, m)].
Proof.
  unfold observe_unknown. intros Ho [fs Hk]. case_match; [done|].
  destruct (components uuid_to_string e) as [cs|] eqn:Hcs; simpl in Ho; [|done].
  destruct (candidates _ _ _ _ _ _) as [found|] eqn:Hf; [|done]. apply candidates_spec in Hf as ->.
  set (found := omap _ cs) in *.
  pose proof (merge_sort_Permutation (match_le uuid_to_string) found) as Hp.
  destruct (merge_sort _ found) as [|[r [any [] score fams reasons]] [|x l]];
    try (apply enroll_fresh in Ho; congruence).
  destruct (append_facts _ _ _ _ _) as [[]]; [|done]. injection Ho as -> _.
  eexists cs, _. split_and!; [done| |by symmetry in Hp; apply Permutation_singleton_r in Hp]. done.
Qed.

(** C6. Automatic correlation is conservative: evidence without a known device is attached to
    an existing one only if exactly one merge component agrees with it on any live,
    non-router anchor, strong matches come from at least two different evidence families, and no
    high-confidence anchor contradicts it. *)
Theorem automatic_merge_needs_two_anchors e incoming now root e' :
  observe_at uuid_to_string e None incoming now = (Ok root, e') -> is_Some (ie_facts e !! root) ->
  exists fs l1 c l2, prepare (ie_cfg e) incoming = Ok fs /\
    components uuid_to_string e = Ok (l1 ++ c :: l2) /\ canon uuid_to_string c = root /\
    (exists a b a' b',
       takes_part now (device_facts e c) a /\ takes_part now fs b /\ strong_match (ie_cfg e) a b /\
       takes_part now (device_facts e c) a' /\ takes_part now fs b' /\
       strong_match (ie_cfg e) a' b' /\ ef_family a <> ef_family a') /\
    (forall a b, takes_part now (device_facts e c) a -> takes_part now fs b ->
       ~ contradicts (ie_cfg e) a b) /\
    (forall c' a b, In c' (l1 ++ l2) -> takes_part now (device_facts e c') a ->
       takes_part now fs b -> ~ agrees a b).
Proof.
  unfold observe_at. destruct (prepare _ _) as [fs|] eqn:Hp; [|done]. intros Ho Hk.
  destruct (observe_unknown_known _ _ _ _ _ Ho Hk) as (cs & m & Hcs & Hauto & Hc).
  destruct (omap_singleton _ _ _ Hc) as (l1 & c & l2 & -> & Hg & Hother).
  exists fs, l1, c, l2. unfold candidate_of in Hg. cbv zeta in Hg.
  destruct (mt_any _) eqn:Hany; [|done]. injection Hg as Hroot <-.
  destruct (matching_spec (ie_cfg e) (device_facts e c) fs now) as [_ Hspec].
  destruct (Hspec Hauto) as [Hfam Hnc]. split_and!; [done..|].
  intros c' a b Hin Ha Hb Hag. rewrite List.Forall_forall in Hother. specialize (Hother c' Hin).
  unfold candidate_of in Hother. cbv zeta in Hother.
  destruct (matching_spec (ie_cfg e) (device_facts e c') fs now) as [Hany' _].
  rewrite (proj2 Hany') in Hother by eauto. done.
Qed.
End Correlation.

(** ** Automatic identification *)
Lemma max_by_in {A} (cmp : A -> A -> comparison) l x : max_by cmp l = Some x -> In x l.
Proof.
  destruct l as [|a l]; [done|]. simpl. intros [= <-]. revert a.
  induction l as [|b l IH]; intros a; simpl; [by left|].
  destruct (IH (match cmp a b with Gt => a | _ => b end)) as [Hx|Hx]; [|by auto].
  rewrite <- Hx. case_match; auto.
Qed.

Lemma pick_in active k f : pick active k = Some f -> In f active /\ ef_key f = k.
Proof.
  unfold pick. intros Hf%max_by_in. apply filter_In in Hf as [? Hk]. by apply bool_decide_eq_true in Hk.
Qed.

Section Identify.
Context (uuid_to_string : DeviceId -> string) (e : IdentityEngine).

(** [f] is strong live evidence of the members [c] for key [k] and value [v]. *)
Definition supports (c : list DeviceId) (now : DateTime) (k v : string) (f : EvidenceFact) : Prop :=
  takes_part now (device_facts e c) f /\ ef_key f = k /\ ef_value f = v.

Definition confident (f : EvidenceFact) : Prop :=
  f32_le (auto_identification_threshold (ie_cfg e)) (ef_confidence f) = true.

(** The value [v] of [k] is the owner's, or undisputed evidence that is not below the threshold. *)
Definition settled (c : list DeviceId) (now : DateTime) (k v : string) : Prop :=
  own_value e c k = Some v \/
  (own_value e c k = None /\
   (exists f, supports c now k v f /\
      f32_lt (ef_confidence f) (auto_identification_threshold (ie_cfg e)) = false) /\
   forall g v', supports c now k v' g -> confident g -> v' = v).

Lemma not_disputed active k v :
  disputed (ie_cfg e) active k v = false ->
  forall g, In g active -> ef_key g = k -> confident g -> ef_value g = v.
Proof.
  unfold disputed. rewrite existsb_false_forall, List.Forall_forall. intros Hall g Hg Hk Hc.
  specialize (Hall g Hg). rewrite bool_decide_eq_true_2 in Hall by done. rewrite Hc in Hall.
  case_bool_decide as Hv; [done|]. destruct (decide (ef_value g = v)); done.
Qed.

(** One field of the identification, from the tests the code makes. *)
Lemma settled_field c now k v rs :
  rs = device_facts e c ->
  let active := List.filter (match_live now) rs in
  option_or (own_value e c k) (ef_value <$> pick active k) = Some v ->
  negb (is_some_and (fun _ => true) (own_value e c k)) && weak (ie_cfg e) (pick active k) = false ->
  negb (is_some_and (fun _ => true) (own_value e c k)) && disputed (ie_cfg e) active k v = false ->
  settled c now k v.
Proof.
  intros -> active Hv Hw Hd. unfold settled. destruct (own_value e c k) as [o|]; simpl in *.
  { left. congruence. }
  right. split; [done|]. destruct (pick active k) as [f|] eqn:Hp; [|done]. simpl in *.
  injection Hv as <-. apply pick_in in Hp as [Hin Hk]. apply takes_part_in in Hin. split.
  - exists f. by split_and!.
  - intros g v' (Hg & Hgk & <-) Hc. eapply not_disputed; eauto. by apply takes_part_in.
Qed.

(** Automatic identification is conservative: an identification is only ever reported when
    vendor and class are each the owner's value or live evidence at the threshold that no
    equally strong evidence disputes; unless the owner set both, evidence of at least two
    different families, none of them a router hint, supports the reported values; and an owner
    value always wins. *)
Theorem identification_is_supported id now i :
  identification_at uuid_to_string e id now = Ok (Some i) ->
  exists c, component uuid_to_string e id = Ok c /\
    settled c now "vendor" (id_vendor i) /\ settled c now "class" (id_device_class i) /\
    (forall v, own_value e c "vendor" = Some v -> id_vendor i = v) /\
    (forall v, own_value e c "class" = Some v -> id_device_class i = v) /\
    (own_value e c "vendor" <> None /\ own_value e c "class" <> None \/
     exists f g, ef_family f <> ef_family g /\ confident f /\ confident g /\
       (supports c now "vendor" (id_vendor i) f \/ supports c now "class" (id_device_class i) f) /\
       (supports c now "vendor" (id_vendor i) g \/ supports c now "class" (id_device_class i) g)).
Proof.
  unfold identification_at. intros (c & Hc & (rs & Hrs & Hi)%result_bind_ok)%result_bind_ok.
  exists c. split; [done|]. unfold refs in Hrs. destruct (Nat.ltb _ _) in Hrs; [done|]. injection Hrs as Hrs. cbv zeta in Hi.
  destruct (option_or (own_value e c "vendor") _) as [vendor|] eqn:Hvendor; [|done].
  destruct (option_or (own_value e c "class") _) as [class|] eqn:Hclass; [|done].
  destruct (_ || _) eqn:Hweak in Hi; [done|]. apply orb_false_iff in Hweak as [Hwv Hwc].
  destruct (_ || _) eqn:Hdisp in Hi; [done|]. apply orb_false_iff in Hdisp as [Hdv Hdc].
  destruct (_ && _) eqn:Hfam in Hi; [done|]. injection Hi as <-.
  cbn [id_vendor id_device_class]. split_and!; [by eapply settled_field|by eapply settled_field| | |].
  - intros v Hv. rewrite Hv in Hvendor. by injection Hvendor as <-.
  - intros v Hv. rewrite Hv in Hclass. by injection Hclass as <-.
  - apply andb_false_iff in Hfam as [Hown|Hlen].
    { left. destruct (own_value e c "vendor"), (own_value e c "class"); simpl in Hown; try done; by split. }
    right. apply Nat.ltb_ge, sortfam_two in Hlen as (f & g & Hfg & Hf & Hg).
    apply in_map_iff in Hf as (ff & <- & Hf). apply in_map_iff in Hg as (fg & <- & Hg).
    apply filter_In in Hf as [Hf Hf']. apply filter_In in Hg as [Hg Hg'].
    apply andb_true_iff in Hf' as [Hf' Hcf]. apply andb_true_iff in Hg' as [Hg' Hcg].
    exists ff, fg. rewrite <- Hrs in Hf, Hg. apply takes_part_in in Hf, Hg.
    split_and!; [done..| |]; unfold supports;
      [apply orb_true_iff in Hf' as [Hx|Hx]|apply orb_true_iff in Hg' as [Hx|Hx]];
      apply andb_true_iff in Hx as [Hk Hv]; apply bool_decide_eq_true in Hk, Hv;
      [left|right|left|right]; by split_and!.
Qed.
End Identify.
