(* ===== verification/IdentityMac.v ===== *)
(** * The identity engine: normalised hardware addresses and facts

    [mac] maps every accepted notation to one canonical text and leaves canonical text alone,
    and [prepare] is idempotent: a stored fact is a fixed point of it. *)

From S2P Require Import Prelude Time Text F32 Domain Identity.

(** ** Hexadecimal digits *)
Lemma hex_digit_cases d (P : Z -> Prop) :
  P 0 -> P 1 -> P 2 -> P 3 -> P 4 -> P 5 -> P 6 -> P 7 -> P 8 -> P 9 -> P 10 -> P 11 -> P 12 ->
  P 13 -> P 14 -> P 15 -> 0 <= d < 16 -> P d.
Proof.
  intros. assert (d = 0 \/ d = 1 \/ d = 2 \/ d = 3 \/ d = 4 \/ d = 5 \/ d = 6 \/ d = 7 \/ d = 8 \/
    d = 9 \/ d = 10 \/ d = 11 \/ d = 12 \/ d = 13 \/ d = 14 \/ d = 15) as Hd by lia.
  repeat (destruct Hd as [->|Hd]; [done|]). by subst.
Qed.

Lemma hex_digit_sep d : 0 <= d < 16 ->
  Ascii.eqb (hex_digit d) ":" = false /\ Ascii.eqb (hex_digit d) "-" = false /\
  Ascii.eqb (hex_digit d) "." = false /\ hex_val (hex_digit d) = Some d.
Proof. intros Hd. pattern d. apply hex_digit_cases; [vm_compute; auto..|done]. Qed.

Lemma hex_val_range a d : hex_val a = Some d -> 0 <= d < 16.
Proof. unfold hex_val. cbv zeta. repeat case_match; intros [= <-]; bprop; lia. Qed.

Definition is_byte (b : Z) : Prop := 0 <= b < 256.

Lemma byte_nibbles b : is_byte b -> 0 <= b / 16 < 16 /\ 0 <= b mod 16 < 16 /\ 16 * (b / 16) + b mod 16 = b.
Proof. unfold is_byte. intros. pose proof (Z.div_mod b 16). pose proof (Z.mod_pos_bound b 16). lia. Qed.

Lemma hex_bytes_range n l bs :
  (length l <= n)%nat -> hex_bytes l = Some bs ->
  Forall is_byte bs /\ (2 * length bs)%nat = length l.
Proof.
  revert l bs. induction n as [|n IH]; intros [|h [|l0 rest]] bs Hn; simpl in *; try lia;
    try (by intros [= <-]).
  destruct (hex_val h) as [a|] eqn:Ha; [|done]. destruct (hex_val l0) as [b|] eqn:Hb; [|done].
  destruct (hex_bytes rest) as [bs'|] eqn:Hbs; [|done]. intros [= <-].
  apply hex_val_range in Ha, Hb. destruct (IH rest bs') as [Hall Hl]; [lia|done|].
  split; [|simpl; lia]. constructor; [unfold is_byte; lia|done].
Qed.

(** The canonical text of six bytes. *)
Definition mac_text (bs : list Z) : string := str_join ":" (map format_byte bs).

(** Reading the canonical text back. *)
Lemma strip_format a rest :
  is_byte a -> strip_separators (format_byte a +:+ rest) =
  hex_digit (a / 16) :: hex_digit (a mod 16) :: strip_separators rest.
Proof.
  intros (Hh & Hl & _)%byte_nibbles.
  destruct (hex_digit_sep _ Hh) as (H1 & H2 & H3 & _), (hex_digit_sep _ Hl) as (H4 & H5 & H6 & _).
  unfold format_byte. simpl. by rewrite H1, H2, H3, H4, H5, H6.
Qed.

Lemma hex_bytes_text bs :
  Forall is_byte bs -> hex_bytes (strip_separators (mac_text bs)) = Some bs.
Proof.
  unfold mac_text. induction 1 as [|b bs Hb Hbs IH]; [done|].
  pose proof (byte_nibbles b Hb) as (Hh & Hl & Hsum).
  destruct (hex_digit_sep _ Hh) as (_ & _ & _ & Hvh), (hex_digit_sep _ Hl) as (_ & _ & _ & Hvl).
  assert (strip_separators (str_join ":" (map format_byte (b :: bs))) =
    hex_digit (b / 16) :: hex_digit (b mod 16) :: strip_separators (str_join ":" (map format_byte bs))) as ->.
  { destruct bs as [|b' bs].
    2:{ change (str_join ":" (map format_byte (b :: b' :: bs)))
          with (format_byte b +:+ String ":" (str_join ":" (map format_byte (b' :: bs)))).
        by rewrite strip_format. }
    transitivity (strip_separators (format_byte b +:+ "")); [done|]. by rewrite strip_format. }
  cbn [hex_bytes]. rewrite Hvh, Hvl, IH. by rewrite Hsum.
Qed.

(** Splitting the canonical text gives back the bytes. *)
Lemma split_format a rest :
  is_byte a -> split_on ":" (format_byte a +:+ String ":" rest) = format_byte a :: split_on ":" rest.
Proof.
  intros (Hh & Hl & _)%byte_nibbles.
  destruct (hex_digit_sep _ Hh) as (H1 & _), (hex_digit_sep _ Hl) as (H2 & _).
  unfold format_byte. simpl. by rewrite H1, H2.
Qed.

Lemma split_text bs :
  bs <> [] -> Forall is_byte bs -> split_on ":" (mac_text bs) = map format_byte bs.
Proof.
  unfold mac_text. intros Hne Hall. induction Hall as [|b bs Hb Hbs IH]; [done|].
  destruct bs as [|b' bs].
  - pose proof (byte_nibbles b Hb) as (Hh & Hl & _).
    destruct (hex_digit_sep _ Hh) as (H1 & _), (hex_digit_sep _ Hl) as (H2 & _).
    unfold format_byte. simpl. by rewrite H1, H2.
  - change (str_join ":" (map format_byte (b :: b' :: bs)))
      with (format_byte b +:+ String ":" (str_join ":" (map format_byte (b' :: bs)))).
    rewrite split_format by done. rewrite IH by done. done.
Qed.

Lemma contains_colon a rest : contains_char ":" (format_byte a +:+ String ":" rest) = true.
Proof. unfold format_byte. simpl. by rewrite !orb_true_r. Qed.

Lemma strip_text_length bs :
  Forall is_byte bs -> length (strip_separators (mac_text bs)) = (2 * length bs)%nat.
Proof.
  intros Hall. destruct (hex_bytes_range _ _ bs (le_n _) (hex_bytes_text bs Hall)) as [_ Hl]. lia.
Qed.

(** The shape of a successful normalisation. *)
Lemma mac_ok v m :
  mac v = Ok m -> exists bs, m = mac_text bs /\ length bs = 6%nat /\ Forall is_byte bs /\
    Z.land (default 0 (head bs)) 1 = 0 /\ forallb (Z.eqb 0) bs = false.
Proof.
  unfold mac. cbv zeta. destruct (negb _); [done|]. destruct (negb (Nat.eqb _ _)) eqn:Hlen; [done|].
  destruct (hex_bytes _) as [bs|] eqn:Hb; [|done]. destruct (_ || _) eqn:Hm; [done|]. intros [= <-].
  apply negb_false_iff, Nat.eqb_eq in Hlen. apply orb_false_iff in Hm as [Hu Hz].
  apply negb_false_iff, Z.eqb_eq in Hu. apply (hex_bytes_range _ _ _ (le_n _)) in Hb as [Hall Hl].
  exists bs. split_and!; try done. lia.
Qed.

Lemma mac_text_ok bs :
  length bs = 6%nat -> Forall is_byte bs -> Z.land (default 0 (head bs)) 1 = 0 ->
  forallb (Z.eqb 0) bs = false -> mac (mac_text bs) = Ok (mac_text bs).
Proof.
  intros Hlen Hall Hu Hz. unfold mac. cbv zeta.
  assert (contains_char ":" (mac_text bs) = true) as ->.
  { destruct bs as [|b [|b' bs]]; try done. apply contains_colon. }
  assert (pieces ":" 6 2 (mac_text bs) = true) as ->.
  { unfold pieces. rewrite split_text by (by destruct bs). rewrite length_map, Hlen. simpl.
    apply forallb_forall. intros x (b & <- & _)%in_map_iff. done. }
  rewrite strip_text_length, Hlen by done. rewrite hex_bytes_text by done.
  rewrite (proj2 (Z.eqb_eq _ _) Hu), Hz. done.
Qed.

Lemma mac_text_length bs : length bs = 6%nat -> String.length (mac_text bs) = 17%nat.
Proof. intros Hl. do 7 (destruct bs as [|? bs]; try done). Qed.

(** Normalising twice is normalising once. *)
Lemma mac_normal v m : mac v = Ok m -> mac m = Ok m /\ String.length m = 17%nat.
Proof.
  intros (bs & -> & Hl & Hall & Hu & Hz)%mac_ok. split; [by apply mac_text_ok|by apply mac_text_length].
Qed.

(** ** Prepared facts *)
Lemma f32_min_choice a b : f32_min a b = a \/ f32_min a b = b.
Proof. unfold f32_min. destruct a, b; try (by auto); case_match; auto. Qed.

Lemma f32_min_idem a b :
  f32_is_finite a = true -> f32_is_finite b = true -> f32_min (f32_min a b) b = f32_min a b.
Proof.
  intros Ha Hb.
  assert (forall x, f32_is_finite x = true -> f32_min x b = if f32_lt b x then b else x) as Hmin.
  { intros x Hx. unfold f32_min. by destruct x, b. }
  rewrite (Hmin a Ha). destruct (f32_lt b a) eqn:E; rewrite Hmin by done; [|by rewrite E].
  by destruct (f32_lt b b).
Qed.

Lemma valid_cap c :
  valid c = Ok tt -> f32_is_finite (router_hint_cap c) = true /\ f32_unit_interval (router_hint_cap c) = true.
Proof.
  unfold valid. destruct (existsb _ _) eqn:E; [done|]. intros _.
  apply existsb_false_forall in E. rewrite !Forall_cons in E. destruct E as (_ & Hcap & _).
  apply orb_false_iff in Hcap as [H1 H2]. by apply negb_false_iff in H1, H2.
Qed.

(** Preparing a prepared fact changes nothing, given room for a normalised address. *)
Lemma prepare_fact_normal c f f' :
  valid c = Ok tt -> (17 <= max_value_len c)%nat ->
  prepare_fact c f = Ok f' -> prepare_fact c f' = Ok f'.
Proof.
  intros Hv Hlen. destruct (valid_cap c Hv) as [Hcf Hcu]. unfold prepare_fact.
  destruct (negb _ || negb _) eqn:H1; [done|]. destruct (_ || is_family _ Owner) eqn:H2; [done|].
  destruct (_ || Nat.ltb (max_source_len c) _) eqn:H3; [done|].
  destruct (negb (allowed _ _)) eqn:H4; [done|].
  intros (value & Hval & [= <-])%result_bind_ok. cbn [ef_confidence ef_owner_confirmed ef_family
    ef_key ef_value ef_source ef_observed_at ef_expires_at].
  apply orb_false_iff in H1 as [Hf Hu]. apply negb_false_iff in Hf, Hu.
  repeat (apply orb_false_iff in H3 as [H3 ?]).
  assert (value <> EmptyString /\ (String.length value <= max_value_len c)%nat) as [Hne Hle].
  { destruct (one_of (ef_key f) ["mac"%string]).
    - apply mac_normal in Hval as [_ Hl]. split; [by intros ->|lia].
    - injection Hval as <-. unfold str_is_empty in *. bprop. split; [done|].
      match goal with H : Nat.ltb (max_value_len c) _ = false |- _ => by apply Nat.ltb_ge in H end. }
  assert ((if one_of (ef_key f) ["mac"%string] then mac value else Ok value) = Ok value) as Hval'.
  { destruct (one_of _ _); [|done]. by apply mac_normal in Hval as [? _]. }
  set (conf := if is_family (ef_family f) RouterHint then _ else _).
  assert (f32_is_finite conf = true /\ f32_unit_interval conf = true) as [Hcf' Hcu'].
  { assert (conf = ef_confidence f \/ conf = router_hint_cap c) as [-> | ->]; [|by split..].
    unfold conf. clear. destruct (is_family (ef_family f) RouterHint);
      [apply f32_min_choice|by left]. }
  rewrite Hcf', Hcu', H2, H4, Hval'. simpl. rewrite H3.
  repeat match goal with H : ?b = false |- context [?b] => rewrite H end.
  assert (str_is_empty value = false) as -> by (by apply bool_decide_eq_false).
  rewrite (proj2 (Nat.ltb_ge _ _) Hle). simpl. do 2 f_equal.
  unfold conf. clear -Hf Hcf. destruct (is_family (ef_family f) RouterHint); [|done].
  by apply f32_min_idem.
Qed.

(** Normalisation is idempotent: what [prepare] accepts and stores (canonical hardware
    addresses, router hints capped) it accepts again unchanged, so evidence read back is the
    evidence that was stored; this needs room for the seventeen characters of a canonical
    address. *)
Theorem prepare_idempotent c fs fs' :
  valid c = Ok tt -> (17 <= max_value_len c)%nat -> prepare c fs = Ok fs' -> prepare c fs' = Ok fs'.
Proof.
  intros Hv Hl. revert fs'. induction fs as [|f fs IH]; intros fs'; simpl; [by intros [= <-]|].
  intros (f' & Hf & (rest & Hr & [= <-])%result_bind_ok)%result_bind_ok. simpl.
  rewrite (prepare_fact_normal _ _ _ Hv Hl Hf). simpl. by rewrite (IH _ Hr).
Qed.

Lemma prepare_forall c fs fs' :
  valid c = Ok tt -> (17 <= max_value_len c)%nat -> prepare c fs = Ok fs' ->
  length fs' = length fs /\ Forall (fun f => prepare_fact c f = Ok f) fs'.
Proof.
  intros Hv Hl. revert fs'. induction fs as [|f fs IH]; intros fs'; simpl; [by intros [= <-]|].
  intros (f' & Hf & (rest & Hr & [= <-])%result_bind_ok)%result_bind_ok.
  destruct (IH _ Hr) as [Hlen Hall]. split; [simpl; lia|]. constructor; [|done].
  by eapply prepare_fact_normal.
Qed.
