(* ===== verification/IdentityProps.v ===== *)
(** * The identity engine: the invariant of every reachable engine

    Capacities, sequence numbers, the agreement of proposals, merge edges and audit trail,
    and that every stored fact is a prepared one, for any sequence of operations. *)

From S2P Require Import Prelude Time Text F32 Domain Identity IdentityGraph IdentityMatch.
From S2P Require Import IdentityMac.

(** ** Proposals, edges and audit trail *)

(** The merge edge a proposal stands for. *)
Definition edge_of (p : MergeProposal) : option Edge :=
  match mp_status p with
  | Accepted => Some {| eg_a := mp_left p; eg_b := mp_right p; eg_active := true |}
  | Undone => Some {| eg_a := mp_left p; eg_b := mp_right p; eg_active := false |}
  | Pending | Rejected => None
  end.

(** The audit records that lead to a status. *)
Definition trail (s : ProposalStatus) : list ProposalStatus :=
  match s with
  | Pending => []
  | Accepted => [Accepted]
  | Rejected => [Rejected]
  | Undone => [Accepted; Undone]
  end.

Definition actions (id : Z) (l : list AuditRecord) : list ProposalStatus :=
  map au_action (List.filter (fun a => au_proposal_id a =? id) l).

Definition known (e : IdentityEngine) (d : DeviceId) : Prop := is_Some (ie_facts e !! d).

Definition fact_ok (c : IdentityConfig) (f : EvidenceFact) : Prop := prepare_fact c f = Ok f.

Definition owner_ok (e : IdentityEngine) (o : OwnerAuditRecord) : Prop :=
  0 < ow_sequence o < ie_next_owner e /\ known e (ow_device_id o) /\
  canonical_key (ow_key o) = true /\
  forall v, ow_value o = Some v ->
    v <> EmptyString /\ (String.length v <= max_value_len (ie_cfg e))%nat.

Record ident_inv (e : IdentityEngine) : Prop := {
  ii_cfg : valid (ie_cfg e) = Ok tt;
  ii_devices : (size (ie_facts e) + length (ie_ids e) <= max_devices (ie_cfg e))%nat;
  ii_facts : map_Forall (fun _ l => (length l <= max_facts_per_device (ie_cfg e))%nat /\
                                    Forall (fact_ok (ie_cfg e)) l) (ie_facts e);
  ii_sorted : StronglySorted Z.lt (map mp_id (ie_proposals e));
  ii_ids : Forall (fun p => 0 < mp_id p < ie_next_proposal e) (ie_proposals e);
  ii_next : 0 < ie_next_proposal e <= u64_max;
  ii_proposals : (length (ie_proposals e) <= max_proposals (ie_cfg e))%nat;
  ii_known : Forall (fun p => known e (mp_left p) /\ known e (mp_right p)) (ie_proposals e);
  ii_edges : forall id g, ie_edges e !! id = Some g <->
               exists p, In p (ie_proposals e) /\ mp_id p = id /\ edge_of p = Some g;
  ii_edges_size : (size (ie_edges e) <= max_merge_edges (ie_cfg e))%nat;
  ii_audit_size : (length (ie_audit e) <= max_audit_records (ie_cfg e))%nat;
  ii_trail : Forall (fun p => actions (mp_id p) (ie_audit e) = trail (mp_status p)) (ie_proposals e);
  ii_audit : Forall (fun a => In (au_proposal_id a) (map mp_id (ie_proposals e))) (ie_audit e);
  ii_owners : Forall (owner_ok e) (ie_owners e);
  ii_owner_sorted : StronglySorted Z.lt (map ow_sequence (ie_owners e));
  ii_owner_size : (length (ie_owners e) <= max_audit_records (ie_cfg e))%nat;
  ii_next_owner : 0 < ie_next_owner e <= u64_max
}.

(** ** Lists with increasing numbers *)
Section Sorted.
Context {A : Type} (key : A -> Z).

Lemma sorted_snoc l x :
  StronglySorted Z.lt (map key l) -> Forall (fun y => key y < key x) l ->
  StronglySorted Z.lt (map key (l ++ [x])).
Proof.
  induction l as [|y l IH]; simpl; [intros; by repeat constructor|].
  intros [Hs Hy]%StronglySorted_inv [Hyx Hl]%Forall_cons. constructor; [by apply IH|].
  rewrite map_app. apply Forall_app. split; [done|]. by repeat constructor.
Qed.

Lemma sorted_filter p l :
  StronglySorted Z.lt (map key l) -> StronglySorted Z.lt (map key (List.filter p l)).
Proof.
  induction l as [|x l IH]; simpl; [done|]. intros [Hs Hx]%StronglySorted_inv.
  destruct (p x); simpl; [|auto]. constructor; [auto|].
  rewrite List.Forall_forall in *. intros k Hk. apply in_map_iff in Hk as (y & <- & Hy).
  apply filter_In in Hy as [Hy _]. apply Hx. by apply in_map.
Qed.

Lemma sorted_unique l x y :
  StronglySorted Z.lt (map key l) -> In x l -> In y l -> key x = key y -> x = y.
Proof.
  induction l as [|z l IH]; simpl; [done|]. intros [Hs Hz]%StronglySorted_inv.
  rewrite List.Forall_forall in Hz. intros [->|Hx] [->|Hy] Hk; auto.
  - specialize (Hz (key y) (in_map key _ _ Hy)). lia.
  - specialize (Hz (key x) (in_map key _ _ Hx)). lia.
Qed.

Lemma sorted_app_inv l x r :
  StronglySorted Z.lt (map key (l ++ x :: r)) ->
  forall y, In y l \/ In y r -> key y <> key x.
Proof.
  induction l as [|z l IH]; simpl; intros [Hs Hz]%StronglySorted_inv y Hy.
  - rewrite List.Forall_forall in Hz. destruct Hy as [[]|Hy].
    specialize (Hz (key y) (in_map key _ _ Hy)). lia.
  - destruct Hy as [[->|Hy]|Hy]; [|by eapply IH; eauto..].
    rewrite List.Forall_forall in Hz.
    assert (In (key x) (map key (l ++ x :: r))) as Hin by (apply in_map, in_or_app; right; by left).
    specialize (Hz _ Hin). lia.
Qed.
End Sorted.

(** ** The merge graph under the invariant *)
Lemma active_edges_in m g : In g (active_edges m) <-> eg_active g = true /\ exists id, m !! id = Some g.
Proof.
  unfold active_edges. rewrite filter_In, in_map_iff. split.
  - intros [([id g'] & <- & Hin) Ha]. apply list_elem_of_In, elem_of_map_to_list in Hin. by eauto.
  - intros [Ha (id & Hm)]. split; [|done]. exists (id, g). split; [done|].
    by apply list_elem_of_In, elem_of_map_to_list.
Qed.

Lemma step_known e x y :
  ident_inv e -> step (active_edges (ie_edges e)) x y -> known e y.
Proof.
  intros Hi (g & (_ & id & Hg)%active_edges_in & Hn).
  apply (ii_edges e Hi) in Hg as (p & Hp & _ & He).
  pose proof (ii_known e Hi) as Hk. rewrite List.Forall_forall in Hk. destruct (Hk p Hp) as [Hl Hr].
  unfold edge_of in He. unfold neighbour in Hn.
  destruct (mp_status p); simplify_eq; simpl in Hn; repeat case_bool_decide; simplify_eq; done.
Qed.

Lemma connected_known e x y : ident_inv e -> known e x -> connected e x y -> known e y.
Proof.
  intros Hi Hx Hc. apply rtc_inv_r in Hc as [<-|(z & _ & Hs)]; [done|]. by eapply step_known.
Qed.

Lemma component_members_known u e id c :
  ident_inv e -> component u e id = Ok c -> Forall (known e) c.
Proof.
  intros Hi (Hk & Hc & _)%component_spec. apply List.Forall_forall. intros y Hy.
  eapply connected_known; [done|exact Hk|]. apply Hc. by apply list_elem_of_In.
Qed.

(** ** Decisions *)
Lemma position_split {A} (p : A -> bool) l i :
  position p l = Some i -> exists l1 x l2, l = l1 ++ x :: l2 /\ length l1 = i /\ p x = true.
Proof.
  revert i. induction l as [|x l IH]; intros i; simpl; [done|]. destruct (p x) eqn:E.
  - intros [= <-]. by exists [], x, l.
  - destruct (position p l) as [j|]; [|done]. intros [= <-].
    destruct (IH j eq_refl) as (l1 & y & l2 & -> & <- & Hy). by exists (x :: l1), y, l2.
Qed.

Lemma alter_split {A} (f : A -> A) l x r : alter f (length l) (l ++ x :: r) = l ++ f x :: r.
Proof. induction l as [|y l IH]; simpl; [done|]. f_equal. apply IH. Qed.

Lemma actions_snoc id l a :
  actions id (l ++ [a]) = actions id l ++ (if au_proposal_id a =? id then [au_action a] else []).
Proof. unfold actions. rewrite List.filter_app, map_app. simpl. by destruct (_ =? _). Qed.

(** Recording a decision on the proposal [x]. *)
Lemma record_decision_inv e m l x r s :
  ident_inv e -> ie_proposals e = l ++ x :: r ->
  (length (ie_audit e) < max_audit_records (ie_cfg e))%nat ->
  trail s = trail (mp_status x) ++ [s] ->
  (forall id g, m !! id = Some g <->
     (id = mp_id x /\ edge_of (set_status s x) = Some g) \/ (id <> mp_id x /\ ie_edges e !! id = Some g)) ->
  (size m <= max_merge_edges (ie_cfg e))%nat ->
  ident_inv (record_decision (with_edges m e) (length l) (mp_id x) s).
Proof.
  intros Hi Hp Ha Ht Hm Hsz. pose proof Hi as [].
  assert (ie_proposals (record_decision (with_edges m e) (length l) (mp_id x) s) =
          l ++ set_status s x :: r) as Hp'.
  { unfold record_decision. simpl. by rewrite Hp, alter_split. }
  assert (map mp_id (l ++ set_status s x :: r) = map mp_id (ie_proposals e)) as Hids.
  { rewrite Hp, !map_app. done. }
  assert (forall P : MergeProposal -> Prop, Forall P (ie_proposals e) -> P (set_status s x) ->
          Forall P (l ++ set_status s x :: r)) as Hfor.
  { intros P Hall Hx. rewrite Hp in Hall. apply Forall_app in Hall as [Hl [_ Hr]%Forall_cons].
    apply Forall_app. split; [done|by constructor]. }
  assert (forall q, In q l \/ In q r -> mp_id q <> mp_id x) as Hne.
  { apply sorted_app_inv. by rewrite <- Hp. }
  assert (Hx : In x (ie_proposals e)) by (rewrite Hp; apply in_or_app; right; by left).
  split; rewrite ?Hp'; try done.
  - by rewrite Hids.
  - apply Hfor; [done|]. rewrite List.Forall_forall in ii_ids0. by apply (ii_ids0 x).
  - rewrite Hp, length_app in ii_proposals0. rewrite length_app. done.
  - apply Hfor; [done|]. rewrite List.Forall_forall in ii_known0. by apply (ii_known0 x).
  - intros id g. change (ie_edges _) with m. rewrite Hm, ii_edges0, Hp. split.
    + intros [[-> Hg]|[Hid (p & Hin & <- & Hg)]].
      * exists (set_status s x). split; [|done]. apply in_or_app. right. by left.
      * exists p. split; [|done]. apply in_app_or in Hin as [Hin|[<-|Hin]]; [|done|];
          apply in_or_app; [by left|right; by right].
    + intros (p & Hin & <- & Hg). apply in_app_or in Hin as [Hin|[<-|Hin]].
      * right. split; [by apply Hne; left|]. exists p. split; [|done]. apply in_or_app. by left.
      * by left.
      * right. split; [by apply Hne; right|]. exists p. split; [|done]. apply in_or_app. right. by right.
  - simpl. rewrite length_app. simpl. lia.
  - simpl. rewrite Hp in ii_trail0. apply Forall_app in ii_trail0 as [Hl [Htx Hr]%Forall_cons].
    assert (forall k, In k l \/ In k r -> actions (mp_id k)
      (ie_audit e ++ [{| au_proposal_id := mp_id x; au_action := s |}]) = actions (mp_id k) (ie_audit e)) as Hk.
    { intros k Hk. rewrite actions_snoc. simpl. rewrite (proj2 (Z.eqb_neq _ _)); [by rewrite app_nil_r|].
      intros Heq. by eapply Hne. }
    apply Forall_app. split; [|constructor].
    + apply List.Forall_forall. intros k Hin. rewrite Hk by auto. rewrite List.Forall_forall in Hl. by apply Hl.
    + simpl. rewrite actions_snoc. simpl. by rewrite Z.eqb_refl, Htx.
    + apply List.Forall_forall. intros k Hin. rewrite Hk by auto. rewrite List.Forall_forall in Hr. by apply Hr.
  - simpl. rewrite Hids. apply Forall_app. split; [done|]. repeat constructor. simpl.
    by apply in_map.
Qed.

Lemma find_proposal_split e id s i :
  find_proposal e id s = Some i ->
  exists l x r, ie_proposals e = l ++ x :: r /\ length l = i /\ mp_id x = id /\ mp_status x = s.
Proof.
  intros (l & x & r & Hp & Hl & Hx)%position_split. apply andb_true_iff in Hx as [Hid Hs].
  apply Z.eqb_eq in Hid. apply bool_decide_eq_true in Hs. by exists l, x, r.
Qed.

Lemma with_edges_id e : with_edges (ie_edges e) e = e.
Proof. by destruct e. Qed.

(** The edge of a proposal, looked up by its number. *)
Lemma edge_lookup e x : ident_inv e -> In x (ie_proposals e) -> ie_edges e !! mp_id x = edge_of x.
Proof.
  intros Hi Hx. apply option_eq. intros g. rewrite (ii_edges e Hi). split; [|by eauto].
  intros (p & Hp & Hid & Hg). by rewrite <- (sorted_unique mp_id _ _ _ (ii_sorted e Hi) Hp Hx Hid).
Qed.

Lemma edge_cases e x id :
  ident_inv e -> In x (ie_proposals e) -> forall g, ie_edges e !! id = Some g <->
  (id = mp_id x /\ edge_of x = Some g) \/ (id <> mp_id x /\ ie_edges e !! id = Some g).
Proof.
  intros Hi Hx g. destruct (decide (id = mp_id x)) as [->|Hid]; [|tauto].
  rewrite (edge_lookup e x Hi Hx). tauto.
Qed.

Lemma in_middle {A} (l : list A) x r : In x (l ++ x :: r).
Proof. apply in_or_app. right. by left. Qed.

Lemma decide_merge_inv e id d : ident_inv e -> ident_inv (snd (decide_merge e id d)).
Proof.
  intros Hi. unfold decide_merge. destruct (Nat.leb _ _) eqn:Ha; [done|]. apply Nat.leb_gt in Ha.
  destruct (find_proposal e id Pending) as [i|] eqn:Hf; [|done].
  destruct (find_proposal_split _ _ _ _ Hf) as (l & x & r & Hp & <- & <- & Hs).
  assert (In x (ie_proposals e)) as Hx by (rewrite Hp; apply in_middle). destruct d; simpl.
  - destruct (Nat.leb _ _) eqn:He; [done|]. apply Nat.leb_gt in He. rewrite Hp, list_lookup_middle by done.
    apply record_decision_inv with (r := r); try done; [by rewrite Hs| |].
    + intros id g. rewrite lookup_insert_Some. unfold edge_of. simpl. naive_solver.
    + rewrite map_size_insert. case_match; simpl; lia.
  - rewrite <- (with_edges_id e) at 1.
    apply record_decision_inv with (r := r); try done; [by rewrite Hs| |apply (ii_edges_size e Hi)].
    intros id g. rewrite (edge_cases e x id Hi Hx). unfold edge_of. simpl. rewrite Hs. naive_solver.
Qed.

Lemma undo_inv e id : ident_inv e -> ident_inv (snd (undo e id)).
Proof.
  intros Hi. unfold undo. destruct (Nat.leb _ _) eqn:Ha; [done|]. apply Nat.leb_gt in Ha.
  destruct (find_proposal e id Accepted) as [i|] eqn:Hf; [|done].
  destruct (find_proposal_split _ _ _ _ Hf) as (l & x & r & Hp & <- & <- & Hs).
  assert (In x (ie_proposals e)) as Hx by (rewrite Hp; apply in_middle). simpl.
  apply record_decision_inv with (r := r); try done; [by rewrite Hs| |].
  - intros id g. destruct (decide (id = mp_id x)) as [->|Hid].
    + rewrite lookup_alter_eq, (edge_lookup e x Hi Hx). unfold edge_of. rewrite Hs. simpl.
      unfold deactivate. simpl. naive_solver.
    + rewrite lookup_alter_ne by done. naive_solver.
  - rewrite <- (size_dom (D := gset Z)), dom_alter, size_dom. apply (ii_edges_size e Hi).
Qed.

(** ** Owner records *)
Lemma owner_inv u e id key value at_ : ident_inv e -> ident_inv (snd (owner u e id key value at_)).
Proof.
  intros Hi. unfold owner. destruct (resolve u e id) as [root|] eqn:Hr; [|done].
  destruct (negb _ || _) eqn:Hv; [done|]. apply orb_false_iff in Hv as [Hk Hv].
  destruct (Nat.leb _ _) eqn:Ha; [done|]. apply Nat.leb_gt in Ha.
  destruct (checked_add_u64 _ _) as [next|] eqn:Hn; [|done].
  apply checked_add_u64_some in Hn as [-> Hn]. apply negb_false_iff in Hk.
  assert (known e root) as Hroot.
  { pose proof Hr as (c & Hc & _)%result_bind_ok. apply component_spec in Hc as (Hid & _).
    eapply connected_known; [done|exact Hid|by eapply resolve_connected]. }
  pose proof Hi as []. split; simpl; try done.
  - apply Forall_app. split.
    + eapply Forall_impl; [exact ii_owners0|]. intros o (Hs & ?). split; [simpl; lia|done].
    + constructor; [|constructor]. split_and!; simpl; [lia|lia|done|done|].
      intros v ->. simpl in Hv. apply orb_false_iff in Hv as [He Hl]. apply Nat.ltb_ge in Hl.
      by apply bool_decide_eq_false in He.
  - apply sorted_snoc; [done|]. eapply Forall_impl; [exact ii_owners0|]. intros o (Hs & _). simpl. lia.
  - rewrite length_app. simpl. lia.
  - lia.
Qed.

(** ** Proposals *)
Lemma insert_prop_inv e a b score fams reasons :
  ident_inv e -> (length (ie_proposals e) < max_proposals (ie_cfg e))%nat ->
  ie_next_proposal e < u64_max -> known e a -> known e b ->
  ident_inv (snd (insert_prop e a b score fams reasons)).
Proof.
  intros Hi Hl Hn Ha Hb. pose proof Hi as []. unfold insert_prop. cbv zeta. simpl.
  set (p := {| mp_id := ie_next_proposal e |}).
  assert (Forall (fun q => mp_id q < mp_id p) (ie_proposals e)) as Hlt.
  { eapply Forall_impl; [exact ii_ids0|]. simpl. lia. }
  split; simpl; try done.
  - by apply sorted_snoc.
  - apply Forall_app. split; [|constructor; [simpl; lia|constructor]].
    eapply Forall_impl; [exact ii_ids0|]. simpl. lia.
  - lia.
  - rewrite length_app. simpl. lia.
  - apply Forall_app. split; [done|]. by repeat constructor.
  - intros id g. rewrite ii_edges0. split.
    + intros (q & Hq & Hx). exists q. split; [apply in_or_app; by left|done].
    + intros (q & [Hq|[<-|[]]]%in_app_or & Hid & Hg); [by exists q|done].
  - apply Forall_app. split; [done|]. constructor; [|constructor]. simpl.
    unfold actions. rewrite filter_nothing; [done|].
    eapply Forall_impl; [exact ii_audit0|]. simpl. intros au (q & Hq & Hin)%in_map_iff.
    rewrite List.Forall_forall in Hlt. specialize (Hlt q Hin). simpl in Hlt. apply Z.eqb_neq. lia.
  - eapply Forall_impl; [exact ii_audit0|]. simpl. intros au Hau. rewrite map_app.
    apply in_or_app. by left.
Qed.

Lemma preprops_ok e n : preprops e n = Ok tt ->
  (length (ie_proposals e) + n <= max_proposals (ie_cfg e))%nat /\
  ((0 < n)%nat -> ie_next_proposal e + Z.of_nat n <= u64_max).
Proof.
  unfold preprops. destruct (_ || _) eqn:E; [done|]. intros _. apply orb_false_iff in E as [Hl Hn].
  apply Nat.ltb_ge in Hl. split; [lia|]. intros Hpos. rewrite (proj2 (Nat.ltb_lt _ _) Hpos) in Hn.
  simpl in Hn. apply bool_decide_eq_false in Hn.
  destruct (checked_add_u64 _ _) as [z|] eqn:Hz; [|done]. apply checked_add_u64_some in Hz. lia.
Qed.

Lemma propose_merge_inv u e a b score fams reasons :
  ident_inv e -> ident_inv (snd (propose_merge u e a b score fams reasons)).
Proof.
  intros Hi. unfold propose_merge. destruct (result_bind _ _) as [[]|] eqn:E; [|done].
  apply result_bind_ok in E as (ra & (ca & Ha & _)%result_bind_ok & E).
  apply result_bind_ok in E as (rb & (cb & Hb & _)%result_bind_ok & E).
  apply result_bind_ok in E as ([] & _ & Hp%preprops_ok).
  apply component_spec in Ha as (Ha & _). apply component_spec in Hb as (Hb & _).
  apply insert_prop_inv; try done; lia.
Qed.

(** ** Facts *)

(** Replacing the facts of known devices by acceptable lists keeps the invariant. *)
Lemma with_facts_inv e m :
  ident_inv e -> dom m = dom (ie_facts e) ->
  map_Forall (fun _ l => (length l <= max_facts_per_device (ie_cfg e))%nat /\
                         Forall (fact_ok (ie_cfg e)) l) m ->
  ident_inv (with_facts m e).
Proof.
  intros Hi Hd Hm. pose proof Hi as [].
  assert (forall d, known e d -> known (with_facts m e) d) as Hk.
  { intros d Hk. unfold known in *. simpl. apply elem_of_dom. rewrite Hd. by apply elem_of_dom. }
  split; simpl; try done.
  - rewrite <- size_dom, Hd, size_dom. done.
  - eapply Forall_impl; [exact ii_known0|]. simpl. intros p [? ?]. auto.
  - eapply Forall_impl; [exact ii_owners0|]. intros o (? & ? & ? & ?). split_and!; simpl; auto; tauto.
Qed.

Lemma prune_lookup now c (m : gmap DeviceId (list EvidenceFact)) d :
  fold_left (fun m d => prune_device now d m) c m !! d =
  (if decide (d ∈ c) then retain (live now) else fun l => l) <$> m !! d.
Proof.
  revert m. induction c as [|x c IH]; intros m; cbn [fold_left].
  { rewrite decide_False by apply not_elem_of_nil. by destruct (m !! d). }
  rewrite IH. unfold prune_device. destruct (decide (d = x)) as [->|Hdx].
  - rewrite lookup_alter_eq, (decide_True (P := x ∈ x :: c)) by (by left).
    destruct (m !! x) as [l|]; [|done]. simpl. f_equal. case_decide; [|done].
    rewrite filter_all; [done|]. apply List.Forall_forall. by intros f [_ Hf]%filter_In.
  - rewrite lookup_alter_ne by done. destruct (decide (d ∈ c)) as [Hin|Hout].
    + rewrite decide_True by (by right). done.
    + rewrite decide_False by (by apply not_elem_of_cons). done.
Qed.

Lemma prune_expired_ok u e id now e1 :
  prune_expired u e id now = Ok e1 ->
  exists c, component u e id = Ok c /\ e1 = with_facts (ie_facts e1) e /\
    dom (ie_facts e1) = dom (ie_facts e) /\
    forall d, ie_facts e1 !! d = (if decide (d ∈ c) then retain (live now) else fun l => l) <$> ie_facts e !! d.
Proof.
  intros (c & Hc & [= <-])%result_bind_ok. exists c. simpl. split_and!; [done..| |].
  - apply set_eq. intros d. rewrite !elem_of_dom, prune_lookup. by destruct (ie_facts e !! d).
  - apply prune_lookup.
Qed.

Lemma prune_expired_inv u e id now e1 :
  ident_inv e -> prune_expired u e id now = Ok e1 -> ident_inv e1.
Proof.
  intros Hi (c & _ & -> & Hd & Hl)%prune_expired_ok. simpl in *. apply with_facts_inv; [done..|].
  intros d l Hm. rewrite Hl in Hm. destruct (ie_facts e !! d) as [l0|] eqn:E; [|done].
  apply (ii_facts e Hi) in E as [Hlen Hall]. simpl in Hm. injection Hm as <-.
  case_decide; [|done]. split.
  - etrans; [apply filter_length_le|done].
  - rewrite List.Forall_forall in *. intros f [Hf _]%filter_In. auto.
Qed.

Lemma list_sum_le (g : DeviceId -> nat) c d : d ∈ c -> (g d <= list_sum (map g c))%nat.
Proof.
  induction c as [|x c IH]; [by intros ?%elem_of_nil|].
  intros [->|Hd]%elem_of_cons; simpl; [lia|]. specialize (IH Hd). lia.
Qed.

(** The component depends only on the known devices and the edges. *)
Lemma component_same u e m id :
  dom m = dom (ie_facts e) -> component u (with_facts m e) id = component u e id.
Proof.
  intros Hd. unfold component. simpl.
  rewrite <- (size_dom (ie_facts e)), <- Hd, (size_dom m).
  assert (forall d, m !! d = None <-> ie_facts e !! d = None) as Hn.
  { intros d. by rewrite <- !not_elem_of_dom, Hd. }
  repeat case_bool_decide; naive_solver.
Qed.

Lemma append_facts_inv u e id fs now :
  ident_inv e -> Forall (fact_ok (ie_cfg e)) fs -> ident_inv (snd (append_facts u e id fs now)).
Proof.
  intros Hi Hfs. unfold append_facts. destruct (prune_expired u e id now) as [e1|] eqn:Hp; [|done].
  pose proof (prune_expired_inv _ _ _ _ _ Hi Hp) as Hi1.
  destruct (prune_expired_ok _ _ _ _ _ Hp) as (c & Hc & He1 & Hd & Hl).
  destruct (preadd u e1 id (length fs) now) as [[]|] eqn:Ha; [|done].
  destruct (ie_facts e1 !! id) as [old|] eqn:Hold; [|done]. simpl.
  assert (ie_cfg e1 = ie_cfg e) as Hcfg by (by rewrite He1).
  apply with_facts_inv; [done| |].
  - rewrite dom_insert_L. apply elem_of_dom_2 in Hold. set_solver.
  - apply map_Forall_insert_2; [|apply (ii_facts e1 Hi1)].
    pose proof (ii_facts e1 Hi1 _ _ Hold) as [_ Hall]. split; [|apply Forall_app; by rewrite Hcfg in *].
    unfold preadd in Ha. rewrite He1 in Ha. rewrite component_same, Hc in Ha by done. simpl in Ha.
    destruct (Nat.ltb _ _) eqn:Hlt in Ha; [done|]. apply Nat.ltb_ge in Hlt. rewrite length_app, Hcfg.
    assert (id ∈ c) as Hin by (apply component_spec in Hc as (_ & Hin & _); apply Hin; constructor).
    pose proof (list_sum_le (fun d => length (List.filter (live now)
      (facts_of (with_facts (ie_facts e1) e) d))) c id Hin) as Hsum. cbv beta in Hsum.
    assert (List.filter (live now) (facts_of (with_facts (ie_facts e1) e) id) = old) as Heq.
    { unfold facts_of. simpl. rewrite Hold. simpl. specialize (Hl id). rewrite Hold in Hl.
      rewrite decide_True in Hl by done. destruct (ie_facts e !! id); [|done]. injection Hl as ->.
      apply filter_all. apply List.Forall_forall. by intros f [_ Hf]%filter_In. }
    rewrite Heq in Hsum. lia.
Qed.

(** ** Observation *)
Lemma enroll_device_inv e fresh ids incoming :
  ident_inv e -> ie_ids e = fresh :: ids -> ie_facts e !! fresh = None ->
  Forall (fact_ok (ie_cfg e)) incoming -> (length incoming <= max_facts_per_device (ie_cfg e))%nat ->
  ident_inv (with_facts (<[fresh := incoming]> (ie_facts e)) (with_ids ids e)).
Proof.
  intros Hi Hids Hnew Hok Hlen. pose proof Hi as [].
  set (e1 := with_facts _ _).
  assert (forall d, known e d -> known e1 d) as Hk.
  { intros d Hk. unfold known, e1. simpl. destruct (decide (d = fresh)) as [->|Hd];
      [by rewrite lookup_insert_eq|by rewrite lookup_insert_ne]. }
  split; simpl; try done.
  - rewrite map_size_insert_None by done. rewrite Hids in ii_devices0. simpl in ii_devices0. lia.
  - apply map_Forall_insert_2; done.
  - eapply Forall_impl; [exact ii_known0|]. simpl. intros p [? ?]. auto.
  - eapply Forall_impl; [exact ii_owners0|]. intros o (? & ? & ? & ?). split_and!; simpl; auto; tauto.
Qed.

Lemma fold_proposals_inv fresh matches e :
  ident_inv e -> known e fresh -> Forall (fun x => known e (fst x)) matches ->
  (length (ie_proposals e) + length matches <= max_proposals (ie_cfg e))%nat ->
  ((0 < length matches)%nat -> ie_next_proposal e + Z.of_nat (length matches) <= u64_max) ->
  ident_inv (fold_left (fun e '(other, m) =>
    snd (insert_prop e other fresh (mt_score m) (mt_families m) (mt_reasons m))) matches e).
Proof.
  revert e. induction matches as [|[other m] matches IH]; intros e Hi Hf Hk Hl Hn; cbn [fold_left]; [done|].
  cbn [length] in Hl, Hn. apply Forall_cons in Hk as [Ho Hk]. specialize (Hn ltac:(lia)).
  apply IH; simpl; [|done|done|rewrite length_app; simpl; lia|lia].
  apply insert_prop_inv; try done; lia.
Qed.

Lemma enroll_inv e incoming matches :
  ident_inv e -> Forall (fact_ok (ie_cfg e)) incoming ->
  (length incoming <= max_facts_per_device (ie_cfg e))%nat ->
  Forall (fun x => known e (fst x)) matches -> ident_inv (snd (enroll e incoming matches)).
Proof.
  intros Hi Hok Hlen Hk. unfold enroll. destruct (preprops e (length matches)) as [[]|] eqn:Hp; [|done].
  apply preprops_ok in Hp as [Hl Hn]. destruct (ie_ids e) as [|fresh ids] eqn:Hids; [done|].
  case_bool_decide as Hnew; [done|].
  cbn [snd]. apply fold_proposals_inv; try done.
  - by apply enroll_device_inv.
  - unfold known. simpl. by rewrite lookup_insert_eq.
  - eapply Forall_impl; [exact Hk|]. intros [d m] Hd. unfold known in *. simpl in *.
    destruct (decide (d = fresh)) as [->|Hdf]; [by rewrite lookup_insert_eq|by rewrite lookup_insert_ne].
Qed.

Lemma components_in u e cs c :
  components u e = Ok cs -> In c cs -> exists id, component u e id = Ok c.
Proof.
  unfold components. destruct (Nat.ltb _ _); [done|]. generalize (∅ : gset DeviceId) as seen.
  generalize (sort_ids u (map fst (map_to_list (ie_facts e)))) as ids. intros ids. revert cs.
  induction ids as [|id ids IH]; intros cs seen; simpl; [by intros [= <-]|].
  case_bool_decide; [apply IH|].
  intros (c0 & Hc0 & (out & Hout & [= <-])%result_bind_ok)%result_bind_ok [<-|Hin]; [by exists id|].
  by eapply IH.
Qed.

Lemma canon_known u e cs c :
  ident_inv e -> components u e = Ok cs -> In c cs -> known e (canon u c).
Proof.
  intros Hi Hcs Hin. destruct (components_in _ _ _ _ Hcs Hin) as [id Hid].
  pose proof (component_members_known _ _ _ _ Hi Hid) as Hk. rewrite Forall_forall in Hk.
  apply Hk. by eapply canon_in.
Qed.

Lemma observe_unknown_inv u e incoming now :
  ident_inv e -> Forall (fact_ok (ie_cfg e)) incoming ->
  ident_inv (snd (observe_unknown u e incoming now)).
Proof.
  intros Hi Hok. unfold observe_unknown. destruct (_ || _) eqn:Hcap; [done|].
  apply orb_false_iff in Hcap as [Hlen _]. apply Nat.ltb_ge in Hlen.
  destruct (components u e) as [cs|] eqn:Hcs; simpl; [|done].
  destruct (candidates _ _ _ _ _ _) as [found|] eqn:Hf; [|done]. apply candidates_spec in Hf.
  assert (Forall (fun x => known e (fst x)) (merge_sort (match_le u) found)) as Hk.
  { rewrite merge_sort_Permutation. subst found. apply List.Forall_forall. intros x Hx.
    apply list_elem_of_In, list_elem_of_omap in Hx as (c & Hc & Hx). unfold candidate_of in Hx.
    cbv zeta in Hx. destruct (mt_any _); [|done]. injection Hx as <-. simpl.
    eapply canon_known; [done..|]. by apply list_elem_of_In. }
  destruct (merge_sort _ found) as [|[r [any [] score fams reasons]] [|x l]];
    try (by apply enroll_inv).
  pose proof (append_facts_inv u e r incoming now Hi Hok) as Ha.
  destruct (append_facts _ _ _ _ _) as [[] e1]; done.
Qed.

Lemma observe_at_inv u e id fs now :
  ident_inv e -> (17 <= max_value_len (ie_cfg e))%nat -> ident_inv (snd (observe_at u e id fs now)).
Proof.
  intros Hi Hl. unfold observe_at. destruct (prepare _ fs) as [fs'|] eqn:Hp; [|done].
  apply prepare_forall in Hp as [_ Hok]; [|apply (ii_cfg e Hi)|done].
  destruct id as [alias|]; [|by apply observe_unknown_inv].
  destruct (resolve u e alias) as [root|]; [|done].
  pose proof (append_facts_inv u e alias fs' now Hi Hok) as Ha.
  destruct (append_facts _ _ _ _ _) as [[] e1]; done.
Qed.

Lemma add_facts_at_inv u e id fs now :
  ident_inv e -> (17 <= max_value_len (ie_cfg e))%nat -> ident_inv (snd (add_facts_at u e id fs now)).
Proof.
  intros Hi Hl. unfold add_facts_at. destruct (prepare _ fs) as [fs'|] eqn:Hp; [|done].
  apply prepare_forall in Hp as [_ Hok]; [|apply (ii_cfg e Hi)|done]. by apply append_facts_inv.
Qed.

(** ** Eviction *)
Lemma actions_retain id (gone_ids : gset Z) l :
  id ∉ gone_ids ->
  actions id (retain (fun a => negb (bool_decide (au_proposal_id a ∈ gone_ids))) l) = actions id l.
Proof.
  intros Hid. unfold actions. f_equal. induction l as [|a l IH]; simpl; [done|].
  destruct (Z.eqb_spec (au_proposal_id a) id) as [Ha|Ha].
  - rewrite bool_decide_eq_false_2 by (by rewrite Ha). simpl. rewrite (proj2 (Z.eqb_eq _ _) Ha).
    by rewrite IH.
  - destruct (negb _); simpl; [|done]. by rewrite (proj2 (Z.eqb_neq _ _) Ha).
Qed.

Section Forget.
Context (e : IdentityEngine) (gone : gset DeviceId).
Hypothesis Hi : ident_inv e.
Hypothesis Howners : Forall (fun o => ow_device_id o ∉ gone) (ie_owners e).

Definition mentions (p : MergeProposal) : bool :=
  bool_decide (mp_left p ∈ gone) || bool_decide (mp_right p ∈ gone).
Definition dropped : gset Z := list_to_set (map mp_id (List.filter mentions (ie_proposals e))).

Lemma dropped_iff p : In p (ie_proposals e) -> ((mp_id p ∈ dropped) <-> mentions p = true).
Proof.
  intros Hp. unfold dropped. rewrite elem_of_list_to_set, list_elem_of_In, in_map_iff.
  setoid_rewrite filter_In. split; [|by eauto]. intros (q & Hid & Hq & Hm).
  by rewrite <- (sorted_unique mp_id _ _ _ (ii_sorted e Hi) Hq Hp Hid).
Qed.

Lemma kept_iff p :
  In p (retain (fun p => negb (bool_decide (mp_id p ∈ dropped))) (ie_proposals e)) <->
  In p (ie_proposals e) /\ (mp_left p ∉ gone) /\ (mp_right p ∉ gone).
Proof.
  rewrite filter_In, negb_true_iff, bool_decide_eq_false. split.
  - intros [Hp Hd]. split; [done|]. rewrite dropped_iff in Hd by done. unfold mentions in Hd.
    apply not_true_iff_false, orb_false_iff in Hd as [H1 H2].
    by apply bool_decide_eq_false in H1, H2.
  - intros (Hp & Hl & Hr). split; [done|]. rewrite dropped_iff by done. unfold mentions.
    by rewrite !bool_decide_eq_false_2.
Qed.

Lemma forget_known d : known e d -> d ∉ gone -> known (forget gone e) d.
Proof.
  intros [l Hl] Hd. unfold known, forget. simpl. exists l. by apply map_lookup_filter_Some.
Qed.

Lemma forget_edges id g :
  ie_edges (forget gone e) !! id = Some g <->
  exists p, In p (ie_proposals (forget gone e)) /\ mp_id p = id /\ edge_of p = Some g.
Proof.
  unfold forget. cbn [ie_edges ie_proposals with_audit with_proposals with_edges with_facts].
  fold mentions. fold dropped. setoid_rewrite kept_iff. rewrite map_lookup_filter_Some, (ii_edges e Hi).
  assert (forall p, edge_of p = Some g -> eg_a g = mp_left p /\ eg_b g = mp_right p) as Hends.
  { intros p. unfold edge_of. destruct (mp_status p); intros; by simplify_eq. }
  split.
  - intros [(p & Hp & Hid & Hg) [Ha Hb]]. exists p. destruct (Hends p Hg) as [Hl Hr].
    rewrite <- Hl, <- Hr. by split_and!.
  - intros (p & (Hp & Hl & Hr) & Hid & Hg). destruct (Hends p Hg) as [Ha Hb]. rewrite Ha, Hb.
    split; [by exists p|done].
Qed.

Lemma forget_trail :
  Forall (fun p => actions (mp_id p) (ie_audit (forget gone e)) = trail (mp_status p))
    (ie_proposals (forget gone e)).
Proof.
  apply List.Forall_forall. intros p Hp. unfold forget in *.
  cbn [ie_audit ie_proposals with_audit with_proposals with_edges with_facts] in *.
  apply filter_In in Hp as [Hp Hd]. apply negb_true_iff, bool_decide_eq_false in Hd.
  pose proof (ii_trail e Hi) as Ht. rewrite List.Forall_forall in Ht. rewrite <- (Ht p Hp).
  by apply actions_retain.
Qed.

Lemma forget_inv : ident_inv (forget gone e).
Proof.
  pose proof Hi as []. split; try done.
  - simpl. etrans; [|exact ii_devices0]. apply Nat.add_le_mono_r, map_size_filter.
  - simpl. intros d l [Hd _]%map_lookup_filter_Some. by apply ii_facts0 in Hd.
  - simpl. by apply sorted_filter.
  - simpl. apply List.Forall_forall. intros p [Hp _]%filter_In. rewrite List.Forall_forall in ii_ids0. auto.
  - simpl. etrans; [apply filter_length_le|done].
  - apply List.Forall_forall. intros p (Hp & Hl & Hr)%kept_iff.
    rewrite List.Forall_forall in ii_known0. destruct (ii_known0 p Hp).
    split; by apply forget_known.
  - apply forget_edges.
  - simpl. etrans; [apply map_size_filter|done].
  - simpl. etrans; [apply filter_length_le|done].
  - apply forget_trail.
  - simpl. apply List.Forall_forall. intros a [Ha Hd]%filter_In.
    rewrite List.Forall_forall in ii_audit0. specialize (ii_audit0 a Ha).
    apply in_map_iff in ii_audit0 as (p & Hid & Hp). apply in_map_iff. exists p. split; [done|].
    apply filter_In. split; [done|]. by rewrite Hid.
  - apply List.Forall_forall. intros o Ho. rewrite List.Forall_forall in Howners, ii_owners0.
    destruct (ii_owners0 o Ho) as (? & ? & ? & ?). split_and!; simpl; try tauto.
    apply forget_known; [done|]. by apply Howners.
Qed.
End Forget.

Lemma evict_stale_at_inv `{Calendar} u e now retention :
  ident_inv e -> ident_inv (snd (evict_stale_at u e now retention)).
Proof.
  intros Hi. unfold evict_stale_at. destruct (checked_add_signed _ _) as [cutoff|]; [|done].
  destruct (components u e) as [cs|]; [|done]. cbv zeta. case_bool_decide; [done|]. simpl.
  apply forget_inv; [done|]. apply List.Forall_forall. intros o Ho Hin.
  apply elem_of_list_to_set, list_elem_of_In, in_concat in Hin as (c & Hc & Hd).
  apply filter_In in Hc as [_ Hev]. unfold evictable in Hev. bprop.
  match goal with H : existsb _ (ie_owners e) = false |- _ => apply existsb_false_forall in H;
    rewrite List.Forall_forall in H; specialize (H o Ho); apply bool_decide_eq_false in H end.
  by apply list_elem_of_In in Hd.
Qed.

(** ** Reachable engines *)
Inductive IdentityOp :=
  | OpObserve (id : option DeviceId) (fs : list EvidenceFact) (now : DateTime)
  | OpAddFacts (id : DeviceId) (fs : list EvidenceFact) (now : DateTime)
  | OpEvict (now : DateTime) (retention : Duration)
  | OpOwner (id : DeviceId) (key : string) (value : option string) (at_ : DateTime)
  | OpPropose (a b : DeviceId) (score : f32) (fams : list EvidenceFamily) (reasons : list string)
  | OpDecide (id : Z) (d : Decision_)
  | OpUndo (id : Z).

Section Reach.
Context `{Calendar} (u : DeviceId -> string).

(** The operation succeeded, and the engine it left. *)
Definition run_identity_op (e : IdentityEngine) (o : IdentityOp) : bool * IdentityEngine :=
  match o with
  | OpObserve id fs now => let '(r, e') := observe_at u e id fs now in (is_ok r, e')
  | OpAddFacts id fs now => let '(r, e') := add_facts_at u e id fs now in (is_ok r, e')
  | OpEvict now retention => let '(r, e') := evict_stale_at u e now retention in (is_ok r, e')
  | OpOwner id key value at_ => let '(r, e') := owner u e id key value at_ in (is_ok r, e')
  | OpPropose a b score fams reasons =>
      let '(r, e') := propose_merge u e a b score fams reasons in (is_ok r, e')
  | OpDecide id d => let '(r, e') := decide_merge e id d in (is_ok r, e')
  | OpUndo id => let '(r, e') := undo e id in (is_ok r, e')
  end.

Definition run_identity (e : IdentityEngine) (ops : list IdentityOp) : IdentityEngine :=
  fold_left (fun e o => snd (run_identity_op e o)) ops e.

Lemma identity_new_inv c ids e : identity_new c ids = Ok e -> ident_inv e /\ ie_cfg e = c.
Proof.
  intros ([] & Hv & [= <-])%result_bind_ok. split; [|done].
  split; simpl; try done; try lia; try apply SSorted_nil.
  - rewrite map_size_empty, length_take. lia.
  - intros id g. rewrite lookup_empty. split; [done|]. by intros (p & [] & _).
  - rewrite map_size_empty. lia.
Qed.

(** *** The configuration never changes *)
Lemma append_facts_cfg e id fs now : ie_cfg (snd (append_facts u e id fs now)) = ie_cfg e.
Proof.
  unfold append_facts. destruct (prune_expired u e id now) as [e1|] eqn:Hp; [|done].
  apply prune_expired_ok in Hp as (c & _ & -> & _). by repeat case_match.
Qed.

Lemma enroll_cfg e incoming matches : ie_cfg (snd (enroll e incoming matches)) = ie_cfg e.
Proof.
  unfold enroll. destruct (preprops _ _); [|done]. destruct (ie_ids e) as [|fresh ids]; [done|].
  case_bool_decide; [done|]. cbn [snd].
  change (ie_cfg e) with (ie_cfg (with_facts (<[fresh:=incoming]> (ie_facts e)) (with_ids ids e))).
  generalize (with_facts (<[fresh:=incoming]> (ie_facts e)) (with_ids ids e)) as e1.
  induction matches as [|[other m] matches IH]; intros e1; [done|]. cbn [fold_left]. by rewrite IH.
Qed.

Lemma observe_at_cfg e id fs now : ie_cfg (snd (observe_at u e id fs now)) = ie_cfg e.
Proof.
  unfold observe_at. destruct (prepare _ _) as [fs'|]; [|done]. destruct id as [alias|].
  - destruct (resolve u e alias); [|done]. pose proof (append_facts_cfg e alias fs' now) as Ha.
    by destruct (append_facts _ _ _ _ _) as [[] ?].
  - unfold observe_unknown. destruct (_ || _); [done|]. destruct (result_bind _ _) as [found|]; [|done].
    cbv zeta. destruct (merge_sort _ found) as [|[r [any [] score fams reasons]] [|x l]];
      try apply enroll_cfg.
    pose proof (append_facts_cfg e r fs' now) as Ha. by destruct (append_facts _ _ _ _ _) as [[] ?].
Qed.

Lemma run_identity_op_cfg e o : ie_cfg (snd (run_identity_op e o)) = ie_cfg e.
Proof.
  destruct o; simpl.
  - pose proof (observe_at_cfg e id fs now) as Hx. by destruct (observe_at _ _ _ _ _).
  - pose proof (append_facts_cfg e id) as Hx. unfold add_facts_at.
    destruct (prepare _ _) as [fs'|]; [|done]. specialize (Hx fs' now).
    by destruct (append_facts _ _ _ _ _).
  - unfold evict_stale_at. by repeat case_match; simplify_eq.
  - unfold owner. by repeat case_match; simplify_eq.
  - unfold propose_merge, insert_prop. by repeat case_match; simplify_eq.
  - unfold decide_merge. by repeat case_match; simplify_eq.
  - unfold undo. by repeat case_match; simplify_eq.
Qed.

Lemma run_identity_op_inv e o :
  ident_inv e -> (17 <= max_value_len (ie_cfg e))%nat -> ident_inv (snd (run_identity_op e o)).
Proof.
  intros Hi Hl. destruct o; simpl.
  - pose proof (observe_at_inv u e id fs now Hi Hl) as Hx. by destruct (observe_at _ _ _ _ _).
  - pose proof (add_facts_at_inv u e id fs now Hi Hl) as Hx. by destruct (add_facts_at _ _ _ _ _).
  - pose proof (evict_stale_at_inv u e now retention Hi) as Hx. by destruct (evict_stale_at _ _ _ _).
  - pose proof (owner_inv u e id key value at_ Hi) as Hx. by destruct (owner _ _ _ _ _ _).
  - pose proof (propose_merge_inv u e a b score fams reasons Hi) as Hx.
    by destruct (propose_merge _ _ _ _ _ _ _).
  - pose proof (decide_merge_inv e id d Hi) as Hx. by destruct (decide_merge _ _ _).
  - pose proof (undo_inv e id Hi) as Hx. by destruct (undo _ _).
Qed.

Lemma run_identity_inv e ops :
  ident_inv e -> (17 <= max_value_len (ie_cfg e))%nat ->
  ident_inv (run_identity e ops) /\ ie_cfg (run_identity e ops) = ie_cfg e.
Proof.
  revert e. induction ops as [|o ops IH]; intros e Hi Hl; [done|]. simpl.
  destruct (IH (snd (run_identity_op e o))) as [Hi' Hc].
  - by apply run_identity_op_inv.
  - by rewrite run_identity_op_cfg.
  - split; [done|]. etrans; [exact Hc|]. apply run_identity_op_cfg.
Qed.

(** C5. Under a configuration whose values may have at least 17 characters (a hardware address, once it is
    normalised, has 17, and may exceed a shorter limit), every engine reachable from a fresh one by any sequence of observations, evictions,
    owner records, proposals and decisions satisfies the engine invariant: devices, facts,
    proposals, edges and audits stay within their capacities, numbers are strictly increasing
    and below the next one, every stored fact is a prepared one, the merge edges are exactly the
    accepted and undone proposals, and the audit trail replays each proposal's status. *)
Theorem identity_invariant c ids e ops :
  identity_new c ids = Ok e -> (17 <= max_value_len c)%nat -> ident_inv (run_identity e ops).
Proof.
  intros [Hi Hc]%identity_new_inv Hl. rewrite <- Hc in Hl. by apply run_identity_inv.
Qed.
End Reach.
