(* ===== verification/IdentityTheorems.v ===== *)
(** * The identity engine: merges, failures and eviction

    What docs/identity/algorithm.md promises of the merge graph, of failed operations and of
    the eviction of stale devices, for every engine that satisfies the invariant. *)

From S2P Require Import Prelude Time Text F32 Domain Identity IdentityGraph IdentityMatch.
From S2P Require Import IdentityMac IdentityProps.

(** ** Representatives *)
Section Representatives.
Context (u : DeviceId -> string).
Hypothesis u_inj : Inj eq eq u.

(** Whether the graph is too large does not depend on the device. *)
Lemma component_total e a l b : component u e a = Ok l -> known e b -> exists l', component u e b = Ok l'.
Proof.
  intros Ha [fs Hb]. unfold component in *. rewrite Hb. repeat case_bool_decide; try done.
  destruct (_ <? _); [done|]. by eexists.
Qed.

(** C37. One identity per merge component: two devices resolve to the same representative
    exactly when accepted merges connect them; the representative is a known device of that
    component and resolves to itself. *)
Theorem resolve_is_canonical e a b ra rb :
  ident_inv e -> resolve u e a = Ok ra -> resolve u e b = Ok rb ->
  (ra = rb <-> connected e a b) /\ connected e a ra /\ known e ra /\ resolve u e ra = Ok ra.
Proof.
  intros Hi Ha Hb. pose proof (resolve_connected _ _ _ _ Ha) as Hc.
  split; [by eapply resolve_same|]. split; [done|].
  pose proof Ha as (la & Hla & [= Hra])%result_bind_ok.
  assert (known e ra) as Hk.
  { eapply connected_known; [done| |exact Hc]. by apply component_spec in Hla as (Hk & _). }
  split; [done|]. destruct (component_total _ _ _ _ Hla Hk) as [l' Hl'].
  unfold resolve. rewrite Hl'. simpl. f_equal. rewrite <- Hra. f_equal. symmetry.
  by eapply component_unique.
Qed.
End Representatives.

(** ** Reversible merges *)

(** The pairs that the accepted proposals satisfying [P] tie together. *)
Definition accepted_link (P : MergeProposal -> Prop) (e : IdentityEngine) (x y : DeviceId) : Prop :=
  exists p, In p (ie_proposals e) /\ mp_status p = Accepted /\ P p /\
    ((mp_left p = x /\ mp_right p = y) \/ (mp_left p = y /\ mp_right p = x)).

Lemma step_accepted e x y :
  ident_inv e ->
  (step (active_edges (ie_edges e)) x y <-> accepted_link (fun _ => True) e x y).
Proof.
  intros Hi. split.
  - intros (g & (Hact & id & Hg)%active_edges_in & Hn). apply (ii_edges e Hi) in Hg as (p & Hp & _ & He).
    exists p. unfold edge_of in He. destruct (mp_status p); simplify_eq. unfold neighbour in Hn.
    simpl in Hn. split_and!; try done. repeat case_bool_decide; simplify_eq; auto.
  - intros (p & Hp & Hs & _ & Hends).
    exists {| eg_a := mp_left p; eg_b := mp_right p; eg_active := true |}. split.
    + apply active_edges_in. split; [done|]. exists (mp_id p). rewrite (edge_lookup e p Hi Hp).
      unfold edge_of. by rewrite Hs.
    + unfold neighbour. simpl. destruct Hends as [[<- <-]|[<- <-]]; repeat case_bool_decide; congruence.
Qed.

Lemma rtc_iff {A} (R R' : relation A) x y : (forall a b, R a b <-> R' a b) -> rtc R x y <-> rtc R' x y.
Proof. intros Hr. split; apply rtc_subrel; intros a b; apply Hr. Qed.

Lemma connected_accepted e x y :
  ident_inv e -> (connected e x y <-> rtc (accepted_link (fun _ => True) e) x y).
Proof. intros Hi. apply rtc_iff. intros a b. by apply step_accepted. Qed.

(** Merges are reversible: [undo] succeeds only on an accepted proposal, moves or deletes
    no facts, device identifiers or owner records, appends one audit record, and afterwards two
    devices are merged exactly when the other accepted proposals connect them. *)
Theorem undo_disables_one_merge e id e' :
  ident_inv e -> undo e id = (Ok tt, e') ->
  (exists p, In p (ie_proposals e) /\ mp_id p = id /\ mp_status p = Accepted) /\
  ie_facts e' = ie_facts e /\ ie_ids e' = ie_ids e /\ ie_owners e' = ie_owners e /\
  ie_audit e' = ie_audit e ++ [{| au_proposal_id := id; au_action := Undone |}] /\
  forall x y, connected e' x y <-> rtc (accepted_link (fun p => mp_id p <> id) e) x y.
Proof.
  intros Hi Hu. pose proof (undo_inv e id Hi) as Hi'. rewrite Hu in Hi'. simpl in Hi'.
  unfold undo in Hu. destruct (Nat.leb _ _); [done|].
  destruct (find_proposal e id Accepted) as [i|] eqn:Hf; [|done]. injection Hu as <-.
  destruct (find_proposal_split _ _ _ _ Hf) as (l & q & r & Hp & <- & <- & Hs).
  split; [exists q; split; [rewrite Hp; apply in_middle|done]|].
  split_and!; [done..|]. intros x y. rewrite connected_accepted by done. apply rtc_iff.
  pose proof (sorted_app_inv mp_id l q r) as Hne. rewrite <- Hp in Hne. specialize (Hne (ii_sorted e Hi)).
  intros a b. unfold accepted_link, record_decision. simpl. rewrite Hp, alter_split. split.
  - intros (p & Hin & Hacc & _ & Hends). exists p. apply in_app_or in Hin as [Hin|[<-|Hin]]; [|done|];
      (split_and!; [|done|by apply Hne; auto|done]); apply in_or_app; simpl; auto.
  - intros (p & Hin & Hacc & Hid & Hends). exists p. split_and!; try done.
    apply in_app_or in Hin as [Hin|[<-|Hin]]; [|done|]; apply in_or_app; simpl; auto.
Qed.

(** ** Owner facts *)
Lemma own_snoc e o next c k :
  own (with_owners (ie_owners e ++ [o]) next e) c k =
  if bool_decide (ow_device_id o ∈ c) && bool_decide (ow_key o = k) then Some o else own e c k.
Proof. unfold own. simpl. by rewrite rev_unit. Qed.

(** Owner facts are authoritative until cleared: after the owner sets or clears a key of a
    device, every member of the merge component answers with the new value (none when cleared),
    the other keys are untouched, and nothing else of the engine but the owner history changes. *)
Theorem owner_fact_is_authoritative u e id key value at_ e' c d :
  ident_inv e -> owner u e id key value at_ = (Ok tt, e') -> component u e id = Ok c -> d ∈ c ->
  exists c', component u e' d = Ok c' /\ own_value e' c' key = value /\
    (forall k, k <> key -> own_value e' c' k = own_value e c' k) /\
    e' = with_owners (ie_owners e') (ie_next_owner e') e /\ exists o, ie_owners e' = ie_owners e ++ [o].
Proof.
  unfold owner, resolve. intros Hi Ho Hc Hd. rewrite Hc in Ho. simpl in Ho.
  destruct (_ || _); [done|]. destruct (Nat.leb _ _); [done|].
  destruct (checked_add_u64 _ _) as [next|]; [|done]. injection Ho as <-.
  pose proof (component_members_known _ _ _ _ Hi Hc) as Hk. rewrite Forall_forall in Hk.
  destruct (component_total _ _ _ _ _ Hc (Hk d Hd)) as [c' Hc']. exists c'.
  assert (canon u c ∈ c') as Hroot.
  { pose proof (canon_in _ _ _ _ Hc) as Hin. apply component_spec in Hc as (_ & Hc & _), Hc' as (_ & Hc' & _).
    apply Hc'. apply Hc in Hd, Hin. eapply rtc_trans; [by apply rtc_step_sym|done]. }
  unfold own_value. split_and!; [done| | |done|by eexists].
  - rewrite own_snoc. simpl. rewrite !bool_decide_eq_true_2 by done. done.
  - intros k Hne. rewrite own_snoc. simpl. rewrite (bool_decide_eq_false_2 (key = k)) by congruence.
    by rewrite andb_false_r.
Qed.

(** ** Failed operations *)

(** The only change from [e] to [e'] is that some devices lost facts expired at [now]. *)
Definition pruned_at (now : DateTime) (e e' : IdentityEngine) : Prop :=
  e' = with_facts (ie_facts e') e /\
  forall d, ie_facts e' !! d = ie_facts e !! d \/
            ie_facts e' !! d = retain (live now) <$> ie_facts e !! d.

Lemma pruned_refl now e : pruned_at now e e.
Proof. split; [by destruct e|]. by left. Qed.

Lemma append_facts_failed u e id fs now x e' :
  append_facts u e id fs now = (Err x, e') -> pruned_at now e e'.
Proof.
  unfold append_facts. destruct (prune_expired u e id now) as [e1|] eqn:Hp.
  2:{ intros [= <- <-]. apply pruned_refl. }
  apply prune_expired_ok in Hp as (c & Hc & He & Hd & Hl).
  assert (pruned_at now e e1) as Hpr.
  { split; [done|]. intros d. rewrite Hl. case_decide; [by right|left]. by destruct (ie_facts e !! d). }
  destruct (preadd _ _ _ _ _); [|by intros [= <- <-]].
  destruct (ie_facts e1 !! id); [done|by intros [= <- <-]].
Qed.

Lemma enroll_failed e incoming matches x e' : enroll e incoming matches = (Err x, e') -> e' = e.
Proof. unfold enroll. repeat case_match; by intros [= _ <-]. Qed.

Lemma observe_failed u e id fs now x e' :
  observe_at u e id fs now = (Err x, e') -> pruned_at now e e'.
Proof.
  unfold observe_at. destruct (prepare _ _) as [fs'|]; [|intros [= <- <-]; apply pruned_refl].
  destruct id as [alias|].
  - destruct (resolve u e alias); [|intros [= <- <-]; apply pruned_refl].
    destruct (append_facts _ _ _ _ _) as [[] e1] eqn:Ha; [done|]. intros [= <- <-].
    by eapply append_facts_failed.
  - unfold observe_unknown. destruct (_ || _); [intros [= <- <-]; apply pruned_refl|].
    destruct (result_bind _ _) as [found|]; [|intros [= <- <-]; apply pruned_refl]. cbv zeta.
    destruct (merge_sort _ found) as [|[r [any [] score fams reasons]] [|y l]];
      try (intros ->%enroll_failed; apply pruned_refl).
    destruct (append_facts _ _ _ _ _) as [[] e1] eqn:Ha; [done|]. intros [= <- <-].
    by eapply append_facts_failed.
Qed.

(** Failures are harmless: an operation that fails leaves the engine as it was, except that
    adding evidence may already have dropped facts whose expiry has passed. *)
Theorem failed_identity_op_only_prunes `{Calendar} u e o e' :
  run_identity_op u e o = (false, e') ->
  match o with
  | OpObserve _ _ now | OpAddFacts _ _ now => pruned_at now e e'
  | _ => e' = e
  end.
Proof.
  destruct o; simpl.
  - destruct (observe_at _ _ _ _ _) as [[] e1] eqn:E; [done|]. intros [= <-]. by eapply observe_failed.
  - unfold add_facts_at. destruct (prepare _ _); [|intros [= <-]; apply pruned_refl].
    destruct (append_facts _ _ _ _ _) as [[] e1] eqn:E; [done|]. intros [= <-].
    by eapply append_facts_failed.
  - unfold evict_stale_at. repeat case_match; intros; by simplify_eq.
  - unfold owner. repeat case_match; intros; by simplify_eq.
  - unfold propose_merge, insert_prop. repeat case_match; intros; by simplify_eq.
  - unfold decide_merge. repeat case_match; intros; by simplify_eq.
  - unfold undo. repeat case_match; intros; by simplify_eq.
Qed.

(** ** Eviction *)
Section Eviction.
Context (u : DeviceId -> string) (e : IdentityEngine).
Hypothesis Hi : ident_inv e.

Lemma components_cover cs d : components u e = Ok cs -> known e d -> exists c, In c cs /\ d ∈ c.
Proof.
  unfold components. destruct (Nat.ltb _ _); [done|]. intros Hl Hk.
  assert (d ∈ sort_ids u (map fst (map_to_list (ie_facts e)))) as Hd.
  { unfold sort_ids. rewrite merge_sort_Permutation. destruct Hk as [l Hk].
    apply list_elem_of_In, in_map_iff. exists (d, l). split; [done|].
    by apply list_elem_of_In, elem_of_map_to_list. }
  revert Hl Hd. generalize (sort_ids u (map fst (map_to_list (ie_facts e)))) as ids. intros ids Hl Hd.
  assert (d ∈ (∅ : gset DeviceId) \/ exists c, In c cs /\ d ∈ c) as [Hx|]; [|set_solver|done].
  revert Hl. generalize (∅ : gset DeviceId) as seen. revert cs.
  induction ids as [|id ids IH]; intros cs seen; [by apply elem_of_nil in Hd|]. simpl.
  apply elem_of_cons in Hd. case_bool_decide as Hs.
  - intros Hl. destruct Hd as [->|Hd]; [by left|by apply IH].
  - intros (c & Hc & (out & Hout & [= <-])%result_bind_ok)%result_bind_ok. destruct Hd as [->|Hd].
    + right. exists c. split; [by left|]. apply component_spec in Hc as (_ & Hin & _). apply Hin. constructor.
    + destruct (IH Hd out _ Hout) as [[Hx|Hx]%elem_of_union|(c' & Hc' & Hx)]; [|by left|].
      * right. exists c. split; [by left|]. by apply elem_of_list_to_set in Hx.
      * right. exists c'. split; [by right|done].
Qed.

(** The members of the component around [d]. *)
Lemma component_of cs c d :
  components u e = Ok cs -> In c cs -> d ∈ c -> forall y, y ∈ c <-> connected e d y.
Proof.
  intros Hcs Hin Hd. destruct (components_in _ _ _ _ Hcs Hin) as [id Hid].
  apply component_spec in Hid as (_ & Hc & _). intros y. rewrite Hc. apply Hc in Hd. split; intros Hy.
  - eapply rtc_trans; [by apply rtc_step_sym|done].
  - by eapply rtc_trans.
Qed.

Definition expired (now cutoff : DateTime) (f : EvidenceFact) : Prop :=
  live now f = false /\ ef_observed_at f < cutoff.

(** No live or recent evidence, no owner record and no pending proposal around [d]. *)
Definition stale (now cutoff : DateTime) (d : DeviceId) : Prop :=
  (forall d', connected e d d' -> Forall (expired now cutoff) (facts_of e d')) /\
  (forall o, In o (ie_owners e) -> ~ connected e d (ow_device_id o)) /\
  (forall p, In p (ie_proposals e) -> mp_status p = Pending ->
     ~ connected e d (mp_left p) /\ ~ connected e d (mp_right p)).

Lemma evictable_stale cs c d now cutoff :
  components u e = Ok cs -> In c cs -> d ∈ c -> (evictable e now cutoff c = true <-> stale now cutoff d).
Proof.
  intros Hcs Hin Hd. pose proof (component_of _ _ _ Hcs Hin Hd) as Hm.
  unfold evictable, stale. cbv zeta. rewrite !andb_true_iff, !negb_true_iff, Logic.and_assoc.
  rewrite !existsb_false_forall, forallb_forall, !List.Forall_forall. f_equiv; [|f_equiv].
  - split.
    + intros Hall d' Hd'. apply Hm in Hd'. specialize (Hall d' (proj1 (list_elem_of_In _ _) Hd')).
      rewrite forallb_forall in Hall. apply List.Forall_forall. intros f Hf. specialize (Hall f Hf).
      bprop. by split.
    + intros Hall d' Hd'. apply forallb_forall. intros f Hf.
      specialize (Hall d' (proj1 (Hm _) (proj2 (list_elem_of_In _ _) Hd'))).
      rewrite List.Forall_forall in Hall. destruct (Hall f Hf) as [Hl Ho]. rewrite Hl. simpl. lia.
  - split; intros Hall o Ho; specialize (Hall o Ho).
    + apply bool_decide_eq_false in Hall. by rewrite <- Hm.
    + apply bool_decide_eq_false. by rewrite Hm.
  - split.
    + intros Hall p Hp Hs. specialize (Hall p Hp). rewrite bool_decide_eq_true_2 in Hall by done.
      apply orb_false_iff in Hall as [H1 H2]. apply bool_decide_eq_false in H1, H2. by rewrite <- !Hm.
    + intros Hall p Hp. case_bool_decide as Hs; [|done]. destruct (Hall p Hp Hs) as [H1 H2].
      rewrite <- Hm in H1, H2. by rewrite !bool_decide_eq_false_2.
Qed.

(** Eviction removes exactly the stale devices: a device goes if and only if it is known
    and nothing in its merge component is live or newer than the cutoff, annotated by the
    owner, or waiting for a merge decision; every other device keeps all its facts. *)
Theorem eviction_is_exact `{Calendar} now retention gone e' :
  evict_stale_at u e now retention = (Ok gone, e') ->
  (forall d, d ∈ gone <-> known e d /\ stale now (now - retention) d) /\
  (forall d, ie_facts e' !! d = if decide (d ∈ gone) then None else ie_facts e !! d).
Proof.
  unfold evict_stale_at. destruct (checked_add_signed _ _) as [cutoff|] eqn:Hcut; [|done].
  apply checked_add_some in Hcut as [-> _]. destruct (components u e) as [cs|] eqn:Hcs; [|done]. cbv zeta.
  set (evicted := concat _).
  assert (forall d, d ∈ evicted <-> known e d /\ stale now (now - retention) d) as Hev.
  { intros d. unfold evicted. rewrite list_elem_of_In, in_concat. split.
    - intros (c & [Hc Hx]%filter_In & Hd). apply list_elem_of_In in Hd.
      apply (evictable_stale cs c d) in Hx; [|done..]. split; [|done].
      destruct (components_in _ _ _ _ Hcs Hc) as [id Hid].
      pose proof (component_members_known _ _ _ _ Hi Hid) as Hk. rewrite Forall_forall in Hk. auto.
    - intros [Hk Hst]. destruct (components_cover _ _ Hcs Hk) as (c & Hc & Hd). exists c.
      split; [|by apply list_elem_of_In]. apply filter_In. split; [done|].
      by apply (evictable_stale cs c d). }
  case_bool_decide as Hnil; intros [= <- <-].
  - split; [done|]. intros d. rewrite decide_False; [done|]. rewrite Hnil. apply not_elem_of_nil.
  - assert (forall d, d ∈ sort_ids u evicted <-> d ∈ evicted) as Hs.
    { intros d. unfold sort_ids. by rewrite merge_sort_Permutation. }
    split; [intros d; by rewrite Hs|]. intros d. unfold forget. simpl. case_decide as Hd.
    + apply map_lookup_filter_None. right. intros l _ Hn. apply Hn.
      by apply elem_of_list_to_set, Hs.
    + destruct (ie_facts e !! d) as [l|] eqn:Hl; [|apply map_lookup_filter_None; by left].
      apply map_lookup_filter_Some. split; [done|]. by rewrite elem_of_list_to_set, <- Hs.
Qed.
End Eviction.
