(* ===== verification/IdentityCheckpoint.v ===== *)
(** * The identity engine: checkpoints

    [checkpoint] and the validating [from_checkpoint] of lib.rs. Each loop of
    [from_checkpoint] is one definition. The loop over the edge map reads it in the order of
    [map_to_list]; the order only decides which of two errors is reported first. *)

From S2P Require Import Prelude Time Text F32 Domain Identity.

Record IdentityCheckpointEdge := {
  ce_proposal_id : Z;
  ce_left : DeviceId;
  ce_right : DeviceId;
  ce_active : bool
}.

Record IdentityCheckpoint := {
  ic_version : Z;
  ic_ids : list DeviceId;
  ic_facts : list (DeviceId * list EvidenceFact);
  ic_proposals : list MergeProposal;
  ic_edges : list IdentityCheckpointEdge;
  ic_audit : list AuditRecord;
  ic_owners : list OwnerAuditRecord;
  ic_next_proposal : Z;
  ic_next_owner : Z
}.

Definition edge_le (a b : IdentityCheckpointEdge) : Prop := ce_proposal_id a <= ce_proposal_id b.
#[global] Instance edge_le_dec : RelDecision edge_le.
Proof. intros a b. unfold edge_le. apply _. Defined.

Definition checkpoint_edge (x : Z * Edge) : IdentityCheckpointEdge :=
  {| ce_proposal_id := fst x; ce_left := eg_a (snd x); ce_right := eg_b (snd x);
     ce_active := eg_active (snd x) |}.

Definition invalid (what : string) : IdentityError := InvalidCheckpoint what.

Section Checkpoint.
Context (uuid_to_string : DeviceId -> string).

Definition entry_le (a b : DeviceId * list EvidenceFact) : Prop :=
  id_le uuid_to_string (fst a) (fst b).
#[global] Instance entry_le_dec : RelDecision entry_le.
Proof. intros a b. unfold entry_le. apply _. Defined.

Definition checkpoint (e : IdentityEngine) : IdentityCheckpoint := {|
  ic_version := 1; ic_ids := ie_ids e;
  ic_facts := merge_sort entry_le (map_to_list (ie_facts e));
  ic_proposals := ie_proposals e;
  ic_edges := merge_sort edge_le (map checkpoint_edge (map_to_list (ie_edges e)));
  ic_audit := ie_audit e; ic_owners := ie_owners e;
  ic_next_proposal := ie_next_proposal e; ic_next_owner := ie_next_owner e |}.
End Checkpoint.

Fixpoint restore_ids (l : list DeviceId) (seen : gset DeviceId)
  : result (gset DeviceId) IdentityError :=
  match l with
  | [] => Ok seen
  | id :: l' => if bool_decide (id ∈ seen) then Err (invalid "duplicate id")
                else restore_ids l' ({[id]} ∪ seen)
  end.

Definition time_reversed (f : EvidenceFact) : bool :=
  is_some_and (fun x => x <? ef_observed_at f) (ef_expires_at f).

Fixpoint restore_facts (c : IdentityConfig) (l : list (DeviceId * list EvidenceFact))
    (seen : gset DeviceId) (acc : gmap DeviceId (list EvidenceFact))
  : result (gmap DeviceId (list EvidenceFact)) IdentityError :=
  match l with
  | [] => Ok acc
  | (id, fs) :: l' =>
    if bool_decide (id ∈ seen) || Nat.ltb (max_facts_per_device c) (length fs)
    then Err (invalid "duplicate or facts")
    else
      let? fs' := prepare c fs in
      if existsb time_reversed fs' then Err (invalid "fact time")
      else restore_facts c l' ({[id]} ∪ seen) (<[id := fs']> acc)
  end.

Section Restore.
Context (known : gmap DeviceId (list EvidenceFact)).

Definition is_known (d : DeviceId) : bool := is_some_and (fun _ => true) (known !! d).

Fixpoint check_proposals (l : list MergeProposal) : result unit IdentityError :=
  match l with
  | [] => Ok tt
  | p :: l' =>
    if (mp_id p =? 0) || negb (is_known (mp_left p)) || negb (is_known (mp_right p))
       || bool_decide (mp_left p = mp_right p)
    then Err (invalid "proposal")
    else let? _ := validprop (mp_score p) (mp_families p) (mp_reasons p) in check_proposals l'
  end.

Fixpoint check_sequence (l : list MergeProposal) (last : Z) : result Z IdentityError :=
  match l with
  | [] => Ok last
  | p :: l' => if mp_id p <=? last then Err (invalid "proposal sequence")
               else check_sequence l' (mp_id p)
  end.

Fixpoint restore_edges (l : list IdentityCheckpointEdge) (acc : gmap Z Edge)
  : result (gmap Z Edge) IdentityError :=
  match l with
  | [] => Ok acc
  | g :: l' =>
    if negb (bool_decide (acc !! ce_proposal_id g = None))
       || negb (is_known (ce_left g)) || negb (is_known (ce_right g))
    then Err (invalid "edge")
    else restore_edges l' (<[ce_proposal_id g :=
           {| eg_a := ce_left g; eg_b := ce_right g; eg_active := ce_active g |}]> acc)
  end.

Fixpoint check_owners (c : IdentityConfig) (l : list OwnerAuditRecord) (seq : Z)
  : result Z IdentityError :=
  match l with
  | [] => Ok seq
  | o :: l' =>
    if (ow_sequence o =? 0) || (ow_sequence o <=? seq) || negb (is_known (ow_device_id o))
       || str_is_empty (ow_key o) || Nat.ltb (max_key_len c) (String.length (ow_key o))
       || is_some_and (fun v => str_is_empty v || Nat.ltb (max_value_len c) (String.length v))
            (ow_value o)
       || negb (canonical_key (ow_key o))
    then Err (invalid "owner audit")
    else check_owners c l' (ow_sequence o)
  end.
End Restore.

Definition allowed_step (before action : ProposalStatus) : bool :=
  match before, action with
  | Pending, (Accepted | Rejected) | Accepted, Undone => true
  | _, _ => false
  end.

Fixpoint check_audit (proposals : list MergeProposal) (l : list AuditRecord)
    (prior : gmap Z ProposalStatus) : result (gmap Z ProposalStatus) IdentityError :=
  match l with
  | [] => Ok prior
  | a :: l' =>
    match iter_find (fun p => mp_id p =? au_proposal_id a) proposals with
    | None => Err (invalid "audit target")
    | Some p =>
      if negb (allowed_step (default Pending (prior !! au_proposal_id a)) (au_action a))
         || (bool_decide (mp_status p <> au_action a)
             && negb (bool_decide (au_action a = Accepted) && bool_decide (mp_status p = Undone)))
      then Err (invalid "audit chronology")
      else check_audit proposals l' (<[au_proposal_id a := au_action a]> prior)
    end
  end.

Fixpoint check_statuses (prior : gmap Z ProposalStatus) (l : list MergeProposal)
  : result unit IdentityError :=
  match l with
  | [] => Ok tt
  | p :: l' =>
    if bool_decide (default Pending (prior !! mp_id p) <> mp_status p)
    then Err (invalid "proposal audit state") else check_statuses prior l'
  end.

Definition decided (s : ProposalStatus) : bool :=
  match s with Accepted | Undone => true | _ => false end.

Fixpoint check_edges (proposals : list MergeProposal) (l : list (Z * Edge))
  : result unit IdentityError :=
  match l with
  | [] => Ok tt
  | (id, g) :: l' =>
    match iter_find (fun p => mp_id p =? id) proposals with
    | None => Err (invalid "edge target")
    | Some p =>
      if negb (Bool.eqb (eg_active g) (bool_decide (mp_status p = Accepted)))
         || bool_decide (eg_a g <> mp_left p) || bool_decide (eg_b g <> mp_right p)
         || negb (decided (mp_status p))
      then Err (invalid "edge status") else check_edges proposals l'
    end
  end.

Fixpoint check_decided (edges : gmap Z Edge) (l : list MergeProposal) : result unit IdentityError :=
  match l with
  | [] => Ok tt
  | p :: l' =>
    match mp_status p, edges !! mp_id p with
    | Accepted, None => Err (invalid "accepted edge")
    | Undone, None => Err (invalid "undone edge")
    | (Pending | Rejected), Some _ => Err (invalid "unexpected edge")
    | _, _ => check_decided edges l'
    end
  end.

Definition from_checkpoint (c : IdentityConfig) (k : IdentityCheckpoint)
  : result IdentityEngine IdentityError :=
  let? _ := valid c in
  if negb (ic_version k =? 1) then Err (invalid "version")
  else if (ic_next_proposal k =? 0) || (ic_next_owner k =? 0)
          || Nat.ltb (max_devices c) (length (ic_ids k))
          || Nat.ltb (max_devices c) (length (ic_facts k))
          || Nat.ltb (max_proposals c) (length (ic_proposals k))
          || Nat.ltb (max_merge_edges c) (length (ic_edges k))
          || Nat.ltb (max_audit_records c) (length (ic_audit k))
          || Nat.ltb (max_audit_records c) (length (ic_owners k))
  then Err (invalid "capacity or sequence")
  else
    let? seen := restore_ids (ic_ids k) ∅ in
    let? facts := restore_facts c (ic_facts k) seen ∅ in
    if Nat.ltb (max_devices c) (size facts + length (ic_ids k)) then Err (invalid "device capacity")
    else
      let? _ := check_proposals facts (ic_proposals k) in
      let? last := check_sequence (ic_proposals k) 0 in
      let? edges := restore_edges facts (ic_edges k) ∅ in
      let? seq := check_owners facts c (ic_owners k) 0 in
      if (ic_next_owner k <=? seq) || (ic_next_proposal k <=? last)
      then Err (invalid "next sequence")
      else
        let? prior := check_audit (ic_proposals k) (ic_audit k) ∅ in
        let? _ := check_statuses prior (ic_proposals k) in
        let? _ := check_edges (ic_proposals k) (map_to_list edges) in
        let? _ := check_decided edges (ic_proposals k) in
        Ok {| ie_cfg := c; ie_ids := ic_ids k; ie_facts := facts; ie_proposals := ic_proposals k;
              ie_edges := edges; ie_audit := ic_audit k; ie_owners := ic_owners k;
              ie_next_proposal := ic_next_proposal k; ie_next_owner := ic_next_owner k |}.
