(* ===== verification/IdentityRestore.v ===== *)
(** * The identity engine: what restoring a checkpoint promises

    Each stage of [from_checkpoint] is characterised by the property it checks; together they
    give that a restored engine satisfies the engine invariant, and exactly which engines are
    restored from their own checkpoints. *)

From stdpp Require Import pretty.
From S2P Require Import Prelude Time Text F32 Domain Identity IdentityGraph IdentityMatch.
From S2P Require Import IdentityMac IdentityProps IdentityTheorems IdentityCheckpoint.

(** ** The stages *)
Lemma result_bind_iff {A B E} (c : result A E) (k : A -> result B E) b :
  result_bind c k = Ok b <-> exists a, c = Ok a /\ k a = Ok b.
Proof. split; [apply result_bind_ok|]. intros (a & -> & Hk). done. Qed.

Lemma restore_ids_iff l seen s :
  restore_ids l seen = Ok s <->
  NoDup l /\ Forall (fun d => d ∉ seen) l /\ s = list_to_set l ∪ seen.
Proof.
  revert seen. induction l as [|d l IH]; intros seen; simpl.
  - split; [intros [= <-]; split_and!; [constructor..|set_solver]|].
    intros (_ & _ & ->). f_equal. set_solver.
  - rewrite NoDup_cons, Forall_cons. case_bool_decide as Hd; [naive_solver|]. rewrite IH.
    rewrite !Forall_forall. setoid_rewrite not_elem_of_union. setoid_rewrite elem_of_singleton. split.
    + intros (Hn & Hall & ->). split_and!; [|done|done| |set_solver].
      * intros Hin. by destruct (Hall d Hin).
      * intros x Hx. apply (Hall x Hx).
    + intros ([Hdl Hn] & [_ Hall] & ->). split_and!; [done| |set_solver].
      intros x Hx. split; [by intros ->|auto].
Qed.

(** One device of the checkpoint and what is stored for it. *)
Definition restored_as (c : IdentityConfig) (x y : DeviceId * list EvidenceFact) : Prop :=
  fst x = fst y /\ (length (snd x) <= max_facts_per_device c)%nat /\
  prepare c (snd x) = Ok (snd y) /\ Forall (fun f => time_reversed f = false) (snd y).

Lemma restored_keys c l l' : Forall2 (restored_as c) l l' -> map fst l' = map fst l.
Proof. induction 1 as [|x y ? ? Hxy _ IH]; [done|]. simpl. f_equal; [symmetry; apply Hxy|apply IH]. Qed.

Lemma list_to_map_insert {K A} `{Countable K} (l : list (K * A)) (m : gmap K A) k a :
  k ∉ map fst l -> list_to_map l ∪ <[k := a]> m = list_to_map ((k, a) :: l) ∪ m.
Proof.
  intros Hk. simpl. rewrite <- insert_union_l, insert_union_r; [done|]. by apply not_elem_of_list_to_map_1.
Qed.

Lemma restore_facts_iff c l seen acc m :
  restore_facts c l seen acc = Ok m <->
  NoDup (map fst l) /\ Forall (fun d => d ∉ seen) (map fst l) /\
  exists l', Forall2 (restored_as c) l l' /\ m = list_to_map l' ∪ acc.
Proof.
  revert seen acc. induction l as [|[d fs] l IH]; intros seen acc; simpl.
  { split.
    - intros [= <-]. split_and!; [constructor..|]. exists []. split; [constructor|]. symmetry. apply map_empty_union.
    - intros (_ & _ & l' & ->%Forall2_nil_inv_l & ->). f_equal. symmetry. apply map_empty_union. }
  rewrite NoDup_cons, Forall_cons.
  case_bool_decide as Hd; simpl; [naive_solver|]. destruct (Nat.ltb _ _) eqn:Hl.
  { apply Nat.ltb_lt in Hl. split; [done|].
    intros (_ & _ & l' & ([] & ? & (_ & ? & _) & _)%Forall2_cons_inv_l & _). simpl in *. lia. }
  apply Nat.ltb_ge in Hl. rewrite result_bind_iff. split.
  - intros (fs' & Hp & Hr). destruct (existsb _ _) eqn:Ht; [done|]. apply existsb_false_forall in Ht.
    apply IH in Hr as (Hn & Hs & l' & Hall & ->). rewrite Forall_forall in Hs.
    assert (d ∉ map fst l) as Hdl by (intros Hin; specialize (Hs d Hin); set_solver).
    split_and!; [done..|apply Forall_forall; set_solver|].
    exists ((d, fs') :: l'). split; [by constructor|]. apply list_to_map_insert.
    by rewrite (restored_keys _ _ _ Hall).
  - intros ([Hdl Hn] & [_ Hs] & ? & ([d' fs'] & l' & (Hd' & _ & Hp & Ht) & Hall & ->)%Forall2_cons_inv_l & ->).
    simpl in Hd', Hp, Ht. subst d'. exists fs'. split; [done|]. rewrite (proj2 (existsb_false_forall _ _) Ht).
    apply IH. rewrite !Forall_forall in *. split_and!; [done|set_solver|].
    exists l'. split; [done|]. rewrite list_to_map_insert; [done|]. by rewrite (restored_keys _ _ _ Hall).
Qed.

Lemma last_cons {A} (k : A) l z : List.last (k :: l) z = List.last l k.
Proof.
  revert k z. induction l as [|x l IH]; intros k z; [done|]. change (List.last (x :: l) z = List.last (x :: l) k).
  by rewrite !IH.
Qed.

Lemma increasing_cons z k l :
  StronglySorted Z.lt (z :: k :: l) <-> z < k /\ StronglySorted Z.lt (k :: l).
Proof.
  split.
  - by intros [? [? _]%Forall_cons]%StronglySorted_inv.
  - intros [Hz Hs]. constructor; [done|]. pose proof Hs as [_ Hf]%StronglySorted_inv.
    constructor; [done|]. eapply Forall_impl; [exact Hf|]. simpl. lia.
Qed.

Lemma increasing_last z l : StronglySorted Z.lt (z :: l) -> Forall (fun k => k <= List.last l z) l /\ z <= List.last l z.
Proof.
  revert z. induction l as [|k l IH]; intros z; [by split; [constructor|simpl; lia]|].
  rewrite increasing_cons, last_cons. intros [Hz [Hall Hk]%IH]. split; [by constructor|lia].
Qed.

(** ** Stages that look at the restored facts *)
Section Known.
Context (facts : gmap DeviceId (list EvidenceFact)).

Lemma is_known_true d : is_known facts d = true <-> is_Some (facts !! d).
Proof. unfold is_known. destruct (facts !! d); simpl; [naive_solver|]. split; [done|]. by intros []. Qed.

Definition proposal_ok (p : MergeProposal) : Prop :=
  mp_id p <> 0 /\ is_Some (facts !! mp_left p) /\ is_Some (facts !! mp_right p) /\
  mp_left p <> mp_right p /\ validprop (mp_score p) (mp_families p) (mp_reasons p) = Ok tt.

Lemma check_proposals_iff l : check_proposals facts l = Ok tt <-> Forall proposal_ok l.
Proof.
  induction l as [|p l IH]; simpl; [done|]. rewrite Forall_cons, <- IH. unfold proposal_ok.
  rewrite <- !is_known_true. destruct (_ || _ || _ || _) eqn:E.
  - split; [done|]. intros ((Hz & Hl & Hr & Hne & _) & _). apply Z.eqb_neq in Hz.
    rewrite Hz, Hl, Hr, bool_decide_eq_false_2 in E; done.
  - bprop. rewrite result_bind_iff. split; [intros ([] & ? & ?); done|]. intros ((_ & _ & _ & _ & ?) & ?). by exists tt.
Qed.

Lemma check_sequence_iff l last z :
  check_sequence l last = Ok z <->
  StronglySorted Z.lt (last :: map mp_id l) /\ z = List.last (map mp_id l) last.
Proof.
  revert last. induction l as [|p l IH]; intros last; cbn [map check_sequence].
  - split; [intros [= <-]; split; [by repeat constructor|done]|by intros [_ ->]].
  - rewrite increasing_cons, last_cons. destruct (_ <=? _) eqn:E; bprop; [|rewrite IH]; naive_solver lia.
Qed.

Definition edge_entry (g : IdentityCheckpointEdge) : Z * Edge :=
  (ce_proposal_id g, {| eg_a := ce_left g; eg_b := ce_right g; eg_active := ce_active g |}).

Lemma restore_edges_iff l acc m :
  restore_edges facts l acc = Ok m <->
  NoDup (map ce_proposal_id l) /\
  Forall (fun g => acc !! ce_proposal_id g = None /\ is_Some (facts !! ce_left g) /\
                   is_Some (facts !! ce_right g)) l /\
  m = list_to_map (map edge_entry l) ∪ acc.
Proof.
  assert (forall l, map fst (map edge_entry l) = map ce_proposal_id l) as Hk.
  { intros k. rewrite map_map. done. }
  revert acc. induction l as [|g l IH]; intros acc; simpl.
  { rewrite map_empty_union. split; [intros [= <-]|intros (_ & _ & ->)]; [|done]. by repeat constructor. }
  rewrite NoDup_cons, Forall_cons, <- !is_known_true. destruct (_ || _ || _) eqn:E.
  { split; [done|]. intros (_ & [(Ha & Hl & Hr) _] & _).
    rewrite bool_decide_eq_true_2, Hl, Hr in E; done. }
  bprop. rewrite IH. split.
  - intros (Hn & Hall & ->). rewrite Forall_forall in Hall.
    assert (ce_proposal_id g ∉ map ce_proposal_id l) as Hg.
    { intros (x & Hx & Hin)%list_elem_of_In%in_map_iff. destruct (Hall x) as [Ha _]; [by apply list_elem_of_In|].
      rewrite Hx, lookup_insert_eq in Ha. done. }
    split_and!; try done.
    + apply Forall_forall. intros x Hx. destruct (Hall x Hx) as [Ha ?]. split; [|done].
      by apply lookup_insert_None in Ha as [? _].
    + apply list_to_map_insert. by rewrite Hk.
  - intros ([Hg Hn] & [_ Hall] & ->). split_and!; [done| |].
    + rewrite Forall_forall in *. intros x Hx. destruct (Hall x Hx) as [Ha ?]. split; [|done].
      apply lookup_insert_None. split; [done|]. intros Heq. apply Hg. rewrite Heq. apply list_elem_of_In, in_map.
      by apply list_elem_of_In.
    + symmetry. apply list_to_map_insert. by rewrite Hk.
Qed.
End Known.

(** ** Owner records *)
Definition owner_record_ok (facts : gmap DeviceId (list EvidenceFact)) (c : IdentityConfig)
    (o : OwnerAuditRecord) : Prop :=
  is_Some (facts !! ow_device_id o) /\ (String.length (ow_key o) <= max_key_len c)%nat /\
  (forall v, ow_value o = Some v -> v <> EmptyString /\ (String.length v <= max_value_len c)%nat) /\
  canonical_key (ow_key o) = true.

Lemma canonical_nonempty k : canonical_key k = true -> str_is_empty k = false.
Proof. intros Hk. apply bool_decide_eq_false. intros ->. done. Qed.

Lemma owner_value_iff n (v : option string) :
  is_some_and (fun v => str_is_empty v || Nat.ltb n (String.length v)) v = false <->
  forall x, v = Some x -> x <> EmptyString /\ (String.length x <= n)%nat.
Proof.
  destruct v as [x|]; simpl; [|done]. rewrite orb_false_iff, Nat.ltb_ge. unfold str_is_empty.
  rewrite bool_decide_eq_false. naive_solver.
Qed.

Lemma check_owners_iff facts c l seq z :
  0 <= seq ->
  check_owners facts c l seq = Ok z <->
  StronglySorted Z.lt (seq :: map ow_sequence l) /\ Forall (owner_record_ok facts c) l /\
  z = List.last (map ow_sequence l) seq.
Proof.
  revert seq. induction l as [|o l IH]; intros seq Hseq; cbn [map check_owners].
  - split; [intros [= <-]; split_and!; [by repeat constructor|done..]|by intros (_ & _ & ->)].
  - rewrite increasing_cons, last_cons, Forall_cons. unfold owner_record_ok at 1.
    rewrite <- is_known_true, <- owner_value_iff. destruct (_ || _) eqn:E.
    + split; [done|]. intros ([Hlt _] & [(Hk & Hl & Hv & Hc) _] & _). exfalso.
      rewrite Hk, Hv, Hc, (canonical_nonempty _ Hc) in E. apply Nat.ltb_ge in Hl. rewrite Hl in E. simpl in E.
      rewrite !orb_false_r in E. apply orb_true_iff in E as [E|E]; bprop; lia.
    + bprop. match goal with H : Nat.ltb _ _ = false |- _ => apply Nat.ltb_ge in H end.
      rewrite IH by lia. naive_solver lia.
Qed.

(** ** The audit trail *)
Fixpoint path (s : ProposalStatus) (l : list ProposalStatus) : Prop :=
  match l with
  | [] => True
  | a :: l' => allowed_step s a = true /\ path a l'
  end.

(** The paths of the status machine from [Pending] are the trails of the statuses. *)
Lemma path_trail acts s : path Pending acts /\ List.last acts Pending = s <-> acts = trail s.
Proof.
  split.
  - destruct acts as [|[] [|[] [|[] acts]]]; intros [Hp <-]; simpl in *; intuition discriminate.
  - intros ->. by destruct s.
Qed.

(** A status that a later state of the proposal may still show. *)
Definition audit_ok (proposals : list MergeProposal) (a : AuditRecord) : Prop :=
  exists p, iter_find (fun p => mp_id p =? au_proposal_id a) proposals = Some p /\
            (mp_status p = au_action a \/ (au_action a = Accepted /\ mp_status p = Undone)).

Definition replay (l : list AuditRecord) (prior : gmap Z ProposalStatus) : gmap Z ProposalStatus :=
  fold_left (fun m a => <[au_proposal_id a := au_action a]> m) l prior.

Lemma actions_cons id a l :
  actions id (a :: l) = (if au_proposal_id a =? id then [au_action a] else []) ++ actions id l.
Proof. unfold actions. simpl. by destruct (_ =? _). Qed.

Lemma replay_lookup l prior id :
  default Pending (replay l prior !! id) = List.last (actions id l) (default Pending (prior !! id)).
Proof.
  revert prior. induction l as [|a l IH]; intros prior; [done|]. unfold replay in *. simpl.
  rewrite IH, actions_cons. destruct (_ =? _) eqn:E; bprop.
  - rewrite E, lookup_insert_eq. simpl ([_] ++ _). by rewrite last_cons.
  - by rewrite lookup_insert_ne.
Qed.

Lemma check_audit_iff ps l prior m :
  check_audit ps l prior = Ok m <->
  Forall (audit_ok ps) l /\ (forall id, path (default Pending (prior !! id)) (actions id l)) /\
  m = replay l prior.
Proof.
  revert prior. induction l as [|a l IH]; intros prior; cbn [check_audit].
  { unfold replay. simpl. naive_solver. }
  rewrite Forall_cons. unfold audit_ok at 1. destruct (iter_find _ ps) as [p|]; [|naive_solver].
  assert ((forall id, path (default Pending (prior !! id)) (actions id (a :: l))) <->
          allowed_step (default Pending (prior !! au_proposal_id a)) (au_action a) = true /\
          forall id, path (default Pending (<[au_proposal_id a := au_action a]> prior !! id)) (actions id l)) as Hpath.
  { split.
    - intros Hall. split; [by specialize (Hall (au_proposal_id a)); rewrite actions_cons, Z.eqb_refl in Hall; apply Hall|].
      intros id. specialize (Hall id). rewrite actions_cons in Hall. destruct (_ =? _) eqn:E; bprop.
      + subst. rewrite lookup_insert_eq. apply Hall.
      + by rewrite lookup_insert_ne.
    - intros [Hs Hall] id. specialize (Hall id). rewrite actions_cons. destruct (_ =? _) eqn:E; bprop.
      + subst. rewrite lookup_insert_eq in Hall. by split.
      + by rewrite lookup_insert_ne in Hall. }
  rewrite Hpath. destruct (_ || _) eqn:E.
  - split; [done|]. intros ([(q & [= <-] & Hq) _] & [Hs _] & _). rewrite Hs in E. simpl in E.
    repeat case_bool_decide; naive_solver.
  - rewrite IH. apply orb_false_iff in E as [Hs%negb_false_iff E]. unfold replay. simpl.
    assert (mp_status p = au_action a \/ au_action a = Accepted /\ mp_status p = Undone).
    { repeat case_bool_decide; naive_solver. }
    naive_solver.
Qed.

Lemma check_statuses_iff prior l :
  check_statuses prior l = Ok tt <->
  Forall (fun p => default Pending (prior !! mp_id p) = mp_status p) l.
Proof.
  induction l as [|p l IH]; simpl; [done|]. rewrite Forall_cons, <- IH.
  case_bool_decide; naive_solver.
Qed.

(** ** Proposals by number *)
Section Numbered.
Context (ps : list MergeProposal) (Hs : StronglySorted Z.lt (map mp_id ps)).

Lemma find_numbered id p :
  iter_find (fun p => mp_id p =? id) ps = Some p <-> In p ps /\ mp_id p = id.
Proof using Hs.
  split; [by intros [? ?%Z.eqb_eq]%iter_find_some|]. intros [Hp Hid].
  destruct (iter_find _ ps) as [q|] eqn:E.
  - apply iter_find_some in E as [Hq Hqid]. bprop. f_equal. eapply (sorted_unique mp_id); eauto. congruence.
  - apply iter_find_none in E. rewrite List.Forall_forall in E. specialize (E p Hp). simpl in E. lia.
Qed.

Lemma actions_in s id l : s ∈ actions id l <-> exists a, In a l /\ au_proposal_id a = id /\ au_action a = s.
Proof.
  unfold actions. rewrite list_elem_of_In, in_map_iff. split.
  - intros (a & <- & [Ha Hid]%filter_In). bprop. by exists a.
  - intros (a & Ha & Hid & <-). exists a. split; [done|]. apply filter_In. split; [done|]. by apply Z.eqb_eq.
Qed.

(** The replayed audit trail ends in the proposals' statuses exactly when each proposal has
    the trail of its status and no record is foreign. *)
Lemma audit_iff l :
  (exists prior, check_audit ps l ∅ = Ok prior /\ check_statuses prior ps = Ok tt) <->
  Forall (fun p => actions (mp_id p) l = trail (mp_status p)) ps /\
  Forall (fun a => In (au_proposal_id a) (map mp_id ps)) l.
Proof using Hs.
  setoid_rewrite check_audit_iff. setoid_rewrite check_statuses_iff. split.
  - intros (? & (Hok & Hpath & ->) & Hst). split.
    + rewrite List.Forall_forall in *. intros p Hp. apply path_trail. specialize (Hst p Hp). simpl in Hst.
      rewrite replay_lookup in Hst. split; [apply (Hpath (mp_id p))|done].
    + eapply Forall_impl; [exact Hok|]. simpl. intros a (p & [Hp <-]%find_numbered & _). by apply in_map.
  - rewrite !List.Forall_forall. intros [Ht Ha]. exists (replay l ∅). rewrite !List.Forall_forall. split_and!; [| |done|].
    + intros a Hin. specialize (Ha a Hin) as (p & Hid & Hp)%in_map_iff. exists p.
      split; [by apply find_numbered|].
      assert (au_action a ∈ trail (mp_status p)) as Hx by (rewrite <- Ht, actions_in by done; eauto).
      destruct (mp_status p); set_solver.
    + intros id. rewrite lookup_empty. simpl. destruct (actions id l) as [|s acts] eqn:E; [done|].
      assert (s ∈ actions id l) as (a & Hin & Hid & _)%actions_in by (rewrite E; by left).
      specialize (Ha a Hin) as (p & Hpid & Hp)%in_map_iff. rewrite <- E.
      replace id with (mp_id p) by congruence. by eapply path_trail, Ht.
    + intros p Hp. rewrite replay_lookup, lookup_empty, (Ht p Hp). by destruct (mp_status p).
Qed.

Lemma edge_matches p g :
  negb (Bool.eqb (eg_active g) (bool_decide (mp_status p = Accepted)))
    || bool_decide (eg_a g <> mp_left p) || bool_decide (eg_b g <> mp_right p)
    || negb (decided (mp_status p)) = false <-> edge_of p = Some g.
Proof.
  unfold edge_of. destruct g as [a b act]. simpl.
  destruct (decide (a = mp_left p)) as [->|Ha], (decide (b = mp_right p)) as [->|Hb];
    destruct (mp_status p), act; simpl; repeat case_bool_decide; naive_solver.
Qed.

Lemma check_edges_iff l :
  check_edges ps l = Ok tt <->
  Forall (fun x => exists p, In p ps /\ mp_id p = fst x /\ edge_of p = Some (snd x)) l.
Proof using Hs.
  induction l as [|[id g] l IH]; cbn [check_edges]; [done|]. rewrite Forall_cons, <- IH. simpl.
  destruct (iter_find _ ps) as [p|] eqn:E.
  - apply find_numbered in E as [Hp Hid]. destruct (_ || _) eqn:Hm.
    + split; [done|]. intros [(q & Hq & Hqid & Hg%edge_matches) _].
      replace q with p in Hg by (eapply (sorted_unique mp_id); eauto; congruence). by rewrite Hg in Hm.
    + apply edge_matches in Hm. naive_solver.
  - split; [done|]. intros [(q & Hq & Hqid & _) _].
    by rewrite (proj2 (find_numbered id q) (conj Hq Hqid)) in E.
Qed.

Lemma check_decided_iff m l :
  check_decided m l = Ok tt <->
  Forall (fun p => is_Some (m !! mp_id p) <-> is_Some (edge_of p)) l.
Proof.
  induction l as [|p l IH]; cbn [check_decided]; [done|]. rewrite Forall_cons, <- IH. unfold edge_of.
  destruct (mp_status p), (m !! mp_id p) as [g|]; unfold is_Some; naive_solver.
Qed.

(** The edge checks of [from_checkpoint] say that the edges are those of the proposals. *)
Lemma edges_iff (m : gmap Z Edge) :
  check_edges ps (map_to_list m) = Ok tt /\ check_decided m ps = Ok tt <->
  forall id g, m !! id = Some g <-> exists p, In p ps /\ mp_id p = id /\ edge_of p = Some g.
Proof using Hs.
  rewrite check_edges_iff, check_decided_iff, !List.Forall_forall. split.
  - intros [He Hd] id g. split.
    + intros Hm. apply (He (id, g)). by apply list_elem_of_In, elem_of_map_to_list.
    + intros (p & Hp & <- & Hg). destruct (proj2 (Hd p Hp)) as [g' Hg']; [by eexists|].
      destruct (He (mp_id p, g')) as (q & Hq & Hqid & Hqg); [by apply list_elem_of_In, elem_of_map_to_list|].
      simpl in *. rewrite (sorted_unique mp_id _ _ _ Hs Hq Hp Hqid) in Hqg. congruence.
  - intros Hm. split.
    + intros [id g] Hin. apply list_elem_of_In, elem_of_map_to_list in Hin. by apply Hm.
    + intros p Hp. split.
      * intros [g (q & Hq & Hqid & Hg)%Hm]. rewrite <- (sorted_unique mp_id _ _ _ Hs Hq Hp Hqid). by eexists.
      * intros [g Hg]. exists g. apply Hm. by exists p.
Qed.
End Numbered.

(** ** Restoring as a whole *)
Definition engine_of (c : IdentityConfig) (k : IdentityCheckpoint)
    (facts : list (DeviceId * list EvidenceFact)) : IdentityEngine := {|
  ie_cfg := c; ie_ids := ic_ids k; ie_facts := list_to_map facts; ie_proposals := ic_proposals k;
  ie_edges := list_to_map (map edge_entry (ic_edges k)); ie_audit := ic_audit k;
  ie_owners := ic_owners k; ie_next_proposal := ic_next_proposal k;
  ie_next_owner := ic_next_owner k |}.

(** What [from_checkpoint] checks, with the prepared facts it stores. *)
Record admissible (c : IdentityConfig) (k : IdentityCheckpoint)
    (facts : list (DeviceId * list EvidenceFact)) : Prop := {
  ad_cfg : valid c = Ok tt;
  ad_version : ic_version k = 1;
  ad_next : ic_next_proposal k <> 0 /\ ic_next_owner k <> 0;
  ad_sizes : (length (ic_ids k) <= max_devices c /\ length (ic_facts k) <= max_devices c /\
              length (ic_proposals k) <= max_proposals c /\
              length (ic_edges k) <= max_merge_edges c /\
              length (ic_audit k) <= max_audit_records c /\
              length (ic_owners k) <= max_audit_records c)%nat;
  ad_ids : NoDup (ic_ids k);
  ad_keys : NoDup (map fst (ic_facts k)) /\ Forall (fun d => d ∉ ic_ids k) (map fst (ic_facts k));
  ad_facts : Forall2 (restored_as c) (ic_facts k) facts;
  ad_devices : (size (ie_facts (engine_of c k facts)) + length (ic_ids k) <= max_devices c)%nat;
  ad_proposals : Forall (proposal_ok (list_to_map facts)) (ic_proposals k);
  ad_sorted : StronglySorted Z.lt (0 :: map mp_id (ic_proposals k));
  ad_last : List.last (map mp_id (ic_proposals k)) 0 < ic_next_proposal k;
  ad_edge_ids : NoDup (map ce_proposal_id (ic_edges k));
  ad_ends : Forall (fun g => known (engine_of c k facts) (ce_left g) /\
                             known (engine_of c k facts) (ce_right g)) (ic_edges k);
  ad_owner_sorted : StronglySorted Z.lt (0 :: map ow_sequence (ic_owners k));
  ad_owner_last : List.last (map ow_sequence (ic_owners k)) 0 < ic_next_owner k;
  ad_owners : Forall (owner_record_ok (list_to_map facts) c) (ic_owners k);
  ad_trail : Forall (fun p => actions (mp_id p) (ic_audit k) = trail (mp_status p)) (ic_proposals k);
  ad_audit : Forall (fun a => In (au_proposal_id a) (map mp_id (ic_proposals k))) (ic_audit k);
  ad_edges : forall id g, ie_edges (engine_of c k facts) !! id = Some g <->
               exists p, In p (ic_proposals k) /\ mp_id p = id /\ edge_of p = Some g
}.

Lemma increasing_tail z l : StronglySorted Z.lt (z :: l) -> StronglySorted Z.lt l.
Proof. by intros [? _]%StronglySorted_inv. Qed.

Lemma from_checkpoint_only c k e :
  from_checkpoint c k = Ok e -> exists facts, admissible c k facts /\ e = engine_of c k facts.
Proof.
  intros ([] & Hv & H)%result_bind_ok. destruct (negb _) eqn:Hver; [done|]. bprop.
  destruct (_ || _) eqn:Hc in H; [done|]. bprop.
  repeat match goal with X : Nat.ltb _ _ = false |- _ => apply Nat.ltb_ge in X end.
  apply result_bind_ok in H as (seen & (Hn & _ & ->)%restore_ids_iff & H).
  apply result_bind_ok in H as (facts & (Hk & Hks & l' & Hf & Hm)%restore_facts_iff & H).
  rewrite map_union_empty in Hm. subst facts. destruct (Nat.ltb _ _) eqn:Hd in H; [done|]. apply Nat.ltb_ge in Hd.
  apply result_bind_ok in H as ([] & Hp%check_proposals_iff & H).
  apply result_bind_ok in H as (last & (Hs & ->)%check_sequence_iff & H).
  apply result_bind_ok in H as (edges & (Hen & Hends & Hm)%restore_edges_iff & H).
  rewrite map_union_empty in Hm. subst edges.
  apply result_bind_ok in H as (seq & (Hos & Ho & ->)%check_owners_iff & H); [|done].
  destruct (_ || _) eqn:Hlast in H; [done|]. bprop. pose proof (increasing_tail _ _ Hs) as Hs'.
  apply result_bind_ok in H as (prior & Ha & H). apply result_bind_ok in H as ([] & Hst & H).
  apply result_bind_ok in H as ([] & He & H). apply result_bind_ok in H as ([] & Hdec & [= <-]).
  exists l'. split; [|done].
  destruct (proj1 (audit_iff _ Hs' (ic_audit k)) (ex_intro _ prior (conj Ha Hst))) as [Ht Hau].
  pose proof (proj1 (edges_iff _ Hs' _) (conj He Hdec)) as Hedges.
  split; try done; try lia; try tauto.
  - split; [done|]. eapply Forall_impl; [exact Hks|]. set_solver.
  - eapply Forall_impl; [exact Hends|]. unfold known. simpl. tauto.
Qed.

Lemma from_checkpoint_if c k facts :
  admissible c k facts -> from_checkpoint c k = Ok (engine_of c k facts).
Proof.
  intros []. pose proof (increasing_tail _ _ ad_sorted0) as Hs. unfold from_checkpoint. rewrite ad_cfg0. simpl.
  rewrite ad_version0. simpl. destruct (_ || _) eqn:E.
  { exfalso. repeat (apply orb_true_iff in E as [E|E]); bprop;
      try match goal with X : Nat.ltb _ _ = true |- _ => apply Nat.ltb_lt in X end; lia. }
  clear E. apply result_bind_iff. eexists. split.
  { apply restore_ids_iff. split_and!; [done|apply Forall_forall; set_solver|done]. }
  apply result_bind_iff. exists (list_to_map facts). split.
  { apply restore_facts_iff. destruct ad_keys0 as [Hk1 Hk2]. split_and!; [done| |].
    - eapply Forall_impl; [exact Hk2|]. set_solver.
    - exists facts. by rewrite map_union_empty. }
  simpl in ad_devices0. rewrite (proj2 (Nat.ltb_ge _ _) ad_devices0). apply result_bind_iff. exists tt.
  split; [by apply check_proposals_iff|]. apply result_bind_iff. eexists. split; [by apply check_sequence_iff|].
  apply result_bind_iff. exists (list_to_map (map edge_entry (ic_edges k))). split.
  { apply restore_edges_iff. rewrite map_union_empty. split_and!; [done| |done].
    eapply Forall_impl; [exact ad_ends0|]. simpl. intros g [? ?]. by rewrite lookup_empty. }
  apply result_bind_iff. eexists. split; [by apply check_owners_iff|].
  destruct (_ || _) eqn:E. { apply orb_true_iff in E as [E|E]; bprop; lia. }
  clear E. destruct (proj2 (audit_iff _ Hs (ic_audit k)) (conj ad_trail0 ad_audit0)) as (prior & Ha & Hst).
  destruct (proj2 (edges_iff _ Hs _) ad_edges0) as [He Hd]. simpl in He, Hd.
  rewrite Ha. simpl. rewrite Hst. simpl. rewrite He. simpl. rewrite Hd. done.
Qed.

(** The fields of a checkpoint that the code keeps in a [u64]. *)
Definition typed_checkpoint (k : IdentityCheckpoint) : Prop :=
  0 <= ic_next_proposal k <= u64_max /\ 0 <= ic_next_owner k <= u64_max.

(** What [from_checkpoint] asks of an engine beyond the engine invariant. *)
Record restorable (e : IdentityEngine) : Prop := {
  re_ids : NoDup (ie_ids e);
  re_fresh : Forall (fun d => ~ known e d) (ie_ids e);
  re_times : map_Forall (fun _ l => Forall (fun f => time_reversed f = false) l) (ie_facts e);
  re_proposals : Forall (fun p => mp_left p <> mp_right p /\
                   validprop (mp_score p) (mp_families p) (mp_reasons p) = Ok tt) (ie_proposals e);
  re_keys : Forall (fun o => (String.length (ow_key o) <= max_key_len (ie_cfg e))%nat) (ie_owners e)
}.

Section Admissible.
Context (c : IdentityConfig) (k : IdentityCheckpoint) (facts : list (DeviceId * list EvidenceFact)).
Hypothesis Had : admissible c k facts.

Lemma restored_lookup d l :
  ie_facts (engine_of c k facts) !! d = Some l ->
  exists l0, In (d, l0) (ic_facts k) /\ restored_as c (d, l0) (d, l).
Proof using Had.
  intros Hl. apply elem_of_list_to_map_2 in Hl.
  apply list_elem_of_lookup in Hl as [i Hl].
  destruct (Forall2_lookup_r _ _ _ _ _ (ad_facts _ _ _ Had) Hl) as ([d0 l0] & Hin & Hr).
  pose proof Hr as (Heq & _). simpl in Heq. subst d0. exists l0. split; [|done].
  apply list_elem_of_In. by eapply list_elem_of_lookup_2.
Qed.

Lemma admissible_restorable : restorable (engine_of c k facts).
Proof using Had.
  pose proof Had as []. split; simpl; try done.
  - apply Forall_forall. intros d Hd [l (l0 & Hin & _)%restored_lookup]. destruct ad_keys0 as [_ Hk].
    rewrite Forall_forall in Hk. apply (Hk d); [|done]. apply list_elem_of_In, in_map_iff. by exists (d, l0).
  - by intros d l (l0 & _ & _ & _ & _ & Ht)%restored_lookup.
  - eapply Forall_impl; [exact ad_proposals0|]. by intros p (_ & _ & _ & ? & ?).
  - eapply Forall_impl; [exact ad_owners0|]. by intros o (_ & ? & _).
Qed.

Lemma admissible_inv : (17 <= max_value_len c)%nat -> typed_checkpoint k -> ident_inv (engine_of c k facts).
Proof using Had.
  intros Hl [Hnp Hno]. pose proof Had as []. destruct ad_sizes0 as (_ & _ & Hp & He & Ha & Ho).
  pose proof (increasing_last _ _ ad_sorted0) as [Hlast _].
  pose proof (increasing_last _ _ ad_owner_sorted0) as [Holast _].
  apply StronglySorted_inv in ad_sorted0 as [Hs Hs0].
  apply StronglySorted_inv in ad_owner_sorted0 as [Hos Hos0].
  rewrite List.Forall_forall in Hlast, Holast, Hs0, Hos0.
  split; simpl; try done; try lia.
  - intros d l (l0 & _ & _ & Hlen & Hprep & _)%restored_lookup. simpl in *.
    destruct (prepare_forall _ _ _ ad_cfg0 Hl Hprep) as [Heq Hall]. rewrite Heq. by split.
  - apply List.Forall_forall. intros p Hin%(in_map mp_id). specialize (Hlast _ Hin). specialize (Hs0 _ Hin).
    simpl in *. lia.
  - eapply Forall_impl; [exact ad_proposals0|]. unfold known. by intros p (_ & ? & ? & _).
  - rewrite map_size_list_to_map; [by rewrite length_map|]. change (NoDup (map fst (map edge_entry (ic_edges k)))).
    by rewrite map_map.
  - rewrite List.Forall_forall in *. intros o Hin. destruct (ad_owners0 o Hin) as (Hk & _ & Hv & Hc).
    apply (in_map ow_sequence) in Hin. specialize (Holast _ Hin). specialize (Hos0 _ Hin). simpl in *.
    split_and!; [lia|simpl; lia|done..].
Qed.
End Admissible.

(** Restoring is safe: whatever bytes were stored, a checkpoint that [from_checkpoint]
    accepts yields an engine with the given configuration that satisfies the engine invariant
    of a live engine (capacities, numbering, prepared facts, edges and audit agreeing with the
    proposals), so every theorem about reachable engines holds after a restart too. *)
Theorem restored_engine_is_sound c k e :
  typed_checkpoint k -> (17 <= max_value_len c)%nat -> from_checkpoint c k = Ok e ->
  ident_inv e /\ restorable e /\ ie_cfg e = c.
Proof.
  intros Ht Hl (facts & Ha & ->)%from_checkpoint_only.
  split_and!; [by apply admissible_inv|by apply admissible_restorable|done].
Qed.

(** ** Engines and their own checkpoints *)
Lemma perm_to_map {K A} `{Countable K} (l : list (K * A)) (m : gmap K A) :
  l ≡ₚ map_to_list m -> list_to_map l = m /\ NoDup (map fst l) /\ length l = size m.
Proof.
  intros Hp.
  assert (NoDup (map fst l)) as Hn by (rewrite Hp; apply NoDup_fst_map_to_list).
  split_and!; [|done|by rewrite Hp, length_map_to_list].
  rewrite <- (list_to_map_to_list m). by apply list_to_map_proper.
Qed.

Lemma prepare_fixed c l : Forall (fact_ok c) l -> prepare c l = Ok l.
Proof. induction 1 as [|f l Hf _ IH]; simpl; [done|]. rewrite Hf. simpl. by rewrite IH. Qed.

Section RoundTrip.
Context (u : DeviceId -> string) (e : IdentityEngine).

Lemma checkpoint_facts_perm : ic_facts (checkpoint u e) ≡ₚ map_to_list (ie_facts e).
Proof. apply merge_sort_Permutation. Qed.

Lemma checkpoint_edges_perm :
  map edge_entry (ic_edges (checkpoint u e)) ≡ₚ map_to_list (ie_edges e).
Proof.
  simpl. rewrite merge_sort_Permutation, map_map.
  rewrite <- (map_id (map_to_list (ie_edges e))) at 2. erewrite map_ext; [done|].
  by intros [id []].
Qed.

Lemma checkpoint_engine : engine_of (ie_cfg e) (checkpoint u e) (ic_facts (checkpoint u e)) = e.
Proof.
  unfold engine_of. rewrite (proj1 (perm_to_map _ _ checkpoint_facts_perm)).
  rewrite (proj1 (perm_to_map _ _ checkpoint_edges_perm)). by destruct e.
Qed.

Lemma sorted_from_zero {A} (key : A -> Z) l :
  StronglySorted Z.lt (map key l) -> Forall (fun x => 0 < key x) l -> StronglySorted Z.lt (0 :: map key l).
Proof.
  intros Hs Hall. constructor; [done|]. rewrite List.Forall_forall in *.
  intros z (x & <- & Hx)%in_map_iff. by apply Hall.
Qed.

Lemma last_below {A} (key : A -> Z) l n :
  0 < n -> Forall (fun x => key x < n) l -> List.last (map key l) 0 < n.
Proof.
  intros Hn Hall. generalize (Hn). generalize 0 as z. induction Hall as [|x l Hx _ IH]; intros z Hz; [done|].
  cbn [map]. rewrite last_cons. by apply IH.
Qed.

Lemma checkpoint_admissible :
  ident_inv e -> restorable e ->
  admissible (ie_cfg e) (checkpoint u e) (ic_facts (checkpoint u e)).
Proof.
  intros Hi []. pose proof Hi as []. pose proof (perm_to_map _ _ checkpoint_facts_perm) as (Hfm & Hfn & Hfl).
  pose proof (perm_to_map _ _ checkpoint_edges_perm) as (Hem & Hen & Hel).
  rewrite length_map in Hel. rewrite map_map in Hen.
  pose proof checkpoint_engine as Heng.
  split; rewrite ?Heng, ?Hfm; try done; try (simpl; lia).
  - split_and!; try (simpl; lia); by rewrite ?Hfl, ?Hel; simpl; lia.
  - split; [done|]. apply Forall_forall. intros d (x & <- & Hx)%list_elem_of_In%in_map_iff Hin.
    rewrite Forall_forall in re_fresh0. apply (re_fresh0 (fst x)); [done|]. exists (snd x).
    apply elem_of_map_to_list. rewrite <- checkpoint_facts_perm. destruct x. by apply list_elem_of_In.
  - apply Forall_Forall2_diag, Forall_forall. intros [d l] Hx.
    rewrite checkpoint_facts_perm in Hx. apply elem_of_map_to_list in Hx.
    destruct (ii_facts d l Hx) as [Hlen Hok]. split_and!; [done..|by apply prepare_fixed|by eapply re_times0].
  - rewrite List.Forall_forall in *. intros p Hp. destruct (ii_known p Hp), (re_proposals0 p Hp).
    specialize (ii_ids p Hp). simpl in ii_ids. split_and!; try done. lia.
  - apply sorted_from_zero; [done|]. eapply Forall_impl; [exact ii_ids|]. simpl. lia.
  - apply last_below; [simpl; lia|]. eapply Forall_impl; [exact ii_ids|]. simpl. lia.
  - apply Forall_forall. intros g Hg.
    assert (edge_entry g ∈ map_to_list (ie_edges e)) as Hin.
    { rewrite <- checkpoint_edges_perm. apply list_elem_of_In, in_map. by apply list_elem_of_In. }
    apply elem_of_map_to_list, ii_edges in Hin as (p & Hp & _ & He).
    rewrite List.Forall_forall in ii_known. destruct (ii_known p Hp). unfold edge_of in He.
    simpl in He. destruct (mp_status p); [done| |done|]; injection He as <- <- _; by split.
  - apply sorted_from_zero; [done|]. eapply Forall_impl; [exact ii_owners|]. by intros o ([? _] & _).
  - apply last_below; [simpl; lia|]. eapply Forall_impl; [exact ii_owners|]. by intros o ([_ ?] & _).
  - rewrite List.Forall_forall in *. intros o Ho. destruct (ii_owners o Ho) as (_ & ? & ? & ?).
    specialize (re_keys0 o Ho). by split_and!.
Qed.

End RoundTrip.

(** ** Concrete runs: three devices with decimal identifiers and small capacities *)
Definition demo_uuid (d : DeviceId) : string := pretty d.

#[global] Instance demo_uuid_inj : Inj eq eq demo_uuid.
Proof. unfold demo_uuid. apply _. Qed.

Definition demo_identity_config : IdentityConfig := {|
  auto_identification_threshold := f32_085; router_hint_cap := f32_lit 49 100;
  match_threshold := f32_085; contradiction_threshold := f32_085;
  max_facts_per_device := 6; max_proposals := 4; max_devices := 4; max_merge_edges := 4;
  max_candidate_work := 100; max_output_facts := 16; max_audit_records := 4;
  max_key_len := 16; max_value_len := 32; max_source_len := 8 |}.

Definition evidence (family : EvidenceFamily) (key value : string) (confidence : f32)
    (at_ : DateTime) (expires : option DateTime) : EvidenceFact := {|
  ef_family := family; ef_source := "probe"; ef_key := key; ef_value := value;
  ef_confidence := confidence; ef_observed_at := at_; ef_expires_at := expires;
  ef_owner_confirmed := false |}.

Definition sure : f32 := f32_lit 9 10.
Definition faint : f32 := f32_lit 3 10.

Definition camera : list EvidenceFact :=
  [evidence LinkLayer "mac" "00-1B-CC-00-11-22" sure 1 (Some 100);
   evidence Service "serial" "S1" sure 1 (Some 100);
   evidence Service "vendor" "Acme" sure 1 (Some 100);
   evidence Naming "class" "camera" sure 1 (Some 100)].

Definition camera_again : list EvidenceFact :=
  [evidence LinkLayer "mac" "001b.cc00.1122" sure 2 (Some 100);
   evidence Service "serial" "S1" sure 2 (Some 100)].

Definition printer : list EvidenceFact := [evidence Service "serial" "P7" sure 3 (Some 50)].

Definition demo_identity : IdentityEngine := {|
  ie_cfg := demo_identity_config; ie_ids := [1; 2; 3]%N; ie_facts := ∅; ie_proposals := [];
  ie_edges := ∅; ie_audit := []; ie_owners := []; ie_next_proposal := 1; ie_next_owner := 1 |}.

Lemma demo_identity_new : identity_new demo_identity_config [1; 2; 3]%N = Ok demo_identity.
Proof. reflexivity. Qed.

Definition identity_demo (ops : list IdentityOp) : IdentityEngine := run_identity demo_uuid demo_identity ops.

Lemma identity_demo_inv ops : ident_inv (identity_demo ops).
Proof.
  destruct (identity_new_inv _ _ _ demo_identity_new) as [Hi Hc].
  apply run_identity_inv; [done|]. rewrite Hc. simpl. lia.
Qed.

Lemma pair_with {A B} (p : A * B) a : fst p = a -> p = (a, snd p).
Proof. intros <-. apply surjective_pairing. Qed.

Definition see_camera : IdentityOp := OpObserve None camera 1.
Definition see_printer : IdentityOp := OpObserve None printer 3.
Definition join_devices : list IdentityOp :=
  [see_camera; see_printer; OpPropose 1%N 2%N sure [Service] ["same rack"%string]; OpDecide 1 Accept].

Definition observed : result DeviceId IdentityError * IdentityEngine :=
  observe_at demo_uuid (identity_demo [see_camera]) None camera_again 2.

Lemma automatic_merge_needs_two_anchors_witness :
  fst observed = Ok 1%N /\
  exists fs l1 c l2, prepare demo_identity_config camera_again = Ok fs /\
    components demo_uuid (identity_demo [see_camera]) = Ok (l1 ++ c :: l2) /\
    exists a b a' b', strong_match demo_identity_config a b /\
      strong_match demo_identity_config a' b' /\ ef_family a <> ef_family a'.
Proof.
  assert (fst observed = Ok 1%N) as Ho by (vm_compute; reflexivity). split; [exact Ho|].
  destruct (automatic_merge_needs_two_anchors demo_uuid (identity_demo [see_camera]) camera_again 2 1%N
              (snd observed)) as (fs & l1 & c & l2 & Hp & Hc & _ & (a & b & a' & b' & Hs) & _).
  - exact (pair_with _ _ Ho).
  - eexists. vm_compute. reflexivity.
  - exists fs, l1, c, l2. split; [exact Hp|]. split; [exact Hc|]. exists a, b, a', b'. tauto.
Defined.

Definition camera_identified : result (option Identification) IdentityError :=
  identification_at demo_uuid (identity_demo [see_camera]) 1%N 2.

Lemma identification_is_supported_witness :
  exists i c, camera_identified = Ok (Some i) /\ id_vendor i = "Acme"%string /\
    component demo_uuid (identity_demo [see_camera]) 1%N = Ok c /\
    settled (identity_demo [see_camera]) c 2 "vendor" (id_vendor i).
Proof.
  destruct camera_identified as [[i|]|] eqn:E; [|vm_compute in E; discriminate..].
  exists i.
  destruct (identification_is_supported demo_uuid (identity_demo [see_camera]) 1%N 2 i E)
    as (c & Hc & Hv & _). exists c. split; [reflexivity|]. split; [|split; assumption].
  vm_compute in E. injection E as <-. reflexivity.
Defined.

Definition prepared : list EvidenceFact :=
  match prepare demo_identity_config camera with Ok l => l | Err _ => [] end.

Lemma prepare_idempotent_witness :
  ef_value <$> head prepared = Some "00:1b:cc:00:11:22"%string /\
  prepare demo_identity_config prepared = Ok prepared.
Proof.
  split; [vm_compute; reflexivity|].
  apply (prepare_idempotent demo_identity_config camera); [vm_compute; reflexivity|simpl; lia|].
  vm_compute. reflexivity.
Defined.

Lemma identity_invariant_witness :
  identity_new demo_identity_config [1; 2; 3]%N = Ok demo_identity /\
  ident_inv (run_identity demo_uuid demo_identity join_devices) /\
  size (ie_edges (run_identity demo_uuid demo_identity join_devices)) = 1%nat.
Proof.
  split; [reflexivity|]. split; [|vm_compute; reflexivity].
  apply (identity_invariant demo_uuid demo_identity_config [1; 2; 3]%N); [reflexivity|simpl; lia].
Defined.

Lemma resolve_is_canonical_witness :
  resolve demo_uuid (identity_demo join_devices) 2%N = Ok 1%N /\
  connected (identity_demo join_devices) 1%N 2%N.
Proof.
  assert (resolve demo_uuid (identity_demo join_devices) 1%N = Ok 1%N) as H1 by (vm_compute; reflexivity).
  assert (resolve demo_uuid (identity_demo join_devices) 2%N = Ok 1%N) as H2 by (vm_compute; reflexivity).
  split; [exact H2|].
  exact (proj1 (proj1 (resolve_is_canonical demo_uuid demo_uuid_inj (identity_demo join_devices) 1%N 2%N
           1%N 1%N (identity_demo_inv _) H1 H2)) eq_refl).
Defined.

Lemma undo_disables_one_merge_witness :
  let e := identity_demo join_devices in
  fst (undo e 1) = Ok tt /\
  forall x y, connected (snd (undo e 1)) x y <-> rtc (accepted_link (fun p => mp_id p <> 1) e) x y.
Proof.
  intros e. assert (fst (undo e 1) = Ok tt) as H1 by (vm_compute; reflexivity). split; [exact H1|].
  apply (undo_disables_one_merge e 1 (snd (undo e 1)) (identity_demo_inv _)).
  exact (pair_with _ _ H1).
Defined.

Lemma owner_fact_is_authoritative_witness :
  let e := identity_demo join_devices in
  let r := owner demo_uuid e 2%N "room" (Some "attic"%string) 9 in
  fst r = Ok tt /\ exists c, component demo_uuid (snd r) 2%N = Ok c /\
    own_value (snd r) c "room" = Some "attic"%string.
Proof.
  intros e r. assert (fst r = Ok tt) as Hr by (vm_compute; reflexivity). split; [exact Hr|].
  destruct (owner_fact_is_authoritative demo_uuid e 2%N "room" (Some "attic"%string) 9 (snd r) [1; 2]%N 2%N
              (identity_demo_inv _)) as (c & Hc & Hv & _).
  - exact (pair_with _ _ Hr).
  - vm_compute. reflexivity.
  - by right; left.
  - exists c. split; assumption.
Defined.

(** Seven facts at once exceed the budget of six; by then the expired ones are gone. *)
Definition too_many : list EvidenceFact := repeat (evidence Service "serial" "S1" sure 200 None) 7.

Lemma failed_identity_op_only_prunes_witness :
  let e := identity_demo [see_camera] in
  let r := run_identity_op demo_uuid e (OpAddFacts 1%N too_many 200) in
  fst r = false /\ pruned_at 200 e (snd r) /\ ie_facts (snd r) !! 1%N = Some [] /\
  (length <$> ie_facts e !! 1%N) = Some 4%nat.
Proof.
  intros e r. assert (fst r = false) as Hr by (vm_compute; reflexivity). split; [exact Hr|].
  split; [|split; vm_compute; reflexivity].
  apply (failed_identity_op_only_prunes demo_uuid e (OpAddFacts 1%N too_many 200) (snd r)).
  exact (pair_with _ _ Hr).
Defined.

(** The printer's evidence expires at 50, the camera's at 100. *)
Lemma eviction_is_exact_witness :
  let e := identity_demo [see_camera; see_printer] in
  let r := evict_stale_at demo_uuid e 60 10 in
  fst r = Ok [2%N] /\ known e 2%N /\ stale e 60 50 2%N.
Proof.
  intros e r. assert (fst r = Ok [2%N]) as Hr by (vm_compute; reflexivity). split; [exact Hr|].
  apply (eviction_is_exact demo_uuid e (identity_demo_inv _) 60 10 [2%N] (snd r)); [|by left].
  exact (pair_with _ _ Hr).
Defined.

(** ** Checkpoints *)
Definition joined : IdentityEngine := identity_demo join_devices.

Lemma restored_engine_is_sound_witness :
  exists e, from_checkpoint demo_identity_config (checkpoint demo_uuid joined) = Ok e /\
    ident_inv e /\ restorable e.
Proof.
  destruct (from_checkpoint demo_identity_config (checkpoint demo_uuid joined)) as [e|] eqn:E;
    [|vm_compute in E; discriminate].
  exists e. split; [reflexivity|].
  destruct (restored_engine_is_sound demo_identity_config (checkpoint demo_uuid joined) e) as (Hi & Hr & _).
  - vm_compute. repeat split; discriminate.
  - simpl. lia.
  - exact E.
  - split; assumption.
Defined.


(** What [from_checkpoint] says to the engine's own checkpoint after a run of operations. *)
Fixpoint all_succeed (e : IdentityEngine) (ops : list IdentityOp) : bool :=
  match ops with
  | [] => true
  | o :: ops' => let '(ok, e') := run_identity_op demo_uuid e o in ok && all_succeed e' ops'
  end.

Definition own_checkpoint (e : IdentityEngine) (ops : list IdentityOp)
  : bool * option IdentityError :=
  (all_succeed e ops,
   match from_checkpoint (ie_cfg e) (checkpoint demo_uuid (run_identity demo_uuid e ops)) with
   | Ok _ => None
   | Err x => Some x
   end).

(** Room for the fourteen characters of a dotted hardware address, not for seventeen. *)
Definition narrow_config : IdentityConfig := {|
  auto_identification_threshold := f32_085; router_hint_cap := f32_lit 49 100;
  match_threshold := f32_085; contradiction_threshold := f32_085;
  max_facts_per_device := 6; max_proposals := 4; max_devices := 4; max_merge_edges := 4;
  max_candidate_work := 100; max_output_facts := 16; max_audit_records := 4;
  max_key_len := 16; max_value_len := 14; max_source_len := 8 |}.

Definition narrow_identity : IdentityEngine := {|
  ie_cfg := narrow_config; ie_ids := [1; 2; 3]%N; ie_facts := ∅; ie_proposals := [];
  ie_edges := ∅; ie_audit := []; ie_owners := []; ie_next_proposal := 1; ie_next_owner := 1 |}.

(** Some engines cannot be restored from their own checkpoint although every operation of
    the run succeeded: after a match on faint evidence only, whose proposal names no evidence
    family; after a fact that expires before it was observed; after the proposal to merge a
    device with itself; and, when values may have fourteen to sixteen characters, after a dotted
    hardware address, which normalisation lengthens to seventeen. *)
Theorem identity_checkpoint_refused :
  own_checkpoint demo_identity [see_camera; OpObserve None [evidence Service "serial" "S1" faint 2 None] 2]
    = (true, Some (InvalidInput "proposal families")) /\
  own_checkpoint demo_identity [OpObserve None [evidence Service "serial" "S1" sure 5 (Some 4)] 3]
    = (true, Some (InvalidCheckpoint "fact time")) /\
  own_checkpoint demo_identity [see_camera; OpPropose 1%N 1%N sure [Service] ["same rack"%string]]
    = (true, Some (InvalidCheckpoint "proposal")) /\
  identity_new narrow_config [1; 2; 3]%N = Ok narrow_identity /\
  own_checkpoint narrow_identity [OpObserve None [evidence LinkLayer "mac" "001b.cc00.1122" sure 2 None] 2]
    = (true, Some (InvalidInput "field bounds")).
Proof. vm_compute. repeat split. Qed.

(** A router label alone enrolls a device. *)
Lemma router_hint_enrolls :
  fst (observe_at demo_uuid demo_identity None [evidence RouterHint "label" "TV" sure 1 None] 1) = Ok 1%N.
Proof. vm_compute. reflexivity. Qed.
