(* ===== verification/F64.v ===== *)
(** * IEEE 754 double precision

    Rust's [f64] as the standard library's executable specification of
    binary64 ([SpecFloat] with 53 bits of precision and exponents below 1024), rounding to
    nearest even. [SpecFloat] has one NaN; [total_cmp] takes it as the positive one, which Rust
    orders above every number. *)

From S2P Require Import Prelude.
From Stdlib Require Import SpecFloat.

Definition f64 : Type := spec_float.

(** Integer conversions ([f64::from], [as f64]). *)
Definition f64_of_Z (z : Z) : f64 := binary_normalize 53 1024 z 0 false.
Definition f64_sub (a b : f64) : f64 := SFsub 53 1024 a b.
Definition f64_mul (a b : f64) : f64 := SFmul 53 1024 a b.
Definition f64_div (a b : f64) : f64 := SFdiv 53 1024 a b.
Definition f64_neg (a : f64) : f64 := SFopp a.
Definition f64_le (a b : f64) : bool := SFleb a b.
Definition f64_lt (a b : f64) : bool := SFltb a b.

Definition f64_is_finite (a : f64) : bool :=
  match a with
  | S754_zero _ | S754_finite _ _ _ => true
  | S754_infinity _ | S754_nan => false
  end.

(** [f64::total_cmp]. *)
Definition total_cmp (a b : f64) : comparison :=
  match a, b with
  | S754_nan, S754_nan => Eq
  | S754_nan, _ => Gt
  | _, S754_nan => Lt
  | S754_zero true, S754_zero false => Lt
  | S754_zero false, S754_zero true => Gt
  | _, _ => match SFcompare a b with
            | Some c => c
            | None => Eq
            end
  end.

Definition total_le (a b : f64) : Prop := total_cmp a b <> Gt.
#[global] Instance total_le_dec : RelDecision total_le.
Proof. intros a b. unfold total_le. destruct (total_cmp a b); [left|left|right]; congruence. Defined.

(** [Iterator::min_by(f64::total_cmp)]: the first of the least elements. *)
Fixpoint min_by_total (l : list f64) : option f64 :=
  match l with
  | [] => None
  | x :: l' => match min_by_total l' with
               | None => Some x
               | Some m => match total_cmp x m with
                           | Gt => Some m
                           | _ => Some x
                           end
               end
  end.

Definition f64_zero : f64 := S754_zero false.
Definition f64_one : f64 := f64_of_Z 1.

Lemma min_by_total_in l m : min_by_total l = Some m -> In m l.
Proof.
  revert m. induction l as [|x l IH]; simpl; [done|]. intros m.
  destruct (min_by_total l) as [m'|]; [|by intros [= <-]; left].
  case_match; intros [= <-]; auto.
Qed.
