(* ===== verification/DoctorCheck.v ===== *)
(** * Network Doctor: probes, checks and reports

    crates/lattice-doctor/src/probe.rs, check.rs and lib.rs: the typed probe
    requests and responses, the nodes of the diagnostic DAG with their
    dependencies, confidence, budget and report. *)

From S2P Require Import Prelude Time F64.

(** ** lib.rs *)
Inductive DoctorError :=
  | InvalidConfidence
  | InvalidBudget (what : string)
  | InvalidConfig (what : string)
  | InvalidSymptom (what : string)
  | InvalidApproval.

(** The injected time source: reading it may move the world on. *)
Class Clock (W : Type) := now : M W DateTime.

(** ** probe.rs *)
Definition MAX_PROBE_TIMEOUT_MS : Z := 10000.

Inductive ProbeRequest :=
  | ReqCollectorStatus
  | ReqLinkStatus (interface : string)
  | ReqIpConfig (interface : string)
  | ReqArpProbe (interface address : string)
  | ReqWifiMetrics (interface : string)
  | ReqPing (target : string) (payload_bytes : Z) (dont_fragment : bool)
  | ReqDnsQuery (resolver name : string)
  | ReqRouteTable
  | ReqRouterStatus
  | ReqReachIp (address : string) (port : Z).

Inductive LeaseState := LeaseStatic | LeaseValid | LeaseExpired | LeaseMissing.
Inductive DnsFailureReason := DnsTimeout | DnsRefused | DnsServFail | DnsNoAnswer.

Record RouteEntry := {
  re_interface : string;
  re_gateway : string;
  re_is_vpn : bool;
  re_metric : Z
}.

Inductive ProbeResponse :=
  | RespCollectorStatus (privileged capture_ok worker_running : bool)
  | RespLinkStatus (up : bool) (speed_mbps : option Z)
  | RespIpConfig (address : option string) (lease : LeaseState)
  | RespArpProbe (responding_macs : list string)
  | RespWifiMetrics (wireless : bool) (rssi_dbm : option Z) (retry_percent : option f64)
  | RespPingReply (rtt_ms : f64)
  | RespPingTimeout
  | RespFragmentationNeeded (next_hop_mtu : Z)
  | RespDnsAnswer (addresses : list string) (latency_ms : f64)
  | RespDnsFailure (reason : DnsFailureReason)
  | RespRouteTable (default_routes : list RouteEntry)
  | RespRouterStatus (responsive : bool) (uptime_seconds : option Z)
  | RespReachable (latency_ms : f64)
  | RespUnreachable.

Inductive ProbeError :=
  | ProbeTimeout
  | ProbeUnsupported
  | ProbeTransportFailed (what : string).

(** The [Display] texts of [ProbeError]. *)
Definition probe_error_to_string (e : ProbeError) : string :=
  match e with
  | ProbeTimeout => "probe timed out at the transport layer"
  | ProbeUnsupported => "probe kind is unsupported on this platform"
  | ProbeTransportFailed what => "probe transport failed: " +:+ what
  end.

Record Probe := { pr_request : ProbeRequest; pr_timeout_ms : Z }.

(** The transport every probe goes through. *)
Class ProbeTransport (W : Type) := probe : Probe -> M W (result ProbeResponse ProbeError).

(** The in-memory transport: answers from a handler and logs every probe. *)
Record FakeProbeTransport := {
  fake_handler : ProbeRequest -> result ProbeResponse ProbeError;
  fake_log : list Probe
}.

Definition fake_new (h : ProbeRequest -> result ProbeResponse ProbeError) : FakeProbeTransport :=
  {| fake_handler := h; fake_log := [] |}.

Definition fake_probe (p : Probe) : M FakeProbeTransport (result ProbeResponse ProbeError) :=
  fun w => (fake_handler w (pr_request p),
            {| fake_handler := fake_handler w; fake_log := fake_log w ++ [p] |}).
#[global] Instance fake_probe_transport : ProbeTransport FakeProbeTransport := fake_probe.

(** ** check.rs *)
Inductive CheckKind :=
  | CollectorHealth | AdapterLink | AddressDhcp | DuplicateIp | WifiQuality | Gateway
  | RouterHealth | LossLatency | Mtu | Dns | RouteVpn | InternetReachability.
#[global] Instance CheckKind_eq_dec : EqDecision CheckKind.
Proof. solve_decision. Defined.

Definition EXECUTION_ORDER : list CheckKind :=
  [CollectorHealth; AdapterLink; AddressDhcp; DuplicateIp; WifiQuality; Gateway;
   RouterHealth; LossLatency; Mtu; Dns; RouteVpn; InternetReachability].

Definition dependencies (k : CheckKind) : list CheckKind :=
  match k with
  | CollectorHealth => []
  | AdapterLink => [CollectorHealth]
  | AddressDhcp | WifiQuality => [AdapterLink]
  | DuplicateIp | Gateway => [AddressDhcp]
  | RouterHealth | LossLatency | Mtu | Dns => [Gateway]
  | RouteVpn => [Dns]
  | InternetReachability => [AddressDhcp]
  end.

Record Confidence := { basis_points : Z }.
Definition CONF_LOW : Confidence := {| basis_points := 4000 |}.
Definition CONF_MEDIUM : Confidence := {| basis_points := 7000 |}.
Definition CONF_HIGH : Confidence := {| basis_points := 9500 |}.

Definition confidence_try_new (bps : Z) : result Confidence DoctorError :=
  if 10000 <? bps then Err InvalidConfidence else Ok {| basis_points := bps |}.

Inductive Metric :=
  | CollectorPrivileged | CaptureHealthy | WorkerRunning | LinkUp | LinkSpeedMbps
  | AddressPresent | LeaseValidMetric | ConflictingMacCount | RssiDbm | RetryPercent | RttMs
  | LossPercent | DnsLatencyMs | ResolverFailureCount | DefaultRouteCount | RouterResponsive
  | PassingMtuBytes | FailingMtuBytes | ReachabilitySuccess.
#[global] Instance Metric_eq_dec : EqDecision Metric.
Proof. solve_decision. Defined.

Inductive Unit := Milliseconds | Percent | Dbm | Bytes | MegabitsPerSecond | Count | Boolean.

Record Measurement := {
  m_metric : Metric;
  m_value : f64;
  m_unit : Unit;
  m_observed_at : DateTime
}.

Inductive SkipReason :=
  | DependencyFailed (dependency : CheckKind)
  | DependencySkipped (dependency : CheckKind)
  | BudgetExhausted.

Inductive CheckStatus :=
  | Passed
  | Failed
  | Skipped (because : SkipReason).

Inductive ResolverOutcome :=
  | Answered (latency_ms : f64)
  | ResolverFailed (reason : DnsFailureReason)
  | Unavailable (error : string).

Record ResolverEvidence := {
  rv_resolver : string;
  rv_independent : bool;
  rv_outcome : ResolverOutcome
}.

Inductive CheckDetail :=
  | DetProbeFailure (error : string)
  | DetCollector (privileged capture_ok worker_running : bool)
  | DetLink (up : bool)
  | DetAddress (address : option string) (lease : LeaseState)
  | DetDuplicateIp (address : string) (macs : list string)
  | DetWifi (wireless : bool) (rssi_dbm : option Z) (retry_percent : option f64)
  | DetGatewayPing (sent received : Z)
  | DetRouter (responsive : bool)
  | DetLossLatency (loss_percent : f64) (median_rtt_ms : option f64)
  | DetMtu (largest_passing_bytes smallest_failing_bytes : option Z)
  | DetDns (resolvers : list ResolverEvidence)
  | DetRoute (default_routes : list RouteEntry) (vpn_conflict : bool)
  | DetInternet (reachable lan_ok : bool).

Record CheckResult := {
  cr_kind : CheckKind;
  cr_status : CheckStatus;
  cr_evidence : list Measurement;
  cr_confidence : Confidence;
  cr_detail : option CheckDetail
}.

Record DiagnosticBudget := { max_probes : Z; per_probe_timeout_ms : Z }.

Definition budget_new (mp timeout : Z) : result DiagnosticBudget DoctorError :=
  if mp =? 0 then Err (InvalidBudget "max_probes must be at least 1")
  else if (timeout =? 0) || (MAX_PROBE_TIMEOUT_MS <? timeout)
  then Err (InvalidBudget "per_probe_timeout_ms must be in 1..=10000")
  else Ok {| max_probes := mp; per_probe_timeout_ms := timeout |}.

Record DiagnosticReport := {
  rp_started_at : DateTime;
  rp_finished_at : DateTime;
  rp_budget : DiagnosticBudget;
  rp_probes_used : Z;
  rp_budget_exhausted : bool;
  rp_checks : list CheckResult
}.

Definition report_check (r : DiagnosticReport) (k : CheckKind) : option CheckResult :=
  iter_find (fun c => bool_decide (cr_kind c = k)) (rp_checks r).
