(* ===== verification/DoctorEngine.v ===== *)
(** * Network Doctor: the diagnostic engine

    crates/lattice-doctor/src/engine.rs. The engine threads the world (the
    transport and the clock) and the probe counter [used] through its checks; both
    are the state of the monad [M (Run W)]. Every check is translated whole. *)

From S2P Require Import Prelude Time Text F64 DoctorCheck.

Definition UNEXPECTED_RESPONSE : string := "unexpected probe response".
Definition PING_PAYLOAD_BYTES : Z := 56.
Definition MAX_PING_COUNT : Z := 16.
Definition MAX_MTU_PROBE_SIZES : nat := 8.
Definition MAX_RESOLVERS : nat := 8.

Record Thresholds := {
  degraded_loss_percent : f64;
  degraded_median_rtt_ms : f64;
  weak_rssi_dbm : Z
}.

Definition default_thresholds : Thresholds := {|
  degraded_loss_percent := f64_of_Z 2;
  degraded_median_rtt_ms := f64_of_Z 100;
  weak_rssi_dbm := -75 |}.

Record DoctorConfig := {
  dc_interface : string;
  dc_gateway : string;
  dc_configured_resolvers : list string;
  dc_independent_resolver : string;
  dc_internet_probe_address : string;
  dc_internet_probe_port : Z;
  dc_dns_probe_name : string;
  dc_ping_count : Z;
  dc_mtu_probe_sizes : list Z;
  dc_thresholds : Thresholds
}.

Definition validate (c : DoctorConfig) : result unit DoctorError :=
  if str_is_empty (dc_interface c) then Err (InvalidConfig "interface must not be empty")
  else if str_is_empty (dc_gateway c) then Err (InvalidConfig "gateway must not be empty")
  else if bool_decide (dc_configured_resolvers c = [])
  then Err (InvalidConfig "at least one configured resolver is required")
  else if Nat.ltb MAX_RESOLVERS (length (dc_configured_resolvers c))
  then Err (InvalidConfig "too many configured resolvers (max 8)")
  else if str_is_empty (dc_independent_resolver c)
  then Err (InvalidConfig "independent_resolver must not be empty")
  else if str_is_empty (dc_internet_probe_address c)
  then Err (InvalidConfig "internet_probe_address must not be empty")
  else if str_is_empty (dc_dns_probe_name c)
  then Err (InvalidConfig "dns_probe_name must not be empty")
  else if (dc_ping_count c =? 0) || (MAX_PING_COUNT <? dc_ping_count c)
  then Err (InvalidConfig "ping_count must be in 1..=16")
  else if bool_decide (dc_mtu_probe_sizes c = [])
          || Nat.ltb MAX_MTU_PROBE_SIZES (length (dc_mtu_probe_sizes c))
  then Err (InvalidConfig "mtu_probe_sizes must contain 1..=8 sizes")
  else
    let t := dc_thresholds c in
    if negb (f64_is_finite (degraded_loss_percent t))
       || negb (f64_le f64_zero (degraded_loss_percent t)
                && f64_le (degraded_loss_percent t) (f64_of_Z 100))
       || negb (f64_is_finite (degraded_median_rtt_ms t))
       || f64_le (degraded_median_rtt_ms t) f64_zero
    then Err (InvalidConfig "thresholds are out of range")
    else Ok tt.

Record DiagnosticEngine := { config : DoctorConfig; budget : DiagnosticBudget }.

Definition with_clock (c : DoctorConfig) (b : DiagnosticBudget)
  : result DiagnosticEngine DoctorError :=
  let? _ := validate c in Ok {| config := c; budget := b |}.

(** ** Helpers *)
Definition bool_value (b : bool) : f64 := if b then f64_one else f64_zero.

Definition loss_percent (sent received : Z) : f64 :=
  if sent =? 0 then f64_of_Z 100
  else f64_div (f64_mul (f64_of_Z 100) (f64_of_Z (saturating_sub_u32 sent received)))
         (f64_of_Z sent).

(** Upper median of the sample. *)
Definition median (values : list f64) : option f64 :=
  match values with
  | [] => None
  | _ => merge_sort total_le values !! (length values / 2)%nat
  end.

Definition find (checks : list CheckResult) (k : CheckKind) : option CheckResult :=
  iter_find (fun c => bool_decide (cr_kind c = k)) checks.

Definition skipped (k : CheckKind) (because : SkipReason) : CheckResult := {|
  cr_kind := k; cr_status := Skipped because; cr_evidence := [];
  cr_confidence := CONF_HIGH; cr_detail := None |}.

Fixpoint dependency_scan (deps : list CheckKind) (checks : list CheckResult) : option SkipReason :=
  match deps with
  | [] => None
  | d :: deps' =>
    match cr_status <$> find checks d with
    | Some Passed => dependency_scan deps' checks
    | Some Failed => Some (DependencyFailed d)
    | Some (Skipped _) | None => Some (DependencySkipped d)
    end
  end.
Definition dependency_skip (k : CheckKind) (checks : list CheckResult) : option SkipReason :=
  dependency_scan (dependencies k) checks.

Definition conclude (k : CheckKind) (pass : bool) (evidence : list Measurement)
    (confidence : Confidence) (detail : CheckDetail) : CheckResult := {|
  cr_kind := k; cr_status := if pass then Passed else Failed; cr_evidence := evidence;
  cr_confidence := confidence; cr_detail := Some detail |}.

Definition failed_probe (k : CheckKind) (error : string) : CheckResult := {|
  cr_kind := k; cr_status := Failed; cr_evidence := [];
  cr_confidence := CONF_LOW; cr_detail := Some (DetProbeFailure error) |}.

(** [sort_unstable_by(|a, b| b.cmp(a))] and [dedup] on the MTU sizes. *)
Definition sizes_ge (a b : Z) : Prop := b <= a.
#[global] Instance sizes_ge_dec : RelDecision sizes_ge.
Proof. intros a b. unfold sizes_ge. apply _. Defined.

Fixpoint dedup (l : list Z) : list Z :=
  match l with
  | a :: (b :: _) as l' => if a =? b then dedup l' else a :: dedup l'
  | _ => l
  end.

Definition iter_min (l : list Z) : option Z := Z.opp <$> iter_max (map Z.opp l).

Section Run.
Context {W : Type} `{ProbeTransport W, Clock W}.
Variable eng : DiagnosticEngine.

Record RunState := { world : W; used : Z }.

Definition clock_now : M RunState DateTime :=
  fun s => let '(t, w) := now (world s) in (t, {| world := w; used := used s |}).

(** [send]: count the probe, then hand it to the transport with the granted timeout. *)
Definition send (request : ProbeRequest) : M RunState (result ProbeResponse ProbeError) :=
  fun s =>
    let '(r, w) := probe {| pr_request := request;
                            pr_timeout_ms := per_probe_timeout_ms (budget eng) |} (world s) in
    (r, {| world := w; used := saturating_add_u32 (used s) 1 |}).

Definition measurement (metric : Metric) (value : f64) (unit_ : Unit) : M RunState Measurement :=
  let! t := clock_now in
  mret_st {| m_metric := metric; m_value := value; m_unit := unit_; m_observed_at := t |}.

(** [if let Some(v) = value { evidence.push(self.measurement(..)) }] *)
Definition push_some (evidence : list Measurement) (metric : Metric) (value : option f64)
    (unit_ : Unit) : M RunState (list Measurement) :=
  match value with
  | None => mret_st evidence
  | Some v => let! m := measurement metric v unit_ in mret_st (evidence ++ [m])
  end.

Definition fail_with (k : CheckKind) (e : ProbeError) : M RunState CheckResult :=
  mret_st (failed_probe k (probe_error_to_string e)).
Definition unexpected (k : CheckKind) : M RunState CheckResult :=
  mret_st (failed_probe k UNEXPECTED_RESPONSE).

Definition check_collector : M RunState CheckResult :=
  let k := CollectorHealth in
  let! r := send ReqCollectorStatus in
  match r with
  | Ok (RespCollectorStatus privileged capture_ok worker_running) =>
    let! m1 := measurement CollectorPrivileged (bool_value privileged) Boolean in
    let! m2 := measurement CaptureHealthy (bool_value capture_ok) Boolean in
    let! m3 := measurement WorkerRunning (bool_value worker_running) Boolean in
    mret_st (conclude k (privileged && capture_ok && worker_running) [m1; m2; m3] CONF_HIGH
               (DetCollector privileged capture_ok worker_running))
  | Ok _ => unexpected k
  | Err error => fail_with k error
  end.

Definition check_adapter_link : M RunState CheckResult :=
  let k := AdapterLink in
  let! r := send (ReqLinkStatus (dc_interface (config eng))) in
  match r with
  | Ok (RespLinkStatus up speed_mbps) =>
    let! m := measurement LinkUp (bool_value up) Boolean in
    let! evidence := push_some [m] LinkSpeedMbps (f64_of_Z <$> speed_mbps) MegabitsPerSecond in
    mret_st (conclude k up evidence CONF_HIGH (DetLink up))
  | Ok _ => unexpected k
  | Err error => fail_with k error
  end.

Definition check_address : M RunState CheckResult :=
  let k := AddressDhcp in
  let! r := send (ReqIpConfig (dc_interface (config eng))) in
  match r with
  | Ok (RespIpConfig address lease) =>
    let has_address := is_some_and (fun _ => true) address in
    let lease_ok := match lease with LeaseValid | LeaseStatic => true | _ => false end in
    let! m1 := measurement AddressPresent (bool_value has_address) Boolean in
    let! m2 := measurement LeaseValidMetric (bool_value lease_ok) Boolean in
    mret_st (conclude k (has_address && lease_ok) [m1; m2] CONF_HIGH (DetAddress address lease))
  | Ok _ => unexpected k
  | Err error => fail_with k error
  end.

(** The address the previous check confirmed. *)
Definition confirmed_address (prior : list CheckResult) : option string :=
  result ← find prior AddressDhcp;
  match cr_detail result with
  | Some (DetAddress (Some address) _) => Some address
  | _ => None
  end.

Definition check_duplicate_ip (prior : list CheckResult) : M RunState CheckResult :=
  let k := DuplicateIp in
  match confirmed_address prior with
  | None => mret_st (failed_probe k "no confirmed local address available")
  | Some address =>
    let! r := send (ReqArpProbe (dc_interface (config eng)) address) in
    match r with
    | Ok (RespArpProbe responding_macs) =>
      let count := Z.of_nat (length responding_macs) in
      let! m := measurement ConflictingMacCount (f64_of_Z count) Count in
      mret_st (conclude k (count <=? 1) [m] CONF_HIGH (DetDuplicateIp address responding_macs))
    | Ok _ => unexpected k
    | Err error => fail_with k error
    end
  end.

Definition check_wifi : M RunState CheckResult :=
  let k := WifiQuality in
  let! r := send (ReqWifiMetrics (dc_interface (config eng))) in
  match r with
  | Ok (RespWifiMetrics wireless rssi_dbm retry_percent) =>
    if negb wireless
    then mret_st (conclude k true [] CONF_HIGH (DetWifi false None None))
    else match rssi_dbm with
    | None => mret_st (failed_probe k "wireless interface reported no signal metric")
    | Some rssi =>
      let! m := measurement RssiDbm (f64_of_Z rssi) Dbm in
      let! evidence := push_some [m] RetryPercent retry_percent Percent in
      mret_st (conclude k (weak_rssi_dbm (dc_thresholds (config eng)) <=? rssi) evidence CONF_HIGH
                 (DetWifi true (Some rssi) retry_percent))
    end
  | Ok _ => unexpected k
  | Err error => fail_with k error
  end.

(** [ping_sample]: [n] echoes; returns how many were sent and the round trips. *)
Fixpoint ping_loop (n : nat) (target : string) (sent : Z) (rtts : list f64)
  : M RunState (Z * list f64) :=
  match n with
  | O => mret_st (sent, rtts)
  | S n' =>
    let! r := send (ReqPing target PING_PAYLOAD_BYTES false) in
    ping_loop n' target (sent + 1)
      (match r with Ok (RespPingReply rtt_ms) => rtts ++ [rtt_ms] | _ => rtts end)
  end.
Definition ping_sample (target : string) : M RunState (Z * list f64) :=
  ping_loop (Z.to_nat (dc_ping_count (config eng))) target 0 [].

Definition check_gateway : M RunState CheckResult :=
  let k := Gateway in
  let! (sent, rtts) := ping_sample (dc_gateway (config eng)) in
  let received := Z.of_nat (length rtts) in
  let! m := measurement LossPercent (loss_percent sent received) Percent in
  let! evidence := push_some [m] RttMs (min_by_total rtts) Milliseconds in
  mret_st (conclude k (1 <=? received) evidence CONF_HIGH (DetGatewayPing sent received)).

Definition check_router : M RunState CheckResult :=
  let k := RouterHealth in
  let! r := send ReqRouterStatus in
  match r with
  | Ok (RespRouterStatus responsive _) =>
    let! m := measurement RouterResponsive (bool_value responsive) Boolean in
    mret_st (conclude k responsive [m] CONF_MEDIUM (DetRouter responsive))
  | Ok _ => unexpected k
  | Err error => fail_with k error
  end.

Definition check_loss_latency : M RunState CheckResult :=
  let k := LossLatency in
  let! (sent, rtts) := ping_sample (dc_gateway (config eng)) in
  let received := Z.of_nat (length rtts) in
  let loss := loss_percent sent received in
  let med := median rtts in
  let! m := measurement LossPercent loss Percent in
  let! evidence := push_some [m] RttMs med Milliseconds in
  let th := dc_thresholds (config eng) in
  let healthy := f64_le loss (degraded_loss_percent th)
                 && is_none_or (fun x => f64_le x (degraded_median_rtt_ms th)) med
                 && (1 <=? received) in
  mret_st (conclude k healthy evidence CONF_MEDIUM (DetLossLatency loss med)).

(** The loop over the sizes; [inr] is an early return. *)
Fixpoint mtu_loop (sizes passing silent_failures : list Z)
  : M RunState ((list Z * list Z) + CheckResult) :=
  match sizes with
  | [] => mret_st (inl (passing, silent_failures))
  | size :: sizes' =>
    let! r := send (ReqPing (dc_internet_probe_address (config eng)) size true) in
    match r with
    | Ok (RespPingReply _) => mtu_loop sizes' (passing ++ [size]) silent_failures
    | Ok RespPingTimeout => mtu_loop sizes' passing (silent_failures ++ [size])
    | Ok (RespFragmentationNeeded _) => mtu_loop sizes' passing silent_failures
    | Ok _ => mret_st (inr (failed_probe Mtu UNEXPECTED_RESPONSE))
    | Err error => mret_st (inr (failed_probe Mtu (probe_error_to_string error)))
    end
  end.

Definition check_mtu : M RunState CheckResult :=
  let k := Mtu in
  let sizes := dedup (merge_sort sizes_ge (dc_mtu_probe_sizes (config eng))) in
  let! o := mtu_loop sizes [] [] in
  match o with
  | inr early => mret_st early
  | inl (passing, silent_failures) =>
    let largest_passing := iter_max passing in
    let smallest_failing := iter_min silent_failures in
    let! e1 := push_some [] PassingMtuBytes (f64_of_Z <$> largest_passing) Bytes in
    let! e2 := push_some e1 FailingMtuBytes (f64_of_Z <$> smallest_failing) Bytes in
    mret_st (conclude k (bool_decide (silent_failures = [])) e2 CONF_MEDIUM
               (DetMtu largest_passing smallest_failing))
  end.

Definition query_resolver (resolver : string) (independent : bool) : M RunState ResolverEvidence :=
  let! r := send (ReqDnsQuery resolver (dc_dns_probe_name (config eng))) in
  mret_st {| rv_resolver := resolver; rv_independent := independent;
             rv_outcome := match r with
                           | Ok (RespDnsAnswer _ latency_ms) => Answered latency_ms
                           | Ok (RespDnsFailure reason) => ResolverFailed reason
                           | Ok _ => Unavailable UNEXPECTED_RESPONSE
                           | Err error => Unavailable (probe_error_to_string error)
                           end |}.

Fixpoint query_all (resolvers : list string) (acc : list ResolverEvidence)
  : M RunState (list ResolverEvidence) :=
  match resolvers with
  | [] => mret_st acc
  | r :: rs => let! e := query_resolver r false in query_all rs (acc ++ [e])
  end.

Definition answered (r : ResolverEvidence) : option f64 :=
  match rv_outcome r with
  | Answered latency_ms => Some latency_ms
  | _ => None
  end.

Definition check_dns : M RunState CheckResult :=
  let k := Dns in
  let configured := dc_configured_resolvers (config eng) in
  let! rs := query_all configured [] in
  let! ind := query_resolver (dc_independent_resolver (config eng)) true in
  let resolvers := rs ++ [ind] in
  let configured_total := length configured in
  let configured_failures :=
    length (List.filter (fun r => negb (is_some_and (fun _ => true) (answered r)))
              (List.filter (fun r => negb (rv_independent r)) resolvers)) in
  let! m := measurement ResolverFailureCount (f64_of_Z (Z.of_nat configured_failures)) Count in
  let! evidence := push_some [m] DnsLatencyMs (min_by_total (omap answered resolvers)) Milliseconds in
  let confidence := if Nat.eqb configured_failures 0 then CONF_HIGH else CONF_MEDIUM in
  mret_st (conclude k (Nat.ltb configured_failures configured_total) evidence confidence
             (DetDns resolvers)).

Definition check_route_vpn : M RunState CheckResult :=
  let k := RouteVpn in
  let! r := send ReqRouteTable in
  match r with
  | Ok (RespRouteTable default_routes) =>
    let count := Z.of_nat (length default_routes) in
    let! m := measurement DefaultRouteCount (f64_of_Z count) Count in
    mret_st (conclude k (count =? 1) [m] CONF_HIGH (DetRoute default_routes (1 <? count)))
  | Ok _ => unexpected k
  | Err error => fail_with k error
  end.

Definition check_internet (prior : list CheckResult) : M RunState CheckResult :=
  let k := InternetReachability in
  let lan_ok := is_some_and (fun r => match cr_status r with Passed => true | _ => false end)
                  (find prior Gateway) in
  let! r := send (ReqReachIp (dc_internet_probe_address (config eng))
                    (dc_internet_probe_port (config eng))) in
  match r with
  | Ok (RespReachable latency_ms) =>
    let! m1 := measurement ReachabilitySuccess f64_one Boolean in
    let! m2 := measurement RttMs latency_ms Milliseconds in
    mret_st (conclude k true [m1; m2] CONF_HIGH (DetInternet true lan_ok))
  | Ok RespUnreachable =>
    let! m := measurement ReachabilitySuccess f64_zero Boolean in
    mret_st (conclude k false [m] CONF_HIGH (DetInternet false lan_ok))
  | Ok _ => unexpected k
  | Err error => fail_with k error
  end.

(** Worst-case probes of one check. *)
Definition probe_cost (k : CheckKind) : Z :=
  match k with
  | Gateway | LossLatency => dc_ping_count (config eng)
  | Mtu => Z.of_nat (length (dc_mtu_probe_sizes (config eng)))
  | Dns => Z.of_nat (length (dc_configured_resolvers (config eng))) + 1
  | _ => 1
  end.

Definition run_check (k : CheckKind) (prior : list CheckResult) : M RunState CheckResult :=
  match k with
  | CollectorHealth => check_collector
  | AdapterLink => check_adapter_link
  | AddressDhcp => check_address
  | DuplicateIp => check_duplicate_ip prior
  | WifiQuality => check_wifi
  | Gateway => check_gateway
  | RouterHealth => check_router
  | LossLatency => check_loss_latency
  | Mtu => check_mtu
  | Dns => check_dns
  | RouteVpn => check_route_vpn
  | InternetReachability => check_internet prior
  end.

(** The loop over [EXECUTION_ORDER]. *)
Fixpoint run_loop (kinds : list CheckKind) (checks : list CheckResult) (budget_exhausted : bool)
  : M RunState (list CheckResult * bool) :=
  match kinds with
  | [] => mret_st (checks, budget_exhausted)
  | k :: kinds' =>
    match dependency_skip k checks with
    | Some because => run_loop kinds' (checks ++ [skipped k because]) budget_exhausted
    | None => fun s =>
      if budget_exhausted || (max_probes (budget eng) <? saturating_add_u32 (used s) (probe_cost k))
      then run_loop kinds' (checks ++ [skipped k BudgetExhausted]) true s
      else (let! result := run_check k checks in
            run_loop kinds' (checks ++ [result]) budget_exhausted) s
    end
  end.

Definition run : M W DiagnosticReport :=
  fun w0 =>
    let '(started_at, w1) := now w0 in
    let '((checks, exhausted), s) :=
      run_loop EXECUTION_ORDER [] false {| world := w1; used := 0 |} in
    let '(finished_at, w2) := now (world s) in
    ({| rp_started_at := started_at; rp_finished_at := finished_at; rp_budget := budget eng;
        rp_probes_used := used s; rp_budget_exhausted := exhausted; rp_checks := checks |}, w2).
End Run.
Arguments RunState : clear implicits.
