(* ===== verification/DoctorEngineProps.v ===== *)
(** * Network Doctor: what a diagnostic run guarantees

    Proved against any transport and clock that satisfy the interface
    [ObservedTransport]; the in-memory transport of probe.rs is an instance. *)

From S2P Require Import Prelude Time Text F64 DoctorCheck DoctorEngine.

(** A world in which the probes issued so far can be observed: the transport records each
    probe it is handed, the clock issues none. *)
Class ObservedTransport (W : Type) `{ProbeTransport W, Clock W} := {
  issued : W -> list Probe;
  issued_probe : forall p w, issued (snd (probe p w)) = issued w ++ [p];
  issued_now : forall w, issued (snd (now w)) = issued w
}.

(** [FixedClock]: the frozen clock of lib.rs. *)
Definition FixedClock (W : Type) (t : DateTime) : Clock W := fun w => (t, w).

#[global] Instance fake_observed t
  : @ObservedTransport FakeProbeTransport _ (FixedClock FakeProbeTransport t).
Proof. refine (Build_ObservedTransport _ _ (FixedClock _ t) fake_log _ _); done. Defined.

(** ** The dependency graph *)

(** [a] is a direct or indirect parent of [k]. *)
Inductive ancestor : CheckKind -> CheckKind -> Prop :=
  | ancestor_dep a k : In a (dependencies k) -> ancestor a k
  | ancestor_step a b k : In b (dependencies k) -> ancestor a b -> ancestor a k.

Lemma execution_order_complete k : In k EXECUTION_ORDER.
Proof. destruct k; simpl; tauto. Qed.

Lemma execution_order_nodup : List.NoDup EXECUTION_ORDER.
Proof. repeat constructor; simpl; intuition discriminate. Qed.

Lemma dependencies_precede k d :
  In d (dependencies k) -> forall pre post, EXECUTION_ORDER = pre ++ k :: post -> In d pre.
Proof.
  intros Hd pre post Heq.
  destruct k; simpl in Hd; try done; destruct Hd as [<-|[]];
    repeat (destruct pre as [|? pre]; simpl in Heq; [discriminate|];
            injection Heq as <- Heq; try (left; reflexivity); right).
Qed.

Lemma gateway_precedes pre post :
  EXECUTION_ORDER = pre ++ InternetReachability :: post -> In Gateway pre.
Proof.
  intros Heq. repeat (destruct pre as [|? pre]; simpl in Heq; [discriminate|];
                      injection Heq as <- Heq; try (left; reflexivity); right).
Qed.

Section Run.
Context {W : Type} `{ObservedTransport W}.
Variable eng : DiagnosticEngine.
Abbreviation St := (RunState W).

(** From [s] to [s'] exactly the probes [ps] were issued, each with the granted timeout,
    and the counter went up by their number. *)
Definition emits (ps : list Probe) (s s' : St) : Prop :=
  issued (world s') = issued (world s) ++ ps /\
  Forall (fun p => pr_timeout_ms p = per_probe_timeout_ms (budget eng)) ps /\
  (used s + Z.of_nat (length ps) <= u32_max -> used s' = used s + Z.of_nat (length ps)).

(** [m] issues at most [n] probes and its result satisfies [P]. *)
Definition bounded {A} (n : nat) (m : M St A) (P : A -> Prop) : Prop :=
  forall s, wp m (fun a s' => P a /\ exists ps, (length ps <= n)%nat /\ emits ps s s') s.

Lemma emits_refl s : emits [] s s.
Proof. split; [by rewrite app_nil_r|]. split; [constructor|]. simpl. lia. Qed.

Lemma emits_trans ps ps' s s1 s2 : emits ps s s1 -> emits ps' s1 s2 -> emits (ps ++ ps') s s2.
Proof.
  intros (Hi & Ht & Hu) (Hi' & Ht' & Hu'). split; [by rewrite Hi', Hi, app_assoc|].
  split; [by apply Forall_app|]. rewrite length_app, Nat2Z.inj_add. intros Hle.
  rewrite Hu'; rewrite Hu; lia.
Qed.

Lemma bounded_ret {A} (a : A) (P : A -> Prop) : P a -> bounded 0 (mret_st a) P.
Proof. intros Hp s. apply wp_ret. split; [done|]. exists []. split; [done|]. apply emits_refl. Qed.

Lemma bounded_bind {A B} n n' (m : M St A) (k : A -> M St B) P Q :
  bounded n m P -> (forall a, P a -> bounded n' (k a) Q) -> bounded (n + n') (mbind_st m k) Q.
Proof.
  intros Hm Hk s. apply wp_bind. eapply wp_mono; [apply Hm|].
  intros a s1 (Hp & ps & Hl & He). eapply wp_mono; [by apply Hk|].
  intros b s2 (Hq & ps' & Hl' & He'). split; [done|]. exists (ps ++ ps').
  rewrite length_app. split; [lia|]. by eapply emits_trans.
Qed.

Lemma bounded_weaken {A} n n' (m : M St A) P : (n <= n')%nat -> bounded n m P -> bounded n' m P.
Proof.
  intros Hn Hm s. eapply wp_mono; [apply Hm|]. intros a s' (Hp & ps & Hl & He).
  split; [done|]. exists ps. split; [lia|done].
Qed.

Lemma bounded_conseq {A} n (m : M St A) (P Q : A -> Prop) :
  bounded n m P -> (forall a, P a -> Q a) -> bounded n m Q.
Proof. intros Hm Hpq s. eapply wp_mono; [apply Hm|]. intros a s' (Hp & Hx). auto. Qed.

Lemma bounded_send r : bounded 1 (send eng r) (fun _ => True).
Proof.
  intros s. unfold wp, send. rewrite (surjective_pairing (probe _ _)). simpl.
  split; [done|]. eexists [_]. split; [done|]. split; [apply issued_probe|].
  split; [by repeat constructor|]. simpl. unfold saturating_add_u32. lia.
Qed.

Lemma bounded_now : bounded 0 (clock_now (W := W)) (fun _ => True).
Proof.
  intros s. unfold wp, clock_now. rewrite (surjective_pairing (now _)). simpl. split; [done|].
  exists []. split; [done|]. split; [simpl; by rewrite issued_now, app_nil_r|].
  split; [constructor|]. simpl. lia.
Qed.

Lemma bounded_measurement metric v u : bounded 0 (measurement (W := W) metric v u) (fun _ => True).
Proof.
  apply (bounded_bind 0 0 _ _ (fun _ => True)); [apply bounded_now|]. intros. by apply bounded_ret.
Qed.

Lemma bounded_push_some e metric v u : bounded 0 (push_some (W := W) e metric v u) (fun _ => True).
Proof.
  destruct v; [|by apply bounded_ret].
  apply (bounded_bind 0 0 _ _ (fun _ => True)); [apply bounded_measurement|].
  intros. by apply bounded_ret.
Qed.

(** ** The checks *)
Definition status_of (checks : list CheckResult) (k : CheckKind) : option CheckStatus :=
  cr_status <$> find checks k.

Definition ran (r : CheckResult) : Prop := cr_status r = Passed \/ cr_status r = Failed.

(** A failed check explains itself: its detail is a probe failure, or the finding of its kind,
    in agreement with the earlier results [prior] and with what was probed. *)
Definition explained (prior : list CheckResult) (r : CheckResult) : Prop :=
  cr_status r = Failed ->
  match cr_kind r, cr_detail r with
  | _, Some (DetProbeFailure _) => True
  | CollectorHealth, Some (DetCollector p c w) => p && c && w = false
  | AdapterLink, Some (DetLink up) => up = false
  | AddressDhcp, Some (DetAddress address lease) =>
      address = None \/ (lease <> LeaseValid /\ lease <> LeaseStatic)
  | DuplicateIp, Some (DetDuplicateIp address macs) =>
      (1 < length macs)%nat /\ confirmed_address prior = Some address
  | WifiQuality, Some (DetWifi _ (Some rssi) _) =>
      rssi < weak_rssi_dbm (dc_thresholds (config eng))
  | Gateway, Some (DetGatewayPing _ received) => received = 0
  | RouterHealth, Some (DetRouter responsive) => responsive = false
  | LossLatency, Some (DetLossLatency _ _) => True
  | Mtu, Some (DetMtu largest (Some _)) =>
      forall m, largest = Some m -> In m (dc_mtu_probe_sizes (config eng))
  | Dns, Some (DetDns resolvers) =>
      Forall (fun r => rv_independent r = false -> answered r = None) resolvers
  | RouteVpn, Some (DetRoute routes _) => length routes <> 1%nat
  | InternetReachability, Some (DetInternet reachable lan_ok) =>
      reachable = false /\
      exists st, status_of prior Gateway = Some st /\ (lan_ok = true <-> st = Passed)
  | _, _ => False
  end.

Section Checks.
Variable prior : list CheckResult.

Definition outcome (k : CheckKind) (r : CheckResult) : Prop :=
  cr_kind r = k /\ ran r /\ explained prior r.

Lemma outcome_failed_probe k e : outcome k (failed_probe k e).
Proof. split; [done|]. split; [by right|]. by destruct k. Qed.

Lemma outcome_conclude k pass e c d :
  (pass = false -> explained prior (conclude k false e c d)) -> outcome k (conclude k pass e c d).
Proof.
  intros Hx. split; [done|]. destruct pass; (split; [by (left + right)|]); [by intros [=]|]. auto.
Qed.

Lemma outcome_unexpected k : bounded 0 (unexpected (W := W) k) (outcome k).
Proof. apply bounded_ret, outcome_failed_probe. Qed.

Lemma outcome_fail_with k e : bounded 0 (fail_with (W := W) k e) (outcome k).
Proof. apply bounded_ret, outcome_failed_probe. Qed.

(** One step of a check: probes cost one, measurements nothing. *)
Ltac check_step :=
  match goal with
  | |- bounded _ (mbind_st (send _ _) _) _ =>
      eapply (bounded_bind 1 0 _ _ (fun _ => True)); [apply bounded_send|intros ? _]
  | |- bounded _ (mbind_st (measurement _ _ _) _) _ =>
      eapply (bounded_bind 0 0 _ _ (fun _ => True)); [apply bounded_measurement|intros ? _]
  | |- bounded _ (mbind_st (push_some _ _ _ _) _) _ =>
      eapply (bounded_bind 0 0 _ _ (fun _ => True)); [apply bounded_push_some|intros ? _]
  | |- bounded _ (unexpected _) _ => apply outcome_unexpected
  | |- bounded _ (fail_with _ _) _ => apply outcome_fail_with
  | |- bounded _ (mret_st (failed_probe _ _)) _ => apply bounded_ret, outcome_failed_probe
  | |- bounded _ (mret_st (conclude _ _ _ _ _)) _ =>
      apply bounded_ret, outcome_conclude; intros ? _; simpl
  | |- bounded _ (match ?x with _ => _ end) _ => destruct x
  end.

Lemma collector_ok : bounded 1 (check_collector eng) (outcome CollectorHealth).
Proof. unfold check_collector. repeat check_step; done. Qed.

Lemma adapter_link_ok : bounded 1 (check_adapter_link eng) (outcome AdapterLink).
Proof. unfold check_adapter_link. repeat check_step; done. Qed.

Lemma address_ok : bounded 1 (check_address eng) (outcome AddressDhcp).
Proof. unfold check_address. repeat check_step. destruct address, lease; naive_solver. Qed.

Lemma duplicate_ip_ok : bounded 1 (check_duplicate_ip eng prior) (outcome DuplicateIp).
Proof.
  unfold check_duplicate_ip. destruct (confirmed_address prior) eqn:Hc;
    [|apply (bounded_weaken 0); [lia|]]; repeat check_step.
  bprop. split; [lia|done].
Qed.

Lemma wifi_ok : bounded 1 (check_wifi eng) (outcome WifiQuality).
Proof. unfold check_wifi. repeat check_step; bprop; done. Qed.

Lemma router_ok : bounded 1 (check_router eng) (outcome RouterHealth).
Proof. unfold check_router. repeat check_step; done. Qed.

Lemma route_vpn_ok : bounded 1 (check_route_vpn eng) (outcome RouteVpn).
Proof. unfold check_route_vpn. repeat check_step. bprop. lia. Qed.

Lemma internet_ok st :
  status_of prior Gateway = Some st ->
  bounded 1 (check_internet eng prior) (outcome InternetReachability).
Proof.
  intros Hst. unfold check_internet. cbv zeta. repeat check_step; try done. split; [done|].
  exists st. split; [done|]. unfold status_of in Hst. destruct (find prior Gateway); [|done].
  injection Hst as Hst. simpl. rewrite Hst. by destruct st.
Qed.

Lemma ping_loop_ok n target sent rtts :
  bounded n (ping_loop eng n target sent rtts) (fun _ => True).
Proof.
  revert sent rtts. induction n as [|n IH]; intros sent rtts; simpl; [by apply bounded_ret|].
  apply (bounded_bind 1 n _ _ (fun _ => True)); [apply bounded_send|]. intros r _. apply IH.
Qed.

Lemma gateway_ok :
  bounded (Z.to_nat (dc_ping_count (config eng))) (check_gateway eng) (outcome Gateway).
Proof.
  rewrite <- (Nat.add_0_r (Z.to_nat _)). unfold check_gateway.
  eapply (bounded_bind _ 0); [apply ping_loop_ok|]. intros [sent rtts] _. repeat check_step.
  bprop. lia.
Qed.

Lemma loss_latency_ok :
  bounded (Z.to_nat (dc_ping_count (config eng))) (check_loss_latency eng) (outcome LossLatency).
Proof.
  rewrite <- (Nat.add_0_r (Z.to_nat _)). unfold check_loss_latency.
  eapply (bounded_bind _ 0); [apply ping_loop_ok|]. intros [sent rtts] _. cbv zeta.
  repeat check_step. done.
Qed.

Lemma dedup_length l : (length (dedup l) <= length l)%nat.
Proof.
  induction l as [|a [|b l] IH]; [done|done|].
  change (dedup (a :: b :: l)) with (if a =? b then dedup (b :: l) else a :: dedup (b :: l)).
  case_match; simpl in *; lia.
Qed.

Lemma mtu_loop_ok sizes passing silent :
  bounded (length sizes) (mtu_loop eng sizes passing silent)
    (fun o => match o with
              | inl (passing', _) => incl passing' (passing ++ sizes)
              | inr r => outcome Mtu r
              end).
Proof.
  revert passing silent. induction sizes as [|size sizes IH]; intros passing silent; simpl.
  { apply bounded_ret. rewrite app_nil_r. apply incl_refl. }
  apply (bounded_bind 1 (length sizes) _ _ (fun _ => True)); [apply bounded_send|].
  intros [[]|] _;
    try (apply (bounded_weaken 0); [lia|]; apply bounded_ret, outcome_failed_probe);
    (eapply bounded_conseq; [apply IH|]; intros [[p ?]|r]; [|done]; intros Hp x Hx;
     specialize (Hp x Hx); rewrite ?in_app_iff in *; simpl in *; tauto).
Qed.

Lemma dedup_incl l : incl (dedup l) l.
Proof.
  induction l as [|a [|b l] IH]; [apply incl_refl..|].
  change (dedup (a :: b :: l)) with (if a =? b then dedup (b :: l) else a :: dedup (b :: l)).
  case_match; intros x Hx; [by right; apply IH|]. destruct Hx as [->|Hx]; [by left|].
  right. by apply IH.
Qed.

Lemma iter_min_some l : l <> [] -> exists m, iter_min l = Some m.
Proof.
  intros Hl. unfold iter_min. destruct (iter_max (map Z.opp l)) eqn:E; [by eexists|].
  apply iter_max_none, map_eq_nil in E. done.
Qed.

Lemma mtu_ok :
  bounded (length (dc_mtu_probe_sizes (config eng))) (check_mtu eng) (outcome Mtu).
Proof.
  unfold check_mtu. cbv zeta. set (sizes := dedup _).
  assert (length sizes <= length (dc_mtu_probe_sizes (config eng)))%nat.
  { etrans; [apply dedup_length|]. by rewrite merge_sort_Permutation. }
  apply (bounded_weaken (length sizes + 0)); [lia|].
  eapply (bounded_bind _ 0); [apply mtu_loop_ok|].
  intros [[passing silent]|r] Hr; [|by apply bounded_ret].
  repeat check_step. bprop. destruct (iter_min_some silent) as [m ->]; [done|].
  intros m' [Hm' _]%iter_max_some. apply Hr, dedup_incl in Hm'.
  by rewrite (merge_sort_Permutation sizes_ge) in Hm'.
Qed.

Lemma query_resolver_ok r ind :
  bounded 1 (query_resolver eng r ind) (fun e => rv_independent e = ind).
Proof.
  apply (bounded_bind 1 0 _ _ (fun _ => True)); [apply bounded_send|]. intros. by apply bounded_ret.
Qed.

Lemma query_all_ok rs acc :
  Forall (fun e => rv_independent e = false) acc ->
  bounded (length rs) (query_all eng rs acc) (fun l =>
    length l = (length acc + length rs)%nat /\ Forall (fun e => rv_independent e = false) l).
Proof.
  revert acc. induction rs as [|r rs IH]; intros acc Hacc; simpl.
  { apply bounded_ret. split; [lia|done]. }
  apply (bounded_bind 1 (length rs) _ _ _ _ (query_resolver_ok r false)). intros e He.
  eapply bounded_conseq; [apply IH|]. { apply Forall_app. by repeat constructor. }
  intros l [Hl Hall]. rewrite length_app in Hl. simpl in Hl. split; [lia|done].
Qed.

Lemma filter_full {A} (p : A -> bool) l :
  (length l <= length (List.filter p l))%nat -> Forall (fun x => p x = true) l.
Proof.
  induction l as [|x l IH]; simpl; [constructor|]. pose proof (filter_length_le p l).
  destruct (p x) eqn:E; simpl; intros; [|lia]. constructor; [done|]. apply IH. lia.
Qed.

Lemma dns_ok :
  bounded (length (dc_configured_resolvers (config eng)) + 1) (check_dns eng) (outcome Dns).
Proof.
  unfold check_dns. cbv zeta.
  eapply bounded_bind; [apply query_all_ok; constructor|]. intros rs [Hlen Hind].
  apply (bounded_bind 1 0 _ _ _ _ (query_resolver_ok _ true)). intros ind Hi.
  repeat check_step.
  match goal with H : Nat.ltb _ _ = false |- _ => apply Nat.ltb_ge in H; rename H into Hf end.
  rewrite List.filter_app in Hf. simpl in Hf. rewrite Hi in Hf. simpl in Hf.
  rewrite app_nil_r, (filter_all _ rs) in Hf.
  2:{ eapply Forall_impl; [exact Hind|]. simpl. by intros e ->. }
  simpl in Hlen. rewrite <- Hlen in Hf. apply filter_full in Hf.
  apply Forall_app. split; [|repeat constructor; congruence].
  eapply Forall_impl; [exact Hf|]. simpl. intros e He _. by destruct (answered e).
Qed.

Lemma run_check_ok k :
  (k = InternetReachability -> exists st, status_of prior Gateway = Some st) ->
  bounded (Z.to_nat (probe_cost eng k)) (run_check eng k prior) (outcome k).
Proof.
  intros Hgw. destruct k; simpl; auto using collector_ok, adapter_link_ok, address_ok, duplicate_ip_ok, wifi_ok,
    gateway_ok, router_ok, loss_latency_ok, route_vpn_ok.
  - rewrite Nat2Z.id. apply mtu_ok.
  - replace (Z.to_nat _) with (length (dc_configured_resolvers (config eng)) + 1)%nat by lia.
    apply dns_ok.
  - destruct (Hgw eq_refl) as [st Hst]. by eapply internet_ok.
Qed.
End Checks.
(** ** The loop *)
Definition deps_passed (checks : list CheckResult) (k : CheckKind) : Prop :=
  Forall (fun d => status_of checks d = Some Passed) (dependencies k).

(** The status of [r] is what the statuses of its parents and the budget call for. *)
Definition justified (checks : list CheckResult) (exhausted : bool) (r : CheckResult) : Prop :=
  match cr_status r with
  | Passed | Failed => deps_passed checks (cr_kind r) /\ explained checks r
  | Skipped (DependencyFailed d) =>
      In d (dependencies (cr_kind r)) /\ status_of checks d = Some Failed
  | Skipped (DependencySkipped d) =>
      In d (dependencies (cr_kind r)) /\ exists b, status_of checks d = Some (Skipped b)
  | Skipped BudgetExhausted => deps_passed checks (cr_kind r) /\ exhausted = true
  end.

Definition budget_skipped (r : CheckResult) : Prop := cr_status r = Skipped BudgetExhausted.

(** Nothing runs after the first check the budget did not allow. *)
Definition stops (checks : list CheckResult) : Prop :=
  forall l1 r l2, checks = l1 ++ r :: l2 -> budget_skipped r -> Forall (fun r' => ~ ran r') l2.

Definition cost_sum (kinds : list CheckKind) : Z :=
  fold_right (fun k n => probe_cost eng k + n) 0 kinds.

Lemma cost_sum_app l l' : cost_sum (l ++ l') = cost_sum l + cost_sum l'.
Proof. induction l as [|k l IH]; simpl; [done|]. unfold cost_sum in *. simpl in *. lia. Qed.

Lemma iter_find_app {A} (p : A -> bool) l l' a :
  iter_find p l = Some a -> iter_find p (l ++ l') = Some a.
Proof. induction l as [|x l IH]; simpl; [done|]. destruct (p x); auto. Qed.

Lemma status_of_app checks l k st :
  status_of checks k = Some st -> status_of (checks ++ l) k = Some st.
Proof.
  unfold status_of. destruct (find checks k) as [c|] eqn:E; [|done].
  unfold find in *. by rewrite (iter_find_app _ _ l _ E).
Qed.

Lemma deps_passed_app checks l k : deps_passed checks k -> deps_passed (checks ++ l) k.
Proof. intros Hd. eapply Forall_impl; [exact Hd|]. intros d. apply status_of_app. Qed.

Lemma confirmed_address_app checks l a :
  confirmed_address checks = Some a -> confirmed_address (checks ++ l) = Some a.
Proof.
  unfold confirmed_address, find. intros (r & Hr & Hd)%bind_Some.
  by rewrite (iter_find_app _ _ l _ Hr).
Qed.

Lemma explained_app checks l r : explained checks r -> explained (checks ++ l) r.
Proof.
  unfold explained. intros Hx Hf. specialize (Hx Hf).
  destruct (cr_kind r), (cr_detail r) as [[]|]; try done.
  - destruct Hx as [? ?]. split; [done|]. by apply confirmed_address_app.
  - destruct Hx as (? & st & ? & ?). split; [done|]. exists st. split; [|done].
    by apply status_of_app.
Qed.

Lemma justified_app checks l e e' r :
  (e = true -> e' = true) -> justified checks e r -> justified (checks ++ l) e' r.
Proof.
  unfold justified. intros He. destruct (cr_status r) as [| |[]]; intros [Hd Hx];
    try (split; [by apply deps_passed_app|by auto using explained_app]).
  - split; [done|by apply status_of_app].
  - destruct Hx as [b Hb]. split; [done|]. exists b. by apply status_of_app.
Qed.

Lemma status_of_known checks k : In k (map cr_kind checks) -> exists st, status_of checks k = Some st.
Proof.
  intros (c & Hk & Hc)%in_map_iff. unfold status_of, find.
  destruct (iter_find _ checks) eqn:E; [by eexists|].
  apply iter_find_none in E. rewrite List.Forall_forall in E.
  specialize (E c Hc). by apply bool_decide_eq_false in E.
Qed.

(** The dependency scan either finds every parent passed or names a parent that is not. *)
Lemma dependency_scan_spec checks deps :
  Forall (fun d => In d (map cr_kind checks)) deps ->
  match dependency_scan deps checks with
  | None => Forall (fun d => status_of checks d = Some Passed) deps
  | Some (DependencyFailed d) => In d deps /\ status_of checks d = Some Failed
  | Some (DependencySkipped d) => In d deps /\ exists b, status_of checks d = Some (Skipped b)
  | Some BudgetExhausted => False
  end.
Proof.
  induction deps as [|d deps IH]; simpl; [constructor|]. intros [Hd Hds]%Forall_cons.
  destruct (status_of_known _ _ Hd) as [st Hst]. unfold status_of in *. rewrite Hst.
  specialize (IH Hds). destruct st as [| |b]; [|by auto|by eauto].
  destruct (dependency_scan deps checks) as [[]|]; try done; [| |by constructor];
    destruct IH; auto.
Qed.

(** What holds after the checks [pre] of the order were handled, starting from [s0]. *)
Record loop_inv (s0 : St) (pre : list CheckKind) (checks : list CheckResult) (exhausted : bool)
    (s : St) : Prop := {
  li_kinds : map cr_kind checks = pre;
  li_justified : Forall (justified checks exhausted) checks;
  li_exhausted : exhausted = true <-> Exists budget_skipped checks;
  li_stops : stops checks;
  li_probes : exists ps, emits ps s0 s /\ used s = Z.of_nat (length ps) /\
                used s <= max_probes (budget eng) /\ used s <= cost_sum pre;
  li_enough : exhausted = true -> max_probes (budget eng) < cost_sum EXECUTION_ORDER
}.
Lemma stops_snoc checks r :
  stops checks -> (Exists budget_skipped checks -> ~ ran r) -> stops (checks ++ [r]).
Proof.
  intros Hs Hr l1 x l2 Heq Hb. destruct l2 as [|y l2 _] using rev_ind; [constructor|].
  rewrite app_comm_cons, app_assoc in Heq. apply app_inj_tail in Heq as [-> ->].
  apply Forall_app. split; [by eapply Hs|]. constructor; [|constructor].
  apply Hr. apply Exists_app. right. by constructor.
Qed.

Lemma forall_justified_snoc checks e e' r :
  (e = true -> e' = true) -> Forall (justified checks e) checks -> justified (checks ++ [r]) e' r ->
  Forall (justified (checks ++ [r]) e') (checks ++ [r]).
Proof.
  intros He Hall Hr. apply Forall_app. split; [|by repeat constructor].
  eapply Forall_impl; [exact Hall|]. intros x. by apply justified_app.
Qed.

Hypothesis Hcost : forall k, 0 <= probe_cost eng k <= 17.
Hypothesis Hmax : max_probes (budget eng) <= u32_max.

Lemma cost_sum_nonneg l : 0 <= cost_sum l <= 17 * Z.of_nat (length l).
Proof.
  unfold cost_sum. induction l as [|k l IH]; simpl length; simpl fold_right; [lia|].
  pose proof (Hcost k). lia.
Qed.

Section Steps.
Context (s0 : St) (pre : list CheckKind) (k : CheckKind) (post : list CheckKind).
Hypothesis Horder : EXECUTION_ORDER = pre ++ k :: post.

Lemma scan_of checks e s :
  loop_inv s0 pre checks e s -> Forall (fun d => In d (map cr_kind checks)) (dependencies k).
Proof.
  intros Hi. apply List.Forall_forall. intros d Hd. rewrite (li_kinds _ _ _ _ _ Hi).
  by eapply dependencies_precede.
Qed.

Lemma gateway_known checks e s :
  loop_inv s0 pre checks e s -> k = InternetReachability ->
  exists st, status_of checks Gateway = Some st.
Proof.
  intros Hi ->. apply status_of_known. rewrite (li_kinds _ _ _ _ _ Hi).
  by eapply gateway_precedes.
Qed.

Lemma pre_length : (length pre < 12)%nat.
Proof. pose proof (f_equal length Horder) as Hl. rewrite length_app in Hl. simpl in Hl. lia. Qed.

Lemma probes_skip s :
  (exists ps, emits ps s0 s /\ used s = Z.of_nat (length ps) /\
     used s <= max_probes (budget eng) /\ used s <= cost_sum pre) ->
  exists ps, emits ps s0 s /\ used s = Z.of_nat (length ps) /\
     used s <= max_probes (budget eng) /\ used s <= cost_sum (pre ++ [k]).
Proof.
  intros (ps & He & Hu & Hm & Hc). exists ps. rewrite cost_sum_app. simpl. pose proof (Hcost k).
  split_and!; try done; lia.
Qed.

Lemma inv_dependency_skip checks e s b :
  loop_inv s0 pre checks e s -> dependency_skip k checks = Some b ->
  loop_inv s0 (pre ++ [k]) (checks ++ [skipped k b]) e s.
Proof.
  intros Hi Hd. pose proof (dependency_scan_spec _ _ (scan_of _ _ _ Hi)) as Hspec.
  unfold dependency_skip in Hd. rewrite Hd in Hspec. destruct Hi as [Hk Hj He Hs Hp Hen].
  assert (b <> BudgetExhausted) by (by destruct b).
  split; [by rewrite map_app, Hk| | | |by apply probes_skip|done].
  - eapply forall_justified_snoc; [by intros ?|done|]. unfold justified. simpl.
    destruct b as [d|d|]; [| |done]; destruct Hspec as [Hin Hx]; (split; [done|]).
    + by apply status_of_app.
    + destruct Hx as [b' Hb]. exists b'. by apply status_of_app.
  - rewrite He, Exists_app, Exists_cons, Exists_nil. unfold budget_skipped. simpl.
    intuition congruence.
  - apply stops_snoc; [done|]. intros _ [|]; discriminate.
Qed.

Lemma inv_budget_skip checks e s :
  loop_inv s0 pre checks e s -> dependency_skip k checks = None ->
  e || (max_probes (budget eng) <? saturating_add_u32 (used s) (probe_cost eng k)) = true ->
  loop_inv s0 (pre ++ [k]) (checks ++ [skipped k BudgetExhausted]) true s.
Proof.
  intros Hi Hd Hb. pose proof (dependency_scan_spec _ _ (scan_of _ _ _ Hi)) as Hspec.
  unfold dependency_skip in Hd. rewrite Hd in Hspec. destruct Hi as [Hk Hj He Hs Hp Hen].
  split; [by rewrite map_app, Hk| | | |by apply probes_skip|].
  - eapply forall_justified_snoc; [|done|]; [done|]. split; [by apply deps_passed_app|done].
  - split; [|done]. intros _. apply Exists_app. right. by constructor.
  - apply stops_snoc; [done|]. intros _ [|]; discriminate.
  - intros _. destruct e; [by auto|]. simpl in Hb. apply Z.ltb_lt in Hb.
    unfold saturating_add_u32 in Hb. destruct Hp as (ps & _ & _ & _ & Hc).
    rewrite Horder, cost_sum_app. unfold cost_sum at 2. simpl.
    pose proof (cost_sum_nonneg post) as Hpost. unfold cost_sum in Hpost. lia.
Qed.

Lemma inv_ran checks s r s' ps :
  loop_inv s0 pre checks false s -> used s0 = 0 -> dependency_skip k checks = None ->
  (max_probes (budget eng) <? saturating_add_u32 (used s) (probe_cost eng k)) = false ->
  outcome checks k r -> (length ps <= Z.to_nat (probe_cost eng k))%nat -> emits ps s s' ->
  loop_inv s0 (pre ++ [k]) (checks ++ [r]) false s'.
Proof.
  intros Hi Hz Hd Hb (Hk' & Hran & Hx) Hl Hem.
  pose proof (dependency_scan_spec _ _ (scan_of _ _ _ Hi)) as Hspec.
  unfold dependency_skip in Hd. rewrite Hd in Hspec. destruct Hi as [Hk Hj He Hs Hp Hen].
  assert (~ Exists budget_skipped checks) as Hno by (rewrite <- He; done).
  split; [by rewrite map_app, Hk; simpl; rewrite Hk'| | | | |done].
  - eapply forall_justified_snoc; [|done|]; [done|]. unfold justified.
    destruct Hran as [Hr|Hr]; rewrite Hr; (split; [rewrite Hk'; by apply deps_passed_app|by apply explained_app]).
  - split; [done|]. rewrite Exists_app, Exists_cons, Exists_nil. unfold budget_skipped, ran in *.
    destruct Hran as [Hr|Hr]; rewrite Hr; intros [|[|[]]]; done.
  - by apply stops_snoc.
  - destruct Hp as (ps0 & He0 & Hu & Hm & Hc). exists (ps0 ++ ps).
    pose proof (cost_sum_nonneg pre). pose proof pre_length. pose proof (Hcost k).
    pose proof Hem as (_ & _ & Hu'). unfold saturating_add_u32 in Hb. apply Z.ltb_ge in Hb.
    unfold u32_max in *. rewrite cost_sum_app, length_app, Nat2Z.inj_add. simpl.
    assert (used s' = used s + Z.of_nat (length ps)) as -> by (apply Hu'; lia).
    split; [by eapply emits_trans|]. lia.
Qed.
End Steps.

Lemma run_loop_inv s0 kinds pre checks e s :
  used s0 = 0 -> EXECUTION_ORDER = pre ++ kinds -> loop_inv s0 pre checks e s ->
  wp (run_loop eng kinds checks e)
     (fun '(checks', e') s' => loop_inv s0 EXECUTION_ORDER checks' e' s') s.
Proof.
  intros Hz. revert pre checks e s. induction kinds as [|k kinds IH]; intros pre checks e s Ho Hi.
  { rewrite app_nil_r in Ho. by rewrite Ho. }
  assert (EXECUTION_ORDER = (pre ++ [k]) ++ kinds) as Ho' by (by rewrite <- app_assoc).
  cbn [run_loop]. destruct (dependency_skip k checks) as [b|] eqn:Hd.
  { eapply IH; [exact Ho'|]. by eapply inv_dependency_skip. }
  unfold wp. destruct (_ || _) eqn:Hb.
  { eapply IH; [exact Ho'|]. by eapply inv_budget_skip. }
  apply orb_false_iff in Hb as [-> Hb]. apply wp_bind.
  eapply wp_mono; [apply run_check_ok; by eapply gateway_known|].
  intros r s' (Hout & ps & Hl & Hem). eapply IH; [exact Ho'|]. by eapply inv_ran.
Qed.

(** The state in which [run] starts its loop. *)
Lemma run_loop_start s0 : used s0 = 0 -> 0 <= max_probes (budget eng) -> loop_inv s0 [] [] false s0.
Proof.
  intros Hz Hm. split; [done|constructor| | | |done].
  - split; [done|]. intros Hx. inversion Hx.
  - intros l1 r l2 Heq. by destruct l1.
  - exists []. split; [apply emits_refl|]. unfold cost_sum. simpl. lia.
Qed.

#[local] Strategy 1000 [run_loop].

(** The report of [run] and the probes it issued. *)
Lemma run_inv w :
  0 <= max_probes (budget eng) ->
  wp (run eng) (fun rp w' => exists s0 s, used s0 = 0 /\ issued (world s0) = issued w /\
    issued (world s) = issued w' /\ used s = rp_probes_used rp /\
    loop_inv s0 EXECUTION_ORDER (rp_checks rp) (rp_budget_exhausted rp) s) w.
Proof.
  intros Hm. unfold wp, run. pose proof (issued_now w) as Hi.
  destruct (now w) as [t w1]. simpl in Hi.
  set (s0 := {| world := w1; used := 0 |}).
  pose proof (run_loop_inv s0 EXECUTION_ORDER [] [] false s0 eq_refl eq_refl
                (run_loop_start s0 eq_refl Hm)) as Hl. unfold wp in Hl. revert Hl.
  generalize (run_loop eng EXECUTION_ORDER [] false s0) as out. intros [[checks e] s] Hl.
  pose proof (issued_now (world s)) as Hi'. destruct (now (world s)) as [t' w2]. simpl in Hi'.
  cbn. exists s0, s. by rewrite Hi'.
Qed.
End Run.

(** ** The guarantees of a run *)
Section Guarantees.
Context {W : Type} `{ObservedTransport W}.
Context (c : DoctorConfig) (b : DiagnosticBudget) (eng : DiagnosticEngine).
Context (mp timeout : Z).

(** The engine was built by [with_clock] from an accepted configuration and an accepted
    budget; the counts are unsigned machine integers. *)
Definition accepted : Prop :=
  0 <= dc_ping_count c /\ 0 <= mp <= u32_max /\
  budget_new mp timeout = Ok b /\ with_clock c b = Ok eng.

Lemma validate_bounds :
  validate c = Ok tt ->
  (length (dc_configured_resolvers c) <= MAX_RESOLVERS)%nat /\
  dc_ping_count c <= MAX_PING_COUNT /\
  (length (dc_mtu_probe_sizes c) <= MAX_MTU_PROBE_SIZES)%nat.
Proof.
  unfold validate. repeat case_match; try done. intros _. bprop.
  repeat match goal with H : Nat.ltb _ _ = false |- _ => apply Nat.ltb_ge in H end. lia.
Qed.

Lemma accepted_engine :
  accepted -> config eng = c /\ budget eng = b /\ max_probes b = mp /\ validate c = Ok tt.
Proof.
  intros (_ & _ & Hb & He). unfold with_clock in He.
  destruct (validate c) as [[]|] eqn:Hv; [|done]. injection He as <-.
  unfold budget_new in Hb. repeat case_match; try done. by injection Hb as <-.
Qed.

Lemma accepted_cost : accepted -> forall k, 0 <= probe_cost eng k <= 17.
Proof.
  intros Ha. destruct (accepted_engine Ha) as (Hc & _ & _ & Hv). destruct Ha as (Hp & _).
  pose proof (validate_bounds Hv) as (Hr & Hpc & Hm).
  unfold MAX_RESOLVERS, MAX_PING_COUNT, MAX_MTU_PROBE_SIZES in *.
  unfold probe_cost. rewrite Hc. destruct k; lia.
Qed.

(** What [run_inv] says of an accepted engine. *)
Lemma accepted_run w : accepted ->
  wp (run eng) (fun rp w' => exists s0 s, used s0 = 0 /\ issued (world s0) = issued w /\
    issued (world s) = issued w' /\ used s = rp_probes_used rp /\
    loop_inv eng s0 EXECUTION_ORDER (rp_checks rp) (rp_budget_exhausted rp) s) w.
Proof.
  intros Ha. pose proof (accepted_cost Ha). destruct (accepted_engine Ha) as (_ & Hb & Hm & _).
  destruct Ha as (_ & Hmp & _). apply run_inv; [done|rewrite Hb, Hm; lia..].
Qed.

Lemma kinds_find (checks : list CheckResult) k r :
  List.NoDup (map cr_kind checks) -> In r checks -> cr_kind r = k -> find checks k = Some r.
Proof.
  unfold find. induction checks as [|x l IH]; simpl; [done|]. intros Hnd [->|Hin] Hk.
  - by rewrite bool_decide_eq_true_2.
  - apply NoDup_cons_iff in Hnd as [Hx Hnd]. rewrite bool_decide_eq_false_2; [by apply IH|].
    intros Heq. apply Hx. rewrite Heq, <- Hk. by apply in_map.
Qed.

Lemma ran_ancestors checks e a k :
  Forall (justified eng checks e) checks -> List.NoDup (map cr_kind checks) ->
  ancestor a k -> deps_passed checks k -> status_of checks a = Some Passed.
Proof.
  intros Hj Hnd Ha. induction Ha as [a k Hin|a d k Hin Ha IH]; intros Hd;
    unfold deps_passed in Hd; rewrite List.Forall_forall in Hd; specialize (Hd _ Hin); [done|].
  apply IH. unfold status_of in Hd. destruct (find checks d) as [r|] eqn:E; [|done].
  injection Hd as Hst. unfold find in E. apply iter_find_some in E as [Hr Hk].
  apply bool_decide_eq_true in Hk. rewrite List.Forall_forall in Hj. specialize (Hj _ Hr).
  unfold justified in Hj. rewrite Hst, Hk in Hj. by destruct Hj.
Qed.

(** Probe budget: a run issues exactly as many probes as it reports, never more than the
    budget grants, each with the granted timeout, so a diagnosis cannot flood the network. *)
Theorem run_within_budget w : accepted ->
  wp (run eng) (fun rp w' => exists ps, issued w' = issued w ++ ps /\
    Forall (fun p => pr_timeout_ms p = timeout) ps /\
    rp_probes_used rp = Z.of_nat (length ps) /\ rp_probes_used rp <= mp) w.
Proof.
  intros Ha. eapply wp_mono; [by apply accepted_run|]. intros rp w' (s0 & s & _ & Hi & Hi' & Hu & Hl).
  destruct (li_probes _ _ _ _ _ _ Hl) as (ps & (He & Ht & _) & Hlen & Hm & _).
  destruct (accepted_engine Ha) as (_ & Hb & Hmp & _). exists ps. rewrite <- Hi, <- Hi', <- Hu.
  rewrite Hb in *. rewrite Hmp in Hm. split_and!; try done.
  destruct Ha as (_ & _ & Hb' & _). unfold budget_new in Hb'. repeat case_match; try done.
  by injection Hb' as <-.
Qed.

(** Every check of the graph is reported once, in execution order, with a status its
    parents and the budget call for and, when it failed, with the finding that explains it;
    the report is marked partial exactly when the budget made it skip a check, and nothing
    runs after that. *)
Theorem run_report_justified w : accepted ->
  wp (run eng) (fun rp _ =>
    map cr_kind (rp_checks rp) = EXECUTION_ORDER /\
    Forall (justified eng (rp_checks rp) (rp_budget_exhausted rp)) (rp_checks rp) /\
    (rp_budget_exhausted rp = true <-> Exists budget_skipped (rp_checks rp)) /\
    stops (rp_checks rp)) w.
Proof.
  intros Ha. eapply wp_mono; [by apply accepted_run|]. intros rp w' (s0 & s & _ & _ & _ & _ & Hl).
  by destruct Hl.
Qed.

(** Dependency order: when a check ran, every direct and indirect parent of it passed, so
    a failed check is always the deepest known cause and never a consequence of another one. *)
Theorem ran_means_ancestors_passed w k a : accepted -> ancestor a k ->
  wp (run eng) (fun rp _ => forall r, report_check rp k = Some r -> ran r ->
    exists r', report_check rp a = Some r' /\ cr_status r' = Passed) w.
Proof.
  intros Ha Hanc. eapply wp_mono; [by apply accepted_run|].
  intros rp w' (s0 & s & _ & _ & _ & _ & Hl) r Hr Hran. destruct Hl as [Hk Hj _ _ _ _].
  pose proof Hr as [Hin Hkind]%iter_find_some. apply bool_decide_eq_true in Hkind.
  pose proof Hj as Hj'. rewrite List.Forall_forall in Hj'. specialize (Hj' _ Hin).
  assert (deps_passed (rp_checks rp) k) as Hd.
  { unfold justified in Hj'. rewrite Hkind in Hj'. by destruct Hran as [Hs|Hs]; rewrite Hs in Hj'; destruct Hj'. }
  assert (status_of (rp_checks rp) a = Some Passed) as Hst.
  { eapply ran_ancestors; eauto. rewrite Hk. apply execution_order_nodup. }
  unfold status_of, find in Hst. unfold report_check. destruct (iter_find _ _); [|done].
  injection Hst as Hst. by eexists.
Qed.

(** Progress: a budget at least the worst-case cost of all checks is never exhausted. *)
Theorem sufficient_budget_never_exhausted w : accepted -> cost_sum eng EXECUTION_ORDER <= mp ->
  wp (run eng) (fun rp _ => rp_budget_exhausted rp = false) w.
Proof.
  intros Ha Hle. eapply wp_mono; [by apply accepted_run|].
  intros rp w' (s0 & s & _ & _ & _ & _ & Hl). destruct (accepted_engine Ha) as (_ & Hb & Hmp & _).
  pose proof (li_enough _ _ _ _ _ _ Hl) as Hen. rewrite Hb, Hmp in Hen.
  destruct (rp_budget_exhausted rp); [|done]. specialize (Hen eq_refl). lia.
Qed.
End Guarantees.

