(* ===== verification/DoctorDiagnosis.v ===== *)
(** * Network Doctor: diagnoses

    crates/lattice-doctor/src/diagnosis.rs: the map from the failed checks of a report to
    typed diagnoses, and what it says of the report of a run. *)

From S2P Require Import Prelude Time Text F64 DoctorCheck DoctorEngine DoctorEngineProps.

Inductive DiagnosisKind :=
  | CollectorFault (privileged capture_ok worker_running : bool)
  | AdapterLinkDown
  | AddressMissing (lease : LeaseState)
  | DuplicateIpDiagnosis (address : string) (macs : list string)
  | WeakWifiQuality (rssi_dbm : Z)
  | GatewayUnreachable
  | RouterFault
  | LossLatencyDegraded (loss_percent : f64) (median_rtt_ms : option f64)
  | MtuBlackhole (largest_passing_bytes smallest_failing_bytes : option Z)
  | DnsFailure (resolvers : list ResolverEvidence)
  | RouteVpnConflict (default_routes : list RouteEntry)
  | InternetUnreachable (lan_ok : bool)
  | DiagnosticProbeFailure (check : CheckKind) (error : string).

Record Diagnosis := {
  d_kind : DiagnosisKind;
  d_evidence : list Measurement;
  d_confidence : Confidence;
  d_impact : string
}.

Definition INCONSISTENT_DETAIL : string := "diagnostic detail missing or inconsistent".

(** The match on the pair of kind and detail, after the early return on a probe failure. *)
Definition kind_for (r : CheckResult) : DiagnosisKind :=
  match cr_detail r with
  | Some (DetProbeFailure error) => DiagnosticProbeFailure (cr_kind r) error
  | _ =>
    match cr_kind r, cr_detail r with
    | CollectorHealth, Some (DetCollector p c w) => CollectorFault p c w
    | AdapterLink, _ => AdapterLinkDown
    | AddressDhcp, Some (DetAddress _ lease) => AddressMissing lease
    | DuplicateIp, Some (DetDuplicateIp address macs) => DuplicateIpDiagnosis address macs
    | WifiQuality, Some (DetWifi _ (Some rssi) _) => WeakWifiQuality rssi
    | Gateway, _ => GatewayUnreachable
    | RouterHealth, _ => RouterFault
    | LossLatency, Some (DetLossLatency loss med) => LossLatencyDegraded loss med
    | Mtu, Some (DetMtu largest smallest) => MtuBlackhole largest smallest
    | Dns, Some (DetDns resolvers) => DnsFailure resolvers
    | RouteVpn, Some (DetRoute default_routes _) => RouteVpnConflict default_routes
    | InternetReachability, Some (DetInternet _ lan_ok) => InternetUnreachable lan_ok
    | check, _ => DiagnosticProbeFailure check INCONSISTENT_DETAIL
    end
  end.

Definition impact_for (k : DiagnosisKind) : string :=
  match k with
  | CollectorFault _ _ _ =>
      "NeonHearth cannot observe the network; monitoring and protection are degraded."
  | AdapterLinkDown =>
      "No traffic can flow on this adapter; every dependent service is offline."
  | AddressMissing _ =>
      "The host has no usable IP address; nothing on the network can be reached."
  | DuplicateIpDiagnosis _ _ =>
      "Two devices claim the same address; connections will fail intermittently."
  | WeakWifiQuality _ => "Weak Wi-Fi signal causes slow transfers and dropped connections."
  | GatewayUnreachable =>
      "The router cannot be reached; all traffic beyond this host is blocked."
  | RouterFault =>
      "The router's management interface is unhealthy; visibility and control are reduced."
  | LossLatencyDegraded _ _ =>
      "Packet loss or latency is elevated; calls, streams, and games will stutter."
  | MtuBlackhole _ _ => "Large packets are silently dropped; some sites and VPNs will hang."
  | DnsFailure _ =>
      "Name resolution is failing; sites appear down even though the connection is up."
  | RouteVpnConflict _ =>
      "The default route is missing or contested; traffic may take a broken path."
  | InternetUnreachable true =>
      "The local network works but the internet is down; the fault is on the WAN side."
  | InternetUnreachable false =>
      "Neither the local network nor the internet is reachable from this host."
  | DiagnosticProbeFailure _ _ =>
      "A diagnostic probe could not run; this area of the network is unassessed."
  end.

Definition diagnosis_for (r : CheckResult) : Diagnosis :=
  let kind := kind_for r in
  {| d_kind := kind; d_evidence := cr_evidence r; d_confidence := cr_confidence r;
     d_impact := impact_for kind |}.

Definition is_failed (r : CheckResult) : bool :=
  match cr_status r with Failed => true | _ => false end.

Definition diagnose (report : DiagnosticReport) : list Diagnosis :=
  map diagnosis_for (List.filter is_failed (rp_checks report)).

(** ** Which check a diagnosis is about *)
Definition check_of (k : DiagnosisKind) : CheckKind :=
  match k with
  | CollectorFault _ _ _ => CollectorHealth
  | AdapterLinkDown => AdapterLink
  | AddressMissing _ => AddressDhcp
  | DuplicateIpDiagnosis _ _ => DuplicateIp
  | WeakWifiQuality _ => WifiQuality
  | GatewayUnreachable => Gateway
  | RouterFault => RouterHealth
  | LossLatencyDegraded _ _ => LossLatency
  | MtuBlackhole _ _ => Mtu
  | DnsFailure _ => Dns
  | RouteVpnConflict _ => RouteVpn
  | InternetUnreachable _ => InternetReachability
  | DiagnosticProbeFailure check _ => check
  end.

Lemma kind_for_check r : check_of (kind_for r) = cr_kind r.
Proof.
  unfold kind_for. destruct (cr_detail r) as [[]|]; try done; destruct (cr_kind r); try done.
  all: by match goal with |- context [match ?o with Some _ => _ | None => _ end] => destruct o end.
Qed.

(** The fallback for an inconsistent detail is dead code on a failed check that explains
    itself. *)
Lemma kind_for_explained eng prior r c e :
  explained eng prior r -> cr_status r = Failed ->
  kind_for r = DiagnosticProbeFailure c e -> cr_detail r = Some (DetProbeFailure e).
Proof.
  unfold explained, kind_for. intros Hx Hf. specialize (Hx Hf).
  destruct (cr_detail r) as [[]|]; try (intros [= _ ->]; done);
    destruct (cr_kind r); try done; by repeat case_match.
Qed.

Section Diagnoses.
Context {W : Type} `{ObservedTransport W}.
Context (c : DoctorConfig) (b : DiagnosticBudget) (eng : DiagnosticEngine).
Context (mp timeout : Z).

(** The diagnoses of [rp] and the failed checks they come from. *)
Lemma diagnose_in rp d :
  In d (diagnose rp) <-> exists r, In r (rp_checks rp) /\ cr_status r = Failed /\ d = diagnosis_for r.
Proof.
  unfold diagnose. rewrite in_map_iff. setoid_rewrite filter_In. unfold is_failed. split.
  - intros (r & <- & Hin & Hf). exists r. by destruct (cr_status r).
  - intros (r & Hin & Hf & ->). exists r. by rewrite Hf.
Qed.

(** What the loop invariant says of a failed check. *)
Lemma failed_check_facts s0 s rp r :
  loop_inv eng s0 EXECUTION_ORDER (rp_checks rp) (rp_budget_exhausted rp) s (W := W) ->
  In r (rp_checks rp) -> cr_status r = Failed ->
  explained eng (rp_checks rp) r /\
  forall a, ancestor a (cr_kind r) -> status_of (rp_checks rp) a = Some Passed.
Proof.
  intros Hl Hin Hf. destruct Hl as [Hk Hj _ _ _ _].
  pose proof Hj as Hj'. rewrite List.Forall_forall in Hj'. specialize (Hj' _ Hin).
  unfold justified in Hj'. rewrite Hf in Hj'. destruct Hj' as [Hd Hx]. split; [done|].
  intros a Ha. eapply ran_ancestors; eauto. rewrite Hk. apply execution_order_nodup.
Qed.

Lemma status_of_in (checks : list CheckResult) k st :
  status_of checks k = Some st -> exists r, In r checks /\ cr_kind r = k /\ cr_status r = st.
Proof.
  unfold status_of, find. destruct (iter_find _ checks) as [r|] eqn:E; [|done]. intros [= <-].
  apply iter_find_some in E as [Hin Hk]. apply bool_decide_eq_true in Hk. by exists r.
Qed.

(** Results are unique by kind when the kinds are. *)
Lemma status_of_unique (checks : list CheckResult) r :
  List.NoDup (map cr_kind checks) -> In r checks -> status_of checks (cr_kind r) = Some (cr_status r).
Proof. intros Hnd Hin. unfold status_of. by erewrite kinds_find. Qed.

(** Root causes only: the diagnoses of a run are exactly its failed checks, in order; no
    diagnosed check is a direct or indirect parent of another diagnosed check, so a
    consequence is never diagnosed beside its cause; and a check is called inconclusive only
    because of the probe error it recorded, never for an inconsistent detail. *)
Theorem diagnoses_are_root_causes w : accepted c b eng mp timeout ->
  wp (run eng) (fun rp _ =>
    map (fun d => check_of (d_kind d)) (diagnose rp) =
      map cr_kind (List.filter is_failed (rp_checks rp)) /\
    (forall d d', In d (diagnose rp) -> In d' (diagnose rp) ->
       ~ ancestor (check_of (d_kind d)) (check_of (d_kind d'))) /\
    (forall d k e, In d (diagnose rp) -> d_kind d = DiagnosticProbeFailure k e ->
       exists r, In r (rp_checks rp) /\ cr_kind r = k /\ cr_detail r = Some (DetProbeFailure e))) w.
Proof.
  intros Ha. eapply wp_mono; [by eapply accepted_run|].
  intros rp w' (s0 & s & _ & _ & _ & _ & Hl). split_and!.
  - unfold diagnose. rewrite map_map. apply map_ext. apply kind_for_check.
  - intros d d' (r & Hin & Hf & ->)%diagnose_in (r' & Hin' & Hf' & ->)%diagnose_in Hanc.
    simpl in Hanc. rewrite !kind_for_check in Hanc.
    destruct (failed_check_facts _ _ _ _ Hl Hin' Hf') as [_ Hp]. specialize (Hp _ Hanc).
    rewrite status_of_unique in Hp; [congruence| |done].
    rewrite (li_kinds _ _ _ _ _ _ Hl). apply execution_order_nodup.
  - intros d k e (r & Hin & Hf & ->)%diagnose_in Hk. exists r. simpl in Hk.
    destruct (failed_check_facts _ _ _ _ Hl Hin Hf) as [Hx _].
    split; [done|]. split; [|by eapply kind_for_explained].
    by rewrite <- kind_for_check, Hk.
Qed.
End Diagnoses.
