(* ===== verification/DoctorRepair.v ===== *)
(** * Network Doctor: repair classification

    crates/lattice-doctor/src/repair.rs: approval tokens, the plan proposed for a diagnosis,
    and the repairs an executor may run. *)

From stdpp Require Import pretty.
From S2P Require Import Prelude Time Text F64 DoctorCheck DoctorEngine DoctorEngineProps.
From S2P Require Import DoctorDiagnosis.

Definition MAX_APPROVAL_ID_BYTES : Z := 128.

Record ApprovalId := { approval_token : string }.

Definition approval_try_new (token : string) : result ApprovalId DoctorError :=
  if str_is_empty token || (MAX_APPROVAL_ID_BYTES <? str_len token) || has_control token
  then Err InvalidApproval
  else Ok {| approval_token := token |}.

Inductive RepairClass :=
  | ClassSafeAutomatic | ClassApprovalRequiredReversible | ClassGuidedPhysical
  | ClassObservationOnly.

Inductive SafeAction :=
  | RestartCollectorWorker | RefreshAppCaches | RenewCollectorLease | RetryRouterSession
  | RepairTailscaleServe.

Inductive ApprovalAction :=
  | ResetAdapter (interface : string)
  | ChangeDnsServers (servers : list string)
  | SetDhcpReservation (device address : string)
  | BlockDevice (device : string)
  | UnblockDevice (device : string)
  | RebootRouter
  | RenewDhcpLease (interface : string)
  | SetInterfaceMtu (interface : string) (mtu : Z).

Inductive GuidedAction := CheckCables | MoveHardware | ContactIsp | FactoryReset | InstallFirmware.

Inductive RepairPlan :=
  | SafeAutomatic (action : SafeAction) (rationale : string)
  | ApprovalRequiredReversible (action : ApprovalAction) (rationale : string)
  | GuidedPhysical (action : GuidedAction) (rationale : string)
  | ObservationOnly (rationale : string).

Definition plan_class (p : RepairPlan) : RepairClass :=
  match p with
  | SafeAutomatic _ _ => ClassSafeAutomatic
  | ApprovalRequiredReversible _ _ => ClassApprovalRequiredReversible
  | GuidedPhysical _ _ => ClassGuidedPhysical
  | ObservationOnly _ => ClassObservationOnly
  end.

Record RepairContext := {
  rc_interface : string;
  lease_renewal_severs_only_management_path : bool;
  fallback_dns_servers : list string
}.

Definition plan_repair (diagnosis : DiagnosisKind) (context : RepairContext) : RepairPlan :=
  match diagnosis with
  | CollectorFault _ _ _ =>
      SafeAutomatic RestartCollectorWorker
        "restarting the NeonHearth worker is local, safe, and reversible"
  | AdapterLinkDown =>
      ApprovalRequiredReversible (ResetAdapter (rc_interface context))
        "an adapter reset briefly disconnects the host and needs approval"
  | AddressMissing _ =>
      if lease_renewal_severs_only_management_path context
      then ApprovalRequiredReversible (RenewDhcpLease (rc_interface context))
             "renewing this lease could sever the only management path, so it must be approved"
      else SafeAutomatic RenewCollectorLease
             "lease renewal cannot sever the management path here"
  | DuplicateIpDiagnosis address macs =>
      ApprovalRequiredReversible (SetDhcpReservation (default EmptyString (hd_error macs)) address)
        "a DHCP reservation change affects another device and needs approval"
  | WeakWifiQuality _ =>
      GuidedPhysical MoveHardware
        "signal strength is a physical placement problem the Doctor cannot change remotely"
  | GatewayUnreachable =>
      ApprovalRequiredReversible RebootRouter
        "a router reboot disconnects every device and needs approval"
  | RouterFault =>
      SafeAutomatic RetryRouterSession
        "retrying the router management session is local and harmless"
  | LossLatencyDegraded _ _ =>
      ObservationOnly
        "degradation needs more samples before any disruptive change is worth proposing"
  | MtuBlackhole (Some mtu) _ =>
      ApprovalRequiredReversible (SetInterfaceMtu (rc_interface context) mtu)
        "lowering the interface MTU alters traffic for the whole host and needs approval"
  | MtuBlackhole None _ =>
      ObservationOnly "no working MTU was measured, so no safe value can be proposed"
  | DnsFailure _ =>
      if bool_decide (fallback_dns_servers context = [])
      then ObservationOnly "no known-good fallback resolver is configured"
      else ApprovalRequiredReversible (ChangeDnsServers (fallback_dns_servers context))
             "changing DNS servers alters resolution for the whole host and needs approval"
  | RouteVpnConflict _ =>
      ObservationOnly
        "route and VPN configuration belongs to the owner; the Doctor only reports the conflict"
  | InternetUnreachable true =>
      GuidedPhysical ContactIsp "the LAN is healthy, so the outage is on the provider side"
  | InternetUnreachable false =>
      ApprovalRequiredReversible RebootRouter
        "both LAN and WAN are down; a router reboot needs approval"
  | DiagnosticProbeFailure _ _ =>
      ObservationOnly "the probe itself failed; no repair can be justified from it"
  end.

Inductive StateKey :=
  | WorkerState | CacheState | DhcpLease | RouterSession | TailscaleConfig | AdapterConfig
  | DnsServers | DhcpReservations | FirewallRules.

Record ApprovedRepair := { ar_action : ApprovalAction; ar_approval : ApprovalId }.

Inductive ExecutableRepair :=
  | Safe (action : SafeAction)
  | Approved (approved : ApprovedRepair).

Definition repair_class (r : ExecutableRepair) : RepairClass :=
  match r with
  | Safe _ => ClassSafeAutomatic
  | Approved _ => ClassApprovalRequiredReversible
  end.

Definition reversible (r : ExecutableRepair) : bool :=
  match r with
  | Safe (RefreshAppCaches | RepairTailscaleServe) => true
  | Safe _ => false
  | Approved _ => true
  end.

Definition state_keys (r : ExecutableRepair) : list StateKey :=
  match r with
  | Safe RestartCollectorWorker => [WorkerState]
  | Safe RefreshAppCaches => [CacheState]
  | Safe RenewCollectorLease => [DhcpLease]
  | Safe RetryRouterSession => [RouterSession]
  | Safe RepairTailscaleServe => [TailscaleConfig]
  | Approved approved =>
    match ar_action approved with
    | ResetAdapter _ | SetInterfaceMtu _ _ => [AdapterConfig]
    | ChangeDnsServers _ => [DnsServers]
    | SetDhcpReservation _ _ => [DhcpReservations]
    | BlockDevice _ | UnblockDevice _ => [FirewallRules]
    | RebootRouter => [RouterSession]
    | RenewDhcpLease _ => [DhcpLease]
    end
  end.

Definition describe (r : ExecutableRepair) : string :=
  match r with
  | Safe RestartCollectorWorker => "restart_collector_worker"
  | Safe RefreshAppCaches => "refresh_app_caches"
  | Safe RenewCollectorLease => "renew_collector_lease"
  | Safe RetryRouterSession => "retry_router_session"
  | Safe RepairTailscaleServe => "repair_tailscale_serve"
  | Approved approved =>
    match ar_action approved with
    | ResetAdapter interface => "reset_adapter " +:+ interface
    | ChangeDnsServers servers => "change_dns_servers " +:+ str_join "," servers
    | SetDhcpReservation device address =>
        "set_dhcp_reservation " +:+ device +:+ " -> " +:+ address
    | BlockDevice device => "block_device " +:+ device
    | UnblockDevice device => "unblock_device " +:+ device
    | RebootRouter => "reboot_router"
    | RenewDhcpLease interface => "renew_dhcp_lease " +:+ interface
    | SetInterfaceMtu interface mtu => "set_interface_mtu " +:+ interface +:+ " " +:+ pretty mtu
    end
  end.

(** ** What warrants a plan *)
Section Plans.
Context {W : Type} `{ObservedTransport W}.
Context (c : DoctorConfig) (b : DiagnosticBudget) (eng : DiagnosticEngine).
Context (mp timeout : Z).

(** The measurements in [checks] that justify proposing [p]. *)
Definition warranted (checks : list CheckResult) (context : RepairContext) (p : RepairPlan) : Prop :=
  match p with
  | SafeAutomatic RestartCollectorWorker _ => status_of checks CollectorHealth = Some Failed
  | SafeAutomatic RenewCollectorLease _ =>
      status_of checks AddressDhcp = Some Failed /\
      lease_renewal_severs_only_management_path context = false
  | SafeAutomatic RetryRouterSession _ => status_of checks RouterHealth = Some Failed
  | SafeAutomatic _ _ => False
  | ApprovalRequiredReversible a _ =>
    match a with
    | ResetAdapter i => i = rc_interface context /\ status_of checks AdapterLink = Some Failed
    | RenewDhcpLease i => i = rc_interface context /\ status_of checks AddressDhcp = Some Failed
    | SetDhcpReservation device address =>
        confirmed_address checks = Some address /\
        exists r macs, In r checks /\ cr_detail r = Some (DetDuplicateIp address macs) /\
          In device macs /\ (1 < length macs)%nat
    | SetInterfaceMtu i mtu =>
        i = rc_interface context /\ In mtu (dc_mtu_probe_sizes (config eng)) /\
        status_of checks Mtu = Some Failed
    | ChangeDnsServers servers =>
        servers = fallback_dns_servers context /\ servers <> [] /\
        status_of checks Dns = Some Failed
    | RebootRouter => exists st, status_of checks Gateway = Some st /\ st <> Passed
    | BlockDevice _ | UnblockDevice _ => False
    end
  | GuidedPhysical ContactIsp _ =>
      status_of checks Gateway = Some Passed /\ status_of checks InternetReachability = Some Failed
  | GuidedPhysical MoveHardware _ => status_of checks WifiQuality = Some Failed
  | GuidedPhysical _ _ => False
  | ObservationOnly _ => True
  end.

Lemma plan_warranted checks context r :
  List.NoDup (map cr_kind checks) -> In r checks -> cr_status r = Failed ->
  explained eng checks r -> warranted checks context (plan_repair (kind_for r) context).
Proof.
  intros Hnd Hin Hf Hx. pose proof (status_of_unique _ _ Hnd Hin) as Hst. rewrite Hf in Hst.
  specialize (Hx Hf). unfold kind_for.
  destruct (cr_detail r) as [[]|] eqn:Hd; [done|..]; destruct (cr_kind r); try done; simpl in *;
    repeat case_match; bprop; try done; simplify_eq; try by eauto.
  - destruct Hx as [Hlen Hc]. split; [done|]. destruct macs as [|m macs]; [simpl in Hlen; lia|].
    exists r, (m :: macs). simpl. auto.
  - split; [done|]. split; [by apply Hx|done].
  - destruct Hx as (_ & st & Hg & Hl). destruct st; naive_solver.
  - destruct Hx as (_ & st & Hg & Hl). exists st. split; [done|]. naive_solver.
Qed.

(** Repairs follow evidence: every plan proposed for a diagnosis of a run is warranted by
    what the run measured. The router reboot is only proposed when the gateway check did not
    pass, a reservation only for a device that answered for the confirmed address beside
    another one, an MTU only among the probed sizes, and a lease is renewed without approval
    only when that cannot cut the management path; no device is ever blocked by a plan. *)
Theorem repairs_follow_evidence w context : accepted c b eng mp timeout ->
  wp (run eng) (fun rp _ => forall d, In d (diagnose rp) ->
    warranted (rp_checks rp) context (plan_repair (d_kind d) context)) w.
Proof.
  intros Ha. eapply wp_mono; [by eapply accepted_run|].
  intros rp w' (s0 & s & _ & _ & _ & _ & Hl) d (r & Hin & Hf & ->)%diagnose_in.
  apply plan_warranted; try done.
  - rewrite (li_kinds _ _ _ _ _ _ Hl). apply execution_order_nodup.
  - by eapply failed_check_facts.
Qed.
End Plans.
