(* ===== verification/DoctorExecutor.v ===== *)
(** * Network Doctor: the repair executor

    crates/lattice-doctor/src/executor.rs: snapshot, apply, verify and roll back one repair.
    The state threaded through [execute] is the world (transport and clock) with the event
    log the execution appends to. [Display] of an [f64] is the parameter [f64_display]. *)

From S2P Require Import Prelude Time Text F64 DoctorCheck DoctorRepair.

Inductive RepairTransportError :=
  | ErrSnapshot (what : string)
  | ErrApply (what : string)
  | ErrRestore (what : string)
  | ErrMeasure (what : string).

Definition transport_error_to_string (e : RepairTransportError) : string :=
  match e with
  | ErrSnapshot what => "snapshot failed: " +:+ what
  | ErrApply what => "apply failed: " +:+ what
  | ErrRestore what => "restore failed: " +:+ what
  | ErrMeasure what => "measurement failed: " +:+ what
  end.

Record StateEntry := { se_key : StateKey; se_value : string }.

(** The side-effect boundary for repairs. *)
Class RepairTransport (W : Type) := {
  snapshot : list StateKey -> M W (result (list StateEntry) RepairTransportError);
  apply_repair : ExecutableRepair -> M W (result unit RepairTransportError);
  restore : list StateEntry -> M W (result unit RepairTransportError);
  measure : CheckKind -> M W (result (list Measurement) RepairTransportError)
}.

Inductive MetricDirection := LowerIsBetter | HigherIsBetter.

Record Symptom := {
  sy_check : CheckKind;
  sy_metric : Metric;
  sy_direction : MetricDirection;
  min_meaningful_delta : f64
}.

Definition symptom_new (check : CheckKind) (metric : Metric) (direction : MetricDirection)
    (delta : f64) : result Symptom DoctorError :=
  if negb (f64_is_finite delta) || f64_le delta f64_zero
  then Err (InvalidSymptom "min_meaningful_delta must be finite and positive")
  else Ok {| sy_check := check; sy_metric := metric; sy_direction := direction;
             min_meaningful_delta := delta |}.

Inductive Verdict := Improved | Unchanged | Regressed.

Record Verification := { v_verdict : Verdict; v_before : Measurement; v_after : Measurement }.

Inductive RollbackSkipReason := NotNeeded | NotReversible.

Inductive RollbackOutcome :=
  | RollbackNotAttempted (reason : RollbackSkipReason)
  | RollbackSucceeded
  | RollbackFailed (error : string).

Inductive RepairEventKind :=
  | EvStarted (class : RepairClass) (description : string)
  | EvSnapshotted (keys : list StateKey) (baseline : Measurement)
  | EvApplied
  | EvApplyFailed (error : string)
  | EvVerified (verdict : Verdict) (before after : Measurement)
  | EvVerificationFailed (error : string)
  | EvRolledBack (outcome : RollbackOutcome).

Record RepairEvent := { re_sequence : Z; re_at : DateTime; re_kind : RepairEventKind }.

Inductive RepairOutcome :=
  | Completed (verdict : Verdict)
  | SnapshotFailed (error : string)
  | BaselineFailed (error : string)
  | ApplyFailed (error : string)
  | VerificationFailed (error : string).

Record RepairReport := {
  rr_class : RepairClass;
  rr_description : string;
  rr_outcome : RepairOutcome;
  rr_verification : option Verification;
  rr_rollback : RollbackOutcome;
  rr_events : list RepairEvent
}.

(** [{:?}] of a [Metric]. *)
Definition metric_debug (m : Metric) : string :=
  match m with
  | CollectorPrivileged => "CollectorPrivileged"
  | CaptureHealthy => "CaptureHealthy"
  | WorkerRunning => "WorkerRunning"
  | LinkUp => "LinkUp"
  | LinkSpeedMbps => "LinkSpeedMbps"
  | AddressPresent => "AddressPresent"
  | LeaseValidMetric => "LeaseValid"
  | ConflictingMacCount => "ConflictingMacCount"
  | RssiDbm => "RssiDbm"
  | RetryPercent => "RetryPercent"
  | RttMs => "RttMs"
  | LossPercent => "LossPercent"
  | DnsLatencyMs => "DnsLatencyMs"
  | ResolverFailureCount => "ResolverFailureCount"
  | DefaultRouteCount => "DefaultRouteCount"
  | RouterResponsive => "RouterResponsive"
  | PassingMtuBytes => "PassingMtuBytes"
  | FailingMtuBytes => "FailingMtuBytes"
  | ReachabilitySuccess => "ReachabilitySuccess"
  end.

Definition compare (symptom : Symptom) (before after : f64) : Verdict :=
  let improvement := match sy_direction symptom with
                     | LowerIsBetter => f64_sub before after
                     | HigherIsBetter => f64_sub after before
                     end in
  if f64_le (min_meaningful_delta symptom) improvement then Improved
  else if f64_le improvement (f64_neg (min_meaningful_delta symptom)) then Regressed
  else Unchanged.

Section Execute.
Context {W : Type} `{RepairTransport W, Clock W}.
Variable f64_display : f64 -> string.

Record ExecState := { x_world : W; x_events : list RepairEvent }.

(** A transport call. *)
Definition call {A} (m : M W A) : M ExecState A :=
  fun s => let '(a, w) := m (x_world s) in (a, {| x_world := w; x_events := x_events s |}).

(** [EventLog::push]: [len() as u32] wraps. *)
Definition push (kind : RepairEventKind) : M ExecState unit :=
  fun s =>
    let sequence := Z.of_nat (length (x_events s)) mod 2 ^ 32 in
    let '(t, w) := now (x_world s) in
    (tt, {| x_world := w;
            x_events := x_events s ++ [{| re_sequence := sequence; re_at := t; re_kind := kind |}] |}).

Definition find_metric (symptom : Symptom) (measurements : list Measurement)
  : result Measurement string :=
  ok_or (iter_find (fun m => bool_decide (m_metric m = sy_metric symptom)) measurements)
    ("symptom metric " +:+ metric_debug (sy_metric symptom) +:+ " missing from re-measurement").

Definition measure_symptom (symptom : Symptom) : M ExecState (result Measurement string) :=
  let! r := call (measure (sy_check symptom)) in
  mret_st (match r with
           | Err error => Err (transport_error_to_string error)
           | Ok measurements => find_metric symptom measurements
           end).

Definition finite (m : Measurement) : result Measurement string :=
  if f64_is_finite (m_value m) then Ok m
  else Err ("symptom metric " +:+ metric_debug (m_metric m) +:+
            " measured a non-finite value (" +:+ f64_display (m_value m) +:+ ")").

(** [measure_symptom(..).await.and_then(finite)] *)
Definition measure_finite (symptom : Symptom) : M ExecState (result Measurement string) :=
  let! r := measure_symptom symptom in mret_st (result_bind r finite).

Definition roll_back (repair : ExecutableRepair) (entries : list StateEntry) (symptom : Symptom)
    (baseline : Measurement) : M ExecState RollbackOutcome :=
  let! outcome :=
    (if reversible repair then
       let! r := call (restore entries) in
       match r with
       | Ok _ =>
         let! m := measure_finite symptom in
         mret_st (match m with
           | Ok restored =>
             match compare symptom (m_value baseline) (m_value restored) with
             | Regressed => RollbackFailed
                 ("restore succeeded but the symptom did not return to baseline: before " +:+
                  f64_display (m_value baseline) +:+ " after rollback " +:+
                  f64_display (m_value restored))
             | Improved | Unchanged => RollbackSucceeded
             end
           | Err error => RollbackFailed ("restore succeeded but could not be verified: " +:+ error)
           end)
       | Err error => mret_st (RollbackFailed (transport_error_to_string error))
       end
     else mret_st (RollbackNotAttempted NotReversible)) in
  let! _ := push (EvRolledBack outcome) in
  mret_st outcome.

Definition finish (class : RepairClass) (description : string) (outcome : RepairOutcome)
    (verification : option Verification) (rollback : RollbackOutcome) : M ExecState RepairReport :=
  fun s => ({| rr_class := class; rr_description := description; rr_outcome := outcome;
               rr_verification := verification; rr_rollback := rollback;
               rr_events := x_events s |}, s).

Definition execute_steps (repair : ExecutableRepair) (symptom : Symptom) : M ExecState RepairReport :=
  let class := repair_class repair in
  let description := describe repair in
  let! _ := push (EvStarted class description) in
  let keys := state_keys repair in
  let! snap := call (snapshot keys) in
  match snap with
  | Err error =>
    finish class description (SnapshotFailed (transport_error_to_string error)) None
      (RollbackNotAttempted NotNeeded)
  | Ok entries =>
    let! base := measure_finite symptom in
    match base with
    | Err error =>
      finish class description (BaselineFailed error) None (RollbackNotAttempted NotNeeded)
    | Ok baseline =>
      let! _ := push (EvSnapshotted keys baseline) in
      let! applied := call (apply_repair repair) in
      match applied with
      | Err error =>
        let! _ := push (EvApplyFailed (transport_error_to_string error)) in
        let! rollback := roll_back repair entries symptom baseline in
        finish class description (ApplyFailed (transport_error_to_string error)) None rollback
      | Ok _ =>
        let! _ := push EvApplied in
        let! re := measure_finite symptom in
        match re with
        | Err error =>
          let! _ := push (EvVerificationFailed error) in
          let! rollback := roll_back repair entries symptom baseline in
          finish class description (VerificationFailed error) None rollback
        | Ok after =>
          let verdict := compare symptom (m_value baseline) (m_value after) in
          let! _ := push (EvVerified verdict baseline after) in
          let! rollback :=
            match verdict with
            | Regressed => roll_back repair entries symptom baseline
            | _ => mret_st (RollbackNotAttempted NotNeeded)
            end in
          finish class description (Completed verdict)
            (Some {| v_verdict := verdict; v_before := baseline; v_after := after |}) rollback
        end
      end
    end
  end.

(** [RepairExecutor::execute] starts from an empty event log. *)
Definition execute (repair : ExecutableRepair) (symptom : Symptom) : M W RepairReport :=
  fun w => let '(r, s) := execute_steps repair symptom {| x_world := w; x_events := [] |} in
           (r, x_world s).
End Execute.
Arguments ExecState : clear implicits.

(** ** The scripted in-memory transport *)
Inductive TransportCall := TcSnapshot | TcApply | TcRestore | TcMeasure.

Record FakeRepairTransport := {
  fk_snapshot_result : result (list StateEntry) RepairTransportError;
  fk_apply_result : result unit RepairTransportError;
  fk_restore_result : result unit RepairTransportError;
  fk_measurements : list (result (list Measurement) RepairTransportError);
  fk_calls : list TransportCall
}.

Definition record_call (c : TransportCall) (w : FakeRepairTransport) : FakeRepairTransport := {|
  fk_snapshot_result := fk_snapshot_result w; fk_apply_result := fk_apply_result w;
  fk_restore_result := fk_restore_result w; fk_measurements := fk_measurements w;
  fk_calls := fk_calls w ++ [c] |}.

Definition fake_measure (w : FakeRepairTransport)
  : result (list Measurement) RepairTransportError * FakeRepairTransport :=
  let w1 := record_call TcMeasure w in
  match fk_measurements w1 with
  | [] => (Err (ErrMeasure "no scripted measurement"), w1)
  | m :: ms => (m, {| fk_snapshot_result := fk_snapshot_result w1;
                      fk_apply_result := fk_apply_result w1;
                      fk_restore_result := fk_restore_result w1;
                      fk_measurements := ms; fk_calls := fk_calls w1 |})
  end.

#[global] Instance fake_repair_transport : RepairTransport FakeRepairTransport := {
  snapshot _ w := (fk_snapshot_result w, record_call TcSnapshot w);
  apply_repair _ w := (fk_apply_result w, record_call TcApply w);
  restore _ w := (fk_restore_result w, record_call TcRestore w);
  measure _ w := fake_measure w
}.
