(* ===== verification/DoctorExecutorProps.v ===== *)
(** * Network Doctor: what one repair execution guarantees

    The transport calls of an execution follow a small protocol, stated as the relation
    [Lifecycle] over call traces; [execute] refines it, and the safety properties of a repair
    are read off the protocol. *)

From S2P Require Import Prelude Time Text F64 DoctorCheck DoctorRepair DoctorExecutor.

(** ** Observing a transport *)
Inductive Call :=
  | CSnapshot (keys : list StateKey) (r : result (list StateEntry) RepairTransportError)
  | CApply (repair : ExecutableRepair) (r : result unit RepairTransportError)
  | CRestore (entries : list StateEntry) (r : result unit RepairTransportError)
  | CMeasure (check : CheckKind) (r : result (list Measurement) RepairTransportError).

(** A world that records every call with its answer; reading the clock is not a call. *)
Class ObservedRepair (W : Type) `{RepairTransport W, Clock W} := {
  calls : W -> list Call;
  calls_snapshot : forall k w,
    calls (snd (snapshot k w)) = calls w ++ [CSnapshot k (fst (snapshot k w))];
  calls_apply : forall r w,
    calls (snd (apply_repair r w)) = calls w ++ [CApply r (fst (apply_repair r w))];
  calls_restore : forall e w,
    calls (snd (restore e w)) = calls w ++ [CRestore e (fst (restore e w))];
  calls_measure : forall c w,
    calls (snd (measure c w)) = calls w ++ [CMeasure c (fst (measure c w))];
  calls_now : forall w, calls (snd (now w)) = calls w
}.

(** Any transport can be observed by recording its calls beside it. *)
Section Recorder.
Context {W : Type} `{RepairTransport W, Clock W}.

Definition Recorded : Type := W * list Call.

Definition recording {A} (m : M W A) (c : A -> Call) : M Recorded A :=
  fun '(w, log) => let '(a, w') := m w in (a, (w', log ++ [c a])).

#[global] Instance recorded_transport : RepairTransport Recorded := {
  snapshot k := recording (snapshot k) (CSnapshot k);
  apply_repair r := recording (apply_repair r) (CApply r);
  restore e := recording (restore e) (CRestore e);
  measure c := recording (measure c) (CMeasure c)
}.

#[global] Instance recorded_clock : Clock Recorded :=
  fun '(w, log) => let '(t, w') := now w in (t, (w', log)).

#[global] Instance recorded_observed : ObservedRepair Recorded.
Proof.
  refine {| calls := snd |}; [intros ? [w log]..|intros [w log]]; simpl; unfold recording;
    [case_match; done..|]. unfold now, recorded_clock. by case_match.
Defined.
End Recorder.
Arguments Recorded : clear implicits.

(** ** The protocol *)
Section Protocol.
Context (f64_display : f64 -> string) (repair : ExecutableRepair) (symptom : Symptom).

(** What a measurement answer says of the symptom. *)
Definition reading (r : result (list Measurement) RepairTransportError) : result Measurement string :=
  match r with
  | Err e => Err (transport_error_to_string e)
  | Ok ms => result_bind (find_metric symptom ms) (finite f64_display)
  end.

(** The calls and the outcome of undoing the repair from a snapshot. *)
Inductive Undo (entries : list StateEntry) (baseline : Measurement)
  : list Call -> RollbackOutcome -> Prop :=
  | undo_impossible :
      reversible repair = false ->
      Undo entries baseline [] (RollbackNotAttempted NotReversible)
  | undo_restore_failed e :
      reversible repair = true ->
      Undo entries baseline [CRestore entries (Err e)]
        (RollbackFailed (transport_error_to_string e))
  | undo_unverified m e text :
      reversible repair = true -> reading m = Err e ->
      Undo entries baseline [CRestore entries (Ok tt); CMeasure (sy_check symptom) m]
        (RollbackFailed text)
  | undo_still_regressed m restored text :
      reversible repair = true -> reading m = Ok restored ->
      compare symptom (m_value baseline) (m_value restored) = Regressed ->
      Undo entries baseline [CRestore entries (Ok tt); CMeasure (sy_check symptom) m]
        (RollbackFailed text)
  | undo_done m restored :
      reversible repair = true -> reading m = Ok restored ->
      compare symptom (m_value baseline) (m_value restored) <> Regressed ->
      Undo entries baseline [CRestore entries (Ok tt); CMeasure (sy_check symptom) m]
        RollbackSucceeded.

Abbreviation started := (EvStarted (repair_class repair) (describe repair)).
Abbreviation taken entries := (CSnapshot (state_keys repair) (Ok entries)).
Abbreviation measured m := (CMeasure (sy_check symptom) m).

(** Calls, events, outcome, verification and rollback of one execution. *)
Inductive Lifecycle : list Call -> list RepairEventKind -> RepairOutcome ->
    option Verification -> RollbackOutcome -> Prop :=
  | life_snapshot_failed e :
      Lifecycle [CSnapshot (state_keys repair) (Err e)] [started]
        (SnapshotFailed (transport_error_to_string e)) None (RollbackNotAttempted NotNeeded)
  | life_baseline_failed entries m e :
      reading m = Err e ->
      Lifecycle [taken entries; measured m] [started]
        (BaselineFailed e) None (RollbackNotAttempted NotNeeded)
  | life_apply_failed entries m baseline e undo rollback :
      reading m = Ok baseline -> Undo entries baseline undo rollback ->
      Lifecycle ([taken entries; measured m; CApply repair (Err e)] ++ undo)
        [started; EvSnapshotted (state_keys repair) baseline;
         EvApplyFailed (transport_error_to_string e); EvRolledBack rollback]
        (ApplyFailed (transport_error_to_string e)) None rollback
  | life_unverified entries m baseline m' e undo rollback :
      reading m = Ok baseline -> reading m' = Err e -> Undo entries baseline undo rollback ->
      Lifecycle ([taken entries; measured m; CApply repair (Ok tt); measured m'] ++ undo)
        [started; EvSnapshotted (state_keys repair) baseline; EvApplied;
         EvVerificationFailed e; EvRolledBack rollback]
        (VerificationFailed e) None rollback
  | life_regressed entries m baseline m' after undo rollback :
      reading m = Ok baseline -> reading m' = Ok after ->
      compare symptom (m_value baseline) (m_value after) = Regressed ->
      Undo entries baseline undo rollback ->
      Lifecycle ([taken entries; measured m; CApply repair (Ok tt); measured m'] ++ undo)
        [started; EvSnapshotted (state_keys repair) baseline; EvApplied;
         EvVerified Regressed baseline after; EvRolledBack rollback]
        (Completed Regressed) (Some {| v_verdict := Regressed; v_before := baseline;
                                       v_after := after |}) rollback
  | life_kept entries m baseline m' after verdict :
      reading m = Ok baseline -> reading m' = Ok after ->
      compare symptom (m_value baseline) (m_value after) = verdict -> verdict <> Regressed ->
      Lifecycle [taken entries; measured m; CApply repair (Ok tt); measured m']
        [started; EvSnapshotted (state_keys repair) baseline; EvApplied;
         EvVerified verdict baseline after]
        (Completed verdict) (Some {| v_verdict := verdict; v_before := baseline;
                                     v_after := after |}) (RollbackNotAttempted NotNeeded).
Definition is_apply (c : Call) : Prop := match c with CApply _ _ => True | _ => False end.

Lemma undo_no_apply entries baseline tr o :
  Undo entries baseline tr o -> Forall (fun c => ~ is_apply c) tr.
Proof. destruct 1; repeat constructor; simpl; tauto. Qed.

End Protocol.

(** ** Refinement *)
Section Refinement.
Context {W : Type} `{ObservedRepair W}.
Context (f64_display : f64 -> string) (repair : ExecutableRepair) (symptom : Symptom).
Abbreviation St := (ExecState W).

(** Sequence numbers are the positions, at the width of the field. *)
Definition numbered (events : list RepairEvent) : Prop :=
  map re_sequence events = map (fun i => Z.of_nat i mod 2 ^ 32) (seq 0 (length events)).

(** From [s] to [s'] the calls [tr] were made and the events [evs] logged. *)
Definition does (tr : list Call) (evs : list RepairEventKind) (s s' : St) : Prop :=
  calls (x_world s') = calls (x_world s) ++ tr /\
  map re_kind (x_events s') = map re_kind (x_events s) ++ evs /\
  (numbered (x_events s) -> numbered (x_events s')).

Lemma does_refl s : does [] [] s s.
Proof. unfold does. by rewrite !app_nil_r. Qed.

Lemma does_trans tr tr' evs evs' s s1 s2 :
  does tr evs s s1 -> does tr' evs' s1 s2 -> does (tr ++ tr') (evs ++ evs') s s2.
Proof.
  intros (Hc & He & Hn) (Hc' & He' & Hn'). split_and!; [| |by auto].
  - by rewrite Hc', Hc, app_assoc.
  - by rewrite He', He, app_assoc.
Qed.

(** [m] makes the calls and logs the events of one of the behaviours [P]. *)
Definition spec {A} (m : M St A) (P : A -> list Call -> list RepairEventKind -> Prop) : Prop :=
  forall s, wp m (fun a s' => exists tr evs, P a tr evs /\ does tr evs s s') s.

Lemma spec_ret {A} (a : A) (P : A -> list Call -> list RepairEventKind -> Prop) :
  P a [] [] -> spec (mret_st a) P.
Proof. intros Hp s. apply wp_ret. exists [], []. split; [done|apply does_refl]. Qed.

Lemma spec_bind {A B} (m : M St A) (k : A -> M St B) P Q :
  spec m P ->
  (forall a tr evs, P a tr evs -> spec (k a) (fun b tr' evs' => Q b (tr ++ tr') (evs ++ evs'))) ->
  spec (mbind_st m k) Q.
Proof.
  intros Hm Hk s. apply wp_bind. eapply wp_mono; [apply Hm|]. intros a s1 (tr & evs & Hp & Hd).
  eapply wp_mono; [by eapply Hk|]. intros b s2 (tr' & evs' & Hq & Hd').
  eexists _, _. split; [exact Hq|]. by eapply does_trans.
Qed.

Lemma spec_conseq {A} (m : M St A) (P Q : A -> list Call -> list RepairEventKind -> Prop) :
  spec m P -> (forall a tr evs, P a tr evs -> Q a tr evs) -> spec m Q.
Proof.
  intros Hm Hpq s. eapply wp_mono; [apply Hm|]. intros a s' (tr & evs & Hp & Hd). eauto.
Qed.

Lemma spec_call {A} (m : M W A) (c : A -> Call) :
  (forall w, calls (snd (m w)) = calls w ++ [c (fst (m w))]) ->
  spec (call m) (fun a tr evs => tr = [c a] /\ evs = []).
Proof.
  intros Hc s. unfold wp, call. specialize (Hc (x_world s)). destruct (m (x_world s)) as [a w].
  simpl in *. exists [c a], []. split; [done|]. split; [done|]. by rewrite app_nil_r.
Qed.

Lemma spec_push kind : spec (push kind (W := W)) (fun _ tr evs => tr = [] /\ evs = [kind]).
Proof.
  intros s. unfold wp, push. pose proof (calls_now (x_world s)) as Hn.
  destruct (now (x_world s)) as [t w]. simpl in Hn. exists [], [kind]. split; [done|].
  unfold does, numbered. simpl. split_and!.
  - by rewrite app_nil_r.
  - by rewrite map_app.
  - intros Hnum. by rewrite length_app, map_app, seq_app, map_app, Hnum.
Qed.

Lemma spec_measure_finite :
  spec (measure_finite f64_display symptom)
    (fun r tr evs => exists m, r = reading f64_display symptom m /\
       tr = [CMeasure (sy_check symptom) m] /\ evs = []).
Proof.
  unfold measure_finite, measure_symptom. eapply spec_bind.
  { eapply spec_bind; [apply spec_call, calls_measure|]. intros m tr evs [-> ->].
    apply spec_ret. instantiate (1 := fun r tr evs => exists m, tr = [CMeasure (sy_check symptom) m] /\
      evs = [] /\ r = match m with Err e => Err (transport_error_to_string e)
                                 | Ok ms => find_metric symptom ms end).
    by exists m. }
  intros r tr evs (m & -> & -> & ->). apply spec_ret. exists m. split; [|done]. by destruct m.
Qed.

(** A bind whose first part has a known behaviour. *)
Ltac step lem := eapply spec_bind; [apply lem|]; cbv beta.

Lemma spec_measure_then {B} (k : result Measurement string -> M St B) Q :
  (forall m, spec (k (reading f64_display symptom m))
     (fun b tr evs => Q b (CMeasure (sy_check symptom) m :: tr) evs)) ->
  spec (mbind_st (measure_finite f64_display symptom) k) Q.
Proof. intros Hk. step spec_measure_finite. intros r tr evs (m & -> & -> & ->). apply Hk. Qed.

Lemma spec_push_then {B} kind (k : unit -> M St B) Q :
  (forall u, spec (k u) (fun b tr evs => Q b tr (kind :: evs))) ->
  spec (mbind_st (push kind) k) Q.
Proof. intros Hk. step spec_push. intros u tr evs [-> ->]. apply Hk. Qed.

Lemma spec_call_then {A B} (m : M W A) (c : A -> Call) (k : A -> M St B) Q :
  (forall w, calls (snd (m w)) = calls w ++ [c (fst (m w))]) ->
  (forall a, spec (k a) (fun b tr evs => Q b (c a :: tr) evs)) ->
  spec (mbind_st (call m) k) Q.
Proof. intros Hc Hk. step (spec_call m c Hc). intros a tr evs [-> ->]. apply Hk. Qed.

Lemma spec_roll_back entries baseline :
  spec (roll_back f64_display repair entries symptom baseline)
    (fun o tr evs => Undo f64_display repair symptom entries baseline tr o /\
                     evs = [EvRolledBack o]).
Proof.
  unfold roll_back. eapply spec_bind with (P := fun o tr evs =>
    Undo f64_display repair symptom entries baseline tr o /\ evs = []).
  2:{ intros o tr evs [Hu ->]. apply spec_push_then. intros _. apply spec_ret.
      by rewrite app_nil_r. }
  destruct (reversible repair) eqn:Hrev; [|apply spec_ret; split; [by constructor|done]].
  eapply spec_call_then; [apply calls_restore|]. intros [[]|e];
    [|apply spec_ret; split; [by constructor|done]].
  apply spec_measure_then. intros m. apply spec_ret. split; [|done].
  destruct (reading f64_display symptom m) as [restored|e] eqn:Hr; [|by eapply undo_unverified].
  destruct (compare symptom _ _) eqn:Hc; try (eapply undo_done; eauto; congruence).
  by eapply undo_still_regressed.
Qed.

(** The report [rp] closes an execution with these calls and events. *)
Definition closes (rp : RepairReport) (tr : list Call) (evs : list RepairEventKind) : Prop :=
  rr_class rp = repair_class repair /\ rr_description rp = describe repair /\
  Lifecycle f64_display repair symptom tr evs (rr_outcome rp) (rr_verification rp) (rr_rollback rp).

Lemma spec_finish outcome verification rollback Q :
  (forall events, Q {| rr_class := repair_class repair; rr_description := describe repair;
     rr_outcome := outcome; rr_verification := verification; rr_rollback := rollback;
     rr_events := events |} [] []) ->
  spec (finish (W := W) (repair_class repair) (describe repair) outcome verification rollback) Q.
Proof. intros Hq s. exists [], []. split; [apply Hq|apply does_refl]. Qed.

Lemma spec_execute_steps : spec (execute_steps f64_display repair symptom) closes.
Proof.
  unfold execute_steps. cbv zeta. apply spec_push_then. intros _.
  eapply spec_call_then; [apply calls_snapshot|]. intros [entries|e];
    [|apply spec_finish; intros; split_and!; [done..|constructor]].
  apply spec_measure_then. intros m. destruct (reading f64_display symptom m) as [baseline|e] eqn:Hm;
    [|apply spec_finish; intros; split_and!; [done..|by constructor]].
  apply spec_push_then. intros _. eapply spec_call_then; [apply calls_apply|]. intros [[]|e].
  2:{ apply spec_push_then. intros _. eapply spec_bind; [apply spec_roll_back|].
      intros o tr evs [Hu ->]. apply spec_finish. intros. rewrite app_nil_r.
      split_and!; [done..|]. by eapply (life_apply_failed _ _ _ entries). }
  apply spec_push_then. intros _. apply spec_measure_then. intros m'.
  destruct (reading f64_display symptom m') as [after|e] eqn:Hm'.
  2:{ apply spec_push_then. intros _. eapply spec_bind; [apply spec_roll_back|].
      intros o tr evs [Hu ->]. apply spec_finish. intros. rewrite app_nil_r.
      split_and!; [done..|]. by eapply (life_unverified _ _ _ entries). }
  apply spec_push_then. intros _.
  destruct (compare symptom (m_value baseline) (m_value after)) eqn:Hc.
  3:{ eapply spec_bind; [apply spec_roll_back|].
      intros o tr evs [Hu ->]. apply spec_finish. intros. rewrite app_nil_r.
      split_and!; [done..|]. by eapply (life_regressed _ _ _ entries). }
  all: eapply spec_bind; [by apply (spec_ret _ (fun o tr evs =>
         o = RollbackNotAttempted NotNeeded /\ tr = [] /\ evs = []))|];
       intros o tr evs (-> & -> & ->); apply spec_finish; intros; split_and!; [done..|];
       by eapply (life_kept _ _ _ entries).
Qed.

(** [finish] hands over the whole log. *)
Lemma execute_steps_events s :
  wp (execute_steps f64_display repair symptom) (fun rp s' => rr_events rp = x_events s') s.
Proof.
  unfold execute_steps. cbv zeta.
  repeat (apply wp_bind; (eapply wp_mono; [instantiate (1 := fun _ _ => True); exact I|]); intros ? ? _;
          repeat case_match; try reflexivity).
Qed.

(** An execution, from its report. *)
Lemma execute_lifecycle w :
  wp (execute f64_display repair symptom) (fun rp w' => exists tr,
    calls w' = calls w ++ tr /\ closes rp tr (map re_kind (rr_events rp)) /\
    numbered (rr_events rp)) w.
Proof.
  unfold wp, execute. set (s0 := {| x_world := w; x_events := [] |}).
  pose proof (spec_execute_steps s0) as Hs. pose proof (execute_steps_events s0) as He.
  unfold wp in *. destruct (execute_steps _ _ _ s0) as [rp s]. simpl in *.
  destruct Hs as (tr & evs & Hc & Hcalls & Hk & Hn). exists tr. rewrite He. simpl in Hk. rewrite Hk.
  split_and!; [done..|]. by apply Hn.
Qed.
End Refinement.

(** ** The noise floor *)
Lemma f64_sub_self x : f64_is_finite x = true -> exists sg, f64_sub x x = SpecFloat.S754_zero sg.
Proof.
  unfold f64_sub. destruct x as [sg|sg| |sg m e]; try done; intros _.
  - by destruct sg; eexists.
  - eexists. unfold SpecFloat.SFsub. rewrite Z.sub_diag. reflexivity.
Qed.

(** The noise floor: with an accepted symptom, measuring the same finite value again is
    neither an improvement nor a regression, so a repair without effect is reported as
    unchanged and a restore that brings the baseline back is not reported as failed. *)
Theorem same_value_is_unchanged check metric direction delta symptom x :
  symptom_new check metric direction delta = Ok symptom -> f64_is_finite x = true ->
  compare symptom x x = Unchanged.
Proof.
  unfold symptom_new, compare. destruct (_ || _) eqn:Hd; intros [= <-] Hx. simpl.
  apply orb_false_iff in Hd as [Hf Hle]. apply negb_false_iff in Hf.
  destruct (f64_sub_self x Hx) as [sg Hs].
  destruct direction; rewrite Hs; destruct delta as [?|?| |[] ? ?]; done.
Qed.

(** ** The guarantees of an execution *)
Section Guarantees.
Context {W : Type} `{ObservedRepair W}.
Context (f64_display : f64 -> string) (repair : ExecutableRepair) (symptom : Symptom).

(** A successful reading is a finite value of the symptom's metric. *)
Lemma reading_ok r m :
  reading f64_display symptom r = Ok m ->
  f64_is_finite (m_value m) = true /\ m_metric m = sy_metric symptom.
Proof.
  unfold reading, find_metric, finite. destruct r as [ms|]; [|done].
  destruct (iter_find _ ms) as [x|] eqn:E; simpl; [|done].
  destruct (f64_is_finite _) eqn:Hf; intros [= <-].
  apply iter_find_some in E as [_ E]. by apply bool_decide_eq_true in E.
Qed.

(** [c] occurs in [tr] after the calls [pre]. *)
Definition at_point (tr pre : list Call) (c : Call) (post : list Call) : Prop := tr = pre ++ c :: post.

(** Find the position of a call in a concrete trace. *)
Ltac locate Hp :=
  repeat match type of Hp with
  | _ :: _ = ?p ++ _ :: _ => destruct p; simpl in Hp; injection Hp as ? Hp; subst; try discriminate
  | [] = ?p ++ _ :: _ => by destruct p
  end.

Lemma lifecycle_apply tr evs o v rb pre r res post :
  Lifecycle f64_display repair symptom tr evs o v rb -> at_point tr pre (CApply r res) post ->
  r = repair /\ Forall (fun c => ~ is_apply c) post /\
  exists entries m baseline, reading f64_display symptom m = Ok baseline /\
    pre = [CSnapshot (state_keys repair) (Ok entries); CMeasure (sy_check symptom) m].
Proof.
  unfold at_point. intros Hl Hp.
  assert (forall l, Forall (fun c => ~ is_apply c) l -> forall p q, l = p ++ CApply r res :: q -> False)
    as Habs.
  { intros l Hall p q ->. apply Forall_app in Hall as [_ [Hx _]%Forall_cons]. by apply Hx. }
  destruct Hl; simpl in Hp; locate Hp;
    try (match goal with Hu : Undo _ _ _ _ _ _ _ |- _ => apply undo_no_apply in Hu end);
    try (exfalso; by eapply Habs; eauto).
  all: split; [done|]; split; [|by eauto 6]; repeat constructor; simpl; auto.
Qed.

Lemma undo_restore entries baseline undo o pre es res post :
  Undo f64_display repair symptom entries baseline undo o ->
  undo = pre ++ CRestore es res :: post -> reversible repair = true /\ es = entries.
Proof. destruct 1; intros Hp; locate Hp; done. Qed.

Lemma lifecycle_restore tr evs o v rb pre es res post :
  Lifecycle f64_display repair symptom tr evs o v rb -> at_point tr pre (CRestore es res) post ->
  reversible repair = true /\ In (CSnapshot (state_keys repair) (Ok es)) pre /\
  exists res', In (CApply repair res') pre.
Proof.
  unfold at_point. intros Hl Hp. destruct Hl; simpl in Hp; locate Hp;
    match goal with Hu : Undo _ _ _ _ _ _ _ |- _ =>
      destruct (undo_restore _ _ _ _ _ _ _ _ Hu eq_refl) as [Hr ->] end;
    (split; [done|]); simpl; eauto 7.
Qed.

(** What a rollback that was attempted leaves behind. *)
Lemma undo_outcome entries baseline undo o :
  Undo f64_display repair symptom entries baseline undo o -> reversible repair = true ->
  (exists e, o = RollbackFailed e) \/
  o = RollbackSucceeded /\ exists m restored,
    undo = [CRestore entries (Ok tt); CMeasure (sy_check symptom) m] /\
    reading f64_display symptom m = Ok restored /\
    compare symptom (m_value baseline) (m_value restored) <> Regressed.
Proof. destruct 1; intros Hr; first [congruence | by eauto | right; by eauto 7]. Qed.

(** The lifecycle: whatever the transport answers, an execution terminates with a report,
    its calls follow the protocol snapshot, baseline, apply, verify, undo of [Lifecycle], and
    the report's outcome, verification, rollback and events are those of that protocol run,
    with the events numbered from zero without a gap. *)
Theorem execute_refines_lifecycle w :
  wp (execute f64_display repair symptom) (fun rp w' => exists tr,
    calls w' = calls w ++ tr /\
    rr_class rp = repair_class repair /\ rr_description rp = describe repair /\
    Lifecycle f64_display repair symptom tr (map re_kind (rr_events rp))
      (rr_outcome rp) (rr_verification rp) (rr_rollback rp) /\
    map re_sequence (rr_events rp) = map Z.of_nat (seq 0 (length (rr_events rp)))) w.
Proof.
  eapply wp_mono; [apply execute_lifecycle|]. intros rp w' (tr & Hc & (Hcl & Hd & Hl) & Hn).
  exists tr. split_and!; try done. rewrite Hn. apply map_ext_in. intros i Hi.
  apply Z.mod_small. apply in_seq in Hi.
  assert (length (rr_events rp) <= 5)%nat; [|lia].
  rewrite <- (length_map re_kind). destruct Hl; simpl; lia.
Qed.

(** C2. No blind repair: the repair is applied at most once, and only after a snapshot of all
    its state keys and a finite baseline measurement of the symptom; state is restored only
    after the repair was applied, only for a reversible repair, and with exactly the entries
    the snapshot returned. *)
Theorem repair_calls_safe w :
  wp (execute f64_display repair symptom) (fun _ w' => exists tr,
    calls w' = calls w ++ tr /\
    (forall pre r res post, at_point tr pre (CApply r res) post ->
       r = repair /\ Forall (fun c => ~ is_apply c) post /\
       exists entries m baseline,
         pre = [CSnapshot (state_keys repair) (Ok entries); CMeasure (sy_check symptom) m] /\
         reading f64_display symptom m = Ok baseline /\
         f64_is_finite (m_value baseline) = true /\ m_metric baseline = sy_metric symptom) /\
    (forall pre es res post, at_point tr pre (CRestore es res) post ->
       reversible repair = true /\ In (CSnapshot (state_keys repair) (Ok es)) pre /\
       exists res', In (CApply repair res') pre)) w.
Proof.
  eapply wp_mono; [apply execute_lifecycle|]. intros rp w' (tr & Hc & (_ & _ & Hl) & _).
  exists tr. split_and!; [done| |by intros; eapply lifecycle_restore].
  intros pre r res post Hp.
  destruct (lifecycle_apply _ _ _ _ _ _ _ _ _ Hl Hp) as (-> & Hall & entries & m & baseline & Hm & ->).
  split_and!; [done..|]. destruct (reading_ok _ _ Hm). by eauto 8.
Qed.

(** No silent regression: when a reversible repair was applied and did not measurably
    keep or improve the symptom (the apply call failed, the symptom could not be measured
    again, or it regressed), a rollback was attempted; it is reported as succeeded only if
    the restore call succeeded and the last call is a finite re-measurement that is not
    regressed against the baseline taken before the repair. *)
Theorem bad_repair_is_rolled_back w : reversible repair = true ->
  wp (execute f64_display repair symptom) (fun rp w' => exists tr,
    calls w' = calls w ++ tr /\
    forall res, In (CApply repair res) tr ->
      rr_outcome rp <> Completed Improved -> rr_outcome rp <> Completed Unchanged ->
      (exists e, rr_rollback rp = RollbackFailed e) \/
      rr_rollback rp = RollbackSucceeded /\
      exists entries m0 baseline rest m restored,
        tr = [CSnapshot (state_keys repair) (Ok entries); CMeasure (sy_check symptom) m0] ++ rest ++
             [CRestore entries (Ok tt); CMeasure (sy_check symptom) m] /\
        reading f64_display symptom m0 = Ok baseline /\
        reading f64_display symptom m = Ok restored /\
        compare symptom (m_value baseline) (m_value restored) <> Regressed) w.
Proof.
  intros Hrev. eapply wp_mono; [apply execute_lifecycle|].
  intros rp w' (tr & Hc & (_ & _ & Hl) & _). exists tr. split; [done|]. intros res Hin Hi Hu.
  destruct Hl; simpl in Hin; try (by intuition discriminate); try (by destruct verdict);
    match goal with Hx : Undo _ _ _ _ _ _ _ |- _ =>
      destruct (undo_outcome _ _ _ _ Hx Hrev) as [?|(-> & m1 & restored & -> & Hm1 & Hcmp)] end;
    [by left| |by left| |by left|]; right; (split; [done|]).
  - by eexists entries, m, baseline, [_], m1, restored.
  - by eexists entries, m, baseline, [_; _], m1, restored.
  - by eexists entries, m, baseline, [_; _], m1, restored.
Qed.
End Guarantees.

(** ** Concrete runs of the doctor *)
From S2P Require Import DoctorEngine DoctorEngineProps DoctorDiagnosis.

Definition demo_doctor : DoctorConfig := {|
  dc_interface := "eth0"; dc_gateway := "192.168.1.1";
  dc_configured_resolvers := ["192.168.1.1"]; dc_independent_resolver := "9.9.9.9";
  dc_internet_probe_address := "1.1.1.1"; dc_internet_probe_port := 443;
  dc_dns_probe_name := "example.com"; dc_ping_count := 3;
  dc_mtu_probe_sizes := [1472; 1400]; dc_thresholds := default_thresholds |}.

Definition demo_budget (mp : Z) : DiagnosticBudget :=
  {| max_probes := mp; per_probe_timeout_ms := 1000 |}.
Definition demo_doctor_engine (mp : Z) : DiagnosticEngine :=
  {| config := demo_doctor; budget := demo_budget mp |}.

(** A home whose LAN works and whose resolver refuses; [macs] answer for the host address. *)
Definition demo_answers (macs : list string) (q : ProbeRequest) : result ProbeResponse ProbeError :=
  match q with
  | ReqCollectorStatus => Ok (RespCollectorStatus true true true)
  | ReqLinkStatus _ => Ok (RespLinkStatus true (Some 1000))
  | ReqIpConfig _ => Ok (RespIpConfig (Some "192.168.1.20"%string) LeaseValid)
  | ReqArpProbe _ _ => Ok (RespArpProbe macs)
  | ReqWifiMetrics _ => Ok (RespWifiMetrics false None None)
  | ReqPing _ _ _ => Ok (RespPingReply (f64_of_Z 4))
  | ReqDnsQuery _ _ => Ok (RespDnsFailure DnsRefused)
  | ReqRouteTable => Ok (RespRouteTable [])
  | ReqRouterStatus => Err ProbeTimeout
  | ReqReachIp _ _ => Ok (RespReachable (f64_of_Z 9))
  end.

Definition demo_transport : FakeProbeTransport := fake_new (demo_answers ["aa:01"; "aa:02"]%string).
Definition doctor_run (mp : Z) : DiagnosticReport * FakeProbeTransport :=
  @run FakeProbeTransport _ (FixedClock _ 0) (demo_doctor_engine mp) demo_transport.

Lemma demo_accepted mp :
  1 <= mp <= u32_max ->
  accepted demo_doctor (demo_budget mp) (demo_doctor_engine mp) mp 1000.
Proof.
  intros Hmp. split; [done|]. split; [lia|]. split; [|reflexivity].
  unfold budget_new. destruct (mp =? 0) eqn:E; [apply Z.eqb_eq in E; lia|reflexivity].
Qed.

Lemma demo_accepted_5 : accepted demo_doctor (demo_budget 5) (demo_doctor_engine 5) 5 1000.
Proof. apply demo_accepted. unfold u32_max. lia. Qed.
Lemma demo_accepted_60 : accepted demo_doctor (demo_budget 60) (demo_doctor_engine 60) 60 1000.
Proof. apply demo_accepted. unfold u32_max. lia. Qed.

(** With five probes the gateway check no longer fits. *)
Lemma run_within_budget_witness :
  (exists ps, fake_log (snd (doctor_run 5)) = [] ++ ps /\
     Forall (fun p => pr_timeout_ms p = 1000) ps /\
     rp_probes_used (fst (doctor_run 5)) = Z.of_nat (length ps) /\
     rp_probes_used (fst (doctor_run 5)) <= 5) /\
  rp_probes_used (fst (doctor_run 5)) = 5 /\ rp_budget_exhausted (fst (doctor_run 5)) = true.
Proof.
  split; [|split; vm_compute; reflexivity].
  exact (run_within_budget (H1 := fake_observed 0) _ _ _ _ _ demo_transport demo_accepted_5).
Defined.

Lemma run_report_justified_witness :
  (map cr_kind (rp_checks (fst (doctor_run 5))) = EXECUTION_ORDER /\
   Forall (justified (demo_doctor_engine 5) (rp_checks (fst (doctor_run 5)))
             (rp_budget_exhausted (fst (doctor_run 5)))) (rp_checks (fst (doctor_run 5))) /\
   (rp_budget_exhausted (fst (doctor_run 5)) = true <->
      Exists budget_skipped (rp_checks (fst (doctor_run 5)))) /\
   stops (rp_checks (fst (doctor_run 5)))) /\
  status_of (rp_checks (fst (doctor_run 5))) DuplicateIp = Some Failed.
Proof.
  split; [|vm_compute; reflexivity].
  exact (run_report_justified (H1 := fake_observed 0) _ _ _ _ _ demo_transport demo_accepted_5).
Defined.

Lemma ran_means_ancestors_passed_witness :
  exists r r', report_check (fst (doctor_run 60)) Dns = Some r /\ cr_status r = Failed /\
    report_check (fst (doctor_run 60)) AdapterLink = Some r' /\ cr_status r' = Passed.
Proof.
  assert (exists r, report_check (fst (doctor_run 60)) Dns = Some r /\ cr_status r = Failed)
    as (r & Hr & Hf) by (eexists; split; vm_compute; reflexivity).
  assert (ancestor AdapterLink Dns) as Hanc.
  { apply (ancestor_step AdapterLink Gateway Dns); [by left|].
    apply (ancestor_step AdapterLink AddressDhcp Gateway); [by left|]. apply ancestor_dep. by left. }
  destruct (ran_means_ancestors_passed (H1 := fake_observed 0) _ _ _ _ _ demo_transport
              Dns AdapterLink demo_accepted_60 Hanc r Hr (or_intror Hf)) as (r' & Hr' & Hp).
  exists r, r'. auto.
Defined.

Lemma sufficient_budget_never_exhausted_witness :
  rp_budget_exhausted (fst (doctor_run 60)) = false /\ rp_probes_used (fst (doctor_run 60)) = 17.
Proof.
  split; [|vm_compute; reflexivity].
  apply (sufficient_budget_never_exhausted (H1 := fake_observed 0) _ _ _ _ _ demo_transport
           demo_accepted_60).
  vm_compute. discriminate.
Defined.

Lemma diagnoses_are_root_causes_witness :
  map (fun d => check_of (d_kind d)) (diagnose (fst (doctor_run 60))) =
    map cr_kind (List.filter is_failed (rp_checks (fst (doctor_run 60)))) /\
  map (fun d => check_of (d_kind d)) (diagnose (fst (doctor_run 60))) =
    [DuplicateIp; RouterHealth; Dns].
Proof.
  split; [|vm_compute; reflexivity].
  exact (proj1 (diagnoses_are_root_causes (H1 := fake_observed 0) _ _ _ _ _ demo_transport
                  demo_accepted_60)).
Defined.

Definition demo_context : RepairContext := {|
  rc_interface := "eth0"; lease_renewal_severs_only_management_path := true;
  fallback_dns_servers := [] |}.

Lemma repairs_follow_evidence_witness :
  (forall d, In d (diagnose (fst (doctor_run 60))) ->
     warranted (demo_doctor_engine 60) (rp_checks (fst (doctor_run 60))) demo_context
       (plan_repair (d_kind d) demo_context)) /\
  map (fun d => plan_class (plan_repair (d_kind d) demo_context)) (diagnose (fst (doctor_run 60))) =
    [ClassApprovalRequiredReversible; ClassObservationOnly; ClassObservationOnly].
Proof.
  split; [|vm_compute; reflexivity].
  exact (repairs_follow_evidence (H1 := fake_observed 0) _ _ _ _ _ demo_transport demo_context
           demo_accepted_60).
Defined.

(** ** A repair that regresses and is rolled back *)
Definition demo_symptom : Symptom := {|
  sy_check := LossLatency; sy_metric := RttMs; sy_direction := LowerIsBetter;
  min_meaningful_delta := f64_of_Z 5 |}.
Definition demo_rtt (v : Z) : Measurement := {|
  m_metric := RttMs; m_value := f64_of_Z v; m_unit := Milliseconds; m_observed_at := 0 |}.
Definition demo_repair : ExecutableRepair :=
  Approved {| ar_action := RebootRouter; ar_approval := {| approval_token := "owner-1" |} |}.
Definition demo_entries : list StateEntry := [{| se_key := RouterSession; se_value := "s" |}].

(** Baseline 20 ms, 80 ms after the repair, 21 ms after the restore. *)
Definition demo_script : FakeRepairTransport := {|
  fk_snapshot_result := Ok demo_entries; fk_apply_result := Ok tt; fk_restore_result := Ok tt;
  fk_measurements := [Ok [demo_rtt 20]; Ok [demo_rtt 80]; Ok [demo_rtt 21]]; fk_calls := [] |}.
Definition demo_display (_ : f64) : string := "20".

#[local] Instance demo_clock : Clock FakeRepairTransport := FixedClock FakeRepairTransport 0.
Definition demo_world : Recorded FakeRepairTransport := (demo_script, []).
Definition demo_execution : RepairReport * Recorded FakeRepairTransport :=
  execute demo_display demo_repair demo_symptom demo_world.

Lemma demo_execution_report :
  rr_outcome (fst demo_execution) = Completed Regressed /\
  rr_rollback (fst demo_execution) = RollbackSucceeded /\
  fk_calls (fst (snd demo_execution)) =
    [TcSnapshot; TcMeasure; TcApply; TcMeasure; TcRestore; TcMeasure].
Proof. split_and!; vm_compute; reflexivity. Qed.

Lemma bad_repair_is_rolled_back_witness :
  exists tr, calls (snd demo_execution) = calls demo_world ++ tr /\
    forall res, In (CApply demo_repair res) tr ->
      rr_outcome (fst demo_execution) <> Completed Improved ->
      rr_outcome (fst demo_execution) <> Completed Unchanged ->
      (exists e, rr_rollback (fst demo_execution) = RollbackFailed e) \/
      rr_rollback (fst demo_execution) = RollbackSucceeded /\
      exists entries m0 baseline rest m restored,
        tr = [CSnapshot (state_keys demo_repair) (Ok entries);
              CMeasure (sy_check demo_symptom) m0] ++ rest ++
             [CRestore entries (Ok tt); CMeasure (sy_check demo_symptom) m] /\
        reading demo_display demo_symptom m0 = Ok baseline /\
        reading demo_display demo_symptom m = Ok restored /\
        compare demo_symptom (m_value baseline) (m_value restored) <> Regressed.
Proof.
  exact (bad_repair_is_rolled_back demo_display demo_repair demo_symptom demo_world eq_refl).
Defined.

Lemma same_value_is_unchanged_witness :
  symptom_new LossLatency RttMs LowerIsBetter (f64_of_Z 5) = Ok demo_symptom /\
  compare demo_symptom (f64_of_Z 20) (f64_of_Z 20) = Unchanged.
Proof.
  split; [vm_compute; reflexivity|].
  apply (same_value_is_unchanged LossLatency RttMs LowerIsBetter (f64_of_Z 5));
    vm_compute; reflexivity.
Defined.
