(* ===== verification/Order.v ===== *)
(** * Comparators and ordered iteration

    [Ordering] of the standard library as [comparison], [sort_by], [Vec::dedup], and the
    iteration over a [BTreeMap] in key order. *)

From S2P Require Import Prelude.

Definition then_cmp (a b : comparison) : comparison := match a with Eq => b | _ => a end.

Definition option_cmp {A} (f : A -> A -> comparison) (a b : option A) : comparison :=
  match a, b with
  | None, None => Eq
  | None, Some _ => Lt
  | Some _, None => Gt
  | Some x, Some y => f x y
  end.

(** Lexicographic order of slices. *)
Fixpoint list_cmp {A} (f : A -> A -> comparison) (a b : list A) : comparison :=
  match a, b with
  | [], [] => Eq
  | [], _ :: _ => Lt
  | _ :: _, [] => Gt
  | x :: a', y :: b' => then_cmp (f x y) (list_cmp f a' b')
  end.

Definition cmp_le {A} (cmp : A -> A -> comparison) (a b : A) : Prop := cmp a b <> Gt.
#[global] Instance cmp_le_dec {A} (cmp : A -> A -> comparison) a b : Decision (cmp_le cmp a b).
Proof. unfold cmp_le. destruct (cmp a b); [left|left|right]; congruence. Defined.

Definition sort_by {A} (cmp : A -> A -> comparison) (l : list A) : list A := merge_sort (cmp_le cmp) l.

(** The entries of a map in the order of [cmp] on the keys. *)
Definition key_cmp {K V} (cmp : K -> K -> comparison) (a b : K * V) : comparison := cmp (fst a) (fst b).
Definition in_order {K V} (cmp : K -> K -> comparison) (l : list (K * V)) : list (K * V) := sort_by (key_cmp cmp) l.

Fixpoint vec_dedup {A} `{EqDecision A} (l : list A) : list A :=
  match l with
  | a :: (b :: _) as l' => if bool_decide (a = b) then vec_dedup l' else a :: vec_dedup l'
  | _ => l
  end.

(** ** Lemmas *)
Lemma sort_by_perm {A} (cmp : A -> A -> comparison) (l : list A) : sort_by cmp l ≡ₚ l.
Proof. apply merge_sort_Permutation. Qed.

Lemma in_sort_by {A} (cmp : A -> A -> comparison) (l : list A) x : In x (sort_by cmp l) <-> In x l.
Proof. by rewrite <- !list_elem_of_In, sort_by_perm. Qed.

Lemma in_order_in {K V} (cmp : K -> K -> comparison) (l : list (K * V)) x : In x (in_order cmp l) <-> In x l.
Proof. apply in_sort_by. Qed.

Lemma in_sorted_map {K V} `{Countable K} (cmp : K -> K -> comparison) (m : gmap K V) k v :
  In (k, v) (in_order cmp (map_to_list m)) <-> m !! k = Some v.
Proof. by rewrite in_order_in, <- list_elem_of_In, elem_of_map_to_list. Qed.

Lemma in_order_nodup {K V} `{Countable K} (cmp : K -> K -> comparison) (m : gmap K V) :
  NoDup (map fst (in_order cmp (map_to_list m))).
Proof. unfold in_order. rewrite sort_by_perm. apply NoDup_fst_map_to_list. Qed.

Lemma vec_dedup_cons {A} `{EqDecision A} (a b : A) l :
  vec_dedup (a :: b :: l) = if bool_decide (a = b) then vec_dedup (b :: l) else a :: vec_dedup (b :: l).
Proof. done. Qed.

Lemma in_vec_dedup {A} `{EqDecision A} (l : list A) x : In x (vec_dedup l) <-> In x l.
Proof.
  induction l as [|a l IH]; [done|]. destruct l as [|b l]; [done|]. rewrite vec_dedup_cons.
  destruct (bool_decide_reflect (a = b)) as [->|Hab]; [|cbn [In] in *; tauto].
  rewrite IH. cbn [In]. tauto.
Qed.

(** A total order given by a comparator. *)
Class CmpOrder {A} (cmp : A -> A -> comparison) : Prop := {
  cmp_eq : forall a b, cmp a b = Eq <-> a = b;
  cmp_sym : forall a b, cmp b a = CompOpp (cmp a b);
  cmp_trans : forall a b c, cmp a b = Lt -> cmp b c = Lt -> cmp a c = Lt
}.

#[export] Instance Z_cmp_order : CmpOrder Z.compare.
Proof.
  split; [intros; apply Z.compare_eq_iff|intros; apply Z.compare_antisym|].
  intros a b c. rewrite !Z.compare_lt_iff. lia.
Qed.

Section Laws.
Context {A : Type} (cmp : A -> A -> comparison) `{!CmpOrder cmp}.

Lemma cmp_refl a : cmp a a = Eq.
Proof. by apply cmp_eq. Qed.

Lemma cmp_le_trans a b c : cmp_le cmp a b -> cmp_le cmp b c -> cmp_le cmp a c.
Proof.
  unfold cmp_le. intros Hab Hbc. destruct (cmp a b) eqn:E1; [|destruct (cmp b c) eqn:E2|]; try done.
  - apply cmp_eq in E1 as ->. done.
  - apply cmp_eq in E2 as <-. by rewrite E1.
  - by rewrite (cmp_trans (cmp := cmp) a b c).
Qed.

#[global] Instance cmp_le_transitive : Transitive (cmp_le cmp).
Proof. intros a b c. apply cmp_le_trans. Qed.

#[global] Instance cmp_le_total : Total (cmp_le cmp).
Proof. intros a b. unfold cmp_le. rewrite (cmp_sym (cmp := cmp) a b). destruct (cmp a b); [by left|by left|by right]. Qed.

#[global] Instance cmp_le_antisym : AntiSymm (=) (cmp_le cmp).
Proof.
  intros a b. unfold cmp_le. rewrite (cmp_sym (cmp := cmp) a b). destruct (cmp a b) eqn:E; [by apply cmp_eq in E|done|done].
Qed.

Lemma sort_by_sorted l : StronglySorted (cmp_le cmp) (sort_by cmp l).
Proof. apply Sorted_StronglySorted; [apply _|]. apply Sorted_merge_sort, _. Qed.

(** Strictly increasing lists. *)
Definition cmp_lt (a b : A) : Prop := cmp a b = Lt.

Lemma vec_dedup_strict `{EqDecision A} l :
  StronglySorted (cmp_le cmp) l -> StronglySorted cmp_lt (vec_dedup l).
Proof.
  induction l as [|a l IH]; [intros; constructor|]. intros [Hs Ha]%StronglySorted_inv. destruct l as [|b l]; [by repeat constructor|].
  rewrite vec_dedup_cons. destruct (bool_decide_reflect (a = b)) as [->|Hab]; [by apply IH|]. constructor; [by apply IH|].
  apply StronglySorted_inv in Hs as [_ Hb]. apply List.Forall_forall. intros x Hx. rewrite in_vec_dedup in Hx.
  rewrite List.Forall_forall in Ha, Hb. assert (cmp a b = Lt) as Hlt.
  { specialize (Ha b (or_introl eq_refl)). unfold cmp_le in Ha. destruct (cmp a b) eqn:E; [by apply cmp_eq in E|done|done]. }
  unfold cmp_lt. apply in_inv in Hx as [<-|Hx]; [exact Hlt|]. specialize (Hb x Hx). unfold cmp_le in Hb.
  destruct (cmp b x) eqn:E; [apply cmp_eq in E as <-; done|by eapply cmp_trans|done].
Qed.

Lemma sort_dedup_strict `{EqDecision A} l : StronglySorted cmp_lt (vec_dedup (sort_by cmp l)).
Proof. apply vec_dedup_strict, sort_by_sorted. Qed.
End Laws.

#[export] Instance then_cmp_order {A B} (f : A -> A -> comparison) (g : B -> B -> comparison) :
  CmpOrder f -> CmpOrder g -> CmpOrder (fun x y : A * B => then_cmp (f (fst x) (fst y)) (g (snd x) (snd y))).
Proof.
  intros Hf Hg. split.
  - intros [a b] [c d]. cbn. destruct (f a c) eqn:E; cbn.
    + apply cmp_eq in E as ->. rewrite cmp_eq. naive_solver.
    + split; [done|]. intros [= -> ->]. by rewrite cmp_refl in E.
    + split; [done|]. intros [= -> ->]. by rewrite cmp_refl in E.
  - intros [a b] [c d]. cbn. rewrite (cmp_sym (cmp := f) a c). destruct (f a c); cbn; [apply cmp_sym|done|done].
  - intros [a b] [c d] [e h]. cbn. destruct (f a c) eqn:E1; cbn; [|intros _|done].
    + apply cmp_eq in E1 as ->. destruct (f c e); cbn; [apply cmp_trans|done|done].
    + destruct (f c e) eqn:E2; cbn; [intros _|intros _|done].
      * apply cmp_eq in E2 as <-. by rewrite E1.
      * by rewrite (cmp_trans (cmp := f) a c e).
Qed.

#[export] Instance list_cmp_order {A} (f : A -> A -> comparison) : CmpOrder f -> CmpOrder (list_cmp f).
Proof.
  intros Hf. split.
  - intros a. induction a as [|x a IH]; intros [|y b]; cbn; try done. destruct (f x y) eqn:E; cbn.
    + apply cmp_eq in E as ->. rewrite IH. naive_solver.
    + split; [done|]. intros [= -> ->]. by rewrite cmp_refl in E.
    + split; [done|]. intros [= -> ->]. by rewrite cmp_refl in E.
  - intros a. induction a as [|x a IH]; intros [|y b]; cbn; try done. rewrite (cmp_sym (cmp := f) x y). destruct (f x y); cbn; [apply IH|done|done].
  - intros a. induction a as [|x a IH]; intros [|y b] [|z c]; cbn; try done. destruct (f x y) eqn:E1; cbn; [|intros _|done].
    + apply cmp_eq in E1 as ->. destruct (f y z); cbn; [apply IH|done|done].
    + destruct (f y z) eqn:E2; cbn; [intros _|intros _|done].
      * apply cmp_eq in E2 as <-. by rewrite E1.
      * by rewrite (cmp_trans (cmp := f) x y z).
Qed.

(** A comparator through an injection. *)
Lemma cmp_order_inj {A B} (g : A -> B) (f : B -> B -> comparison) :
  CmpOrder f -> (forall x y, g x = g y -> x = y) -> CmpOrder (fun x y => f (g x) (g y)).
Proof.
  intros Hf Hg. split.
  - intros a b. rewrite cmp_eq. split; [apply Hg|congruence].
  - intros a b. apply cmp_sym.
  - intros a b c. apply cmp_trans.
Qed.
