(* ===== verification/Bytes.v ===== *)
(** * Byte strings and self-delimiting encodings

    Hash preimages and signed messages are byte vectors. A byte is a [Z] below 256, the
    fixed-width big-endian encodings are [to_be_bytes], and [Framed] says of an encoder that
    what it writes can be read back from the front of any longer message, so that
    concatenations of such fields determine the fields. *)

From S2P Require Import Prelude Text.

Definition bytes : Type := list Z.

Definition is_u8 (b : Z) : Prop := 0 <= b < 256.

(** [as_bytes] *)
Fixpoint str_bytes (s : string) : bytes :=
  match s with
  | EmptyString => []
  | String a s' => Z.of_N (N_of_ascii a) :: str_bytes s'
  end.

(** [to_be_bytes] of an [8 n]-bit integer, negative ones in two's complement. *)
Fixpoint be_bytes (n : nat) (z : Z) : bytes :=
  match n with
  | O => []
  | S n' => be_bytes n' (z / 256) ++ [z mod 256]
  end.

(** ** Machine integers of 64 bits with sign *)
Definition i64_max : Z := 9223372036854775807.
Definition i64_min : Z := -9223372036854775808.
Definition in_i64 (z : Z) : bool := (i64_min <=? z) && (z <=? i64_max).
Definition checked_add_i64 (a b : Z) : option Z := if in_i64 (a + b) then Some (a + b) else None.
Definition checked_sub_i64 (a b : Z) : option Z := if in_i64 (a - b) then Some (a - b) else None.
Definition checked_mul_i64 (a b : Z) : option Z := if in_i64 (a * b) then Some (a * b) else None.
Definition saturating_sub_i64 (a b : Z) : Z := Z.max i64_min (Z.min i64_max (a - b)).

(** [chars().count()]: bytes that do not continue a UTF-8 sequence. *)
Fixpoint char_count (s : string) : nat :=
  match s with
  | EmptyString => 0
  | String a s' =>
      let n := N_of_ascii a in
      ((if ((128 <=? n) && (n <? 192))%N then 0 else 1) + char_count s')%nat
  end.

(** ** Lower-case hexadecimal text *)
Definition hex_char (d : Z) : ascii :=
  ascii_of_N (Z.to_N (if d <? 10 then d + 48 else d + 87)).

(** [write!(out, "{byte:02x}")] for each byte *)
Fixpoint hex_text (l : bytes) : string :=
  match l with
  | [] => EmptyString
  | b :: l' => String (hex_char (b / 16)) (String (hex_char (b mod 16)) (hex_text l'))
  end.

(** ** Injectivity *)
Lemma str_bytes_inj s t : str_bytes s = str_bytes t -> s = t.
Proof.
  revert t. induction s as [|a s IH]; intros [|b t]; simpl; try done.
  intros [= Hab Hst]. apply N2Z.inj in Hab.
  rewrite <- (ascii_N_embedding a), Hab, ascii_N_embedding. by rewrite (IH t Hst).
Qed.

Lemma length_str_bytes s : length (str_bytes s) = String.length s.
Proof. induction s as [|a s IH]; simpl; [done|]. by rewrite IH. Qed.

Lemma length_be_bytes n z : length (be_bytes n z) = n.
Proof. revert z. induction n as [|n IH]; intros z; simpl; [done|]. rewrite length_app, IH. simpl. lia. Qed.

Lemma be_bytes_mod n a b : be_bytes n a = be_bytes n b -> a mod 256 ^ Z.of_nat n = b mod 256 ^ Z.of_nat n.
Proof.
  revert a b. induction n as [|n IH]; intros a b; [by rewrite !Z.mod_1_r|]. cbn [be_bytes].
  intros [H1 [= H2]]%app_inj_tail. specialize (IH _ _ H1).
  rewrite Nat2Z.inj_succ, Z.pow_succ_r by lia.
  rewrite !Z.rem_mul_r by lia. congruence.
Qed.

Lemma be_bytes_inj n lo a b :
  be_bytes n a = be_bytes n b -> lo <= a < lo + 256 ^ Z.of_nat n -> lo <= b < lo + 256 ^ Z.of_nat n -> a = b.
Proof.
  intros Hab%be_bytes_mod Ha Hb. set (m := 256 ^ Z.of_nat n) in *.
  assert (0 < m) by (unfold m; lia).
  assert ((a - lo) mod m = (b - lo) mod m) as Hm.
  { rewrite !(Zminus_mod _ lo m). by rewrite Hab. }
  rewrite !Z.mod_small in Hm; lia.
Qed.

Lemma hex_char_inj d d' : 0 <= d < 16 -> 0 <= d' < 16 -> hex_char d = hex_char d' -> d = d'.
Proof.
  intros Hd Hd' H. apply (f_equal N_of_ascii) in H. unfold hex_char in H.
  rewrite !N_ascii_embedding in H; [|repeat case_match; lia..].
  repeat case_match; bprop; lia.
Qed.

Lemma hex_text_inj l l' : Forall is_u8 l -> Forall is_u8 l' -> hex_text l = hex_text l' -> l = l'.
Proof.
  intros Hl. revert l'. induction Hl as [|b l Hb Hl IH]; intros [|b' l'] Hl'; simpl; try done.
  apply Forall_cons in Hl' as [Hb' Hl']. unfold is_u8 in *. intros [= H1 H2 H3].
  pose proof (Z.div_mod b 16) as Hm. pose proof (Z.div_mod b' 16) as Hm'.
  pose proof (Z.mod_pos_bound b 16) as Hr. pose proof (Z.mod_pos_bound b' 16) as Hr'.
  assert (0 <= b / 16 < 16 /\ 0 <= b' / 16 < 16) as [Hq Hq'].
  { repeat split; try apply Z.div_pos; try apply Z.div_lt_upper_bound; lia. }
  apply hex_char_inj in H1, H2; [|lia..]. rewrite (IH l'); [|done..]. f_equal. lia.
Qed.

Lemma length_hex_text l : String.length (hex_text l) = (2 * length l)%nat.
Proof. induction l as [|b l IH]; simpl; [done|]. rewrite IH. lia. Qed.

(** ** Fields that delimit themselves *)
Class Framed {A : Type} (P : A -> Prop) (enc : A -> bytes) : Prop :=
  framed : forall x y r s, P x -> P y -> enc x ++ r = enc y ++ s -> x = y /\ r = s.

Lemma app_inj_len {A} (a b r s : list A) : length a = length b -> a ++ r = b ++ s -> a = b /\ r = s.
Proof.
  revert b. induction a as [|x a IH]; intros [|y b]; simpl; try done.
  intros [= Hl] [= -> H]. by destruct (IH b Hl H) as [-> ->].
Qed.

(** A fixed-width field. *)
Lemma framed_fixed {A} (P : A -> Prop) (enc : A -> bytes) n :
  (forall x, P x -> length (enc x) = n) -> (forall x y, P x -> P y -> enc x = enc y -> x = y) -> Framed P enc.
Proof.
  intros Hl Hi x y r s Hx Hy H. apply app_inj_len in H as [He ->]; [|by rewrite !Hl]. split; [auto|done].
Qed.

#[export] Instance framed_be n lo : Framed (fun z => lo <= z < lo + 256 ^ Z.of_nat n) (be_bytes n).
Proof.
  apply framed_fixed with n; [intros; apply length_be_bytes|]. intros x y Hx Hy H. by eapply be_bytes_inj.
Qed.

(** A text or byte field that starts with its own length in [n] bytes. *)
Definition put_bytes (n : nat) (v : bytes) : bytes := be_bytes n (Z.of_nat (length v)) ++ v.
Definition put_text (n : nat) (s : string) : bytes := put_bytes n (str_bytes s).

Definition fits (n : nat) (k : nat) : Prop := Z.of_nat k < 256 ^ Z.of_nat n.

#[export] Instance framed_bytes n : Framed (fun v => fits n (length v)) (put_bytes n).
Proof.
  intros x y r s Hx Hy. unfold put_bytes, fits in *. rewrite <- !app_assoc. intros H.
  apply (framed (P := fun z => 0 <= z < 0 + 256 ^ Z.of_nat n)) in H as [Hl%Nat2Z.inj H]; [|lia..].
  by apply app_inj_len.
Qed.

#[export] Instance framed_text n : Framed (fun s => fits n (String.length s)) (put_text n).
Proof.
  intros x y r s Hx Hy H. unfold put_text in H.
  apply (framed (P := fun v => fits n (length v))) in H as [H ->]; [|by rewrite length_str_bytes..].
  by apply str_bytes_inj in H.
Qed.

(** A nullable field behind a presence tag. *)
Definition put_option {A} (enc : A -> bytes) (o : option A) : bytes :=
  match o with
  | None => [0]
  | Some a => 1 :: enc a
  end.

#[export] Instance framed_option {A} (P : A -> Prop) enc :
  Framed P enc -> Framed (fun o => forall a, o = Some a -> P a) (put_option enc).
Proof.
  intros Hf [x|] [y|] r s Hx Hy; simpl; try done; intros [= H].
  - apply Hf in H as [-> ->]; auto.
  - by subst.
Qed.

(** The elements of a sequence whose length is known. *)
Lemma framed_elements {A} (P : A -> Prop) enc (l l' : list A) r s :
  Framed P enc -> length l = length l' -> Forall P l -> Forall P l' ->
  concat (map enc l) ++ r = concat (map enc l') ++ s -> l = l' /\ r = s.
Proof.
  intros Hf. revert l'. induction l as [|x l IH]; intros [|y l'] Hl HP HP'; simpl; try done.
  apply Forall_cons in HP as [Hx HP], HP' as [Hy HP']. rewrite <- !app_assoc.
  intros [-> H]%Hf; [|done..]. destruct (IH l') as [-> ->]; auto.
Qed.

(** ** SHA-256, a parameter: a digest of 32 bytes *)
Class Sha256 := {
  sha256 : bytes -> bytes;
  sha256_length : forall m, length (sha256 m) = 32%nat;
  sha256_u8 : forall m, Forall is_u8 (sha256 m)
}.

(** These two messages, and no others, are in collision. *)
Definition collide `{Sha256} (m m' : bytes) : Prop := m <> m' /\ sha256 m = sha256 m'.

(** Ed25519: what an honest key signs, its verifying key accepts. *)
Class Ed25519 := {
  SigningKey : Type;
  VerifyingKey : Type;
  verifying_key : SigningKey -> VerifyingKey;
  key_sign : SigningKey -> bytes -> bytes;
  verify_strict : VerifyingKey -> bytes -> bytes -> bool;
  verify_signed : forall k m, verify_strict (verifying_key k) m (key_sign k m) = true
}.
