(* ===== verification/AuditLog.v ===== *)
(** * The hash-chained audit log: data and operations

    crates/lattice-store/src/audit_log.rs over the schema of migrations/022_audit_log.sql. The
    table is the list of its rows in primary-key order; each SQL statement of the source is
    the list function that its text denotes, and the constraints of the schema are checked by
    the insertion. A write transaction that fails is rolled back, so an operation returns the
    old database with its error. SHA-256, the JSON text of a value and chrono's RFC 3339 text
    are parameters. Error texts that quote an identifier or a library's message are shortened. *)

From S2P Require Import Prelude Time Text Bytes.

(** serde_json, chrono's formatting and SQLite's [json_valid]. *)
Class AuditLibs := {
  Value : Type;
  json_to_string : Value -> option string;
  json_from_str : string -> option Value;
  json_valid : string -> bool;
  rfc3339 : DateTime -> string;
  parse_rfc3339 : string -> option DateTime;
  year : DateTime -> Z
}.

Definition MAX_ACTION_BYTES : nat := 128.
Definition MAX_SUBJECT_BYTES : nat := 256.
Definition MAX_DETAIL_BYTES : Z := 16384.
Definition MAX_LIST_PAGE : Z := 512.
Definition ENTRY_DOMAIN : bytes := str_bytes "neonhearth.audit-log.entry.v1".
Definition GENESIS_DOMAIN : bytes := str_bytes "neonhearth.audit-log.genesis.v1".
Definition VERIFY_PAGE : nat := 512.

Inductive AuditActor := Owner | Service | Module_.
#[global] Instance AuditActor_eq_dec : EqDecision AuditActor.
Proof. solve_decision. Defined.

Definition actor_as_str (a : AuditActor) : string :=
  match a with Owner => "owner" | Service => "service" | Module_ => "module" end.
Definition actor_parse (v : string) : option AuditActor :=
  if bool_decide (v = "owner"%string) then Some Owner
  else if bool_decide (v = "service"%string) then Some Service
  else if bool_decide (v = "module"%string) then Some Module_
  else None.

Inductive AuditCategory := Approval | Scan | Enforcement | DoctorAction | AuditModule.
#[global] Instance AuditCategory_eq_dec : EqDecision AuditCategory.
Proof. solve_decision. Defined.

Definition category_as_str (c : AuditCategory) : string :=
  match c with
  | Approval => "approval" | Scan => "scan" | Enforcement => "enforcement"
  | DoctorAction => "doctor_action" | AuditModule => "audit_module"
  end.
Definition category_parse (v : string) : option AuditCategory :=
  if bool_decide (v = "approval"%string) then Some Approval
  else if bool_decide (v = "scan"%string) then Some Scan
  else if bool_decide (v = "enforcement"%string) then Some Enforcement
  else if bool_decide (v = "doctor_action"%string) then Some DoctorAction
  else if bool_decide (v = "audit_module"%string) then Some AuditModule
  else None.

(** One row of the table. *)
Record StoredEntryRow := {
  r_id : Z;
  r_occurred_at : string;
  r_actor : string;
  r_category : string;
  r_action : string;
  r_subject : option string;
  r_detail : string;
  r_prev_hash : string;
  r_entry_hash : string
}.
#[global] Instance StoredEntryRow_eq_dec : EqDecision StoredEntryRow.
Proof. solve_decision. Defined.

(** The two tables; the anchor is the singleton row [(pruned_through_id, hash, pruned_at)]. *)
Record AuditDb := {
  audit_log : list StoredEntryRow;
  audit_log_anchor : option (Z * string * string)
}.

Definition empty_audit_db : AuditDb := {| audit_log := []; audit_log_anchor := None |}.

Inductive AuditLogError :=
  | Invalid (what : string)
  | Corrupt (what : string)
  | Storage (what : string).

Inductive ChainScope := All | Tail (n : Z).

Inductive ChainBreakKind :=
  | IdGap | PrevHashMismatch | EntryHashMismatch | InvalidRow | HeadMismatch.

Record ChainHead := { ch_id : Z; ch_entry_hash : string }.
Record ChainBreak := { cb_id : Z; cb_kind : ChainBreakKind }.

Record ChainReport := {
  cr_checked : Z;
  cr_start_id : option Z;
  cr_end_id : option Z;
  cr_anchored : bool;
  cr_first_break : option ChainBreak
}.

Definition is_valid (r : ChainReport) : bool := negb (is_some_and (fun _ => true) (cr_first_break r)).

Record AuditFilter := {
  fl_actor : option AuditActor;
  fl_category : option AuditCategory;
  fl_subject : option string;
  fl_since : option DateTime;
  fl_until : option DateTime
}.

Record PruneReport := {
  pr_pruned_rows : Z;
  pr_remaining_rows : Z;
  pr_pruned_through_id : option Z;
  pr_pruned_through_hash : option string;
  pr_kept_out_of_order_rows : Z
}.

(** ** SQL over one table *)

(** [length(x)] of a text: characters before the first NUL. *)
Fixpoint sql_length (s : string) : nat :=
  match s with
  | EmptyString => 0
  | String a s' =>
      if (N_of_ascii a =? 0)%N then 0%nat
      else ((if ((128 <=? N_of_ascii a) && (N_of_ascii a <? 192))%N then 0 else 1) + sql_length s')%nat
  end.

Definition hex_digit_byte (b : Z) : bool :=
  ((48 <=? b) && (b <=? 57)) || ((97 <=? b) && (b <=? 102)).

(** The checks on a hash column. *)
Definition hash_column_ok (h : string) : bool :=
  Nat.eqb (sql_length h) 64 && forallb hex_digit_byte (str_bytes h).

Definition last_row (t : list StoredEntryRow) : option StoredEntryRow := last t.
Definition row_by_id (t : list StoredEntryRow) (id : Z) : option StoredEntryRow :=
  iter_find (fun r => r_id r =? id) t.
Definition rows_after (t : list StoredEntryRow) (cursor : Z) (limit : nat) : list StoredEntryRow :=
  take limit (List.filter (fun r => cursor <? r_id r) t).

(** The position of a new row in key order. *)
Fixpoint insert_sorted (r : StoredEntryRow) (t : list StoredEntryRow) : list StoredEntryRow :=
  match t with
  | [] => [r]
  | r' :: t' => if r_id r <? r_id r' then r :: t else r' :: insert_sorted r t'
  end.

Section Log.
Context `{Sha256} `{AuditLibs}.

Record NewAuditEntry := {
  ne_occurred_at : DateTime;
  ne_actor : AuditActor;
  ne_category : AuditCategory;
  ne_action : string;
  ne_subject : option string;
  ne_detail : Value
}.

Record AppendedEntry := {
  ae_id : Z;
  ae_occurred_at : DateTime;
  ae_actor : AuditActor;
  ae_category : AuditCategory;
  ae_action : string;
  ae_subject : option string;
  ae_detail : Value;
  ae_prev_hash : string;
  ae_entry_hash : string
}.

(** The CHECK constraints of one row. *)
Definition schema_ok (r : StoredEntryRow) : bool :=
  (1 <=? r_id r)
  && Nat.leb 20 (sql_length (r_occurred_at r)) && Nat.leb (sql_length (r_occurred_at r)) 40
  && is_some_and (fun _ => true) (actor_parse (r_actor r))
  && is_some_and (fun _ => true) (category_parse (r_category r))
  && Nat.leb 1 (sql_length (r_action r)) && Nat.leb (sql_length (r_action r)) 128
  && is_none_or (fun s => Nat.leb 1 (sql_length s) && Nat.leb (sql_length s) 256) (r_subject r)
  && json_valid (r_detail r) && (Z.of_nat (sql_length (r_detail r)) <=? 16384)
  && hash_column_ok (r_prev_hash r) && hash_column_ok (r_entry_hash r).

(** INSERT: the row constraints, the primary key and the UNIQUE hash column. *)
Definition insert_row (t : list StoredEntryRow) (r : StoredEntryRow)
  : result (list StoredEntryRow) AuditLogError :=
  if schema_ok r && negb (existsb (fun r' => r_id r' =? r_id r) t)
     && negb (existsb (fun r' => bool_decide (r_entry_hash r' = r_entry_hash r)) t)
  then Ok (insert_sorted r t)
  else Err (Storage "constraint failed").

(** ** Hashing and text *)
Definition hash_bytes (v : bytes) : bytes := put_bytes 8 v.
Definition hash_str (s : string) : bytes := hash_bytes (str_bytes s).

(** What [compute_entry_hash] feeds to the hasher. *)
Definition entry_preimage (id : Z) (occurred_at actor category action : string)
    (subject : option string) (detail prev_hash : string) : bytes :=
  hash_bytes ENTRY_DOMAIN ++ be_bytes 8 id ++ hash_str occurred_at ++ hash_str actor
  ++ hash_str category ++ hash_str action ++ put_option hash_str subject ++ hash_str detail
  ++ hash_str prev_hash.

Definition hex_encode (b : bytes) : string := hex_text b.

Definition compute_entry_hash (id : Z) (occurred_at actor category action : string)
    (subject : option string) (detail prev_hash : string) : string :=
  hex_encode (sha256 (entry_preimage id occurred_at actor category action subject detail prev_hash)).

Definition genesis_hash : string := hex_encode (sha256 GENESIS_DOMAIN).

Definition encode_time (t : DateTime) : option string :=
  if (1970 <=? year t) && (year t <=? 9999) then Some (rfc3339 t) else None.

Definition decode_time (s : string) : result DateTime AuditLogError :=
  let? parsed := ok_or (parse_rfc3339 s) (Corrupt "stored timestamp is invalid") in
  if bool_decide (encode_time parsed = Some s) then Ok parsed
  else Err (Corrupt "stored timestamp is not canonical").

Definition decode_entry (r : StoredEntryRow) : result AppendedEntry AuditLogError :=
  let? actor := ok_or (actor_parse (r_actor r)) (Corrupt "unknown actor") in
  let? category := ok_or (category_parse (r_category r)) (Corrupt "unknown category") in
  let? detail := ok_or (json_from_str (r_detail r)) (Corrupt "detail is not JSON") in
  let? occurred_at := decode_time (r_occurred_at r) in
  Ok {| ae_id := r_id r; ae_occurred_at := occurred_at; ae_actor := actor; ae_category := category;
        ae_action := r_action r; ae_subject := r_subject r; ae_detail := detail;
        ae_prev_hash := r_prev_hash r; ae_entry_hash := r_entry_hash r |}.

(** ** Head and append *)
Definition trusted_root_on (db : AuditDb) : Z * string :=
  match audit_log_anchor db with
  | Some (id, h, _) => (id, h)
  | None => (0, genesis_hash)
  end.

Definition head_on (db : AuditDb) : ChainHead :=
  match last_row (audit_log db) with
  | Some r => {| ch_id := r_id r; ch_entry_hash := r_entry_hash r |}
  | None => let '(id, h) := trusted_root_on db in {| ch_id := id; ch_entry_hash := h |}
  end.

(** The row that [append_locked] inserts. *)
Definition new_row (e : NewAuditEntry) (id : Z) (prev_hash occurred_at detail : string)
  : StoredEntryRow := {|
  r_id := id; r_occurred_at := occurred_at; r_actor := actor_as_str (ne_actor e);
  r_category := category_as_str (ne_category e); r_action := ne_action e;
  r_subject := ne_subject e; r_detail := detail; r_prev_hash := prev_hash;
  r_entry_hash := compute_entry_hash id occurred_at (actor_as_str (ne_actor e))
    (category_as_str (ne_category e)) (ne_action e) (ne_subject e) detail prev_hash |}.

Definition append_locked (db : AuditDb) (e : NewAuditEntry) (occurred_at detail : string)
  : result (AppendedEntry * AuditDb) AuditLogError :=
  let head := head_on db in
  let? id := ok_or (checked_add_i64 (ch_id head) 1) (Corrupt "audit log id space exhausted") in
  let row := new_row e id (ch_entry_hash head) occurred_at detail in
  let? t := insert_row (audit_log db) row in
  let? value := ok_or (json_from_str detail) (Corrupt "stored detail is not JSON") in
  let? at_ := decode_time occurred_at in
  Ok ({| ae_id := id; ae_occurred_at := at_; ae_actor := ne_actor e; ae_category := ne_category e;
         ae_action := ne_action e; ae_subject := ne_subject e; ae_detail := value;
         ae_prev_hash := ch_entry_hash head; ae_entry_hash := r_entry_hash row |},
      {| audit_log := t; audit_log_anchor := audit_log_anchor db |}).

(** The bounds that [append] and [append_in_transaction] check before they touch the log. *)
Definition prepare_entry (e : NewAuditEntry) : result (string * string) AuditLogError :=
  let? occurred_at := ok_or (encode_time (ne_occurred_at e)) (Invalid "occurred_at is out of range") in
  if str_is_empty (ne_action e) || Nat.ltb MAX_ACTION_BYTES (String.length (ne_action e))
  then Err (Invalid "action must be 1..=128 bytes")
  else if is_some_and (fun s => str_is_empty s || Nat.ltb MAX_SUBJECT_BYTES (String.length s)) (ne_subject e)
  then Err (Invalid "subject must be 1..=256 bytes")
  else
    let? detail := ok_or (json_to_string (ne_detail e)) (Invalid "detail is not serializable") in
    if MAX_DETAIL_BYTES <? str_len detail then Err (Invalid "detail exceeds the 16384-byte cap")
    else Ok (occurred_at, detail).

Definition append (db : AuditDb) (e : NewAuditEntry) : result AppendedEntry AuditLogError * AuditDb :=
  match (let? texts := prepare_entry e in append_locked db e (fst texts) (snd texts)) with
  | Err x => (Err x, db)
  | Ok (a, db') => (Ok a, db')
  end.

(** For mutations that commit their record together with their own rows. *)
Definition append_in_transaction (db : AuditDb) (e : NewAuditEntry)
  : result (AppendedEntry * AuditDb) AuditLogError :=
  let? occurred_at := ok_or (encode_time (ne_occurred_at e)) (Invalid "occurred_at is out of range") in
  let? detail := ok_or (json_to_string (ne_detail e)) (Invalid "detail is not serializable") in
  if str_is_empty (ne_action e) || Nat.ltb MAX_ACTION_BYTES (String.length (ne_action e))
     || is_some_and (fun s => str_is_empty s || Nat.ltb MAX_SUBJECT_BYTES (String.length s)) (ne_subject e)
     || (MAX_DETAIL_BYTES <? str_len detail)
  then Err (Invalid "audit entry exceeds its bounds")
  else append_locked db e occurred_at detail.

Definition head (db : AuditDb) : ChainHead := head_on db.

(** ** Verification *)
Record Walk := {
  w_expected_id : Z;
  w_expected_prev : string;
  w_checked : Z;
  w_end_id : option Z;
  w_cursor : Z
}.

Definition break_kind (w : Walk) (r : StoredEntryRow) : option ChainBreakKind :=
  if negb (r_id r =? w_expected_id w) then Some IdGap
  else if bool_decide (actor_parse (r_actor r) = None)
          || bool_decide (category_parse (r_category r) = None) then Some InvalidRow
  else if bool_decide (r_prev_hash r <> w_expected_prev w) then Some PrevHashMismatch
  else if bool_decide (compute_entry_hash (r_id r) (r_occurred_at r) (r_actor r) (r_category r)
                         (r_action r) (r_subject r) (r_detail r) (r_prev_hash r) <> r_entry_hash r)
  then Some EntryHashMismatch
  else None.

(** How the loop over one page ends: at a break, with an error, or with the updated counters. *)
Inductive WalkEnd := Broken (w : Walk) (b : ChainBreak) | Failed (e : AuditLogError) | Walked (w : Walk).

Fixpoint walk_page (w : Walk) (rows : list StoredEntryRow) : WalkEnd :=
  match rows with
  | [] => Walked w
  | r :: rows' =>
    match break_kind w r with
    | Some kind => Broken w {| cb_id := r_id r; cb_kind := kind |}
    | None =>
      match checked_add_i64 (r_id r) 1 with
      | None => Failed (Corrupt "audit log id space exhausted")
      | Some next =>
        walk_page {| w_expected_id := next; w_expected_prev := r_entry_hash r;
                     w_checked := saturating_add_u64 (w_checked w) 1; w_end_id := Some (r_id r);
                     w_cursor := r_id r |} rows'
      end
    end
  end.

(** The loop over the pages; every page but the last is full, so a round per row is enough. *)
Fixpoint walk (fuel : nat) (t : list StoredEntryRow) (w : Walk) : WalkEnd :=
  match fuel with
  | O => Walked w
  | S fuel' =>
    let rows := rows_after t (w_cursor w) VERIFY_PAGE in
    match rows with
    | [] => Walked w
    | _ =>
      match walk_page w rows with
      | Walked w' => if Nat.ltb (length rows) VERIFY_PAGE then Walked w' else walk fuel' t w'
      | other => other
      end
    end
  end.

(** Where the walk starts: identifier, previous hash and whether that is a trusted root. *)
Inductive WalkStart := Start (id : Z) (prev : string) (anchored : bool) | Gap (id : Z).

Definition walk_start (t : list StoredEntryRow) (scope : ChainScope) (max_id root_start : Z)
    (root_hash : string) : result WalkStart AuditLogError :=
  match scope with
  | All => Ok (Start root_start root_hash true)
  | Tail n =>
    if n =? 0 then Err (Invalid "tail scope must be nonzero")
    else
      let window := Z.min n i64_max in
      let tail_start := saturating_sub_i64 max_id (saturating_sub_i64 window 1) in
      if tail_start <=? root_start then Ok (Start root_start root_hash true)
      else match row_by_id t tail_start with
           | Some r => Ok (Start tail_start (r_prev_hash r) false)
           | None => Ok (Gap tail_start)
           end
  end.

(** The report of a finished walk, with the check of an out-of-band head. *)
Definition head_mismatch (db : AuditDb) (expected : ChainHead) : bool :=
  let '(root_id, root_hash) := trusted_root_on db in
  let live_hash := if ch_id expected =? root_id then Some root_hash
                   else r_entry_hash <$> row_by_id (audit_log db) (ch_id expected) in
  bool_decide (live_hash <> Some (ch_entry_hash expected)).

Definition finish_walk (db : AuditDb) (expected_head : option ChainHead) (start_id : Z)
    (anchored : bool) (w : Walk) : ChainReport :=
  let report brk := {|
    cr_checked := w_checked w; cr_start_id := if 0 <? w_checked w then Some start_id else None;
    cr_end_id := w_end_id w; cr_anchored := anchored; cr_first_break := brk |} in
  match expected_head with
  | Some expected =>
      if head_mismatch db expected
      then report (Some {| cb_id := ch_id expected; cb_kind := HeadMismatch |}) else report None
  | None => report None
  end.

Definition verify_in (db : AuditDb) (scope : ChainScope) (expected_head : option ChainHead)
  : result ChainReport AuditLogError :=
  let '(root_id, root_hash) := trusted_root_on db in
  if is_some_and (fun expected => ch_id expected <? root_id) expected_head
  then Err (Invalid "expected head predates the retention anchor")
  else match last_row (audit_log db) with
  | None =>
    let bad expected := negb (ch_id expected =? root_id)
                        || bool_decide (ch_entry_hash expected <> root_hash) in
    Ok {| cr_checked := 0; cr_start_id := None; cr_end_id := None; cr_anchored := true;
          cr_first_break := expected ← expected_head;
            if bad expected then Some {| cb_id := ch_id expected; cb_kind := HeadMismatch |} else None |}
  | Some last =>
    let? root_start := ok_or (checked_add_i64 root_id 1) (Corrupt "audit log id space exhausted") in
    let? start := walk_start (audit_log db) scope (r_id last) root_start root_hash in
    match start with
    | Gap id => Ok {| cr_checked := 0; cr_start_id := Some id; cr_end_id := None;
                      cr_anchored := false;
                      cr_first_break := Some {| cb_id := id; cb_kind := IdGap |} |}
    | Start start_id prev anchored =>
      let? cursor := ok_or (checked_sub_i64 start_id 1) (Corrupt "audit log id underflow") in
      match walk (S (length (audit_log db))) (audit_log db)
              {| w_expected_id := start_id; w_expected_prev := prev; w_checked := 0;
                 w_end_id := None; w_cursor := cursor |} with
      | Failed e => Err e
      | Broken w b =>
        Ok {| cr_checked := w_checked w; cr_start_id := Some start_id; cr_end_id := w_end_id w;
              cr_anchored := anchored; cr_first_break := Some b |}
      | Walked w => Ok (finish_walk db expected_head start_id anchored w)
      end
    end
  end.

Definition verify_chain_against (db : AuditDb) (scope : ChainScope) (expected : option ChainHead) :=
  verify_in db scope expected.
Definition verify_chain (db : AuditDb) (scope : ChainScope) := verify_chain_against db scope None.

(** ** Listing *)

(** The WHERE clauses of [push_filter]; the bounds are encoded first. *)
Record SqlFilter := { sf_filter : AuditFilter; sf_since : option string; sf_until : option string }.

Definition encode_bound (what : string) (o : option DateTime) : result (option string) AuditLogError :=
  match o with
  | None => Ok None
  | Some t => let? s := ok_or (encode_time t) (Invalid what) in Ok (Some s)
  end.

Definition push_filter (f : AuditFilter) : result SqlFilter AuditLogError :=
  let? since := encode_bound "since is out of range" (fl_since f) in
  let? until := encode_bound "until is out of range" (fl_until f) in
  Ok {| sf_filter := f; sf_since := since; sf_until := until |}.

Definition selects (f : SqlFilter) (r : StoredEntryRow) : bool :=
  is_none_or (fun a => bool_decide (r_actor r = actor_as_str a)) (fl_actor (sf_filter f))
  && is_none_or (fun c => bool_decide (r_category r = category_as_str c)) (fl_category (sf_filter f))
  && is_none_or (fun s => bool_decide (r_subject r = Some s)) (fl_subject (sf_filter f))
  && is_none_or (fun s => negb (String.ltb (r_occurred_at r) s)) (sf_since f)
  && is_none_or (fun s => String.ltb (r_occurred_at r) s) (sf_until f).

Fixpoint decode_entries (rows : list StoredEntryRow) : result (list AppendedEntry) AuditLogError :=
  match rows with
  | [] => Ok []
  | r :: rows' => let? e := decode_entry r in let? es := decode_entries rows' in Ok (e :: es)
  end.

Definition bad_limit (limit : Z) : bool := (limit =? 0) || (MAX_LIST_PAGE <? limit).

Definition list_entries (db : AuditDb) (f : AuditFilter) (after_id : option Z) (limit : Z)
  : result (list AppendedEntry) AuditLogError :=
  if bad_limit limit then Err (Invalid "page limit must be 1..=512")
  else
    let? sf := push_filter f in
    decode_entries (take (Z.to_nat limit) (List.filter (fun r =>
      selects sf r && is_none_or (fun a => a <? r_id r) after_id) (audit_log db))).

Definition list_newest (db : AuditDb) (f : AuditFilter) (before_id : option Z) (limit : Z)
  : result (list AppendedEntry) AuditLogError :=
  if bad_limit limit then Err (Invalid "page limit must be 1..=512")
  else
    let? sf := push_filter f in
    decode_entries (take (Z.to_nat limit) (List.filter (fun r =>
      selects sf r && is_none_or (fun b => r_id r <? b) before_id) (rev (audit_log db)))).

(** ** Retention *)
Definition count_rows (p : StoredEntryRow -> bool) (t : list StoredEntryRow) : Z :=
  Z.of_nat (length (List.filter p t)).

(** The age boundary of the cutoff and the rows kept out of order. *)
Definition age_cut (t : list StoredEntryRow) (max_id : Z) (cutoff : string) : Z * Z :=
  let first_kept := iter_find (fun r => negb (String.ltb (r_occurred_at r) cutoff)) t in
  let age_boundary := match first_kept with Some r => r_id r - 1 | None => max_id end in
  (age_boundary, count_rows (fun r => (age_boundary <? r_id r) && String.ltb (r_occurred_at r) cutoff) t).

Definition prune_boundary (t : list StoredEntryRow) (min_id max_id : Z) (cutoff : option string)
    (max_rows : option Z) : Z * Z :=
  let '(through, kept) :=
    match cutoff with
    | None => (min_id - 1, 0)
    | Some cutoff => let '(b, k) := age_cut t max_id cutoff in (Z.max (min_id - 1) b, k)
    end in
  match max_rows with
  | None => (through, kept)
  | Some max_rows => (Z.max through (saturating_sub_i64 max_id (Z.min max_rows i64_max)), kept)
  end.

(** The CHECK constraints of the anchor row. *)
Definition anchor_ok (id : Z) (hash pruned_at : string) : bool :=
  (1 <=? id) && hash_column_ok hash
  && Nat.leb 20 (sql_length pruned_at) && Nat.leb (sql_length pruned_at) 40.

Definition prune_locked (db : AuditDb) (cutoff : option string) (max_rows : option Z)
    (pruned_at : string) : result (PruneReport * AuditDb) AuditLogError :=
  let t := audit_log db in
  match list.head t, last_row t with
  | Some first, Some last =>
    let '(prune_through, kept) := prune_boundary t (r_id first) (r_id last) cutoff max_rows in
    let remaining_after := r_id last - prune_through in
    if prune_through <? r_id first then
      Ok ({| pr_pruned_rows := 0; pr_remaining_rows := Z.of_nat (length t);
             pr_pruned_through_id := None; pr_pruned_through_hash := None;
             pr_kept_out_of_order_rows := kept |}, db)
    else
      let? row := ok_or (row_by_id t prune_through)
                    (Corrupt "prune boundary entry is missing from the chain") in
      let kept_rows := retain (fun r => prune_through <? r_id r) t in
      if negb (anchor_ok prune_through (r_entry_hash row) pruned_at)
      then Err (Storage "constraint failed")
      else Ok ({| pr_pruned_rows := count_rows (fun r => r_id r <=? prune_through) t;
             pr_remaining_rows := Z.max 0 remaining_after;
             pr_pruned_through_id := Some prune_through;
             pr_pruned_through_hash := Some (r_entry_hash row);
             pr_kept_out_of_order_rows := kept |},
          {| audit_log := kept_rows;
             audit_log_anchor := Some (prune_through, r_entry_hash row, pruned_at) |})
  | _, _ =>
    Ok ({| pr_pruned_rows := 0; pr_remaining_rows := 0; pr_pruned_through_id := None;
           pr_pruned_through_hash := None; pr_kept_out_of_order_rows := 0 |}, db)
  end.

Definition retention_prune (db : AuditDb) (before : option DateTime) (max_rows : option Z)
    (now : DateTime) : result PruneReport AuditLogError * AuditDb :=
  match (if bool_decide (before = None) && bool_decide (max_rows = None)
         then Err (Invalid "retention prune needs a max-age cutoff or a max-rows bound")
         else
           let? cutoff := encode_bound "cutoff is out of range" before in
           let? pruned_at := ok_or (encode_time now) (Invalid "prune time is out of range") in
           prune_locked db cutoff max_rows pruned_at) with
  | Err x => (Err x, db)
  | Ok (report, db') => (Ok report, db')
  end.
End Log.
