(* ===== verification/AuditLogTheorems.v ===== *)
(** * The hash-chained audit log: theorems

    Every database reached by appends and prunes verifies in full against its own head; a
    database that verifies against a committed head holds the committed rows, unless two
    messages with one digest are exhibited; a prune removes an oldest-side prefix, leaves the
    head in place and reports exact counts. *)

From S2P Require Import Prelude Time Text Bytes AuditLog.

Section Props.
Context `{Sha256} `{AuditLibs}.

(** ** Chains *)
Definition row_hash (r : StoredEntryRow) : string :=
  compute_entry_hash (r_id r) (r_occurred_at r) (r_actor r) (r_category r) (r_action r)
    (r_subject r) (r_detail r) (r_prev_hash r).

Definition row_ok (r : StoredEntryRow) : Prop :=
  is_Some (actor_parse (r_actor r)) /\ is_Some (category_parse (r_category r)) /\
  row_hash r = r_entry_hash r.

(** The rows continue the chain after the entry [id] with hash [prev]. *)
Fixpoint chain (id : Z) (prev : string) (rows : list StoredEntryRow) : Prop :=
  match rows with
  | [] => True
  | r :: rows' => r_id r = id + 1 /\ r_prev_hash r = prev /\ row_ok r /\
                  chain (r_id r) (r_entry_hash r) rows'
  end.

(** Key order. *)
Definition in_key_order (t : list StoredEntryRow) : Prop := StronglySorted Z.lt (map r_id t).

Lemma key_order_filter p t : in_key_order t -> in_key_order (List.filter p t).
Proof.
  unfold in_key_order. induction t as [|r t IH]; simpl; [done|]. intros [Hs Hr]%StronglySorted_inv.
  destruct (p r); simpl; [|auto]. constructor; [auto|]. rewrite List.Forall_forall in *.
  intros z (x & <- & [Hx _]%filter_In)%in_map_iff. apply Hr. by apply in_map.
Qed.

Lemma key_order_app t1 t2 :
  in_key_order (t1 ++ t2) <->
  in_key_order t1 /\ in_key_order t2 /\ (forall x y, In x t1 -> In y t2 -> r_id x < r_id y).
Proof.
  unfold in_key_order. induction t1 as [|r t1 IH]; simpl.
  - split; [|tauto]. intros Hs. split_and!; [constructor|done|tauto].
  - split.
    + intros [Hs Hr]%StronglySorted_inv. apply IH in Hs as (H1 & H2 & H12). rewrite List.Forall_forall in Hr.
      split_and!; [|done|].
      * constructor; [done|]. apply List.Forall_forall. intros z Hz. apply Hr. rewrite map_app. apply in_or_app. by left.
      * intros x y [<-|Hx] Hy; [|auto]. apply Hr. rewrite map_app. apply in_or_app. right. by apply in_map.
    + intros ([H1 Hr]%StronglySorted_inv & H2 & H12). constructor; [apply IH; eauto|].
      rewrite List.Forall_forall in *. intros z. rewrite map_app. intros [Hz|Hz]%in_app_or; [auto|].
      apply in_map_iff in Hz as (y & <- & Hy). apply H12; auto.
Qed.

Lemma chain_bounds id prev rows :
  chain id prev rows -> Forall (fun r => id < r_id r) rows /\ in_key_order rows.
Proof.
  unfold in_key_order. revert id prev. induction rows as [|r rows IH]; intros id prev; simpl; [by repeat constructor|].
  intros (Hid & _ & _ & [Hall Hs]%IH). split.
  - constructor; [lia|]. eapply Forall_impl; [exact Hall|]. simpl. lia.
  - constructor; [done|]. rewrite List.Forall_forall in *. intros z (x & <- & Hx)%in_map_iff. by apply Hall.
Qed.

Lemma chain_app id prev a b :
  chain id prev (a ++ b) <->
  chain id prev a /\ match last a with
                     | Some r => chain (r_id r) (r_entry_hash r) b
                     | None => chain id prev b
                     end.
Proof.
  revert id prev. induction a as [|r a IH]; intros id prev; [simpl; tauto|].
  cbn [app chain]. rewrite IH. rewrite last_cons. destruct (last a); tauto.
Qed.

Lemma chain_ids id prev rows :
  chain id prev rows -> forall i r, rows !! i = Some r -> r_id r = id + 1 + Z.of_nat i.
Proof.
  revert id prev. induction rows as [|r0 rows IH]; intros id prev; [done|].
  intros (Hid & _ & _ & Hc) [|i] r; simpl; [intros [= <-]; lia|].
  intros Hr. rewrite (IH _ _ Hc i r Hr). lia.
Qed.

(** ** The walk over the pages *)
Definition filter_after (c : Z) (t : list StoredEntryRow) : list StoredEntryRow :=
  List.filter (fun r => c <? r_id r) t.

Lemma walk_page_app w a b :
  walk_page w (a ++ b) = match walk_page w a with Walked w' => walk_page w' b | other => other end.
Proof.
  revert w. induction a as [|r a IH]; intros w; simpl; [done|].
  destruct (break_kind w r); [done|]. destruct (checked_add_i64 _ _); [|done]. apply IH.
Qed.

Lemma walk_page_cursor w a r w' :
  walk_page w a = Walked w' -> last a = Some r -> w_cursor w' = r_id r.
Proof.
  revert w. induction a as [|x a IH]; intros w; [done|]. cbn [walk_page].
  destruct (break_kind w x); [done|]. destruct (checked_add_i64 _ _); [|done].
  rewrite last_cons. destruct (last a) as [y|] eqn:Hl; intros Hw [= <-].
  - by eapply IH.
  - destruct a; [|by rewrite last_cons in Hl; destruct (last a)]. simpl in Hw. by injection Hw as <-.
Qed.

(** What is left after a page that ends with [x]. *)
Lemma filter_after_page t c n x :
  in_key_order t -> last (take n (filter_after c t)) = Some x ->
  filter_after (r_id x) t = drop n (filter_after c t).
Proof.
  intros Hs Hx. set (l := filter_after c t) in *.
  assert (in_key_order l) as Hl by (by apply key_order_filter).
  assert (In x l) as Hin.
  { apply last_Some in Hx as [l' Hl']. rewrite <- (take_drop n l), Hl'. rewrite !in_app_iff. simpl. auto. }
  assert (filter_after (r_id x) t = filter_after (r_id x) l) as ->.
  { unfold l, filter_after in *. apply filter_In in Hin as [_ Hc]. bprop. clear -Hc.
    induction t as [|r t IH]; simpl; [done|]. destruct (c <? r_id r) eqn:E; simpl; [by rewrite IH|].
    destruct (r_id x <? r_id r) eqn:E'; bprop; [lia|exact IH]. }
  rewrite <- (take_drop n l) at 1. unfold filter_after. rewrite List.filter_app.
  rewrite <- (take_drop n l) in Hl. apply key_order_app in Hl as (H1 & _ & H12).
  apply last_Some in Hx as [l' Hl']. rewrite (filter_nothing _ (take n l)), (filter_all _ (drop n l)); [done| |].
  - apply List.Forall_forall. intros y Hy. apply Z.ltb_lt. apply H12; [|done]. rewrite Hl'. apply in_or_app. right. by left.
  - rewrite Hl' in *. apply key_order_app in H1 as (_ & _ & H1). apply List.Forall_forall.
    intros y [Hy|[<-|[]]]%in_app_or; apply Z.ltb_ge; [|lia]. specialize (H1 y x Hy (or_introl eq_refl)). lia.
Qed.

(** The paged loop is the walk over all rows after the cursor. *)
Lemma walk_unpaged fuel t w :
  in_key_order t -> (length (filter_after (w_cursor w) t) < fuel)%nat ->
  walk fuel t w = walk_page w (filter_after (w_cursor w) t).
Proof.
  revert w. induction fuel as [|fuel IH]; intros w Hs Hf; [lia|]. cbn [walk]. unfold rows_after.
  fold (filter_after (w_cursor w) t). set (l := filter_after (w_cursor w) t) in *.
  assert (walk_page w l = walk_page w (take VERIFY_PAGE l ++ drop VERIFY_PAGE l)) as -> by (by rewrite take_drop).
  rewrite walk_page_app.
  destruct (take VERIFY_PAGE l) as [|r page] eqn:Hp.
  - assert (l = []) as -> by (by destruct l). by rewrite drop_nil.
  - rewrite <- Hp. destruct (walk_page w (take VERIFY_PAGE l)) as [| |w'] eqn:Hw; try done.
    destruct (last (take VERIFY_PAGE l)) as [x|] eqn:Hx; [|by rewrite Hp, last_cons in Hx; destruct (last page)].
    pose proof (walk_page_cursor _ _ _ _ Hw Hx) as Hc.
    assert (filter_after (w_cursor w') t = drop VERIFY_PAGE l) as Hrest.
    { rewrite Hc. by apply filter_after_page. }
    destruct (Nat.ltb _ _) eqn:Hlen.
    + apply Nat.ltb_lt in Hlen. rewrite length_take in Hlen. rewrite drop_ge; [done|lia].
    + rewrite IH; [by rewrite Hrest|done|]. rewrite Hrest, length_drop. apply Nat.ltb_ge in Hlen.
      rewrite length_take in Hlen. unfold VERIFY_PAGE in *. lia.
Qed.
(** ** The walk succeeds exactly on chains *)
Lemma break_kind_none w r :
  break_kind w r = None <->
  r_id r = w_expected_id w /\ r_prev_hash r = w_expected_prev w /\ row_ok r.
Proof.
  unfold break_kind, row_ok. fold (row_hash r). rewrite <- !not_eq_None_Some.
  destruct (Z.eqb_spec (r_id r) (w_expected_id w)); simpl; [|naive_solver].
  repeat case_bool_decide; simpl; split; try done; naive_solver.
Qed.

Definition id_room (r : StoredEntryRow) : Prop := 0 <= r_id r < i64_max.

Lemma checked_succ_room r : id_room r -> checked_add_i64 (r_id r) 1 = Some (r_id r + 1).
Proof. unfold id_room, checked_add_i64, in_i64, i64_min, i64_max. intros ?. case_match; bprop; [done|lia]. Qed.

(** The counters after a walk over [rows]. *)
Lemma walk_page_chain w rows :
  0 <= w_checked w -> w_checked w + Z.of_nat (length rows) <= u64_max ->
  chain (w_expected_id w - 1) (w_expected_prev w) rows -> Forall id_room rows ->
  exists w', walk_page w rows = Walked w' /\
    w_checked w' = w_checked w + Z.of_nat (length rows) /\
    w_end_id w' = match last rows with Some r => Some (r_id r) | None => w_end_id w end.
Proof.
  revert w. induction rows as [|r rows IH]; intros w Hw Hmax Hc Hr.
  { exists w. simpl. split_and!; [done|lia|done]. }
  apply Forall_cons in Hr as [Hroom Hr]. destruct Hc as (Hid & Hprev & Hok & Hc). cbn [walk_page length] in *.
  assert (break_kind w r = None) as -> by (apply break_kind_none; split_and!; [lia|done|done]).
  rewrite checked_succ_room by done.
  edestruct IH as (w' & Hw' & Hn & He); [| | | |exists w'; split_and!; [exact Hw'| |]]; try done; simpl.
  - unfold saturating_add_u64, u64_max in *. lia.
  - unfold saturating_add_u64, u64_max in *. lia.
  - by replace (r_id r + 1 - 1) with (r_id r) by lia.
  - rewrite Hn. simpl. unfold saturating_add_u64, u64_max in *. lia.
  - rewrite He, last_cons. simpl. by destruct (last rows).
Qed.

Lemma walk_page_sound w rows w' :
  walk_page w rows = Walked w' -> chain (w_expected_id w - 1) (w_expected_prev w) rows.
Proof.
  revert w. induction rows as [|r rows IH]; intros w; [done|]. cbn [walk_page chain].
  destruct (break_kind w r) eqn:Hb; [done|]. apply break_kind_none in Hb as (Hid & Hp & Hok).
  unfold checked_add_i64. destruct (in_i64 _); [|done]. intros Hc%IH. simpl in Hc.
  replace (r_id r + 1 - 1) with (r_id r) in Hc by lia. split_and!; [lia|done|done|done].
Qed.

(** ** Looking rows up in a chain *)
Lemma row_by_id_split t k r :
  in_key_order t -> row_by_id t k = Some r ->
  exists a b, t = a ++ r :: b /\ r_id r = k /\
    List.filter (fun x => k <? r_id x) t = b /\ List.filter (fun x => r_id x <=? k) t = a ++ [r].
Proof.
  intros Hs [Hin Hk]%iter_find_some. bprop. apply in_split in Hin as (a & b & ->). exists a, b.
  apply key_order_app in Hs as (_ & Hrb & Hab). apply (key_order_app [r] b) in Hrb as (_ & _ & Hrb).
  assert (Forall (fun x => r_id x < k) a) as Ha.
  { apply List.Forall_forall. intros x Hx. rewrite <- Hk. apply Hab; [done|by left]. }
  assert (Forall (fun x => k < r_id x) b) as Hb.
  { apply List.Forall_forall. intros x Hx. rewrite <- Hk. apply Hrb; [by left|done]. }
  rewrite !List.filter_app. simpl. rewrite Hk, Z.ltb_irrefl, Z.leb_refl.
  rewrite (filter_nothing _ a), (filter_all _ b), (filter_all _ a), (filter_nothing _ b); [done|..];
    eapply Forall_impl; eauto; simpl; intros; lia.
Qed.

Lemma row_by_id_in t r : in_key_order t -> In r t -> row_by_id t (r_id r) = Some r.
Proof.
  intros Hs Hin. destruct (row_by_id t (r_id r)) as [r'|] eqn:E.
  - apply row_by_id_split in E as (a & b & -> & Hid & _); [|done]. f_equal.
    apply key_order_app in Hs as (_ & Hrb & Hab). apply (key_order_app [r'] b) in Hrb as (_ & _ & Hrb).
    apply in_app_or in Hin as [Hin|[Hin|Hin]]; [|done|].
    + specialize (Hab r r' Hin (or_introl eq_refl)). lia.
    + specialize (Hrb r' r (or_introl eq_refl) Hin). lia.
  - unfold row_by_id in E. apply iter_find_none in E. rewrite List.Forall_forall in E.
    specialize (E r Hin). bprop. lia.
Qed.

Lemma chain_row_by_id id prev t k :
  chain id prev t -> id < k <= id + Z.of_nat (length t) -> exists r, row_by_id t k = Some r.
Proof.
  intros Hc Hk. destruct (lookup_lt_is_Some_2 t (Z.to_nat (k - id - 1))) as [r Hr]; [lia|].
  exists r. pose proof (chain_ids _ _ _ Hc _ _ Hr) as Hid. replace k with (r_id r) by lia.
  apply row_by_id_in; [by eapply chain_bounds|]. apply list_elem_of_In. by eapply list_elem_of_lookup_2.
Qed.

Lemma chain_last_id id prev t r : chain id prev t -> last t = Some r -> r_id r = id + Z.of_nat (length t).
Proof.
  intros Hc Hr. rewrite last_lookup in Hr. pose proof (chain_ids _ _ _ Hc _ _ Hr).
  destruct t; [done|]. simpl in *. lia.
Qed.
End Props.

Section Theorems.
Context `{Sha256} `{AuditLibs}.

Definition root_id (db : AuditDb) : Z := fst (trusted_root_on db).
Definition root_hash (db : AuditDb) : string := snd (trusted_root_on db).

(** The rows continue the trusted root without a gap. *)
Record healthy (db : AuditDb) : Prop := {
  h_root : 0 <= root_id db;
  h_chain : chain (root_id db) (root_hash db) (audit_log db)
}.

Lemma head_on_id db : healthy db -> ch_id (head_on db) = root_id db + Z.of_nat (length (audit_log db)).
Proof.
  intros [_ Hc]. unfold head_on, last_row. destruct (last (audit_log db)) as [r|] eqn:Hl.
  - simpl. by eapply chain_last_id.
  - apply last_None in Hl. rewrite Hl. unfold root_id. destruct (trusted_root_on db). simpl. lia.
Qed.

Lemma healthy_rooms db : healthy db -> ch_id (head_on db) < i64_max -> Forall id_room (audit_log db).
Proof.
  intros Hh Hmax. rewrite head_on_id in Hmax by done. destruct Hh as [Hr Hc].
  apply Forall_lookup. intros i r Hi. pose proof (chain_ids _ _ _ Hc _ _ Hi).
  apply lookup_lt_Some in Hi. unfold id_room. lia.
Qed.

(** ** Appending *)
Lemma insert_sorted_last r t : Forall (fun x => r_id x < r_id r) t -> insert_sorted r t = t ++ [r].
Proof.
  induction 1 as [|x t Hx _ IH]; simpl; [done|]. destruct (Z.ltb_spec (r_id r) (r_id x)); [lia|]. by rewrite IH.
Qed.

Lemma actor_parse_as_str a : actor_parse (actor_as_str a) = Some a.
Proof. by destruct a. Qed.
Lemma category_parse_as_str c : category_parse (category_as_str c) = Some c.
Proof. by destruct c. Qed.

Lemma append_locked_healthy db e at_ detail a db' :
  healthy db -> append_locked db e at_ detail = Ok (a, db') ->
  audit_log db' = audit_log db ++ [new_row e (ch_id (head_on db) + 1) (ch_entry_hash (head_on db)) at_ detail]
  /\ audit_log_anchor db' = audit_log_anchor db /\ healthy db'.
Proof.
  intros Hh. pose proof (head_on_id db Hh) as Hid. unfold append_locked, checked_add_i64.
  destruct (in_i64 _); simpl; [|done]. unfold insert_row. destruct (_ && _); simpl; [|done].
  destruct (json_from_str detail); simpl; [|done]. destruct (decode_time at_); simpl; [|done].
  intros [= _ <-]. cbn [audit_log audit_log_anchor]. destruct Hh as [Hr Hc]. rewrite insert_sorted_last.
  - split_and!; [done|done|]. split; [done|]. cbn [audit_log]. change (root_id _) with (root_id db).
    change (root_hash _) with (root_hash db). apply chain_app. split; [done|].
    unfold head_on, last_row in *. destruct (last (audit_log db)) as [r|] eqn:Hl; simpl in *.
    + unfold row_ok, row_hash. cbn. rewrite actor_parse_as_str, category_parse_as_str. eauto 10.
    + unfold row_ok, row_hash. unfold root_id, root_hash in *. destruct (trusted_root_on db); cbn.
      rewrite actor_parse_as_str, category_parse_as_str. eauto 10.
  - apply Forall_lookup. intros i x Hx. pose proof (chain_ids _ _ _ Hc _ _ Hx). apply lookup_lt_Some in Hx.
    cbn [r_id new_row]. lia.
Qed.

(** ** Pruning *)
Lemma prune_locked_cases db cutoff max_rows at_ rep db' :
  prune_locked db cutoff max_rows at_ = Ok (rep, db') ->
  (db' = db /\ pr_pruned_rows rep = 0 /\
   (audit_log db = [] \/ exists first last, list.head (audit_log db) = Some first /\
      list.last (audit_log db) = Some last /\
      fst (prune_boundary (audit_log db) (r_id first) (r_id last) cutoff max_rows) < r_id first) /\
   pr_remaining_rows rep = Z.of_nat (length (audit_log db))) \/
  exists first last row through,
    list.head (audit_log db) = Some first /\ list.last (audit_log db) = Some last /\
    fst (prune_boundary (audit_log db) (r_id first) (r_id last) cutoff max_rows) = through /\
    r_id first <= through /\ row_by_id (audit_log db) through = Some row /\
    db' = {| audit_log := List.filter (fun r => through <? r_id r) (audit_log db);
             audit_log_anchor := Some (through, r_entry_hash row, at_) |} /\
    pr_pruned_rows rep = count_rows (fun r => r_id r <=? through) (audit_log db) /\
    pr_pruned_through_id rep = Some through /\ pr_pruned_through_hash rep = Some (r_entry_hash row) /\
    pr_remaining_rows rep = Z.max 0 (r_id last - through).
Proof.
  unfold prune_locked, last_row. destruct (audit_log db) as [|first t'] eqn:Ht.
  { simpl. intros [= <- <-]. left. auto. }
  cbn [list.head]. destruct (last (first :: t')) as [lst|] eqn:Hl.
  2:{ apply last_None in Hl. done. }
  destruct (prune_boundary _ _ _ _ _) as [through kept] eqn:Hb.
  destruct (Z.ltb_spec through (r_id first)).
  { intros [= <- <-]. left. split_and!; [done|done| |done]. right. exists first, lst. by rewrite Hb. }
  destruct (row_by_id _ through) as [row|] eqn:Hrow; simpl ok_or; cbn [result_bind]; [|done].
  destruct (negb _); [done|]. intros [= <- <-]. right. exists first, lst, row, through. by rewrite Hb.
Qed.

(** What a prune does to a healthy log. *)
Lemma prune_locked_healthy db cutoff max_rows at_ rep db' :
  healthy db -> prune_locked db cutoff max_rows at_ = Ok (rep, db') ->
  healthy db' /\ head_on db' = head_on db /\
  exists pruned, audit_log db = pruned ++ audit_log db' /\
    pr_pruned_rows rep = Z.of_nat (length pruned) /\
    pr_remaining_rows rep = Z.of_nat (length (audit_log db')).
Proof.
  intros Hh [(-> & H1 & _ & H2)|(first & lst & row & through & Hf & Hl & Hb & Hle & Hrow & -> & Hp & _ & _ & Hrem)]%prune_locked_cases.
  { split_and!; [done|done|]. exists []. by rewrite H1, H2. }
  destruct Hh as [Hr Hc]. pose proof (chain_bounds _ _ _ Hc) as [Hlow Hord].
  pose proof (chain_last_id _ _ _ _ Hc Hl) as Hlast.
  apply row_by_id_split in Hrow as (a & b & Ht & Hid & Hfb & Hfa); [|done].
  rewrite Hfb. unfold count_rows in Hp. rewrite Hfa in Hp. cbn [audit_log].
  assert (audit_log db = (a ++ [row]) ++ b) as Ht' by (by rewrite <- app_assoc).
  rewrite Ht' in Hc. apply chain_app in Hc as [Hca Hcb]. rewrite last_snoc in Hcb.
  pose proof (chain_last_id _ _ _ row Hca (last_snoc _ _)) as Hrid. split_and!.
  - split; unfold root_id, root_hash; cbn; [|by rewrite <- Hid]. lia.
  - unfold head_on, last_row, trusted_root_on. cbn [audit_log audit_log_anchor]. rewrite Ht', last_app.
    destruct (last b); [done|]. by rewrite last_snoc, Hid.
  - exists (a ++ [row]). split_and!; [done|done|]. rewrite Hrem, Hlast, Ht', <- Hid, Hrid.
    rewrite (length_app (a ++ [row]) b). lia.
Qed.

(** ** Reachable databases *)
Inductive audit_step : AuditDb -> AuditDb -> Prop :=
  | step_append db e : audit_step db (snd (append db e))
  | step_append_in_transaction db e a db' :
      append_in_transaction db e = Ok (a, db') -> audit_step db db'
  | step_prune db before max_rows now : audit_step db (snd (retention_prune db before max_rows now)).

Lemma append_healthy db e : healthy db -> healthy (snd (append db e)).
Proof.
  intros Hh. unfold append. destruct (prepare_entry e) as [[at_ detail]|]; cbn [result_bind fst snd]; [|done].
  destruct (append_locked db e at_ detail) as [[a db']|] eqn:E; [|done]. by eapply append_locked_healthy in E as (_ & _ & ?).
Qed.

Lemma append_in_transaction_ok db e a db' :
  append_in_transaction db e = Ok (a, db') -> exists at_ detail, append_locked db e at_ detail = Ok (a, db').
Proof.
  unfold append_in_transaction. intros (at_ & _ & Hk)%result_bind_ok. apply result_bind_ok in Hk as (detail & _ & Hk).
  destruct (_ || _) in Hk; [done|]. eauto.
Qed.

Lemma retention_prune_ok db before max_rows now rep db' :
  retention_prune db before max_rows now = (Ok rep, db') ->
  exists cutoff at_, encode_bound "cutoff is out of range" before = Ok cutoff /\
    prune_locked db cutoff max_rows at_ = Ok (rep, db').
Proof.
  unfold retention_prune. destruct (_ && _); [done|]. destruct (encode_bound _ before) as [cutoff|] eqn:Hc; [|done].
  cbn [result_bind]. destruct (ok_or _ _) as [at_|]; [|done]. cbn [result_bind].
  destruct (prune_locked db cutoff max_rows at_) as [[]|] eqn:E; intros [= <- <-]. eauto.
Qed.

Lemma retention_prune_err db before max_rows now e db' :
  retention_prune db before max_rows now = (Err e, db') -> db' = db.
Proof. unfold retention_prune. repeat case_match; by intros [= _ <-]. Qed.

Lemma retention_prune_healthy db before max_rows now :
  healthy db -> healthy (snd (retention_prune db before max_rows now)).
Proof.
  intros Hh. destruct (retention_prune db before max_rows now) as [[rep|e] db'] eqn:E; simpl.
  - apply retention_prune_ok in E as (cutoff & at_ & _ & E). by eapply prune_locked_healthy in E as [? _].
  - by apply retention_prune_err in E as ->.
Qed.

Lemma audit_step_healthy db db' : audit_step db db' -> healthy db -> healthy db'.
Proof.
  destruct 1 as [db e|db e a db' E|db before max_rows now]; intros Hh.
  - by apply append_healthy.
  - apply append_in_transaction_ok in E as (at_ & detail & E). by eapply append_locked_healthy in E as (_ & _ & ?).
  - by apply retention_prune_healthy.
Qed.

Lemma reachable_healthy db : rtc audit_step empty_audit_db db -> healthy db.
Proof.
  assert (healthy empty_audit_db) as Hempty by (split; cbn; [lia|done]).
  intros Hs. induction Hs as [|x y z Hxy _ IH]; [done|]. eauto using audit_step_healthy.
Qed.
(** ** Verification of a healthy log *)
Lemma filter_after_root db : healthy db -> filter_after (root_id db) (audit_log db) = audit_log db.
Proof.
  intros [_ [Hlow _]%chain_bounds]. apply filter_all. eapply Forall_impl; [exact Hlow|]. intros x. apply Z.ltb_lt.
Qed.

Lemma healthy_length db : healthy db -> ch_id (head_on db) < i64_max -> Z.of_nat (length (audit_log db)) < i64_max.
Proof. intros Hh. rewrite head_on_id by done. destruct Hh. lia. Qed.

Lemma length_filter_le {A} (p : A -> bool) l : (length (List.filter p l) <= length l)%nat.
Proof. induction l as [|x l IH]; simpl; [done|]. destruct (p x); simpl; lia. Qed.

(** The rows from a known identifier on. *)
Lemma chain_from id prev t r k :
  chain id prev t -> row_by_id t k = Some r -> chain (k - 1) (r_prev_hash r) (filter_after (k - 1) t).
Proof.
  intros Hc Hrow. pose proof (proj2 (chain_bounds _ _ _ Hc)) as Hord.
  apply row_by_id_split in Hrow as (a & b & -> & <- & _); [|done].
  apply key_order_app in Hord as (_ & Hrb & Hab). apply (key_order_app [r] b) in Hrb as (_ & _ & Hrb).
  unfold filter_after. rewrite List.filter_app, (filter_nothing _ a), (filter_all _ (r :: b)).
  - apply chain_app in Hc as [_ Hrest].
    assert (row_ok r /\ chain (r_id r) (r_entry_hash r) b) as [??] by (destruct (last a); apply Hrest).
    cbn [app chain]. split_and!; [lia|done..].
  - constructor; [apply Z.ltb_lt; lia|]. apply List.Forall_forall. intros x Hx. apply Z.ltb_lt.
    specialize (Hrb r x (or_introl eq_refl) Hx). lia.
  - apply List.Forall_forall. intros x Hx. apply Z.ltb_ge. specialize (Hab x r Hx (or_introl eq_refl)). lia.
Qed.

(** Where a walk may start on a healthy log with newest row [lst]. *)
Definition good_start (db : AuditDb) (lst : StoredEntryRow) (s : WalkStart) : Prop :=
  match s with
  | Start id prev anchored =>
      0 < id <= r_id lst /\ chain (id - 1) prev (filter_after (id - 1) (audit_log db))
  | Gap _ => False
  end.

Lemma root_start_good db lst :
  healthy db -> last (audit_log db) = Some lst -> good_start db lst (Start (root_id db + 1) (root_hash db) true).
Proof.
  intros Hh Hl. pose proof (filter_after_root db Hh) as Hroot. destruct Hh as [Hr Hc]. cbn [good_start].
  pose proof (chain_last_id _ _ _ _ Hc Hl). replace (root_id db + 1 - 1) with (root_id db) by lia. rewrite Hroot.
  assert (0 < Z.of_nat (length (audit_log db))) by (destruct (audit_log db); [done|cbn [length]; lia]).
  split; [lia|done].
Qed.

Lemma tail_start_bound max_id n : 0 < n -> 0 <= max_id < i64_max ->
  saturating_sub_i64 max_id (saturating_sub_i64 (Z.min n i64_max) 1) <= max_id.
Proof. unfold saturating_sub_i64, i64_min, i64_max. lia. Qed.

Lemma walk_start_healthy db scope lst :
  healthy db -> ch_id (head_on db) < i64_max -> last (audit_log db) = Some lst ->
  match scope with All => True | Tail n => 0 < n end ->
  exists s, walk_start (audit_log db) scope (r_id lst) (root_id db + 1) (root_hash db) = Ok s /\
    good_start db lst s /\ (scope = All -> s = Start (root_id db + 1) (root_hash db) true).
Proof.
  intros Hh Hmax Hl Hscope. pose proof (root_start_good db lst Hh Hl) as Hgood.
  destruct scope as [|n]; [by eauto|]. unfold walk_start. destruct (Z.eqb_spec n 0); [lia|].
  rewrite head_on_id in Hmax by done. destruct Hh as [Hr Hc]. pose proof (chain_last_id _ _ _ _ Hc Hl) as Hlast.
  pose proof (tail_start_bound (r_id lst) n Hscope ltac:(lia)) as Htail. cbv zeta.
  generalize dependent (saturating_sub_i64 (r_id lst) (saturating_sub_i64 (Z.min n i64_max) 1)). intros tail Htail.
  destruct (Z.leb_spec tail (root_id db + 1)); [by eauto|].
  destruct (chain_row_by_id _ _ _ tail Hc) as [r Hrow]; [lia|]. rewrite Hrow.
  eexists. split; [done|]. split; [|done]. split; [lia|]. by eapply chain_from.
Qed.

Lemma head_matches db : healthy db -> head_mismatch db (head_on db) = false.
Proof.
  intros [_ Hc]. pose proof (chain_bounds _ _ _ Hc) as [Hlow Hord]. unfold head_mismatch, root_id, root_hash, head_on in *.
  destruct (trusted_root_on db) as [rid rhash]. unfold last_row. cbn [fst snd] in *.
  destruct (last (audit_log db)) as [r|] eqn:Hl; cbn [ch_id ch_entry_hash].
  - apply last_Some in Hl as [t' Ht]. assert (In r (audit_log db)) as Hin by (rewrite Ht; apply in_or_app; right; by left).
    rewrite List.Forall_forall in Hlow. specialize (Hlow r Hin). destruct (Z.eqb_spec (r_id r) rid); [lia|].
    rewrite row_by_id_in by done. simpl. by case_bool_decide.
  - rewrite Z.eqb_refl. by case_bool_decide.
Qed.

Lemma in_i64_small z : 0 <= z <= i64_max -> in_i64 z = true.
Proof. unfold in_i64, i64_min, i64_max. intros. apply andb_true_iff. split; apply Z.leb_le; lia. Qed.

Lemma walk_good_start db lst id prev anchored :
  healthy db -> ch_id (head_on db) < i64_max -> good_start db lst (Start id prev anchored) ->
  exists w, walk (S (length (audit_log db))) (audit_log db)
              {| w_expected_id := id; w_expected_prev := prev; w_checked := 0;
                 w_end_id := None; w_cursor := id - 1 |} = Walked w /\
    w_checked w = Z.of_nat (length (filter_after (id - 1) (audit_log db))).
Proof.
  intros Hh Hmax [_ Hch]. pose proof (healthy_length db Hh Hmax). pose proof (healthy_rooms db Hh Hmax) as Hrooms.
  rewrite walk_unpaged; [|by eapply chain_bounds, h_chain|apply Nat.lt_succ_r, length_filter_le].
  cbn [w_cursor]. pose proof (length_filter_le (fun r => id - 1 <? r_id r) (audit_log db)) as Hfl.
  fold (filter_after (id - 1) (audit_log db)) in Hfl.
  edestruct walk_page_chain as (w' & Hw & Hn & _); [| | | |exists w'; split; [exact Hw|exact Hn]].
  - done.
  - cbn [w_checked]. unfold i64_max, u64_max in *. lia.
  - done.
  - apply incl_Forall with (audit_log db); [|done]. by intros x [? _]%filter_In.
Qed.

Lemma verify_healthy db scope :
  healthy db -> ch_id (head_on db) < i64_max -> match scope with All => True | Tail n => 0 < n end ->
  exists report, verify_in db scope (Some (head_on db)) = Ok report /\ is_valid report = true /\
    (scope = All -> cr_anchored report = true /\ cr_checked report = Z.of_nat (length (audit_log db))).
Proof.
  intros Hh Hmax Hscope. pose proof (head_on_id db Hh) as Hid. pose proof (head_matches db Hh) as Hhead.
  unfold verify_in. destruct (trusted_root_on db) as [rid rhash] eqn:Hroot. cbn [is_some_and].
  assert (root_id db = rid /\ root_hash db = rhash) as [Hri Hrh] by (unfold root_id, root_hash; by rewrite Hroot).
  destruct (Z.ltb_spec (ch_id (head_on db)) rid); [lia|]. unfold last_row.
  destruct (last (audit_log db)) as [lst|] eqn:Hl.
  - pose proof (chain_last_id _ _ _ _ (h_chain _ Hh) Hl) as Hlast. pose proof (h_root _ Hh).
    destruct (walk_start_healthy db scope lst Hh Hmax Hl Hscope) as ([id prev anch|] & Hs & Hgood & Hall); [|done].
    rewrite Hri, Hrh in Hs. unfold checked_add_i64. rewrite in_i64_small by lia. cbn [ok_or result_bind].
    rewrite Hs. cbn [result_bind]. pose proof Hgood as [Hidr _].
    unfold checked_sub_i64. rewrite in_i64_small by lia. cbn [ok_or result_bind].
    destruct (walk_good_start db lst id prev anch Hh Hmax Hgood) as (w & -> & Hn).
    eexists. split; [done|]. unfold finish_walk. rewrite Hhead. split; [done|].
    intros [= -> _ ->]%Hall. split; [done|]. cbn [cr_checked]. rewrite Hn.
    replace (root_id db + 1 - 1) with (root_id db) by lia. by rewrite filter_after_root.
  - eexists. split; [done|]. apply last_None in Hl. rewrite Hl. split; [|done].
    unfold is_valid. cbn. unfold head_on, last_row. rewrite Hl, Hroot. cbn. rewrite Z.eqb_refl. by case_bool_decide.
Qed.

(** A log that verifies is a chain from its root. *)
Lemma verify_sound db scope_head report :
  in_key_order (audit_log db) -> verify_in db All scope_head = Ok report -> is_valid report = true ->
  chain (root_id db) (root_hash db) (filter_after (root_id db) (audit_log db)) /\
  (forall h, scope_head = Some h -> root_id db <= ch_id h /\ head_mismatch db h = false).
Proof.
  intros Hord. unfold verify_in. destruct (trusted_root_on db) as [rid rhash] eqn:Hroot.
  assert (root_id db = rid /\ root_hash db = rhash) as [Hri Hrh] by (unfold root_id, root_hash; by rewrite Hroot).
  rewrite Hri, Hrh. destruct (is_some_and _ scope_head) eqn:Hpre; [done|].
  assert (forall h, scope_head = Some h -> rid <= ch_id h) as Hle.
  { intros h ->. cbn in Hpre. by bprop. }
  unfold last_row. destruct (last (audit_log db)) as [lst|] eqn:Hl.
  - unfold checked_add_i64. destruct (in_i64 _); [|done]. cbn [ok_or result_bind walk_start].
    unfold checked_sub_i64. destruct (in_i64 _); [|done]. cbn [ok_or result_bind].
    rewrite walk_unpaged; [|done|cbn [w_cursor]; apply Nat.lt_succ_r, length_filter_le]. cbn [w_cursor].
    replace (rid + 1 - 1) with rid by lia.
    destruct (walk_page _ _) as [w b| |w] eqn:Hw; [|done|].
    + by intros [= <-].
    + apply walk_page_sound in Hw. cbn in Hw. replace (rid + 1 - 1) with rid in Hw by lia.
      intros [= <-] Hv. split; [done|]. intros h ->. split; [auto|]. unfold finish_walk in Hv.
      by destruct (head_mismatch db h).
  - intros [= <-] Hv. apply last_None in Hl. rewrite Hl. split; [done|]. intros h ->. split; [auto|].
    revert Hv. unfold is_valid, head_mismatch. cbn. rewrite Hroot, Hl. destruct (ch_id h =? rid); [|done].
    cbn. repeat case_bool_decide; cbn; try done. intros _. destruct (decide (ch_entry_hash h = rhash)); congruence.
Qed.
(** ** Tamper evidence *)
(** Identifiers are [i64] and text lengths are [u64]. *)
Definition text_typed (s : string) : Prop := fits 8 (String.length s).
Record row_typed (r : StoredEntryRow) : Prop := {
  rt_id : i64_min <= r_id r <= i64_max;
  rt_at : text_typed (r_occurred_at r);
  rt_actor : text_typed (r_actor r);
  rt_category : text_typed (r_category r);
  rt_action : text_typed (r_action r);
  rt_subject : forall s, r_subject r = Some s -> text_typed s;
  rt_detail : text_typed (r_detail r);
  rt_prev : text_typed (r_prev_hash r)
}.

Definition row_preimage (r : StoredEntryRow) : bytes :=
  entry_preimage (r_id r) (r_occurred_at r) (r_actor r) (r_category r) (r_action r) (r_subject r)
    (r_detail r) (r_prev_hash r).

(** Two entries with one preimage agree in every hashed field. *)
Lemma row_preimage_inj r r' :
  row_typed r -> row_typed r' -> row_preimage r = row_preimage r' -> r_entry_hash r = r_entry_hash r' -> r = r'.
Proof.
  intros [] [] Hp Hh. unfold row_preimage, entry_preimage in Hp. apply app_inv_head in Hp.
  apply (framed (P := fun z => i64_min <= z < i64_min + 256 ^ Z.of_nat 8)) in Hp as [Hid Hp];
    [|unfold i64_min, i64_max in *; change (256 ^ Z.of_nat 8) with 18446744073709551616; lia..].
  unfold hash_str in Hp. repeat change (hash_bytes (str_bytes ?x)) with (put_text 8 x) in Hp.
  do 4 (apply (framed (P := text_typed)) in Hp as [? Hp]; [|done..]).
  change (fun s => hash_bytes (str_bytes s)) with (put_text 8) in Hp.
  apply (framed (P := fun o => forall s, o = Some s -> text_typed s)) in Hp as [? Hp]; [|done..].
  apply (framed (P := text_typed)) in Hp as [? Hp]; [|done..].
  rewrite <- (app_nil_r (put_text 8 (r_prev_hash r))), <- (app_nil_r (put_text 8 (r_prev_hash r'))) in Hp.
  apply (framed (P := text_typed) (enc := put_text 8)) in Hp as [? _]; [|done..].
  destruct r, r'; cbn in *; congruence.
Qed.

Lemma row_hash_determines r r' :
  row_typed r -> row_typed r' -> row_ok r -> row_ok r' -> r_entry_hash r = r_entry_hash r' -> r = r' \/ collide (row_preimage r) (row_preimage r').
Proof.
  intros Hr Hr' (_ & _ & Hh) (_ & _ & Hh') He.
  destruct (decide (row_preimage r = row_preimage r')) as [Hp|Hp]; [left; by apply row_preimage_inj|right].
  split; [done|]. apply hex_text_inj; [apply sha256_u8..|].
  change (row_hash r = row_hash r'). congruence.
Qed.

(** The hash that a chain gives to an identifier, its root included. *)
Definition hash_at (rid : Z) (rhash : string) (t : list StoredEntryRow) (k : Z) : option string :=
  if k =? rid then Some rhash else r_entry_hash <$> row_by_id t k.

Lemma chain_prev_hash rid rhash t r :
  chain rid rhash t -> row_by_id t (r_id r) = Some r -> hash_at rid rhash t (r_id r - 1) = Some (r_prev_hash r).
Proof.
  intros Hc Hrow. pose proof (chain_bounds _ _ _ Hc) as [Hlow Hord]. unfold hash_at.
  apply row_by_id_split in Hrow as (a & b & -> & _); [|done]. apply chain_app in Hc as [Ha Hrest].
  destruct (last a) as [p|] eqn:Hl; destruct Hrest as (Hid & Hp & _).
  - apply last_Some in Hl as [a' ->]. replace (r_id r - 1) with (r_id p) by lia.
    assert (In p ((a' ++ [p]) ++ r :: b)) as Hin by (rewrite !in_app_iff; cbn; auto).
    rewrite List.Forall_forall in Hlow. specialize (Hlow p Hin).
    destruct (Z.eqb_spec (r_id p) rid); [lia|]. rewrite row_by_id_in by done. cbn. by rewrite Hp.
  - replace (r_id r - 1) with rid by lia. by rewrite Z.eqb_refl, Hp.
Qed.

Lemma row_by_id_typed t k r :
  row_by_id t k = Some r -> Forall row_typed t -> row_typed r /\ r_id r = k /\ In r t.
Proof.
  intros [Hin Hk]%iter_find_some Ht. bprop. rewrite List.Forall_forall in Ht. auto.
Qed.

Lemma chain_row_ok id prev t r : chain id prev t -> In r t -> row_ok r.
Proof.
  revert id prev. induction t as [|x t IH]; intros id prev; [done|].
  intros (_ & _ & Hok & Hc) [<-|Hin]; eauto.
Qed.

(** The rows under [k] of two tables are hashed from two messages with one digest. *)
Definition rows_collide (t t' : list StoredEntryRow) (k : Z) : Prop :=
  exists r r', row_by_id t k = Some r /\ row_by_id t' k = Some r' /\ collide (row_preimage r) (row_preimage r').

(** Two chains that agree on the hash at [k] agree on the row at [k] and the hash at [k - 1]. *)
Lemma chains_agree_down rid rhash t rid' rhash' t' k :
  chain rid rhash t -> chain rid' rhash' t' -> Forall row_typed t -> Forall row_typed t' ->
  Z.max rid rid' < k -> is_Some (hash_at rid rhash t k) -> hash_at rid rhash t k = hash_at rid' rhash' t' k ->
  rows_collide t t' k \/ (row_by_id t k = row_by_id t' k /\ is_Some (hash_at rid rhash t (k - 1)) /\
                hash_at rid rhash t (k - 1) = hash_at rid' rhash' t' (k - 1)).
Proof.
  intros Hc Hc' Ht Ht' Hk Hsome Heq. unfold hash_at in Hsome, Heq.
  destruct (Z.eqb_spec k rid); [lia|]. destruct (Z.eqb_spec k rid'); [lia|].
  destruct (row_by_id t k) as [r|] eqn:Hr; [|by destruct Hsome].
  destruct (row_by_id t' k) as [r'|] eqn:Hr'; [|done]. cbn in Heq. injection Heq as Heq.
  destruct (row_by_id_typed _ _ _ Hr Ht) as (Hty & Hid & Hin), (row_by_id_typed _ _ _ Hr' Ht') as (Hty' & Hid' & Hin').
  destruct (row_hash_determines r r') as [->|]; [done|done|exact (chain_row_ok _ _ _ _ Hc Hin)|exact (chain_row_ok _ _ _ _ Hc' Hin')|done| |by left; exists r, r'].
  right. split; [done|]. rewrite <- Hid in *. rewrite !(chain_prev_hash _ _ _ r') by done. eauto.
Qed.

Lemma chains_agree rid rhash t rid' rhash' t' h :
  chain rid rhash t -> chain rid' rhash' t' -> Forall row_typed t -> Forall row_typed t' ->
  is_Some (hash_at rid rhash t h) -> hash_at rid rhash t h = hash_at rid' rhash' t' h ->
  (exists k, Z.max rid rid' < k <= h /\ rows_collide t t' k) \/ (forall k, Z.max rid rid' < k <= h -> row_by_id t k = row_by_id t' k).
Proof.
  intros Hc Hc' Ht Ht' Hs He.
  assert (forall n : nat, Z.max rid rid' <= h - Z.of_nat n -> (exists k, Z.max rid rid' < k <= h /\ rows_collide t t' k) \/
    (is_Some (hash_at rid rhash t (h - Z.of_nat n)) /\
     hash_at rid rhash t (h - Z.of_nat n) = hash_at rid' rhash' t' (h - Z.of_nat n) /\
     forall k, h - Z.of_nat n < k <= h -> row_by_id t k = row_by_id t' k)) as Hn.
  { induction n as [|n IH]; intros Hle.
    - right. rewrite Z.sub_0_r. split_and!; [done|done|lia].
    - destruct IH as [|(Hs0 & He0 & Hrows)]; [lia|by left|].
      destruct (chains_agree_down _ _ _ _ _ _ (h - Z.of_nat n) Hc Hc' Ht Ht' ltac:(lia) Hs0 He0) as [|(Hrow & Hs1 & He1)]; [left; exists (h - Z.of_nat n); split; [lia|done]|].
      right. replace (h - Z.of_nat (S n)) with (h - Z.of_nat n - 1) by lia. split_and!; [done|done|].
      intros k Hk. destruct (decide (k = h - Z.of_nat n)) as [->|]; [done|apply Hrows; lia]. }
  destruct (decide (Z.max rid rid' <= h)); [|right; lia].
  destruct (Hn (Z.to_nat (h - Z.max rid rid'))) as [|(_ & _ & Hall)]; [lia|by left|right]. intros k Hk. apply Hall. lia.
Qed.
Lemma head_hash db : healthy db -> hash_at (root_id db) (root_hash db) (audit_log db) (ch_id (head_on db)) = Some (ch_entry_hash (head_on db)).
Proof.
  intros Hh. pose proof (head_matches db Hh) as Hm. unfold head_mismatch, hash_at, root_id, root_hash in *.
  destruct (trusted_root_on db). cbn [fst snd]. bprop. by apply dec_stable in Hm.
Qed.

(** Every database that appends and prunes reach from an empty one verifies against its
    own head, whatever the scope (the whole log or a non-empty tail), and the full walk is
    anchored at the trusted root and checks every row. *)
Theorem reachable_log_verifies db scope :
  rtc audit_step empty_audit_db db -> ch_id (head db) < i64_max ->
  match scope with All => True | Tail n => 0 < n end ->
  exists report, verify_chain_against db scope (Some (head db)) = Ok report /\ is_valid report = true /\
    (scope = All -> cr_anchored report = true /\ cr_checked report = Z.of_nat (length (audit_log db))).
Proof. intros Hr. apply verify_healthy. by apply reachable_healthy. Qed.

(** C8. Let [h] be the head of a log that only appends and prunes built, and let [db'] be any
    table whatsoever, in key order, that verifies in full against [h]. Then every row of the
    log above both retention anchors is in [db'] unchanged, or the two tables themselves exhibit a
    collision of SHA-256: at some identifier above the anchors both have a row, and the
    messages that are hashed for these two rows differ and have the same digest. *)
Theorem committed_head_pins_the_log db db' report :
  rtc audit_step empty_audit_db db -> Forall row_typed (audit_log db) ->
  in_key_order (audit_log db') -> Forall row_typed (audit_log db') ->
  verify_chain_against db' All (Some (head db)) = Ok report -> is_valid report = true ->
  (exists k, Z.max (root_id db) (root_id db') < k <= ch_id (head db) /\ rows_collide (audit_log db) (audit_log db') k) \/
  forall k, Z.max (root_id db) (root_id db') < k <= ch_id (head db) ->
    is_Some (row_by_id (audit_log db) k) /\ row_by_id (audit_log db') k = row_by_id (audit_log db) k.
Proof.
  intros Hr%reachable_healthy Ht Hord Ht' Hv Hvalid. pose proof (head_hash db Hr) as Hhead.
  destruct (verify_sound db' (Some (head db)) report Hord Hv Hvalid) as [Hc' Hh]. destruct (Hh _ eq_refl) as [Hle Hm].
  pose proof (head_on_id db Hr) as Hid. destruct Hr as [_ Hc]. unfold head in *.
  set (t' := filter_after (root_id db') (audit_log db')) in *.
  assert (forall k, root_id db' < k -> row_by_id t' k = row_by_id (audit_log db') k) as Hlook.
  { intros k Hk. unfold row_by_id, t', filter_after. clear -Hk. induction (audit_log db') as [|x l IH]; cbn; [done|].
    destruct (Z.ltb_spec (root_id db') (r_id x)); cbn; [by rewrite IH|]. destruct (Z.eqb_spec (r_id x) k); [lia|done]. }
  assert (Forall row_typed t') as Htt by (apply incl_Forall with (audit_log db'); [by intros x [? _]%filter_In|done]).
  destruct (chains_agree (root_id db) (root_hash db) (audit_log db) (root_id db') (root_hash db') t' (ch_id (head_on db)))
    as [(k & Hk & r & r' & Hr1 & Hr2 & Hcol)|Hall]; [done|done|done|done|by rewrite Hhead| |left; exists k; split; [done|exists r, r'; split_and!; [done| |done]; by rewrite <- Hlook by lia]|].
  - rewrite Hhead. unfold head_mismatch, root_id, root_hash, hash_at in *. destruct (trusted_root_on db') as [rid' rhash'].
    cbn [fst snd] in *. bprop. apply dec_stable in Hm. rewrite <- Hm. destruct (Z.eqb_spec (ch_id (head_on db)) rid'); [done|].
    rewrite Hlook; [done|]. lia.
  - right. intros k Hk. split; [eapply chain_row_by_id; [done|lia]|]. rewrite <- Hlook by lia. symmetry. by apply Hall.
Qed.

(** ** Where a prune cuts *)
Lemma cut_at t c :
  in_key_order t -> t = List.filter (fun r => r_id r <=? c) t ++ List.filter (fun r => c <? r_id r) t.
Proof.
  intros Hs. induction t as [|r t IH]; [done|].
  unfold in_key_order in *. cbn [map] in Hs. apply StronglySorted_inv in Hs as [Hs Hr]. specialize (IH Hs).
  cbn. destruct (Z.leb_spec (r_id r) c), (Z.ltb_spec c (r_id r)); try lia; cbn; [by f_equal|].
  rewrite (filter_nothing _ t), (filter_all _ t); [done|..]; apply List.Forall_forall; rewrite List.Forall_forall in Hr;
    intros x Hx; specialize (Hr (r_id x) (in_map r_id _ _ Hx)); [apply Z.ltb_lt|apply Z.leb_gt]; lia.
Qed.

Lemma prune_locked_cut db cutoff max_rows at_ rep db' :
  healthy db -> prune_locked db cutoff max_rows at_ = Ok (rep, db') ->
  (audit_log db = [] /\ audit_log db' = []) \/
  exists first lst, list.head (audit_log db) = Some first /\ last (audit_log db) = Some lst /\
    audit_log db' = List.filter (fun r =>
      fst (prune_boundary (audit_log db) (r_id first) (r_id lst) cutoff max_rows) <? r_id r) (audit_log db).
Proof.
  intros [_ Hc] [(-> & _ & [Hnil|(first & lst & Hf & Hl & Hlt)] & _)|(first & lst & row & through & Hf & Hl & Hb & _ & _ & -> & _)]%prune_locked_cases.
  - by left.
  - right. exists first, lst. split_and!; [done|done|]. symmetry. apply filter_all.
    apply chain_bounds in Hc as [_ Hord]. destruct (audit_log db) as [|r t]; [done|]. cbn in Hf. injection Hf as ->.
    unfold in_key_order in Hord. cbn [map] in Hord. apply StronglySorted_inv in Hord as [_ Hord]. rewrite List.Forall_forall in Hord.
    apply List.Forall_forall. intros x [<-|Hx]; apply Z.ltb_lt; [done|]. specialize (Hord _ (in_map r_id _ _ Hx)). lia.
  - right. exists first, lst. split_and!; [done|done|]. by rewrite Hb.
Qed.

(** The row bound. *)
Lemma boundary_rows t first lst cutoff m :
  0 <= m -> 0 <= lst < i64_max -> lst - fst (prune_boundary t first lst cutoff (Some m)) <= m.
Proof.
  intros Hm Hl. unfold prune_boundary. destruct (match cutoff with None => _ | Some _ => _ end) as [th kept].
  cbn [fst]. unfold saturating_sub_i64, i64_min, i64_max in *. lia.
Qed.

Lemma chain_count id prev t c :
  chain id prev t -> Z.of_nat (length (List.filter (fun r => c <? r_id r) t)) <= Z.max 0 (id + Z.of_nat (length t) - c).
Proof.
  revert id prev. induction t as [|r t IH]; intros id prev; [cbn; lia|]. intros (Hid & _ & _ & Hc).
  specialize (IH _ _ Hc). pose proof (length_filter_le (fun r => c <? r_id r) t).
  cbn. destruct (Z.ltb_spec c (r_id r)); cbn [length]; lia.
Qed.

Lemma iter_find_split {A} (p : A -> bool) l a :
  iter_find p l = Some a -> exists l1 l2, l = l1 ++ a :: l2 /\ p a = true /\ Forall (fun x => p x = false) l1.
Proof.
  induction l as [|x l IH]; cbn; [done|]. destruct (p x) eqn:Hp.
  - intros [= <-]. by exists [], l.
  - intros (l1 & l2 & -> & Ha & Hall)%IH. exists (x :: l1), l2. auto.
Qed.

(** The age bound. *)
Lemma boundary_age id prev t first lst c :
  chain id prev t -> list.head t = Some first -> last t = Some lst ->
  let through := fst (prune_boundary t (r_id first) (r_id lst) (Some c) None) in
  Forall (fun r => String.ltb (r_occurred_at r) c = true) (List.filter (fun r => r_id r <=? through) t) /\
  (forall r, list.head (List.filter (fun r => through <? r_id r) t) = Some r ->
     String.ltb (r_occurred_at r) c = false).
Proof.
  intros Hc Hf Hl through. pose proof (chain_bounds _ _ _ Hc) as [Hlow Hord].
  assert (r_id first = id + 1) as Hfirst by (destruct t; [done|]; cbn in Hf; injection Hf as <-; apply Hc).
  pose proof (chain_last_id _ _ _ _ Hc Hl) as Hlast.
  unfold through, prune_boundary, age_cut. clear through.
  destruct (iter_find _ t) as [r|] eqn:Hfind; cbn [fst].
  - apply iter_find_split in Hfind as (l1 & l2 & -> & Hr & Hl1). bprop.
    rewrite List.Forall_forall in Hlow. specialize (Hlow r ltac:(apply in_or_app; right; by left)).
    rewrite Z.max_r by lia. apply key_order_app in Hord as (_ & Hrl & H12). apply (key_order_app [r] l2) in Hrl as (_ & _ & Hrl).
    rewrite !List.filter_app, (filter_all _ l1), (filter_nothing _ (r :: l2)), (filter_nothing _ l1), (filter_all _ (r :: l2)).
    + rewrite app_nil_r. split; [|by intros x [= <-]]. eapply Forall_impl; [exact Hl1|]. cbn. intros x Hx. by bprop.
    + constructor; [apply Z.ltb_lt; lia|]. apply List.Forall_forall. intros x Hx. apply Z.ltb_lt. specialize (Hrl r x (or_introl eq_refl) Hx). lia.
    + apply List.Forall_forall. intros x Hx. apply Z.ltb_ge. specialize (H12 x r Hx (or_introl eq_refl)). lia.
    + constructor; [apply Z.leb_gt; lia|]. apply List.Forall_forall. intros x Hx. apply Z.leb_gt. specialize (Hrl r x (or_introl eq_refl) Hx). lia.
    + apply List.Forall_forall. intros x Hx. apply Z.leb_le. specialize (H12 x r Hx (or_introl eq_refl)). lia.
  - apply iter_find_none in Hfind.
    assert (Forall (fun x => r_id x <= r_id lst) t) as Hup.
    { apply Forall_lookup. intros i x Hx. pose proof (chain_ids _ _ _ Hc _ _ Hx). apply lookup_lt_Some in Hx. lia. }
    split; [|rewrite filter_nothing; [done|]].
    + apply incl_Forall with t; [by intros x [? _]%filter_In|]. eapply Forall_impl; [exact Hfind|]. cbn. intros x Hx. by bprop.
    + eapply Forall_impl; [exact Hup|]. cbn. intros x Hx. apply Z.ltb_ge. lia.
Qed.

(** A retention prune of such a log removes an oldest-side prefix and leaves the head in
    place, its counts are exact, at most [max_rows] rows survive, and without that bound it
    removes exactly the rows before the first one that is not older than the cutoff. *)
Theorem prune_removes_oldest_prefix db before max_rows now report db' :
  rtc audit_step empty_audit_db db -> ch_id (head db) < i64_max ->
  is_none_or (fun m => 0 <=? m) max_rows = true ->
  retention_prune db before max_rows now = (Ok report, db') ->
  head db' = head db /\
  exists pruned cutoff, audit_log db = pruned ++ audit_log db' /\
    encode_bound "cutoff is out of range" before = Ok cutoff /\
    pr_pruned_rows report = Z.of_nat (length pruned) /\
    pr_remaining_rows report = Z.of_nat (length (audit_log db')) /\
    (forall m, max_rows = Some m -> Z.of_nat (length (audit_log db')) <= m) /\
    (max_rows = None -> forall c, cutoff = Some c ->
       Forall (fun r => String.ltb (r_occurred_at r) c = true) pruned /\
       (forall r, list.head (audit_log db') = Some r -> String.ltb (r_occurred_at r) c = false)).
Proof.
  intros Hh%reachable_healthy Hmax Hm Hp. unfold head in *.
  apply retention_prune_ok in Hp as (cutoff & at_ & Hcut & Hp).
  destruct (prune_locked_healthy _ _ _ _ _ _ Hh Hp) as (_ & Hhead & pruned & Hsplit & Hn & Hrem). split; [done|].
  exists pruned, cutoff. split_and!; try done.
  - intros m ->. cbn in Hm. bprop. pose proof (healthy_length db Hh Hmax) as Hlen.
    destruct (prune_locked_cut _ _ _ _ _ _ Hh Hp) as [[_ ->]|(first & lst & Hf & Hl & Hcutlog)]; [by cbn|].
    pose proof (chain_last_id _ _ _ _ (h_chain _ Hh) Hl) as Hlast. rewrite head_on_id in Hmax by done.
    pose proof (boundary_rows (audit_log db) (r_id first) (r_id lst) cutoff m Hm) as Hb. pose proof (h_root _ Hh).
    specialize (Hb ltac:(lia)). rewrite Hcutlog.
    pose proof (chain_count _ _ _ (fst (prune_boundary (audit_log db) (r_id first) (r_id lst) cutoff (Some m)))
      (h_chain _ Hh)). lia.
  - intros -> c ->.
    destruct (prune_locked_cut _ _ _ _ _ _ Hh Hp) as [[Hnil Hnil']|(first & lst & Hf & Hl & Hcutlog)].
    + rewrite Hnil, Hnil', app_nil_r in Hsplit. subst pruned. rewrite Hnil'. done.
    + pose proof (h_chain _ Hh) as Hc. destruct (boundary_age _ _ _ _ _ c Hc Hf Hl) as [Hold Hkept].
      set (th := fst (prune_boundary (audit_log db) (r_id first) (r_id lst) (Some c) None)) in *.
      pose proof (cut_at (audit_log db) th (proj2 (chain_bounds _ _ _ Hc))) as Hcat. rewrite <- Hcutlog in Hcat, Hkept.
      split; [|done]. replace pruned with (List.filter (fun r => r_id r <=? th) (audit_log db)); [done|].
      apply (app_inv_tail (audit_log db')). by rewrite <- Hsplit.
Qed.
Definition no_filter : AuditFilter :=
  {| fl_actor := None; fl_category := None; fl_subject := None; fl_since := None; fl_until := None |}.

Lemma append_locked_decodes db e at_ detail a db' :
  append_locked db e at_ detail = Ok (a, db') ->
  decode_entry (new_row e (ch_id (head_on db) + 1) (ch_entry_hash (head_on db)) at_ detail) = Ok a /\
  ae_id a = ch_id (head_on db) + 1 /\ ae_prev_hash a = ch_entry_hash (head_on db).
Proof.
  unfold append_locked, checked_add_i64, decode_entry. destruct (in_i64 _); [|done]. cbn [ok_or result_bind].
  destruct (insert_row _ _); [|done]. cbn -[compute_entry_hash]. rewrite actor_parse_as_str, category_parse_as_str.
  destruct (json_from_str detail); [|done]. cbn -[compute_entry_hash]. destruct (decode_time at_); [|done].
  cbn -[compute_entry_hash]. by intros [= <- <-].
Qed.

(** A successful append extends the head by one identifier and links to its hash, and
    reading the newest entry back gives exactly the entry that the append returned; a failed
    append leaves the log as it was. *)
Theorem append_then_read_newest db e :
  rtc audit_step empty_audit_db db ->
  match append db e with
  | (Ok a, db') =>
      ae_id a = ch_id (head db) + 1 /\ ae_prev_hash a = ch_entry_hash (head db) /\
      head db' = {| ch_id := ae_id a; ch_entry_hash := ae_entry_hash a |} /\
      list_newest db' no_filter None 1 = Ok [a]
  | (Err _, db') => db' = db
  end.
Proof.
  intros Hh%reachable_healthy. unfold append, head.
  destruct (prepare_entry e) as [[at_ detail]|]; cbn [result_bind fst snd]; [|done].
  destruct (append_locked db e at_ detail) as [[a db']|] eqn:E; [|done].
  destruct (append_locked_decodes _ _ _ _ _ _ E) as (Hdec & Hid & Hprev).
  destruct (append_locked_healthy _ _ _ _ _ _ Hh E) as (Ht & _ & _). split_and!; [done|done|..].
  - unfold head_on at 1. unfold last_row. rewrite Ht, last_snoc. rewrite Hid. f_equal.
    unfold decode_entry in Hdec. repeat (apply result_bind_ok in Hdec as (? & _ & Hdec)). by injection Hdec as <-.
  - unfold list_newest. rewrite Ht, rev_app_distr. revert Hdec. generalize (new_row e (ch_id (head_on db) + 1)
      (ch_entry_hash (head_on db)) at_ detail). intros row Hdec. change (Z.to_nat 1) with 1%nat. cbn -[decode_entry]. by rewrite Hdec.
Qed.
End Theorems.

(** ** Concrete runs *)
Definition toy_digest (m : bytes) : bytes := be_bytes 32 (fold_left (fun a b => 257 * a + b + 1) m 7).

Lemma be_bytes_u8 n z : Forall is_u8 (be_bytes n z).
Proof.
  revert z. induction n as [|n IH]; intros z; cbn [be_bytes]; [constructor|].
  apply Forall_app. split; [auto|]. repeat constructor; apply Z.mod_pos_bound; lia.
Qed.

Definition toy_sha256 : Sha256 := {|
  sha256 := toy_digest;
  sha256_length m := length_be_bytes 32 _;
  sha256_u8 m := be_bytes_u8 32 _
|}.

Definition toy_time (t : DateTime) : string := hex_text (be_bytes 12 t).

Definition toy_libs : AuditLibs := {|
  Value := string;
  json_to_string := Some;
  json_from_str := Some;
  json_valid _ := true;
  rfc3339 := toy_time;
  parse_rfc3339 s := iter_find (fun t => bool_decide (toy_time t = s)) [10; 20; 30; 40];
  year _ := 2026
|}.
#[local] Existing Instance toy_sha256.
#[local] Existing Instance toy_libs.

Definition toy_entry (t : DateTime) (action : string) : NewAuditEntry := {|
  ne_occurred_at := t; ne_actor := Owner; ne_category := Approval; ne_action := action;
  ne_subject := None; ne_detail := "{}"%string : Value |}.

#[local] Opaque append list_newest head.

Definition log1 : AuditDb := snd (append empty_audit_db (toy_entry 10 "approve")).
Definition log2 : AuditDb := snd (append log1 (toy_entry 20 "block")).
Definition log3 : AuditDb := snd (append log2 (toy_entry 30 "scan")).

Lemma log3_rows : map r_id (audit_log log3) = [1; 2; 3].
Proof. vm_compute. reflexivity. Qed.

(** A bound on the texts that implies the machine bounds. *)
Definition short (s : string) : bool := str_len s <? 65536.
Definition short_row (r : StoredEntryRow) : bool :=
  in_i64 (r_id r) && short (r_occurred_at r) && short (r_actor r) && short (r_category r) && short (r_action r)
  && is_none_or short (r_subject r) && short (r_detail r) && short (r_prev_hash r).

Lemma short_typed s : short s = true -> text_typed s.
Proof.
  unfold short, str_len, text_typed, fits. intros Hs. bprop. change (256 ^ Z.of_nat 8) with 18446744073709551616. lia.
Qed.

Lemma short_row_typed t : forallb short_row t = true -> Forall row_typed t.
Proof.
  intros Hs. apply List.Forall_forall. intros r Hr. rewrite forallb_forall in Hs. specialize (Hs r Hr).
  unfold short_row, in_i64 in Hs. bprop. rewrite is_none_or_true in *. split; auto using short_typed.
Qed.

Lemma log2_reachable : rtc audit_step empty_audit_db log2.
Proof.
  exact (rtc_l _ _ log1 _ (step_append empty_audit_db _) (rtc_once _ _ (step_append log1 (toy_entry 20 "block")))).
Qed.

Lemma log3_reachable : rtc audit_step empty_audit_db log3.
Proof. exact (rtc_r _ log2 _ log2_reachable (step_append log2 (toy_entry 30 "scan"))). Qed.

Lemma reachable_log_verifies_witness :
  exists report, verify_chain_against log3 (Tail 2) (Some (head log3)) = Ok report /\ is_valid report = true /\
    (Tail 2 = All -> cr_anchored report = true /\ cr_checked report = Z.of_nat (length (audit_log log3))).
Proof. apply (reachable_log_verifies log3 (Tail 2)); [apply log3_reachable|vm_compute; reflexivity|lia]. Defined.

Lemma committed_head_pins_the_log_witness :
  (exists k, Z.max (root_id log3) (root_id log3) < k <= ch_id (head log3) /\ rows_collide (audit_log log3) (audit_log log3) k) \/
  forall k, Z.max (root_id log3) (root_id log3) < k <= ch_id (head log3) ->
    is_Some (row_by_id (audit_log log3) k) /\ row_by_id (audit_log log3) k = row_by_id (audit_log log3) k.
Proof.
  assert (Forall row_typed (audit_log log3)) as Ht.
  { apply short_row_typed. vm_compute. reflexivity. }
  eapply (committed_head_pins_the_log log3 log3); [apply log3_reachable|exact Ht| |exact Ht|vm_compute; reflexivity|reflexivity].
  vm_compute. repeat constructor.
Defined.

Lemma prune_removes_oldest_prefix_witness :
  exists report, fst (retention_prune log3 (Some 20) None 40) = Ok report /\
    head (snd (retention_prune log3 (Some 20) None 40)) = head log3 /\ pr_pruned_rows report = 1.
Proof.
  assert (exists report, fst (retention_prune log3 (Some 20) None 40) = Ok report /\ pr_pruned_rows report = 1)
    as (report & E & Hn) by (eexists; split; [vm_compute; reflexivity|reflexivity]).
  exists report. split; [exact E|]. split; [|exact Hn].
  apply (prune_removes_oldest_prefix log3 (Some 20) None 40 report);
    [apply log3_reachable|vm_compute; reflexivity|reflexivity|].
  rewrite <- E. apply surjective_pairing.
Defined.

Lemma append_then_read_newest_witness :
  exists a, fst (append log2 (toy_entry 30 "scan")) = Ok a /\ list_newest log3 no_filter None 1 = Ok [a].
Proof.
  assert (is_ok (fst (append log2 (toy_entry 30 "scan"))) = true) as Hok by (vm_compute; reflexivity).
  pose proof (append_then_read_newest log2 (toy_entry 30 "scan") log2_reachable) as Hread. unfold log3.
  destruct (append log2 (toy_entry 30 "scan")) as [[a|e] db']; [|discriminate Hok].
  exists a. split; [reflexivity|]. exact (proj2 (proj2 (proj2 Hread))).
Defined.
