(* ===== verification/Net.v ===== *)
(** * Addresses, interfaces and the discovery target guard

    crates/lattice-sensor/src/lib.rs: the interface inventory and its differences, the
    classification of adapters, and [TargetGuard], which decides which addresses may be
    probed. An IPv4 address is its 32-bit value, an IPv6 address its 128-bit value; the
    predicates of the standard library on addresses are written out on those bits. A
    [BTreeMap] keyed by interface is a [gmap]. What pnet_datalink returns is an argument. *)

From S2P Require Import Prelude Order Text.

(** ** Addresses *)
Inductive IpAddr := V4 (a : Z) | V6 (a : Z).
#[global] Instance IpAddr_eq_dec : EqDecision IpAddr.
Proof. solve_decision. Defined.
#[global] Program Instance IpAddr_countable : Countable IpAddr :=
  inj_countable' (fun a => match a with V4 z => inl z | V6 z => inr z end)
                 (fun s => match s with inl z => V4 z | inr z => V6 z end) _.
Next Obligation. by intros []. Qed.

(** The derived [Ord]. *)
Definition ip_cmp (a b : IpAddr) : comparison :=
  match a, b with
  | V4 x, V4 y => Z.compare x y
  | V4 _, V6 _ => Lt
  | V6 _, V4 _ => Gt
  | V6 x, V6 y => Z.compare x y
  end.

#[export] Instance ip_cmp_order : CmpOrder ip_cmp.
Proof.
  split.
  - intros [x|x] [y|y]; cbn; rewrite ?Z.compare_eq_iff; naive_solver.
  - intros [x|x] [y|y]; cbn; try done; apply Z.compare_antisym.
  - intros [x|x] [y|y] [z|z]; cbn; try done; rewrite !Z.compare_lt_iff; lia.
Qed.

Definition u32_mask : Z := 4294967295.
Definition u128_mask : Z := 340282366920938463463374607431768211455.

(** Addresses that the Rust types can hold. *)
Definition ip_wf (a : IpAddr) : Prop :=
  match a with V4 z => 0 <= z <= u32_mask | V6 z => 0 <= z <= u128_mask end.

Definition v4 (a b c d : Z) : Z := Z.lor (Z.shiftl a 24) (Z.lor (Z.shiftl b 16) (Z.lor (Z.shiftl c 8) d)).
Definition octet (a : Z) (i : Z) : Z := Z.land (Z.shiftr a (24 - 8 * i)) 255.

Definition is_ipv4 (a : IpAddr) : bool := match a with V4 _ => true | V6 _ => false end.

(** [Ipv4Addr::is_private], [is_link_local], [BROADCAST]. *)
Definition is_private_v4 (a : Z) : bool :=
  (octet a 0 =? 10) || ((octet a 0 =? 172) && (16 <=? octet a 1) && (octet a 1 <=? 31))
  || ((octet a 0 =? 192) && (octet a 1 =? 168)).
Definition is_link_local_v4 (a : Z) : bool := (octet a 0 =? 169) && (octet a 1 =? 254).
Definition v4_broadcast : Z := u32_mask.

(** [Ipv6Addr::is_unspecified], [is_loopback], [is_multicast], [to_ipv4_mapped],
    [is_unicast_link_local]. *)
Definition is_unspecified_v6 (a : Z) : bool := a =? 0.
Definition is_loopback_v6 (a : Z) : bool := a =? 1.
Definition is_multicast_v6 (a : Z) : bool := Z.shiftr a 120 =? 255.
Definition to_ipv4_mapped (a : Z) : option Z :=
  if Z.shiftr a 32 =? 65535 then Some (Z.land a u32_mask) else None.
Definition is_unicast_link_local (a : Z) : bool := Z.land (Z.shiftr a 112) 65472 =? 65152.

Definition is_ula (a : Z) : bool := Z.land (Z.shiftr a 120) 254 =? 252.
Definition is_private_or_link_local_v4 (a : Z) : bool := is_private_v4 a || is_link_local_v4 a.

Definition is_permitted_target (t : IpAddr) : bool :=
  match t with
  | V4 a => is_private_or_link_local_v4 a
  | V6 a =>
      negb (is_unspecified_v6 a) && negb (is_loopback_v6 a) && negb (is_multicast_v6 a)
      && bool_decide (to_ipv4_mapped a = None) && (is_ula a || is_unicast_link_local a)
  end.

(** ** Interfaces *)
Definition InterfaceId : Type := Z.

Record Address := { ad_ip : IpAddr; ad_prefix : Z }.
#[global] Instance Address_eq_dec : EqDecision Address.
Proof. solve_decision. Defined.

Inductive InterfaceClass :=
  | PhysicalWired | PhysicalWifi | Loopback | Tailscale | VpnTunnel | Container
  | VirtualMachine | UnknownClass.
#[global] Instance InterfaceClass_eq_dec : EqDecision InterfaceClass.
Proof. solve_decision. Defined.

Inductive InterfaceRole := Corporate.
#[global] Instance InterfaceRole_eq_dec : EqDecision InterfaceRole.
Proof. solve_decision. Defined.

Record Interface := {
  if_id : InterfaceId;
  if_name : string;
  if_description : option string;
  if_up : bool;
  if_class : InterfaceClass;
  if_addresses : list Address;
  if_owner_role : option InterfaceRole
}.
#[global] Instance Interface_eq_dec : EqDecision Interface.
Proof. solve_decision. Defined.

Inductive InterfaceOverride := Default | Enable.
#[global] Instance InterfaceOverride_eq_dec : EqDecision InterfaceOverride.
Proof. solve_decision. Defined.

Definition discovery_eligible (i : Interface) (setting : InterfaceOverride) : bool :=
  if bool_decide (if_class i = Loopback) then false
  else if bool_decide (setting = Enable) then true
  else if_up i
       && (bool_decide (if_class i = PhysicalWired) || bool_decide (if_class i = PhysicalWifi))
       && bool_decide (if_owner_role i <> Some Corporate).

(** [str::contains], [starts_with], [to_ascii_lowercase] *)
Fixpoint contains (pat s : string) : bool :=
  String.prefix pat s || match s with EmptyString => false | String _ s' => contains pat s' end.

Definition starts_with (s pat : string) : bool := String.prefix pat s.

Definition lower_byte (a : ascii) : ascii :=
  let n := N_of_ascii a in if ((65 <=? n) && (n <=? 90))%N then ascii_of_N (n + 32) else a.
Fixpoint to_ascii_lowercase (s : string) : string :=
  match s with EmptyString => EmptyString | String a s' => String (lower_byte a) (to_ascii_lowercase s') end.

Definition classify_interface (name : string) (description : option string) (loopback : bool)
  : InterfaceClass :=
  if loopback then Loopback
  else
    let value := to_ascii_lowercase (name +:+ " " +:+ default "" description)%string in
    let has p := contains p value in
    let name_starts p := starts_with (to_ascii_lowercase name) p in
    if has "tailscale"%string then Tailscale
    else if has "vethernet"%string || has "hyper-v"%string || has "virtualbox"%string
            || has "vmware"%string || has "virtio"%string then VirtualMachine
    else if has "docker"%string || has "podman"%string || has "container"%string || has "veth"%string
            || has "cni"%string || has "br-"%string then Container
    else if bool_decide (value = "lo"%string) || starts_with value "lo:" then Loopback
    else if starts_with value "wg" || starts_with value "tun" || starts_with value "tap"
            || has "wireguard"%string || has "openvpn"%string || has "vpn"%string || has "tunnel"%string
            || has "ppp"%string then VpnTunnel
    else if has "wi-fi"%string || has "wifi"%string || has "wireless"%string || name_starts "wlan"%string
            || name_starts "wlp"%string then PhysicalWifi
    else if bool_decide (value = "ethernet"%string) || starts_with value "ethernet " || has "gbe"%string
            || name_starts "eth"%string || name_starts "enp"%string || name_starts "eno"%string
            || name_starts "ens"%string then PhysicalWired
    else UnknownClass.

(** ** The inventory *)
Record InterfaceInventory := { inv_interfaces : gmap InterfaceId Interface }.

(** Collecting into a map: a later entry replaces an earlier one. *)
Definition inventory_new (l : list Interface) : InterfaceInventory :=
  {| inv_interfaces := fold_left (fun m i => <[if_id i := i]> m) l ∅ |}.

Definition entry_id_le (a b : InterfaceId * Interface) : Prop := fst a <= fst b.
#[global] Instance entry_id_le_dec a b : Decision (entry_id_le a b).
Proof. unfold entry_id_le. apply _. Defined.

Definition interfaces (inv : InterfaceInventory) : list Interface :=
  snd <$> merge_sort entry_id_le (map_to_list (inv_interfaces inv)).

Definition inventory_get (inv : InterfaceInventory) (id : InterfaceId) : option Interface :=
  inv_interfaces inv !! id.

Record InventoryDiff := {
  df_added : list InterfaceId; df_removed : list InterfaceId; df_changed : list InterfaceId }.

(** A [BTreeSet] read in order. *)
Definition ascending (s : gset InterfaceId) : list InterfaceId := merge_sort Z.le (elements s).

Definition diff_inventory (before after : InterfaceInventory) : InventoryDiff :=
  let before_ids := dom (inv_interfaces before) in
  let after_ids := dom (inv_interfaces after) in
  {| df_added := ascending (after_ids ∖ before_ids);
     df_removed := ascending (before_ids ∖ after_ids);
     df_changed := List.filter (fun id =>
       bool_decide (inv_interfaces before !! id <> inv_interfaces after !! id))
       (ascending (before_ids ∩ after_ids)) |}.

Inductive InterfaceManagerError := InvalidInterfaceIndex | Unavailable | CapacityExceeded.

(** What pnet_datalink reports of one interface. *)
Record SystemInterface := {
  si_index : Z; si_name : string; si_description : string; si_loopback : bool; si_up : bool;
  si_ips : list Address }.

Definition snapshot_interface (s : SystemInterface) : Interface :=
  let description := if str_is_empty (si_description s) then None else Some (si_description s) in
  {| if_id := si_index s; if_name := si_name s; if_description := description; if_up := si_up s;
     if_class := classify_interface (si_name s) description (si_loopback s);
     if_addresses := si_ips s; if_owner_role := None |}.

Definition snapshot (system : list SystemInterface) : result InterfaceInventory InterfaceManagerError :=
  if existsb (fun s => si_index s =? 0) system then Err InvalidInterfaceIndex
  else Ok (inventory_new (map snapshot_interface system)).

(** ** Prefixes *)
Record ApprovedPrefix := { ap_interface : InterfaceId; ap_address : Address }.

Record TargetGuard := {
  tg_eligible : gset InterfaceId;
  tg_prefixes : list ApprovedPrefix;
  tg_interfaces : gmap InterfaceId Interface
}.

Record AuthorizedBinding := { ab_source : IpAddr; ab_interface_index : Z; ab_target : IpAddr }.
Record TargetApproval := { ta_interface : InterfaceId; ta_prefix : Address }.

Inductive TargetGuardError :=
  | UnknownInterface
  | InterfaceNotEligible
  | InvalidApprovalPrefix (ip : IpAddr) (prefix : Z)
  | DisallowedApproval (ip : IpAddr) (prefix : Z)
  | ApprovalOutsideInterfaceNetwork
  | TargetNotPrivate
  | OutsideApprovedPrefix.

Inductive SocketAddr :=
  | SocketV4 (ip port : Z)
  | SocketV6 (ip port flowinfo scope_id : Z).

Definition socket_for (ip : IpAddr) (port interface_index : Z) : SocketAddr :=
  match ip with
  | V4 a => SocketV4 a port
  | V6 a => SocketV6 a port 0 (if is_unicast_link_local a then interface_index else 0)
  end.
Definition target_socket (b : AuthorizedBinding) (port : Z) : SocketAddr :=
  socket_for (ab_target b) port (ab_interface_index b).
Definition source_socket (b : AuthorizedBinding) : SocketAddr :=
  socket_for (ab_source b) 0 (ab_interface_index b).

Definition width (a : IpAddr) : Z := match a with V4 _ => 32 | V6 _ => 128 end.

Definition validate_prefix (a : Address) : result unit TargetGuardError :=
  if width (ad_ip a) <? ad_prefix a then Err (InvalidApprovalPrefix (ad_ip a) (ad_prefix a)) else Ok tt.

(** [MAX << (w - bits)] on [w] bits, where the amount is a [u8] and a shift by more than the
    width takes the amount modulo the width. *)
Definition net_mask (w bits : Z) : Z :=
  if bits =? 0 then 0
  else Z.land (Z.shiftl (Z.ones w) (((w - bits) mod 256) mod w)) (Z.ones w).

Definition prefix_contains (p : Address) (target : IpAddr) : bool :=
  match ad_ip p, target with
  | V4 network, V4 t => Z.land network (net_mask 32 (ad_prefix p)) =? Z.land t (net_mask 32 (ad_prefix p))
  | V6 network, V6 t => Z.land network (net_mask 128 (ad_prefix p)) =? Z.land t (net_mask 128 (ad_prefix p))
  | _, _ => false
  end.

Definition is_ipv4_broadcast (p : Address) (target : IpAddr) : bool :=
  match ad_ip p, target with
  | V4 network, V4 t =>
      if t =? v4_broadcast then true
      else if 30 <? ad_prefix p then false
      else let mask := net_mask 32 (ad_prefix p) in
           t =? Z.lor (Z.land network mask) (Z.lxor mask (Z.ones 32))
  | _, _ => false
  end.

Definition allowed_ranges : list Address := [
  {| ad_ip := V4 (v4 10 0 0 0); ad_prefix := 8 |};
  {| ad_ip := V4 (v4 172 16 0 0); ad_prefix := 12 |};
  {| ad_ip := V4 (v4 192 168 0 0); ad_prefix := 16 |};
  {| ad_ip := V4 (v4 169 254 0 0); ad_prefix := 16 |};
  {| ad_ip := V6 (Z.shiftl 64512 112); ad_prefix := 7 |};
  {| ad_ip := V6 (Z.shiftl 65152 112); ad_prefix := 10 |}].

Definition is_permitted_approval_range (a : Address) : bool :=
  existsb (fun allowed => (ad_prefix allowed <=? ad_prefix a) && prefix_contains allowed (ad_ip a)) allowed_ranges.

(** ** The guard *)
Definition eligible_ids (inv : InterfaceInventory) (overrides : gmap InterfaceId InterfaceOverride)
  : gset InterfaceId :=
  fold_left (fun s i =>
    if discovery_eligible i (default Default (overrides !! if_id i)) then {[if_id i]} ∪ s else s)
    (interfaces inv) ∅.

(** Whether an approved prefix lies inside an attached network. *)
Definition attached_network (approval attached : Address) : bool :=
  is_ok (validate_prefix attached) && is_permitted_target (ad_ip attached)
  && prefix_contains attached (ad_ip approval) && (ad_prefix attached <=? ad_prefix approval).

Definition check_approval (inv : InterfaceInventory) (eligible : gset InterfaceId) (a : TargetApproval)
  : result ApprovedPrefix TargetGuardError :=
  let? interface := ok_or (inventory_get inv (ta_interface a)) UnknownInterface in
  if negb (bool_decide (ta_interface a ∈ eligible)) then Err InterfaceNotEligible
  else
    let? _ := validate_prefix (ta_prefix a) in
    if negb (is_permitted_approval_range (ta_prefix a))
    then Err (DisallowedApproval (ad_ip (ta_prefix a)) (ad_prefix (ta_prefix a)))
    else if negb (existsb (attached_network (ta_prefix a)) (if_addresses interface))
    then Err ApprovalOutsideInterfaceNetwork
    else Ok {| ap_interface := ta_interface a; ap_address := ta_prefix a |}.

Fixpoint check_approvals (inv : InterfaceInventory) (eligible : gset InterfaceId) (l : list TargetApproval)
  : result (list ApprovedPrefix) TargetGuardError :=
  match l with
  | [] => Ok []
  | a :: l' => let? p := check_approval inv eligible a in
               let? ps := check_approvals inv eligible l' in Ok (p :: ps)
  end.

Definition override_map (l : list (InterfaceId * InterfaceOverride)) : gmap InterfaceId InterfaceOverride :=
  fold_left (fun m o => <[fst o := snd o]> m) l ∅.

Definition guard_new (inv : InterfaceInventory) (overrides : list (InterfaceId * InterfaceOverride))
    (approvals : list TargetApproval) : result TargetGuard TargetGuardError :=
  let eligible := eligible_ids inv (override_map overrides) in
  let? prefixes := check_approvals inv eligible approvals in
  Ok {| tg_eligible := eligible; tg_prefixes := prefixes; tg_interfaces := inv_interfaces inv |}.

Definition authorize (g : TargetGuard) (interface : InterfaceId) (target : IpAddr)
  : result unit TargetGuardError :=
  if negb (bool_decide (interface ∈ tg_eligible g)) then Err InterfaceNotEligible
  else if negb (is_permitted_target target) then Err TargetNotPrivate
  else if existsb (fun p => (ap_interface p =? interface) && prefix_contains (ap_address p) target
                            && negb (is_ipv4_broadcast (ap_address p) target)) (tg_prefixes g)
  then Ok tt
  else Err OutsideApprovedPrefix.

(** [max_by_key]: the last maximum. *)
Fixpoint max_by_prefix (best : option Address) (l : list Address) : option Address :=
  match l with
  | [] => best
  | a :: l' =>
      max_by_prefix (match best with
                     | Some b => if ad_prefix b <=? ad_prefix a then Some a else Some b
                     | None => Some a
                     end) l'
  end.

Definition authorized_binding (g : TargetGuard) (interface : InterfaceId) (target : IpAddr)
  : result AuthorizedBinding TargetGuardError :=
  let? _ := authorize g interface target in
  let? selected := ok_or (tg_interfaces g !! interface) UnknownInterface in
  let candidates := List.filter (fun a => prefix_contains a target)
    (List.filter (fun a => Bool.eqb (is_ipv4 (ad_ip a)) (is_ipv4 target)) (if_addresses selected)) in
  let? source := ok_or (max_by_prefix None candidates) ApprovalOutsideInterfaceNetwork in
  Ok {| ab_source := ad_ip source; ab_interface_index := interface; ab_target := target |}.
