(* ===== verification/NetProps.v ===== *)
(** * The discovery target guard: theorems

    What the guard authorizes: addresses inside a prefix that the owner approved on an
    eligible interface, which therefore lie in an attached private network, are private
    themselves, are no broadcast address and can be bound to a source on that interface. *)

From S2P Require Import Prelude Text Order Net.

(** ** Prefix arithmetic *)
Lemma net_mask_testbit w bits i :
  0 < w <= 255 -> 0 <= bits <= w -> 0 <= i -> Z.testbit (net_mask w bits) i = (w - bits <=? i) && (i <? w).
Proof.
  intros Hw Hb Hi. unfold net_mask. destruct (Z.eqb_spec bits 0).
  - rewrite Z.bits_0. symmetry. apply andb_false_iff. destruct (Z.ltb_spec i w); [left; apply Z.leb_gt; lia|by right].
  - rewrite (Z.mod_small (w - bits)), Z.mod_small by lia.
    rewrite Z.land_spec, Z.shiftl_spec by lia. rewrite Z.testbit_ones by lia.
    rewrite (Z.testbit_ones_nonneg w i) by lia.
    destruct (Z.leb_spec (w - bits) i), (Z.ltb_spec i w), (Z.leb_spec 0 (i - (w - bits))), (Z.ltb_spec (i - (w - bits)) w);
      simpl; try done; lia.
Qed.

Lemma testbit_high a w i : 0 <= a < 2 ^ w -> 0 <= w <= i -> Z.testbit a i = false.
Proof.
  intros Ha Hi. destruct (Z.eq_dec a 0) as [->|]; [apply Z.bits_0|]. apply Z.bits_above_log2; [lia|].
  apply Z.lt_le_trans with w; [|lia]. apply Z.log2_lt_pow2; lia.
Qed.

(** Masking to a prefix compares the leading bits. *)
Lemma net_mask_shiftr w bits a b :
  0 < w <= 255 -> 0 <= bits <= w -> 0 <= a < 2 ^ w -> 0 <= b < 2 ^ w ->
  (Z.land a (net_mask w bits) =? Z.land b (net_mask w bits)) = true <-> Z.shiftr a (w - bits) = Z.shiftr b (w - bits).
Proof.
  intros Hw Hb Ha Hb'. rewrite Z.eqb_eq. split; intros H; apply Z.bits_inj'; intros i Hi.
  - rewrite !Z.shiftr_spec by lia. apply (f_equal (fun z => Z.testbit z (i + (w - bits)))) in H.
    rewrite !Z.land_spec, net_mask_testbit in H by lia.
    destruct (Z.ltb_spec (i + (w - bits)) w).
    + replace (w - bits <=? i + (w - bits)) with true in H by (symmetry; apply Z.leb_le; lia).
      by rewrite !andb_true_r in H.
    + rewrite !(testbit_high _ w) by lia. done.
  - rewrite !Z.land_spec, net_mask_testbit by lia. destruct (Z.leb_spec (w - bits) i); [|by rewrite !andb_false_r].
    apply (f_equal (fun z => Z.testbit z (i - (w - bits)))) in H. rewrite !Z.shiftr_spec in H by lia.
    replace (i - (w - bits) + (w - bits)) with i in H by lia. by rewrite H.
Qed.

Definition address_wf (a : Address) : Prop := ip_wf (ad_ip a) /\ 0 <= ad_prefix a <= 255.

(** The leading bits of an address under a prefix length. *)
Definition lead (a : IpAddr) (bits : Z) : Z :=
  match a with V4 z => Z.shiftr z (32 - bits) | V6 z => Z.shiftr z (128 - bits) end.

Lemma validate_prefix_ok a : is_ok (validate_prefix a) = true <-> ad_prefix a <= width (ad_ip a).
Proof. unfold validate_prefix. destruct (Z.ltb_spec (width (ad_ip a)) (ad_prefix a)); simpl; split; try done; lia. Qed.

Lemma prefix_contains_lead p t :
  address_wf p -> ip_wf t -> ad_prefix p <= width (ad_ip p) ->
  prefix_contains p t = true <-> is_ipv4 (ad_ip p) = is_ipv4 t /\ lead (ad_ip p) (ad_prefix p) = lead t (ad_prefix p).
Proof.
  intros [Hip Hb] Ht Hw. unfold prefix_contains, lead. destruct (ad_ip p) as [n|n], t as [z|z]; simpl in *; [|by split; [|intros []]..|].
  - rewrite net_mask_shiftr; [|unfold u32_mask in *; lia..]. tauto.
  - rewrite net_mask_shiftr; [tauto|lia|lia|unfold u128_mask in *..]; change (2 ^ 128) with 340282366920938463463374607431768211456; lia.
Qed.

Lemma lead_shorter a b b1 b2 :
  is_ipv4 a = is_ipv4 b -> 0 <= b2 <= b1 -> b1 <= width a -> lead a b1 = lead b b1 -> lead a b2 = lead b b2.
Proof.
  intros Hv Hb Hw. unfold lead. destruct a as [x|x], b as [y|y]; simpl in *; try done; intros H.
  - replace (32 - b2) with ((32 - b1) + (b1 - b2)) by lia. rewrite <- !Z.shiftr_shiftr by lia. by rewrite H.
  - replace (128 - b2) with ((128 - b1) + (b1 - b2)) by lia. rewrite <- !Z.shiftr_shiftr by lia. by rewrite H.
Qed.

(** A prefix inside another one: what the inner one contains, the outer one contains. *)
Lemma prefix_contains_trans outer inner t :
  address_wf outer -> address_wf inner -> ip_wf t -> ad_prefix inner <= width (ad_ip inner) ->
  ad_prefix outer <= ad_prefix inner -> prefix_contains outer (ad_ip inner) = true ->
  prefix_contains inner t = true -> prefix_contains outer t = true.
Proof.
  intros Ho Hi Ht Hwi Hle Hc Hct. pose proof Ho as [_ Hbo]. pose proof Hi as [Hipi Hbi].
  assert (width (ad_ip outer) = width (ad_ip inner)) as Hw.
  { unfold prefix_contains in Hc. by destruct (ad_ip outer), (ad_ip inner). }
  apply prefix_contains_lead in Hc as [Hv1 Hl1]; [|done|done|lia].
  apply prefix_contains_lead in Hct as [Hv2 Hl2]; [|done|done|lia].
  apply prefix_contains_lead; [done|done|lia|]. split; [congruence|]. rewrite Hl1.
  by apply lead_shorter with (ad_prefix inner); [|lia|..].
Qed.

(** ** Approved ranges are private *)
Ltac shifts := rewrite ?Z.shiftr_div_pow2 in * by lia.

Lemma land_255 x : Z.land x 255 = x mod 256.
Proof. change 255 with (Z.ones 8). by rewrite Z.land_ones by lia. Qed.

Lemma octet_div a i k : 24 - 8 * i = k -> 0 <= k -> octet a i = a / 2 ^ k mod 256.
Proof. intros Hk Hp. unfold octet. rewrite Hk, land_255. by shifts. Qed.

Lemma allowed_wf r : In r allowed_ranges -> address_wf r /\ ad_prefix r <= width (ad_ip r).
Proof.
  simpl. intros Hr. repeat destruct Hr as [<-|Hr]; [..|done]; unfold address_wf; vm_compute;
    repeat split; discriminate.
Qed.

Lemma permitted_v4 t :
  (t / 2 ^ 24 = 10 \/ t / 2 ^ 20 = 2753 \/ t / 2 ^ 16 = 49320 \/ t / 2 ^ 16 = 43518) -> is_permitted_target (V4 t) = true.
Proof.
  intros Ht. unfold is_permitted_target, is_private_or_link_local_v4, is_private_v4, is_link_local_v4.
  rewrite (octet_div t 0 24), (octet_div t 1 16) by lia.
  assert (t / 2 ^ 24 = t / 2 ^ 20 / 16 /\ t / 2 ^ 16 / 16 = t / 2 ^ 20 /\ t / 2 ^ 24 = t / 2 ^ 16 / 256) as (H1 & H2 & H3).
  { rewrite !Z.div_div by lia. done. }
  set (x := t / 2 ^ 24) in *. set (y := t / 2 ^ 20) in *. set (z := t / 2 ^ 16) in *. clearbody x y z.
  rewrite !orb_true_iff, !andb_true_iff, !Z.eqb_eq, !Z.leb_le.
  destruct Ht as [Ht|[Ht|[Ht|Ht]]]; [left; left; left|left; left; right|left; right|right];
    Z.to_euclidean_division_equations; lia.
Qed.

Lemma permitted_v6 t :
  0 <= t <= u128_mask -> (t / 2 ^ 121 = 126 \/ t / 2 ^ 118 = 1018) -> is_permitted_target (V6 t) = true.
Proof.
  intros Hr Ht. unfold is_permitted_target, is_unspecified_v6, is_loopback_v6, is_multicast_v6, to_ipv4_mapped, is_ula,
    is_unicast_link_local.
  rewrite !andb_true_iff, orb_true_iff, !negb_true_iff, !Z.eqb_neq, bool_decide_eq_true. shifts.
  assert (t / 2 ^ 120 = 252 \/ t / 2 ^ 120 = 253 \/ t / 2 ^ 120 = 254) as H120.
  { Z.to_euclidean_division_equations; lia. }
  split_and!.
  - Z.to_euclidean_division_equations; lia.
  - Z.to_euclidean_division_equations; lia.
  - lia.
  - case_match; [|done]. bprop. Z.to_euclidean_division_equations; lia.
  - destruct Ht as [Ht|Ht]; [left|right].
    + assert (t / 2 ^ 120 = 252 \/ t / 2 ^ 120 = 253) as [-> | ->] by (Z.to_euclidean_division_equations; lia); done.
    + assert (t / 2 ^ 112 / 64 = 1018) as Hq by (by rewrite Z.div_div by lia).
      assert (65152 <= t / 2 ^ 112 < 65216) as Hb by (Z.to_euclidean_division_equations; lia).
      change 65472 with (net_mask 16 10). change 65152 with (Z.land 65152 (net_mask 16 10)).
      apply net_mask_shiftr; [lia|lia|change (2 ^ 16) with 65536; lia..|]. change (16 - 10) with 6. shifts. done.
Qed.

(** The private and link-local ranges of RFC 1918, 3927, 4193 and 4291. *)
Definition private_range (t : IpAddr) : Prop :=
  match t with
  | V4 a => v4 10 0 0 0 <= a <= v4 10 255 255 255 \/ v4 172 16 0 0 <= a <= v4 172 31 255 255 \/
            v4 192 168 0 0 <= a <= v4 192 168 255 255 \/ v4 169 254 0 0 <= a <= v4 169 254 255 255
  | V6 a => 0xfc00 * 2 ^ 112 <= a < 0xfe00 * 2 ^ 112 \/ 0xfe80 * 2 ^ 112 <= a < 0xfec0 * 2 ^ 112
  end.

Lemma masked_quotient x w k n : 0 <= k -> 0 <= n -> w = Z.shiftl (Z.ones n) k -> 0 <= x < 2 ^ (n + k) -> Z.shiftr (Z.land x w) k = x / 2 ^ k.
Proof.
  intros Hk Hn -> Hx. rewrite Z.shiftr_land, Z.shiftr_shiftl_l, Z.sub_diag, Z.shiftl_0_r, Z.land_ones, Z.shiftr_div_pow2 by lia.
  apply Z.mod_small. split; [apply Z.div_pos; lia|]. apply Z.div_lt_upper_bound; [lia|]. rewrite <- Z.pow_add_r by lia. rewrite (Z.add_comm k n). lia.
Qed.

Lemma private_range_v4 a : private_range (V4 a) <->
  167772160 <= a <= 184549375 \/ 2886729728 <= a <= 2887778303 \/ 3232235520 <= a <= 3232301055 \/ 2851995648 <= a <= 2852061183.
Proof. reflexivity. Qed.

Lemma permitted_private t : ip_wf t -> is_permitted_target t = true <-> private_range t.
Proof.
  destruct t as [a|a]; intros Ha; simpl in Ha; unfold u32_mask, u128_mask in Ha.
  - split.
    + unfold is_permitted_target, is_private_or_link_local_v4, is_private_v4, is_link_local_v4.
      rewrite (octet_div a 0 24), (octet_div a 1 16), !orb_true_iff, !andb_true_iff, !Z.eqb_eq, !Z.leb_le by lia. rewrite private_range_v4.
      assert (a / 2 ^ 24 = a / 2 ^ 16 / 256) as -> by (by rewrite Z.div_div by lia).
      intros Hp. Z.to_euclidean_division_equations. lia.
    + rewrite private_range_v4. intros Hp. apply permitted_v4. Z.to_euclidean_division_equations. lia.
  - split.
    + unfold is_permitted_target, is_ula, is_unicast_link_local, private_range. rewrite !andb_true_iff, orb_true_iff, !Z.eqb_eq. shifts. intros [_ [Hu|Hl]].
      * assert (126 = a / 2 ^ 120 / 2 ^ 1) as Hh.
        { rewrite <- (masked_quotient _ 254 1 7), Hu; [done..|]. split; [apply Z.div_pos; lia|apply Z.div_lt_upper_bound; lia]. }
        rewrite Z.div_div in Hh by lia. left. Z.to_euclidean_division_equations. lia.
      * assert (1018 = a / 2 ^ 112 / 2 ^ 6) as Hh.
        { rewrite <- (masked_quotient _ 65472 6 10), Hl; [done..|]. split; [apply Z.div_pos; lia|apply Z.div_lt_upper_bound; lia]. }
        rewrite Z.div_div in Hh by lia. right. Z.to_euclidean_division_equations. lia.
    + unfold private_range. intros Hp. apply permitted_v6; [done|]. Z.to_euclidean_division_equations. lia.
Qed.

(** Everything inside an approvable range is a permitted target. *)
Lemma approval_range_private a t :
  address_wf a -> ip_wf t -> ad_prefix a <= width (ad_ip a) -> is_permitted_approval_range a = true ->
  prefix_contains a t = true -> is_permitted_target t = true.
Proof.
  intros Ha Ht Hw Hr Hc. unfold is_permitted_approval_range in Hr. apply existsb_exists in Hr as (r & Hin & Hr). bprop.
  destruct (allowed_wf r Hin) as [Hwf Hrw].
  assert (prefix_contains r t = true) as Hrt by (by eapply prefix_contains_trans with (inner := a)).
  apply prefix_contains_lead in Hrt as [Hv Hl]; [|done..].
  simpl in Hin. repeat destruct Hin as [<-|Hin]; [..|done]; destruct t as [t|t]; try done; simpl in Hl; shifts;
    symmetry in Hl.
  - apply permitted_v4. by left.
  - apply permitted_v4. right. by left.
  - apply permitted_v4. right. right. by left.
  - apply permitted_v4. by right; right; right.
  - apply permitted_v6; [done|]. by left.
  - apply permitted_v6; [done|]. by right.
Qed.

(** ** The inventory *)
Definition inventory_ok (inv : InterfaceInventory) : Prop :=
  forall id i, inventory_get inv id = Some i -> if_id i = id /\ Forall address_wf (if_addresses i).

Lemma fold_insert_lookup (l : list Interface) (m : gmap InterfaceId Interface) id i :
  fold_left (fun m i => <[if_id i := i]> m) l m !! id = Some i -> m !! id = Some i \/ (if_id i = id /\ In i l).
Proof.
  revert m. induction l as [|x l IH]; intros m; simpl; [by left|]. intros [Hm|[Hi Hin]]%IH; [|auto].
  destruct (decide (if_id x = id)) as [Hx|].
  - rewrite Hx, lookup_insert_eq in Hm. injection Hm as <-. auto.
  - rewrite lookup_insert_ne in Hm by done. auto.
Qed.

Lemma inventory_new_ok l :
  Forall (fun i => Forall address_wf (if_addresses i)) l -> inventory_ok (inventory_new l).
Proof.
  intros Hl id i [Hm|[Hid Hin]]%fold_insert_lookup; [by rewrite lookup_empty in Hm|].
  rewrite List.Forall_forall in Hl. auto.
Qed.

Lemma in_interfaces inv i : In i (interfaces inv) <-> exists id, inventory_get inv id = Some i.
Proof.
  unfold interfaces, inventory_get. rewrite <- list_elem_of_In, list_elem_of_fmap. split.
  - intros ([id x] & -> & Hin). rewrite merge_sort_Permutation in Hin. apply elem_of_map_to_list in Hin. eauto.
  - intros [id Hid]. exists (id, i). split; [done|]. rewrite merge_sort_Permutation. by apply elem_of_map_to_list.
Qed.

Definition setting_of (overrides : list (InterfaceId * InterfaceOverride)) (id : InterfaceId) : InterfaceOverride :=
  default Default (override_map overrides !! id).

Lemma eligible_fold (f : Interface -> bool) (l : list Interface) (s : gset InterfaceId) id :
  id ∈ fold_left (fun s i => if f i then {[if_id i]} ∪ s else s) l s <->
  id ∈ s \/ exists i, In i l /\ if_id i = id /\ f i = true.
Proof.
  revert s. induction l as [|x l IH]; intros s; simpl; [naive_solver|]. rewrite IH. destruct (f x) eqn:Hf.
  - rewrite elem_of_union, elem_of_singleton. split; [intros [[->|?]|(i & ? & ? & ?)]; eauto 10|].
    intros [?|(i & [<-|?] & <- & ?)]; eauto 10.
  - split; [intros [?|(i & ? & ? & ?)]; eauto 10|]. intros [?|(i & [<-|?] & ? & ?)]; [auto|congruence|eauto 10].
Qed.

Lemma eligible_spec inv overrides id :
  inventory_ok inv ->
  id ∈ eligible_ids inv (override_map overrides) <->
  exists i, inventory_get inv id = Some i /\ discovery_eligible i (setting_of overrides id) = true.
Proof.
  intros Hok. unfold eligible_ids. rewrite eligible_fold. split.
  - intros [?|(i & [id' Hi]%in_interfaces & <- & He)]; [set_solver|]. exists i.
    destruct (Hok _ _ Hi) as [Hid _]. split; [by rewrite Hid|done].
  - intros (i & Hi & He). right. exists i. split; [apply in_interfaces; eauto|]. destruct (Hok _ _ Hi) as [Hid _].
    split; [done|]. by rewrite Hid.
Qed.

(** ** What a guard knows *)
Lemma check_approval_ok inv eligible a p :
  check_approval inv eligible a = Ok p ->
  p = {| ap_interface := ta_interface a; ap_address := ta_prefix a |} /\
  ad_prefix (ta_prefix a) <= width (ad_ip (ta_prefix a)) /\ is_permitted_approval_range (ta_prefix a) = true /\
  exists i attached, inventory_get inv (ta_interface a) = Some i /\ In attached (if_addresses i) /\
    attached_network (ta_prefix a) attached = true.
Proof.
  unfold check_approval. intros (i & Hi & Hk)%result_bind_ok. destruct (negb _); [done|].
  apply result_bind_ok in Hk as ([] & Hv & Hk). destruct (is_permitted_approval_range _); [|done].
  destruct (existsb _ _) eqn:He; [|done]. simpl in Hk. injection Hk as <-.
  apply existsb_exists in He as (attached & Hin & Ha).
  split_and!; [done|apply validate_prefix_ok; by rewrite Hv|done|]. exists i, attached. split; [|done].
  by destruct (inventory_get inv (ta_interface a)); simpl in Hi; simplify_eq.
Qed.

Lemma check_approvals_ok inv eligible l ps :
  check_approvals inv eligible l = Ok ps ->
  forall p, In p ps <-> exists a, In a l /\ check_approval inv eligible a = Ok p.
Proof.
  revert ps. induction l as [|a l IH]; intros ps; simpl.
  - intros [= <-] p. naive_solver.
  - intros (p0 & Hp0 & Hk)%result_bind_ok. apply result_bind_ok in Hk as (ps0 & Hps & [= <-]). intros p. simpl.
    rewrite IH by done. split.
    + intros [<-|(a' & ? & ?)]; eauto.
    + intros (a' & [<-|?] & Hp); [left; congruence|eauto].
Qed.

Section Guard.
Context (inv : InterfaceInventory) (overrides : list (InterfaceId * InterfaceOverride))
  (approvals : list TargetApproval) (g : TargetGuard).
Hypothesis inv_ok : inventory_ok inv.
Hypothesis approvals_wf : Forall (fun a => address_wf (ta_prefix a)) approvals.
Hypothesis built : guard_new inv overrides approvals = Ok g.

Lemma guard_fields :
  tg_eligible g = eligible_ids inv (override_map overrides) /\
  tg_interfaces g = inv_interfaces inv /\
  forall p, In p (tg_prefixes g) <->
    exists a, In a approvals /\ check_approval inv (tg_eligible g) a = Ok p.
Proof.
  unfold guard_new in built. apply result_bind_ok in built as (ps & Hps & [= <-]). simpl.
  split_and!; [done|done|]. by apply check_approvals_ok.
Qed.

Lemma guard_prefix p t :
  In p (tg_prefixes g) -> ip_wf t -> prefix_contains (ap_address p) t = true ->
  is_permitted_target t = true /\
  exists a i attached, In a approvals /\ ap_interface p = ta_interface a /\ ap_address p = ta_prefix a /\
    inventory_get inv (ta_interface a) = Some i /\ In attached (if_addresses i) /\
    is_permitted_target (ad_ip attached) = true /\ prefix_contains attached t = true.
Proof.
  intros Hp Ht Hc. destruct guard_fields as (_ & _ & Hps). apply Hps in Hp as (a & Ha & Hp).
  apply check_approval_ok in Hp as (-> & Hw & Hr & i & attached & Hi & Hin & Hatt). simpl in *.
  rewrite List.Forall_forall in approvals_wf. specialize (approvals_wf a Ha).
  split; [by eapply approval_range_private|]. exists a, i, attached. unfold attached_network in Hatt. bprop.
  destruct (inv_ok _ _ Hi) as [_ Hwf]. rewrite List.Forall_forall in Hwf. specialize (Hwf attached Hin).
  split_and!; try done. by eapply prefix_contains_trans with (inner := ta_prefix a).
Qed.

Lemma authorize_ok id t :
  authorize g id t = Ok tt -> id ∈ tg_eligible g /\ is_permitted_target t = true /\
  exists p, In p (tg_prefixes g) /\ ap_interface p = id /\ prefix_contains (ap_address p) t = true /\
    is_ipv4_broadcast (ap_address p) t = false.
Proof.
  unfold authorize. case_bool_decide as He; [|done]. destruct (is_permitted_target t); [|done]. simpl.
  destruct (existsb _ _) eqn:Hx; [|done]. intros _. apply existsb_exists in Hx as (p & Hp & Hc). bprop. eauto 10.
Qed.

(** The candidate with the longest prefix. *)
Lemma max_by_prefix_spec best l :
  match max_by_prefix best l with
  | None => best = None /\ l = []
  | Some a => (best = Some a \/ In a l) /\ (forall b, best = Some b \/ In b l -> ad_prefix b <= ad_prefix a)
  end.
Proof.
  revert best. induction l as [|x l IH]; intros best; simpl.
  - destruct best; [|done]. split; [by left|]. intros b [[= <-]|[]]. lia.
  - specialize (IH (match best with Some b => if ad_prefix b <=? ad_prefix x then Some x else Some b | None => Some x end)).
    destruct (max_by_prefix _ l) as [a|]; [|destruct best as [b|]; [destruct (_ <=? _)|]; naive_solver].
    destruct IH as [Hin Hmax]. split.
    + destruct best as [b|]; [destruct (_ <=? _)|]; naive_solver.
    + intros c Hc. destruct best as [b|]; [|naive_solver].
      destruct (Z.leb_spec (ad_prefix b) (ad_prefix x)); [pose proof (Hmax x (or_introl eq_refl))|pose proof (Hmax b (or_introl eq_refl))];
        destruct Hc as [[= <-]|[<-|Hc]]; auto; lia.
Qed.
End Guard.

(** What an authorization rests on. *)
Lemma authorized_by_approval inv overrides approvals g id t :
  inventory_ok inv -> guard_new inv overrides approvals = Ok g -> authorize g id t = Ok tt ->
  is_permitted_target t = true /\
  (exists i, inventory_get inv id = Some i /\ discovery_eligible i (setting_of overrides id) = true) /\
  (exists a, In a approvals /\ ta_interface a = id /\ prefix_contains (ta_prefix a) t = true /\
     is_ipv4_broadcast (ta_prefix a) t = false).
Proof.
  intros Hok Hg (Hel & Hp' & p & Hp & <- & Hc & Hb)%authorize_ok. destruct (guard_fields _ _ _ _ Hg) as (He & _ & Hps).
  split_and!; [done|by rewrite He, eligible_spec in Hel|]. apply Hps in Hp as (a & Ha & (-> & _)%check_approval_ok). eauto.
Qed.

(** The interface exists and is eligible under the owner's setting; an approval of the owner for it
    contains the address, which is not its broadcast address. *)
Definition usable (inv : InterfaceInventory) (overrides : list (InterfaceId * InterfaceOverride)) (id : InterfaceId) : Prop :=
  exists i, inventory_get inv id = Some i /\ discovery_eligible i (setting_of overrides id) = true.
Definition approved (approvals : list TargetApproval) (id : InterfaceId) (t : IpAddr) : Prop :=
  exists a, In a approvals /\ ta_interface a = id /\ prefix_contains (ta_prefix a) t = true /\ is_ipv4_broadcast (ta_prefix a) t = false.

Lemma approved_authorized inv overrides approvals g id t :
  inventory_ok inv -> Forall (fun a => address_wf (ta_prefix a)) approvals ->
  guard_new inv overrides approvals = Ok g -> ip_wf t -> usable inv overrides id -> approved approvals id t -> authorize g id t = Ok tt.
Proof.
  intros Hok Hwf Hg Ht. destruct (guard_fields _ _ _ _ Hg) as (He & _ & Hps).
  - intros Hel (a & Ha & Hid & Hc & Hb). unfold usable in Hel. apply eligible_spec in Hel; [|done]. rewrite <- He in Hel.
    assert (exists p, In p (tg_prefixes g) /\ p = {| ap_interface := id; ap_address := ta_prefix a |}) as (p & Hp & ->).
    { unfold guard_new in Hg. apply result_bind_ok in Hg as (ps & Hc' & [= <-]). simpl in *.
      clear -Hc' Ha Hid. revert ps Hc'. induction approvals as [|x l IH]; intros ps; [done|]. simpl.
      intros (p0 & Hp0 & Hk)%result_bind_ok. apply result_bind_ok in Hk as (ps0 & Hps & [= <-]).
      destruct Ha as [->|Ha].
      - apply check_approval_ok in Hp0 as (-> & _). eexists. split; [by left|]. by rewrite Hid.
      - destruct (IH Ha _ Hps) as (p & Hp & ->). eexists. split; [by right|done]. }
    unfold authorize. rewrite bool_decide_eq_true_2 by done. simpl.
    destruct (guard_prefix _ _ _ _ Hok Hwf Hg _ _ Hp Ht Hc) as [-> _]. simpl.
    replace (existsb _ _) with true; [done|]. symmetry. apply existsb_exists. eexists. split; [exact Hp|]. simpl.
    by rewrite Z.eqb_refl, Hc, Hb.
Qed.

(** C10. What a guard answers, for every address and on every branch, with the private ranges written
    out as intervals: the address is authorized exactly when its interface is usable and an
    approval of the owner for it contains the address without it being the broadcast address, and it
    is then always private or link-local; otherwise the error names the first of the three reasons
    that applies, an unusable interface, an address outside the private ranges, no approval. *)
Theorem authorize_exactly_approved inv overrides approvals g id t :
  inventory_ok inv -> Forall (fun a => address_wf (ta_prefix a)) approvals ->
  guard_new inv overrides approvals = Ok g -> ip_wf t ->
  (authorize g id t = Ok tt <-> usable inv overrides id /\ approved approvals id t) /\
  match authorize g id t with
  | Ok _ => usable inv overrides id /\ private_range t /\ approved approvals id t
  | Err InterfaceNotEligible => ~ usable inv overrides id
  | Err TargetNotPrivate => usable inv overrides id /\ ~ private_range t
  | Err OutsideApprovedPrefix => usable inv overrides id /\ private_range t /\ ~ approved approvals id t
  | Err _ => False
  end.
Proof.
  intros Hok Hwf Hg Ht. assert (usable inv overrides id -> approved approvals id t -> authorize g id t = Ok tt) as Hauth
    by (by eapply approved_authorized).
  destruct (guard_fields _ _ _ _ Hg) as (He & _). pose proof (eligible_spec inv overrides id Hok) as Hel. rewrite <- He in Hel.
  fold (usable inv overrides id) in Hel. pose proof (authorized_by_approval inv overrides approvals g id t Hok Hg) as Hby.
  fold (usable inv overrides id) (approved approvals id t) in Hby. split; [split; [intros (_ & ?)%Hby|intros []]; auto|].
  destruct (authorize g id t) as [[]|e] eqn:Ea; [destruct (Hby eq_refl) as (Hp%permitted_private & Hrest); [naive_solver|done]|].
  unfold authorize in Ea. case_bool_decide as Hin; simpl in Ea; [|injection Ea as <-; tauto]. apply Hel in Hin.
  destruct (is_permitted_target t) eqn:Hp; simpl in Ea; [|injection Ea as <-; split; [done|]; rewrite <- permitted_private by done; congruence].
  apply permitted_private in Hp; [|done]. destruct (existsb _ _); [done|]. injection Ea as <-. split_and!; [done|done|]. intros Happ. by specialize (Hauth Hin Happ).
Qed.

(** An authorized address is private or link-local, lies in a private network attached to
    a non-loopback interface, and always gets a binding: to the address of that interface
    with the longest prefix that contains the target. *)
Theorem authorized_target_is_bound inv overrides approvals g id t :
  inventory_ok inv -> Forall (fun a => address_wf (ta_prefix a)) approvals ->
  guard_new inv overrides approvals = Ok g -> ip_wf t -> authorize g id t = Ok tt ->
  is_permitted_target t = true /\
  exists i b source, inventory_get inv id = Some i /\ if_class i <> Loopback /\
    authorized_binding g id t = Ok b /\ ab_target b = t /\ ab_interface_index b = id /\
    ab_source b = ad_ip source /\ In source (if_addresses i) /\ prefix_contains source t = true /\
    (forall other, In other (if_addresses i) -> prefix_contains other t = true -> ad_prefix other <= ad_prefix source) /\
    (exists attached, In attached (if_addresses i) /\ is_permitted_target (ad_ip attached) = true /\
       prefix_contains attached t = true).
Proof.
  intros Hok Hwf Hg Ht Hauth. pose proof Hauth as (Hel & Hpriv & p & Hp & Hid & Hc & _)%authorize_ok.
  destruct (guard_fields _ _ _ _ Hg) as (He & Hif & _). rewrite He in Hel. apply eligible_spec in Hel as (i & Hi & Hdisc); [|done].
  destruct (guard_prefix _ _ _ _ Hok Hwf Hg _ _ Hp Ht Hc) as (_ & a & i' & attached & _ & Hpa & _ & Hi' & Hin & Hperm & Hatt).
  rewrite <- Hpa, Hid, Hi in Hi'. injection Hi' as <-. split; [done|]. exists i.
  unfold authorized_binding. rewrite Hauth, Hif. unfold inventory_get in Hi. rewrite Hi. cbn [result_bind ok_or].
  set (candidates := List.filter _ _).
  assert (forall x, In x candidates <-> In x (if_addresses i) /\ prefix_contains x t = true) as Hcand.
  { intros x. unfold candidates. rewrite !filter_In. split; [tauto|]. intros [H1 H2]. split_and!; [done| |done].
    unfold prefix_contains in H2. by destruct (ad_ip x), t. }
  pose proof (max_by_prefix_spec None candidates) as Hmax. destruct (max_by_prefix None candidates) as [source|].
  - destruct Hmax as [[?|Hs] Hmax]; [done|]. apply Hcand in Hs as [Hs Hst]. eexists _, source.
    split_and!; try done.
    + unfold discovery_eligible in Hdisc. by case_bool_decide.
    + intros other Ho Hot. apply Hmax. right. by apply Hcand.
    + eauto.
  - destruct Hmax as [_ Hnil]. assert (In attached candidates) as Hx by (by apply Hcand). by rewrite Hnil in Hx.
Qed.

Lemma in_ascending s id : In id (ascending s) <-> id ∈ s.
Proof. unfold ascending. by rewrite <- list_elem_of_In, merge_sort_Permutation, elem_of_elements. Qed.

Lemma ascending_sorted s : Sorted Z.le (ascending s) /\ NoDup (ascending s).
Proof.
  unfold ascending. split; [apply Sorted_merge_sort; intros x y; lia|].
  rewrite merge_sort_Permutation. apply NoDup_elements.
Qed.

(** The difference of two inventories is exact: an interface is listed as added, removed
    or changed precisely when it is, each list is in ascending order without repetitions, and
    all three are empty only for equal inventories. *)
Theorem diff_inventory_exact before after id :
  let d := diff_inventory before after in
  (In id (df_added d) <-> inventory_get before id = None /\ is_Some (inventory_get after id)) /\
  (In id (df_removed d) <-> is_Some (inventory_get before id) /\ inventory_get after id = None) /\
  (In id (df_changed d) <-> exists i j, inventory_get before id = Some i /\ inventory_get after id = Some j /\ i <> j) /\
  (Sorted Z.le (df_added d) /\ NoDup (df_added d)) /\ (Sorted Z.le (df_removed d) /\ NoDup (df_removed d)) /\
  NoDup (df_changed d) /\
  (df_added d = [] -> df_removed d = [] -> df_changed d = [] -> inv_interfaces before = inv_interfaces after).
Proof.
  unfold diff_inventory, inventory_get. cbn [df_added df_removed df_changed].
  assert (forall m : gmap InterfaceId Interface, id ∉ dom m <-> m !! id = None) as Hnone by (intros m; apply not_elem_of_dom).
  split_and!; try apply ascending_sorted.
  - rewrite in_ascending, elem_of_difference, Hnone, elem_of_dom. tauto.
  - rewrite in_ascending, elem_of_difference, Hnone, elem_of_dom. tauto.
  - rewrite filter_In, in_ascending, elem_of_intersection, !elem_of_dom, bool_decide_eq_true. split.
    + intros [[[i Hi] [j Hj]] Hne]. rewrite Hi, Hj in Hne. exists i, j. split_and!; congruence.
    + intros (i & j & -> & -> & Hne). split; [eauto|]. congruence.
  - apply NoDup_ListNoDup, List.NoDup_filter, NoDup_ListNoDup, ascending_sorted.
  - intros Ha Hr Hc. apply map_eq. intros k.
    assert (k ∉ dom (inv_interfaces after) ∖ dom (inv_interfaces before)) as H1 by (rewrite <- in_ascending, Ha; by intros []).
    assert (k ∉ dom (inv_interfaces before) ∖ dom (inv_interfaces after)) as H2 by (rewrite <- in_ascending, Hr; by intros []).
    rewrite elem_of_difference, elem_of_dom, not_elem_of_dom in H1, H2.
    destruct (inv_interfaces before !! k) as [i|] eqn:Hb, (inv_interfaces after !! k) as [j|] eqn:Hf;
      [|exfalso; by eauto..|done]. f_equal.
    apply (f_equal (In k)) in Hc. apply dec_stable. intros Hne. assert (In k []) as []. rewrite <- Hc.
    apply filter_In. rewrite in_ascending, elem_of_intersection, !elem_of_dom, bool_decide_eq_true, Hb, Hf.
    split; [eauto|congruence].
Qed.

(** ** The discovery target guard at a concrete home network *)

Definition wired : Interface := {|
  if_id := 2; if_name := "eth0"; if_description := None; if_up := true;
  if_class := classify_interface "eth0" None false;
  if_addresses := [{| ad_ip := V4 (v4 192 168 1 10); ad_prefix := 24 |};
                   {| ad_ip := V4 (v4 192 168 0 10); ad_prefix := 16 |}];
  if_owner_role := None |}.
Definition home_inventory : InterfaceInventory := inventory_new [wired].
Definition home_approval : TargetApproval :=
  {| ta_interface := 2; ta_prefix := {| ad_ip := V4 (v4 192 168 1 0); ad_prefix := 25 |} |}.
Definition home_guard : TargetGuard := {|
  tg_eligible := eligible_ids home_inventory ∅;
  tg_prefixes := [{| ap_interface := 2; ap_address := ta_prefix home_approval |}];
  tg_interfaces := inv_interfaces home_inventory |}.
Definition printer : IpAddr := V4 (v4 192 168 1 77).

Lemma home_guard_built : guard_new home_inventory [] [home_approval] = Ok home_guard.
Proof. vm_compute. reflexivity. Qed.

Lemma home_inventory_ok : inventory_ok home_inventory.
Proof. apply inventory_new_ok. repeat constructor; vm_compute; discriminate. Qed.

Lemma home_approvals_wf : Forall (fun a => address_wf (ta_prefix a)) [home_approval].
Proof. repeat constructor; vm_compute; discriminate. Qed.

Lemma printer_wf : ip_wf printer.
Proof. split; vm_compute; discriminate. Qed.

Lemma authorize_exactly_approved_witness :
  authorize home_guard 2 printer = Ok tt <-> usable home_inventory [] 2 /\ approved [home_approval] 2 printer.
Proof.
  apply (authorize_exactly_approved home_inventory [] [home_approval] home_guard 2 printer);
    [apply home_inventory_ok|apply home_approvals_wf|apply home_guard_built|apply printer_wf].
Defined.

Lemma authorized_target_is_bound_witness :
  exists i b source, inventory_get home_inventory 2 = Some i /\ authorized_binding home_guard 2 printer = Ok b /\
    ab_source b = ad_ip source /\ In source (if_addresses i) /\ prefix_contains source printer = true.
Proof.
  destruct (authorized_target_is_bound home_inventory [] [home_approval] home_guard 2 printer)
    as (_ & i & b & source & Hi & _ & Hb & _ & _ & Hs & Hin & Hc & _);
    [apply home_inventory_ok|apply home_approvals_wf|apply home_guard_built|apply printer_wf|reflexivity|].
  exists i, b, source. repeat split; assumption.
Defined.

(** The broadcast address of the approved half is refused, as is a neighbour outside it. *)
Example home_guard_refuses :
  authorize home_guard 2 (V4 (v4 192 168 1 127)) = Err OutsideApprovedPrefix /\
  authorize home_guard 2 (V4 (v4 192 168 1 200)) = Err OutsideApprovedPrefix /\
  authorize home_guard 2 (V4 (v4 8 8 8 8)) = Err TargetNotPrivate.
Proof. repeat split; vm_compute; reflexivity. Qed.

(** The comparison of the joined text with the bare name never succeeds: an adapter called lo
    without the loopback flag is not classified as loopback. *)
Example lo_without_flag : classify_interface "lo" None false = UnknownClass.
Proof. reflexivity. Qed.
