(* ===== verification/Flow.v ===== *)
(** * Flow aggregation: data and operations

    crates/lattice-sensor/src/flow.rs with the byte counts and coverage of
    crates/lattice-domain/src/flow.rs. The engine's [BTreeMap]s are [gmap]s; where the code
    iterates over one, the model sorts its entries by the source's key order. Every fallible
    step of an operation precedes its first assignment to a field, so an operation returns
    the new engine or an error with which the old one stays. The text of a device identifier
    is a parameter with the law that parsing reads it back. *)

From S2P Require Import Prelude Order Time Text Bytes Domain Net.

Class DeviceText := {
  device_to_string : DeviceId -> string;
  device_parse : string -> option DeviceId;
  device_parse_to_string : forall d, device_parse (device_to_string d) = Some d
}.

(** ** Domain types *)
Inductive Coverage := Complete | RouterReported | LocalOnly | Estimated.
#[global] Instance Coverage_eq_dec : EqDecision Coverage.
Proof. solve_decision. Defined.

Record ByteCount := { upload : Z; download : Z }.
#[global] Instance ByteCount_eq_dec : EqDecision ByteCount.
Proof. solve_decision. Defined.

Inductive Protocol := Tcp | Udp | Icmp | OtherProtocol.
#[global] Instance Protocol_eq_dec : EqDecision Protocol.
Proof. solve_decision. Defined.
Definition protocol_rank (p : Protocol) : Z :=
  match p with Tcp => 0 | Udp => 1 | Icmp => 2 | OtherProtocol => 3 end.
#[global] Program Instance Protocol_countable : Countable Protocol :=
  inj_countable' protocol_rank
    (fun z => if z =? 0 then Tcp else if z =? 1 then Udp else if z =? 2 then Icmp else OtherProtocol) _.
Next Obligation. by intros []. Qed.

Inductive DestinationCategory := Local_ | Lan | Internet | UnknownDestination.
#[global] Instance DestinationCategory_eq_dec : EqDecision DestinationCategory.
Proof. solve_decision. Defined.
Definition destination_rank (d : DestinationCategory) : Z :=
  match d with Local_ => 0 | Lan => 1 | Internet => 2 | UnknownDestination => 3 end.
#[global] Program Instance DestinationCategory_countable : Countable DestinationCategory :=
  inj_countable' destination_rank
    (fun z => if z =? 0 then Local_ else if z =? 1 then Lan else if z =? 2 then Internet else UnknownDestination) _.
Next Obligation. by intros []. Qed.

Definition FlowSourceId : Type := Z.
Definition ReplayId : Type := Z.

Inductive VisibilityKind := Gateway | Bridge | Mirror | RouterCounter | LocalCollector | Inference.
Record SourceRegistration := { sr_id : FlowSourceId; sr_kind : VisibilityKind }.
Definition verified_gateway (id : FlowSourceId) := {| sr_id := id; sr_kind := Gateway |}.
Definition verified_bridge (id : FlowSourceId) := {| sr_id := id; sr_kind := Bridge |}.
Definition verified_mirror (id : FlowSourceId) := {| sr_id := id; sr_kind := Mirror |}.
Definition verified_router_counter (id : FlowSourceId) := {| sr_id := id; sr_kind := RouterCounter |}.
Definition collector_local (id : FlowSourceId) := {| sr_id := id; sr_kind := LocalCollector |}.
Definition configured_inference (id : FlowSourceId) := {| sr_id := id; sr_kind := Inference |}.

Record DestinationMetadata := { md_ip : option IpAddr; md_domain : option string }.
#[global] Instance DestinationMetadata_eq_dec : EqDecision DestinationMetadata.
Proof. solve_decision. Defined.
#[global] Program Instance DestinationMetadata_countable : Countable DestinationMetadata :=
  inj_countable' (fun m => (md_ip m, md_domain m)) (fun p => {| md_ip := fst p; md_domain := snd p |}) _.
Next Obligation. by intros []. Qed.

Record FlowObservation := {
  fo_replay_id : ReplayId;
  fo_event_time : DateTime;
  fo_arrival_time : DateTime;
  fo_device_id : DeviceId;
  fo_upload : Z;
  fo_download : Z;
  fo_protocol : Protocol;
  fo_destination : DestinationCategory;
  fo_interface : Z;
  fo_source : FlowSourceId;
  fo_metadata : option DestinationMetadata
}.

Record FlowEngineConfig := {
  lateness : Duration;
  future_skew : Duration;
  replay_ttl : Duration;
  correction_retention : Duration;
  retain_destination_metadata : bool;
  max_domain_bytes : Z;
  max_devices : Z;
  max_sources : Z;
  max_open_rows : Z;
  max_replay_ids : Z;
  max_finalized_rows : Z;
  max_outputs_per_call : Z;
  max_work_per_call : Z
}.

Definition default_flow_config : FlowEngineConfig := {|
  lateness := seconds 5; future_skew := seconds 5; replay_ttl := minutes 10;
  correction_retention := hours 24; retain_destination_metadata := false; max_domain_bytes := 253;
  max_devices := 1024; max_sources := 64; max_open_rows := 4096; max_replay_ids := 8192;
  max_finalized_rows := 65536; max_outputs_per_call := 16384; max_work_per_call := 262144 |}.

Inductive FlowError :=
  | Config | Capacity | UnknownSource | Replay | TooLate | Time_ | FutureSkew | Interface_
  | Metadata_ | Overflow | OutputLimit | WorkLimit.

Inductive Resolution := Second | Minute | Hour.
#[global] Instance Resolution_eq_dec : EqDecision Resolution.
Proof. solve_decision. Defined.
Definition resolution_rank (r : Resolution) : Z := match r with Second => 0 | Minute => 1 | Hour => 2 end.
#[global] Program Instance Resolution_countable : Countable Resolution :=
  inj_countable' resolution_rank (fun z => if z =? 0 then Second else if z =? 1 then Minute else Hour) _.
Next Obligation. by intros []. Qed.

Record RollupKey := {
  rk_resolution : Resolution;
  rk_bucket : DateTime;
  rk_device_id : DeviceId;
  rk_protocol : Protocol;
  rk_destination : DestinationCategory;
  rk_interface : Z;
  rk_metadata : option DestinationMetadata
}.
#[global] Instance RollupKey_eq_dec : EqDecision RollupKey.
Proof. solve_decision. Defined.
#[global] Program Instance RollupKey_countable : Countable RollupKey :=
  inj_countable' (fun k => (rk_resolution k, rk_bucket k, rk_device_id k, rk_protocol k, rk_destination k,
                            rk_interface k, rk_metadata k))
    (fun '(r, b, d, p, c, i, m) => {| rk_resolution := r; rk_bucket := b; rk_device_id := d; rk_protocol := p;
       rk_destination := c; rk_interface := i; rk_metadata := m |}) _.
Next Obligation. by intros []. Qed.

Record Rollup := {
  ro_key : RollupKey;
  ro_bytes : ByteCount;
  ro_coverage : Coverage;
  ro_metadata : option DestinationMetadata
}.
#[global] Instance Rollup_eq_dec : EqDecision Rollup.
Proof. solve_decision. Defined.

Record Retirement := { rt_key : RollupKey; rt_cache_only : bool }.
Inductive RollupChange := Upsert (r : Rollup) | Correction (r : Rollup) | Retire (r : Retirement).

Record SecondKey := {
  sk_epoch : Z;
  sk_device : string;
  sk_protocol : Protocol;
  sk_destination : DestinationCategory;
  sk_interface : Z;
  sk_metadata : option DestinationMetadata
}.
#[global] Instance SecondKey_eq_dec : EqDecision SecondKey.
Proof. solve_decision. Defined.
#[global] Program Instance SecondKey_countable : Countable SecondKey :=
  inj_countable' (fun k => (sk_epoch k, sk_device k, sk_protocol k, sk_destination k, sk_interface k, sk_metadata k))
    (fun '(e, d, p, c, i, m) => {| sk_epoch := e; sk_device := d; sk_protocol := p; sk_destination := c;
       sk_interface := i; sk_metadata := m |}) _.
Next Obligation. by intros []. Qed.

Record SourceSecondKey := { ss_base : SecondKey; ss_source : FlowSourceId }.
#[global] Instance SourceSecondKey_eq_dec : EqDecision SourceSecondKey.
Proof. solve_decision. Defined.
#[global] Program Instance SourceSecondKey_countable : Countable SourceSecondKey :=
  inj_countable' (fun k => (ss_base k, ss_source k)) (fun p => {| ss_base := fst p; ss_source := snd p |}) _.
Next Obligation. by intros []. Qed.

Record ReplayEntry := { re_arrival : DateTime; re_device : string }.

Record FlowEngine := {
  fe_cfg : FlowEngineConfig;
  fe_sources : gmap FlowSourceId VisibilityKind;
  fe_seconds : gmap SourceSecondKey ByteCount;
  fe_replay : gmap ReplayId ReplayEntry;
  fe_devices : gset string;
  fe_last_arrival : option DateTime;
  fe_watermark : option DateTime;
  fe_emitted : gmap RollupKey Rollup
}.

(** ** Key orders *)
Definition metadata_cmp (a b : DestinationMetadata) : comparison :=
  then_cmp (option_cmp ip_cmp (md_ip a) (md_ip b)) (option_cmp String.compare (md_domain a) (md_domain b)).

Definition second_cmp (a b : SecondKey) : comparison :=
  then_cmp (Z.compare (sk_epoch a) (sk_epoch b)) (then_cmp (String.compare (sk_device a) (sk_device b))
  (then_cmp (Z.compare (protocol_rank (sk_protocol a)) (protocol_rank (sk_protocol b)))
  (then_cmp (Z.compare (destination_rank (sk_destination a)) (destination_rank (sk_destination b)))
  (then_cmp (Z.compare (sk_interface a) (sk_interface b))
  (option_cmp metadata_cmp (sk_metadata a) (sk_metadata b)))))).

Definition source_second_cmp (a b : SourceSecondKey) : comparison :=
  then_cmp (second_cmp (ss_base a) (ss_base b)) (Z.compare (ss_source a) (ss_source b)).

(** ** Helpers *)
Definition timestamp (t : DateTime) : Z := t / 1000000000.
Definition checked_mul_usize (a b : Z) : option Z := if a * b <=? u64_max then Some (a * b) else None.
Definition msize {K V} `{Countable K} (m : gmap K V) : Z := Z.of_nat (size m).
Definition zero_bytes : ByteCount := {| upload := 0; download := 0 |}.

(** Pieces of [split('.')]. *)
Fixpoint split_dot (s : string) : list string :=
  match s with
  | EmptyString => [EmptyString]
  | String a s' =>
      if (N_of_ascii a =? 46)%N then EmptyString :: split_dot s'
      else match split_dot s' with
           | [] => [String a EmptyString]
           | l :: ls => String a l :: ls
           end
  end.
Fixpoint last_byte (s : string) : option ascii :=
  match s with EmptyString => None | String a EmptyString => Some a | String _ s' => last_byte s' end.
Definition first_byte (s : string) : option ascii := match s with EmptyString => None | String a _ => Some a end.
Definition is_alnum (a : ascii) : bool :=
  let n := N_of_ascii a in
  (((48 <=? n) && (n <=? 57)) || ((65 <=? n) && (n <=? 90)) || ((97 <=? n) && (n <=? 122)))%N.
Fixpoint all_bytes (p : ascii -> bool) (s : string) : bool :=
  match s with EmptyString => true | String a s' => p a && all_bytes p s' end.

Definition bad_label (l : string) : bool :=
  str_is_empty l || (63 <? str_len l) || bool_decide (first_byte l = Some "-"%char)
  || bool_decide (last_byte l = Some "-"%char)
  || negb (all_bytes (fun a => is_alnum a || bool_decide (a = "-"%char)) l).

Definition bad_domain (d : string) : bool :=
  str_is_empty d || negb (all_bytes (fun a => (N_of_ascii a <? 128)%N) d)
  || bool_decide (first_byte d = Some "."%char) || bool_decide (last_byte d = Some "."%char)
  || existsb bad_label (split_dot d).

Definition normalize_metadata (m : option DestinationMetadata) (cfg : FlowEngineConfig)
  : result (option DestinationMetadata) FlowError :=
  if negb (retain_destination_metadata cfg) then Ok None
  else match m with
  | Some {| md_ip := ip; md_domain := Some d |} =>
      if max_domain_bytes cfg <? str_len d then Err Capacity
      else if bad_domain d then Err Metadata_
      else Ok (Some {| md_ip := ip; md_domain := Some (to_ascii_lowercase d) |})
  | _ => Ok m
  end.

Definition coverage (k : VisibilityKind) : Coverage :=
  match k with
  | Gateway | Bridge | Mirror => Complete
  | RouterCounter => RouterReported
  | LocalCollector => LocalOnly
  | Inference => Estimated
  end.
Definition merge_coverage (a b : Coverage) : Coverage := if bool_decide (a = b) then a else Estimated.
Definition coverage_rank (c : Coverage) : Z :=
  match c with Complete => 4 | RouterReported => 3 | LocalOnly => 2 | Estimated => 1 end.

Record Value := { va_bytes : ByteCount; va_coverage : Coverage }.

Definition resolution_width (r : Resolution) : Z := match r with Second => 1 | Minute => 60 | Hour => 3600 end.

Section Engine.
Context `{Calendar} `{DeviceText}.

(** [DateTime::from_timestamp(s, 0)] *)
Definition from_timestamp (s : Z) : option DateTime :=
  if (cal_min <=? seconds s) && (seconds s <=? cal_max) then Some (seconds s) else None.

Definition checked_epoch (t : DateTime) : result unit FlowError :=
  if (cal_min <=? t) && (t <=? cal_max) then Ok tt else Err Time_.

Definition checked_sub_signed (t : DateTime) (d : Duration) : option DateTime := checked_add_signed t (- d).

(** The [Ord] of [RollupKey]. *)
Definition rollup_cmp (a b : RollupKey) : comparison :=
  then_cmp (Z.compare (resolution_rank (rk_resolution a)) (resolution_rank (rk_resolution b)))
  (then_cmp (Z.compare (rk_bucket a) (rk_bucket b))
  (then_cmp (String.compare (device_to_string (rk_device_id a)) (device_to_string (rk_device_id b)))
  (then_cmp (Z.compare (protocol_rank (rk_protocol a)) (protocol_rank (rk_protocol b)))
  (then_cmp (Z.compare (destination_rank (rk_destination a)) (destination_rank (rk_destination b)))
  (then_cmp (Z.compare (rk_interface a) (rk_interface b))
  (option_cmp metadata_cmp (rk_metadata a) (rk_metadata b))))))).

(** ** Construction *)
Definition config_invalid (c : FlowEngineConfig) : bool :=
  (lateness c <? 0) || (future_skew c <? 0) || (replay_ttl c <=? 0)
  || (correction_retention c <? lateness c) || (replay_ttl c <? lateness c)
  || (max_domain_bytes c =? 0) || (max_devices c =? 0) || (max_sources c =? 0)
  || (max_open_rows c =? 0) || (max_replay_ids c =? 0) || (max_finalized_rows c =? 0)
  || (max_outputs_per_call c =? 0) || (max_work_per_call c =? 0).

Fixpoint register (m : gmap FlowSourceId VisibilityKind) (l : list SourceRegistration)
  : result (gmap FlowSourceId VisibilityKind) FlowError :=
  match l with
  | [] => Ok m
  | r :: l' =>
      match m !! sr_id r with
      | Some _ => Err Config
      | None => register (<[sr_id r := sr_kind r]> m) l'
      end
  end.

Definition flow_new (cfg : FlowEngineConfig) (registrations : list SourceRegistration)
  : result FlowEngine FlowError :=
  if config_invalid cfg then Err Config
  else
    let? sources := register ∅ registrations in
    if max_sources cfg <? msize sources then Err Capacity
    else if msize sources =? 0 then Err Config
    else Ok {| fe_cfg := cfg; fe_sources := sources; fe_seconds := ∅; fe_replay := ∅;
               fe_devices := ∅; fe_last_arrival := None; fe_watermark := None; fe_emitted := ∅ |}.

(** ** Observing *)
Definition retained_replays (cutoff : DateTime) (m : gmap ReplayId ReplayEntry) : gmap ReplayId ReplayEntry :=
  filter (fun p => cutoff <= re_arrival (snd p)) m.

Definition second_devices (m : gmap SourceSecondKey ByteCount) : gset string :=
  list_to_set (map (fun p => sk_device (ss_base (fst p))) (map_to_list m)).
Definition replay_devices (m : gmap ReplayId ReplayEntry) : gset string :=
  list_to_set (map (fun p => re_device (snd p)) (map_to_list m)).

(** The gates on the times of an observation; the second it falls into. *)
Definition time_gates (e : FlowEngine) (o : FlowObservation) : result Z FlowError :=
  let? _ := checked_epoch (fo_event_time o) in
  let? _ := checked_epoch (fo_arrival_time o) in
  if is_some_and (fun last => fo_arrival_time o <? last) (fe_last_arrival e) then Err Time_
  else
    let? future := ok_or (checked_add_signed (fo_arrival_time o) (future_skew (fe_cfg e))) Overflow in
    if future <? fo_event_time o then Err FutureSkew
    else
      let epoch := timestamp (fo_event_time o) in
      let? close := ok_or (checked_add_i64 epoch 1) Overflow in
      let? close_at := ok_or (from_timestamp close) Overflow in
      let? late_edge := ok_or (checked_add_signed close_at (lateness (fe_cfg e))) Overflow in
      if late_edge <? fo_arrival_time o then Err TooLate
      else if is_some_and (fun w => late_edge <? w) (fe_watermark e) then Err TooLate
      else Ok epoch.

Definition observe_work (e : FlowEngine) : option Z :=
  n ← checked_mul_usize (msize (fe_replay e)) 3;
  n ← checked_add_u64 n (msize (fe_seconds e));
  checked_add_u64 n 1.

Definition add_bytes (old : ByteCount) (up down : Z) : result ByteCount FlowError :=
  let? u := ok_or (checked_add_u64 (upload old) up) Overflow in
  let? d := ok_or (checked_add_u64 (download old) down) Overflow in
  let? _ := ok_or (checked_add_u64 u d) Overflow in
  Ok {| upload := u; download := d |}.

Definition observe (e : FlowEngine) (o : FlowObservation) : result FlowEngine FlowError :=
  let cfg := fe_cfg e in
  let? _ := ok_or (fe_sources e !! fo_source o) UnknownSource in
  if fo_interface o =? 0 then Err Interface_
  else
    let? _ := ok_or (checked_add_u64 (fo_upload o) (fo_download o)) Overflow in
    let? epoch := time_gates e o in
    let? cutoff := ok_or (checked_sub_signed (fo_arrival_time o) (replay_ttl cfg)) Overflow in
    let? work := ok_or (observe_work e) Overflow in
    if max_work_per_call cfg <? work then Err WorkLimit
    else
      let retained := retained_replays cutoff (fe_replay e) in
      if is_some_and (fun r => cutoff <=? re_arrival r) (fe_replay e !! fo_replay_id o) then Err Replay
      else if max_replay_ids cfg <=? msize retained then Err Capacity
      else
        let? metadata := normalize_metadata (fo_metadata o) cfg in
        let device_key := device_to_string (fo_device_id o) in
        let active := second_devices (fe_seconds e) ∪ replay_devices retained in
        let key := {| ss_base := {| sk_epoch := epoch; sk_device := device_key;
                                    sk_protocol := fo_protocol o; sk_destination := fo_destination o;
                                    sk_interface := fo_interface o; sk_metadata := metadata |};
                      ss_source := fo_source o |} in
        if bool_decide (device_key ∉ active) && (max_devices cfg <=? Z.of_nat (size active)) then Err Capacity
        else if bool_decide (fe_seconds e !! key = None) && (max_open_rows cfg <=? msize (fe_seconds e))
        then Err Capacity
        else
          let? value := add_bytes (default zero_bytes (fe_seconds e !! key)) (fo_upload o) (fo_download o) in
          Ok {| fe_cfg := cfg; fe_sources := fe_sources e; fe_seconds := <[key := value]> (fe_seconds e);
                fe_replay := <[fo_replay_id o :=
                  {| re_arrival := fo_arrival_time o; re_device := device_key |}]> retained;
                fe_devices := {[device_key]} ∪ active; fe_last_arrival := Some (fo_arrival_time o);
                fe_watermark := fe_watermark e; fe_emitted := fe_emitted e |}.

(** ** Rollups *)
Definition make_rollup (res : Resolution) (epoch : Z) (k : SecondKey) (v : Value) : result Rollup FlowError :=
  let? bucket := ok_or (from_timestamp epoch) Overflow in
  let? device := ok_or (device_parse (sk_device k)) Config in
  Ok {| ro_key := {| rk_resolution := res; rk_bucket := bucket; rk_device_id := device;
                     rk_protocol := sk_protocol k; rk_destination := sk_destination k;
                     rk_interface := sk_interface k; rk_metadata := sk_metadata k |};
        ro_bytes := va_bytes v; ro_coverage := va_coverage v; ro_metadata := sk_metadata k |}.

(** [checked_sub] then [checked_add] on [u64]. *)
Definition replace_u64 (p old new : Z) : option Z :=
  if p <? old then None else checked_add_u64 (p - old) new.

Definition adjust_parent (out : gmap RollupKey Rollup) (res : Resolution) (width : Z) (base : SecondKey)
    (old : option Rollup) (new : Rollup) : result (gmap RollupKey Rollup) FlowError :=
  let? epoch := ok_or (checked_mul_i64 (sk_epoch base / width) width) Overflow in
  let? template := make_rollup res epoch base {| va_bytes := zero_bytes; va_coverage := ro_coverage new |} in
  let p := default template (out !! ro_key template) in
  let oldb := match old with Some r => ro_bytes r | None => zero_bytes end in
  let? u := ok_or (replace_u64 (upload (ro_bytes p)) (upload oldb) (upload (ro_bytes new))) Overflow in
  let? d := ok_or (replace_u64 (download (ro_bytes p)) (download oldb) (download (ro_bytes new))) Overflow in
  let? _ := ok_or (checked_add_u64 u d) Overflow in
  Ok (<[ro_key template := {| ro_key := ro_key p; ro_bytes := {| upload := u; download := d |};
        ro_coverage := merge_coverage (ro_coverage p) (ro_coverage new); ro_metadata := ro_metadata p |}]> out).

Definition retired (k : RollupKey) (w : DateTime) (late : Duration) : bool :=
  is_some_and (fun edge => edge <? w)
    (x ← checked_add_signed (rk_bucket k) (seconds (resolution_width (rk_resolution k)));
     checked_add_signed x late).

(** ** Selecting the closed seconds *)
Definition Winners : Type := gmap SecondKey Value * gmap SecondKey (Z * FlowSourceId).

Fixpoint select_loop (sources : gmap FlowSourceId VisibilityKind) (w : DateTime) (acc : Winners)
    (l : list (SourceSecondKey * ByteCount)) : result Winners FlowError :=
  match l with
  | [] => Ok acc
  | (k, b) :: l' =>
    let? close := ok_or (checked_add_i64 (sk_epoch (ss_base k)) 1) Overflow in
    if timestamp w <? close then select_loop sources w acc l'
    else
      let? kind := ok_or (sources !! ss_source k) UnknownSource in
      let cov := coverage kind in
      let rank := coverage_rank cov in
      let replace := is_none_or (fun '((r, id) : Z * FlowSourceId) => (r <? rank) || ((rank =? r) && (ss_source k <? id)))
                       (snd acc !! ss_base k) in
      select_loop sources w
        (if replace
         then (<[ss_base k := {| va_bytes := b; va_coverage := cov |}]> (fst acc),
               <[ss_base k := (rank, ss_source k)]> (snd acc))
         else acc) l'
  end.

Definition select_seconds (m : gmap SourceSecondKey ByteCount) (sources : gmap FlowSourceId VisibilityKind)
    (w : DateTime) : result (gmap SecondKey Value) FlowError :=
  let? acc := select_loop sources w (∅, ∅) (in_order source_second_cmp (map_to_list m)) in
  Ok (fst acc).

(** ** Advancing the watermark *)
Definition propose_second (proposed : gmap RollupKey Rollup) (base : SecondKey) (v : Value)
  : result (gmap RollupKey Rollup) FlowError :=
  let? second := make_rollup Second (sk_epoch base) base v in
  let old := proposed !! ro_key second in
  if bool_decide (old = Some second) then Ok proposed
  else
    let? p1 := adjust_parent (<[ro_key second := second]> proposed) Minute 60 base old second in
    adjust_parent p1 Hour 3600 base old second.

Fixpoint propose (proposed : gmap RollupKey Rollup) (l : list (SecondKey * Value))
  : result (gmap RollupKey Rollup) FlowError :=
  match l with
  | [] => Ok proposed
  | (base, v) :: l' => let? p := propose_second proposed base v in propose p l'
  end.

Definition change_at (emitted proposed : gmap RollupKey Rollup) (k : RollupKey) : option RollupChange :=
  match emitted !! k, proposed !! k with
  | None, Some v => Some (Upsert v)
  | Some old, Some v => if bool_decide (old <> v) then Some (Correction v) else None
  | Some _, None => Some (Retire {| rt_key := k; rt_cache_only := true |})
  | None, None => None
  end.

Fixpoint diff_loop (limit work : Z) (emitted proposed : gmap RollupKey Rollup) (keys : list RollupKey)
  : result (list RollupChange) FlowError :=
  match keys with
  | [] => Ok []
  | k :: keys' =>
    let? work := ok_or (checked_add_u64 work 1) Overflow in
    if limit <? work then Err WorkLimit
    else
      let? changes := diff_loop limit work emitted proposed keys' in
      Ok (match change_at emitted proposed k with Some c => c :: changes | None => changes end)
  end.

Definition all_keys (emitted proposed : gmap RollupKey Rollup) : list RollupKey :=
  map fst (in_order rollup_cmp (map (fun k => (k, tt)) (elements (dom emitted ∪ dom proposed)))).

Definition required_work (e : FlowEngine) : option Z :=
  n ← checked_mul_usize (msize (fe_seconds e)) 8;
  m ← checked_mul_usize (msize (fe_emitted e)) 4;
  checked_add_u64 n m.

Definition advance_watermark_at (e : FlowEngine) (next now : DateTime)
  : result (list RollupChange * FlowEngine) FlowError :=
  let cfg := fe_cfg e in
  let? _ := checked_epoch next in
  let? _ := checked_epoch now in
  if now <? next then Err FutureSkew
  else if is_some_and (fun old => now <? old) (fe_last_arrival e) then Err Time_
  else if is_some_and (fun old => next <? old) (fe_watermark e) then Err Time_
  else
    let horizon := Z.min (correction_retention cfg) (lateness cfg) in
    let? cutoff_at := ok_or (checked_sub_signed next horizon) Overflow in
    let cutoff := timestamp cutoff_at in
    let? work := ok_or (required_work e) Overflow in
    if max_work_per_call cfg <? work then Err WorkLimit
    else
      let? selected := select_seconds (fe_seconds e) (fe_sources e) next in
      let? proposed := propose (fe_emitted e) (in_order second_cmp (map_to_list selected)) in
      let proposed : gmap RollupKey Rollup :=
        filter (fun p => retired (fst p) next (lateness cfg) = false) proposed in
      if max_finalized_rows cfg <? msize proposed then Err Capacity
      else
        let? changes := diff_loop (max_work_per_call cfg) work (fe_emitted e) proposed
                          (all_keys (fe_emitted e) proposed) in
        if max_outputs_per_call cfg <? Z.of_nat (length changes) then Err OutputLimit
        else
          let? replay_cutoff := ok_or (checked_sub_signed now (replay_ttl cfg)) Overflow in
          let kept : gmap SourceSecondKey ByteCount := filter (fun p =>
            is_some_and (fun x => cutoff <=? x) (checked_add_i64 (sk_epoch (ss_base (fst p))) 1) = true)
            (fe_seconds e) in
          let replay := retained_replays replay_cutoff (fe_replay e) in
          Ok (changes,
            {| fe_cfg := cfg; fe_sources := fe_sources e; fe_seconds := kept; fe_replay := replay;
               fe_devices := second_devices kept ∪ replay_devices replay; fe_last_arrival := Some now;
               fe_watermark := Some next; fe_emitted := proposed |}).

(** ** Snapshot *)
Record FlowSnapshot := {
  fs_watermark : option DateTime;
  fs_rollups : list Rollup;
  fs_open_row_count : Z;
  fs_replay_ids : list (ReplayId * DateTime);
  fs_devices : list string;
  fs_last_arrival : option DateTime
}.

Definition flow_snapshot (e : FlowEngine) : FlowSnapshot := {|
  fs_watermark := fe_watermark e;
  fs_rollups := map snd (in_order rollup_cmp (map_to_list (fe_emitted e)));
  fs_open_row_count := msize (fe_seconds e);
  fs_replay_ids := map (fun p => (fst p, re_arrival (snd p))) (in_order Z.compare (map_to_list (fe_replay e)));
  fs_devices := map fst (in_order String.compare (map (fun d => (d, tt)) (elements (fe_devices e))));
  fs_last_arrival := fe_last_arrival e |}.
End Engine.
