(* ===== verification/FlowTheorems.v ===== *)
(** * Flow aggregation: theorems

    The engine keeps only the rollups that can still be corrected. [Ledger] is the table an
    engine without retirement would have; on whole-second watermarks the engine's cache is
    the part of the ledger that is not retired, and in the ledger every minute and hour is the
    sum of its seconds. Which source a closed second is taken from, the refinement of the ledger by every run on
    whole-second watermarks, the bounds of every reachable engine, and when an event can be
    counted twice. *)

From S2P Require Import Prelude Time Text Domain Order Bytes Net Flow.

(** ** Sums over the second rows *)
Definition parent (res : Resolution) (k : RollupKey) : RollupKey := {|
  rk_resolution := res;
  rk_bucket := seconds (timestamp (rk_bucket k) / resolution_width res * resolution_width res);
  rk_device_id := rk_device_id k; rk_protocol := rk_protocol k; rk_destination := rk_destination k;
  rk_interface := rk_interface k; rk_metadata := rk_metadata k |}.

Definition share (f : ByteCount -> Z) (P k : RollupKey) (v : Rollup) : Z :=
  if bool_decide (rk_resolution k = Second) && bool_decide (parent (rk_resolution P) k = P) then f (ro_bytes v) else 0.

Definition share_at (f : ByteCount -> Z) (P k : RollupKey) (o : option Rollup) : Z :=
  match o with Some v => share f P k v | None => 0 end.

(** The bytes of all second rows below [P]. *)
Definition total (f : ByteCount -> Z) (P : RollupKey) (U : gmap RollupKey Rollup) : Z :=
  map_fold (fun k v acc => share f P k v + acc) 0 U.

Definition bytes_at (f : ByteCount -> Z) (U : gmap RollupKey Rollup) (P : RollupKey) : Z :=
  match U !! P with Some v => f (ro_bytes v) | None => 0 end.

Lemma total_insert_fresh f P U k v : U !! k = None -> total f P (<[k := v]> U) = share f P k v + total f P U.
Proof. intros Hk. unfold total. apply (map_fold_insert_L (fun k v acc => share f P k v + acc)); [|done]. intros; lia. Qed.

Lemma total_insert f P U k v :
  total f P (<[k := v]> U) = total f P U - share_at f P k (U !! k) + share f P k v.
Proof.
  destruct (U !! k) as [old|] eqn:Hk; simpl.
  - rewrite <- insert_delete_eq. rewrite total_insert_fresh by apply lookup_delete_eq.
    pose proof (total_insert_fresh f P (delete k U) k old (lookup_delete_eq _ _)) as Ho.
    rewrite insert_delete_id in Ho by done. lia.
  - rewrite total_insert_fresh by done. lia.
Qed.

Lemma share_not_second f P k v : rk_resolution k <> Second -> share f P k v = 0.
Proof. intros Hk. unfold share. by rewrite bool_decide_eq_false_2. Qed.

Lemma total_insert_parent f P U k v :
  rk_resolution k <> Second -> total f P (<[k := v]> U) = total f P U.
Proof.
  intros Hk. rewrite total_insert, share_not_second by done.
  destruct (U !! k); simpl; [rewrite share_not_second by done|]; lia.
Qed.

Section Ledger.
Context `{Calendar} `{DeviceText}.

(** ** One second *)
Lemma timestamp_seconds s : timestamp (seconds s) = s.
Proof. unfold timestamp, seconds. apply Z.div_mul. lia. Qed.

Lemma from_timestamp_some s t : from_timestamp s = Some t -> t = seconds s.
Proof. unfold from_timestamp. destruct (_ && _); congruence. Qed.

Lemma make_rollup_ok res epoch base v r :
  make_rollup res epoch base v = Ok r ->
  exists d, device_parse (sk_device base) = Some d /\
    ro_key r = {| rk_resolution := res; rk_bucket := seconds epoch; rk_device_id := d;
                  rk_protocol := sk_protocol base; rk_destination := sk_destination base;
                  rk_interface := sk_interface base; rk_metadata := sk_metadata base |} /\
    ro_bytes r = va_bytes v /\ ro_coverage r = va_coverage v.
Proof.
  unfold make_rollup. intros (b & Hb & Hk)%result_bind_ok. apply result_bind_ok in Hk as (d & Hd & [= <-]).
  destruct (from_timestamp epoch) eqn:E; simplify_eq/=. apply from_timestamp_some in E as ->.
  destruct (device_parse _) eqn:Ed; simplify_eq/=. eauto.
Qed.

Lemma replace_u64_some p old new r : replace_u64 p old new = Some r -> r = p - old + new.
Proof. unfold replace_u64. destruct (p <? old); [done|]. intros [-> _]%checked_add_u64_some. done. Qed.

(** The row that [adjust_parent] writes, from the row that is there. *)
Lemma adjust_parent_ok out res base old new out' second :
  make_rollup Second (sk_epoch base) base second = Ok new ->
  adjust_parent out res (resolution_width res) base old new = Ok out' ->
  exists row, out' = <[parent res (ro_key new) := row]> out /\
    (forall f, f = upload \/ f = download ->
       f (ro_bytes row) = bytes_at f out (parent res (ro_key new))
         - match old with Some r => f (ro_bytes r) | None => 0 end + f (ro_bytes new)) /\
    (forall out2, out2 !! parent res (ro_key new) = out !! parent res (ro_key new) ->
       adjust_parent out2 res (resolution_width res) base old new = Ok (<[parent res (ro_key new) := row]> out2)).
Proof.
  intros (d & Hd & Hnew & _ & _)%make_rollup_ok. unfold adjust_parent. intros (epoch & He & Hk)%result_bind_ok.
  unfold checked_mul_i64 in He. destruct (in_i64 _) eqn:Hi; simplify_eq/=.
  apply result_bind_ok in Hk as (tmpl & Ht & Hk). pose proof Ht as (d' & Hd' & Hkey & Hb & Hc)%make_rollup_ok.
  assert (ro_key tmpl = parent res (ro_key new)) as Hpar.
  { rewrite Hkey, Hnew. unfold parent. cbn [rk_bucket rk_device_id rk_protocol rk_destination rk_interface rk_metadata].
    rewrite timestamp_seconds. congruence. }
  rewrite Hpar in Hk. apply result_bind_ok in Hk as (u & Hu & Hk). apply result_bind_ok in Hk as (dn & Hdn & Hk).
  apply result_bind_ok in Hk as (s & Hs & [= <-]).
  eexists. split; [reflexivity|]. split.
  - intros f Hf. cbn [ro_bytes]. destruct (replace_u64 _ _ (upload _)) as [u'|] eqn:Eu; [|done].
    destruct (replace_u64 _ _ (download _)) as [d''|] eqn:Ed; [|done]. apply replace_u64_some in Eu, Ed.
    simpl in Hu, Hdn. injection Hu as <-. injection Hdn as <-. unfold bytes_at.
    destruct (out !! parent res (ro_key new)) as [p|]; simpl in *; destruct Hf as [-> | ->]; simpl;
      rewrite ?Hb in *; simpl in *; destruct old; simpl in *; lia.
  - intros out2 H2. unfold checked_mul_i64. rewrite Hi. cbn [ok_or result_bind]. rewrite Ht. cbn [result_bind]. rewrite Hpar, H2, Hu.
    cbn [result_bind]. rewrite Hdn. cbn [result_bind]. by rewrite Hs.
Qed.
(** ** Conservation *)
Definition byte_field (f : ByteCount -> Z) : Prop := f = upload \/ f = download.

Definition conserved (U : gmap RollupKey Rollup) : Prop :=
  forall f P, byte_field f -> rk_resolution P <> Second -> bytes_at f U P = total f P U.

Lemma bytes_at_insert_ne f U k v P : k <> P -> bytes_at f (<[k := v]> U) P = bytes_at f U P.
Proof. intros Hk. unfold bytes_at. by rewrite lookup_insert_ne. Qed.

Lemma bytes_at_insert f U k v : bytes_at f (<[k := v]> U) k = f (ro_bytes v).
Proof. unfold bytes_at. by rewrite lookup_insert_eq. Qed.

(** What [propose_second] does: nothing, or the second row and both parents. *)
Lemma propose_second_cases U base v U' :
  propose_second U base v = Ok U' ->
  exists second, make_rollup Second (sk_epoch base) base v = Ok second /\
  ((U !! ro_key second = Some second /\ U' = U) \/
   (U !! ro_key second <> Some second /\ exists U2,
    adjust_parent (<[ro_key second := second]> U) Minute (resolution_width Minute) base (U !! ro_key second) second = Ok U2 /\
    adjust_parent U2 Hour (resolution_width Hour) base (U !! ro_key second) second = Ok U')).
Proof.
  unfold propose_second. intros (second & Hs & Hk)%result_bind_ok. exists second. split; [done|].
  case_bool_decide; [left; by simplify_eq/=|right]. split; [done|].
  apply result_bind_ok in Hk as (U2 & H2 & H3). eauto.
Qed.

Lemma share_parent f res k v : rk_resolution k = Second -> share f (parent res k) k v = f (ro_bytes v).
Proof. intros Hk. unfold share. cbn [rk_resolution parent]. by rewrite !bool_decide_eq_true_2. Qed.

Lemma share_other f P k v : parent (rk_resolution P) k <> P -> share f P k v = 0.
Proof. intros Hk. unfold share. rewrite (bool_decide_eq_false_2 (parent _ _ = _)) by done. by rewrite andb_false_r. Qed.

Lemma propose_second_conserved U base v U' :
  propose_second U base v = Ok U' -> conserved U -> conserved U'.
Proof.
  intros (second & Hs & [[_ ->]|(_ & U2 & Hm & Hh)])%propose_second_cases Hc; [done|].
  pose proof Hs as (d & _ & Hkey & _)%make_rollup_ok.
  set (k := ro_key second) in *. assert (rk_resolution k = Second) as Hsec by (by rewrite Hkey).
  destruct (adjust_parent_ok _ _ _ _ _ _ _ Hs Hm) as (rm & -> & Hbm & _).
  destruct (adjust_parent_ok _ _ _ _ _ _ _ Hs Hh) as (rh & -> & Hbh & _). fold k in Hbm, Hbh |- *.
  set (pm := parent Minute k) in *. set (ph := parent Hour k) in *.
  assert (pm <> ph /\ k <> pm /\ k <> ph) as (Hmh & Hkm & Hkh).
  { split_and!; intros Heq; apply (f_equal rk_resolution) in Heq; unfold pm, ph in Heq; cbn in Heq; congruence. }
  intros f P Hf HP. rewrite !total_insert_parent by done. rewrite total_insert.
  specialize (Hbm f Hf). specialize (Hbh f Hf). rewrite bytes_at_insert_ne in Hbm by exact Hkm.
  rewrite (bytes_at_insert_ne f _ pm rm ph Hmh), (bytes_at_insert_ne f U k second ph Hkh) in Hbh.
  assert (forall res, share_at f (parent res k) k (U !! k) = match U !! k with Some r => f (ro_bytes r) | None => 0 end) as Hsh.
  { intros res. destruct (U !! k); [|done]. apply (share_parent f res k). done. }
  destruct (decide (P = ph)) as [->|Hph].
  { rewrite bytes_at_insert, Hbh. rewrite <- Hc by done. unfold ph. rewrite Hsh, share_parent by done. done. }
  rewrite bytes_at_insert_ne by done. destruct (decide (P = pm)) as [->|Hpm].
  { rewrite bytes_at_insert, Hbm. rewrite <- Hc by done. unfold pm. rewrite Hsh, share_parent by done. done. }
  rewrite !bytes_at_insert_ne by (try done; intros ->; congruence). rewrite (Hc f P Hf HP).
  assert (parent (rk_resolution P) k <> P) as Hne by (unfold pm, ph in *; destruct (rk_resolution P); congruence).
  rewrite (share_other f P k second) by done. destruct (U !! k); simpl; rewrite ?share_other by done; lia.
Qed.

Lemma propose_conserved U l U' : propose U l = Ok U' -> conserved U -> conserved U'.
Proof.
  revert U. induction l as [|[base v] l IH]; intros U; simpl; [by intros [= ->]|].
  intros (p & Hp & Hk)%result_bind_ok Hc. eauto using propose_second_conserved.
Qed.

(** ** The cache and the ledger *)
Definition synced (R : RollupKey -> bool) (p U : gmap RollupKey Rollup) : Prop :=
  forall k, p !! k = if R k then None else U !! k.

(** The rollup key of a second at a resolution. *)
Definition key_at (res : Resolution) (d : DeviceId) (base : SecondKey) : RollupKey := {|
  rk_resolution := res; rk_bucket := seconds (sk_epoch base / resolution_width res * resolution_width res);
  rk_device_id := d; rk_protocol := sk_protocol base; rk_destination := sk_destination base;
  rk_interface := sk_interface base; rk_metadata := sk_metadata base |}.

Lemma synced_insert R p U k v : synced R p U -> R k = false -> synced R (<[k := v]> p) (<[k := v]> U).
Proof.
  intros Hs Hk k'. destruct (decide (k = k')) as [<-|]; [by rewrite Hk, !lookup_insert_eq|].
  rewrite !lookup_insert_ne by done. apply Hs.
Qed.

Lemma propose_second_synced R p U base v p' :
  synced R p U -> (forall res d, R (key_at res d base) = false) -> propose_second p base v = Ok p' ->
  exists U', propose_second U base v = Ok U' /\ synced R p' U'.
Proof.
  intros Hs HR (second & Hsec & Hcase)%propose_second_cases. pose proof Hsec as (d & _ & Hkey & _)%make_rollup_ok.
  assert (ro_key second = key_at Second d base) as Hk0.
  { rewrite Hkey. unfold key_at. cbn [resolution_width]. by rewrite Z.div_1_r, Z.mul_1_r. }
  assert (forall res, parent res (ro_key second) = key_at res d base) as Hpar.
  { intros res. rewrite Hkey. unfold parent, key_at. cbn. by rewrite timestamp_seconds. }
  assert (U !! ro_key second = p !! ro_key second) as Hold by (rewrite (Hs (ro_key second)), Hk0, HR; done).
  unfold propose_second at 1. rewrite Hsec. cbn [result_bind]. rewrite Hold.
  destruct Hcase as [[Heq ->]|(Hne & p2 & Hm & Hh)].
  { rewrite bool_decide_eq_true_2 by done. eauto. }
  rewrite bool_decide_eq_false_2 by done.
  destruct (adjust_parent_ok _ _ _ _ _ _ _ Hsec Hm) as (rm & -> & _ & HU2).
  destruct (adjust_parent_ok _ _ _ _ _ _ _ Hsec Hh) as (rh & -> & _ & HU3).
  assert (synced R (<[ro_key second := second]> p) (<[ro_key second := second]> U)) as Hs1.
  { apply synced_insert; [done|]. by rewrite Hk0. }
  change 60 with (resolution_width Minute). rewrite (HU2 (<[ro_key second := second]> U)).
  2:{ rewrite (Hs1 (parent Minute _)), Hpar, HR. done. }
  assert (synced R (<[parent Minute (ro_key second) := rm]> (<[ro_key second := second]> p))
                   (<[parent Minute (ro_key second) := rm]> (<[ro_key second := second]> U))) as Hs2.
  { apply synced_insert; [done|]. by rewrite Hpar. }
  cbn [result_bind]. change 3600 with (resolution_width Hour). rewrite HU3.
  2:{ rewrite (Hs2 (parent Hour _)), Hpar, HR. done. }
  eexists. split; [done|]. apply synced_insert; [done|]. by rewrite Hpar.
Qed.

Lemma propose_synced R l p U p' :
  synced R p U -> (forall base v, In (base, v) l -> forall res d, R (key_at res d base) = false) ->
  propose p l = Ok p' -> exists U', propose U l = Ok U' /\ synced R p' U'.
Proof.
  revert p U. induction l as [|[base v] l IH]; intros p U Hs HR; simpl.
  - intros [= <-]. eauto.
  - intros (p1 & H1 & Hk)%result_bind_ok.
    destruct (propose_second_synced R p U base v p1) as (U1 & -> & Hs1); [done|intros; by eapply HR; left|done|].
    cbn [result_bind]. eapply IH; [done| |done]. intros; eapply HR. by right.
Qed.

(** ** Retirement *)
Definition retired_opt (late : Duration) (w : option DateTime) (k : RollupKey) : bool :=
  is_some_and (fun w => retired k w late) w.

(** The watermark has not passed the correction window of the second. *)
Definition correctable (late : Duration) (w : option DateTime) (epoch : Z) : Prop :=
  forall w', w = Some w' -> w' <= seconds (epoch + 1) + late.

Lemma correctable_not_retired late w base res d :
  correctable late w (sk_epoch base) -> retired_opt late w (key_at res d base) = false.
Proof.
  intros Hc. unfold retired_opt. destruct w as [w|]; [|done]. simpl. specialize (Hc w eq_refl). unfold retired, is_some_and.
  destruct (checked_add_signed _ (seconds _)) as [x|] eqn:E1; [|done]. cbn.
  destruct (checked_add_signed x late) as [edge|] eqn:E2; [|done].
  apply checked_add_some in E1 as [-> _], E2 as [-> _]. apply Z.ltb_ge.
  cbn [key_at rk_bucket rk_resolution]. unfold seconds in *.
  assert (0 < resolution_width res) as Hp by (by destruct res).
  pose proof (Z.mul_succ_div_gt (sk_epoch base) (resolution_width res) Hp). nia.
Qed.

Lemma retired_mono late w w' k : w <= w' -> retired k w late = true -> retired k w' late = true.
Proof.
  intros Hw. unfold retired. rewrite !is_some_and_true. intros (e & He & Hlt). exists e. split; [done|]. bprop.
  apply Z.ltb_lt. lia.
Qed.
End Ledger.

Section Theorems.
Context `{Calendar} `{DeviceText}.

(** ** Selecting closed seconds *)
Definition rank_of (sources : gmap FlowSourceId VisibilityKind) (id : FlowSourceId) : option Z :=
  (fun kind => coverage_rank (coverage kind)) <$> sources !! id.

Definition closed (w : DateTime) (k : SourceSecondKey) : Prop := sk_epoch (ss_base k) + 1 <= timestamp w.

(** [id] is at least as authoritative as [id']: a higher rank, or the same and not the larger
    identifier. *)
Definition outranks (sources : gmap FlowSourceId VisibilityKind) (id id' : FlowSourceId) : Prop :=
  exists r r', rank_of sources id = Some r /\ rank_of sources id' = Some r' /\ (r' < r \/ (r = r' /\ id <= id')).

(** [acc] holds the winners among the closed rows of [l]. *)
Definition winners_of (sources : gmap FlowSourceId VisibilityKind) (w : DateTime)
    (l : list (SourceSecondKey * ByteCount)) (acc : Winners) : Prop :=
  forall base,
    match fst acc !! base, snd acc !! base with
    | None, None => forall k b, In (k, b) l -> ss_base k = base -> ~ closed w k
    | Some v, Some (r, id) =>
        exists kind b, sources !! id = Some kind /\ r = coverage_rank (coverage kind) /\
          In ({| ss_base := base; ss_source := id |}, b) l /\ closed w {| ss_base := base; ss_source := id |} /\
          v = {| va_bytes := b; va_coverage := coverage kind |} /\
          forall k b', In (k, b') l -> ss_base k = base -> closed w k -> outranks sources id (ss_source k)
    | _, _ => False
    end.

Lemma outranks_trans sources a b c : outranks sources a b -> outranks sources b c -> outranks sources a c.
Proof. intros (r1 & r2 & H1 & H2 & H12) (r2' & r3 & H2' & H3 & H23). exists r1, r3. simplify_eq. split_and!; [done..|lia]. Qed.

(** A row that is skipped or loses changes nothing. *)
Lemma winners_snoc_same sources w l acc k b :
  winners_of sources w l acc ->
  (closed w k -> exists r id, snd acc !! ss_base k = Some (r, id) /\ outranks sources id (ss_source k)) ->
  winners_of sources w (l ++ [(k, b)]) acc.
Proof.
  intros Hw Hk base. specialize (Hw base). destruct (fst acc !! base) as [v|], (snd acc !! base) as [[r id]|] eqn:Es; try done.
  - destruct Hw as (kind & b0 & Hs & Hr & Hin & Hcl & Hv & Hall). exists kind, b0.
    split_and!; try done; [apply in_or_app; by left|].
    intros k' b' [Hin'|[Heq|[]]]%in_app_or Hb Hc'; [by eapply Hall|]. injection Heq as <- <-. subst base.
    destruct (Hk Hc') as (r' & id' & He & Ho). rewrite Es in He. by injection He as <- <-.
  - intros k' b' [Hin'|[Heq|[]]]%in_app_or Hb Hc'; [by eapply Hw|]. injection Heq as <- <-. subst base.
    destruct (Hk Hc') as (r' & id' & He & _). by rewrite Es in He.
Qed.

(** A row that wins replaces the winner of its second. *)
Lemma winners_snoc_win sources w l acc k b kind :
  winners_of sources w l acc -> closed w k -> sources !! ss_source k = Some kind ->
  (forall r id, snd acc !! ss_base k = Some (r, id) -> outranks sources (ss_source k) id) ->
  winners_of sources w (l ++ [(k, b)])
    (<[ss_base k := {| va_bytes := b; va_coverage := coverage kind |}]> (fst acc),
     <[ss_base k := (coverage_rank (coverage kind), ss_source k)]> (snd acc)).
Proof.
  intros Hw Hcl Hkind Hbest base. cbn [fst snd]. destruct (decide (base = ss_base k)) as [->|Hne].
  - rewrite !lookup_insert_eq. exists kind, b.
    assert ({| ss_base := ss_base k; ss_source := ss_source k |} = k) as -> by (by destruct k).
    split_and!; try done; [apply in_or_app; right; by left|].
    assert (outranks sources (ss_source k) (ss_source k)) as Hself.
    { unfold outranks, rank_of. rewrite Hkind. eexists _, _. split_and!; [done|done|]. right. done. }
    intros k' b' [Hin'|[Heq|[]]]%in_app_or Hb Hc'; [|by injection Heq as <- <-].
    specialize (Hw (ss_base k)). destruct (fst acc !! ss_base k) as [v|], (snd acc !! ss_base k) as [[r id]|] eqn:Es; try done.
    + destruct Hw as (kind0 & b0 & _ & _ & _ & _ & _ & Hall). eapply outranks_trans; [by eapply Hbest|by eapply Hall].
    + exfalso. by eapply Hw.
  - rewrite !lookup_insert_ne by done. specialize (Hw base).
    destruct (fst acc !! base) as [v|], (snd acc !! base) as [[r id]|]; try done.
    + destruct Hw as (kind0 & b0 & Hs & Hr & Hin & Hc0 & Hv & Hall). exists kind0, b0.
      split_and!; try done; [apply in_or_app; by left|].
      intros k' b' [Hin'|[Heq|[]]]%in_app_or Hb Hc'; [by eapply Hall|]. injection Heq as <- <-. by subst base.
    + intros k' b' [Hin'|[Heq|[]]]%in_app_or Hb Hc'; [by eapply Hw|]. injection Heq as <- <-. by subst base.
Qed.

Lemma select_loop_winners sources w l l0 acc acc' :
  winners_of sources w l0 acc -> select_loop sources w acc l = Ok acc' -> winners_of sources w (l0 ++ l) acc'.
Proof.
  revert l0 acc. induction l as [|[k b] l IH]; intros l0 acc Hw; cbn [select_loop].
  { intros [= <-]. by rewrite app_nil_r. }
  replace (l0 ++ (k, b) :: l) with ((l0 ++ [(k, b)]) ++ l) by (by rewrite <- app_assoc).
  unfold checked_add_i64. destruct (in_i64 _); [|done]. cbn [ok_or result_bind].
  destruct (Z.ltb_spec (timestamp w) (sk_epoch (ss_base k) + 1)) as [Hopen|Hcl].
  { apply IH. apply winners_snoc_same; [done|]. unfold closed. lia. }
  destruct (sources !! ss_source k) as [kind|] eqn:Hkind; [|done]. cbn [ok_or result_bind].
  destruct (is_none_or _ _) eqn:Hrep; apply IH.
  - apply winners_snoc_win; [done|done|done|]. intros r id Hs. rewrite Hs in Hrep. simpl in Hrep.
    specialize (Hw (ss_base k)). rewrite Hs in Hw. destruct (fst acc !! ss_base k); [|done].
    destruct Hw as (kind0 & b0 & Hk0 & Hr & _). unfold outranks, rank_of. rewrite Hkind, Hk0. simpl.
    eexists _, _. split_and!; [done|done|]. rewrite <- Hr. apply orb_true_iff in Hrep as [Hlt|Hrep]; bprop; lia.
  - apply winners_snoc_same; [done|]. intros _. specialize (Hw (ss_base k)).
    destruct (snd acc !! ss_base k) as [[r id]|]; [|done]. destruct (fst acc !! ss_base k); [|done].
    destruct Hw as (kind0 & b0 & Hk0 & Hr & _). exists r, id. split; [done|].
    unfold outranks, rank_of. rewrite Hkind, Hk0. simpl. eexists _, _. split_and!; [done|done|]. rewrite <- Hr.
    simpl in Hrep. apply orb_false_iff in Hrep as [H1 H2]. apply andb_false_iff in H2. destruct H2; bprop; lia.
Qed.

Lemma select_seconds_winners m sources w sel :
  select_seconds m sources w = Ok sel ->
  exists win, winners_of sources w (in_order source_second_cmp (map_to_list m)) (sel, win).
Proof.
  unfold select_seconds. intros ([s win] & Hl & [= <-])%result_bind_ok. exists win.
  eapply (select_loop_winners _ _ _ []) in Hl; [exact Hl|]. intros base. cbn [fst snd]. rewrite !lookup_empty. by intros k b [].
Qed.

Lemma select_seconds_base m sources w sel base v :
  select_seconds m sources w = Ok sel -> sel !! base = Some v ->
  exists k b, m !! k = Some b /\ ss_base k = base.
Proof.
  intros [win Hw]%select_seconds_winners Hs. specialize (Hw base). cbn [fst snd] in Hw. rewrite Hs in Hw.
  destruct (win !! base) as [[r id]|]; [|done]. destruct Hw as (kind & b & _ & _ & Hin & _).
  apply in_sorted_map in Hin. eauto.
Qed.

(** A closed second is reported exactly when some source observed it, with the bytes and
    the coverage of its most authoritative source: none of the other sources that observed the
    second has a higher rank, or the same rank and a smaller identifier. Parallel sources are
    never added up. *)
Theorem second_from_best_source m sources w sel base :
  select_seconds m sources w = Ok sel ->
  match sel !! base with
  | Some v => exists id kind, closed w {| ss_base := base; ss_source := id |} /\
      m !! {| ss_base := base; ss_source := id |} = Some (va_bytes v) /\
      sources !! id = Some kind /\ va_coverage v = coverage kind /\
      (forall id' b', m !! {| ss_base := base; ss_source := id' |} = Some b' -> outranks sources id id')
  | None => forall id b, m !! {| ss_base := base; ss_source := id |} = Some b ->
      ~ closed w {| ss_base := base; ss_source := id |}
  end.
Proof.
  intros [win Hw]%select_seconds_winners. specialize (Hw base). cbn [fst snd] in Hw.
  destruct (sel !! base) as [v|], (win !! base) as [[r id]|]; try done.
  - destruct Hw as (kind & b & Hk & _ & Hin & Hcl & -> & Hall). exists id, kind. apply in_sorted_map in Hin.
    split_and!; try done. intros id' b' Hb'. apply (in_sorted_map source_second_cmp) in Hb'. by specialize (Hall _ _ Hb' eq_refl Hcl).
  - intros id b Hb Hcl. apply (in_sorted_map source_second_cmp) in Hb. by apply (Hw _ _ Hb).
Qed.
(** ** Runs *)
Lemma advance_ok e next now cs e' :
  advance_watermark_at e next now = Ok (cs, e') ->
  exists cutoff sel proposed work rc,
    checked_sub_signed next (Z.min (correction_retention (fe_cfg e)) (lateness (fe_cfg e))) = Some cutoff /\
    (forall old, fe_watermark e = Some old -> old <= next) /\ (forall old, fe_last_arrival e = Some old -> old <= now) /\
    checked_sub_signed now (replay_ttl (fe_cfg e)) = Some rc /\
    select_seconds (fe_seconds e) (fe_sources e) next = Ok sel /\
    propose (fe_emitted e) (in_order second_cmp (map_to_list sel)) = Ok proposed /\
    fe_emitted e' = filter (fun p => retired (fst p) next (lateness (fe_cfg e)) = false) proposed /\
    msize (fe_emitted e') <= max_finalized_rows (fe_cfg e) /\
    diff_loop (max_work_per_call (fe_cfg e)) work (fe_emitted e) (fe_emitted e') (all_keys (fe_emitted e) (fe_emitted e')) = Ok cs /\
    fe_seconds e' = filter (fun p => is_some_and (fun x => timestamp cutoff <=? x)
      (checked_add_i64 (sk_epoch (ss_base (fst p))) 1) = true) (fe_seconds e) /\
    fe_replay e' = retained_replays rc (fe_replay e) /\
    fe_devices e' = second_devices (fe_seconds e') ∪ replay_devices (fe_replay e') /\
    fe_cfg e' = fe_cfg e /\ fe_sources e' = fe_sources e /\ fe_watermark e' = Some next /\ fe_last_arrival e' = Some now.
Proof.
  unfold advance_watermark_at. intros ([] & _ & Hk)%result_bind_ok. apply result_bind_ok in Hk as ([] & _ & Hk).
  destruct (now <? next); [done|]. destruct (is_some_and (A := Z) (fun old => now <? old) (fe_last_arrival e)) eqn:Hl; [done|].
  destruct (is_some_and (A := Z) (fun old => next <? old) (fe_watermark e)) eqn:Hw; [done|].
  apply result_bind_ok in Hk as (cutoff & Hc & Hk). apply result_bind_ok in Hk as (work & _ & Hk).
  destruct (_ <? work); [done|]. apply result_bind_ok in Hk as (sel & Hsel & Hk). apply result_bind_ok in Hk as (p & Hp & Hk).
  destruct (_ <? msize _) eqn:Hfin; [done|]. apply result_bind_ok in Hk as (cs' & Hcs & Hk). destruct (_ <? Z.of_nat _); [done|].
  apply result_bind_ok in Hk as (rc & Hrc & [= <- <-]). cbn [fe_emitted fe_seconds fe_replay fe_devices fe_cfg fe_sources fe_watermark fe_last_arrival].
  destruct (checked_sub_signed next _) as [c|]; [|done]. destruct (checked_sub_signed now _) as [r|]; [|done].
  simpl in Hc, Hrc. injection Hc as ->. injection Hrc as ->. bprop.
  exists cutoff, sel, p, work, rc. split_and!; try done.
  - intros old Ho. rewrite Ho in Hw. simpl in Hw. bprop. lia.
  - intros old Ho. rewrite Ho in Hl. simpl in Hl. bprop. lia.
Qed.

Lemma time_gates_ok e o epoch :
  time_gates e o = Ok epoch ->
  epoch = timestamp (fo_event_time o) /\
  (forall last, fe_last_arrival e = Some last -> last <= fo_arrival_time o) /\
  fo_event_time o <= fo_arrival_time o + future_skew (fe_cfg e) /\
  fo_arrival_time o <= seconds (epoch + 1) + lateness (fe_cfg e) /\
  correctable (lateness (fe_cfg e)) (fe_watermark e) epoch.
Proof.
  unfold time_gates. intros ([] & _ & Hk)%result_bind_ok. apply result_bind_ok in Hk as ([] & _ & Hk).
  destruct (is_some_and (A := Z) (fun last => fo_arrival_time o <? last) (fe_last_arrival e)) eqn:Hl; [done|]. apply result_bind_ok in Hk as (future & Hf & Hk).
  destruct (future <? _) eqn:Hfut; [done|]. apply result_bind_ok in Hk as (close & Hc & Hk).
  apply result_bind_ok in Hk as (cl & Hcl & Hk). apply result_bind_ok in Hk as (edge & He & Hk).
  destruct (edge <? _) eqn:Hedge; [done|]. destruct (is_some_and (A := Z) (fun w => edge <? w) (fe_watermark e)) eqn:Hw; [done|]. injection Hk as <-.
  destruct (checked_add_signed _ (future_skew _)) as [fu|] eqn:E1; simplify_eq/=. apply checked_add_some in E1 as [-> _].
  unfold checked_add_i64 in Hc. destruct (in_i64 _); simplify_eq/=.
  destruct (from_timestamp _) as [fc|] eqn:E2; simplify_eq/=. apply from_timestamp_some in E2 as ->.
  destruct (checked_add_signed _ (lateness _)) as [ed|] eqn:E3; simplify_eq/=. apply checked_add_some in E3 as [-> _]. bprop.
  split_and!; [done| |done|done|].
  - intros last Ho. rewrite Ho in Hl. simpl in Hl. by bprop.
  - intros w' Ho. rewrite Ho in Hw. simpl in Hw. by bprop.
Qed.

Lemma observe_ok e o e' :
  observe e o = Ok e' ->
  exists epoch metadata value cutoff,
    time_gates e o = Ok epoch /\
    checked_sub_signed (fo_arrival_time o) (replay_ttl (fe_cfg e)) = Some cutoff /\
    (forall r, fe_replay e !! fo_replay_id o = Some r -> re_arrival r < cutoff) /\
    let key := {| ss_base := {| sk_epoch := epoch; sk_device := device_to_string (fo_device_id o);
                                sk_protocol := fo_protocol o; sk_destination := fo_destination o;
                                sk_interface := fo_interface o; sk_metadata := metadata |};
                  ss_source := fo_source o |} in
    let active := second_devices (fe_seconds e) ∪ replay_devices (retained_replays cutoff (fe_replay e)) in
    is_Some (fe_sources e !! fo_source o) /\
    msize (retained_replays cutoff (fe_replay e)) < max_replay_ids (fe_cfg e) /\
    (device_to_string (fo_device_id o) ∈ active \/ Z.of_nat (size active) < max_devices (fe_cfg e)) /\
    (is_Some (fe_seconds e !! key) \/ msize (fe_seconds e) < max_open_rows (fe_cfg e)) /\
    add_bytes (default zero_bytes (fe_seconds e !! key)) (fo_upload o) (fo_download o) = Ok value /\
    e' = {| fe_cfg := fe_cfg e; fe_sources := fe_sources e; fe_seconds := <[key := value]> (fe_seconds e);
            fe_replay := <[fo_replay_id o := {| re_arrival := fo_arrival_time o;
                             re_device := device_to_string (fo_device_id o) |}]> (retained_replays cutoff (fe_replay e));
            fe_devices := {[device_to_string (fo_device_id o)]} ∪ active; fe_last_arrival := Some (fo_arrival_time o);
            fe_watermark := fe_watermark e; fe_emitted := fe_emitted e |}.
Proof.
  unfold observe. intros (kind & Hkind & Hk)%result_bind_ok. destruct (fo_interface o =? 0); [done|].
  apply result_bind_ok in Hk as (sum & _ & Hk). apply result_bind_ok in Hk as (epoch & He & Hk).
  apply result_bind_ok in Hk as (cutoff & Hc & Hk). apply result_bind_ok in Hk as (work & _ & Hk).
  destruct (_ <? work); [done|]. destruct (is_some_and _ (fe_replay e !! _)) eqn:Hr; [done|].
  destruct (_ <=? msize (retained_replays _ _)) eqn:Hcap; [done|]. apply result_bind_ok in Hk as (md & _ & Hk).
  destruct (bool_decide _ && (max_devices _ <=? _)) eqn:Hdev; [done|].
  destruct (bool_decide _ && (max_open_rows _ <=? _)) eqn:Hrows; [done|].
  apply result_bind_ok in Hk as (value & Hv & [= <-]).
  destruct (checked_sub_signed _ _) as [c|]; simplify_eq/=. destruct (fe_sources e !! _) eqn:Hs; simplify_eq/=.
  exists epoch, md, value, cutoff. bprop. split_and!; try done.
  - intros r Hr'. rewrite Hr' in Hr. simpl in Hr. by bprop.
  - apply andb_false_iff in Hdev as [Hd|Hd]; bprop; [left; by apply dec_stable|by right].
  - apply andb_false_iff in Hrows as [Hd|Hd]; bprop; [left; by apply not_eq_None_Some|by right].
Qed.
Inductive flow_step : FlowEngine -> FlowEngine -> Prop :=
  | step_observe e o e' : observe e o = Ok e' -> flow_step e e'
  | step_advance e next now cs e' : advance_watermark_at e next now = Ok (cs, e') -> flow_step e e'.

(** ** The refinement *)
Definition whole (t : DateTime) : Prop := exists s, t = seconds s.

(** The ledger after an advance: the selected seconds entered without retiring anything. *)
Definition ledger_step (U : gmap RollupKey Rollup) (e : FlowEngine) (next : DateTime) : gmap RollupKey Rollup :=
  match (let? sel := select_seconds (fe_seconds e) (fe_sources e) next in
         propose U (in_order second_cmp (map_to_list sel))) with
  | Ok U' => U'
  | Err _ => U
  end.

(** An engine run on whole-second watermarks together with its ledger. *)
Inductive flow_run (cfg : FlowEngineConfig) (regs : list SourceRegistration)
  : FlowEngine -> gmap RollupKey Rollup -> Prop :=
  | run_new e : flow_new cfg regs = Ok e -> flow_run cfg regs e ∅
  | run_observe e U o e' : flow_run cfg regs e U -> observe e o = Ok e' -> flow_run cfg regs e' U
  | run_advance e U next now cs e' :
      flow_run cfg regs e U -> whole next -> advance_watermark_at e next now = Ok (cs, e') ->
      flow_run cfg regs e' (ledger_step U e next).

Record run_inv (e : FlowEngine) (U : gmap RollupKey Rollup) : Prop := {
  ri_synced : synced (retired_opt (lateness (fe_cfg e)) (fe_watermark e)) (fe_emitted e) U;
  ri_conserved : conserved U;
  ri_open : forall k b, fe_seconds e !! k = Some b ->
    correctable (lateness (fe_cfg e)) (fe_watermark e) (sk_epoch (ss_base k));
  ri_window : lateness (fe_cfg e) <= correction_retention (fe_cfg e)
}.

Lemma conserved_empty : conserved ∅.
Proof. intros f P _ _. unfold bytes_at, total. by rewrite lookup_empty, map_fold_empty. Qed.

Lemma flow_new_ok cfg regs e :
  flow_new cfg regs = Ok e -> config_invalid cfg = false /\
  exists sources, e = {| fe_cfg := cfg; fe_sources := sources; fe_seconds := ∅; fe_replay := ∅;
    fe_devices := ∅; fe_last_arrival := None; fe_watermark := None; fe_emitted := ∅ |}.
Proof.
  unfold flow_new. destruct (config_invalid cfg); [done|]. intros (sources & _ & Hk)%result_bind_ok.
  destruct (_ <? _); [done|]. destruct (_ =? _); [done|]. injection Hk as <-. eauto.
Qed.

Lemma run_inv_observe e U o e' : run_inv e U -> observe e o = Ok e' -> run_inv e' U.
Proof.
  intros [Hs Hc Ho Hwin] (epoch & md & value & cutoff & Ht & _ & _ & _ & _ & _ & _ & _ & ->)%observe_ok.
  apply time_gates_ok in Ht as (_ & _ & _ & _ & Hcor). split; try done. cbn [fe_seconds fe_cfg fe_watermark].
  intros k b [[<- _]|[_ Hk]]%lookup_insert_Some; [done|by eapply Ho].
Qed.

Lemma kept_correctable next late retention cutoff epoch :
  whole next -> whole late -> late <= retention -> checked_sub_signed next (Z.min retention late) = Some cutoff ->
  is_some_and (fun x => timestamp cutoff <=? x) (checked_add_i64 epoch 1) = true ->
  correctable late (Some next) epoch.
Proof.
  intros [n ->] [l ->] Hle Hc Hk w' [= <-]. rewrite Z.min_r in Hc by done.
  unfold checked_sub_signed in Hc. apply checked_add_some in Hc as [-> _].
  unfold checked_add_i64 in Hk. destruct (in_i64 _); [|done]. simpl in Hk. bprop.
  replace (seconds n + - seconds l) with (seconds (n - l)) in Hk by (unfold seconds; lia).
  rewrite timestamp_seconds in Hk. unfold seconds. lia.
Qed.

Lemma run_inv_advance e U next now cs e' :
  run_inv e U -> whole (lateness (fe_cfg e)) -> whole next -> advance_watermark_at e next now = Ok (cs, e') ->
  run_inv e' (ledger_step U e next).
Proof.
  intros [Hs Hc Ho Hwin] Hlate Hnext (cutoff & sel & p & work & rc & Hcut & Hmono & _ & _ & Hsel & Hp & He & _ & _ & Hsec & _ & _ & Hcfg & _ & Hw & _)%advance_ok.
  set (l := in_order second_cmp (map_to_list sel)) in *.
  destruct (propose_synced (retired_opt (lateness (fe_cfg e)) (fe_watermark e)) l (fe_emitted e) U p) as (U' & HU & HsU); [done| |done|].
  { intros base v Hin res d. apply in_sorted_map in Hin.
    destruct (select_seconds_base _ _ _ _ _ _ Hsel Hin) as (k & b & Hk & <-).
    apply correctable_not_retired. by eapply Ho. }
  assert (ledger_step U e next = U') as ->.
  { unfold ledger_step. rewrite Hsel. cbn [result_bind]. fold l. by rewrite HU. }
  split; rewrite ?Hcfg, ?Hw; [|by eapply propose_conserved| |done].
  - intros k. rewrite He. apply option_eq. intros v. rewrite map_lookup_filter_Some, (HsU k). cbn [fst retired_opt is_some_and].
    destruct (retired k next (lateness (fe_cfg e))) eqn:Hr; [by split; [intros []|]|].
    replace (retired_opt _ (fe_watermark e) k) with false; [tauto|].
    symmetry. destruct (fe_watermark e) as [w0|]; [|done]. simpl. apply not_true_is_false. intros Hr0.
    rewrite (retired_mono _ w0 next k) in Hr; [done|by apply Hmono|done].
  - intros k b Hk. rewrite Hsec in Hk. apply map_lookup_filter_Some in Hk as [_ Hk]. simpl in Hk.
    by eapply kept_correctable.
Qed.

Lemma flow_run_inv cfg regs e U : whole (lateness cfg) -> flow_run cfg regs e U -> run_inv e U /\ fe_cfg e = cfg.
Proof.
  intros Hl. induction 1 as [e He|e U o e' _ [IH Hcfg] Ho|e U next now cs e' _ [IH Hcfg] Hw Ha].
  - apply flow_new_ok in He as (Hcfg & sources & ->). split; [|done]. split; simpl.
    + intros k. by rewrite !lookup_empty.
    + apply conserved_empty.
    + intros k b. by rewrite lookup_empty.
    + unfold config_invalid in Hcfg. bprop. done.
  - split; [by eapply run_inv_observe|]. by apply observe_ok in Ho as (? & ? & ? & ? & _ & _ & _ & _ & _ & _ & _ & _ & ->).
  - split; [eapply run_inv_advance; [done|by rewrite Hcfg|done|done]|].
    by apply advance_ok in Ha as (? & ? & ? & ? & ? & _ & _ & _ & _ & _ & _ & _ & _ & _ & _ & _ & _ & -> & _).
Qed.

(** ** Bounds *)
Record flow_inv (e : FlowEngine) : Prop := {
  fi_rows : msize (fe_seconds e) <= max_open_rows (fe_cfg e);
  fi_replay : msize (fe_replay e) <= max_replay_ids (fe_cfg e);
  fi_devices_bound : Z.of_nat (size (fe_devices e)) <= max_devices (fe_cfg e);
  fi_emitted : msize (fe_emitted e) <= max_finalized_rows (fe_cfg e);
  fi_devices : fe_devices e = second_devices (fe_seconds e) ∪ replay_devices (fe_replay e);
  fi_sources : forall k b, fe_seconds e !! k = Some b -> is_Some (fe_sources e !! ss_source k);
  fi_clock : forall i r, fe_replay e !! i = Some r -> exists la, fe_last_arrival e = Some la /\ re_arrival r <= la
}.

Lemma elem_of_second_devices m d :
  d ∈ second_devices m <-> exists k b, m !! k = Some b /\ sk_device (ss_base k) = d.
Proof.
  unfold second_devices. rewrite elem_of_list_to_set, list_elem_of_In, in_map_iff. split.
  - intros ([k b] & <- & Hin). apply list_elem_of_In, elem_of_map_to_list in Hin. eauto.
  - intros (k & b & Hk & <-). exists (k, b). split; [done|]. by apply list_elem_of_In, elem_of_map_to_list.
Qed.

Lemma elem_of_replay_devices m d :
  d ∈ replay_devices m <-> exists i r, m !! i = Some r /\ re_device r = d.
Proof.
  unfold replay_devices. rewrite elem_of_list_to_set, list_elem_of_In, in_map_iff. split.
  - intros ([k b] & <- & Hin). apply list_elem_of_In, elem_of_map_to_list in Hin. eauto.
  - intros (k & b & Hk & <-). exists (k, b). split; [done|]. by apply list_elem_of_In, elem_of_map_to_list.
Qed.

Lemma second_devices_mono m m' : m ⊆ m' -> second_devices m ⊆ second_devices m'.
Proof.
  intros Hm d. rewrite !elem_of_second_devices. intros (k & b & Hk & Hd). exists k, b. split; [|done].
  by eapply lookup_weaken.
Qed.
Lemma replay_devices_mono m m' : m ⊆ m' -> replay_devices m ⊆ replay_devices m'.
Proof.
  intros Hm d. rewrite !elem_of_replay_devices. intros (k & b & Hk & Hd). exists k, b. split; [|done].
  by eapply lookup_weaken.
Qed.

Lemma second_devices_insert m k b :
  second_devices (<[k := b]> m) = {[sk_device (ss_base k)]} ∪ second_devices m.
Proof.
  apply set_eq. intros d. rewrite elem_of_union, elem_of_singleton, !elem_of_second_devices. split.
  - intros (k' & b' & [[<- _]|[_ Hk]]%lookup_insert_Some & <-); eauto 10.
  - intros [->|(k' & b' & Hk & <-)]; [exists k, b; by rewrite lookup_insert_eq|].
    destruct (decide (k = k')) as [<-|]; [exists k, b; by rewrite lookup_insert_eq|].
    exists k', b'. by rewrite lookup_insert_ne.
Qed.

Lemma replay_devices_insert m i r :
  m !! i = None -> replay_devices (<[i := r]> m) = {[re_device r]} ∪ replay_devices m.
Proof.
  intros Hi. apply set_eq. intros d. rewrite elem_of_union, elem_of_singleton, !elem_of_replay_devices. split.
  - intros (k' & b' & [[<- <-]|[_ Hk]]%lookup_insert_Some & <-); eauto 10.
  - intros [->|(k' & b' & Hk & <-)]; [exists i, r; by rewrite lookup_insert_eq|].
    exists k', b'. rewrite lookup_insert_ne; [done|congruence].
Qed.

Lemma retained_subseteq cutoff m : retained_replays cutoff m ⊆ m.
Proof. apply map_filter_subseteq. Qed.

Lemma msize_mono {K V} `{Countable K} (m m' : gmap K V) : m ⊆ m' -> msize m <= msize m'.
Proof. intros Hm. unfold msize. apply inj_le, map_subseteq_size, Hm. Qed.

Lemma msize_insert {K V} `{Countable K} (m : gmap K V) k v :
  msize (<[k := v]> m) <= msize m + 1 /\ (is_Some (m !! k) -> msize (<[k := v]> m) = msize m).
Proof. unfold msize. rewrite map_size_insert. destruct (m !! k); split; [cbn; lia|done|lia|by intros []]. Qed.

Lemma flow_inv_new cfg regs e : flow_new cfg regs = Ok e -> (forall n, n = max_open_rows cfg \/ n = max_replay_ids cfg \/
  n = max_devices cfg \/ n = max_finalized_rows cfg -> 0 <= n) -> flow_inv e.
Proof.
  intros (_ & sources & ->)%flow_new_ok Hn. split; cbn; try (apply Hn; tauto); [|by intros ???|by intros ???].
  apply set_eq. intros d. rewrite elem_of_union, elem_of_second_devices, elem_of_replay_devices. set_solver.
Qed.

Lemma flow_inv_observe e o e' : flow_inv e -> observe e o = Ok e' -> flow_inv e'.
Proof.
  intros [Frows Freplay Fdevb Femit Fdev Fsrc Fclock] (epoch & md & value & cutoff & Ht & _ & Hold & Hsrc & Hrep & Hdev & Hrows & _ & ->)%observe_ok.
  apply time_gates_ok in Ht as (_ & Hla & _).
  set (d := device_to_string (fo_device_id o)) in *. set (ret := retained_replays cutoff (fe_replay e)) in *.
  set (key := {| ss_base := _ |}) in *. set (active := second_devices (fe_seconds e) ∪ replay_devices ret) in *.
  assert (ret !! fo_replay_id o = None) as Hnone.
  { apply eq_None_not_Some. intros [r Hr]. unfold ret, retained_replays in Hr. apply map_lookup_filter_Some in Hr as [Hr Hc].
    specialize (Hold r Hr). cbn in Hc. lia. }
  assert (active ⊆ fe_devices e) as Hact.
  { rewrite Fdev. unfold active. pose proof (replay_devices_mono _ _ (retained_subseteq cutoff (fe_replay e))). set_solver. }
  split; cbn [fe_seconds fe_cfg fe_replay fe_devices fe_emitted fe_sources fe_last_arrival]; try done.
  - destruct (msize_insert (fe_seconds e) key value) as [Hle Heq]. destruct Hrows as [Hs|Hs]; [rewrite Heq by done|]; lia.
  - pose proof (msize_insert ret (fo_replay_id o) {| re_arrival := fo_arrival_time o; re_device := d |}) as [Hle _]. lia.
  - destruct (decide (d ∈ active)) as [Hin|Hnin].
    + replace ({[d]} ∪ active) with active by set_solver. pose proof (subseteq_size _ _ Hact). lia.
    + rewrite size_union, size_singleton by set_solver. destruct Hdev; [done|lia].
  - rewrite second_devices_insert, replay_devices_insert by done. cbn. fold d. unfold active. set_solver.
  - intros k b [[<- _]|[_ Hk]]%lookup_insert_Some; [done|by eapply Fsrc].
  - intros i r Hi. eexists. split; [done|]. apply lookup_insert_Some in Hi as [[_ <-]|[_ Hi]]; [cbn; lia|].
    unfold ret, retained_replays in Hi. apply map_lookup_filter_Some in Hi as [Hi _].
    destruct (Fclock _ _ Hi) as (la & Hl & Hr). specialize (Hla la Hl). lia.
Qed.

Lemma flow_inv_advance e next now cs e' : flow_inv e -> advance_watermark_at e next now = Ok (cs, e') -> flow_inv e'.
Proof.
  intros [Frows Freplay Fdevb Femit Fdev Fsrc Fclock] (cutoff & sel & p & work & rc & _ & _ & Hla & _ & _ & _ & _ & Hfin & _ & Hsec & Hrep & Hdev & Hcfg & Hsrc & _ & Hlast)%advance_ok.
  assert (fe_seconds e' ⊆ fe_seconds e) as Hss by (rewrite Hsec; apply map_filter_subseteq).
  assert (fe_replay e' ⊆ fe_replay e) as Hrs by (rewrite Hrep; apply retained_subseteq).
  split; rewrite ?Hcfg, ?Hsrc; try done.
  - pose proof (msize_mono _ _ Hss). lia.
  - pose proof (msize_mono _ _ Hrs). lia.
  - assert (fe_devices e' ⊆ fe_devices e) as Hd.
    { rewrite Hdev, Fdev. pose proof (second_devices_mono _ _ Hss). pose proof (replay_devices_mono _ _ Hrs). set_solver. }
    pose proof (subseteq_size _ _ Hd). lia.
  - intros k b Hk. eapply Fsrc. by eapply lookup_weaken.
  - intros i r Hi. rewrite Hlast. eexists. split; [done|].
    destruct (Fclock i r) as (la & Hl & Hr); [by eapply lookup_weaken|]. specialize (Hla la Hl). lia.
Qed.

Lemma flow_step_cfg e e' : flow_step e e' -> fe_cfg e' = fe_cfg e.
Proof.
  destruct 1 as [e o e' Ho|e next now cs e' Ha].
  - by apply observe_ok in Ho as (? & ? & ? & ? & _ & _ & _ & _ & _ & _ & _ & _ & ->).
  - by apply advance_ok in Ha as (? & ? & ? & ? & ? & _ & _ & _ & _ & _ & _ & _ & _ & _ & _ & _ & _ & -> & _).
Qed.

Definition limits_nonneg (cfg : FlowEngineConfig) : Prop :=
  0 <= max_open_rows cfg /\ 0 <= max_replay_ids cfg /\ 0 <= max_devices cfg /\ 0 <= max_finalized_rows cfg.

(** In every engine that observations and watermarks reach, the open rows, the replay
    identifiers, the active devices and the retained rollups stay within their configured
    limits, the active devices are exactly those of the open rows and replay entries, every
    open row has a registered source, and no replay entry is ahead of the trusted clock. *)
Theorem flow_engine_invariant cfg regs e0 e :
  flow_new cfg regs = Ok e0 -> limits_nonneg cfg -> rtc flow_step e0 e -> flow_inv e /\ fe_cfg e = cfg.
Proof.
  intros Hnew (H1 & H2 & H3 & H4) Hs. assert (flow_inv e0) as H0' by (eapply flow_inv_new; [done|]; intros n [->|[->|[->| ->]]]; done).
  assert (fe_cfg e0 = cfg) as Hcfg by (by apply flow_new_ok in Hnew as (_ & ? & ->)).
  clear Hnew. induction Hs as [|x y z Hxy _ IH]; [done|]. apply IH; [|by rewrite (flow_step_cfg _ _ Hxy)].
  destruct Hxy; eauto using flow_inv_observe, flow_inv_advance.
Qed.

(** ** Replays *)
Definition remembers (id : ReplayId) (a : DateTime) (e : FlowEngine) : Prop :=
  (exists la, fe_last_arrival e = Some la /\ a <= la) /\
  ((exists r, fe_replay e !! id = Some r /\ a <= re_arrival r) \/
   exists la, fe_last_arrival e = Some la /\ a + replay_ttl (fe_cfg e) < la).

Lemma retained_or_expired cutoff ttl now id a m r :
  checked_sub_signed now ttl = Some cutoff -> m !! id = Some r -> a <= re_arrival r ->
  retained_replays cutoff m !! id = Some r \/ a + ttl < now.
Proof.
  intros Hc Hr Ha. unfold checked_sub_signed in Hc. apply checked_add_some in Hc as [-> _].
  destruct (decide (now + - ttl <= re_arrival r)); [left|right; lia].
  unfold retained_replays. by apply map_lookup_filter_Some.
Qed.

Lemma remembers_step id a e e' : flow_step e e' -> remembers id a e -> remembers id a e'.
Proof.
  intros Hs [(la & Hla & Hle) Hr]. pose proof (flow_step_cfg _ _ Hs) as Hcfg. unfold remembers. rewrite Hcfg.
  destruct Hs as [e o e' (epoch & md & value & cutoff & Ht & Hc & _ & _ & _ & _ & _ & _ & ->)%observe_ok
                 |e next now cs e' (cutoff & sel & p & work & rc & _ & _ & Hmono & Hrc & _ & _ & _ & _ & _ & _ & Hrep & _ & _ & _ & _ & Hlast)%advance_ok].
  - apply time_gates_ok in Ht as (_ & Hmono & _). specialize (Hmono la Hla). cbn [fe_last_arrival fe_replay].
    split; [eexists; split; [done|lia]|]. destruct Hr as [(r & Hr & Ha)|(la' & Hla' & Hlt)].
    + destruct (decide (fo_replay_id o = id)) as [<-|Hne].
      * left. rewrite lookup_insert_eq. eexists. split; [done|]. cbn. lia.
      * destruct (retained_or_expired _ _ _ _ _ _ _ Hc Hr Ha) as [Hk|Hlt]; [left|right; eauto].
        exists r. by rewrite lookup_insert_ne.
    + right. rewrite Hla in Hla'. injection Hla' as <-. eexists. split; [done|lia].
  - specialize (Hmono la Hla). rewrite Hlast, Hrep. split; [eexists; split; [done|lia]|].
    destruct Hr as [(r & Hr & Ha)|(la' & Hla' & Hlt)].
    + destruct (retained_or_expired _ _ _ _ _ _ _ Hrc Hr Ha) as [Hk|Hlt]; [left; eauto|right; eauto].
    + right. rewrite Hla in Hla'. injection Hla' as <-. eexists. split; [done|lia].
Qed.

(** An accepted event is never counted twice: while the replay period covers the lateness,
    the allowed future skew and the second itself, no later engine accepts an observation with
    the same replay identifier for the same second. *)
Theorem accepted_event_not_counted_twice e o e1 e2 o2 :
  observe e o = Ok e1 -> rtc flow_step e1 e2 ->
  lateness (fe_cfg e) + future_skew (fe_cfg e) + seconds 1 <= replay_ttl (fe_cfg e) ->
  fo_replay_id o2 = fo_replay_id o -> timestamp (fo_event_time o2) = timestamp (fo_event_time o) ->
  is_ok (observe e2 o2) = false.
Proof.
  intros Ho Hs Httl Hid Hev. assert (fe_cfg e1 = fe_cfg e) as Hcfg1 by (eapply flow_step_cfg, step_observe; done).
  assert (remembers (fo_replay_id o) (fo_arrival_time o) e1 /\
          fo_event_time o <= fo_arrival_time o + future_skew (fe_cfg e)) as [Hrem Hskew].
  { apply observe_ok in Ho as (epoch & md & value & cutoff & Ht & _ & _ & _ & _ & _ & _ & _ & ->).
    apply time_gates_ok in Ht as (_ & _ & Hsk & _). split; [|done]. cbn. split; [eexists; split; [done|lia]|].
    left. eexists. cbn. rewrite lookup_insert_eq. split; [done|]. cbn. lia. }
  assert (remembers (fo_replay_id o) (fo_arrival_time o) e2 /\ fe_cfg e2 = fe_cfg e) as [[(la & Hla & Hle) Hmem] Hcfg2].
  { clear Ho. induction Hs as [|x y z Hxy _ IH]; [done|]. apply IH; [by rewrite (flow_step_cfg _ _ Hxy)|by eapply remembers_step]. }
  destruct (observe e2 o2) as [e3|] eqn:Ho2; [|done]. exfalso.
  apply observe_ok in Ho2 as (epoch & md & value & cutoff & Ht & Hc & Hold & _).
  apply time_gates_ok in Ht as (-> & Hmono & _ & Hlate & _). rewrite Hcfg2, Hev in Hlate. specialize (Hmono la Hla).
  assert (fo_arrival_time o + replay_ttl (fe_cfg e) < fo_arrival_time o2) as Hexp.
  { destruct Hmem as [(r & Hr & Ha)|(la' & Hla' & Hlt)].
    - rewrite <- Hid in Hr. specialize (Hold r Hr). unfold checked_sub_signed in Hc. apply checked_add_some in Hc as [-> _].
      rewrite Hcfg2 in Hold. lia.
    - rewrite Hla in Hla'. injection Hla' as <-. rewrite Hcfg2 in Hlt. lia. }
  assert (seconds (timestamp (fo_event_time o)) <= fo_event_time o) as Hfloor.
  { unfold seconds, timestamp. pose proof (Z.mul_div_le (fo_event_time o) 1000000000). lia. }
  unfold seconds in *. lia.
Qed.
End Theorems.

(** ** Flow aggregation: concrete runs

    The theorems at a concrete engine, and three runs in which the totals of an accepted event
    are wrong: a watermark with a fraction of a second, a correction on the last instant of
    its window, and a replay period no longer than the lateness. *)

(** An identifier written as so many letters. *)
Fixpoint letters (n : nat) : string :=
  match n with O => EmptyString | S n' => String "a" (letters n') end.

Lemma letters_length n : String.length (letters n) = n.
Proof. induction n; simpl; congruence. Qed.

#[local] Program Instance letter_text : DeviceText := {|
  device_to_string d := letters (N.to_nat d);
  device_parse s := Some (N.of_nat (String.length s))
|}.
Next Obligation. intros d. simpl. by rewrite letters_length, N2Nat.id. Qed.

Definition gateway_only : list SourceRegistration := [verified_gateway 1].

(** Millisecond [ms] after the epoch. *)
Definition at_ms (ms : Z) : DateTime := ms * 1000000.

Definition flow_obs (replay event arrival bytes : Z) : FlowObservation := {|
  fo_replay_id := replay; fo_event_time := at_ms event; fo_arrival_time := at_ms arrival;
  fo_device_id := 3%N; fo_upload := bytes; fo_download := 1; fo_protocol := Tcp; fo_destination := Internet;
  fo_interface := 1; fo_source := 1; fo_metadata := None |}.

Definition or_else {A E} (d : A) (r : result A E) : A := match r with Ok a => a | Err _ => d end.

Lemma or_else_ok {A E} (d : A) (r : result A E) : is_ok r = true -> r = Ok (or_else d r).
Proof. by destruct r. Qed.

Definition start (cfg : FlowEngineConfig) : FlowEngine :=
  or_else {| fe_cfg := cfg; fe_sources := ∅; fe_seconds := ∅; fe_replay := ∅; fe_devices := ∅;
             fe_last_arrival := None; fe_watermark := None; fe_emitted := ∅ |} (flow_new cfg gateway_only).
Definition see (o : FlowObservation) (e : FlowEngine) : FlowEngine := or_else e (observe e o).
Definition tick (ms : Z) (e : FlowEngine) : list RollupChange * FlowEngine :=
  or_else ([], e) (advance_watermark_at e (at_ms ms) (at_ms ms)).

(** A consumer that stores upserts and corrections and ignores cache retirements. *)
Definition store_change (t : gmap RollupKey Rollup) (c : RollupChange) : gmap RollupKey Rollup :=
  match c with Upsert r | Correction r => <[ro_key r := r]> t | Retire _ => t end.
Definition store_changes (cs : list RollupChange) (t : gmap RollupKey Rollup) := fold_left store_change cs t.

Definition row_key (res : Resolution) (s : Z) : RollupKey := {|
  rk_resolution := res; rk_bucket := seconds s; rk_device_id := 3%N; rk_protocol := Tcp;
  rk_destination := Internet; rk_interface := 1; rk_metadata := None |}.

Definition short_ttl : FlowEngineConfig := {|
  lateness := seconds 5; future_skew := seconds 5; replay_ttl := seconds 5;
  correction_retention := hours 24; retain_destination_metadata := false; max_domain_bytes := 253;
  max_devices := 1024; max_sources := 64; max_open_rows := 4096; max_replay_ids := 8192;
  max_finalized_rows := 65536; max_outputs_per_call := 16384; max_work_per_call := 262144 |}.

Definition seen_once : FlowEngine := see (flow_obs 1 10000 10000 7) (start default_flow_config).

(** Two watermarks 0.2 s apart inside one second. *)
Definition fractional_run : FlowEngine := snd (tick 16700 (snd (tick 16500 seen_once))).

(** A late event at the very edge of its correction window, and the durable rows after it. *)
Definition edge_run : list RollupChange * list RollupChange :=
  let '(cs1, e1) := tick 16000 seen_once in
  let '(cs2, _) := tick 17000 (see (flow_obs 2 10000 16000 5) e1) in (cs1, cs2).
Definition edge_table : gmap RollupKey Rollup := store_changes (snd edge_run) (store_changes (fst edge_run) ∅).

(** The same event twice. *)
Definition replayed : result FlowEngine FlowError :=
  observe (see (flow_obs 1 10000 10000 7) (start short_ttl)) (flow_obs 1 10000 15500 7).

(** Three runs in which an event is not counted once: after two watermarks inside one
    second a single observation of 7 bytes makes its minute 14; a correction of 5 bytes
    accepted on the last instant of its window reaches the durable minute row but not the
    durable second row; and with a replay period equal to the lateness the same event is
    accepted twice. *)
Theorem flow_totals_can_go_wrong :
  bytes_at upload (fe_emitted fractional_run) (row_key Minute 0) = 14 /\
  bytes_at upload edge_table (row_key Second 10) = 7 /\ bytes_at upload edge_table (row_key Minute 0) = 12 /\
  is_ok replayed = true.
Proof. repeat split; vm_compute; reflexivity. Qed.

(** ** Witnesses *)
Definition two_sources : gmap FlowSourceId VisibilityKind := <[1 := LocalCollector]> (<[2 := Gateway]> ∅).
Definition one_second (source : FlowSourceId) : SourceSecondKey := {|
  ss_base := {| sk_epoch := 10; sk_device := "aaa"; sk_protocol := Tcp; sk_destination := Internet;
                sk_interface := 1; sk_metadata := None |}; ss_source := source |}.
Definition two_rows : gmap SourceSecondKey ByteCount :=
  <[one_second 1 := {| upload := 4; download := 0 |}]> (<[one_second 2 := {| upload := 9; download := 0 |}]> ∅).

Definition best_rows : gmap SecondKey Value := or_else ∅ (select_seconds two_rows two_sources (seconds 11)).

Lemma second_from_best_source_witness :
  match best_rows !! ss_base (one_second 1) with
  | Some v => exists id, two_rows !! {| ss_base := ss_base (one_second 1); ss_source := id |} = Some (va_bytes v)
  | None => False
  end.
Proof.
  assert (select_seconds two_rows two_sources (seconds 11) = Ok best_rows) as Hsel
    by (apply or_else_ok; vm_compute; reflexivity).
  assert (match best_rows !! ss_base (one_second 1) with Some _ => true | None => false end = true) as Hsome
    by (vm_compute; reflexivity).
  pose proof (second_from_best_source two_rows two_sources (seconds 11) best_rows (ss_base (one_second 1)) Hsel) as Hbest.
  destruct (best_rows !! ss_base (one_second 1)); [|discriminate Hsome].
  destruct Hbest as (id & kind & _ & Hm & _). exists id. exact Hm.
Defined.

Definition new_engine : FlowEngine := start default_flow_config.
Lemma new_engine_ok : flow_new default_flow_config gateway_only = Ok new_engine.
Proof. apply or_else_ok. vm_compute. reflexivity. Qed.
Lemma seen_once_ok : observe new_engine (flow_obs 1 10000 10000 7) = Ok seen_once.
Proof. apply or_else_ok. vm_compute. reflexivity. Qed.
Definition closed_once : FlowEngine := snd (tick 11000 seen_once).
Lemma closed_once_ok :
  advance_watermark_at seen_once (at_ms 11000) (at_ms 11000) = Ok (fst (tick 11000 seen_once), closed_once).
Proof.
  unfold closed_once. rewrite <- surjective_pairing. apply or_else_ok. vm_compute. reflexivity.
Qed.


Lemma flow_engine_invariant_witness : flow_inv seen_once /\ fe_cfg seen_once = default_flow_config.
Proof.
  apply (flow_engine_invariant default_flow_config gateway_only new_engine seen_once).
  - apply new_engine_ok.
  - repeat split; vm_compute; discriminate.
  - apply rtc_once. eapply step_observe, seen_once_ok.
Defined.

Lemma accepted_event_not_counted_twice_witness :
  is_ok (observe closed_once (flow_obs 1 10400 16000 7)) = false.
Proof.
  apply (accepted_event_not_counted_twice new_engine (flow_obs 1 10000 10000 7) seen_once closed_once).
  - apply seen_once_ok.
  - apply rtc_once. eapply step_advance, closed_once_ok.
  - vm_compute. discriminate.
  - reflexivity.
  - vm_compute. reflexivity.
Defined.
