(* ===== verification/Neighbor.v ===== *)
(** * Neighbour tables: data and operations

    crates/lattice-sensor/src/neighbor.rs: link addresses, the normalisation of raw neighbour
    rows, the decoding of kernel messages, and the tracker that turns successive snapshots
    into appearances, confirmations, misses and departures. The byte arrays are lists of
    bytes; the netlink crate's types are given by the variants that the code matches and one
    for all others. Reading the tables themselves is operating-system I/O. *)

From S2P Require Import Prelude Order Time Text Bytes Net.

(** ** Link addresses and rows *)
Definition LinkAddress : Type := list Z.

Inductive NeighborError :=
  | InvalidLinkAddress | InvalidIp | InvalidConfig | NCapacity | ConflictingDuplicate
  | ClockRollback | Transport | Malformed.

(** [LinkAddress::valid]: neither zero nor broadcast nor a group address. *)
Definition link_valid (a : LinkAddress) : bool :=
  bool_decide (a <> repeat 0 6) && bool_decide (a <> repeat 255 6) && (Z.land (hd 0 a) 1 =? 0).

Definition link_try_from (v : list Z) : result LinkAddress NeighborError :=
  if link_valid v then Ok v else Err InvalidLinkAddress.

Inductive NeighborReachability :=
  | Reachable | Stale | Delay | Probe | Permanent | Incomplete | NFailed | NoArp | UnknownReachability.
#[global] Instance NeighborReachability_eq_dec : EqDecision NeighborReachability.
Proof. solve_decision. Defined.

Definition is_present (r : NeighborReachability) : bool :=
  match r with Reachable | Stale | Delay | Probe | Permanent | NoArp => true | _ => false end.

Record NeighborRow := {
  nr_interface : InterfaceId;
  nr_ip : IpAddr;
  nr_link_address : LinkAddress;
  nr_reachability : NeighborReachability
}.
#[global] Instance NeighborRow_eq_dec : EqDecision NeighborRow.
Proof. solve_decision. Defined.

(** [Ipv4Addr::is_unspecified], [is_loopback], [is_multicast]. *)
Definition is_unspecified_v4 (a : Z) : bool := a =? 0.
Definition is_loopback_v4 (a : Z) : bool := octet a 0 =? 127.
Definition is_multicast_v4 (a : Z) : bool := (224 <=? octet a 0) && (octet a 0 <=? 239).
(** [Ipv6Addr::is_unique_local] *)
Definition is_unique_local (a : Z) : bool := Z.land (Z.shiftr a 112) 65024 =? 64512.

Definition valid_ip (ip : IpAddr) : bool :=
  match ip with
  | V4 x => (is_private_v4 x || is_link_local_v4 x) && negb (is_unspecified_v4 x)
            && negb (is_loopback_v4 x) && negb (is_multicast_v4 x) && negb (x =? v4 255 255 255 255)
  | V6 x => (is_unique_local x || is_unicast_link_local x) && negb (is_unspecified_v6 x)
            && negb (is_loopback_v6 x) && negb (is_multicast_v6 x)
  end.

Definition row_new (interface : InterfaceId) (ip : IpAddr) (link : LinkAddress)
    (reachability : NeighborReachability) : result NeighborRow NeighborError :=
  if negb (valid_ip ip) then Err InvalidIp
  else Ok {| nr_interface := interface; nr_ip := ip; nr_link_address := link; nr_reachability := reachability |}.

(** ** Snapshots *)
Record NeighborSnapshotConfig := {
  ns_max_rows : Z;
  ns_allowed_interfaces : gset InterfaceId;
  ns_max_raw_messages : Z
}.
Definition RAW_MESSAGES_PER_ROW : Z := 4.

Definition snapshot_config_new (max_rows : Z) (allowed : list InterfaceId)
  : result NeighborSnapshotConfig NeighborError :=
  let allowed_interfaces : gset InterfaceId := list_to_set allowed in
  if u64_max <? max_rows * RAW_MESSAGES_PER_ROW then Err InvalidConfig
  else if (max_rows =? 0) || bool_decide (allowed_interfaces = ∅) || bool_decide (0 ∈ allowed_interfaces)
  then Err InvalidConfig
  else Ok {| ns_max_rows := max_rows; ns_allowed_interfaces := allowed_interfaces;
             ns_max_raw_messages := max_rows * RAW_MESSAGES_PER_ROW |}.

Record RawNeighborRow := {
  rw_ifindex : Z;
  rw_family : Z;
  rw_address : list Z;
  rw_mac : list Z;
  rw_reachability : NeighborReachability
}.

Definition ADDRESS_FAMILY_INET : Z := 2.
Definition ADDRESS_FAMILY_INET6 : Z := 23.

Definition map_windows_state_code (state : Z) : NeighborReachability :=
  if state =? 0 then NFailed else if state =? 1 then Incomplete else if state =? 2 then Probe
  else if state =? 3 then Delay else if state =? 4 then Stale else if state =? 5 then Reachable
  else if state =? 6 then Permanent else UnknownReachability.

(** [to_ne_bytes] on the little-endian machines that run Windows. *)
Definition windows_address_to_raw (family ipv4_s_addr : Z) (ipv6_bytes : list Z)
  : result (list Z) NeighborError :=
  if family =? ADDRESS_FAMILY_INET then Ok (rev (be_bytes 4 ipv4_s_addr) ++ repeat 0 12)
  else if family =? ADDRESS_FAMILY_INET6 then Ok ipv6_bytes
  else Err Malformed.

(** The number that a big-endian byte array denotes. *)
Definition be_value (b : list Z) : Z := fold_left (fun a x => 256 * a + x) b 0.

Definition raw_ip (r : RawNeighborRow) : result IpAddr NeighborError :=
  if rw_family r =? ADDRESS_FAMILY_INET then Ok (V4 (be_value (take 4 (rw_address r))))
  else if rw_family r =? ADDRESS_FAMILY_INET6 then Ok (V6 (be_value (rw_address r)))
  else Err Malformed.

(** One raw row: skipped, refused or normalised. *)
Definition normalize_row (config : NeighborSnapshotConfig) (r : RawNeighborRow)
  : result (option NeighborRow) NeighborError :=
  if (rw_ifindex r =? 0) || negb (bool_decide (rw_ifindex r ∈ ns_allowed_interfaces config)) then Ok None
  else
    let? ip := raw_ip r in
    if negb (valid_ip ip) then Ok None
    else if negb (Nat.eqb (length (rw_mac r)) 6) then Err Malformed
    else if bool_decide (rw_mac r = repeat 255 6) || negb (Z.land (hd 0 (rw_mac r)) 1 =? 0) then Ok None
    else
      let? link := match link_try_from (rw_mac r) with Ok l => Ok l | Err _ => Err Malformed end in
      let? row := row_new (rw_ifindex r) ip link (rw_reachability r) in
      Ok (Some row).

Fixpoint normalize_loop (config : NeighborSnapshotConfig) (count : Z) (raw : list RawNeighborRow)
  : result (list NeighborRow) NeighborError :=
  match raw with
  | [] => Ok []
  | r :: raw' =>
    if u64_max <? count + 1 then Err NCapacity
    else if ns_max_raw_messages config <? count + 1 then Err NCapacity
    else
      let? o := normalize_row config r in
      let? rows := normalize_loop config (count + 1) raw' in
      Ok (match o with Some row => row :: rows | None => rows end)
  end.

Definition reachability_rank (v : NeighborReachability) : Z :=
  match v with
  | Reachable => 0 | Stale => 1 | Delay => 2 | Probe => 3 | Permanent => 4 | Incomplete => 5
  | NFailed => 6 | NoArp => 7 | UnknownReachability => 8
  end.

Definition link_cmp : LinkAddress -> LinkAddress -> comparison := list_cmp Z.compare.

Definition row_cmp (a b : NeighborRow) : comparison :=
  then_cmp (Z.compare (nr_interface a) (nr_interface b))
  (then_cmp (link_cmp (nr_link_address a) (nr_link_address b))
  (then_cmp (ip_cmp (nr_ip a) (nr_ip b))
  (Z.compare (reachability_rank (nr_reachability a)) (reachability_rank (nr_reachability b))))).

Definition normalize_raw_rows (config : NeighborSnapshotConfig) (raw : list RawNeighborRow)
  : result (list NeighborRow) NeighborError :=
  let? rows := normalize_loop config 0 raw in
  let rows := vec_dedup (sort_by row_cmp rows) in
  if ns_max_rows config <? Z.of_nat (length rows) then Err NCapacity else Ok rows.

(** ** Kernel messages *)
Inductive NeighbourState :=
  | KReachable | KStale | KDelay | KProbe | KPermanent | KIncomplete | KFailed | KNoarp | KOther.
Inductive NeighbourAddress := Inet (a : Z) | Inet6 (a : Z) | OtherAddress.
Inductive NeighbourAttribute := Destination (a : NeighbourAddress) | LinkLayerAddress (v : list Z) | OtherAttribute.
Record NeighbourMessage := {
  nm_ifindex : Z; nm_state : NeighbourState; nm_attributes : list NeighbourAttribute }.

Definition map_kernel_state (s : NeighbourState) : NeighborReachability :=
  match s with
  | KReachable => Reachable | KStale => Stale | KDelay => Delay | KProbe => Probe
  | KPermanent => Permanent | KIncomplete => Incomplete | KFailed => NFailed | KNoarp => NoArp
  | KOther => UnknownReachability
  end.

Fixpoint scan_attributes (ip : option IpAddr) (link : option (list Z)) (l : list NeighbourAttribute)
  : result (option IpAddr * option (list Z)) NeighborError :=
  match l with
  | [] => Ok (ip, link)
  | Destination a :: l' =>
    match ip, a with
    | Some _, _ => Err Malformed
    | None, Inet v => scan_attributes (Some (V4 v)) link l'
    | None, Inet6 v => scan_attributes (Some (V6 v)) link l'
    | None, OtherAddress => Err Malformed
    end
  | LinkLayerAddress v :: l' =>
    match link with
    | Some _ => Err Malformed
    | None => scan_attributes ip (Some v) l'
    end
  | OtherAttribute :: l' => scan_attributes ip link l'
  end.

Definition decode_linux_message_raw (config : NeighborSnapshotConfig) (m : NeighbourMessage)
  : result (option RawNeighborRow) NeighborError :=
  if nm_ifindex m =? 0 then Ok None
  else if negb (bool_decide (nm_ifindex m ∈ ns_allowed_interfaces config)) then Ok None
  else
    let? found := scan_attributes None None (nm_attributes m) in
    match found with
    | (Some ip, Some link) =>
      let '(family, address) := match ip with
        | V4 a => (ADDRESS_FAMILY_INET, be_bytes 4 a ++ repeat 0 12)
        | V6 a => (ADDRESS_FAMILY_INET6, be_bytes 16 a)
        end in
      Ok (Some {| rw_ifindex := nm_ifindex m; rw_family := family; rw_address := address;
                  rw_mac := link; rw_reachability := map_kernel_state (nm_state m) |})
    | _ => Ok None
    end.

Fixpoint decode_messages (config : NeighborSnapshotConfig) (count : Z) (l : list NeighbourMessage)
  : result (list RawNeighborRow) NeighborError :=
  match l with
  | [] => Ok []
  | m :: l' =>
    if u64_max <? count + 1 then Err NCapacity
    else if ns_max_raw_messages config <? count + 1 then Err NCapacity
    else
      let? o := decode_linux_message_raw config m in
      let? rows := decode_messages config (count + 1) l' in
      Ok (match o with Some row => row :: rows | None => rows end)
  end.

Definition normalize_linux_messages (config : NeighborSnapshotConfig) (l : list NeighbourMessage)
  : result (list NeighborRow) NeighborError :=
  let? raw := decode_messages config 0 l in
  normalize_raw_rows config raw.

(** ** The tracker *)
Record NeighborTrackerConfig := {
  nc_max_rows : Z; nc_max_devices : Z; nc_missed_snapshots_before_departure : Z }.
Definition default_tracker_config : NeighborTrackerConfig := {|
  nc_max_rows := 4096; nc_max_devices := 1024; nc_missed_snapshots_before_departure := 2 |}.

Record NeighborDevice := {
  nd_interface : InterfaceId; nd_link_address : LinkAddress; nd_addresses : list IpAddr }.

Inductive NeighborEvent :=
  | Appeared (device : NeighborDevice) (observed_at : DateTime)
  | Confirmed (device : NeighborDevice) (observed_at : DateTime)
  | Missed (device : NeighborDevice) (observed_at : DateTime) (consecutive_misses : Z)
  | Departed (device : NeighborDevice) (observed_at : DateTime).

Record TrackState := { ts_device : NeighborDevice; ts_missed : Z }.
Definition DeviceKey : Type := InterfaceId * LinkAddress.

Record NeighborTracker := {
  nt_cfg : NeighborTrackerConfig;
  nt_states : gmap DeviceKey TrackState;
  nt_last_observed_at : option DateTime
}.

Definition tracker_new (cfg : NeighborTrackerConfig) : result NeighborTracker NeighborError :=
  if (nc_max_rows cfg =? 0) || (nc_max_devices cfg =? 0) || (nc_missed_snapshots_before_departure cfg =? 0)
  then Err InvalidConfig
  else Ok {| nt_cfg := cfg; nt_states := ∅; nt_last_observed_at := None |}.

Definition device_key_cmp (a b : DeviceKey) : comparison :=
  then_cmp (Z.compare (fst a) (fst b)) (link_cmp (snd a) (snd b)).

(** Grouping the rows of a snapshot by device. *)
Fixpoint group_rows (rows : list NeighborRow) (grouped : gmap DeviceKey (list IpAddr))
    (ips : gmap (InterfaceId * IpAddr) LinkAddress) : result (gmap DeviceKey (list IpAddr)) NeighborError :=
  match rows with
  | [] => Ok grouped
  | r :: rows' =>
    if negb (valid_ip (nr_ip r)) then Err InvalidIp
    else if negb (link_valid (nr_link_address r)) then Err InvalidLinkAddress
    else if is_some_and (fun old => bool_decide (old <> nr_link_address r)) (ips !! (nr_interface r, nr_ip r))
    then Err ConflictingDuplicate
    else
      let ips := <[(nr_interface r, nr_ip r) := nr_link_address r]> ips in
      let key := (nr_interface r, nr_link_address r) in
      group_rows rows'
        (if is_present (nr_reachability r) then <[key := default [] (grouped !! key) ++ [nr_ip r]]> grouped
         else grouped) ips
  end.

Definition group_device (key : DeviceKey) (addrs : list IpAddr) : NeighborDevice := {|
  nd_interface := fst key; nd_link_address := snd key; nd_addresses := vec_dedup (sort_by ip_cmp addrs) |}.

(** The loop over the devices of the snapshot. *)
Fixpoint present_loop (at_ : DateTime) (l : list (DeviceKey * list IpAddr)) (next : gmap DeviceKey TrackState)
  : list NeighborEvent * gmap DeviceKey TrackState :=
  match l with
  | [] => ([], next)
  | (key, addrs) :: l' =>
    let device := group_device key addrs in
    let event := match next !! key with Some _ => Confirmed device at_ | None => Appeared device at_ end in
    let '(events, next') := present_loop at_ l' (<[key := {| ts_device := device; ts_missed := 0 |}]> next) in
    (event :: events, next')
  end.

(** The loop over the tracked devices that the snapshot lacks; the keys to remove come last. *)
Fixpoint absent_loop (limit : Z) (at_ : DateTime) (present : gset DeviceKey) (l : list (DeviceKey * TrackState))
    (next : gmap DeviceKey TrackState)
  : result (list NeighborEvent * gmap DeviceKey TrackState * list DeviceKey) NeighborError :=
  match l with
  | [] => Ok ([], next, [])
  | (key, s) :: l' =>
    if bool_decide (key ∈ present) then absent_loop limit at_ present l' next
    else
      let? missed := ok_or (checked_add_u64 (ts_missed s) 1) NCapacity in
      let departs := limit <=? missed in
      let? rest := absent_loop limit at_ present l'
                     (<[key := {| ts_device := ts_device s; ts_missed := missed |}]> next) in
      let '(events, next', departed) := rest in
      Ok (Missed (ts_device s) at_ missed
            :: (if departs then Departed (ts_device s) at_ :: events else events),
          next', if departs then key :: departed else departed)
  end.

Definition tracker_observe (t : NeighborTracker) (rows : list NeighborRow) (observed_at : DateTime)
  : result (list NeighborEvent * NeighborTracker) NeighborError :=
  let cfg := nt_cfg t in
  if is_some_and (fun last => observed_at <? last) (nt_last_observed_at t) then Err ClockRollback
  else if nc_max_rows cfg <? Z.of_nat (length rows) then Err NCapacity
  else
    let? grouped := group_rows rows ∅ ∅ in
    if nc_max_devices cfg <? Z.of_nat (size grouped) then Err NCapacity
    else
      let new_count := Z.of_nat (size (dom grouped ∖ dom (nt_states t))) in
      if is_none_or (fun n => nc_max_devices cfg <? n)
           (checked_add_u64 (Z.of_nat (size (nt_states t))) new_count) then Err NCapacity
      else
        let '(events, next) := present_loop observed_at (in_order device_key_cmp (map_to_list grouped)) (nt_states t) in
        let? rest := absent_loop (nc_missed_snapshots_before_departure cfg) observed_at (dom grouped)
                       (in_order device_key_cmp (map_to_list next)) next in
        let '(more, next', departed) := rest in
        Ok (events ++ more,
            {| nt_cfg := cfg; nt_states := fold_left (fun m k => delete k m) departed next';
               nt_last_observed_at := Some observed_at |}).
