(* ===== verification/NeighborProps.v ===== *)
(** * Neighbour tables: theorems

    A snapshot is a strictly ordered list of well-formed rows of allowed interfaces; the
    tracker is one small state machine per device, and a device departs exactly after the
    configured number of consecutive misses. *)

From S2P Require Import Prelude Time Text Order Bytes Net Neighbor.

(** ** Normalised rows *)
#[export] Instance row_cmp_order : CmpOrder row_cmp.
Proof.
  apply (cmp_order_inj (fun r => (nr_interface r, (nr_link_address r, (nr_ip r, reachability_rank (nr_reachability r)))))
    (fun x y => then_cmp (Z.compare (fst x) (fst y)) (then_cmp (link_cmp (fst (snd x)) (fst (snd y)))
       (then_cmp (ip_cmp (fst (snd (snd x))) (fst (snd (snd y)))) (Z.compare (snd (snd (snd x))) (snd (snd (snd y)))))))).
  - apply (then_cmp_order Z.compare (fun x y => then_cmp (link_cmp (fst x) (fst y))
       (then_cmp (ip_cmp (fst (snd x)) (fst (snd y))) (Z.compare (snd (snd x)) (snd (snd y)))))); [apply _|].
    apply (then_cmp_order link_cmp (fun x y => then_cmp (ip_cmp (fst x) (fst y)) (Z.compare (snd x) (snd y))));
      [unfold link_cmp; apply _|]. apply (then_cmp_order ip_cmp Z.compare); apply _.
  - intros [i1 p1 l1 r1] [i2 p2 l2 r2]. cbn. intros [= -> -> -> Hr]. f_equal. by destruct r1, r2.
Qed.

Record row_wf (config : NeighborSnapshotConfig) (r : NeighborRow) : Prop := {
  rw_ip_valid : valid_ip (nr_ip r) = true;
  rw_link_valid : link_valid (nr_link_address r) = true;
  rw_link_length : length (nr_link_address r) = 6%nat;
  rw_allowed : nr_interface r ∈ ns_allowed_interfaces config
}.

Lemma normalize_row_wf config r row : normalize_row config r = Ok (Some row) -> row_wf config row.
Proof.
  unfold normalize_row. destruct (_ || negb _) eqn:Ha; [done|]. bprop.
  intros (ip & _ & Hk)%result_bind_ok. destruct (valid_ip ip) eqn:Hip; [|done]. cbn in Hk.
  destruct (Nat.eqb_spec (length (rw_mac r)) 6) as [Hlen|]; [|done]. cbn in Hk.
  destruct (bool_decide _ || _); [done|]. unfold link_try_from in Hk. destruct (link_valid (rw_mac r)) eqn:Hl; [|done].
  cbn in Hk. unfold row_new in Hk. rewrite Hip in Hk. cbn in Hk. injection Hk as <-. split; cbn; done.
Qed.

Lemma normalize_loop_in config count raw rows :
  normalize_loop config count raw = Ok rows ->
  forall row, In row rows <-> exists r, In r raw /\ normalize_row config r = Ok (Some row).
Proof.
  revert count rows. induction raw as [|r raw IH]; intros count rows; cbn [normalize_loop].
  { intros [= <-] row. split; [done|]. by intros (r & [] & _). }
  destruct (_ <? _); [done|]. destruct (_ <? _); [done|]. intros (o & Ho & Hk)%result_bind_ok.
  apply result_bind_ok in Hk as (rest & Hrest & [= <-]). intros row. specialize (IH _ _ Hrest row). split.
  - intros Hin. assert ((exists x, o = Some x /\ x = row) \/ In row rest) as [(x & -> & ->)|Hin'].
    { destruct o; [destruct Hin as [->|]; eauto|by right]. }
    + exists r. split; [by left|done].
    + apply IH in Hin' as (r' & Hr' & Hn). exists r'. split; [by right|done].
  - intros (r' & [<-|Hr'] & Hn).
    + rewrite Ho in Hn. injection Hn as ->. by left.
    + assert (In row rest) by (apply IH; eauto). destruct o; [by right|done].
Qed.

(** ** Rows that the tracker can rely on *)
Lemma group_rows_err rows g ips e :
  Forall (fun r => valid_ip (nr_ip r) = true /\ link_valid (nr_link_address r) = true) rows ->
  group_rows rows g ips = Err e -> e = ConflictingDuplicate.
Proof.
  intros Hall. revert g ips. induction Hall as [|r rows [Hip Hl] _ IH]; intros g ips; cbn [group_rows]; [done|].
  rewrite Hip, Hl. cbn [negb]. destruct (is_some_and _ _); [by intros [= <-]|]. apply IH.
Qed.

Lemma absent_loop_err limit at_ present l next e : absent_loop limit at_ present l next = Err e -> e = NCapacity.
Proof.
  revert next. induction l as [|[k s] l IH]; intros next; cbn [absent_loop]; [done|]. case_bool_decide; [apply IH|].
  destruct (checked_add_u64 _ _); [|by intros [= <-]]. cbn [ok_or result_bind].
  destruct (absent_loop _ _ _ _ _) as [[[ev n] d]|e'] eqn:E; cbn [result_bind]; [done|]. intros [= <-]. by eapply IH.
Qed.

(** C40. What a snapshot yields is typed: its rows are strictly ordered, at most the configured
    number, and exactly the normalised raw rows; every row lies on an allowed interface with a
    private address and a unicast link address of six bytes, so the tracker never refuses it as
    invalid. *)
Theorem snapshot_rows_are_typed config raw rows t at_ :
  normalize_raw_rows config raw = Ok rows ->
  StronglySorted (cmp_lt row_cmp) rows /\ Z.of_nat (length rows) <= ns_max_rows config /\
  (forall row, In row rows <-> exists r, In r raw /\ normalize_row config r = Ok (Some row)) /\
  Forall (row_wf config) rows /\
  tracker_observe t rows at_ <> Err InvalidIp /\ tracker_observe t rows at_ <> Err InvalidLinkAddress.
Proof.
  unfold normalize_raw_rows. intros (rows0 & Hl & Hk)%result_bind_ok.
  destruct (_ <? _) eqn:Hlen; [done|]. injection Hk as Hrows. rewrite Hrows in Hlen. bprop.
  assert (forall row, In row rows <-> exists r, In r raw /\ normalize_row config r = Ok (Some row)) as Hin.
  { intros row. rewrite <- Hrows, in_vec_dedup, in_sort_by. by apply (normalize_loop_in _ _ _ _ Hl). }
  assert (Forall (row_wf config) rows) as Hwf.
  { apply List.Forall_forall. intros row (r & _ & Hn)%Hin. by eapply normalize_row_wf. }
  assert (forall e, tracker_observe t rows at_ = Err e -> e = ClockRollback \/ e = NCapacity \/ e = ConflictingDuplicate) as Herr.
  { intros e. unfold tracker_observe. destruct (is_some_and _ _); [intros [= <-]; auto|]. destruct (_ <? _); [intros [= <-]; auto|].
    destruct (group_rows rows ∅ ∅) as [g|e'] eqn:Hg; cbn [result_bind].
    2:{ intros [= <-]. right. right. eapply group_rows_err; [|exact Hg]. eapply Forall_impl; [exact Hwf|]. by intros r []. }
    destruct (_ <? _); [intros [= <-]; auto|]. destruct (is_none_or _ _); [intros [= <-]; auto|].
    destruct (present_loop _ _ _) as [ev next]. destruct (absent_loop _ _ _ _ _) as [[[more n] d]|e'] eqn:Ha; cbn [result_bind]; [done|].
    intros [= <-]. apply absent_loop_err in Ha. auto. }
  split_and!; [rewrite <- Hrows; apply (sort_dedup_strict row_cmp)|done|done|done|..];
    intros He%Herr; by destruct He as [|[|]].
Qed.

(** ** One device *)
Definition next_state (limit : Z) (key : DeviceKey) (st : option TrackState) (group : option (list IpAddr))
  : option TrackState :=
  match group, st with
  | Some addrs, _ => Some {| ts_device := group_device key addrs; ts_missed := 0 |}
  | None, Some s =>
      if limit <=? ts_missed s + 1 then None else Some {| ts_device := ts_device s; ts_missed := ts_missed s + 1 |}
  | None, None => None
  end.

Definition device_events (limit : Z) (at_ : DateTime) (key : DeviceKey) (st : option TrackState)
    (group : option (list IpAddr)) : list NeighborEvent :=
  match group, st with
  | Some addrs, Some _ => [Confirmed (group_device key addrs) at_]
  | Some addrs, None => [Appeared (group_device key addrs) at_]
  | None, Some s =>
      Missed (ts_device s) at_ (ts_missed s + 1)
        :: (if limit <=? ts_missed s + 1 then [Departed (ts_device s) at_] else [])
  | None, None => []
  end.

Definition device_key (d : NeighborDevice) : DeviceKey := (nd_interface d, nd_link_address d).
Definition event_key (e : NeighborEvent) : DeviceKey :=
  match e with Appeared d _ | Confirmed d _ | Missed d _ _ | Departed d _ => device_key d end.

(** ** The loops *)
Definition present_event (at_ : DateTime) (st : gmap DeviceKey TrackState) (p : DeviceKey * list IpAddr) : list NeighborEvent :=
  [match st !! fst p with
   | Some _ => Confirmed (group_device (fst p) (snd p)) at_
   | None => Appeared (group_device (fst p) (snd p)) at_
   end].

Lemma present_loop_spec at_ l next events next' :
  NoDup (map fst l) -> present_loop at_ l next = (events, next') ->
  events = concat (map (present_event at_ next) l) /\
  (forall k a, In (k, a) l -> next' !! k = Some {| ts_device := group_device k a; ts_missed := 0 |}) /\
  (forall k, (forall a, ~ In (k, a) l) -> next' !! k = next !! k).
Proof.
  revert next events next'. induction l as [|[k a] l IH]; intros next events next' Hnd; cbn [present_loop].
  { intros [= <- <-]. done. }
  cbn [map fst] in Hnd. apply NoDup_cons in Hnd as [Hk Hnd]. rewrite list_elem_of_In in Hk.
  assert (forall k' b, In (k', b) l -> k' <> k) as Hne by (intros k' b Hin ->; apply Hk, (in_map fst _ _ Hin)).
  destruct (present_loop _ l _) as [ev n] eqn:E. intros [= <- <-].
  apply IH in E as (-> & Hin & Hout); [|done]. split_and!.
  - cbn [map concat app present_event fst snd]. f_equal.
    f_equal. apply map_ext_in. intros [k' b] Hb. unfold present_event. cbn [fst snd].
    rewrite lookup_insert_ne; [done|]. intros <-. by eapply Hne.
  - intros k' b [[= <- <-]|Hb]; [|by apply Hin]. rewrite Hout; [by rewrite lookup_insert_eq|]. intros b' Hb'. by eapply Hne.
  - intros k' Hk'. rewrite Hout; [|intros b Hb; by eapply Hk'; right]. rewrite lookup_insert_ne; [done|].
    intros <-. eapply Hk'. by left.
Qed.

Definition absent_event (limit : Z) (at_ : DateTime) (present : gset DeviceKey) (p : DeviceKey * TrackState)
  : list NeighborEvent :=
  if bool_decide (fst p ∈ present) then [] else device_events limit at_ (fst p) (Some (snd p)) None.

Lemma absent_loop_spec limit at_ present l next events next' departed :
  NoDup (map fst l) -> absent_loop limit at_ present l next = Ok (events, next', departed) ->
  events = concat (map (absent_event limit at_ present) l) /\
  (forall k s, In (k, s) l -> k ∉ present ->
     next' !! k = Some {| ts_device := ts_device s; ts_missed := ts_missed s + 1 |} /\
     (In k departed <-> limit <= ts_missed s + 1)) /\
  (forall k, k ∈ present \/ (forall s, ~ In (k, s) l) -> next' !! k = next !! k /\ ~ In k departed).
Proof.
  revert next events next' departed. induction l as [|[k s] l IH]; intros next events next' departed Hnd; cbn [absent_loop].
  { intros [= <- <- <-]. split_and!; [done|done|]. intros; split; [done|by intros []]. }
  cbn [map fst] in Hnd. apply NoDup_cons in Hnd as [Hk Hnd]. rewrite list_elem_of_In in Hk.
  assert (forall k' b, In (k', b) l -> k' <> k) as Hne by (intros k' b Hin ->; apply Hk, (in_map fst _ _ Hin)).
  unfold absent_event at 1. cbn [map concat fst snd]. case_bool_decide as Hp.
  - intros E. apply IH in E as (-> & Hin & Hout); [|done]. split_and!; [done| |].
    + intros k' s' [[= <- <-]|Hs] Hnp; [done|by apply Hin].
    + intros k' Hk'. apply Hout. destruct Hk' as [|Hk']; [by left|right]. intros s' Hs'. by eapply Hk'; right.
  - destruct (checked_add_u64 _ _) as [missed|] eqn:Hm; [|done]. cbn [ok_or result_bind].
    apply checked_add_u64_some in Hm as [-> _].
    destruct (absent_loop _ _ _ l _) as [[[ev n] dep]|] eqn:E; cbn [result_bind]; [|done]. intros [= <- <- <-].
    apply IH in E as (-> & Hin & Hout); [|done].
    destruct (Hout k) as [Hlk Hdk]; [right; intros s' Hs'; by eapply Hne|]. rewrite lookup_insert_eq in Hlk. split_and!.
    + cbn [device_events]. by destruct (limit <=? ts_missed s + 1).
    + intros k' s' [[= <- <-]|Hs] Hnp.
      * split; [done|]. destruct (Z.leb_spec limit (ts_missed s + 1)); split; try done; [by left|lia].
      * destruct (Hin _ _ Hs Hnp) as [Hl Hd]. split; [done|]. rewrite <- Hd. pose proof (Hne _ _ Hs).
        destruct (limit <=? ts_missed s + 1); [|done]. split; [by intros [?|?]|by right].
    + intros k' Hk'. assert (k' <> k) as Hneq.
      { intros ->. destruct Hk' as [|Hk']; [done|]. eapply Hk'. by left. }
      destruct (Hout k') as [Hl Hd].
      { destruct Hk' as [|Hk']; [by left|right]. intros s' Hs'. by eapply Hk'; right. }
      rewrite lookup_insert_ne in Hl by done. split; [done|]. destruct (limit <=? ts_missed s + 1); [|done].
      intros [?|?]; congruence.
Qed.

Lemma fold_delete_out {K V} `{Countable K} (l : list K) (m : gmap K V) k :
  ~ In k l -> fold_left (fun m k => delete k m) l m !! k = m !! k.
Proof.
  revert m. induction l as [|x l IH]; intros m Hk; cbn [fold_left]; [done|].
  rewrite IH by (intros ?; apply Hk; by right). apply lookup_delete_ne. intros ->. apply Hk. by left.
Qed.

Lemma fold_delete_in {K V} `{Countable K} (l : list K) (m : gmap K V) k :
  In k l -> fold_left (fun m k => delete k m) l m !! k = None.
Proof.
  revert m. induction l as [|x l IH]; intros m; cbn [fold_left]; [done|]. intros [->|Hin]; [|by apply IH].
  destruct (decide (k ∈ l)) as [Hin|Hnin]; rewrite list_elem_of_In in *; [by apply IH|].
  rewrite fold_delete_out by done. apply lookup_delete_eq.
Qed.

(** Events of one key among events that carry their keys. *)
Lemma filter_keyed {V} (f : DeviceKey * V -> list NeighborEvent) l k :
  NoDup (map fst l) -> (forall p e, In p l -> In e (f p) -> event_key e = fst p) ->
  (forall v, In (k, v) l -> List.filter (fun e => bool_decide (event_key e = k)) (concat (map f l)) = f (k, v)) /\
  ((forall v, ~ In (k, v) l) -> List.filter (fun e => bool_decide (event_key e = k)) (concat (map f l)) = []).
Proof.
  induction l as [|[k' v'] l IH]; intros Hnd Hkey; [done|]. cbn [map fst concat] in *. apply NoDup_cons in Hnd as [Hk Hnd].
  rewrite list_elem_of_In in Hk. destruct IH as [IH1 IH2]; [done|intros p e Hp; apply Hkey; by right|].
  assert (Forall (fun e => event_key e = k') (f (k', v'))) as Hf.
  { apply List.Forall_forall. intros e He. apply (Hkey (k', v') e); [by left|done]. }
  rewrite List.filter_app. split.
  - intros v [[= -> ->]|Hin].
    + rewrite IH2; [|intros v' Hv'; apply Hk, (in_map fst _ _ Hv')]. rewrite app_nil_r. apply filter_all.
      eapply Forall_impl; [exact Hf|]. cbn. intros e ->. by apply bool_decide_eq_true_2.
    + rewrite filter_nothing; [by apply IH1|]. eapply Forall_impl; [exact Hf|]. cbn. intros e ->.
      apply bool_decide_eq_false_2. intros ->. apply Hk, (in_map fst _ _ Hin).
  - intros Hno. rewrite IH2; [|intros v Hv; apply (Hno v); by right]. rewrite filter_nothing; [done|].
    eapply Forall_impl; [exact Hf|]. cbn. intros e ->. apply bool_decide_eq_false_2. intros ->. apply (Hno v'). by left.
Qed.

(** ** One snapshot *)
Definition keyed (st : gmap DeviceKey TrackState) : Prop :=
  forall k s, st !! k = Some s -> device_key (ts_device s) = k.

Lemma tracker_observe_ok t rows at_ events t' :
  tracker_observe t rows at_ = Ok (events, t') ->
  exists grouped ev next more next' departed,
    group_rows rows ∅ ∅ = Ok grouped /\
    present_loop at_ (in_order device_key_cmp (map_to_list grouped)) (nt_states t) = (ev, next) /\
    absent_loop (nc_missed_snapshots_before_departure (nt_cfg t)) at_ (dom grouped)
      (in_order device_key_cmp (map_to_list next)) next = Ok (more, next', departed) /\
    events = ev ++ more /\ nt_cfg t' = nt_cfg t /\ nt_last_observed_at t' = Some at_ /\
    nt_states t' = fold_left (fun m k => delete k m) departed next' /\
    Z.of_nat (size (nt_states t)) + Z.of_nat (size (dom grouped ∖ dom (nt_states t))) <= nc_max_devices (nt_cfg t).
Proof.
  unfold tracker_observe. destruct (is_some_and _ _); [done|]. destruct (_ <? _); [done|].
  intros (grouped & Hg & Hk)%result_bind_ok. destruct (_ <? _); [done|].
  destruct (is_none_or _ _) eqn:Hcap; [done|]. destruct (present_loop _ _ _) as [ev next] eqn:Hp.
  apply result_bind_ok in Hk as ([[more next'] departed] & Ha & [= <- <-]).
  exists grouped, ev, next, more, next', departed. split_and!; try done.
  unfold is_none_or in Hcap. destruct (checked_add_u64 _ _) as [n|] eqn:E; [|done].
  apply checked_add_u64_some in E as [-> _]. by bprop.
Qed.

(** The state of every device after a snapshot. *)
Lemma tracker_states t rows at_ events t' grouped :
  tracker_observe t rows at_ = Ok (events, t') -> group_rows rows ∅ ∅ = Ok grouped ->
  forall k, nt_states t' !! k =
    next_state (nc_missed_snapshots_before_departure (nt_cfg t)) k (nt_states t !! k) (grouped !! k).
Proof.
  intros (g & ev & next & more & next' & departed & Hg & Hp & Ha & _ & _ & _ & Hst & _)%tracker_observe_ok Hg' k.
  rewrite Hg in Hg'. injection Hg' as ->. rewrite Hst.
  apply present_loop_spec in Hp as (_ & Hin & Hout); [|apply in_order_nodup].
  apply absent_loop_spec in Ha as (_ & Hain & Haout); [|apply in_order_nodup].
  destruct (grouped !! k) as [a|] eqn:Hgk; cbn [next_state].
  - destruct (Haout k) as [Hl Hd]; [left; apply elem_of_dom; eauto|]. rewrite fold_delete_out by done.
    rewrite Hl. by apply Hin, in_sorted_map.
  - assert (next !! k = nt_states t !! k) as Hn.
    { apply Hout. intros a Ha. apply in_sorted_map in Ha. congruence. }
    destruct (nt_states t !! k) as [s|].
    + destruct (Hain k s) as [Hl Hd]; [by apply in_sorted_map|by apply not_elem_of_dom|].
      destruct (Z.leb_spec (nc_missed_snapshots_before_departure (nt_cfg t)) (ts_missed s + 1)).
      * apply fold_delete_in. by apply Hd.
      * rewrite fold_delete_out; [done|]. rewrite Hd. lia.
    + destruct (Haout k) as [Hl Hd]; [right; intros s Hs; apply in_sorted_map in Hs; congruence|].
      rewrite fold_delete_out by done. congruence.
Qed.

(** The events of every device. *)
Lemma tracker_events t rows at_ events t' grouped k :
  keyed (nt_states t) -> tracker_observe t rows at_ = Ok (events, t') -> group_rows rows ∅ ∅ = Ok grouped ->
  List.filter (fun e => bool_decide (event_key e = k)) events =
    device_events (nc_missed_snapshots_before_departure (nt_cfg t)) at_ k (nt_states t !! k) (grouped !! k).
Proof.
  intros Hkeyed (g & ev & next & more & next' & departed & Hg & Hp & Ha & -> & _)%tracker_observe_ok Hg'.
  rewrite Hg in Hg'. injection Hg' as ->.
  apply present_loop_spec in Hp as (-> & Hin & Hout); [|apply in_order_nodup].
  apply absent_loop_spec in Ha as (-> & _ & _); [|apply in_order_nodup].
  destruct (filter_keyed (present_event at_ (nt_states t)) (in_order device_key_cmp (map_to_list grouped)) k) as [Hp1 Hp2];
    [apply in_order_nodup| |].
  { intros [k' a] e _. unfold present_event. cbn [fst snd]. intros [<-|[]]. by destruct (nt_states t !! k'), k'. }
  destruct (filter_keyed (absent_event (nc_missed_snapshots_before_departure (nt_cfg t)) at_ (dom grouped))
              (in_order device_key_cmp (map_to_list next)) k) as [Ha1 Ha2]; [apply in_order_nodup| |].
  { intros [k' s] e Hs. apply in_sorted_map in Hs. unfold absent_event. cbn [fst snd]. case_bool_decide as Hd; [done|].
    assert (device_key (ts_device s) = k') as Hdk.
    { apply Hkeyed. rewrite <- Hout; [done|]. intros a Ha. apply in_sorted_map in Ha. apply Hd, elem_of_dom. eauto. }
    cbn [device_events]. destruct (_ <=? _); intros [<-|He]; try done; by destruct He as [<-|[]]. }
  rewrite List.filter_app. destruct (grouped !! k) as [a|] eqn:Hgk.
  - rewrite (Hp1 a) by (by apply in_sorted_map).
    rewrite (Ha1 {| ts_device := group_device k a; ts_missed := 0 |}) by (apply in_sorted_map, Hin, in_sorted_map; done).
    unfold absent_event, present_event. cbn [fst snd]. rewrite bool_decide_eq_true_2 by (apply elem_of_dom; eauto).
    cbn [device_events]. by destruct (nt_states t !! k).
  - rewrite Hp2 by (intros a Ha; apply in_sorted_map in Ha; congruence). cbn [app].
    assert (next !! k = nt_states t !! k) as Hn by (apply Hout; intros a Ha; apply in_sorted_map in Ha; congruence).
    destruct (nt_states t !! k) as [s|].
    + rewrite (Ha1 s) by (by apply in_sorted_map). unfold absent_event. cbn [fst snd].
      by rewrite bool_decide_eq_false_2 by (by apply not_elem_of_dom).
    + rewrite Ha2; [done|]. intros s Hs. apply in_sorted_map in Hs. congruence.
Qed.

(** ** What a group is *)
Definition seen (rows : list NeighborRow) (k : DeviceKey) (ip : IpAddr) : Prop :=
  exists r, In r rows /\ is_present (nr_reachability r) = true /\ (nr_interface r, nr_link_address r) = k /\ nr_ip r = ip.

Lemma group_rows_spec rows g ips grouped :
  (forall k l, g !! k = Some l -> l <> []) -> group_rows rows g ips = Ok grouped ->
  (forall k ip, In ip (default [] (grouped !! k)) <-> In ip (default [] (g !! k)) \/ seen rows k ip) /\
  (forall k l, grouped !! k = Some l -> l <> []).
Proof.
  revert g ips. induction rows as [|r rows IH]; intros g ips Hg; cbn [group_rows].
  { intros [= <-]. split; [|done]. intros k ip. split; [auto|]. intros [|(r & [] & _)]; done. }
  destruct (negb (valid_ip _)); [done|]. destruct (negb (link_valid _)); [done|]. destruct (is_some_and _ _); [done|].
  set (key := (nr_interface r, nr_link_address r)). intros H. apply IH in H as [Hin Hne].
  - split; [|done]. intros k ip. rewrite Hin.
    assert (seen (r :: rows) k ip <-> (is_present (nr_reachability r) = true /\ key = k /\ nr_ip r = ip) \/ seen rows k ip) as ->.
    { unfold seen. split; [intros (x & [<-|Hx] & ?); [by left|right; eauto]|]. intros [?|(x & ? & ?)]; [exists r|exists x]; cbn; tauto. }
    destruct (is_present (nr_reachability r)); [|naive_solver]. destruct (decide (key = k)) as [<-|Hkk].
    + rewrite lookup_insert_eq. simpl. rewrite in_app_iff. cbn [In]. naive_solver.
    + rewrite lookup_insert_ne by done. naive_solver.
  - destruct (is_present (nr_reachability r)); [|done]. intros k l Hl. apply lookup_insert_Some in Hl as [[_ <-]|[_ Hl]]; [|by eapply Hg].
    by destruct (default [] (g !! key)).
Qed.

(** ** Reachable trackers *)
Inductive tracker_step : NeighborTracker -> NeighborTracker -> Prop :=
  | step_snapshot t rows at_ events t' : tracker_observe t rows at_ = Ok (events, t') -> tracker_step t t'.

Record tracker_inv (t : NeighborTracker) : Prop := {
  ti_keyed : keyed (nt_states t);
  ti_missed : forall k s, nt_states t !! k = Some s -> 0 <= ts_missed s < nc_missed_snapshots_before_departure (nt_cfg t);
  ti_addresses : forall k s, nt_states t !! k = Some s ->
    nd_addresses (ts_device s) <> [] /\ StronglySorted (cmp_lt ip_cmp) (nd_addresses (ts_device s));
  ti_size : Z.of_nat (size (nt_states t)) <= nc_max_devices (nt_cfg t);
  ti_limit : 0 < nc_missed_snapshots_before_departure (nt_cfg t)
}.

Lemma vec_dedup_nonempty {A} `{EqDecision A} (l : list A) : l <> [] -> vec_dedup l <> [].
Proof.
  intros Hl Hd. destruct l as [|a l]; [done|]. assert (In a (vec_dedup (a :: l))) as Hin by (apply in_vec_dedup; by left).
  by rewrite Hd in Hin.
Qed.

Lemma tracker_inv_step t t' : tracker_inv t -> tracker_step t t' -> tracker_inv t'.
Proof.
  intros [Hkey Hmiss Haddr Hsize Hlim] Hs. destruct Hs as [t rows at_ events t' Ho].
  pose proof (tracker_observe_ok _ _ _ _ _ Ho) as (grouped & _ & _ & _ & _ & _ & Hg & _ & _ & _ & Hcfg & _ & _ & Hcap).
  pose proof (tracker_states _ _ _ _ _ _ Ho Hg) as Hst.
  destruct (group_rows_spec rows ∅ ∅ grouped) as [_ Hne]; [by intros k l|done|].
  split; rewrite ?Hcfg; try done.
  - intros k s. rewrite Hst. unfold next_state. destruct (grouped !! k), (nt_states t !! k) as [s0|] eqn:E; try done.
    + intros [= <-]. by destruct k.
    + intros [= <-]. by destruct k.
    + case_match; [done|]. intros [= <-]. cbn. by apply Hkey.
  - intros k s. rewrite Hst. unfold next_state. destruct (grouped !! k), (nt_states t !! k) as [s0|] eqn:E; try done.
    + intros [= <-]. cbn. lia.
    + intros [= <-]. cbn. lia.
    + case_match; [done|]. intros [= <-]. bprop. cbn. specialize (Hmiss k s0 E). lia.
  - intros k s. rewrite Hst. unfold next_state. destruct (grouped !! k) as [l|] eqn:El, (nt_states t !! k) as [s0|] eqn:E; try done;
      try (case_match; [done|]); intros [= <-]; cbn; [| |by eapply Haddr].
    all: split; [|apply (sort_dedup_strict ip_cmp)]; apply vec_dedup_nonempty; intros Hs; apply (Hne k l El).
    all: apply Permutation_nil; rewrite <- Hs; apply sort_by_perm.
  - assert (dom (nt_states t') ⊆ dom (nt_states t) ∪ (dom grouped ∖ dom (nt_states t))) as Hsub.
    { intros k. rewrite elem_of_union, elem_of_difference, !elem_of_dom, Hst. unfold next_state.
      destruct (grouped !! k), (nt_states t !! k); intros []; try done; [by left; eauto|right; split; [eauto|by intros []]|by left; eauto]. }
    apply subseteq_size in Hsub. rewrite size_union, !size_dom in Hsub by set_solver. lia.
Qed.

Lemma tracker_step_cfg t t' : tracker_step t t' -> nt_cfg t' = nt_cfg t.
Proof. by intros [x rows at_ events y (? & ? & ? & ? & ? & ? & _ & _ & _ & _ & Hcfg & _)%tracker_observe_ok]. Qed.

Lemma reachable_tracker cfg t0 t :
  tracker_new cfg = Ok t0 -> 0 <= nc_missed_snapshots_before_departure cfg -> 0 <= nc_max_devices cfg ->
  rtc tracker_step t0 t -> tracker_inv t /\ nt_cfg t = cfg.
Proof.
  unfold tracker_new. destruct (_ || _) eqn:Hc; [done|]. bprop. intros [= <-] Hn Hd Hs.
  assert (forall x y, rtc tracker_step x y -> tracker_inv x -> nt_cfg x = cfg -> tracker_inv y /\ nt_cfg y = cfg) as Hrun.
  { intros x y Hxy. induction Hxy as [|x y z Hstep _ IH]; [done|]. intros Hi Hx.
    apply IH; [by eapply tracker_inv_step|by rewrite (tracker_step_cfg _ _ Hstep)]. }
  eapply Hrun; [exact Hs| |done]. split; cbn; try done; [..|lia]; intros k s Hk; by rewrite lookup_empty in Hk.
Qed.

(** The tracker is one state machine per device. After any history, a snapshot that is
    accepted moves every device by [next_state] and publishes for it, in order, exactly
    [device_events]: confirmed or appeared with its sorted addresses when some present row of
    the snapshot carries its interface and link address, otherwise missed once more and
    departed at the limit. *)
Theorem tracker_follows_devices cfg t0 t rows at_ events t' :
  tracker_new cfg = Ok t0 -> 0 <= nc_missed_snapshots_before_departure cfg -> 0 <= nc_max_devices cfg ->
  rtc tracker_step t0 t -> tracker_observe t rows at_ = Ok (events, t') ->
  exists grouped : gmap DeviceKey (list IpAddr),
    (forall k ip, In ip (default [] (grouped !! k)) <-> seen rows k ip) /\
    (forall k, grouped !! k <> Some []) /\
    forall k,
      nt_states t' !! k = next_state (nc_missed_snapshots_before_departure cfg) k (nt_states t !! k) (grouped !! k) /\
      List.filter (fun e => bool_decide (event_key e = k)) events =
        device_events (nc_missed_snapshots_before_departure cfg) at_ k (nt_states t !! k) (grouped !! k).
Proof.
  intros Hnew Hn Hd Hs Ho. destruct (reachable_tracker _ _ _ Hnew Hn Hd Hs) as [[Hkey _ _ _ _] <-].
  pose proof (tracker_observe_ok _ _ _ _ _ Ho) as (grouped & _ & _ & _ & _ & _ & Hg & _). exists grouped.
  destruct (group_rows_spec rows ∅ ∅ grouped) as [Hin Hne]; [by intros k l|done|]. split_and!.
  - intros k ip. rewrite Hin, lookup_empty. cbn. tauto.
  - intros k Hk. by apply (Hne k [] Hk).
  - intros k. split; [by eapply tracker_states|by eapply tracker_events].
Qed.

(** The states of a tracker stay within bounds: at most the configured number of devices,
    each under its own key with a non-empty, strictly increasing list of addresses and fewer
    misses than lead to a departure. *)
Theorem tracker_invariant cfg t0 t :
  tracker_new cfg = Ok t0 -> 0 <= nc_missed_snapshots_before_departure cfg -> 0 <= nc_max_devices cfg ->
  rtc tracker_step t0 t -> tracker_inv t.
Proof. intros. by eapply reachable_tracker. Qed.

(** ** Departures *)
Definition lacks (rows : list NeighborRow) (k : DeviceKey) : Prop := forall ip, ~ seen rows k ip.

(** A run of snapshots. *)
Fixpoint observe_all (t : NeighborTracker) (l : list (list NeighborRow * DateTime)) : result NeighborTracker NeighborError :=
  match l with
  | [] => Ok t
  | (rows, at_) :: l' => let? p := tracker_observe t rows at_ in observe_all (snd p) l'
  end.

Lemma lacks_group rows k grouped : group_rows rows ∅ ∅ = Ok grouped -> lacks rows k <-> grouped !! k = None.
Proof.
  intros Hg. destruct (group_rows_spec rows ∅ ∅ grouped) as [Hin Hne]; [by intros ? l|done|]. split.
  - intros Hl. destruct (grouped !! k) as [l|] eqn:E; [|done]. exfalso. specialize (Hne k l E). destruct l as [|ip l]; [done|].
    apply (Hl ip). specialize (Hin k ip). rewrite E, lookup_empty in Hin.
    destruct Hin as [Hin _]. destruct (Hin (or_introl eq_refl)) as [[]|?]; done.
  - intros Hk ip Hs. specialize (Hin k ip). rewrite Hk, lookup_empty in Hin. cbn in Hin. tauto.
Qed.

Lemma absent_run t l t' k s :
  observe_all t l = Ok t' -> Forall (fun p => lacks (fst p) k) l -> nt_states t !! k = Some s ->
  ts_missed s < nc_missed_snapshots_before_departure (nt_cfg t) ->
  nt_states t' !! k =
    if ts_missed s + Z.of_nat (length l) <? nc_missed_snapshots_before_departure (nt_cfg t)
    then Some {| ts_device := ts_device s; ts_missed := ts_missed s + Z.of_nat (length l) |} else None.
Proof.
  assert (forall t l t', observe_all t l = Ok t' -> Forall (fun p => lacks (fst p) k) l -> nt_states t !! k = None ->
            nt_states t' !! k = None) as Hgone.
  { clear. intros t l. revert t. induction l as [|[rows at_] l IH]; intros t t'; cbn [observe_all]; [by intros [= <-]|].
    intros ([ev t1] & Ho & Hk)%result_bind_ok [Hl Hall]%Forall_cons Hn. eapply IH; [exact Hk|done|]. cbn [snd fst] in *.
    pose proof (tracker_observe_ok _ _ _ _ _ Ho) as (g & _ & _ & _ & _ & _ & Hg & _).
    rewrite (tracker_states _ _ _ _ _ _ Ho Hg), Hn. by rewrite (proj1 (lacks_group _ _ _ Hg) Hl). }
  revert t s. induction l as [|[rows at_] l IH]; intros t s; cbn [observe_all].
  { intros [= <-] _ Hs Hlt. cbn [length]. rewrite Z.add_0_r, (proj2 (Z.ltb_lt _ _) Hlt), Hs. by destruct s. }
  intros ([ev t1] & Ho & Hk)%result_bind_ok [Hl Hall]%Forall_cons Hs Hlt. cbn [snd fst length] in *.
  pose proof (tracker_observe_ok _ _ _ _ _ Ho) as (g & _ & _ & _ & _ & _ & Hg & _ & _ & _ & Hcfg & _).
  pose proof (tracker_states _ _ _ _ _ _ Ho Hg k) as Hst. rewrite Hs, (proj1 (lacks_group _ _ _ Hg) Hl) in Hst. cbn in Hst.
  destruct (Z.leb_spec (nc_missed_snapshots_before_departure (nt_cfg t)) (ts_missed s + 1)).
  - rewrite (Hgone _ _ _ Hk Hall Hst). destruct (Z.ltb_spec (ts_missed s + Z.of_nat (S (length l))) (nc_missed_snapshots_before_departure (nt_cfg t))); [lia|done].
  - rewrite (IH _ _ Hk Hall Hst) by (rewrite Hcfg; cbn; lia). cbn [ts_missed ts_device]. rewrite Hcfg.
    by replace (ts_missed s + 1 + Z.of_nat (length l)) with (ts_missed s + Z.of_nat (S (length l))) by lia.
Qed.

(** A device departs exactly when it has missed the configured number of snapshots in a
    row: after a snapshot that shows it and any further snapshots that all lack it, it is
    still tracked, with that many misses, as long as they are fewer than the limit, and gone
    from then on. *)
Theorem departs_exactly_at_the_limit t rows at_ events t1 l t2 k ip :
  tracker_observe t rows at_ = Ok (events, t1) -> seen rows k ip ->
  0 < nc_missed_snapshots_before_departure (nt_cfg t) ->
  observe_all t1 l = Ok t2 -> Forall (fun p => lacks (fst p) k) l ->
  if Z.of_nat (length l) <? nc_missed_snapshots_before_departure (nt_cfg t)
  then exists d, nt_states t2 !! k = Some {| ts_device := d; ts_missed := Z.of_nat (length l) |} /\ device_key d = k
  else nt_states t2 !! k = None.
Proof.
  intros Ho Hseen Hlim Hall Hl. pose proof (tracker_observe_ok _ _ _ _ _ Ho) as (g & _ & _ & _ & _ & _ & Hg & _ & _ & _ & Hcfg & _).
  destruct (g !! k) as [addrs|] eqn:Hgk; [|exfalso; by eapply (proj2 (lacks_group _ _ _ Hg) Hgk)].
  pose proof (tracker_states _ _ _ _ _ _ Ho Hg k) as Hst. rewrite Hgk in Hst. cbn in Hst.
  rewrite (absent_run _ _ _ _ _ Hall Hl Hst) by (rewrite Hcfg; done). cbn [ts_missed ts_device]. rewrite Hcfg, Z.add_0_l.
  case_match; [|done]. eexists. split; [done|]. by destruct k.
Qed.

(** ** Neighbour tables at a concrete network *)

Definition printer_mac : LinkAddress := [2; 17; 34; 51; 68; 85].
Definition printer_ip : IpAddr := V4 (v4 192 168 1 77).

Definition lan_config : NeighborSnapshotConfig := {|
  ns_max_rows := 16; ns_allowed_interfaces := {[2]}; ns_max_raw_messages := 64 |}.

Definition printer_message : NeighbourMessage := {|
  nm_ifindex := 2; nm_state := KReachable;
  nm_attributes := [OtherAttribute; Destination (Inet (v4 192 168 1 77)); LinkLayerAddress printer_mac] |}.

Definition printer_row : NeighborRow := {|
  nr_interface := 2; nr_ip := printer_ip; nr_link_address := printer_mac; nr_reachability := Reachable |}.

(** A kernel message comes back as the row with its address, link address and state; a
    message of another interface is left out. *)
Example printer_decoded :
  normalize_linux_messages lan_config
    [printer_message; {| nm_ifindex := 9; nm_state := KStale; nm_attributes := [] |}; printer_message] = Ok [printer_row].
Proof. vm_compute. reflexivity. Qed.

Definition printer_raw : RawNeighborRow := {|
  rw_ifindex := 2; rw_family := ADDRESS_FAMILY_INET; rw_address := be_bytes 4 (v4 192 168 1 77) ++ repeat 0 12;
  rw_mac := printer_mac; rw_reachability := Reachable |}.

Definition fresh_tracker : NeighborTracker := {|
  nt_cfg := default_tracker_config; nt_states := ∅; nt_last_observed_at := None |}.
Lemma fresh_tracker_new : tracker_new default_tracker_config = Ok fresh_tracker.
Proof. reflexivity. Qed.

Lemma snapshot_rows_are_typed_witness :
  normalize_raw_rows lan_config [printer_raw; printer_raw] = Ok [printer_row] /\
  Forall (row_wf lan_config) [printer_row] /\ tracker_observe fresh_tracker [printer_row] 5 <> Err InvalidIp.
Proof.
  assert (normalize_raw_rows lan_config [printer_raw; printer_raw] = Ok [printer_row]) as Hn by (vm_compute; reflexivity).
  destruct (snapshot_rows_are_typed lan_config [printer_raw; printer_raw] [printer_row] fresh_tracker 5 Hn)
    as (_ & _ & _ & Hwf & Hip & _).
  split; [exact Hn|]. split; [exact Hwf|exact Hip].
Defined.

(** The tracker after one snapshot with the printer. *)
Definition one_device : NeighborTracker :=
  match tracker_observe fresh_tracker [printer_row] 5 with Ok p => snd p | Err _ => fresh_tracker end.
Definition printer_device : NeighborDevice := group_device (2, printer_mac) [printer_ip].

Lemma one_device_ok : tracker_observe fresh_tracker [printer_row] 5 = Ok ([Appeared printer_device 5], one_device).
Proof. vm_compute. reflexivity. Qed.

Lemma printer_seen : seen [printer_row] (2, printer_mac) printer_ip.
Proof. exists printer_row. split; [by left|]. repeat split. Qed.

Lemma tracker_follows_devices_witness :
  exists grouped : gmap DeviceKey (list IpAddr),
    nt_states one_device !! (2, printer_mac) =
      next_state 2 (2, printer_mac) (nt_states fresh_tracker !! (2, printer_mac)) (grouped !! (2, printer_mac)) /\
    List.filter (fun e => bool_decide (event_key e = (2, printer_mac))) [Appeared printer_device 5] =
      device_events 2 5 (2, printer_mac) (nt_states fresh_tracker !! (2, printer_mac)) (grouped !! (2, printer_mac)).
Proof.
  destruct (tracker_follows_devices default_tracker_config fresh_tracker fresh_tracker [printer_row] 5
              [Appeared printer_device 5] one_device) as (grouped & _ & _ & Hk).
  - exact fresh_tracker_new.
  - vm_compute. discriminate.
  - vm_compute. discriminate.
  - apply rtc_refl.
  - exact one_device_ok.
  - exists grouped. exact (Hk (2, printer_mac)).
Defined.

Lemma tracker_invariant_witness : tracker_inv one_device.
Proof.
  apply (tracker_invariant default_tracker_config fresh_tracker).
  - exact fresh_tracker_new.
  - vm_compute. discriminate.
  - vm_compute. discriminate.
  - apply rtc_once. exact (step_snapshot _ _ _ _ _ one_device_ok).
Defined.

Definition two_misses : NeighborTracker :=
  match observe_all one_device [([], 6); ([], 7)] with Ok t => t | Err _ => one_device end.

Lemma departs_exactly_at_the_limit_witness : nt_states two_misses !! (2, printer_mac) = None.
Proof.
  apply (departs_exactly_at_the_limit fresh_tracker [printer_row] 5 [Appeared printer_device 5] one_device
           [([], 6); ([], 7)] two_misses (2, printer_mac) printer_ip).
  - exact one_device_ok.
  - exact printer_seen.
  - reflexivity.
  - vm_compute. reflexivity.
  - repeat constructor; intros ip (r & [] & _).
Defined.
