(* ===== verification/WasmManifest.v ===== *)
(** * Audit modules: signed manifests

    crates/lattice-audit-wasm/src/manifest.rs: the manifest of an audit module, its structural
    validation, the canonical bytes that are signed, signing and verification, and what is
    read from and written to the wire. Ed25519 and SHA-256 are parameters. The serde visitors
    are modelled on the values of the data model that they receive, in the order in which they
    receive them; the text format that carries those values is serde's. A [Duration] is its
    number of nanoseconds, a [BTreeSet] a [gset], a [BTreeMap] a [gmap] with its entries in the
    order of the keys. *)

From S2P Require Import Prelude Order Time Text Bytes.

Definition DOMAIN : bytes := str_bytes "NeonHearth/lattice-audit-wasm/manifest/v1" ++ [0].
Definition MAX_WASM_BYTES : Z := 16 * 1024 * 1024.
Definition MAX_TEXT : Z := 4096.
Definition MAX_FIELDS : Z := 64.
Definition MAX_CAPABILITIES : Z := 16.
Definition MAX_REQUESTS : Z := 1024.
Definition MAX_TIME_SECS : Z := 300.
Definition MAX_FUEL : Z := 10000000000.
Definition MAX_MEMORY_PAGES : Z := 1024.

(** [Duration::as_secs], [subsec_nanos] *)
Definition as_secs (d : Duration) : Z := d / 1000000000.
Definition subsec_nanos (d : Duration) : Z := d mod 1000000000.

Record Limits := {
  max_bytes : Z;
  max_requests : Z;
  max_time : Duration;
  max_fuel : Z;
  max_memory_pages : Z
}.

Definition valid_limits (l : Limits) : bool :=
  (0 <? max_bytes l) && (max_bytes l <=? MAX_WASM_BYTES)
  && (0 <? max_requests l) && (max_requests l <=? MAX_REQUESTS)
  && negb (max_time l =? 0) && (subsec_nanos (max_time l) =? 0) && (as_secs (max_time l) <=? MAX_TIME_SECS)
  && (0 <? max_fuel l) && (max_fuel l <=? MAX_FUEL)
  && (0 <? max_memory_pages l) && (max_memory_pages l <=? MAX_MEMORY_PAGES).

Inductive SideEffectProfile :=
  | ReadOnly | Destructive | Persistent | CredentialExfiltration | DenialOfService | FirmwareWrite.
#[global] Instance SideEffectProfile_eq_dec : EqDecision SideEffectProfile.
Proof. solve_decision. Defined.

Inductive AuditError :=
  | InvalidManifest (s : string) | DigestMismatch | InvalidSignature
  | UnsafeSideEffects (p : SideEffectProfile) | WasmTooLarge | ForbiddenImport (s : string)
  | FuelExhausted | TimedOut | MemoryLimitExceeded | TableLimitExceeded | OutputLimitExceeded
  | WasmTrap | InvalidModule | InvalidAbi | InputLimitExceeded | RequestLimitExceeded
  | AuditBudgetExhausted | HostRejected | AuditCancelled.

Inductive Capability :=
  | TcpExchange (port : Z) | HttpExchange (port : Z) | TlsMetadata (port : Z).
#[global] Instance Capability_eq_dec : EqDecision Capability.
Proof. solve_decision. Defined.
Definition capability_code (c : Capability) : Z * Z :=
  match c with TcpExchange p => (1, p) | HttpExchange p => (2, p) | TlsMetadata p => (3, p) end.
Definition capability_of_code (x : Z * Z) : Capability :=
  let '(t, p) := x in if t =? 1 then TcpExchange p else if t =? 2 then HttpExchange p else TlsMetadata p.
#[global] Program Instance Capability_countable : Countable Capability :=
  inj_countable' capability_code capability_of_code _.
Next Obligation. by intros []. Qed.

(** The derived [Ord]: the variant, then the port. *)
Definition capability_cmp (a b : Capability) : comparison :=
  then_cmp (Z.compare (fst (capability_code a)) (fst (capability_code b)))
           (Z.compare (snd (capability_code a)) (snd (capability_code b))).

Inductive TargetKind := NumericPrivateDevice.

Record RollbackPlan := { rp_required : bool; rp_description : string }.

Inductive EvidenceType := EText | EInteger | EBoolean | EBytes.
Record EvidenceSchema := { es_fields : gmap string EvidenceType }.

Record AuditManifest := {
  am_module_id : string;
  am_version : Z;
  am_sha256 : bytes;
  am_target_kind : TargetKind;
  am_capabilities : gset Capability;
  am_expected_behavior : string;
  am_side_effects : SideEffectProfile;
  am_rollback : RollbackPlan;
  am_evidence_schema : EvidenceSchema;
  am_limits : Limits;
  am_signature : bytes
}.

(** ** Structural validation *)
(** [b.is_ascii_alphanumeric() || b == b'.' || b == b'-' || b == b'_'] *)
Definition module_id_byte (b : Z) : bool :=
  ((48 <=? b) && (b <=? 57)) || ((65 <=? b) && (b <=? 90)) || ((97 <=? b) && (b <=? 122))
  || (b =? 46) || (b =? 45) || (b =? 95).

Definition invalid_text (s : string) : bool :=
  trim_is_empty s || (MAX_TEXT <? str_len s) || negb (is_trimmed s) || has_control s.

Definition invalid_key (k : string) : bool :=
  str_is_empty k || (128 <? str_len k) || negb (is_trimmed k) || has_control k.

Definition port_zero (c : Capability) : bool := snd (capability_code c) =? 0.

Definition set_len {A} `{Countable A} (s : gset A) : Z := Z.of_nat (size s).

Definition from_parts (module_id : string) (version : Z) (sha : bytes) (target_kind : TargetKind)
    (capabilities : gset Capability) (expected_behavior : string) (side_effects : SideEffectProfile)
    (rollback : RollbackPlan) (evidence_schema : EvidenceSchema) (limits : Limits) (signature : bytes)
  : result AuditManifest AuditError :=
  if (version =? 0) || str_is_empty module_id || (128 <? str_len module_id)
     || negb (forallb module_id_byte (str_bytes module_id))
  then Err (InvalidManifest "noncanonical module identity")
  else if invalid_text expected_behavior || invalid_text (rp_description rollback)
  then Err (InvalidManifest "invalid text")
  else if rp_required rollback then Err (InvalidManifest "executable rollback is unsupported")
  else if bool_decide (capabilities = ∅) || (MAX_CAPABILITIES <? set_len capabilities)
          || existsb port_zero (elements capabilities)
  then Err (InvalidManifest "invalid capabilities")
  else if bool_decide (es_fields evidence_schema = ∅) || (MAX_FIELDS <? Z.of_nat (size (es_fields evidence_schema)))
          || existsb (fun kv => invalid_key (fst kv)) (map_to_list (es_fields evidence_schema))
  then Err (InvalidManifest "invalid evidence schema")
  else if negb (valid_limits limits) then Err (InvalidManifest "invalid limits")
  else Ok {| am_module_id := module_id; am_version := version; am_sha256 := sha;
             am_target_kind := target_kind; am_capabilities := capabilities;
             am_expected_behavior := expected_behavior; am_side_effects := side_effects;
             am_rollback := rollback; am_evidence_schema := evidence_schema;
             am_limits := limits; am_signature := signature |}.

(** [AuditManifest::new]: an unsigned manifest. *)
Definition manifest_new (module_id : string) (version : Z) (sha : bytes) (target_kind : TargetKind)
    (capabilities : gset Capability) (expected_behavior : string) (side_effects : SideEffectProfile)
    (rollback : RollbackPlan) (evidence_schema : EvidenceSchema) (limits : Limits)
  : result AuditManifest AuditError :=
  from_parts module_id version sha target_kind capabilities expected_behavior side_effects rollback
    evidence_schema limits (repeat 0 64).

(** ** The signed bytes *)
Definition put_str (s : string) : bytes := be_bytes 4 (str_len s) ++ str_bytes s.

Definition put_capability (c : Capability) : bytes :=
  match c with
  | TcpExchange port => 1 :: be_bytes 2 port
  | HttpExchange port => 2 :: be_bytes 2 port
  | TlsMetadata port => 3 :: be_bytes 2 port
  end.

Definition side_effect_byte (p : SideEffectProfile) : Z :=
  match p with
  | ReadOnly => 0 | Destructive => 1 | Persistent => 2 | CredentialExfiltration => 3
  | DenialOfService => 4 | FirmwareWrite => 5
  end.

Definition evidence_byte (t : EvidenceType) : Z :=
  match t with EText => 1 | EInteger => 2 | EBoolean => 3 | EBytes => 4 end.

Definition target_kind_byte (t : TargetKind) : Z := match t with NumericPrivateDevice => 1 end.

Definition put_field (kv : string * EvidenceType) : bytes := put_str (fst kv) ++ [evidence_byte (snd kv)].

Definition sorted_capabilities (s : gset Capability) : list Capability := sort_by capability_cmp (elements s).
Definition sorted_fields (m : EvidenceSchema) : list (string * EvidenceType) :=
  in_order String.compare (map_to_list (es_fields m)).

Definition put_limits (l : Limits) : bytes :=
  be_bytes 8 (max_bytes l) ++ be_bytes 4 (max_requests l) ++ be_bytes 8 (as_secs (max_time l))
  ++ be_bytes 8 (max_fuel l) ++ be_bytes 4 (max_memory_pages l).

Definition canonical_unsigned (m : AuditManifest) : bytes :=
  DOMAIN
  ++ put_str (am_module_id m)
  ++ be_bytes 2 (am_version m)
  ++ am_sha256 m
  ++ [target_kind_byte (am_target_kind m)]
  ++ be_bytes 4 (set_len (am_capabilities m))
  ++ concat (map put_capability (sorted_capabilities (am_capabilities m)))
  ++ put_str (am_expected_behavior m)
  ++ [side_effect_byte (am_side_effects m)]
  ++ [Z.b2z (rp_required (am_rollback m))]
  ++ put_str (rp_description (am_rollback m))
  ++ be_bytes 4 (Z.of_nat (size (es_fields (am_evidence_schema m))))
  ++ concat (map put_field (sorted_fields (am_evidence_schema m)))
  ++ put_limits (am_limits m).

Definition canonical_bytes (m : AuditManifest) : bytes := canonical_unsigned m.

Definition with_signature (m : AuditManifest) (s : bytes) : AuditManifest := {|
  am_module_id := am_module_id m; am_version := am_version m; am_sha256 := am_sha256 m;
  am_target_kind := am_target_kind m; am_capabilities := am_capabilities m;
  am_expected_behavior := am_expected_behavior m; am_side_effects := am_side_effects m;
  am_rollback := am_rollback m; am_evidence_schema := am_evidence_schema m;
  am_limits := am_limits m; am_signature := s |}.

Record VerifiedManifest := { vm_inner : AuditManifest; vm_wasm : bytes }.

(** ** Reading the wire *)
Inductive WireError :=
  | StringTooLong | TooManyFields | InvalidFieldKey | DuplicateField | TooManyCapabilities
  | DuplicateCapability | SignatureLength | Rejected_ (e : AuditError).

Record Wire := {
  w_module_id : string; w_version : Z; w_sha256 : bytes; w_target_kind : TargetKind;
  w_capabilities : list Capability; w_expected_behavior : string;
  w_side_effects : SideEffectProfile; w_rollback : RollbackPlan;
  w_evidence_schema : list (string * EvidenceType); w_limits : Limits; w_signature : bytes
}.

Definition bounded_string (s : string) (max : Z) : result string WireError :=
  if max <? str_len s then Err StringTooLong else Ok s.

Definition bounded_signature (v : bytes) : result bytes WireError :=
  if Nat.eqb (length v) 64 then Ok v else Err SignatureLength.

(** The visitor of the field map. *)
Fixpoint visit_fields (out : gmap string EvidenceType) (l : list (string * EvidenceType)) : result EvidenceSchema WireError :=
  match l with
  | [] => Ok {| es_fields := out |}
  | (k, v) :: l' =>
    if Z.of_nat (size out) =? MAX_FIELDS then Err TooManyFields
    else if invalid_key k then Err InvalidFieldKey
    else match out !! k with
         | Some _ => Err DuplicateField
         | None => visit_fields (<[k := v]> out) l'
         end
  end.

(** The visitor of the capability sequence. *)
Fixpoint visit_capabilities (out : list Capability) (l : list Capability) : result (list Capability) WireError :=
  match l with
  | [] => Ok out
  | c :: l' =>
    if Z.of_nat (length out) =? MAX_CAPABILITIES then Err TooManyCapabilities
    else visit_capabilities (out ++ [c]) l'
  end.

Fixpoint insert_capabilities (s : gset Capability) (l : list Capability) : result (gset Capability) WireError :=
  match l with
  | [] => Ok s
  | c :: l' => if bool_decide (c ∈ s) then Err DuplicateCapability else insert_capabilities ({[c]} ∪ s) l'
  end.

(** [AuditManifest::deserialize]; the fields are read in the order of the wire. *)
Definition manifest_deserialize (w : Wire) : result AuditManifest WireError :=
  let? module_id := bounded_string (w_module_id w) 128 in
  let? caps := visit_capabilities [] (w_capabilities w) in
  let? behavior := bounded_string (w_expected_behavior w) MAX_TEXT in
  let? description := bounded_string (rp_description (w_rollback w)) MAX_TEXT in
  let? fields := visit_fields ∅ (w_evidence_schema w) in
  let? signature := bounded_signature (w_signature w) in
  if MAX_CAPABILITIES <? Z.of_nat (length caps) then Err TooManyCapabilities
  else
    let? capabilities := insert_capabilities ∅ caps in
    match from_parts module_id (w_version w) (w_sha256 w) (w_target_kind w) capabilities behavior
            (w_side_effects w)
            {| rp_required := rp_required (w_rollback w); rp_description := description |}
            fields (w_limits w) signature with
    | Ok m => Ok m
    | Err e => Err (Rejected_ e)
    end.

(** The derived [Serialize]; a duration is written as whole seconds. *)
Definition manifest_serialize (m : AuditManifest) : Wire := {|
  w_module_id := am_module_id m; w_version := am_version m; w_sha256 := am_sha256 m;
  w_target_kind := am_target_kind m; w_capabilities := sorted_capabilities (am_capabilities m);
  w_expected_behavior := am_expected_behavior m; w_side_effects := am_side_effects m;
  w_rollback := am_rollback m; w_evidence_schema := sorted_fields (am_evidence_schema m);
  w_limits := {| max_bytes := max_bytes (am_limits m); max_requests := max_requests (am_limits m);
                 max_time := seconds (as_secs (max_time (am_limits m)));
                 max_fuel := max_fuel (am_limits m); max_memory_pages := max_memory_pages (am_limits m) |};
  w_signature := am_signature m |}.

(** ** Signing and verification *)
Section Crypto.
Context `{Sha256} `{Ed25519}.

Definition manifest_sign (m : AuditManifest) (key : SigningKey) : AuditManifest :=
  with_signature m (key_sign key (canonical_unsigned m)).

Definition verify_manifest (m : AuditManifest) (wasm : bytes) (key : VerifyingKey)
  : result VerifiedManifest AuditError :=
  let? _ := from_parts (am_module_id m) (am_version m) (am_sha256 m) (am_target_kind m)
              (am_capabilities m) (am_expected_behavior m) (am_side_effects m) (am_rollback m)
              (am_evidence_schema m) (am_limits m) (am_signature m) in
  if MAX_WASM_BYTES <? Z.of_nat (length wasm) then Err WasmTooLarge
  else if bool_decide (sha256 wasm <> am_sha256 m) then Err DigestMismatch
  else if bool_decide (am_side_effects m <> ReadOnly) then Err (UnsafeSideEffects (am_side_effects m))
  else if negb (verify_strict key (canonical_unsigned m) (am_signature m)) then Err InvalidSignature
  else Ok {| vm_inner := m; vm_wasm := wasm |}.
End Crypto.
