(* ===== verification/WasmManifestProps.v ===== *)
(** * Audit modules: what a signature covers

    The canonical bytes determine every field of a validated manifest, so a verified module
    is one that the holder of the key signed; signing is accepted by verification; a manifest
    read back from the wire is the one that was written. *)

From S2P Require Import Prelude Order Time Text Bytes WasmManifest.

(** Field widths of the Rust types that validation does not already bound. *)
Record manifest_typed (m : AuditManifest) : Prop := {
  mt_version : 0 <= am_version m < 65536;
  mt_sha256 : length (am_sha256 m) = 32%nat;
  mt_ports : forall c, c ∈ am_capabilities m -> 0 <= snd (capability_code c) < 65536;
  mt_time : 0 <= max_time (am_limits m);
  mt_signature : length (am_signature m) = 64%nat
}.

Definition accepted (m : AuditManifest) : Prop :=
  from_parts (am_module_id m) (am_version m) (am_sha256 m) (am_target_kind m) (am_capabilities m)
    (am_expected_behavior m) (am_side_effects m) (am_rollback m) (am_evidence_schema m) (am_limits m)
    (am_signature m) = Ok m.

(** What validation has checked. *)
Record manifest_valid (m : AuditManifest) : Prop := {
  mv_version : am_version m <> 0;
  mv_module_id : str_len (am_module_id m) <= 128;
  mv_behavior : invalid_text (am_expected_behavior m) = false;
  mv_description : invalid_text (rp_description (am_rollback m)) = false;
  mv_required : rp_required (am_rollback m) = false;
  mv_capabilities : set_len (am_capabilities m) <= MAX_CAPABILITIES;
  mv_nonzero : forall c, c ∈ am_capabilities m -> snd (capability_code c) <> 0;
  mv_fields : Z.of_nat (size (es_fields (am_evidence_schema m))) <= MAX_FIELDS;
  mv_keys : forall k t, es_fields (am_evidence_schema m) !! k = Some t -> invalid_key k = false;
  mv_limits : valid_limits (am_limits m) = true
}.

Lemma existsb_false {A} (f : A -> bool) l : existsb f l = false -> forall x, In x l -> f x = false.
Proof.
  induction l as [|y l IH]; cbn; [done|]. intros [Hy Hl]%orb_false_iff x [->|Hx]; [done|by apply IH].
Qed.

Lemma from_parts_ok i v h t c b s r e l g m :
  from_parts i v h t c b s r e l g = Ok m ->
  m = {| am_module_id := i; am_version := v; am_sha256 := h; am_target_kind := t; am_capabilities := c;
         am_expected_behavior := b; am_side_effects := s; am_rollback := r; am_evidence_schema := e;
         am_limits := l; am_signature := g |} /\ manifest_valid m.
Proof.
  unfold from_parts. destruct (_ || _) eqn:H1; [done|]. destruct (invalid_text b || _) eqn:H2; [done|].
  destruct (rp_required r) eqn:H3; [done|]. destruct (bool_decide (c = ∅) || _ || _) eqn:H4; [done|].
  destruct (bool_decide (es_fields e = ∅) || _ || _) eqn:H5; [done|]. destruct (negb (valid_limits l)) eqn:H6; [done|].
  intros [= <-]. split; [done|]. bprop. split; cbn [am_version am_module_id am_expected_behavior am_rollback am_capabilities
    am_evidence_schema am_limits]; try done; try lia.
  - intros d Hd. assert (port_zero d = false) as Hz.
    { eapply existsb_false; [done|]. by apply list_elem_of_In, elem_of_elements. }
    unfold port_zero in Hz. bprop. lia.
  - intros k x Hk. change k with (fst (k, x)). eapply (existsb_false (fun kv : string * EvidenceType => invalid_key (fst kv))); [done|].
    by apply list_elem_of_In, elem_of_map_to_list.
Qed.

Lemma accepted_valid m : accepted m -> manifest_valid m.
Proof. intros Hm. by apply from_parts_ok in Hm as [_ ?]. Qed.

Lemma verify_manifest_ok `{Sha256} `{Ed25519} m wasm key v :
  verify_manifest m wasm key = Ok v ->
  v = {| vm_inner := m; vm_wasm := wasm |} /\ accepted m /\ Z.of_nat (length wasm) <= MAX_WASM_BYTES /\
  sha256 wasm = am_sha256 m /\ am_side_effects m = ReadOnly /\
  verify_strict key (canonical_unsigned m) (am_signature m) = true.
Proof.
  unfold verify_manifest. intros (m' & Hm & Hk)%result_bind_ok.
  destruct (_ <? _) eqn:H1; [done|]. case_bool_decide as H2; [done|]. case_bool_decide as H3; [done|].
  destruct (verify_strict _ _ _) eqn:H4; [|done]. cbn in Hk. injection Hk as <-. bprop.
  split_and!; try done; try lia; try (by apply dec_stable).
  pose proof (from_parts_ok _ _ _ _ _ _ _ _ _ _ _ _ Hm) as [Heq _]. unfold accepted. rewrite Hm. f_equal. rewrite Heq. by destruct m.
Qed.

Lemma verify_manifest_intro `{Sha256} `{Ed25519} m wasm key :
  accepted m -> (MAX_WASM_BYTES <? Z.of_nat (length wasm)) = false -> sha256 wasm = am_sha256 m -> am_side_effects m = ReadOnly ->
  verify_strict key (canonical_unsigned m) (am_signature m) = true ->
  verify_manifest m wasm key = Ok {| vm_inner := m; vm_wasm := wasm |}.
Proof.
  intros Hacc Hlen Hsha Hro Hsig. unfold verify_manifest. unfold accepted in Hacc. rewrite Hacc. cbn [result_bind].
  rewrite Hlen, Hsig. by rewrite !bool_decide_false by tauto.
Qed.

(** ** The canonical bytes *)
#[export] Instance framed_put_str : Framed (fun s => str_len s < 256 ^ 4) put_str.
Proof.
  intros x y r s Hx Hy Heq. assert (forall z, put_str z = put_text 4 z) as Hp.
  { intros z. unfold put_str, put_text, put_bytes, str_len. by rewrite length_str_bytes. }
  rewrite !Hp in Heq. by apply (framed (P := fun s => fits 4 (String.length s))) in Heq.
Qed.

Lemma capability_code_inj c d : capability_code c = capability_code d -> c = d.
Proof. destruct c, d; cbn; congruence. Qed.

#[export] Instance framed_capability :
  Framed (fun c => 0 <= snd (capability_code c) < 65536) put_capability.
Proof.
  assert (forall c, put_capability c = fst (capability_code c) :: be_bytes 2 (snd (capability_code c))) as Hp by (by intros []).
  apply framed_fixed with 3%nat; [intros c _; rewrite Hp; cbn [length]; by rewrite length_be_bytes|].
  intros x y Hx Hy. rewrite !Hp. intros Heq. pose proof (f_equal (hd 0) Heq) as Hf. apply (f_equal (@tl Z)) in Heq as Hs.
  cbn [hd tl] in Hf, Hs. apply capability_code_inj. rewrite (surjective_pairing (capability_code x)),
    (surjective_pairing (capability_code y)). f_equal; [done|]. apply (be_bytes_inj 2 0); [done|cbn; lia..].
Qed.

(** A one-byte code. *)
Lemma framed_code {A} (f : A -> Z) (x y : A) r s : (forall a b, f a = f b -> a = b) -> [f x] ++ r = [f y] ++ s -> x = y /\ r = s.
Proof. intros Hf [= H ->]. auto. Qed.

#[export] Instance framed_field : Framed (fun kv => str_len (fst kv) < 256 ^ 4) put_field.
Proof.
  intros [k t] [k' t'] r s Hx Hy. unfold put_field. cbn [fst snd] in *. rewrite <- !app_assoc.
  intros [-> Heq]%(framed (P := fun s => str_len s < 256 ^ 4)); [|done..].
  apply framed_code in Heq as [-> ->]; [done|]. intros [] []; cbn; congruence.
Qed.

Lemma sorted_capabilities_inj s s' : sorted_capabilities s = sorted_capabilities s' -> s = s'.
Proof.
  intros Heq. apply set_eq. intros c. rewrite <- !elem_of_elements. unfold sorted_capabilities in Heq.
  by rewrite <- (sort_by_perm capability_cmp (elements s)), Heq, sort_by_perm.
Qed.

Lemma sorted_fields_inj m m' : sorted_fields m = sorted_fields m' -> m = m'.
Proof.
  destruct m as [m], m' as [m']. unfold sorted_fields, in_order. cbn [es_fields]. intros Heq. f_equal. apply map_eq. intros k. apply option_eq. intros v.
  rewrite <- !elem_of_map_to_list. by rewrite <- (sort_by_perm (key_cmp String.compare) (map_to_list m)), Heq, sort_by_perm.
Qed.

Lemma length_sorted_capabilities s : length (sorted_capabilities s) = size s.
Proof. unfold sorted_capabilities. by rewrite sort_by_perm. Qed.

Lemma length_sorted_fields m : length (sorted_fields m) = size (es_fields m).
Proof. unfold sorted_fields, in_order. rewrite sort_by_perm. apply length_map_to_list. Qed.

Lemma put_limits_inj l l' :
  valid_limits l = true -> valid_limits l' = true -> 0 <= max_time l -> 0 <= max_time l' ->
  put_limits l = put_limits l' -> l = l'.
Proof.
  intros Hv Hv' Ht Ht'. unfold valid_limits, MAX_WASM_BYTES, MAX_REQUESTS, MAX_TIME_SECS, MAX_FUEL, MAX_MEMORY_PAGES in Hv, Hv'.
  unfold as_secs, subsec_nanos in Hv, Hv'. bprop.
  unfold put_limits. intros Heq. assert (0 <= as_secs (max_time l) /\ 0 <= as_secs (max_time l')) as [Hs Hs'].
  { split; apply Z.div_pos; lia. }
  apply (framed (P := fun z => 0 <= z < 0 + 256 ^ Z.of_nat 8)) in Heq as [Hb Heq]; [|cbn; lia..].
  apply (framed (P := fun z => 0 <= z < 0 + 256 ^ Z.of_nat 4)) in Heq as [Hr Heq]; [|cbn; lia..].
  apply (framed (P := fun z => 0 <= z < 0 + 256 ^ Z.of_nat 8)) in Heq as [Hd Heq]; [|unfold as_secs in *; cbn; lia..].
  apply (framed (P := fun z => 0 <= z < 0 + 256 ^ Z.of_nat 8)) in Heq as [Hf Heq]; [|cbn; lia..].
  apply (be_bytes_inj 4 0) in Heq; [|cbn; lia..]. unfold as_secs in *.
  pose proof (Z.div_mod (max_time l) 1000000000). pose proof (Z.div_mod (max_time l') 1000000000).
  destruct l as [b1 r1 d1 f1 p1], l' as [b2 r2 d2 f2 p2]. cbn in *. f_equal; lia.
Qed.

(** Two validated manifests with the same canonical bytes differ at most in the signature. *)
Lemma canonical_unsigned_inj m m' :
  manifest_typed m -> manifest_typed m' -> manifest_valid m -> manifest_valid m' ->
  canonical_unsigned m = canonical_unsigned m' -> with_signature m' (am_signature m) = m.
Proof.
  intros [] [] [] [] Heq. unfold canonical_unsigned in Heq. apply app_inv_head in Heq.
  assert (forall s, invalid_text s = false -> str_len s < 256 ^ 4) as Htext.
  { intros s Hs. unfold invalid_text, MAX_TEXT in Hs. bprop. lia. }
  apply (framed (P := fun s => str_len s < 256 ^ 4)) in Heq as [Hid Heq]; [|lia..].
  apply (framed (P := fun z => 0 <= z < 0 + 256 ^ Z.of_nat 2)) in Heq as [Hver Heq]; [|cbn; lia..].
  apply app_inj_len in Heq as [Hsha Heq]; [|congruence].
  apply framed_code in Heq as [Hkind Heq]; [|by intros [] []].
  unfold set_len, MAX_CAPABILITIES, MAX_FIELDS in *.
  apply (framed (P := fun z => 0 <= z < 0 + 256 ^ Z.of_nat 4)) in Heq as [Hcl%Nat2Z.inj Heq]; [|cbn; lia..].
  apply (framed_elements _ put_capability _ _ _ _ framed_capability) in Heq as [Hcaps%sorted_capabilities_inj Heq];
    [|by rewrite !length_sorted_capabilities|apply List.Forall_forall; intros c Hc..];
    [|unfold sorted_capabilities in Hc; rewrite in_sort_by, <- list_elem_of_In, elem_of_elements in Hc; auto..].
  apply (framed (P := fun s => str_len s < 256 ^ 4)) in Heq as [Hbeh Heq]; [|auto..].
  apply framed_code in Heq as [Hside Heq]; [|intros [] []; cbn; congruence].
  apply framed_code in Heq as [Hreq Heq]; [|intros [] []; cbn; congruence].
  apply (framed (P := fun s => str_len s < 256 ^ 4)) in Heq as [Hdesc Heq]; [|auto..].
  apply (framed (P := fun z => 0 <= z < 0 + 256 ^ Z.of_nat 4)) in Heq as [Hfl%Nat2Z.inj Heq]; [|cbn; lia..].
  apply (framed_elements _ put_field _ _ _ _ framed_field) in Heq as [Hfields%sorted_fields_inj Heq];
    [|by rewrite !length_sorted_fields|apply List.Forall_forall; intros [k t] Hc..];
    [|apply (in_sorted_map String.compare) in Hc..].
  2,3: assert (invalid_key k = false) as Hk by eauto; unfold invalid_key in Hk; bprop; cbn [fst]; lia.
  apply put_limits_inj in Heq; [|done..].
  destruct m as [? ? ? ? ? ? ? [] ? ? ?], m' as [? ? ? ? ? ? ? [] ? ? ?]. cbn in *. unfold with_signature. cbn. congruence.
Qed.

(** ** The visitors on a manifest that was written *)
Lemma visit_capabilities_spec out l :
  Z.of_nat (length out + length l) <= MAX_CAPABILITIES -> visit_capabilities out l = Ok (out ++ l).
Proof.
  revert out. induction l as [|c l IH]; intros out Hl; cbn [visit_capabilities]; [by rewrite app_nil_r|].
  cbn [length] in Hl. rewrite (proj2 (Z.eqb_neq _ _)) by lia. rewrite IH by (rewrite length_app; cbn; lia). by rewrite <- app_assoc.
Qed.

Lemma insert_capabilities_spec s l :
  NoDup l -> (forall c, c ∈ l -> c ∉ s) -> insert_capabilities s l = Ok (list_to_set l ∪ s).
Proof.
  revert s. induction l as [|c l IH]; intros s Hnd Hs; cbn [insert_capabilities]; [f_equal; set_solver|].
  apply NoDup_cons in Hnd as [Hc Hnd]. rewrite bool_decide_false by set_solver. rewrite IH; [f_equal; set_solver|done|set_solver].
Qed.

Lemma visit_fields_spec out l :
  NoDup (map fst l) -> (forall k v, (k, v) ∈ l -> out !! k = None /\ invalid_key k = false) ->
  Z.of_nat (size out + length l) <= MAX_FIELDS -> visit_fields out l = Ok {| es_fields := list_to_map l ∪ out |}.
Proof.
  revert out. induction l as [|[k v] l IH]; intros out Hnd Hl Hsize; cbn [visit_fields]; [by rewrite list_to_map_nil, (left_id_L ∅ (∪))|].
  cbn [map fst length] in *. apply NoDup_cons in Hnd as [Hk Hnd]. destruct (Hl k v) as [Hout Hkey]; [by left|].
  rewrite (proj2 (Z.eqb_neq _ _)), Hkey, Hout by lia. rewrite IH; [|done| |].
  - do 2 f_equal. rewrite list_to_map_cons. etransitivity; [symmetry; apply insert_union_r|apply insert_union_l]. by apply not_elem_of_list_to_map_1.
  - intros k' v' Hin. destruct (Hl k' v') as [Ho Hk']; [by right|]. split; [|done].
    rewrite lookup_insert_ne; [done|]. intros ->. apply Hk, list_elem_of_In, in_map_iff. exists (k', v'). split; [done|]. by apply list_elem_of_In.
  - rewrite map_size_insert_None by done. lia.
Qed.

Lemma read_capabilities s :
  set_len s <= MAX_CAPABILITIES ->
  visit_capabilities [] (sorted_capabilities s) = Ok (sorted_capabilities s) /\
  insert_capabilities ∅ (sorted_capabilities s) = Ok s /\
  Z.of_nat (length (sorted_capabilities s)) <= MAX_CAPABILITIES.
Proof.
  intros Hs. unfold set_len in Hs. rewrite <- length_sorted_capabilities in Hs. split_and!; [by apply visit_capabilities_spec| |done].
  rewrite insert_capabilities_spec; [|unfold sorted_capabilities; rewrite sort_by_perm; apply NoDup_elements|set_solver].
  f_equal. rewrite union_empty_r_L. apply set_eq. intros c. rewrite elem_of_list_to_set. unfold sorted_capabilities.
  by rewrite sort_by_perm, elem_of_elements.
Qed.

Lemma read_fields e :
  Z.of_nat (size (es_fields e)) <= MAX_FIELDS -> (forall k t, es_fields e !! k = Some t -> invalid_key k = false) ->
  visit_fields ∅ (sorted_fields e) = Ok e.
Proof.
  intros Hs Hk. rewrite visit_fields_spec; [|apply in_order_nodup| |rewrite map_size_empty, length_sorted_fields; lia].
  - destruct e as [f]. do 2 f_equal. rewrite map_union_empty. etransitivity; [|apply list_to_map_to_list].
    apply list_to_map_proper; [apply in_order_nodup|apply sort_by_perm].
  - intros k v Hin. rewrite lookup_empty. split; [done|]. eapply Hk. by apply (in_sorted_map String.compare), list_elem_of_In.
Qed.

Lemma whole_seconds l : valid_limits l = true -> seconds (as_secs (max_time l)) = max_time l.
Proof.
  unfold valid_limits, subsec_nanos, seconds, as_secs. intros Hv. bprop. pose proof (Z.div_mod (max_time l) 1000000000). lia.
Qed.

(** Whatever the reader returns is a validated manifest. *)
Lemma deserialize_accepted w m : manifest_deserialize w = Ok m -> accepted m.
Proof.
  unfold manifest_deserialize. do 6 (intros (? & _ & Hk)%result_bind_ok; revert Hk). destruct (_ <? _); [done|].
  intros (caps & _ & Hk)%result_bind_ok. destruct (from_parts _ _ _ _ _ _ _ _ _ _ _) as [m'|] eqn:Hf; [|done]. injection Hk as <-.
  pose proof (from_parts_ok _ _ _ _ _ _ _ _ _ _ _ _ Hf) as [Hm _]. unfold accepted. rewrite Hm. cbn. by rewrite <- Hm.
Qed.

(** ** Theorems *)
Section Theorems.
Context `{Sha256} `{Ed25519}.

(** C12. A module that verifies is one that the holder of the key published: if the manifest
    verifies, some published manifest agrees with it in every field but the signature, so it
    has the same code digest, capabilities, limits and declared effects, it is read-only, and
    the code that will run is the code at hand, is within the size limit and has exactly the
    digest that was published; otherwise the signature is a forgery on a message that was
    never published. *)
Theorem only_published_modules_verify (published : list AuditManifest) key m wasm v :
  manifest_typed m -> Forall (fun p => manifest_typed p /\ accepted p) published ->
  verify_manifest m wasm key = Ok v ->
  (exists p, In p published /\ vm_inner v = with_signature p (am_signature m) /\ am_side_effects p = ReadOnly /\
    vm_wasm v = wasm /\ sha256 wasm = am_sha256 p /\ Z.of_nat (length wasm) <= MAX_WASM_BYTES) \/
  (verify_strict key (canonical_unsigned m) (am_signature m) = true /\
   ~ In (canonical_unsigned m) (map canonical_unsigned published)).
Proof.
  intros Hm Hp (-> & Hacc & Hsize & Hsha & Hro & Hsig)%verify_manifest_ok. cbn [vm_inner vm_wasm].
  destruct (decide (canonical_unsigned m ∈ map canonical_unsigned published)) as [Hin|Hin]; rewrite list_elem_of_In in Hin; [left|by right].
  apply in_map_iff in Hin as (p & Heq & Hpin). rewrite List.Forall_forall in Hp. destruct (Hp p Hpin) as [Htp Hap].
  assert (with_signature p (am_signature m) = m) as Hw by (apply canonical_unsigned_inj; auto using accepted_valid).
  exists p. rewrite <- Hw in Hro, Hsha. by split_and!.
Qed.

(** Verification accepts what its key signed and nothing that could change a device: a
    validated manifest, signed, with code of at most the size limit, is verified exactly when
    the digest is that of the code and the declared effects are read-only, and is otherwise
    refused with the error that names the reason. *)
Theorem signed_manifest_verifies m wasm key :
  accepted m ->
  verify_manifest (manifest_sign m key) wasm (verifying_key key) =
    if MAX_WASM_BYTES <? Z.of_nat (length wasm) then Err WasmTooLarge
    else if bool_decide (sha256 wasm = am_sha256 m)
    then match am_side_effects m with
         | ReadOnly => Ok {| vm_inner := manifest_sign m key; vm_wasm := wasm |}
         | p => Err (UnsafeSideEffects p)
         end
    else Err DigestMismatch.
Proof.
  intros Hacc. unfold verify_manifest. cbn [manifest_sign with_signature am_module_id am_version am_sha256 am_target_kind am_capabilities
    am_expected_behavior am_side_effects am_rollback am_evidence_schema am_limits am_signature].
  assert (exists x, from_parts (am_module_id m) (am_version m) (am_sha256 m) (am_target_kind m) (am_capabilities m)
    (am_expected_behavior m) (am_side_effects m) (am_rollback m) (am_evidence_schema m) (am_limits m)
    (key_sign key (canonical_unsigned m)) = Ok x) as [x ->].
  { unfold accepted, from_parts in *. repeat case_match; try done. by eexists. }
  cbn [result_bind]. change (canonical_unsigned (with_signature m (key_sign key (canonical_unsigned m)))) with (canonical_unsigned m).
  rewrite verify_signed. cbn [negb]. destruct (_ <? _); [done|].
  destruct (decide (sha256 wasm = am_sha256 m)) as [Hs|Hs].
  - rewrite (bool_decide_true _ Hs), bool_decide_false by tauto. destruct (am_side_effects m); reflexivity.
  - rewrite (bool_decide_false _ Hs), bool_decide_true by done. done.
Qed.
End Theorems.

(** A validated manifest comes back from the wire unchanged: none of the bounds, duplicate
    and length checks of the reader refuses what the writer produced, and whole seconds lose
    nothing of the time limit. Conversely whatever the reader returns is a validated manifest. *)
Theorem manifest_wire_roundtrip m w m' :
  manifest_typed m -> accepted m ->
  manifest_deserialize (manifest_serialize m) = Ok m /\ (manifest_deserialize w = Ok m' -> accepted m').
Proof.
  intros Htyped Hacc. split; [|apply deserialize_accepted]. destruct Htyped as [_ _ _ _ Hsig].
  destruct (accepted_valid _ Hacc) as [_ Hid Hb Hd _ Hc _ Hf Hk Hl].
  assert (forall s, invalid_text s = false -> bounded_string s MAX_TEXT = Ok s) as Ht.
  { intros s Hs. unfold invalid_text in Hs. unfold bounded_string. bprop. by rewrite (proj2 (Z.ltb_ge _ _)) by lia. }
  destruct (read_capabilities _ Hc) as (Hvisit & Hinsert & Hlen). unfold manifest_deserialize.
  cbn [manifest_serialize w_module_id w_version w_sha256 w_target_kind w_capabilities w_expected_behavior
    w_side_effects w_rollback w_evidence_schema w_limits w_signature].
  unfold bounded_string at 1. rewrite (proj2 (Z.ltb_ge _ _)) by lia. cbn [result_bind].
  rewrite Hvisit. cbn [result_bind]. rewrite !Ht by done. cbn [result_bind].
  rewrite (read_fields _ Hf Hk). cbn [result_bind]. unfold bounded_signature. rewrite Hsig. cbn [Nat.eqb result_bind].
  rewrite (proj2 (Z.ltb_ge _ _)) by lia. rewrite Hinsert. cbn [result_bind]. rewrite (whole_seconds _ Hl).
  replace {| max_bytes := _ |} with (am_limits m) by (by destruct (am_limits m)).
  replace {| rp_required := _ |} with (am_rollback m) by (by destruct (am_rollback m)).
  unfold accepted in Hacc. by rewrite Hacc.
Qed.
