(* ===== verification/WasmSandbox.v ===== *)
(** * Audit modules: the sandbox

    crates/lattice-audit-wasm/src/runtime.rs over wasmtime and wasmparser, which are
    parameters. A guest is what the embedding can observe of it: it returns, traps, grows its
    memory or table, yields to the executor, or calls one of the two host functions with its
    memory at that moment. Every guest is a finite tree because its fuel is bounded. The
    embedding's part, the host functions with their checks and accounting, the limiter and the
    reading of the result, is written out. Awaiting gives the caller the chance to drop the
    execution: by cancellation or at the deadline of the broker, or by the timer of the
    sandbox itself. The channel of [HostProxy] only carries a call to the host in the same
    future and is the direct call here. *)

From S2P Require Import Prelude Time Text Bytes WasmManifest.

Definition WASM_PAGE_SIZE : Z := 65536.
Definition MAX_TABLE_ELEMENTS : Z := 64.
Definition i32_max : Z := 2147483647.

Inductive AuditHostError := HDenied | HBudgetExhausted | HDeadlineExceeded | HCancelled | HExchangeFailed.
#[global] Instance AuditHostError_eq_dec : EqDecision AuditHostError.
Proof. solve_decision. Defined.

(** Who drops a pending execution. *)
Inductive Stop := StopCancelled | StopDeadline | StopTimeout.

(** [trait AuditHost] as the sandbox uses it, over a host state; an answer is missing when the
    execution is dropped while it waits. *)
Class AuditHost (S : Type) := {
  host_deterministic : M S (Stop + Z);
  host_exchange : bytes -> Z -> M S (Stop + result bytes AuditHostError);
  host_poll : M S (option Stop)
}.

Inductive ExecutionFailure := FMemory | FTable | FRequest | FBytes | FInvalidAbi | FHost (e : AuditHostError).

Record LimitsState := { ls_max_memory : Z; ls_failure : option ExecutionFailure }.

Record StoreState := {
  st_limiter : LimitsState;
  st_requests : Z;
  st_max_requests : Z;
  st_max_bytes : Z;
  st_bytes : Z;
  st_failure : option ExecutionFailure
}.

Definition set_limiter (l : LimitsState) (s : StoreState) : StoreState := {|
  st_limiter := l; st_requests := st_requests s; st_max_requests := st_max_requests s;
  st_max_bytes := st_max_bytes s; st_bytes := st_bytes s; st_failure := st_failure s |}.
Definition fail (f : ExecutionFailure) (s : StoreState) : StoreState := {|
  st_limiter := st_limiter s; st_requests := st_requests s; st_max_requests := st_max_requests s;
  st_max_bytes := st_max_bytes s; st_bytes := st_bytes s; st_failure := Some f |}.
Definition charge (requests bytes : Z) (s : StoreState) : StoreState := {|
  st_limiter := st_limiter s; st_requests := st_requests s + requests; st_max_requests := st_max_requests s;
  st_max_bytes := st_max_bytes s; st_bytes := st_bytes s + bytes; st_failure := st_failure s |}.

(** ** The limiter *)
Definition reject (f : ExecutionFailure) (l : LimitsState) : LimitsState :=
  {| ls_max_memory := ls_max_memory l; ls_failure := Some f |}.

(** [Err] ends the guest, [Ok] lets it grow. *)
Definition memory_growing (desired : Z) (l : LimitsState) : result unit LimitsState :=
  if ls_max_memory l <? desired then Err (reject FMemory l) else Ok tt.
Definition table_growing (desired : Z) (l : LimitsState) : result unit LimitsState :=
  if MAX_TABLE_ELEMENTS <? desired then Err (reject FTable l) else Ok tt.

(** ** Guests *)
Inductive Trap := OutOfFuel | Interrupt | OtherTrap.

Inductive Guest (R : Type) :=
  | GDone (r : R)
  | GTrap (t : Trap)
  | GYield (k : Guest R)
  | GMemoryGrowing (desired : Z) (k : Guest R)
  | GTableGrowing (desired : Z) (k : Guest R)
  | GDeterministic (k : Z -> Guest R)
  | GExchange (req_ptr req_len out_ptr out_cap : Z) (memory : option bytes) (k : bytes -> Z -> Guest R).
Arguments GDone {R} r.
Arguments GTrap {R} t.
Arguments GYield {R} k.
Arguments GMemoryGrowing {R} desired k.
Arguments GTableGrowing {R} desired k.
Arguments GDeterministic {R} k.
Arguments GExchange {R} req_ptr req_len out_ptr out_cap memory k.

Inductive GuestEnd (R : Type) := GReturned (r : R) | GTrapped (t : Trap) | GStopped (s : Stop).
Arguments GReturned {R} r.
Arguments GTrapped {R} t.
Arguments GStopped {R} s.

(** ** The host functions *)
(** [usize::try_from] of an [i32] *)
Definition usize_of_i32 (z : Z) : option Z := if 0 <=? z then Some z else None.
(** [as i32] of a [u32] *)
Definition as_i32 (z : Z) : Z := if z <=? i32_max then z else z - 4294967296.

(** [ptr.checked_add(len).filter(|end| *end <= data_size)] *)
Definition range_end (memory : bytes) (ptr len : Z) : option Z :=
  match checked_add_u64 ptr len with
  | Some e => if e <=? Z.of_nat (length memory) then Some e else None
  | None => None
  end.

Definition slice (memory : bytes) (from len : Z) : bytes := take (Z.to_nat len) (drop (Z.to_nat from) memory).

(** [Memory::write] *)
Definition mem_write (memory : bytes) (at_ : Z) (data : bytes) : option bytes :=
  if at_ + Z.of_nat (length data) <=? Z.of_nat (length memory)
  then Some (take (Z.to_nat at_) memory ++ data ++ drop (Z.to_nat at_ + length data) memory)
  else None.

(** What a host function gives back to the guest: a value, or an error that ends it. *)
Inductive HostReturn (A : Type) := HValue (a : A) | HTrap | HDropped (s : Stop).
Arguments HValue {A} a.
Arguments HTrap {A}.
Arguments HDropped {A} s.

Section Host.
Context {S : Type} `{AuditHost S}.

Definition audit_deterministic (st : StoreState) : M S (HostReturn Z * StoreState) :=
  if st_max_requests st <=? st_requests st then mret_st (HTrap, fail FRequest st)
  else if u32_max <? st_requests st + 1 then mret_st (HTrap, st)
  else
    let st := charge 1 0 st in
    let! v := host_deterministic in
    mret_st (match v with inl s => HDropped s | inr v => HValue (as_i32 v) end, st).

Definition audit_exchange (req_ptr req_len out_ptr out_cap : Z) (memory : option bytes) (st : StoreState)
  : M S (HostReturn (bytes * Z) * StoreState) :=
  match usize_of_i32 req_ptr, usize_of_i32 req_len, usize_of_i32 out_ptr, usize_of_i32 out_cap with
  | Some req_ptr, Some req_len, Some out_ptr, Some out_cap =>
    match memory with
    | None => mret_st (HTrap, st)
    | Some memory =>
      if bool_decide (range_end memory req_ptr req_len = None) || bool_decide (range_end memory out_ptr out_cap = None)
      then mret_st (HTrap, fail FInvalidAbi st)
      else match checked_add_u64 req_len out_cap with
      | None => mret_st (HTrap, fail FBytes st)
      | Some exchange_bytes =>
        if saturating_sub_u64 (st_max_bytes st) (st_bytes st) <? exchange_bytes
        then mret_st (HTrap, fail FBytes st)
        else if st_max_requests st <=? st_requests st then mret_st (HTrap, fail FRequest st)
        else
          let st := charge 1 exchange_bytes st in
          let request := slice memory req_ptr req_len in
          let! answer := host_exchange request out_cap in
          mret_st
            match answer with
            | inl s => (HDropped s, st)
            | inr (Err e) => (HTrap, fail (FHost e) st)
            | inr (Ok response) =>
              if out_cap <? Z.of_nat (length response) then (HTrap, fail (FHost HExchangeFailed) st)
              else
                let st := charge 0 (- (out_cap - Z.of_nat (length response))) st in
                match mem_write memory out_ptr response with
                | None => (HTrap, st)
                | Some memory' =>
                  if i32_max <? Z.of_nat (length response) then (HTrap, st)
                  else (HValue (memory', Z.of_nat (length response)), st)
                end
            end
      end
    end
  | _, _, _, _ => mret_st (HTrap, fail FInvalidAbi st)
  end.

(** ** Running a guest *)
Fixpoint run_guest {R : Type} (g : Guest R) (st : StoreState) : M S (GuestEnd R * StoreState) :=
  match g with
  | GDone r => mret_st (GReturned r, st)
  | GTrap t => mret_st (GTrapped t, st)
  | GYield k =>
    let! stop := host_poll in
    match stop with Some s => mret_st (GStopped s, st) | None => run_guest k st end
  | GMemoryGrowing desired k =>
    match memory_growing desired (st_limiter st) with
    | Err l => mret_st (GTrapped OtherTrap, set_limiter l st)
    | Ok _ => run_guest k st
    end
  | GTableGrowing desired k =>
    match table_growing desired (st_limiter st) with
    | Err l => mret_st (GTrapped OtherTrap, set_limiter l st)
    | Ok _ => run_guest k st
    end
  | GDeterministic k =>
    let! r := audit_deterministic st in
    let '(v, st) := r in
    match v with
    | HValue v => run_guest (k v) st
    | HTrap => mret_st (GTrapped OtherTrap, st)
    | HDropped s => mret_st (GStopped s, st)
    end
  | GExchange req_ptr req_len out_ptr out_cap memory k =>
    let! r := audit_exchange req_ptr req_len out_ptr out_cap memory st in
    let '(v, st) := r in
    match v with
    | HValue (memory', n) => run_guest (k memory' n) st
    | HTrap => mret_st (GTrapped OtherTrap, st)
    | HDropped s => mret_st (GStopped s, st)
    end
  end.
End Host.

Definition map_error (st : StoreState) (t : Trap) : AuditError :=
  match (match st_failure st with Some f => Some f | None => ls_failure (st_limiter st) end) with
  | Some FMemory => MemoryLimitExceeded
  | Some FTable => TableLimitExceeded
  | Some FRequest => RequestLimitExceeded
  | Some FBytes => AuditBudgetExhausted
  | Some FInvalidAbi => InvalidAbi
  | Some (FHost HBudgetExhausted) => RequestLimitExceeded
  | Some (FHost HDeadlineExceeded) => TimedOut
  | Some (FHost HCancelled) => AuditCancelled
  | Some (FHost _) => HostRejected
  | None => match t with OutOfFuel => FuelExhausted | Interrupt => TimedOut | OtherTrap => WasmTrap end
  end.

(** ** Modules *)
Inductive ValType := I32 | I64 | OtherVal.
#[global] Instance ValType_eq_dec : EqDecision ValType.
Proof. solve_decision. Defined.
Inductive ExternType := FuncType (params results : list ValType) | MemoryExtern | OtherExtern.

(** What wasmparser yields of the sections that the code matches; [None] is a malformed item. *)
Record MemoryType := {
  my_memory64 : bool; my_shared : bool; my_page_size_log2 : option Z; my_initial : Z; my_maximum : option Z }.
Record TableType := { ty_table64 : bool; ty_shared : bool; ty_initial : Z; ty_maximum : option Z }.
Record ImportItem := { im_module : string; im_name : string; im_is_func : bool }.
Inductive Payload :=
  | StartSection
  | ImportSection (l : list (option ImportItem))
  | MemorySection (l : list (option MemoryType))
  | TableSection (l : list (option TableType))
  | OtherPayload.

(** wasmtime and wasmparser. *)
Class Wasmtime := {
  Module_ : Type;
  module_new : bytes -> option Module_;
  module_imports : Module_ -> list (string * string * ExternType);
  module_exports : Module_ -> list (string * ExternType);
  parse_all : bytes -> list (option Payload);
  (** Instantiation ends with the exported memory. *)
  instantiate : Module_ -> Guest (option bytes);
  (** [run] from a memory and the length of the input, to the packed result and the memory. *)
  call_run : Module_ -> bytes -> Z -> Guest (Z * bytes)
}.

Definition import_label (m n : string) : string := (m +:+ "::" +:+ n)%string.

Fixpoint check_imports (l : list (option ImportItem)) : result unit AuditError :=
  match l with
  | [] => Ok tt
  | None :: _ => Err InvalidModule
  | Some i :: l' =>
    if bool_decide (im_module i = "audit"%string)
       && (bool_decide (im_name i = "deterministic"%string) || bool_decide (im_name i = "exchange"%string))
    then if negb (im_is_func i) then Err InvalidAbi else check_imports l'
    else Err (ForbiddenImport (import_label (im_module i) (im_name i)))
  end.

Fixpoint check_memories (limits : Limits) (memories : Z) (l : list (option MemoryType)) : result Z AuditError :=
  match l with
  | [] => Ok memories
  | o :: l' =>
    if u32_max <? memories + 1 then Err MemoryLimitExceeded
    else match o with
    | None => Err InvalidModule
    | Some m =>
      if my_memory64 m || my_shared m || bool_decide (is_Some (my_page_size_log2 m))
         || (max_memory_pages limits <? my_initial m)
         || is_some_and (fun x => max_memory_pages limits <? x) (my_maximum m)
      then Err MemoryLimitExceeded
      else check_memories limits (memories + 1) l'
    end
  end.

Fixpoint check_tables (tables : Z) (l : list (option TableType)) : result Z AuditError :=
  match l with
  | [] => Ok tables
  | o :: l' =>
    if u32_max <? tables + 1 then Err TableLimitExceeded
    else match o with
    | None => Err InvalidModule
    | Some t =>
      if ty_table64 t || ty_shared t || (MAX_TABLE_ELEMENTS <? ty_initial t)
         || is_some_and (fun x => MAX_TABLE_ELEMENTS <? x) (ty_maximum t)
      then Err TableLimitExceeded
      else check_tables (tables + 1) l'
    end
  end.

Fixpoint check_payloads (limits : Limits) (memories tables : Z) (l : list (option Payload)) : result unit AuditError :=
  match l with
  | [] =>
    if negb (memories =? 1) then Err InvalidAbi
    else if 1 <? tables then Err TableLimitExceeded
    else Ok tt
  | None :: _ => Err InvalidModule
  | Some p :: l' =>
    match p with
    | StartSection => Err InvalidAbi
    | ImportSection s => let? _ := check_imports s in check_payloads limits memories tables l'
    | MemorySection s => let? n := check_memories limits memories s in check_payloads limits n tables l'
    | TableSection s => let? n := check_tables tables s in check_payloads limits memories n l'
    | OtherPayload => check_payloads limits memories tables l'
    end
  end.

Definition page_bytes (pages : Z) : result Z AuditError :=
  if pages * WASM_PAGE_SIZE <=? u64_max then Ok (pages * WASM_PAGE_SIZE) else Err MemoryLimitExceeded.

Section Sandbox.
Context `{Wasmtime}.

Definition validate_static_limits (wasm : bytes) (limits : Limits) : result unit AuditError :=
  check_payloads limits 0 0 (parse_all wasm).

Definition deterministic_type (t : ExternType) : bool :=
  match t with FuncType [] [I32] => true | _ => false end.
Definition exchange_type (t : ExternType) : bool :=
  match t with FuncType [I32; I32; I32; I32] [I32] => true | _ => false end.
Definition run_type (t : ExternType) : bool :=
  match t with FuncType [I32; I32] [I64] => true | _ => false end.

Fixpoint check_module_imports (l : list (string * string * ExternType)) : result unit AuditError :=
  match l with
  | [] => Ok tt
  | (m, n, t) :: l' =>
    if bool_decide (m = "audit"%string) && bool_decide (n = "deterministic"%string)
    then if deterministic_type t then check_module_imports l' else Err InvalidAbi
    else if bool_decide (m = "audit"%string) && bool_decide (n = "exchange"%string)
    then if exchange_type t then check_module_imports l' else Err InvalidAbi
    else Err (ForbiddenImport (import_label m n))
  end.

Definition find_export (name : string) (m : Module_) : option ExternType :=
  option_map snd (iter_find (fun e => bool_decide (fst e = name)) (module_exports m)).

Definition validate_abi (m : Module_) : result unit AuditError :=
  let? _ := check_module_imports (module_imports m) in
  let? run := ok_or (find_export "run" m) InvalidAbi in
  let? memory := ok_or (find_export "memory" m) InvalidAbi in
  match memory with
  | MemoryExtern => if run_type run then Ok tt else Err InvalidAbi
  | _ => Err InvalidAbi
  end.

Record CompiledModule := { cm_module : Module_ }.

(** [CompiledModule::compile] *)
Definition compile (wasm : bytes) : result CompiledModule AuditError :=
  let? m := ok_or (module_new wasm) InvalidModule in
  let? _ := validate_abi m in
  Ok {| cm_module := m |}.

Record Sandbox := { sb_compiled : CompiledModule; sb_limits : Limits }.

(** ** Admission *)
Definition check_limits (verified : VerifiedManifest) (limits : Limits) : result unit AuditError :=
  let signed := am_limits (vm_inner verified) in
  if negb (valid_limits limits) || (max_bytes signed <? max_bytes limits) || (max_requests signed <? max_requests limits)
     || (max_time signed <? max_time limits) || (max_fuel signed <? max_fuel limits)
     || (max_memory_pages signed <? max_memory_pages limits)
  then Err (InvalidManifest "invalid effective limits")
  else Ok tt.

(** [Sandbox::compile] runs on a blocking thread. *)
Definition sandbox_compile (verified : VerifiedManifest) : result CompiledModule AuditError :=
  compile (vm_wasm verified).

Definition with_compiled (verified : VerifiedManifest) (compiled : CompiledModule) (limits : Limits)
  : result Sandbox AuditError :=
  let? _ := check_limits verified limits in
  let? _ := validate_static_limits (vm_wasm verified) limits in
  Ok {| sb_compiled := compiled; sb_limits := limits |}.

Definition new_with_limits (verified : VerifiedManifest) (limits : Limits) : result Sandbox AuditError :=
  let? _ := check_limits verified limits in
  let? compiled := sandbox_compile verified in
  with_compiled verified compiled limits.

Definition sandbox_new (verified : VerifiedManifest) : result Sandbox AuditError :=
  new_with_limits verified (am_limits (vm_inner verified)).

(** ** Execution *)
Definition initial_store (limits : Limits) (max_memory input_len : Z) : StoreState := {|
  st_limiter := {| ls_max_memory := max_memory; ls_failure := None |};
  st_requests := 0; st_max_requests := max_requests limits; st_max_bytes := max_bytes limits;
  st_bytes := input_len; st_failure := None |}.

(** [(packed >> 32) as u64] and [packed as u32 as u64] of an [i64]. *)
Definition packed_ptr (packed : Z) : Z := Z.shiftr packed 32 mod 18446744073709551616.
Definition packed_len (packed : Z) : Z := packed mod 4294967296.

(** Reading the result out of the guest's memory. *)
Definition read_output (limits : Limits) (st : StoreState) (packed : Z) (memory : bytes) : result bytes AuditError :=
  let ptr := packed_ptr packed in
  let len := packed_len packed in
  if max_bytes limits <? len then Err OutputLimitExceeded
  else if saturating_sub_u64 (st_max_bytes st) (st_bytes st) <? len then Err AuditBudgetExhausted
  else match checked_add_u64 ptr len with
  | None => Err InvalidAbi
  | Some e => if Z.of_nat (length memory) <? e then Err InvalidAbi else Ok (slice memory ptr len)
  end.

Context {S : Type} `{!AuditHost S}.

Definition execute_inner (sb : Sandbox) (input : bytes) : M S (Stop + result bytes AuditError) :=
  match page_bytes (max_memory_pages (sb_limits sb)) with
  | Err e => mret_st (inr (Err e))
  | Ok max_memory =>
    let! r := run_guest (instantiate (cm_module (sb_compiled sb)))
                (initial_store (sb_limits sb) max_memory (Z.of_nat (length input))) in
    let '(e, st) := r in
    match e with
    | GStopped s => mret_st (inl s)
    | GTrapped t => mret_st (inr (Err (map_error st t)))
    | GReturned None => mret_st (inr (Err InvalidAbi))
    | GReturned (Some memory) =>
      if Z.of_nat (length memory) <? Z.of_nat (length input) then mret_st (inr (Err MemoryLimitExceeded))
      else match mem_write memory 0 input with
      | None => mret_st (inr (Err MemoryLimitExceeded))
      | Some memory =>
        let! r := run_guest (call_run (cm_module (sb_compiled sb)) memory (Z.of_nat (length input))) st in
        let '(e, st) := r in
        mret_st
          match e with
          | GStopped s => inl s
          | GTrapped t => inr (Err (map_error st t))
          | GReturned (packed, memory) => inr (read_output (sb_limits sb) st packed memory)
          end
      end
    end
  end.

(** The lock that serialises the runs of one compiled module is an await point before the
    timer of the sandbox starts. *)
Definition sandbox_execute (sb : Sandbox) (input : bytes) : M S (Stop + result bytes AuditError) :=
  if (max_bytes (sb_limits sb) <? Z.of_nat (length input)) || (i32_max <? Z.of_nat (length input))
  then mret_st (inr (Err InputLimitExceeded))
  else
    let! stop := host_poll in
    match stop with
    | Some StopCancelled => mret_st (inl StopCancelled)
    | Some StopDeadline => mret_st (inl StopDeadline)
    | _ =>
      let! r := execute_inner sb input in
      mret_st (match r with inl StopTimeout => inr (Err TimedOut) | r => r end)
    end.
End Sandbox.

Section Rule.
Context {S : Type} `{AuditHost S} (max_req max_b : Z).
(** [I r b s]: the host state after [r] requests and [b] accounted bytes; [J]: at any end. *)
Context (I : Z -> Z -> S -> Prop) (J : S -> Prop).

Class HostKeeps : Prop := {
  keeps_end : forall r b s, I r b s -> J s;
  keeps_poll : forall r b s, I r b s -> wp host_poll (fun _ s' => I r b s') s;
  keeps_deterministic : forall r b s, I r b s -> r < max_req ->
    wp host_deterministic (fun a s' => match a with inl _ => J s' | inr _ => I (r + 1) b s' end) s;
  keeps_exchange : forall r b s request cap, I r b s -> r < max_req -> 0 <= cap ->
    Z.of_nat (length request) + cap <= max_b - b ->
    wp (host_exchange request cap) (fun a s' =>
      match a with
      | inr (Ok response) =>
        J s' /\ (Z.of_nat (length response) <= cap ->
                 I (r + 1) (b + Z.of_nat (length request) + Z.of_nat (length response)) s')
      | _ => J s'
      end) s
}.
Context `{!HostKeeps}.

(** The run ends here without a result for the caller. *)
Ltac ended := try apply wp_ret; split; [solve [assumption | eapply keeps_end; eassumption]|cbn; intros ? ?; discriminate].

(** The accounting of a store in use. *)
Definition store_ok (st : StoreState) : Prop :=
  st_max_requests st = max_req /\ st_max_bytes st = max_b /\ st_bytes st <= max_b.

Definition run_post {R} (p : GuestEnd R * StoreState) (s' : S) : Prop :=
  J s' /\ forall r, fst p = GReturned r -> store_ok (snd p) /\ I (st_requests (snd p)) (st_bytes (snd p)) s'.

Lemma length_slice memory from len :
  0 <= from -> 0 <= len -> from + len <= Z.of_nat (length memory) -> Z.of_nat (length (slice memory from len)) = len.
Proof. intros. unfold slice. rewrite length_take, length_drop. lia. Qed.

Lemma range_end_some memory ptr len : range_end memory ptr len <> None -> ptr + len <= Z.of_nat (length memory).
Proof.
  unfold range_end, checked_add_u64. destruct (_ <=? u64_max); [|done]. destruct (_ <=? Z.of_nat _) eqn:E; [|done]. intros _. bprop. lia.
Qed.

(** One exchange: an answer that reaches the guest is accounted for exactly. *)
Lemma audit_exchange_rule a b c d memory st s :
  store_ok st -> I (st_requests st) (st_bytes st) s ->
  wp (audit_exchange a b c d memory st) (fun p s' =>
    J s' /\ forall v, fst p = HValue v -> store_ok (snd p) /\ I (st_requests (snd p)) (st_bytes (snd p)) s') s.
Proof.
  intros (Hr & Hb & Hle) Hi. assert (J s) as Hj by (by eapply keeps_end). unfold audit_exchange, usize_of_i32.
  destruct (0 <=? a) eqn:Ea, (0 <=? b) eqn:Eb, (0 <=? c) eqn:Ec, (0 <=? d) eqn:Ed; try (ended).
  destruct memory as [memory|]; [|ended]. destruct (_ || _) eqn:Er; [ended|].
  destruct (checked_add_u64 b d) as [n|] eqn:En; [|ended].
  unfold checked_add_u64 in En. destruct (b + d <=? u64_max) eqn:Eu; [|done]. injection En as <-.
  destruct (saturating_sub_u64 _ _ <? _) eqn:El; [ended|]. destruct (st_max_requests st <=? _) eqn:Eq; [ended|].
  bprop. unfold saturating_sub_u64 in El. repeat match goal with Hn : range_end _ _ _ <> None |- _ => apply range_end_some in Hn end.
  assert (Z.of_nat (length (slice memory a b)) = b) as Hlen by (apply length_slice; lia).
  apply wp_bind. eapply wp_mono; [eapply (keeps_exchange _ _ _ (slice memory a b) d Hi); lia|].
  intros [stop|[response|e]] s' Hpost; apply wp_ret; [ended| |ended].
  destruct Hpost as [Hj' Hi']. destruct (d <? _) eqn:Eo; [ended|]. bprop. specialize (Hi' ltac:(lia)).
  destruct (mem_write _ _ _) as [memory'|]; [|ended]. destruct (i32_max <? _); [ended|]. split; [done|]. intros v _.
  cbn [snd charge st_requests st_bytes]. rewrite Hlen in Hi'. unfold store_ok. cbn. split; [lia|].
  replace (st_requests st + 1 + 0) with (st_requests st + 1) by lia.
  by replace (st_bytes st + (b + d) + - (d - Z.of_nat (length response))) with (st_bytes st + b + Z.of_nat (length response)) by lia.
Qed.

Lemma run_guest_rule {R} (g : Guest R) st s :
  store_ok st -> I (st_requests st) (st_bytes st) s -> wp (run_guest g st) run_post s.
Proof.
  revert st s. induction g as [r|t|k IH|n k IH|n k IH|k IH|a b c d memory k IH]; intros st s Hok Hi; cbn [run_guest];
    pose proof (keeps_end _ _ _ Hi) as Hj.
  - apply wp_ret. split; [done|]. by intros ? _.
  - ended.
  - apply wp_bind. eapply wp_mono; [by apply keeps_poll|]. intros [stop|] s' Hi'; [|by apply IH].
    ended.
  - unfold memory_growing. destruct (_ <? _); [ended|by apply IH].
  - unfold table_growing. destruct (_ <? _); [ended|by apply IH].
  - apply wp_bind. unfold audit_deterministic. destruct Hok as (Hr & Hb & Hle).
    destruct (_ <=? _) eqn:E1; [ended|]. destruct (u32_max <? _) eqn:E2; [ended|]. bprop.
    apply wp_bind. eapply wp_mono; [apply (keeps_deterministic _ _ _ Hi); lia|].
    intros [stop|v] s' Hpost; apply wp_ret; [ended|]. apply IH; [|cbn; by rewrite Z.add_0_r].
    unfold store_ok. cbn. lia.
  - apply wp_bind. eapply wp_mono; [by apply audit_exchange_rule|]. intros [[[memory' v]| |stop] st'] s' [Hj' Hpost].
    + destruct (Hpost (memory', v) eq_refl) as [Hok' Hi']. by apply IH.
    + ended.
    + ended.
Qed.

(** A whole execution: on success the output fits in what the counters leave. *)
Context `{Wasmtime}.

Definition execute_post (r : Stop + result bytes AuditError) (s' : S) : Prop :=
  J s' /\ forall out, r = inr (Ok out) -> exists n b, I n b s' /\ b + Z.of_nat (length out) <= max_b.

Lemma read_output_ok limits st packed memory out :
  read_output limits st packed memory = Ok out -> st_bytes st <= st_max_bytes st ->
  st_bytes st + Z.of_nat (length out) <= st_max_bytes st /\
  exists ptr, out = slice memory ptr (Z.of_nat (length out)) /\ ptr + Z.of_nat (length out) <= Z.of_nat (length memory).
Proof.
  unfold read_output, saturating_sub_u64, checked_add_u64. intros Hr Hle.
  destruct (max_bytes limits <? packed_len packed) eqn:E1; [done|]. destruct (Z.max _ _ <? _) eqn:E2; [done|].
  destruct (_ <=? u64_max) eqn:E3; [|done]. destruct (Z.of_nat (length memory) <? _) eqn:E4; [done|]. injection Hr as <-. bprop. assert (0 <= packed_len packed /\ 0 <= packed_ptr packed) as [Hl Hp].
  { unfold packed_len, packed_ptr. split; apply Z.mod_pos_bound; lia. }
  rewrite length_slice by lia. split; [lia|]. by exists (packed_ptr packed).
Qed.

Lemma execute_inner_rule sb input s :
  max_requests (sb_limits sb) = max_req -> max_bytes (sb_limits sb) = max_b -> Z.of_nat (length input) <= max_b ->
  I 0 (Z.of_nat (length input)) s -> wp (execute_inner sb input) execute_post s.
Proof.
  intros Hr Hb Hin Hi. pose proof (keeps_end _ _ _ Hi) as Hj. unfold execute_inner.
  destruct (page_bytes _) as [max_memory|e]; [|ended]. apply wp_bind.
  eapply wp_mono; [apply run_guest_rule; [|exact Hi]; by repeat split|]. intros [[[memory|]|t|stop] st] s' [Hj' Hpost];
    try (ended).
  destruct (Hpost _ eq_refl) as [Hok Hi']. cbn [snd] in *. destruct (_ <? _); [ended|].
  destruct (mem_write _ _ _) as [memory'|]; [|ended]. apply wp_bind.
  eapply wp_mono; [by apply run_guest_rule|]. intros [[[packed final]|t|stop] st'] s'' [Hj'' Hpost']; apply wp_ret; split; try done.
  intros out [= Ho]. destruct (Hpost' _ eq_refl) as [(_ & Hmb & Hle) Hi'']. cbn [snd] in *.
  apply read_output_ok in Ho as [Ho _]; [|lia]. exists (st_requests st'), (st_bytes st'). split; [done|lia].
Qed.

Lemma sandbox_execute_rule sb input s :
  max_requests (sb_limits sb) = max_req -> max_bytes (sb_limits sb) = max_b ->
  I 0 (Z.of_nat (length input)) s -> wp (sandbox_execute sb input) execute_post s.
Proof.
  intros Hr Hb Hi. pose proof (keeps_end _ _ _ Hi) as Hj. unfold sandbox_execute.
  destruct (_ || _) eqn:E; [ended|]. bprop. apply wp_bind. eapply wp_mono; [by apply keeps_poll|].
  intros stop s' Hi'. pose proof (keeps_end _ _ _ Hi') as Hj'.
  assert (wp (let! r := execute_inner sb input in mret_st (match r with inl StopTimeout => inr (Err TimedOut) | r => r end))
            execute_post s') as Hrun.
  { apply wp_bind. eapply wp_mono; [apply execute_inner_rule; try done; lia|]. intros [[]|r] s'' [Hj'' Hpost]; apply wp_ret; by split. }
  destruct stop as [[]|]; try (ended); exact Hrun.
Qed.
End Rule.

(** ** What an admitted module looks like *)
Definition memories_of (p : option Payload) : list (option MemoryType) :=
  match p with Some (MemorySection s) => s | _ => [] end.
Definition tables_of (p : option Payload) : list (option TableType) :=
  match p with Some (TableSection s) => s | _ => [] end.
Definition imports_of (p : option Payload) : list (option ImportItem) :=
  match p with Some (ImportSection s) => s | _ => [] end.

(** One of the two audited host functions. *)
Definition audited_import (i : option ImportItem) : Prop :=
  exists x, i = Some x /\ im_module x = "audit"%string /\
    (im_name x = "deterministic"%string \/ im_name x = "exchange"%string) /\ im_is_func x = true.
Definition bounded_memory (pages : Z) (o : option MemoryType) : Prop :=
  exists m, o = Some m /\ my_memory64 m = false /\ my_shared m = false /\ my_page_size_log2 m = None /\
    my_initial m <= pages /\ forall x, my_maximum m = Some x -> x <= pages.
Definition bounded_table (o : option TableType) : Prop :=
  exists t, o = Some t /\ ty_table64 t = false /\ ty_shared t = false /\
    ty_initial t <= MAX_TABLE_ELEMENTS /\ forall x, ty_maximum t = Some x -> x <= MAX_TABLE_ELEMENTS.

Lemma is_some_and_false {A} (p : A -> bool) o x : is_some_and p o = false -> o = Some x -> p x = false.
Proof. by intros Hp ->. Qed.

Lemma check_imports_ok l : check_imports l = Ok tt -> Forall audited_import l.
Proof.
  induction l as [|[i|] l IH]; cbn [check_imports]; [by constructor| |done]. destruct (_ && _) eqn:E; [|done].
  destruct (im_is_func i) eqn:Ef; [|done]. cbn [negb]. intros Hl. constructor; [|by apply IH]. bprop.
  exists i. split_and!; try done. match goal with Ho : _ || _ = true |- _ => apply orb_true_iff in Ho as [Ho|Ho] end; bprop; auto.
Qed.

Lemma check_memories_ok limits n l k :
  check_memories limits n l = Ok k -> Forall (bounded_memory (max_memory_pages limits)) l /\ k = n + Z.of_nat (length l).
Proof.
  revert n. induction l as [|[m|] l IH]; intros n; cbn [check_memories]; [intros [= ->]; split; [constructor|cbn; lia]| |].
  - destruct (u32_max <? n + 1); [done|]. destruct (_ || _) eqn:E; [done|]. intros [Hl ->]%IH. split; [|cbn [length]; lia].
    constructor; [|done]. bprop. exists m. split_and!; try done.
    + destruct (my_page_size_log2 m); [|done]. exfalso. match goal with Hn : ~ is_Some (Some _) |- _ => apply Hn end. by eexists.
    + intros x Hx. match goal with Hm : is_some_and _ _ = false |- _ => apply (is_some_and_false _ _ _ Hm) in Hx end. bprop. lia.
  - by destruct (u32_max <? n + 1).
Qed.

Lemma check_tables_ok n l k : check_tables n l = Ok k -> Forall bounded_table l /\ k = n + Z.of_nat (length l).
Proof.
  revert n. induction l as [|[t|] l IH]; intros n; cbn [check_tables]; [intros [= ->]; split; [constructor|cbn; lia]| |].
  - destruct (u32_max <? n + 1); [done|]. destruct (_ || _) eqn:E; [done|]. intros [Hl ->]%IH. split; [|cbn [length]; lia].
    constructor; [|done]. bprop. exists t. split_and!; try done.
    intros x Hx. match goal with Hm : is_some_and _ _ = false |- _ => apply (is_some_and_false _ _ _ Hm) in Hx end. bprop. lia.
  - by destruct (u32_max <? n + 1).
Qed.

Lemma check_payloads_ok limits n t l :
  check_payloads limits n t l = Ok tt ->
  ~ In (Some StartSection) l /\ Forall audited_import (concat (map imports_of l)) /\
  Forall (bounded_memory (max_memory_pages limits)) (concat (map memories_of l)) /\
  Forall bounded_table (concat (map tables_of l)) /\
  n + Z.of_nat (length (concat (map memories_of l))) = 1 /\ t + Z.of_nat (length (concat (map tables_of l))) <= 1.
Proof.
  revert n t. induction l as [|[p|] l IH]; intros n t; cbn [check_payloads]; [|destruct p as [|s|s|s|]|done].
  - destruct (n =? 1) eqn:En; [|done]. destruct (1 <? t) eqn:Et; [done|]. intros _. bprop. cbn. split_and!; try constructor; try lia.
  - done.
  - intros ([] & Hs%check_imports_ok & Hk)%result_bind_ok. destruct (IH _ _ Hk) as (? & ? & ? & ? & ? & ?). cbn [map concat imports_of memories_of tables_of app].
    split_and!; try done; [by intros [[=]|?]|by apply Forall_app].
  - intros (k & [Hs ->]%check_memories_ok & Hk)%result_bind_ok. destruct (IH _ _ Hk) as (? & ? & ? & ? & ? & ?). cbn [map concat imports_of memories_of tables_of app].
    split_and!; try done; [by intros [[=]|?]|by apply Forall_app|rewrite length_app; lia].
  - intros (k & [Hs ->]%check_tables_ok & Hk)%result_bind_ok. destruct (IH _ _ Hk) as (? & ? & ? & ? & ? & ?). cbn [map concat imports_of memories_of tables_of app].
    split_and!; try done; [by intros [[=]|?]|by apply Forall_app|rewrite length_app; lia].
  - intros Hk. destruct (IH _ _ Hk) as (? & ? & ? & ? & ? & ?). cbn [map concat imports_of memories_of tables_of app].
    split_and!; try done. by intros [[=]|?].
Qed.

(** A sandbox is built only for a module that can reach nothing but the two audited host
    functions, has no start function, exactly one bounded memory and at most one bounded table,
    and only with limits within the signed ones. *)
Theorem admitted_module_shape `{Wasmtime} v limits sb :
  new_with_limits v limits = Ok sb ->
  let l := parse_all (vm_wasm v) in
  let signed := am_limits (vm_inner v) in
  ~ In (Some StartSection) l /\ Forall audited_import (concat (map imports_of l)) /\
  (exists m, concat (map memories_of l) = [m] /\ bounded_memory (max_memory_pages limits) m) /\
  Forall bounded_table (concat (map tables_of l)) /\ (length (concat (map tables_of l)) <= 1)%nat /\
  sb_limits sb = limits /\ valid_limits limits = true /\ max_bytes limits <= max_bytes signed /\
  max_requests limits <= max_requests signed /\ max_time limits <= max_time signed /\
  max_fuel limits <= max_fuel signed /\ max_memory_pages limits <= max_memory_pages signed.
Proof.
  unfold new_with_limits, with_compiled. intros ([] & Hl & (c & _ & ([] & _ & ([] & Hv & [= <-])%result_bind_ok)%result_bind_ok)%result_bind_ok)%result_bind_ok.
  apply check_payloads_ok in Hv as (Hs & Hi & Hm & Ht & Hn & Htn). cbn zeta.
  unfold check_limits in Hl. destruct (_ || _) eqn:E; [done|]. bprop.
  split_and!; try done; try lia.
  destruct (concat (map memories_of _)) as [|m [|m' l]]; cbn [length] in Hn; [lia| |lia]. exists m. split; [done|]. by inversion Hm.
Qed.
