(* ===== verification/WasmBroker.v ===== *)
(** * Audit modules: targets, budget and broker

    crates/lattice-audit-wasm/src/target.rs and broker.rs. The authorizer, the transport, the
    clock, the cancellation token and the timers are the world that the broker runs in; every
    authorization and every exchange is recorded in a log so that theorems can speak of what
    reached the network. Mutexes are held for one definition each and are never poisoned,
    since no code panics under them. The cache of compiled modules is shared by concurrent
    requests: it is read and written in two separate steps. *)

From S2P Require Import Prelude Time Text Bytes Net Neighbor WasmManifest WasmSandbox.

(** ** Targets *)
Inductive TargetError := InvalidTarget | InvalidInterface | InvalidPort | Rejected.
#[global] Instance TargetError_eq_dec : EqDecision TargetError.
Proof. solve_decision. Defined.

Record AuthorizedTarget := { at_target : IpAddr; at_interface : Z; at_port : Z }.
#[global] Instance AuthorizedTarget_eq_dec : EqDecision AuthorizedTarget.
Proof. solve_decision. Defined.

Definition valid_target (ip : IpAddr) : bool :=
  match ip with
  | V4 a => (is_private_v4 a || is_link_local_v4 a) && negb (is_loopback_v4 a) && negb (is_multicast_v4 a)
            && negb (a =? v4_broadcast) && negb (is_unspecified_v4 a)
  | V6 a => negb (is_loopback_v6 a) && negb (is_multicast_v6 a) && negb (is_unspecified_v6 a)
            && (is_unique_local a || is_unicast_link_local a)
  end.

Definition target_new (target : IpAddr) (interface port : Z) : result AuthorizedTarget TargetError :=
  if interface =? 0 then Err InvalidInterface
  else if port =? 0 then Err InvalidPort
  else if negb (valid_target target) then Err InvalidTarget
  else Ok {| at_target := target; at_interface := interface; at_port := port |}.

(** ** Vocabulary *)
Inductive ExchangeProtocol := Tcp | Http | TlsMetadataProtocol.

Inductive BrokerError :=
  | BTarget (e : TargetError) | MissingApproval | CapabilityDenied | BudgetExhausted
  | DeadlineExceeded | BCancelled | BSandbox (e : AuditError) | ExchangeFailed.

Definition Instant : Type := Z.

(** ** The budget *)
Record BudgetState := {
  bg_requests : Z; bg_bytes : Z; bg_max_requests : Z; bg_max_bytes : Z; bg_deadline : Instant }.

Definition budget_new (limits : Limits) (deadline : Instant) : BudgetState := {|
  bg_requests := 0; bg_bytes := 0; bg_max_requests := max_requests limits; bg_max_bytes := max_bytes limits;
  bg_deadline := deadline |}.

Definition set_usage (requests bytes : Z) (b : BudgetState) : BudgetState := {|
  bg_requests := requests; bg_bytes := bytes; bg_max_requests := bg_max_requests b;
  bg_max_bytes := bg_max_bytes b; bg_deadline := bg_deadline b |}.

Record Reservation := { rv_request_bytes : Z; rv_response_cap : Z }.

Definition checked_add_u32 (a b : Z) : option Z := if a + b <=? u32_max then Some (a + b) else None.

Definition reserve (now : Instant) (request_bytes response_cap : Z) (b : BudgetState)
  : result (Reservation * BudgetState) BrokerError :=
  let? total := ok_or (checked_add_u64 request_bytes response_cap) BudgetExhausted in
  if (bg_deadline b <=? now) || (bg_max_requests b <=? bg_requests b)
     || (saturating_sub_u64 (bg_max_bytes b) (bg_bytes b) <? total)
  then Err BudgetExhausted
  else
    let? requests := ok_or (checked_add_u32 (bg_requests b) 1) BudgetExhausted in
    let? bytes := ok_or (checked_add_u64 (bg_bytes b) total) BudgetExhausted in
    Ok ({| rv_request_bytes := request_bytes; rv_response_cap := response_cap |}, set_usage requests bytes b).

Definition refund (response_cap actual : Z) (b : BudgetState) : BudgetState :=
  set_usage (bg_requests b) (saturating_sub_u64 (bg_bytes b) (response_cap - actual)) b.

Definition release (request_bytes response_cap : Z) (b : BudgetState) : BudgetState :=
  set_usage (saturating_sub_u32 (bg_requests b) 1)
    (saturating_sub_u64 (bg_bytes b) (saturating_add_u64 request_bytes response_cap)) b.

Definition charge_bytes (now : Instant) (bytes : Z) (b : BudgetState) : result BudgetState BrokerError :=
  if bg_deadline b <=? now then Err DeadlineExceeded
  else if saturating_sub_u64 (bg_max_bytes b) (bg_bytes b) <? bytes then Err BudgetExhausted
  else
    let? total := ok_or (checked_add_u64 (bg_bytes b) bytes) BudgetExhausted in
    Ok (set_usage (bg_requests b) total b).

(** [Drop for Reservation] of one that was not committed. *)
Definition reservation_drop (r : Reservation) (b : BudgetState) : BudgetState :=
  release (rv_request_bytes r) (rv_response_cap r) b.

(** [commit] consumes the reservation; a refused one is dropped. *)
Definition commit (r : Reservation) (actual : Z) (b : BudgetState) : result unit BrokerError * BudgetState :=
  if rv_response_cap r <? actual then (Err BudgetExhausted, reservation_drop r b)
  else (Ok tt, refund (rv_response_cap r) actual b).

(** ** Requests and responses *)
Record ExchangeRequest := {
  xr_payload : bytes; xr_protocol : ExchangeProtocol; xr_response_limit : Z; xr_deadline : Instant }.

Record ExchangeResponse := { xs_bytes : bytes; xs_limit : Z }.
Definition response_new (limit : Z) : ExchangeResponse := {| xs_bytes := []; xs_limit := limit |}.
Definition extend_from_slice (r : ExchangeResponse) (chunk : bytes) : result ExchangeResponse BrokerError :=
  if saturating_sub_u64 (xs_limit r) (Z.of_nat (length (xs_bytes r))) <? Z.of_nat (length chunk)
  then Err ExchangeFailed
  else Ok {| xs_bytes := xs_bytes r ++ chunk; xs_limit := xs_limit r |}.

(** How the wait for an exchange ends: with its answer, by the token, by the timer of the
    deadline, or because the whole execution is dropped. *)
Inductive CallOutcome :=
  | CallAnswered (r : result ExchangeResponse BrokerError) | CallCancelled | CallTimedOut | CallDropped (s : Stop).

(** The world. A target is only made by [target_new], its fields being private. *)
Class World := {
  W : Type;
  world_cancelled : W -> bool * W;
  world_now : W -> Instant * W;
  instant_add : Instant -> Duration -> option Instant;
  world_timer : Instant -> W -> bool * W;
  world_authorize : IpAddr -> Z -> Z -> W -> result AuthorizedTarget TargetError * W;
  world_exchange : AuthorizedTarget -> ExchangeRequest -> W -> CallOutcome * W;
  world_poll : W -> option Stop * W;
  authorize_makes : forall ip i p w t w',
    world_authorize ip i p w = (Ok t, w') -> exists ip' i' p', target_new ip' i' p' = Ok t
}.

(** What went out to the authorizer and the transport. *)
Inductive LogEntry :=
  | LAuthorize (ip : IpAddr) (interface port : Z) (r : result AuthorizedTarget TargetError)
  | LExchange (t : AuthorizedTarget) (req : ExchangeRequest) (o : CallOutcome).

Definition capability_port (c : Capability) : Z :=
  match c with TcpExchange p | HttpExchange p | TlsMetadata p => p end.

Definition protocol (c : Capability) : ExchangeProtocol :=
  match c with TcpExchange _ => Tcp | HttpExchange _ => Http | TlsMetadata _ => TlsMetadataProtocol end.

Definition intersect_limits (a b : Limits) : Limits := {|
  max_bytes := Z.min (max_bytes a) (max_bytes b);
  max_requests := Z.min (max_requests a) (max_requests b);
  max_time := Z.min (max_time a) (max_time b);
  max_fuel := Z.min (max_fuel a) (max_fuel b);
  max_memory_pages := Z.min (max_memory_pages a) (max_memory_pages b) |}.

Record BrokerHost := { bh_target : AuthorizedTarget; bh_capability : Capability; bh_deadline : Instant }.

Section Broker.
Context `{World}.

(** The state that a running audit changes. *)
Record HostState := {
  hs_world : W;
  hs_budget : BudgetState;
  hs_target_error : option TargetError;
  hs_log : list LogEntry
}.

Definition on_world {A : Type} (f : W -> A * W) : M HostState A :=
  fun s => let '(a, w) := f (hs_world s) in
    (a, {| hs_world := w; hs_budget := hs_budget s; hs_target_error := hs_target_error s; hs_log := hs_log s |}).
Definition put_budget (b : BudgetState) : M HostState unit :=
  fun s => (tt, {| hs_world := hs_world s; hs_budget := b; hs_target_error := hs_target_error s; hs_log := hs_log s |}).
Definition get_budget : M HostState BudgetState := fun s => (hs_budget s, s).
Definition put_target_error (e : TargetError) : M HostState unit :=
  fun s => (tt, {| hs_world := hs_world s; hs_budget := hs_budget s; hs_target_error := Some e; hs_log := hs_log s |}).
Definition get_target_error : M HostState (option TargetError) := fun s => (hs_target_error s, s).
Definition record (e : LogEntry) : M HostState unit :=
  fun s => (tt, {| hs_world := hs_world s; hs_budget := hs_budget s; hs_target_error := hs_target_error s;
                   hs_log := hs_log s ++ [e] |}).

Definition authorize_target (ip : IpAddr) (interface port : Z) : M HostState (result AuthorizedTarget TargetError) :=
  let! r := on_world (world_authorize ip interface port) in
  let! _ := record (LAuthorize ip interface port r) in
  mret_st r.

Definition transport_exchange (t : AuthorizedTarget) (req : ExchangeRequest) : M HostState CallOutcome :=
  let! o := on_world (world_exchange t req) in
  let! _ := record (LExchange t req o) in
  mret_st o.

(** Leaving the exchange with an error drops the reservation. *)
Definition abandon {A : Type} (r : Reservation) (a : A) : M HostState A :=
  let! b := get_budget in
  let! _ := put_budget (reservation_drop r b) in
  mret_st a.

Definition host_error_of (e : BrokerError) : AuditHostError :=
  match e with BudgetExhausted => HBudgetExhausted | _ => HExchangeFailed end.

(** [AuditHost::exchange] of the broker. *)
Definition broker_exchange (h : BrokerHost) (request : bytes) (response_cap : Z)
  : M HostState (Stop + result bytes AuditHostError) :=
  let! cancelled := on_world world_cancelled in
  if cancelled then mret_st (inr (Err HCancelled))
  else
  let! now := on_world world_now in
  if bh_deadline h <=? now then mret_st (inr (Err HDeadlineExceeded))
  else
  let! now := on_world world_now in
  let! b := get_budget in
  match reserve now (Z.of_nat (length request)) response_cap b with
  | Err e => mret_st (inr (Err (host_error_of e)))
  | Ok (reservation, b) =>
    let! _ := put_budget b in
    let! refreshed := authorize_target (at_target (bh_target h)) (at_interface (bh_target h)) (at_port (bh_target h)) in
    match refreshed with
    | Err e =>
      let! _ := put_target_error e in
      abandon reservation (inr (Err HDenied))
    | Ok refreshed =>
      if bool_decide (refreshed <> bh_target h)
      then
        let! _ := put_target_error Rejected in
        abandon reservation (inr (Err HDenied))
      else
        let! o := transport_exchange (bh_target h)
          {| xr_payload := request; xr_protocol := protocol (bh_capability h);
             xr_response_limit := response_cap; xr_deadline := bh_deadline h |} in
        match o with
        | CallDropped s => abandon reservation (inl s)
        | CallCancelled => abandon reservation (inr (Err HCancelled))
        | CallTimedOut => abandon reservation (inr (Err HDeadlineExceeded))
        | CallAnswered (Err _) => abandon reservation (inr (Err HExchangeFailed))
        | CallAnswered (Ok response) =>
          let response_len := Z.of_nat (length (xs_bytes response)) in
          if response_cap <? response_len then abandon reservation (inr (Err HExchangeFailed))
          else
            let! b := get_budget in
            let '(r, b) := commit reservation response_len b in
            let! _ := put_budget b in
            mret_st (inr (match r with Ok _ => Ok (xs_bytes response) | Err _ => Err HBudgetExhausted end))
        end
    end
  end.

Definition broker_host (h : BrokerHost) : AuditHost HostState := {|
  host_deterministic := mret_st (inr 0);
  host_exchange := broker_exchange h;
  host_poll := on_world world_poll |}.

(** ** The cache of compiled modules *)
Definition MAX_CACHED_MODULES : Z := 16.
Context `{Wasmtime}.

(** Inserting a freshly compiled module, at a moment when the cache may have changed. *)
Definition cache_insert (digest : bytes) (compiled : CompiledModule) (cache : gmap bytes CompiledModule) : CompiledModule * gmap bytes CompiledModule :=
  let cache := if MAX_CACHED_MODULES <=? Z.of_nat (size cache) then ∅ else cache in
  match cache !! digest with
  | Some old => (old, cache)
  | None => (compiled, <[digest := compiled]> cache)
  end.

(** [sandbox_for] with the cache at the lookup and the cache at the insertion; it returns the
    cache that it leaves, if it wrote one. *)
Definition sandbox_for (module : VerifiedManifest) (limits : Limits) (lookup_cache insert_cache : gmap bytes CompiledModule)
  : result Sandbox AuditError * option (gmap bytes CompiledModule) :=
  match check_limits module limits with
  | Err e => (Err e, None)
  | Ok _ =>
    let digest := am_sha256 (vm_inner module) in
    match lookup_cache !! digest with
    | Some compiled => (with_compiled module compiled limits, None)
    | None =>
      match sandbox_compile module with
      | Err e => (Err e, None)
      | Ok compiled =>
        let '(compiled, cache) := cache_insert digest compiled insert_cache in
        (with_compiled module compiled limits, Some cache)
      end
    end
  end.

Record BrokerRequest := {
  br_module : VerifiedManifest; br_input : bytes; br_target : IpAddr; br_interface : Z; br_port : Z;
  br_capability : Capability; br_approval_id : Z; br_limits : Limits }.
Record BrokerResult := { bres_target : IpAddr; bres_approval_id : Z; bres_bytes : bytes }.

(** The arms of the [select] around the sandbox. *)
Definition sandbox_outcome (r : Stop + result bytes AuditError) : M HostState (result bytes BrokerError) :=
  match r with
  | inl StopCancelled => mret_st (Err BCancelled)
  | inl _ => mret_st (Err DeadlineExceeded)
  | inr (Ok v) => mret_st (Ok v)
  | inr (Err TimedOut) => mret_st (Err DeadlineExceeded)
  | inr (Err AuditCancelled) => mret_st (Err BCancelled)
  | inr (Err AuditBudgetExhausted) | inr (Err RequestLimitExceeded) => mret_st (Err BudgetExhausted)
  | inr (Err HostRejected) =>
    let! e := get_target_error in
    mret_st (Err (match e with Some e => BTarget e | None => ExchangeFailed end))
  | inr (Err e) => mret_st (Err (BSandbox e))
  end.

(** Publication: the output is charged, and cancellation or the deadline still win. *)
Definition publish (request : BrokerRequest) (deadline : Instant) (output : bytes)
  : M HostState (result BrokerResult BrokerError) :=
  let! cancelled := on_world world_cancelled in
  if cancelled then mret_st (Err BCancelled)
  else
  let! now := on_world world_now in
  let! b := get_budget in
  match charge_bytes now (Z.of_nat (length output)) b with
  | Err e => mret_st (Err e)
  | Ok b =>
    let! _ := put_budget b in
    let! cancelled := on_world world_cancelled in
    if cancelled then mret_st (Err BCancelled)
    else
    let! elapsed := on_world (world_timer deadline) in
    if elapsed then mret_st (Err DeadlineExceeded)
    else mret_st (Ok {| bres_target := br_target request; bres_approval_id := br_approval_id request;
                        bres_bytes := output |})
  end.

(** The admitted part of [execute], with the sandbox at hand. *)
Definition execute_admitted (request : BrokerRequest) (limits : Limits) (deadline : Instant)
    (target : AuthorizedTarget) (sandbox : Sandbox) : M HostState (result BrokerResult BrokerError) :=
  let! now := on_world world_now in
  if deadline <=? now then mret_st (Err DeadlineExceeded)
  else
  let! now := on_world world_now in
  match charge_bytes now (Z.of_nat (length (br_input request))) (budget_new limits deadline) with
  | Err e => mret_st (Err e)
  | Ok b =>
    let! _ := put_budget b in
    let host := {| bh_target := target; bh_capability := br_capability request; bh_deadline := deadline |} in
    let! cancelled := on_world world_cancelled in
    if cancelled then mret_st (Err BCancelled)
    else
    let! r := @sandbox_execute _ HostState (broker_host host) sandbox (br_input request) in
    let! output := sandbox_outcome r in
    match output with
    | Err e => mret_st (Err e)
    | Ok output => publish request deadline output
    end
  end.

Definition zero_limit (l : Limits) : bool :=
  (max_bytes l =? 0) || (max_requests l =? 0) || (max_time l =? 0) || (max_fuel l =? 0) || (max_memory_pages l =? 0).

(** [Broker::execute]. The budget of the state is that of the request, made on the way. *)
Definition execute (request : BrokerRequest) (lookup_cache insert_cache : gmap bytes CompiledModule)
  : M HostState (result BrokerResult BrokerError) :=
  if br_approval_id request =? 0 then mret_st (Err MissingApproval)
  else if negb (capability_port (br_capability request) =? br_port request)
          || negb (bool_decide (br_capability request ∈ am_capabilities (vm_inner (br_module request))))
  then mret_st (Err CapabilityDenied)
  else if negb (valid_limits (br_limits request)) then mret_st (Err BudgetExhausted)
  else
  let limits := intersect_limits (am_limits (vm_inner (br_module request))) (br_limits request) in
  if zero_limit limits then mret_st (Err BudgetExhausted)
  else
  let! now := on_world world_now in
  match instant_add now (max_time limits) with
  | None => mret_st (Err DeadlineExceeded)
  | Some deadline =>
    let! cancelled := on_world world_cancelled in
    if cancelled then mret_st (Err BCancelled)
    else
    let! target := authorize_target (br_target request) (br_interface request) (br_port request) in
    match target with
    | Err e => mret_st (Err (BTarget e))
    | Ok target =>
      if bool_decide (at_target target <> br_target request) || negb (at_interface target =? br_interface request)
         || negb (at_port target =? br_port request)
      then mret_st (Err (BTarget Rejected))
      else
      let! now := on_world world_now in
      if deadline <=? now then mret_st (Err DeadlineExceeded)
      else
      match fst (sandbox_for (br_module request) limits lookup_cache insert_cache) with
      | Err e => mret_st (Err (BSandbox e))
      | Ok sandbox => execute_admitted request limits deadline target sandbox
      end
    end
  end.
End Broker.
