(* ===== verification/WasmBrokerProps.v ===== *)
(** * Audit modules: what reaches the network

    Whatever a guest does and whatever the world answers, the exchanges of an audit go to the
    approved target only, each right after a fresh authorization of that target, with the
    approved protocol and within the smaller of the signed and the requested limits. The cache
    of compiled modules changes nothing but the cost. *)

From S2P Require Import Prelude Time Text Bytes Net WasmManifest WasmManifestProps WasmSandbox WasmBroker.

(** ** Audit modules: the budget under concurrent reservations

    Reservations of one budget can be open at the same time; the ledger keeps what a budget
    stands for, and the invariant says that the two counters of the budget are exact and never
    exceed their limits, whatever the order of the steps. *)

Definition reserved (r : Reservation) : Z := rv_request_bytes r + rv_response_cap r.
Fixpoint reserved_sum (l : list Reservation) : Z :=
  match l with [] => 0 | r :: l' => reserved r + reserved_sum l' end.

(** A budget with its open reservations, the number of committed exchanges and the bytes that
    were charged or committed. *)
Record Ledger := { lg_budget : BudgetState; lg_open : list Reservation; lg_committed : Z; lg_used : Z }.

Inductive budget_step : Ledger -> Ledger -> Prop :=
  | step_reserve b b' l c u now request cap r :
      0 <= request -> 0 <= cap -> reserve now request cap b = Ok (r, b') ->
      budget_step {| lg_budget := b; lg_open := l; lg_committed := c; lg_used := u |}
                  {| lg_budget := b'; lg_open := r :: l; lg_committed := c; lg_used := u |}
  | step_commit b b' l1 r l2 c u actual :
      0 <= actual -> commit r actual b = (Ok tt, b') ->
      budget_step {| lg_budget := b; lg_open := l1 ++ r :: l2; lg_committed := c; lg_used := u |}
                  {| lg_budget := b'; lg_open := l1 ++ l2; lg_committed := c + 1;
                     lg_used := u + rv_request_bytes r + actual |}
  | step_commit_refused b b' l1 r l2 c u actual e :
      commit r actual b = (Err e, b') ->
      budget_step {| lg_budget := b; lg_open := l1 ++ r :: l2; lg_committed := c; lg_used := u |}
                  {| lg_budget := b'; lg_open := l1 ++ l2; lg_committed := c; lg_used := u |}
  | step_drop b l1 r l2 c u :
      budget_step {| lg_budget := b; lg_open := l1 ++ r :: l2; lg_committed := c; lg_used := u |}
                  {| lg_budget := reservation_drop r b; lg_open := l1 ++ l2; lg_committed := c; lg_used := u |}
  | step_charge b b' l c u now n :
      0 <= n -> charge_bytes now n b = Ok b' ->
      budget_step {| lg_budget := b; lg_open := l; lg_committed := c; lg_used := u |}
                  {| lg_budget := b'; lg_open := l; lg_committed := c; lg_used := u + n |}.

Record ledger_ok (limits : Limits) (deadline : Instant) (g : Ledger) : Prop := {
  lo_requests : bg_requests (lg_budget g) = lg_committed g + Z.of_nat (length (lg_open g));
  lo_bytes : bg_bytes (lg_budget g) = lg_used g + reserved_sum (lg_open g);
  lo_requests_max : bg_requests (lg_budget g) <= max_requests limits;
  lo_bytes_max : bg_bytes (lg_budget g) <= max_bytes limits;
  lo_open : Forall (fun r => 0 <= rv_request_bytes r /\ 0 <= rv_response_cap r) (lg_open g);
  lo_nonneg : 0 <= lg_committed g /\ 0 <= lg_used g;
  lo_max : bg_max_requests (lg_budget g) = max_requests limits /\ bg_max_bytes (lg_budget g) = max_bytes limits;
  lo_deadline : bg_deadline (lg_budget g) = deadline
}.

Lemma reserved_sum_app l1 l2 : reserved_sum (l1 ++ l2) = reserved_sum l1 + reserved_sum l2.
Proof. induction l1 as [|r l1 IH]; cbn; [done|]. rewrite IH. lia. Qed.

Lemma reserved_sum_nonneg l :
  Forall (fun r => 0 <= rv_request_bytes r /\ 0 <= rv_response_cap r) l -> 0 <= reserved_sum l.
Proof. induction 1 as [|r l Hr _ IH]; cbn; [done|]. unfold reserved. lia. Qed.

(** What a successful reservation and a successful charge do. *)
Lemma reserve_ok now request cap b r b' :
  0 <= bg_bytes b <= bg_max_bytes b -> reserve now request cap b = Ok (r, b') ->
  r = {| rv_request_bytes := request; rv_response_cap := cap |} /\
  b' = set_usage (bg_requests b + 1) (bg_bytes b + (request + cap)) b /\
  now < bg_deadline b /\ bg_requests b < bg_max_requests b /\ request + cap <= bg_max_bytes b - bg_bytes b.
Proof.
  unfold reserve, checked_add_u64, checked_add_u32, saturating_sub_u64. intros Hb.
  destruct (request + cap <=? u64_max) eqn:E1; cbn [ok_or result_bind]; [|done].
  destruct (_ || _) eqn:E2; [done|]. destruct (bg_requests b + 1 <=? u32_max) eqn:E3; cbn [ok_or result_bind]; [|done].
  destruct (bg_bytes b + (request + cap) <=? u64_max) eqn:E4; cbn [ok_or result_bind]; [|done]. intros [= <- <-]. bprop. split_and!; [done|done|lia..].
Qed.

Lemma charge_bytes_ok now n b b' :
  0 <= bg_bytes b <= bg_max_bytes b -> charge_bytes now n b = Ok b' ->
  b' = set_usage (bg_requests b) (bg_bytes b + n) b /\ now < bg_deadline b /\ bg_bytes b + n <= bg_max_bytes b.
Proof.
  unfold charge_bytes, checked_add_u64, saturating_sub_u64. intros Hb.
  destruct (_ <=? now) eqn:E1; [done|]. destruct (_ <? n) eqn:E2; [done|].
  destruct (_ <=? u64_max) eqn:E3; cbn [ok_or result_bind]; [|done]. intros [= <-]. bprop. split_and!; [done|lia..].
Qed.

(** Dropping what was reserved takes back exactly what the reservation added. *)
Lemma reservation_drop_exact r b rest used :
  0 <= rv_request_bytes r -> 0 <= rv_response_cap r -> 0 <= rest -> 0 <= used ->
  bg_requests b = 1 + used -> bg_bytes b = reserved r + rest -> bg_bytes b <= u64_max ->
  reservation_drop r b = set_usage used rest b.
Proof.
  unfold reservation_drop, release, saturating_add_u64, saturating_sub_u64, saturating_sub_u32, reserved. intros.
  f_equal; lia.
Qed.

Lemma ledger_drop limits deadline b l1 r l2 c u :
  max_bytes limits <= u64_max ->
  ledger_ok limits deadline {| lg_budget := b; lg_open := l1 ++ r :: l2; lg_committed := c; lg_used := u |} ->
  ledger_ok limits deadline {| lg_budget := reservation_drop r b; lg_open := l1 ++ l2; lg_committed := c; lg_used := u |}.
Proof.
  intros Hmax [Hr Hb Hrm Hbm Ho Hn [Hm1 Hm2] Hd]. cbn [lg_budget lg_open lg_committed lg_used] in *.
  apply Forall_app in Ho as [Ho1 [[Hr1 Hr2] Ho2]%Forall_cons].
  pose proof (reserved_sum_nonneg _ Ho1). pose proof (reserved_sum_nonneg _ Ho2).
  rewrite reserved_sum_app in Hb. rewrite length_app in Hr. cbn in Hb, Hr.
  rewrite (reservation_drop_exact r b (u + (reserved_sum l1 + reserved_sum l2)) (c + Z.of_nat (length l1 + length l2))) by lia.
  unfold reserved in Hb. split; cbn; rewrite ?reserved_sum_app, ?length_app; try done; try lia. by apply Forall_app.
Qed.

Lemma ledger_step limits deadline g g' :
  max_bytes limits <= u64_max -> ledger_ok limits deadline g -> budget_step g g' -> ledger_ok limits deadline g'.
Proof.
  intros Hmax Hok Hstep. pose proof Hok as [Hr Hb Hrm Hbm Ho Hn [Hm1 Hm2] Hd].
  destruct Hstep as [b b' l c u now request cap r Hq Hc Hres|b b' l1 r l2 c u actual Ha Hcom|b b' l1 r l2 c u actual e Hcom
                    |b l1 r l2 c u|b b' l c u now n Hnn Hch]; cbn [lg_budget lg_open lg_committed lg_used] in Hr, Hb, Hrm, Hbm, Ho, Hn, Hm1, Hm2, Hd.
  - pose proof (reserved_sum_nonneg _ Ho). apply reserve_ok in Hres as (-> & -> & _ & H1 & H2); [|lia].
    split; cbn; unfold reserved; cbn; try done; try lia. by constructor.
  - apply Forall_app in Ho as [Ho1 [[Hr1 Hr2] Ho2]%Forall_cons].
    pose proof (reserved_sum_nonneg _ Ho1). pose proof (reserved_sum_nonneg _ Ho2).
    rewrite reserved_sum_app in Hb. rewrite length_app in Hr. cbn in Hb, Hr. unfold reserved in Hb.
    unfold commit in Hcom. destruct (_ <? actual) eqn:E; [done|]. injection Hcom as <-. bprop.
    unfold refund, saturating_sub_u64. split; cbn; rewrite ?reserved_sum_app, ?length_app; try done; try lia. by apply Forall_app.
  - unfold commit in Hcom. destruct (_ <? actual) eqn:E; [|done]. injection Hcom as _ <-. by eapply ledger_drop.
  - by eapply ledger_drop.
  - pose proof (reserved_sum_nonneg _ Ho). apply charge_bytes_ok in Hch as (-> & _ & H1); [|lia].
    split; cbn; try done; lia.
Qed.

(** The accounting of a budget is exact under every interleaving of reservations, commits,
    refused commits, drops and charges: the request counter is the number of committed and open
    exchanges, the byte counter is what was charged and committed plus what the open
    reservations may still use, and neither ever exceeds its limit. *)
Theorem budget_accounting_exact limits deadline g :
  valid_limits limits = true ->
  rtc budget_step {| lg_budget := budget_new limits deadline; lg_open := []; lg_committed := 0; lg_used := 0 |} g ->
  ledger_ok limits deadline g.
Proof.
  unfold valid_limits, MAX_WASM_BYTES, MAX_REQUESTS. intros Hv Hs. bprop.
  refine (rtc_ind_r (ledger_ok limits deadline) _ _ _ g Hs).
  - split; cbn; try done; lia.
  - intros x y _ Hstep Hx. eapply ledger_step; [unfold u64_max; lia|exact Hx|exact Hstep].
Qed.

Definition entry_bytes (e : LogEntry) : Z :=
  match e with
  | LExchange _ req (CallAnswered (Ok r)) => Z.of_nat (length (xr_payload req)) + Z.of_nat (length (xs_bytes r))
  | _ => 0
  end.
Fixpoint bytes_used (l : list LogEntry) : Z := match l with [] => 0 | e :: l' => entry_bytes e + bytes_used l' end.
Definition entry_count (e : LogEntry) : Z := match e with LExchange _ _ _ => 1 | _ => 0 end.
Fixpoint exchanges (l : list LogEntry) : Z := match l with [] => 0 | e :: l' => entry_count e + exchanges l' end.

(** An exchange after [before] is one that the request was approved for. *)
Record confined `{Wasmtime} (request : BrokerRequest) (limits : Limits) (before : list LogEntry)
    (t : AuthorizedTarget) (req : ExchangeRequest) : Prop := {
  cf_approved : br_approval_id request <> 0;
  cf_capability : br_capability request ∈ am_capabilities (vm_inner (br_module request));
  cf_port : capability_port (br_capability request) = br_port request;
  cf_target : t = {| at_target := br_target request; at_interface := br_interface request; at_port := br_port request |};
  cf_private : valid_target (at_target t) = true /\ at_interface t <> 0 /\ at_port t <> 0;
  cf_protocol : xr_protocol req = protocol (br_capability request);
  cf_authorized : exists earlier,
    before = earlier ++ [LAuthorize (br_target request) (br_interface request) (br_port request) (Ok t)];
  cf_bytes : Z.of_nat (length (br_input request)) + bytes_used before
             + Z.of_nat (length (xr_payload req)) + xr_response_limit req <= max_bytes limits;
  cf_requests : exchanges before < max_requests limits
}.

Definition log_confined `{Wasmtime} (request : BrokerRequest) (limits : Limits) (l : list LogEntry) : Prop :=
  forall l1 t req o l2, l = l1 ++ LExchange t req o :: l2 -> confined request limits l1 t req.

Lemma bytes_used_app l l' : bytes_used (l ++ l') = bytes_used l + bytes_used l'.
Proof. induction l as [|e l IH]; cbn; [done|]. rewrite IH. lia. Qed.
Lemma exchanges_app l l' : exchanges (l ++ l') = exchanges l + exchanges l'.
Proof. induction l as [|e l IH]; cbn; [done|]. rewrite IH. lia. Qed.

Lemma snoc_split {A} (l : list A) e l1 x l2 :
  l ++ [e] = l1 ++ x :: l2 -> (l1 = l /\ x = e /\ l2 = []) \/ exists l2', l = l1 ++ x :: l2'.
Proof.
  destruct l2 as [|y l2' _] using rev_ind.
  - intros [-> ->]%app_inj_tail. by left.
  - rewrite app_comm_cons, app_assoc. intros [-> _]%app_inj_tail. right. by eexists.
Qed.

Section Confinement.
Context `{World} `{Wasmtime}.

Lemma wp_on_world {A} (f : W -> A * W) (Q : A -> HostState -> Prop) s :
  (forall a w, f (hs_world s) = (a, w) ->
     Q a {| hs_world := w; hs_budget := hs_budget s; hs_target_error := hs_target_error s; hs_log := hs_log s |}) ->
  wp (on_world f) Q s.
Proof. unfold wp, on_world. intros HQ. destruct (f (hs_world s)) as [a w] eqn:E. by apply HQ. Qed.

Context (request : BrokerRequest) (limits : Limits) (deadline : Instant) (target : AuthorizedTarget).
#[local] Abbreviation host := {| bh_target := target; bh_capability := br_capability request; bh_deadline := deadline |}.
#[local] Abbreviation input_len := (Z.of_nat (length (br_input request))).

(** What [execute] has checked before the guest starts. *)
Record admitted : Prop := {
  ad_approved : br_approval_id request <> 0;
  ad_capability : br_capability request ∈ am_capabilities (vm_inner (br_module request));
  ad_port : capability_port (br_capability request) = br_port request;
  ad_target : target = {| at_target := br_target request; at_interface := br_interface request; at_port := br_port request |};
  ad_private : valid_target (at_target target) = true /\ at_interface target <> 0 /\ at_port target <> 0;
  ad_limits : valid_limits limits = true
}.

Definition keeps_log (s : HostState) : Prop := log_confined request limits (hs_log s).

(** The budget agrees with the log. *)
Definition in_step (r b : Z) (s : HostState) : Prop :=
  keeps_log s /\ b = input_len + bytes_used (hs_log s) /\ exchanges (hs_log s) <= Z.min r (max_requests limits) /\
  0 <= bytes_used (hs_log s) /\ 0 <= exchanges (hs_log s) /\ b <= max_bytes limits /\
  hs_budget s = {| bg_requests := exchanges (hs_log s); bg_bytes := b; bg_max_requests := max_requests limits;
                   bg_max_bytes := max_bytes limits; bg_deadline := deadline |}.

Lemma log_confined_authorize l ip i p r :
  log_confined request limits l -> log_confined request limits (l ++ [LAuthorize ip i p r]).
Proof. intros Hl l1 t req o l2 [(_ & [=] & _)|[l2' ->]]%snoc_split. by eapply Hl. Qed.

Lemma log_confined_exchange l t req o :
  log_confined request limits l -> confined request limits l t req -> log_confined request limits (l ++ [LExchange t req o]).
Proof. intros Hl Hc l1 t' req' o' l2 [(-> & [= <- <- <-] & _)|[l2' ->]]%snoc_split; [done|]. by eapply Hl. Qed.

Context (Hadm : admitted).

Lemma exchange_confined l payload cap :
  input_len + bytes_used l + Z.of_nat (length payload) + cap <= max_bytes limits -> exchanges l < max_requests limits ->
  confined request limits
    (l ++ [LAuthorize (at_target target) (at_interface target) (at_port target) (Ok target)]) target
    {| xr_payload := payload; xr_protocol := protocol (br_capability request); xr_response_limit := cap; xr_deadline := deadline |}.
Proof.
  destruct Hadm as [Ha Hc Hp Ht Hpr _]. intros Hb Hr. split; try done.
  - exists l. rewrite Ht. done.
  - rewrite bytes_used_app. cbn. lia.
  - rewrite exchanges_app. cbn. lia.
Qed.

Lemma broker_exchange_rule r b s payload cap :
  in_step r b s -> 0 <= cap ->
  wp (broker_exchange host payload cap) (fun a s' =>
    match a with
    | inr (Ok response) =>
      keeps_log s' /\ (Z.of_nat (length response) <= cap ->
                       in_step (r + 1) (b + Z.of_nat (length payload) + Z.of_nat (length response)) s')
    | _ => keeps_log s'
    end) s.
Proof.
  intros (Hlog & Hb & Hex & Hu & He & Hbm & Hbud) Hcap. unfold broker_exchange.
  apply wp_bind, wp_on_world. intros [] w1 _; [by apply wp_ret|]. apply wp_bind, wp_on_world. intros now w2 _.
  destruct (_ <=? now); [by apply wp_ret|]. apply wp_bind, wp_on_world. intros now' w3 _. apply wp_bind.
  unfold wp, get_budget. cbn [fst snd hs_budget hs_world hs_target_error hs_log].
  destruct (reserve _ _ _ _) as [[rv b1]|e] eqn:Eres; [|done]. rewrite Hbud in Eres.
  apply reserve_ok in Eres as (-> & -> & _ & Hreq & Hroom); [|cbn; lia]. cbn [bg_requests bg_max_requests bg_bytes bg_max_bytes] in Hreq, Hroom.
  apply wp_bind. unfold wp, put_budget. cbn [fst snd hs_budget hs_world hs_target_error hs_log].
  apply wp_bind. unfold authorize_target. apply wp_bind, wp_on_world. intros auth w4 _. cbn [hs_budget hs_world hs_target_error hs_log].
  apply wp_bind. unfold wp at 1, record. cbn [fst snd hs_budget hs_world hs_target_error hs_log]. apply wp_ret.
  pose proof (log_confined_authorize _ (at_target target) (at_interface target) (at_port target) auth Hlog) as Hlog'.
  cbn [bh_target bh_capability bh_deadline]. destruct auth as [refreshed|e]; [|exact Hlog'].
  case_bool_decide as Hsame; [exact Hlog'|]. subst refreshed.
  apply wp_bind. unfold transport_exchange. apply wp_bind, wp_on_world. intros o w5 _. cbn [hs_budget hs_world hs_target_error hs_log].
  apply wp_bind. unfold wp at 1, record. cbn [fst snd hs_budget hs_world hs_target_error hs_log]. apply wp_ret.
  assert (log_confined request limits ((hs_log s ++ [LAuthorize (at_target target) (at_interface target) (at_port target) (Ok target)]) ++
     [LExchange target {| xr_payload := payload; xr_protocol := protocol (br_capability request); xr_response_limit := cap;
        xr_deadline := deadline |} o])) as Hlog''.
  { apply log_confined_exchange; [done|]. apply exchange_confined; lia. }
  destruct o as [[response|e]| | |stop]; try exact Hlog''. destruct (_ <? _) eqn:Elen; [exact Hlog''|]. bprop.
  unfold commit. cbn [rv_response_cap]. rewrite (proj2 (Z.ltb_ge _ _) Elen). split; [exact Hlog''|]. intros _. split; [exact Hlog''|].
  cbn. rewrite !bytes_used_app, !exchanges_app. cbn. unfold refund, saturating_sub_u64, set_usage. cbn.
  split_and!; try lia. f_equal; lia.
Qed.

Lemma broker_keeps :
  @HostKeeps HostState (broker_host host) (max_requests limits) (max_bytes limits) in_step keeps_log.
Proof.
  split.
  - intros r b s Hs. apply Hs.
  - intros r b s Hs. by apply wp_on_world.
  - intros r b s (Hlog & Hb & Hex & Hrest) _. apply wp_ret. split_and!; try done; [lia|apply Hrest..].
  - intros r b s payload cap Hs _ Hcap _. by apply broker_exchange_rule.
Qed.
End Confinement.

Section Theorems.
Context `{World} `{Wasmtime}.

(** What a request may do, on every end of [execute]. *)
Definition execute_spec (request : BrokerRequest) (limits : Limits) (r : result BrokerResult BrokerError) (s : HostState) : Prop :=
  log_confined request limits (hs_log s) /\
  forall res, r = Ok res ->
    bres_target res = br_target request /\ bres_approval_id res = br_approval_id request /\
    Z.of_nat (length (br_input request)) + bytes_used (hs_log s) + Z.of_nat (length (bres_bytes res)) <= max_bytes limits /\
    exchanges (hs_log s) <= max_requests limits.

Lemma publish_rule request limits deadline n b output s :
  in_step request limits deadline n b s ->
  wp (publish request deadline output) (execute_spec request limits) s.
Proof.
  intros (Hlog & Hb & Hex & Hu & He & Hbm & Hbud). unfold publish.
  apply wp_bind, wp_on_world. intros [] w1 _; [by apply wp_ret; split|]. apply wp_bind, wp_on_world. intros now w2 _.
  apply wp_bind. unfold wp at 1, get_budget. cbn [fst snd hs_budget hs_world hs_target_error hs_log]. rewrite Hbud.
  destruct (charge_bytes _ _ _) as [b'|e] eqn:Ec; [|by apply wp_ret; split].
  apply charge_bytes_ok in Ec as (-> & _ & Hroom); [|cbn; lia]. cbn [bg_bytes bg_max_bytes] in Hroom.
  apply wp_bind. unfold wp at 1, put_budget. cbn [fst snd hs_budget hs_world hs_target_error hs_log].
  apply wp_bind, wp_on_world. intros [] w3 _; [by apply wp_ret; split|]. apply wp_bind, wp_on_world.
  intros [] w4 _; apply wp_ret; split; try done. intros res [= <-]. cbn. split_and!; [done|done|lia..].
Qed.

Lemma sandbox_outcome_state r (Q : result bytes BrokerError -> HostState -> Prop) s :
  (forall out, r = inr (Ok out) -> Q (Ok out) s) -> (forall e, Q (Err e) s) -> wp (sandbox_outcome r) Q s.
Proof.
  intros Hok Herr. unfold sandbox_outcome.
  repeat case_match; subst; try (apply wp_ret; solve [apply Herr | by apply Hok]).
Qed.

(** A well-formed target that is the one asked for. *)
Lemma target_new_ok ip i p t :
  target_new ip i p = Ok t ->
  t = {| at_target := ip; at_interface := i; at_port := p |} /\ valid_target ip = true /\ i <> 0 /\ p <> 0.
Proof.
  unfold target_new. destruct (i =? 0) eqn:E1; [done|]. destruct (p =? 0) eqn:E2; [done|].
  destruct (valid_target ip) eqn:E3; [|done]. intros [= <-]. bprop. done.
Qed.

Lemma sandbox_for_ok module limits c1 c2 sb :
  fst (sandbox_for module limits c1 c2) = Ok sb ->
  sb_limits sb = limits /\ check_limits module limits = Ok tt /\ validate_static_limits (vm_wasm module) limits = Ok tt.
Proof.
  unfold sandbox_for. destruct (check_limits module limits) as [[]|e] eqn:E; [|done].
  assert (forall compiled, with_compiled module compiled limits = Ok sb -> sb_limits sb = limits /\ Ok tt = @Ok unit AuditError tt /\
            validate_static_limits (vm_wasm module) limits = Ok tt) as Hw.
  { intros compiled. unfold with_compiled. rewrite E. cbn [result_bind]. destruct (validate_static_limits _ _) as [[]|]; [|done].
    by intros [= <-]. }
  destruct (c1 !! _); [apply Hw|]. destruct (sandbox_compile _); [|done]. destruct (cache_insert _ _ _). apply Hw.
Qed.

Lemma execute_admitted_rule request limits deadline target sb s :
  admitted request limits target -> sb_limits sb = limits ->
  log_confined request limits (hs_log s) -> bytes_used (hs_log s) = 0 -> exchanges (hs_log s) = 0 ->
  wp (execute_admitted request limits deadline target sb) (execute_spec request limits) s.
Proof.
  intros Hadm Hsb Hlog Hu He. assert (valid_limits limits = true) as Hv by apply Hadm. unfold valid_limits in Hv. bprop.
  unfold execute_admitted. apply wp_bind, wp_on_world. intros now w1 _. destruct (_ <=? now); [by apply wp_ret; split|].
  apply wp_bind, wp_on_world. intros now' w2 _. destruct (charge_bytes _ _ _) as [b|e] eqn:Ec; [|by apply wp_ret; split].
  apply charge_bytes_ok in Ec as (-> & _ & Hroom); [|cbn; lia]. cbn [budget_new bg_bytes bg_max_bytes] in Hroom.
  apply wp_bind. unfold wp at 1, put_budget. cbn [fst snd hs_budget hs_world hs_target_error hs_log].
  apply wp_bind, wp_on_world. intros [] w3 _; [by apply wp_ret; split|]. apply wp_bind. eapply wp_mono.
  - eapply (@sandbox_execute_rule HostState (broker_host _) _ _ _ _ (broker_keeps _ _ deadline _ Hadm)); [by rewrite Hsb..|].
    split; [exact Hlog|]. cbn. rewrite Hu, He. split_and!; try lia. unfold set_usage. cbn. by f_equal; lia.
  - intros r s' [Hj Hpost]. apply wp_bind, sandbox_outcome_state.
    + intros out Hr. destruct (Hpost out Hr) as (n & b & Hi & _). by eapply publish_rule.
    + intros e. by apply wp_ret; split.
Qed.

(** C11. An audit is confined. Whatever the guest does and however the authorizer, the clock, the
    cancellation token and the transport behave, every exchange that reaches the transport
    during [execute] goes to the requested private target over the requested interface and
    port, uses the protocol of a capability that the signed manifest declares for that port,
    follows immediately on an authorization of exactly that target, belongs to an approved
    request, and stays, together with the input and all earlier traffic, within the smaller of
    the signed and the requested byte and request limits. A result names the requested target
    and approval, and input, traffic and output together respect the byte limit. *)
Theorem broker_confines_guest request lookup_cache insert_cache s :
  hs_log s = [] ->
  let '(r, s') := execute request lookup_cache insert_cache s in
  execute_spec request (intersect_limits (am_limits (vm_inner (br_module request))) (br_limits request)) r s'.
Proof.
  intros Hlog0. enough (wp (execute request lookup_cache insert_cache) (execute_spec request
    (intersect_limits (am_limits (vm_inner (br_module request))) (br_limits request))) s) as Hw.
  { unfold wp in Hw. by destruct (execute _ _ _ _). }
  set (limits := intersect_limits _ _).
  assert (log_confined request limits []) as Hnil by (intros l1 t req o l2 Hl; by destruct l1).
  assert (forall e s', hs_log s' = [] -> execute_spec request limits (Err e) s') as Hend by (intros e s' Hs'; split; [by rewrite Hs'|done]).
  unfold execute.
  destruct (_ =? 0) eqn:E1; [by apply wp_ret, Hend|].
  destruct (_ || _) eqn:E2; [by apply wp_ret, Hend|].
  destruct (valid_limits (br_limits request)) eqn:E3; cbn [negb]; [|by apply wp_ret, Hend].
  fold limits. destruct (zero_limit limits) eqn:E4; [by apply wp_ret, Hend|].
  apply wp_bind, wp_on_world. intros now w1 _. destruct (instant_add _ _) as [deadline|]; [|by apply wp_ret, Hend].
  apply wp_bind, wp_on_world. intros [] w2 _; [by apply wp_ret, Hend|].
  apply wp_bind. unfold authorize_target. apply wp_bind, wp_on_world. intros auth w3 Hauth. cbn [hs_budget hs_world hs_target_error hs_log] in *.
  apply wp_bind. unfold wp at 1, record. cbn [fst snd hs_budget hs_world hs_target_error hs_log]. apply wp_ret. rewrite Hlog0. cbn [app].
  pose proof (log_confined_authorize request limits [] (br_target request) (br_interface request) (br_port request) auth Hnil) as Hlog.
  destruct auth as [target|e]; [|by apply wp_ret; split].
  destruct (bool_decide (at_target target <> _) || _ || _) eqn:E5; [by apply wp_ret; split|].
  apply wp_bind, wp_on_world. intros now' w4 _. destruct (deadline <=? now'); [by apply wp_ret; split|].
  destruct (fst (sandbox_for _ _ _ _)) as [sb|e] eqn:Esb; [|by apply wp_ret; split].
  apply sandbox_for_ok in Esb as (Hsb & Hcl & _). apply execute_admitted_rule; try done.
  apply authorize_makes in Hauth as (ip & i & p & Hnew). apply target_new_ok in Hnew as (-> & Hprivate).
  cbn [at_target at_interface at_port] in *. bprop. subst. split; try done.
  - f_equal. by apply dec_stable.
  - unfold check_limits in Hcl. by destruct (valid_limits limits).
Qed.
End Theorems.

(** ** The cache *)
Section CacheTheorem.
Context `{Sha256} `{Ed25519} `{Wasmtime}.

(** A cache holds at most the configured number of modules, each the compilation of code with
    its digest. *)
Definition cache_ok (c : gmap bytes CompiledModule) : Prop :=
  Z.of_nat (size c) <= MAX_CACHED_MODULES /\
  forall d m, c !! d = Some m -> exists code, sha256 code = d /\ compile code = Ok m.

(** Code of one digest compiles to one module, or other code collides with it. *)
Lemma cached_module c d m code :
  cache_ok c -> c !! d = Some m -> sha256 code = d -> compile code = Ok m \/ exists code', collide code' code.
Proof.
  intros [_ Hc] Hm Hcode. destruct (Hc d m Hm) as (code' & Hd & Hcomp').
  destruct (decide (code' = code)) as [->|Hne]; [by left|right]. exists code'. split; [done|congruence].
Qed.

Lemma cache_insert_ok c digest compiled code :
  cache_ok c -> sha256 code = digest -> compile code = Ok compiled ->
  cache_ok (snd (cache_insert digest compiled c)) /\
  (fst (cache_insert digest compiled c) = compiled \/ exists code', collide code' code).
Proof.
  intros Hc Hd Hcomp. unfold cache_insert.
  set (c' := if MAX_CACHED_MODULES <=? _ then ∅ else c).
  assert (cache_ok c' /\ Z.of_nat (size c') < MAX_CACHED_MODULES) as [Hc' Hs].
  { unfold c'. destruct (_ <=? _) eqn:E; bprop; [|by split]. unfold cache_ok. rewrite map_size_empty.
    split; [split; [done|]|done]. intros d m Hm. by rewrite lookup_empty in Hm. }
  destruct (c' !! digest) as [old|] eqn:Hold; cbn [fst snd]; [split; [done|]|].
  { destruct (cached_module _ _ _ _ Hc' Hold Hd) as [Ho|Hcol]; [left; congruence|by right]. }
  split; [|by left]. split.
  - rewrite map_size_insert_None by done. lia.
  - intros d m. rewrite lookup_insert. case_decide as Hdd; [intros [= <-]; subst; by exists code|apply Hc'].
Qed.

(** The cache of compiled modules is invisible: for a verified module and whatever sound
    contents the shared cache has when it is read and when it is written, [sandbox_for] gives
    the sandbox or the error that compiling the module afresh would give, unless some other code
    collides with that of the module, and it leaves a sound cache of at most sixteen modules. *)
Theorem cached_sandbox_is_fresh m wasm key v limits lookup_cache insert_cache :
  verify_manifest m wasm key = Ok v -> cache_ok lookup_cache -> cache_ok insert_cache ->
  (fst (sandbox_for v limits lookup_cache insert_cache) = new_with_limits v limits \/ exists code', collide code' wasm) /\
  forall c, snd (sandbox_for v limits lookup_cache insert_cache) = Some c -> cache_ok c.
Proof.
  intros (-> & _ & _ & Hsha & _)%verify_manifest_ok Hc1 Hc2. unfold sandbox_for, new_with_limits.
  destruct (check_limits _ limits) as [[]|e]; [|split; [by left|done]]. cbn [result_bind vm_inner].
  unfold sandbox_compile in *. cbn [vm_wasm] in *.
  destruct (lookup_cache !! am_sha256 m) as [old|] eqn:Hold; cbn [fst snd result_bind].
  - split; [|done]. destruct (cached_module _ _ _ _ Hc1 Hold Hsha) as [->|Hcol]; [by left|by right].
  - destruct (compile wasm) as [compiled|e] eqn:Hw; [|split; [by left|done]].
    destruct (cache_insert_ok _ _ _ _ Hc2 Hsha Hw) as [Hok Hval].
    destruct (cache_insert _ _ _) as [used c]. cbn [fst snd] in *. split; [|intros ? [= <-]; exact Hok].
    destruct Hval as [->|Hcol]; [by left|by right].
Qed.
End CacheTheorem.

(** ** Concrete runs *)
From S2P Require Import Order AuditLogTheorems.

#[local] Existing Instance toy_sha256.

Definition toy_sign (k : Z) (m : bytes) : bytes := be_bytes 64 (fold_left (fun a b => 263 * a + b + k) m 11).
Definition toy_ed25519 : Ed25519 := {|
  SigningKey := Z;
  VerifyingKey := Z;
  verifying_key k := k;
  key_sign := toy_sign;
  verify_strict k m s := bool_decide (s = toy_sign k m);
  verify_signed k m := bool_decide_eq_true_2 _ eq_refl
|}.
#[local] Existing Instance toy_ed25519.

Definition audit_type : ExternType := FuncType [I32; I32; I32; I32] [I32].
Definition toy_wasmtime : Wasmtime := {|
  Module_ := unit;
  module_new _ := Some tt;
  module_imports _ := [(("audit", "exchange"), audit_type)]%string;
  module_exports _ := [("run", FuncType [I32; I32] [I64]); ("memory", MemoryExtern)]%string;
  parse_all _ :=
    [Some (ImportSection [Some {| im_module := "audit"; im_name := "exchange"; im_is_func := true |}]);
     Some (MemorySection [Some {| my_memory64 := false; my_shared := false; my_page_size_log2 := None;
                                  my_initial := 1; my_maximum := Some 1 |}]); Some OtherPayload];
  instantiate _ := GMemoryGrowing 65536 (GDone (Some (repeat 0 32)));
  call_run _ memory n :=
    GExchange 0 n 8 16 (Some memory) (fun memory' k => GYield (GDone (Z.shiftl 8 32 + k, memory')))
|}.
#[local] Existing Instance toy_wasmtime.

Definition answer : ExchangeResponse := {| xs_bytes := [72; 73]; xs_limit := 16 |}.
Program Definition toy_world : World := {|
  W := Z;
  world_cancelled w := (false, w);
  world_now w := (w, w + 1);
  instant_add t d := Some (t + d);
  world_timer d w := (d <=? w, w);
  world_authorize ip i p w := (target_new ip i p, w);
  world_exchange t req w := (CallAnswered (Ok answer), w + 10);
  world_poll w := (None, w)
|}.
Next Obligation. intros ip i p w t w' [= Ht _]. eauto. Qed.
#[local] Existing Instance toy_world.

(** ** A manifest *)
Definition demo_wasm : bytes := [0; 97; 115; 109; 1; 0; 0; 0].
Definition demo_limits : Limits := {|
  max_bytes := 64; max_requests := 2; max_time := seconds 5; max_fuel := 1000; max_memory_pages := 1 |}.
Definition demo_manifest : AuditManifest := {|
  am_module_id := "banner.read"; am_version := 1; am_sha256 := sha256 demo_wasm;
  am_target_kind := NumericPrivateDevice; am_capabilities := {[TcpExchange 80; HttpExchange 8080]};
  am_expected_behavior := "reads a banner"; am_side_effects := ReadOnly;
  am_rollback := {| rp_required := false; rp_description := "none" |};
  am_evidence_schema := {| es_fields := {["banner" := EText]} |}; am_limits := demo_limits;
  am_signature := repeat 0 64 |}.

Lemma manifest_accepted : accepted demo_manifest.
Proof. unfold accepted. vm_compute. reflexivity. Qed.

Lemma demo_typed sig : length sig = 64%nat -> manifest_typed (with_signature demo_manifest sig).
Proof.
  intros Hs. split; cbn [with_signature am_version am_sha256 am_capabilities am_limits am_signature demo_manifest max_time demo_limits].
  - lia.
  - apply sha256_length.
  - intros c Hc. apply elem_of_union in Hc as [->%elem_of_singleton| ->%elem_of_singleton]; cbn; lia.
  - unfold seconds. lia.
  - exact Hs.
Qed.

Definition signed_demo : AuditManifest := manifest_sign demo_manifest 9.
Definition verified_demo : VerifiedManifest := {| vm_inner := signed_demo; vm_wasm := demo_wasm |}.
Lemma signed_accepted : accepted signed_demo.
Proof. unfold accepted. vm_compute. reflexivity. Qed.
Lemma demo_verified : verify_manifest signed_demo demo_wasm 9 = Ok verified_demo.
Proof.
  refine (verify_manifest_intro signed_demo demo_wasm (9 : @VerifyingKey toy_ed25519) signed_accepted eq_refl eq_refl eq_refl _).
  exact (@verify_signed toy_ed25519 (9 : Z) (canonical_unsigned demo_manifest)).
Qed.

Lemma signed_demo_typed : manifest_typed signed_demo.
Proof. apply demo_typed. apply length_be_bytes. Qed.

Lemma only_published_modules_verify_witness :
  (exists p, In p [demo_manifest] /\ vm_inner verified_demo = with_signature p (am_signature signed_demo) /\
     am_side_effects p = ReadOnly /\
     vm_wasm verified_demo = demo_wasm /\ sha256 demo_wasm = am_sha256 p /\ Z.of_nat (length demo_wasm) <= MAX_WASM_BYTES) \/
  (verify_strict (9 : @VerifyingKey toy_ed25519) (canonical_unsigned signed_demo) (am_signature signed_demo) = true /\
   ~ In (canonical_unsigned signed_demo) (map canonical_unsigned [demo_manifest])).
Proof.
  apply (only_published_modules_verify [demo_manifest] (9 : @VerifyingKey toy_ed25519) signed_demo demo_wasm verified_demo).
  - exact signed_demo_typed.
  - constructor; [|constructor]. split; [exact (demo_typed (repeat 0 64) eq_refl)|exact manifest_accepted].
  - exact demo_verified.
Defined.

Lemma signed_manifest_verifies_witness :
  verify_manifest (manifest_sign demo_manifest 9) [1; 2] (verifying_key (9 : @SigningKey toy_ed25519)) = Err DigestMismatch.
Proof.
  rewrite (signed_manifest_verifies demo_manifest [1; 2] (9 : @SigningKey toy_ed25519) manifest_accepted). vm_compute. reflexivity.
Defined.

Lemma manifest_wire_roundtrip_witness : manifest_deserialize (manifest_serialize signed_demo) = Ok signed_demo.
Proof.
  apply (manifest_wire_roundtrip signed_demo (manifest_serialize signed_demo) signed_demo).
  - exact signed_demo_typed.
  - exact signed_accepted.
Defined.

(** ** A budget with two reservations open at once *)
Definition demo_budget : BudgetState := budget_new demo_limits 100.
Definition reserved_once : BudgetState := set_usage 1 20 demo_budget.
Definition reserved_twice : BudgetState := set_usage 2 50 demo_budget.

Lemma budget_accounting_exact_witness :
  ledger_ok demo_limits 100
    {| lg_budget := set_usage 1 15 demo_budget; lg_open := []; lg_committed := 1; lg_used := 15 |}.
Proof.
  apply (budget_accounting_exact demo_limits 100); [vm_compute; reflexivity|].
  eapply rtc_l; [apply (step_reserve _ reserved_once _ _ _ 1 10 10); [lia|lia|vm_compute; reflexivity]|].
  eapply rtc_l; [apply (step_reserve _ reserved_twice _ _ _ 2 10 20); [lia|lia|vm_compute; reflexivity]|].
  eapply rtc_l; [apply (step_commit _ (set_usage 2 45 demo_budget) [{| rv_request_bytes := 10; rv_response_cap := 20 |}]
                          {| rv_request_bytes := 10; rv_response_cap := 10 |} [] _ _ 5); [lia|vm_compute; reflexivity]|].
  apply rtc_once. exact (step_drop (set_usage 2 45 demo_budget) [] {| rv_request_bytes := 10; rv_response_cap := 20 |} [] 1 15).
Defined.

(** ** A whole audit *)
Definition demo_request : BrokerRequest := {|
  br_module := verified_demo; br_input := [65; 66; 67]; br_target := V4 (v4 192 168 1 2); br_interface := 7; br_port := 80;
  br_capability := TcpExchange 80; br_approval_id := 41; br_limits := demo_limits |}.
Definition start_state : HostState := {|
  hs_world := (1000 : @W toy_world); hs_budget := demo_budget; hs_target_error := None; hs_log := [] |}.
Definition demo_run : result BrokerResult BrokerError * HostState := execute demo_request ∅ ∅ start_state.

(** The audit returns the answer of the one exchange that it made. *)
Example demo_run_result :
  fst demo_run = Ok {| bres_target := V4 (v4 192 168 1 2); bres_approval_id := 41; bres_bytes := [72; 73] |} /\
  exchanges (hs_log (snd demo_run)) = 1 /\ bytes_used (hs_log (snd demo_run)) = 5.
Proof. vm_compute. auto. Qed.

Lemma broker_confines_guest_witness :
  execute_spec demo_request (intersect_limits (am_limits (vm_inner (br_module demo_request))) (br_limits demo_request))
    (fst demo_run) (snd demo_run).
Proof.
  pose proof (broker_confines_guest demo_request ∅ ∅ start_state eq_refl) as Hc. unfold demo_run.
  destruct (execute demo_request ∅ ∅ start_state) as [r s']. exact Hc.
Defined.

Definition demo_compiled : CompiledModule := {| cm_module := tt |}.
Lemma demo_cache_ok : cache_ok {[sha256 demo_wasm := demo_compiled]}.
Proof.
  split; [rewrite map_size_singleton; unfold MAX_CACHED_MODULES; lia|].
  intros d m [Hd Hm]%lookup_singleton_Some. exists demo_wasm. rewrite <- Hm. exact (conj Hd eq_refl).
Qed.

Lemma cached_sandbox_is_fresh_witness :
  fst (sandbox_for verified_demo demo_limits {[sha256 demo_wasm := demo_compiled]} ∅) = new_with_limits verified_demo demo_limits
  \/ exists code', collide code' demo_wasm.
Proof.
  apply (cached_sandbox_is_fresh signed_demo demo_wasm (9 : @VerifyingKey toy_ed25519) verified_demo demo_limits
           {[sha256 demo_wasm := demo_compiled]} ∅).
  - exact demo_verified.
  - exact demo_cache_ok.
  - split; [rewrite map_size_empty; unfold MAX_CACHED_MODULES; lia|]. intros d m Hm. rewrite lookup_empty in Hm. discriminate Hm.
Defined.

Lemma admitted_module_shape_witness :
  Forall audited_import (concat (map imports_of (parse_all demo_wasm))) /\ sb_limits {| sb_compiled := demo_compiled; sb_limits := demo_limits |} = demo_limits.
Proof.
  destruct (admitted_module_shape verified_demo demo_limits {| sb_compiled := demo_compiled; sb_limits := demo_limits |} eq_refl)
    as (_ & Hi & _ & _ & _ & Hl & _).
  exact (conj Hi Hl).
Defined.
