(* ===== verification/Advisory.v ===== *)
(** * Security advisories: normalisation and matching

    crates/lattice-advisory/src/lib.rs and match.rs. The url crate's parser, serde_json's text
    of an advisory and SHA-256 are parameters. *)

From S2P Require Import Prelude Order Time Text Bytes Net.

(** ** Text *)
(** [s.chars().any(char::is_whitespace)] *)
Fixpoint has_white (l : list ascii) : bool :=
  match l with
  | [] => false
  | _ :: l' => starts_white l || has_white l'
  end.
Definition control_or_white (s : string) : bool := has_control s || has_white (String.list_ascii_of_string s).

Definition eq_ignore_ascii_case (a b : string) : bool := bool_decide (to_ascii_lowercase a = to_ascii_lowercase b).

(** [s.chars().take(n).collect()]: continuation bytes stay with their character. *)
Fixpoint take_chars (n : nat) (s : string) : string :=
  match s with
  | EmptyString => EmptyString
  | String a s' =>
    let c := N_of_ascii a in
    if ((128 <=? c) && (c <? 192))%N then String a (take_chars n s')
    else match n with O => EmptyString | S n' => String a (take_chars n' s') end
  end.

Definition is_ascii_digit (a : ascii) : bool := let n := N_of_ascii a in ((48 <=? n) && (n <=? 57))%N.

(** [s.split(c)] *)
Fixpoint split_char (c : ascii) (s : string) : list string :=
  match s with
  | EmptyString => [EmptyString]
  | String a s' =>
    if bool_decide (a = c) then EmptyString :: split_char c s'
    else match split_char c s' with
         | [] => [String a EmptyString]
         | p :: ps => String a p :: ps
         end
  end.

Definition MAX_FIELD : Z := 512.
Definition MAX_PARSER_OUTPUTS : Z := 2000.

Definition is_strict_cve (value : string) : bool :=
  if String.prefix "CVE-" value then
    match split_char "-"%char (String.substring 4 (String.length value - 4) value) with
    | [year; sequence] =>
      (str_len year =? 4) && forallb is_ascii_digit (String.list_ascii_of_string year)
      && (4 <=? str_len sequence) && forallb is_ascii_digit (String.list_ascii_of_string sequence)
    | _ => false
    end
  else false.

(** ** Vocabulary *)
Inductive AdvisorySource := Nvd | CisaKev | Vendor.
Inductive Freshness := Fresh | Stale_ | FutureDated.
Inductive SourceTrust := OfficialApi | VerifiedSignature | RegisteredHttps | Invalid.
Inductive Severity := SevNone | SevLow | SevMedium | SevHigh | SevCritical | SevUnknown.
Inductive Exploitability := ExpNone | ProofOfConcept | ActiveKnownExploitation | ExpUnknown.
Inductive Exposure := NotExposed | PotentiallyExposed | Exposed | ExposureUnknown.
Inductive Confidence := CLow | CMedium | CHigh.
Inductive Remediation := Upgrade | Mitigate | Monitor | RemNone | RemUnknown.
Inductive VersionConstraint := AnyVersion | Exact_ (v : string) | LessThan (v : string) | Range (min max : string).

#[global] Instance AdvisorySource_eq_dec : EqDecision AdvisorySource.
Proof. solve_decision. Defined.
#[global] Instance Freshness_eq_dec : EqDecision Freshness.
Proof. solve_decision. Defined.
#[global] Instance SourceTrust_eq_dec : EqDecision SourceTrust.
Proof. solve_decision. Defined.
#[global] Instance Severity_eq_dec : EqDecision Severity.
Proof. solve_decision. Defined.
#[global] Instance Exploitability_eq_dec : EqDecision Exploitability.
Proof. solve_decision. Defined.
#[global] Instance Exposure_eq_dec : EqDecision Exposure.
Proof. solve_decision. Defined.
#[global] Instance Confidence_eq_dec : EqDecision Confidence.
Proof. solve_decision. Defined.
#[global] Instance Remediation_eq_dec : EqDecision Remediation.
Proof. solve_decision. Defined.
#[global] Instance VersionConstraint_eq_dec : EqDecision VersionConstraint.
Proof. solve_decision. Defined.

Record AdvisoryInput := {
  ai_source : AdvisorySource;
  ai_source_id : string;
  ai_source_url : string;
  ai_title : string;
  ai_vendor : string;
  ai_model : option string;
  ai_firmware : VersionConstraint;
  ai_published_at : DateTime;
  ai_modified_at : DateTime;
  ai_retrieved_at : DateTime;
  ai_cache_expires_at : DateTime;
  ai_freshness : Freshness;
  ai_source_trust : SourceTrust;
  ai_severity : Severity;
  ai_exploitability : Exploitability;
  ai_exposure : Exposure;
  ai_confidence : Confidence;
  ai_remediation : Remediation
}.

Definition with_freshness (f : Freshness) (i : AdvisoryInput) : AdvisoryInput := {|
  ai_source := ai_source i; ai_source_id := ai_source_id i; ai_source_url := ai_source_url i; ai_title := ai_title i;
  ai_vendor := ai_vendor i; ai_model := ai_model i; ai_firmware := ai_firmware i; ai_published_at := ai_published_at i;
  ai_modified_at := ai_modified_at i; ai_retrieved_at := ai_retrieved_at i; ai_cache_expires_at := ai_cache_expires_at i;
  ai_freshness := f; ai_source_trust := ai_source_trust i; ai_severity := ai_severity i;
  ai_exploitability := ai_exploitability i; ai_exposure := ai_exposure i; ai_confidence := ai_confidence i;
  ai_remediation := ai_remediation i |}.

Record NormalizedAdvisory := { na_input : AdvisoryInput; na_provenance_sha256 : string }.

Inductive AdvisoryError :=
  | MissingSourceId | MissingField (name : string) | OversizeField (name : string) | ControlCharacters (name : string)
  | NonHttpsUrl | UnsafeUrl | InvalidChronology | InvalidCacheWindow | InvalidFreshness | InvalidVersion
  | Serialization.

Record Url := {
  url_scheme : string; url_host : option string; url_port : option Z; url_path : string;
  url_username : string; url_password : option string; url_fragment : option string }.

Class AdvisoryLibs := {
  url_parse : string -> option Url;
  input_json : AdvisoryInput -> option bytes
}.

(** ** Normalisation *)
Definition validate_text (name value : string) : result unit AdvisoryError :=
  if trim_is_empty value then Err (MissingField name)
  else if MAX_FIELD <? str_len value then Err (OversizeField name)
  else if has_control value then Err (ControlCharacters name)
  else Ok tt.

Definition valid_version (s : string) : bool :=
  negb (trim_is_empty s) && (str_len s <=? 128) && negb (control_or_white s).

Definition validate_version (v : VersionConstraint) : result unit AdvisoryError :=
  if match v with
     | AnyVersion => true
     | Exact_ s | LessThan s => valid_version s
     | Range min max => valid_version min && valid_version max
     end
  then Ok tt else Err InvalidVersion.

(** Whether a source timestamp lies after the retrieval. *)
Definition future_dated (i : AdvisoryInput) : bool :=
  (ai_retrieved_at i <? ai_published_at i) || (ai_retrieved_at i <? ai_modified_at i).

Section Normalize.
Context `{Sha256} `{AdvisoryLibs}.

Definition validate_url (url : string) : result unit AdvisoryError :=
  if control_or_white url || existsb (fun a => bool_decide (a = "\"%char)) (String.list_ascii_of_string url)
  then Err UnsafeUrl
  else
    let? parsed := ok_or (url_parse url) UnsafeUrl in
    if negb (bool_decide (url_scheme parsed = "https"%string)) then Err NonHttpsUrl
    else if bool_decide (url_host parsed = None) || negb (bool_decide (url_username parsed = EmptyString))
            || bool_decide (is_Some (url_password parsed)) || bool_decide (is_Some (url_fragment parsed))
    then Err UnsafeUrl
    else validate_text "source_url" url.

(** [NormalizedAdvisory::new] *)
Definition advisory_new (i : AdvisoryInput) : result NormalizedAdvisory AdvisoryError :=
  if trim_is_empty (ai_source_id i) then Err MissingSourceId
  else
  let? _ := validate_text "source_id" (ai_source_id i) in
  let? _ := validate_url (ai_source_url i) in
  let? _ := validate_text "title" (ai_title i) in
  let? _ := validate_text "vendor" (ai_vendor i) in
  let? _ := match ai_model i with Some m => validate_text "model" m | None => Ok tt end in
  let? _ := validate_version (ai_firmware i) in
  if ai_modified_at i <? ai_published_at i then Err InvalidChronology
  else if ai_cache_expires_at i <? ai_retrieved_at i then Err InvalidCacheWindow
  else if bool_decide (ai_freshness i = FutureDated) && negb (future_dated i) then Err InvalidFreshness
  else
    let i := if future_dated i then with_freshness FutureDated i else i in
    let? canonical := ok_or (input_json i) Serialization in
    Ok {| na_input := i; na_provenance_sha256 := hex_text (sha256 canonical) |}.

Inductive WireAdvisoryError := WAdvisory (e : AdvisoryError) | ProvenanceMismatch.

(** [Deserialize for NormalizedAdvisory], on the decoded pair of fields. *)
Definition advisory_deserialize (input : AdvisoryInput) (provenance : string) : result NormalizedAdvisory WireAdvisoryError :=
  match advisory_new input with
  | Err e => Err (WAdvisory e)
  | Ok n => if bool_decide (na_provenance_sha256 n <> provenance) then Err ProvenanceMismatch else Ok n
  end.
End Normalize.

(** ** Matching *)
Definition MAX_EXPLANATION : nat := 512.

Record DeviceIdentity := {
  di_vendor : string; di_model : option string; di_firmware : option string; di_contradictory_high_confidence : bool }.

Inductive MatchLabel := LExact | LPossible | LContradicted | LUnknown.
#[global] Instance MatchLabel_eq_dec : EqDecision MatchLabel.
Proof. solve_decision. Defined.
Inductive MatchedField := MVendor | MModel | MFirmware.
#[global] Instance MatchedField_eq_dec : EqDecision MatchedField.
Proof. solve_decision. Defined.

Record AdvisoryMatch := {
  mt_label : MatchLabel; mt_matched_fields : list MatchedField; mt_explanation : string; mt_confidence : Confidence }.

Inductive MatchError := InvalidDeviceField (name : string) | MixedSourceIds | InvalidGroup | InvalidStoredMatch.

Definition validate_device_field (name value : string) : result unit MatchError :=
  if str_is_empty value || (MAX_FIELD <? str_len value) || negb (is_trimmed value) || has_control value
  then Err (InvalidDeviceField name) else Ok tt.

Definition device_identity_new (vendor : string) (model firmware : option string) : result DeviceIdentity MatchError :=
  let? _ := validate_device_field "vendor" vendor in
  let? _ := match model with Some v => validate_device_field "model" v | None => Ok tt end in
  let? _ := match firmware with Some v => validate_device_field "firmware" v | None => Ok tt end in
  Ok {| di_vendor := vendor; di_model := model; di_firmware := firmware; di_contradictory_high_confidence := false |}.

Definition device_identity_known (vendor model firmware : string) : result DeviceIdentity MatchError :=
  device_identity_new vendor (Some model) (Some firmware).
Definition with_contradiction (d : DeviceIdentity) (value : bool) : DeviceIdentity := {|
  di_vendor := di_vendor d; di_model := di_model d; di_firmware := di_firmware d; di_contradictory_high_confidence := value |}.
(** [Deserialize for DeviceIdentity], on the decoded fields. *)
Definition device_identity_deserialize (wire : DeviceIdentity) : result DeviceIdentity MatchError :=
  let? d := device_identity_new (di_vendor wire) (di_model wire) (di_firmware wire) in
  Ok (with_contradiction d (di_contradictory_high_confidence wire)).

Definition field_code (f : MatchedField) : Z := match f with MVendor => 0 | MModel => 1 | MFirmware => 2 end.

(** [windows(2).any(|pair| pair[0] as u8 >= pair[1] as u8)] *)
Fixpoint out_of_order (l : list MatchedField) : bool :=
  match l with
  | a :: (b :: _) as l' => (field_code b <=? field_code a) || out_of_order l'
  | _ => false
  end.

Definition from_persisted (label : MatchLabel) (fields : list MatchedField) (explanation : string) (confidence : Confidence)
  : result AdvisoryMatch MatchError :=
  if str_is_empty explanation || (Z.of_nat MAX_EXPLANATION <? str_len explanation) || has_control explanation
     || Nat.ltb 3 (length fields) || out_of_order fields
     || (bool_decide (label = LExact)
         && (negb (bool_decide (confidence = CHigh)) || negb (bool_decide (fields = [MVendor; MModel; MFirmware]))))
  then Err InvalidStoredMatch
  else Ok {| mt_label := label; mt_matched_fields := fields; mt_explanation := explanation; mt_confidence := confidence |}.

(** [fn result] *)
Definition match_result (label : MatchLabel) (fields : list MatchedField) (explanation : string) (confidence : Confidence)
  : AdvisoryMatch := {|
  mt_label := label; mt_matched_fields := fields; mt_explanation := take_chars MAX_EXPLANATION explanation;
  mt_confidence := confidence |}.

Definition is_exact (v : VersionConstraint) : bool := match v with Exact_ _ => true | _ => false end.
Definition unknown_vendor (i : AdvisoryInput) : bool := eq_ignore_ascii_case (ai_vendor i) "unknown".

Definition push_if {A} (b : bool) (x : A) (l : list A) : list A := if b then l ++ [x] else l.

Definition matched (i : AdvisoryInput) (vendor model firmware : bool) : list MatchedField :=
  push_if (firmware && is_exact (ai_firmware i)) MFirmware
    (push_if (model && bool_decide (is_Some (ai_model i))) MModel
      (push_if (vendor && negb (unknown_vendor i)) MVendor [])).

Definition vendor_matches (i : AdvisoryInput) (d : DeviceIdentity) : bool :=
  unknown_vendor i || eq_ignore_ascii_case (ai_vendor i) (di_vendor d).
Definition model_matches (i : AdvisoryInput) (d : DeviceIdentity) : bool :=
  is_none_or (fun m => is_some_and (eq_ignore_ascii_case m) (di_model d)) (ai_model i).
Definition firmware_matches (i : AdvisoryInput) (d : DeviceIdentity) : bool :=
  match ai_firmware i with
  | Exact_ v => is_some_and (fun f => bool_decide (v = f)) (di_firmware d)
  | _ => true
  end.

(** Only [Ok] is returned. *)
Definition match_advisory (device : option DeviceIdentity) (advisory : NormalizedAdvisory) : AdvisoryMatch :=
  let i := na_input advisory in
  let selectors := negb (unknown_vendor i) || bool_decide (is_Some (ai_model i))
                   || negb (bool_decide (ai_firmware i = AnyVersion)) in
  if bool_decide (ai_source_trust i = Invalid) then match_result LUnknown [] "source trust is invalid" CLow
  else if negb selectors then match_result LUnknown [] "advisory has no usable identity selectors" CLow
  else match device with
  | None => match_result LPossible [] "device evidence is unavailable" CLow
  | Some d =>
    let vendor_match := vendor_matches i d in
    let model_match := model_matches i d in
    let firmware_match := firmware_matches i d in
    let has_model := bool_decide (is_Some (di_model d)) in
    let has_firmware := bool_decide (is_Some (di_firmware d)) in
    let contradiction := negb vendor_match
      || (bool_decide (is_Some (ai_model i)) && (has_model && negb model_match))
      || (is_exact (ai_firmware i) && has_firmware && negb firmware_match) in
    if di_contradictory_high_confidence d
    then match_result LContradicted [] "high-confidence device evidence is contradictory" CHigh
    else if contradiction
    then match_result LContradicted (matched i vendor_match model_match firmware_match)
           "identity evidence contradicts the advisory" CHigh
    else
      let fields :=
        push_if (is_exact (ai_firmware i) && has_firmware && firmware_match) MFirmware
          (push_if (bool_decide (is_Some (ai_model i)) && has_model && model_match) MModel
            (push_if (negb (unknown_vendor i) && vendor_match) MVendor [])) in
      let exact_allowed := negb (unknown_vendor i) && bool_decide (ai_freshness i = Fresh)
        && (bool_decide (ai_source_trust i = OfficialApi) || bool_decide (ai_source_trust i = VerifiedSignature))
        && bool_decide (is_Some (ai_model i)) && has_model && is_exact (ai_firmware i) && has_firmware
        && negb (di_contradictory_high_confidence d) in
      if exact_allowed then match_result LExact fields "all advisory identity fields match" CHigh
      else match_result LPossible fields "identity is incomplete or source evidence is not actionable" CMedium
  end.

(** ** Risk *)
Record DeviceEvidence := { de_exposure : Exposure; de_confidence : Confidence }.
Record RiskDimensions := {
  rd_severity : Severity; rd_exploitability : Exploitability; rd_exposure : Exposure; rd_confidence : Confidence;
  rd_remediation : Remediation }.

Definition rank_severity (v : Severity) : Z :=
  match v with SevNone => 1 | SevLow => 1 | SevMedium => 2 | SevHigh => 3 | SevCritical => 4 | SevUnknown => 0 end.
Definition max_severity (a b : Severity) : Severity := if rank_severity a <? rank_severity b then b else a.
Definition rank_exploitability (v : Exploitability) : Z :=
  match v with ExpNone => 1 | ProofOfConcept => 1 | ActiveKnownExploitation => 2 | ExpUnknown => 0 end.
Definition max_exploitability (a b : Exploitability) : Exploitability :=
  if rank_exploitability a <? rank_exploitability b then b else a.
Definition rank_remediation (v : Remediation) : Z :=
  match v with RemNone => 1 | Monitor => 1 | Mitigate => 2 | Upgrade => 3 | RemUnknown => 0 end.
Definition max_remediation (a b : Remediation) : Remediation := if rank_remediation a <? rank_remediation b then b else a.
Definition rank_confidence (v : Confidence) : Z := match v with CLow => 0 | CMedium => 1 | CHigh => 2 end.
Definition max_confidence (a b : Confidence) : Confidence := if rank_confidence a <? rank_confidence b then b else a.

(** The body of the loop. *)
Definition compose_step (risk : RiskDimensions) (advisory : NormalizedAdvisory) : RiskDimensions :=
  let a := na_input advisory in
  if negb (bool_decide (ai_source a = CisaKev)) then
    {| rd_severity := max_severity (rd_severity risk) (ai_severity a);
       rd_exploitability := max_exploitability (rd_exploitability risk) (ai_exploitability a);
       rd_exposure := rd_exposure risk; rd_confidence := rd_confidence risk;
       rd_remediation := max_remediation (rd_remediation risk) (ai_remediation a) |}
  else if bool_decide (ai_exploitability a = ActiveKnownExploitation) then
    {| rd_severity := rd_severity risk; rd_exploitability := ActiveKnownExploitation;
       rd_exposure := rd_exposure risk; rd_confidence := rd_confidence risk; rd_remediation := rd_remediation risk |}
  else risk.

Definition initial_risk : RiskDimensions := {|
  rd_severity := SevUnknown; rd_exploitability := ExpUnknown; rd_exposure := ExposureUnknown; rd_confidence := CLow;
  rd_remediation := RemUnknown |}.

Definition compose_risk (advisories : list NormalizedAdvisory) (device : option DeviceEvidence)
  : result RiskDimensions MatchError :=
  match advisories with
  | [] => Err InvalidGroup
  | first :: _ =>
    if Nat.ltb 64 (length advisories) then Err InvalidGroup
    else if existsb (fun a => negb (bool_decide (ai_source_id (na_input a) = ai_source_id (na_input first)))) advisories
    then Err MixedSourceIds
    else
      let risk := fold_left compose_step advisories initial_risk in
      Ok match device with
         | Some e => {| rd_severity := rd_severity risk; rd_exploitability := rd_exploitability risk;
                        rd_exposure := de_exposure e; rd_confidence := max_confidence (rd_confidence risk) (de_confidence e);
                        rd_remediation := rd_remediation risk |}
         | None => risk
         end
  end.
