(* ===== verification/AdvisoryProps.v ===== *)
(** * Security advisories: what a match and a risk mean *)

From S2P Require Import Prelude Order Time Text Bytes Net Advisory.

(** ** Labels *)
(** The advisory names this very product and firmware, and may be acted on. *)
Record exactly_affects (i : AdvisoryInput) (d : DeviceIdentity) : Prop := {
  ea_trust : ai_source_trust i = OfficialApi \/ ai_source_trust i = VerifiedSignature;
  ea_fresh : ai_freshness i = Fresh;
  ea_vendor : unknown_vendor i = false /\ eq_ignore_ascii_case (ai_vendor i) (di_vendor d) = true;
  ea_model : exists m m', ai_model i = Some m /\ di_model d = Some m' /\ eq_ignore_ascii_case m m' = true;
  ea_firmware : exists v, ai_firmware i = Exact_ v /\ di_firmware d = Some v;
  ea_consistent : di_contradictory_high_confidence d = false
}.

(** A known field of the device differs from what the advisory names. *)
Definition differs (i : AdvisoryInput) (d : DeviceIdentity) : Prop :=
  (unknown_vendor i = false /\ eq_ignore_ascii_case (ai_vendor i) (di_vendor d) = false) \/
  (exists m m', ai_model i = Some m /\ di_model d = Some m' /\ eq_ignore_ascii_case m m' = false) \/
  (exists v v', ai_firmware i = Exact_ v /\ di_firmware d = Some v' /\ v <> v').

Definition has_selectors (i : AdvisoryInput) : Prop :=
  unknown_vendor i = false \/ is_Some (ai_model i) \/ ai_firmware i <> AnyVersion.

(** The fields that a device and an advisory compare. *)
Lemma vendor_matches_false i d :
  vendor_matches i d = false <-> unknown_vendor i = false /\ eq_ignore_ascii_case (ai_vendor i) (di_vendor d) = false.
Proof. unfold vendor_matches. apply orb_false_iff. Qed.

Lemma model_conflict i d :
  bool_decide (is_Some (ai_model i)) && (bool_decide (is_Some (di_model d)) && negb (model_matches i d)) = true <->
  exists m m', ai_model i = Some m /\ di_model d = Some m' /\ eq_ignore_ascii_case m m' = false.
Proof.
  unfold model_matches. destruct (ai_model i) as [m|], (di_model d) as [m'|]; cbn.
  - split; [intros E%negb_true_iff; by exists m, m'|]. by intros (? & ? & [= <-] & [= <-] & ->).
  - split; [done|]. by intros (? & ? & _ & [=] & _).
  - split; [done|]. by intros (? & ? & [=] & _).
  - split; [done|]. by intros (? & ? & [=] & _).
Qed.

Lemma firmware_conflict i d :
  is_exact (ai_firmware i) && bool_decide (is_Some (di_firmware d)) && negb (firmware_matches i d) = true <->
  exists v v', ai_firmware i = Exact_ v /\ di_firmware d = Some v' /\ v <> v'.
Proof.
  unfold firmware_matches. destruct (ai_firmware i) as [|v|v|lo hi]; cbn; [split; [done|by intros (? & ? & [=] & _)]| |split; [done|by intros (? & ? & [=] & _)]..].
  destruct (di_firmware d) as [v'|]; cbn; [|split; [done|by intros (? & ? & _ & [=] & _)]].
  rewrite negb_true_iff, bool_decide_eq_false. split; [intros Hne; by exists v, v'|]. by intros (? & ? & [= <-] & [= <-] & Hne).
Qed.

Lemma contradiction_iff i d :
  negb (vendor_matches i d)
  || (bool_decide (is_Some (ai_model i)) && (bool_decide (is_Some (di_model d)) && negb (model_matches i d)))
  || (is_exact (ai_firmware i) && bool_decide (is_Some (di_firmware d)) && negb (firmware_matches i d)) = true <->
  differs i d.
Proof.
  unfold differs. rewrite !orb_true_iff, model_conflict, firmware_conflict, negb_true_iff, vendor_matches_false. tauto.
Qed.

Lemma selectors_iff i :
  negb (unknown_vendor i) || bool_decide (is_Some (ai_model i)) || negb (bool_decide (ai_firmware i = AnyVersion)) = true <->
  has_selectors i.
Proof. unfold has_selectors. rewrite !orb_true_iff, !negb_true_iff, bool_decide_eq_true, bool_decide_eq_false. tauto. Qed.

(** The allowed exact label, when nothing differs. *)
Lemma exact_allowed_iff i d :
  di_contradictory_high_confidence d = false -> ~ differs i d ->
  negb (unknown_vendor i) && bool_decide (ai_freshness i = Fresh)
    && (bool_decide (ai_source_trust i = OfficialApi) || bool_decide (ai_source_trust i = VerifiedSignature))
    && bool_decide (is_Some (ai_model i)) && bool_decide (is_Some (di_model d)) && is_exact (ai_firmware i)
    && bool_decide (is_Some (di_firmware d)) && negb (di_contradictory_high_confidence d) = true <->
  exactly_affects i d.
Proof.
  intros Hc Hd. rewrite !andb_true_iff, orb_true_iff, !bool_decide_eq_true, !negb_true_iff. unfold differs in Hd. split.
  - intros (((((((Hu & Hf) & Ht) & [m Hm]) & [m' Hm']) & He) & [v' Hv']) & _). split; try done.
    + split; [done|]. destruct (eq_ignore_ascii_case (ai_vendor i) (di_vendor d)) eqn:E; [done|]. exfalso. apply Hd. by left.
    + exists m, m'. split_and!; try done. destruct (eq_ignore_ascii_case m m') eqn:E; [done|]. exfalso. apply Hd. right. left. by exists m, m'.
    + destruct (ai_firmware i) as [|v|v|lo hi]; try done. exists v. split; [done|]. destruct (decide (v = v')) as [->|Hne]; [done|]. exfalso. apply Hd. right. right. by exists v, v'.
  - intros [Ht Hf [Hu _] (m & m' & -> & -> & _) (v & -> & ->) _]. split_and!; try done; by eexists.
Qed.

(** The four outcomes of a comparison with a device. *)
Lemma match_advisory_cases d n :
  let i := na_input n in
  let r := match_advisory (Some d) n in
  (ai_source_trust i = Invalid \/ ~ has_selectors i) /\ mt_label r = LUnknown \/
  (ai_source_trust i <> Invalid /\ has_selectors i) /\
  ((di_contradictory_high_confidence d = true \/ differs i d) /\ mt_label r = LContradicted \/
   (di_contradictory_high_confidence d = false /\ ~ differs i d) /\
   (exactly_affects i d /\ mt_label r = LExact /\ mt_matched_fields r = [MVendor; MModel; MFirmware] /\ mt_confidence r = CHigh \/
    ~ exactly_affects i d /\ mt_label r = LPossible)).
Proof.
  cbn zeta. unfold match_advisory. case_bool_decide as Ht; [left; split; [by left|done]|].
  destruct (negb (unknown_vendor _) || _ || _) eqn:Es; cbn [negb].
  2:{ left. split; [right|done]. intros Hs%selectors_iff. congruence. }
  right. split; [split; [done|by apply selectors_iff]|]. destruct (di_contradictory_high_confidence d) eqn:Ec; [left; auto|].
  destruct (negb (vendor_matches _ _) || _ || _) eqn:Ed; [left; split; [right; by apply contradiction_iff|done]|].
  assert (~ differs (na_input n) d) as Hd by (intros Hd%contradiction_iff; congruence). right. split; [done|].
  rewrite <- Ec. destruct (_ && negb (di_contradictory_high_confidence d)) eqn:Ea.
  - left. apply exact_allowed_iff in Ea; [|done..]. split; [done|]. split; [done|]. split; [|done].
    destruct Ea as [_ _ [Hu Hv] (m & m' & Hm & Hm' & He) (v & Hf & Hf') _]. cbn.
    unfold vendor_matches, model_matches, firmware_matches. rewrite Hu, Hv, Hm, Hm', Hf, Hf'. cbn. rewrite He, bool_decide_true by done. done.
  - right. split; [|done]. intros Hx. apply (exact_allowed_iff _ _ Ec Hd) in Hx. congruence.
Qed.

(** A label says what it means. Compared with a device, an advisory is exact if and only if
    it comes from a trusted source, is fresh and names the vendor, model and firmware of the
    device, whose own evidence is consistent, and then all three fields are reported with high
    confidence; it is contradicted if and only if the source is not invalid, the advisory names
    something, and the device evidence is contradictory or a known field differs; it is unknown
    if and only if the source is invalid or nothing is named; without a device it is never
    exact or contradicted. *)
Theorem match_labels_are_exact d n :
  let i := na_input n in
  let label := mt_label (match_advisory (Some d) n) in
  (label = LExact <-> exactly_affects i d) /\
  (label = LExact -> mt_matched_fields (match_advisory (Some d) n) = [MVendor; MModel; MFirmware] /\
                     mt_confidence (match_advisory (Some d) n) = CHigh) /\
  (label = LContradicted <->
     ai_source_trust i <> Invalid /\ has_selectors i /\ (di_contradictory_high_confidence d = true \/ differs i d)) /\
  (label = LUnknown <-> ai_source_trust i = Invalid \/ ~ has_selectors i) /\
  (mt_label (match_advisory None n) = LUnknown \/ mt_label (match_advisory None n) = LPossible).
Proof.
  cbn zeta.
  assert (exactly_affects (na_input n) d -> ai_source_trust (na_input n) <> Invalid /\ has_selectors (na_input n) /\
            di_contradictory_high_confidence d = false /\ ~ differs (na_input n) d) as Hx.
  { intros [Ht _ [Hu Hv] (m & m' & Hm & Hm' & He) (v & Hf & Hf') Hc]. split_and!; try done.
    - by destruct Ht as [-> | ->].
    - by left.
    - intros [[_ Hv']|[(? & ? & Hm1 & Hm2 & He')|(? & ? & Hf1 & Hf2 & Hne)]]; congruence. }
  assert (mt_label (match_advisory None n) = LUnknown \/ mt_label (match_advisory None n) = LPossible) as Hnone.
  { unfold match_advisory. case_bool_decide; [by left|]. destruct (negb _); [by left|by right]. }
  pose proof (match_advisory_cases d n) as Hcases. cbn zeta in Hcases.
  destruct Hcases as [[Hi ->]|[[Ht Hs] [[Hc ->]|[[Hc Hd] [(He & -> & Hf & Hconf)|[He ->]]]]]]; split_and!; try done; try tauto;
    (split; [done|]; intuition congruence).
Qed.

(** Fields pushed in order are stored, all three of them when the label is exact. *)
Lemma stored_back label (v m f : bool) explanation confidence :
  (label = LExact -> v = true /\ m = true /\ f = true /\ confidence = CHigh) ->
  (let e := take_chars MAX_EXPLANATION explanation in
   str_is_empty e || (Z.of_nat MAX_EXPLANATION <? str_len e) || has_control e = false) ->
  let fields := push_if f MFirmware (push_if m MModel (push_if v MVendor [])) in
  from_persisted label fields (take_chars MAX_EXPLANATION explanation) confidence =
    Ok (match_result label fields explanation confidence).
Proof.
  cbn zeta. intros Hx He. unfold from_persisted. rewrite He. cbn [orb].
  assert (Nat.ltb 3 (length (push_if f MFirmware (push_if m MModel (push_if v MVendor [])))) = false /\
          out_of_order (push_if f MFirmware (push_if m MModel (push_if v MVendor []))) = false) as [-> ->] by (destruct v, m, f; done).
  cbn [orb]. case_bool_decide as Hl; cbn [andb]; [|done]. destruct (Hx Hl) as (-> & -> & -> & ->). by rewrite Hl.
Qed.

(** What matching produces can be stored: a match read back from its stored columns is
    accepted and is the match. *)
Theorem match_survives_storage device n :
  let r := match_advisory device n in
  from_persisted (mt_label r) (mt_matched_fields r) (mt_explanation r) (mt_confidence r) = Ok r.
Proof.
  cbn zeta. unfold match_advisory. case_bool_decide; [reflexivity|]. destruct (negb (negb (unknown_vendor _) || _ || _)); [reflexivity|].
  destruct device as [d|]; [|reflexivity]. destruct (di_contradictory_high_confidence d) eqn:Ec; [reflexivity|].
  destruct (negb (vendor_matches _ _) || _ || _) eqn:Ed; [by apply stored_back|].
  destruct (_ && negb false) eqn:Ea; [|by apply stored_back]. apply stored_back; [|done]. intros _.
  rewrite !andb_true_iff in Ea. destruct Ea as (((((((Hu & _) & _) & Hm) & Hm') & Hf) & Hf') & _). rewrite Hu, Hm, Hm', Hf, Hf'.
  rewrite !orb_false_iff, Hm, Hm', Hf, Hf' in Ed. cbn in *. destruct Ed as [[Hv Hmm] Hff].
  by apply negb_false_iff in Hv as ->; apply negb_false_iff in Hmm as ->; apply negb_false_iff in Hff as ->.
Qed.

(** ** Normalisation *)
Section Normalize.
Context `{Sha256} `{AdvisoryLibs}.

Lemma advisory_new_ok i n :
  advisory_new i = Ok n ->
  na_input n = (if future_dated i then with_freshness FutureDated i else i) /\
  advisory_new (na_input n) = Ok n /\
  exists canonical, input_json (na_input n) = Some canonical /\ na_provenance_sha256 n = hex_text (sha256 canonical).
Proof.
  intros Hn. unfold advisory_new in Hn. destruct (trim_is_empty (ai_source_id i)) eqn:H1; [done|].
  apply result_bind_ok in Hn as (u1 & H2 & Hn). apply result_bind_ok in Hn as (u2 & H3 & Hn).
  apply result_bind_ok in Hn as (u3 & H4 & Hn). apply result_bind_ok in Hn as (u4 & H5 & Hn).
  apply result_bind_ok in Hn as (u5 & H6 & Hn). apply result_bind_ok in Hn as (u6 & H7 & Hn).
  destruct (_ <? ai_published_at i) eqn:H8; [done|]. destruct (ai_cache_expires_at i <? _) eqn:H9; [done|].
  destruct (bool_decide (ai_freshness i = FutureDated) && _) eqn:H10; [done|].
  apply result_bind_ok in Hn as (canonical & Hj & [= <-]). cbn [na_input na_provenance_sha256].
  split; [done|]. split; [|exists canonical; split; [|done]; destruct (input_json _); cbn in Hj; congruence].
  unfold advisory_new. destruct (future_dated i) eqn:Hf.
  - cbn [with_freshness ai_source_id ai_source_url ai_title ai_vendor ai_model ai_firmware ai_modified_at ai_published_at
      ai_cache_expires_at ai_retrieved_at ai_freshness].
    rewrite H1, H2, H3, H4, H5, H6, H7. cbn [result_bind]. rewrite H8, H9.
    change (future_dated (with_freshness FutureDated i)) with (future_dated i). rewrite Hf, andb_false_r.
    change (with_freshness FutureDated (with_freshness FutureDated i)) with (with_freshness FutureDated i). by rewrite Hj.
  - rewrite H1, H2, H3, H4, H5, H6, H7. cbn [result_bind]. rewrite H8, H9, Hf, H10. by rewrite Hj.
Qed.

(** A normalised advisory is a fixed point: normalising it again changes nothing, so it is
    read back from storage unchanged with its own provenance and with no other, and an advisory
    whose source timestamps lie after its retrieval is marked future-dated and is never an exact
    match for any device. *)
Theorem normalized_advisory_is_stable i n device provenance :
  advisory_new i = Ok n ->
  advisory_deserialize (na_input n) (na_provenance_sha256 n) = Ok n /\
  (provenance <> na_provenance_sha256 n -> advisory_deserialize (na_input n) provenance = Err ProvenanceMismatch) /\
  (future_dated i = true -> ai_freshness (na_input n) = FutureDated /\ mt_label (match_advisory device n) <> LExact).
Proof.
  intros (Hi & Hfix & _)%advisory_new_ok. unfold advisory_deserialize. rewrite Hfix. split_and!.
  - by rewrite bool_decide_false by tauto.
  - intros Hp. by rewrite bool_decide_true by congruence.
  - intros Hf. rewrite Hf in Hi. assert (ai_freshness (na_input n) = FutureDated) as Hd by (by rewrite Hi). split; [done|].
    destruct device as [d|].
    + pose proof (match_advisory_cases d n) as Hc. cbn zeta in Hc. intros Hx.
      destruct Hc as [[_ Hl]|[_ [[_ Hl]|[_ [([_ Hfresh _ _ _ _] & _)|[_ Hl]]]]]]; congruence.
    + unfold match_advisory. case_bool_decide; [done|]. by destruct (negb _).
Qed.
End Normalize.

(** ** Risk *)
(** The largest rank among the advisories that count for a dimension. *)
Definition counted (a : NormalizedAdvisory) : bool := negb (bool_decide (ai_source (na_input a) = CisaKev)).
Definition top {A} (rank : A -> Z) (f : AdvisoryInput -> A) (l : list NormalizedAdvisory) : Z :=
  fold_left (fun m a => if counted a then Z.max m (rank (f (na_input a))) else m) l 0.

Definition known_exploited (a : NormalizedAdvisory) : bool :=
  bool_decide (ai_exploitability (na_input a) = ActiveKnownExploitation).

Lemma rank_max {A} (rank : A -> Z) a b : rank (if rank a <? rank b then b else a) = Z.max (rank a) (rank b).
Proof. destruct (Z.ltb_spec (rank a) (rank b)); lia. Qed.

Lemma active_rank e : e = ActiveKnownExploitation <-> rank_exploitability e = 2.
Proof. destruct e; cbn; split; (done || lia). Qed.

(** One step of the composition, in ranks. *)
Lemma compose_step_ranks risk a :
  let r := compose_step risk a in
  rank_severity (rd_severity r) =
    (if counted a then Z.max (rank_severity (rd_severity risk)) (rank_severity (ai_severity (na_input a)))
     else rank_severity (rd_severity risk)) /\
  rank_remediation (rd_remediation r) =
    (if counted a then Z.max (rank_remediation (rd_remediation risk)) (rank_remediation (ai_remediation (na_input a)))
     else rank_remediation (rd_remediation risk)) /\
  (rd_exploitability r = ActiveKnownExploitation <->
     rd_exploitability risk = ActiveKnownExploitation \/ known_exploited a = true) /\
  rd_exposure r = rd_exposure risk /\ rd_confidence r = rd_confidence risk.
Proof.
  cbn zeta. unfold compose_step, counted, known_exploited. rewrite bool_decide_eq_true.
  destruct (negb _); cbn [rd_severity rd_remediation rd_exploitability rd_exposure rd_confidence].
  - unfold max_severity, max_remediation, max_exploitability. rewrite !rank_max. split_and!; try done.
    rewrite !active_rank, rank_max. destruct (rd_exploitability risk), (ai_exploitability (na_input a)); cbn; lia.
  - case_bool_decide; cbn; split_and!; try done; tauto.
Qed.

Lemma compose_fold_ranks l risk :
  let r := fold_left compose_step l risk in
  rank_severity (rd_severity r) =
    fold_left (fun m a => if counted a then Z.max m (rank_severity (ai_severity (na_input a))) else m) l (rank_severity (rd_severity risk)) /\
  rank_remediation (rd_remediation r) =
    fold_left (fun m a => if counted a then Z.max m (rank_remediation (ai_remediation (na_input a))) else m) l
      (rank_remediation (rd_remediation risk)) /\
  (rd_exploitability r = ActiveKnownExploitation <->
     rd_exploitability risk = ActiveKnownExploitation \/ existsb known_exploited l = true) /\
  rd_exposure r = rd_exposure risk /\ rd_confidence r = rd_confidence risk.
Proof.
  cbn zeta. revert risk. induction l as [|a l IH]; intros risk; cbn [fold_left existsb]; [split_and!; try done; cbn; intuition congruence|].
  destruct (IH (compose_step risk a)) as (-> & -> & He & -> & ->).
  destruct (compose_step_ranks risk a) as (-> & -> & He' & -> & ->). split_and!; try done.
  rewrite He, He', orb_true_iff. tauto.
Qed.

Lemma top_perm {A} (rank : A -> Z) f l l' : l ≡ₚ l' -> top rank f l = top rank f l'.
Proof.
  unfold top. generalize 0. intros z Hp. revert z. induction Hp as [|a l l' _ IH|a b l|l l' l'' _ IH1 _ IH2]; intros z; cbn; [done|apply IH| |].
  - f_equal. destruct (counted a), (counted b); lia.
  - by rewrite IH1, IH2.
Qed.

(** The risk of a group of advisories is their worst case: its severity and remediation have
    the highest rank among the advisories other than known-exploited entries, it is actively
    exploited exactly when some advisory of the group says so, exposure and confidence come
    from the device alone, and any order of the same advisories gives the same ranks. *)
Theorem composed_risk_is_worst_case advisories device risk reordered risk' :
  compose_risk advisories device = Ok risk -> advisories ≡ₚ reordered -> compose_risk reordered device = Ok risk' ->
  rank_severity (rd_severity risk) = top rank_severity ai_severity advisories /\
  rank_remediation (rd_remediation risk) = top rank_remediation ai_remediation advisories /\
  (rd_exploitability risk = ActiveKnownExploitation <-> existsb known_exploited advisories = true) /\
  rd_exposure risk = match device with Some e => de_exposure e | None => ExposureUnknown end /\
  rank_confidence (rd_confidence risk) = match device with Some e => rank_confidence (de_confidence e) | None => 0 end /\
  rank_severity (rd_severity risk') = rank_severity (rd_severity risk) /\
  rank_remediation (rd_remediation risk') = rank_remediation (rd_remediation risk) /\
  (rd_exploitability risk' = ActiveKnownExploitation <-> rd_exploitability risk = ActiveKnownExploitation).
Proof.
  assert (forall l r, compose_risk l device = Ok r ->
    rank_severity (rd_severity r) = top rank_severity ai_severity l /\
    rank_remediation (rd_remediation r) = top rank_remediation ai_remediation l /\
    (rd_exploitability r = ActiveKnownExploitation <-> existsb known_exploited l = true) /\
    rd_exposure r = match device with Some e => de_exposure e | None => ExposureUnknown end /\
    rank_confidence (rd_confidence r) = match device with Some e => rank_confidence (de_confidence e) | None => 0 end) as Hspec.
  { intros l r. unfold compose_risk. destruct l as [|a l]; [done|]. set (l0 := a :: l).
    destruct (Nat.ltb 64 (length l0)); [done|]. destruct (existsb _ l0); [done|].
    destruct (compose_fold_ranks l0 initial_risk) as (H1 & H2 & H3 & H4 & H5).
    cbn zeta. revert H1 H2 H3 H4 H5. generalize (fold_left compose_step l0 initial_risk). intros risk0 H1 H2 H3 H4 H5 [= <-].
    assert (rd_exploitability risk0 = ActiveKnownExploitation <-> existsb known_exploited l0 = true) as He
      by (rewrite H3; cbn; intuition congruence).
    destruct device as [e|]; cbn [rd_severity rd_remediation rd_exploitability rd_exposure rd_confidence].
    - split_and!; try done. unfold max_confidence. rewrite rank_max, H5. cbn. destruct (de_confidence e); cbn; lia.
    - rewrite H4, H5. split_and!; try done. }
  intros H1 Hp H2. apply Hspec in H1 as (Hs & Hr & He & Hx & Hc). apply Hspec in H2 as (Hs' & Hr' & He' & _ & _).
  split_and!; try done.
  - by rewrite Hs', Hs, (top_perm _ _ _ _ Hp).
  - by rewrite Hr', Hr, (top_perm _ _ _ _ Hp).
  - rewrite He', He. rewrite !existsb_exists. by setoid_rewrite <- list_elem_of_In; setoid_rewrite Hp.
Qed.
