(* ===== verification/AdvisoryParse.v ===== *)
(** * Security advisories: the feeds' documents

    crates/lattice-advisory/src/vendor.rs and kev.rs on parsed documents. The JSON reader, the
    text formats of times and of base64, the url crate and Ed25519 are parameters; a
    [serde_json::Value] is a tree. *)

From S2P Require Import Prelude Order Time Text Bytes Net F64 Advisory.

(** ** JSON values *)
#[local] Unset Elimination Schemes.
Inductive Json :=
  | JNull
  | JBool (b : bool)
  | JNumber (as_u64 : option Z) (as_f64 : f64)
  | JString (s : string)
  | JArray (l : list Json)
  | JObject (l : list (string * Json)).
#[local] Set Elimination Schemes.

Definition json_get (v : Json) (k : string) : option Json :=
  match v with
  | JObject l => option_map snd (iter_find (fun e => bool_decide (fst e = k)) l)
  | _ => None
  end.
Definition json_str (v : Json) : option string := match v with JString s => Some s | _ => None end.
Definition json_array (v : Json) : option (list Json) := match v with JArray l => Some l | _ => None end.
Definition json_bool (v : Json) : option bool := match v with JBool b => Some b | _ => None end.
Definition json_f64 (v : Json) : option f64 := match v with JNumber _ f => Some f | _ => None end.
Definition json_u64 (v : Json) : option Z := match v with JNumber u _ => u | _ => None end.
Definition and_then {A B} (o : option A) (f : A -> option B) : option B := match o with Some a => f a | None => None end.

Inductive VendorSeverity := VsNone | VsLow | VsMedium | VsHigh | VsCritical | VsUnknown.
Definition severity_of_vendor (v : VendorSeverity) : Severity :=
  match v with
  | VsNone => SevNone | VsLow => SevLow | VsMedium => SevMedium | VsHigh => SevHigh | VsCritical => SevCritical
  | VsUnknown => SevUnknown
  end.
Inductive VendorRemediation := VrUpgrade | VrMitigate | VrMonitor | VrNone | VrUnknown.
Definition remediation_of_vendor (v : VendorRemediation) : Remediation :=
  match v with
  | VrUpgrade => Upgrade | VrMitigate => Mitigate | VrMonitor => Monitor | VrNone => RemNone | VrUnknown => RemUnknown
  end.

Record VendorAdvisory := {
  va_id : string; va_title : string; va_vendor : string; va_model : option string; va_version : string;
  va_published_at : DateTime; va_modified_at : DateTime; va_severity : VendorSeverity; va_remediation : VendorRemediation }.
Record VendorDocument := { vd_schema_id : string; vd_advisories : list VendorAdvisory }.

Class FeedLibs `{Ed25519} := {
  json_from_str : string -> option Json;
  vendor_document : string -> option VendorDocument;
  parse_time : string -> option DateTime;
  parse_date : string -> option DateTime;
  base64_url_decode : string -> option bytes;
  key_from_bytes : bytes -> option VerifyingKey
}.

Definition MAX_RESPONSE_BYTES : Z := 4 * 1024 * 1024.
Definition NVD_URL : string := "https://services.nvd.nist.gov/rest/json/cves/2.0".
Definition KEV_URL : string := "https://www.cisa.gov/sites/default/files/feeds/known_exploited_vulnerabilities.json".

(** The result of a whole collection: the first error wins. *)
Fixpoint collect {A B E} (f : A -> result B E) (l : list A) : result (list B) E :=
  match l with
  | [] => Ok []
  | a :: l' => let? b := f a in let? bs := collect f l' in Ok (b :: bs)
  end.

(** ** Registered vendors *)
Definition VENDOR_SCHEMA_ID : string := "neonhearth.vendor-advisory.v1".
Definition MAX_VENDOR_BYTES : Z := 1024 * 1024.
Definition SIGNING_PREFIX : bytes := str_bytes "NeonHearth vendor advisory v1" ++ [0].

Record VendorSource := {
  vs_url : string; vs_schema_id : string; vs_key_id : option string; vs_public_key : option bytes; vs_enabled : bool;
  vs_valid_from : option DateTime; vs_valid_until : option DateTime }.

Definition source_unsigned (url : string) : VendorSource := {|
  vs_url := url; vs_schema_id := VENDOR_SCHEMA_ID; vs_key_id := None; vs_public_key := None; vs_enabled := true;
  vs_valid_from := None; vs_valid_until := None |}.
Definition source_signed (url key_id : string) (key : bytes) : VendorSource := {|
  vs_url := url; vs_schema_id := VENDOR_SCHEMA_ID; vs_key_id := Some key_id; vs_public_key := Some key; vs_enabled := true;
  vs_valid_from := None; vs_valid_until := None |}.
Definition with_validity (s : VendorSource) (from until : option DateTime) : VendorSource := {|
  vs_url := vs_url s; vs_schema_id := vs_schema_id s; vs_key_id := vs_key_id s; vs_public_key := vs_public_key s;
  vs_enabled := vs_enabled s; vs_valid_from := from; vs_valid_until := until |}.
Definition source_disabled (s : VendorSource) : VendorSource := {|
  vs_url := vs_url s; vs_schema_id := vs_schema_id s; vs_key_id := vs_key_id s; vs_public_key := vs_public_key s;
  vs_enabled := false; vs_valid_from := vs_valid_from s; vs_valid_until := vs_valid_until s |}.

Record VendorRegistry := { vr_sources : list VendorSource; vr_ambiguous_urls : gset string }.

(** The second and later sources of one URL make it ambiguous. *)
Fixpoint repeated_urls (seen : gset string) (l : list VendorSource) : gset string :=
  match l with
  | [] => ∅
  | s :: l' =>
    if bool_decide (vs_url s ∈ seen) then {[vs_url s]} ∪ repeated_urls seen l'
    else repeated_urls ({[vs_url s]} ∪ seen) l'
  end.
Definition registry_new (sources : list VendorSource) : VendorRegistry := {|
  vr_sources := sources; vr_ambiguous_urls := repeated_urls ∅ sources |}.

Record VendorSignature := { vg_key_id : string; vg_encoded : string }.

Inductive VendorParseError := VMalformed | VOversized | VAdvisory (e : AdvisoryError).

Definition signature_input_valid (s : VendorSignature) : bool :=
  negb (str_is_empty (vg_key_id s)) && (str_len (vg_key_id s) <=? 128) && (str_len (vg_encoded s) <=? 86).

Section Feeds.
Context `{Sha256} `{AdvisoryLibs} `{FeedLibs}.

(** [verify]: the signature is over the prefix and the raw body. *)
Definition vendor_verify (key : bytes) (encoded : string) (body : bytes) : bool :=
  if existsb (fun a => bool_decide (a = "="%char)) (String.list_ascii_of_string encoded) || negb (str_len encoded =? 86) then false
  else match base64_url_decode encoded with
  | None => false
  | Some signature =>
    if negb (Nat.eqb (length signature) 64) then false
    else match key_from_bytes key with
    | None => false
    | Some key => verify_strict key (SIGNING_PREFIX ++ body) signature
    end
  end.

Definition trust (source : VendorSource) (signature : option VendorSignature) (body : bytes) (retrieved_at : DateTime)
  : SourceTrust * Confidence :=
  match signature with
  | None => (RegisteredHttps, CLow)
  | Some signature =>
    let valid_time := is_none_or (fun t => t <=? retrieved_at) (vs_valid_from source)
                      && is_none_or (fun t => retrieved_at <=? t) (vs_valid_until source) in
    let verified := vs_enabled source && valid_time && bool_decide (vs_key_id source = Some (vg_key_id signature))
                    && is_some_and (fun key => vendor_verify key (vg_encoded signature) body) (vs_public_key source) in
    if verified then (VerifiedSignature, CHigh) else (Invalid, CLow)
  end.

Definition is_https (url : string) : bool :=
  is_some_and (fun u => bool_decide (url_scheme u = "https"%string) && bool_decide (is_Some (url_host u))
    && str_is_empty (url_username u) && bool_decide (url_password u = None) && bool_decide (url_fragment u = None)) (url_parse url).

Definition vendor_entry (source_url : string) (retrieved_at cache_expires_at : DateTime) (t : SourceTrust * Confidence)
    (entry : VendorAdvisory) : result NormalizedAdvisory VendorParseError :=
  match advisory_new {|
    ai_source := Vendor; ai_source_id := va_id entry; ai_source_url := source_url; ai_title := va_title entry;
    ai_vendor := va_vendor entry; ai_model := va_model entry; ai_firmware := Exact_ (va_version entry);
    ai_published_at := va_published_at entry; ai_modified_at := va_modified_at entry; ai_retrieved_at := retrieved_at;
    ai_cache_expires_at := cache_expires_at; ai_freshness := Fresh; ai_source_trust := fst t; ai_severity := severity_of_vendor (va_severity entry);
    ai_exploitability := ExpUnknown; ai_exposure := ExposureUnknown; ai_confidence := snd t;
    ai_remediation := remediation_of_vendor (va_remediation entry) |} with
  | Ok n => Ok n
  | Err e => Err (VAdvisory e)
  end.

Definition parse_vendor (body source_url : string) (signature : option VendorSignature) (retrieved_at cache_expires_at : DateTime)
    (registry : VendorRegistry) : result (list NormalizedAdvisory) VendorParseError :=
  if MAX_VENDOR_BYTES <? str_len body then Err VOversized
  else if is_some_and (fun s => negb (signature_input_valid s)) signature
          || bool_decide (source_url ∈ vr_ambiguous_urls registry) then Err VMalformed
  else
    let? source := ok_or (iter_find (fun s => bool_decide (vs_url s = source_url)) (vr_sources registry)) VMalformed in
    if negb (bool_decide (vs_schema_id source = VENDOR_SCHEMA_ID)) || negb (is_https source_url)
       || (negb (vs_enabled source) && bool_decide (signature = None)) then Err VMalformed
    else
      let? document := ok_or (vendor_document body) VMalformed in
      if negb (bool_decide (vd_schema_id document = VENDOR_SCHEMA_ID)) then Err VMalformed
      else if MAX_PARSER_OUTPUTS <? Z.of_nat (length (vd_advisories document)) then Err VOversized
      else
        let t := trust source signature (str_bytes body) retrieved_at in
        collect (vendor_entry source_url retrieved_at cache_expires_at t) (vd_advisories document).

(** ** Known exploited vulnerabilities *)
Inductive KevParseError := KMalformed | KOversized | KAdvisory (e : AdvisoryError).

Definition kev_value (entry : Json) (field : string) : result string KevParseError :=
  match and_then (json_get entry field) json_str with
  | Some v => if trim_is_empty v then Err KMalformed else Ok v
  | None => Err KMalformed
  end.

Definition discarded (value : string) : result unit KevParseError :=
  if (MAX_FIELD <? str_len value) || has_control value then Err KMalformed else Ok tt.

Definition kev_date (value : string) : result DateTime KevParseError := ok_or (parse_date value) KMalformed.

Definition kev_entry (retrieved_at cache_expires_at : DateTime) (entry : Json) : result NormalizedAdvisory KevParseError :=
  let value := kev_value entry in
  let? id := value "cveID" in
  if negb (is_strict_cve id) then Err KMalformed
  else
  let? text := value "dateAdded" in
  let? added := kev_date text in
  let? text := value "dueDate" in
  let? due := kev_date text in
  let? ransomware := value "knownRansomwareCampaignUse" in
  if negb (bool_decide (ransomware = "Known"%string) || bool_decide (ransomware = "Unknown"%string)) then Err KMalformed
  else
  let? text := value "shortDescription" in
  let? _ := discarded text in
  let? text := value "requiredAction" in
  let? _ := discarded text in
  let? _ := discarded ransomware in
  let? title := value "vulnerabilityName" in
  let? vendor := value "vendorProject" in
  let? product := value "product" in
  match advisory_new {|
    ai_source := CisaKev; ai_source_id := id; ai_source_url := KEV_URL; ai_title := title; ai_vendor := vendor;
    ai_model := Some product; ai_firmware := AnyVersion; ai_published_at := added; ai_modified_at := added;
    ai_retrieved_at := retrieved_at; ai_cache_expires_at := cache_expires_at; ai_freshness := Fresh;
    ai_source_trust := OfficialApi; ai_severity := SevUnknown; ai_exploitability := ActiveKnownExploitation;
    ai_exposure := ExposureUnknown; ai_confidence := CMedium;
    ai_remediation := if due <? retrieved_at then Mitigate else Upgrade |} with
  | Ok n => Ok n
  | Err e => Err (KAdvisory e)
  end.

Definition parse_kev (body : string) (retrieved_at cache_expires_at : DateTime) : result (list NormalizedAdvisory) KevParseError :=
  if MAX_RESPONSE_BYTES <? str_len body then Err KOversized
  else
    let? root := ok_or (json_from_str body) KMalformed in
    let? entries := ok_or (and_then (json_get root "vulnerabilities") json_array) KMalformed in
    if MAX_PARSER_OUTPUTS <? Z.of_nat (length entries) then Err KOversized
    else collect (kev_entry retrieved_at cache_expires_at) entries.
End Feeds.
