(* ===== verification/AdvisoryNvd.v ===== *)
(** * Security advisories: the National Vulnerability Database

    crates/lattice-advisory/src/nvd.rs on parsed JSON. The node traversal runs with one unit of
    fuel per node that its own limit allows; that this is enough, and that it visits like the
    recursive traversal, is proved in AdvisoryParseProps. The text by which a repeated selector
    is recognised is the tuple that it prints. *)

From S2P Require Import Prelude Order Time Text Bytes Net F64 Advisory AdvisoryParse.

Definition MAX_CPE_DEPTH : Z := 32.
Definition MAX_CPE_NODES : Z := 8192.
Definition MAX_CPE_FIELD : Z := 128.

(** [NFuel] is not an error of the source: a traversal that would need more fuel than it has. *)
Inductive NvdParseError := NMalformed | NOversized | NAdvisory (e : AdvisoryError) | NFuel.

Definition nvd_required (value : Json) (field : string) : result string NvdParseError :=
  match and_then (json_get value field) json_str with
  | Some v => if trim_is_empty v then Err NMalformed else Ok v
  | None => Err NMalformed
  end.

(** ** Severity *)
(** [max_by(f64::total_cmp)] *)
Fixpoint max_by_total (l : list f64) : option f64 :=
  match l with
  | [] => None
  | x :: l' => match max_by_total l' with
               | None => Some x
               | Some m => match total_cmp x m with Gt => Some x | _ => Some m end
               end
  end.

Definition severity_for_score (score : f64) : Severity :=
  if f64_le (f64_of_Z 9) score then SevCritical
  else if f64_le (f64_of_Z 7) score then SevHigh
  else if f64_le (f64_of_Z 4) score then SevMedium
  else if f64_lt f64_zero score then SevLow
  else SevNone.

Definition valid_score (s : f64) : bool := f64_is_finite s && f64_le f64_zero s && f64_le s (f64_of_Z 10).

Definition base_score (v : Json) : option f64 :=
  and_then (json_get v "cvssData") (fun d => and_then (json_get d "baseScore") json_f64).

Fixpoint severity_in (metrics : Json) (keys : list string) : Severity :=
  match keys with
  | [] => SevUnknown
  | key :: keys' =>
    match json_get metrics key with
    | None => severity_in metrics keys'
    | Some values =>
      match json_array values with
      | None => SevUnknown
      | Some values =>
        match max_by_total (List.filter valid_score (omap base_score values)) with
        | Some score => severity_for_score score
        | None => SevUnknown
        end
      end
    end
  end.

Definition severity (cve : Json) : Severity :=
  match json_get cve "metrics" with
  | Some (JObject l) => severity_in (JObject l) ["cvssMetricV40"; "cvssMetricV31"; "cvssMetricV30"; "cvssMetricV2"]%string
  | _ => SevUnknown
  end.

(** ** Platform names *)
Record CpeField := { cf_text : string; cf_escaped : bool }.
Definition empty_field : CpeField := {| cf_text := EmptyString; cf_escaped := false |}.

Definition wildcard_or_na (f : CpeField) : bool :=
  negb (cf_escaped f) && (bool_decide (cf_text f = "*"%string) || bool_decide (cf_text f = "-"%string)).

Definition continuation (a : ascii) : bool := let n := N_of_ascii a in ((128 <=? n) && (n <? 192))%N.

(** [s.chars()]: each character as its bytes. *)
Fixpoint chars (s : string) : list string :=
  match s with
  | EmptyString => []
  | String a s' =>
    match chars s' with
    | String b t :: cs => if continuation b then String a (String b t) :: cs else String a EmptyString :: String b t :: cs
    | cs => String a EmptyString :: cs
    end
  end.

Definition is_alnum_char (c : string) : bool :=
  match c with
  | String a EmptyString =>
    let n := N_of_ascii a in
    (((48 <=? n) && (n <=? 57)) || ((65 <=? n) && (n <=? 90)) || ((97 <=? n) && (n <=? 122)))%N
  | _ => false
  end.
Definition is_white_char (c : string) : bool := starts_white (String.list_ascii_of_string c).

Definition valid_cpe_escape (c : string) : bool :=
  bool_decide (c = "\"%string) || (negb (is_alnum_char c) && negb (is_white_char c) && negb (has_control c)).

(** One character: the finished fields, the field at hand, and whether it is escaped. *)
Definition cpe_step (st : list CpeField * CpeField * bool) (c : string)
  : result (list CpeField * CpeField * bool) NvdParseError :=
  let '(done_, field, escape) := st in
  let? st :=
    (if escape then
       if negb (valid_cpe_escape c) then Err NMalformed
       else Ok (done_, {| cf_text := (cf_text field +:+ c)%string; cf_escaped := true |}, false)
     else if bool_decide (c = "\"%string) then Ok (done_, field, true)
     else if bool_decide (c = ":"%string) then Ok (done_ ++ [field], empty_field, false)
     else if has_control c then Err NMalformed
     else Ok (done_, {| cf_text := (cf_text field +:+ c)%string; cf_escaped := cf_escaped field |}, false)) in
  let '(_, field, _) := st in
  if MAX_CPE_FIELD <? str_len (cf_text field) then Err NOversized else Ok st.

Fixpoint cpe_chars (st : list CpeField * CpeField * bool) (l : list string)
  : result (list CpeField * CpeField * bool) NvdParseError :=
  match l with
  | [] => Ok st
  | c :: l' => let? st := cpe_step st c in cpe_chars st l'
  end.

Definition parse_cpe23 (raw : string) : result (list CpeField) NvdParseError :=
  let? st := cpe_chars ([], empty_field, false) (chars raw) in
  let '(done_, field, escape) := st in
  let fields := done_ ++ [field] in
  if escape || negb (Nat.eqb (length fields) 13) || existsb (fun f => str_is_empty (cf_text f)) fields
  then Err NMalformed else Ok fields.

(** ** Selectors *)
Definition valid_bound (v : string) : bool :=
  negb (trim_is_empty v) && (str_len v <=? MAX_CPE_FIELD) && negb (control_or_white v).

Definition bound (value : Json) (name : string) : result (option string) NvdParseError :=
  match json_get value name with
  | None => Ok None
  | Some v => match json_str v with
              | Some s => if valid_bound s then Ok (Some s) else Err NMalformed
              | None => Err NMalformed
              end
  end.

Definition SelectorIdentity : Type := string * option string * option string * option string * option string.
Record Selector := {
  sl_identity : SelectorIdentity; sl_vendor : string; sl_model : option string; sl_firmware : VersionConstraint }.

Definition or_option {A} (a b : option A) : option A := match a with Some _ => a | None => b end.

Definition cpe_firmware (start end_ : option string) (version : CpeField) : VersionConstraint :=
  match start, end_ with
  | Some min, Some max => Range min max
  | None, Some max => LessThan max
  | Some _, None => AnyVersion
  | None, None => if negb (wildcard_or_na version) then Exact_ (cf_text version) else AnyVersion
  end.

Definition cpe (value : Json) : result (option Selector) NvdParseError :=
  let? criteria := nvd_required value "criteria" in
  let? parts := parse_cpe23 criteria in
  let part k := nth k parts empty_field in
  if negb (bool_decide (cf_text (part 0%nat) = "cpe"%string)) || cf_escaped (part 0%nat)
     || negb (bool_decide (cf_text (part 1%nat) = "2.3"%string)) || cf_escaped (part 1%nat)
  then Err NMalformed
  else if wildcard_or_na (part 3%nat) || wildcard_or_na (part 4%nat) then Ok None
  else
  let? start_including := bound value "versionStartIncluding" in
  let? start_excluding := bound value "versionStartExcluding" in
  let? end_including := bound value "versionEndIncluding" in
  let? end_excluding := bound value "versionEndExcluding" in
  if (bool_decide (is_Some start_including) && bool_decide (is_Some start_excluding))
     || (bool_decide (is_Some end_including) && bool_decide (is_Some end_excluding))
  then Err NMalformed
  else Ok (Some {|
    sl_identity := (criteria, start_including, start_excluding, end_including, end_excluding);
    sl_vendor := cf_text (part 3%nat); sl_model := Some (cf_text (part 4%nat));
    sl_firmware := cpe_firmware (or_option start_including start_excluding) (or_option end_including end_excluding) (part 5%nat) |}).

(** ** The traversal *)
Section Visit.
Context {St : Type} (visitor : Json -> St -> result St NvdParseError).

Fixpoint visit_matches (l : list Json) (s : St) : result St NvdParseError :=
  match l with
  | [] => Ok s
  | m :: l' =>
    if bool_decide (and_then (json_get m "vulnerable") json_bool = Some false) then visit_matches l' s
    else let? s := visitor m s in visit_matches l' s
  end.

(** The matches of one node. *)
Definition visit_node (node : Json) (s : St) : result St NvdParseError :=
  match json_get node "cpeMatch" with
  | None => Ok s
  | Some matches => let? l := ok_or (json_array matches) NMalformed in visit_matches l s
  end.

(** The stack with its top first: the nodes are pushed in reverse, so the first is on top. *)
Definition push_nodes (stack : list (Json * Z)) (nodes : list Json) (depth count : Z)
  : result (list (Json * Z) * Z) NvdParseError :=
  if (MAX_CPE_DEPTH <? depth) || (saturating_sub_u64 MAX_CPE_NODES count <? Z.of_nat (length nodes)) then Err NOversized
  else Ok (map (fun n => (n, depth)) nodes ++ stack, count + Z.of_nat (length nodes)).

Fixpoint visit_stack (fuel : nat) (stack : list (Json * Z)) (count : Z) (s : St) : result (Z * St) NvdParseError :=
  match fuel with
  | O => Err NFuel
  | S fuel' =>
    match stack with
    | [] => Ok (count, s)
    | (node, depth) :: stack =>
      if MAX_CPE_DEPTH <? depth then Err NOversized
      else
        let? s := visit_node node s in
        match json_get node "children" with
        | None => visit_stack fuel' stack count s
        | Some children =>
          let? l := ok_or (json_array children) NMalformed in
          let? p := push_nodes stack l (depth + 1) count in
          visit_stack fuel' (fst p) (snd p) s
        end
    end
  end.

Definition visit_nodes_iterative (nodes : option Json) (count : Z) (s : St) : result (Z * St) NvdParseError :=
  match nodes with
  | None => Ok (count, s)
  | Some nodes =>
    let? roots := ok_or (json_array nodes) NMalformed in
    let? p := push_nodes [] roots 1 count in
    visit_stack (Z.to_nat MAX_CPE_NODES + 1) (fst p) (snd p) s
  end.
End Visit.

(** ** The document *)
Record CveHead := { ch_id : string; ch_title : string; ch_published : DateTime; ch_modified : DateTime; ch_severity : Severity }.
Record NvdState := { nv_seen : gset SelectorIdentity; nv_output : list NormalizedAdvisory; nv_emitted : bool }.

Section Nvd.
Context `{Sha256} `{AdvisoryLibs} `{FeedLibs} (retrieved_at cache_expires_at : DateTime).

Definition nvd_time (cve : Json) (field : string) : result DateTime NvdParseError :=
  let? text := nvd_required cve field in ok_or (parse_time text) NMalformed.

Definition push_advisory (output : list NormalizedAdvisory) (head : CveHead) (vendor : string) (model : option string)
    (firmware : VersionConstraint) : result (list NormalizedAdvisory) NvdParseError :=
  if Z.of_nat (length output) =? MAX_PARSER_OUTPUTS then Err NOversized
  else
  match advisory_new {|
    ai_source := Nvd; ai_source_id := ch_id head; ai_source_url := NVD_URL; ai_title := ch_title head; ai_vendor := vendor;
    ai_model := model; ai_firmware := firmware; ai_published_at := ch_published head; ai_modified_at := ch_modified head;
    ai_retrieved_at := retrieved_at; ai_cache_expires_at := cache_expires_at; ai_freshness := Fresh;
    ai_source_trust := OfficialApi; ai_severity := ch_severity head; ai_exploitability := ExpUnknown;
    ai_exposure := ExposureUnknown; ai_confidence := CMedium; ai_remediation := Upgrade |} with
  | Ok n => Ok (output ++ [n])
  | Err e => Err (NAdvisory e)
  end.

(** The closure that is called on every vulnerable match. *)
Definition visit_match (head : CveHead) (cpe_match : Json) (s : NvdState) : result NvdState NvdParseError :=
  let? selector := cpe cpe_match in
  match selector with
  | None => Ok s
  | Some sel =>
    if bool_decide (sl_identity sel ∈ nv_seen s) then Ok s
    else
      let? output := push_advisory (nv_output s) head (sl_vendor sel) (sl_model sel) (sl_firmware sel) in
      Ok {| nv_seen := {[sl_identity sel]} ∪ nv_seen s; nv_output := output; nv_emitted := true |}
  end.

Fixpoint visit_configurations (head : CveHead) (l : list Json) (count : Z) (s : NvdState) : result NvdState NvdParseError :=
  match l with
  | [] => Ok s
  | c :: l' =>
    let? p := visit_nodes_iterative (visit_match head) (json_get c "nodes") count s in
    visit_configurations head l' (fst p) (snd p)
  end.

Definition english_title (cve : Json) : option string :=
  and_then (and_then (json_get cve "descriptions") json_array) (fun xs =>
  and_then (iter_find (fun x => bool_decide (and_then (json_get x "lang") json_str = Some "en"%string)) xs) (fun x =>
  and_then (json_get x "value") json_str)).

Definition nvd_entry (output : list NormalizedAdvisory) (entry : Json) : result (list NormalizedAdvisory) NvdParseError :=
  let? cve := ok_or (json_get entry "cve") NMalformed in
  let? id := nvd_required cve "id" in
  if negb (is_strict_cve id) then Err NMalformed
  else
  let? title := ok_or (english_title cve) NMalformed in
  let? published := nvd_time cve "published" in
  let? modified := nvd_time cve "lastModified" in
  let head := {| ch_id := id; ch_title := title; ch_published := published; ch_modified := modified; ch_severity := severity cve |} in
  let start := {| nv_seen := ∅; nv_output := output; nv_emitted := false |} in
  let? s := match json_get cve "configurations" with
            | None => Ok start
            | Some v => let? l := ok_or (json_array v) NMalformed in visit_configurations head l 0 start
            end in
  if nv_emitted s then Ok (nv_output s) else push_advisory (nv_output s) head "unknown" None AnyVersion.

Fixpoint nvd_entries (output : list NormalizedAdvisory) (l : list Json) : result (list NormalizedAdvisory) NvdParseError :=
  match l with
  | [] => Ok output
  | e :: l' => let? output := nvd_entry output e in nvd_entries output l'
  end.

Definition parse_nvd (body : string) : result (list NormalizedAdvisory) NvdParseError :=
  if MAX_RESPONSE_BYTES <? str_len body then Err NOversized
  else
    let? root := ok_or (json_from_str body) NMalformed in
    let? vulnerabilities := ok_or (and_then (json_get root "vulnerabilities") json_array) NMalformed in
    if MAX_PARSER_OUTPUTS <? Z.of_nat (length vulnerabilities) then Err NOversized
    else nvd_entries [] vulnerabilities.
End Nvd.
