(* ===== verification/AdvisoryParseProps.v ===== *)
(** * Security advisories: what the feeds' documents can claim *)

From S2P Require Import Prelude Order Time Text Bytes Net F64 Advisory AdvisoryProps AdvisoryParse AdvisoryNvd.

(** ** The traversal *)
Section Traversal.
Context {St : Type} (visitor : Json -> St -> result St NvdParseError).

(** The recursive traversal in pre-order, with [room] levels left below the node; the nodes of a
    level are counted before the first of them is visited. *)
Fixpoint visit_tree (room : nat) (node : Json) (count : Z) (s : St) : result (Z * St) NvdParseError :=
  let? s := visit_node visitor node s in
  match json_get node "children" with
  | None => Ok (count, s)
  | Some children =>
    let? l := ok_or (json_array children) NMalformed in
    match room with
    | O => Err NOversized
    | S room' =>
      if MAX_CPE_NODES <? count + Z.of_nat (length l) then Err NOversized
      else fold_left (fun acc n => let? p := acc in visit_tree room' n (fst p) (snd p)) l (Ok (count + Z.of_nat (length l), s))
    end
  end.

Definition visit_forest (nodes : option Json) (count : Z) (s : St) : result (Z * St) NvdParseError :=
  match nodes with
  | None => Ok (count, s)
  | Some nodes =>
    let? l := ok_or (json_array nodes) NMalformed in
    if MAX_CPE_NODES <? count + Z.of_nat (length l) then Err NOversized
    else fold_left (fun acc n => let? p := acc in visit_tree 31 n (fst p) (snd p)) l (Ok (count + Z.of_nat (length l), s))
  end.

Definition room_at (depth : Z) : nat := Z.to_nat (MAX_CPE_DEPTH - depth).
Definition visit_top (acc : result (Z * St) NvdParseError) (nd : Json * Z) : result (Z * St) NvdParseError :=
  let? p := acc in visit_tree (room_at (snd nd)) (fst nd) (fst p) (snd p).

Lemma fold_err {A B E} (f : B -> A -> result A E) (l : list B) e :
  fold_left (fun acc b => let? a := acc in f b a) l (Err e) = Err e.
Proof. by induction l. Qed.

Lemma visit_top_level l depth acc :
  fold_left visit_top (map (fun n => (n, depth)) l) acc =
  fold_left (fun acc n => let? p := acc in visit_tree (room_at depth) n (fst p) (snd p)) l acc.
Proof. revert acc. induction l as [|n l IH]; intros acc; cbn [map fold_left]; [done|]. by rewrite IH. Qed.

Lemma visit_top_err l e : fold_left visit_top l (Err e) = Err e.
Proof. by induction l. Qed.

(** With a unit of fuel for every node on the stack or still allowed, the loop visits its stack
    like the recursion. *)
Lemma visit_stack_tree fuel stack count s :
  0 <= count <= MAX_CPE_NODES -> Forall (fun nd => 1 <= snd nd <= MAX_CPE_DEPTH) stack ->
  Z.of_nat (length stack) + (MAX_CPE_NODES - count) < Z.of_nat fuel ->
  visit_stack visitor fuel stack count s = fold_left visit_top stack (Ok (count, s)).
Proof.
  revert stack count s. induction fuel as [|fuel IH]; intros stack count s Hc Hd Hf; [lia|].
  destruct stack as [|[node depth] stack]; [done|]. apply Forall_cons in Hd as [Hdepth Hd]. cbn [snd length] in *.
  cbn [visit_stack fold_left]. rewrite (proj2 (Z.ltb_ge _ _)) by lia. unfold visit_top at 2. cbn [result_bind fst snd].
  assert (exists room, room_at depth = room /\ (depth < MAX_CPE_DEPTH -> room = S (room_at (depth + 1))) /\ (depth = MAX_CPE_DEPTH -> room = O))
    as (room & -> & Hroom & Hlast) by (unfold room_at in *; eexists; split; [done|]; split; lia).
  destruct room as [|room]; cbn [visit_tree]; (destruct (visit_node visitor node s) as [s'|e]; cbn [result_bind]; [|by rewrite visit_top_err]);
    (destruct (json_get node "children") as [children|]; [|apply IH; [done|done|lia]]);
    (destruct (json_array children) as [l|]; cbn [ok_or result_bind]; [|by rewrite visit_top_err]).
  - unfold push_nodes. assert (depth = MAX_CPE_DEPTH) by lia. rewrite (proj2 (Z.ltb_lt _ _)) by lia. cbn. by rewrite visit_top_err.
  - assert (depth < MAX_CPE_DEPTH) as Hlt by (destruct (Z.eq_dec depth MAX_CPE_DEPTH) as [E|E]; [by specialize (Hlast E)|lia]).
    specialize (Hroom Hlt). injection Hroom as ->. unfold push_nodes, saturating_sub_u64. rewrite (proj2 (Z.ltb_ge _ _)) by lia. cbn [orb].
    destruct (Z.ltb_spec MAX_CPE_NODES (count + Z.of_nat (length l))).
    + rewrite (proj2 (Z.ltb_lt _ _)) by lia. cbn [result_bind]. by rewrite visit_top_err.
    + rewrite (proj2 (Z.ltb_ge _ _)) by lia. cbn [result_bind fst snd]. rewrite IH.
      * by rewrite fold_left_app, visit_top_level.
      * lia.
      * apply Forall_app. split; [|done]. apply Forall_map, Forall_true. intros n. cbn. lia.
      * rewrite length_app, length_map. lia.
Qed.

Lemma iterative_is_recursive nodes count s :
  0 <= count <= MAX_CPE_NODES -> visit_nodes_iterative visitor nodes count s = visit_forest nodes count s.
Proof.
  intros Hc. unfold visit_nodes_iterative, visit_forest. destruct nodes as [nodes|]; [|done].
  destruct (json_array nodes) as [l|]; cbn [ok_or result_bind]; [|done]. unfold push_nodes, saturating_sub_u64.
  change (MAX_CPE_DEPTH <? 1) with false. cbn [orb].
  destruct (Z.ltb_spec MAX_CPE_NODES (count + Z.of_nat (length l))).
  - by rewrite (proj2 (Z.ltb_lt _ _)) by lia.
  - rewrite (proj2 (Z.ltb_ge _ _)) by lia. cbn [result_bind fst snd]. rewrite app_nil_r, visit_stack_tree.
    + by rewrite visit_top_level.
    + lia.
    + apply Forall_map, Forall_true. intros n. cbn. unfold MAX_CPE_DEPTH. lia.
    + rewrite length_map. unfold MAX_CPE_NODES in *. lia.
Qed.
End Traversal.

(** ** Fuel *)
Definition fueled {A} (r : result A NvdParseError) : Prop := r <> Err NFuel.

Lemma fueled_bind {A B} (r : result A NvdParseError) (k : A -> result B NvdParseError) :
  fueled r -> (forall a, fueled (k a)) -> fueled (result_bind r k).
Proof. destruct r as [a|e]; cbn; [auto|]. intros Hr _ [= ->]. by apply Hr. Qed.
Lemma fueled_ok_or {A} (o : option A) e : e <> NFuel -> fueled (ok_or o e).
Proof. destruct o; cbn; [done|]. intros He [= ->]. done. Qed.
Lemma fueled_ok {A} (a : A) : fueled (Ok a).
Proof. done. Qed.
Lemma fueled_err {A} e : e <> NFuel -> @fueled A (Err e).
Proof. intros He [= ->]. done. Qed.

Create HintDb fueled.
#[local] Hint Resolve fueled_bind fueled_ok_or fueled_ok fueled_err : fueled.
#[local] Hint Extern 1 (_ <> NFuel) => discriminate : fueled.
#[local] Hint Unfold fueled : core.
(** Walks a parser: binds, matches and leaves. *)
Ltac fuel := repeat (intros; cbv zeta; first [solve [match goal with H : forall _, _ |- _ => apply H end] | apply fueled_bind | progress case_match | solve [eauto with fueled]]).

Section TraversalFuel.
Context {St : Type} (visitor : Json -> St -> result St NvdParseError) (Hvis : forall m s, fueled (visitor m s)).

Lemma visit_node_fueled node s : fueled (visit_node visitor node s).
Proof.
  assert (forall l s', fueled (visit_matches visitor l s')) as Hm by (induction l as [|m l IH]; intros s'; cbn [visit_matches]; fuel; auto).
  unfold visit_node. fuel; auto.
Qed.

Lemma fold_fueled {A B} (f : B -> A -> result A NvdParseError) (l : list B) acc :
  (forall b a, fueled (f b a)) -> fueled acc -> fueled (fold_left (fun acc b => let? a := acc in f b a) l acc).
Proof. intros Hf. revert acc. induction l as [|b l IH]; intros acc Ha; cbn [fold_left]; [done|]. apply IH. by apply fueled_bind. Qed.

Lemma visit_tree_fueled room node count s : fueled (visit_tree visitor room node count s).
Proof.
  revert node count s. induction room as [|room IH]; intros node count s; cbn [visit_tree]; apply fueled_bind; [apply visit_node_fueled| |apply visit_node_fueled|];
    fuel; try apply (fold_fueled (fun n p => visit_tree visitor room n (fst p) (snd p))); auto with fueled.
Qed.

Lemma visit_forest_fueled nodes count s : fueled (visit_forest visitor nodes count s).
Proof.
  unfold visit_forest. fuel. apply (fold_fueled (fun n p => visit_tree visitor 31 n (fst p) (snd p))); auto using visit_tree_fueled with fueled.
Qed.
End TraversalFuel.

(** The explicit stack of the traversal stands for recursion: within the node and depth
    limits it visits the matches of the configuration tree in pre-order, counts the nodes of
    each level before descending and fails where the recursion fails; one unit of fuel per
    allowed node is always enough. *)
Theorem nvd_traversal_is_preorder {St : Type} (visitor : Json -> St -> result St NvdParseError) nodes count s :
  0 <= count <= MAX_CPE_NODES ->
  visit_nodes_iterative visitor nodes count s = visit_forest visitor nodes count s /\
  ((forall m s', visitor m s' <> Err NFuel) -> visit_nodes_iterative visitor nodes count s <> Err NFuel).
Proof.
  intros Hc. rewrite (iterative_is_recursive visitor nodes count s Hc). split; [done|]. intros Hv. by apply visit_forest_fueled.
Qed.

(** ** Invariants of a traversal *)
Section TraversalInvariant.
Context {St : Type} (visitor : Json -> St -> result St NvdParseError) (P : St -> Prop).
Context (Hvis : forall m s s', P s -> visitor m s = Ok s' -> P s').

Definition kept (p : Z * St) : Prop := 0 <= fst p <= MAX_CPE_NODES /\ P (snd p).

Lemma visit_node_keeps node s s' : P s -> visit_node visitor node s = Ok s' -> P s'.
Proof.
  intros Hs. unfold visit_node. destruct (json_get node "cpeMatch") as [v|]; [|by intros [= <-]].
  destruct (json_array v) as [l|]; cbn [ok_or result_bind]; [|done]. revert s Hs. induction l as [|m l IH]; intros s Hs; cbn [visit_matches].
  - by intros [= <-].
  - case_bool_decide; [by apply IH|]. intros (s1 & Hm & Hk)%result_bind_ok. eapply IH; [|exact Hk]. by eapply Hvis.
Qed.

Lemma fold_keeps {B} (f : B -> Z * St -> result (Z * St) NvdParseError) (l : list B) p p' :
  (forall b p p', kept p -> f b p = Ok p' -> kept p') -> kept p ->
  fold_left (fun acc b => let? a := acc in f b a) l (Ok p) = Ok p' -> kept p'.
Proof.
  intros Hf. revert p. induction l as [|b l IH]; intros p Hp; cbn [fold_left]; [by intros [= <-]|].
  cbn [result_bind]. destruct (f b p) as [p1|e] eqn:E; [|by rewrite fold_err]. apply IH. by eapply Hf.
Qed.

Lemma visit_tree_keeps room node p p' : kept p -> visit_tree visitor room node (fst p) (snd p) = Ok p' -> kept p'.
Proof.
  revert node p p'. induction room as [|room IH]; intros node [count s] p' [Hc Hs]; cbn [visit_tree fst snd] in *;
    intros (s1 & Hn & Hk)%result_bind_ok; apply (visit_node_keeps _ _ _ Hs) in Hn;
    (destruct (json_get node "children") as [v|]; [|by injection Hk as <-]);
    apply result_bind_ok in Hk as (l & _ & Hk); [done|].
  destruct (Z.ltb_spec MAX_CPE_NODES (count + Z.of_nat (length l))); [done|].
  eapply (fold_keeps (fun n p => visit_tree visitor room n (fst p) (snd p))); [exact IH| |exact Hk]. split; [cbn; lia|exact Hn].
Qed.

Lemma traversal_keeps nodes p p' :
  kept p -> visit_nodes_iterative visitor nodes (fst p) (snd p) = Ok p' -> kept p'.
Proof.
  intros [Hc Hs]. rewrite iterative_is_recursive by exact Hc. unfold visit_forest. destruct nodes as [v|]; [|by intros [= <-]].
  intros (l & _ & Hk)%result_bind_ok. destruct (Z.ltb_spec MAX_CPE_NODES (fst p + Z.of_nat (length l))); [done|].
  eapply (fold_keeps (fun n p => visit_tree visitor 31 n (fst p) (snd p))); [|split|exact Hk]; [apply visit_tree_keeps|cbn; lia|exact Hs].
Qed.
End TraversalInvariant.

(** ** The NVD document *)
Section NvdTheorem.
Context `{Sha256} `{AdvisoryLibs} `{FeedLibs} (retrieved_at cache_expires_at : DateTime).

Record official_entry (n : NormalizedAdvisory) : Prop := {
  oe_source : ai_source (na_input n) = Nvd;
  oe_trust : ai_source_trust (na_input n) = OfficialApi;
  oe_id : is_strict_cve (ai_source_id (na_input n)) = true;
  oe_retrieved : ai_retrieved_at (na_input n) = retrieved_at /\ ai_cache_expires_at (na_input n) = cache_expires_at;
  oe_normal : exists i, advisory_new i = Ok n
}.

Definition output_ok (l : list NormalizedAdvisory) : Prop :=
  Z.of_nat (length l) <= MAX_PARSER_OUTPUTS /\ Forall official_entry l.

Lemma push_advisory_ok output head vendor model firmware output' :
  is_strict_cve (ch_id head) = true -> output_ok output ->
  push_advisory retrieved_at cache_expires_at output head vendor model firmware = Ok output' -> output_ok output'.
Proof.
  intros Hid [Hl Hall]. unfold push_advisory. destruct (_ =? _) eqn:E; [done|]. bprop.
  destruct (advisory_new _) as [n|e] eqn:En; [|done]. intros [= <-]. split; [rewrite length_app; cbn; lia|].
  apply Forall_app. split; [done|]. constructor; [|constructor]. pose proof (advisory_new_ok _ _ En) as (Hi & _ & _).
  split; [by rewrite Hi; destruct (future_dated _)..|eauto].
Qed.

Definition state_ok (s : NvdState) : Prop := output_ok (nv_output s).

Lemma visit_match_ok head m s s' :
  is_strict_cve (ch_id head) = true -> state_ok s -> visit_match retrieved_at cache_expires_at head m s = Ok s' -> state_ok s'.
Proof.
  intros Hid Hs. unfold visit_match. intros ([sel|] & _ & Hk)%result_bind_ok; [|by injection Hk as <-].
  case_bool_decide; [by injection Hk as <-|]. apply result_bind_ok in Hk as (output & Ho & [= <-]). by eapply push_advisory_ok.
Qed.

Lemma visit_configurations_ok head l count s s' :
  is_strict_cve (ch_id head) = true -> 0 <= count <= MAX_CPE_NODES -> state_ok s ->
  visit_configurations retrieved_at cache_expires_at head l count s = Ok s' -> state_ok s'.
Proof.
  intros Hid. revert count s. induction l as [|c l IH]; intros count s Hc Hs; cbn [visit_configurations]; [by intros [= <-]|].
  intros (p & Hp & Hk)%result_bind_ok.
  destruct (traversal_keeps (visit_match retrieved_at cache_expires_at head) state_ok (fun m s s' => visit_match_ok head m s s' Hid)
              (json_get c "nodes") (count, s) p (conj Hc Hs) Hp) as [Hc' Hs']. by eapply IH.
Qed.

Lemma nvd_entry_ok output e output' :
  output_ok output -> nvd_entry retrieved_at cache_expires_at output e = Ok output' -> output_ok output'.
Proof.
  intros Ho. unfold nvd_entry. intros (cve & _ & Hk)%result_bind_ok. apply result_bind_ok in Hk as (id & _ & Hk).
  destruct (is_strict_cve id) eqn:Hid; [|done]. cbn [negb] in Hk. apply result_bind_ok in Hk as (title & _ & Hk).
  apply result_bind_ok in Hk as (published & _ & Hk). apply result_bind_ok in Hk as (modified & _ & Hk). cbn zeta in Hk.
  apply result_bind_ok in Hk as (s & Hs & Hk).
  assert (state_ok s) as Hok.
  { destruct (json_get cve "configurations") as [v|]; [|by injection Hs as <-]. apply result_bind_ok in Hs as (l & _ & Hs).
    refine (visit_configurations_ok _ _ _ _ _ _ _ _ Hs); [exact Hid|unfold MAX_CPE_NODES; lia|exact Ho]. }
  destruct (nv_emitted s); [by injection Hk as <-|]. refine (push_advisory_ok _ _ _ _ _ _ _ Hok Hk). exact Hid.
Qed.

Lemma cpe_fueled m : fueled (cpe m).
Proof.
  assert (forall v k, fueled (nvd_required v k)) as Hreq by (intros; unfold nvd_required; fuel).
  assert (forall v k, fueled (bound v k)) as Hbound by (intros; unfold bound; fuel).
  assert (forall raw, fueled (parse_cpe23 raw)) as Hparse.
  { intros raw. unfold parse_cpe23. apply fueled_bind; [|fuel]. generalize ([] : list CpeField, empty_field, false).
    induction (chars raw) as [|c l IH]; intros st; cbn [cpe_chars]; [done|]. apply fueled_bind; [|auto].
    unfold cpe_step. fuel. }
  unfold cpe. fuel.
Qed.

Lemma nvd_entry_fueled output e : fueled (nvd_entry retrieved_at cache_expires_at output e).
Proof.
  assert (forall v k, fueled (nvd_required v k)) as Hreq by (intros; unfold nvd_required; fuel).
  assert (forall v k, fueled (nvd_time v k)) as Htime by (intros; unfold nvd_time; fuel).
  assert (forall o h v m f, fueled (push_advisory retrieved_at cache_expires_at o h v m f)) as Hpush by (intros; unfold push_advisory; fuel).
  assert (forall h m s, fueled (visit_match retrieved_at cache_expires_at h m s)) as Hvis.
  { intros h m s. unfold visit_match. apply fueled_bind; [apply cpe_fueled|]. fuel. }
  assert (forall h l count s, 0 <= count <= MAX_CPE_NODES -> fueled (visit_configurations retrieved_at cache_expires_at h l count s)) as Hconf.
  { intros h l. induction l as [|c l IH]; intros count s Hc; cbn [visit_configurations]; [done|].
    destruct (visit_nodes_iterative _ _ _ _) as [p|e'] eqn:E; cbn [result_bind].
    - apply IH. apply (traversal_keeps (visit_match retrieved_at cache_expires_at h) (fun _ => True) (fun _ _ _ _ _ => Logic.I) _ (count, s) p (conj Hc Logic.I) E).
    - intros [= ->]. rewrite iterative_is_recursive in E by done. exact (visit_forest_fueled _ (Hvis h) _ _ _ E). }
  unfold nvd_entry. fuel. intros l. apply Hconf. unfold MAX_CPE_NODES. lia.
Qed.

(** A document of the National Vulnerability Database yields at most the bounded number of
    advisories, each normalised, from the official source, for a well-formed CVE identifier and
    with the times of this retrieval, and reading it always ends with a result or an error of
    the source: the traversal of its configurations never runs out of fuel. *)
Theorem nvd_document_is_bounded body :
  parse_nvd retrieved_at cache_expires_at body <> Err NFuel /\
  forall l, parse_nvd retrieved_at cache_expires_at body = Ok l ->
    Z.of_nat (length l) <= MAX_PARSER_OUTPUTS /\ Forall official_entry l.
Proof.
  assert (forall l output, fueled (nvd_entries retrieved_at cache_expires_at output l)) as Hf.
  { induction l as [|e l IH]; intros output; cbn [nvd_entries]; [done|]. apply fueled_bind; [apply nvd_entry_fueled|auto]. }
  assert (forall l output output', output_ok output -> nvd_entries retrieved_at cache_expires_at output l = Ok output' -> output_ok output') as Hok.
  { induction l as [|e l IH]; intros output output' Ho; cbn [nvd_entries]; [by intros [= <-]|].
    intros (o & He & Hk)%result_bind_ok. eapply IH; [|exact Hk]. by eapply nvd_entry_ok. }
  split.
  - change (fueled (parse_nvd retrieved_at cache_expires_at body)). unfold parse_nvd. fuel; auto.
  - intros l. unfold parse_nvd. destruct (_ <? _); [done|]. intros (root & _ & Hk)%result_bind_ok.
    apply result_bind_ok in Hk as (entries & _ & Hk). destruct (_ <? _); [done|].
    apply (Hok _ [] _) in Hk; [exact Hk|]. split; [unfold MAX_PARSER_OUTPUTS; cbn; lia|constructor].
Qed.
End NvdTheorem.

(** ** Vendors and exploited vulnerabilities *)
Lemma collect_ok {A B E} (f : A -> result B E) l bs b : collect f l = Ok bs -> In b bs -> exists a, In a l /\ f a = Ok b.
Proof.
  revert bs. induction l as [|a l IH]; intros bs; cbn [collect]; [by intros [= <-]|].
  intros (b' & Hb & Hk)%result_bind_ok. apply result_bind_ok in Hk as (bs' & Hbs & [= <-]). intros [<-|Hin].
  - exists a. split; [by left|done].
  - destruct (IH _ Hbs Hin) as (a' & Ha & Hf). exists a'. split; [by right|done].
Qed.

(** A URL that is registered once, or was seen and is registered no more, is not repeated. *)
Lemma repeated_urls_spec l seen url :
  url ∉ repeated_urls seen l ->
  (url ∈ seen -> List.filter (fun s => bool_decide (vs_url s = url)) l = []) /\
  (length (List.filter (fun s => bool_decide (vs_url s = url)) l) <= 1)%nat.
Proof.
  revert seen. induction l as [|s l IH]; intros seen Hn; cbn [repeated_urls List.filter] in *; [split; [done|cbn; lia]|].
  case_bool_decide as Hseen.
  - assert (vs_url s <> url) as Hne by set_solver. rewrite bool_decide_false by done. apply IH. set_solver.
  - destruct (IH _ Hn) as [H1 H2]. case_bool_decide as He; [|split; [intros Hs; apply H1; set_solver|done]].
    split; [intros Hs; congruence|]. rewrite H1 by set_solver. done.
Qed.

Lemma registered_once l url s :
  url ∉ repeated_urls ∅ l -> iter_find (fun s => bool_decide (vs_url s = url)) l = Some s ->
  List.filter (fun s => bool_decide (vs_url s = url)) l = [s].
Proof.
  intros [_ Hlen]%repeated_urls_spec. induction l as [|x l IH]; cbn [iter_find List.filter] in *; [done|].
  case_bool_decide as Hx; cbn [length] in *; [|by apply IH]. intros [= <-]. destruct (List.filter _ l); [done|cbn in Hlen; lia].
Qed.

Section FeedTheorems.
Context `{Sha256} `{AdvisoryLibs} `{FeedLibs}.

(** The source is the only one of its address, is enabled and in its validity, and the signature
    with its registered key is over the prefix and this very body. *)
Record signed_by (sources : list VendorSource) (url : string) (retrieved_at : DateTime) (body : string)
    (signature : VendorSignature) (source : VendorSource) : Prop := {
  sb_only : List.filter (fun s => bool_decide (vs_url s = url)) sources = [source];
  sb_enabled : vs_enabled source = true;
  sb_from : forall t, vs_valid_from source = Some t -> t <= retrieved_at;
  sb_until : forall t, vs_valid_until source = Some t -> retrieved_at <= t;
  sb_key_id : vs_key_id source = Some (vg_key_id signature);
  sb_verified : exists raw_key key raw, vs_public_key source = Some raw_key /\ key_from_bytes raw_key = Some key /\
    base64_url_decode (vg_encoded signature) = Some raw /\ verify_strict key (SIGNING_PREFIX ++ str_bytes body) raw = true
}.

Lemma vendor_verify_true key encoded body :
  vendor_verify key encoded body = true ->
  exists k raw, key_from_bytes key = Some k /\ base64_url_decode encoded = Some raw /\ verify_strict k (SIGNING_PREFIX ++ body) raw = true.
Proof.
  unfold vendor_verify. destruct (_ || _); [done|]. destruct (base64_url_decode encoded) as [raw|]; [|done].
  destruct (negb _); [done|]. destruct (key_from_bytes key) as [k|]; [|done]. eauto.
Qed.

(** The trust of a document is earned, and never the official feed's. *)
Lemma trust_cases source signature body at_ :
  let t := fst (trust source signature body at_) in
  t = RegisteredHttps /\ signature = None \/ t = Invalid \/
  t = VerifiedSignature /\ exists s, signature = Some s /\ vs_enabled source = true /\
    (forall t, vs_valid_from source = Some t -> t <= at_) /\ (forall t, vs_valid_until source = Some t -> at_ <= t) /\
    vs_key_id source = Some (vg_key_id s) /\
    exists raw_key, vs_public_key source = Some raw_key /\ vendor_verify raw_key (vg_encoded s) body = true.
Proof.
  cbn zeta. unfold trust. destruct signature as [s|]; [|by left]. destruct (_ && is_some_and _ _) eqn:E; [|by right; left].
  right. right. split; [done|]. exists s. rewrite !andb_true_iff, !is_none_or_true, is_some_and_true, bool_decide_eq_true in E.
  destruct E as (((He & Hf & Hu) & Hk) & Hv). split_and!; try done; intros t Ht; [apply Hf in Ht|apply Hu in Ht]; lia.
Qed.

Lemma vendor_entry_ok url at_ until t a n :
  vendor_entry url at_ until t a = Ok n -> ai_source_trust (na_input n) = fst t.
Proof.
  unfold vendor_entry. destruct (advisory_new _) as [n'|e] eqn:E; [|done]. intros [= <-].
  apply advisory_new_ok in E as (-> & _). by destruct (future_dated _).
Qed.

Lemma parse_vendor_ok body url signature at_ until sources l :
  parse_vendor body url signature at_ until (registry_new sources) = Ok l ->
  exists source advisories,
    List.filter (fun s => bool_decide (vs_url s = url)) sources = [source] /\
    collect (vendor_entry url at_ until (trust source signature (str_bytes body) at_)) advisories = Ok l.
Proof.
  unfold parse_vendor. destruct (_ <? _); [done|]. destruct (_ || bool_decide _) eqn:E; [done|].
  apply orb_false_iff in E as [_ Hn%bool_decide_eq_false]. intros (source & Hs & Hk)%result_bind_ok.
  destruct (iter_find _ _) as [s|] eqn:Ef; [injection Hs as ->|done]. destruct (_ || (_ && _)); [done|].
  apply result_bind_ok in Hk as (document & _ & Hk). destruct (negb _); [done|]. destruct (_ <? _); [done|].
  exists source, (vd_advisories document). split; [by apply registered_once|exact Hk].
Qed.

(** A vendor's word is exact only when it is signed: if an advisory of a vendor document
    matches a device exactly, then the document came with a signature whose identifier names
    the key of the only source registered for this address, the source is enabled and in its
    validity at the time of retrieval, and the signature over the prefix and the very bytes of
    the document verifies with that key. A document whose signature does not verify so tells
    nothing of any device. *)
Theorem exact_vendor_match_is_signed body url signature retrieved_at cache_expires_at sources l n d :
  parse_vendor body url signature retrieved_at cache_expires_at (registry_new sources) = Ok l -> In n l ->
  (mt_label (match_advisory (Some d) n) = LExact ->
     exists s source, signature = Some s /\ signed_by sources url retrieved_at body s source) /\
  (signature <> None -> mt_label (match_advisory (Some d) n) = LUnknown \/
     exists s source, signature = Some s /\ signed_by sources url retrieved_at body s source).
Proof.
  intros (source & advisories & Hone & Hc)%parse_vendor_ok Hin. destruct (collect_ok _ _ _ _ Hc Hin) as (a & _ & Ha%vendor_entry_ok).
  destruct (trust_cases source signature (str_bytes body) retrieved_at) as [[Ht ->]|[Ht|(Ht & s & -> & He & Hf & Hu & Hk & raw_key & Hp & Hv)]];
    rewrite Ht in Ha; destruct (match_advisory_cases d n) as [[_ Hl]|[[Hne _] [[_ Hl]|[_ [([Htr _ _ _ _ _] & _)|[_ Hl]]]]]];
    rewrite ?Ha in *; try congruence; try (split; [congruence|by left]); try (split; [intuition congruence|congruence]); try (destruct Htr; congruence).
  all: apply vendor_verify_true in Hv as (k & raw & Hkey & Hraw & Hv).
  all: assert (signed_by sources url retrieved_at body s source) by (split; eauto 10).
  all: split; intros; [|right]; eauto.
Qed.

(** An exploited vulnerability names no version, so it never matches exactly. *)
Theorem exploited_vulnerability_is_never_exact body retrieved_at cache_expires_at l n d :
  parse_kev body retrieved_at cache_expires_at = Ok l -> In n l ->
  mt_label (match_advisory (Some d) n) <> LExact /\ ai_exploitability (na_input n) = ActiveKnownExploitation.
Proof.
  unfold parse_kev. destruct (_ <? _); [done|]. intros (root & _ & Hk)%result_bind_ok. apply result_bind_ok in Hk as (es & _ & Hk).
  destruct (_ <? _); [done|]. intros Hin. destruct (collect_ok _ _ _ _ Hk Hin) as (e & _ & He).
  assert (ai_firmware (na_input n) = AnyVersion /\ ai_exploitability (na_input n) = ActiveKnownExploitation) as [Hf Hx].
  { unfold kev_entry in He. repeat (apply result_bind_ok in He as (? & _ & He) || (case_match; [done|])).
    destruct (advisory_new _) as [n'|] eqn:En; [|done]. injection He as <-. apply advisory_new_ok in En as (-> & _).
    by destruct (future_dated _). }
  split; [|done]. destruct (match_advisory_cases d n) as [[_ ->]|[_ [[_ ->]|[_ [([_ _ _ _ (v & Hv & _) _] & _)|[_ ->]]]]]]; congruence.
Qed.
End FeedTheorems.
