(* ===== verification/AdvisoryFeed.v ===== *)
(** * Security advisories: transport and synchronisation of the feeds

    crates/lattice-advisory/src/transport.rs and feed.rs. Clock and network are a world that is
    passed along; the HTTP answer of reqwest, the query text of the url crate and UTF-8 are
    parameters. Two errors are not the source's: [FPanic] stands for an expiry beyond chrono's
    calendar, at which the addition panics, and [FFuel] for a loop that would need more fuel
    than it has. A cache is used by one synchronisation at a time. *)

From S2P Require Import Prelude Order Time Text Bytes Net F64 Advisory AdvisoryParse.

Definition MAX_RESULTS_PER_PAGE : Z := 2000.
Definition DEFAULT_NVD_RESULTS_PER_PAGE : Z := 1000.
Definition MAX_PAGE_SIZE_REDUCTIONS : Z := 10.
Definition MAX_PAGES : nat := 128.
Definition MAX_AGGREGATE_RECORDS : Z := 256000.
Definition MAX_VALIDATOR_BYTES : Z := 1024.
Definition days (n : Z) : Duration := hours (24 * n).
Definition CACHE_TTL : Duration := hours 1.
Definition MAX_STALE_AGE : Duration := days 7.

Inductive TransportError :=
  | TUnsafeUrl | TInvalidWindow | TInvalidValidator | TOversized | THttpStatus (status : Z) | TInvalidContentType
  | TMalformedDocument | TUnavailable | TUnsafeAddress.

Record FeedRequest := {
  rq_url : string; rq_start_index : Z; rq_results_per_page : Z; rq_modified_start : option DateTime;
  rq_modified_end : option DateTime; rq_etag : option string; rq_last_modified : option string }.

Record FeedResponse := {
  rs_status : Z; rs_body : string; rs_retrieved_at : DateTime; rs_etag : option string; rs_last_modified : option string;
  rs_source_url : string }.

(** The address with its four query pairs: both ends of the window, start and size. *)
Class NvdQuery := nvd_query : DateTime -> DateTime -> Z -> Z -> string.

(** ** Requests *)
Definition validate_validator (value : option string) : result unit TransportError :=
  if is_some_and (fun v => str_is_empty v || (MAX_VALIDATOR_BYTES <? str_len v) || has_control v) value
  then Err TInvalidValidator else Ok tt.

(** [Url::port_or_known_default]: the port of the scheme when none is given. *)
Definition port_or_known_default (u : Url) : option Z :=
  match url_port u with
  | Some p => Some p
  | None =>
    if bool_decide (url_scheme u = "https"%string) || bool_decide (url_scheme u = "wss"%string) then Some 443
    else if bool_decide (url_scheme u = "http"%string) || bool_decide (url_scheme u = "ws"%string) then Some 80
    else if bool_decide (url_scheme u = "ftp"%string) then Some 21 else None
  end.

Definition official (u : Url) (host path : string) : bool :=
  bool_decide (url_scheme u = "https"%string) && bool_decide (url_host u = Some host)
  && bool_decide (port_or_known_default u = Some 443) && bool_decide (url_port u = None) && bool_decide (url_path u = path).

Section Requests.
Context `{AdvisoryLibs} `{NvdQuery}.

Definition validate_exact_url (raw : string) : result unit TransportError :=
  let? parsed := ok_or (url_parse raw) TUnsafeUrl in
  let allowed :=
    if starts_with raw NVD_URL then official parsed "services.nvd.nist.gov" "/rest/json/cves/2.0"
    else bool_decide (raw = KEV_URL)
         && official parsed "www.cisa.gov" "/sites/default/files/feeds/known_exploited_vulnerabilities.json" in
  if allowed && str_is_empty (url_username parsed) && bool_decide (url_password parsed = None)
     && bool_decide (url_fragment parsed = None)
  then Ok tt else Err TUnsafeUrl.

Definition window_invalid (start end_ : DateTime) : bool := (end_ <? start) || (days 120 <? end_ - start).

Definition request_validate (r : FeedRequest) : result unit TransportError :=
  let? _ := validate_exact_url (rq_url r) in
  let? _ := validate_validator (rq_etag r) in
  let? _ := validate_validator (rq_last_modified r) in
  if starts_with (rq_url r) NVD_URL then
    if (rq_results_per_page r =? 0) || (MAX_RESULTS_PER_PAGE <? rq_results_per_page r) then Err TInvalidWindow
    else match rq_modified_start r, rq_modified_end r with
    | Some start, Some end_ =>
      if window_invalid start end_ then Err TInvalidWindow
      else if bool_decide (nvd_query start end_ (rq_start_index r) (rq_results_per_page r) = rq_url r) then Ok tt
      else Err TUnsafeUrl
    | _, _ => Err TInvalidWindow
    end
  else Ok tt.

Definition request_nvd (start_index results_per_page : Z) (start end_ : DateTime) : result FeedRequest TransportError :=
  if window_invalid start end_ then Err TInvalidWindow
  else
    let results_per_page := Z.min results_per_page MAX_RESULTS_PER_PAGE in
    let request := {|
      rq_url := nvd_query start end_ start_index results_per_page; rq_start_index := start_index;
      rq_results_per_page := results_per_page; rq_modified_start := Some start; rq_modified_end := Some end_;
      rq_etag := None; rq_last_modified := None |} in
    let? _ := request_validate request in
    Ok request.

Definition plain_request (url : string) : FeedRequest := {|
  rq_url := url; rq_start_index := 0; rq_results_per_page := 0; rq_modified_start := None; rq_modified_end := None;
  rq_etag := None; rq_last_modified := None |}.
Definition request_kev : FeedRequest := plain_request KEV_URL.
Definition request_url (url : string) : result FeedRequest TransportError :=
  let? _ := validate_exact_url url in Ok (plain_request url).

Definition with_validators (r : FeedRequest) (etag last_modified : option string) : result FeedRequest TransportError :=
  let? _ := validate_validator etag in
  let? _ := validate_validator last_modified in
  Ok {| rq_url := rq_url r; rq_start_index := rq_start_index r; rq_results_per_page := rq_results_per_page r;
        rq_modified_start := rq_modified_start r; rq_modified_end := rq_modified_end r; rq_etag := etag;
        rq_last_modified := last_modified |}.

(** ** The HTTP answer *)
(** A header that is absent, or present and perhaps not text; each chunk of the body may fail. *)
Record HttpAnswer := {
  ha_status : Z; ha_etag : option (option string); ha_last_modified : option (option string);
  ha_content_length : option Z; ha_content_type : option string; ha_chunks : list (option bytes) }.

Definition header (value : option (option string)) : result (option string) TransportError :=
  let? value := match value with
                | None => Ok None
                | Some None => Err TInvalidValidator
                | Some (Some v) => Ok (Some v)
                end in
  let? _ := validate_validator value in
  Ok value.

Fixpoint read_chunks (bytes_ : bytes) (l : list (option bytes)) : result bytes TransportError :=
  match l with
  | [] => Ok bytes_
  | None :: _ => Err TUnavailable
  | Some chunk :: l' =>
    if MAX_RESPONSE_BYTES <? Z.of_nat (length bytes_) + Z.of_nat (length chunk) then Err TOversized
    else read_chunks (bytes_ ++ chunk) l'
  end.

Definition json_content (content_type : string) : bool :=
  match split_char ";"%char content_type with
  | v :: _ => eq_ignore_ascii_case v "application/json"
  | [] => false
  end.

(** [ProductionTransport::get] with the answer to the sent request, [None] when sending failed. *)
Definition production_get (from_utf8 : bytes -> option string) (request : FeedRequest) (answer : option HttpAnswer)
    (now : DateTime) : result FeedResponse TransportError :=
  let? _ := request_validate request in
  let? response := ok_or answer TUnavailable in
  let status := ha_status response in
  let? etag := header (ha_etag response) in
  let? last_modified := header (ha_last_modified response) in
  if status =? 304 then
    Ok {| rs_status := status; rs_body := EmptyString; rs_retrieved_at := now; rs_etag := etag;
          rs_last_modified := last_modified; rs_source_url := rq_url request |}
  else if negb ((200 <=? status) && (status <? 300)) then Err (THttpStatus status)
  else if is_some_and (fun n => MAX_RESPONSE_BYTES <? n) (ha_content_length response) then Err TOversized
  else if negb (json_content (default EmptyString (ha_content_type response))) then Err TInvalidContentType
  else
    let? bytes_ := read_chunks [] (ha_chunks response) in
    if Nat.eqb (length bytes_) 0 then Err TInvalidContentType
    else
      let? body := ok_or (from_utf8 bytes_) TInvalidContentType in
      Ok {| rs_status := status; rs_body := body; rs_retrieved_at := now; rs_etag := etag;
            rs_last_modified := last_modified; rs_source_url := rq_url request |}.
End Requests.

(** ** Pinned hosts *)
Definition segment (a : Z) (i : Z) : Z := Z.land (Z.shiftr a (112 - 16 * i)) 65535.

Definition is_public_v4 (ip : Z) : bool :=
  let a := octet ip 0 in let b := octet ip 1 in
  negb ((ip =? 0) || (a =? 127) || is_private_v4 ip || is_link_local_v4 ip || ((224 <=? a) && (a <=? 239))
        || ((a =? 100) && ((64 <=? b) && (b <=? 127))) || ((a =? 192) && ((b =? 0) || (b =? 2)))
        || ((a =? 198) && (((18 <=? b) && (b <=? 19)) || (b =? 51))) || ((a =? 203) && (b =? 0)) || (240 <=? a)).

Definition is_public_feed_address (address : IpAddr) : bool :=
  match address with
  | V4 ip => is_public_v4 ip
  | V6 ip =>
    match to_ipv4_mapped ip with
    | Some v4 => is_public_v4 v4
    | None =>
      negb (is_unspecified_v6 ip || is_loopback_v6 ip || is_multicast_v6 ip || (Z.land (segment ip 0) 65024 =? 64512)
            || (Z.land (segment ip 0) 65472 =? 65152) || ((segment ip 0 =? 8193) && (segment ip 1 =? 3512)))
    end
  end.

(** What the resolver answered for the host, [None] when it failed. *)
Definition resolve_public_host (resolved : option (list IpAddr)) : result (list IpAddr) TransportError :=
  let? addresses := ok_or resolved TUnavailable in
  match addresses with
  | [] => Err TUnsafeAddress
  | _ => if existsb (fun a => negb (is_public_feed_address a)) addresses then Err TUnsafeAddress else Ok addresses
  end.

(** ** Results and caches *)
Inductive FeedError :=
  | FUnavailable (e : TransportError) | FMalformedMetadata | FRecordLimit | FCacheProtocol | FCacheExpired
  | FTransport (e : TransportError) | FPanic | FFuel.

Record FeedResult := {
  fr_source_url : string; fr_records : list Json; fr_response : FeedResponse; fr_cache_expires_at : DateTime;
  fr_warnings : list TransportError }.
Definition is_stale (r : FeedResult) : bool := match fr_warnings r with [] => false | _ => true end.

Definition add_warning (e : TransportError) (r : FeedResult) : FeedResult := {|
  fr_source_url := fr_source_url r; fr_records := fr_records r; fr_response := fr_response r;
  fr_cache_expires_at := fr_cache_expires_at r; fr_warnings := fr_warnings r ++ [e] |}.

(** The validators of a 304 replace the cached ones that it names. *)
Definition merge_validators (cached response : FeedResponse) : FeedResponse := {|
  rs_status := rs_status cached; rs_body := rs_body cached; rs_retrieved_at := rs_retrieved_at cached;
  rs_etag := match rs_etag response with Some _ => rs_etag response | None => rs_etag cached end;
  rs_last_modified := match rs_last_modified response with Some _ => rs_last_modified response | None => rs_last_modified cached end;
  rs_source_url := rs_source_url cached |}.

Class FeedWorld (W : Type) := {
  transport_get : FeedRequest -> W -> result FeedResponse TransportError * W;
  clock_now : W -> DateTime * W
}.

Record ModifiedWindow := { mw_start : DateTime; mw_end : DateTime }.

Definition map_transport {A} (r : result A TransportError) : result A FeedError :=
  match r with Ok a => Ok a | Err e => Err (FTransport e) end.

(** ** Synchronisation *)
Section Sync.
Context `{Calendar} `{AdvisoryLibs} `{NvdQuery} `{FeedLibs} {W : Type} `{FeedWorld W}.

Definition window_new (start end_ : DateTime) : result ModifiedWindow FeedError :=
  let? _ := map_transport (request_nvd 0 1 start end_) in
  Ok {| mw_start := start; mw_end := end_ |}.

(** [stale_or_unavailable] of both feeds, with what their cache holds. *)
Definition stale_or_unavailable (cached : option FeedResult) (error : TransportError) (w : W) : result FeedResult FeedError * W :=
  match cached with
  | None => (Err (FUnavailable error), w)
  | Some cached =>
    match checked_add_signed (fr_cache_expires_at cached) MAX_STALE_AGE with
    | None => (Err FCacheExpired, w)
    | Some stale_until =>
      let (now, w) := clock_now w in
      if stale_until <? now then (Err FCacheExpired, w) else (Ok (add_warning error cached), w)
    end
  end.

Definition NvdCache : Type := gmap string FeedResult.

(** Size of a page and how often it was reduced. *)
Record Paging := { pg_results : Z; pg_reductions : Z }.

(** The inner loop: the key and response of a page, or what the synchronisation returns. *)
Fixpoint fetch_page (fuel : nat) (window : ModifiedWindow) (start : Z) (p : Paging) (cache : NvdCache) (w : W)
  : result (string * FeedResponse * Paging) (result FeedResult FeedError) * W :=
  match fuel with
  | O => (Err (Err FFuel), w)
  | S fuel' =>
    match request_nvd start (pg_results p) (mw_start window) (mw_end window) with
    | Err e => (Err (Err (FTransport e)), w)
    | Ok uncached =>
      let key := rq_url uncached in
      let cached := cache !! key in
      match match cached with
            | Some c => with_validators uncached (rs_etag (fr_response c)) (rs_last_modified (fr_response c))
            | None => Ok uncached
            end with
      | Err e => (Err (Err (FTransport e)), w)
      | Ok request =>
        let (answer, w) := transport_get request w in
        match answer with
        | Ok response =>
          if rs_status response =? 304 then
            match cached with
            | None => (Err (Err (FUnavailable TUnavailable)), w)
            | Some c =>
              let (now, w) := clock_now w in
              if fr_cache_expires_at c <? now then (Err (Err (FUnavailable TUnavailable)), w)
              else (Ok (key, merge_validators (fr_response c) response, p), w)
            end
          else if rs_status response =? 200 then (Ok (key, response, p), w)
          else let (r, w) := stale_or_unavailable (cache !! key) (THttpStatus (rs_status response)) w in (Err r, w)
        | Err error =>
          match error, cached with
          | TOversized, None =>
            if (1 <? pg_results p) && (pg_reductions p <? MAX_PAGE_SIZE_REDUCTIONS)
            then fetch_page fuel' window start
                   {| pg_results := Z.max (pg_results p / 2) 1; pg_reductions := pg_reductions p + 1 |} cache w
            else let (r, w) := stale_or_unavailable (cache !! key) error w in (Err r, w)
          | _, _ => let (r, w) := stale_or_unavailable (cache !! key) error w in (Err r, w)
          end
        end
      end
    end
  end.

Definition json_number (value : Json) (name : string) : result Z FeedError :=
  ok_or (and_then (json_get value name) json_u64) FMalformedMetadata.

Record NvdPage := { np_start : Z; np_size : Z; np_total : Z; np_records : list Json }.

(** [parse_nvd] of feed.rs: the paging numbers and the records of a page. *)
Definition parse_page (body : string) : result NvdPage FeedError :=
  let? value := ok_or (json_from_str body) FMalformedMetadata in
  let? records := ok_or (and_then (json_get value "vulnerabilities") json_array) FMalformedMetadata in
  let? start := json_number value "startIndex" in
  let? size := json_number value "resultsPerPage" in
  let? total := json_number value "totalResults" in
  Ok {| np_start := start; np_size := size; np_total := total; np_records := records |}.

Definition page_len (page : NvdPage) : Z := Z.of_nat (length (np_records page)).

(** The checks of a page that begins at [start] after [all]: the start of the next one. *)
Definition check_page (start : Z) (all : list Json) (page : NvdPage) : result Z FeedError :=
  if negb (np_start page =? start) || (np_size page =? 0) || (MAX_RESULTS_PER_PAGE <? np_size page)
     || (np_size page <? page_len page) then Err FMalformedMetadata
  else
    let? next := ok_or (checked_add_u64 start (page_len page)) FRecordLimit in
    if np_total page <? next then Err FMalformedMetadata
    else if saturating_sub_u64 MAX_AGGREGATE_RECORDS (Z.of_nat (length all)) <? page_len page then Err FRecordLimit
    else Ok next.

Definition nvd_result (records : list Json) (response : FeedResponse) (expiry : DateTime) : FeedResult := {|
  fr_source_url := NVD_URL; fr_records := records; fr_response := response; fr_cache_expires_at := expiry; fr_warnings := [] |}.

(** The pages that are left, with the response and expiry of the first one. *)
Fixpoint sync_pages (pages : nat) (window : ModifiedWindow) (start : Z) (all : list Json)
    (first : option (FeedResponse * DateTime)) (p : Paging) (cache : NvdCache) (w : W)
  : result FeedResult FeedError * NvdCache * W :=
  match pages with
  | O => (Err FRecordLimit, cache, w)
  | S pages' =>
    let (fetched, w) := fetch_page (Z.to_nat MAX_PAGE_SIZE_REDUCTIONS + 1) window start p cache w in
    match fetched with
    | Err r => (r, cache, w)
    | Ok (key, response, p) =>
      match parse_page (rs_body response) with
      | Err _ => let (r, w) := stale_or_unavailable (cache !! key) TMalformedDocument w in (r, cache, w)
      | Ok page =>
        match check_page start all page with
        | Err e => (Err e, cache, w)
        | Ok next =>
          let all := all ++ np_records page in
          let (now, w) := clock_now w in
          match checked_add_signed now CACHE_TTL with
          | None => (Err FPanic, cache, w)
          | Some expiry =>
            let cache := <[key := nvd_result all response expiry]> cache in
            let first := default (response, expiry) first in
            if next =? np_total page then (Ok (nvd_result all (fst first) (snd first)), cache, w)
            else if (next <=? start) || (np_total page <? next) then (Err FMalformedMetadata, cache, w)
            else if Nat.eqb pages' 0 then (Err FRecordLimit, cache, w)
            else sync_pages pages' window next all (Some first) p cache w
          end
        end
      end
    end
  end.

Definition nvd_sync (window : ModifiedWindow) (cache : NvdCache) (w : W) : result FeedResult FeedError * NvdCache * W :=
  sync_pages MAX_PAGES window 0 [] None {| pg_results := DEFAULT_NVD_RESULTS_PER_PAGE; pg_reductions := 0 |} cache w.

(** ** Known exploited vulnerabilities *)
Definition KevCache : Type := option FeedResult.

Definition kev_stale (cache : KevCache) (e : TransportError) (w : W) : result FeedResult FeedError * KevCache * W :=
  let (r, w) := stale_or_unavailable cache e w in (r, cache, w).

(** A 304 renews what is cached. *)
Definition kev_not_modified (cache : KevCache) (response : FeedResponse) (w : W) : result FeedResult FeedError * KevCache * W :=
  match cache with
  | None => (Err (FUnavailable TUnavailable), cache, w)
  | Some cached =>
    let (now, w) := clock_now w in
    if fr_cache_expires_at cached <? now then (Err (FUnavailable TUnavailable), cache, w)
    else
      let (now, w) := clock_now w in
      match checked_add_signed now CACHE_TTL with
      | None => (Err FPanic, cache, w)
      | Some expiry =>
        let result := {|
          fr_source_url := fr_source_url cached; fr_records := fr_records cached;
          fr_response := merge_validators (fr_response cached) response; fr_cache_expires_at := expiry;
          fr_warnings := fr_warnings cached |} in
        (Ok result, Some result, w)
      end
  end.

Definition kev_records (body : string) : option (list Json) :=
  and_then (json_from_str body) (fun value => and_then (json_get value "vulnerabilities") json_array).

Definition kev_sync (cache : KevCache) (w : W) : result FeedResult FeedError * KevCache * W :=
  match with_validators request_kev (and_then cache (fun c => rs_etag (fr_response c)))
          (and_then cache (fun c => rs_last_modified (fr_response c))) with
  | Err e => (Err (FTransport e), cache, w)
  | Ok request =>
    let (answer, w) := transport_get request w in
    match answer with
    | Ok response =>
      if rs_status response =? 304 then kev_not_modified cache response w
      else if rs_status response =? 200 then
        match kev_records (rs_body response) with
        | None => kev_stale cache TMalformedDocument w
        | Some records =>
          if MAX_AGGREGATE_RECORDS <? Z.of_nat (length records) then (Err FRecordLimit, cache, w)
          else
            let (now, w) := clock_now w in
            match checked_add_signed now CACHE_TTL with
            | None => (Err FPanic, cache, w)
            | Some expiry =>
              let result := {|
                fr_source_url := KEV_URL; fr_records := records; fr_response := response; fr_cache_expires_at := expiry;
                fr_warnings := [] |} in
              (Ok result, Some result, w)
            end
        end
      else kev_stale cache (THttpStatus (rs_status response)) w
    | Err error => kev_stale cache error w
    end
  end.
End Sync.

(** ** The transport of fixtures *)
Record FixtureReply := { fx_status : Z; fx_body : string; fx_etag : option string; fx_last_modified : option string }.
Record FixtureTransport := {
  ft_replies : list (result FixtureReply TransportError); ft_requests : list FeedRequest; ft_clock : list DateTime }.

(** The clock is a list of readings, the last of which stays. *)
Definition fixture_now (t : FixtureTransport) : DateTime * FixtureTransport :=
  match ft_clock t with
  | [] => (0, t)
  | [now] => (now, t)
  | now :: later => (now, {| ft_replies := ft_replies t; ft_requests := ft_requests t; ft_clock := later |})
  end.

Definition fixture_get `{AdvisoryLibs} `{NvdQuery} (request : FeedRequest) (t : FixtureTransport)
  : result FeedResponse TransportError * FixtureTransport :=
  match request_validate request with
  | Err e => (Err e, t)
  | Ok _ =>
    let sent replies := {| ft_replies := replies; ft_requests := ft_requests t ++ [request]; ft_clock := ft_clock t |} in
    match ft_replies t with
    | [] => (Err TUnavailable, sent [])
    | Err e :: replies => (Err e, sent replies)
    | Ok reply :: replies =>
      if MAX_RESPONSE_BYTES <? str_len (fx_body reply) then (Err TOversized, sent replies)
      else
        let (now, t) := fixture_now (sent replies) in
        (Ok {| rs_status := fx_status reply; rs_body := fx_body reply; rs_retrieved_at := now; rs_etag := fx_etag reply;
               rs_last_modified := fx_last_modified reply; rs_source_url := rq_url request |}, t)
    end
  end.

#[global] Instance fixture_world `{AdvisoryLibs} `{NvdQuery} : FeedWorld FixtureTransport := {|
  transport_get := fixture_get; clock_now := fixture_now |}.
