(* ===== verification/AdvisoryFeedProps.v ===== *)
(** * Security advisories: what a synchronisation brings home

    Statements about what a synchronisation did are made on a world that writes down every
    request with its answer and every reading of the clock. *)

From S2P Require Import Prelude Order Time Text Bytes Net F64 Advisory AdvisoryParse AdvisoryFeed.

(** ** Pinned hosts *)
Lemma land_high x m n : 0 <= n -> Z.land x (Z.shiftl m n) = Z.shiftl (Z.land (Z.shiftr x n) m) n.
Proof.
  intros Hn. apply Z.bits_inj'. intros i Hi. rewrite Z.land_spec, (Z.shiftl_spec m), (Z.shiftl_spec (Z.land _ _)) by lia.
  destruct (Z.lt_ge_cases i n) as [Hlt|Hge]; [rewrite !(Z.testbit_neg_r _ (i - n)) by lia; apply andb_false_r|].
  rewrite Z.land_spec, Z.shiftr_spec by lia. by replace (i - n + n) with i by lia.
Qed.

(** The feeds' hosts and the home network are apart: an address that the discovery guard may
    probe, private or link-local of either family, is never accepted for a pinned feed host, so
    a name server that answers with a home address cannot turn a feed request inwards. *)
Theorem home_targets_are_not_feed_hosts t l :
  is_permitted_target t = true -> In t l -> resolve_public_host (Some l) = Err TUnsafeAddress.
Proof.
  intros Ht Hin.
  assert (is_public_feed_address t = false) as Hp.
  { destruct t as [a|a]; cbn [is_permitted_target is_public_feed_address] in *.
    - unfold is_public_v4, is_private_or_link_local_v4 in *. apply negb_false_iff. apply orb_true_iff in Ht as [-> | ->]; by rewrite ?orb_true_r.
    - rewrite !andb_true_iff, bool_decide_eq_true in Ht. destruct Ht as [[_ Hm] Hu]. rewrite Hm. apply negb_false_iff.
      unfold segment. change (112 - 16 * 0) with 112. rewrite <- !Z.land_assoc. change (Z.land 65535 65024) with (Z.shiftl 254 8).
      change (Z.land 65535 65472) with 65472. rewrite land_high, Z.shiftr_shiftr by lia. change (112 + 8) with 120.
      apply orb_true_iff in Hu as [Hu|Hu]; [unfold is_ula in Hu|unfold is_unicast_link_local in Hu]; apply Z.eqb_eq in Hu; rewrite Hu; by rewrite ?orb_true_r. }
  unfold resolve_public_host. cbn [ok_or result_bind]. destruct l as [|b l]; [done|].
  rewrite (proj2 (existsb_exists _ _)); [done|]. exists t. by rewrite Hp.
Qed.

(** ** Requests *)
Section Requests.
Context `{AdvisoryLibs} `{NvdQuery}.

(** The request goes over HTTPS to one of the two official addresses, without credentials. *)
Record official_request (r : FeedRequest) : Prop := {
  or_url : exists u, url_parse (rq_url r) = Some u /\ url_scheme u = "https"%string /\ url_port u = None /\
    (url_host u = Some "services.nvd.nist.gov"%string \/ url_host u = Some "www.cisa.gov"%string) /\
    str_is_empty (url_username u) = true /\ url_password u = None /\ url_fragment u = None;
  or_valid : request_validate r = Ok tt
}.

Lemma official_true u host path :
  official u host path = true -> url_scheme u = "https"%string /\ url_host u = Some host /\ url_port u = None.
Proof. unfold official. rewrite !andb_true_iff, !bool_decide_eq_true. tauto. Qed.

Lemma validated_is_official r : request_validate r = Ok tt -> official_request r.
Proof.
  intros Hv. split; [|done]. unfold request_validate in Hv. apply result_bind_ok in Hv as ([] & Hu & _).
  unfold validate_exact_url in Hu. apply result_bind_ok in Hu as (u & Hp & Hu). exists u.
  destruct (url_parse (rq_url r)) as [u'|]; [injection Hp as ->|done]. split; [done|]. case_match eqn:E; [|done].
  rewrite !andb_true_iff, !bool_decide_eq_true in E. destruct E as (((Ha & Hn) & Hpw) & Hf).
  destruct (starts_with _ _); [|apply andb_true_iff in Ha as [_ Ha]]; apply official_true in Ha as (Hs & Hh & Hport); split_and!; try done; auto.
Qed.

Lemma request_nvd_ok start n from until r :
  request_nvd start n from until = Ok r ->
  request_validate r = Ok tt /\ rq_start_index r = start /\ rq_results_per_page r = Z.min n MAX_RESULTS_PER_PAGE /\
  rq_etag r = None /\ rq_last_modified r = None.
Proof.
  unfold request_nvd. destruct (window_invalid _ _); [done|]. cbv zeta. intros ([] & Hv & [= <-])%result_bind_ok. done.
Qed.

Lemma with_validators_ok r etag last r' :
  request_validate r = Ok tt -> with_validators r etag last = Ok r' ->
  request_validate r' = Ok tt /\ rq_start_index r' = rq_start_index r /\ rq_results_per_page r' = rq_results_per_page r.
Proof.
  intros Hv ([] & He & Hk)%result_bind_ok. apply result_bind_ok in Hk as ([] & Hl & [= <-]). split; [|done].
  unfold request_validate in *. cbn [rq_url rq_etag rq_last_modified rq_results_per_page rq_modified_start rq_modified_end rq_start_index].
  apply result_bind_ok in Hv as ([] & -> & Hv). apply result_bind_ok in Hv as ([] & _ & Hv). apply result_bind_ok in Hv as ([] & _ & Hv).
  rewrite He, Hl. exact Hv.
Qed.
End Requests.

(** ** The log of a world *)
Inductive Event := EGet (r : FeedRequest) (a : result FeedResponse TransportError) | ENow (t : DateTime).
Definition is_get (e : Event) : bool := match e with EGet _ _ => true | ENow _ => false end.
Definition gets (log : list Event) : Z := Z.of_nat (length (List.filter is_get log)).

Lemma gets_app l l' : gets (l ++ l') = gets l + gets l'.
Proof. unfold gets. rewrite List.filter_app, length_app. lia. Qed.
Lemma gets_nonneg l : 0 <= gets l.
Proof. unfold gets. lia. Qed.

Definition logged {W} (world : FeedWorld W) : FeedWorld (W * list Event) := {|
  transport_get r w := let (a, w') := transport_get r (fst w) in (a, (w', snd w ++ [EGet r a]));
  clock_now w := let (t, w') := clock_now (fst w) in (t, (w', snd w ++ [ENow t]))
|}.

Section Sync.
Context `{Calendar} `{AdvisoryLibs} `{NvdQuery} `{FeedLibs} {W : Type} (world : FeedWorld W).
#[local] Existing Instance logged.

Lemma logged_get r w log a w1 log1 :
  transport_get r (w, log) = (a, (w1, log1)) -> log1 = log ++ [EGet r a].
Proof. cbn. destruct (transport_get r w) as [a' w']. by intros [= <- <- <-]. Qed.
Lemma logged_now w log t w1 log1 : clock_now (w, log) = (t, (w1, log1)) -> log1 = log ++ [ENow t].
Proof. cbn. destruct (clock_now w) as [t' w']. by intros [= <- <- <-]. Qed.

(** What is served stale: an entry of the cache, with one more warning, within seven days of
    its expiry on the clock that was read last. *)
Record stale_entry (cache : option FeedResult) (r : FeedResult) (ext : list Event) : Prop := {
  se_entry : exists c e, cache = Some c /\ r = add_warning e c /\
    exists before now, ext = before ++ [ENow now] /\ now <= fr_cache_expires_at c + MAX_STALE_AGE
}.

Lemma stale_or_unavailable_ok cached e w log r w1 log1 :
  stale_or_unavailable cached e (w, log) = (r, (w1, log1)) ->
  r <> Err FFuel /\ exists ext, log1 = log ++ ext /\ gets ext = 0 /\ Forall (fun e => is_get e = false) ext /\
  forall f, r = Ok f -> stale_entry cached f ext.
Proof.
  unfold stale_or_unavailable. destruct cached as [c|].
  2:{ intros [= <- <- <-]. split; [done|]. exists []. rewrite app_nil_r. split_and!; try done; by intros. }
  destruct (checked_add_signed _ _) as [until|] eqn:Eu.
  2:{ intros [= <- <- <-]. split; [done|]. exists []. rewrite app_nil_r. split_and!; try done; by intros. }
  apply checked_add_some in Eu as [-> _].
  destruct (clock_now (w, log)) as [now [w' log']] eqn:En. apply logged_now in En as ->.
  destruct (Z.ltb_spec (fr_cache_expires_at c + MAX_STALE_AGE) now); intros [= <- <- <-]; (split; [done|]); exists [ENow now];
    split_and!; try done; try (by repeat constructor); intros f [= <-].
  split. exists c, e. split_and!; try done. exists [], now. split; [done|lia].
Qed.
(** Requests are official, one page of between one and the default number of records. *)
Definition page_request (start : Z) (e : Event) : Prop :=
  match e with
  | EGet r _ => official_request r /\ rq_start_index r = start /\ 1 <= rq_results_per_page r <= DEFAULT_NVD_RESULTS_PER_PAGE
  | ENow _ => True
  end.
Definition paging_ok (p : Paging) : Prop :=
  1 <= pg_results p <= DEFAULT_NVD_RESULTS_PER_PAGE /\ 0 <= pg_reductions p <= MAX_PAGE_SIZE_REDUCTIONS.

(** The body of a page was just sent, or the cache has it and the server says it still holds. *)
Definition page_answer (start : Z) (cache : NvdCache) (key : string) (response : FeedResponse) (e : Event) : Prop :=
  exists r a, e = EGet r (Ok a) /\ rq_start_index r = start /\
  (rs_status a = 200 /\ response = a \/
   rs_status a = 304 /\ exists c, cache !! key = Some c /\ rs_body response = rs_body (fr_response c)).

Record fetch_spec (start : Z) (p : Paging) (cache : NvdCache) (ext : list Event)
    (res : result (string * FeedResponse * Paging) (result FeedResult FeedError)) : Prop := {
  fs_requests : Forall (page_request start) ext;
  fs_outcome : match res with
    | Ok (key, response, p') =>
      paging_ok p' /\ gets ext = 1 + (pg_reductions p' - pg_reductions p) /\ Exists (page_answer start cache key response) ext
    | Err r => r <> Err FFuel /\ gets ext <= 1 + (MAX_PAGE_SIZE_REDUCTIONS - pg_reductions p) /\
               (forall f, r = Ok f -> exists key, stale_entry (cache !! key) f ext)
    end
}.

(** A fetch that ends with what the cache still has. *)
Lemma fetch_stale start p cache key e log w1 log1 r ev res w2 log2 :
  paging_ok p -> page_request start ev -> is_get ev = true -> log1 = log ++ [ev] ->
  stale_or_unavailable (cache !! key) e (w1, log1) = (r, (w2, log2)) -> res = Err r ->
  exists ext, log2 = log ++ ext /\ fetch_spec start p cache ext res.
Proof.
  intros [_ Hp] Hev Hget -> (Hne & ext & -> & Hg & Hn & Hok)%stale_or_unavailable_ok ->. exists (ev :: ext).
  rewrite <- app_assoc. split; [done|].
  assert (gets (ev :: ext) = 1) as Hone by (change (ev :: ext) with ([ev] ++ ext); rewrite gets_app; unfold gets at 1; cbn; rewrite Hget; cbn; lia).
  split; [|split_and!; [done|lia|]].
  - constructor; [done|]. eapply Forall_impl; [exact Hn|]. intros [r' a|t] Ht; [discriminate Ht|exact Logic.I].
  - intros f Hf. exists key. destruct (Hok f Hf) as [(c & e' & Hc & -> & before & now & -> & Hnow)]. split.
    exists c, e'. split_and!; try done. by exists (ev :: before), now.
Qed.

(** A fetch that ends at once. *)
Lemma fetch_fails start p cache ext r :
  paging_ok p -> Forall (page_request start) ext -> gets ext <= 1 -> r <> Err FFuel -> (forall f, r <> Ok f) ->
  fetch_spec start p cache ext (Err r).
Proof. intros [_ Hp] Hext Hg Hne Hok. split; [done|]. split_and!; [done|lia|]. intros f Hf. by destruct (Hok f). Qed.

(** A retry after one request adds to what the rest did. *)
Lemma fetch_retry start p p' cache ev ext res :
  page_request start ev -> is_get ev = true -> pg_reductions p' = pg_reductions p + 1 ->
  fetch_spec start p' cache ext res -> fetch_spec start p cache (ev :: ext) res.
Proof.
  intros Hev Hget Hr [Hreq Hout].
  assert (gets (ev :: ext) = 1 + gets ext) as Hone by (unfold gets; cbn [List.filter]; rewrite Hget; cbn [length]; lia).
  split; [by constructor|]. destruct res as [[[key response] p1]|r].
  - destruct Hout as (Hp & Hg & Hex). split_and!; [done|lia|by right].
  - destruct Hout as (Hne & Hg & Hok). split_and!; [done|lia|]. intros f Hf. destruct (Hok f Hf) as [key [(c & e & Hc & -> & before & now & -> & Hnow)]].
    exists key. split. exists c, e. split_and!; try done. by exists (ev :: before), now.
Qed.

Ltac events := repeat (apply Forall_cons_2; [done|]); apply Forall_nil_2.

Lemma fetch_page_ok fuel window start p cache w log res w1 log1 :
  paging_ok p -> MAX_PAGE_SIZE_REDUCTIONS - pg_reductions p < Z.of_nat fuel ->
  fetch_page fuel window start p cache (w, log) = (res, (w1, log1)) ->
  exists ext, log1 = log ++ ext /\ fetch_spec start p cache ext res.
Proof.
  revert p w log. induction fuel as [|fuel IH]; intros p w log Hp Hf; [destruct Hp; lia|]. cbn [fetch_page].
  destruct (request_nvd _ _ _ _) as [uncached|e] eqn:Eu.
  2:{ intros [= <- <- <-]. exists []. rewrite app_nil_r. split; [done|]. apply fetch_fails; [done|apply Forall_nil_2|unfold gets; cbn; lia|done|done]. }
  apply request_nvd_ok in Eu as (Hv & Hstart & Hsize & _ & _).
  destruct (match cache !! rq_url uncached with Some _ => _ | None => _ end) as [request|e] eqn:Er.
  2:{ intros [= <- <- <-]. exists []. rewrite app_nil_r. split; [done|]. apply fetch_fails; [done|apply Forall_nil_2|unfold gets; cbn; lia|done|done]. }
  assert (request_validate request = Ok tt /\ rq_start_index request = start /\ rq_results_per_page request = pg_results p) as (Hv' & Hs' & Hr').
  { assert (rq_results_per_page uncached = pg_results p) as <- by (rewrite Hsize; destruct Hp as [Hp _]; unfold DEFAULT_NVD_RESULTS_PER_PAGE, MAX_RESULTS_PER_PAGE in *; lia).
    destruct (cache !! rq_url uncached); [|injection Er as ->; done]. apply (with_validators_ok _ _ _ _ Hv) in Er as (? & ? & ?). split_and!; congruence. }
  destruct (transport_get request (w, log)) as [answer [w' log']] eqn:Eg. apply logged_get in Eg as ->.
  assert (page_request start (EGet request answer)) as Hev.
  { split_and!; [by apply validated_is_official|done|..]; rewrite Hr'; apply Hp. }
  destruct answer as [response|error].
  - destruct (Z.eqb_spec (rs_status response) 304) as [H304|H304].
    + destruct (cache !! rq_url uncached) as [c|] eqn:Ec.
      2:{ intros [= <- <- <-]. exists [EGet request (Ok response)]. split; [done|]. apply fetch_fails; [done|events|unfold gets; cbn; lia|done|done]. }
      destruct (clock_now (w', _)) as [now [w'' log'']] eqn:En. apply logged_now in En as ->. rewrite <- app_assoc. cbn [app].
      destruct (_ <? _); intros [= <- <- <-]; exists [EGet request (Ok response); ENow now]; (split; [done|]).
      * apply fetch_fails; [done|events|unfold gets; cbn; lia|done|done].
      * split; [events|]. split_and!; [done|unfold gets; cbn; lia|]. left. exists request, response. split_and!; try done. right. split; [done|].
        exists c. split; [exact Ec|done].
    + destruct (Z.eqb_spec (rs_status response) 200) as [H200|H200].
      * intros [= <- <- <-]. exists [EGet request (Ok response)]. split; [done|]. split; [events|].
        split_and!; [done|unfold gets; cbn; lia|]. left. exists request, response. split_and!; try done. by left.
      * destruct (stale_or_unavailable _ _ _) as [r [w2 log2]] eqn:Es. intros [= <- <- <-]. by eapply fetch_stale.
  - assert ((let (r, w) := stale_or_unavailable (cache !! rq_url uncached) error (w', log ++ [EGet request (Err error)]) in (Err r, w)) = (res, (w1, log1)) ->
      exists ext, log1 = log ++ ext /\ fetch_spec start p cache ext res) as Hstale.
    { destruct (stale_or_unavailable _ _ _) as [r [w2 log2]] eqn:Es. intros [= <- <- <-]. by eapply fetch_stale. }
    destruct error; try exact Hstale. destruct (cache !! rq_url uncached); [exact Hstale|].
    destruct (_ && _) eqn:Hred; [|exact Hstale]. intros Hk. rewrite andb_true_iff in Hred. bprop. apply IH in Hk as (ext & -> & Hspec).
    + exists (EGet request (Err TOversized) :: ext). rewrite <- app_assoc. split; [done|]. refine (fetch_retry _ _ _ _ _ _ _ Hev eq_refl _ Hspec). done.
    + destruct Hp as [Hp Hp']. split; cbn [pg_results pg_reductions]; [|lia]. split; [lia|]. apply Z.max_lub; [apply Z.div_le_upper_bound; lia|lia].
    + cbn [pg_reductions]. lia.
Qed.

(** ** Pages *)
(** Pages from [start] on that reach their total with the last one: none before it is empty. *)
Fixpoint tiling (start : Z) (pages : list NvdPage) : Prop :=
  match pages with
  | [] => False
  | page :: later =>
    np_start page = start /\ page_len page <= np_size page <= MAX_RESULTS_PER_PAGE /\
    match later with
    | [] => start + page_len page = np_total page
    | _ => 0 < page_len page /\ start + page_len page < np_total page /\ tiling (start + page_len page) later
    end
  end.

(** The body is an answer of this synchronisation or was in the cache when it began. *)
Definition origin (cache0 : NvdCache) (log : list Event) (body : string) : Prop :=
  (exists key c, cache0 !! key = Some c /\ rs_body (fr_response c) = body) \/
  (exists r a, In (EGet r (Ok a)) log /\ rs_status a = 200 /\ rs_body a = body).

(** A page was asked for by its start, and its body was sent or confirmed. *)
Definition served (cache0 : NvdCache) (log : list Event) (page : NvdPage) : Prop :=
  exists r a body, In (EGet r (Ok a)) log /\ rq_start_index r = np_start page /\ parse_page body = Ok page /\
  (rs_status a = 200 /\ rs_body a = body \/ rs_status a = 304 /\ origin cache0 log body).

Lemma origin_mono cache0 log ext body : origin cache0 log body -> origin cache0 (log ++ ext) body.
Proof. intros [Hc|(r & a & Hin & Ha)]; [by left|right]. exists r, a. split; [apply in_or_app; by left|done]. Qed.

Lemma check_page_ok start all page next :
  check_page start all page = Ok next ->
  np_start page = start /\ page_len page <= np_size page <= MAX_RESULTS_PER_PAGE /\ next = start + page_len page /\
  next <= np_total page /\ (Z.of_nat (length all) <= MAX_AGGREGATE_RECORDS -> Z.of_nat (length all) + page_len page <= MAX_AGGREGATE_RECORDS).
Proof.
  unfold check_page. destruct (negb _ || _ || _ || _) eqn:E; [done|]. rewrite !orb_false_iff, negb_false_iff in E. bprop.
  intros (n & Hn & Hk)%result_bind_ok. destruct (checked_add_u64 _ _) as [n'|] eqn:Ea; [injection Hn as ->|done].
  apply checked_add_u64_some in Ea as [-> _]. destruct (Z.ltb_spec (np_total page) (start + page_len page)); [done|].
  destruct (Z.ltb_spec (saturating_sub_u64 MAX_AGGREGATE_RECORDS (Z.of_nat (length all))) (page_len page)); [done|]. injection Hk as <-.
  unfold saturating_sub_u64 in *. split_and!; try done; lia.
Qed.

Definition cache_known (cache0 cache : NvdCache) (log : list Event) : Prop :=
  forall key c, cache !! key = Some c -> origin cache0 log (rs_body (fr_response c)).

Lemma page_answer_served cache0 cache key response start log ext page :
  cache_known cache0 cache log -> Exists (page_answer start cache key response) ext ->
  parse_page (rs_body response) = Ok page -> np_start page = start ->
  served cache0 (log ++ ext) page /\ origin cache0 (log ++ ext) (rs_body response).
Proof.
  intros Hk Hex Hp Hs. apply Exists_exists in Hex as (e & Hin%list_elem_of_In & r & a & -> & Hr & Ha).
  assert (In (EGet r (Ok a)) (log ++ ext)) as Hin' by (apply in_or_app; by right).
  assert (origin cache0 (log ++ ext) (rs_body response)) as Ho.
  { destruct Ha as [[H200 ->]|[_ (c & Hc & ->)]]; [right; by exists r, a|]. apply origin_mono. by eapply Hk. }
  split; [|done]. exists r, a, (rs_body response). split_and!; [done|congruence|done|].
  destruct Ha as [[H200 ->]|[H304 _]]; [by left|by right].
Qed.

Definition sync_request (e : Event) : Prop := exists start, 0 <= start <= MAX_AGGREGATE_RECORDS /\ page_request start e.

(** The answer is complete, or it is stale. *)
Definition complete (cache0 : NvdCache) (log : list Event) (pages : nat) (start : Z) (all : list Json) (r : FeedResult) : Prop :=
  fr_warnings r = [] /\ Z.of_nat (length (fr_records r)) <= MAX_AGGREGATE_RECORDS /\
  exists tiles, fr_records r = all ++ concat (map np_records tiles) /\ tiling start tiles /\
    Forall (served cache0 log) tiles /\ (length tiles <= pages)%nat.

Record sync_spec (cache0 : NvdCache) (pages : nat) (start : Z) (all : list Json) (reductions : Z) (log ext : list Event)
    (res : result FeedResult FeedError) (cache' : NvdCache) : Prop := {
  ss_requests : Forall sync_request ext;
  ss_gets : gets ext <= Z.of_nat pages + (MAX_PAGE_SIZE_REDUCTIONS - reductions);
  ss_fuel : res <> Err FFuel;
  ss_result : forall r, res = Ok r ->
    (exists key, stale_entry (cache' !! key) r ext) \/ complete cache0 (log ++ ext) pages start all r
}.

(** What a page and the reading of the clock after it add in front. *)
Lemma sync_spec_step cache0 pages start all p p' log ext1 page ext2 res cache' :
  Forall sync_request ext1 -> gets ext1 = 1 + (pg_reductions p' - pg_reductions p) ->
  np_start page = start -> page_len page <= np_size page <= MAX_RESULTS_PER_PAGE -> 0 < page_len page -> start + page_len page < np_total page ->
  served cache0 (log ++ ext1) page ->
  sync_spec cache0 pages (start + page_len page) (all ++ np_records page) (pg_reductions p') (log ++ ext1) ext2 res cache' ->
  sync_spec cache0 (S pages) start all (pg_reductions p) log (ext1 ++ ext2) res cache'.
Proof.
  intros Hreq Hg Hstart Hsize Hlen Htot Hserved [Hreq2 Hg2 Hf2 Hr2]. split.
  - by apply Forall_app.
  - rewrite gets_app. lia.
  - done.
  - intros r Hr. destruct (Hr2 r Hr) as [[key [(c & e & Hc & -> & before & now & -> & Hnow)]]|(Hw & Hl & tiles & Hrec & Ht & Hs & Hn)].
    + left. exists key. split. exists c, e. split_and!; try done. exists (ext1 ++ before), now. by rewrite app_assoc.
    + right. rewrite <- app_assoc in Hs. split_and!; [done|done|]. exists (page :: tiles). cbn [map concat]. split_and!.
      * rewrite Hrec. by rewrite app_assoc.
      * cbn [tiling]. split_and!; [done|lia|lia|]. destruct tiles; [done|by split_and!].
      * constructor; [|done]. destruct Hserved as (q & a & body & Hin & Hq & Hp & Hor). exists q, a, body. rewrite app_assoc.
        split_and!; [apply in_or_app; by left|done|done|]. destruct Hor as [Hor|[Hst Ho]]; [by left|right; split; [done|by apply origin_mono]].
      * cbn [length]. lia.
Qed.

Lemma sync_fails cache0 pages start all reductions log ext e cache' :
  Forall sync_request ext -> gets ext <= Z.of_nat pages + (MAX_PAGE_SIZE_REDUCTIONS - reductions) -> e <> FFuel ->
  sync_spec cache0 pages start all reductions log ext (Err e) cache'.
Proof. intros Hreq Hg He. by split; [| |intros [= ->]|]. Qed.

Lemma sync_last cache0 pages start all reductions log ext page response expiry cache' :
  Forall sync_request ext -> gets ext <= Z.of_nat (S pages) + (MAX_PAGE_SIZE_REDUCTIONS - reductions) ->
  np_start page = start -> page_len page <= np_size page <= MAX_RESULTS_PER_PAGE -> start + page_len page = np_total page ->
  Z.of_nat (length all) + page_len page <= MAX_AGGREGATE_RECORDS -> served cache0 (log ++ ext) page ->
  sync_spec cache0 (S pages) start all reductions log ext (Ok (nvd_result (all ++ np_records page) response expiry)) cache'.
Proof.
  intros Hreq Hg Hs Hsize Htot Hmax Hserved. split; [done|done|done|]. intros r [= <-]. right.
  split_and!; [done|cbn [nvd_result fr_records]; rewrite length_app; unfold page_len in Hmax; lia|].
  exists [page]. cbn [nvd_result fr_records map concat tiling length]. rewrite app_nil_r. split_and!; try done; try lia. by constructor.
Qed.

Lemma sync_pages_ok cache0 pages window start all first p cache w log res cache' w' log' :
  paging_ok p -> start = Z.of_nat (length all) -> start <= MAX_AGGREGATE_RECORDS -> cache_known cache0 cache log ->
  sync_pages pages window start all first p cache (w, log) = (res, cache', (w', log')) ->
  exists ext, log' = log ++ ext /\ sync_spec cache0 pages start all (pg_reductions p) log ext res cache'.
Proof.
  revert start all first p cache w log. induction pages as [|pages IH]; intros start all first p cache w log Hp Hstart Hmax Hknown; cbn [sync_pages].
  { intros [= <- <- <- <-]. exists []. rewrite app_nil_r. split; [done|]. apply sync_fails; [apply Forall_nil_2|destruct Hp; unfold gets; cbn; lia|done]. }
  destruct (fetch_page _ _ _ _ _ _) as [fetched [w1 log1]] eqn:Ef.
  apply fetch_page_ok in Ef as (ext1 & -> & Hreq & Hout); [|done|destruct Hp; unfold MAX_PAGE_SIZE_REDUCTIONS in *; lia].
  assert (Forall sync_request ext1) as Hreq1 by (eapply Forall_impl; [exact Hreq|]; intros e He; exists start; split; [lia|done]).
  destruct fetched as [[[key response] p']|r].
  2:{ destruct Hout as (Hne & Hg & Hok). intros [= <- <- <- <-]. exists ext1. split; [done|]. split; [done|lia|done|]. intros r' Hr'. left. by apply Hok. }
  destruct Hout as (Hp' & Hg & Hex).
  destruct (parse_page (rs_body response)) as [page|e] eqn:Epage.
  2:{ destruct (stale_or_unavailable _ _ _) as [r [w2 log2]] eqn:Es. apply stale_or_unavailable_ok in Es as (Hne & ext2 & -> & Hg2 & Hn2 & Hok).
      intros [= <- <- <- <-]. exists (ext1 ++ ext2). rewrite app_assoc. split; [done|]. split; [|rewrite gets_app; destruct Hp'; lia|done|].
      - apply Forall_app. split; [done|]. eapply Forall_impl; [exact Hn2|]. intros [q a|t] Ht; [done|]. exists start. split; [lia|done].
      - intros r' Hr'. left. exists key. destruct (Hok r' Hr') as [(c & e' & Hc & -> & before & now & -> & Hnow)]. split. exists c, e'.
        split_and!; try done. exists (ext1 ++ before), now. by rewrite app_assoc. }
  destruct (check_page start all page) as [next|e] eqn:Echeck.
  2:{ intros [= <- <- <- <-]. exists ext1. split; [done|]. apply sync_fails; [done|destruct Hp'; lia|].
      intros ->. unfold check_page, checked_add_u64, ok_or in Echeck. repeat (case_match; try discriminate Echeck; cbn [result_bind] in Echeck). }
  apply check_page_ok in Echeck as (Hs & Hsize & -> & Htot & Hagg). specialize (Hagg ltac:(lia)).
  destruct (clock_now (w1, log ++ ext1)) as [now [w2 log2]] eqn:En. apply logged_now in En as ->. rewrite <- app_assoc.
  destruct (page_answer_served cache0 cache key response start log ext1 page Hknown Hex Epage Hs) as [Hserved Horigin].
  assert (Forall sync_request (ext1 ++ [ENow now])) as Hreq2 by (apply Forall_app; split; [done|]; apply Forall_singleton; exists start; split; [lia|done]).
  assert (gets (ext1 ++ [ENow now]) = 1 + (pg_reductions p' - pg_reductions p)) as Hg2 by (rewrite gets_app; unfold gets at 2; cbn; lia).
  assert (gets (ext1 ++ [ENow now]) <= Z.of_nat (S pages) + (MAX_PAGE_SIZE_REDUCTIONS - pg_reductions p)) as Hg3 by (destruct Hp'; lia).
  assert (served cache0 (log ++ ext1 ++ [ENow now]) page) as Hserved'.
  { destruct Hserved as (q & a & body & Hin & Hq & Hb & Hor). rewrite app_assoc. exists q, a, body.
    split_and!; [apply in_or_app; by left|done|done|]. destruct Hor as [Hor|[Hst Ho]]; [by left|right; split; [done|by apply origin_mono]]. }
  destruct (checked_add_signed now CACHE_TTL) as [expiry|].
  2:{ intros [= <- <- <- <-]. eexists. split; [done|]. by apply sync_fails. }
  destruct (Z.eqb_spec (start + page_len page) (np_total page)) as [Heq|Hneq].
  { intros [= <- <- <- <-]. eexists. split; [done|]. eapply sync_last; eauto; lia. }
  destruct (Z.leb_spec (start + page_len page) start), (Z.ltb_spec (np_total page) (start + page_len page)); cbn [orb];
    try (intros [= <- <- <- <-]; eexists; split; [done|]; by apply sync_fails).
  destruct (Nat.eqb pages 0); [intros [= <- <- <- <-]; eexists; split; [done|]; by apply sync_fails|].
  intros Hk. apply IH in Hk as (ext2 & -> & Hspec); [|done|rewrite length_app; unfold page_len; lia|lia|].
  - exists ((ext1 ++ [ENow now]) ++ ext2). rewrite !app_assoc. split; [done|]. eapply (sync_spec_step _ _ _ _ p p'); eauto; lia.
  - intros key' c Hc. rewrite app_assoc. apply lookup_insert_Some in Hc as [[_ <-]|[_ Hc]]; [by apply origin_mono|].
    do 2 apply origin_mono. by eapply Hknown.
Qed.

Lemma nvd_sync_ok window cache w res cache' w' log :
  nvd_sync window cache (w, []) = (res, cache', (w', log)) -> sync_spec cache MAX_PAGES 0 [] 0 [] log res cache'.
Proof.
  intros Hs. apply (sync_pages_ok cache) in Hs as (ext & -> & Hspec); [done| | | |].
  - unfold paging_ok, MAX_PAGE_SIZE_REDUCTIONS, DEFAULT_NVD_RESULTS_PER_PAGE. cbn. lia.
  - done.
  - unfold MAX_AGGREGATE_RECORDS. lia.
  - intros key c Hc. left. by exists key, c.
Qed.

(** A synchronisation is bounded: whatever the network answers, it ends without running out
    of fuel after at most one request per page and one per halving of the page size, 138 in
    all; each goes over HTTPS without credentials to an official address, asks for between one
    and the default number of records, and starts within the aggregate bound. *)
Theorem nvd_sync_is_bounded window cache w :
  let '(res, _, (_, log)) := nvd_sync window cache (w, []) in
  res <> Err FFuel /\ gets log <= 138 /\ Forall sync_request log.
Proof.
  destruct (nvd_sync window cache (w, [])) as [[res cache'] [w' log]] eqn:E. apply nvd_sync_ok in E as [Hreq Hg Hf _].
  split_and!; [done| |done]. unfold MAX_PAGES, MAX_PAGE_SIZE_REDUCTIONS in Hg. lia.
Qed.

(** C13. A result without warning is the whole answer: its records are those of at most 128
    pages, each asked for at the position where the one before it ended and sent or confirmed
    by the server, and the last one ends at the total that it states; no record is lost or
    repeated and the aggregate bound holds. A result with a warning is one cached entry, read
    within seven days of its expiry. *)
Theorem nvd_sync_is_complete_or_stale window cache w r cache' w' log :
  nvd_sync window cache (w, []) = (Ok r, cache', (w', log)) ->
  (is_stale r = false ->
     Z.of_nat (length (fr_records r)) <= MAX_AGGREGATE_RECORDS /\
     exists pages, fr_records r = concat (map np_records pages) /\ tiling 0 pages /\ Forall (served cache log) pages /\
       (length pages <= MAX_PAGES)%nat) /\
  (is_stale r = true -> exists key, stale_entry (cache' !! key) r log).
Proof.
  intros [_ _ _ Hr]%nvd_sync_ok. destruct (Hr r eq_refl) as [Hstale|(Hw & Hl & tiles & Hrec & Ht & Hs & Hn)].
  - split; [|done]. destruct Hstale as [key [(c & e & _ & -> & _)]]. unfold is_stale, add_warning. cbn [fr_warnings].
    by destruct (fr_warnings c).
  - unfold is_stale. rewrite Hw. split; [|done]. intros _. split; [done|]. by exists tiles.
Qed.

(** ** Known exploited vulnerabilities *)
(** An entry is the document it came from. *)
Record kev_entry_ok (r : FeedResult) : Prop := {
  ke_records : kev_records (rs_body (fr_response r)) = Some (fr_records r);
  ke_source : fr_source_url r = KEV_URL;
  ke_bound : Z.of_nat (length (fr_records r)) <= MAX_AGGREGATE_RECORDS;
  ke_warnings : fr_warnings r = []
}.

(** The cache of exploited vulnerabilities stays true to the documents: a synchronisation
    that starts from no entry or a sound one keeps it sound, returns a fresh result only for
    the document it holds, returns a stale one only within seven days of its expiry, and
    changes nothing when it fails. *)
Theorem kev_sync_keeps_documents cache w :
  (forall c, cache = Some c -> kev_entry_ok c) ->
  let '(res, cache', (_, log)) := kev_sync cache (w, []) in
  (forall c, cache' = Some c -> kev_entry_ok c) /\
  match res with
  | Ok r => if is_stale r then cache' = cache /\ stale_entry cache r log else cache' = Some r
  | Err _ => cache' = cache
  end.
Proof.
  intros Hc. unfold kev_sync. destruct (with_validators _ _ _) as [request|e]; [|done].
  destruct (transport_get request (w, [])) as [answer [w1 log1]] eqn:Eg. apply logged_get in Eg as ->.
  assert (forall e, let '(res, cache', (_, log)) := kev_stale cache e (w1, [] ++ [EGet request answer]) in
    (forall c, cache' = Some c -> kev_entry_ok c) /\
    match res with Ok r => if is_stale r then cache' = cache /\ stale_entry cache r log else cache' = Some r | Err _ => cache' = cache end) as Hstale.
  { intros e. unfold kev_stale. destruct (stale_or_unavailable _ _ _) as [r [w2 log2]] eqn:Es.
    apply stale_or_unavailable_ok in Es as (_ & ext & -> & _ & _ & Hok). split; [done|]. destruct r as [r|]; [|done].
    destruct (Hok r eq_refl) as [(c & e' & -> & -> & before & now & -> & Hnow)]. replace (is_stale (add_warning e' c)) with true by (unfold is_stale, add_warning; cbn; by destruct (fr_warnings c)).
    split; [done|]. split. exists c, e'. split_and!; try done. exists (EGet request answer :: before), now. done. }
  destruct answer as [response|e]; [|apply Hstale]. destruct (_ =? 304).
  - unfold kev_not_modified. destruct cache as [c|]; [|done]. specialize (Hc c eq_refl).
    destruct (clock_now (w1, _)) as [now [w2 log2]]. destruct (_ <? _); [by split; [intros ? [= <-]|]|].
    destruct (clock_now (w2, _)) as [now' [w3 log3]]. destruct (checked_add_signed _ _) as [expiry|]; [|by split; [intros ? [= <-]|]].
    unfold is_stale. cbn [fr_warnings]. destruct Hc as [Hr Hs Hb Hw]. rewrite Hw. split; [|done]. intros ? [= <-]. by split.
  - destruct (_ =? 200); [|apply Hstale]. destruct (kev_records _) as [records|] eqn:Ek; [|apply Hstale].
    destruct (Z.ltb_spec MAX_AGGREGATE_RECORDS (Z.of_nat (length records))); [done|].
    destruct (clock_now (w1, _)) as [now [w2 log2]]. destruct (checked_add_signed _ _) as [expiry|]; [|done].
    cbn [is_stale fr_warnings]. split; [|done]. intros ? [= <-]. by split.
Qed.
End Sync.

(** ** The HTTP answer *)
(** What the transport hands on is bounded: an accepted answer belongs to an official
    request, is a 304 without body or a success whose body is not empty and within the byte
    limit, whatever length the server announced, and carries only short and printable
    validators. *)
Theorem accepted_answer_is_bounded `{AdvisoryLibs} `{NvdQuery} from_utf8 request answer now response :
  (forall b s, from_utf8 b = Some s -> str_bytes s = b) ->
  production_get from_utf8 request answer now = Ok response ->
  official_request request /\
  (rs_status response = 304 /\ rs_body response = EmptyString \/
   200 <= rs_status response < 300 /\ 0 < str_len (rs_body response) <= MAX_RESPONSE_BYTES) /\
  validate_validator (rs_etag response) = Ok tt /\ validate_validator (rs_last_modified response) = Ok tt.
Proof.
  intros Hutf8 ([] & Hv & Hk)%result_bind_ok. apply result_bind_ok in Hk as (a & _ & Hk). apply result_bind_ok in Hk as (etag & He & Hk).
  apply result_bind_ok in Hk as (last & Hl & Hk). split; [by apply validated_is_official|].
  assert (forall h v, header h = Ok v -> validate_validator v = Ok tt) as Hheader.
  { intros h v (v' & _ & Hh)%result_bind_ok. apply result_bind_ok in Hh as ([] & Hh & [= <-]). done. }
  apply Hheader in He, Hl. destruct (Z.eqb_spec (ha_status a) 304); [injection Hk as <-; split_and!; try done; by left|].
  destruct (negb _) eqn:Es; [done|]. rewrite negb_false_iff, andb_true_iff in Es. bprop. destruct (is_some_and _ _); [done|]. destruct (negb _); [done|].
  apply result_bind_ok in Hk as (bytes_ & Hb & Hk). destruct (Nat.eqb_spec (length bytes_) 0); [done|].
  apply result_bind_ok in Hk as (body & Hbody & [= <-]). cbn [rs_status rs_body rs_etag rs_last_modified].
  split_and!; [|done|done]. right. split; [lia|]. destruct (from_utf8 bytes_) as [s|] eqn:Eu; [injection Hbody as ->|done].
  apply Hutf8 in Eu. assert (str_len body = Z.of_nat (length bytes_)) as ->.
  { rewrite <- Eu. by rewrite length_str_bytes. }
  split; [lia|]. assert (forall l b, Z.of_nat (length b) <= MAX_RESPONSE_BYTES -> read_chunks b l = Ok bytes_ -> Z.of_nat (length bytes_) <= MAX_RESPONSE_BYTES) as Hread.
  { induction l as [|[c|] l IH]; intros b Hlen; cbn [read_chunks]; [by intros [= <-]| |done].
    destruct (Z.ltb_spec MAX_RESPONSE_BYTES (Z.of_nat (length b) + Z.of_nat (length c))); [done|]. apply IH. rewrite length_app. lia. }
  refine (Hread _ _ _ Hb). unfold MAX_RESPONSE_BYTES. cbn. lia.
Qed.
