(* ===== verification/AdvisoryWitness.v ===== *)
(** * Security advisories at concrete advisories *)

From stdpp Require Import pretty.
From S2P Require Import Prelude Time Text F64 Order Bytes AuditLogTheorems Net WasmBrokerProps Advisory AdvisoryProps AdvisoryParse AdvisoryNvd AdvisoryParseProps AdvisoryFeed AdvisoryFeedProps.

#[local] Existing Instance toy_sha256.

(** A parser that takes apart nothing but the scheme, and a text made of the identifier. *)
Definition toy_advisory_libs : AdvisoryLibs := {|
  url_parse s :=
    if String.prefix "https://" s
    then Some {| url_scheme := "https"; url_host := Some "vendor.example"%string; url_port := None; url_path := "/";
                 url_username := ""; url_password := None; url_fragment := None |}
    else None;
  input_json i := Some (str_bytes (ai_source_id i) ++ str_bytes (ai_vendor i))
|}.
#[local] Existing Instance toy_advisory_libs.

Definition camera_advisory (severity : Severity) : AdvisoryInput := {|
  ai_source := Nvd; ai_source_id := "CVE-2026-0001"; ai_source_url := "https://vendor.example/a"; ai_title := "camera";
  ai_vendor := "Acme"; ai_model := Some "Cam-1"%string; ai_firmware := Exact_ "1.2"; ai_published_at := 10;
  ai_modified_at := 20; ai_retrieved_at := 30; ai_cache_expires_at := 40; ai_freshness := Fresh;
  ai_source_trust := OfficialApi; ai_severity := severity; ai_exploitability := ExpUnknown;
  ai_exposure := ExposureUnknown; ai_confidence := CMedium; ai_remediation := Upgrade |}.

Definition normalized (i : AdvisoryInput) : NormalizedAdvisory := {|
  na_input := i; na_provenance_sha256 := hex_text (sha256 (str_bytes (ai_source_id i) ++ str_bytes (ai_vendor i))) |}.

Lemma camera_normalized severity : advisory_new (camera_advisory severity) = Ok (normalized (camera_advisory severity)).
Proof. reflexivity. Qed.

Definition camera : DeviceIdentity := {|
  di_vendor := "ACME"; di_model := Some "cam-1"%string; di_firmware := Some "1.2"%string;
  di_contradictory_high_confidence := false |}.

(** The camera is affected; with other firmware the advisory is contradicted. *)
Example camera_labels :
  mt_label (match_advisory (Some camera) (normalized (camera_advisory SevHigh))) = LExact /\
  mt_label (match_advisory (Some {| di_vendor := "ACME"; di_model := None; di_firmware := Some "1.3"%string;
    di_contradictory_high_confidence := false |}) (normalized (camera_advisory SevHigh))) = LContradicted.
Proof. vm_compute. auto. Qed.

Lemma normalized_advisory_is_stable_witness :
  advisory_deserialize (na_input (normalized (camera_advisory SevHigh))) (na_provenance_sha256 (normalized (camera_advisory SevHigh))) =
    Ok (normalized (camera_advisory SevHigh)).
Proof.
  exact (proj1 (normalized_advisory_is_stable (camera_advisory SevHigh) (normalized (camera_advisory SevHigh)) None EmptyString
                  (camera_normalized SevHigh))).
Defined.

Definition low_and_none : list NormalizedAdvisory := [normalized (camera_advisory SevLow); normalized (camera_advisory SevNone)].
Definition risk_of (s : Severity) : RiskDimensions := {|
  rd_severity := s; rd_exploitability := ExpUnknown; rd_exposure := ExposureUnknown; rd_confidence := CLow;
  rd_remediation := Upgrade |}.

Lemma composed_risk_is_worst_case_witness : rank_severity SevLow = top rank_severity ai_severity low_and_none.
Proof.
  exact (proj1 (composed_risk_is_worst_case low_and_none None (risk_of SevLow) (rev low_and_none) (risk_of SevNone)
                  eq_refl (Permutation_rev low_and_none) eq_refl)).
Defined.

(** The composed risk depends on the order of the advisories: a low severity and an explicit
    none have the same rank, so whichever comes first is reported, and a group with a
    low-severity advisory is reported with severity none. *)
Theorem composed_risk_depends_on_order :
  compose_risk low_and_none None = Ok (risk_of SevLow) /\ compose_risk (rev low_and_none) None = Ok (risk_of SevNone).
Proof. split; reflexivity. Qed.

(** ** The feeds *)
(** A configuration of two nodes, one below the other, each with one match. *)
Definition leaf : Json := JObject [("cpeMatch"%string, JArray [JString "b"])].
Definition configuration : Json :=
  JArray [JObject [("cpeMatch"%string, JArray [JString "a"]); ("children"%string, JArray [leaf])]; leaf].
Definition record_match (m : Json) (s : list Json) : result (list Json) NvdParseError := Ok (s ++ [m]).

Lemma nvd_traversal_is_preorder_witness :
  visit_nodes_iterative record_match (Some configuration) 0 [] = visit_forest record_match (Some configuration) 0 [] /\
  visit_forest record_match (Some configuration) 0 [] = Ok (3, [JString "a"; JString "b"; JString "b"]).
Proof.
  split; [|reflexivity].
  exact (proj1 (nvd_traversal_is_preorder record_match (Some configuration) 0 [] (conj (Z.le_refl 0) (Pos2Z.is_nonneg 8192)))).
Defined.

#[local] Existing Instance toy_ed25519.

(** A document with one advisory; the key is the number of its bytes and the signature is the
    one that the toy scheme makes over the body. *)
Definition vendor_body : string := "document".
Definition signed_entry : VendorAdvisory := {|
  va_id := "ACME-1"; va_title := "camera"; va_vendor := "Acme"; va_model := Some "Cam-1"%string; va_version := "1.2";
  va_published_at := 10; va_modified_at := 20; va_severity := VsHigh; va_remediation := VrUpgrade |}.
Definition toy_feed_libs : FeedLibs := {|
  json_from_str s := None;
  vendor_document s := Some {| vd_schema_id := VENDOR_SCHEMA_ID; vd_advisories := [signed_entry] |};
  parse_time s := None;
  parse_date s := None;
  base64_url_decode s := Some (toy_sign 2 (SIGNING_PREFIX ++ str_bytes vendor_body));
  key_from_bytes b := Some (Z.of_nat (length b))
|}.
#[local] Existing Instance toy_feed_libs.

Definition vendor_url : string := "https://vendor.example/advisories".
Definition vendor_source : VendorSource := source_signed vendor_url "key-1" [1; 2].
Definition vendor_signature : VendorSignature := {|
  vg_key_id := "key-1"; vg_encoded := string_of_list_ascii (repeat "A"%char 86) |}.
Definition vendor_advisory : NormalizedAdvisory := {|
  na_input := {|
    ai_source := Vendor; ai_source_id := "ACME-1"; ai_source_url := vendor_url; ai_title := "camera"; ai_vendor := "Acme";
    ai_model := Some "Cam-1"%string; ai_firmware := Exact_ "1.2"; ai_published_at := 10; ai_modified_at := 20;
    ai_retrieved_at := 30; ai_cache_expires_at := 40; ai_freshness := Fresh; ai_source_trust := VerifiedSignature;
    ai_severity := SevHigh; ai_exploitability := ExpUnknown; ai_exposure := ExposureUnknown; ai_confidence := CHigh;
    ai_remediation := Upgrade |};
  na_provenance_sha256 := hex_text (sha256 (str_bytes "ACME-1" ++ str_bytes "Acme")) |}.

Lemma vendor_parsed :
  parse_vendor vendor_body vendor_url (Some vendor_signature) 30 40 (registry_new [vendor_source]) = Ok [vendor_advisory].
Proof. vm_compute. reflexivity. Qed.

Lemma exact_vendor_match_is_signed_witness :
  mt_label (match_advisory (Some camera) vendor_advisory) = LExact /\
  exists s source, Some vendor_signature = Some s /\ signed_by [vendor_source] vendor_url 30 vendor_body s source.
Proof.
  split; [reflexivity|].
  exact (proj1 (exact_vendor_match_is_signed vendor_body vendor_url (Some vendor_signature) 30 40 [vendor_source] [vendor_advisory]
                  vendor_advisory camera vendor_parsed (or_introl eq_refl)) eq_refl).
Defined.

(** ** Security advisories: synchronisations at concrete fixtures *)

#[local] Existing Instance toy_ed25519.

(** Addresses are read by their prefix; the query shows start and size. *)
Definition fixture_libs : AdvisoryLibs := {|
  url_parse s :=
    let at_ host path := Some {| url_scheme := "https"; url_host := Some host; url_port := None; url_path := path;
                                 url_username := ""; url_password := None; url_fragment := None |} in
    if String.prefix NVD_URL s then at_ "services.nvd.nist.gov"%string "/rest/json/cves/2.0"%string
    else if String.prefix KEV_URL s
    then at_ "www.cisa.gov"%string "/sites/default/files/feeds/known_exploited_vulnerabilities.json"%string
    else None;
  input_json i := None
|}.
#[local] Existing Instance fixture_libs.
Definition fixture_query : NvdQuery := fun from until start size =>
  (NVD_URL +:+ "?startIndex=" +:+ pretty start +:+ "&resultsPerPage=" +:+ pretty size)%string.
#[local] Existing Instance fixture_query.

(** The body [k] of a feed with two records, one per page. *)
Definition page_json (start total : Z) (record : Json) : Json :=
  let number z := JNumber (Some z) f64_zero in
  JObject [("startIndex"%string, number start); ("resultsPerPage"%string, number 1); ("totalResults"%string, number total);
           ("vulnerabilities"%string, JArray [record])].
Definition fixture_feed : FeedLibs := {|
  json_from_str s :=
    if bool_decide (s = "first"%string) then Some (page_json 0 2 (JString "a"))
    else if bool_decide (s = "second"%string) then Some (page_json 1 2 (JString "b")) else None;
  vendor_document s := None;
  parse_time s := None;
  parse_date s := None;
  base64_url_decode s := None;
  key_from_bytes b := None
|}.
#[local] Existing Instance fixture_feed.

Definition reply (body : string) : result FixtureReply TransportError :=
  Ok {| fx_status := 200; fx_body := body; fx_etag := None; fx_last_modified := None |}.
Definition fixture (replies : list (result FixtureReply TransportError)) : FixtureTransport := {|
  ft_replies := replies; ft_requests := []; ft_clock := [100] |}.
Definition window : ModifiedWindow := {| mw_start := 0; mw_end := 1 |}.

#[local] Existing Instance logged.

(** A first page that is too large is asked for again with half the size. *)
Definition first_run : result FeedResult FeedError * NvdCache * (FixtureTransport * list Event) :=
  nvd_sync window ∅ (fixture [Err TOversized; reply "first"; reply "second"], []).
Definition run_records (run : result FeedResult FeedError * NvdCache * (FixtureTransport * list Event)) : option (bool * list Json) :=
  match fst (fst run) with Ok r => Some (is_stale r, fr_records r) | Err _ => None end.

Example first_run_result :
  run_records first_run = Some (false, [JString "a"; JString "b"]) /\
  map rq_results_per_page (ft_requests (fst (snd first_run))) = [1000; 500; 500].
Proof. vm_compute. auto. Qed.

Definition first_result : FeedResult :=
  match fst (fst first_run) with Ok r => r | Err _ => nvd_result [] {| rs_status := 0; rs_body := EmptyString; rs_retrieved_at := 0; rs_etag := None; rs_last_modified := None; rs_source_url := EmptyString |} 0 end.

Lemma first_run_equation : first_run = (Ok first_result, snd (fst first_run), (fst (snd first_run), snd (snd first_run))).
Proof.
  pose proof (proj1 first_run_result) as Hr. unfold first_result. unfold run_records in Hr.
  by destruct first_run as [[[r|e] cache] [t log]].
Qed.

Lemma nvd_sync_is_complete_or_stale_witness :
  is_stale first_result = false /\
  Z.of_nat (length (fr_records first_result)) <= MAX_AGGREGATE_RECORDS /\
  exists pages, fr_records first_result = concat (map np_records pages) /\ tiling 0 pages /\
    Forall (served ∅ (snd (snd first_run))) pages /\ (length pages <= MAX_PAGES)%nat.
Proof.
  split; [vm_compute; reflexivity|].
  refine (proj1 (nvd_sync_is_complete_or_stale _ window ∅ (fixture [Err TOversized; reply "first"; reply "second"]) first_result
            (snd (fst first_run)) (fst (snd first_run)) (snd (snd first_run)) first_run_equation) _).
  vm_compute. reflexivity.
Defined.

(** A second run over the cache of the first, whose first page cannot be fetched. *)
Definition complete_run : result FeedResult FeedError * NvdCache * (FixtureTransport * list Event) :=
  nvd_sync window ∅ (fixture [reply "first"; reply "second"], []).
Definition failing_run : result FeedResult FeedError * NvdCache * (FixtureTransport * list Event) :=
  nvd_sync window (snd (fst complete_run)) (fixture [Err TUnavailable], []).

(** A stale result need not be the whole answer: after a complete synchronisation of two
    pages with two records, a synchronisation whose first page fails serves the entry of the
    first page alone, one record of the two, although both are cached. *)
Theorem stale_result_drops_later_pages :
  run_records complete_run = Some (false, [JString "a"; JString "b"]) /\
  run_records failing_run = Some (true, [JString "a"]).
Proof. vm_compute. auto. Qed.

(** ** The other claims *)
Lemma home_targets_are_not_feed_hosts_witness :
  resolve_public_host (Some [V4 (v4 8 8 8 8); V4 (v4 192 168 1 1)]) = Err TUnsafeAddress.
Proof.
  exact (home_targets_are_not_feed_hosts (V4 (v4 192 168 1 1)) [V4 (v4 8 8 8 8); V4 (v4 192 168 1 1)] eq_refl
           (or_intror (or_introl eq_refl))).
Defined.

Lemma kev_sync_keeps_documents_witness :
  let '(res, cache', (_, log)) := kev_sync None (fixture [reply "first"], []) in
  (forall c, cache' = Some c -> kev_entry_ok c) /\
  match res with
  | Ok r => if is_stale r then cache' = None /\ stale_entry None r log else cache' = Some r
  | Err _ => cache' = None
  end.
Proof.
  exact (kev_sync_keeps_documents fixture_world None (fixture [reply "first"])
           (fun c (Hc : None = Some c) => match Hc in _ = o return match o with Some _ => kev_entry_ok c | None => True end with eq_refl => Logic.I end)).
Defined.

(** Text of ASCII bytes. *)
Fixpoint ascii_text (b : bytes) : option string :=
  match b with
  | [] => Some EmptyString
  | z :: b' =>
    if (0 <=? z) && (z <? 128)
    then match ascii_text b' with Some s => Some (String (ascii_of_N (Z.to_N z)) s) | None => None end
    else None
  end.
Lemma ascii_text_bytes b s : ascii_text b = Some s -> str_bytes s = b.
Proof.
  revert s. induction b as [|z b IH]; intros s; cbn [ascii_text]; [by intros [= <-]|].
  destruct ((0 <=? z) && (z <? 128)) eqn:E; [|done]. rewrite andb_true_iff in E. bprop.
  destruct (ascii_text b) as [s'|]; [|done]. intros [= <-]. cbn [str_bytes]. rewrite (IH s' eq_refl), N_ascii_embedding by lia. f_equal. lia.
Qed.

Definition json_answer : HttpAnswer := {|
  ha_status := 200; ha_etag := Some (Some "tag"%string); ha_last_modified := None; ha_content_length := None;
  ha_content_type := Some "application/json; charset=utf-8"%string; ha_chunks := [Some [123]; Some [125]] |}.
Definition json_response : FeedResponse := {|
  rs_status := 200; rs_body := "{}"; rs_retrieved_at := 5; rs_etag := Some "tag"%string; rs_last_modified := None;
  rs_source_url := KEV_URL |}.

Lemma accepted_answer_is_bounded_witness : official_request request_kev.
Proof.
  refine (proj1 (accepted_answer_is_bounded ascii_text request_kev (Some json_answer) 5 json_response ascii_text_bytes _)).
  vm_compute. reflexivity.
Defined.
