(* ===== verification/Wire.v ===== *)
(** * Bytes on the wire

    Slices whose indexing can panic, UTF-8, and the text of addresses and numbers, as the
    packet decoders of the sensors use them. An operation that panics in Rust returns the
    error that the caller names for it, so that the absence of panics can be stated. *)

From S2P Require Import Prelude Text Bytes Net.

(** ** Slices *)
Definition blen {A} (p : list A) : Z := Z.of_nat (length p).

(** [p\[i\]] and [&p\[a..b\]]; [p.get(a..b)] *)
Definition idx {E} (panic : E) (p : bytes) (i : Z) : result Z E :=
  if 0 <=? i then ok_or (nth_error p (Z.to_nat i)) panic else Err panic.
Definition get_range (p : bytes) (a b : Z) : option bytes :=
  if (0 <=? a) && (a <=? b) && (b <=? blen p) then Some (take (Z.to_nat (b - a)) (drop (Z.to_nat a) p)) else None.
Definition slice {E} (panic : E) (p : bytes) (a b : Z) : result bytes E := ok_or (get_range p a b) panic.

(** [from_be_bytes] *)
Definition be_value (p : bytes) : Z := fold_left (fun a b => 256 * a + b) p 0.
Definition be16 (a b : Z) : Z := 256 * a + b.

(** ** UTF-8 *)
(** What stands first: a character of [n] bytes, or an ill-formed sequence of [n] bytes, the
    longest one that could have begun a character. *)
Inductive Utf8Step := UChar (n : nat) | UBad (n : nat).

Definition cont (b : Z) : bool := (128 <=? b) && (b <=? 191).
Definition utf8_rest (n : nat) (p : bytes) : Utf8Step :=
  match n, p with
  | 1%nat, b :: _ => if cont b then UChar 2 else UBad 1
  | 2%nat, b :: c :: _ => if cont b then (if cont c then UChar 3 else UBad 2) else UBad 1
  | 2%nat, [b] => if cont b then UBad 2 else UBad 1
  | 3%nat, b :: c :: d :: _ =>
    if cont b then (if cont c then (if cont d then UChar 4 else UBad 3) else UBad 2) else UBad 1
  | 3%nat, [b; c] => if cont b then (if cont c then UBad 3 else UBad 2) else UBad 1
  | 3%nat, [b] => if cont b then UBad 2 else UBad 1
  | _, _ => UBad 1
  end.

(** The second byte of the leads E0, ED, F0 and F4 has a smaller range. *)
Definition second_ok (a b : Z) : bool :=
  if a =? 224 then 160 <=? b else if a =? 237 then b <=? 159
  else if a =? 240 then 144 <=? b else if a =? 244 then b <=? 143 else true.

Definition utf8_step (a : Z) (p : bytes) : Utf8Step :=
  if a <? 128 then UChar 1
  else if negb (match p with b :: _ => second_ok a b | [] => true end) then UBad 1
  else if (194 <=? a) && (a <=? 223) then utf8_rest 1 p
  else if (224 <=? a) && (a <=? 239) then utf8_rest 2 p
  else if (240 <=? a) && (a <=? 244) then utf8_rest 3 p
  else UBad 1.

Definition char_of (b : Z) : ascii := ascii_of_N (Z.to_N b).
Definition string_of_bytes (p : bytes) : string := string_of_list_ascii (map char_of p).

(** [skip] bytes of a character that was already accepted are left. *)
Fixpoint utf8_valid (skip : nat) (p : bytes) : bool :=
  match p with
  | [] => true
  | a :: p' =>
    match skip with
    | S skip' => utf8_valid skip' p'
    | O => match utf8_step a p' with UChar n => utf8_valid (n - 1) p' | UBad _ => false end
    end
  end.
(** [std::str::from_utf8] *)
Definition from_utf8 (p : bytes) : option string := if utf8_valid 0 p then Some (string_of_bytes p) else None.

Definition REPLACEMENT : bytes := [239; 191; 189].
(** [String::from_utf8_lossy]: each ill-formed sequence becomes U+FFFD. *)
Fixpoint lossy_bytes (keep drop_ : nat) (p : bytes) : bytes :=
  match p with
  | [] => []
  | a :: p' =>
    match keep, drop_ with
    | S keep', _ => a :: lossy_bytes keep' 0 p'
    | O, S drop' => lossy_bytes 0 drop' p'
    | O, O =>
      match utf8_step a p' with
      | UChar n => a :: lossy_bytes (n - 1) 0 p'
      | UBad n => REPLACEMENT ++ lossy_bytes 0 (n - 1) p'
      end
    end
  end.
Definition from_utf8_lossy (p : bytes) : string := string_of_bytes (lossy_bytes 0 0 p).

(** ** Text *)
(** [{x:02x}] of the low byte of each number of [n] bytes: [{x:04x}] and [{x:08x}]. *)
Definition hex_width (n : nat) (z : Z) : string := hex_text (be_bytes n z).

(** [Ipv4Addr::new] and its [Display]. *)
Definition ipv4_new (a b c d : Z) : Z := ((a * 256 + b) * 256 + c) * 256 + d.
Definition v4_text (a : Z) : string :=
  str_join "." (map (fun i => pretty (a / 256 ^ (3 - i) mod 256)) [0; 1; 2; 3]).

(** The eight groups of an IPv6 address. *)
Definition v6_groups (a : Z) : list Z := map (fun i => a / 65536 ^ (7 - i) mod 65536) [0; 1; 2; 3; 4; 5; 6; 7].

(** [{:x}]: hexadecimal without leading zeros. *)
Fixpoint drop_zeros (s : string) : string :=
  match s with
  | String "0" (String _ _ as s') => drop_zeros s'
  | _ => s
  end.
Definition hex_group (g : Z) : string := drop_zeros (hex_width 2 g).

(** The first longest run of zero groups: its start and length. *)
Fixpoint zero_run (at_ : nat) (cur_start cur_len best_start best_len : nat) (l : list Z) : nat * nat :=
  match l with
  | [] => (best_start, best_len)
  | g :: l' =>
    if g =? 0 then
      let cur_start := if Nat.eqb cur_len 0 then at_ else cur_start in
      let cur_len := S cur_len in
      if Nat.ltb best_len cur_len then zero_run (S at_) cur_start cur_len cur_start cur_len l'
      else zero_run (S at_) cur_start cur_len best_start best_len l'
    else zero_run (S at_) 0 0 best_start best_len l'
  end.

(** [Display for Ipv6Addr] *)
Definition v6_text (a : Z) : string :=
  match to_ipv4_mapped a with
  | Some v4 => ("::ffff:" +:+ v4_text v4)%string
  | None =>
    let groups := v6_groups a in
    let '(start, len) := zero_run 0 0 0 0 0 groups in
    if Nat.ltb 1 len
    then (str_join ":" (map hex_group (take start groups)) +:+ "::" +:+ str_join ":" (map hex_group (drop (start + len) groups)))%string
    else str_join ":" (map hex_group groups)
  end.

Definition ip_text (a : IpAddr) : string := match a with V4 z => v4_text z | V6 z => v6_text z end.

Example v6_texts :
  map v6_text [0; 1; Z.shiftl 64512 112 + 1; Z.shiftl 65152 112; 281470681743361; Z.shiftl 8193 112 + Z.shiftl 1 64 + 5] =
  ["::"; "::1"; "fc00::1"; "fe80::"; "::ffff:0.0.0.1"; "2001:0:0:1::5"]%string.
Proof. vm_compute. reflexivity. Qed.

(** [trim_start] and [trim_end], on the bytes of valid UTF-8. *)
Fixpoint drop_white (l : list ascii) : list ascii :=
  match l with
  | a :: r =>
    if white1 (byte_of a) then drop_white r
    else match r with
         | b :: r2 =>
           if white2 (byte_of a) (byte_of b) then drop_white r2
           else match r2 with
                | c :: r3 => if white3 (byte_of a) (byte_of b) (byte_of c) then drop_white r3 else l
                | [] => l
                end
         | [] => l
         end
  | [] => []
  end.
Fixpoint drop_white_rev (l : list ascii) : list ascii :=
  match l with
  | a :: r =>
    if white1 (byte_of a) then drop_white_rev r
    else match r with
         | b :: r2 =>
           if white2 (byte_of b) (byte_of a) then drop_white_rev r2
           else match r2 with
                | c :: r3 => if white3 (byte_of c) (byte_of b) (byte_of a) then drop_white_rev r3 else l
                | [] => l
                end
         | [] => l
         end
  | [] => []
  end.
Definition trim_end (s : string) : string := string_of_list_ascii (rev (drop_white_rev (rev (String.list_ascii_of_string s)))).
Definition trim_start (s : string) : string := string_of_list_ascii (drop_white (String.list_ascii_of_string s)).
Definition trim (s : string) : string := trim_end (trim_start s).

(** [s.split(sep)] for a one-byte and for a two-byte separator, [s.split_once(c)] *)
Fixpoint split_on (c : ascii) (s : string) : list string :=
  match s with
  | EmptyString => [EmptyString]
  | String a s' =>
    if bool_decide (a = c) then EmptyString :: split_on c s'
    else match split_on c s' with [] => [String a EmptyString] | p :: ps => String a p :: ps end
  end.
Fixpoint split_on2 (c d : ascii) (s : string) : list string :=
  let cons a ps := match ps with [] => [String a EmptyString] | p :: ps => String a p :: ps end in
  match s with
  | EmptyString => [EmptyString]
  | String a s' =>
    match s' with
    | String b s2 => if bool_decide (a = c) && bool_decide (b = d) then EmptyString :: split_on2 c d s2 else cons a (split_on2 c d s')
    | EmptyString => [String a EmptyString]
    end
  end.
Fixpoint split_once (c : ascii) (s : string) : option (string * string) :=
  match s with
  | EmptyString => None
  | String a s' =>
    if bool_decide (a = c) then Some (EmptyString, s')
    else match split_once c s' with Some (k, v) => Some (String a k, v) | None => None end
  end.

(** [s.split_ascii_whitespace()] *)
Definition ascii_white (a : ascii) : bool :=
  let n := byte_of a in ((n =? 32) || (n =? 9) || (n =? 10) || (n =? 12) || (n =? 13))%N.
Fixpoint ascii_words (s word : string) : list string :=
  let flush := if str_is_empty word then [] else [word] in
  match s with
  | EmptyString => flush
  | String a s' => if ascii_white a then flush ++ ascii_words s' EmptyString else ascii_words s' (word +:+ String a EmptyString)%string
  end.

(** [s.parse::<i64>()]: a sign, then decimal digits. *)
Fixpoint digits_value (acc : Z) (s : string) : option Z :=
  match s with
  | EmptyString => Some acc
  | String a s' =>
    let n := Z.of_N (byte_of a) in
    if (48 <=? n) && (n <=? 57) then digits_value (10 * acc + (n - 48)) s' else None
  end.
Definition parse_i64 (s : string) : option Z :=
  let number s := if str_is_empty s then None else digits_value 0 s in
  let value := match s with
               | String "-" s' => option_map Z.opp (number s')
               | String "+" s' => number s'
               | _ => number s
               end in
  match value with Some z => if in_i64 z then Some z else None | None => None end.

Definition strip_prefix (pre s : string) : option string :=
  if String.prefix pre s then Some (String.substring (String.length pre) (String.length s - String.length pre) s) else None.

(** [chars().filter(|c| !c.is_control())] on UTF-8 *)
Fixpoint strip_control (l : list ascii) : list ascii :=
  match l with
  | [] => []
  | a :: r =>
    let n := byte_of a in
    match r with
    | b :: r2 =>
      if ((n =? 194) && (128 <=? byte_of b) && (byte_of b <=? 159))%N then strip_control r2
      else if ((n <? 32) || (n =? 127))%N then strip_control r else a :: strip_control r
    | [] => if ((n <? 32) || (n =? 127))%N then [] else [a]
    end
  end.

(** ** Laws *)
Lemma blen_nonneg {A} (p : list A) : 0 <= blen p.
Proof. unfold blen. lia. Qed.
Lemma blen_app {A} (l l' : list A) : blen (l ++ l') = blen l + blen l'.
Proof. unfold blen. rewrite length_app. lia. Qed.

Lemma idx_ok {E} (panic : E) p i : 0 <= i < blen p -> exists b, idx panic p i = Ok b /\ In b p.
Proof.
  intros Hi. unfold idx. rewrite (proj2 (Z.leb_le _ _)) by lia. destruct (nth_error p (Z.to_nat i)) as [b|] eqn:E'.
  - exists b. split; [done|]. by apply nth_error_In in E'.
  - apply nth_error_None in E'. unfold blen in Hi. lia.
Qed.

Lemma get_range_some p a b z :
  get_range p a b = Some z ->
  z = take (Z.to_nat (b - a)) (drop (Z.to_nat a) p) /\ 0 <= a <= b /\ b <= blen p /\ blen z = b - a.
Proof.
  unfold get_range. destruct (_ && _) eqn:E; [|done]. bprop. intros [= <-]. split_and!; try done.
  unfold blen in *. rewrite length_take, length_drop. lia.
Qed.

Lemma get_range_forall (P : Z -> Prop) p a b z : Forall P p -> get_range p a b = Some z -> Forall P z.
Proof. intros Hp (-> & _)%get_range_some. by apply Forall_take, Forall_drop. Qed.

Lemma slice_ok {E} (panic : E) p a b : 0 <= a <= b -> b <= blen p -> exists z, slice panic p a b = Ok z /\ get_range p a b = Some z.
Proof.
  intros H1 H2. unfold slice, get_range. rewrite (proj2 (Z.leb_le 0 a)), (proj2 (Z.leb_le a b)), (proj2 (Z.leb_le b (blen p))) by lia.
  eexists. split; reflexivity.
Qed.
