(* ===== verification/Passive.v ===== *)
(** * Passive capture: observations from frames

    crates/lattice-sensor/src/passive.rs. The bodies of hickory's DNS messages, quick_xml's
    events, etherparse's check of a frame and pcap_file's records are parameters. Two errors
    are not the source's: [PPanic] stands for an index or a range outside a slice, at which
    Rust panics, and [PFuel] for a loop that would need more fuel than it has. Loops over a
    slice have one unit of fuel per byte and one more. *)

From S2P Require Import Prelude Time Text Bytes Net F32 Domain Wire.

Definition MAX_FRAME_BYTES : Z := 65535.
Definition MAX_METADATA_BYTES : Z := 2048.
Definition MAX_PCAP_BYTES : Z := 4 * 1024 * 1024.
Definition MAX_PCAP_RECORDS : Z := 4096.
Definition MAX_SKIPPED_FRAMES : Z := 256.
Definition MAX_OBSERVATIONS : Z := 4096.
Definition MAX_OBSERVATIONS_PER_FRAME : Z := 16.
Definition MAX_FACTS_PER_OBSERVATION : Z := 32.
Definition MAX_VALUE_BYTES : Z := 1024.
Definition MAX_NORMALIZED_VALUE_BYTES : Z := 1024 * 1024.
Definition MAX_DHCP_OPTIONS : Z := 64.
Definition MAX_DUID_BYTES : Z := 128.
Definition MAX_IAADDRS : Z := 8.
Definition MAX_RELAY_MESSAGE_BYTES : Z := 16 * 1024.
Definition DEFAULT_TTL : Z := 300.

Record PassiveOptions := { metadata_enabled : bool }.
Definition default_passive_options : PassiveOptions := {| metadata_enabled := true |}.

Record PassiveObservation := {
  po_interface : string; po_observed_at : DateTime; po_subject_mac : option string; po_subject_ip : option IpAddr;
  po_protocol : string; po_facts : list EvidenceFact }.
Record PcapIngest := { pi_observations : list PassiveObservation; pi_skipped_frames : Z }.

Inductive PassiveParseError := PcapHeader | Truncated | InvalidLength | OversizedFrame | Metadata | PPanic | PFuel.
#[global] Instance PassiveParseError_eq_dec : EqDecision PassiveParseError.
Proof. solve_decision. Defined.

Definition Val : Type := string * string * EvidenceFamily * Z.
Definition val_value (v : Val) : string := snd (fst (fst v)).
Definition Parsed : Type := result (list PassiveObservation) PassiveParseError.

(** The bytes at an index and in a range. *)
Abbreviation at_ := (idx PPanic).
Abbreviation range_ := (slice PPanic).
Definition word_at (p : bytes) (i : Z) : result Z PassiveParseError :=
  let? a := at_ p i in let? b := at_ p (i + 1) in Ok (be16 a b).

(** ** Facts and observations *)
Section Facts.
Context `{Calendar}.

Definition passive_fact (src key value : string) (family : EvidenceFamily) (t : DateTime) (ttl : Z)
  : result EvidenceFact PassiveParseError :=
  if (64 <? str_len key) || (MAX_VALUE_BYTES <? str_len value) then Err Metadata
  else
    let? expires_at := ok_or (checked_add_signed t (seconds (Z.max 1 (Z.min 86400 ttl)))) Metadata in
    Ok {| ef_family := family; ef_source := src; ef_key := key; ef_value := value; ef_confidence := f32_lit 8 10;
          ef_observed_at := t; ef_expires_at := Some expires_at; ef_owner_confirmed := false |}.

(** [usize::from(o.is_some())] *)
Definition present {A} (o : option A) : Z := match o with Some _ => 1 | None => 0 end.
Definition sum_len (l : list string) : Z := fold_left (fun n v => n + str_len v) l 0.

Fixpoint val_facts (src : string) (t : DateTime) (vals : list Val) : result (list EvidenceFact) PassiveParseError :=
  match vals with
  | [] => Ok []
  | (k, v, f, ttl) :: vals' =>
    let? one := passive_fact src k v f t ttl in
    let? rest := val_facts src t vals' in
    Ok (one :: rest)
  end.

Definition observation (i : string) (t : DateTime) (mac : option string) (ip : option IpAddr) (p : string) (vals : list Val) : Parsed :=
  if (MAX_FACTS_PER_OBSERVATION <? blen vals + present mac)
     || (MAX_NORMALIZED_VALUE_BYTES <? sum_len (map val_value vals)) then Err Metadata
  else
    let src := ("passive." +:+ p)%string in
    let? own := match mac with
                | Some m => let? f := passive_fact src "mac" m LinkLayer t DEFAULT_TTL in Ok [f]
                | None => Ok []
                end in
    let? facts := val_facts src t vals in
    Ok [{| po_interface := i; po_observed_at := t; po_subject_mac := mac; po_subject_ip := ip; po_protocol := p;
           po_facts := own ++ facts |}].

(** The sizes of the values of one observation, added to [total]. *)
Fixpoint add_values (total : Z) (l : list EvidenceFact) : result Z PassiveParseError :=
  match l with
  | [] => Ok total
  | f :: l' =>
    if MAX_VALUE_BYTES <? str_len (ef_value f) then Err Metadata
    else let? total := ok_or (checked_add_u64 total (str_len (ef_value f))) Metadata in add_values total l'
  end.
Fixpoint add_observations (total : Z) (out : list PassiveObservation) : result Z PassiveParseError :=
  match out with
  | [] => Ok total
  | one :: out' =>
    if MAX_FACTS_PER_OBSERVATION <? blen (po_facts one) then Err Metadata
    else let? total := add_values total (po_facts one) in add_observations total out'
  end.
Definition validate_normalized (out : list PassiveObservation) (observation_limit : Z) : result unit PassiveParseError :=
  if observation_limit <? blen out then Err Metadata
  else
    let? total := add_observations 0 out in
    if MAX_NORMALIZED_VALUE_BYTES <? total then Err Metadata else Ok tt.
End Facts.

(** ** Text *)
Definition passive_mac (b : bytes) : result string PassiveParseError :=
  if negb (blen b =? 6) then Err Truncated else Ok (str_join ":" (map (fun x => hex_width 1 x) b)).

(** Control characters other than CR, LF and TAB. *)
Fixpoint has_odd_control (s : string) : bool :=
  match s with
  | EmptyString => false
  | String a r =>
    let n := N_of_ascii a in
    (((n <? 32) && negb ((n =? 9) || (n =? 10) || (n =? 13))) || (n =? 127))%N
    || match r with
       | String b _ => ((n =? 194) && (128 <=? N_of_ascii b) && (N_of_ascii b <=? 159))%N
       | EmptyString => false
       end
    || has_odd_control r
  end.
Definition meta_text (b : bytes) : result string PassiveParseError :=
  if MAX_METADATA_BYTES <? blen b then Err Metadata
  else
    let? s := ok_or (from_utf8 b) Metadata in
    if has_odd_control s then Err Metadata else Ok s.

(** Three octal digits that fit a byte. *)
Definition octal_escape (digits : option bytes) : option Z :=
  match digits with
  | Some [a; b; c] =>
    if forallb (fun d => (48 <=? d) && (d <=? 55)) [a; b; c] then
      let value := ((a - 48) * 8 + (b - 48)) * 8 + (c - 48) in
      if value <=? 255 then Some value else None
    else None
  | _ => None
  end.

(** [trim_end_matches('.')] *)
Fixpoint trim_dots (p : bytes) : bytes :=
  match p with
  | [] => []
  | b :: p' => match trim_dots p' with [] => if b =? 46 then [] else [b] | r => b :: r end
  end.

Fixpoint unescape (fuel : nat) (p : bytes) : bytes :=
  match fuel with
  | O => []
  | S fuel' =>
    match p with
    | [] => []
    | 92 :: 92 :: p' => 92 :: unescape fuel' p'
    | 92 :: p' =>
      match octal_escape (get_range p' 0 3) with
      | Some value => value :: unescape fuel' (drop 3 p')
      | None => 92 :: unescape fuel' p'
      end
    | b :: p' => b :: unescape fuel' p'
    end
  end.
Definition trim_name (s : string) : string :=
  let bytes_ := trim_dots (str_bytes s) in
  from_utf8_lossy (unescape (length bytes_) bytes_).

(** Labels, each after its length, up to the empty one. *)
Fixpoint plain_name (fuel : nat) (q : bytes) (at' : Z) (parts : list string) : result string PassiveParseError :=
  match fuel with
  | O => Err PFuel
  | S fuel' =>
    if negb (at' <? blen q) then Err Truncated
    else
      let? n := at_ q at' in
      let at' := at' + 1 in
      if n =? 0 then Ok (str_join "." parts)
      else if (63 <? n) || (blen q <? at' + n) then Err Metadata
      else
        let? label := range_ q at' (at' + n) in
        let? part := meta_text label in
        plain_name fuel' q (at' + n) (parts ++ [part])
  end.
Definition decode_plain_name (q : bytes) : result string PassiveParseError := plain_name (length q + 1) q 0 [].

(** ** Addresses and flows *)
Section Frames.
Context `{Calendar} (i : string) (t : DateTime).

Definition v4_at (p : bytes) (k : Z) : result Z PassiveParseError :=
  let? a := at_ p k in let? b := at_ p (k + 1) in let? c := at_ p (k + 2) in let? d := at_ p (k + 3) in
  Ok (ipv4_new a b c d).
(** [Ipv6Addr::from(<[u8; 16]>::try_from(&p\[k..k + 16\]))] *)
Definition v6_at (p : bytes) (k : Z) : result Z PassiveParseError :=
  let? z := range_ p k (k + 16) in Ok (be_value z).

Definition arp (m : option string) (p : bytes) : Parsed :=
  if blen p <? 28 then Err Truncated
  else
    let? head := range_ p 0 6 in
    if negb (bool_decide (head = [0; 1; 8; 0; 6; 4])) then Ok []
    else
      let? sip := v4_at p 14 in
      let? z := range_ p 8 14 in
      let? sm := passive_mac z in
      observation i t m (Some (V4 sip)) "arp"
        [("sender_ip"%string, v4_text sip, Addressing, 300); ("sender_mac"%string, sm, Addressing, 300)].

Definition flow_vals (src dst : IpAddr) (s d n : Z) : list Val :=
  [("src"%string, (ip_text src +:+ ":" +:+ pretty s)%string, Service, 300);
   ("dst"%string, (ip_text dst +:+ ":" +:+ pretty d)%string, Service, 300);
   ("bytes"%string, pretty n, Service, 300)].

Definition tcp (m : option string) (src dst : IpAddr) (p : bytes) : Parsed :=
  if blen p <? 20 then Err Truncated
  else
    let? b := at_ p 12 in
    let h := Z.shiftr b 4 * 4 in
    if (h <? 20) || (blen p <? h) then Err InvalidLength
    else
      let? s := word_at p 0 in
      let? d := word_at p 2 in
      observation i t m (Some src) "tcp-flow" (flow_vals src dst s d (blen p - h)).

Definition igmp (m : option string) (src : IpAddr) (p : bytes) : Parsed :=
  if blen p <? 8 then Err Truncated
  else
    let? group := v4_at p 4 in
    observation i t m (Some src) "igmp" [("group"%string, v4_text group, Service, 300)].

(** The options of a neighbour message. *)
Fixpoint ndp_options (fuel : nat) (p : bytes) (at' : Z) (v : list Val) : result (list Val) PassiveParseError :=
  match fuel with
  | O => Err PFuel
  | S fuel' =>
    if negb (at' <? blen p) then Ok v
    else if blen p <? at' + 2 then Err Truncated
    else
      let? units := at_ p (at' + 1) in
      if (units =? 0) || (blen p <? at' + units * 8) then Err InvalidLength
      else
        let? kind := at_ p at' in
        let? v :=
          (if ((kind =? 1) || (kind =? 2)) && (1 <=? units) then
             let? z := range_ p (at' + 2) (at' + 8) in
             let? lladdr := passive_mac z in
             Ok (v ++ [(if kind =? 1 then "source_lladdr"%string else "target_lladdr"%string, lladdr, Addressing, 300)])
           else Ok v) in
        ndp_options fuel' p (at' + units * 8) v
  end.

Definition icmp6 (m : option string) (src : IpAddr) (p : bytes) : Parsed :=
  if blen p <? 8 then Err Truncated
  else
    let? kind := at_ p 0 in
    if (kind =? 135) || (kind =? 136) then
      if blen p <? 24 then Err Truncated
      else
        let? target := v6_at p 8 in
        let? v := ndp_options (length p + 1) p 24 [("target"%string, v6_text target, Addressing, 300)] in
        observation i t m (Some src) "ipv6-ndp" v
    else if (130 <=? kind) && (kind <=? 132) then
      if blen p <? 24 then Err Truncated
      else
        let? g := v6_at p 8 in
        observation i t m (Some src) "mld" [("group"%string, v6_text g, Service, 300)]
    else Ok [].

(** ** DHCP *)
Record Dhcp4 := {
  d4_client : list Val; d4_lease : Z; d4_hostname : bool; d4_client_id : bool; d4_server : bool; d4_leased : bool;
  d4_server_id : option Z }.

Definition d4_push (v : Val) (s : Dhcp4) : Dhcp4 := {|
  d4_client := d4_client s ++ [v]; d4_lease := d4_lease s; d4_hostname := d4_hostname s; d4_client_id := d4_client_id s;
  d4_server := d4_server s; d4_leased := d4_leased s; d4_server_id := d4_server_id s |}.

(** One option: its code and value. *)
Definition dhcp4_option (code : Z) (z : bytes) (s : Dhcp4) : result Dhcp4 PassiveParseError :=
  let n := blen z in
  if code =? 12 then
    if d4_hostname s then Err Metadata
    else
      let? name := meta_text z in
      Ok {| d4_client := d4_client s ++ [("hostname"%string, name, Naming, d4_lease s)]; d4_lease := d4_lease s;
            d4_hostname := true; d4_client_id := d4_client_id s; d4_server := d4_server s; d4_leased := d4_leased s;
            d4_server_id := d4_server_id s |}
  else if (code =? 51) && (n =? 4) then
    if d4_leased s then Err Metadata
    else Ok {| d4_client := d4_client s; d4_lease := Z.max 1 (Z.min 86400 (be_value z)); d4_hostname := d4_hostname s;
               d4_client_id := d4_client_id s; d4_server := d4_server s; d4_leased := true; d4_server_id := d4_server_id s |}
  else if code =? 54 then
    if (n =? 4) && negb (d4_server s) then
      let? server := v4_at z 0 in
      Ok {| d4_client := d4_client s; d4_lease := d4_lease s; d4_hostname := d4_hostname s; d4_client_id := d4_client_id s;
            d4_server := true; d4_leased := d4_leased s; d4_server_id := Some server |}
    else Err Metadata
  else if code =? 61 then
    if negb (d4_client_id s) && negb (n =? 0) && (n <=? MAX_DUID_BYTES) then
      Ok {| d4_client := d4_client s ++ [("client_id"%string, hex_text z, Addressing, d4_lease s)]; d4_lease := d4_lease s;
            d4_hostname := d4_hostname s; d4_client_id := true; d4_server := d4_server s; d4_leased := d4_leased s;
            d4_server_id := d4_server_id s |}
    else Err Metadata
  else Ok s.

Fixpoint dhcp4_options (fuel : nat) (q : bytes) (at' option_count : Z) (s : Dhcp4) : result Dhcp4 PassiveParseError :=
  match fuel with
  | O => Err PFuel
  | S fuel' =>
    if negb (at' <? blen q) then Ok s
    else
      let? code := at_ q at' in
      let at' := at' + 1 in
      let option_count := option_count + 1 in
      if MAX_DHCP_OPTIONS <? option_count then Err Metadata
      else if code =? 0 then dhcp4_options fuel' q at' option_count s
      else if code =? 255 then Ok s
      else if blen q <=? at' then Err Truncated
      else
        let? n := at_ q at' in
        let at' := at' + 1 in
        if blen q <? at' + n then Err Truncated
        else
          let? z := range_ q at' (at' + n) in
          let? s := dhcp4_option code z s in
          dhcp4_options fuel' q (at' + n) option_count s
  end.

Definition is_unspecified (a : IpAddr) : bool := match a with V4 z => z =? 0 | V6 z => z =? 0 end.
Definition set_ttl (ttl : Z) (v : Val) : Val := (fst v, ttl).

Definition dhcp4 (m : option string) (src : IpAddr) (q : bytes) : Parsed :=
  if blen q <? 240 then Err Metadata
  else
    let? cookie := range_ q 236 240 in
    if negb (bool_decide (cookie = [99; 130; 83; 99])) then Err Metadata
    else
      let? htype := at_ q 1 in
      let? hlen := at_ q 2 in
      if negb (htype =? 1) || negb (hlen =? 6) then Err Metadata
      else
        let? ci := v4_at q 12 in
        let? yi := v4_at q 16 in
        let? hw := range_ q 28 (28 + hlen) in
        let? client_mac := passive_mac hw in
        let client := [("chaddr"%string, client_mac, Addressing, 300)]
          ++ (if negb (ci =? 0) then [("ciaddr"%string, v4_text ci, Addressing, 300)] else [])
          ++ (if negb (yi =? 0) then [("yiaddr"%string, v4_text yi, Addressing, 300)] else []) in
        let? s := dhcp4_options (length q + 1) q 240 0 {|
          d4_client := client; d4_lease := 300; d4_hostname := false; d4_client_id := false; d4_server := false;
          d4_leased := false; d4_server_id := None |} in
        let? op := at_ q 0 in
        let client_ip :=
          if negb (yi =? 0) then Some (V4 yi) else if negb (ci =? 0) then Some (V4 ci)
          else if (op =? 1) && negb (is_unspecified src) then Some src else None in
        let? out := observation i t (Some client_mac) client_ip "dhcpv4" (map (set_ttl (d4_lease s)) (d4_client s)) in
        match d4_server_id s with
        | None => Ok out
        | Some server_id =>
          let server_mac := if bool_decide (src = V4 server_id) then m else None in
          let? server := observation i t server_mac (Some (V4 server_id)) "dhcpv4"
            [("server_id"%string, v4_text server_id, Addressing, d4_lease s);
             ("service"%string, "dhcp_server"%string, Service, d4_lease s)] in
          Ok (out ++ server)
        end.

Record Dhcp6Fields := {
  d6_client : list Val; d6_server : list Val; d6_client_mac : option string; d6_client_ip : option IpAddr;
  d6_seen_client : bool; d6_seen_server : bool; d6_seen_fqdn : bool }.
Definition default_dhcp6_fields : Dhcp6Fields := {|
  d6_client := []; d6_server := []; d6_client_mac := None; d6_client_ip := None; d6_seen_client := false;
  d6_seen_server := false; d6_seen_fqdn := false |}.
Record Dhcp6Budget := { db_option_count : Z; db_iaaddr_count : Z }.

Definition duid_mac (duid : bytes) : result (option string) PassiveParseError :=
  match duid with
  | a :: b :: _ =>
    let ty := be16 a b in
    let n := blen duid in
    if ((ty =? 1) && (14 <=? n)) || ((ty =? 3) && (10 <=? n)) then
      let? bytes_ := range_ duid (n - 6) n in
      Ok (match passive_mac bytes_ with Ok s => Some s | Err _ => None end)
    else Ok None
  | _ => Ok None
  end.

Definition d6_iaaddr (z : bytes) (v : Dhcp6Fields) : result Dhcp6Fields PassiveParseError :=
  let? a := v6_at z 0 in
  let? pref := range_ z 16 20 in
  let? valid := range_ z 20 24 in
  let ttl := Z.max 1 (Z.min 86400 (be_value valid)) in
  Ok {| d6_client := d6_client v ++ [("iaaddr"%string, v6_text a, Addressing, ttl);
          ("preferred_lifetime"%string, pretty (be_value pref), Addressing, ttl);
          ("valid_lifetime"%string, pretty (be_value valid), Addressing, ttl)];
        d6_server := d6_server v; d6_client_mac := d6_client_mac v;
        d6_client_ip := match d6_client_ip v with Some ip => Some ip | None => Some (V6 a) end;
        d6_seen_client := d6_seen_client v; d6_seen_server := d6_seen_server v; d6_seen_fqdn := d6_seen_fqdn v |}.

(** The options that hold no options of their own. *)
Definition dhcp6_option (c : Z) (z : bytes) (v : Dhcp6Fields) (budget : Dhcp6Budget)
  : result (Dhcp6Fields * Dhcp6Budget) PassiveParseError :=
  let n := blen z in
  if c =? 1 then
    if negb (d6_seen_client v) && negb (n =? 0) && (n <=? MAX_DUID_BYTES) then
      let? mac := duid_mac z in
      Ok ({| d6_client := d6_client v ++ [("client_duid"%string, hex_text z, Addressing, 3600)]; d6_server := d6_server v;
             d6_client_mac := mac; d6_client_ip := d6_client_ip v; d6_seen_client := true;
             d6_seen_server := d6_seen_server v; d6_seen_fqdn := d6_seen_fqdn v |}, budget)
    else Err Metadata
  else if c =? 2 then
    if negb (d6_seen_server v) && negb (n =? 0) && (n <=? MAX_DUID_BYTES) then
      Ok ({| d6_client := d6_client v; d6_server := d6_server v ++ [("server_duid"%string, hex_text z, Addressing, 3600)];
             d6_client_mac := d6_client_mac v; d6_client_ip := d6_client_ip v; d6_seen_client := d6_seen_client v;
             d6_seen_server := true; d6_seen_fqdn := d6_seen_fqdn v |}, budget)
    else Err Metadata
  else if (c =? 5) && (24 <=? n) then
    let budget := {| db_option_count := db_option_count budget; db_iaaddr_count := db_iaaddr_count budget + 1 |} in
    if MAX_IAADDRS <? db_iaaddr_count budget then Err Metadata
    else let? v := d6_iaaddr z v in Ok (v, budget)
  else if c =? 39 then
    if negb (d6_seen_fqdn v) && (1 <? n) && (n <=? 256) then
      let? name := range_ z 1 n in
      let? fqdn := decode_plain_name name in
      Ok ({| d6_client := d6_client v ++ [("fqdn"%string, fqdn, Naming, 3600)]; d6_server := d6_server v;
             d6_client_mac := d6_client_mac v; d6_client_ip := d6_client_ip v; d6_seen_client := d6_seen_client v;
             d6_seen_server := d6_seen_server v; d6_seen_fqdn := true |}, budget)
    else Err Metadata
  else Ok (v, budget).

(** The loop over the options of [q] and the recursion into identity associations, four levels
    deep at most. *)
Fixpoint dhcp6_options (levels : nat) : nat -> bytes -> Z -> Dhcp6Fields -> Dhcp6Budget ->
    result (Dhcp6Fields * Dhcp6Budget) PassiveParseError :=
  match levels with
  | O => fun _ _ _ _ _ => Err Metadata
  | S levels' =>
    fix loop (fuel : nat) (q : bytes) (at' : Z) (v : Dhcp6Fields) (budget : Dhcp6Budget) :=
      match fuel with
      | O => Err PFuel
      | S fuel' =>
        if negb (at' <? blen q) then Ok (v, budget)
        else
          let budget := {| db_option_count := db_option_count budget + 1; db_iaaddr_count := db_iaaddr_count budget |} in
          if MAX_DHCP_OPTIONS <? db_option_count budget then Err Metadata
          else if blen q <? at' + 4 then Err Truncated
          else
            let? c := word_at q at' in
            let? n := word_at q (at' + 2) in
            let at' := at' + 4 in
            if blen q <? at' + n then Err Truncated
            else
              let? z := range_ q at' (at' + n) in
              let? p :=
                (if (c =? 3) && (12 <=? n) then
                   let? inner := range_ z 12 n in
                   dhcp6_options levels' (length inner + 1) inner 0 v budget
                 else dhcp6_option c z v budget) in
              loop fuel' q (at' + n) (fst p) (snd p)
      end
  end.
Definition parse_dhcp6_options (q : bytes) (v : Dhcp6Fields) (budget : Dhcp6Budget)
  : result (Dhcp6Fields * Dhcp6Budget) PassiveParseError :=
  dhcp6_options 4 (length q + 1) q 0 v budget.

(** The relayed message among the options of a relay message. *)
Fixpoint relay_options (fuel : nat) (q : bytes) (at' : Z) (relay : option bytes) (budget : Dhcp6Budget)
  : result (option bytes * Dhcp6Budget) PassiveParseError :=
  match fuel with
  | O => Err PFuel
  | S fuel' =>
    if negb (at' <? blen q) then Ok (relay, budget)
    else
      let budget := {| db_option_count := db_option_count budget + 1; db_iaaddr_count := db_iaaddr_count budget |} in
      if (MAX_DHCP_OPTIONS <? db_option_count budget) || (blen q <? at' + 4) then Err Metadata
      else
        let? code := word_at q at' in
        let? len := word_at q (at' + 2) in
        let at' := at' + 4 in
        if blen q <? at' + len then Err Truncated
        else
          let? relay :=
            (if code =? 9 then
               if bool_decide (is_Some relay) || (len =? 0) || (MAX_RELAY_MESSAGE_BYTES <? len) then Err Metadata
               else let? z := range_ q at' (at' + len) in Ok (Some z)
             else Ok relay) in
          relay_options fuel' q (at' + len) relay budget
  end.

Definition client_origin (message_type : Z) : bool := existsb (Z.eqb message_type) [1; 3; 4; 5; 6; 8; 9; 11].
Definition server_origin (message_type : Z) : bool := existsb (Z.eqb message_type) [2; 7; 10].
Definition or_else {A} (a b : option A) : option A := match a with Some _ => a | None => b end.

(** A message of client or server. *)
Definition dhcp6_message (link_mac : option string) (source_ip : option IpAddr) (q : bytes) (message_type : Z)
    (budget : Dhcp6Budget) : Parsed :=
  let client := client_origin message_type in
  let server := server_origin message_type in
  if negb client && negb server then Err Metadata
  else
    let? body := range_ q 4 (blen q) in
    let? p := parse_dhcp6_options body default_dhcp6_fields budget in
    let fields := fst p in
    let client_mac := or_else (d6_client_mac fields) (if client then link_mac else None) in
    let client_ip := or_else (d6_client_ip fields) (if client then source_ip else None) in
    let? out := match d6_client fields with
                | [] => Ok []
                | vals => observation i t client_mac client_ip "dhcpv6" vals
                end in
    match d6_server fields with
    | [] => Ok out
    | vals =>
      let? server_out := observation i t (if server then link_mac else None) (if server then source_ip else None) "dhcpv6"
        (vals ++ [("service"%string, "dhcpv6_server"%string, Service, 3600)]) in
      Ok (out ++ server_out)
    end.

(** [decode_dhcp6] with [hops] relays left, two at first. *)
Fixpoint decode_dhcp6 (hops : nat) (link_mac : option string) (source_ip : option IpAddr) (q : bytes) (budget : Dhcp6Budget) : Parsed :=
  if blen q <? 4 then Err Truncated
  else
    let? message_type := at_ q 0 in
    if (message_type =? 12) || (message_type =? 13) then
      match hops with
      | O => Err Metadata
      | S hops' =>
        if blen q <? 34 then Err Metadata
        else
          let? hop_count := at_ q 1 in
          if 32 <? hop_count then Err Metadata
          else
            let? p := relay_options (length q + 1) q 34 None budget in
            let? relayed := ok_or (fst p) Metadata in
            decode_dhcp6 hops' None None relayed (snd p)
      end
    else dhcp6_message link_mac source_ip q message_type budget.
Definition dhcp6 (m : option string) (src : IpAddr) (q : bytes) : Parsed :=
  decode_dhcp6 2 m (Some src) q {| db_option_count := 0; db_iaaddr_count := 0 |}.
End Frames.

(** ** Names and services *)
Inductive RData :=
  | RPTR (name : string) | RSRV (target : string) (port : Z) | RTXT (txt_data : list bytes) | RA (address : Z)
  | RAAAA (address : Z) | ROther.
Record DnsRecord := { dr_name : string; dr_ttl : Z; dr_data : RData }.
(** The names as hickory prints them, and the three sections of records. *)
Record DnsMessage := {
  dm_queries : list string; dm_answers : list DnsRecord; dm_authorities : list DnsRecord; dm_additionals : list DnsRecord }.

(** An event of the XML reader; the text of an element comes with its decoding and with the
    namespace that the reader binds to a qualified name there. *)
Inductive XmlEvent :=
  | XStart (name local : bytes) | XText (decoded : option string) (resolve : string -> option bytes) | XEnd (name : bytes)
  | XEmpty | XCData | XDocType | XDecl | XPI | XGeneralRef | XComment | XEof.

Record PcapPacket := { pk_data : bytes; pk_orig_len : Z; pk_secs : Z; pk_nanos : Z }.
Record PcapFile := { pf_ethernet : bool; pf_snaplen : Z; pf_packets : list (option PcapPacket) }.

Class PassiveLibs := {
  etherparse_ok : bytes -> bool;
  dns_from_vec : bytes -> option DnsMessage;
  xml_event : bytes -> Z -> option (option bytes * XmlEvent);
  pcap_read : bytes -> option PcapFile
}.

Section Names.
Context `{Calendar} `{PassiveLibs} (i : string) (t : DateTime).

Fixpoint txt_vals (ttl : Z) (l : list bytes) : result (list Val) PassiveParseError :=
  match l with
  | [] => Ok []
  | z :: l' =>
    let? txt := meta_text z in
    let? rest := txt_vals ttl l' in
    Ok (("txt"%string, txt, Service, ttl) :: rest)
  end.

Definition record_vals (r : DnsRecord) : result (list Val) PassiveParseError :=
  let ttl := Z.max 1 (Z.min 86400 (dr_ttl r)) in
  let owner := trim_name (dr_name r) in
  match dr_data r with
  | RPTR x => Ok [("service_instance"%string, (owner +:+ " -> " +:+ trim_name x)%string, Service, ttl)]
  | RSRV target port => Ok [("service_target"%string, (trim_name target +:+ ":" +:+ pretty port)%string, Service, ttl)]
  | RTXT txt => txt_vals ttl txt
  | RA x => Ok [("host_address"%string, v4_text x, Addressing, ttl)]
  | RAAAA x => Ok [("host_address"%string, v6_text x, Addressing, ttl)]
  | ROther => Ok []
  end.
Fixpoint records_vals (l : list DnsRecord) : result (list Val) PassiveParseError :=
  match l with
  | [] => Ok []
  | r :: l' => let? v := record_vals r in let? rest := records_vals l' in Ok (v ++ rest)
  end.

Definition dns (m : option string) (src : IpAddr) (q : bytes) (o : PassiveOptions) (p : string) : Parsed :=
  if MAX_METADATA_BYTES <? blen q then Err Metadata
  else
    let? msg := ok_or (dns_from_vec q) Metadata in
    let queries := if metadata_enabled o
                   then map (fun x => ("query"%string, trim_name x, Naming, 300)) (dm_queries msg) else [] in
    let? records := (if bool_decide (p = "mdns-dns-sd"%string)
                     then records_vals (dm_answers msg ++ dm_authorities msg ++ dm_additionals msg) else Ok []) in
    observation i t m (Some src) p (take (Z.to_nat (MAX_FACTS_PER_OBSERVATION - present m)) (queries ++ records)).

(** The sixteen bytes of a NetBIOS name, two letters each. *)
Fixpoint nbns_raw (n : nat) (e : bytes) (k : Z) : result bytes PassiveParseError :=
  match n with
  | O => Ok []
  | S n' =>
    let? a := at_ e (k * 2) in
    let? b := at_ e (k * 2 + 1) in
    if negb ((65 <=? a) && (a <=? 80)) || negb ((65 <=? b) && (b <=? 80)) then Err Metadata
    else
      let? rest := nbns_raw n' e (k + 1) in
      Ok (Z.lor (Z.shiftl (a - 65) 4) (b - 65) :: rest)
  end.
Definition nbns (m : option string) (src : IpAddr) (q : bytes) : Parsed :=
  if blen q <? 46 then Err Truncated
  else
    let? len := at_ q 12 in
    if negb (len =? 32) then Err Truncated
    else
      let? e := range_ q 13 45 in
      let? raw := nbns_raw 16 e 0 in
      let? head := range_ raw 0 15 in
      let? name := meta_text head in
      let? suffix := at_ raw 15 in
      observation i t m (Some src) "nbns"
        [("name"%string, trim_end name, Naming, 300); ("suffix"%string, ("0x" +:+ hex_width 1 suffix)%string, Naming, 300)].

(** [max-age] in a cache-control header. *)
Fixpoint find_max_age (l : list string) : option Z :=
  match l with
  | [] => None
  | x :: l' => match match strip_prefix "max-age=" (trim x) with Some n => parse_i64 n | None => None end with
               | Some n => Some n
               | None => find_max_age l'
               end
  end.

Fixpoint ssdp_lines (l : list string) (v : list Val) (ttl : Z) : result (list Val * Z) PassiveParseError :=
  match l with
  | [] => Ok (v, ttl)
  | line :: l' =>
    if str_is_empty line then Ok (v, ttl)
    else
      let? kz := ok_or (split_once ":"%char line) Metadata in
      let '(k, z) := kz in
      if (64 <? str_len k) || (1024 <? str_len z) then Err Metadata
      else
        let key := to_ascii_lowercase (trim k) in
        if bool_decide (key = "st"%string) || bool_decide (key = "nt"%string)
        then ssdp_lines l' (v ++ [("service_type"%string, trim z, Service, ttl)]) ttl
        else if bool_decide (key = "usn"%string) then ssdp_lines l' (v ++ [("usn"%string, trim z, Service, ttl)]) ttl
        else if bool_decide (key = "location"%string) then ssdp_lines l' (v ++ [("location"%string, trim z, Service, ttl)]) ttl
        else if bool_decide (key = "cache-control"%string)
        then ssdp_lines l' v (match find_max_age (split_on ","%char (to_ascii_lowercase z)) with
                              | Some n => Z.max 1 (Z.min 86400 n)
                              | None => ttl
                              end)
        else ssdp_lines l' v ttl
  end.
Definition ssdp (m : option string) (src : IpAddr) (q : bytes) : Parsed :=
  let? x := meta_text q in
  match split_on2 (ascii_of_N 13) (ascii_of_N 10) x with
  | [] => Err Metadata
  | start :: lines =>
    if negb (bool_decide (start = "M-SEARCH * HTTP/1.1"%string) || bool_decide (start = "NOTIFY * HTTP/1.1"%string)
             || bool_decide (start = "HTTP/1.1 200 OK"%string)) then Err Metadata
    else
      let? p := ssdp_lines (take 64 lines) [] 300 in
      observation i t m (Some src) "ssdp-upnp" (map (set_ttl (snd p)) (fst p))
  end.
End Names.

(** ** Web services discovery *)
Definition SOAP12 : bytes := str_bytes "http://www.w3.org/2003/05/soap-envelope".
Definition WSA : bytes := str_bytes "http://www.w3.org/2005/08/addressing".
Definition WSD09 : bytes := str_bytes "http://docs.oasis-open.org/ws-dd/ns/discovery/2009/01".
Definition WSD05 : bytes := str_bytes "http://schemas.xmlsoap.org/ws/2005/04/discovery".
Definition ONVIF : bytes := str_bytes "http://www.onvif.org/ver10/network/wsdl".

Record ActiveXmlField := { ax_key : string; ax_depth : Z; ax_consumed : bool }.
Record SoapState := {
  so_depth : Z; so_current : option ActiveXmlField; so_v : list Val; so_stack : list (bytes * option bytes);
  so_envelope : option Z; so_body : option Z; so_matches : option Z; so_probe : option Z; so_endpoint : option Z;
  so_onvif : bool }.
Definition initial_soap : SoapState := {|
  so_depth := 0; so_current := None; so_v := []; so_stack := []; so_envelope := None; so_body := None; so_matches := None;
  so_probe := None; so_endpoint := None; so_onvif := false |}.

(** Where a start tag is recognised: the element that is entered or the field that is read. *)
Inductive SoapMark := MEnvelope | MBody | MMatches | MProbe | MEndpoint | MField (key : string) | MNone.

Definition soap_mark (local : bytes) (ns : option bytes) (depth : Z) (s : SoapState) : SoapMark :=
  let named name := bool_decide (local = str_bytes name) in
  let namespace_is uri := bool_decide (ns = Some uri) in
  let is_wsd := namespace_is WSD09 || namespace_is WSD05 in
  let under o := bool_decide (o = Some (depth - 1)) in
  if named "Envelope" && (depth =? 1) && namespace_is SOAP12 then MEnvelope
  else if named "Body" && under (so_envelope s) && namespace_is SOAP12 then MBody
  else if named "ProbeMatches" && under (so_body s) && is_wsd then MMatches
  else if named "ProbeMatch" && is_wsd && (under (so_body s) || under (so_matches s)) then MProbe
  else if named "EndpointReference" && under (so_probe s) && namespace_is WSA then MEndpoint
  else if named "Address" && under (so_endpoint s) && namespace_is WSA then MField "endpoint"
  else if named "Types" && under (so_probe s) && is_wsd then MField "types"
  else if named "Scopes" && under (so_probe s) && is_wsd then MField "scopes"
  else if named "XAddrs" && under (so_probe s) && is_wsd then MField "xaddrs"
  else MNone.

Definition soap_start (name local : bytes) (ns : option bytes) (s : SoapState) : result SoapState PassiveParseError :=
  if bool_decide (is_Some (so_current s)) then Err Metadata
  else
    let depth := so_depth s + 1 in
    if 32 <? depth then Err Metadata
    else
      let mark := soap_mark local ns depth s in
      let enter m o := match m, mark with
        | MEnvelope, MEnvelope | MBody, MBody | MMatches, MMatches | MProbe, MProbe | MEndpoint, MEndpoint => Some depth
        | _, _ => o
        end in
      Ok {| so_depth := depth;
            so_current := match mark with
                          | MField key => Some {| ax_key := key; ax_depth := depth; ax_consumed := false |}
                          | _ => None
                          end;
            so_v := so_v s; so_stack := (name, ns) :: so_stack s;
            so_envelope := enter MEnvelope (so_envelope s); so_body := enter MBody (so_body s);
            so_matches := enter MMatches (so_matches s); so_probe := enter MProbe (so_probe s);
            so_endpoint := enter MEndpoint (so_endpoint s); so_onvif := so_onvif s |}.

Definition soap_text (decoded : option string) (resolve : string -> option bytes) (s : SoapState)
  : result SoapState PassiveParseError :=
  match so_current s with
  | None => Ok s
  | Some active =>
    if negb (ax_depth active =? so_depth s) then Err Metadata
    else if ax_consumed active then Err Metadata
    else
      let k := ax_key active in
      let? z := ok_or decoded Metadata in
      if 1024 <? str_len z then Err Metadata
      else
        let words := ascii_words z EmptyString in
        let onvif :=
          if bool_decide (k = "types"%string) then existsb (fun q => bool_decide (resolve q = Some ONVIF)) words
          else if bool_decide (k = "scopes"%string) then existsb (fun q => starts_with q "onvif://www.onvif.org/") words
          else false in
        Ok {| so_depth := so_depth s; so_current := Some {| ax_key := k; ax_depth := ax_depth active; ax_consumed := true |};
              so_v := so_v s ++ [(k, z, Service, 300)]; so_stack := so_stack s; so_envelope := so_envelope s;
              so_body := so_body s; so_matches := so_matches s; so_probe := so_probe s; so_endpoint := so_endpoint s;
              so_onvif := so_onvif s || onvif |}
  end.

Definition soap_end (name : bytes) (ns : option bytes) (s : SoapState) : result SoapState PassiveParseError :=
  match so_stack s with
  | [] => Err Metadata
  | (local, start_namespace) :: stack =>
    if negb (bool_decide (local = name)) || negb (bool_decide (start_namespace = ns)) then Err Metadata
    else
      let leave o := if bool_decide (o = Some (so_depth s)) then None else o in
      if so_depth s <? 1 then Err Metadata
      else
        Ok {| so_depth := so_depth s - 1;
              so_current := match so_current s with
                            | Some active => if ax_depth active =? so_depth s then None else Some active
                            | None => None
                            end;
              so_v := so_v s; so_stack := stack; so_envelope := so_envelope s; so_body := leave (so_body s);
              so_matches := leave (so_matches s); so_probe := leave (so_probe s); so_endpoint := leave (so_endpoint s);
              so_onvif := so_onvif s |}
  end.

Definition soap_step (ns : option bytes) (e : XmlEvent) (s : SoapState) : result SoapState PassiveParseError :=
  match e with
  | XStart name local => soap_start name local ns s
  | XText decoded resolve => soap_text decoded resolve s
  | XEnd name => soap_end name ns s
  | XEmpty | XCData => if bool_decide (is_Some (so_current s)) then Err Metadata else Ok s
  | XDocType | XDecl | XPI | XGeneralRef => Err Metadata
  | XComment | XEof => Ok s
  end.

Section Discovery.
Context `{Calendar} `{PassiveLibs} (i : string) (t : DateTime).

(** At most [left] more events; running out of them is the source's own error. *)
Fixpoint soap_loop (left : nat) (q : bytes) (events : Z) (s : SoapState) : result SoapState PassiveParseError :=
  match left with
  | O => Err Metadata
  | S left' =>
    match xml_event q events with
    | None => Err Metadata
    | Some (_, XEof) => Ok s
    | Some (ns, e) => let? s := soap_step ns e s in soap_loop left' q (events + 1) s
    end
  end.

Definition soap (m : option string) (src : IpAddr) (q : bytes) : Parsed :=
  if MAX_METADATA_BYTES <? blen q then Err Metadata
  else
    let? _ := ok_or (from_utf8 q) Metadata in
    let? s := soap_loop 256 q 0 initial_soap in
    if bool_decide (so_envelope s = None) || negb (bool_decide (so_stack s = [])) || negb (so_depth s =? 0)
       || match so_v s with [] => true | _ => false end then Err Metadata
    else observation i t m (Some src) (if so_onvif s then "onvif-discovery" else "ws-discovery") (so_v s).

(** ** Transport and network layers *)
Definition one_of_ports (a : Z) (l : list Z) : bool := existsb (Z.eqb a) l.

Definition udp (m : option string) (src dst : IpAddr) (p : bytes) (o : PassiveOptions) : Parsed :=
  if blen p <? 8 then Err Truncated
  else
    let? s := word_at p 0 in
    let? d := word_at p 2 in
    let? n := word_at p 4 in
    if (n <? 8) || (blen p <? n) then Err InvalidLength
    else
      let? q := range_ p 8 n in
      let either k := (s =? k) || (d =? k) in
      if one_of_ports s [67; 68] && one_of_ports d [67; 68] then dhcp4 i t m src q
      else if one_of_ports s [546; 547] && one_of_ports d [546; 547] then dhcp6 i t m src q
      else if either 53 then dns i t m src q o "dns-query"
      else if either 5353 then dns i t m src q o "mdns-dns-sd"
      else if either 5355 then dns i t m src q o "llmnr"
      else if either 137 then nbns i t m src q
      else if either 1900 then ssdp i t m src q
      else if either 3702 then soap m src q
      else observation i t m (Some src) "udp-flow" (flow_vals src dst s d (blen q)).

Definition ipv4 (m : option string) (p : bytes) (o : PassiveOptions) : Parsed :=
  if blen p <? 20 then Err Truncated
  else
    let? b0 := at_ p 0 in
    if negb (Z.shiftr b0 4 =? 4) then Err Truncated
    else
      let ihl := Z.land b0 15 * 4 in
      let? len := word_at p 2 in
      if (ihl <? 20) || (len <? ihl) || (blen p <? len) then Err InvalidLength
      else
        let? fragment := word_at p 6 in
        if negb (Z.land fragment 16383 =? 0) then Ok []
        else
          let? src := v4_at p 12 in
          let? dst := v4_at p 16 in
          let? body := range_ p ihl len in
          let? proto := at_ p 9 in
          if proto =? 17 then udp m (V4 src) (V4 dst) body o
          else if proto =? 6 then tcp i t m (V4 src) (V4 dst) body
          else if proto =? 2 then igmp i t m (V4 src) body
          else Ok [].

(** The extension headers: the next header and its offset, or nothing for a fragment. *)
Fixpoint ipv6_headers (left : nat) (p : bytes) (next at' end_ : Z) : result (option (Z * Z)) PassiveParseError :=
  match left with
  | O => Ok (Some (next, at'))
  | S left' =>
    if (next =? 0) || (next =? 43) || (next =? 60) then
      if end_ <? at' + 2 then Err Truncated
      else
        let? len := at_ p (at' + 1) in
        let n := (len + 1) * 8 in
        if end_ <? at' + n then Err InvalidLength
        else let? next := at_ p at' in ipv6_headers left' p next (at' + n) end_
    else if next =? 44 then if end_ <? at' + 8 then Err Truncated else Ok None
    else Ok (Some (next, at'))
  end.

Definition ipv6 (m : option string) (p : bytes) (o : PassiveOptions) : Parsed :=
  if blen p <? 40 then Err Truncated
  else
    let? b0 := at_ p 0 in
    if negb (Z.shiftr b0 4 =? 6) then Err Truncated
    else
      let? plen := word_at p 4 in
      if blen p - 40 <? plen then Err InvalidLength
      else
        let? src := v6_at p 8 in
        let? dst := v6_at p 24 in
        let? next := at_ p 6 in
        let end_ := 40 + plen in
        let? r := ipv6_headers 8 p next 40 end_ in
        match r with
        | None => Ok []
        | Some (next, at') =>
          let? body := range_ p at' end_ in
          if next =? 17 then udp m (V6 src) (V6 dst) body o
          else if next =? 6 then tcp i t m (V6 src) (V6 dst) body
          else if next =? 58 then icmp6 i t m (V6 src) body
          else Ok []
        end.
End Discovery.
