(* ===== verification/PassiveLink.v ===== *)
(** * Passive capture: link advertisements, frames and captures

    crates/lattice-sensor/src/passive/link_discovery.rs (LLDP and CDP), and [normalize] and
    [ingest_pcap_report] of passive.rs, which put the decoders together. *)

From S2P Require Import Prelude Time Text Bytes Net F32 Domain Wire Passive.

Definition Advertisement : Type := list (string * string) * Z.

(** ** Text *)
Definition link_text (b : bytes) : result string PassiveParseError :=
  if 512 <? blen b then Err Metadata
  else Ok (string_of_list_ascii (strip_control (String.list_ascii_of_string (from_utf8_lossy b)))).

Definition is_ascii_graphic (b : Z) : bool := (33 <=? b) && (b <=? 126).

Definition identifier (b : bytes) : result string PassiveParseError :=
  if (blen b <? 2) || (256 <? blen b) then Err Metadata
  else
    let? kind := at_ b 0 in
    if negb ((1 <=? kind) && (kind <=? 7)) then Err Metadata
    else
      let? rest := range_ b 1 (blen b) in
      if forallb (fun x => is_ascii_graphic x || (x =? 32)) rest then link_text rest else Ok (hex_text rest).

(** ** LLDP *)
(** What a value of the kind adds, and the time to live it sets. *)
Definition lldp_value (kind : Z) (value : bytes) (values : list (string * string)) (ttl : Z)
  : result Advertisement PassiveParseError :=
  let push key r := let? s := r in Ok (values ++ [(key, s)], ttl) in
  if kind =? 1 then push "chassis_id"%string (identifier value)
  else if kind =? 2 then push "port_id"%string (identifier value)
  else if kind =? 3 then
    if negb (blen value =? 2) then Err Metadata
    else let? ttl := word_at value 0 in Ok (values ++ [("ttl_seconds"%string, pretty ttl)], ttl)
  else if kind =? 4 then push "port_description"%string (link_text value)
  else if kind =? 5 then push "system_name"%string (link_text value)
  else if kind =? 6 then push "system_description"%string (link_text value)
  else if kind =? 7 then
    if negb (blen value =? 4) then Err Metadata
    else let? caps := word_at value 2 in Ok (values ++ [("enabled_capabilities"%string, ("0x" +:+ hex_width 2 caps)%string)], ttl)
  else Ok (values, ttl).

(** The values from [index] on, [left] of them at most. *)
Fixpoint lldp_loop (left : nat) (index : Z) (b : bytes) (offset : Z) (values : list (string * string)) (ttl : Z)
  : result Advertisement PassiveParseError :=
  match left with
  | O => Err Metadata
  | S left' =>
    let? head := ok_or (get_range b offset (offset + 2)) Truncated in
    let? header := word_at head 0 in
    let kind := Z.shiftr header 9 in
    let len := Z.land header 511 in
    let offset := offset + 2 in
    let? value := ok_or (get_range b offset (offset + len)) Truncated in
    let offset := offset + len in
    if (index <? 3) && negb (kind =? index + 1) then Err Metadata
    else if (3 <=? index) && ((1 <=? kind) && (kind <=? 3)) then Err Metadata
    else if kind =? 0 then if negb (len =? 0) || (index <? 3) then Err Metadata else Ok (values, ttl)
    else
      let? p := lldp_value kind value values ttl in
      if 24 <? blen (fst p) then Err Metadata
      else lldp_loop left' (index + 1) b offset (fst p) (snd p)
  end.
Definition lldp (b : bytes) : result Advertisement PassiveParseError :=
  if 9000 <? blen b then Err Metadata else lldp_loop 64 0 b 0 [] 0.

(** ** CDP *)
(** The sum of the words, the odd byte with its sign. *)
Fixpoint word_sum (sum : Z) (b : bytes) : Z :=
  match b with
  | a :: c :: b' => word_sum (sum + be16 a c) b'
  | [last] => sum + (if 128 <=? last then 65280 + last - 1 else last)
  | [] => sum
  end.
Fixpoint fold_carry (fuel : nat) (sum : Z) : Z :=
  match fuel with
  | O => sum
  | S fuel' => if 65535 <? sum then fold_carry fuel' (Z.land sum 65535 + Z.shiftr sum 16) else sum
  end.
Definition checksum (b : bytes) : Z := 65535 - fold_carry 4 (word_sum 0 b).

Definition cdp_key (kind : Z) : option string :=
  if kind =? 1 then Some "device_id"%string else if kind =? 3 then Some "port_id"%string
  else if kind =? 5 then Some "software_version"%string else if kind =? 6 then Some "platform"%string
  else if kind =? 20 then Some "system_name"%string else None.

Fixpoint cdp_loop (left : nat) (b : bytes) (offset : Z) (seen : list Z) (values : list (string * string)) (ttl : Z)
  : result Advertisement PassiveParseError :=
  match left with
  | O => Err Metadata
  | S left' =>
    let seen_ k := existsb (Z.eqb k) seen in
    if offset =? blen b then if seen_ 1 && seen_ 3 then Ok (values, ttl) else Err Metadata
    else
      let? h := ok_or (get_range b offset (offset + 4)) Truncated in
      let? kind := word_at h 0 in
      let? len := word_at h 2 in
      if len <? 4 then Err Metadata
      else
        let? value := ok_or (get_range b (offset + 4) (offset + len)) Truncated in
        let offset := offset + len in
        let? p := match cdp_key kind with
                  | None => Ok (seen, values)
                  | Some key =>
                    if seen_ kind || (blen value =? 0) then Err Metadata
                    else let? s := link_text value in Ok (kind :: seen, values ++ [(key, s)])
                  end in
        let? values :=
          (if kind =? 4 then
             if negb (blen value =? 4) then Err Metadata
             else Ok (snd p ++ [("capabilities"%string, ("0x" +:+ hex_width 4 (be_value value))%string)])
           else Ok (snd p)) in
        if 24 <? blen values then Err Metadata
        else cdp_loop left' b offset (fst p) values ttl
  end.
Definition cdp (b : bytes) : result Advertisement PassiveParseError :=
  if (blen b <? 4) || (1500 <? blen b) then Err Metadata
  else
    let? version := at_ b 0 in
    if negb ((version =? 1) || (version =? 2)) || negb (checksum b =? 0) then Err Metadata
    else
      let? ttl := at_ b 1 in
      cdp_loop 64 b 4 [] [("ttl_seconds"%string, pretty ttl)] ttl.

(** ** Frames *)
(** Up to two VLAN tags: the type behind them and its offset. *)
Fixpoint vlan_tags (left : nat) (f : bytes) (kind offset : Z) : result (Z * Z) PassiveParseError :=
  match left with
  | O => Ok (kind, offset)
  | S left' =>
    if (kind =? 33024) || (kind =? 34984) then
      let? tag := ok_or (get_range f offset (offset + 4)) Truncated in
      let? kind := word_at tag 2 in
      vlan_tags left' f kind (offset + 4)
    else Ok (kind, offset)
  end.

Section Normalize.
Context `{Calendar} `{PassiveLibs}.

Definition with_expiry (t : DateTime) (ttl : Z) (f : EvidenceFact) : EvidenceFact := {|
  ef_family := ef_family f; ef_source := ef_source f; ef_key := ef_key f; ef_value := ef_value f;
  ef_confidence := ef_confidence f; ef_observed_at := ef_observed_at f;
  ef_expires_at := checked_add_signed t (seconds ttl); ef_owner_confirmed := ef_owner_confirmed f |}.
Definition map_facts (g : EvidenceFact -> EvidenceFact) (o : PassiveObservation) : PassiveObservation := {|
  po_interface := po_interface o; po_observed_at := po_observed_at o; po_subject_mac := po_subject_mac o;
  po_subject_ip := po_subject_ip o; po_protocol := po_protocol o; po_facts := map g (po_facts o) |}.

(** The advertisement of a frame with its protocol, if it is one. *)
Definition advertisement (f : bytes) : result (option (string * Advertisement)) PassiveParseError :=
  let? kind := word_at f 12 in
  let? p := vlan_tags 2 f kind 14 in
  let '(kind, offset) := p in
  let? dst := range_ f 0 6 in
  if kind =? 35020 then
    let? head := range_ f 0 5 in
    let? last := at_ f 5 in
    if negb (bool_decide (head = [1; 128; 194; 0; 0])) || negb (existsb (Z.eqb last) [0; 3; 14]) then Err Metadata
    else
      let? body := range_ f offset (blen f) in
      let? a := lldp body in Ok (Some ("lldp"%string, a))
  else if (kind <=? 1500) && bool_decide (dst = [1; 0; 12; 204; 204; 204]) then
    let? payload := ok_or (get_range f offset (offset + kind)) Truncated in
    if negb (bool_decide (get_range payload 0 8 = Some [170; 170; 3; 0; 0; 12; 32; 0])) then Ok None
    else
      let? body := range_ payload 8 (blen payload) in
      let? a := cdp body in Ok (Some ("cdp"%string, a))
  else Ok None.

Definition link_decode (i : string) (t : DateTime) (f : bytes) (o : PassiveOptions)
  : result (option (list PassiveObservation)) PassiveParseError :=
  let? found := advertisement f in
  match found with
  | None => Ok None
  | Some (protocol, (values, ttl)) =>
    if negb (metadata_enabled o) then Ok (Some [])
    else
      let? b6 := at_ f 6 in
      let? source := range_ f 6 12 in
      if negb (Z.land b6 1 =? 0) || bool_decide (source = [0; 0; 0; 0; 0; 0]) then Err Metadata
      else
        let? m := passive_mac source in
        let? observations := observation i t (Some m) None protocol
          (map (fun kv => (fst kv, snd kv, Service, ttl)) values) in
        Ok (Some (map (map_facts (with_expiry t ttl)) observations))
  end.

Definition normalize (i : string) (t : DateTime) (f : bytes) (o : PassiveOptions) : Parsed :=
  if MAX_FRAME_BYTES <? blen f then Err OversizedFrame
  else if blen f <? 14 then Err Truncated
  else
    let? link := link_decode i t f o in
    match link with
    | Some observations =>
      let? _ := validate_normalized observations MAX_OBSERVATIONS_PER_FRAME in
      Ok observations
    | None =>
      if negb (etherparse_ok f) then Err InvalidLength
      else
        let? source := range_ f 6 12 in
        let? m := passive_mac source in
        let? kind := word_at f 12 in
        let? body := range_ f 14 (blen f) in
        let? out := (if kind =? 2054 then arp i t (Some m) body
                     else if kind =? 2048 then ipv4 i t (Some m) body o
                     else if kind =? 34525 then ipv6 i t (Some m) body o
                     else Ok []) in
        let? _ := validate_normalized out MAX_OBSERVATIONS_PER_FRAME in
        Ok out
    end.

(** ** Captures *)
(** [Utc.timestamp_opt(secs, nanos).single()] *)
Definition timestamp_opt (secs nanos : Z) : option DateTime :=
  if in_i64 secs then checked_add_signed 0 (secs * 1000000000 + nanos) else None.

Fixpoint add_value_bytes (total : Z) (l : list PassiveObservation) : result Z PassiveParseError :=
  match l with
  | [] => Ok total
  | one :: l' =>
    let? total := ok_or (checked_add_u64 total (sum_len (map ef_value (po_facts one)))) Metadata in
    if MAX_NORMALIZED_VALUE_BYTES <? total then Err Metadata else add_value_bytes total l'
  end.

Record IngestState := { is_out : list PassiveObservation; is_records : Z; is_skipped : Z; is_value_bytes : Z }.

Definition packet_invalid (snaplen : Z) (p : PcapPacket) : bool :=
  (MAX_FRAME_BYTES <? blen (pk_data p)) || (MAX_FRAME_BYTES <? pk_orig_len p) || (pk_orig_len p <? blen (pk_data p))
  || (snaplen <? blen (pk_data p)).

Definition ingest_packet (i : string) (o : PassiveOptions) (snaplen : Z) (next : option PcapPacket) (s : IngestState)
  : result IngestState PassiveParseError :=
  let records := is_records s + 1 in
  if MAX_PCAP_RECORDS <? records then Err Metadata
  else
    let? p := ok_or next Truncated in
    if packet_invalid snaplen p then Err InvalidLength
    else
      let? t := ok_or (timestamp_opt (pk_secs p) (pk_nanos p)) PcapHeader in
      match normalize i t (pk_data p) o with
      | Err Metadata | Err Truncated =>
        let skipped := is_skipped s + 1 in
        if MAX_SKIPPED_FRAMES <? skipped then Err Metadata
        else Ok {| is_out := is_out s; is_records := records; is_skipped := skipped; is_value_bytes := is_value_bytes s |}
      | Err error => Err error
      | Ok observations =>
        if MAX_OBSERVATIONS <? blen (is_out s) + blen observations then Err Metadata
        else
          let? value_bytes := add_value_bytes (is_value_bytes s) observations in
          Ok {| is_out := is_out s ++ observations; is_records := records; is_skipped := is_skipped s;
                is_value_bytes := value_bytes |}
      end.

Fixpoint ingest_loop (i : string) (o : PassiveOptions) (snaplen : Z) (l : list (option PcapPacket)) (s : IngestState)
  : result IngestState PassiveParseError :=
  match l with
  | [] => Ok s
  | next :: l' => let? s := ingest_packet i o snaplen next s in ingest_loop i o snaplen l' s
  end.

Definition ingest_pcap_report (i : string) (b : bytes) (o : PassiveOptions) : result PcapIngest PassiveParseError :=
  if MAX_PCAP_BYTES <? blen b then Err OversizedFrame
  else
    let? h := ok_or (pcap_read b) PcapHeader in
    if negb (pf_ethernet h) || (pf_snaplen h =? 0) || (MAX_FRAME_BYTES <? pf_snaplen h) then Err PcapHeader
    else
      let? s := ingest_loop i o (pf_snaplen h) (pf_packets h)
                  {| is_out := []; is_records := 0; is_skipped := 0; is_value_bytes := 0 |} in
      Ok {| pi_observations := is_out s; pi_skipped_frames := is_skipped s |}.

Definition ingest_pcap (i : string) (b : bytes) (o : PassiveOptions) : Parsed :=
  let? report := ingest_pcap_report i b o in Ok (pi_observations report).
End Normalize.
