(* ===== verification/PassiveProps.v ===== *)
(** * Passive capture: no frame can break or flood the sensor *)

From S2P Require Import Prelude Time Text Bytes Net F32 Domain Wire Passive PassiveLink.

(** ** A weakest precondition that excludes panics *)
Definition wpr {A} (r : result A PassiveParseError) (Q : A -> Prop) : Prop :=
  match r with
  | Ok a => Q a
  | Err e => e <> PPanic /\ e <> PFuel
  end.

Lemma wpr_bind {A B} (r : result A PassiveParseError) (k : A -> result B PassiveParseError) Q :
  wpr r (fun a => wpr (k a) Q) -> wpr (result_bind r k) Q.
Proof. by destruct r. Qed.
Lemma wpr_mono {A} (r : result A PassiveParseError) (P Q : A -> Prop) : wpr r P -> (forall a, P a -> Q a) -> wpr r Q.
Proof. destruct r; cbn; auto. Qed.
Lemma wpr_ok_or {A} (o : option A) e (Q : A -> Prop) :
  e <> PPanic -> e <> PFuel -> (forall a, o = Some a -> Q a) -> wpr (ok_or o e) Q.
Proof. destruct o; cbn; auto. Qed.

Definition octets (p : bytes) : Prop := Forall is_u8 p.

Lemma wpr_at p i (Q : Z -> Prop) : octets p -> 0 <= i < blen p -> (forall b, is_u8 b -> Q b) -> wpr (at_ p i) Q.
Proof.
  intros Hp Hi HQ. destruct (idx_ok PPanic p i Hi) as (b & -> & Hin). cbn. apply HQ.
  unfold octets in Hp. rewrite Forall_forall in Hp. apply Hp. by apply list_elem_of_In.
Qed.
Lemma wpr_range p a b (Q : bytes -> Prop) :
  octets p -> 0 <= a <= b -> b <= blen p -> (forall z, octets z -> blen z = b - a -> Q z) -> wpr (range_ p a b) Q.
Proof.
  intros Hp H1 H2 HQ. destruct (slice_ok PPanic p a b H1 H2) as (z & -> & Hz). cbn. apply HQ.
  - by eapply get_range_forall.
  - by apply get_range_some in Hz as (_ & _ & _ & ?).
Qed.
Lemma wpr_get p a b e (Q : bytes -> Prop) :
  octets p -> e <> PPanic -> e <> PFuel -> (forall z, octets z -> 0 <= a <= b -> b <= blen p -> blen z = b - a -> Q z) ->
  wpr (ok_or (get_range p a b) e) Q.
Proof.
  intros Hp He He' HQ. apply wpr_ok_or; [done|done|]. intros z Hz. pose proof (get_range_some _ _ _ _ Hz) as (_ & ? & ? & ?).
  apply HQ; [by eapply get_range_forall|done..].
Qed.
Lemma wpr_word p i (Q : Z -> Prop) : octets p -> 0 <= i -> i + 1 < blen p -> (forall w, 0 <= w < 65536 -> Q w) -> wpr (word_at p i) Q.
Proof.
  intros Hp Hi Hl HQ. unfold word_at. apply wpr_bind, wpr_at; [done|lia|]. intros a Ha. apply wpr_bind, wpr_at; [done|lia|].
  intros b Hb. apply HQ. unfold be16, is_u8 in *. lia.
Qed.
Lemma wpr_v4 p i (Q : Z -> Prop) : octets p -> 0 <= i -> i + 3 < blen p -> (forall a, Q a) -> wpr (v4_at p i) Q.
Proof.
  intros Hp Hi Hl HQ. unfold v4_at. do 4 (apply wpr_bind, wpr_at; [done|lia|]; intros ? _). apply HQ.
Qed.
Lemma wpr_v6 p i (Q : Z -> Prop) : octets p -> 0 <= i -> i + 16 <= blen p -> (forall a, Q a) -> wpr (v6_at p i) Q.
Proof. intros Hp Hi Hl HQ. unfold v6_at. apply wpr_bind, wpr_range; [done|lia|lia|]. intros z _ _. apply HQ. Qed.
Lemma wpr_mac p (Q : string -> Prop) : (forall s, Q s) -> wpr (passive_mac p) Q.
Proof. intros HQ. unfold passive_mac. destruct (negb _); cbn; auto. Qed.
Lemma wpr_text p (Q : string -> Prop) : (forall s, Q s) -> wpr (meta_text p) Q.
Proof.
  intros HQ. unfold meta_text. destruct (_ <? _); [by split|]. apply wpr_bind, wpr_ok_or; [done|done|]. intros s _.
  destruct (has_odd_control s); cbn; auto.
Qed.

(** A loop over a slice: the offset stays inside and the fuel covers what is left. *)
Definition in_slice (fuel : nat) (p : bytes) (at' : Z) : Prop := 0 <= at' <= blen p /\ blen p - at' < Z.of_nat fuel.

(** Walks a decoder: reads are in range by the tests before them. *)
Ltac side := unfold in_slice, is_u8, MAX_DUID_BYTES, MAX_RELAY_MESSAGE_BYTES in *; lia.
Ltac wire_step :=
  match goal with
  | |- wpr (result_bind _ _) _ => apply wpr_bind
  | |- wpr (Err _) _ => split; discriminate
  | |- wpr (Ok _) _ => cbn [wpr]
  | |- wpr (at_ _ _) _ => apply wpr_at; [assumption|side|intros]
  | |- wpr (range_ _ _ _) _ => apply wpr_range; [assumption|side|side|intros]
  | |- wpr (word_at _ _) _ => apply wpr_word; [assumption|side|side|intros]
  | |- wpr (v4_at _ _) _ => apply wpr_v4; [assumption|side|side|intros]
  | |- wpr (v6_at _ _) _ => apply wpr_v6; [assumption|side|side|intros]
  | |- wpr (passive_mac _) _ => apply wpr_mac; intros
  | |- wpr (meta_text _) _ => apply wpr_text; intros
  | |- wpr (ok_or (get_range _ _ _) _) _ => apply wpr_get; [assumption|discriminate|discriminate|intros]
  | |- wpr (ok_or _ _) _ => apply wpr_ok_or; [discriminate|discriminate|intros]
  | |- wpr (if ?b then _ else _) _ => let E := fresh "E" in destruct b eqn:E; bprop
  | |- wpr (let _ := _ in _) _ => cbv zeta
  end.
Ltac wire := repeat wire_step.

(** ** What an observation promises *)
Section Observations.
Context `{Calendar} (i : string) (t : DateTime) (o : PassiveOptions).

(** A day later is still on the calendar. *)
Definition in_calendar : Prop := cal_min <= t /\ t + seconds 86400 <= cal_max.

Record fact_ok (protocol : string) (f : EvidenceFact) : Prop := {
  fk_source : ef_source f = ("passive." +:+ protocol)%string;
  fk_key : str_len (ef_key f) <= 64;
  fk_value : str_len (ef_value f) <= MAX_VALUE_BYTES;
  fk_time : ef_observed_at f = t;
  fk_expiry : in_calendar -> exists e, ef_expires_at f = Some e /\ t <= e <= t + seconds 86400;
  fk_owner : ef_owner_confirmed f = false;
  fk_private : metadata_enabled o = false -> ef_key f <> "query"%string
}.
Record obs_ok (one : PassiveObservation) : Prop := {
  ob_interface : po_interface one = i;
  ob_time : po_observed_at one = t;
  ob_facts : Forall (fact_ok (po_protocol one)) (po_facts one);
  ob_count : blen (po_facts one) <= MAX_FACTS_PER_OBSERVATION
}.
Definition obs_all (out : list PassiveObservation) : Prop := Forall obs_ok out.

(** No value is the name of a query, unless metadata is wanted. *)
Definition val_private (v : Val) : Prop := metadata_enabled o = false -> fst (fst (fst v)) <> "query"%string.
Definition plain (vals : list Val) : Prop := Forall val_private vals.

Lemma passive_fact_ok p key value family ttl :
  val_private (key, value, family, ttl) -> wpr (passive_fact ("passive." +:+ p)%string key value family t ttl) (fact_ok p).
Proof.
  intros Hk. unfold passive_fact. wire_step; [wire|]. apply wpr_bind, wpr_ok_or; [done|done|]. intros e [-> _]%checked_add_some.
  cbn. split; cbn; try done; try lia. intros _. eexists. split; [done|]. unfold seconds. lia.
Qed.

Lemma val_facts_ok p vals :
  plain vals -> wpr (val_facts ("passive." +:+ p)%string t vals) (fun l => Forall (fact_ok p) l /\ length l = length vals).
Proof.
  induction 1 as [|[[[k v] f] ttl] vals Hv _ IH]; cbn [val_facts]; [by split|].
  apply wpr_bind. eapply wpr_mono; [by apply passive_fact_ok|]. intros one Hone. apply wpr_bind. eapply wpr_mono; [exact IH|].
  intros rest [Hr Hl]. cbn. split; [by constructor|lia].
Qed.

Lemma wpr_observation m ip p vals : plain vals -> wpr (observation i t m ip p vals) obs_all.
Proof.
  intros Hv. unfold observation. wire_step; [wire|]. cbv zeta. apply wpr_bind.
  apply (wpr_mono _ (fun own => Forall (fact_ok p) own /\ blen own = present m)).
  { destruct m as [m|]; [|by cbn]. apply wpr_bind. eapply wpr_mono; [by apply passive_fact_ok|]. intros f Hf. cbn. by rewrite Forall_singleton. }
  intros own [Hown Hlen]. apply wpr_bind. eapply wpr_mono; [by apply val_facts_ok|]. intros facts [Hf Hl]. cbn.
  constructor; [|constructor]. split; cbn; [done|done|by apply Forall_app|]. unfold blen in *. rewrite length_app. lia.
Qed.
End Observations.

Ltac plain_list := repeat (apply Forall_cons_2; [intros _; discriminate|]); apply Forall_nil_2.

(** ** Decoders *)
Section Decoders.
Context `{Calendar} (i : string) (t : DateTime) (o : PassiveOptions).

Lemma arp_ok m p : octets p -> wpr (arp i t m p) (obs_all i t o).
Proof. intros Hp. unfold arp. wire; [constructor|]. apply wpr_observation. plain_list. Qed.

Lemma flow_plain src dst s d n : plain o (flow_vals src dst s d n).
Proof. plain_list. Qed.

Lemma tcp_ok m src dst p : octets p -> wpr (tcp i t m src dst p) (obs_all i t o).
Proof. intros Hp. unfold tcp. wire. apply wpr_observation, flow_plain. Qed.

Lemma igmp_ok m src p : octets p -> wpr (igmp i t m src p) (obs_all i t o).
Proof. intros Hp. unfold igmp. wire. apply wpr_observation. plain_list. Qed.

Lemma in_slice_start p at' : 0 <= at' <= blen p -> in_slice (length p + 1) p at'.
Proof. unfold in_slice, blen. lia. Qed.

Lemma ndp_options_ok fuel p at' v :
  octets p -> in_slice fuel p at' -> plain o v -> wpr (ndp_options fuel p at' v) (plain o).
Proof.
  intros Hp. revert at' v. induction fuel as [|fuel IH]; intros at' v [Hat Hf] Hv; [lia|]. cbn [ndp_options].
  wire_step; [by wire|]. wire_step; [wire|]. wire; (apply IH; [side|]).
  - apply Forall_app. split; [done|]. apply Forall_singleton. intros _. by destruct (_ =? 1).
  - done.
Qed.

Lemma icmp6_ok m src p : octets p -> wpr (icmp6 i t m src p) (obs_all i t o).
Proof.
  intros Hp. unfold icmp6. wire; try constructor; try (apply wpr_observation; plain_list).
  eapply wpr_mono; [apply ndp_options_ok; [done|apply in_slice_start; lia|plain_list]|]. intros v Hv. by apply wpr_observation.
Qed.

Lemma plain_snoc v k x f ttl : plain o v -> (k <> "query")%string -> plain o (v ++ [(k, x, f, ttl)]).
Proof. intros Hv Hk. apply Forall_app. split; [done|]. apply Forall_singleton. by intros _. Qed.
Lemma plain_ttl ttl v : plain o v -> plain o (map (set_ttl ttl) v).
Proof. intros Hv. apply Forall_map. eapply Forall_impl; [exact Hv|]. by intros [[[k x] f] ttl'] Hk. Qed.

Lemma dhcp4_option_ok code z s :
  octets z -> plain o (d4_client s) -> wpr (dhcp4_option code z s) (fun s' => plain o (d4_client s')).
Proof. intros Hz Hs. unfold dhcp4_option. wire; cbn [d4_client]; try done; by apply plain_snoc. Qed.

Lemma dhcp4_options_ok fuel q at' n s :
  octets q -> in_slice fuel q at' -> plain o (d4_client s) -> wpr (dhcp4_options fuel q at' n s) (fun s' => plain o (d4_client s')).
Proof.
  intros Hq. revert at' n s. induction fuel as [|fuel IH]; intros at' n s [Hat Hf] Hs; [lia|]. cbn [dhcp4_options].
  wire_step; [done|]. wire; try done; try (apply IH; [side|done]).
  eapply wpr_mono; [by apply dhcp4_option_ok|]. intros s' Hs'. apply IH; [side|done].
Qed.

Lemma dhcp4_ok m src q : octets q -> wpr (dhcp4 i t m src q) (obs_all i t o).
Proof.
  intros Hq. unfold dhcp4. wire_step; [wire|]. wire.
  eapply wpr_mono; [apply dhcp4_options_ok; [done|apply in_slice_start; lia|]|].
  - cbn [d4_client]. repeat apply Forall_app_2; [plain_list|destruct (negb _); plain_list..].
  - intros st Hs. do 2 wire_step. cbv beta zeta. apply wpr_bind. eapply wpr_mono; [apply wpr_observation; by apply plain_ttl|]. intros out Hout.
    destruct (d4_server_id st); [|done]. wire. eapply wpr_mono; [apply wpr_observation; plain_list|]. intros out' Hout'. by apply Forall_app_2.
Qed.

Lemma plain_name_ok fuel q at' parts : octets q -> in_slice fuel q at' -> wpr (plain_name fuel q at' parts) (fun _ => True).
Proof.
  intros Hq. revert at' parts. induction fuel as [|fuel IH]; intros at' parts [Hat Hf]; [lia|]. cbn [plain_name].
  wire_step; [wire|]. wire; try done. apply IH. side.
Qed.

Definition d6_plain (v : Dhcp6Fields) : Prop := plain o (d6_client v) /\ plain o (d6_server v).

Lemma dhcp6_option_ok c z v b : octets z -> d6_plain v -> wpr (dhcp6_option c z v b) (fun p => d6_plain (fst p)).
Proof.
  intros Hz [Hc Hs]. unfold dhcp6_option. pose proof (blen_nonneg z). wire; cbn [fst]; try done.
  - unfold duid_mac. destruct z as [|a [|c' z]]; [done|cbn [wpr]; split; [by apply plain_snoc|done]|]. cbv zeta.
    destruct (_ || _) eqn:Ety; [|split; [by apply plain_snoc|done]].
    assert (10 <= blen (a :: c' :: z)) by (rewrite orb_true_iff in Ety; destruct Ety; bprop; lia).
    wire. split; [by apply plain_snoc|done].
  - split; [done|by apply plain_snoc].
  - unfold d6_iaaddr. wire. cbn [fst]. split; [|done]. apply Forall_app_2; [done|plain_list].
  - eapply wpr_mono; [unfold decode_plain_name; apply plain_name_ok; [done|apply in_slice_start; pose proof (blen_nonneg z0); lia]|].
    intros fqdn _. cbn. split; [by apply plain_snoc|done].
Qed.

Lemma dhcp6_options_ok levels fuel q at' v b :
  octets q -> in_slice fuel q at' -> d6_plain v -> wpr (dhcp6_options levels fuel q at' v b) (fun p => d6_plain (fst p)).
Proof.
  revert fuel q at' v b. induction levels as [|levels IHl]; intros fuel q at' v b Hq; [by split|].
  revert at' v b. induction fuel as [|fuel IH]; intros at' v b [Hat Hf] Hv; [lia|].
  change (dhcp6_options (S levels) (S fuel) q at' v b) with
    (if negb (at' <? blen q) then Ok (v, b)
     else
       let budget := {| db_option_count := db_option_count b + 1; db_iaaddr_count := db_iaaddr_count b |} in
       if MAX_DHCP_OPTIONS <? db_option_count budget then Err Metadata
       else if blen q <? at' + 4 then Err Truncated
       else
         let? c := word_at q at' in
         let? n := word_at q (at' + 2) in
         let at' := at' + 4 in
         if blen q <? at' + n then Err Truncated
         else
           let? z := range_ q at' (at' + n) in
           let? p :=
             (if (c =? 3) && (12 <=? n) then
                let? inner := range_ z 12 n in
                dhcp6_options levels (length inner + 1) inner 0 v budget
              else dhcp6_option c z v budget) in
           dhcp6_options (S levels) fuel q (at' + n) (fst p) (snd p)).
  wire_step; [done|]. wire.
  - eapply wpr_mono; [apply IHl; [done|apply in_slice_start; pose proof (blen_nonneg z0); lia|done]|]. intros p Hp. apply IH; [side|done].
  - eapply wpr_mono; [by apply dhcp6_option_ok|]. intros p Hp. apply IH; [side|done].
Qed.

Lemma relay_options_ok fuel q at' relay b :
  octets q -> in_slice fuel q at' -> (forall z, relay = Some z -> octets z) ->
  wpr (relay_options fuel q at' relay b) (fun p => forall z, fst p = Some z -> octets z).
Proof.
  intros Hq. revert at' relay b. induction fuel as [|fuel IH]; intros at' relay b [Hat Hf] Hr; [lia|]. cbn [relay_options].
  wire_step; [done|]. wire; (apply IH; [side|]); [|done]. by intros z' [= <-].
Qed.

Lemma dhcp6_message_ok m ip q ty b : octets q -> 4 <= blen q -> wpr (dhcp6_message i t m ip q ty b) (obs_all i t o).
Proof.
  intros Hq Hl. unfold dhcp6_message. wire.
  eapply wpr_mono; [apply dhcp6_options_ok; [done|apply in_slice_start; pose proof (blen_nonneg z); lia|split; apply Forall_nil_2]|].
  intros p [Hc Hs]. wire. apply (wpr_mono _ (obs_all i t o)).
  { destruct (d6_client (fst p)); [constructor|]. by apply wpr_observation. }
  intros out Hout. destruct (d6_server (fst p)); [done|]. wire. eapply wpr_mono; [apply wpr_observation; by apply plain_snoc|].
  intros out' Hout'. by apply Forall_app_2.
Qed.

Lemma decode_dhcp6_ok hops m ip q b : octets q -> wpr (decode_dhcp6 i t hops m ip q b) (obs_all i t o).
Proof.
  revert m ip q b. induction hops as [|hops IH]; intros m ip q b Hq; cbn [decode_dhcp6]; wire; try (apply dhcp6_message_ok; [done|lia]).
  eapply wpr_mono; [apply relay_options_ok; [done|apply in_slice_start; lia|done]|]. intros p Hp. wire. auto.
Qed.
Lemma dhcp6_ok m src q : octets q -> wpr (dhcp6 i t m src q) (obs_all i t o).
Proof. apply decode_dhcp6_ok. Qed.
End Decoders.

Section Services.
Context `{Calendar} `{PassiveLibs} (i : string) (t : DateTime) (o : PassiveOptions).

Lemma txt_vals_ok ttl l : wpr (txt_vals ttl l) (plain o).
Proof.
  induction l as [|z l IH]; cbn [txt_vals]; [apply Forall_nil_2|]. wire. eapply wpr_mono; [exact IH|]. intros rest Hr. cbn.
  apply Forall_cons_2; [by intros _|done].
Qed.
Lemma records_vals_ok l : wpr (records_vals l) (plain o).
Proof.
  induction l as [|r l IH]; cbn [records_vals]; [apply Forall_nil_2|]. apply wpr_bind. apply (wpr_mono _ (plain o)).
  { unfold record_vals. destruct (dr_data r); try (cbn [wpr]; plain_list). apply txt_vals_ok. }
  intros v Hv. apply wpr_bind. eapply wpr_mono; [exact IH|]. intros rest Hr. by apply Forall_app_2.
Qed.

Lemma dns_reply_ok m src q p : wpr (dns i t m src q o p) (obs_all i t o).
Proof.
  unfold dns. wire_step; [wire|]. wire_step. wire_step. cbv zeta. apply wpr_bind. apply (wpr_mono _ (plain o)).
  { destruct (bool_decide _); [apply records_vals_ok|apply Forall_nil_2]. }
  intros records Hr. apply wpr_observation. apply Forall_take, Forall_app_2; [|done].
  destruct (metadata_enabled o) eqn:Eo; [|apply Forall_nil_2]. apply Forall_map, Forall_true. intros x Hx. congruence.
Qed.

Lemma nbns_raw_ok n e k :
  octets e -> 0 <= k -> 2 * (k + Z.of_nat n) <= blen e -> wpr (nbns_raw n e k) (fun raw => octets raw /\ blen raw = Z.of_nat n).
Proof.
  intros He. revert k. induction n as [|n IH]; intros k Hk Hl; cbn [nbns_raw]; [split; [apply Forall_nil_2|done]|].
  wire. eapply wpr_mono; [apply IH; lia|]. intros raw [Hr Hlen]. cbn [wpr]. split; [|unfold blen in *; cbn [length]; lia].
  constructor; [|done]. unfold is_u8. rewrite Z.shiftl_mul_pow2 by lia.
  pose proof (Z.add_lor_land ((b - 65) * 2 ^ 4) (b0 - 65)). pose proof (proj2 (Z.land_nonneg ((b - 65) * 2 ^ 4) (b0 - 65)) ltac:(lia)).
  pose proof (proj2 (Z.lor_nonneg ((b - 65) * 2 ^ 4) (b0 - 65)) ltac:(lia)). lia.
Qed.

Lemma nbns_ok m src q : octets q -> wpr (nbns i t m src q) (obs_all i t o).
Proof.
  intros Hq. unfold nbns. wire_step; [wire|]. wire. eapply wpr_mono; [apply nbns_raw_ok; [done|lia|cbn; lia]|].
  intros raw [Hr Hl]. wire. apply wpr_observation. plain_list.
Qed.

Lemma ssdp_lines_ok l v ttl : plain o v -> wpr (ssdp_lines l v ttl) (fun p => plain o (fst p)).
Proof.
  revert v ttl. induction l as [|line l IH]; intros v ttl Hv; cbn [ssdp_lines]; [done|]. wire_step; [done|]. wire_step. wire_step.
  destruct a as [k z]. wire; apply IH; try done; by apply plain_snoc.
Qed.
Lemma ssdp_ok m src q : wpr (ssdp i t m src q) (obs_all i t o).
Proof.
  unfold ssdp. wire. destruct (split_on2 _ _ _) as [|start lines]; wire.
  eapply wpr_mono; [apply ssdp_lines_ok, Forall_nil_2|]. intros p Hp. by apply wpr_observation, plain_ttl.
Qed.

(** The field that is read is one of four, none of them a query. *)
Definition soap_ok_state (s : SoapState) : Prop :=
  plain o (so_v s) /\ (forall a, so_current s = Some a -> ax_key a <> "query"%string).

Lemma soap_mark_key local ns depth s key : soap_mark local ns depth s = MField key -> key <> "query"%string.
Proof.
  unfold soap_mark. cbv zeta.
  repeat match goal with |- (if ?b then _ else _) = _ -> _ => destruct b; [try discriminate; intros [= <-]; discriminate|] end.
  discriminate.
Qed.

Lemma soap_step_ok ns e s : soap_ok_state s -> wpr (soap_step ns e s) soap_ok_state.
Proof.
  intros [Hv Hc]. unfold soap_step. destruct e; try (wire; done).
  - unfold soap_start. wire. split; [done|]. cbn [so_current]. intros a.
    destruct (soap_mark _ _ _ _) as [| | | | |key|] eqn:Em; try done. intros [= <-]. by apply soap_mark_key in Em.
  - unfold soap_text. destruct (so_current s) as [a|] eqn:Ea; [|split; [done|]; congruence]. wire. split; cbn [so_v so_current].
    + apply plain_snoc; [done|by apply Hc].
    + intros a' [= <-]. exact (Hc a eq_refl).
  - unfold soap_end. destruct (so_stack s) as [|[local sns] stack]; [by split|]. wire. split; [done|]. cbn [so_current].
    intros a. destruct (so_current s) as [a'|]; [|done]. destruct (_ =? _); [done|]. intros [= <-]. by apply Hc.
Qed.

Lemma soap_loop_ok left q n s : soap_ok_state s -> wpr (soap_loop left q n s) soap_ok_state.
Proof.
  revert n s. induction left as [|left IH]; intros n s Hs; cbn [soap_loop]; [by split|].
  destruct (xml_event q n) as [[ns e]|]; [|by split].
  assert (wpr (let? s := soap_step ns e s in soap_loop left q (n + 1) s) soap_ok_state) as Hstep.
  { apply wpr_bind. eapply wpr_mono; [by apply soap_step_ok|]. intros s' Hs'. by apply IH. }
  by destruct e.
Qed.

Lemma soap_ok m src q : wpr (soap i t m src q) (obs_all i t o).
Proof.
  unfold soap. wire_step; [wire|]. wire_step. wire_step. wire_step. eapply wpr_mono; [apply soap_loop_ok; split; [apply Forall_nil_2|done]|].
  intros s [Hs _]. wire. by apply wpr_observation.
Qed.

(** ** Layers *)
Lemma udp_ok m src dst p : octets p -> wpr (udp i t m src dst p o) (obs_all i t o).
Proof.
  intros Hp. unfold udp. wire_step; [wire|]. do 7 wire_step; [wire|]. do 2 wire_step. cbv zeta.
  repeat (case_match; [auto using dhcp4_ok, dhcp6_ok, dns_reply_ok, nbns_ok, ssdp_ok, soap_ok|]).
  apply wpr_observation, flow_plain.
Qed.

Lemma ipv4_ok m p : octets p -> wpr (ipv4 i t m p o) (obs_all i t o).
Proof.
  intros Hp. unfold ipv4. wire_step; [wire|]. wire; try (by auto using udp_ok, tcp_ok, igmp_ok); apply Forall_nil_2.
Qed.

Lemma ipv6_headers_ok left p next at' end_ :
  octets p -> 0 <= at' <= end_ -> end_ <= blen p ->
  wpr (ipv6_headers left p next at' end_) (fun r => match r with Some (_, at'') => 0 <= at'' <= end_ | None => True end).
Proof.
  intros Hp. revert next at'. induction left as [|left IH]; intros next at' Hat He; cbn [ipv6_headers]; [done|].
  wire; try done. apply IH; side.
Qed.
Lemma ipv6_ok m p : octets p -> wpr (ipv6 i t m p o) (obs_all i t o).
Proof.
  intros Hp. unfold ipv6. wire_step; [wire|]. wire. eapply wpr_mono; [apply ipv6_headers_ok; [done|lia|lia]|].
  intros [[next at']|] Hr; [|apply Forall_nil_2]. wire; try (by auto using udp_ok, tcp_ok, icmp6_ok). apply Forall_nil_2.
Qed.
End Services.
