(* ===== verification/PassiveTheorems.v ===== *)
(** * Passive capture: theorems on frames and captures, and the decoders read back what is encoded *)

From S2P Require Import Prelude Time Text Bytes Net F32 Domain Wire Passive PassiveLink PassiveProps.

(** ** Link advertisements *)
Definition link_plain (values : list (string * string)) : Prop := Forall (fun kv => fst kv <> "query"%string) values.
Definition adv_ok (a : Advertisement) : Prop := link_plain (fst a) /\ 0 <= snd a < 65536.

Lemma link_plain_snoc values k v : link_plain values -> k <> "query"%string -> link_plain (values ++ [(k, v)]).
Proof. intros Hv Hk. apply Forall_app_2; [done|]. by apply Forall_singleton. Qed.

Lemma wpr_link_text b (Q : string -> Prop) : (forall s, Q s) -> wpr (link_text b) Q.
Proof. intros HQ. unfold link_text. destruct (_ <? _); [by split|]. apply HQ. Qed.
Lemma wpr_identifier b (Q : string -> Prop) : octets b -> (forall s, Q s) -> wpr (identifier b) Q.
Proof. intros Hb HQ. unfold identifier. wire; [by apply wpr_link_text|auto]. Qed.

Lemma lldp_value_ok kind value values ttl :
  octets value -> link_plain values -> 0 <= ttl < 65536 -> wpr (lldp_value kind value values ttl) adv_ok.
Proof.
  intros Hb Hv Ht. unfold lldp_value. wire; try (apply wpr_identifier; [done|intros s]); try (apply wpr_link_text; intros s);
    cbn [wpr]; split; cbn [fst snd]; try done; by apply link_plain_snoc.
Qed.

Lemma lldp_loop_ok left index b offset values ttl :
  octets b -> 0 <= offset -> link_plain values -> 0 <= ttl < 65536 -> wpr (lldp_loop left index b offset values ttl) adv_ok.
Proof.
  intros Hb. revert index offset values ttl. induction left as [|left IH]; intros index offset values ttl Ho Hv Ht; cbn [lldp_loop]; [by split|].
  wire; try done. eapply wpr_mono; [by apply lldp_value_ok|]. intros p [Hp Httl]. wire.
  apply IH; try done. pose proof (proj2 (Z.land_nonneg w 511) ltac:(lia)). lia.
Qed.

Lemma cdp_key_plain kind key : cdp_key kind = Some key -> key <> "query"%string.
Proof. unfold cdp_key. repeat (case_match; [by intros [= <-]|]). done. Qed.

Lemma cdp_loop_ok left b offset seen values ttl :
  octets b -> 0 <= offset -> link_plain values -> 0 <= ttl < 65536 -> wpr (cdp_loop left b offset seen values ttl) adv_ok.
Proof.
  intros Hb. revert offset seen values. induction left as [|left IH]; intros offset seen values Ho Hv Ht; cbn [cdp_loop]; [by split|].
  wire; try done. apply (wpr_mono _ (fun p => link_plain (snd p))).
  { destruct (cdp_key w) as [key|] eqn:Ek; [|done]. wire. apply wpr_link_text. intros s. cbn [wpr snd].
    apply link_plain_snoc; [done|by eapply cdp_key_plain]. }
  intros p Hp. wire; apply IH; try done; try lia. by apply link_plain_snoc.
Qed.

Lemma lldp_ok b : octets b -> wpr (lldp b) adv_ok.
Proof. intros Hb. unfold lldp. wire. apply lldp_loop_ok; [done|lia|apply Forall_nil_2|lia]. Qed.
Lemma cdp_ok b : octets b -> wpr (cdp b) adv_ok.
Proof.
  intros Hb. unfold cdp. wire. apply cdp_loop_ok; [done|lia| |side]. apply Forall_singleton. done.
Qed.

Lemma vlan_tags_ok left f kind offset :
  octets f -> 0 <= offset <= blen f -> wpr (vlan_tags left f kind offset) (fun p => 0 <= snd p <= blen f).
Proof.
  intros Hf. revert kind offset. induction left as [|left IH]; intros kind offset Ho; cbn [vlan_tags]; [done|]. wire; [|done].
  apply IH. lia.
Qed.

Lemma advertisement_ok f :
  octets f -> 14 <= blen f -> wpr (advertisement f) (fun r => match r with Some (_, a) => adv_ok a | None => True end).
Proof.
  intros Hf Hl. unfold advertisement. wire_step. wire_step. wire_step. eapply wpr_mono; [apply vlan_tags_ok; [done|lia]|].
  intros [kind offset] Ho. cbn [snd] in Ho. wire; try done.
  - eapply wpr_mono; [by apply lldp_ok|]. done.
  - assert (8 <= blen z0).
    { match goal with E : get_range z0 0 8 = Some _ |- _ => apply get_range_some in E as (_ & _ & E & _); exact E end. }
    wire. eapply wpr_mono; [by apply cdp_ok|]. done.
Qed.

Section Frames.
Context `{Calendar} `{PassiveLibs} (i : string) (o : PassiveOptions).

Lemma with_expiry_ok t ttl protocol f :
  0 <= ttl < 65536 -> fact_ok t o protocol f -> fact_ok t o protocol (with_expiry t ttl f).
Proof.
  intros Ht [? ? ? ? ? ? ?]. split; try done. intros [Hc1 Hc2]. exists (t + seconds ttl). unfold seconds in *. split; [|lia].
  cbn. apply checked_add_some. split; [done|]. unfold seconds. lia.
Qed.

Lemma link_decode_ok t f :
  octets f -> 14 <= blen f ->
  wpr (link_decode i t f o) (fun r => match r with Some out => obs_all i t o out | None => True end).
Proof.
  intros Hf Hl. unfold link_decode. wire_step. eapply wpr_mono; [by apply advertisement_ok|].
  intros [[protocol [values ttl]]|] Ha; [|done]. destruct Ha as [Hv Httl]. cbn [fst snd] in *.
  wire; [apply Forall_nil_2|]. eapply wpr_mono.
  { apply wpr_observation. apply Forall_map. eapply Forall_impl; [exact Hv|]. by intros kv Hk _. }
  intros out Hout. cbn. apply Forall_map. eapply Forall_impl; [exact Hout|]. intros one [Hi Hat Hfacts Hcount]. split; cbn; try done.
  - apply Forall_map. eapply Forall_impl; [exact Hfacts|]. intros f' Hf'. by apply with_expiry_ok.
  - unfold blen in *. by rewrite length_map.
Qed.

(** The bytes of all values. *)
Definition value_bytes (out : list PassiveObservation) : Z :=
  foldr (fun one n => foldr (fun f n => str_len (ef_value f) + n) 0 (po_facts one) + n) 0 out.

Lemma add_values_ok total l total' :
  add_values total l = Ok total' -> total' = total + foldr (fun f n => str_len (ef_value f) + n) 0 l.
Proof.
  revert total. induction l as [|f l IH]; intros total; cbn [add_values foldr]; [intros [= <-]; lia|]. destruct (_ <? _); [done|].
  intros (n & Hn & Hk)%result_bind_ok. destruct (checked_add_u64 _ _) as [n'|] eqn:E; [injection Hn as ->|done].
  apply checked_add_u64_some in E as [-> _]. apply IH in Hk. lia.
Qed.
Lemma add_observations_ok total out total' : add_observations total out = Ok total' -> total' = total + value_bytes out.
Proof.
  revert total. induction out as [|one out IH]; intros total; cbn [add_observations value_bytes foldr]; [intros [= <-]; lia|].
  destruct (_ <? _); [done|]. intros (n & Hn%add_values_ok & Hk)%result_bind_ok. apply IH in Hk. unfold value_bytes in Hk. lia.
Qed.

Lemma validate_ok out limit :
  wpr (validate_normalized out limit) (fun _ => blen out <= limit /\ value_bytes out <= MAX_NORMALIZED_VALUE_BYTES).
Proof.
  unfold validate_normalized. wire_step; [wire|]. destruct (add_observations 0 out) as [total|e] eqn:Ea.
  - apply add_observations_ok in Ea as ->. cbn [result_bind]. wire. split; [done|lia].
  - cbn [result_bind wpr]. clear E. assert (forall total l e, add_values total l = Err e -> e = Metadata) as Hv.
    { intros total l. revert total. induction l as [|f l IH]; intros total e'; cbn [add_values]; [done|]. destruct (_ <? _); [by intros [= <-]|].
      destruct (checked_add_u64 _ _); [apply IH|by intros [= <-]]. }
    assert (e = Metadata) as ->; [|done]. revert Ea. generalize 0. induction out as [|one out IH]; intros total; cbn [add_observations]; [done|].
    destruct (_ <? _); [by intros [= <-]|]. destruct (add_values _ _) eqn:E; cbn [result_bind]; [apply IH|]. intros [= <-]. by eapply Hv.
Qed.

Lemma normalize_ok t f :
  octets f ->
  wpr (normalize i t f o) (fun out => obs_all i t o out /\ blen out <= MAX_OBSERVATIONS_PER_FRAME /\
                                      value_bytes out <= MAX_NORMALIZED_VALUE_BYTES).
Proof.
  intros Hf. unfold normalize. wire_step; [wire|]. wire_step; [wire|]. wire_step. eapply wpr_mono; [by apply link_decode_ok|].
  intros [out|] Hout.
  - wire_step. eapply wpr_mono; [apply validate_ok|]. intros _ [Hn Hb]. done.
  - wire_step; [wire|]. do 8 wire_step. apply wpr_bind. apply (wpr_mono _ (obs_all i t o)).
    { repeat (case_match; [auto using arp_ok, ipv4_ok, ipv6_ok|]). apply Forall_nil_2. }
    intros out Hall. wire_step. eapply wpr_mono; [apply validate_ok|]. intros _ [Hn Hb]. done.
Qed.

(** C36. No frame can break the sensor: whatever bytes a frame has, decoding it neither reads
    outside of the frame nor loops without end, and what it yields is bounded in observations,
    facts, values and their bytes; every fact names this protocol and this time, is never
    confirmed by the owner, and expires within a day (unless the calendar ends before). *)
Theorem every_frame_is_decoded_safely t f :
  Forall is_u8 f ->
  normalize i t f o <> Err PPanic /\ normalize i t f o <> Err PFuel /\
  forall out, normalize i t f o = Ok out ->
    blen out <= MAX_OBSERVATIONS_PER_FRAME /\ value_bytes out <= MAX_NORMALIZED_VALUE_BYTES /\ Forall (obs_ok i t o) out.
Proof.
  intros Hf. pose proof (normalize_ok t f Hf) as Hn. destruct (normalize i t f o) as [out|e]; cbn in Hn.
  - split_and!; try done. intros out' [= <-]. tauto.
  - destruct Hn as [H1 H2]. split_and!; congruence.
Qed.

(** With metadata disabled nothing that names what devices look up or advertise leaves the
    decoder: no frame yields a fact on a query, and an advertisement of the link yields no
    observation at all. *)
Theorem disabled_metadata_stays_private t f out :
  Forall is_u8 f -> metadata_enabled o = false -> normalize i t f o = Ok out ->
  Forall (fun one => Forall (fun fact => ef_key fact <> "query"%string) (po_facts one)) out /\
  (forall protocol a, advertisement f = Ok (Some (protocol, a)) -> out = []).
Proof.
  intros Hf Hm Hn. pose proof (normalize_ok t f Hf) as Hw. rewrite Hn in Hw. destruct Hw as (Hall & _ & _). split.
  - eapply Forall_impl; [exact Hall|]. intros one [_ _ Hfacts _]. eapply Forall_impl; [exact Hfacts|]. intros fact Hk. by apply Hk.
  - intros protocol [values ttl] Ha. unfold normalize in Hn. destruct (_ <? _); [done|]. destruct (_ <? _); [done|].
    unfold link_decode in Hn. rewrite Ha in Hn. cbn [result_bind] in Hn. rewrite Hm in Hn. cbn [negb result_bind] in Hn.
    apply result_bind_ok in Hn as (? & _ & [= <-]). done.
Qed.

(** ** Captures *)
(** What a packet contributes: its observations, or one skipped frame. *)
Definition packet_outcome (p : PcapPacket) : list PassiveObservation * Z :=
  match timestamp_opt (pk_secs p) (pk_nanos p) with
  | None => ([], 0)
  | Some t => match normalize i t (pk_data p) o with
              | Ok out => (out, 0)
              | Err _ => ([], 1)
              end
  end.
Definition outcome_sum (l : list PcapPacket) : Z := foldr (fun p n => snd (packet_outcome p) + n) 0 l.

Record ingest_ok (l : list PcapPacket) (s s' : IngestState) : Prop := {
  ig_out : is_out s' = is_out s ++ concat (map (fun p => fst (packet_outcome p)) l);
  ig_records : is_records s' = is_records s + blen l;
  ig_skipped : is_skipped s' = is_skipped s + outcome_sum l;
  ig_bytes : is_value_bytes s' = is_value_bytes s + value_bytes (concat (map (fun p => fst (packet_outcome p)) l));
  ig_frames : Forall (fun p => blen (pk_data p) <= MAX_FRAME_BYTES) l
}.
Definition within (s : IngestState) : Prop :=
  is_records s <= MAX_PCAP_RECORDS /\ is_skipped s <= MAX_SKIPPED_FRAMES /\ blen (is_out s) <= MAX_OBSERVATIONS /\
  is_value_bytes s <= MAX_NORMALIZED_VALUE_BYTES.

Lemma value_bytes_app a b : value_bytes (a ++ b) = value_bytes a + value_bytes b.
Proof. unfold value_bytes. induction a as [|x a IH]; cbn [app foldr]; [lia|]. rewrite IH. lia. Qed.

Lemma sum_len_facts l : sum_len (map ef_value l) = foldr (fun f n => str_len (ef_value f) + n) 0 l.
Proof.
  unfold sum_len. assert (forall n, fold_left (fun n v => n + str_len v) (map ef_value l) n = n + foldr (fun f n => str_len (ef_value f) + n) 0 l) as Hg.
  { induction l as [|f l IH]; intros n; cbn [map fold_left foldr]; [lia|]. rewrite IH. lia. }
  rewrite Hg. lia.
Qed.
Lemma add_value_bytes_ok l total :
  total <= MAX_NORMALIZED_VALUE_BYTES ->
  wpr (add_value_bytes total l) (fun n => n = total + value_bytes l /\ n <= MAX_NORMALIZED_VALUE_BYTES).
Proof.
  revert total. induction l as [|one l IH]; intros total Ht; cbn [add_value_bytes]; [cbn; split; [lia|done]|]. wire_step. wire_step.
  match goal with Ha : checked_add_u64 _ _ = Some _ |- _ => apply checked_add_u64_some in Ha as [-> _] end. wire. rewrite sum_len_facts in *. eapply wpr_mono; [by apply IH|].
  intros n [-> Hn]. split; [|done]. cbn [value_bytes foldr]. unfold value_bytes. lia.
Qed.

Lemma ingest_packet_ok snaplen next s :
  (forall p, next = Some p -> octets (pk_data p)) -> within s ->
  wpr (ingest_packet i o snaplen next s) (fun s' => exists p, next = Some p /\ ingest_ok [p] s s' /\ within s').
Proof.
  intros Hoct (Hr & Hk & Ho & Hb). unfold ingest_packet. wire_step; [wire|]. do 2 wire_step. subst next. specialize (Hoct a eq_refl).
  unfold packet_invalid. wire_step; [wire|]. wire_step. wire_step.
  match goal with Ht : timestamp_opt _ _ = Some ?t |- _ => pose proof (normalize_ok t (pk_data a) Hoct) as Hn;
    assert (forall r, normalize i t (pk_data a) o = r -> packet_outcome a = match r with Ok out => (out, 0) | Err _ => ([], 1) end) as Hpo
      by (intros r Hr'; unfold packet_outcome; by rewrite Ht, Hr');
    destruct (normalize i t (pk_data a) o) as [out|e]; specialize (Hpo _ eq_refl) end.
  - wire_step; [wire|]. wire_step. eapply wpr_mono; [by apply add_value_bytes_ok|]. intros n [-> Hnb]. cbn [wpr]. exists a. split; [done|]. split.
    + split; cbn [is_out is_records is_skipped is_value_bytes map concat]; unfold outcome_sum; cbn [foldr]; rewrite ?Hpo, ?app_nil_r; cbn [fst snd]; try done.
      * lia.
      * by apply Forall_singleton.
    + unfold within. cbn [is_out is_records is_skipped is_value_bytes]. split_and!; try done. unfold blen in *. rewrite length_app. lia.
  - assert (forall skipped, skipped = is_skipped s + 1 -> wpr (if MAX_SKIPPED_FRAMES <? skipped then Err Metadata
      else Ok {| is_out := is_out s; is_records := is_records s + 1; is_skipped := skipped; is_value_bytes := is_value_bytes s |})
      (fun s' => exists p, Some a = Some p /\ ingest_ok [p] s s' /\ within s')) as Hskip.
    { intros skipped ->. wire. exists a. split; [done|]. split.
      - split; cbn [is_out is_records is_skipped is_value_bytes map concat]; unfold outcome_sum; cbn [foldr]; rewrite ?Hpo, ?app_nil_r; cbn [fst snd]; try done.
        + cbn. lia.
        + by apply Forall_singleton.
      - unfold within. cbn. split_and!; done. }
    destruct e; cbn in Hn; try (by destruct Hn); try (by split); by apply Hskip.
Qed.

Lemma ingest_ok_cons p l s s1 s2 : ingest_ok [p] s s1 -> ingest_ok l s1 s2 -> ingest_ok (p :: l) s s2.
Proof.
  intros [H1 H2 H3 H4 H5] [K1 K2 K3 K4 K5]. cbn [map concat] in *. rewrite app_nil_r in *. split; cbn [map concat].
  - rewrite K1, H1. by rewrite app_assoc.
  - rewrite K2, H2. unfold blen. cbn [length]. lia.
  - rewrite K3, H3. unfold outcome_sum. cbn [foldr]. lia.
  - rewrite K4, H4, value_bytes_app. lia.
  - apply Forall_cons in H5 as [H5 _]. by apply Forall_cons_2.
Qed.

Lemma ingest_loop_ok snaplen l s :
  (forall p, In (Some p) l -> octets (pk_data p)) -> within s ->
  wpr (ingest_loop i o snaplen l s) (fun s' => exists ps, l = map Some ps /\ ingest_ok ps s s' /\ within s').
Proof.
  revert s. induction l as [|next l IH]; intros s Hoct Hs; cbn [ingest_loop].
  { exists []. split; [done|]. split; [|done]. split; cbn; rewrite ?app_nil_r; try done; unfold blen, outcome_sum; cbn; lia. }
  wire_step. eapply wpr_mono; [apply ingest_packet_ok; [|done]|].
  { intros p ->. apply Hoct. by left. }
  intros s1 (p & -> & Hp & Hs1). eapply wpr_mono; [apply IH; [|done]|].
  { intros p' Hin. apply Hoct. by right. }
  intros s2 (ps & -> & Hps & Hs2). exists (p :: ps). split; [done|]. split; [by eapply ingest_ok_cons|done].
Qed.

(** An accepted capture is accounted for: every record of it was read, at most 4096 of them,
    the observations are those of the frames that decode, in order, and every other frame is one
    of at most 256 counted as skipped, so that a malformed frame hides no other; observations and
    the bytes of their values are bounded. Reading never panics. *)
Theorem capture_is_accounted_for b :
  (forall file p, pcap_read b = Some file -> In (Some p) (pf_packets file) -> Forall is_u8 (pk_data p)) ->
  ingest_pcap_report i b o <> Err PPanic /\ ingest_pcap_report i b o <> Err PFuel /\
  forall report, ingest_pcap_report i b o = Ok report ->
    exists file ps, pcap_read b = Some file /\ pf_packets file = map Some ps /\
      pi_observations report = concat (map (fun p => fst (packet_outcome p)) ps) /\
      pi_skipped_frames report = foldr (fun p n => snd (packet_outcome p) + n) 0 ps /\
      blen ps <= MAX_PCAP_RECORDS /\ pi_skipped_frames report <= MAX_SKIPPED_FRAMES /\
      blen (pi_observations report) <= MAX_OBSERVATIONS /\
      value_bytes (pi_observations report) <= MAX_NORMALIZED_VALUE_BYTES.
Proof.
  intros Hoct. assert (wpr (ingest_pcap_report i b o) (fun report => exists file ps, pcap_read b = Some file /\ pf_packets file = map Some ps /\
    exists s', ingest_ok ps {| is_out := []; is_records := 0; is_skipped := 0; is_value_bytes := 0 |} s' /\ within s' /\
      report = {| pi_observations := is_out s'; pi_skipped_frames := is_skipped s' |})) as Hw.
  { unfold ingest_pcap_report. wire_step; [wire|]. do 2 wire_step. wire_step; [wire|]. wire_step. eapply wpr_mono; [apply ingest_loop_ok|].
    - intros p Hin. by eapply Hoct.
    - done.
    - intros s' (ps & Hps & Hok & Hin). exists a, ps. split_and!; try done. by exists s'. }
  destruct (ingest_pcap_report i b o) as [report|e]; cbn in Hw.
  - split_and!; try done. intros report' [= <-]. destruct Hw as (file & ps & Hf & Hps & s' & [K1 K2 K3 K4 K5] & (W1 & W2 & W3 & W4) & ->).
    exists file, ps. cbn [pi_observations pi_skipped_frames is_out is_records is_skipped is_value_bytes app] in *.
    split_and!; try done; rewrite ?K1; lia.
  - destruct Hw. split_and!; congruence.
Qed.
End Frames.

(** ** Reading back: the checksum of CDP, the values of LLDP and the escapes of a DNS name *)
(** ** Checksums *)
Lemma fold_carry_spec fuel sum :
  0 <= sum -> (sum <= 65535 \/ sum < 4294967296 /\ (3 <= fuel)%nat \/ sum <= 131070 /\ (1 <= fuel)%nat) ->
  0 <= fold_carry fuel sum <= 65535 /\ (fold_carry fuel sum - sum) mod 65535 = 0 /\ (0 < sum -> 0 < fold_carry fuel sum).
Proof.
  revert sum. induction fuel as [|fuel IH]; intros sum Hp Hs; cbn [fold_carry].
  { rewrite Z.sub_diag. split_and!; try done; lia. }
  destruct (Z.ltb_spec 65535 sum) as [Hlt|Hge]; [|rewrite Z.sub_diag; split_and!; try done; lia].
  assert (Z.land sum 65535 = sum mod 65536) as -> by exact (Z.land_ones sum 16 ltac:(lia)).
  rewrite Z.shiftr_div_pow2 by lia. change (2 ^ 16) with 65536.
  pose proof (Z.div_mod sum 65536 ltac:(lia)) as Hdm. pose proof (Z.mod_pos_bound sum 65536 ltac:(lia)) as Hmb. set (q := sum / 65536) in *. set (r := sum mod 65536) in *.
  destruct (IH (r + q)) as (I1 & I2 & I3); [lia|lia|]. split_and!; [lia|lia| |intros; apply I3; lia].
  replace (fold_carry fuel (r + q) - sum) with (fold_carry fuel (r + q) - (r + q) + (- q) * 65535) by lia.
  by rewrite Z.mod_add.
Qed.

Lemma word_sum_shift b sum : word_sum sum b = sum + word_sum 0 b.
Proof.
  revert sum. induction b as [b IH] using (induction_ltof1 _ (@length Z)); unfold ltof in IH. intros sum.
  destruct b as [|a [|c b]]; cbn [word_sum]; [lia|lia|]. rewrite (IH b) by (cbn; lia). rewrite (IH b ltac:(cbn; lia) (0 + be16 a c)). lia.
Qed.
Lemma word_sum_bound b : octets b -> 0 <= word_sum 0 b <= 65536 * blen b.
Proof.
  induction b as [b IH] using (induction_ltof1 _ (@length Z)); unfold ltof in IH. intros Hb.
  destruct b as [|a [|c b]]; cbn [word_sum].
  - unfold blen. cbn. lia.
  - apply Forall_cons in Hb as [Ha _]. unfold is_u8, blen in *. cbn [length]. case_match; lia.
  - apply Forall_cons in Hb as [Ha Hb]. apply Forall_cons in Hb as [Hc Hb]. rewrite word_sum_shift.
    specialize (IH b ltac:(cbn; lia) Hb). unfold is_u8, be16, blen in *. cbn [length]. lia.
Qed.

(** A checksum verifies: the message with its own checksum written into the empty checksum
    field has checksum zero, for every length and content, odd lengths with their sign-extended
    last byte included. *)
Theorem cdp_checksum_verifies version ttl rest :
  let message := version :: ttl :: 0 :: 0 :: rest in
  Forall is_u8 message -> blen message <= 1500 ->
  0 <= checksum message < 65536 /\
  checksum (version :: ttl :: checksum message / 256 :: checksum message mod 256 :: rest) = 0.
Proof.
  cbv zeta. intros Hm Hl. pose proof (word_sum_bound _ Hm) as Hb. set (message := version :: ttl :: 0 :: 0 :: rest) in *.
  destruct (fold_carry_spec 4 (word_sum 0 message)) as (H1 & H2 & H3); [lia|right; left; lia|].
  remember (checksum message) as c eqn:Ec. unfold checksum in Ec. assert (0 <= c <= 65535) as Hc by lia. split; [lia|].
  assert (word_sum 0 (version :: ttl :: c / 256 :: c mod 256 :: rest) = word_sum 0 message + c) as Hs.
  { unfold message. cbn [word_sum]. rewrite (word_sum_shift rest (0 + be16 version ttl + be16 (c / 256) (c mod 256))).
    rewrite (word_sum_shift rest (0 + be16 version ttl + be16 0 0)). unfold be16. pose proof (Z.div_mod c 256). lia. }
  unfold checksum. rewrite Hs. destruct (fold_carry_spec 4 (word_sum 0 message + c)) as (K1 & K2 & K3); [lia|right; left; lia|].
  apply Z.mod_divide in K2 as [k2 K2], H2 as [k1 H2]; [|lia..].
  assert (0 < fold_carry 4 (word_sum 0 message + c)).
  { destruct (Z.eq_dec (word_sum 0 message + c) 0) as [E|E]; [|apply K3; lia]. assert (word_sum 0 message = 0) as E0 by lia.
    assert (c = 65535) by (rewrite Ec, E0; done). lia. }
  lia.
Qed.

(** ** LLDP *)
(** A value as it is sent: seven bits of kind and nine of length before it. *)
Definition tlv (v : Z * bytes) : bytes := be_bytes 2 (512 * fst v + blen (snd v)) ++ snd v.
Definition tlv_fits (v : Z * bytes) : Prop := 1 <= fst v <= 127 /\ blen (snd v) <= 511.

(** What a list of values announces: chassis, port and time to live come first and once. *)
Fixpoint lldp_read (index : Z) (l : list (Z * bytes)) (values : list (string * string)) (ttl : Z) : result Advertisement PassiveParseError :=
  match l with
  | [] => if index <? 3 then Err Metadata else Ok (values, ttl)
  | (kind, value) :: l' =>
    if (if index <? 3 then negb (kind =? index + 1) else kind <=? 3) then Err Metadata
    else
      let? p := lldp_value kind value values ttl in
      if 24 <? blen (fst p) then Err Metadata else lldp_read (index + 1) l' (fst p) (snd p)
  end.

Lemma get_range_at pre v post : get_range (pre ++ v ++ post) (blen pre) (blen pre + blen v) = Some v.
Proof.
  unfold get_range, blen. rewrite !length_app. rewrite !Nat2Z.inj_add.
  replace ((0 <=? _) && _ && _) with true by (symmetry; rewrite !andb_true_iff, !Z.leb_le; lia).
  replace (Z.to_nat (Z.of_nat (length pre) + Z.of_nat (length v) - Z.of_nat (length pre))) with (length v) by lia.
  rewrite Nat2Z.id, drop_app_length, take_app_length. done.
Qed.
Lemma word_at_be16 z : 0 <= z < 65536 -> word_at (be_bytes 2 z) 0 = Ok z.
Proof.
  intros Hz. cbv [be_bytes app word_at at_ idx nth_error Z.leb Z.compare Z.to_nat ok_or Z.add Pos.to_nat Pos.iter_op Nat.add].
  unfold be16. rewrite (Z.mod_small (z / 256)) by (split; [apply Z.div_pos; lia|apply Z.div_lt_upper_bound; lia]).
  cbn. f_equal. pose proof (Z.div_mod z 256 ltac:(lia)). lia.
Qed.

Lemma lldp_loop_read l : forall left index pre post values ttl,
  Forall tlv_fits l -> (length l < left)%nat -> 0 <= index ->
  lldp_loop left index (pre ++ concat (map tlv l) ++ [0; 0] ++ post) (blen pre) values ttl = lldp_read index l values ttl.
Proof.
  induction l as [|[k v] l IH]; intros left index pre post values ttl Hl Hn Hi; destruct left as [|left]; cbn in Hn; try lia; cbn [lldp_loop lldp_read].
  - cbn [map concat]. rewrite app_nil_l. pose proof (get_range_at pre [0; 0] post) as Hh. change (blen [0; 0]) with 2 in Hh. rewrite Hh. cbn [ok_or result_bind].
    change (word_at [0; 0] 0) with (@Ok Z PassiveParseError 0). cbn [result_bind]. change (Z.land 0 511) with 0. change (Z.shiftr 0 9) with 0.
    pose proof (get_range_at (pre ++ [0; 0]) [] post) as Hg. rewrite <- app_assoc, blen_app in Hg. change (blen [0; 0]) with 2 in Hg.
    change (blen (@nil Z)) with 0 in Hg. rewrite app_nil_l in Hg. rewrite Hg. cbn [ok_or result_bind]. destruct (Z.ltb_spec index 3) as [Hlt|Hge]; cbn [andb].
    + by replace (0 =? index + 1) with false by lia.
    + replace (3 <=? index) with true by lia. done.
  - apply Forall_cons in Hl as [[Hk Hv] Hl]. cbn [fst snd] in *. pose proof (blen_nonneg v) as Hv0.
    set (h := be_bytes 2 (512 * k + blen v)). cbn [map concat].
    change (tlv (k, v)) with (h ++ v). rewrite <- !app_assoc.
    assert (blen h = 2) as Hh by (unfold blen, h; by rewrite length_be_bytes).
    pose proof (get_range_at pre h (v ++ concat (map tlv l) ++ [0; 0] ++ post)) as Hg. rewrite Hh in Hg. rewrite Hg. cbn [ok_or result_bind].
    unfold h at 1. rewrite word_at_be16 by lia. cbn [result_bind].
    assert (Z.shiftr (512 * k + blen v) 9 = k) as ->.
    { rewrite Z.shiftr_div_pow2 by lia. change (2 ^ 9) with 512. rewrite Z.mul_comm, Z.div_add_l, Z.div_small; lia. }
    assert (Z.land (512 * k + blen v) 511 = blen v) as ->.
    { change 511 with (Z.ones 9). rewrite Z.land_ones by lia. change (2 ^ 9) with 512. rewrite Z.mul_comm, Z.add_comm, Z.mod_add, Z.mod_small; lia. }
    pose proof (get_range_at (pre ++ h) v (concat (map tlv l) ++ [0; 0] ++ post)) as Hg2. rewrite <- app_assoc, blen_app, Hh in Hg2. rewrite Hg2. cbn [ok_or result_bind].
    replace ((index <? 3) && negb (k =? index + 1)) with (if index <? 3 then negb (k =? index + 1) else false) by (by destruct (index <? 3)).
    pose proof (IH left (index + 1) (pre ++ h ++ v) post) as IH'. rewrite <- !app_assoc, !blen_app, Hh, Z.add_assoc in IH'.
    replace (k =? 0) with false by lia.
    destruct (Z.ltb_spec index 3) as [Hlt|Hge]; [replace (3 <=? index) with false by lia|replace (3 <=? index) with true by lia; replace (1 <=? k) with true by lia];
      cbn [andb].
    all: match goal with |- (if ?c then _ else _) = _ => destruct c; [done|] end; destruct (lldp_value k v values ttl) as [p|]; [|done]; cbn [result_bind].
    all: destruct (24 <? blen (fst p)); [done|]; apply IH'; [done|lia|lia].
Qed.

(** An LLDP frame is read back: the values of a frame, each after its packed kind and
    length, up to the end mark and whatever padding follows, are the values that were sent, in
    order, refused exactly when their order or a value itself is. *)
Theorem lldp_frame_is_read_back l padding :
  Forall tlv_fits l -> (length l <= 63)%nat -> blen (concat (map tlv l) ++ [0; 0] ++ padding) <= 9000 ->
  lldp (concat (map tlv l) ++ [0; 0] ++ padding) = lldp_read 0 l [] 0.
Proof.
  intros Hl Hn Hb. unfold lldp. replace (9000 <? _) with false by lia. exact (lldp_loop_read l 64 0 [] padding [] 0 Hl ltac:(lia) ltac:(lia)).
Qed.

(** ** Escaped names *)
(** The presentation of a name's bytes: each as itself, a backslash doubled, or any byte as a
    backslash and its three octal digits. *)
Inductive escaped : bytes -> bytes -> Prop :=
| escaped_nil : escaped [] []
| escaped_plain b p q : b <> 92 -> escaped p q -> escaped (b :: p) (b :: q)
| escaped_slash p q : escaped p q -> escaped (92 :: 92 :: p) (92 :: q)
| escaped_octal b p q : is_u8 b -> escaped p q ->
    escaped (92 :: 48 + b / 64 :: 48 + b / 8 mod 8 :: 48 + b mod 8 :: p) (b :: q).

Lemma unescape_plain fuel b p : b <> 92 -> unescape (S fuel) (b :: p) = b :: unescape fuel p.
Proof. intros Hb. destruct b as [|b|b]; try done. do 7 (destruct b as [b|b|]; try done). Qed.
Lemma unescape_octal fuel b p : is_u8 b ->
  unescape (S fuel) (92 :: 48 + b / 64 :: 48 + b / 8 mod 8 :: 48 + b mod 8 :: p) = b :: unescape fuel p.
Proof.
  intros Hb. unfold is_u8 in Hb. pose proof (Z.div_mod b 8 ltac:(lia)). pose proof (Z.mod_pos_bound b 8 ltac:(lia)).
  pose proof (Z.div_mod (b / 8) 8 ltac:(lia)) as Hd. pose proof (Z.mod_pos_bound (b / 8) 8 ltac:(lia)).
  rewrite Z.div_div in Hd by lia. change (8 * 8) with 64 in Hd. pose proof (Z.div_pos b 64 ltac:(lia) ltac:(lia)).
  set (x := b / 64) in *. set (y := b / 8 mod 8) in *. set (z := b mod 8) in *.
  assert (octal_escape (get_range (48 + x :: 48 + y :: 48 + z :: p) 0 3) = Some b) as Ho.
  { change (octal_escape (get_range ([] ++ [48 + x; 48 + y; 48 + z] ++ p) (blen (@nil Z)) (blen (@nil Z) + blen [48 + x; 48 + y; 48 + z])) = Some b).
    rewrite get_range_at. cbn [octal_escape forallb].
    repeat match goal with |- context [?a <=? ?c] => replace (a <=? c) with true by lia end. cbn. f_equal. lia. }
  assert (48 + x <> 92) as Hx by lia. revert Ho Hx. generalize (48 + x). intros w Ho Hx. cbn [unescape].
  destruct w as [|w|w]; try (rewrite Ho; done). do 7 (destruct w as [w|w|]; try (rewrite Ho; done)). done.
Qed.

(** Escapes are undone: whichever way each byte of a name is presented, [unescape] gives the
    name's bytes, with one unit of fuel for every byte of the text. *)
Theorem unescape_undoes_escapes text name : escaped text name -> unescape (length text) text = name.
Proof.
  intros He. enough (forall fuel, (length text <= fuel)%nat -> unescape fuel text = name) as Hf by (by apply Hf).
  induction He as [|b p q Hb He IH|p q He IH|b p q Hb He IH]; intros [|fuel] Hf; cbn [length] in Hf; try (cbn; done || lia).
  - rewrite unescape_plain, IH by (done || lia). done.
  - cbn [unescape]. rewrite IH by lia. done.
  - rewrite unescape_octal, IH by (done || lia). done.
Qed.

(** ** Passive capture at concrete frames

    The readers of DNS messages, XML and captures are toy ones: a message asks for one fixed
    name, and a capture is three fixed packets, a request of ARP, a frame cut short and a DNS
    query. *)

Definition arp_frame : bytes :=
  [255; 255; 255; 255; 255; 255; 2; 0; 0; 0; 0; 1; 8; 6; 0; 1; 8; 0; 6; 4; 0; 1; 2; 0; 0; 0; 0; 1; 192; 168; 1; 7;
   0; 0; 0; 0; 0; 0; 192; 168; 1; 1].
Definition dns_frame : bytes :=
  [2; 0; 0; 0; 0; 9; 2; 0; 0; 0; 0; 1; 8; 0; 69; 0; 0; 40; 0; 0; 0; 0; 64; 17; 0; 0; 192; 168; 1; 7; 192; 168; 1; 1;
   200; 0; 0; 53; 0; 20; 0; 0; 1; 2; 3; 4; 5; 6; 7; 8; 9; 10; 11; 12].
Definition lldp_values : list (Z * bytes) :=
  [(1, [7; 115; 119]); (2, [7; 112; 49]); (3, [0; 120]); (5, [99; 111; 114; 101])].
Definition lldp_frame : bytes :=
  [1; 128; 194; 0; 0; 14; 2; 0; 0; 0; 0; 1; 136; 204] ++ concat (map tlv lldp_values) ++ [0; 0].

Definition toy_packet (data : bytes) : PcapPacket :=
  {| pk_data := data; pk_orig_len := blen data; pk_secs := 1700000000; pk_nanos := 0 |}.
Definition toy_packets : list PcapPacket := map toy_packet [arp_frame; take 30 arp_frame; dns_frame].
Definition toy_passive : PassiveLibs := {|
  etherparse_ok _ := true;
  dns_from_vec _ := Some {| dm_queries := ["printer.local."%string]; dm_answers := []; dm_authorities := []; dm_additionals := [] |};
  xml_event _ _ := None;
  pcap_read _ := Some {| pf_ethernet := true; pf_snaplen := 65535; pf_packets := map Some toy_packets |}
|}.
#[local] Existing Instance toy_passive.

Definition T0 : DateTime := 1700000000 * 1000000000.
Definition private : PassiveOptions := {| metadata_enabled := false |}.
Ltac octets := repeat (first [apply Forall_nil_2 | apply Forall_cons_2; [unfold is_u8; lia|]]).

Example arp_frame_facts :
  match normalize "eth0" T0 arp_frame private with
  | Ok [one] => po_subject_ip one = Some (V4 (ipv4_new 192 168 1 7)) /\ po_protocol one = "arp"%string /\ (0 < blen (po_facts one))
  | _ => False
  end.
Proof. vm_compute. done. Qed.
Example dns_frame_asks : option_map (fun l => map (fun one => existsb (fun f => bool_decide (ef_key f = "query"%string)) (po_facts one)) l)
    match normalize "eth0" T0 dns_frame default_passive_options with Ok l => Some l | Err _ => None end = Some [true].
Proof. vm_compute. done. Qed.

Lemma every_frame_is_decoded_safely_witness : normalize "eth0" T0 arp_frame private <> Err PPanic.
Proof. refine (proj1 (every_frame_is_decoded_safely "eth0" private T0 arp_frame _)). octets. Defined.

Lemma disabled_metadata_stays_private_witness :
  match normalize "eth0" T0 dns_frame private with
  | Ok out => Forall (fun one => Forall (fun fact => ef_key fact <> "query"%string) (po_facts one)) out
  | Err _ => False
  end.
Proof.
  destruct (normalize "eth0" T0 dns_frame private) as [out|] eqn:E; [|vm_compute in E; discriminate].
  refine (proj1 (disabled_metadata_stays_private "eth0" private T0 dns_frame out _ eq_refl E)). octets.
Defined.

Lemma capture_is_accounted_for_witness :
  ingest_pcap_report "eth0" [] private <> Err PPanic /\
  match ingest_pcap_report "eth0" [] private with Ok report => pi_skipped_frames report = 1 | Err _ => False end.
Proof.
  split; [|vm_compute; done]. refine (proj1 (capture_is_accounted_for "eth0" private [] _)).
  intros file p [= <-] [[= <-]|[[= <-]|[[= <-]|[]]]]; cbn [toy_packet pk_data]; octets.
Defined.

Lemma cdp_checksum_verifies_witness :
  checksum (2 :: 180 :: checksum [2; 180; 0; 0; 0; 1; 0; 5; 200] / 256 :: checksum [2; 180; 0; 0; 0; 1; 0; 5; 200] mod 256 :: [0; 1; 0; 5; 200]) = 0.
Proof. refine (proj2 (cdp_checksum_verifies 2 180 [0; 1; 0; 5; 200] _ _)); [octets|vm_compute; discriminate]. Defined.

Lemma lldp_frame_is_read_back_witness :
  lldp (concat (map tlv lldp_values) ++ [0; 0] ++ [0; 0; 0]) = lldp_read 0 lldp_values [] 0 /\
  lldp_read 0 lldp_values [] 0 = Ok ([("chassis_id", "sw"); ("port_id", "p1"); ("ttl_seconds", "120"); ("system_name", "core")]%string, 120).
Proof.
  split; [|vm_compute; done]. refine (lldp_frame_is_read_back lldp_values [0; 0; 0] _ _ _); [|cbn; lia|vm_compute; discriminate].
  repeat (first [apply Forall_nil_2 | apply Forall_cons_2; [unfold tlv_fits, blen; cbn; lia|]]).
Defined.

Lemma unescape_undoes_escapes_witness : unescape 7 [97; 92; 92; 92; 48; 52; 48] = [97; 92; 32].
Proof.
  refine (unescape_undoes_escapes [97; 92; 92; 92; 48; 52; 48] [97; 92; 32] _).
  apply escaped_plain; [done|]. apply escaped_slash. exact (escaped_octal 32 [] [] ltac:(unfold is_u8; lia) escaped_nil).
Defined.
