(* ===== verification/Active.v ===== *)
(** * Active discovery: probes and their execution

    crates/lattice-sensor/src/active.rs: the catalog of probes, the engine that is the only way to
    the network, the bounded reading of HTTP heads and the SNMP community exchange; of active/web.rs
    the descriptors of web probes. The transport is a parameter: an attempt under the timeout of its
    probe answers, times out, or is interrupted by a stop. A duration is a number of nanoseconds. *)

From S2P Require Import Prelude Time Text F32 Order Bytes Net Domain Wire.

Definition MAX_RESPONSE_BYTES : Z := 16 * 1024.
Definition MAX_FACT_VALUE_BYTES : Z := 512.
Definition MAX_QUEUE : Z := 4096.

Inductive ProbeTransport := TrIcmp | TrLinkLayer | TrTcp | TrTls | TrUdp.
#[global] Instance ProbeTransport_eq_dec : EqDecision ProbeTransport.
Proof. solve_decision. Defined.
Inductive RequiredPrivilege := PrivNone | PrivRaw | PrivAdmin | PrivCredential.
#[global] Instance RequiredPrivilege_eq_dec : EqDecision RequiredPrivilege.
Proof. solve_decision. Defined.
Inductive BudgetClass := BudgetPresence | BudgetDiscovery | BudgetInventory | BudgetOwnerFullPort.
#[global] Instance BudgetClass_eq_dec : EqDecision BudgetClass.
Proof. solve_decision. Defined.

Record ProbeDescriptor := {
  pd_id : string; pd_version : Z; pd_transport : ProbeTransport; pd_ports : list Z; pd_privilege : RequiredPrivilege;
  pd_potential_side_effects : string; pd_timeout : Duration; pd_max_request_bytes : Z; pd_max_response_bytes : Z;
  pd_evidence_families : list EvidenceFamily; pd_budget_class : BudgetClass; pd_rate_cost : Z;
  pd_credential_required : bool; pd_owner_start_required : bool; pd_request : bytes }.

Inductive CatalogError := DuplicateProbe | InvalidProbe.
Definition ProbeCatalog : Type := gmap string ProbeDescriptor.
Inductive CuratedPlan := PlanDefault | PlanOwnerInventory | PlanOwnerFullPort.

Inductive ProbeMode := ModeDefault | ModeOwnerInventory | ModeOwnerFullPort.
#[global] Instance ProbeMode_eq_dec : EqDecision ProbeMode.
Proof. solve_decision. Defined.
Record ProbeRequest := { rq_interface : InterfaceId; rq_target : IpAddr; rq_probe_id : string; rq_mode : ProbeMode; rq_owner_approved : bool }.
#[global] Instance ProbeRequest_eq_dec : EqDecision ProbeRequest.
Proof. solve_decision. Defined.

Inductive TransportResponse := TSuccess (values : list (string * string)) | TRefused | TTimeout.
Inductive ProbeOutcome := Success (facts : list EvidenceFact) | RefusedBy (source : string) | TimeoutOf (source : string).
Inductive ActiveError :=
  | Unauthorized | UnknownProbe | OwnerApprovalRequired | CredentialRequired | CredentialTimeout | Cancelled | Unavailable
  | PermissionDenied | Network | Protocol | Internal | ResponseLimit | Correlation | InvalidConfig | QueueFull.
#[global] Instance ActiveError_eq_dec : EqDecision ActiveError.
Proof. solve_decision. Defined.

(** ** The catalog *)
Definition invalid_descriptor (d : ProbeDescriptor) : bool :=
  str_is_empty (pd_id d) || (pd_version d =? 0) || bool_decide (pd_ports d = []) || (4096 <? pd_max_request_bytes d)
  || (MAX_RESPONSE_BYTES <? pd_max_response_bytes d) || (pd_max_request_bytes d <? blen (pd_request d)) || (pd_rate_cost d =? 0)
  || str_is_empty (pd_potential_side_effects d).
Fixpoint catalog_loop (items : list ProbeDescriptor) (acc : ProbeCatalog) : result ProbeCatalog CatalogError :=
  match items with
  | [] => Ok acc
  | d :: items' =>
    if invalid_descriptor d then Err InvalidProbe
    else if bool_decide (is_Some (acc !! pd_id d)) then Err DuplicateProbe
    else catalog_loop items' (<[pd_id d := d]> acc)
  end.
Definition catalog_new (items : list ProbeDescriptor) : result ProbeCatalog CatalogError := catalog_loop items ∅.
Definition catalog_len (c : ProbeCatalog) : nat := size c.
Definition catalog_get (c : ProbeCatalog) (id : string) : option ProbeDescriptor := c !! id.

Definition with_timeout (t : Duration) (d : ProbeDescriptor) : ProbeDescriptor := {|
  pd_id := pd_id d; pd_version := pd_version d; pd_transport := pd_transport d; pd_ports := pd_ports d; pd_privilege := pd_privilege d;
  pd_potential_side_effects := pd_potential_side_effects d; pd_timeout := t; pd_max_request_bytes := pd_max_request_bytes d;
  pd_max_response_bytes := pd_max_response_bytes d; pd_evidence_families := pd_evidence_families d; pd_budget_class := pd_budget_class d;
  pd_rate_cost := pd_rate_cost d; pd_credential_required := pd_credential_required d; pd_owner_start_required := pd_owner_start_required d;
  pd_request := pd_request d |}.
(** [owner_start_required], the class, the cost and the side effects set after construction. *)
Definition owner_started (c : BudgetClass) (cost : Z) (effects : string) (d : ProbeDescriptor) : ProbeDescriptor := {|
  pd_id := pd_id d; pd_version := pd_version d; pd_transport := pd_transport d; pd_ports := pd_ports d; pd_privilege := pd_privilege d;
  pd_potential_side_effects := effects; pd_timeout := pd_timeout d; pd_max_request_bytes := pd_max_request_bytes d;
  pd_max_response_bytes := pd_max_response_bytes d; pd_evidence_families := pd_evidence_families d; pd_budget_class := c;
  pd_rate_cost := cost; pd_credential_required := pd_credential_required d; pd_owner_start_required := true;
  pd_request := pd_request d |}.
Definition with_response (n : Z) (families : list EvidenceFamily) (d : ProbeDescriptor) : ProbeDescriptor := {|
  pd_id := pd_id d; pd_version := pd_version d; pd_transport := pd_transport d; pd_ports := pd_ports d; pd_privilege := pd_privilege d;
  pd_potential_side_effects := pd_potential_side_effects d; pd_timeout := pd_timeout d; pd_max_request_bytes := pd_max_request_bytes d;
  pd_max_response_bytes := n; pd_evidence_families := families; pd_budget_class := pd_budget_class d;
  pd_rate_cost := pd_rate_cost d; pd_credential_required := pd_credential_required d; pd_owner_start_required := pd_owner_start_required d;
  pd_request := pd_request d |}.

Definition override_timeout (c : ProbeCatalog) (id : string) (timeout : Duration) : result ProbeCatalog CatalogError :=
  if (timeout =? 0) || (seconds 30 <? timeout) then Err InvalidProbe
  else if bool_decide (is_Some (c !! id)) then Ok (alter (with_timeout timeout) id c) else Err InvalidProbe.

Definition descriptor (id : string) (transport : ProbeTransport) (port : Z) (privilege : RequiredPrivilege) (request : bytes) : ProbeDescriptor :=
  let '(side_effects, budget_class, rate_cost) :=
    if starts_with id "icmp." then ("One ICMP echo; target may answer or log it"%string, BudgetPresence, 1)
    else if starts_with id "link." then ("One local-link neighbor query through the privileged capture backend"%string, BudgetPresence, 1)
    else if starts_with id "udp.dhcp" then ("One unicast DHCPINFORM from the active interface address; server may audit it"%string, BudgetDiscovery, 2)
    else if starts_with id "udp.snmp" then ("Two read-only SNMP GET varbinds; agent may audit the supplied owner credential"%string, BudgetInventory, 4)
    else if starts_with id "udp." then ("One protocol-shaped unicast discovery request; target may answer or log it"%string, BudgetDiscovery, 1)
    else if bool_decide (transport = TrTls) then ("One TLS handshake for certificate metadata; target may log it"%string, BudgetDiscovery, 3)
    else ("One TCP handshake and optional non-auth greeting; target service may log it"%string, BudgetDiscovery, 2) in
  {| pd_id := id; pd_version := 1; pd_transport := transport; pd_ports := [port]; pd_privilege := privilege;
     pd_potential_side_effects := side_effects; pd_timeout := seconds 3; pd_max_request_bytes := 1024; pd_max_response_bytes := 4096;
     pd_evidence_families := match transport with
                             | TrTls => [Cryptographic; Service] | TrIcmp => [Addressing] | TrLinkLayer => [LinkLayer]
                             | TrTcp | TrUdp => [Service] end;
     pd_budget_class := budget_class; pd_rate_cost := rate_cost; pd_credential_required := bool_decide (privilege = PrivCredential);
     pd_owner_start_required := false; pd_request := request |}.

(** [s.parse::<u16>()] *)
Definition parse_u16 (s : string) : option Z :=
  let digits := match s with String "+" s' => s' | _ => s end in
  if str_is_empty digits then None
  else match digits_value 0 digits with Some z => if z <=? 65535 then Some z else None | None => None end.

(** Candidates for HTTP, and whether TLS comes first. *)
Definition tls_first_ports : list Z := [443; 4443; 5001; 6443; 7443; 8443; 9443; 10443].
Definition plain_first_ports : list Z := [80; 81; 82; 83; 88; 631; 800; 3000; 3001; 4200; 5000; 5002; 5357; 5800; 7000; 7001; 8000; 8001;
  8006; 8008; 8010; 8080; 8081; 8082; 8083; 8084; 8088; 8090; 8123; 8181; 8200; 8880; 8888; 9000; 9090; 10000; 32400].
Definition web_probe_ids (port : Z) : option (list string) :=
  let ids schemes := map (fun scheme => ("web." +:+ scheme +:+ "." +:+ pretty port)%string) schemes in
  if existsb (Z.eqb port) tls_first_ports then Some (ids ["https"; "http"]%string)
  else if existsb (Z.eqb port) plain_first_ports then Some (ids ["http"; "https"]%string)
  else None.
Definition web_descriptor (id : string) : option ProbeDescriptor :=
  match strip_prefix "web." id with
  | None => None
  | Some rest =>
    match split_once "." rest with
    | None => None
    | Some (scheme, port) =>
      match parse_u16 port with
      | None => None
      | Some port =>
        match web_probe_ids port with
        | None => None
        | Some ids =>
          if negb (existsb (fun candidate => bool_decide (candidate = id)) ids) then None
          else
            let d := descriptor id (if bool_decide (scheme = "https"%string) then TrTls else TrTcp) port PrivNone [] in
            Some (with_response MAX_RESPONSE_BYTES [Service]
                   (owner_started BudgetInventory (pd_rate_cost d) "One unauthenticated GET /, optionally over TLS; target may log it" d))
        end
      end
    end
  end.

Definition full_port_effects : string := "One TCP handshake; may be logged by the target service".
Definition full_port_descriptor (id : string) (port : Z) : ProbeDescriptor :=
  owner_started BudgetOwnerFullPort 2 full_port_effects (descriptor id TrTcp port PrivNone []).
Definition resolve (c : ProbeCatalog) (id : string) : option ProbeDescriptor :=
  match c !! id with
  | Some d => Some d
  | None =>
    if starts_with id "web." then web_descriptor id
    else match strip_prefix "full.tcp." id with
         | None => None
         | Some port =>
           match parse_u16 port with
           | None => None
           | Some port => if port =? 0 then None else Some (full_port_descriptor id port)
           end
         end
  end.

(** [values()] of the map comes in the order of the keys. *)
Definition plan (c : ProbeCatalog) (p : CuratedPlan) : list ProbeDescriptor :=
  List.filter (fun d =>
    match p with
    | PlanDefault => negb (pd_owner_start_required d)
    | PlanOwnerInventory => pd_owner_start_required d && bool_decide (pd_budget_class d = BudgetInventory) && pd_credential_required d
    | PlanOwnerFullPort => bool_decide (pd_budget_class d = BudgetOwnerFullPort)
    end) (map snd (in_order String.compare (map_to_list c))).

(** *** The built-in catalog *)
Definition crlf : string := String "013" (String "010" EmptyString).
Definition tcp_services : list (string * Z) := [
  ("ssh", 22); ("ftp", 21); ("telnet", 23); ("smtp", 25); ("dns", 53); ("http", 80); ("https", 443); ("smb", 445); ("rdp", 3389);
  ("vnc", 5900); ("mqtt", 1883); ("mqtts", 8883); ("amqp", 5672); ("amqps", 5671); ("rtsp", 554); ("ipp", 631); ("printer", 9100);
  ("camera-web", 8080); ("camera-alt", 8000); ("mysql", 3306); ("postgres", 5432); ("mssql", 1433); ("redis", 6379);
  ("mongodb", 27017); ("oracle", 1521); ("coap-tcp", 5683); ("home-assistant", 8123); ("upnp-web", 5000)]%string.
Definition head_request : bytes := str_bytes ("HEAD / HTTP/1.0" +:+ crlf +:+ "Connection: close" +:+ crlf +:+ crlf)%string.
Definition among (l : list string) (s : string) : bool := existsb (fun x => bool_decide (x = s)) l.
Definition tcp_item (s : string * Z) : ProbeDescriptor :=
  let '(name, port) := s in
  descriptor ("tcp." +:+ name +:+ "." +:+ pretty port)%string
    (if among ["https"; "mqtts"; "amqps"]%string name then TrTls else TrTcp) port PrivNone
    (if among ["http"; "camera-web"; "camera-alt"; "upnp-web"; "home-assistant"]%string name then head_request else []).
Definition soap_envelope : bytes := str_bytes "<e:Envelope xmlns:e='http://www.w3.org/2003/05/soap-envelope'/>".
Definition udp_services : list (string * Z * bytes) := [
  ("dns"%string, 53, [18; 52; 1; 0; 0; 1; 0; 0; 0; 0; 0; 0; 0; 0; 2; 0; 1]);
  ("dhcp"%string, 67, []);
  ("ntp"%string, 123, [27; 0; 0; 0; 0; 0; 0; 0]);
  ("ssdp"%string, 1900, str_bytes ("M-SEARCH * HTTP/1.1" +:+ crlf +:+ "ST: ssdp:all" +:+ crlf +:+ "MX: 1" +:+ crlf +:+ crlf)%string);
  ("nbns"%string, 137, [18; 52; 1; 16; 0; 1; 0; 0; 0; 0; 0; 0]);
  ("mdns"%string, 5353, [18; 52; 0; 0; 0; 0; 0; 0; 0; 0; 0; 0]);
  ("ws-discovery"%string, 3702, soap_envelope);
  ("onvif"%string, 3702, soap_envelope);
  ("sip"%string, 5060, str_bytes ("OPTIONS sip:device SIP/2.0" +:+ crlf +:+ "Content-Length: 0" +:+ crlf +:+ crlf)%string);
  ("coap"%string, 5683, [64; 1; 18; 52]);
  ("rtsp"%string, 554, []);
  ("lifx"%string, 56700, [])].
Definition udp_item (s : string * Z * bytes) : ProbeDescriptor :=
  let '(name, port, req) := s in descriptor ("udp." +:+ name +:+ "." +:+ pretty port)%string TrUdp port PrivNone req.
Definition snmp_item : ProbeDescriptor :=
  owner_started BudgetInventory 4 "Two read-only SNMP GET varbinds; agent may audit the supplied owner credential"
    (descriptor "udp.snmp.161" TrUdp 161 PrivCredential []).
Definition full_port_id (port : Z) : string := ("full.tcp." +:+ pretty port)%string.
Definition catalog_items : list ProbeDescriptor :=
  map tcp_item tcp_services ++ map udp_item udp_services ++ [snmp_item]
  ++ [descriptor "icmp.echo.v4" TrIcmp 0 PrivRaw []; descriptor "icmp.echo.v6" TrIcmp 0 PrivRaw [];
      descriptor "link.arp" TrLinkLayer 0 PrivRaw []; descriptor "link.ndp" TrLinkLayer 0 PrivRaw []]
  ++ map (fun n => full_port_descriptor (full_port_id (Z.of_nat n)) (Z.of_nat n)) (seq 1 64).
Definition catalog : result ProbeCatalog CatalogError := catalog_new catalog_items.
Definition owner_full_port_probe_ids : list string := map (fun n => full_port_id (Z.of_nat n)) (seq 1 (Z.to_nat 65535)).

(** ** The engine *)
Inductive Attempted := Interrupted | TimedOut | Answered (r : result TransportResponse ActiveError).
Class AttemptTransport (Credential W : Type) := {
  attempt : ProbeRequest -> ProbeDescriptor -> option Credential -> M W Attempted
}.

Section Engine.
Context `{Calendar} {Credential W : Type} `{AttemptTransport Credential W}.

Record ActiveEngine := { en_guard : TargetGuard; en_catalog : ProbeCatalog; en_stopped : bool }.
Definition engine_new (guard : TargetGuard) (c : ProbeCatalog) : ActiveEngine := {| en_guard := guard; en_catalog := c; en_stopped := false |}.
Definition engine_stop (e : ActiveEngine) : ActiveEngine := {| en_guard := en_guard e; en_catalog := en_catalog e; en_stopped := true |}.

Fixpoint normalize_facts (d : ProbeDescriptor) (source : string) (now : DateTime) (values : list (string * string)) : result (list EvidenceFact) ActiveError :=
  match values with
  | [] => Ok []
  | (key, value) :: values' =>
    if (64 <? str_len key) || (MAX_FACT_VALUE_BYTES <? str_len value) then Err ResponseLimit
    else
      let? facts := normalize_facts d source now values' in
      Ok ({| ef_family := default Service (List.hd_error (pd_evidence_families d)); ef_source := source; ef_key := key; ef_value := value;
             ef_confidence := f32_lit 7 10; ef_observed_at := now; ef_expires_at := checked_add_signed now (minutes 10);
             ef_owner_confirmed := false |} :: facts)
  end.
Definition active_source (d : ProbeDescriptor) : string := ("active." +:+ pd_id d +:+ ".v" +:+ pretty (pd_version d))%string.
Definition active_normalize (d : ProbeDescriptor) (now : DateTime) (r : TransportResponse) : result ProbeOutcome ActiveError :=
  let source := active_source d in
  match r with
  | TRefused => Ok (RefusedBy source)
  | TTimeout => Ok (TimeoutOf source)
  | TSuccess values =>
    if 32 <? blen values then Err ResponseLimit
    else let? facts := normalize_facts d source now values in Ok (Success facts)
  end.

Definition authorized_mode (d : ProbeDescriptor) (m : ProbeMode) : bool :=
  match pd_budget_class d with
  | BudgetOwnerFullPort => bool_decide (m = ModeOwnerFullPort)
  | _ => bool_decide (m = ModeOwnerInventory)
  end.
(** The checks before the transport. *)
Definition admit_probe (e : ActiveEngine) (r : ProbeRequest) (credential : option Credential) : result ProbeDescriptor ActiveError :=
  if en_stopped e then Err Cancelled
  else
    let? d := ok_or (resolve (en_catalog e) (rq_probe_id r)) UnknownProbe in
    if negb (rq_owner_approved r) then Err OwnerApprovalRequired
    else if pd_owner_start_required d && negb (authorized_mode d (rq_mode r)) then Err OwnerApprovalRequired
    else if pd_credential_required d && bool_decide (credential = None) then Err CredentialRequired
    else match authorize (en_guard e) (rq_interface r) (rq_target r) with
         | Err _ => Err Unauthorized
         | Ok _ => Ok d
         end.
Definition execute (e : ActiveEngine) (now : DateTime) (r : ProbeRequest) (credential : option Credential) : M W (result ProbeOutcome ActiveError) :=
  match admit_probe e r credential with
  | Err x => mret_st (Err x)
  | Ok d =>
    let! a := attempt r d credential in
    mret_st (match a with
             | Interrupted => Err Cancelled
             | TimedOut => active_normalize d now TTimeout
             | Answered (Ok response) => active_normalize d now response
             | Answered (Err x) => Err x
             end)
  end.
End Engine.

(** ** HTTP metadata *)
Fixpoint split_bytes (sep : Z) (p : bytes) : list bytes :=
  match p with
  | [] => [[]]
  | b :: p' =>
    if b =? sep then [] :: split_bytes sep p'
    else match split_bytes sep p' with [] => [[b]] | x :: l => (b :: x) :: l end
  end.
(** [trim_end_matches('\r')] *)
Fixpoint drop_cr (l : list ascii) : list ascii :=
  match l with a :: l' => if bool_decide (a = "013"%char) then drop_cr l' else l | [] => [] end.
Definition trim_end_cr (s : string) : string := string_of_list_ascii (rev (drop_cr (rev (String.list_ascii_of_string s)))).
(** [chars().take(n)] on UTF-8: a scalar value starts at a byte that continues none. *)
Fixpoint take_chars (n : nat) (l : list ascii) : list ascii :=
  match l with
  | [] => []
  | a :: l' =>
    if cont (Z.of_N (byte_of a)) then a :: take_chars n l'
    else match n with O => [] | S n' => a :: take_chars n' l' end
  end.
Definition header_value (value : string) : string :=
  string_of_list_ascii (strip_control (take_chars (Z.to_nat MAX_FACT_VALUE_BYTES) (String.list_ascii_of_string (trim value)))).
Definition is_status (s : string) : bool :=
  (str_len s =? 3) && forallb (fun b => (48 <=? b) && (b <=? 57)) (str_bytes s).
Definition status_fact (line : string) : list (string * string) :=
  match nth_error (ascii_words line EmptyString) 1 with
  | Some status => if is_status status then [("status"%string, status)] else []
  | None => []
  end.
Definition header_key (name : string) : option string :=
  if bool_decide (to_ascii_lowercase name = "server"%string) then Some "server"%string
  else if bool_decide (to_ascii_lowercase name = "content-type"%string) then Some "content_type"%string
  else None.
Definition header_fact (line : string) : list (string * string) :=
  match split_once ":" line with
  | None => []
  | Some (name, value) => match header_key name with Some key => [(key, header_value value)] | None => [] end
  end.
Fixpoint http_lines (first : bool) (l : list bytes) : result (list (string * string)) ActiveError :=
  match l with
  | [] => Ok []
  | raw :: l' =>
    let? text := ok_or (from_utf8 raw) Protocol in
    let line := trim_end_cr text in
    if first then let? facts := http_lines false l' in Ok (status_fact line ++ facts)
    else if str_is_empty line then Ok []
    else let? facts := http_lines false l' in Ok (header_fact line ++ facts)
  end.
Definition parse_http_metadata (p : bytes) : result (list (string * string)) ActiveError :=
  if MAX_RESPONSE_BYTES <? blen p then Err ResponseLimit
  else http_lines true (take 64 (split_bytes 10 p)).

(** ** SNMP with a community *)
Definition SYS_DESCR_OID : bytes := [43; 6; 1; 2; 1; 1; 1; 0].
Definition SYS_OBJECT_ID_OID : bytes := [43; 6; 1; 2; 1; 1; 2; 0].

(** [value.len() as u8] and the two bytes of a longer length. *)
Definition ber (tag : Z) (value : bytes) : bytes :=
  (tag :: (if blen value <? 128 then [blen value mod 256] else [130; Z.shiftr (blen value) 8 mod 256; blen value mod 256])) ++ value.
(** [to_be_bytes] of an i32. *)
Definition i32_bytes (v : Z) : bytes := be_bytes 4 (v mod 4294967296).
Fixpoint drop_zero_bytes (l : bytes) : bytes :=
  match l with [] => [] | [b] => [b] | b :: l' => if b =? 0 then drop_zero_bytes l' else l end.
Definition ber_int (v : Z) : bytes :=
  let content := drop_zero_bytes (i32_bytes v) in
  ber 2 (match content with b :: _ => if negb (Z.land b 128 =? 0) then 0 :: content else content | [] => content end).
Definition snmp_varbind (oid : bytes) : bytes := ber 48 (ber 6 oid ++ ber 5 []).
Definition build_snmp_community_request (version : Z) (community : bytes) (request_id : Z) : result bytes ActiveError :=
  if bool_decide (community = []) || (64 <? blen community) || existsb (Z.eqb 0) community then Err CredentialRequired
  else
    let varbinds := snmp_varbind SYS_DESCR_OID ++ snmp_varbind SYS_OBJECT_ID_OID in
    let pdu := ber 160 (ber_int request_id ++ ber_int 0 ++ ber_int 0 ++ ber 48 varbinds) in
    let message := ber 48 (ber_int version ++ ber 4 community ++ pdu) in
    if 4096 <? blen message then Err ResponseLimit else Ok message.

(** The value of a field and what follows it. *)
Definition field (input : bytes) (header len : Z) : result (bytes * bytes) ActiveError :=
  if (MAX_RESPONSE_BYTES <? len) || (blen input <? header + len) then Err ResponseLimit
  else Ok (take (Z.to_nat len) (drop (Z.to_nat header) input), drop (Z.to_nat (header + len)) input).
Definition tlv (input : bytes) (expected : Z) : result (bytes * bytes) ActiveError :=
  match input with
  | tag :: first :: rest =>
    if negb (tag =? expected) then Err Protocol
    else if Z.land first 128 =? 0 then field input 2 first
    else
      let count := Z.land first 127 in
      if (count =? 0) || (2 <? count) || (blen input <? 2 + count) then Err Protocol
      else field input (2 + count) (fold_left (fun len b => Z.lor (Z.shiftl len 8) b) (take (Z.to_nat count) rest) 0)
  | _ => Err Protocol
  end.
Definition ber_integer (input : bytes) : result (Z * bytes) ActiveError :=
  let? p := tlv input 2 in
  let '(value, rest) := p in
  if bool_decide (value = []) || (5 <? blen value) then Err Protocol
  else
    let out := fold_left (fun out b => Z.lor (Z.shiftl out 8) b) value 0 in
    if out <=? 2147483647 then Ok (out, rest) else Err Protocol.

(** [checked_shl] only checks the amount: bits shifted out are lost. *)
Definition oid_step (v b : Z) : Z := Z.shiftl v 7 mod 4294967296 + Z.land b 127.
Fixpoint oid_loop (v : Z) (open : bool) (l : bytes) : result (list string) ActiveError :=
  match l with
  | [] => if open then Err Protocol else Ok []
  | b :: l' =>
    let v := oid_step v b in
    if u32_max <? v then Err ResponseLimit
    else if Z.land b 128 =? 0 then let? parts := oid_loop 0 false l' in Ok (pretty v :: parts)
    else oid_loop v true l'
  end.
Definition decode_oid (p : bytes) : result string ActiveError :=
  match p with
  | [] => Err Protocol
  | first :: rest => let? parts := oid_loop 0 false rest in Ok (str_join "." (pretty (first / 40) :: pretty (first mod 40) :: parts))
  end.

(** One binding: its fact, and what it marks as seen. *)
Definition snmp_binding (binding : bytes) (descr object_id : bool) : result (string * string * bool * bool) ActiveError :=
  let? p := tlv binding 6 in
  let '(oid, binding) := p in
  if bool_decide (oid = SYS_DESCR_OID) then
    if descr then Err Correlation
    else
      let? p := tlv binding 4 in
      let '(value, binding) := p in
      if MAX_FACT_VALUE_BYTES <? blen value then Err ResponseLimit
      else if negb (bool_decide (binding = [])) then Err Protocol
      else Ok ("sys_descr"%string, string_of_list_ascii (strip_control (String.list_ascii_of_string (from_utf8_lossy value))), true, object_id)
  else if bool_decide (oid = SYS_OBJECT_ID_OID) then
    if object_id then Err Correlation
    else
      let? p := tlv binding 6 in
      let '(value, binding) := p in
      let? text := decode_oid value in
      if negb (bool_decide (binding = [])) then Err Protocol else Ok ("sys_object_id"%string, text, descr, true)
  else Err Correlation.
(** The fuel is one unit per byte. *)
Fixpoint snmp_bindings (fuel : nat) (input : bytes) (facts : list (string * string)) (descr object_id : bool)
  : result (list (string * string)) ActiveError :=
  match input with
  | [] => if descr && object_id then Ok facts else Err Protocol
  | _ =>
    match fuel with
    | O => Err Internal
    | S fuel' =>
      if 2 <=? blen facts then Err ResponseLimit
      else
        let? p := tlv input 48 in
        let '(binding, input') := p in
        let? b := snmp_binding binding descr object_id in
        let '(key, value, descr', object_id') := b in
        snmp_bindings fuel' input' (facts ++ [(key, value)]) descr' object_id'
    end
  end.
Definition parse_snmp_community_response (p : bytes) (expected_version : Z) (community : bytes) (request_id : Z)
  : result (list (string * string)) ActiveError :=
  if MAX_RESPONSE_BYTES <? blen p then Err ResponseLimit
  else
    let? x := tlv p 48 in
    let '(message, top) := x in
    if negb (bool_decide (top = [])) then Err Correlation
    else
      let? x := ber_integer message in
      let '(version, message) := x in
      if negb (version =? expected_version) then Err Correlation
      else
        let? x := tlv message 4 in
        let '(actual, message) := x in
        if negb (bool_decide (actual = community)) then Err Correlation
        else
          let? x := tlv message 162 in
          let '(pdu, message) := x in
          if negb (bool_decide (message = [])) then Err Correlation
          else
            let? x := ber_integer pdu in
            let '(id, pdu) := x in
            if negb (id =? request_id) then Err Correlation
            else
              let? x := ber_integer pdu in
              let '(status, pdu) := x in
              if negb (status =? 0) then Err Protocol
              else
                let? x := ber_integer pdu in
                let '(index, pdu) := x in
                if negb (index =? 0) then Err Protocol
                else
                  let? x := tlv pdu 48 in
                  let '(bindings, pdu) := x in
                  if negb (bool_decide (pdu = [])) then Err Protocol
                  else snmp_bindings (length bindings) bindings [] false false.
