(* ===== verification/ActiveScheduler.v ===== *)
(** * Active discovery: the scheduler

    [Scheduler] of crates/lattice-sensor/src/active.rs: the bounded queue with one line per host and a
    slow line, admission under concurrency and token-bucket budgets, retry delays. The monotonic
    clock and the jitter unit are arguments of the operations that read them; durations are
    nanoseconds and saturate at the largest [Duration]. *)

From S2P Require Import Prelude Time Text F32 F64 Order Bytes Net Domain Wire Active.
From Stdlib Require Import SpecFloat.

(** ** Durations *)
Definition dur_max : Duration := u64_max * 1000000000 + 999999999.
Definition dur_add (a b : Duration) : Duration := Z.min dur_max (a + b).
Definition dur_sub (a b : Duration) : Duration := Z.max 0 (a - b).
Definition dur_checked_mul (d : Duration) (n : Z) : option Duration := if d * n <=? dur_max then Some (d * n) else None.
Definition dur_mul (d : Duration) (n : Z) : Duration := default dur_max (dur_checked_mul d n).

(** [as_secs_f64] and [from_secs_f64], which rounds to the nearest nanosecond, ties to even. *)
Definition f64_add (a b : f64) : f64 := SFadd 53 1024 a b.
Definition as_secs_f64 (d : Duration) : f64 :=
  f64_add (f64_of_Z (d / 1000000000)) (f64_div (f64_of_Z (d mod 1000000000)) (f64_of_Z 1000000000)).
Definition round_half_even (n d : Z) : Z :=
  let q := n / d in
  match Z.compare (2 * (n mod d)) d with
  | Lt => q
  | Gt => q + 1
  | Eq => if Z.even q then q else q + 1
  end.
(** [None] is the panic on a value that no duration holds. *)
Definition from_secs_f64 (x : f64) : option Duration :=
  match x with
  | S754_zero _ => Some 0
  | S754_finite false m e =>
    let n := if 0 <=? e then Z.pos m * 2 ^ e * 1000000000 else round_half_even (Z.pos m * 1000000000) (2 ^ (- e)) in
    if n <=? dur_max then Some n else None
  | _ => None
  end.
Definition mul_f64 (d : Duration) (rhs : f64) : option Duration := from_secs_f64 (f64_mul rhs (as_secs_f64 d)).

(** ** Configuration *)
Record BudgetConfig := { bc_global_concurrency : Z; bc_per_host_concurrency : Z; bc_global_rate_burst : Z; bc_per_subnet_burst : Z; bc_refill : Duration }.
Definition budget_new (global host global_rate_burst subnet : Z) (refill : Duration) : result BudgetConfig ActiveError :=
  if (global =? 0) || (256 <? global) || (host =? 0) || (16 <? host) || (global <? host) || (global_rate_burst =? 0)
     || (4096 <? global_rate_burst) || (subnet =? 0) || (1024 <? subnet) || (refill =? 0) || (seconds 3600 <? refill)
  then Err InvalidConfig
  else Ok {| bc_global_concurrency := global; bc_per_host_concurrency := host; bc_global_rate_burst := global_rate_burst;
             bc_per_subnet_burst := subnet; bc_refill := refill |}.
Definition default_budget : BudgetConfig := {|
  bc_global_concurrency := 32; bc_per_host_concurrency := 2; bc_global_rate_burst := 128; bc_per_subnet_burst := 64; bc_refill := seconds 1 |}.

Record SchedulerConfig := {
  cf_budgets : BudgetConfig; cf_queue_capacity : Z; cf_base_backoff : Duration; cf_max_backoff : Duration; cf_jitter_percent : Z;
  cf_state_capacity : Z; cf_state_ttl : Duration; cf_max_retry_attempts : Z; cf_credential_timeout : Duration }.
Definition default_scheduler_config : SchedulerConfig := {|
  cf_budgets := default_budget; cf_queue_capacity := 2048; cf_base_backoff := seconds 1; cf_max_backoff := seconds 60; cf_jitter_percent := 10;
  cf_state_capacity := 2048; cf_state_ttl := seconds (30 * 60); cf_max_retry_attempts := 5; cf_credential_timeout := seconds 2 |}.

(** ** State *)
#[global] Program Instance ProbeMode_countable : Countable ProbeMode :=
  inj_countable' (fun m => match m with ModeDefault => None | ModeOwnerInventory => Some false | ModeOwnerFullPort => Some true end)
                 (fun o => match o with None => ModeDefault | Some false => ModeOwnerInventory | Some true => ModeOwnerFullPort end) _.
Next Obligation. by intros []. Qed.
Definition QueueKey : Type := InterfaceId * IpAddr * string * ProbeMode.
Definition queue_key (r : ProbeRequest) : QueueKey := (rq_interface r, rq_target r, rq_probe_id r, rq_mode r).

Definition WorkKey : Type := InterfaceId * IpAddr * string.
Definition work_key (r : ProbeRequest) : WorkKey := (rq_interface r, rq_target r, rq_probe_id r).

Inductive SubnetKey := SubnetV4 (a : Z) | SubnetV6 (a : Z).
#[global] Instance SubnetKey_eq_dec : EqDecision SubnetKey.
Proof. solve_decision. Defined.
#[global] Program Instance SubnetKey_countable : Countable SubnetKey :=
  inj_countable' (fun a => match a with SubnetV4 z => inl z | SubnetV6 z => inr z end)
                 (fun s => match s with inl z => SubnetV4 z | inr z => SubnetV6 z end) _.
Next Obligation. by intros []. Qed.
Definition subnet (ip : IpAddr) : SubnetKey :=
  match ip with
  | V4 a => SubnetV4 (Z.land a 4294967040)
  | V6 a => SubnetV6 (Z.land a (Z.land (Z.shiftl u128_mask 64) u128_mask))
  end.

Record FailureState := { fs_count : Z; fs_last_used : Duration }.
Record TokenBucket := { tb_tokens : Z; tb_last : Duration; tb_last_used : Duration }.

(** Refilled to [now]; the caller looks at the tokens. *)
Definition available (now : Duration) (capacity : Z) (refill : Duration) (b : TokenBucket) : TokenBucket :=
  if (tb_last b <? now) && (refill <=? dur_sub now (tb_last b)) then
    let periods := dur_sub now (tb_last b) / refill in
    {| tb_tokens := Z.min capacity (saturating_add_u64 (tb_tokens b) (Z.min periods u64_max));
       tb_last := dur_add (tb_last b) (dur_mul refill (Z.min periods u32_max)); tb_last_used := now |}
  else {| tb_tokens := tb_tokens b; tb_last := tb_last b; tb_last_used := now |}.
Definition spend (cost : Z) (b : TokenBucket) : TokenBucket := {| tb_tokens := tb_tokens b - cost; tb_last := tb_last b; tb_last_used := tb_last_used b |}.
Definition full_bucket (capacity : Z) (now : Duration) : TokenBucket := {| tb_tokens := capacity; tb_last := now; tb_last_used := now |}.

Record Queues := { qu_high : gmap IpAddr (list ProbeRequest); qu_low : list ProbeRequest; qu_hosts : list IpAddr; qu_queued : gset QueueKey; qu_since_low : Z }.
Record Rates := { ra_global : TokenBucket; ra_hosts : gmap IpAddr TokenBucket; ra_subnets : gmap SubnetKey TokenBucket }.
Record Scheduler := {
  sc_config : SchedulerConfig; sc_queues : Queues; sc_failures : gmap WorkKey FailureState; sc_stopped : bool; sc_active : Z;
  sc_active_hosts : gmap IpAddr Z; sc_rates : Rates }.

Definition HIGH_ADMISSIONS_BEFORE_LOW : Z := 32.
Inductive AdmissionDecision := Admitted_ | ConcurrencyLimited | EligibleAt (deadline : Duration).
#[global] Instance AdmissionDecision_eq_dec : EqDecision AdmissionDecision.
Proof. solve_decision. Defined.

Definition empty_queues : Queues := {| qu_high := ∅; qu_low := []; qu_hosts := []; qu_queued := ∅; qu_since_low := 0 |}.
Definition scheduler_new (c : SchedulerConfig) (now : Duration) : result Scheduler ActiveError :=
  let b := cf_budgets c in
  let? _ := budget_new (bc_global_concurrency b) (bc_per_host_concurrency b) (bc_global_rate_burst b) (bc_per_subnet_burst b) (bc_refill b) in
  if (cf_queue_capacity c =? 0) || (MAX_QUEUE <? cf_queue_capacity c) || (cf_base_backoff c =? 0) || (cf_max_backoff c <? cf_base_backoff c)
     || (25 <? cf_jitter_percent c) || (cf_state_capacity c =? 0) || (MAX_QUEUE <? cf_state_capacity c) || (cf_state_ttl c =? 0)
     || (cf_max_retry_attempts c =? 0) || (16 <? cf_max_retry_attempts c) || (cf_credential_timeout c =? 0)
     || (seconds 30 <? cf_credential_timeout c)
  then Err InvalidConfig
  else Ok {| sc_config := c; sc_queues := empty_queues; sc_failures := ∅; sc_stopped := false; sc_active := 0; sc_active_hosts := ∅;
             sc_rates := {| ra_global := full_bucket (bc_global_rate_burst b) now; ra_hosts := ∅; ra_subnets := ∅ |} |}.

Definition with_queues (q : Queues) (s : Scheduler) : Scheduler := {|
  sc_config := sc_config s; sc_queues := q; sc_failures := sc_failures s; sc_stopped := sc_stopped s; sc_active := sc_active s;
  sc_active_hosts := sc_active_hosts s; sc_rates := sc_rates s |}.
Definition with_failures (f : gmap WorkKey FailureState) (s : Scheduler) : Scheduler := {|
  sc_config := sc_config s; sc_queues := sc_queues s; sc_failures := f; sc_stopped := sc_stopped s; sc_active := sc_active s;
  sc_active_hosts := sc_active_hosts s; sc_rates := sc_rates s |}.
Definition with_rates (r : Rates) (s : Scheduler) : Scheduler := {|
  sc_config := sc_config s; sc_queues := sc_queues s; sc_failures := sc_failures s; sc_stopped := sc_stopped s; sc_active := sc_active s;
  sc_active_hosts := sc_active_hosts s; sc_rates := r |}.
Definition with_active (n : Z) (hosts : gmap IpAddr Z) (s : Scheduler) : Scheduler := {|
  sc_config := sc_config s; sc_queues := sc_queues s; sc_failures := sc_failures s; sc_stopped := sc_stopped s; sc_active := n;
  sc_active_hosts := hosts; sc_rates := sc_rates s |}.

(** ** The queue *)
Definition queue_len (s : Scheduler) : Z := Z.of_nat (size (qu_queued (sc_queues s))).
Definition push_request (r : ProbeRequest) (q : Queues) : Queues :=
  let queued := {[ queue_key r ]} ∪ qu_queued q in
  if bool_decide (rq_mode r = ModeOwnerFullPort)
  then {| qu_high := qu_high q; qu_low := qu_low q ++ [r]; qu_hosts := qu_hosts q; qu_queued := queued; qu_since_low := qu_since_low q |}
  else {| qu_high := <[rq_target r := default [] (qu_high q !! rq_target r) ++ [r]]> (qu_high q); qu_low := qu_low q;
          qu_hosts := match qu_high q !! rq_target r with Some _ => qu_hosts q | None => qu_hosts q ++ [rq_target r] end;
          qu_queued := queued; qu_since_low := qu_since_low q |}.
Definition enqueue (r : ProbeRequest) (s : Scheduler) : result bool ActiveError * Scheduler :=
  if sc_stopped s then (Err Cancelled, s)
  else if cf_queue_capacity (sc_config s) <=? queue_len s then (Err QueueFull, s)
  else if bool_decide (queue_key r ∈ qu_queued (sc_queues s)) then (Ok false, s)
  else (Ok true, with_queues (push_request r (sc_queues s)) s).

Definition pop_low (q : Queues) : option ProbeRequest * Queues :=
  match qu_low q with
  | [] => (None, {| qu_high := qu_high q; qu_low := []; qu_hosts := qu_hosts q; qu_queued := qu_queued q; qu_since_low := 0 |})
  | r :: low => (Some r, {| qu_high := qu_high q; qu_low := low; qu_hosts := qu_hosts q; qu_queued := qu_queued q ∖ {[ queue_key r ]}; qu_since_low := 0 |})
  end.
(** The next request of a host that was taken from the front of the hosts. *)
Definition pop_host (host : IpAddr) (hosts : list IpAddr) (q : Queues) : option ProbeRequest * Queues :=
  match qu_high q !! host with
  | None => (None, {| qu_high := qu_high q; qu_low := qu_low q; qu_hosts := hosts; qu_queued := qu_queued q; qu_since_low := qu_since_low q |})
  | Some [] => (None, {| qu_high := delete host (qu_high q); qu_low := qu_low q; qu_hosts := hosts; qu_queued := qu_queued q; qu_since_low := qu_since_low q |})
  | Some (r :: queue) =>
    (Some r, {| qu_high := match queue with [] => delete host (qu_high q) | _ => <[host := queue]> (qu_high q) end; qu_low := qu_low q;
                qu_hosts := match queue with [] => hosts | _ => hosts ++ [host] end; qu_queued := qu_queued q ∖ {[ queue_key r ]};
                qu_since_low := saturating_add_u64 (qu_since_low q) 1 |})
  end.
Definition pop_request (q : Queues) : option ProbeRequest * Queues :=
  if negb (bool_decide (qu_low q = [])) && (bool_decide (qu_hosts q = []) || (HIGH_ADMISSIONS_BEFORE_LOW <=? qu_since_low q)) then pop_low q
  else match qu_hosts q with host :: hosts => pop_host host hosts q | [] => pop_low q end.
Definition next_request (s : Scheduler) : option ProbeRequest * Scheduler :=
  if sc_stopped s then (None, s)
  else let '(r, q) := pop_request (sc_queues s) in (r, with_queues q s).

Definition scheduler_stop (s : Scheduler) : Scheduler := {|
  sc_config := sc_config s;
  sc_queues := {| qu_high := ∅; qu_low := []; qu_hosts := []; qu_queued := ∅; qu_since_low := qu_since_low (sc_queues s) |};
  sc_failures := sc_failures s; sc_stopped := true; sc_active := sc_active s; sc_active_hosts := sc_active_hosts s; sc_rates := sc_rates s |}.

(** ** Admission *)
Definition fresh (now ttl last_used : Duration) : bool := dur_sub now last_used <=? ttl.
Definition evict_state (now : Duration) (s : Scheduler) : Scheduler :=
  let ttl := cf_state_ttl (sc_config s) in
  with_failures (filter (fun '(_, f) => fresh now ttl (fs_last_used f) = true) (sc_failures s))
    (with_rates {| ra_global := ra_global (sc_rates s);
                   ra_hosts := filter (fun '(_, b) => fresh now ttl (tb_last_used b) = true) (ra_hosts (sc_rates s));
                   ra_subnets := filter (fun '(_, b) => fresh now ttl (tb_last_used b) = true) (ra_subnets (sc_rates s)) |} s).
Definition iter_min (l : list Z) : option Z := fold_right (fun x o => Some (match o with None => x | Some y => Z.min x y end)) None l.
(** The moment at which the first entry of a full table is said to leave it. *)
Definition table_deadline {K} `{Countable K} (now ttl : Duration) (t : gmap K TokenBucket) : Duration :=
  default (dur_add now ttl) (iter_min (map (fun b => dur_add (tb_last_used b) ttl) (map snd (map_to_list t)))).
Definition table_full {K} `{Countable K} (capacity : Z) (k : K) (t : gmap K TokenBucket) : bool :=
  (capacity <=? Z.of_nat (size t)) && bool_decide (t !! k = None).

Definition host_capacity (b : BudgetConfig) : Z := Z.min u64_max (bc_per_host_concurrency b * 4).
Definition at_capacity (s : Scheduler) (target : IpAddr) : bool :=
  let b := cf_budgets (sc_config s) in
  (bc_global_concurrency b <=? sc_active s) || (bc_per_host_concurrency b <=? default 0 (sc_active_hosts s !! target)).
Definition missing_tokens (cost : Z) (r : Rates) (target : IpAddr) : Z :=
  let tokens o := match o with Some b => tb_tokens b | None => 0 end in
  Z.max (Z.max (dur_sub cost (tb_tokens (ra_global r))) (dur_sub cost (tokens (ra_hosts r !! target))))
        (dur_sub cost (tokens (ra_subnets r !! subnet target))).
(** The buckets of a target, entered if new and refilled to [now]. *)
Definition refill_rates (now : Duration) (b : BudgetConfig) (target : IpAddr) (r : Rates) : Rates := {|
  ra_global := available now (bc_global_rate_burst b) (bc_refill b) (ra_global r);
  ra_hosts := <[target := available now (host_capacity b) (bc_refill b) (default (full_bucket (host_capacity b) now) (ra_hosts r !! target))]> (ra_hosts r);
  ra_subnets := <[subnet target := available now (bc_per_subnet_burst b) (bc_refill b)
                    (default (full_bucket (bc_per_subnet_burst b) now) (ra_subnets r !! subnet target))]> (ra_subnets r) |}.
Definition spend_rates (cost : Z) (target : IpAddr) (r : Rates) : Rates := {|
  ra_global := spend cost (ra_global r); ra_hosts := alter (spend cost) target (ra_hosts r); ra_subnets := alter (spend cost) (subnet target) (ra_subnets r) |}.

Definition admission_decision (now : Duration) (r : ProbeRequest) (cost : Z) (s : Scheduler) : AdmissionDecision * Scheduler :=
  let target := rq_target r in
  let b := cf_budgets (sc_config s) in
  let ttl := cf_state_ttl (sc_config s) in
  if sc_stopped s || (cost =? 0) || at_capacity s target then (ConcurrencyLimited, s)
  else
    let s := evict_state now s in
    if table_full (cf_state_capacity (sc_config s)) target (ra_hosts (sc_rates s)) then (EligibleAt (table_deadline now ttl (ra_hosts (sc_rates s))), s)
    else if table_full (cf_state_capacity (sc_config s)) (subnet target) (ra_subnets (sc_rates s))
    then (EligibleAt (table_deadline now ttl (ra_subnets (sc_rates s))), s)
    else
      let rates := refill_rates now b target (sc_rates s) in
      let missing := missing_tokens cost rates target in
      if 0 <? missing then (EligibleAt (dur_add now (dur_mul (bc_refill b) (Z.min missing u32_max))), with_rates rates s)
      else (Admitted_, with_active (sc_active s + 1) (<[target := default 0 (sc_active_hosts s !! target) + 1]> (sc_active_hosts s))
                         (with_rates (spend_rates cost target rates) s)).
Definition try_start_cost (now : Duration) (r : ProbeRequest) (cost : Z) (s : Scheduler) : bool * Scheduler :=
  let '(a, s') := admission_decision now r cost s in (bool_decide (a = Admitted_), s').
Definition try_start (now : Duration) (r : ProbeRequest) (s : Scheduler) : bool * Scheduler := try_start_cost now r 1 s.

Definition finish_probe (r : ProbeRequest) (s : Scheduler) : Scheduler :=
  with_active (Z.max 0 (sc_active s - 1))
    (match sc_active_hosts s !! rq_target r with
     | Some n => if Z.max 0 (n - 1) =? 0 then delete (rq_target r) (sc_active_hosts s) else <[rq_target r := Z.max 0 (n - 1)]> (sc_active_hosts s)
     | None => sc_active_hosts s
     end) s.

(** ** Retries *)
Definition retry_delay (now : Duration) (r : ProbeRequest) (attempt : Z) (s : Scheduler) : Duration * Scheduler :=
  let s := evict_state now s in
  let c := sc_config s in
  if (cf_state_capacity c <=? Z.of_nat (size (sc_failures s))) && bool_decide (sc_failures s !! work_key r = None) then (cf_max_backoff c, s)
  else
    let before := match sc_failures s !! work_key r with Some f => fs_count f | None => 0 end in
    let count := Z.min 16 (Z.max before (Z.min 255 (attempt + 1))) in
    let delay := Z.min (cf_max_backoff c) (default (cf_max_backoff c) (dur_checked_mul (cf_base_backoff c) (2 ^ Z.min (count - 1) 15))) in
    (delay, with_failures (<[work_key r := {| fs_count := count; fs_last_used := now |}]> (sc_failures s)) s).
Definition record_success (r : ProbeRequest) (s : Scheduler) : Scheduler := with_failures (delete (work_key r) (sc_failures s)) s.
(** [None] is the panic of [mul_f64]. *)
Definition jitter (unit_ : Z) (d : Duration) (s : Scheduler) : option Duration :=
  option_map (fun max => if max =? 0 then 0 else unit_ mod (Z.min max u32_max + 1))
    (mul_f64 d (f64_div (f64_of_Z (cf_jitter_percent (sc_config s))) (f64_of_Z 100))).
Definition state_sizes (s : Scheduler) : nat * nat * nat := (size (ra_hosts (sc_rates s)), size (ra_subnets (sc_rates s)), size (sc_failures s)).
