(* ===== verification/ActiveSchedulerProps.v ===== *)
(** * Active discovery: what the scheduler guarantees

    The queue holds every request once and serves each one after a bounded number of calls; the
    budgets of concurrency and rate hold in every history; the moment that a refusal names is one
    at which the request is admitted. *)

From S2P Require Import Prelude Time Text F32 F64 Order Bytes Net Domain Wire Active ActiveScheduler.

(** ** The queue *)
Definition queue_of (q : Queues) (h : IpAddr) : list ProbeRequest := default [] (qu_high q !! h).
Definition contents (q : Queues) : list ProbeRequest := concat (map (queue_of q) (qu_hosts q)) ++ qu_low q.

Record QueueInv (q : Queues) : Prop := {
  qi_hosts : NoDup (qu_hosts q);
  qi_high : forall h, h ∈ qu_hosts q <-> is_Some (qu_high q !! h);
  qi_lines : forall h l, qu_high q !! h = Some l -> l <> [] /\ Forall (fun r => rq_target r = h /\ rq_mode r <> ModeOwnerFullPort) l;
  qi_low : Forall (fun r => rq_mode r = ModeOwnerFullPort) (qu_low q);
  qi_keys : NoDup (map queue_key (contents q));
  qi_queued : qu_queued q = list_to_set (map queue_key (contents q));
  qi_since : 0 <= qu_since_low q }.

Lemma queue_inv_empty n : 0 <= n -> QueueInv {| qu_high := ∅; qu_low := []; qu_hosts := []; qu_queued := ∅; qu_since_low := n |}.
Proof.
  intros Hn. split; cbn; [apply NoDup_nil_2| | |by apply Forall_nil_2|apply NoDup_nil_2|done|done].
  - intros h. rewrite lookup_empty. split; [by intros ?%not_elem_of_nil|by intros [? ?]].
  - intros h l. by rewrite lookup_empty.
Qed.

Lemma concat_perm {A} (l l' : list (list A)) : l ≡ₚ l' -> concat l ≡ₚ concat l'.
Proof. induction 1; cbn; [done|by f_equiv|by rewrite !app_assoc, (Permutation_app_comm x y)|by etrans]. Qed.
Lemma map_queue_of_ne q q' hs : (forall h, h ∈ hs -> qu_high q' !! h = qu_high q !! h) -> map (queue_of q') hs = map (queue_of q) hs.
Proof. intros Hh. apply map_ext_in. intros h Hin. unfold queue_of. by rewrite Hh by (by apply list_elem_of_In). Qed.

(** The line of one host taken out of the contents. *)
Lemma contents_host q h : QueueInv q -> h ∈ qu_hosts q -> exists hs, qu_hosts q ≡ₚ (h :: hs) /\ (h ∉ hs) /\
  contents q ≡ₚ queue_of q h ++ concat (map (queue_of q) hs) ++ qu_low q.
Proof.
  intros Hi Hin. apply list_elem_of_split in Hin as (l1 & l2 & E). exists (l1 ++ l2). assert (qu_hosts q ≡ₚ (h :: l1 ++ l2)) as Hp by (rewrite E; by rewrite Permutation_middle).
  split_and!; [done| |].
  - pose proof (qi_hosts q Hi) as Hn. rewrite Hp in Hn. by apply NoDup_cons in Hn as [? _].
  - unfold contents. rewrite app_assoc. f_equiv. rewrite <- (concat_cons (queue_of q h)), <- (map_cons (queue_of q) h). by apply concat_perm, Permutation_map.
Qed.

Lemma keys_of_perm q l : QueueInv q -> contents q ≡ₚ l -> NoDup (map queue_key l) /\ qu_queued q = list_to_set (map queue_key l).
Proof. intros Hi Hp. rewrite <- Hp. split; [apply (qi_keys q Hi)|]. rewrite (qi_queued q Hi). apply leibniz_equiv. by rewrite Hp. Qed.

(** *** Entering *)
Lemma push_request_spec r q : QueueInv q -> queue_key r ∉ qu_queued q -> QueueInv (push_request r q) /\ contents (push_request r q) ≡ₚ r :: contents q.
Proof.
  intros Hi Hk. assert (contents (push_request r q) ≡ₚ r :: contents q) as Hp.
  { unfold push_request. case_bool_decide as Em.
    - unfold contents. cbn. change (map (queue_of _) (qu_hosts q)) with (map (queue_of q) (qu_hosts q)). rewrite app_assoc. by rewrite Permutation_app_comm.
    - unfold contents at 1. cbn [qu_hosts qu_low]. destruct (qu_high q !! rq_target r) as [l|] eqn:El.
      + destruct (contents_host q (rq_target r) Hi) as (hs & Hh & Hn & Hc); [by apply (qi_high q Hi)|].
        rewrite (concat_perm _ _ (Permutation_map _ Hh)). cbn [map concat]. rewrite (map_queue_of_ne q) by (intros h Hh'; cbn; by rewrite lookup_insert_ne by set_solver).
        unfold queue_of at 1. cbn. rewrite lookup_insert_eq. cbn. rewrite Hc. unfold queue_of at 2. rewrite El. cbn. rewrite <- !app_assoc. cbn. by rewrite <- Permutation_middle.
      + rewrite map_app, concat_app. cbn [map concat]. rewrite (map_queue_of_ne q).
        2: { intros h Hh; cbn. rewrite lookup_insert_ne; [done|]. intros <-. apply (qi_high q Hi) in Hh as [? ?]. congruence. }
        unfold queue_of at 2. cbn. rewrite lookup_insert_eq. cbn. unfold contents. rewrite <- app_assoc. cbn. by rewrite <- Permutation_middle. }
  split; [|done].
  assert (NoDup (map queue_key (contents (push_request r q))) /\ qu_queued (push_request r q) = list_to_set (map queue_key (contents (push_request r q)))) as [Hn Hq].
  { split.
    - rewrite Hp. cbn. apply NoDup_cons. split; [|apply (qi_keys q Hi)]. intros Hin. apply Hk. rewrite (qi_queued q Hi). by apply elem_of_list_to_set.
    - apply leibniz_equiv. rewrite Hp. cbn. rewrite <- (qi_queued q Hi). unfold push_request. by case_bool_decide. }
  destruct Hi as [I1 I2 I3 I4 I5 I6 I7]. split; try done; unfold push_request in *; case_bool_decide as Em; cbn; try done.
  - destruct (qu_high q !! rq_target r) as [l|] eqn:El; [done|]. apply NoDup_app. split_and!; [done| |apply NoDup_singleton].
    intros h Hh ->%list_elem_of_singleton. apply I2 in Hh as [? ?]. congruence.
  - intros h. rewrite lookup_insert_is_Some. destruct (qu_high q !! rq_target r) as [l|] eqn:El.
    + rewrite I2. split; [destruct (decide (rq_target r = h)); tauto|]. intros [<-|[_ ?]]; [by rewrite El|done].
    + rewrite elem_of_app, list_elem_of_singleton, I2. destruct (decide (rq_target r = h)) as [<-|]; [tauto|]. split; [intros [?| ->]; tauto|]. intros [?|[_ ?]]; tauto.
  - intros h l. rewrite lookup_insert_Some. intros [[<- <-]|[_ Hl]]; [|by apply I3]. split; [by destruct (default _ _)|]. apply Forall_app. split; [|by apply Forall_singleton].
    destruct (qu_high q !! rq_target r) as [l|] eqn:El; [by apply I3|by apply Forall_nil_2].
  - apply Forall_app. split; [done|by apply Forall_singleton].
Qed.

(** *** Leaving *)
Lemma keys_less (r : ProbeRequest) (l : list ProbeRequest) (s : gset QueueKey) : NoDup (map queue_key (r :: l)) -> s = list_to_set (map queue_key (r :: l)) ->
  NoDup (map queue_key l) /\ s ∖ {[ queue_key r ]} = list_to_set (map queue_key l).
Proof.
  cbn. intros [Hr Hn]%NoDup_cons ->. split; [done|]. assert (queue_key r ∉ (list_to_set (map queue_key l) : gset QueueKey)) by (by rewrite elem_of_list_to_set).
  apply set_eq. intros k. rewrite elem_of_difference, elem_of_union, !elem_of_singleton. naive_solver.
Qed.
Lemma pop_low_spec q : QueueInv q -> match pop_low q with
  | (None, q') => qu_low q = [] /\ contents q' = contents q /\ QueueInv q'
  | (Some r, q') => contents q ≡ₚ r :: contents q' /\ QueueInv q' /\ exists low, qu_low q = r :: low /\ qu_low q' = low
  end.
Proof.
  intros Hi. unfold pop_low. destruct (qu_low q) as [|r low] eqn:El.
  - split_and!; [done|unfold contents; cbn; by rewrite El|]. destruct Hi as [I1 I2 I3 I4 I5 I6 I7]. unfold contents in *. rewrite El in *. by split.
  - set (q' := Build_Queues _ _ _ _ _). assert (contents q ≡ₚ r :: contents q') as Hp. { unfold contents, q'. rewrite El. cbn. by rewrite <- Permutation_middle. }
    destruct (keys_of_perm q _ Hi Hp) as [Hn Hq]. destruct (keys_less r _ _ Hn Hq) as [Hn' Hq']. split_and!; [done| |by eexists].
    destruct Hi as [I1 I2 I3 I4 I5 I6 I7]. split; try done. rewrite El in I4. by apply Forall_cons in I4 as [_ ?].
Qed.

Lemma pop_host_spec h hs q : QueueInv q -> qu_hosts q = h :: hs -> exists r queue,
  qu_high q !! h = Some (r :: queue) /\ fst (pop_host h hs q) = Some r /\ contents q ≡ₚ r :: contents (snd (pop_host h hs q)) /\ QueueInv (snd (pop_host h hs q)).
Proof.
  intros Hi Eh. assert (h ∈ qu_hosts q) as Hin by (rewrite Eh; by left). pose proof Hin as [l El]%(qi_high q Hi). destruct (qi_lines q Hi h l El) as [Hne Hl].
  destruct l as [|r queue]; [done|]. exists r, queue. unfold pop_host. rewrite El. split_and!; [done|done| |].
  all: set (q' := Build_Queues _ _ _ _ _); cbn [snd].
  all: pose proof (qi_hosts q Hi) as Hnd; rewrite Eh in Hnd; apply NoDup_cons in Hnd as [Hnh Hnd].
  all: assert (map (queue_of q') hs = map (queue_of q) hs) as Hm by
    (apply map_queue_of_ne; intros h' Hh'; cbn; destruct queue; [rewrite lookup_delete_ne|rewrite lookup_insert_ne]; [done|set_solver|done|set_solver]).
  all: assert (contents q ≡ₚ r :: contents q') as Hp by
    (unfold contents; rewrite Eh; cbn [map concat]; unfold queue_of at 1; rewrite El; cbn [default]; cbn [q' qu_hosts qu_low]; destruct queue as [|r' queue];
     [rewrite Hm; done|rewrite map_app, concat_app, Hm; cbn [map concat]; unfold queue_of at 3; cbn; rewrite lookup_insert_eq, app_nil_r; cbn; f_equiv; rewrite !app_comm_cons; f_equiv; by rewrite Permutation_app_comm]).
  - done.
  - destruct (keys_of_perm q _ Hi Hp) as [Hn Hq]. destruct (keys_less r _ _ Hn Hq) as [Hn' Hq']. destruct Hi as [I1 I2 I3 I4 I5 I6 I7]. split; try done; cbn.
    + destruct queue; [done|]. apply NoDup_app. split_and!; [done|set_solver|apply NoDup_singleton].
    + intros h'. specialize (I2 h'). rewrite Eh, elem_of_cons in I2. destruct queue.
      * rewrite lookup_delete_is_Some, <- I2. split; [intros ?; split; [set_solver|by right]|]. by intros [? [->|?]].
      * rewrite lookup_insert_is_Some, <- I2, elem_of_app, list_elem_of_singleton. destruct (decide (h = h')) as [<-|]; [tauto|]. split; [intros [?| ->]; [right; tauto|done]|]. intros [?|[_ [->|?]]]; [done|done|by left].
    + intros h' l'. destruct queue.
      * rewrite lookup_delete_Some. intros [_ ?]. by apply I3.
      * rewrite lookup_insert_Some. intros [[<- <-]|[_ ?]]; [split; [done|]; by apply Forall_cons in Hl as [_ ?]|by apply I3].
    + unfold saturating_add_u64, u64_max. lia.
Qed.

Lemma pop_request_spec q : QueueInv q -> QueueInv (snd (pop_request q)) /\
  match fst (pop_request q) with
  | Some r => contents q ≡ₚ r :: contents (snd (pop_request q))
  | None => contents q = [] /\ contents (snd (pop_request q)) = []
  end.
Proof.
  intros Hi. unfold pop_request. case_match eqn:Ec.
  - pose proof (pop_low_spec q Hi) as Hl. destruct (pop_low q) as [[r|] q']; [by destruct Hl as (? & ? & _)|]. destruct Hl as (E & _ & _). bprop. by rewrite bool_decide_true in *.
  - destruct (qu_hosts q) as [|h hs] eqn:Eh; [|destruct (pop_host_spec h hs q Hi Eh) as (r & queue & _ & -> & Hp & Hi'); by split].
    pose proof (pop_low_spec q Hi) as Hl. destruct (pop_low q) as [[r|] q']; [by destruct Hl as (? & ? & _)|]. destruct Hl as (E & Hc & Hi'). split; [done|]. cbn. rewrite Hc.
    assert (contents q = []) as ->; [|done]. unfold contents. by rewrite Eh, E.
Qed.

(** A running scheduler whose queue is sound and within its capacity. *)
Record QueueOk (s : Scheduler) : Prop := {
  qo_inv : QueueInv (sc_queues s);
  qo_running : sc_stopped s = false;
  qo_cap : queue_len s <= cf_queue_capacity (sc_config s) }.

Lemma queue_len_contents s : QueueInv (sc_queues s) -> queue_len s = blen (contents (sc_queues s)).
Proof. intros Hi. unfold queue_len, blen. rewrite (qi_queued _ Hi), size_list_to_set by apply (qi_keys _ Hi). by rewrite length_map. Qed.
Lemma enqueue_spec r s : QueueOk s -> let '(a, s') := enqueue r s in
  QueueOk s' /\
  match a with
  | Ok true => contents (sc_queues s') ≡ₚ r :: contents (sc_queues s) /\ ~ In (queue_key r) (map queue_key (contents (sc_queues s)))
  | Ok false => s' = s /\ In (queue_key r) (map queue_key (contents (sc_queues s)))
  | Err e => s' = s /\ e = QueueFull /\ queue_len s = cf_queue_capacity (sc_config s)
  end.
Proof.
  intros Hok. pose proof Hok as [Hi Hs Hcap]. unfold enqueue. rewrite Hs. destruct (Z.leb_spec (cf_queue_capacity (sc_config s)) (queue_len s)); [split_and!; try done; lia|].
  assert (forall k, k ∈ qu_queued (sc_queues s) <-> In k (map queue_key (contents (sc_queues s)))) as Hk.
  { intros k. by rewrite (qi_queued _ Hi), elem_of_list_to_set, list_elem_of_In. }
  case_bool_decide as Hin; [by apply Hk in Hin|]. destruct (push_request_spec r _ Hi Hin) as [Hi' Hp]. split; [|by rewrite <- Hk]. split; [done|done|].
  rewrite queue_len_contents in * by done. cbn. unfold blen in *. rewrite Hp. cbn. lia.
Qed.
Lemma next_request_spec s : QueueOk s -> let '(o, s') := next_request s in
  QueueOk s' /\
  match o with
  | Some r => contents (sc_queues s) ≡ₚ r :: contents (sc_queues s') /\ queue_len s' = queue_len s - 1
  | None => contents (sc_queues s) = [] /\ contents (sc_queues s') = []
  end.
Proof.
  intros [Hi Hs Hcap]. unfold next_request. rewrite Hs. destruct (pop_request_spec _ Hi) as [Hi' Hp]. destruct (pop_request (sc_queues s)) as [[r|] q]; cbn in *.
  - assert (queue_len (with_queues q s) = queue_len s - 1) as Hl. { rewrite !queue_len_contents by done. cbn. unfold blen. rewrite Hp. cbn. lia. }
    split_and!; [split; [done|done|rewrite Hl; cbn; lia]|done|done].
  - split; [|done]. split; [done|done|]. rewrite queue_len_contents in * by done. cbn. destruct Hp as [E ->]. by rewrite E in Hcap.
Qed.

(** The queue holds every request exactly once: a request enters unless its key is queued or the
    queue is full, and is then the one new element; a call takes exactly one queued request
    out, and finds none only when the queue is empty; the length is the number of queued
    requests, within the capacity, whatever sequence of operations was run. *)
Theorem queue_keeps_every_request s : QueueOk s ->
  queue_len s = blen (contents (sc_queues s)) /\
  (forall r, let '(a, s') := enqueue r s in
     QueueOk s' /\
     match a with
     | Ok true => contents (sc_queues s') ≡ₚ r :: contents (sc_queues s) /\ ~ In (queue_key r) (map queue_key (contents (sc_queues s)))
     | Ok false => s' = s /\ In (queue_key r) (map queue_key (contents (sc_queues s)))
     | Err e => s' = s /\ e = QueueFull /\ queue_len s = cf_queue_capacity (sc_config s)
     end) /\
  (let '(o, s') := next_request s in
   QueueOk s' /\
   match o with
   | Some r => contents (sc_queues s) ≡ₚ r :: contents (sc_queues s') /\ queue_len s' = queue_len s - 1
   | None => contents (sc_queues s) = [] /\ contents (sc_queues s') = []
   end).
Proof.
  intros Hok. split_and!; [by apply queue_len_contents, qo_inv|intros r; by apply enqueue_spec|by apply next_request_spec].
Qed.

(** *** Fairness *)
Inductive QueueOp := Push (r : ProbeRequest) | Pop.
Definition run_queue_op (o : QueueOp) (s : Scheduler) : option ProbeRequest * Scheduler :=
  match o with Push r => (None, snd (enqueue r s)) | Pop => next_request s end.
(** The requests that a sequence of operations takes out. *)
Fixpoint served (ops : list QueueOp) (s : Scheduler) : list ProbeRequest :=
  match ops with
  | [] => []
  | o :: ops' => let '(r, s') := run_queue_op o s in match r with Some r => r :: served ops' s' | None => served ops' s' end
  end.
Definition pops (ops : list QueueOp) : Z := blen (List.filter (fun o => match o with Pop => true | _ => false end) ops).

(** How many calls a request may still have to wait: places in its line and in the round of the
    hosts, with a turn of the slow line in between, or places in the slow line. *)
Definition waits (cap : Z) (q : Queues) (r : ProbeRequest) (n : Z) : Prop :=
  (exists p j l, qu_hosts q !! p = Some (rq_target r) /\ qu_high q !! rq_target r = Some l /\ l !! j = Some r /\
     n = 2 * (Z.of_nat j * cap + Z.of_nat p) + (if HIGH_ADMISSIONS_BEFORE_LOW <=? qu_since_low q then 1 else 0)) \/
  (exists i, qu_low q !! i = Some r /\ n = 33 * Z.of_nat i + (32 - Z.min (qu_since_low q) 32)).

Lemma hosts_le_contents q : QueueInv q -> (length (qu_hosts q) <= length (contents q))%nat.
Proof.
  intros Hi. unfold contents. rewrite length_app. enough (length (qu_hosts q) <= length (concat (map (queue_of q) (qu_hosts q))))%nat by lia.
  assert (forall h, h ∈ qu_hosts q -> queue_of q h <> []) as Hne. { intros h [l Hl]%(qi_high q Hi). unfold queue_of. rewrite Hl. by destruct (qi_lines q Hi h l Hl). }
  induction (qu_hosts q) as [|h hs IH]; [done|]. cbn. rewrite length_app. specialize (IH ltac:(intros; apply Hne; by right)). destruct (queue_of q h) eqn:E; [by destruct (Hne h ltac:(by left))|cbn; lia].
Qed.

Lemma waits_exists cap q r : QueueInv q -> blen (contents q) <= cap -> In r (contents q) -> exists n, waits cap q r n /\ 0 <= n <= 2 * cap * cap + 33 * cap.
Proof.
  intros Hi Hcap [Hin|Hin]%in_app_iff.
  - apply in_concat in Hin as (l & Hl & Hr). apply in_map_iff in Hl as (h & <- & Hh). apply list_elem_of_In in Hh, Hr. pose proof Hh as [l Hl]%(qi_high q Hi).
    unfold queue_of in Hr. rewrite Hl in Hr. cbn in Hr. destruct (qi_lines q Hi h l Hl) as [_ Hall]. rewrite Forall_forall in Hall. destruct (Hall r Hr) as [<- _].
    apply list_elem_of_lookup in Hh as [p Hp]. apply list_elem_of_lookup in Hr as [j Hj]. eexists. split; [left; by eauto 10|].
    pose proof (hosts_le_contents q Hi). apply lookup_lt_Some in Hp as Hpl. apply lookup_lt_Some in Hj as Hjl. unfold blen in Hcap.
    assert (length l <= length (contents q))%nat. { destruct (contents_host q (rq_target r) Hi) as (hs & _ & _ & ->); [by apply (qi_high q Hi)|]. unfold queue_of at 1. rewrite Hl. cbn. rewrite length_app. lia. }
    unfold HIGH_ADMISSIONS_BEFORE_LOW. destruct (_ <=? _); nia.
  - apply list_elem_of_In, list_elem_of_lookup in Hin as [i Hi']. eexists. split; [right; by eauto|]. apply lookup_lt_Some in Hi'. unfold blen, contents in Hcap. rewrite length_app in Hcap. pose proof (qi_since q Hi). nia.
Qed.

Lemma waits_push cap q r r' n : waits cap q r n -> waits cap (push_request r' q) r n.
Proof.
  unfold waits, push_request. intros [(p & j & l & H1 & H2 & H3 & ->)|(i & H1 & ->)]; case_bool_decide; cbn.
  - left. by eauto 10.
  - left. destruct (decide (rq_target r' = rq_target r)) as [E|E].
    + exists p, j, (l ++ [r']). rewrite E, H2, lookup_insert_eq. cbn. split_and!; [done|done| |done]. by apply lookup_app_l_Some.
    + exists p, j, l. rewrite lookup_insert_ne by done. split_and!; [|done|done|done]. destruct (qu_high q !! rq_target r'); [done|]. by apply lookup_app_l_Some.
  - right. exists i. split; [|done]. by apply lookup_app_l_Some.
  - right. by exists i.
Qed.

(** A turn of a host brings every other request nearer. *)
Lemma waits_pop_host cap q r n h hs : QueueInv q -> Z.of_nat (length (qu_hosts q)) <= cap -> qu_hosts q = h :: hs ->
  ~ (HIGH_ADMISSIONS_BEFORE_LOW <= qu_since_low q /\ qu_low q <> []) -> waits cap q r n ->
  fst (pop_host h hs q) = Some r \/ exists n', n' < n /\ waits cap (snd (pop_host h hs q)) r n'.
Proof.
  intros Hi Hcap Eh Hlow Hw. destruct (pop_host_spec h hs q Hi Eh) as (r0 & queue & El & Er & _ & _). rewrite Eh in Hcap. cbn in Hcap.
  pose proof (qi_hosts q Hi) as Hnd. rewrite Eh in Hnd. apply NoDup_cons in Hnd as [Hnh _].
  unfold pop_host in *. rewrite El in *. cbn [fst snd] in *. destruct Hw as [(p & j & l & H1 & H2 & H3 & ->)|(i & H1 & ->)].
  - rewrite Eh in H1. destruct p as [|p]; cbn in H1.
    + injection H1 as ->. rewrite El in H2. injection H2 as <-. destruct j as [|j]; cbn in H3; [left; congruence|]. right. destruct queue as [|r1 queue]; [done|].
      eexists. split; [|left; exists (length hs), j, (r1 :: queue); cbn [qu_hosts qu_high]; split_and!; [by apply list_lookup_middle|by apply lookup_insert_eq|done|reflexivity]]. cbn [qu_since_low]. repeat case_match; lia.
    + right. assert (h <> rq_target r) as Hne. { intros ->. apply Hnh. by eapply list_elem_of_lookup_2. }
      eexists. split; [|left; exists p, j, l; cbn; split_and!; [destruct queue; [done|by apply lookup_app_l_Some]|destruct queue; [by rewrite lookup_delete_ne|by rewrite lookup_insert_ne]|done|done]].
      repeat case_match; lia.
  - right. eexists. split; [|right; by exists i]. cbn. assert (qu_since_low q < 32). { unfold HIGH_ADMISSIONS_BEFORE_LOW in Hlow. destruct (Z.le_gt_cases 32 (qu_since_low q)); [|done]. destruct Hlow. split; [done|]. by intros E; rewrite E in H1. }
    pose proof (qi_since q Hi). unfold saturating_add_u64, u64_max. lia.
Qed.
Lemma waits_pop_low cap q r n : (qu_hosts q = [] \/ HIGH_ADMISSIONS_BEFORE_LOW <= qu_since_low q) -> waits cap q r n ->
  fst (pop_low q) = Some r \/ exists n', n' < n /\ waits cap (snd (pop_low q)) r n' \/ qu_low q = [].
Proof.
  intros Hh Hw. unfold pop_low. destruct (qu_low q) as [|r0 low] eqn:El; [right; exists 0; by right|].
  destruct Hw as [(p & j & l & H1 & H2 & H3 & ->)|(i & H1 & ->)].
  - right. destruct Hh as [E|Hh]; [by rewrite E in H1|]. rewrite (proj2 (Z.leb_le _ _) Hh). eexists. left. split; [|left; cbn; by eauto 10]. cbn. lia.
  - rewrite El in H1. destruct i as [|i]; cbn in H1; [left; cbn; congruence|]. right. eexists. left. split; [|right; exists i; by split]. cbn. lia.
Qed.

Lemma waits_nonneg cap q r n : QueueInv q -> 0 <= cap -> waits cap q r n -> 0 <= n.
Proof. intros Hi Hc [(p & j & l & _ & _ & _ & ->)|(i & _ & ->)]; [case_match; nia|lia]. Qed.

Lemma waits_next cap s r n : QueueOk s -> cf_queue_capacity (sc_config s) <= cap -> waits cap (sc_queues s) r n ->
  fst (next_request s) = Some r \/ exists n', n' < n /\ waits cap (sc_queues (snd (next_request s))) r n'.
Proof.
  intros [Hi Hs Hc] Hcap Hw. unfold next_request, pop_request. rewrite Hs. rewrite (queue_len_contents _ Hi) in Hc.
  assert (Z.of_nat (length (qu_hosts (sc_queues s))) <= cap) as Hl by (pose proof (hosts_le_contents _ Hi); unfold blen in Hc; lia).
  destruct (negb (bool_decide (qu_low (sc_queues s) = [])) && _) eqn:Ec.
  - apply andb_true_iff in Ec as [El Eh]. rewrite negb_true_iff, bool_decide_eq_false in El. rewrite orb_true_iff, bool_decide_eq_true, Z.leb_le in Eh.
    pose proof (waits_pop_low cap _ r n Eh Hw) as Hp. destruct (pop_low _) as [o q]. cbn in *. destruct Hp as [?|(n' & [[? ?]|?])]; [by left|right; by exists n'|done].
  - destruct (qu_hosts (sc_queues s)) as [|h hs] eqn:Eh.
    + assert (qu_low (sc_queues s) = []) as El. { apply andb_false_iff in Ec as [Ec|Ec]; [by rewrite negb_false_iff, bool_decide_eq_true in Ec|]. by rewrite bool_decide_true in Ec. }
      destruct Hw as [(p & j & l & H1 & _)|(i & H1 & _)]; [by rewrite Eh in H1|by rewrite El in H1].
    + assert (~ (HIGH_ADMISSIONS_BEFORE_LOW <= qu_since_low (sc_queues s) /\ qu_low (sc_queues s) <> [])) as Hn.
      { intros [Hge Hne]. by rewrite (bool_decide_false _ Hne), (proj2 (Z.leb_le _ _) Hge), orb_true_r in Ec. }
      pose proof (waits_pop_host cap _ r n h hs Hi ltac:(by rewrite Eh) Eh Hn Hw) as Hp. destruct (pop_host _ _ _) as [o q]. cbn in *.
      destruct Hp as [?|(n' & ? & ?)]; [by left|right; by exists n'].
Qed.

Lemma run_queue_op_ok o s : QueueOk s -> QueueOk (snd (run_queue_op o s)) /\ sc_config (snd (run_queue_op o s)) = sc_config s.
Proof.
  intros Hok. destruct o as [r|]; cbn.
  - pose proof (enqueue_spec r s Hok) as He. split; [by destruct (enqueue r s); destruct He|]. unfold enqueue. by repeat case_match.
  - pose proof (next_request_spec s Hok) as Hn. split; [by destruct (next_request s); destruct Hn|]. unfold next_request. rewrite (qo_running _ Hok). by destruct (pop_request _).
Qed.

Lemma waits_served cap r ops : forall s n, QueueOk s -> cf_queue_capacity (sc_config s) <= cap -> 0 <= cap -> waits cap (sc_queues s) r n -> n < pops ops -> In r (served ops s).
Proof.
  induction ops as [|o ops IH]; intros s n Hok Hcap Hc Hw Hn; [pose proof (waits_nonneg cap _ r n (qo_inv _ Hok) Hc Hw); unfold pops, blen in Hn; cbn in Hn; lia|].
  destruct (run_queue_op_ok o s Hok) as [Hok' Ecfg]. cbn [served]. destruct o as [r'|].
  - cbn [run_queue_op snd] in *. apply (IH _ n); [done|by rewrite Ecfg|done| |exact Hn]. unfold enqueue. repeat case_match; try done. by apply waits_push.
  - destruct (waits_next cap s r n Hok Hcap Hw) as [E|(n' & Hlt & Hw')]; cbn [run_queue_op snd] in *; destruct (next_request s) as [o' s'] eqn:En; cbn [fst snd] in *.
    + subst o'. by left.
    + assert (In r (served ops s')). { apply (IH s' n'); [done|by rewrite Ecfg|done|done|]. unfold pops, blen in *. cbn in Hn. lia. } destruct o'; [by right|done].
Qed.

(** C21. Nothing starves: every queued request, of whatever host and line, is served within a number
    of calls that its place fixes and that is bounded by the capacity, whatever is enqueued in
    the meantime. *)
Theorem every_queued_request_is_served s r : QueueOk s -> 0 <= cf_queue_capacity (sc_config s) -> In r (contents (sc_queues s)) ->
  let cap := cf_queue_capacity (sc_config s) in
  exists n, 0 <= n <= 2 * cap * cap + 33 * cap /\ forall ops, n < pops ops -> In r (served ops s).
Proof.
  intros Hok Hc Hin. pose proof (qo_cap _ Hok) as Hcap. rewrite (queue_len_contents _ (qo_inv _ Hok)) in Hcap.
  destruct (waits_exists _ _ r (qo_inv _ Hok) Hcap Hin) as (n & Hw & Hn). exists n. split; [done|]. intros ops Hp. by eapply waits_served.
Qed.

(** ** Budgets *)
(** The fields of a configuration are unsigned; its durations are durations. *)
Definition config_typed (c : SchedulerConfig) : Prop :=
  let b := cf_budgets c in
  0 <= bc_global_concurrency b /\ 0 <= bc_per_host_concurrency b /\ 0 <= bc_global_rate_burst b /\ 0 <= bc_per_subnet_burst b /\
  0 <= bc_refill b /\ 0 <= cf_queue_capacity c /\ 0 <= cf_base_backoff c /\ 0 <= cf_max_backoff c /\ 0 <= cf_state_capacity c /\ 0 <= cf_state_ttl c.

(** Histories: the operations of the scheduler while time passes. [F] are the probes in flight,
    [G] the costs that were granted; only a probe in flight finishes. *)
Inductive sched_step : Scheduler * list ProbeRequest * Duration -> list Z -> Scheduler * list ProbeRequest * Duration -> Prop :=
| step_time s F t t' : t <= t' <= dur_max -> sched_step (s, F, t) [] (s, F, t')
| step_grant s F t r cost s' : 0 <= cost -> admission_decision t r cost s = (Admitted_, s') -> sched_step (s, F, t) [cost] (s', r :: F, t)
| step_refuse s F t r cost a s' : 0 <= cost -> admission_decision t r cost s = (a, s') -> a <> Admitted_ -> sched_step (s, F, t) [] (s', F, t)
| step_finish s F1 r F2 t : sched_step (s, F1 ++ r :: F2, t) [] (finish_probe r s, F1 ++ F2, t)
| step_enqueue s F t r : sched_step (s, F, t) [] (snd (enqueue r s), F, t)
| step_next s F t : sched_step (s, F, t) [] (snd (next_request s), F, t)
| step_retry s F t r attempt : 0 <= attempt -> sched_step (s, F, t) [] (snd (retry_delay t r attempt s), F, t)
| step_success s F t r : sched_step (s, F, t) [] (record_success r s, F, t)
| step_stop s F t : sched_step (s, F, t) [] (scheduler_stop s, F, t).
Inductive sched_steps : Scheduler * list ProbeRequest * Duration -> list Z -> Scheduler * list ProbeRequest * Duration -> Prop :=
| steps_refl x : sched_steps x [] x
| steps_snoc x G y g z : sched_steps x G y -> sched_step y g z -> sched_steps x (G ++ g) z.

Definition total (G : list Z) : Z := fold_right Z.add 0 G.
Definition in_flight (h : IpAddr) (F : list ProbeRequest) : Z := blen (List.filter (fun r => bool_decide (rq_target r = h)) F).

Record bucket_ok (cap : Z) (t : Duration) (b : TokenBucket) : Prop := {
  bo_tokens : 0 <= tb_tokens b <= cap;
  bo_last : 0 <= tb_last b <= tb_last_used b;
  bo_used : tb_last_used b <= t }.

Record SchedInv (c : SchedulerConfig) (s : Scheduler) (F : list ProbeRequest) (t : Duration) : Prop := {
  si_config : sc_config s = c;
  si_time : 0 <= t <= dur_max;
  si_queue : QueueInv (sc_queues s);
  si_queue_cap : queue_len s <= cf_queue_capacity c;
  si_active : sc_active s = blen F;
  si_global : blen F <= bc_global_concurrency (cf_budgets c);
  si_hosts : forall h, default 0 (sc_active_hosts s !! h) = in_flight h F /\ sc_active_hosts s !! h <> Some 0;
  si_per_host : forall h, in_flight h F <= bc_per_host_concurrency (cf_budgets c);
  si_rate : bucket_ok (bc_global_rate_burst (cf_budgets c)) t (ra_global (sc_rates s));
  si_host_rates : forall h b, ra_hosts (sc_rates s) !! h = Some b -> bucket_ok (host_capacity (cf_budgets c)) t b;
  si_subnet_rates : forall k b, ra_subnets (sc_rates s) !! k = Some b -> bucket_ok (bc_per_subnet_burst (cf_budgets c)) t b;
  si_tables : Z.of_nat (size (ra_hosts (sc_rates s))) <= cf_state_capacity c /\ Z.of_nat (size (ra_subnets (sc_rates s))) <= cf_state_capacity c /\
              Z.of_nat (size (sc_failures s)) <= cf_state_capacity c }.

(** What [scheduler_new] has checked. *)
Record accepted (c : SchedulerConfig) : Prop := {
  ac_typed : config_typed c;
  ac_global : 1 <= bc_global_concurrency (cf_budgets c) <= 256;
  ac_host : 1 <= bc_per_host_concurrency (cf_budgets c) <= 16;
  ac_burst : 1 <= bc_global_rate_burst (cf_budgets c) <= 4096;
  ac_subnet : 1 <= bc_per_subnet_burst (cf_budgets c) <= 1024;
  ac_refill : 1 <= bc_refill (cf_budgets c) <= seconds 3600;
  ac_queue : 1 <= cf_queue_capacity c <= MAX_QUEUE;
  ac_state : 1 <= cf_state_capacity c <= MAX_QUEUE;
  ac_ttl : 1 <= cf_state_ttl c }.

Lemma scheduler_new_ok c t s : config_typed c -> 0 <= t <= dur_max -> scheduler_new c t = Ok s -> accepted c /\ SchedInv c s [] t.
Proof.
  intros Ht Htime. unfold scheduler_new, budget_new. destruct (_ || (seconds 3600 <? _)) eqn:Eb; [done|]. cbn [result_bind]. destruct (_ || (seconds 30 <? _)) eqn:Ec; [done|]. intros [= <-].
  pose proof Ht as (H1 & H2 & H3 & H4 & H5 & H6 & H7 & H8 & H9 & H10). bprop.
  repeat match goal with H : (_ =? _) = false |- _ => apply Z.eqb_neq in H | H : (_ <? _) = false |- _ => apply Z.ltb_ge in H end.
  assert (accepted c) as Ha by (split; [done|lia..]). split; [done|]. split; cbn; try done.
  - by apply queue_inv_empty.
  - split; cbn; lia.
Qed.

Lemma bucket_ok_time cap t t' b : bucket_ok cap t b -> t <= t' -> bucket_ok cap t' b.
Proof. intros [? ? ?] ?. split; [done|done|lia]. Qed.

(** A refill moves the bucket by whole periods and never past its capacity. *)
Lemma available_spec cap t refill b : bucket_ok cap t b -> t <= dur_max -> 1 <= refill -> cap <= 4096 ->
  let b' := available t cap refill b in
  let p := (t - tb_last b) / refill in
  0 <= p /\ bucket_ok cap t b' /\ tb_tokens b' = Z.min cap (tb_tokens b + p) /\ tb_last b' = tb_last b + refill * Z.min p u32_max.
Proof.
  intros [Ht Hl Hu] Hmax Hr Hc. cbv zeta. assert (0 <= (t - tb_last b) / refill) as Hp by (apply Z.div_pos; lia). split; [done|].
  unfold available, dur_sub. assert (Z.max 0 (t - tb_last b) = t - tb_last b) as -> by lia.
  pose proof (Z.mul_div_le (t - tb_last b) refill ltac:(lia)) as Hdiv. destruct (_ && _) eqn:E.
  - assert (refill * Z.min ((t - tb_last b) / refill) u32_max <= t - tb_last b) as Hle by (unfold u32_max; nia).
    assert (dur_mul refill (Z.min ((t - tb_last b) / refill) u32_max) = refill * Z.min ((t - tb_last b) / refill) u32_max) as ->.
    { unfold dur_mul, dur_checked_mul. rewrite (proj2 (Z.leb_le _ _)) by lia. done. }
    unfold dur_add, saturating_add_u64, u64_max, u32_max in *. cbn [tb_tokens tb_last]. split_and!; [split; cbn; [lia|nia|lia]| lia| nia].
  - assert ((t - tb_last b) / refill = 0) as ->. { apply andb_false_iff in E as [E|E]; [apply Z.ltb_ge in E; replace (t - tb_last b) with 0 by lia; by apply Z.div_0_l; lia|apply Z.leb_gt in E; apply Z.div_small; lia]. }
    split_and!; [split; cbn; lia|cbn; lia|cbn; unfold u32_max; lia].
Qed.
Lemma full_bucket_ok cap t : 0 <= cap -> 0 <= t -> bucket_ok cap t (full_bucket cap t).
Proof. intros. split; cbn; lia. Qed.

Lemma filter_size {K V} `{Countable K} (P : K * V -> Prop) `{forall x, Decision (P x)} (m : gmap K V) : (size (filter P m) <= size m)%nat.
Proof. apply map_subseteq_size, map_filter_subseteq. Qed.
Lemma alter_size {K V} `{Countable K} (f : V -> V) k (m : gmap K V) : size (alter f k m) = size m.
Proof. by rewrite <- !(size_dom (D := gset K)), dom_alter_L. Qed.
Lemma entered_size {K} `{Countable K} cap (k : K) b (m : gmap K TokenBucket) : table_full cap k m = false -> Z.of_nat (size m) <= cap -> Z.of_nat (size (<[k := b]> m)) <= cap.
Proof.
  unfold table_full. intros Hf Hs. destruct (m !! k) as [b'|] eqn:E; [rewrite map_size_insert_Some; [done|by eexists]|].
  rewrite map_size_insert_None by done. rewrite andb_false_iff, Z.leb_gt, bool_decide_eq_false in Hf. destruct Hf; [lia|done].
Qed.

Lemma evict_inv c s F t : SchedInv c s F t -> SchedInv c (evict_state t s) F t.
Proof.
  intros [H1 H2 H3 H4 H5 H6 H7 H8 H9 H10 H11 H12]. split; try done; cbn.
  - intros h b (? & _)%map_lookup_filter_Some. by eapply H10.
  - intros k b (? & _)%map_lookup_filter_Some. by eapply H11.
  - destruct H12 as (A & B & C). pose proof (filter_size (fun '(_, b) => fresh t (cf_state_ttl (sc_config s)) (tb_last_used b) = true) (ra_hosts (sc_rates s))).
    pose proof (filter_size (fun '(_, b) => fresh t (cf_state_ttl (sc_config s)) (tb_last_used b) = true) (ra_subnets (sc_rates s))).
    pose proof (filter_size (fun '(_, f) => fresh t (cf_state_ttl (sc_config s)) (fs_last_used f) = true) (sc_failures s)). lia.
Qed.

Section Accepted.
Context (c : SchedulerConfig) (Hac : accepted c).

Lemma host_capacity_bounds : 4 <= host_capacity (cf_budgets c) <= 64.
Proof. pose proof (ac_host c Hac). unfold host_capacity, u64_max. lia. Qed.

(** The buckets of a target after they are entered and refilled. *)
Definition entered (r : Rates) (t : Duration) (target : IpAddr) : Prop :=
  (exists b, ra_hosts r !! target = Some b /\ bucket_ok (host_capacity (cf_budgets c)) t b) /\
  (exists b, ra_subnets r !! subnet target = Some b /\ bucket_ok (bc_per_subnet_burst (cf_budgets c)) t b).

Lemma default_bucket_ok {K} `{Countable K} cap t (m : gmap K TokenBucket) k : 0 <= cap -> 0 <= t -> (forall k b, m !! k = Some b -> bucket_ok cap t b) ->
  bucket_ok cap t (default (full_bucket cap t) (m !! k)).
Proof. intros Hc Ht Hm. destruct (m !! k) eqn:E; [by eapply Hm|by apply full_bucket_ok]. Qed.

Lemma refill_inv s F t target : SchedInv c s F t ->
  table_full (cf_state_capacity c) target (ra_hosts (sc_rates s)) = false -> table_full (cf_state_capacity c) (subnet target) (ra_subnets (sc_rates s)) = false ->
  SchedInv c (with_rates (refill_rates t (cf_budgets c) target (sc_rates s)) s) F t /\ entered (refill_rates t (cf_budgets c) target (sc_rates s)) t target.
Proof.
  intros [H1 H2 H3 H4 H5 H6 H7 H8 H9 H10 H11 H12] Hf1 Hf2. pose proof host_capacity_bounds as Hhc. destruct Hac as [_ _ _ Hb Hs Hr _ _ _].
  assert (bucket_ok (host_capacity (cf_budgets c)) t (available t (host_capacity (cf_budgets c)) (bc_refill (cf_budgets c)) (default (full_bucket (host_capacity (cf_budgets c)) t) (ra_hosts (sc_rates s) !! target)))) as B1.
  { apply available_spec; [apply default_bucket_ok; [lia|lia|done]|lia..]. }
  assert (bucket_ok (bc_per_subnet_burst (cf_budgets c)) t (available t (bc_per_subnet_burst (cf_budgets c)) (bc_refill (cf_budgets c)) (default (full_bucket (bc_per_subnet_burst (cf_budgets c)) t) (ra_subnets (sc_rates s) !! subnet target)))) as B2.
  { apply available_spec; [apply default_bucket_ok; [lia|lia|done]|lia..]. }
  split.
  - split; try done; cbn.
    + apply available_spec; [done|lia..].
    + intros h b. rewrite lookup_insert_Some. intros [[<- <-]|[_ ?]]; [done|by eapply H10].
    + intros k b. rewrite lookup_insert_Some. intros [[<- <-]|[_ ?]]; [done|by eapply H11].
    + destruct H12 as (A & B & C). split_and!; [by apply entered_size|by apply entered_size|done].
  - split; eexists; (split; [cbn; by apply lookup_insert_eq|done]).
Qed.

Lemma in_flight_cons h r F : in_flight h (r :: F) = (if bool_decide (rq_target r = h) then 1 else 0) + in_flight h F.
Proof. unfold in_flight, blen. cbn. case_bool_decide; cbn; lia. Qed.
Lemma in_flight_app h F1 F2 : in_flight h (F1 ++ F2) = in_flight h F1 + in_flight h F2.
Proof. unfold in_flight, blen. rewrite List.filter_app, length_app. lia. Qed.
Lemma in_flight_nonneg h F : 0 <= in_flight h F.
Proof. unfold in_flight, blen. lia. Qed.

(** The cases of an admission decision. *)
Lemma admission_cases t r cost s a s' : admission_decision t r cost s = (a, s') ->
  (a = ConcurrencyLimited /\ s' = s /\ (sc_stopped s = true \/ cost = 0 \/ at_capacity s (rq_target r) = true)) \/
  (sc_stopped s = false /\ cost <> 0 /\ at_capacity s (rq_target r) = false /\
   let e := evict_state t s in
   ((exists d, a = EligibleAt d) /\ s' = e /\
      (table_full (cf_state_capacity (sc_config s)) (rq_target r) (ra_hosts (sc_rates e)) = true \/
       table_full (cf_state_capacity (sc_config s)) (subnet (rq_target r)) (ra_subnets (sc_rates e)) = true) \/
    table_full (cf_state_capacity (sc_config s)) (rq_target r) (ra_hosts (sc_rates e)) = false /\
    table_full (cf_state_capacity (sc_config s)) (subnet (rq_target r)) (ra_subnets (sc_rates e)) = false /\
    let rates := refill_rates t (cf_budgets (sc_config s)) (rq_target r) (sc_rates e) in
    let missing := missing_tokens cost rates (rq_target r) in
    (0 < missing /\ a = EligibleAt (dur_add t (dur_mul (bc_refill (cf_budgets (sc_config s))) (Z.min missing u32_max))) /\ s' = with_rates rates e \/
     missing <= 0 /\ a = Admitted_ /\
     s' = with_active (sc_active s + 1) (<[rq_target r := default 0 (sc_active_hosts s !! rq_target r) + 1]> (sc_active_hosts s)) (with_rates (spend_rates cost (rq_target r) rates) e)))).
Proof.
  unfold admission_decision. destruct (sc_stopped s || (cost =? 0) || at_capacity s (rq_target r)) eqn:Eb.
  { intros [= <- <-]. left. split_and!; [done|done|]. rewrite !orb_true_iff, Z.eqb_eq in Eb. tauto. }
  rewrite !orb_false_iff, Z.eqb_neq in Eb. destruct Eb as [[? ?] ?]. intros E. right. split_and!; try done. cbv zeta in *.
  destruct (table_full _ (rq_target r) _) eqn:E1; [left; injection E as <- <-; split_and!; [by eexists|done|by left]|].
  destruct (table_full _ (subnet _) _) eqn:E2; [left; injection E as <- <-; split_and!; [by eexists|done|by right]|].
  right. split_and!; [done|done|]. destruct (Z.ltb_spec 0 (missing_tokens cost (refill_rates t (cf_budgets (sc_config s)) (rq_target r) (sc_rates (evict_state t s))) (rq_target r))); injection E as <- <-; [left|right]; done.
Qed.

(** Nothing is missing: every bucket of the target holds the cost. *)
Lemma missing_none cost r target : missing_tokens cost r target <= 0 ->
  cost <= tb_tokens (ra_global r) /\ (forall b, ra_hosts r !! target = Some b -> cost <= tb_tokens b) /\ (forall b, ra_subnets r !! subnet target = Some b -> cost <= tb_tokens b).
Proof.
  unfold missing_tokens, dur_sub. intros Hm. split_and!; [lia| |]; intros b Hb; rewrite Hb in Hm; lia.
Qed.
Lemma spend_ok cap t cost b : bucket_ok cap t b -> 0 <= cost <= tb_tokens b -> bucket_ok cap t (spend cost b).
Proof. intros [? ? ?] ?. split; cbn; [lia|done|done]. Qed.

Lemma grant_inv s F t r cost s' : SchedInv c s F t -> 0 <= cost -> admission_decision t r cost s = (Admitted_, s') -> SchedInv c s' (r :: F) t.
Proof.
  intros Hi Hcost Ha. apply admission_cases in Ha as [(? & _)|(_ & _ & Hcap & Ha)]; [done|]. cbv zeta in Ha.
  destruct Ha as [([d Hd] & _)|(Hf1 & Hf2 & [(_ & Hd & _)|(Hm & _ & ->)])]; [done|done|]. pose proof (si_config _ _ _ _ Hi) as Ecfg. rewrite Ecfg in *.
  pose proof (evict_inv _ _ _ _ Hi) as He. destruct (refill_inv _ _ _ (rq_target r) He Hf1 Hf2) as [Hr Hent]. set (rates := refill_rates _ _ _ _) in *.
  destruct (missing_none _ _ _ Hm) as (M1 & M2 & M3). unfold at_capacity in Hcap. rewrite Ecfg in Hcap. rewrite orb_false_iff, !Z.leb_gt in Hcap. destruct Hcap as [Hg Hh].
  destruct Hr as [R1 R2 R3 R4 R5 R6 R7 R8 R9 R10 R11 R12]. cbn in R5, R7. split; try done; cbn.
  - rewrite (si_active _ _ _ _ Hi). unfold blen. cbn. lia.
  - rewrite (si_active _ _ _ _ Hi) in Hg. unfold blen in *. cbn. lia.
  - intros h. rewrite in_flight_cons. destruct (R7 h) as [Eh Hne]. pose proof (in_flight_nonneg (rq_target r) F). case_bool_decide as Et.
    + subst h. rewrite lookup_insert_eq. cbn. split; [lia|]. rewrite Eh. intros [=]. lia.
    + rewrite lookup_insert_ne by done. by split.
  - intros h. rewrite in_flight_cons. case_bool_decide as Et; [|by apply R8]. subst h. destruct (R7 (rq_target r)) as [Eh _]. lia.
  - by apply spend_ok.
  - intros h b. rewrite lookup_alter_Some. intros [(<- & b' & Hb & ->)|[_ Hb]]; [|by eapply R10]. apply spend_ok; [by eapply R10|]. split; [done|by apply M2].
  - intros k b. rewrite lookup_alter_Some. intros [(<- & b' & Hb & ->)|[_ Hb]]; [|by eapply R11]. apply spend_ok; [by eapply R11|]. split; [done|by apply M3].
  - by rewrite !alter_size.
Qed.

Lemma refuse_inv s F t r cost a s' : SchedInv c s F t -> admission_decision t r cost s = (a, s') -> a <> Admitted_ -> SchedInv c s' F t.
Proof.
  intros Hi Ha Hne. apply admission_cases in Ha as [(_ & -> & _)|(_ & _ & _ & Ha)]; [done|]. cbv zeta in Ha. pose proof (evict_inv _ _ _ _ Hi) as He.
  destruct Ha as [(_ & -> & _)|(Hf1 & Hf2 & [(_ & _ & ->)|(_ & ? & _)])]; [done| |done]. rewrite (si_config _ _ _ _ Hi) in *. by apply refill_inv.
Qed.

Lemma finish_inv s F1 r F2 t : SchedInv c s (F1 ++ r :: F2) t -> SchedInv c (finish_probe r s) (F1 ++ F2) t.
Proof.
  intros [H1 H2 H3 H4 H5 H6 H7 H8 H9 H10 H11 H12]. split; try done; cbn.
  - rewrite H5. unfold blen. rewrite !length_app. cbn. lia.
  - unfold blen in *. rewrite length_app in *. cbn in H6. lia.
  - intros h. destruct (H7 h) as [Eh Hne]. rewrite in_flight_app, in_flight_cons in Eh. rewrite in_flight_app. pose proof (in_flight_nonneg h F1). pose proof (in_flight_nonneg h F2).
    case_bool_decide as Et.
    + subst h. destruct (sc_active_hosts s !! rq_target r) as [n|] eqn:En; cbn in Eh; [|lia]. destruct (Z.eqb_spec (Z.max 0 (n - 1)) 0); [rewrite lookup_delete_eq|rewrite lookup_insert_eq]; cbn; split; [lia|done|lia|]. intros [=]. lia.
    + assert (forall m, (match sc_active_hosts s !! rq_target r with Some n => if Z.max 0 (n - 1) =? 0 then delete (rq_target r) m else <[rq_target r := Z.max 0 (n - 1)]> m | None => m end) !! h = m !! h) as ->.
      { intros m. destruct (sc_active_hosts s !! rq_target r); [|done]. case_match; [by rewrite lookup_delete_ne|by rewrite lookup_insert_ne]. }
      split; [lia|done].
  - intros h. specialize (H8 h). rewrite in_flight_app, in_flight_cons in H8. rewrite in_flight_app. case_bool_decide; lia.
Qed.

Lemma retry_inv s F t r attempt : SchedInv c s F t -> SchedInv c (snd (retry_delay t r attempt s)) F t.
Proof.
  intros Hi%evict_inv. revert Hi. unfold retry_delay. generalize dependent (evict_state t s). intros e Hi. destruct (_ && _) eqn:Ef; [done|]. cbn [snd].
  destruct Hi as [H1 H2 H3 H4 H5 H6 H7 H8 H9 H10 H11 H12]. split; try done. cbn. destruct H12 as (A & B & C). split_and!; [done|done|]. rewrite H1 in Ef.
  destruct (sc_failures e !! work_key r) as [f|] eqn:E; [rewrite map_size_insert_Some; [done|by eexists]|]. rewrite map_size_insert_None by done.
  rewrite andb_false_iff, Z.leb_gt, bool_decide_eq_false in Ef. destruct Ef; [lia|done].
Qed.

Lemma queues_inv s F t q : SchedInv c s F t -> QueueInv q -> queue_len (with_queues q s) <= cf_queue_capacity c -> SchedInv c (with_queues q s) F t.
Proof. intros [H1 H2 H3 H4 H5 H6 H7 H8 H9 H10 H11 H12] Hq Hl. by split. Qed.
Lemma enqueue_inv s F t r : SchedInv c s F t -> SchedInv c (snd (enqueue r s)) F t.
Proof.
  intros Hi. destruct (sc_stopped s) eqn:Es; [unfold enqueue; by rewrite Es|].
  assert (QueueOk s) as Hok by (split; [by apply Hi|done|rewrite (si_config _ _ _ _ Hi); by apply Hi]). pose proof (enqueue_spec r s Hok) as He.
  destruct (enqueue r s) as [[[]|e] s'] eqn:Ee; destruct He as [[? _ Hl] Hr]; [|by destruct Hr as [-> _]..].
  unfold enqueue in Ee. rewrite Es in Ee. do 2 (destruct (_ : bool) in Ee; [done|]). injection Ee as <-. apply queues_inv; [done|done|]. by rewrite <- (si_config _ _ _ _ Hi).
Qed.
Lemma next_inv s F t : SchedInv c s F t -> SchedInv c (snd (next_request s)) F t.
Proof.
  intros Hi. destruct (sc_stopped s) eqn:Es; [unfold next_request; by rewrite Es|].
  assert (QueueOk s) as Hok by (split; [by apply Hi|done|rewrite (si_config _ _ _ _ Hi); by apply Hi]). pose proof (next_request_spec s Hok) as Hn.
  unfold next_request in *. rewrite Es in *. destruct (pop_request (sc_queues s)) as [o q]. destruct Hn as [[? _ Hl] _]. cbn [snd]. apply queues_inv; [done|done|]. by rewrite <- (si_config _ _ _ _ Hi).
Qed.
Lemma success_inv s F t r : SchedInv c s F t -> SchedInv c (record_success r s) F t.
Proof.
  intros [H1 H2 H3 H4 H5 H6 H7 H8 H9 H10 H11 H12]. split; try done. cbn. destruct H12 as (A & B & C). split_and!; [done|done|].
  assert (size (delete (work_key r) (sc_failures s)) <= size (sc_failures s))%nat by (apply map_subseteq_size, delete_subseteq). lia.
Qed.
Lemma stop_inv s F t : SchedInv c s F t -> SchedInv c (scheduler_stop s) F t.
Proof.
  intros [H1 H2 H3 H4 H5 H6 H7 H8 H9 H10 H11 H12]. split; try done; [apply queue_inv_empty, H3|]. unfold queue_len. cbn [scheduler_stop sc_queues qu_queued]. rewrite size_empty. pose proof (ac_queue c Hac). lia.
Qed.

Lemma time_inv s F t t' : SchedInv c s F t -> t <= t' <= dur_max -> SchedInv c s F t'.
Proof.
  intros [H1 H2 H3 H4 H5 H6 H7 H8 H9 H10 H11 H12] Ht. pose proof (fun cap b Hb => bucket_ok_time cap t t' b Hb (proj1 Ht)) as Hb. split; try done; [lia|by apply Hb| |]; intros ? ? ?; apply Hb; eauto.
Qed.
Lemma sched_step_inv s F t g s' F' t' : SchedInv c s F t -> sched_step (s, F, t) g (s', F', t') -> SchedInv c s' F' t'.
Proof.
  intros Hi Hs. inversion Hs; subst; eauto using grant_inv, refuse_inv, finish_inv, retry_inv, enqueue_inv, next_inv, success_inv, stop_inv, time_inv.
Qed.
Lemma sched_steps_inv x G y : sched_steps x G y -> SchedInv c x.1.1 x.1.2 x.2 -> SchedInv c y.1.1 y.1.2 y.2.
Proof. induction 1 as [|x G [[s F] t] g [[s' F'] t'] Hs IH Hstep]; [done|]. intros Hi. by eapply sched_step_inv; [by apply IH|]. Qed.
End Accepted.

(** ** The rate of the whole scheduler *)
(** The tokens that the bucket would hold if it were refilled now. *)
Definition virtual_tokens (c : SchedulerConfig) (t : Duration) (b : TokenBucket) : Z :=
  Z.min (bc_global_rate_burst (cf_budgets c)) (tb_tokens b + (t - tb_last b) / bc_refill (cf_budgets c)).

Section Rate.
Context (c : SchedulerConfig) (Hac : accepted c) (t0 : Duration).
Abbreviation burst := (bc_global_rate_burst (cf_budgets c)).
Abbreviation refill := (bc_refill (cf_budgets c)).

(** The bucket is refilled on a fixed grid, and what it would hold is paid for by the grid. *)
Record RateInv (l0 : Duration) (s : Scheduler) (t : Duration) (granted : Z) : Prop := {
  ri_grid : exists m, 0 <= m /\ tb_last (ra_global (sc_rates s)) = l0 + m * refill;
  ri_paid : virtual_tokens c t (ra_global (sc_rates s)) + granted <= burst + ((t - l0) / refill - (t0 - l0) / refill) }.

Lemma grid_div l0 m t : 1 <= refill -> (t - (l0 + m * refill)) / refill = (t - l0) / refill - m.
Proof. intros Hr. replace (t - (l0 + m * refill)) with (t - l0 + (- m) * refill) by ring. rewrite Z.div_add by lia. lia. Qed.

(** Refilling changes nothing in what the bucket would hold, as long as the idle time is counted
    in 32 bits. *)
Lemma available_virtual t b : bucket_ok burst t b -> t <= dur_max -> (t - tb_last b) / refill <= u32_max ->
  let b' := available t burst refill b in virtual_tokens c t b' = virtual_tokens c t b /\ tb_tokens b' = virtual_tokens c t b /\
  (t - tb_last b') / refill = 0 /\ exists m, 0 <= m /\ tb_last b' = tb_last b + m * refill.
Proof.
  intros Hb Ht Hp. pose proof (ac_burst c Hac). pose proof (ac_refill c Hac). destruct (available_spec burst t refill b Hb Ht ltac:(lia) ltac:(lia)) as (P0 & Hb' & Et & El). cbv zeta in *.
  rewrite Z.min_l in El by done. set (p := (t - tb_last b) / refill) in *. assert ((t - tb_last (available t burst refill b)) / refill = 0) as Hz.
  { rewrite El. replace (t - (tb_last b + refill * p)) with (t - tb_last b + (- p) * refill) by ring. rewrite Z.div_add by lia. unfold p. lia. }
  unfold virtual_tokens. rewrite Hz, Et. fold p. split; [lia|]. split; [done|]. split; [done|]. exists p. split; [done|]. rewrite El. lia.
Qed.
Lemma virtual_time t t' b l0 m : t <= t' -> tb_last b = l0 + m * refill ->
  virtual_tokens c t' b <= virtual_tokens c t b + ((t' - l0) / refill - (t - l0) / refill).
Proof.
  intros Ht El. pose proof (ac_refill c Hac). unfold virtual_tokens. rewrite El, !grid_div by lia.
  assert ((t - l0) / refill <= (t' - l0) / refill) by (apply Z.div_le_mono; lia). lia.
Qed.

(** What an admission does to the bucket of the whole scheduler. *)
Lemma admission_global t r cost s a s' : sc_config s = c -> admission_decision t r cost s = (a, s') ->
  let b := ra_global (sc_rates s) in let b' := available t burst refill b in
  match a with
  | Admitted_ => ra_global (sc_rates s') = spend cost b' /\ cost <= tb_tokens b'
  | _ => ra_global (sc_rates s') = b \/ ra_global (sc_rates s') = b'
  end.
Proof.
  intros Ec Ha. apply admission_cases in Ha as [(-> & -> & _)|(_ & _ & _ & Ha)]; [by left|]. cbv zeta in *. rewrite Ec in Ha.
  destruct Ha as [([d ->] & -> & _)|(_ & _ & [(_ & -> & ->)|(Hm & -> & ->)])]; [by left|by right|]. by apply missing_none in Hm as [? _].
Qed.

Lemma rate_refill l0 s t granted : bucket_ok burst t (ra_global (sc_rates s)) -> 0 <= l0 -> t <= dur_max -> t - l0 <= refill * u32_max -> RateInv l0 s t granted ->
  let b' := available t burst refill (ra_global (sc_rates s)) in
  bucket_ok burst t b' /\ virtual_tokens c t b' = tb_tokens b' /\ (exists m, 0 <= m /\ tb_last b' = l0 + m * refill) /\
  (t - tb_last b') / refill = 0 /\ tb_tokens b' + granted <= burst + ((t - l0) / refill - (t0 - l0) / refill).
Proof.
  intros Hbo Hl0 Ht Hmax [[m [Hm El]] Hp]. pose proof (ac_burst c Hac). pose proof (ac_refill c Hac).
  assert ((t - tb_last (ra_global (sc_rates s))) / refill <= u32_max) as Hidle by (apply Z.div_le_upper_bound; lia || (rewrite El; nia)).
  destruct (available_virtual t _ Hbo Ht Hidle) as (V1 & V2 & V3 & m' & Hm' & El'). destruct (available_spec burst t refill _ Hbo Ht ltac:(lia) ltac:(lia)) as (_ & Hb' & _).
  cbv zeta in *. split_and!; [done|congruence| |done|rewrite V2; lia]. exists (m + m'). split; [lia|]. rewrite El', El. lia.
Qed.

Lemma rate_grant l0 s F t granted r cost s' : SchedInv c s F t -> 0 <= cost -> 0 <= l0 -> t - l0 <= refill * u32_max -> RateInv l0 s t granted ->
  admission_decision t r cost s = (Admitted_, s') -> RateInv l0 s' t (granted + cost).
Proof.
  intros Hi Hc Hl0 Hmax Hr Ha. apply (admission_global _ _ _ _ _ _ (si_config _ _ _ _ Hi)) in Ha as [Eg Hcost]. 
  destruct (rate_refill l0 s t granted (si_rate _ _ _ _ Hi) Hl0 (proj2 (si_time _ _ _ _ Hi)) Hmax Hr) as (Hb & Hv & Hgrid & Hz & Hp). split; rewrite Eg; [done|].
  unfold virtual_tokens. cbn [spend tb_tokens tb_last]. rewrite Hz. destruct Hb as [? _ _]. lia.
Qed.
Lemma rate_refuse l0 s F t granted r cost a s' : SchedInv c s F t -> 0 <= l0 -> t - l0 <= refill * u32_max -> RateInv l0 s t granted ->
  admission_decision t r cost s = (a, s') -> a <> Admitted_ -> RateInv l0 s' t granted.
Proof.
  intros Hi Hl0 Hmax Hr Ha Hne. apply (admission_global _ _ _ _ _ _ (si_config _ _ _ _ Hi)) in Ha.
  destruct (rate_refill l0 s t granted (si_rate _ _ _ _ Hi) Hl0 (proj2 (si_time _ _ _ _ Hi)) Hmax Hr) as (Hb & Hv & Hgrid & Hz & Hp). cbv zeta in *.
  assert (ra_global (sc_rates s') = ra_global (sc_rates s) \/ ra_global (sc_rates s') = available t burst refill (ra_global (sc_rates s))) as Hor by (by destruct a).
  destruct Hor as [Eg|Eg], Hr as [? ?]; split; rewrite Eg; [done|done|done|by rewrite Hv].
Qed.
Lemma rate_same l0 s s' t granted : ra_global (sc_rates s') = ra_global (sc_rates s) -> RateInv l0 s t granted -> RateInv l0 s' t granted.
Proof. intros E [? ?]. split; by rewrite E. Qed.
Lemma rate_time l0 s t t' granted : t <= t' -> RateInv l0 s t granted -> RateInv l0 s t' granted.
Proof. intros Ht [(m & Hm & El) Hp]. pose proof (virtual_time t t' _ l0 m Ht El). split; [by exists m|]. lia. Qed.

Lemma enqueue_rates r s : sc_rates (snd (enqueue r s)) = sc_rates s.
Proof. unfold enqueue. by repeat case_match. Qed.
Lemma next_rates s : sc_rates (snd (next_request s)) = sc_rates s.
Proof. unfold next_request. case_match; [done|]. by destruct (pop_request _). Qed.
Lemma retry_global t r attempt s : ra_global (sc_rates (snd (retry_delay t r attempt s))) = ra_global (sc_rates s).
Proof. unfold retry_delay. by case_match. Qed.

Lemma total_snoc G g : total (G ++ g) = total G + total g.
Proof. unfold total. induction G; cbn; lia. Qed.
Lemma sched_step_time x g y : sched_step x g y -> x.2 <= y.2.
Proof. destruct 1; cbn; lia. Qed.

Lemma rate_step l0 s F t g s' F' t' granted : SchedInv c s F t -> 0 <= l0 -> t - l0 <= refill * u32_max -> RateInv l0 s t granted -> sched_step (s, F, t) g (s', F', t') -> RateInv l0 s' t' (granted + total g).
Proof.
  intros Hi Hl0 Hmax Hr Hs. inversion Hs; subst; cbn [total fold_right]; rewrite ?Z.add_0_r;
    eauto using rate_grant, rate_refuse.
  - eapply rate_time; [|done]. lia.
  - by apply (rate_same _ s).
  - apply (rate_same _ s); [|done]. by rewrite enqueue_rates.
  - apply (rate_same _ s); [|done]. by rewrite next_rates.
  - apply (rate_same _ s); [|done]. apply retry_global.
  - by apply (rate_same _ s).
  - by apply (rate_same _ s).
Qed.
End Rate.

Lemma rate_steps c s0 t0 F0 G y : accepted c -> SchedInv c s0 F0 t0 -> sched_steps (s0, F0, t0) G y ->
  y.2 - tb_last (ra_global (sc_rates s0)) <= bc_refill (cf_budgets c) * u32_max ->
  RateInv c t0 (tb_last (ra_global (sc_rates s0))) y.1.1 y.2 (total G).
Proof.
  intros Hac Hi Hs. remember (s0, F0, t0) as x eqn:Ex. induction Hs as [x|x G y g z Hs IH Hstep]; intros Hmax; subst x; cbn in *.
  - split; [exists 0; lia|]. unfold virtual_tokens. lia.
  - specialize (IH eq_refl). pose proof (sched_step_time _ _ _ Hstep). pose proof (sched_steps_inv c Hac _ _ _ Hs Hi) as Hy. destruct y as [[s F] t], z as [[s' F'] t']. cbn in *.
    rewrite total_snoc. destruct (si_rate _ _ _ _ Hi) as [_ ? _]. eapply rate_step; [done|done|lia|lia|apply IH; lia|done].
Qed.


(** The budgets hold in every history of a new scheduler: the probes in flight never exceed the
    global concurrency, nor those of one host its own limit, the counters are exact; the queue, the
    tables of hosts, of subnets and of failures never outgrow their capacities, and no bucket
    holds more than its capacity. *)
Theorem budgets_hold c t0 s0 G s F t : config_typed c -> 0 <= t0 <= dur_max -> scheduler_new c t0 = Ok s0 -> sched_steps (s0, [], t0) G (s, F, t) ->
  let b := cf_budgets c in
  sc_active s = blen F /\ blen F <= bc_global_concurrency b /\
  (forall h, default 0 (sc_active_hosts s !! h) = in_flight h F /\ in_flight h F <= bc_per_host_concurrency b) /\
  queue_len s <= cf_queue_capacity c /\
  (let '(hosts, subnets, failures) := state_sizes s in
   Z.of_nat hosts <= cf_state_capacity c /\ Z.of_nat subnets <= cf_state_capacity c /\ Z.of_nat failures <= cf_state_capacity c) /\
  0 <= tb_tokens (ra_global (sc_rates s)) <= bc_global_rate_burst b /\
  (forall h k, ra_hosts (sc_rates s) !! h = Some k -> 0 <= tb_tokens k <= host_capacity b) /\
  (forall n k, ra_subnets (sc_rates s) !! n = Some k -> 0 <= tb_tokens k <= bc_per_subnet_burst b).
Proof.
  intros Ht Htime Hnew Hs. destruct (scheduler_new_ok c t0 s0 Ht Htime Hnew) as [Hac Hi]. pose proof (sched_steps_inv c Hac _ _ _ Hs Hi) as Hy. cbn in Hy.
  destruct Hy as [H1 H2 H3 H4 H5 H6 H7 H8 H9 H10 H11 H12]. split_and!; try done; [|by apply H9..| |].
  - intros h. destruct (H7 h) as [? _]. by split.
  - intros h k Hk. by apply (H10 h k Hk).
  - intros n k Hk. by apply (H11 n k Hk).
Qed.

(** ** The moment named by a refusal *)
Section Eligible.
Context (c : SchedulerConfig) (Hac : accepted c).

(** A bucket that was short of [missing] tokens holds the cost [missing] periods later. *)
Lemma available_later cap t n refill cost b : bucket_ok cap t b -> 0 <= n -> t + refill * n <= dur_max -> 1 <= refill -> cost <= cap <= 4096 -> cost - tb_tokens b <= n ->
  cost <= tb_tokens (available (t + refill * n) cap refill b).
Proof.
  intros Hb Hn Hmax Hr Hc Hm. pose proof Hb as [? ? ?]. assert (bucket_ok cap (t + refill * n) b) as Hb' by (eapply bucket_ok_time; [done|nia]).
  destruct (available_spec cap _ refill b Hb' Hmax Hr ltac:(lia)) as (_ & _ & -> & _).
  assert (n <= (t + refill * n - tb_last b) / refill) by (apply Z.div_le_lower_bound; lia). lia.
Qed.

(** Entries of a table in which the key was used at [t]: later the key is still there, or the
    whole table has expired. *)
Lemma table_later {K} `{Countable K} cap ttl t d (k : K) cap' b (m : gmap K TokenBucket) : 1 <= cap -> t <= d ->
  (forall k b, m !! k = Some b -> bucket_ok cap' t b) -> m !! k = Some b -> tb_last_used b = t ->
  let m' := filter (fun '(_, b) => fresh d ttl (tb_last_used b) = true) m in
  table_full cap k m' = false /\ (m' !! k = Some b \/ m' !! k = None).
Proof.
  intros Hcap Hd Hok Hk Hu m'. unfold table_full. destruct (fresh d ttl t) eqn:Ef.
  - assert (m' !! k = Some b) as E by (apply map_lookup_filter_Some; split; [done|by rewrite Hu]). rewrite E. split; [|by left]. by rewrite bool_decide_false, andb_false_r.
  - assert (m' = ∅) as ->.
    { apply map_empty. intros k'. apply map_lookup_filter_None. right. intros b' Hb'. destruct (Hok _ _ Hb') as [_ _ ?]. unfold fresh, dur_sub in *. rewrite Z.leb_gt in Ef. rewrite Z.leb_le. lia. }
    rewrite map_size_empty, lookup_empty. split; [|by right]. rewrite (proj2 (Z.leb_gt _ _)); [done|lia].
Qed.

Lemma available_used t cap refill b : tb_last_used (available t cap refill b) = t.
Proof. unfold available. by case_match. Qed.
Lemma refill_used t b target r :
  (exists k, ra_hosts (refill_rates t b target r) !! target = Some k /\ tb_last_used k = t) /\
  (exists k, ra_subnets (refill_rates t b target r) !! subnet target = Some k /\ tb_last_used k = t).
Proof. split; eexists; cbn; rewrite lookup_insert_eq; (split; [done|apply available_used]). Qed.

Lemma default_later {K} `{Countable K} cap (k : K) t d n refill cost b (m : gmap K TokenBucket) : bucket_ok cap t b -> 0 <= n -> d = t + refill * n -> d <= dur_max -> 0 <= t -> 1 <= refill ->
  cost <= cap <= 4096 -> cost - tb_tokens b <= n -> 0 <= cap -> m !! k = Some b \/ m !! k = None ->
  cost <= tb_tokens (available d cap refill (default (full_bucket cap d) (m !! k))).
Proof.
  intros Hb Hn -> Hmax Ht Hr Hc Hm Hcap [->| ->]; cbn [default]; [by apply available_later|]. unfold available. rewrite Z.ltb_irrefl. cbn. lia.
Qed.
End Eligible.

(** The missing tokens cover every bucket. *)
Lemma missing_covers cost r target : let n := missing_tokens cost r target in 0 <= n /\
  cost - tb_tokens (ra_global r) <= n /\ (forall b, ra_hosts r !! target = Some b -> cost - tb_tokens b <= n) /\ (forall b, ra_subnets r !! subnet target = Some b -> cost - tb_tokens b <= n).
Proof. cbv zeta. unfold missing_tokens, dur_sub. split_and!; [lia|lia| |]; intros b ->; lia. Qed.
Lemma missing_holds cost r target : cost <= tb_tokens (ra_global r) -> (exists b, ra_hosts r !! target = Some b /\ cost <= tb_tokens b) ->
  (exists b, ra_subnets r !! subnet target = Some b /\ cost <= tb_tokens b) -> missing_tokens cost r target <= 0.
Proof. unfold missing_tokens, dur_sub. intros ? (b1 & -> & ?) (b2 & -> & ?). lia. Qed.

(** The cost fits the buckets when they are full. *)
Definition fits (b : BudgetConfig) (cost : Z) : Prop := cost <= bc_global_rate_burst b /\ cost <= host_capacity b /\ cost <= bc_per_subnet_burst b.

Lemma admitted_later c e t d r cost n b1 b2 F : accepted c -> SchedInv c e F t -> sc_stopped e = false -> cost <> 0 -> at_capacity e (rq_target r) = false ->
  ra_hosts (sc_rates e) !! rq_target r = Some b1 -> tb_last_used b1 = t -> ra_subnets (sc_rates e) !! subnet (rq_target r) = Some b2 -> tb_last_used b2 = t ->
  n = missing_tokens cost (sc_rates e) (rq_target r) -> fits (cf_budgets c) cost -> d = t + bc_refill (cf_budgets c) * n -> d <= dur_max ->
  fst (admission_decision d r cost e) = Admitted_.
Proof.
  intros Hac [H1 H2 H3 H4 H5 H6 H7 H8 H9 H10 H11 H12] Hstop Hz Hcap E1 U1 E2 U2 Hn (C1 & C2 & C3) Hd Hmax. pose proof (ac_refill c Hac). pose proof (ac_burst c Hac). pose proof (ac_subnet c Hac). pose proof (host_capacity_bounds c Hac).
  destruct (missing_covers cost (sc_rates e) (rq_target r)) as (Hn0 & Mg & Mh & Ms). rewrite <- Hn in *. specialize (Mh _ E1). specialize (Ms _ E2). assert (t <= d) as Htd by nia.
  destruct (table_later (cf_state_capacity c) (cf_state_ttl c) t d _ _ b1 _ (proj1 (ac_state c Hac)) Htd H10 E1 U1) as [T1 L1].
  destruct (table_later (cf_state_capacity c) (cf_state_ttl c) t d _ _ b2 _ (proj1 (ac_state c Hac)) Htd H11 E2 U2) as [T2 L2].
  unfold admission_decision. rewrite Hstop, Hcap, (proj2 (Z.eqb_neq _ _) Hz). cbn -[refill_rates Z.ltb]. rewrite H1, T1, T2. 
  rewrite (proj2 (Z.ltb_ge _ _)); [done|]. apply missing_holds; cbn [refill_rates ra_global ra_hosts ra_subnets].
  - rewrite Hd. apply available_later; try done; lia.
  - eexists. split; [by apply lookup_insert_eq|]. eapply (default_later _ _ t d n _ cost b1 _ (H10 _ _ E1)); first [done|lia].
  - eexists. split; [by apply lookup_insert_eq|]. eapply (default_later _ _ t d n _ cost b2 _ (H11 _ _ E2)); first [done|lia].
Qed.
Lemma missing_le cost r target b1 b2 : 0 <= cost -> 0 <= tb_tokens (ra_global r) -> ra_hosts r !! target = Some b1 -> 0 <= tb_tokens b1 -> ra_subnets r !! subnet target = Some b2 -> 0 <= tb_tokens b2 ->
  missing_tokens cost r target <= cost.
Proof. unfold missing_tokens, dur_sub. intros ? ? -> ? -> ?. lia. Qed.
Lemma deadline_exact t refill n : 0 <= n <= u32_max -> 0 <= t -> dur_add t (dur_mul refill (Z.min n u32_max)) < dur_max ->
  dur_add t (dur_mul refill (Z.min n u32_max)) = t + refill * n.
Proof.
  intros Hn Ht. rewrite Z.min_l by lia. unfold dur_add, dur_mul, dur_checked_mul. destruct (Z.leb_spec (refill * n) dur_max); cbn [from_option]; unfold id; lia.
Qed.

(** A refusal for want of tokens names the moment that counts: if the cost fits the buckets at
    all and neither table is full, the request is admitted at the deadline the scheduler returned
    (nothing else having been granted meanwhile), even if the entries of its host or subnet
    have expired by then. *)
Theorem eligible_at_is_kept c s F t r cost d s' : accepted c -> SchedInv c s F t -> 0 <= cost ->
  fits (cf_budgets c) cost ->
  table_full (cf_state_capacity c) (rq_target r) (ra_hosts (sc_rates (evict_state t s))) = false ->
  table_full (cf_state_capacity c) (subnet (rq_target r)) (ra_subnets (sc_rates (evict_state t s))) = false ->
  admission_decision t r cost s = (EligibleAt d, s') -> d < dur_max ->
  t < d /\ fst (admission_decision d r cost s') = Admitted_.
Proof.
  intros Hac Hi Hcost Hfit Hf1 Hf2 Ha Hd. apply admission_cases in Ha as [(? & _)|(Hstop & Hz & Hcap & Ha)]; [done|]. cbv zeta in Ha. rewrite (si_config _ _ _ _ Hi) in Ha.
  destruct Ha as [(_ & _ & [?|?])|(_ & _ & [(Hm & Hdl & ->)|(_ & ? & _)])]; [congruence|congruence| |done]. injection Hdl as ->.
  destruct (refill_inv c Hac _ _ _ (rq_target r) (evict_inv _ _ _ _ Hi) Hf1 Hf2) as [Hr _]. destruct (refill_used t (cf_budgets c) (rq_target r) (sc_rates (evict_state t s))) as [(b1 & E1 & U1) (b2 & E2 & U2)].
  set (rates := refill_rates _ _ _ _) in *. clearbody rates. pose proof (ac_refill c Hac). pose proof (ac_burst c Hac). pose proof (si_time _ _ _ _ Hi).
  assert (missing_tokens cost rates (rq_target r) <= cost) as Hn.
  { destruct Hr as [_ _ _ _ _ _ _ _ [R9 _ _] R10 R11 _]. destruct (R10 _ _ E1) as [? _ _], (R11 _ _ E2) as [? _ _]. cbn in R9. eapply missing_le; [done|lia|done|lia|done|lia]. }
  assert (cost <= u32_max) by (destruct Hfit; unfold u32_max; lia). pose proof (deadline_exact t (bc_refill (cf_budgets c)) (missing_tokens cost rates (rq_target r)) ltac:(lia) ltac:(lia) Hd) as Ed.
  rewrite Ed in *. split; [nia|]. eapply (admitted_later c _ t); try done. lia.
Qed.

(** A budget that is too small for a probe is accepted, and then the probe never runs: if a cost
    does not fit the buckets, no state the scheduler reaches admits it, although every refusal
    for want of tokens names a moment to try again. *)
Theorem unaffordable_probe_never_runs c t0 s0 G s F t r cost : config_typed c -> 0 <= t0 <= dur_max -> scheduler_new c t0 = Ok s0 -> sched_steps (s0, [], t0) G (s, F, t) -> ~ fits (cf_budgets c) cost ->
  fst (admission_decision t r cost s) <> Admitted_.
Proof.
  intros Ht Htime Hnew Hs Hfit Ha. destruct (scheduler_new_ok c t0 s0 Ht Htime Hnew) as [Hac Hi0]. pose proof (sched_steps_inv c Hac _ _ _ Hs Hi0) as Hi. cbn in Hi.
  destruct (admission_decision t r cost s) as [a s'] eqn:Ea. cbn in Ha. subst a. apply Hfit. clear Hfit. apply admission_cases in Ea as [(? & _)|(_ & _ & _ & Ea)]; [done|]. cbv zeta in Ea. rewrite (si_config _ _ _ _ Hi) in Ea.
  destruct Ea as [([d ?] & _)|(Hf1 & Hf2 & [(_ & ? & _)|(Hm & _)])]; [done|done|]. destruct (refill_inv c Hac _ _ _ (rq_target r) (evict_inv _ _ _ _ Hi) Hf1 Hf2) as [Hr [(b1 & E1 & B1) (b2 & E2 & B2)]].
  destruct (missing_none _ _ _ Hm) as (M1 & M2 & M3). specialize (M2 _ E1). specialize (M3 _ E2). destruct (si_rate _ _ _ _ Hr) as [R1 _ _], B1 as [B1 _ _], B2 as [B2 _ _]. unfold fits. cbn in R1, M1. lia.
Qed.

Lemma iter_min_spec l : match iter_min l with Some m => In m l /\ forall x, In x l -> m <= x | None => l = [] end.
Proof.
  induction l as [|y l IH]; [done|]. cbn. fold (iter_min l). destruct (iter_min l) as [m|].
  - destruct IH as [Hm Hle]. split; [destruct (Z.min_spec y m) as [[_ ->]|[_ ->]]; tauto|]. intros x [->|Hx]; [lia|]. specialize (Hle x Hx). lia.
  - subst l. split; [by left|]. intros x [->|[]]. lia.
Qed.
Lemma table_deadline_spec {K} `{Countable K} now ttl (m : gmap K TokenBucket) : m <> ∅ ->
  (exists k b, m !! k = Some b /\ table_deadline now ttl m = dur_add (tb_last_used b) ttl) /\
  (forall k b, m !! k = Some b -> table_deadline now ttl m <= dur_add (tb_last_used b) ttl).
Proof.
  intros Hne. unfold table_deadline. set (l := map _ (map snd _)). assert (forall x, In x l <-> exists k b, m !! k = Some b /\ x = dur_add (tb_last_used b) ttl) as Hl.
  { intros x. subst l. rewrite map_map, in_map_iff. split.
    - intros ([k b] & <- & Hin). exists k, b. split; [|done]. by apply elem_of_map_to_list, list_elem_of_In.
    - intros (k & b & Hk & ->). exists (k, b). split; [done|]. by apply list_elem_of_In, elem_of_map_to_list. }
  pose proof (iter_min_spec l) as Hm. destruct (iter_min l) as [d|]; cbn [from_option]; unfold id.
  - destruct Hm as [Hin Hle]. split; [by apply Hl in Hin|]. intros k b Hk. apply Hle, Hl. by exists k, b.
  - destruct (map_choose m Hne) as (k & b & Hk). exfalso. assert (In (dur_add (tb_last_used b) ttl) l) as Hin by (apply Hl; by exists k, b). by rewrite Hm in Hin.
Qed.

(** Until its deadline a table loses nothing. *)
Lemma table_kept {K} `{Countable K} now ttl d (m : gmap K TokenBucket) : m <> ∅ -> d = table_deadline now ttl m -> 0 <= ttl ->
  filter (fun '(_, b) => fresh d ttl (tb_last_used b) = true) m = m.
Proof.
  intros Hne -> Httl. apply map_filter_id. intros k b Hk. apply (proj2 (table_deadline_spec now ttl m Hne)) in Hk. unfold fresh, dur_sub, dur_add in *. apply Z.leb_le. lia.
Qed.
Lemma table_deadline_now {K} `{Countable K} now now' ttl (m : gmap K TokenBucket) : m <> ∅ -> table_deadline now ttl m = table_deadline now' ttl m.
Proof.
  intros Hne. unfold table_deadline. pose proof (iter_min_spec (map (fun b => dur_add (tb_last_used b) ttl) (map snd (map_to_list m)))) as Hs. destruct (iter_min _); [done|].
  apply map_eq_nil, map_eq_nil in Hs. by apply map_to_list_empty_iff in Hs.
Qed.

(** The deadline of a full host table comes too early: at the very moment that the refusal names,
    with nothing done in between, the oldest entry is still kept, the request is refused again and
    the same moment, which is then not in the future, is named again. *)
Theorem full_table_deadline_is_too_early c s F t r cost d s' : accepted c -> SchedInv c s F t ->
  table_full (cf_state_capacity c) (rq_target r) (ra_hosts (sc_rates (evict_state t s))) = true ->
  admission_decision t r cost s = (EligibleAt d, s') ->
  fst (admission_decision d r cost s') = EligibleAt d.
Proof.
  intros Hac Hi Hf Ha. pose proof (ac_state c Hac) as Hcap. pose proof (ac_ttl c Hac) as Httl. unfold admission_decision in Ha. rewrite (si_config _ _ _ _ Hi) in Ha. destruct (_ || at_capacity _ _) eqn:Eb; [done|].
  cbv zeta in Ha. replace (sc_config (evict_state t s)) with c in Ha by (cbn; by rewrite (si_config _ _ _ _ Hi)). rewrite Hf in Ha. injection Ha as Hd <-.
  set (m := ra_hosts (sc_rates (evict_state t s))) in *. assert (m <> ∅) as Hne. { intros E. rewrite E in Hf. unfold table_full in Hf. rewrite map_size_empty in Hf. bprop. lia. }
  pose proof (table_kept t (cf_state_ttl c) d m Hne (eq_sym Hd) ltac:(lia)) as Hk. unfold admission_decision.
  replace (sc_config (evict_state t s)) with c by (cbn; by rewrite (si_config _ _ _ _ Hi)). change (sc_stopped (evict_state t s)) with (sc_stopped s). change (at_capacity (evict_state t s) (rq_target r)) with (at_capacity s (rq_target r)). rewrite Eb. cbv zeta.
  assert (ra_hosts (sc_rates (evict_state d (evict_state t s))) = m) as -> by (etrans; [|exact Hk]; subst m; cbn; by rewrite (si_config _ _ _ _ Hi)).
  replace (sc_config (evict_state d (evict_state t s))) with c by (cbn; by rewrite (si_config _ _ _ _ Hi)). rewrite Hf. cbn [fst]. f_equal. rewrite <- Hd. by apply table_deadline_now.
Qed.

(** ** Witnesses *)
(** A scheduler with room for one host, one probe at a time and two tokens. *)
Definition small_config : SchedulerConfig := {|
  cf_budgets := {| bc_global_concurrency := 1; bc_per_host_concurrency := 1; bc_global_rate_burst := 2; bc_per_subnet_burst := 2; bc_refill := seconds 1 |};
  cf_queue_capacity := 4; cf_base_backoff := seconds 1; cf_max_backoff := seconds 60; cf_jitter_percent := 10;
  cf_state_capacity := 1; cf_state_ttl := seconds 1800; cf_max_retry_attempts := 5; cf_credential_timeout := seconds 2 |}.
Definition small_scheduler : Scheduler := {|
  sc_config := small_config; sc_queues := empty_queues; sc_failures := ∅; sc_stopped := false; sc_active := 0; sc_active_hosts := ∅;
  sc_rates := {| ra_global := full_bucket 2 0; ra_hosts := ∅; ra_subnets := ∅ |} |}.
Definition ask (host : Z) (probe : string) (m : ProbeMode) : ProbeRequest := {|
  rq_interface := 7; rq_target := V4 host; rq_probe_id := probe; rq_mode := m; rq_owner_approved := true |}.
Definition ask_ssh : ProbeRequest := ask 3232235777 "tcp.ssh.22" ModeDefault.
Definition ask_other : ProbeRequest := ask 3232235778 "tcp.ssh.22" ModeDefault.
Definition small_queued : Scheduler := snd (enqueue (ask 3232235778 "full.tcp.1" ModeOwnerFullPort) (snd (enqueue ask_ssh small_scheduler))).
(** A probe of cost 2 was admitted and has finished. *)
Definition small_spent : Scheduler := finish_probe ask_ssh (snd (admission_decision 0 ask_ssh 2 small_scheduler)).

Lemma small_typed : config_typed small_config.
Proof. unfold config_typed. cbn. unfold seconds. lia. Qed.
Lemma small_new : scheduler_new small_config 0 = Ok small_scheduler.
Proof. reflexivity. Qed.
Lemma small_inv : accepted small_config /\ SchedInv small_config small_scheduler [] 0.
Proof. apply scheduler_new_ok; [apply small_typed|unfold dur_max, u64_max; lia|apply small_new]. Qed.
Lemma small_granted : admission_decision 0 ask_ssh 2 small_scheduler = (Admitted_, snd (admission_decision 0 ask_ssh 2 small_scheduler)).
Proof. rewrite (surjective_pairing (admission_decision _ _ _ _)) at 1. f_equal; by vm_compute. Qed.
Lemma small_spent_steps : sched_steps (small_scheduler, [], 0) [2] (small_spent, [], 0).
Proof.
  change [2] with ([] ++ [2] ++ [])%list. rewrite app_assoc. eapply steps_snoc; [eapply steps_snoc; [apply steps_refl|]|].
  - apply step_grant; [lia|apply small_granted].
  - apply (step_finish _ [] ask_ssh []).
Qed.
Lemma small_spent_inv : SchedInv small_config small_spent [] 0.
Proof. exact (sched_steps_inv _ (proj1 small_inv) _ _ _ small_spent_steps (proj2 small_inv)). Qed.
Lemma small_ok : QueueOk small_scheduler.
Proof. split; [apply queue_inv_empty; lia|done|done]. Qed.
Lemma small_queued_ok : QueueOk small_queued.
Proof. exact (proj1 (run_queue_op_ok (Push (ask 3232235778 "full.tcp.1" ModeOwnerFullPort)) _ (proj1 (run_queue_op_ok (Push ask_ssh) _ small_ok)))). Qed.

Lemma queue_keeps_every_request_witness : queue_len small_queued = 2 /\ fst (next_request small_queued) = Some ask_ssh /\ contents (sc_queues small_queued) ≡ₚ ask_ssh :: contents (sc_queues (snd (next_request small_queued))).
Proof.
  destruct (queue_keeps_every_request small_queued small_queued_ok) as (_ & _ & Hn). split; [by vm_compute|]. assert (fst (next_request small_queued) = Some ask_ssh) as E by by vm_compute.
  split; [done|]. destruct (next_request small_queued) as [o s']. cbn in *. subst o. apply Hn.
Defined.
Lemma every_queued_request_is_served_witness : exists n, 0 <= n <= 164 /\ forall ops, n < pops ops -> In (ask 3232235778 "full.tcp.1" ModeOwnerFullPort) (served ops small_queued).
Proof.
  assert (cf_queue_capacity (sc_config small_queued) = 4) as Hc by by vm_compute.
  assert (contents (sc_queues small_queued) = [ask_ssh; ask 3232235778 "full.tcp.1" ModeOwnerFullPort]) as Hl by by vm_compute.
  pose proof (every_queued_request_is_served small_queued (ask 3232235778 "full.tcp.1" ModeOwnerFullPort) small_queued_ok) as Hs. rewrite Hc, Hl in Hs. apply Hs; [lia|by right; left].
Defined.
Lemma budgets_hold_witness : sc_active small_spent = 0 /\ state_sizes small_spent = (1, 1, 0)%nat /\ queue_len small_spent <= 4.
Proof.
  assert (0 <= 0 <= dur_max) as Hd by (unfold dur_max, u64_max; lia).
  destruct (budgets_hold small_config 0 small_scheduler [2] small_spent [] 0 small_typed Hd small_new small_spent_steps) as (Ha & _ & _ & Hq & _). split; [exact Ha|]. split; [by vm_compute|exact Hq].
Defined.
Lemma eligible_at_is_kept_witness : fst (admission_decision (seconds 2) ask_ssh 2 (snd (admission_decision 0 ask_ssh 2 small_spent))) = Admitted_.
Proof.
  apply (eligible_at_is_kept small_config small_spent [] 0 ask_ssh 2 (seconds 2) (snd (admission_decision 0 ask_ssh 2 small_spent))); [apply small_inv|apply small_spent_inv|lia| |by vm_compute|by vm_compute| |by vm_compute].
  - split; [|split]; vm_compute; congruence.
  - rewrite (surjective_pairing (admission_decision _ _ _ small_spent)) at 1. f_equal; by vm_compute.
Defined.
Lemma unaffordable_probe_never_runs_witness : fst (admission_decision 0 ask_ssh 4 small_spent) <> Admitted_.
Proof.
  apply (unaffordable_probe_never_runs small_config 0 small_scheduler [2] small_spent [] 0); [apply small_typed|unfold dur_max, u64_max; lia|apply small_new|apply small_spent_steps|]. unfold fits. cbn. lia.
Defined.
Lemma full_table_deadline_is_too_early_witness : fst (admission_decision (seconds 1800) ask_other 1 (snd (admission_decision 0 ask_other 1 small_spent))) = EligibleAt (seconds 1800).
Proof.
  apply (full_table_deadline_is_too_early small_config small_spent [] 0); [apply small_inv|apply small_spent_inv|by vm_compute|].
  rewrite (surjective_pairing (admission_decision _ _ _ small_spent)) at 1. f_equal; by vm_compute.
Defined.
