(* ===== verification/ActiveProps.v ===== *)
(** * Active discovery: what the engine and the codecs guarantee

    Every probe that can be named is well formed and affordable; the transport is reached only for
    an approved request on an authorized target, in the mode and with the credential that the probe
    needs; what comes back is bounded; the answer of an honest SNMP agent is read back as it was
    written, and no other answer is correlated. *)

From S2P Require Import Prelude Time Text F32 Order Bytes Net NetProps Domain Wire Active ActiveScheduler.

(** ** The catalog *)
Lemma catalog_loop_ok items : forall acc c, catalog_loop items acc = Ok c ->
  (forall id d, acc !! id = Some d -> pd_id d = id /\ invalid_descriptor d = false) ->
  (forall id d, c !! id = Some d -> pd_id d = id /\ invalid_descriptor d = false /\ (acc !! id = Some d \/ In d items)) /\
  (forall d, In d items -> c !! pd_id d = Some d) /\ (forall id d, acc !! id = Some d -> c !! id = Some d).
Proof.
  unfold ProbeCatalog. induction items as [|x items IH]; intros acc c; cbn; unfold ProbeCatalog in *.
  - intros [= <-] Hacc. split_and!; [intros id d Hd; destruct (Hacc _ _ Hd); tauto|by intros d []|done].
  - destruct (invalid_descriptor x) eqn:Ev; [done|]. case_bool_decide as Hd; [done|]. intros Hl Hacc.
    assert (acc !! pd_id x = None) as Hn by (by apply eq_None_not_Some). destruct (IH _ _ Hl) as (I1 & I2 & I3).
    { intros id d. rewrite lookup_insert_Some. intros [[<- <-]|[_ ?]]; [done|by apply Hacc]. }
    split_and!.
    + intros id d Hc. destruct (I1 _ _ Hc) as (? & ? & Hor). split_and!; [done|done|]. rewrite lookup_insert_Some in Hor. destruct Hor as [[[_ <-]|[_ ?]]|?]; tauto.
    + intros d [<-|Hin]; [apply I3; apply lookup_insert_eq|by apply I2].
    + intros id d Hd'. apply I3. rewrite lookup_insert_ne; [done|]. intros <-. congruence.
Qed.
Lemma catalog_new_ok items c : catalog_new items = Ok c ->
  (forall id d, c !! id = Some d -> pd_id d = id /\ invalid_descriptor d = false /\ In d items) /\ (forall d, In d items -> c !! pd_id d = Some d).
Proof.
  intros Hc. destruct (catalog_loop_ok items ∅ c Hc) as (I1 & I2 & _); [by intros ? ? ?%lookup_empty_Some|]. split; [|done].
  intros id d Hd. destruct (I1 _ _ Hd) as (? & ? & [?%lookup_empty_Some|?]); [done|by split_and!].
Qed.

Lemma starts_with_nonempty s pat : pat <> EmptyString -> starts_with s pat = true -> str_is_empty s = false.
Proof. destruct s; [|done]. by destruct pat. Qed.
Lemma strip_prefix_starts pre s rest : strip_prefix pre s = Some rest -> starts_with s pre = true.
Proof. unfold strip_prefix, starts_with. by case_match. Qed.

(** What the probes that are not in the table look like. *)
Lemma web_descriptor_ok id d : web_descriptor id = Some d ->
  pd_id d = id /\ invalid_descriptor d = false /\ pd_owner_start_required d = true /\ pd_budget_class d = BudgetInventory /\ 1 <= pd_rate_cost d <= 3 /\ pd_privilege d = PrivNone.
Proof.
  unfold web_descriptor. destruct (strip_prefix "web." id) as [rest|] eqn:Ep; [|done]. destruct (split_once "." rest) as [[scheme port]|]; [|done].
  destruct (parse_u16 port) as [n|]; [|done]. destruct (web_probe_ids n); [|done]. case_match; [done|]. intros [= <-].
  pose proof (strip_prefix_starts _ _ _ Ep) as Hs. pose proof (starts_with_nonempty id "web." ltac:(done) Hs).
  destruct id as [|c0 id]; [done|]. unfold starts_with in Hs. cbn [String.prefix] in Hs. destruct (Ascii.ascii_dec "w" c0) as [<-|]; [|done].
  unfold invalid_descriptor, descriptor, starts_with. cbn. case_bool_decide; cbn; split_and!; try done; lia.
Qed.
Lemma full_port_descriptor_ok id n : starts_with id "full.tcp." = true ->
  let d := full_port_descriptor id n in
  pd_id d = id /\ invalid_descriptor d = false /\ pd_owner_start_required d = true /\ pd_budget_class d = BudgetOwnerFullPort /\ pd_rate_cost d = 2 /\ pd_privilege d = PrivNone.
Proof.
  intros Hs. destruct id as [|c0 id]; [done|]. unfold starts_with in Hs. cbn [String.prefix] in Hs. destruct (Ascii.ascii_dec "f" c0) as [<-|]; [|done].
  cbv zeta. unfold invalid_descriptor, full_port_descriptor, descriptor, starts_with. cbn. split_and!; done.
Qed.

Lemma resolve_cases c id d : resolve c id = Some d ->
  c !! id = Some d \/
  (c !! id = None /\ web_descriptor id = Some d) \/
  (c !! id = None /\ starts_with id "web." = false /\ starts_with id "full.tcp." = true /\ exists n, d = full_port_descriptor id n).
Proof.
  unfold resolve. destruct (c !! id) as [d'|]; [intros [= ->]; by left|]. intros Hr. right. destruct (starts_with id "web.") eqn:Ew; [by left|]. right.
  destruct (strip_prefix "full.tcp." id) as [port|] eqn:Ep; [|done]. destruct (parse_u16 port) as [n|]; [|done]. destruct (n =? 0); [done|]. injection Hr as <-.
  split_and!; [done|done|by eapply strip_prefix_starts|by eexists].
Qed.

(** The table of the program. *)
Definition item_ok (d : ProbeDescriptor) : bool :=
  (1 <=? pd_rate_cost d) && (pd_rate_cost d <=? 4)
  && implb (starts_with (pd_id d) "full.tcp.") (pd_owner_start_required d && bool_decide (pd_budget_class d = BudgetOwnerFullPort))
  && negb (starts_with (pd_id d) "web.")
  && implb (bool_decide (pd_privilege d = PrivCredential)) (pd_credential_required d && pd_owner_start_required d && bool_decide (pd_budget_class d = BudgetInventory)).
Lemma catalog_items_ok : forallb item_ok catalog_items = true.
Proof. vm_compute. reflexivity. Qed.
Lemma catalog_builds : is_ok catalog = true.
Proof. vm_compute. reflexivity. Qed.

(** What a probe of the program's own table needs, by its name. *)
Lemma resolve_program c id d : catalog = Ok c -> resolve c id = Some d ->
  pd_id d = id /\ invalid_descriptor d = false /\ 1 <= pd_rate_cost d <= 4 /\
  (starts_with id "full.tcp." = true -> pd_owner_start_required d = true /\ pd_budget_class d = BudgetOwnerFullPort) /\
  (starts_with id "web." = true -> pd_owner_start_required d = true /\ pd_budget_class d = BudgetInventory) /\
  (pd_privilege d = PrivCredential -> pd_credential_required d = true /\ pd_owner_start_required d = true /\ pd_budget_class d = BudgetInventory).
Proof.
  intros Hc Hr. destruct (catalog_new_ok _ _ Hc) as [Hin _]. apply resolve_cases in Hr as [Ht|[[_ Hw]|(_ & Hnw & Hs & n & ->)]].
  - destruct (Hin _ _ Ht) as (Hid & Hv & Hi). pose proof (proj1 (forallb_forall _ _) catalog_items_ok d Hi) as Hok. clear Hi Hin Ht Hc. unfold item_ok in Hok. rewrite Hid in Hok. bprop.
    split_and!; try done; try lia; intros Hs; rewrite ?Hs in *; cbn in *; bprop; try done. rewrite bool_decide_true in * by done. cbn in *. by bprop.
  - clear Hin Hc. pose proof (web_descriptor_ok _ _ Hw) as (Hid & Hv & Ho & Hb & Hcost & Hpr). split_and!; try done; try lia.
    + intros Hs. exfalso. unfold web_descriptor in Hw. destruct (strip_prefix "web." id) eqn:Ep; [|done]. apply strip_prefix_starts in Ep. destruct id as [|c0 id]; [done|].
      unfold starts_with in *. cbn [String.prefix] in *. destruct (Ascii.ascii_dec "w" c0) as [<-|]; [|done]. by destruct (Ascii.ascii_dec "f" "w").
    + congruence.
  - clear Hin Hc. pose proof (full_port_descriptor_ok id n Hs) as (Hid & Hv & Ho & Hb & Hcost & Hpr). cbv zeta in *. split_and!; try done; try lia.
    + congruence.
    + congruence.
Qed.

(** Every probe that can be named is well formed, carries its own name, has bounded request and
    response, and fits the buckets of every budget with at least four tokens: whether it comes
    from the table of the program or from a name of a web or full-port probe. *)
Theorem named_probes_are_sound c id d b : catalog = Ok c -> resolve c id = Some d -> 1 <= bc_per_host_concurrency b -> 4 <= bc_global_rate_burst b -> 4 <= bc_per_subnet_burst b ->
  pd_id d = id /\ pd_version d <> 0 /\ pd_ports d <> [] /\ blen (pd_request d) <= pd_max_request_bytes d <= 4096 /\ pd_max_response_bytes d <= MAX_RESPONSE_BYTES /\
  1 <= pd_rate_cost d /\ pd_rate_cost d <= bc_global_rate_burst b /\ pd_rate_cost d <= host_capacity b /\ pd_rate_cost d <= bc_per_subnet_burst b.
Proof.
  intros Hc Hr H1 H2 H3. destruct (resolve_program c id d Hc Hr) as (Hid & Hv & Hcost & _). clear Hc Hr. unfold invalid_descriptor in Hv. bprop.
  repeat match goal with H : (_ =? _) = false |- _ => apply Z.eqb_neq in H | H : (_ <? _) = false |- _ => apply Z.ltb_ge in H | H : bool_decide _ = false |- _ => apply bool_decide_eq_false in H end.
  unfold host_capacity, u64_max. split_and!; done || lia.
Qed.

(** ** The engine *)
Section Engine.
Context `{Calendar} {Credential W : Type} `{AttemptTransport Credential W}.

Lemma admit_probe_ok e (r : ProbeRequest) (cred : option Credential) d : admit_probe e r cred = Ok d ->
  en_stopped e = false /\ resolve (en_catalog e) (rq_probe_id r) = Some d /\ rq_owner_approved r = true /\
  (pd_owner_start_required d = true -> authorized_mode d (rq_mode r) = true) /\ (pd_credential_required d = true -> cred <> None) /\
  authorize (en_guard e) (rq_interface r) (rq_target r) = Ok tt.
Proof.
  unfold admit_probe. destruct (en_stopped e); [done|]. destruct (resolve _ _) as [d'|]; cbn; [|done]. destruct (rq_owner_approved r); cbn; [|done].
  destruct (pd_owner_start_required d' && negb _) eqn:Eo; [done|]. destruct (pd_credential_required d' && _) eqn:Ec; [done|]. destruct (authorize _ _ _) as [[]|]; [|done]. intros [= <-].
  split_and!; try done.
  - intros Hs. rewrite Hs in Eo. cbn in Eo. by destruct (authorized_mode _ _).
  - intros Hs ->. rewrite Hs in Ec. by rewrite bool_decide_true in Ec.
Qed.

(** C20. Nothing is sent without the owner: if executing a request touched the transport at all, the
    owner had approved it, its target is a private or link-local address inside a prefix that the
    owner approved on an eligible interface, a full-port probe was asked for in the full-port mode, a
    web probe in the inventory mode, and a probe that needs a credential had one. *)
Theorem no_packet_without_owner inv overrides approvals g c now (r : ProbeRequest) (cred : option Credential) (w : W) :
  inventory_ok inv -> guard_new inv overrides approvals = Ok g -> catalog = Ok c ->
  snd (execute (engine_new g c) now r cred w) <> w ->
  rq_owner_approved r = true /\ is_permitted_target (rq_target r) = true /\
  (exists i, inventory_get inv (rq_interface r) = Some i /\ discovery_eligible i (setting_of overrides (rq_interface r)) = true) /\
  (exists a, In a approvals /\ ta_interface a = rq_interface r /\ prefix_contains (ta_prefix a) (rq_target r) = true) /\
  (starts_with (rq_probe_id r) "full.tcp." = true -> rq_mode r = ModeOwnerFullPort) /\
  (starts_with (rq_probe_id r) "web." = true -> rq_mode r = ModeOwnerInventory) /\
  (forall d, resolve c (rq_probe_id r) = Some d -> pd_privilege d = PrivCredential -> cred <> None /\ rq_mode r = ModeOwnerInventory).
Proof.
  intros Hinv Hg Hc Hw. unfold execute in Hw. destruct (admit_probe _ r cred) as [d|x] eqn:Ea; [|destruct Hw; reflexivity]. clear Hw. apply admit_probe_ok in Ea as (_ & Hr & Ho & Hm & Hcr & Hau). cbn [engine_new en_guard en_catalog] in Hr, Hau.
  destruct (authorized_by_approval _ _ _ _ _ _ Hinv Hg Hau) as (Hp & Hi & a & Ha & Hai & Hpc & _). pose proof (resolve_program c _ d Hc Hr) as Hprog. clear Hc. destruct Hprog as (_ & _ & _ & Hfull & Hweb & Hpriv).
  unfold authorized_mode in Hm. split_and!; try done; [by exists a| | |].
  - intros Hs. destruct (Hfull Hs) as [E1 E2]. specialize (Hm E1). rewrite E2 in Hm. by apply bool_decide_eq_true in Hm.
  - intros Hs. destruct (Hweb Hs) as [E1 E2]. specialize (Hm E1). rewrite E2 in Hm. by apply bool_decide_eq_true in Hm.
  - intros d' Hd' Hs. assert (d' = d) as -> by congruence. destruct (Hpriv Hs) as (E0 & E1 & E2). specialize (Hm E1). rewrite E2 in Hm. apply bool_decide_eq_true in Hm. split; [by apply Hcr|done].
Qed.

Lemma normalize_facts_ok d source now values facts : normalize_facts d source now values = Ok facts ->
  Forall2 (fun '(k, v) f => ef_key f = k /\ ef_value f = v /\ str_len k <= 64 /\ str_len v <= MAX_FACT_VALUE_BYTES /\ ef_source f = source /\
             ef_observed_at f = now /\ ef_expires_at f = checked_add_signed now (minutes 10) /\ ef_owner_confirmed f = false) values facts.
Proof.
  revert facts. induction values as [|[k v] values IH]; intros facts; cbn; [intros [= <-]; constructor|]. destruct (_ || _) eqn:Eb; [done|]. intros (fs & Hfs & [= <-])%result_bind_ok. bprop.
  constructor; [|by apply IH]. cbn. split_and!; done || lia.
Qed.
Lemma normalize_facts_total d source now values : Forall (fun '(k, v) => str_len k <= 64 /\ str_len v <= MAX_FACT_VALUE_BYTES) values -> exists facts, normalize_facts d source now values = Ok facts.
Proof.
  induction 1 as [|[k v] values [Hk Hv] _ [fs IH]]; cbn; [by eexists|]. rewrite IH. rewrite (proj2 (Z.ltb_ge _ _) Hk), (proj2 (Z.ltb_ge _ _) Hv). by eexists.
Qed.

(** What comes back is bounded and honest about its origin: an execution that succeeds yields at
    most 32 facts, the ones of the answer in order, with keys of at most 64 and values of at most
    512 bytes, all from the probe's own versioned source, observed now, expiring in ten minutes
    and not confirmed by the owner; an answer within these bounds is never refused. *)
Theorem probe_facts_are_bounded e now (r : ProbeRequest) (cred : option Credential) (w w' : W) d values : admit_probe e r cred = Ok d -> attempt r d cred w = (Answered (Ok (TSuccess values)), w') ->
  match execute e now r cred w with
  | (Ok (Success facts), w'') => w'' = w' /\ blen facts <= 32 /\
    Forall2 (fun '(k, v) f => ef_key f = k /\ ef_value f = v /\ str_len k <= 64 /\ str_len v <= MAX_FACT_VALUE_BYTES /\ ef_source f = active_source d /\
               ef_observed_at f = now /\ ef_expires_at f = checked_add_signed now (minutes 10) /\ ef_owner_confirmed f = false) values facts
  | (Ok _, _) => False
  | (Err x, w'') => w'' = w' /\ x = ResponseLimit /\ ~ (blen values <= 32 /\ Forall (fun '(k, v) => str_len k <= 64 /\ str_len v <= MAX_FACT_VALUE_BYTES) values)
  end.
Proof.
  intros Ha Ht. unfold execute, mbind_st, mret_st. rewrite Ha, Ht. unfold active_normalize. destruct (Z.ltb_spec 32 (blen values)); [split_and!; [done|done|lia]|].
  destruct (normalize_facts d (active_source d) now values) as [facts|x] eqn:En; cbn [result_bind].
  - pose proof (normalize_facts_ok _ _ _ _ _ En) as Hf. split_and!; [done| |done]. unfold blen in *. by rewrite <- (Forall2_length _ _ _ Hf).
  - split_and!; [done| |].
    + clear -En. revert En. induction values as [|[k v] values IH]; cbn; [done|]. destruct (_ || _); [by intros [= <-]|]. destruct (normalize_facts d (active_source d) now values); cbn; [done|]. by intros [= <-]; apply IH.
    + intros [_ Hv]. destruct (normalize_facts_total d (active_source d) now values Hv) as [? ?]. congruence.
Qed.
End Engine.

(** ** SNMP *)
Lemma blen_cons {A} (x : A) l : blen (x :: l) = 1 + blen l.
Proof. unfold blen. cbn. lia. Qed.
Lemma field_app head v rest : blen v <= MAX_RESPONSE_BYTES -> field (head ++ v ++ rest) (blen head) (blen v) = Ok (v, rest).
Proof.
  intros Hv. unfold field. pose proof (blen_nonneg rest). rewrite (proj2 (Z.ltb_ge _ _) Hv), !blen_app, (proj2 (Z.ltb_ge _ _)) by lia. cbn [orb].
  unfold blen. rewrite <- Nat2Z.inj_add, !Nat2Z.id. rewrite drop_app_length, take_app_length. by rewrite app_assoc, <- length_app, drop_app_length.
Qed.

(** A field is read back as it was written. *)
Lemma tlv_ber tag v rest : blen v <= MAX_RESPONSE_BYTES -> tlv (ber tag v ++ rest) tag = Ok (v, rest).
Proof.
  intros Hv. pose proof (blen_nonneg v). unfold ber. rewrite <- app_assoc. destruct (Z.ltb_spec (blen v) 128) as [Hs|Hs].
  - cbn [app]. rewrite Z.mod_small by lia. unfold tlv. rewrite Z.eqb_refl. cbn [negb].
    assert (Z.land (blen v) 128 = 0) as ->. { apply Z.bits_inj'. intros n Hn. rewrite Z.land_spec, Z.bits_0. change 128 with (2 ^ 7). rewrite Z.pow2_bits_eqb by lia. destruct (Z.eqb_spec 7 n) as [<-|]; [|by rewrite andb_false_r].
      rewrite Z.testbit_eqb by lia. rewrite Z.div_small by lia. done. }
    cbn [Z.eqb]. exact (field_app [tag; blen v] v rest Hv).
  - unfold MAX_RESPONSE_BYTES in Hv. cbn [app]. unfold tlv. rewrite Z.eqb_refl. cbn [negb]. change (Z.land 130 128 =? 0) with false. change (Z.land 130 127) with 2. change ((2 =? 0) || (2 <? 2)) with false.
    rewrite !blen_cons. pose proof (blen_nonneg (v ++ rest)). rewrite (proj2 (Z.ltb_ge (1 + _) _)) by lia. cbn [orb]. change (Z.to_nat 2) with 2%nat. cbn [firstn fold_left].
    rewrite (Z.shiftr_div_pow2 _ 8) by lia. change (2 ^ 8) with 256. rewrite (Z.mod_small (blen v / 256)) by (split; [apply Z.div_pos; lia|apply Z.div_lt_upper_bound; lia]).
    assert (Z.lor (Z.shiftl (Z.lor (Z.shiftl 0 8) (blen v / 256)) 8) (blen v mod 256) = blen v) as ->; [|exact (field_app [tag; 130; blen v / 256; blen v mod 256] v rest Hv)].
    rewrite Z.shiftl_0_l, Z.lor_0_l. rewrite <- Z.add_nocarry_lor; [rewrite Z.shiftl_mul_pow2 by lia; change (2 ^ 8) with 256; pose proof (Z.div_mod (blen v) 256 ltac:(lia)); lia|].
    apply Z.bits_inj'. intros n Hn. rewrite Z.land_spec, Z.bits_0. destruct (Z.lt_ge_cases n 8); [rewrite Z.shiftl_spec_low by lia; done|].
    change 256 with (2 ^ 8). rewrite Z.mod_pow2_bits_high by lia. by rewrite andb_false_r.
Qed.

Definition be_value (l : bytes) : Z := fold_left (fun out b => Z.lor (Z.shiftl out 8) b) l 0.
Lemma shift_or_byte a b : 0 <= b < 256 -> Z.lor (Z.shiftl a 8) b = 256 * a + b.
Proof.
  intros Hb. rewrite <- Z.add_nocarry_lor; [rewrite Z.shiftl_mul_pow2 by lia; lia|]. apply Z.bits_inj'. intros n Hn. rewrite Z.land_spec, Z.bits_0.
  destruct (Z.lt_ge_cases n 8); [by rewrite Z.shiftl_spec_low by lia|]. rewrite (Z.testbit_eqb b n) by lia. rewrite (Z.div_small b); [by rewrite andb_false_r|]. split; [lia|].
  eapply Z.lt_le_trans; [apply Hb|]. change 256 with (2 ^ 8). apply Z.pow_le_mono_r; lia.
Qed.
Lemma be_value_bytes n z : 0 <= z -> be_value (be_bytes n z) = z mod 256 ^ Z.of_nat n.
Proof.
  intros Hz. revert z Hz. induction n as [|n IH]; intros z Hz; [cbn; by rewrite Z.mod_1_r|]. cbn [be_bytes]. unfold be_value in *. rewrite fold_left_app, IH by (apply Z.div_pos; lia). cbn [fold_left].
  rewrite shift_or_byte by (apply Z.mod_pos_bound; lia). rewrite Nat2Z.inj_succ, Z.pow_succ_r by lia. rewrite Z.rem_mul_r by lia. lia.
Qed.
Lemma be_value_zero l : be_value (0 :: l) = be_value l.
Proof. done. Qed.
Lemma drop_zero_bytes_ok l : l <> [] -> be_value (drop_zero_bytes l) = be_value l /\ drop_zero_bytes l <> [] /\ (length (drop_zero_bytes l) <= length l)%nat.
Proof.
  induction l as [|b l IH]; [done|]. intros _. cbn. destruct l as [|b' l]; [done|]. destruct (Z.eqb_spec b 0) as [->|]; [|done]. destruct IH as (E & Hne & Hl); [done|]. split_and!; [exact E|exact Hne|cbn in *; lia].
Qed.
(** An integer is read back as it was written. *)
Lemma ber_integer_int v rest : 0 <= v <= 2147483647 -> ber_integer (ber_int v ++ rest) = Ok (v, rest).
Proof.
  intros Hv. unfold ber_int, i32_bytes. rewrite Z.mod_small by lia. set (c := drop_zero_bytes (be_bytes 4 v)). assert (be_bytes 4 v <> []) as Hne by done.
  destruct (drop_zero_bytes_ok _ Hne) as (E & Hc & Hl). fold c in E, Hc, Hl. rewrite length_be_bytes in Hl. rewrite be_value_bytes in E by lia. rewrite Z.mod_small in E by (cbn; lia).
  set (content := match c with b :: _ => if negb (Z.land b 128 =? 0) then 0 :: c else c | [] => c end).
  assert (be_value content = v /\ content <> [] /\ (length content <= 5)%nat) as (E' & Hne' & Hl').
  { subst content. destruct c as [|b c']; [done|]. case_match; [rewrite be_value_zero|]; split_and!; try done; cbn in *; lia. }
  unfold ber_integer. rewrite tlv_ber by (unfold blen, MAX_RESPONSE_BYTES; lia). cbn [result_bind]. rewrite bool_decide_false by done. unfold blen. rewrite (proj2 (Z.ltb_ge 5 _)) by lia. cbn [orb].
  fold (be_value content). rewrite E'. by rewrite (proj2 (Z.leb_le v _)) by lia.
Qed.

(** The answer of an honest agent: the request's version, community and identifier, no error, and the
    two bindings asked for. *)
Definition agent_pdu (request_id : Z) (descr object_id : bytes) : bytes :=
  ber_int request_id ++ ber_int 0 ++ ber_int 0 ++
  ber 48 (ber 48 (ber 6 SYS_DESCR_OID ++ ber 4 descr) ++ ber 48 (ber 6 SYS_OBJECT_ID_OID ++ ber 6 object_id)).
Definition agent_answer (version : Z) (community : bytes) (request_id : Z) (descr object_id : bytes) : bytes :=
  ber 48 (ber_int version ++ ber 4 community ++ ber 162 (agent_pdu request_id descr object_id)).

Lemma blen_ber tag v : blen v <= blen (ber tag v) <= blen v + 4.
Proof. unfold ber. rewrite blen_app. unfold blen. case_match; cbn [length]; lia. Qed.
Lemma blen_ber_int v : 0 <= v <= 2147483647 -> blen (ber_int v) <= 9.
Proof.
  intros Hv. unfold ber_int, i32_bytes. assert (be_bytes 4 (v mod 4294967296) <> []) as Hne by done. destruct (drop_zero_bytes_ok _ Hne) as (_ & _ & Hl). rewrite length_be_bytes in Hl.
  pose proof (blen_ber 2 (match drop_zero_bytes (be_bytes 4 (v mod 4294967296)) with b :: _ => if negb (Z.land b 128 =? 0) then 0 :: drop_zero_bytes (be_bytes 4 (v mod 4294967296)) else drop_zero_bytes (be_bytes 4 (v mod 4294967296)) | [] => drop_zero_bytes (be_bytes 4 (v mod 4294967296)) end)) as Hb.
  set (x := ber 2 _) in *. clearbody x. revert Hb. destruct (drop_zero_bytes _) as [|b c]; [unfold blen; cbn; lia|]. case_match; unfold blen in *; cbn [length] in *; lia.
Qed.

Definition agent_bindings (descr object_id : bytes) : bytes :=
  ber 48 (ber 6 SYS_DESCR_OID ++ ber 4 descr) ++ ber 48 (ber 6 SYS_OBJECT_ID_OID ++ ber 6 object_id).
Definition descr_text (descr : bytes) : string := string_of_list_ascii (strip_control (String.list_ascii_of_string (from_utf8_lossy descr))).

Lemma tlv_ber_whole tag v : blen v <= MAX_RESPONSE_BYTES -> tlv (ber tag v) tag = Ok (v, []).
Proof. intros Hv. rewrite <- (app_nil_r (ber tag v)). by apply tlv_ber. Qed.
Lemma snmp_bindings_read fuel descr object_id text : (2 <= fuel)%nat -> blen descr <= 512 -> blen object_id <= 1024 -> decode_oid object_id = Ok text ->
  snmp_bindings fuel (agent_bindings descr object_id) [] false false = Ok [("sys_descr"%string, descr_text descr); ("sys_object_id"%string, text)].
Proof.
  intros Hf Hd Ho Ht. destruct fuel as [|[|fuel]]; [lia..|]. unfold agent_bindings.
  pose proof (blen_ber 6 SYS_DESCR_OID) as B1. pose proof (blen_ber 4 descr) as B2. pose proof (blen_ber 6 SYS_OBJECT_ID_OID) as B3. pose proof (blen_ber 6 object_id) as B4.
  assert (forall tag v rest, exists b l, ber tag v ++ rest = b :: l) as Hne by (intros; unfold ber; cbn; eauto).
  set (x1 := ber 6 SYS_DESCR_OID ++ ber 4 descr). set (x2 := ber 6 SYS_OBJECT_ID_OID ++ ber 6 object_id). assert (blen x1 <= 600) by (subst x1; rewrite blen_app; change (blen SYS_DESCR_OID) with 8 in *; lia).
  assert (blen x2 <= 1200) by (subst x2; rewrite blen_app; change (blen SYS_OBJECT_ID_OID) with 8 in *; lia).
  assert (snmp_binding x1 false false = Ok ("sys_descr"%string, descr_text descr, true, false)) as S1.
  { unfold snmp_binding, x1. rewrite tlv_ber by (vm_compute; congruence). cbn [result_bind]. rewrite bool_decide_true by done. rewrite tlv_ber_whole by (unfold MAX_RESPONSE_BYTES; lia). cbn [result_bind].
    unfold MAX_FACT_VALUE_BYTES. by rewrite (proj2 (Z.ltb_ge _ _)) by lia. }
  assert (snmp_binding x2 true false = Ok ("sys_object_id"%string, text, true, true)) as S2.
  { unfold snmp_binding, x2. rewrite tlv_ber by (vm_compute; congruence). cbn [result_bind]. rewrite bool_decide_false by done. rewrite bool_decide_true by done. rewrite tlv_ber_whole by (unfold MAX_RESPONSE_BYTES; lia). cbn [result_bind].
    rewrite Ht. done. }
  cbn [snmp_bindings]. destruct (Hne 48 x1 (ber 48 x2)) as (b & l & E). destruct (Hne 48 x2 []) as (b' & l' & E'). rewrite app_nil_r in E'.
  rewrite E. rewrite <- E. change (2 <=? blen []) with false. rewrite tlv_ber by (unfold MAX_RESPONSE_BYTES; lia). cbn [result_bind]. rewrite S1. cbn [result_bind]. rewrite E'. rewrite <- E'.
  cbn [app]. change (2 <=? blen _) with false. rewrite tlv_ber_whole by (unfold MAX_RESPONSE_BYTES; lia). cbn [result_bind]. rewrite S2. cbn [result_bind]. by destruct fuel.
Qed.

(** The answer of an honest agent is read back exactly when it answers the question asked: for
    every version, community and identifier that the program can send, the description (without
    control characters) and the object identifier come back; an answer to any other version,
    community or identifier is refused as uncorrelated. *)
Theorem snmp_answer_read_back version community id version' community' id' descr object_id text :
  0 <= version' <= 1 -> 0 <= id' <= 2147483647 -> blen community' <= 64 -> blen descr <= 512 -> blen object_id <= 1024 -> decode_oid object_id = Ok text ->
  parse_snmp_community_response (agent_answer version' community' id' descr object_id) version community id =
  if bool_decide ((version', community', id') = (version, community, id)) then Ok [("sys_descr"%string, descr_text descr); ("sys_object_id"%string, text)] else Err Correlation.
Proof.
  intros Hv Hi Hc Hd Ho Ht. unfold agent_answer, agent_pdu. fold (agent_bindings descr object_id). set (bs := agent_bindings descr object_id).
  assert (blen bs <= 2000) as Hbs. { subst bs. unfold agent_bindings. pose proof (blen_ber 6 SYS_DESCR_OID). pose proof (blen_ber 4 descr). pose proof (blen_ber 6 SYS_OBJECT_ID_OID). pose proof (blen_ber 6 object_id).
    pose proof (blen_ber 48 (ber 6 SYS_DESCR_OID ++ ber 4 descr)). pose proof (blen_ber 48 (ber 6 SYS_OBJECT_ID_OID ++ ber 6 object_id)). rewrite !blen_app in *. change (blen SYS_DESCR_OID) with 8 in *. change (blen SYS_OBJECT_ID_OID) with 8 in *. lia. }
  set (pdu := ber_int id' ++ _). assert (blen pdu <= 2100) as Hpdu. { subst pdu. pose proof (blen_ber_int id' Hi). pose proof (blen_ber_int 0 ltac:(lia)). pose proof (blen_ber 48 bs). rewrite !blen_app. lia. }
  set (msg := ber_int version' ++ _). assert (blen msg <= 2200) as Hmsg. { subst msg. pose proof (blen_ber_int version' ltac:(lia)). pose proof (blen_ber 4 community'). pose proof (blen_ber 162 pdu). rewrite !blen_app. lia. }
  unfold parse_snmp_community_response. pose proof (blen_ber 48 msg). rewrite (proj2 (Z.ltb_ge MAX_RESPONSE_BYTES _)) by (unfold MAX_RESPONSE_BYTES; lia).
  rewrite tlv_ber_whole by (unfold MAX_RESPONSE_BYTES; lia). cbn [result_bind]. rewrite bool_decide_true by done. cbn [negb]. unfold msg at 1. rewrite ber_integer_int by lia. cbn [result_bind].
  destruct (Z.eqb_spec version' version) as [->|]; cbn [negb]; [|rewrite bool_decide_false; [done|congruence]]. rewrite tlv_ber by (unfold MAX_RESPONSE_BYTES; lia). cbn [result_bind].
  destruct (decide (community' = community)) as [->|]; [rewrite bool_decide_true by done|rewrite !bool_decide_false by congruence; done]. cbn [negb]. rewrite tlv_ber_whole by (unfold MAX_RESPONSE_BYTES; lia). cbn [result_bind].
  rewrite bool_decide_true by done. cbn [negb]. unfold pdu at 1. rewrite ber_integer_int by lia. cbn [result_bind]. destruct (Z.eqb_spec id' id) as [->|]; cbn [negb]; [|rewrite bool_decide_false; [done|congruence]].
  rewrite bool_decide_true by done. rewrite !ber_integer_int by lia. cbn [result_bind Z.eqb negb]. rewrite ber_integer_int by lia. cbn [result_bind Z.eqb negb]. rewrite tlv_ber_whole by (unfold MAX_RESPONSE_BYTES; lia). cbn [result_bind].
  rewrite bool_decide_true by done. cbn [negb]. apply snmp_bindings_read; try done. subst bs. unfold agent_bindings, ber. cbn. rewrite length_app. cbn. lia.
Qed.

(** ** Limits that are not kept *)
Lemma oid_step_bound v b : 0 <= oid_step v b <= u32_max.
Proof.
  unfold oid_step, u32_max. rewrite Z.shiftl_mul_pow2 by lia. change (2 ^ 7) with 128. change 4294967296 with (128 * 33554432). rewrite (Z.mul_comm v 128), Z.mul_mod_distr_l by lia.
  pose proof (Z.mod_pos_bound v 33554432 ltac:(lia)). change 127 with (Z.ones 7). rewrite Z.land_ones by lia. pose proof (Z.mod_pos_bound b (2 ^ 7) ltac:(lia)). change (2 ^ 7) with 128 in *. lia.
Qed.
Lemma oid_loop_never_limited l : forall v open, oid_loop v open l <> Err ResponseLimit.
Proof.
  induction l as [|b l IH]; intros v open; cbn; [by destruct open|]. pose proof (oid_step_bound v b). rewrite (proj2 (Z.ltb_ge _ _)) by lia. destruct (_ =? 0); [|apply IH].
  specialize (IH 0 false). by destruct (oid_loop 0 false l); cbn; congruence.
Qed.

(** The overflow check of an object identifier never fires: no bytes make the decoder report that a
    component is too large, since the shift drops the high bits before the addition that is checked;
    a component of 2^32 is read as 0, so different object identifiers get the same text. *)
Theorem oid_overflow_is_silent :
  (forall p, decode_oid p <> Err ResponseLimit) /\
  decode_oid [43; 6; 144; 128; 128; 128; 0] = Ok "1.3.6.0"%string /\ decode_oid [43; 6; 0] = Ok "1.3.6.0"%string.
Proof.
  split; [|by vm_compute]. intros [|b p]; [done|]. cbn [decode_oid]. pose proof (oid_loop_never_limited p 0 false). destruct (oid_loop 0 false p); cbn; congruence.
Qed.

(** A server header of [n] letters of two bytes each. *)
Definition wide_header (n : nat) : bytes :=
  str_bytes ("HTTP/1.1 200 OK" +:+ crlf +:+ "Server: ")%string ++ concat (repeat [195; 169] n) ++ str_bytes crlf.

(** The cut of an HTTP header counts characters while the engine counts bytes: a server header of
    300 two-byte letters is well within what the reader keeps, is reported uncut with 600 bytes, and
    makes the engine refuse the whole answer, status included. *)
Theorem wide_header_loses_the_answer `{Calendar} d now : exists value,
  parse_http_metadata (wide_header 300) = Ok [("status"%string, "200"%string); ("server"%string, value)] /\ str_len value = 600 /\
  active_normalize d now (TSuccess [("status"%string, "200"%string); ("server"%string, value)]) = Err ResponseLimit.
Proof.
  exists (string_of_list_ascii (map (fun b => ascii_of_N (Z.to_N b)) (concat (repeat [195; 169] 300)))). split_and!; [by vm_compute|by vm_compute|].
  unfold active_normalize. cbn [blen length Z.of_nat Z.ltb]. by vm_compute.
Qed.

(** ** Witnesses *)
Definition program_catalog : ProbeCatalog := match catalog with Ok c => c | Err _ => ∅ end.
Lemma program_catalog_ok : catalog = Ok program_catalog.
Proof. pose proof catalog_builds as Hb. unfold program_catalog. destruct catalog as [c|e]; [reflexivity|discriminate]. Qed.
(** A transport that keeps the requests it was given and answers with one fact. *)
#[local] Instance recording_transport : AttemptTransport unit (list ProbeRequest) := {
  attempt r d cred w := (Answered (Ok (TSuccess [("open"%string, "true"%string)])), r :: w) }.
Definition printer_ssh : ProbeRequest := {|
  rq_interface := 2; rq_target := printer; rq_probe_id := "full.tcp.22"; rq_mode := ModeOwnerFullPort; rq_owner_approved := true |}.
Definition printer_probe : ProbeDescriptor := full_port_descriptor "full.tcp.22" 22.
Lemma printer_admitted : admit_probe (Credential := unit) (engine_new home_guard program_catalog) printer_ssh None = Ok printer_probe.
Proof. vm_compute. reflexivity. Qed.

Lemma named_probes_are_sound_witness : pd_rate_cost printer_probe <= host_capacity default_budget /\ pd_max_response_bytes printer_probe <= MAX_RESPONSE_BYTES.
Proof.
  assert (resolve program_catalog "full.tcp.22" = Some printer_probe) as Hr by (vm_compute; reflexivity).
  destruct (named_probes_are_sound program_catalog "full.tcp.22" printer_probe default_budget program_catalog_ok Hr) as (_ & _ & _ & _ & Hm & _ & _ & Hh & _); [vm_compute; congruence..|].
  split; [exact Hh|exact Hm].
Defined.
Lemma no_packet_without_owner_witness : rq_owner_approved printer_ssh = true /\ rq_mode printer_ssh = ModeOwnerFullPort /\ is_permitted_target printer = true.
Proof.
  destruct (no_packet_without_owner (Credential := unit) home_inventory [] [home_approval] home_guard program_catalog 0 printer_ssh None []) as (Ho & Hp & _ & _ & Hf & _).
  - apply home_inventory_ok.
  - apply home_guard_built.
  - apply program_catalog_ok.
  - unfold execute. rewrite printer_admitted. vm_compute. congruence.
  - split; [exact Ho|]. split; [apply Hf; reflexivity|exact Hp].
Defined.
Lemma probe_facts_are_bounded_witness :
  match execute (Credential := unit) (engine_new home_guard program_catalog) 0 printer_ssh None [] with (Ok (Success facts), w) => blen facts <= 32 /\ w = [printer_ssh] | _ => False end.
Proof.
  pose proof (probe_facts_are_bounded (Credential := unit) (engine_new home_guard program_catalog) 0 printer_ssh None [] [printer_ssh] printer_probe _ printer_admitted eq_refl) as Hb.
  destruct (execute _ _ _ _ _) as [[[facts| |]|x] w] eqn:Ee; [|destruct Hb|destruct Hb|].
  - destruct Hb as (Hw & Hl & _). split; [exact Hl|exact Hw].
  - unfold execute in Ee. rewrite printer_admitted in Ee. vm_compute in Ee. discriminate.
Defined.
Lemma snmp_answer_read_back_witness :
  parse_snmp_community_response (agent_answer 1 [112; 117; 98] 77 [65; 66] [43; 6; 1]) 1 [112; 117; 98] 77 = Ok [("sys_descr"%string, "AB"%string); ("sys_object_id"%string, "1.3.6.1"%string)] /\
  parse_snmp_community_response (agent_answer 1 [112; 117; 98] 78 [65; 66] [43; 6; 1]) 1 [112; 117; 98] 77 = Err Correlation.
Proof.
  split.
  - rewrite (snmp_answer_read_back 1 [112; 117; 98] 77 1 [112; 117; 98] 77 [65; 66] [43; 6; 1] "1.3.6.1"%string) by (reflexivity || lia || (vm_compute; congruence)). vm_compute. reflexivity.
  - rewrite (snmp_answer_read_back 1 [112; 117; 98] 77 1 [112; 117; 98] 78 [65; 66] [43; 6; 1] "1.3.6.1"%string) by (reflexivity || lia || (vm_compute; congruence)). vm_compute. reflexivity.
Defined.
