(* ===== verification/ActiveRunner.v ===== *)
(** * Active discovery: the runner

    [SchedulerRunner] of crates/lattice-sensor/src/active/scheduler_runner.rs: accepted work is queued,
    dispatched under the admission of the scheduler, executed in a task, and reported; transient
    failures wait in the retry line. Every region of code that runs under one mutex is one operation
    here and one step of [runner_step], so that the steps interleave the way the threads of the runtime
    do; the asynchronous lock of the lifecycle, which is held across such regions, is kept by
    the phases that a dispatch, a task or a stop is in. Two regions take a second mutex while they hold the
    first and count as one: [enqueue] gives up a claim with the scheduler still locked (the guard
    lives to the end of the match), and a promotion, which has the retry line and the scheduler
    locked throughout, writes the attempts of the requests that it moves, which nobody else touches
    meanwhile. The slots of the result channel are not counted in the steps: a dispatch may always have
    found one. The clock, the jitter unit and the result of an execution are arguments. *)

From S2P Require Import Prelude Time Text F32 F64 Order Bytes Net Domain Wire Active ActiveProps ActiveScheduler ActiveSchedulerProps.

Record RetryItem := { rt_due : Duration; rt_request : ProbeRequest; rt_attempt : Z }.
Record RunnerEvent := { re_request : ProbeRequest; re_attempt : Z; re_result : result ProbeOutcome ActiveError; re_will_retry : bool }.
Inductive Lifecycle := Running | Draining | Drained.
#[global] Instance Lifecycle_eq_dec : EqDecision Lifecycle.
Proof. solve_decision. Defined.

Record Runner := {
  ru_scheduler : Scheduler; ru_catalog : ProbeCatalog; ru_retries : list RetryItem; ru_attempts : gmap WorkKey Z; ru_pending : gset WorkKey;
  ru_lifecycle : Lifecycle; ru_stopped : bool; ru_queue_capacity : Z; ru_max_retry_attempts : Z; ru_next_eligibility : option Duration;
  ru_result_blocked : bool }.

Definition runner_new (c : SchedulerConfig) (now : Duration) (catalog : ProbeCatalog) (result_capacity : Z) : result Runner ActiveError :=
  if (result_capacity =? 0) || (MAX_QUEUE <? result_capacity) then Err InvalidConfig
  else
    let? s := scheduler_new c now in
    Ok {| ru_scheduler := s; ru_catalog := catalog; ru_retries := []; ru_attempts := ∅; ru_pending := ∅; ru_lifecycle := Running; ru_stopped := false;
          ru_queue_capacity := cf_queue_capacity c; ru_max_retry_attempts := cf_max_retry_attempts c; ru_next_eligibility := None; ru_result_blocked := false |}.

Definition with_scheduler (s : Scheduler) (r : Runner) : Runner := {|
  ru_scheduler := s; ru_catalog := ru_catalog r; ru_retries := ru_retries r; ru_attempts := ru_attempts r; ru_pending := ru_pending r;
  ru_lifecycle := ru_lifecycle r; ru_stopped := ru_stopped r; ru_queue_capacity := ru_queue_capacity r; ru_max_retry_attempts := ru_max_retry_attempts r;
  ru_next_eligibility := ru_next_eligibility r; ru_result_blocked := ru_result_blocked r |}.
Definition with_pending (p : gset WorkKey) (r : Runner) : Runner := {|
  ru_scheduler := ru_scheduler r; ru_catalog := ru_catalog r; ru_retries := ru_retries r; ru_attempts := ru_attempts r; ru_pending := p;
  ru_lifecycle := ru_lifecycle r; ru_stopped := ru_stopped r; ru_queue_capacity := ru_queue_capacity r; ru_max_retry_attempts := ru_max_retry_attempts r;
  ru_next_eligibility := ru_next_eligibility r; ru_result_blocked := ru_result_blocked r |}.
Definition with_attempts (a : gmap WorkKey Z) (r : Runner) : Runner := {|
  ru_scheduler := ru_scheduler r; ru_catalog := ru_catalog r; ru_retries := ru_retries r; ru_attempts := a; ru_pending := ru_pending r;
  ru_lifecycle := ru_lifecycle r; ru_stopped := ru_stopped r; ru_queue_capacity := ru_queue_capacity r; ru_max_retry_attempts := ru_max_retry_attempts r;
  ru_next_eligibility := ru_next_eligibility r; ru_result_blocked := ru_result_blocked r |}.
Definition with_retries (l : list RetryItem) (r : Runner) : Runner := {|
  ru_scheduler := ru_scheduler r; ru_catalog := ru_catalog r; ru_retries := l; ru_attempts := ru_attempts r; ru_pending := ru_pending r;
  ru_lifecycle := ru_lifecycle r; ru_stopped := ru_stopped r; ru_queue_capacity := ru_queue_capacity r; ru_max_retry_attempts := ru_max_retry_attempts r;
  ru_next_eligibility := ru_next_eligibility r; ru_result_blocked := ru_result_blocked r |}.
Definition with_wait (e : option Duration) (blocked : bool) (r : Runner) : Runner := {|
  ru_scheduler := ru_scheduler r; ru_catalog := ru_catalog r; ru_retries := ru_retries r; ru_attempts := ru_attempts r; ru_pending := ru_pending r;
  ru_lifecycle := ru_lifecycle r; ru_stopped := ru_stopped r; ru_queue_capacity := ru_queue_capacity r; ru_max_retry_attempts := ru_max_retry_attempts r;
  ru_next_eligibility := e; ru_result_blocked := blocked |}.

(** ** Entering *)
(** The first half of [enqueue], under the lock of the pending set: [None] claims the key. *)
Definition claim (q : ProbeRequest) (r : Runner) : option (result bool ActiveError) * Runner :=
  match resolve (ru_catalog r) (rq_probe_id q) with
  | None => (Some (Err UnknownProbe), r)
  | Some _ =>
    if bool_decide (work_key q ∈ ru_pending r) then (Some (Ok false), r)
    else if ru_queue_capacity r <=? Z.of_nat (size (ru_pending r)) then (Some (Err QueueFull), r)
    else (None, with_pending ({[ work_key q ]} ∪ ru_pending r) r)
  end.
(** The second half: the claimed request goes to the scheduler, or the claim is given up. *)
Definition queue_claimed (q : ProbeRequest) (r : Runner) : result bool ActiveError * Runner :=
  let '(a, s) := enqueue q (ru_scheduler r) in
  match a with
  | Ok inserted => (Ok inserted, with_scheduler s r)
  | Err x => (Err x, with_pending (ru_pending r ∖ {[ work_key q ]}) (with_scheduler s r))
  end.
Definition runner_enqueue (q : ProbeRequest) (r : Runner) : result bool ActiveError * Runner :=
  let '(a, r') := claim q r in
  match a with Some x => (x, r') | None => queue_claimed q r' end.

(** ** Dispatching *)
Fixpoint promote_loop (now : Duration) (items : list RetryItem) (r : Runner) : list RetryItem * Runner :=
  match items with
  | [] => ([], r)
  | i :: items' =>
    let '(a, s) := if rt_due i <=? now then enqueue (rt_request i) (ru_scheduler r) else (Err Internal, ru_scheduler r) in
    if is_ok a then promote_loop now items' (with_attempts (<[work_key (rt_request i) := rt_attempt i]> (ru_attempts r)) (with_scheduler s r))
    else let '(remaining, r') := promote_loop now items' (with_scheduler s r) in (i :: remaining, r')
  end.
Definition promote_due_retries (now : Duration) (r : Runner) : Runner :=
  let '(remaining, r') := promote_loop now (ru_retries r) r in with_retries remaining r'.

Inductive Taken := NothingQueued | Dropped | Took (q : ProbeRequest) (d : ProbeDescriptor) (attempt : Z).
(** The regions of one round of the dispatch: a request leaves the queue ... *)
Definition pop_next (r : Runner) : option ProbeRequest * Runner :=
  let '(o, s) := next_request (ru_scheduler r) in (o, with_scheduler s r).
(** ... is no longer pending (here when the catalog does not know it) ... *)
Definition forget (q : ProbeRequest) (r : Runner) : Runner := with_pending (ru_pending r ∖ {[ work_key q ]}) r.
(** ... brings the attempt it is at ... *)
Definition take_attempt (q : ProbeRequest) (r : Runner) : Z * Runner :=
  (default 0 (ru_attempts r !! work_key q), with_attempts (delete (work_key q) (ru_attempts r)) r).
(** ... asks for admission ... *)
Definition ask_admission (now : Duration) (q : ProbeRequest) (d : ProbeDescriptor) (r : Runner) : AdmissionDecision * Runner :=
  let '(a, s) := admission_decision now q (pd_rate_cost d) (ru_scheduler r) in (a, with_scheduler s r).
(** ... and, if it is refused, the deadline and the attempt are noted and it goes back. *)
Definition note_eligibility (a : AdmissionDecision) (r : Runner) : Runner :=
  match a with
  | EligibleAt deadline =>
    with_wait (Some (match ru_next_eligibility r with Some current => Z.min current deadline | None => deadline end)) (ru_result_blocked r) r
  | _ => r
  end.
Definition keep_attempt (q : ProbeRequest) (attempt : Z) (r : Runner) : Runner :=
  if 0 <? attempt then with_attempts (<[work_key q := attempt]> (ru_attempts r)) r else r.
Definition requeue (q : ProbeRequest) (r : Runner) : Runner := with_scheduler (snd (enqueue q (ru_scheduler r))) r.

(** The same with nothing else running. [true]: a task is spawned. *)
Definition dispatch_take (r : Runner) : Taken * Runner :=
  let '(o, r) := pop_next r in
  match o with
  | None => (NothingQueued, r)
  | Some q =>
    match resolve (ru_catalog r) (rq_probe_id q) with
    | None => (Dropped, forget q r)
    | Some d => let '(attempt, r) := take_attempt q r in (Took q d attempt, r)
    end
  end.
Definition dispatch_admit (now : Duration) (q : ProbeRequest) (d : ProbeDescriptor) (attempt : Z) (r : Runner) : bool * Runner :=
  let '(a, r) := ask_admission now q d r in
  if bool_decide (a = Admitted_) then (true, r) else (false, requeue q (keep_attempt q attempt (note_eligibility a r))).

(** The regions of [begin_stop]: the flag, then the scheduler, the retry line, the attempts and the pending set. *)
Definition stop_flag (r : Runner) : Runner := {|
  ru_scheduler := ru_scheduler r; ru_catalog := ru_catalog r; ru_retries := ru_retries r; ru_attempts := ru_attempts r; ru_pending := ru_pending r;
  ru_lifecycle := ru_lifecycle r; ru_stopped := true; ru_queue_capacity := ru_queue_capacity r; ru_max_retry_attempts := ru_max_retry_attempts r;
  ru_next_eligibility := ru_next_eligibility r; ru_result_blocked := ru_result_blocked r |}.
Definition stop_scheduler (r : Runner) : Runner := with_scheduler (scheduler_stop (ru_scheduler r)) r.
Definition begin_stop (r : Runner) : Runner := with_pending ∅ (with_attempts ∅ (with_retries [] (stop_scheduler (stop_flag r)))).
Definition with_lifecycle (l : Lifecycle) (r : Runner) : Runner := {|
  ru_scheduler := ru_scheduler r; ru_catalog := ru_catalog r; ru_retries := ru_retries r; ru_attempts := ru_attempts r; ru_pending := ru_pending r;
  ru_lifecycle := l; ru_stopped := ru_stopped r; ru_queue_capacity := ru_queue_capacity r; ru_max_retry_attempts := ru_max_retry_attempts r;
  ru_next_eligibility := ru_next_eligibility r; ru_result_blocked := ru_result_blocked r |}.
(** [stop_and_drain] up to its wait for the tasks, and what the last task makes possible. *)
Definition stop_and_drain (r : Runner) : Runner :=
  match ru_lifecycle r with Running => begin_stop (with_lifecycle Draining r) | _ => r end.
Definition drained (r : Runner) : Runner := with_lifecycle Drained r.

(** [dispatch_ready] with nothing else running: [permits] slots of the result channel are free, or
    its receiver is gone. *)
Fixpoint dispatch_loop (now : Duration) (remaining : nat) (closed : bool) (permits : nat) (r : Runner) : list (ProbeRequest * Z) * Runner :=
  match remaining with
  | O => ([], r)
  | S remaining' =>
    if closed then ([], stop_and_drain r)
    else match permits with
    | O => ([], with_wait (ru_next_eligibility r) true r)
    | S permits' =>
      if negb (bool_decide (ru_lifecycle r = Running)) then ([], r)
      else
        let '(t, r) := dispatch_take r in
        match t with
        | NothingQueued => ([], r)
        | Dropped => dispatch_loop now remaining' closed permits r
        | Took q d attempt =>
          let '(spawned, r) := dispatch_admit now q d attempt r in
          if spawned then let '(l, r) := dispatch_loop now remaining' closed permits' r in ((q, attempt) :: l, r)
          else dispatch_loop now remaining' closed permits r
        end
    end
  end.
Definition dispatch_ready (now : Duration) (closed : bool) (permits : nat) (r : Runner) : list (ProbeRequest * Z) * Runner :=
  if ru_stopped r then ([], r)
  else
    let r := with_wait None false (promote_due_retries now r) in
    dispatch_loop now (Z.to_nat (queue_len (ru_scheduler r))) closed permits r.
Definition next_deadline (r : Runner) : option Duration :=
  let retry := iter_min (map rt_due (ru_retries r)) in
  match ru_next_eligibility r, retry with
  | Some a, Some b => Some (Z.min a b)
  | Some d, None | None, Some d => Some d
  | None, None => None
  end.

(** ** Ending *)
(** The reservation is dropped. *)
Definition release (q : ProbeRequest) (r : Runner) : Runner := with_scheduler (finish_probe q (ru_scheduler r)) r.
Definition transient (res : result ProbeOutcome ActiveError) : bool :=
  match res with Ok (TimeoutOf _) | Err Network => true | _ => false end.
(** The regions of [schedule_retry_if_transient]: what it asks for before it takes any lock, what it sees under
    the lock of the lifecycle, the scheduler, and the retry line. [None] is the panic of the jitter. *)
Definition wants_retry (attempt : Z) (res : result ProbeOutcome ActiveError) (r : Runner) : bool :=
  negb (negb (transient res) || (ru_max_retry_attempts r <=? attempt)).
Definition may_retry (r : Runner) : bool := negb (negb (bool_decide (ru_lifecycle r = Running)) || ru_stopped r).
Definition retry_due (now : Duration) (unit_ : Z) (q : ProbeRequest) (attempt : Z) (r : Runner) : option (Duration * Runner) :=
  let '(delay, s) := retry_delay now q attempt (ru_scheduler r) in
  match jitter unit_ delay s with
  | None => None
  | Some j => Some (dur_add (dur_add now delay) j, with_scheduler s r)
  end.
Definition push_retry (due : Duration) (q : ProbeRequest) (attempt : Z) (r : Runner) : bool * Runner :=
  if ru_queue_capacity r <=? blen (ru_retries r) then (false, r)
  else (true, with_retries (ru_retries r ++ [{| rt_due := due; rt_request := q; rt_attempt := Z.min 255 (attempt + 1) |}]) r).
Definition schedule_retry_if_transient (now : Duration) (unit_ : Z) (q : ProbeRequest) (attempt : Z) (res : result ProbeOutcome ActiveError) (r : Runner) : option (bool * Runner) :=
  if negb (wants_retry attempt res r) then Some (false, r)
  else if negb (may_retry r) then Some (false, r)
  else match retry_due now unit_ q attempt r with
       | None => None
       | Some (due, r) => Some (push_retry due q attempt r)
       end.
(** A request that is not retried: its failures are forgotten unless it was cancelled. *)
Definition note_success (q : ProbeRequest) (res : result ProbeOutcome ActiveError) (r : Runner) : Runner :=
  match res with Err Cancelled => r | _ => with_scheduler (record_success q (ru_scheduler r)) r end.
Definition event (q : ProbeRequest) (attempt : Z) (res : result ProbeOutcome ActiveError) (will_retry : bool) : RunnerEvent :=
  {| re_request := q; re_attempt := attempt; re_result := res; re_will_retry := will_retry |}.
(** The end of [execute_admitted], from the drop of the reservation on, with nothing else running. *)
Definition finish_task (now : Duration) (unit_ : Z) (q : ProbeRequest) (attempt : Z) (res : result ProbeOutcome ActiveError) (r : Runner) : option (RunnerEvent * Runner) :=
  option_map (fun '(will_retry, r) => (event q attempt res will_retry, if will_retry then r else forget q (note_success q res r)))
    (schedule_retry_if_transient now unit_ q attempt res (release q r)).

(** ** The probe itself *)
Inductive CredentialSourceError := SourceUnavailable | SourcePermissionDenied | SourceInvalidConfiguration.
Definition into_active (x : CredentialSourceError) : ActiveError :=
  match x with SourceUnavailable => Unavailable | SourcePermissionDenied => PermissionDenied | SourceInvalidConfiguration => InvalidConfig end.
(** The wait for a credential ends with a stop, with its timeout, or with an answer. *)
Inductive CredentialWait (Credential : Type) := WaitStopped | WaitTimedOut | WaitAnswered (a : result (option Credential) CredentialSourceError).
Arguments WaitStopped {_}.
Arguments WaitTimedOut {_}.
Arguments WaitAnswered {_}.
Section Probe.
Context `{Calendar} {Credential W : Type} `{AttemptTransport Credential W}.
Definition run_probe (e : ActiveEngine) (now : DateTime) (wait : CredentialWait Credential) (q : ProbeRequest) (r : Runner) : M W (result ProbeOutcome ActiveError) :=
  if match resolve (ru_catalog r) (rq_probe_id q) with Some d => pd_credential_required d | None => false end then
    match wait with
    | WaitStopped => mret_st (Err Cancelled)
    | WaitTimedOut => mret_st (Err CredentialTimeout)
    | WaitAnswered (Err x) => mret_st (Err (into_active x))
    | WaitAnswered (Ok credential) => execute e now q credential
    end
  else execute e now q None.
End Probe.

(** ** Histories *)
(** Where a dispatch is between two regions, with the lifecycle locked. *)
Inductive Hand :=
  | Popped (q : ProbeRequest)                                           (* out of the queue *)
  | Ready (q : ProbeRequest) (d : ProbeDescriptor) (attempt : Z)         (* about to ask for admission *)
  | Denied (q : ProbeRequest) (attempt : Z) (a : AdmissionDecision)      (* about to note the deadline *)
  | Noted (q : ProbeRequest) (attempt : Z)                              (* about to keep the attempt *)
  | Returning (q : ProbeRequest).                                       (* about to go back to the queue *)
(** Where a task is after its reservation was dropped. The lifecycle is locked in [Checked] and [Timed]. *)
Inductive Phase :=
  | Released                      (* the result is known *)
  | Checked                       (* the runner runs *)
  | Timed (due : Duration)        (* the scheduler has given the time of the retry *)
  | Final                         (* there is no retry *)
  | Recorded                      (* the scheduler knows *)
  | Unsent (will_retry : bool).   (* in the retry line, or no longer pending; the event is next *)
Record Settling := Settle { se_request : ProbeRequest; se_attempt : Z; se_result : result ProbeOutcome ActiveError; se_phase : Phase }.
(** What a stop has done, with the lifecycle locked. *)
Inductive StopPhase := NotStopping | Flagged | SchedulerStopped | RetriesCleared | AttemptsCleared.
#[global] Instance StopPhase_eq_dec : EqDecision StopPhase.
Proof. solve_decision. Defined.

(** Beside the runner: the requests that were claimed and are not queued yet, the dispatch, the tasks that
    execute and those that end, and a stop; and, for the accounts, what was accepted, what the
    tasks decided and what was reported, the latest first. *)
Record World := {
  wo_runner : Runner; wo_entering : list ProbeRequest; wo_hand : option Hand; wo_flight : list (ProbeRequest * Z); wo_settling : list Settling;
  wo_stop : StopPhase; wo_accepted : list ProbeRequest; wo_outcomes : list RunnerEvent; wo_events : list RunnerEvent; wo_time : Duration }.
Definition world_new (r : Runner) (t : Duration) : World := {|
  wo_runner := r; wo_entering := []; wo_hand := None; wo_flight := []; wo_settling := []; wo_stop := NotStopping; wo_accepted := []; wo_outcomes := [];
  wo_events := []; wo_time := t |}.

(** The lock of the lifecycle. *)
Definition holds (x : Settling) : bool := match se_phase x with Checked | Timed _ => true | _ => false end.
Definition holders (H : option Hand) (S : list Settling) (K : StopPhase) : nat :=
  (match H with Some _ => 1 | None => 0 end) + length (List.filter holds S) + (if bool_decide (K = NotStopping) then 0 else 1).

Inductive runner_step : World -> World -> Prop :=
| run_time r E H F S K A O V t t' : t <= t' <= dur_max ->
    runner_step (Build_World r E H F S K A O V t) (Build_World r E H F S K A O V t')
| run_claim q r r' E H F S K A O V t : claim q r = (None, r') ->
    runner_step (Build_World r E H F S K A O V t) (Build_World r' (q :: E) H F S K (q :: A) O V t)
| run_queue q a r r' E1 E2 H F S K A O V t : queue_claimed q r = (a, r') ->
    runner_step (Build_World r (E1 ++ q :: E2) H F S K A O V t) (Build_World r' (E1 ++ E2) H F S K A O V t)
| run_promote r E H F S K A O V t :
    runner_step (Build_World r E H F S K A O V t) (Build_World (promote_due_retries t r) E H F S K A O V t)
| run_wait n b r E H F S K A O V t :
    runner_step (Build_World r E H F S K A O V t) (Build_World (with_wait n b r) E H F S K A O V t)
(** A round of the dispatch. *)
| run_pop o r r' E F S K A O V t : holders None S K = 0%nat -> ru_lifecycle r = Running -> pop_next r = (o, r') ->
    runner_step (Build_World r E None F S K A O V t) (Build_World r' E (option_map Popped o) F S K A O V t)
| run_drop q r E F S K A O V t : resolve (ru_catalog r) (rq_probe_id q) = None ->
    runner_step (Build_World r E (Some (Popped q)) F S K A O V t) (Build_World (forget q r) E None F S K A O V t)
| run_attempt q d a r r' E F S K A O V t : resolve (ru_catalog r) (rq_probe_id q) = Some d -> take_attempt q r = (a, r') ->
    runner_step (Build_World r E (Some (Popped q)) F S K A O V t) (Build_World r' E (Some (Ready q d a)) F S K A O V t)
| run_spawn q d a r r' E F S K A O V t : ask_admission t q d r = (Admitted_, r') ->
    runner_step (Build_World r E (Some (Ready q d a)) F S K A O V t) (Build_World r' E None ((q, a) :: F) S K A O V t)
| run_deny q d a x r r' E F S K A O V t : ask_admission t q d r = (x, r') -> x <> Admitted_ ->
    runner_step (Build_World r E (Some (Ready q d a)) F S K A O V t) (Build_World r' E (Some (Denied q a x)) F S K A O V t)
| run_note q a x r E F S K A O V t :
    runner_step (Build_World r E (Some (Denied q a x)) F S K A O V t) (Build_World (note_eligibility x r) E (Some (Noted q a)) F S K A O V t)
| run_keep q a r E F S K A O V t :
    runner_step (Build_World r E (Some (Noted q a)) F S K A O V t) (Build_World (keep_attempt q a r) E (Some (Returning q)) F S K A O V t)
| run_requeue q r E F S K A O V t :
    runner_step (Build_World r E (Some (Returning q)) F S K A O V t) (Build_World (requeue q r) E None F S K A O V t)
(** The end of a task. *)
| run_release q a res r E H F1 F2 S K A O V t :
    runner_step (Build_World r E H (F1 ++ (q, a) :: F2) S K A O V t) (Build_World (release q r) E H (F1 ++ F2) (Settle q a res Released :: S) K A O V t)
| run_no_retry q a res r E H F S1 S2 K A O V t : wants_retry a res r = false ->
    runner_step (Build_World r E H F (S1 ++ Settle q a res Released :: S2) K A O V t) (Build_World r E H F (S1 ++ Settle q a res Final :: S2) K A O V t)
| run_check q a res r E H F S1 S2 K A O V t : wants_retry a res r = true -> holders H (S1 ++ Settle q a res Released :: S2) K = 0%nat ->
    runner_step (Build_World r E H F (S1 ++ Settle q a res Released :: S2) K A O V t)
                (Build_World r E H F (S1 ++ Settle q a res (if may_retry r then Checked else Final) :: S2) K A O V t)
| run_due q a res u due r r' E H F S1 S2 K A O V t : retry_due t u q a r = Some (due, r') ->
    runner_step (Build_World r E H F (S1 ++ Settle q a res Checked :: S2) K A O V t) (Build_World r' E H F (S1 ++ Settle q a res (Timed due) :: S2) K A O V t)
| run_push q a res due r r' E H F S1 S2 K A O V t : push_retry due q a r = (true, r') ->
    runner_step (Build_World r E H F (S1 ++ Settle q a res (Timed due) :: S2) K A O V t)
                (Build_World r' E H F (S1 ++ Settle q a res (Unsent true) :: S2) K A (event q a res true :: O) V t)
| run_full q a res due r r' E H F S1 S2 K A O V t : push_retry due q a r = (false, r') ->
    runner_step (Build_World r E H F (S1 ++ Settle q a res (Timed due) :: S2) K A O V t) (Build_World r' E H F (S1 ++ Settle q a res Final :: S2) K A O V t)
| run_record q a res r E H F S1 S2 K A O V t :
    runner_step (Build_World r E H F (S1 ++ Settle q a res Final :: S2) K A O V t) (Build_World (note_success q res r) E H F (S1 ++ Settle q a res Recorded :: S2) K A O V t)
| run_forget q a res r E H F S1 S2 K A O V t :
    runner_step (Build_World r E H F (S1 ++ Settle q a res Recorded :: S2) K A O V t)
                (Build_World (forget q r) E H F (S1 ++ Settle q a res (Unsent false) :: S2) K A (event q a res false :: O) V t)
| run_send q a res b r E H F S1 S2 K A O V t :
    runner_step (Build_World r E H F (S1 ++ Settle q a res (Unsent b) :: S2) K A O V t) (Build_World r E H F (S1 ++ S2) K A O (event q a res b :: V) t)
(** A stop. *)
| run_stop r E F S A O V t : holders None S NotStopping = 0%nat -> ru_lifecycle r = Running ->
    runner_step (Build_World r E None F S NotStopping A O V t) (Build_World (stop_flag (with_lifecycle Draining r)) E None F S Flagged A O V t)
| run_stop_scheduler r E H F S A O V t :
    runner_step (Build_World r E H F S Flagged A O V t) (Build_World (stop_scheduler r) E H F S SchedulerStopped A O V t)
| run_stop_retries r E H F S A O V t :
    runner_step (Build_World r E H F S SchedulerStopped A O V t) (Build_World (with_retries [] r) E H F S RetriesCleared A O V t)
| run_stop_attempts r E H F S A O V t :
    runner_step (Build_World r E H F S RetriesCleared A O V t) (Build_World (with_attempts ∅ r) E H F S AttemptsCleared A O V t)
| run_stop_pending r E H F S A O V t :
    runner_step (Build_World r E H F S AttemptsCleared A O V t) (Build_World (with_pending ∅ r) E H F S NotStopping A O V t)
| run_drained r E A O V t : ru_lifecycle r = Draining ->
    runner_step (Build_World r E None [] [] NotStopping A O V t) (Build_World (drained r) E None [] [] NotStopping A O V t).

(** ** Accounting *)
(** Where a request can be, with the attempt it is at. *)
Definition queued_at (attempts : gmap WorkKey Z) (l : list ProbeRequest) : list (ProbeRequest * Z) :=
  map (fun q => (q, default 0 (attempts !! work_key q))) l.
(** The requests of a dispatch whose attempt is, still or again, in the table of attempts, and the others. *)
Definition lined (H : option Hand) : list ProbeRequest := match H with Some (Popped q) | Some (Returning q) => [q] | _ => [] end.
Definition held (H : option Hand) : list (ProbeRequest * Z) :=
  match H with Some (Ready q _ a) | Some (Denied q a _) | Some (Noted q a) => [(q, a)] | _ => [] end.
(** A task that ends has its request until the decision is made, and then an event to send. *)
Definition deciding (x : Settling) : option (ProbeRequest * Z) := match se_phase x with Unsent _ => None | _ => Some (se_request x, se_attempt x) end.
Definition unsent (x : Settling) : option RunnerEvent :=
  match se_phase x with Unsent b => Some (event (se_request x) (se_attempt x) (se_result x) b) | _ => None end.

Definition placed (r : Runner) (retries : list RetryItem) (E : list ProbeRequest) (H : option Hand) (F : list (ProbeRequest * Z)) (S : list Settling) : list (ProbeRequest * Z) :=
  queued_at (ru_attempts r) (contents (sc_queues (ru_scheduler r)) ++ lined H) ++ map (fun q => (q, 0)) E ++ held H ++
  map (fun i => (rt_request i, rt_attempt i)) retries ++ F ++ omap deciding S.
Definition places (w : World) : list (ProbeRequest * Z) :=
  placed (wo_runner w) (ru_retries (wo_runner w)) (wo_entering w) (wo_hand w) (wo_flight w) (wo_settling w).
Definition keys_of (P : list (ProbeRequest * Z)) : list WorkKey := map (fun '(q, _) => work_key q) P.

(** The requests decided for good, and how many retries were decided since the request was accepted. *)
Definition finals (V : list RunnerEvent) : list ProbeRequest := map re_request (List.filter (fun e => negb (re_will_retry e)) V).
Fixpoint retries_of (k : WorkKey) (V : list RunnerEvent) : Z :=
  match V with
  | [] => 0
  | e :: V' => if bool_decide (work_key (re_request e) = k) then if re_will_retry e then 1 + retries_of k V' else 0 else retries_of k V'
  end.

Record Accounts (c : ProbeCatalog) (cap max : Z) (pending : gset WorkKey) (A : list ProbeRequest) (V : list RunnerEvent) (P : list (ProbeRequest * Z)) : Prop := {
  ac_once : NoDup (keys_of P);
  ac_pending : pending = list_to_set (keys_of P);
  ac_cap : Z.of_nat (size pending) <= cap;
  ac_paid : A ≡ₚ finals V ++ map fst P;
  ac_known : Forall (fun '(q, _) => is_Some (resolve c (rq_probe_id q))) P;
  ac_attempt : Forall (fun '(q, a) => a = retries_of (work_key q) V /\ 0 <= a <= max) P;
  ac_fresh : forall k, k ∉ keys_of P -> retries_of k V = 0;
  ac_events : Forall (fun e => 0 <= re_attempt e <= max) V }.

#[global] Instance keys_of_perm_proper : Proper ((≡ₚ) ==> (≡ₚ)) keys_of.
Proof. intros P P' Hp. unfold keys_of. by rewrite Hp. Qed.
Lemma Accounts_perm c cap max pending A V P P' : P ≡ₚ P' -> Accounts c cap max pending A V P -> Accounts c cap max pending A V P'.
Proof.
  intros Hp [H1 H2 H3 H4 H5 H6 H7 H8]. split; try done.
  - by rewrite <- Hp.
  - rewrite H2. apply leibniz_equiv. by rewrite Hp.
  - by rewrite H4, Hp.
  - by rewrite <- Hp.
  - by rewrite <- Hp.
  - intros k. rewrite <- Hp. apply H7.
Qed.

(** A request is accepted. *)
Lemma Accounts_claim c cap max pending A V P q : Accounts c cap max pending A V P -> 0 <= max -> work_key q ∉ pending -> Z.of_nat (size pending) < cap -> is_Some (resolve c (rq_probe_id q)) ->
  Accounts c cap max ({[ work_key q ]} ∪ pending) (q :: A) V ((q, 0) :: P).
Proof.
  intros [H1 H2 H3 H4 H5 H6 H7 H8] Hm Hk Hs Hr. assert (work_key q ∉ keys_of P) as Hn by (intros Hin; apply Hk; rewrite H2; by apply elem_of_list_to_set). split; try done; cbn.
  - by apply NoDup_cons.
  - by rewrite H2.
  - rewrite size_union, size_singleton by set_solver. lia.
  - rewrite H4. by rewrite Permutation_middle.
  - by apply Forall_cons.
  - apply Forall_cons. split; [|done]. rewrite (H7 _ Hn). lia.
  - intros k [_ Hk']%not_elem_of_cons. by apply H7.
Qed.
Lemma retries_of_other k q a res b V : k <> work_key q -> retries_of k ({| re_request := q; re_attempt := a; re_result := res; re_will_retry := b |} :: V) = retries_of k V.
Proof. intros Hne. cbn. by rewrite bool_decide_false by done. Qed.
Lemma retries_of_same q a res (b : bool) V : retries_of (work_key q) ({| re_request := q; re_attempt := a; re_result := res; re_will_retry := b |} :: V) = if b then 1 + retries_of (work_key q) V else 0.
Proof. cbn. by rewrite bool_decide_true by done. Qed.

Lemma Accounts_rest c cap max pending A V q a P ev : Accounts c cap max pending A V ((q, a) :: P) -> re_request ev = q -> re_attempt ev = a ->
  Forall (fun '(q, a) => a = retries_of (work_key q) (ev :: V) /\ 0 <= a <= max) P /\ Forall (fun e => 0 <= re_attempt e <= max) (ev :: V) /\
  (forall k, k <> work_key q -> retries_of k (ev :: V) = retries_of k V) /\ (work_key q ∉ keys_of P) /\ retries_of (work_key q) V = a.
Proof.
  intros [H1 H2 H3 H4 H5 H6 H7 H8] <- <-. cbn in H1. apply NoDup_cons in H1 as [Hn H1]. apply Forall_cons in H6 as [[Ha Hb] H6].
  assert (forall k, k <> work_key (re_request ev) -> retries_of k (ev :: V) = retries_of k V) as Hother by (intros k Hk; destruct ev; by apply retries_of_other).
  split_and!; [|by apply Forall_cons|done|done|done]. rewrite Forall_forall in *. intros [q' a'] Hin. rewrite Hother; [by apply (H6 (q', a'))|]. intros E. apply Hn. rewrite <- E. unfold keys_of. apply list_elem_of_fmap. by exists (q', a').
Qed.

(** A retry of a request is decided. *)
Lemma Accounts_retry c cap max pending A V q a P res : Accounts c cap max pending A V ((q, a) :: P) -> a < max ->
  Accounts c cap max pending A ({| re_request := q; re_attempt := a; re_result := res; re_will_retry := true |} :: V) ((q, a + 1) :: P).
Proof.
  intros Hac Hm. destruct (Accounts_rest _ _ _ _ _ _ q a _ {| re_request := q; re_attempt := a; re_result := res; re_will_retry := true |} Hac eq_refl eq_refl) as (R1 & R2 & R3 & R4 & R5). destruct Hac as [H1 H2 H3 H4 H5 H6 H7 H8]. split; try done.
  - apply Forall_cons in H5. by apply Forall_cons.
  - apply Forall_cons in H6 as [[_ ?] _]. apply Forall_cons. split; [|exact R1]. rewrite retries_of_same. lia.
  - intros k Hk. rewrite R3; [by apply H7|]. cbn in Hk. intros ->. apply Hk. by left.
Qed.
(** A request is decided for good. *)
Lemma Accounts_final c cap max pending A V q a P res : Accounts c cap max pending A V ((q, a) :: P) ->
  Accounts c cap max (pending ∖ {[ work_key q ]}) A ({| re_request := q; re_attempt := a; re_result := res; re_will_retry := false |} :: V) P.
Proof.
  intros Hac. destruct (Accounts_rest _ _ _ _ _ _ q a _ {| re_request := q; re_attempt := a; re_result := res; re_will_retry := false |} Hac eq_refl eq_refl) as (R1 & R2 & R3 & R4 & R5). destruct Hac as [H1 H2 H3 H4 H5 H6 H7 H8]. cbn in H1, H2, H4. apply NoDup_cons in H1 as [_ H1]. apply Forall_cons in H5 as [_ H5].
  assert (pending ∖ {[ work_key q ]} = list_to_set (keys_of P)) as E.
  { rewrite H2. assert (work_key q ∉ (list_to_set (keys_of P) : gset WorkKey)) by (by rewrite elem_of_list_to_set). apply set_eq. intros k. rewrite elem_of_difference, elem_of_union, !elem_of_singleton. naive_solver. }
  split; try done.
  - assert (size (pending ∖ {[ work_key q ]}) <= size pending)%nat by (apply subseteq_size; set_solver). lia.
  - rewrite H4. cbn. by rewrite <- Permutation_middle.
  - intros k Hk. destruct (decide (k = work_key q)) as [->|Hne]; [apply retries_of_same|]. rewrite R3 by done. apply H7. cbn. by apply not_elem_of_cons.
Qed.

(** ** The invariant *)
Lemma keys_queued_at m l : keys_of (queued_at m l) = map work_key l.
Proof. unfold keys_of, queued_at. by rewrite map_map. Qed.
Lemma queued_at_ext m m' l : (forall q, q ∈ l -> m !! work_key q = m' !! work_key q) -> queued_at m l = queued_at m' l.
Proof. intros Hm. apply map_ext_in. intros q Hq. by rewrite (Hm q) by (by apply list_elem_of_In). Qed.
Lemma key_elem q l : q ∈ l -> work_key q ∈ map work_key l.
Proof. intros Hq. apply list_elem_of_fmap. by exists q. Qed.
Lemma queued_at_enter m m' q a l l' : l' ≡ₚ q :: l -> work_key q ∉ map work_key l -> (m' = <[work_key q := a]> m \/ m' = m /\ a = 0 /\ m !! work_key q = None) ->
  queued_at m' l' ≡ₚ (q, a) :: queued_at m l.
Proof.
  intros Hl Hn Hm. unfold queued_at at 1. rewrite Hl. cbn. fold (queued_at m' l). destruct Hm as [->|(-> & -> & E)]; [|by rewrite E].
  rewrite lookup_insert_eq. cbn. rewrite (queued_at_ext _ m); [done|]. intros q' Hq'. apply lookup_insert_ne. intros E. apply Hn. rewrite E. by apply key_elem.
Qed.
Lemma queued_at_leave m q l l' : l ≡ₚ q :: l' -> NoDup (map work_key l) -> queued_at m l ≡ₚ (q, default 0 (m !! work_key q)) :: queued_at (delete (work_key q) m) l'.
Proof.
  intros Hl Hn. unfold queued_at at 1. rewrite Hl. cbn. fold (queued_at m l'). rewrite (queued_at_ext (delete _ _) m); [done|]. intros q' Hq'. apply lookup_delete_ne. intros E.
  rewrite Hl in Hn. cbn in Hn. apply NoDup_cons in Hn as [Hn _]. apply Hn. rewrite E. by apply key_elem.
Qed.

(** A request outside the queue can always enter it. *)
Lemma room c cap max pending A V q a m l rest P : Accounts c cap max pending A V P -> P ≡ₚ (q, a) :: queued_at m l ++ rest -> blen l < cap /\ (work_key q ∉ map work_key l) /\ NoDup (map work_key l).
Proof.
  intros [H1 H2 H3 _ _ _ _ _] Hp. rewrite H2 in H3. rewrite size_list_to_set in H3 by done. rewrite Hp in H1, H3. cbn in H1, H3. unfold keys_of in H1, H3. rewrite map_app in H1, H3.
  fold (keys_of (queued_at m l)) in H1, H3. rewrite keys_queued_at in H1, H3. rewrite length_app, !length_map in H3. apply NoDup_cons in H1 as [Hn H1]. apply NoDup_app in H1 as [H1 _]. unfold blen. split_and!; [lia|intros Hin; apply Hn, elem_of_app; by left|done].
Qed.
Lemma enqueue_success s q : QueueOk s -> blen (contents (sc_queues s)) < cf_queue_capacity (sc_config s) -> work_key q ∉ map work_key (contents (sc_queues s)) ->
  fst (enqueue q s) = Ok true /\ contents (sc_queues (snd (enqueue q s))) ≡ₚ q :: contents (sc_queues s).
Proof.
  intros Hok Hl Hn. pose proof (enqueue_spec q s Hok) as He. destruct (enqueue q s) as [[[]|x] s']; cbn; destruct He as [_ He]; [by destruct He|exfalso..].
  - destruct He as [_ Hin]. apply Hn. apply in_map_iff in Hin as (q' & Eq & Hin). apply list_elem_of_fmap. exists q'. split; [unfold queue_key, work_key in *; congruence|by apply list_elem_of_In].
  - destruct He as (_ & _ & E). rewrite (queue_len_contents s (qo_inv _ Hok)) in E. lia.
Qed.
Lemma enqueue_stopped s q : sc_stopped (snd (enqueue q s)) = sc_stopped s /\ sc_config (snd (enqueue q s)) = sc_config s.
Proof. unfold enqueue. by repeat case_match. Qed.

(** What the decision of a task was, and what the phases say of it. *)
Definition retried (max : Z) (res : result ProbeOutcome ActiveError) (a : Z) : bool := transient res && (a <? max).
Definition phase_ok (max : Z) (x : Settling) : Prop :=
  match se_phase x with
  | Released => True
  | Checked | Timed _ | Unsent true => retried max (se_result x) (se_attempt x) = true
  | Final | Recorded | Unsent false => retried max (se_result x) (se_attempt x) = false
  end.
Record Work (c : SchedulerConfig) (w : World) : Prop := {
  wk_accounts : Accounts (ru_catalog (wo_runner w)) (cf_queue_capacity c) (cf_max_retry_attempts c) (ru_pending (wo_runner w)) (wo_accepted w) (wo_outcomes w) (places w);
  wk_attempts : forall k, is_Some (ru_attempts (wo_runner w) !! k) -> k ∈ map work_key (contents (sc_queues (ru_scheduler (wo_runner w))) ++ lined (wo_hand w));
  wk_verdicts : Forall (fun e => re_will_retry e = retried (cf_max_retry_attempts c) (re_result e) (re_attempt e)) (wo_outcomes w);
  wk_phases : Forall (phase_ok (cf_max_retry_attempts c)) (wo_settling w) }.

Record RunnerInv (c : SchedulerConfig) (w : World) : Prop := {
  rv_sched : SchedInv c (ru_scheduler (wo_runner w)) (map fst (wo_flight w)) (wo_time w);
  rv_caps : ru_queue_capacity (wo_runner w) = cf_queue_capacity c /\ ru_max_retry_attempts (wo_runner w) = cf_max_retry_attempts c;
  rv_stop : (sc_stopped (ru_scheduler (wo_runner w)) = true -> ru_stopped (wo_runner w) = true) /\ (ru_stopped (wo_runner w) = false <-> ru_lifecycle (wo_runner w) = Running);
  rv_work : ru_stopped (wo_runner w) = false -> Work c w;
  rv_sent : wo_outcomes w ≡ₚ wo_events w ++ omap unsent (wo_settling w) }.

(** What no operation but a stop changes. *)
Definition frame (r : Runner) := (ru_catalog r, ru_lifecycle r, ru_stopped r, ru_queue_capacity r, ru_max_retry_attempts r, sc_stopped (ru_scheduler r)).

Section Invariant.
Context (c : SchedulerConfig) (Hac : accepted c) (Hmax : 1 <= cf_max_retry_attempts c <= 16).

Lemma admission_keeps t q cost s : sc_queues (snd (admission_decision t q cost s)) = sc_queues s /\ sc_stopped (snd (admission_decision t q cost s)) = sc_stopped s.
Proof. unfold admission_decision. by repeat case_match. Qed.
Lemma next_keeps s : sc_stopped (snd (next_request s)) = sc_stopped s.
Proof. unfold next_request. case_match eqn:E; [done|]. by destruct (pop_request _). Qed.
Lemma retry_keeps t q a s : sc_queues (snd (retry_delay t q a s)) = sc_queues s /\ sc_stopped (snd (retry_delay t q a s)) = sc_stopped s.
Proof. unfold retry_delay. by case_match. Qed.

(** An operation keeps the invariant if it keeps the frame, the scheduler, the work of a running runner and the reports. *)
Lemma frame_inv r r' E E' H H' F F' S S' K K' A A' O O' V V' t t' :
  RunnerInv c (Build_World r E H F S K A O V t) -> frame r' = frame r -> SchedInv c (ru_scheduler r') (map fst F') t' ->
  (ru_stopped r = false -> QueueOk (ru_scheduler r) -> Work c (Build_World r E H F S K A O V t) -> Work c (Build_World r' E' H' F' S' K' A' O' V' t')) ->
  (O ≡ₚ V ++ omap unsent S -> O' ≡ₚ V' ++ omap unsent S') -> RunnerInv c (Build_World r' E' H' F' S' K' A' O' V' t').
Proof.
  intros [H1 H2 [H3 H3'] H4 H5] [= E1 E2 E3 E4 E5 E6] Hs Hw Hv. cbn in *. split; cbn; [done|by rewrite E4, E5|by rewrite E2, E3, E6| |by apply Hv].
  rewrite E3. intros Hst. apply Hw; [done| |by apply H4]. split; [by apply H1| |rewrite (si_config _ _ _ _ H1); apply H1]. destruct (sc_stopped (ru_scheduler r)); [|done]. by rewrite H3 in Hst.
Qed.
(** The places are the same, elsewhere. *)
Lemma work_perm r r' E E' H H' F F' S S' K K' A O V V' t t' : Work c (Build_World r E H F S K A O V t) -> frame r' = frame r -> ru_pending r' = ru_pending r ->
  places (Build_World r' E' H' F' S' K' A O V' t') ≡ₚ places (Build_World r E H F S K A O V t) ->
  (forall k, is_Some (ru_attempts r' !! k) -> k ∈ map work_key (contents (sc_queues (ru_scheduler r')) ++ lined H')) ->
  (Forall (phase_ok (cf_max_retry_attempts c)) S -> Forall (phase_ok (cf_max_retry_attempts c)) S') -> Work c (Build_World r' E' H' F' S' K' A O V' t').
Proof.
  intros [W1 W2 W3 W4] [= E1 E2 E3 E4 E5 E6] Ep Hp Ha Hf. cbn in *. split; cbn; [|done|done|by apply Hf]. rewrite E1, Ep. eapply Accounts_perm; [|exact W1]. by symmetry.
Qed.

(** Entering the queue from another place: what it does to the places. *)
Lemma enter_queue r q a rest X A O m' : let s := ru_scheduler r in
  QueueOk s -> sc_config s = c -> (forall k, is_Some (ru_attempts r !! k) -> k ∈ map work_key (contents (sc_queues s) ++ X)) ->
  Accounts (ru_catalog r) (cf_queue_capacity c) (cf_max_retry_attempts c) (ru_pending r) A O ((q, a) :: queued_at (ru_attempts r) (contents (sc_queues s) ++ X) ++ rest) ->
  m' = <[work_key q := a]> (ru_attempts r) \/ m' = ru_attempts r /\ a = 0 ->
  fst (enqueue q s) = Ok true /\
  queued_at m' (contents (sc_queues (snd (enqueue q s))) ++ X) ++ rest ≡ₚ (q, a) :: queued_at (ru_attempts r) (contents (sc_queues s) ++ X) ++ rest /\
  (forall k, is_Some (m' !! k) -> k ∈ map work_key (contents (sc_queues (snd (enqueue q s))) ++ X)).
Proof.
  intros s Hok Ec Hd Ha Hm. destruct (room _ _ _ _ _ _ q a _ _ rest _ Ha ltac:(done)) as (Hl & Hn & _).
  assert (work_key q ∉ map work_key (contents (sc_queues s))) as Hn' by (intros Hin; apply Hn; rewrite map_app; apply elem_of_app; by left).
  destruct (enqueue_success s q Hok) as [E Hp]; [rewrite Ec; unfold blen in *; rewrite length_app in Hl; lia|done|].
  assert (contents (sc_queues (snd (enqueue q s))) ++ X ≡ₚ q :: contents (sc_queues s) ++ X) as Hp' by (by rewrite Hp).
  assert (ru_attempts r !! work_key q = None) as Hnone by (apply eq_None_not_Some; intros Hx; by apply Hn, Hd). split_and!; [done| |].
  - rewrite (queued_at_enter (ru_attempts r) m' q a _ _ Hp' Hn); [done|]. destruct Hm as [->|[-> ->]]; tauto.
  - intros k Hk. rewrite Hp'. cbn. destruct (decide (k = work_key q)) as [->|Hne]; [by left|right]. apply Hd. destruct Hm as [->|[-> _]]; [by rewrite lookup_insert_ne in Hk|done].
Qed.

(** *** Entering *)
Lemma claim_step q r r' E H F S K A O V t : claim q r = (None, r') -> RunnerInv c (Build_World r E H F S K A O V t) -> RunnerInv c (Build_World r' (q :: E) H F S K (q :: A) O V t).
Proof.
  unfold claim. destruct (resolve _ _) as [d|] eqn:Er; [|done]. case_bool_decide as Hk; [done|]. destruct (Z.leb_spec (ru_queue_capacity r) (Z.of_nat (size (ru_pending r)))) as [|Hs]; [done|]. intros [= <-] Hi.
  pose proof (rv_caps _ _ Hi) as [Hcap _]. cbn in Hcap. eapply frame_inv; [exact Hi|done|apply Hi| |done]. intros _ _ [W1 W2 W3 W4]. split; [|done|done|done].
  eapply Accounts_perm; [|apply Accounts_claim; [exact W1|lia|done|cbn; lia|cbn; by rewrite Er]]. unfold places, placed. cbn. solve_Permutation.
Qed.

Lemma queue_frame q r a r' : queue_claimed q r = (a, r') -> frame r' = frame r.
Proof. unfold queue_claimed, frame. pose proof (enqueue_stopped (ru_scheduler r) q) as [Es _]. destruct (enqueue _ _) as [[|] s]; cbn in *; intros [= <- <-]; cbn; by rewrite Es. Qed.
Lemma queue_step q a r r' E1 E2 H F S K A O V t : queue_claimed q r = (a, r') -> RunnerInv c (Build_World r (E1 ++ q :: E2) H F S K A O V t) -> RunnerInv c (Build_World r' (E1 ++ E2) H F S K A O V t).
Proof.
  intros Hq Hi. eapply frame_inv; [exact Hi|by eapply queue_frame| | |done].
  - pose proof (enqueue_inv c _ _ _ q (rv_sched _ _ Hi)) as Hinv. unfold queue_claimed in Hq. cbn in Hinv. destruct (enqueue q (ru_scheduler r)) as [[b|x] s']; by injection Hq as <- <-.
  - intros _ Hok Hw. pose proof Hw as [W1 W2 _ _]. cbn in W1, W2.
    set (rest := map (fun q => (q, 0)) (E1 ++ E2) ++ held H ++ map (fun i => (rt_request i, rt_attempt i)) (ru_retries r) ++ F ++ omap deciding S).
    destruct (enter_queue r q 0 rest (lined H) A O (ru_attempts r)) as (Eok & Hp & Hd'); [done|apply Hi|done| |by right|].
    { eapply Accounts_perm; [|exact W1]. unfold places, placed, rest. cbn. rewrite !map_app. cbn. solve_Permutation. }
    pose proof (queue_frame _ _ _ _ Hq) as Hf. unfold queue_claimed in Hq. destruct (enqueue q (ru_scheduler r)) as [[b|x] s']; cbn in *; [|done]. injection Hq as <- <-.
    eapply work_perm; [exact Hw|exact Hf|done| |done|done]. unfold places, placed, rest in *. cbn. rewrite Hp, !map_app. cbn. solve_Permutation.
Qed.

Lemma promote_item i items r kept E H F S K A O V t : RunnerInv c (Build_World (with_retries (kept ++ i :: items) r) E H F S K A O V t) ->
  let '(a, s) := enqueue (rt_request i) (ru_scheduler r) in
  RunnerInv c (Build_World (if is_ok a then with_retries (kept ++ items) (with_attempts (<[work_key (rt_request i) := rt_attempt i]> (ru_attempts r)) (with_scheduler s r))
                      else with_retries (kept ++ i :: items) (with_scheduler s r)) E H F S K A O V t).
Proof.
  intros Hi. set (q := rt_request i). pose proof (enqueue_inv c _ _ _ q (rv_sched _ _ Hi)) as Hinv. cbn in Hinv. destruct (enqueue_stopped (ru_scheduler r) q) as [Es _].
  destruct (enqueue q (ru_scheduler r)) as [a s] eqn:Een. cbn in Hinv, Es. eapply frame_inv; [exact Hi|by destruct (is_ok a); unfold frame; cbn; rewrite Es|by destruct (is_ok a)| |done].
  intros _ Hok Hw. pose proof Hw as [W1 W2 _ _]. cbn in W1, W2, Hok.
  set (rest := map (fun q => (q, 0)) E ++ held H ++ map (fun i => (rt_request i, rt_attempt i)) (kept ++ items) ++ F ++ omap deciding S).
  destruct (enter_queue r q (rt_attempt i) rest (lined H) A O (<[work_key q := rt_attempt i]> (ru_attempts r))) as (Eok & Hp & Hd'); [done|apply (rv_sched _ _ Hi)|done| |by left|].
  { eapply Accounts_perm; [|exact W1]. unfold places, placed, rest. cbn. rewrite !map_app. cbn. fold q. solve_Permutation. }
  rewrite Een in *. cbn in *. subst a. cbn. eapply work_perm; [exact Hw|by unfold frame; cbn; rewrite Es|done| |done|done].
  unfold places, placed, rest in *. cbn. rewrite Hp, !map_app. cbn. fold q. solve_Permutation.
Qed.
Lemma promote_loop_step now items : forall r kept E H F S K A O V t, RunnerInv c (Build_World (with_retries (kept ++ items) r) E H F S K A O V t) ->
  let '(rem, r') := promote_loop now items r in RunnerInv c (Build_World (with_retries (kept ++ rem) r') E H F S K A O V t).
Proof.
  induction items as [|i items IH]; intros r kept E H F S K A O V t Hi; cbn [promote_loop]; [done|]. pose proof (promote_item i items r kept E H F S K A O V t Hi) as Hs.
  assert (forall s, RunnerInv c (Build_World (with_retries (kept ++ i :: items) (with_scheduler s r)) E H F S K A O V t) ->
    let '(rem, r') := (let '(remaining, r') := promote_loop now items (with_scheduler s r) in (i :: remaining, r')) in RunnerInv c (Build_World (with_retries (kept ++ rem) r') E H F S K A O V t)) as Hkeep.
  { intros s Hs'. specialize (IH (with_scheduler s r) (kept ++ [i]) E H F S K A O V t). rewrite <- app_assoc in IH. specialize (IH Hs'). destruct (promote_loop now items _) as [rem r']. rewrite <- app_assoc in IH. exact IH. }
  destruct (rt_due i <=? now); [|cbn [is_ok]; apply Hkeep; by destruct r]. destruct (enqueue (rt_request i) (ru_scheduler r)) as [a s]. destruct (is_ok a); [by apply IH|by apply Hkeep].
Qed.
Lemma promote_step r E H F S K A O V t : RunnerInv c (Build_World r E H F S K A O V t) -> RunnerInv c (Build_World (promote_due_retries t r) E H F S K A O V t).
Proof.
  intros Hi. unfold promote_due_retries. pose proof (promote_loop_step t (ru_retries r) r [] E H F S K A O V t) as Hs. cbn [app] in Hs. destruct (promote_loop t _ r) as [rem r']. apply Hs. by destruct r.
Qed.


(** *** Dispatching *)
Lemma time_step r E H F S K A O V t t' : t <= t' <= dur_max -> RunnerInv c (Build_World r E H F S K A O V t) -> RunnerInv c (Build_World r E H F S K A O V t').
Proof.
  intros Ht Hi. eapply frame_inv; [exact Hi|done|by eapply time_inv; [apply Hi|]| |done]. intros _ _ Hw. by eapply work_perm; [exact Hw|..|apply Hw|].
Qed.
Lemma wait_step n b r E H F S K A O V t : RunnerInv c (Build_World r E H F S K A O V t) -> RunnerInv c (Build_World (with_wait n b r) E H F S K A O V t).
Proof. intros Hi. eapply frame_inv; [exact Hi|done|apply Hi| |done]. intros _ _ Hw. by eapply work_perm; [exact Hw|..|apply Hw|]. Qed.

Lemma pop_frame r o r' : pop_next r = (o, r') -> frame r' = frame r.
Proof. unfold pop_next, frame. pose proof (next_keeps (ru_scheduler r)) as Es. destruct (next_request _) as [o' s]. cbn in Es. intros [= <- <-]. cbn. by rewrite Es. Qed.
Lemma pop_step o r r' E F S K K' A O V t : pop_next r = (o, r') -> RunnerInv c (Build_World r E None F S K A O V t) -> RunnerInv c (Build_World r' E (option_map Popped o) F S K' A O V t).
Proof.
  intros Hp Hi. pose proof (pop_frame _ _ _ Hp) as Hf. unfold pop_next in Hp. pose proof (next_inv c _ _ _ (rv_sched _ _ Hi)) as Hinv. cbn in Hinv.
  eapply frame_inv; [exact Hi|exact Hf|by destruct (next_request _); injection Hp as <- <-| |done]. intros _ Hok Hw. pose proof (wk_attempts _ _ Hw) as W2. cbn in W2.
  pose proof (next_request_spec _ Hok) as Hn. destruct (next_request (ru_scheduler r)) as [o' s]. injection Hp as <- <-. destruct Hn as [_ Hn]. cbn in Hn.
  destruct o' as [q|]; cbn in *.
  - assert (contents (sc_queues s) ++ [q] ≡ₚ contents (sc_queues (ru_scheduler r)) ++ []) as Hq by (rewrite (proj1 Hn); solve_Permutation).
    eapply work_perm; [exact Hw|exact Hf|done| |cbn; intros k Hk; rewrite Hq; by apply W2|done]. unfold places, placed. cbn. unfold queued_at. by rewrite Hq.
  - destruct Hn as [E1 E2]. eapply work_perm; [exact Hw|exact Hf|done| |cbn; intros k Hk; rewrite E2; rewrite E1 in W2; by apply W2|done]. unfold places, placed. cbn. by rewrite E1, E2.
Qed.
(** Whatever is somewhere is known. *)
Lemma popped_known r E q F S K A O V t : RunnerInv c (Build_World r E (Some (Popped q)) F S K A O V t) -> ru_stopped r = false -> is_Some (resolve (ru_catalog r) (rq_probe_id q)).
Proof.
  intros Hi Hs. destruct (rv_work _ _ Hi Hs) as [[_ _ _ _ Hk _ _ _] _ _ _]. unfold places, placed in Hk. cbn in Hk. apply Forall_app in Hk as [Hk _]. rewrite Forall_forall in Hk.
  apply (Hk (q, default 0 (ru_attempts r !! work_key q))). apply list_elem_of_fmap. exists q. split; [done|]. apply elem_of_app. right. by left.
Qed.
Lemma attempt_step q d a r r' E F S K A O V t : take_attempt q r = (a, r') -> RunnerInv c (Build_World r E (Some (Popped q)) F S K A O V t) -> RunnerInv c (Build_World r' E (Some (Ready q d a)) F S K A O V t).
Proof.
  intros [= <- <-] Hi. eapply frame_inv; [exact Hi|done|apply Hi| |done]. intros _ _ Hw. pose proof Hw as [W1 W2 _ _]. cbn in W2.
  assert (contents (sc_queues (ru_scheduler r)) ++ [q] ≡ₚ q :: contents (sc_queues (ru_scheduler r))) as Hq by solve_Permutation.
  assert (NoDup (map work_key (contents (sc_queues (ru_scheduler r)) ++ [q]))) as Hnd.
  { pose proof (ac_once _ _ _ _ _ _ _ W1) as Hn. unfold places, placed, keys_of in Hn. cbn in Hn. rewrite map_app in Hn. apply NoDup_app in Hn as [Hn _]. fold (keys_of (queued_at (ru_attempts r) (contents (sc_queues (ru_scheduler r)) ++ [q]))) in Hn. by rewrite keys_queued_at in Hn. }
  eapply work_perm; [exact Hw|done|done| | |done].
  - unfold places, placed. cbn. rewrite (queued_at_leave _ _ _ _ Hq Hnd), app_nil_r. solve_Permutation.
  - cbn. intros k Hk. rewrite lookup_delete_is_Some in Hk. destruct Hk as [Hne Hk]. apply W2 in Hk. rewrite Hq in Hk. cbn in Hk. rewrite app_nil_r. by apply elem_of_cons in Hk as [->|?].
Qed.
Lemma admission_frame t q d r a r' : ask_admission t q d r = (a, r') -> frame r' = frame r /\ sc_queues (ru_scheduler r') = sc_queues (ru_scheduler r) /\
  ru_attempts r' = ru_attempts r /\ ru_pending r' = ru_pending r /\ ru_retries r' = ru_retries r.
Proof.
  unfold ask_admission, frame. destruct (admission_keeps t q (pd_rate_cost d) (ru_scheduler r)) as [Eq Es]. destruct (admission_decision _ _ _ _) as [a' s]. cbn in *. intros [= <- <-]. cbn. by rewrite Es.
Qed.
Lemma spawn_step q d a r r' E F S K A O V t : 0 <= pd_rate_cost d -> ask_admission t q d r = (Admitted_, r') -> RunnerInv c (Build_World r E (Some (Ready q d a)) F S K A O V t) -> RunnerInv c (Build_World r' E None ((q, a) :: F) S K A O V t).
Proof.
  intros Hcost Ha Hi. destruct (admission_frame _ _ _ _ _ _ Ha) as (Hf & Eq & Em & Ep & Er). unfold ask_admission in Ha. destruct (admission_decision _ _ _ _) as [a' s] eqn:Ead. injection Ha as -> <-.
  eapply frame_inv; [exact Hi|exact Hf|cbn; by eapply grant_inv; [done|apply Hi|..]| |done]. intros _ _ Hw. pose proof (wk_attempts _ _ Hw) as W2. cbn in *.
  eapply work_perm; [exact Hw|exact Hf|done| |cbn; by rewrite Eq|done]. unfold places, placed. cbn. rewrite Eq. solve_Permutation.
Qed.
Lemma deny_step q d a x r r' E F S K A O V t : ask_admission t q d r = (x, r') -> x <> Admitted_ -> RunnerInv c (Build_World r E (Some (Ready q d a)) F S K A O V t) -> RunnerInv c (Build_World r' E (Some (Denied q a x)) F S K A O V t).
Proof.
  intros Ha Hx Hi. destruct (admission_frame _ _ _ _ _ _ Ha) as (Hf & Eq & Em & Ep & Er). unfold ask_admission in Ha. destruct (admission_decision _ _ _ _) as [a' s] eqn:Ead. injection Ha as -> <-.
  eapply frame_inv; [exact Hi|exact Hf|cbn; by eapply refuse_inv; [done|apply Hi|..]| |done]. intros _ _ Hw. pose proof (wk_attempts _ _ Hw) as W2. cbn in *.
  eapply work_perm; [exact Hw|exact Hf|done| |cbn; by rewrite Eq|done]. unfold places, placed. cbn. by rewrite Eq.
Qed.
Lemma note_step q a x r E F S K A O V t : RunnerInv c (Build_World r E (Some (Denied q a x)) F S K A O V t) -> RunnerInv c (Build_World (note_eligibility x r) E (Some (Noted q a)) F S K A O V t).
Proof.
  intros Hi. eapply frame_inv; [exact Hi|by destruct x|destruct x; apply Hi| |done]. intros _ _ Hw. pose proof (wk_attempts _ _ Hw) as W2. eapply work_perm; [exact Hw|by destruct x|by destruct x|by destruct x|by destruct x|done].
Qed.
(** A request in hand is not in the queue, and what it brings is the number of its retries. *)
Lemma in_hand r E H F S K A O V t q a : Work c (Build_World r E H F S K A O V t) -> held H = [(q, a)] -> (work_key q ∉ map work_key (contents (sc_queues (ru_scheduler r)) ++ lined H)) /\ 0 <= a.
Proof.
  intros [W1 _ _ _] Hh. cbn in W1. pose proof (ac_attempt _ _ _ _ _ _ _ W1) as Ha. unfold places, placed in Ha. cbn in Ha. rewrite !Forall_app, Hh, Forall_cons in Ha. split; [|tauto].
  eapply (room _ _ _ _ _ _ q a (ru_attempts r) _ (map (fun q => (q, 0)) E ++ map (fun i => (rt_request i, rt_attempt i)) (ru_retries r) ++ F ++ omap deciding S)); [exact W1|].
  unfold places, placed. cbn. rewrite Hh. solve_Permutation.
Qed.
Lemma keep_step q a r E F S K A O V t : RunnerInv c (Build_World r E (Some (Noted q a)) F S K A O V t) -> RunnerInv c (Build_World (keep_attempt q a r) E (Some (Returning q)) F S K A O V t).
Proof.
  intros Hi. unfold keep_attempt. eapply frame_inv; [exact Hi|by destruct (0 <? a)|by destruct (0 <? a); apply (rv_sched _ _ Hi)| |done]. intros _ _ Hw. pose proof (wk_attempts _ _ Hw) as W2. cbn in W2. destruct (in_hand _ _ _ _ _ _ _ _ _ _ q a Hw eq_refl) as [Hn Ha]. cbn in Hn.
  assert (ru_attempts r !! work_key q = None) as Hnone by (apply eq_None_not_Some; intros Hx; by apply Hn, W2).
  set (m' := ru_attempts (if 0 <? a then with_attempts (<[work_key q := a]> (ru_attempts r)) r else r)).
  assert (m' = <[work_key q := a]> (ru_attempts r) \/ m' = ru_attempts r /\ a = 0 /\ ru_attempts r !! work_key q = None) as Hm by (subst m'; destruct (Z.ltb_spec 0 a); [by left|right; split_and!; [done|lia|done]]).
  assert (contents (sc_queues (ru_scheduler r)) ++ [q] ≡ₚ q :: contents (sc_queues (ru_scheduler r)) ++ []) as Hq by (rewrite app_nil_r; solve_Permutation).
  eapply work_perm; [exact Hw|by destruct (0 <? a)|by destruct (0 <? a)| | |done].
  - pose proof (queued_at_enter _ _ _ _ _ _ Hq Hn Hm) as He. unfold m' in He. unfold places, placed. cbn. destruct (0 <? a); cbn in *; rewrite He; solve_Permutation.
  - intros k Hk. fold m' in Hk. assert (k ∈ map work_key (q :: contents (sc_queues (ru_scheduler r)) ++ [])) as Hin.
    { cbn. destruct (decide (k = work_key q)) as [->|Hne]; [by left|right]. apply W2. destruct Hm as [Hm|[Hm _]]; rewrite Hm in Hk; [by rewrite lookup_insert_ne in Hk|done]. }
    rewrite <- Hq in Hin. by destruct (0 <? a).
Qed.
Lemma requeue_step q r E F S K A O V t : RunnerInv c (Build_World r E (Some (Returning q)) F S K A O V t) -> RunnerInv c (Build_World (requeue q r) E None F S K A O V t).
Proof.
  intros Hi. pose proof (enqueue_stopped (ru_scheduler r) q) as [Es _]. assert (frame (requeue q r) = frame r) as Hf by (unfold frame; cbn; by rewrite Es). eapply frame_inv; [exact Hi|exact Hf|apply enqueue_inv, Hi| |done].
  intros _ Hok Hw. pose proof Hw as [W1 W2 _ _]. cbn in W1, W2. set (l := contents (sc_queues (ru_scheduler r))) in *.
  assert (blen l < cf_queue_capacity (sc_config (ru_scheduler r)) /\ (work_key q ∉ map work_key l)) as [Hl Hn].
  { pose proof (si_config _ _ _ _ (rv_sched _ _ Hi)) as Ec. cbn in Ec. rewrite Ec. destruct (room _ _ _ _ _ _ q (default 0 (ru_attempts r !! work_key q)) (ru_attempts r) l
      (map (fun q => (q, 0)) E ++ map (fun i => (rt_request i, rt_attempt i)) (ru_retries r) ++ F ++ omap deciding S) _ W1) as (Hl & Hn & _); [|by split]. unfold places, placed. cbn. fold l. unfold queued_at. rewrite map_app. cbn. solve_Permutation. }
  destruct (enqueue_success _ _ Hok Hl Hn) as [_ Hp]. fold l in Hp. assert (contents (sc_queues (snd (enqueue q (ru_scheduler r)))) ++ [] ≡ₚ l ++ [q]) as Hq by (rewrite Hp; solve_Permutation).
  eapply work_perm; [exact Hw|exact Hf|done| |cbn; intros k Hk; rewrite Hq; by apply W2|done]. unfold places, placed. cbn. unfold queued_at. by rewrite Hq.
Qed.

(** *** Ending *)
Lemma release_step q a res r E H F1 F2 S K A O V t : RunnerInv c (Build_World r E H (F1 ++ (q, a) :: F2) S K A O V t) -> RunnerInv c (Build_World (release q r) E H (F1 ++ F2) (Settle q a res Released :: S) K A O V t).
Proof.
  intros Hi. pose proof (rv_sched _ _ Hi) as Hs. cbn in Hs. rewrite map_app in Hs. eapply frame_inv; [exact Hi|done|cbn; rewrite map_app; by apply finish_inv| |done].
  intros _ _ Hw. pose proof (wk_attempts _ _ Hw) as W2. eapply work_perm; [exact Hw|done|done| |exact W2|]; [unfold places, placed; cbn; solve_Permutation|]. intros Hp. by apply Forall_cons.
Qed.

(** A task goes from one phase to another, both before its decision is made. *)
Definition undecided (p : Phase) : bool := match p with Unsent _ => false | _ => true end.
Lemma phase_step q a res p p' r r' E H F S1 S2 K A O V t : RunnerInv c (Build_World r E H F (S1 ++ Settle q a res p :: S2) K A O V t) ->
  frame r' = frame r -> SchedInv c (ru_scheduler r') (map fst F) t -> sc_queues (ru_scheduler r') = sc_queues (ru_scheduler r) ->
  ru_attempts r' = ru_attempts r -> ru_retries r' = ru_retries r -> ru_pending r' = ru_pending r -> undecided p = true -> undecided p' = true ->
  (ru_stopped r = false -> phase_ok (cf_max_retry_attempts c) (Settle q a res p) -> phase_ok (cf_max_retry_attempts c) (Settle q a res p')) ->
  RunnerInv c (Build_World r' E H F (S1 ++ Settle q a res p' :: S2) K A O V t).
Proof.
  intros Hi Hf Hs Eq Ea Er Ep Hp Hp' Hok.
  assert (forall p, undecided p = true -> deciding (Settle q a res p) = Some (q, a) /\ unsent (Settle q a res p) = None) as Hd by (by intros []).
  destruct (Hd p Hp) as [D1 U1]. destruct (Hd p' Hp') as [D2 U2]. eapply frame_inv; [exact Hi|done|done| |].
  - intros Hst _ Hw. pose proof Hw as [_ W2 _ W4]. cbn in W2, W4. eapply work_perm; [exact Hw|done|done| |cbn; by rewrite Ea, Eq|].
    + unfold places, placed. cbn. by rewrite Eq, Ea, Er, !omap_split, D1, D2.
    + intros Hall. eapply Forall_replace; [exact Hall|]. apply Hok; [done|]. by apply Forall_app in W4 as [_ [? _]%Forall_cons].
  - by rewrite !omap_split, U1, U2.
Qed.
Lemma wants_retried r E H F S K A O V t a res : RunnerInv c (Build_World r E H F S K A O V t) -> wants_retry a res r = retried (cf_max_retry_attempts c) res a.
Proof. intros [_ [_ Hm] _ _ _]. cbn in Hm. unfold wants_retry, retried. by rewrite Hm, negb_orb, negb_involutive, Z.ltb_antisym. Qed.
Lemma may_retry_running r E H F S K A O V t : RunnerInv c (Build_World r E H F S K A O V t) -> may_retry r = negb (ru_stopped r).
Proof. intros [_ _ [_ Hl] _ _]. cbn in Hl. unfold may_retry. destruct (ru_stopped r); [by rewrite orb_true_r|]. by rewrite bool_decide_true by (by apply Hl). Qed.
Lemma no_retry_step q a res r E H F S1 S2 K A O V t : wants_retry a res r = false -> RunnerInv c (Build_World r E H F (S1 ++ Settle q a res Released :: S2) K A O V t) ->
  RunnerInv c (Build_World r E H F (S1 ++ Settle q a res Final :: S2) K A O V t).
Proof. intros Hw Hi. eapply phase_step; [exact Hi|done|apply Hi|done..|]. intros _ _. unfold phase_ok. cbn. by erewrite <- wants_retried. Qed.
Lemma check_step q a res r E H F S1 S2 K A O V t : wants_retry a res r = true -> RunnerInv c (Build_World r E H F (S1 ++ Settle q a res Released :: S2) K A O V t) ->
  RunnerInv c (Build_World r E H F (S1 ++ Settle q a res (if may_retry r then Checked else Final) :: S2) K A O V t).
Proof.
  intros Hw Hi. rewrite (may_retry_running _ _ _ _ _ _ _ _ _ _ Hi). eapply phase_step; [exact Hi|done|apply Hi|done..|by destruct (ru_stopped r)|]. intros Hs _. rewrite Hs. unfold phase_ok. cbn. by erewrite <- wants_retried.
Qed.
Lemma due_frame now u q a r due r' : retry_due now u q a r = Some (due, r') -> frame r' = frame r /\ sc_queues (ru_scheduler r') = sc_queues (ru_scheduler r) /\
  ru_attempts r' = ru_attempts r /\ ru_retries r' = ru_retries r /\ ru_pending r' = ru_pending r /\ ru_scheduler r' = snd (retry_delay now q a (ru_scheduler r)).
Proof.
  unfold retry_due, frame. destruct (retry_keeps now q a (ru_scheduler r)) as [Eq Es]. destruct (retry_delay _ _ _ _) as [delay s]. cbn in *. case_match; [|done]. intros [= <- <-]. cbn. by rewrite Es.
Qed.
Lemma due_step q a res u due r r' E H F S1 S2 K A O V t : retry_due t u q a r = Some (due, r') -> RunnerInv c (Build_World r E H F (S1 ++ Settle q a res Checked :: S2) K A O V t) ->
  RunnerInv c (Build_World r' E H F (S1 ++ Settle q a res (Timed due) :: S2) K A O V t).
Proof.
  intros Hd Hi. destruct (due_frame _ _ _ _ _ _ _ Hd) as (Hf & Eq & Ea & Er & Ep & Es). eapply phase_step; [exact Hi|done| |done..]. rewrite Es. apply retry_inv, Hi.
Qed.
Lemma record_step q a res r E H F S1 S2 K A O V t : RunnerInv c (Build_World r E H F (S1 ++ Settle q a res Final :: S2) K A O V t) ->
  RunnerInv c (Build_World (note_success q res r) E H F (S1 ++ Settle q a res Recorded :: S2) K A O V t).
Proof.
  intros Hi. pose proof (rv_sched _ _ Hi) as Hs. cbn in Hs. assert (note_success q res r = r \/ note_success q res r = with_scheduler (record_success q (ru_scheduler r)) r) as Hr by (unfold note_success; repeat case_match; tauto).
  eapply phase_step; [exact Hi|destruct Hr as [->| ->]; first [done|by apply success_inv]..|done|done|done].
Qed.

(** What the places are around a task that decides. *)
Lemma deciding_out r E H F S1 S2 K A O V t q a res p : undecided p = true -> Work c (Build_World r E H F (S1 ++ Settle q a res p :: S2) K A O V t) ->
  Accounts (ru_catalog r) (cf_queue_capacity c) (cf_max_retry_attempts c) (ru_pending r) A O ((q, a) :: placed r (ru_retries r) E H F (S1 ++ S2)) /\ phase_ok (cf_max_retry_attempts c) (Settle q a res p).
Proof.
  intros Hp [W1 _ _ W4]. cbn in W1, W4. split; [|by apply Forall_app in W4 as [_ [? _]%Forall_cons]]. eapply Accounts_perm; [|exact W1]. unfold places, placed. cbn. rewrite omap_split.
  assert (deciding (Settle q a res p) = Some (q, a)) as -> by (by destruct p). cbn. solve_Permutation.
Qed.
(** The retry line has always room: it holds pending work only, and not this request. *)
Lemma retry_room r E H F S1 S2 K A O V t q a res p : undecided p = true -> RunnerInv c (Build_World r E H F (S1 ++ Settle q a res p :: S2) K A O V t) -> ru_stopped r = false -> blen (ru_retries r) < ru_queue_capacity r.
Proof.
  intros Hp Hi Hs. destruct (deciding_out _ _ _ _ _ _ _ _ _ _ _ _ _ _ _ Hp (rv_work _ _ Hi Hs)) as [[A1 A2 A3 _ _ _ _ _] _]. pose proof (rv_caps _ _ Hi) as [Hc _]. cbn in Hc. rewrite Hc. rewrite A2, size_list_to_set in A3 by done.
  unfold keys_of in A3. rewrite length_map in A3. cbn in A3. unfold placed in A3. rewrite !length_app, !length_map in A3. unfold blen. lia.
Qed.
Lemma push_step q a res due r r' E H F S1 S2 K A O V t : push_retry due q a r = (true, r') -> RunnerInv c (Build_World r E H F (S1 ++ Settle q a res (Timed due) :: S2) K A O V t) ->
  RunnerInv c (Build_World r' E H F (S1 ++ Settle q a res (Unsent true) :: S2) K A (event q a res true :: O) V t).
Proof.
  unfold push_retry. case_match; [done|]. intros [= <-] Hi. eapply frame_inv; [exact Hi|done|apply Hi| |].
  - intros _ _ Hw. pose proof (deciding_out _ _ _ _ _ _ _ _ _ _ _ q a res (Timed due) eq_refl Hw) as [Hacc Hph]. unfold phase_ok in Hph. cbn in Hph. pose proof Hw as [_ W2 W3 W4]. cbn in *.
    assert (0 <= a < cf_max_retry_attempts c) as Ha by (pose proof (ac_attempt _ _ _ _ _ _ _ Hacc) as [[_ ?] _]%Forall_cons; unfold retried in Hph; bprop; lia). split; cbn.
    + eapply Accounts_perm; [|exact (Accounts_retry _ _ _ _ _ _ q a _ res Hacc ltac:(lia))]. unfold places, placed. cbn. rewrite Z.min_r by lia. rewrite omap_split, map_app. cbn. solve_Permutation.
    + done.
    + by apply Forall_cons.
    + by eapply Forall_replace.
  - intros Ho. rewrite Ho, !omap_split. cbn. solve_Permutation.
Qed.
Lemma full_step q a res due r r' E H F S1 S2 K A O V t : push_retry due q a r = (false, r') -> RunnerInv c (Build_World r E H F (S1 ++ Settle q a res (Timed due) :: S2) K A O V t) ->
  RunnerInv c (Build_World r' E H F (S1 ++ Settle q a res Final :: S2) K A O V t).
Proof.
  unfold push_retry. destruct (Z.leb_spec (ru_queue_capacity r) (blen (ru_retries r))) as [Hfull|]; [|done]. intros [= <-] Hi. eapply phase_step; [exact Hi|done|apply Hi|done..|]. intros Hs.
  pose proof (retry_room _ _ _ _ _ _ _ _ _ _ _ q a res (Timed due) eq_refl Hi Hs). lia.
Qed.
Lemma forget_step q a res r E H F S1 S2 K A O V t : RunnerInv c (Build_World r E H F (S1 ++ Settle q a res Recorded :: S2) K A O V t) ->
  RunnerInv c (Build_World (forget q r) E H F (S1 ++ Settle q a res (Unsent false) :: S2) K A (event q a res false :: O) V t).
Proof.
  intros Hi. eapply frame_inv; [exact Hi|done|apply Hi| |].
  - intros _ _ Hw. pose proof (deciding_out _ _ _ _ _ _ _ _ _ _ _ q a res Recorded eq_refl Hw) as [Hacc Hph]. unfold phase_ok in Hph. cbn in Hph. pose proof Hw as [_ W2 W3 W4]. cbn in *. split; cbn.
    + eapply Accounts_perm; [|exact (Accounts_final _ _ _ _ _ _ q a _ res Hacc)]. unfold places, placed. cbn. by rewrite omap_split.
    + done.
    + by apply Forall_cons.
    + by eapply Forall_replace.
  - intros Ho. rewrite Ho, !omap_split. cbn. solve_Permutation.
Qed.
Lemma send_step q a res b r E H F S1 S2 K A O V t : RunnerInv c (Build_World r E H F (S1 ++ Settle q a res (Unsent b) :: S2) K A O V t) ->
  RunnerInv c (Build_World r E H F (S1 ++ S2) K A O (event q a res b :: V) t).
Proof.
  intros Hi. eapply frame_inv; [exact Hi|done|apply Hi| |].
  - intros _ _ Hw. pose proof (wk_attempts _ _ Hw) as W2. eapply work_perm; [exact Hw|done|done| |exact W2|]; [unfold places, placed; cbn; by rewrite omap_split|]. rewrite !Forall_app, Forall_cons. tauto.
  - intros Ho. rewrite Ho, omap_split. cbn. by rewrite Permutation_middle.
Qed.

(** *** Stopping *)
Lemma stopped_inv r r' E H F S K K' A O V t : RunnerInv c (Build_World r E H F S K A O V t) -> SchedInv c (ru_scheduler r') (map fst F) t ->
  ru_queue_capacity r' = ru_queue_capacity r -> ru_max_retry_attempts r' = ru_max_retry_attempts r -> ru_stopped r' = true -> ru_lifecycle r' <> Running -> RunnerInv c (Build_World r' E H F S K' A O V t).
Proof. intros [H1 H2 H3 H4 H5] Hs Eq Em Est Hl. cbn in *. split; cbn; [done|by rewrite Eq, Em|rewrite Est; split; [done|by split]|by rewrite Est|done]. Qed.

(** *** All steps *)
Context (cat : ProbeCatalog) (Hcost : forall id d, resolve cat id = Some d -> 0 <= pd_rate_cost d).
(** What a stop has reached. *)
Definition stop_ok (r : Runner) (K : StopPhase) : Prop :=
  match K with
  | NotStopping => ru_stopped r = true -> sc_stopped (ru_scheduler r) = true /\ ru_retries r = []
  | Flagged => ru_stopped r = true
  | SchedulerStopped => ru_stopped r = true /\ sc_stopped (ru_scheduler r) = true
  | RetriesCleared | AttemptsCleared => ru_stopped r = true /\ sc_stopped (ru_scheduler r) = true /\ ru_retries r = []
  end.
(** The invariant with the lock of the lifecycle: one holder, and a dispatch or a task holds it only while the runner runs. *)
Record RunnerOk (w : World) : Prop := {
  ro_inv : RunnerInv c w;
  ro_catalog : ru_catalog (wo_runner w) = cat;
  ro_hand : match wo_hand w with Some (Ready q d _) => resolve cat (rq_probe_id q) = Some d | _ => True end;
  ro_lock : (holders (wo_hand w) (wo_settling w) (wo_stop w) <= 1)%nat;
  ro_running : (0 < holders (wo_hand w) (wo_settling w) NotStopping)%nat -> ru_lifecycle (wo_runner w) = Running;
  ro_stop : stop_ok (wo_runner w) (wo_stop w) }.

Lemma holders_stop H S K : holders H S K = (holders H S NotStopping + if bool_decide (K = NotStopping) then 0 else 1)%nat.
Proof. unfold holders. rewrite (bool_decide_true (NotStopping = NotStopping)) by done. lia. Qed.
Lemma holders_split H S1 x S2 K : holders H (S1 ++ x :: S2) K = ((if holds x then 1 else 0) + holders H (S1 ++ S2) K)%nat.
Proof. unfold holders. rewrite !List.filter_app, !length_app. cbn. destruct (holds x); cbn; lia. Qed.
Lemma holders_cons H x S K : holders H (x :: S) K = ((if holds x then 1 else 0) + holders H S K)%nat.
Proof. apply (holders_split H [] x S K). Qed.
Lemma holders_hand h S K : holders (Some h) S K = Datatypes.S (holders None S K).
Proof. done. Qed.
#[local] Arguments holders : simpl never.
Lemma stop_ok_frame r r' K : frame r' = frame r -> (ru_retries r = [] -> ru_retries r' = []) -> stop_ok r K -> stop_ok r' K.
Proof. intros [= _ _ E1 _ _ E2] Hr. unfold stop_ok. rewrite E1, E2. destruct K; naive_solver. Qed.

(** A step that is no part of a stop. *)
Lemma ok_step r r' E E' H H' F F' S S' K A A' O O' V V' t t' : RunnerOk (Build_World r E H F S K A O V t) -> frame r' = frame r -> (stop_ok r K -> stop_ok r' K) ->
  (holders H' S' NotStopping <= holders H S NotStopping)%nat \/ (holders H S K = 0%nat /\ (holders H' S' NotStopping <= 1)%nat /\ ru_lifecycle r = Running) ->
  match H' with Some (Ready q d _) => resolve cat (rq_probe_id q) = Some d | _ => True end -> RunnerInv c (Build_World r' E' H' F' S' K A' O' V' t') -> RunnerOk (Build_World r' E' H' F' S' K A' O' V' t').
Proof.
  intros [_ O2 _ O4 O5 O6] Hf Hs Hh Hready Hi. cbn in *. assert (ru_catalog r' = ru_catalog r /\ ru_lifecycle r' = ru_lifecycle r) as [E1 E2] by by injection Hf. split; cbn; [done|by rewrite E1|done| | |by apply Hs].
  - rewrite holders_stop in O4 |- *. destruct Hh as [Hh|(Hz & Hh & _)]; [lia|]. rewrite holders_stop in Hz. lia.
  - rewrite E2. intros Hpos. destruct Hh as [Hh|(_ & _ & Hl)]; [apply O5; lia|done].
Qed.

Lemma claim_frame q r a r' : claim q r = (a, r') -> frame r' = frame r /\ ru_retries r' = ru_retries r.
Proof. unfold claim. repeat case_match; by intros [= <- <-]. Qed.
Lemma promote_frame now items : forall r, let '(rem, r') := promote_loop now items r in frame r' = frame r /\ (items = [] -> rem = []).
Proof.
  induction items as [|i items IH]; intros r; cbn; [done|]. pose proof (enqueue_stopped (ru_scheduler r) (rt_request i)) as [Es _]. destruct (rt_due i <=? now); [destruct (enqueue _ _) as [a s]|cbn [is_ok]]; [cbn in Es; destruct (is_ok a)|].
  - specialize (IH (with_attempts (<[work_key (rt_request i):=rt_attempt i]> (ru_attempts r)) (with_scheduler s r))). destruct (promote_loop _ _ _). destruct IH as [-> _]. split; [|done]. unfold frame. cbn. by rewrite Es.
  - specialize (IH (with_scheduler s r)). destruct (promote_loop _ _ _). destruct IH as [-> _]. split; [|done]. unfold frame. cbn. by rewrite Es.
  - specialize (IH (with_scheduler (ru_scheduler r) r)). destruct (promote_loop _ _ _). destruct IH as [-> _]. done.
Qed.
Lemma promote_retries now r : frame (promote_due_retries now r) = frame r /\ (ru_retries r = [] -> ru_retries (promote_due_retries now r) = []).
Proof. unfold promote_due_retries. pose proof (promote_frame now (ru_retries r) r) as Hp. by destruct (promote_loop _ _ _). Qed.

(** The lock is held, so the runner runs and no stop is under way. *)
Lemma locked r E H F S K A O V t : RunnerOk (Build_World r E H F S K A O V t) -> (0 < holders H S NotStopping)%nat -> ru_stopped r = false /\ ru_lifecycle r = Running /\ K = NotStopping.
Proof.
  intros [O1 _ _ O4 O5 _] Hh. cbn in *. pose proof (rv_stop _ _ O1) as [_ Hl]. cbn in Hl. rewrite Hl. split_and!; [by apply O5..|]. rewrite holders_stop in O4. case_bool_decide; [done|lia].
Qed.
Lemma stop_step r r' E H F S K K' A O V t : RunnerOk (Build_World r E H F S K A O V t) -> K <> NotStopping -> frame r' = frame r \/ r' = stop_scheduler r -> stop_ok r' K' ->
  SchedInv c (ru_scheduler r') (map fst F) t -> RunnerOk (Build_World r' E H F S K' A O V t).
Proof.
  intros [O1 O2 O3 O4 O5 O6] HK Hf Hs Hsch. cbn in *. assert (holders H S NotStopping = 0%nat) as Hz by (rewrite holders_stop, bool_decide_false in O4 by done; lia).
  assert (ru_stopped r = true) as Est by (destruct K; by destruct O6 || done). pose proof (rv_stop _ _ O1) as [_ Hl]. cbn in Hl.
  assert (ru_lifecycle r <> Running) as Hnr by (intros Hr%Hl; by rewrite Est in Hr).
  assert (ru_catalog r' = ru_catalog r /\ ru_lifecycle r' = ru_lifecycle r /\ ru_stopped r' = ru_stopped r /\ ru_queue_capacity r' = ru_queue_capacity r /\ ru_max_retry_attempts r' = ru_max_retry_attempts r) as (E1 & E2 & E3 & E4 & E5) by (destruct Hf as [[= -> -> -> -> -> _]| ->]; done).
  split; cbn; [eapply stopped_inv; [exact O1|done|done|done|by rewrite E3|by rewrite E2]|by rewrite E1|done|rewrite holders_stop, Hz; case_bool_decide; lia|rewrite Hz; lia|done].
Qed.

#[local] Ltac same_lock := left; rewrite ?holders_hand, ?holders_split, ?holders_cons; cbn; lia.
Lemma runner_step_ok w w' : RunnerOk w -> runner_step w w' -> RunnerOk w'.
Proof.
  intros Hok Hs. pose proof Hok as [Hi Hc Hh _ _ Hst]. destruct Hs; cbn in Hc, Hh, Hst.
  - eapply ok_step; [exact Hok|done|done|same_lock|done|by eapply time_step].
  - destruct (claim_frame _ _ _ _ H0) as [Hf Er]. eapply ok_step; [exact Hok|done|apply stop_ok_frame; [done|by rewrite Er]|same_lock|done|by eapply claim_step].
  - pose proof (queue_frame _ _ _ _ H0) as Hf. eapply ok_step; [exact Hok|done|apply stop_ok_frame; [done|]|same_lock|done|by eapply queue_step]. unfold queue_claimed in H0. by destruct (enqueue _ _) as [[|] s]; injection H0 as <- <-.
  - destruct (promote_retries t r) as [Hf Er]. eapply ok_step; [exact Hok|done|by apply stop_ok_frame|same_lock|done|by apply promote_step].
  - eapply ok_step; [exact Hok|done|done|same_lock|done|by apply wait_step].
  - pose proof (pop_frame _ _ _ H1) as Hf. eapply ok_step; [exact Hok|done|apply stop_ok_frame; [done|]|right; split_and!; [done|rewrite holders_stop in H; destruct o; cbn; rewrite ?holders_hand; lia|done]|by destruct o|by eapply pop_step].
    unfold pop_next in H1. destruct (next_request _). by injection H1 as <- <-.
  - destruct (locked _ _ _ _ _ _ _ _ _ _ Hok) as (Est & _ & _); [rewrite holders_hand; lia|]. destruct (popped_known _ _ _ _ _ _ _ _ _ _ Hi Est) as [d Hd]. congruence.
  - eapply ok_step; [exact Hok|by injection H0 as <- <-|injection H0 as <- <-; by apply stop_ok_frame|same_lock|by rewrite <- Hc|by eapply attempt_step].
  - destruct (admission_frame _ _ _ _ _ _ H) as (Hf & _ & _ & _ & Er). eapply ok_step; [exact Hok|done|apply stop_ok_frame; [done|by rewrite Er]|same_lock|done|eapply spawn_step; [by eapply Hcost|done|done]].
  - destruct (admission_frame _ _ _ _ _ _ H) as (Hf & _ & _ & _ & Er). eapply ok_step; [exact Hok|done|apply stop_ok_frame; [done|by rewrite Er]|same_lock|done|by eapply deny_step].
  - eapply ok_step; [exact Hok|by destruct x|by destruct x; apply stop_ok_frame|same_lock|done|by apply note_step].
  - eapply ok_step; [exact Hok|unfold keep_attempt; by case_match|unfold keep_attempt; by case_match; apply stop_ok_frame|same_lock|done|by apply keep_step].
  - assert (frame (requeue q r) = frame r) as Hf by (unfold frame; cbn; by rewrite (proj1 (enqueue_stopped _ _))). eapply ok_step; [exact Hok|done|by apply stop_ok_frame|same_lock|done|by apply requeue_step].
  - eapply ok_step; [exact Hok|done|by apply stop_ok_frame|same_lock|done|by apply release_step].
  - eapply ok_step; [exact Hok|done|done|same_lock|done|by apply no_retry_step].
  - pose proof (may_retry_running _ _ _ _ _ _ _ _ _ _ Hi) as Em. eapply ok_step; [exact Hok|done|done| |done|by apply check_step]. destruct (may_retry r) eqn:Er; [|same_lock]. right. split_and!; [done| |].
    + rewrite holders_split in H1 |- *. rewrite holders_stop in H1. cbn in *. lia.
    + unfold may_retry in Er. apply negb_true_iff, orb_false_iff in Er as [Er _]. by apply negb_false_iff, bool_decide_eq_true in Er.
  - destruct (due_frame _ _ _ _ _ _ _ H0) as (Hf & _ & _ & Er & _). eapply ok_step; [exact Hok|done|apply stop_ok_frame; [done|by rewrite Er]|same_lock|done|by eapply due_step].
  - destruct (locked _ _ _ _ _ _ _ _ _ _ Hok) as (Est & _ & ->); [rewrite holders_split; cbn; lia|]. eapply ok_step; [exact Hok|..|same_lock|done|by eapply push_step]; unfold push_retry in H0; destruct (_ <=? _); [done|injection H0 as <-; done|done|injection H0 as <-]. unfold stop_ok. cbn. by rewrite Est.
  - eapply ok_step; [exact Hok|..|same_lock|done|by eapply full_step]; unfold push_retry in H0; destruct (_ <=? _); first [by injection H0 as <-|done].
  - assert (note_success q res r = r \/ note_success q res r = with_scheduler (record_success q (ru_scheduler r)) r) as Hr by (unfold note_success; repeat case_match; tauto).
    eapply ok_step; [exact Hok|by destruct Hr as [->| ->]|by destruct Hr as [->| ->]; [|apply stop_ok_frame]|same_lock|done|by apply record_step].
  - eapply ok_step; [exact Hok|done|by apply stop_ok_frame|same_lock|done|by apply forget_step].
  - eapply ok_step; [exact Hok|done|done|same_lock|done|by apply send_step].
  - split; cbn; [eapply stopped_inv; [exact Hi|apply Hi|done..]|done|done| | |done]; [rewrite holders_stop, H; done|rewrite H; lia].
  - eapply stop_step; [exact Hok|done|by right|done|apply stop_inv, Hi; done].
  - eapply stop_step; [exact Hok|done|by left|cbn; tauto|apply Hi].
  - eapply stop_step; [exact Hok|done|by left|done|apply Hi].
  - eapply stop_step; [exact Hok|done|by left|cbn; tauto|apply Hi].
  - assert (ru_stopped r = true) as Est. { pose proof (rv_stop _ _ Hi) as [_ Hl]. cbn in Hl. destruct (ru_stopped r); [done|]. by rewrite (proj1 Hl) in H by done. }
    split; cbn; [eapply stopped_inv; [exact Hi|apply Hi|done|done|exact Est|done]|done|done|unfold holders; rewrite bool_decide_true by done; cbn; lia..|exact Hst].
Qed.
Lemma runner_steps_ok w w' : RunnerOk w -> rtc runner_step w w' -> RunnerOk w'.
Proof. intros Hok Hs. induction Hs as [|w w1 w' Hstep _ IH]; [done|]. apply IH. by eapply runner_step_ok. Qed.
End Invariant.

(** ** Theorems *)
(** The fields of the configuration that the runner reads are unsigned, as are the costs of probes. *)
Definition runner_typed (c : SchedulerConfig) (cat : ProbeCatalog) (t : Duration) : Prop :=
  config_typed c /\ 0 <= cf_max_retry_attempts c /\ 0 <= t <= dur_max /\ forall id d, resolve cat id = Some d -> 0 <= pd_rate_cost d.

Lemma runner_new_ok c t cat n r : runner_typed c cat t -> runner_new c t cat n = Ok r -> accepted c /\ 1 <= cf_max_retry_attempts c <= 16 /\ RunnerOk c cat (world_new r t).
Proof.
  intros (Ht & Hm & Htime & Hcost). unfold runner_new. case_match; [done|]. destruct (scheduler_new c t) as [s|] eqn:Es; [|done]. cbn [result_bind]. intros [= <-].
  destruct (scheduler_new_ok c t s Ht Htime Es) as [Hac Hi]. assert (sc_queues s = empty_queues /\ sc_stopped s = false /\ 1 <= cf_max_retry_attempts c <= 16) as (Eq & Est & Hr).
  { unfold scheduler_new in Es. destruct (budget_new _ _ _ _ _); [|done]. cbn [result_bind] in Es. destruct (_ || (seconds 30 <? _)) eqn:Eb; [done|]. injection Es as <-. split_and!; try done; bprop;
    repeat match goal with X : (_ =? _) = false |- _ => apply Z.eqb_neq in X | X : (_ <? _) = false |- _ => apply Z.ltb_ge in X end; lia. }
  split_and!; try lia; [done|]. split; cbn; [|done|done|unfold holders; rewrite bool_decide_true by done; cbn; lia|done|done]. split; cbn; [done|done|by rewrite Est| |done]. intros _. split; cbn.
  - unfold places, placed. cbn. rewrite Eq. pose proof (ac_queue c Hac). split; cbn; first [done|apply NoDup_nil_2|apply Forall_nil_2|rewrite size_empty; lia].
  - intros k [x Hx]. by rewrite lookup_empty in Hx.
  - by apply Forall_nil_2.
  - by apply Forall_nil_2.
Qed.
Lemma runner_reachable_ok c t cat n r w : runner_typed c cat t -> runner_new c t cat n = Ok r -> rtc runner_step (world_new r t) w -> accepted c /\ 1 <= cf_max_retry_attempts c <= 16 /\ RunnerOk c cat w.
Proof.
  intros Ht Hn Hs. destruct (runner_new_ok c t cat n r Ht Hn) as (Hac & Hm & Hok). split_and!; [done|lia|lia|]. eapply runner_steps_ok; [done|done|by apply Ht|done|done].
Qed.

(** C18. No accepted request is lost, duplicated or reported twice, however the locked regions of the threads interleave.
    While the runner runs, the accepted requests are exactly those decided for good together with
    those in one place each: claimed, queued, in the hand of a dispatch, waiting for a retry, executing, or in a task that
    has not decided yet. The decisions are exactly the events sent and those that a task
    still has to send. No key is in two places; the pending set is that of the keys and within the
    capacity; the attempt each request is at, never above the limit, is the number of retries decided
    since it was accepted; and a decision is a retry exactly when the failure was transient and attempts were left. *)
Theorem runner_accounts_for_every_request c t cat n r w : runner_typed c cat t -> runner_new c t cat n = Ok r -> rtc runner_step (world_new r t) w -> ru_stopped (wo_runner w) = false ->
  wo_accepted w ≡ₚ finals (wo_outcomes w) ++ map fst (places w) /\ wo_outcomes w ≡ₚ wo_events w ++ omap unsent (wo_settling w) /\
  NoDup (keys_of (places w)) /\ ru_pending (wo_runner w) = list_to_set (keys_of (places w)) /\ Z.of_nat (length (places w)) <= cf_queue_capacity c /\
  Forall (fun '(q, a) => a = retries_of (work_key q) (wo_outcomes w) /\ 0 <= a <= cf_max_retry_attempts c) (places w) /\
  Forall (fun e => re_will_retry e = retried (cf_max_retry_attempts c) (re_result e) (re_attempt e)) (wo_outcomes w).
Proof.
  intros Ht Hn Hs Hst. destruct (runner_reachable_ok c t cat n r w Ht Hn Hs) as (_ & _ & [[_ _ _ Hw Hsent] _ _ _ _ _]). destruct (Hw Hst) as [[A1 A2 A3 A4 A5 A6 A7 A8] _ W3 _]. split_and!; try done.
  rewrite A2, size_list_to_set in A3 by done. unfold keys_of in A3. by rewrite length_map in A3.
Qed.

(** The task of a retry that has its time always finds room in the line, whatever happened since it asked, and the
    request then waits there at its next attempt. *)
Theorem retries_always_fit c t0 cat n r0 w S1 S2 q a res due : runner_typed c cat t0 -> runner_new c t0 cat n = Ok r0 -> rtc runner_step (world_new r0 t0) w -> wo_settling w = S1 ++ Settle q a res (Timed due) :: S2 ->
  push_retry due q a (wo_runner w) = (true, with_retries (ru_retries (wo_runner w) ++ [{| rt_due := due; rt_request := q; rt_attempt := a + 1 |}]) (wo_runner w)).
Proof.
  intros Ht Hn Hs Hset. destruct (runner_reachable_ok c t0 cat n r0 _ Ht Hn Hs) as (Hac & Hm & Hok). destruct w as [r E H F S K A O V t]. cbn in *. subst S. pose proof (ro_inv _ _ _ Hok) as Hi.
  destruct (locked _ _ _ _ _ _ _ _ _ _ _ _ Hok) as (Est & _ & _); [rewrite holders_split; cbn; lia|]. pose proof (retry_room _ _ _ _ _ _ _ _ _ _ _ _ q a res (Timed due) eq_refl Hi Est) as Hroom.
  destruct (deciding_out _ _ _ _ _ _ _ _ _ _ _ _ q a res (Timed due) eq_refl (rv_work _ _ Hi Est)) as [Hacc _]. pose proof (ac_attempt _ _ _ _ _ _ _ Hacc) as [[_ Ha] _]%Forall_cons.
  unfold push_retry. rewrite (proj2 (Z.leb_gt _ _) Hroom). by rewrite Z.min_r by lia.
Qed.

Lemma from_secs_nonneg x n : from_secs_f64 x = Some n -> 0 <= n.
Proof.
  unfold from_secs_f64. destruct x as [| | |[] m e]; try done; [by intros [= <-]|]. case_match; [|done]. intros [= <-]. case_match; [assert (0 <= 2 ^ e) by (apply Z.pow_nonneg; lia); nia|].
  unfold round_half_even. assert (0 <= Z.pos m * 1000000000 / 2 ^ (- e)) by (apply Z.div_pos; [lia|apply Z.pow_pos_nonneg; lia]). repeat case_match; lia.
Qed.
Lemma jitter_nonneg u d s j : jitter u d s = Some j -> 0 <= j.
Proof.
  unfold jitter, mul_f64. destruct (from_secs_f64 _) as [m|] eqn:E; [|done]. apply from_secs_nonneg in E. intros [= <-]. case_match; [done|]. apply Z.mod_pos_bound. unfold u32_max. lia.
Qed.
(** A retry is never due before the delay that the scheduler gave has passed. *)
Lemma retry_waits t u q a r due r' : retry_due t u q a r = Some (due, r') -> dur_add t (fst (retry_delay t q a (ru_scheduler r))) <= due <= dur_max.
Proof.
  unfold retry_due. destruct (retry_delay _ _ _ _) as [delay s]. destruct (jitter u delay s) as [j|] eqn:Ej; [|done]. apply jitter_nonneg in Ej. intros [= <- <-]. unfold dur_add. cbn. lia.
Qed.

(** The runner keeps the budgets of its scheduler: in every reachable state, stopped or not, the tasks
    that execute are at most the global concurrency, and those that probe one host at most its own. *)
Theorem runner_respects_budgets c t cat n r w : runner_typed c cat t -> runner_new c t cat n = Ok r -> rtc runner_step (world_new r t) w ->
  blen (wo_flight w) <= bc_global_concurrency (cf_budgets c) /\ forall h, in_flight h (map fst (wo_flight w)) <= bc_per_host_concurrency (cf_budgets c).
Proof.
  intros Ht Hn Hs. destruct (runner_reachable_ok c t cat n r w Ht Hn Hs) as (_ & _ & [[Hsched _ _ _ _] _ _ _ _ _]). destruct Hsched as [_ _ _ _ _ Hg _ Hp _ _ _ _]. split; [|done]. unfold blen in *. by rewrite length_map in Hg.
Qed.

(** A step of a runner whose flag is up. *)
Lemma stopped_step c cat w w' : RunnerOk c cat w -> ru_stopped (wo_runner w) = true -> runner_step w w' -> ru_stopped (wo_runner w') = true /\ wo_flight w' ⊆+ wo_flight w.
Proof.
  intros Hok Hst Hs. assert (forall r r', frame r' = frame r -> ru_stopped r = true -> ru_stopped r' = true) as Hf by (by intros r r' [= _ _ -> _ _ _]). destruct Hs; cbn in *;
    try (split; [done|solve_submseteq]); try (split; [|done]);
    first [by eapply Hf; [eapply claim_frame|]|by eapply Hf; [eapply queue_frame|]|by eapply Hf; [eapply promote_retries|]|by eapply Hf; [eapply pop_frame|]|by eapply Hf; [eapply admission_frame|]|by eapply Hf; [eapply due_frame|]|idtac].
  - by injection H0 as <- <-.
  - exfalso. destruct (locked _ _ _ _ _ _ _ _ _ _ _ _ Hok) as (Est & _ & _); [rewrite holders_hand; lia|congruence].
  - by destruct x.
  - unfold keep_attempt. by case_match.
  - unfold push_retry in H0. destruct (_ <=? _); [done|]. by injection H0 as <-.
  - unfold push_retry in H0. destruct (_ <=? _); [|done]. by injection H0 as <-.
  - unfold note_success. by repeat case_match.
Qed.
(** A stop is final: from the moment its flag is up, whatever the threads still do, no task is started (the
    tasks that execute are among those that executed then), the runner stays stopped, and once the stop
    has run its course the scheduler is stopped and no retry waits any more. *)
Theorem nothing_starts_after_stop c t cat n r w w' : runner_typed c cat t -> runner_new c t cat n = Ok r -> rtc runner_step (world_new r t) w -> ru_stopped (wo_runner w) = true -> rtc runner_step w w' ->
  wo_flight w' ⊆+ wo_flight w /\ ru_stopped (wo_runner w') = true /\ (wo_stop w' = NotStopping -> sc_stopped (ru_scheduler (wo_runner w')) = true /\ ru_retries (wo_runner w') = []).
Proof.
  intros Ht Hn Hs Hst Hs'. destruct (runner_reachable_ok c t cat n r w Ht Hn Hs) as (Hac & Hm & Hok). assert (wo_flight w' ⊆+ wo_flight w /\ ru_stopped (wo_runner w') = true /\ RunnerOk c cat w') as (Hf & Hst' & Hok').
  { clear Hs. induction Hs' as [|w w1 w' Hstep _ IH]; [done|]. destruct (stopped_step _ _ _ _ Hok Hst Hstep) as [Hst1 Hsub]. destruct IH as (? & ? & ?); [done|by eapply runner_step_ok; [..|exact Hstep]; first [done|apply Ht]|]. split_and!; [by etrans|done|done]. }
  split_and!; [done|done|]. intros EK. pose proof (ro_stop _ _ _ Hok') as Hk. rewrite EK in Hk. by apply Hk.
Qed.

(** A probe that needs a credential is not sent before its source has given one. *)
Lemma no_probe_without_credential `{Calendar} {Credential W} `{AttemptTransport Credential W} c g r now (wait : CredentialWait Credential) q d (w : W) :
  catalog = Ok c -> ru_catalog r = c -> resolve c (rq_probe_id q) = Some d -> pd_privilege d = PrivCredential ->
  snd (run_probe (engine_new g c) now wait q r w) <> w -> exists cred, wait = WaitAnswered (Ok (Some cred)).
Proof.
  intros Hc Er Hd Hp. pose proof (resolve_program c _ d Hc Hd) as Hprog. clear Hc. destruct Hprog as (_ & _ & _ & _ & _ & Hpriv). destruct (Hpriv Hp) as [Hreq _]. unfold run_probe. rewrite Er, Hd, Hreq.
  destruct wait as [| |[[cred|]|x]]; try (intros Hw; by destruct Hw); [by eexists|]. intros Hw. exfalso. apply Hw. unfold execute. destruct (admit_probe _ q None) as [d'|] eqn:Ea; [|done].
  apply admit_probe_ok in Ea as (_ & Hd' & _ & _ & Hcred & _). cbn in Hd'. assert (d' = d) as -> by congruence. by destruct (Hcred Hreq).
Qed.

(** ** Witnesses *)
Definition demo_runner : Runner := {|
  ru_scheduler := small_scheduler; ru_catalog := program_catalog; ru_retries := []; ru_attempts := ∅; ru_pending := ∅; ru_lifecycle := Running; ru_stopped := false;
  ru_queue_capacity := 4; ru_max_retry_attempts := 5; ru_next_eligibility := None; ru_result_blocked := false |}.
Definition ssh_probe : ProbeDescriptor := tcp_item ("ssh"%string, 22).
Definition demo_claimed : Runner := snd (claim ask_ssh demo_runner).
Definition demo_queued : Runner := snd (queue_claimed ask_ssh demo_claimed).
Definition demo_popped : Runner := snd (pop_next demo_queued).
Definition demo_taken : Runner := snd (take_attempt ask_ssh demo_popped).
Definition demo_admitted : Runner := snd (ask_admission 0 ask_ssh ssh_probe demo_taken).
Definition demo_released : Runner := release ask_ssh demo_admitted.
Definition demo_timed : Duration * Runner := default (0, demo_released) (retry_due 0 0 ask_ssh 0 demo_released).
Definition demo_retrying : Runner := snd (push_retry (fst demo_timed) ask_ssh 0 (snd demo_timed)).
Definition demo_flying : World := Build_World demo_admitted [] None [(ask_ssh, 0)] [] NotStopping [ask_ssh] [] [] 0.
Definition demo_ending (p : Phase) (r : Runner) (O : list RunnerEvent) : World := Build_World r [] None [] [Settle ask_ssh 0 (Err Network) p] NotStopping [ask_ssh] O [] 0.
Definition demo_decided : World := demo_ending (Unsent true) demo_retrying [event ask_ssh 0 (Err Network) true].

Lemma runner_demo_typed : runner_typed small_config program_catalog 0.
Proof.
  split; [apply small_typed|]. split; [cbn; lia|]. split; [unfold dur_max, u64_max; lia|]. intros id d Hd. destruct (resolve_program program_catalog id d program_catalog_ok Hd) as (_ & _ & Hc & _). lia.
Qed.
Lemma demo_new : runner_new small_config 0 program_catalog 8 = Ok demo_runner.
Proof. reflexivity. Qed.
#[local] Ltac by_running := apply injective_projections; [by vm_compute|reflexivity].
Lemma demo_flies : rtc runner_step (world_new demo_runner 0) demo_flying.
Proof.
  unfold world_new. eapply rtc_l; [apply (run_claim ask_ssh _ demo_claimed); by_running|].
  eapply rtc_l; [apply (run_queue ask_ssh (Ok true) _ demo_queued [] []); by_running|].
  eapply rtc_l; [apply (run_pop (Some ask_ssh) _ demo_popped); [by vm_compute|by vm_compute|by_running]|].
  eapply rtc_l; [apply (run_attempt ask_ssh ssh_probe 0 _ demo_taken); [by vm_compute|by_running]|].
  eapply rtc_l; [apply (run_spawn ask_ssh ssh_probe 0 _ demo_admitted); by_running|]. apply rtc_refl.
Qed.
Lemma demo_due : retry_due 0 0 ask_ssh 0 demo_released = Some demo_timed.
Proof.
  unfold demo_timed. assert (is_Some (retry_due 0 0 ask_ssh 0 demo_released)) as [x ->]; [|done]. destruct (retry_due 0 0 ask_ssh 0 demo_released) eqn:E; [by eexists|].
  assert (match retry_due 0 0 ask_ssh 0 demo_released with Some _ => true | None => false end = true) as Hc by by vm_compute. rewrite E in Hc. discriminate.
Qed.
Lemma demo_times : rtc runner_step (world_new demo_runner 0) (demo_ending (Timed (fst demo_timed)) (snd demo_timed) []).
Proof.
  transitivity demo_flying; [apply demo_flies|]. eapply rtc_l; [apply (run_release ask_ssh 0 (Err Network) _ _ _ [] [])|].
  eapply rtc_l; [apply (run_check ask_ssh 0 (Err Network) _ _ _ _ [] []); by vm_compute|]. rewrite (eq_refl : may_retry (release ask_ssh demo_admitted) = true).
  eapply rtc_l; [apply (run_due ask_ssh 0 (Err Network) 0 (fst demo_timed) _ (snd demo_timed) _ _ _ [] []); rewrite <- surjective_pairing; apply demo_due|]. apply rtc_refl.
Qed.
Lemma demo_decides : rtc runner_step (world_new demo_runner 0) demo_decided.
Proof.
  assert (fst (push_retry (fst demo_timed) ask_ssh 0 (snd demo_timed)) = true) as Eb by by vm_compute.
  eapply rtc_r; [apply demo_times|]. apply (run_push ask_ssh 0 (Err Network) (fst demo_timed) (snd demo_timed) demo_retrying [] None [] [] []).
  unfold demo_retrying. destruct (push_retry _ _ _ _) as [b r]. cbn in Eb. by rewrite Eb.
Qed.

(** After a transient failure: the decision is made and its event not sent yet, and the request waits at its next attempt. *)
Lemma runner_accounts_for_every_request_witness : ru_pending (wo_runner demo_decided) = {[ work_key ask_ssh ]} /\ places demo_decided = [(ask_ssh, 1)] /\
  wo_outcomes demo_decided ≡ₚ wo_events demo_decided ++ omap unsent (wo_settling demo_decided).
Proof.
  assert (places demo_decided = [(ask_ssh, 1)]) as Hp by by vm_compute. assert (ru_stopped (wo_runner demo_decided) = false) as Hst by by vm_compute.
  destruct (runner_accounts_for_every_request small_config 0 program_catalog 8 demo_runner demo_decided runner_demo_typed demo_new demo_decides Hst) as (_ & Hsent & _ & Hpend & _).
  split; [|split; [exact Hp|exact Hsent]]. rewrite Hpend, Hp. apply leibniz_equiv. cbn. by rewrite (right_id ∅ _).
Defined.
Lemma retries_always_fit_witness : let w := demo_ending (Timed (fst demo_timed)) (snd demo_timed) [] in fst (push_retry (fst demo_timed) ask_ssh 0 (wo_runner w)) = true.
Proof.
  intros w. pose proof (retries_always_fit small_config 0 program_catalog 8 demo_runner w [] [] ask_ssh 0 (Err Network) (fst demo_timed) runner_demo_typed demo_new demo_times eq_refl) as Hr.
  rewrite Hr. reflexivity.
Defined.
Lemma runner_respects_budgets_witness : in_flight (V4 3232235777) [ask_ssh] <= 1.
Proof. exact (proj2 (runner_respects_budgets small_config 0 program_catalog 8 demo_runner demo_flying runner_demo_typed demo_new demo_flies) (V4 3232235777)). Defined.
Lemma nothing_starts_after_stop_witness :
  let stopping := Build_World (stop_flag (with_lifecycle Draining demo_admitted)) [] None [(ask_ssh, 0)] [] Flagged [ask_ssh] [] [] 0 in
  let stopped := Build_World (release ask_ssh (begin_stop (with_lifecycle Draining demo_admitted))) [] None [] [Settle ask_ssh 0 (Err Cancelled) Released] NotStopping [ask_ssh] [] [] 0 in
  wo_flight stopped ⊆+ wo_flight stopping /\ ru_retries (wo_runner stopped) = [].
Proof.
  intros stopping stopped. destruct (nothing_starts_after_stop small_config 0 program_catalog 8 demo_runner stopping stopped runner_demo_typed demo_new) as (Hf & _ & Hr).
  - eapply rtc_r; [apply demo_flies|]. by apply run_stop; vm_compute.
  - reflexivity.
  - eapply rtc_l; [apply run_stop_scheduler|]. eapply rtc_l; [apply run_stop_retries|]. eapply rtc_l; [apply run_stop_attempts|]. eapply rtc_l; [apply run_stop_pending|]. apply rtc_once. apply (run_release ask_ssh 0 (Err Cancelled) _ _ _ [] []).
  - split; [exact Hf|exact (proj2 (Hr eq_refl))].
Defined.
