(* ===== verification/W6.v ===== *)
(** * W6 connector

    crates/lattice-w6/src/lib.rs. The transport is a parameter: a world with one computation per
    method of the trait. The connector owns its transport, so its state contains the world. *)

From S2P Require Import Prelude Order.

Definition W6_PERSISTENT_FILTER_LIMIT : Z := 32.

Inductive Capability := DisconnectNow | DenyWifiAssociation | DenyInternet | DenyLan | PersistentFilter.
#[global] Instance Capability_eq_dec : EqDecision Capability.
Proof. solve_decision. Defined.

Record Profile := { fingerprint : string; capabilities : list Capability; filter_capacity : option Z }.
#[global] Instance Profile_eq_dec : EqDecision Profile.
Proof. solve_decision. Defined.

Definition advertises (p : Profile) (c : Capability) : bool := existsb (fun x => bool_decide (x = c)) (capabilities p).

Inductive DiscoveryStatus := Trusted | ReadOnlyProfile | ManualProfile.
#[global] Instance DiscoveryStatus_eq_dec : EqDecision DiscoveryStatus.
Proof. solve_decision. Defined.

Inductive RequestedQuarantine := RqDisconnectNow | RqDenyWifiAssociation | RqDenyInternet | RqDenyLan | RqPersistentFilter.

Definition capability (r : RequestedQuarantine) : Capability :=
  match r with
  | RqDisconnectNow => DisconnectNow
  | RqDenyWifiAssociation => DenyWifiAssociation
  | RqDenyInternet => DenyInternet
  | RqDenyLan => DenyLan
  | RqPersistentFilter => PersistentFilter
  end.

Record DeviceState := {
  disconnect_now : bool; deny_wifi_association : bool; deny_internet : bool; deny_lan : bool;
  persistent_filter : bool; filter_entries : Z }.
#[global] Instance DeviceState_eq_dec : EqDecision DeviceState.
Proof. solve_decision. Defined.

Inductive Verification := WVerified | WUnverified.
Record MutationReport := {
  mr_verification : Verification; mr_capability : Capability; mr_previous : option DeviceState;
  mr_used : Z; mr_remaining : option Z }.
Record PreparedMutation := { pm_capability : Capability; pm_previous : DeviceState }.
Record FilterCapacity := { fc_used : Z; fc_remaining : Z; fc_limit : Z }.

Inductive W6Error :=
  | Transport | Authentication | SessionExpired | UnknownProfile | CapabilityUnavailable | CapacityExhausted
  | InvalidCapacity | VerificationFailed | ManualRequiredError | ReadOnlyError.
#[global] Instance W6Error_eq_dec : EqDecision W6Error.
Proof. solve_decision. Defined.

(** The trait [Transport]. *)
Class W6Transport (W : Type) := {
  tr_login : string -> string -> M W (result unit W6Error);
  tr_renew : M W (result unit W6Error);
  tr_profile : M W (result Profile W6Error);
  tr_state : M W (result DeviceState W6Error);
  tr_apply : Capability -> M W (result unit W6Error);
  tr_restore : DeviceState -> M W (result unit W6Error)
}.

(** [derive(Ord)]: the order of the constructors. *)
Definition capability_rank (c : Capability) : Z :=
  match c with DisconnectNow => 0 | DenyWifiAssociation => 1 | DenyInternet => 2 | DenyLan => 3 | PersistentFilter => 4 end.
Definition capability_cmp (a b : Capability) : comparison := Z.compare (capability_rank a) (capability_rank b).

Definition same_capability_set (left right : list Capability) : bool :=
  bool_decide (vec_dedup (sort_by capability_cmp left) = vec_dedup (sort_by capability_cmp right)).

Definition enabled (s : DeviceState) (c : Capability) : bool :=
  match c with
  | DisconnectNow => disconnect_now s
  | DenyWifiAssociation => deny_wifi_association s
  | DenyInternet => deny_internet s
  | DenyLan => deny_lan s
  | PersistentFilter => persistent_filter s
  end.

Definition checked_add_u32 (a b : Z) : option Z := if a + b <=? u32_max then Some (a + b) else None.

Section Connector.
Context {W : Type} `{W6Transport W}.

Record Connector := {
  cn_transport : W; cn_profile : option Profile; cn_logged_in : bool; cn_known_profiles : list Profile;
  cn_status : DiscoveryStatus }.

Definition with_transport (w : W) (c : Connector) : Connector := {|
  cn_transport := w; cn_profile := cn_profile c; cn_logged_in := cn_logged_in c;
  cn_known_profiles := cn_known_profiles c; cn_status := cn_status c |}.
(** The facts of a session. *)
Definition with_session (profile : option Profile) (logged_in : bool) (status : DiscoveryStatus) (c : Connector) : Connector := {|
  cn_transport := cn_transport c; cn_profile := profile; cn_logged_in := logged_in;
  cn_known_profiles := cn_known_profiles c; cn_status := status |}.

(** A call of the transport. *)
Definition on_transport {A} (m : M W A) : M Connector A :=
  fun c => let '(a, w) := m (cn_transport c) in (a, with_transport w c).

Definition fixture_profile : Profile := {|
  fingerprint := "fw-1"; capabilities := [DisconnectNow; DenyWifiAssociation; DenyInternet; DenyLan; PersistentFilter];
  filter_capacity := Some W6_PERSISTENT_FILTER_LIMIT |}.
Definition with_profiles (transport : W) (known_profiles : list Profile) : Connector := {|
  cn_transport := transport; cn_profile := None; cn_logged_in := false; cn_known_profiles := known_profiles;
  cn_status := ManualProfile |}.
Definition connector_new (transport : W) : Connector := with_profiles transport [fixture_profile].

(** The decision on a profile after a login: what the connector may do, and the answer. *)
Definition judge_profile (known_profiles : list Profile) (p : Profile) : DiscoveryStatus * result Profile W6Error :=
  if bool_decide (fingerprint p = "") then (ManualProfile, Err ManualRequiredError)
  else
    match iter_find (fun k => bool_decide (fingerprint k = fingerprint p)) known_profiles with
    | None => (ManualProfile, Err ManualRequiredError)
    | Some known =>
      if negb (same_capability_set (capabilities known) (capabilities p))
         || negb (bool_decide (filter_capacity known = filter_capacity p))
      then (ReadOnlyProfile, Err ReadOnlyError)
      else (Trusted, Ok p)
    end.

Definition login (username password : string) : M Connector (result Profile W6Error) :=
  fun c =>
    (let! _ := (fun c => (tt, with_session None false ManualProfile c)) in
     try! _ := on_transport (tr_login username password) in
     let! _ := (fun c => (tt, with_session None true ManualProfile c)) in
     try! p := on_transport tr_profile in
     fun c =>
       let '(status, answer) := judge_profile (cn_known_profiles c) p in
       (answer, with_session (match answer with Ok p => Some p | Err _ => None end) true status c)) c.

Definition discovery_status (c : Connector) : DiscoveryStatus := cn_status c.

Definition require_trusted : M Connector (result unit W6Error) :=
  fun c => (match cn_status c with
            | Trusted => Ok tt | ReadOnlyProfile => Err ReadOnlyError | ManualProfile => Err ManualRequiredError
            end, c).
Definition known_profile : M Connector (result Profile W6Error) := fun c => (ok_or (cn_profile c) UnknownProfile, c).

(** One call with at most one renewal of the session in the whole operation; the flag of the
    operation is threaded and returned. *)
Definition with_budget {A} (m : M W (result A W6Error)) (renewed : bool) : M Connector (result (A * bool) W6Error) :=
  let! r := on_transport m in
  match r with
  | Ok a => mret_st (Ok (a, renewed))
  | Err SessionExpired =>
    if renewed then mret_st (Err SessionExpired)
    else
      try! _ := on_transport tr_renew in
      try! a := on_transport m in
      mret_st (Ok (a, true))
  | Err e => mret_st (Err e)
  end.
Definition call_state (renewed : bool) := with_budget tr_state renewed.
Definition apply_with_budget (c : Capability) (renewed : bool) := with_budget (tr_apply c) renewed.

(** The guard on the capacity for a persistent filter. *)
Definition filter_room (profile : Profile) (c : Capability) (used : Z) : result unit W6Error :=
  if negb (bool_decide (c = PersistentFilter)) then Ok tt
  else
    let? capacity := ok_or (filter_capacity profile) InvalidCapacity in
    if (capacity =? 0) || (W6_PERSISTENT_FILTER_LIMIT <? capacity) then Err InvalidCapacity
    else if capacity <=? used then Err CapacityExhausted
    else Ok tt.

Definition prepare_quarantine (request : RequestedQuarantine) : M Connector (result PreparedMutation W6Error) :=
  try! _ := require_trusted in
  let cap := capability request in
  try! profile := known_profile in
  if negb (advertises profile cap) then mret_st (Err CapabilityUnavailable)
  else
    try! p := call_state false in
    let previous := fst p in
    try! _ := mret_st (filter_room profile cap (filter_entries previous)) in
    mret_st (Ok {| pm_capability := cap; pm_previous := previous |}).

(** Whether the state read back shows the mutation. *)
Definition shows_mutation (profile : Profile) (cap : Capability) (before after : DeviceState) : bool :=
  if bool_decide (cap = PersistentFilter)
  then persistent_filter after
       && bool_decide (checked_add_u32 (filter_entries before) 1 = Some (filter_entries after))
       && is_some_and (fun capacity => filter_entries after <=? capacity) (filter_capacity profile)
       && (filter_entries after <=? W6_PERSISTENT_FILTER_LIMIT)
  else enabled after cap.

Definition verified_report (profile : Profile) (cap : Capability) (before after : DeviceState) : MutationReport := {|
  mr_verification := WVerified; mr_capability := cap; mr_previous := Some before; mr_used := filter_entries after;
  mr_remaining := option_map (fun c => saturating_sub_u32 c (filter_entries after)) (filter_capacity profile) |}.

(** The mutation, its read-back and the report. *)
Definition apply_and_verify (profile : Profile) (cap : Capability) (before : DeviceState) (renewed : bool)
  : M Connector (result MutationReport W6Error) :=
  try! r := apply_with_budget cap renewed in
  try! p := call_state (snd r) in
  let after := fst p in
  if negb (shows_mutation profile cap before after) then mret_st (Err VerificationFailed)
  else mret_st (Ok (verified_report profile cap before after)).

Definition apply_prepared (prepared : PreparedMutation) : M Connector (result MutationReport W6Error) :=
  try! _ := require_trusted in
  try! profile := known_profile in
  try! p := call_state false in
  if negb (bool_decide (fst p = pm_previous prepared)) then mret_st (Err VerificationFailed)
  else apply_and_verify profile (pm_capability prepared) (pm_previous prepared) (snd p).

Definition connector_quarantine (request : RequestedQuarantine) : M Connector (result MutationReport W6Error) :=
  try! _ := require_trusted in
  let cap := capability request in
  try! profile := known_profile in
  if negb (advertises profile cap) then mret_st (Err CapabilityUnavailable)
  else
    try! p := call_state false in
    let before := fst p in
    try! _ := mret_st (filter_room profile cap (filter_entries before)) in
    apply_and_verify profile cap before (snd p).

Definition persistent_filter_capacity : M Connector (result FilterCapacity W6Error) :=
  try! profile := known_profile in
  try! limit := mret_st (ok_or (filter_capacity profile) InvalidCapacity) in
  if (limit =? 0) || (W6_PERSISTENT_FILTER_LIMIT <? limit) then mret_st (Err InvalidCapacity)
  else
    try! p := call_state false in
    let used := filter_entries (fst p) in
    mret_st (Ok {| fc_used := used; fc_remaining := saturating_sub_u32 limit used; fc_limit := limit |}).

Definition read_state : M Connector (result DeviceState W6Error) :=
  try! _ := require_trusted in
  try! p := call_state false in
  mret_st (Ok (fst p)).

Definition connector_restore (previous : DeviceState) : M Connector (result Verification W6Error) :=
  try! _ := require_trusted in
  let! r := on_transport (tr_restore previous) in
  try! renewed := match r with
                  | Ok _ => mret_st (Ok false)
                  | Err SessionExpired =>
                    try! _ := on_transport tr_renew in
                    try! _ := on_transport (tr_restore previous) in
                    mret_st (Ok true)
                  | Err e => mret_st (Err e)
                  end in
  try! p := call_state renewed in
  if bool_decide (fst p = previous) then mret_st (Ok WVerified) else mret_st (Err VerificationFailed).
End Connector.
Arguments Connector : clear implicits.

(** ** Observing a transport *)
Inductive W6Call :=
  | CLogin (r : result unit W6Error) | CRenew (r : result unit W6Error) | CProfile (r : result Profile W6Error)
  | CState (r : result DeviceState W6Error) | CApply (c : Capability) (r : result unit W6Error)
  | CRestore (s : DeviceState) (r : result unit W6Error).

Class ObservedW6 (W : Type) `{W6Transport W} := {
  w6_calls : W -> list W6Call;
  w6_calls_login : forall u p w, w6_calls (snd (tr_login u p w)) = w6_calls w ++ [CLogin (fst (tr_login u p w))];
  w6_calls_renew : forall w, w6_calls (snd (tr_renew w)) = w6_calls w ++ [CRenew (fst (tr_renew w))];
  w6_calls_profile : forall w, w6_calls (snd (tr_profile w)) = w6_calls w ++ [CProfile (fst (tr_profile w))];
  w6_calls_state : forall w, w6_calls (snd (tr_state w)) = w6_calls w ++ [CState (fst (tr_state w))];
  w6_calls_apply : forall c w, w6_calls (snd (tr_apply c w)) = w6_calls w ++ [CApply c (fst (tr_apply c w))];
  w6_calls_restore : forall s w, w6_calls (snd (tr_restore s w)) = w6_calls w ++ [CRestore s (fst (tr_restore s w))]
}.

(** Any transport can be observed by recording its calls beside it. *)
Section Recorder.
Context {W : Type} `{W6Transport W}.
Definition W6Recorded : Type := W * list W6Call.
Definition w6_recording {A} (m : M W A) (c : A -> W6Call) : M W6Recorded A :=
  fun '(w, log) => let '(a, w') := m w in (a, (w', log ++ [c a])).
#[global] Instance w6_recorded : W6Transport W6Recorded := {
  tr_login u p := w6_recording (tr_login u p) CLogin;
  tr_renew := w6_recording tr_renew CRenew;
  tr_profile := w6_recording tr_profile CProfile;
  tr_state := w6_recording tr_state CState;
  tr_apply c := w6_recording (tr_apply c) (CApply c);
  tr_restore s := w6_recording (tr_restore s) (CRestore s)
}.
#[global] Instance w6_recorded_observed : ObservedW6 W6Recorded.
Proof.
  refine {| w6_calls := snd |};
    [intros u p [w log]|intros [w log]|intros [w log]|intros [w log]|intros c [w log]|intros s [w log]];
    simpl; unfold w6_recording; case_match; done.
Defined.
End Recorder.
Arguments W6Recorded : clear implicits.

(** ** Capability sets *)
#[export] Instance capability_cmp_order : CmpOrder capability_cmp.
Proof.
  split; unfold capability_cmp.
  - intros a b. rewrite Z.compare_eq_iff. destruct a, b; cbn; done.
  - intros. apply Z.compare_antisym.
  - intros a b c. rewrite !Z.compare_lt_iff. lia.
Qed.

(** Two strictly increasing lists with the same elements are equal. *)
Lemma strict_same_elements {A} (cmp : A -> A -> comparison) `{!CmpOrder cmp} (l r : list A) :
  StronglySorted (cmp_lt cmp) l -> StronglySorted (cmp_lt cmp) r -> (forall x, In x l <-> In x r) -> l = r.
Proof.
  assert (forall a, cmp_lt cmp a a -> False) as Hirr by (intros a Ha; unfold cmp_lt in Ha; rewrite cmp_refl in Ha; done).
  revert r. induction l as [|a l IH]; intros r Hl Hr Hin.
  - destruct r as [|b r]; [done|]. by destruct (proj2 (Hin b) (or_introl eq_refl)).
  - apply StronglySorted_inv in Hl as [Hl Ha]. destruct r as [|b r]; [by destruct (proj1 (Hin a) (or_introl eq_refl))|].
    apply StronglySorted_inv in Hr as [Hr Hb]. rewrite List.Forall_forall in Ha, Hb.
    assert (a = b) as <-.
    { destruct (proj1 (Hin a) (or_introl eq_refl)) as [->|Hab]; [done|]. destruct (proj2 (Hin b) (or_introl eq_refl)) as [->|Hba]; [done|].
      destruct (Hirr a). eapply cmp_trans; [exact (Ha b Hba)|exact (Hb a Hab)]. }
    f_equal. apply IH; [done|done|]. intros x. specialize (Hin x). cbn [In] in Hin. split; intros Hx.
    + destruct (proj1 Hin (or_intror Hx)) as [<-|]; [|done]. destruct (Hirr a). by apply Ha.
    + destruct (proj2 Hin (or_intror Hx)) as [<-|]; [|done]. destruct (Hirr a). by apply Hb.
Qed.

Lemma same_capability_set_spec left right :
  same_capability_set left right = true <-> forall c, In c left <-> In c right.
Proof.
  unfold same_capability_set. rewrite bool_decide_eq_true. split.
  - intros E c. rewrite <- (in_sort_by capability_cmp left), <- (in_sort_by capability_cmp right).
    rewrite <- (in_vec_dedup (sort_by capability_cmp left)), <- (in_vec_dedup (sort_by capability_cmp right)). by rewrite E.
  - intros Hin. apply (strict_same_elements capability_cmp); [apply sort_dedup_strict, _|apply sort_dedup_strict, _|].
    intros c. by rewrite !in_vec_dedup, !in_sort_by.
Qed.

(** ** Calls of an operation *)
(** A call under the budget of one renewal: its answer and the calls it made. *)
Inductive budgeted {A} (mk : result A W6Error -> W6Call) : bool -> result (A * bool) W6Error -> list W6Call -> Prop :=
| budgeted_once renewed a : budgeted mk renewed (Ok (a, renewed)) [mk (Ok a)]
| budgeted_refused renewed e : (e = SessionExpired -> renewed = true) -> budgeted mk renewed (Err e) [mk (Err e)]
| budgeted_expired e : budgeted mk false (Err e) [mk (Err SessionExpired); CRenew (Err e)]
| budgeted_again a : budgeted mk false (Ok (a, true)) [mk (Err SessionExpired); CRenew (Ok tt); mk (Ok a)]
| budgeted_lost e : budgeted mk false (Err e) [mk (Err SessionExpired); CRenew (Ok tt); mk (Err e)].

Fixpoint renewals (l : list W6Call) : nat :=
  match l with [] => 0 | CRenew _ :: l' => S (renewals l') | _ :: l' => renewals l' end.
(** The mutations that the transport accepted, and all that were tried. *)
Fixpoint applied (l : list W6Call) : list Capability :=
  match l with [] => [] | CApply c (Ok _) :: l' => c :: applied l' | _ :: l' => applied l' end.
Fixpoint tried (l : list W6Call) : list Capability :=
  match l with [] => [] | CApply c _ :: l' => c :: tried l' | _ :: l' => tried l' end.
Fixpoint restores (l : list W6Call) : list DeviceState :=
  match l with [] => [] | CRestore s _ :: l' => s :: restores l' | _ :: l' => restores l' end.

Lemma renewals_app l r : renewals (l ++ r) = (renewals l + renewals r)%nat.
Proof. induction l as [|[] l IH]; cbn; lia. Qed.
Lemma applied_app l r : applied (l ++ r) = applied l ++ applied r.
Proof. induction l as [|[| | | |c [|]|] l IH]; cbn; by rewrite ?IH. Qed.
Lemma tried_app l r : tried (l ++ r) = tried l ++ tried r.
Proof. induction l as [|[] l IH]; cbn; by rewrite ?IH. Qed.
Lemma restores_app l r : restores (l ++ r) = restores l ++ restores r.
Proof. induction l as [|[] l IH]; cbn; by rewrite ?IH. Qed.
Create Rewrite HintDb w6_log.
#[export] Hint Rewrite renewals_app applied_app tried_app restores_app : w6_log.

(** What a mutation may do: at most one renewal, one accepted mutation of the capability. *)
Record mutation_log (cap : Capability) (log : list W6Call) : Prop := {
  ml_renewals : (renewals log <= 1)%nat;
  ml_applied : applied log = [] \/ applied log = [cap];
  ml_tried : Forall (eq cap) (tried log);
  ml_restores : restores log = [] }.

Section Operations.
Context {W : Type} `{W6Transport W} `{!ObservedW6 W}.
Definition cn_calls (c : Connector W) : list W6Call := w6_calls (cn_transport c).

(** An operation that only talks to the transport keeps the session. *)
Definition same_session (c c' : Connector W) : Prop := exists w, c' = with_transport w c.

Lemma same_session_refl c : same_session c c.
Proof. exists (cn_transport c). by destruct c. Qed.
Lemma same_session_trans a b c : same_session a b -> same_session b c -> same_session a c.
Proof. intros [w ->] [w' ->]. by exists w'. Qed.

Lemma with_budget_spec {A} (m : M W (result A W6Error)) mk renewed c :
  (forall w, w6_calls (snd (m w)) = w6_calls w ++ [mk (fst (m w))]) ->
  wp (with_budget m renewed) (fun r c' => same_session c c' /\ exists log, budgeted mk renewed r log /\ cn_calls c' = cn_calls c ++ log) c.
Proof.
  intros Hm. unfold with_budget, wp, mbind_st, on_transport, cn_calls. pose proof (Hm (cn_transport c)) as H1. destruct (m (cn_transport c)) as [r w1]. cbn [fst snd] in *.
  destruct r as [a|e]; cbn [fst snd].
  { split; [by exists w1|]. exists [mk (Ok a)]. split; [constructor|exact H1]. }
  assert (forall e', (e' = SessionExpired -> renewed = true) -> e' = e ->
    same_session c (with_transport w1 c) /\ exists log, budgeted mk renewed (Err e') log /\ w6_calls w1 = w6_calls (cn_transport c) ++ log) as Hend.
  { intros e' Hr ->. split; [by exists w1|]. exists [mk (Err e)]. split; [by constructor|exact H1]. }
  destruct e; try (apply Hend; done). destruct renewed; [exact (Hend SessionExpired (fun _ => eq_refl) eq_refl)|]. clear Hend. unfold try_bind, mbind_st, mret_st.
  cbn [with_transport cn_transport]. pose proof (w6_calls_renew w1) as H2. destruct (tr_renew w1) as [[[]|e] w2]; cbn [fst snd] in *.
  - cbn [with_transport cn_transport]. pose proof (Hm w2) as H3. destruct (m w2) as [[a|e] w3]; cbn [fst snd with_transport cn_transport] in *.
    all: split; [by exists w3|]; eexists; split; [econstructor|rewrite H3, H2, H1, <- !app_assoc; reflexivity].
  - split; [by exists w2|]. exists [mk (Err SessionExpired); CRenew (Err e)]. split; [constructor|]. cbn. rewrite H2, H1, <- !app_assoc. reflexivity.
Qed.

Lemma call_state_spec renewed c :
  wp (call_state renewed) (fun r c' => same_session c c' /\ exists log, budgeted CState renewed r log /\ cn_calls c' = cn_calls c ++ log) c.
Proof. apply with_budget_spec, w6_calls_state. Qed.
Lemma apply_with_budget_spec cap renewed c :
  wp (apply_with_budget cap renewed) (fun r c' => same_session c c' /\ exists log, budgeted (CApply cap) renewed r log /\ cn_calls c' = cn_calls c ++ log) c.
Proof. apply with_budget_spec, w6_calls_apply. Qed.

(** What the read-back of a verified mutation shows. *)
Definition shown (profile : Profile) (cap : Capability) (before after : DeviceState) : Prop :=
  enabled after cap = true /\
  (cap = PersistentFilter -> filter_entries after = filter_entries before + 1 /\ filter_entries after <= W6_PERSISTENT_FILTER_LIMIT /\
     exists capacity, filter_capacity profile = Some capacity /\ filter_entries after <= capacity).

Lemma shows_mutation_shown profile cap before after : shows_mutation profile cap before after = true -> shown profile cap before after.
Proof.
  unfold shows_mutation, shown. destruct (bool_decide_reflect (cap = PersistentFilter)) as [->|Hne]; [|done].
  intros Hs. bprop. split; [done|]. intros _. match goal with Hc : is_some_and _ _ = true |- _ => apply is_some_and_true in Hc as (n & Hn & Hle) end. bprop.
  match goal with Hc : checked_add_u32 _ _ = _ |- _ => unfold checked_add_u32 in Hc; case_match; simplify_eq end. split_and!; [done|done|by exists n].
Qed.

(** What a mutation that reports success has done: it was trusted, the transport accepted one
    mutation, and the last call read a state that shows it. *)
Definition verified_run (cap : Capability) (c : Connector W) (log : list W6Call) (report : MutationReport) : Prop :=
  cn_status c = Trusted /\ applied log = [cap] /\ mr_verification report = WVerified /\ mr_capability report = cap /\
  exists profile before after log0, cn_profile c = Some profile /\ log = log0 ++ [CState (Ok after)] /\
    mr_previous report = Some before /\ mr_used report = filter_entries after /\ shown profile cap before after.
Definition mutation_run (cap : Capability) (c : Connector W) (r : result MutationReport W6Error) (c' : Connector W) : Prop :=
  same_session c c' /\ exists log, cn_calls c' = cn_calls c ++ log /\ mutation_log cap log /\ (forall report, r = Ok report -> verified_run cap c log report).

Lemma budgeted_state_effects renewed r log : budgeted CState renewed r log ->
  applied log = [] /\ tried log = [] /\ restores log = [] /\ (renewals log <= if renewed then 0 else 1)%nat /\
  (forall a renewed', r = Ok (a, renewed') -> (renewals log = if renewed then 0 else if renewed' then 1 else 0)%nat /\ (renewed = true -> renewed' = true) /\ exists log0, log = log0 ++ [CState (Ok a)]).
Proof.
  intros []; cbn; split_and!; try done; try (destruct renewed0; lia); intros ?? [= <- <-].
  - destruct renewed0; split_and!; try done; by exists [].
  - split_and!; try done. by exists [CState (Err SessionExpired); CRenew (Ok tt)].
Qed.
Lemma budgeted_apply_effects cap renewed r log : budgeted (CApply cap) renewed r log ->
  Forall (eq cap) (tried log) /\ restores log = [] /\ (renewals log <= if renewed then 0 else 1)%nat /\
  (applied log = match r with Ok _ => [cap] | Err _ => [] end) /\
  (forall a renewed', r = Ok (a, renewed') -> (renewals log = if renewed then 0 else if renewed' then 1 else 0)%nat /\ (renewed = true -> renewed' = true)).
Proof.
  intros []; cbn; split_and!; try done; try (destruct renewed0; lia); try (repeat (apply Forall_cons_2 || apply Forall_nil_2); done);
    intros ?? [= <- <-]; destruct renewed0 || idtac; split; done.
Qed.

Lemma apply_and_verify_run profile cap before (renewed : bool) c0 c log :
  cn_status c0 = Trusted -> cn_profile c0 = Some profile -> same_session c0 c ->
  cn_calls c = cn_calls c0 ++ log -> applied log = [] -> tried log = [] -> restores log = [] ->
  (renewals log <= if renewed then 1 else 0)%nat ->
  wp (apply_and_verify profile cap before renewed)
     (fun r c' => mutation_run cap c0 r c' /\ forall report, r = Ok report -> mr_previous report = Some before) c.
Proof.
  intros Ht Hp Hs Hc Ha Htr Hr Hn. unfold apply_and_verify. apply wp_try. eapply wp_mono; [apply apply_with_budget_spec|].
  intros r1 c1 (Hs1 & l1 & Hb1 & Hc1). cbv beta. apply budgeted_apply_effects in Hb1 as (B1 & B2 & B3 & B4 & B5).
  assert (same_session c0 c1) as Hs01 by (by eapply same_session_trans). rewrite Hc, <- app_assoc in Hc1.
  destruct r1 as [[[] ren1]|e]; [|split; [|done]; split; [done|]; exists (log ++ l1); split_and!; [done| |done]; split; autorewrite with w6_log].
  2: destruct renewed; lia. 2: rewrite Ha, B4; by left. 2: by rewrite Htr. 2: by rewrite Hr, B2.
  destruct (B5 tt ren1 eq_refl) as [R1 R2]. apply wp_try. eapply wp_mono; [apply call_state_spec|]. intros r2 c2 (Hs2 & l2 & Hb2 & Hc2). cbv beta.
  apply budgeted_state_effects in Hb2 as (D1 & D2 & D3 & D4 & D5).
  assert (same_session c0 c2) as Hs02 by (by eapply same_session_trans). rewrite Hc1, <- !app_assoc in Hc2.
  assert (mutation_log cap (log ++ l1 ++ l2)) as Hml.
  { split; autorewrite with w6_log; [destruct renewed; [specialize (R2 eq_refl); subst ren1|destruct ren1]; cbn in *; lia|rewrite Ha, B4, D1; by right|by rewrite Htr, D2, app_nil_r|by rewrite Hr, B2, D3]. }
  destruct r2 as [[after ren2]|e]; [|split; [split; [done|]; exists (log ++ l1 ++ l2); split_and!; done|done]]. cbn [fst].
  destruct (shows_mutation profile cap before after) eqn:Esh; cbn [negb]; apply wp_ret.
  2: split; [split; [done|]; exists (log ++ l1 ++ l2); split_and!; done|done].
  destruct (D5 after ren2 eq_refl) as (_ & _ & l0 & ->). split; [|by intros report [= <-]]. split; [done|]. exists (log ++ l1 ++ l0 ++ [CState (Ok after)]).
  split_and!; [done|done|]. intros report [= <-]. split_and!; [done| |done|done|].
  { autorewrite with w6_log. autorewrite with w6_log in D1. by rewrite Ha, B4, D1. }
  exists profile, before, after, (log ++ l1 ++ l0). rewrite !app_assoc. split_and!; try done. by apply shows_mutation_shown.
Qed.

Lemma mutation_run_nothing cap c e : mutation_run cap c (Err e) c.
Proof. split; [apply same_session_refl|]. exists []. rewrite app_nil_r. split_and!; [done| |done]. split; cbn; auto. Qed.

Lemma wp_on_transport {A} (m : M W A) Q c :
  Q (fst (m (cn_transport c))) (with_transport (snd (m (cn_transport c))) c) -> wp (on_transport m) Q c.
Proof. unfold wp, on_transport. by destruct (m (cn_transport c)). Qed.
Lemma wp_trusted {A} (k : unit -> M (Connector W) (result A W6Error)) Q c :
  (cn_status c = Trusted -> wp (k tt) Q c) -> (forall e, cn_status c <> Trusted -> Q (Err e) c) -> wp (try_bind require_trusted k) Q c.
Proof. intros Hk He. apply wp_try. unfold require_trusted, wp. cbn. destruct (cn_status c); [by apply Hk|by apply He..]. Qed.
Lemma wp_profile {A} (k : Profile -> M (Connector W) (result A W6Error)) Q c :
  (forall p, cn_profile c = Some p -> wp (k p) Q c) -> Q (Err UnknownProfile) c -> wp (try_bind known_profile k) Q c.
Proof. intros Hk He. apply wp_try. unfold known_profile, wp. cbn. destruct (cn_profile c) as [p|]; [by apply Hk|done]. Qed.

(** The first reading of the state, with its effects on the budget. *)
Lemma wp_first_state {A} (k : DeviceState * bool -> M (Connector W) (result A W6Error)) Q c :
  (forall s (renewed : bool) c' log, same_session c c' -> cn_calls c' = cn_calls c ++ log -> applied log = [] -> tried log = [] -> restores log = [] ->
     (renewals log <= if renewed then 1 else 0)%nat -> (exists log0, log = log0 ++ [CState (Ok s)]) -> wp (k (s, renewed)) Q c') ->
  (forall e c' log, same_session c c' -> cn_calls c' = cn_calls c ++ log -> applied log = [] -> tried log = [] -> restores log = [] ->
     (renewals log <= 1)%nat -> Q (Err e) c') ->
  wp (try_bind (call_state false) k) Q c.
Proof.
  intros Hk He. apply wp_try. eapply wp_mono; [apply call_state_spec|]. intros r c' (Hs & log & Hb & Hc).
  apply budgeted_state_effects in Hb as (D1 & D2 & D3 & D4 & D5). destruct r as [[s ren]|e]; [|by eapply He].
  destruct (D5 s ren eq_refl) as (D6 & _ & D7). eapply Hk; try done. rewrite D6. by destruct ren.
Qed.

Lemma quarantine_run request c : wp (connector_quarantine request) (fun r c' => mutation_run (capability request) c r c') c.
Proof.
  unfold connector_quarantine.
  apply wp_trusted; [intros Ht|intros; apply mutation_run_nothing]. apply wp_profile; [intros p Hp|apply mutation_run_nothing].
  destruct (advertises p (capability request)); cbn [negb]; [|apply mutation_run_nothing].
  apply wp_first_state.
  - intros s ren c' log Hs Hc Ha Htr Hr Hn _. cbn [fst snd]. apply wp_try. unfold wp, mret_st. cbn [fst snd].
    destruct (filter_room p _ _) as [[]|e]. { eapply wp_mono; [by eapply apply_and_verify_run|]. by intros ? ? [? _]. }
    split; [done|]. exists log. split_and!; [done| |done]. split; [destruct ren; lia|by left|by rewrite Htr|done].
  - intros e c' log Hs Hc Ha Htr Hr Hn. split; [done|]. exists log. split_and!; [done| |done]. split; [lia|by left|by rewrite Htr|done].
Qed.
Lemma apply_prepared_run prepared c : wp (apply_prepared prepared)
  (fun r c' => mutation_run (pm_capability prepared) c r c' /\ forall report, r = Ok report -> mr_previous report = Some (pm_previous prepared)) c.
Proof.
  unfold apply_prepared.
  apply wp_trusted; [intros Ht|intros; split; [apply mutation_run_nothing|done]]. apply wp_profile; [intros p Hp|split; [apply mutation_run_nothing|done]].
  apply wp_first_state.
  - intros s ren c' log Hs Hc Ha Htr Hr Hn _. cbn [fst snd]. case_bool_decide as Es; cbn [negb]; [by eapply apply_and_verify_run|].
    split; [|done]. split; [done|]. exists log. split_and!; [done| |done]. split; [destruct ren; lia|by left|by rewrite Htr|done].
  - intros e c' log Hs Hc Ha Htr Hr Hn. split; [|done]. split; [done|]. exists log. split_and!; [done| |done]. split; [lia|by left|by rewrite Htr|done].
Qed.

(** C17. A W6 mutation happens at most once and is proved: one operation renews the session at
    most once, has at most one mutation accepted, of the requested capability only, and never
    restores. When it reports success the profile was trusted, exactly one mutation was accepted,
    and the last call read a state that shows the capability enabled; a persistent filter then
    uses exactly one entry more, within the capacity of the profile and the limit of 32. *)
Theorem w6_mutates_once_and_verifies c :
  (forall request, wp (connector_quarantine request) (fun r c' => mutation_run (capability request) c r c') c) /\
  (forall prepared, wp (apply_prepared prepared)
     (fun r c' => mutation_run (pm_capability prepared) c r c' /\ forall report, r = Ok report -> mr_previous report = Some (pm_previous prepared)) c).
Proof. split; [intros; apply quarantine_run|intros; apply apply_prepared_run]. Qed.

(** The profile is one that the owner configured. *)
Definition owner_known (known : list Profile) (p : Profile) : Prop :=
  fingerprint p <> "" /\ exists k, iter_find (fun k => bool_decide (fingerprint k = fingerprint p)) known = Some k /\
    fingerprint k = fingerprint p /\ (forall c, In c (capabilities k) <-> In c (capabilities p)) /\ filter_capacity k = filter_capacity p.

Lemma judge_profile_spec known p status answer : judge_profile known p = (status, answer) ->
  (status = Trusted <-> owner_known known p) /\ answer = match status with Trusted => Ok p | ReadOnlyProfile => Err ReadOnlyError | ManualProfile => Err ManualRequiredError end.
Proof.
  unfold judge_profile, owner_known. case_bool_decide as Ef; [intros [= <- <-]; split; [|done]; split; [done|by intros [? _]]|].
  destruct (iter_find _ known) as [k|] eqn:Ek; [|intros [= <- <-]; split; [|done]; split; [done|by intros (_ & ? & ? & _)]].
  apply iter_find_some in Ek as Hk. destruct Hk as [_ Hk]. bprop.
  destruct (same_capability_set _ _) eqn:Es; cbn [negb orb].
  - rewrite same_capability_set_spec in Es. case_bool_decide as Ec; cbn [negb]; intros [= <- <-]; (split; [|done]); split; try done.
    + intros _. split; [done|]. by exists k.
    + intros (_ & k' & [= <-] & _ & _ & Hc). done.
  - intros [= <- <-]. split; [|done]. split; [done|]. intros (_ & k' & [= <-] & _ & Hs & _). rewrite <- same_capability_set_spec in Hs. congruence.
Qed.

(** Only a profile that the owner configured is ever mutated: a login ends trusted exactly when it
    succeeds, and then the profile that the appliance reported has the fingerprint, the set of
    capabilities and the capacity of a configured one; otherwise the connector forgets the
    profile. A connector that is not trusted makes no call at all: every operation on the state of
    the appliance fails and leaves the connector as it was. *)
Theorem only_known_profiles_are_mutated (c : Connector W) :
  (forall username password, wp (login username password) (fun r c' =>
     cn_known_profiles c' = cn_known_profiles c /\ (cn_status c' = Trusted <-> exists p, r = Ok p) /\
     match r with
     | Ok p => cn_profile c' = Some p /\ owner_known (cn_known_profiles c) p
     | Err _ => cn_profile c' = None
     end) c) /\
  (cn_status c <> Trusted ->
   (forall request, exists e, connector_quarantine request c = (Err e, c)) /\
   (forall request, exists e, prepare_quarantine request c = (Err e, c)) /\
   (forall prepared, exists e, apply_prepared prepared c = (Err e, c)) /\
   (forall previous, exists e, connector_restore previous c = (Err e, c)) /\
   (exists e, read_state c = (Err e, c))).
Proof.
  split.
  - intros u p. unfold login, wp, mbind_st, try_bind, on_transport, mbind_st. cbn [with_session cn_transport].
    destruct (tr_login u p (cn_transport c)) as [[[]|e] w1]; [|cbn; split_and!; try done; split; [done|by intros [? ?]]].
    cbn. destruct (tr_profile w1) as [[q|e] w2]; [|cbn; split_and!; try done; split; [done|by intros [? ?]]].
    cbn. destruct (judge_profile (cn_known_profiles c) q) as [status answer] eqn:Ej. apply judge_profile_spec in Ej as [Hj ->].
    destruct status; cbn; split_and!; try done; try (split; [done|by intros [? ?]]); [split; [by exists q|done]|by apply Hj].
  - intros Ht. unfold connector_quarantine, prepare_quarantine, apply_prepared, connector_restore, read_state, try_bind, mbind_st, require_trusted.
    destruct (cn_status c); [done|..]; cbn; split_and!; intros; by eexists.
Qed.

(** A restoration that succeeds was read back: the last call read exactly the wanted state. *)
Lemma restore_is_read_back previous (c : Connector W) :
  wp (connector_restore previous) (fun r c' => forall v, r = Ok v ->
    v = WVerified /\ cn_status c = Trusted /\ same_session c c' /\ exists log, cn_calls c' = cn_calls c ++ log ++ [CState (Ok previous)]) c.
Proof.
  unfold connector_restore. apply wp_trusted; [intros Ht|done].
  assert (forall ren c1 log1, same_session c c1 -> cn_calls c1 = cn_calls c ++ log1 ->
    wp (try! p := call_state ren in if bool_decide (fst p = previous) then mret_st (Ok WVerified) else mret_st (Err VerificationFailed))
      (fun r c' => forall v, r = Ok v -> v = WVerified /\ cn_status c = Trusted /\ same_session c c' /\ exists log, cn_calls c' = cn_calls c ++ log ++ [CState (Ok previous)]) c1) as Hend.
  { intros ren c1 log1 Hs Hc. apply wp_try. eapply wp_mono; [apply call_state_spec|]. intros r c2 (Hs2 & l2 & Hb & Hc2).
    apply budgeted_state_effects in Hb as (_ & _ & _ & _ & D). destruct r as [[s r']|e]; [|done]. cbn [fst]. case_bool_decide as Es; [|done]. subst s.
    apply wp_ret. intros v [= <-]. destruct (D previous r' eq_refl) as (_ & _ & l0 & ->). split_and!; [done|done|by eapply same_session_trans|].
    exists (log1 ++ l0). by rewrite Hc2, Hc, <- !app_assoc. }
  apply wp_bind, wp_on_transport. pose proof (w6_calls_restore previous (cn_transport c)) as H1.
  destruct (tr_restore previous (cn_transport c)) as [r w1]. cbn [fst snd] in *. apply wp_try.
  destruct r as [[]|e]; [eapply (Hend false); [by exists w1|exact H1]|]. destruct e; try done.
  apply wp_try, wp_on_transport. cbn [with_transport cn_transport]. pose proof (w6_calls_renew w1) as H2. destruct (tr_renew w1) as [[[]|e] w2]; [|done].
  cbn [fst snd] in *. apply wp_try, wp_on_transport. cbn [with_transport cn_transport]. pose proof (w6_calls_restore previous w2) as H3.
  destruct (tr_restore previous w2) as [[[]|e] w3]; [|done]. cbn [fst snd] in *.
  eapply (Hend true); [by exists w3|]. unfold cn_calls. cbn. rewrite H3, H2, H1, <- !app_assoc. reflexivity.
Qed.
End Operations.
