(* ===== verification/PolicyStore.v ===== *)
(** * Policy repository

    crates/lattice-store/src/policy.rs, and of crates/lattice-store/src/checkpoint.rs the record
    of verified blocks. The tables of the database are a record; a transaction is one step from
    a database to the next, which an error leaves as it was. The column [device_id] holds the
    device itself: the text of a device identifier reads back and sorts as the identifier does.
    serde_json and the times of chrono are parameters. *)

From S2P Require Import Prelude Time Text Domain Policy Order.

(** serde_json on the types of the columns: what is written reads back. *)
Class Serde (A : Type) := {
  to_json : A -> string;
  from_json : string -> option A;
  from_to_json : forall a, from_json (to_json a) = Some a
}.

(** [to_rfc3339] and [parse_from_rfc3339]. *)
Class ChronoText := {
  to_rfc3339 : DateTime -> string;
  parse_from_rfc3339 : string -> option DateTime
}.

Lemma to_json_inj {A} `{Serde A} (a b : A) : to_json a = to_json b -> a = b.
Proof. intros E. apply (f_equal from_json) in E. rewrite !from_to_json in E. by simplify_eq. Qed.

Inductive EnforcementStatus := NotRequested | Verified | ManualRequired | Failed.
#[global] Instance EnforcementStatus_eq_dec : EqDecision EnforcementStatus.
Proof. solve_decision. Defined.
#[global] Instance DeadlineKind_eq_dec : EqDecision DeadlineKind.
Proof. solve_decision. Defined.
#[global] Instance Deadline_eq_dec : EqDecision Deadline.
Proof. solve_decision. Defined.
#[global] Instance DeadlineWarning_eq_dec : EqDecision DeadlineWarning.
Proof. solve_decision. Defined.
#[global] Instance PolicyReason_eq_dec : EqDecision PolicyReason.
Proof. solve_decision. Defined.
#[global] Instance Evaluation_eq_dec : EqDecision Evaluation.
Proof. solve_decision. Defined.

Record PolicyChanged := {
  pc_device_id : DeviceId; pc_policy_version : Z; pc_evaluation : Evaluation; pc_requested_action : RequestedAction;
  pc_evidence_summary : string; pc_enforcement_result : EnforcementStatus; pc_undo_available : bool }.
#[global] Instance PolicyChanged_eq_dec : EqDecision PolicyChanged.
Proof. solve_decision. Defined.

(** The library code that the repository calls. *)
Class PolicyLibs := {
  #[global] libs_chrono :: ChronoText;
  #[global] libs_identification :: Serde Identification;
  #[global] libs_owner :: Serde OwnerDecision;
  #[global] libs_risk :: Serde RiskSignal;
  #[global] libs_protection :: Serde Protection;
  #[global] libs_action :: Serde RequestedAction;
  #[global] libs_changed :: Serde PolicyChanged
}.

Record ActuationAttempt := { at_policy_version : Z; at_action : RequestedAction; at_decision : option PolicyChanged }.
Inductive ActuationReservation := Reserved | Existing.
Inductive PendingDecision := Exact (decision : PolicyChanged) | Legacy.

(** ** Tables *)
Record PolicyRow := {
  pr_baseline_exempt : Z; pr_identification_json : string; pr_owner_decision_json : string; pr_risk_json : string;
  pr_protection_json : string; pr_extension_until : option string; pr_extension_used : Z; pr_policy_version : Z;
  pr_enrolled_at : string; pr_updated_at : string; pr_decision_fingerprint : option string;
  pr_published_decision_json : option string; pr_enforcement_retry_at : option string;
  pr_release_retry_action_json : option string; pr_release_retry_at : option string }.
Record JournalRow := { jr_policy_version : Z; jr_action_json : string; jr_reserved_at : string; jr_decision_json : option string }.
Record OutboxRow := { ob_device_id : DeviceId; ob_fingerprint : string; ob_created_at : string; ob_decision_json : option string }.
Record TransitionRow := {
  tn_id : Z; tn_device_id : DeviceId; tn_from_state : string; tn_to_state : string; tn_occurred_at : string;
  tn_reason : string; tn_trigger_source : string; tn_trigger_kind : string; tn_evidence_observed_at : string;
  tn_trigger_arrival_at : string }.

Record PolicyDb := {
  db_devices : gmap DeviceId string;
  db_install_state : bool;
  db_policy_install_state : option string;
  db_device_policy : gmap DeviceId PolicyRow;
  db_outbox : list OutboxRow;
  db_journal : gmap DeviceId JournalRow;
  db_transitions : list TransitionRow }.

Definition with_install (v : option string) (db : PolicyDb) : PolicyDb := {|
  db_devices := db_devices db; db_install_state := db_install_state db; db_policy_install_state := v;
  db_device_policy := db_device_policy db; db_outbox := db_outbox db; db_journal := db_journal db; db_transitions := db_transitions db |}.
Definition with_policies (v : gmap DeviceId PolicyRow) (db : PolicyDb) : PolicyDb := {|
  db_devices := db_devices db; db_install_state := db_install_state db; db_policy_install_state := db_policy_install_state db;
  db_device_policy := v; db_outbox := db_outbox db; db_journal := db_journal db; db_transitions := db_transitions db |}.
Definition with_outbox (v : list OutboxRow) (db : PolicyDb) : PolicyDb := {|
  db_devices := db_devices db; db_install_state := db_install_state db; db_policy_install_state := db_policy_install_state db;
  db_device_policy := db_device_policy db; db_outbox := v; db_journal := db_journal db; db_transitions := db_transitions db |}.
Definition with_journal (v : gmap DeviceId JournalRow) (db : PolicyDb) : PolicyDb := {|
  db_devices := db_devices db; db_install_state := db_install_state db; db_policy_install_state := db_policy_install_state db;
  db_device_policy := db_device_policy db; db_outbox := db_outbox db; db_journal := v; db_transitions := db_transitions db |}.
Definition with_transitions (v : list TransitionRow) (db : PolicyDb) : PolicyDb := {|
  db_devices := db_devices db; db_install_state := db_install_state db; db_policy_install_state := db_policy_install_state db;
  db_device_policy := db_device_policy db; db_outbox := db_outbox db; db_journal := db_journal db; db_transitions := v |}.

(** The columns that one statement writes together. *)
Definition set_published (fingerprint json : string) (updated_at : string) (r : PolicyRow) : PolicyRow := {|
  pr_baseline_exempt := pr_baseline_exempt r; pr_identification_json := pr_identification_json r;
  pr_owner_decision_json := pr_owner_decision_json r; pr_risk_json := pr_risk_json r; pr_protection_json := pr_protection_json r;
  pr_extension_until := pr_extension_until r; pr_extension_used := pr_extension_used r; pr_policy_version := pr_policy_version r;
  pr_enrolled_at := pr_enrolled_at r; pr_updated_at := updated_at; pr_decision_fingerprint := Some fingerprint;
  pr_published_decision_json := Some json; pr_enforcement_retry_at := pr_enforcement_retry_at r;
  pr_release_retry_action_json := pr_release_retry_action_json r; pr_release_retry_at := pr_release_retry_at r |}.
Definition set_facts (identification owner risk protection updated_at : string) (r : PolicyRow) : PolicyRow := {|
  pr_baseline_exempt := pr_baseline_exempt r; pr_identification_json := identification;
  pr_owner_decision_json := owner; pr_risk_json := risk; pr_protection_json := protection;
  pr_extension_until := pr_extension_until r; pr_extension_used := pr_extension_used r; pr_policy_version := pr_policy_version r;
  pr_enrolled_at := pr_enrolled_at r; pr_updated_at := updated_at; pr_decision_fingerprint := pr_decision_fingerprint r;
  pr_published_decision_json := pr_published_decision_json r; pr_enforcement_retry_at := pr_enforcement_retry_at r;
  pr_release_retry_action_json := pr_release_retry_action_json r; pr_release_retry_at := pr_release_retry_at r |}.
Definition set_extension (until updated_at : string) (r : PolicyRow) : PolicyRow := {|
  pr_baseline_exempt := pr_baseline_exempt r; pr_identification_json := pr_identification_json r;
  pr_owner_decision_json := pr_owner_decision_json r; pr_risk_json := pr_risk_json r; pr_protection_json := pr_protection_json r;
  pr_extension_until := Some until; pr_extension_used := 1; pr_policy_version := pr_policy_version r;
  pr_enrolled_at := pr_enrolled_at r; pr_updated_at := updated_at; pr_decision_fingerprint := pr_decision_fingerprint r;
  pr_published_decision_json := pr_published_decision_json r; pr_enforcement_retry_at := pr_enforcement_retry_at r;
  pr_release_retry_action_json := pr_release_retry_action_json r; pr_release_retry_at := pr_release_retry_at r |}.
Definition set_retries (enforcement release_action release_at : option string) (r : PolicyRow) : PolicyRow := {|
  pr_baseline_exempt := pr_baseline_exempt r; pr_identification_json := pr_identification_json r;
  pr_owner_decision_json := pr_owner_decision_json r; pr_risk_json := pr_risk_json r; pr_protection_json := pr_protection_json r;
  pr_extension_until := pr_extension_until r; pr_extension_used := pr_extension_used r; pr_policy_version := pr_policy_version r;
  pr_enrolled_at := pr_enrolled_at r; pr_updated_at := pr_updated_at r; pr_decision_fingerprint := pr_decision_fingerprint r;
  pr_published_decision_json := pr_published_decision_json r; pr_enforcement_retry_at := enforcement;
  pr_release_retry_action_json := release_action; pr_release_retry_at := release_at |}.

(** Errors of the repository: a failing statement, a text that does not parse, a condition of
    [ensure!], a missing row, and an overflow of a time, which panics. *)
Inductive StoreError := Constraint | Corrupt (label : string) | Refused (message : string) | MissingRow (context : string) | TimeOverflow.

Definition SQL_BATCH_SIZE : nat := 256.
Definition STORE_BASELINE_WINDOW : Duration := hours 48.
Definition STORE_POLICY_VERSION : Z := 1.

(** ** Statements *)
Definition update_policy (d : DeviceId) (f : PolicyRow -> PolicyRow) (db : PolicyDb) : PolicyDb :=
  with_policies (alter f d (db_device_policy db)) db.
Definition enrolled (d : DeviceId) (db : PolicyDb) : bool := bool_decide (is_Some (db_device_policy db !! d)).
Definition outbox_at (d : DeviceId) (fingerprint : string) (r : OutboxRow) : bool :=
  bool_decide (ob_device_id r = d) && bool_decide (ob_fingerprint r = fingerprint).

Section Repository.
Context `{Calendar} `{PolicyLibs}.

Definition Repo (A : Type) : Type := M PolicyDb (result A StoreError).

Definition encode {A} `{Serde A} (value : A) : string := to_json value.
Definition decode {A} `{Serde A} (value label : string) : result A StoreError := ok_or (from_json value) (Corrupt label).
Definition parse_time (value label : string) : result DateTime StoreError := ok_or (parse_from_rfc3339 value) (Corrupt label).
(** [map(..).transpose()] *)
Definition transpose {A B} (f : A -> result B StoreError) (o : option A) : result (option B) StoreError :=
  match o with None => Ok None | Some a => let? b := f a in Ok (Some b) end.
(** [t + d], which panics out of the calendar. *)
Definition plus (t : DateTime) (d : Duration) : result DateTime StoreError := ok_or (checked_add_signed t d) TimeOverflow.
Definition reading {A} (f : PolicyDb -> result A StoreError) : Repo A := fun db => (f db, db).

(** *** The journal *)
Definition decode_attempt (r : JournalRow) : result ActuationAttempt StoreError :=
  if negb ((0 <=? jr_policy_version r) && (jr_policy_version r <=? u32_max)) then Err (Corrupt "journal policy version")
  else
    let? action := decode (jr_action_json r) "journal action" in
    let? decision := transpose (fun v => decode v "journal decision") (jr_decision_json r) in
    Ok {| at_policy_version := jr_policy_version r; at_action := action; at_decision := decision |}.
Definition actuation_attempt_in (d : DeviceId) (db : PolicyDb) : result (option ActuationAttempt) StoreError :=
  transpose decode_attempt (db_journal db !! d).
Definition actuation_attempt (d : DeviceId) : Repo (option ActuationAttempt) := reading (actuation_attempt_in d).

Definition journal_matches (policy_version : Z) (action : RequestedAction) (r : JournalRow) : bool :=
  (jr_policy_version r =? policy_version) && bool_decide (jr_action_json r = encode action).

Definition reserve_actuation_with_decision (d : DeviceId) (policy_version : Z) (action : RequestedAction) (now : DateTime)
    (decision : option PolicyChanged) : Repo ActuationReservation :=
  fun db =>
    match actuation_attempt_in d db with
    | Err e => (Err e, db)
    | Ok (Some existing) =>
      if (at_policy_version existing =? policy_version) && bool_decide (at_action existing = action)
      then (Ok Existing, db)
      else (Err (Refused "superseded actuation attempt requires explicit reconciliation"), db)
    | Ok None =>
      (* the journal references the policy table *)
      if negb (enrolled d db) then (Err Constraint, db)
      else (Ok Reserved,
            with_journal (<[d := {| jr_policy_version := policy_version; jr_action_json := encode action;
                                    jr_reserved_at := to_rfc3339 now; jr_decision_json := option_map encode decision |}]> (db_journal db)) db)
    end.
Definition reserve_actuation (d : DeviceId) (policy_version : Z) (action : RequestedAction) (now : DateTime) : Repo ActuationReservation :=
  reserve_actuation_with_decision d policy_version action now None.

(** The [DELETE] of exactly this reservation, and how many rows it removed. *)
Definition delete_attempt (d : DeviceId) (policy_version : Z) (action : RequestedAction) (db : PolicyDb) : Z * PolicyDb :=
  match db_journal db !! d with
  | Some r => if journal_matches policy_version action r then (1, with_journal (delete d (db_journal db)) db) else (0, db)
  | None => (0, db)
  end.
Definition clear_actuation_attempt (d : DeviceId) (policy_version : Z) (action : RequestedAction) : Repo unit :=
  fun db =>
    let '(rows, db') := delete_attempt d policy_version action db in
    if rows =? 1 then (Ok tt, db') else (Err (Refused "actuation journal entry changed before acknowledgement"), db').

(** *** Enrolment *)
Definition mark_successful_service_start (now : DateTime) : Repo DateTime :=
  fun db =>
    if negb (db_install_state db) then (Err (Refused "cannot start policy baseline before install initialization"), db)
    else
      let persisted := match db_policy_install_state db with Some v => v | None => to_rfc3339 now end in
      (parse_time persisted "policy baseline timestamp", with_install (Some persisted) db).
Definition repo_baseline_started_at : Repo (option DateTime) :=
  reading (fun db => transpose (fun v => parse_time v "policy baseline timestamp") (db_policy_install_state db)).

Definition load_row (d : DeviceId) (first_seen : string) (r : PolicyRow) : result DevicePolicy StoreError :=
  let? first_seen_at := parse_time first_seen "device first-seen timestamp" in
  let? identification := decode (pr_identification_json r) "identification" in
  let? owner := decode (pr_owner_decision_json r) "owner decision" in
  let? risk := decode (pr_risk_json r) "risk signal" in
  let? protection := decode (pr_protection_json r) "protection" in
  let? extension := transpose (fun v => parse_time v "extension timestamp") (pr_extension_until r) in
  Ok {| dp_device_id := d; dp_first_seen_at := first_seen_at; dp_baseline_exempt := negb (pr_baseline_exempt r =? 0);
        dp_identification := identification; dp_owner_decision := owner; dp_risk := risk; dp_protection := protection;
        dp_extension_until := extension |}.
(** The join of [device_policy] and [devices] on one device. *)
Definition policy_join (d : DeviceId) (db : PolicyDb) : option (string * PolicyRow) :=
  match db_device_policy db !! d, db_devices db !! d with
  | Some r, Some first_seen => Some (first_seen, r)
  | _, _ => None
  end.
Definition load_in (d : DeviceId) (db : PolicyDb) : result (option DevicePolicy) StoreError :=
  transpose (fun p => load_row d (fst p) (snd p)) (policy_join d db).
Definition load (d : DeviceId) : Repo (option DevicePolicy) := reading (load_in d).

Definition in_window (first_seen baseline_started : DateTime) : result bool StoreError :=
  if baseline_started <=? first_seen
  then let? window_end := plus baseline_started STORE_BASELINE_WINDOW in Ok (first_seen <? window_end)
  else Ok false.
Definition new_policy_row (baseline_exempt : bool) (now : string) : PolicyRow := {|
  pr_baseline_exempt := if baseline_exempt then 1 else 0; pr_identification_json := encode IdUnknown;
  pr_owner_decision_json := encode Pending; pr_risk_json := encode RiskNone; pr_protection_json := encode ProtNone;
  pr_extension_until := None; pr_extension_used := 0; pr_policy_version := STORE_POLICY_VERSION; pr_enrolled_at := now;
  pr_updated_at := now; pr_decision_fingerprint := None; pr_published_decision_json := None; pr_enforcement_retry_at := None;
  pr_release_retry_action_json := None; pr_release_retry_at := None |}.
(** The row that the [INSERT OR IGNORE] of [enroll] adds; [clock] is [Utc::now()]. *)
Definition enrolment (d : DeviceId) (clock : DateTime) (db : PolicyDb) : result PolicyRow StoreError :=
  let? first_seen_text := ok_or (db_devices db !! d) (MissingRow "cannot enroll policy for an unknown device") in
  let? first_seen := parse_time first_seen_text "device first-seen timestamp" in
  let? baseline_text := ok_or (db_policy_install_state db) (MissingRow "cannot enroll policy before a successful service start") in
  let? baseline_started := parse_time baseline_text "policy baseline timestamp" in
  let? baseline_exempt := in_window first_seen baseline_started in
  Ok (new_policy_row baseline_exempt (to_rfc3339 clock)).
Definition insert_or_ignore {V} (d : DeviceId) (v : V) (m : gmap DeviceId V) : gmap DeviceId V :=
  match m !! d with Some _ => m | None => <[d := v]> m end.
Definition enroll (d : DeviceId) (clock : DateTime) : Repo DevicePolicy :=
  fun db =>
    match enrolment d clock db with
    | Err e => (Err e, db)
    | Ok row =>
      let db' := with_policies (insert_or_ignore d row (db_device_policy db)) db in
      (let? p := load_in d db' in ok_or p (MissingRow "policy missing after enrollment"), db')
    end.

(** *** Reading many devices *)
(** [chunks(SQL_BATCH_SIZE)] *)
Fixpoint chunks (fuel : nat) (l : list DeviceId) : list (list DeviceId) :=
  match fuel, l with
  | O, _ | _, [] => []
  | S fuel', _ => take SQL_BATCH_SIZE l :: chunks fuel' (drop SQL_BATCH_SIZE l)
  end.
Definition batches (l : list DeviceId) : list (list DeviceId) := chunks (length l) l.
(** [WHERE device_id IN (...)]: each row once, whatever the list repeats. *)
Definition rows_in {V} (m : gmap DeviceId V) (ids : list DeviceId) : list (DeviceId * V) :=
  map_to_list (filter (fun '(d, _) => d ∈ ids) m).
Fixpoint collect {V B} (f : DeviceId -> V -> result (option B) StoreError) (rows : list (DeviceId * V)) (acc : gmap DeviceId B)
  : result (gmap DeviceId B) StoreError :=
  match rows with
  | [] => Ok acc
  | (d, v) :: rows' =>
    let? o := f d v in
    collect f rows' (match o with Some b => <[d := b]> acc | None => acc end)
  end.
Fixpoint collect_batches {V B} (f : DeviceId -> V -> result (option B) StoreError) (m : gmap DeviceId V)
    (bs : list (list DeviceId)) (acc : gmap DeviceId B) : result (gmap DeviceId B) StoreError :=
  match bs with
  | [] => Ok acc
  | b :: bs' => let? acc' := collect f (rows_in m b) acc in collect_batches f m bs' acc'
  end.

Definition load_many (ids : list DeviceId) : Repo (gmap DeviceId DevicePolicy) :=
  reading (fun db => collect_batches (fun d r =>
    match db_devices db !! d with
    | Some first_seen => let? p := load_row d first_seen r in Ok (Some p)
    | None => Ok None
    end) (db_device_policy db) (batches ids) ∅).
Definition published_decisions_many (ids : list DeviceId) : Repo (gmap DeviceId PolicyChanged) :=
  reading (fun db => collect_batches (fun _ r =>
    transpose (fun v => decode v "published policy decision") (pr_published_decision_json r)) (db_device_policy db) (batches ids) ∅).

(** Ordered by identifier. *)
Definition policy_ids (db : PolicyDb) : list DeviceId := map fst (in_order N.compare (map_to_list (db_device_policy db))).
Fixpoint load_all (ids : list DeviceId) (db : PolicyDb) : result (list DevicePolicy) StoreError :=
  match ids with
  | [] => Ok []
  | d :: ids' =>
    let? o := load_in d db in
    let? rest := load_all ids' db in
    Ok (match o with Some p => p :: rest | None => rest end)
  end.
Definition repo_list : Repo (list DevicePolicy) := reading (fun db => load_all (policy_ids db) db).

(** *** The outbox *)
Definition delete_superseded (d : DeviceId) (fingerprint : string) (t : list OutboxRow) : list OutboxRow :=
  List.filter (fun r => negb (bool_decide (ob_device_id r = d) && negb (bool_decide (ob_fingerprint r = fingerprint)))) t.
(** [INSERT OR IGNORE .. SELECT .. WHERE EXISTS]: the rows inserted and the table. *)
Definition insert_pending (row : OutboxRow) (db : PolicyDb) : Z * list OutboxRow :=
  let unpublished := is_some_and (fun r => negb (bool_decide (pr_decision_fingerprint r = Some (ob_fingerprint row))))
                       (db_device_policy db !! ob_device_id row) in
  if negb unpublished || existsb (outbox_at (ob_device_id row) (ob_fingerprint row)) (db_outbox db) then (0, db_outbox db)
  else (1, db_outbox db ++ [row]).
Definition fill_decision (d : DeviceId) (fingerprint json : string) (t : list OutboxRow) : list OutboxRow :=
  map (fun r => if outbox_at d fingerprint r && bool_decide (ob_decision_json r = None)
                then {| ob_device_id := ob_device_id r; ob_fingerprint := ob_fingerprint r; ob_created_at := ob_created_at r;
                        ob_decision_json := Some json |} else r) t.

(** The whole transaction; [None] of [decision_json] is the legacy wrapper. *)
Definition prepare_decision_publication_inner (d : DeviceId) (fingerprint : string) (decision_json : option string) (clock : DateTime)
  : Repo bool :=
  fun db =>
    if is_some_and (fun r => bool_decide (pr_decision_fingerprint r = Some fingerprint)) (db_device_policy db !! d) then (Ok false, db)
    else
      let db1 := with_outbox (delete_superseded d fingerprint (db_outbox db)) db in
      let '(inserted, outbox) := insert_pending {| ob_device_id := d; ob_fingerprint := fingerprint; ob_created_at := to_rfc3339 clock;
                                                   ob_decision_json := decision_json |} db1 in
      let pending := Z.of_nat (length (List.filter (outbox_at d fingerprint) outbox)) in
      let answer := (inserted =? 1) || (pending =? 1) in
      match decision_json with
      | None => (Ok answer, with_outbox outbox db)
      | Some json =>
        match iter_find (outbox_at d fingerprint) outbox with
        | None => (Err (MissingRow "no rows returned"), db)
        | Some row =>
          match ob_decision_json row with
          | Some stored =>
            if bool_decide (stored = json) then (Ok answer, with_outbox outbox db)
            else (Err (Refused "pending policy decision differs for matching fingerprint"), db)
          | None => (Ok answer, with_outbox (fill_decision d fingerprint json outbox) db)
          end
        end
      end.
Definition prepare_decision_publication (d : DeviceId) (fingerprint : string) (clock : DateTime) : Repo bool :=
  prepare_decision_publication_inner d fingerprint None clock.
Definition prepare_exact_decision_publication (d : DeviceId) (fingerprint : string) (decision : PolicyChanged) (clock : DateTime) : Repo bool :=
  let encoded := encode decision in
  if negb (bool_decide (fingerprint = encoded))
  then mret_st (Err (Refused "policy decision fingerprint does not match exact decision"))
  else prepare_decision_publication_inner d fingerprint (Some encoded) clock.

Definition mark_decision_published_and_clear_attempt (d : DeviceId) (fingerprint : string) (decision : PolicyChanged)
    (attempt : option ActuationAttempt) (clock : DateTime) : Repo unit :=
  fun db =>
    let db1 := update_policy d (set_published fingerprint (encode decision) (to_rfc3339 clock)) db in
    let db2 := with_outbox (List.filter (fun r => negb (outbox_at d fingerprint r)) (db_outbox db1)) db1 in
    match attempt with
    | None => (Ok tt, db2)
    | Some a =>
      let '(rows, db3) := delete_attempt d (at_policy_version a) (at_action a) db2 in
      if rows =? 1 then (Ok tt, db3) else (Err (Refused "actuation journal entry changed before acknowledgement"), db)
    end.
Definition mark_decision_published (d : DeviceId) (fingerprint : string) (decision : PolicyChanged) (clock : DateTime) : Repo unit :=
  mark_decision_published_and_clear_attempt d fingerprint decision None clock.

Definition column {A} (f : PolicyRow -> option A) (d : DeviceId) (db : PolicyDb) : option A :=
  match db_device_policy db !! d with Some r => f r | None => None end.
Definition published_decision_in (d : DeviceId) (db : PolicyDb) : result (option PolicyChanged) StoreError :=
  transpose (fun v => decode v "published policy decision") (column pr_published_decision_json d db).
Definition published_decision (d : DeviceId) : Repo (option PolicyChanged) := reading (published_decision_in d).

Definition outbox_of (d : DeviceId) (db : PolicyDb) : list OutboxRow := List.filter (fun r => bool_decide (ob_device_id r = d)) (db_outbox db).
Definition pending_decision (d : DeviceId) : Repo bool := reading (fun db => Ok (negb (Nat.eqb (length (outbox_of d db)) 0))).
Definition pending_of_row (r : OutboxRow) : result PendingDecision StoreError :=
  match ob_decision_json r with
  | None => Ok Legacy
  | Some json =>
    let? decision := decode json "pending policy decision" in
    if negb (bool_decide (encode decision = ob_fingerprint r))
    then Err (Refused "pending policy decision fingerprint does not match exact decision")
    else if negb (bool_decide (pc_device_id decision = ob_device_id r))
    then Err (Refused "pending policy decision device does not match outbox device")
    else Ok (Exact decision)
  end.
Definition pending_decision_value (d : DeviceId) : Repo (option PendingDecision) :=
  reading (fun db => transpose pending_of_row (List.hd_error (outbox_of d db))).
Fixpoint collect_pending (rows : list OutboxRow) (acc : gmap DeviceId PendingDecision) : result (gmap DeviceId PendingDecision) StoreError :=
  match rows with
  | [] => Ok acc
  | r :: rows' => let? p := pending_of_row r in collect_pending rows' (<[ob_device_id r := p]> acc)
  end.
Fixpoint pending_batches (t : list OutboxRow) (bs : list (list DeviceId)) (acc : gmap DeviceId PendingDecision)
  : result (gmap DeviceId PendingDecision) StoreError :=
  match bs with
  | [] => Ok acc
  | b :: bs' =>
    let? acc' := collect_pending (List.filter (fun r => bool_decide (ob_device_id r ∈ b)) t) acc in
    pending_batches t bs' acc'
  end.
Definition pending_decision_values_many (ids : list DeviceId) : Repo (gmap DeviceId PendingDecision) :=
  reading (fun db => pending_batches (db_outbox db) (batches ids) ∅).

(** *** Retries *)
Definition enforcement_retry_due (d : DeviceId) (now : DateTime) : Repo bool :=
  reading (fun db =>
    let? o := transpose (fun v => parse_time v "enforcement retry timestamp") (column pr_enforcement_retry_at d db) in
    Ok (match o with Some t => t <=? now | None => true end)).
Definition in_a_minute (now : DateTime) : result string StoreError := let? t := plus now (minutes 1) in Ok (to_rfc3339 t).
Definition schedule_enforcement_retry (d : DeviceId) (now : DateTime) : Repo unit :=
  fun db =>
    match in_a_minute now with
    | Err e => (Err e, db)
    | Ok t => (Ok tt, update_policy d (fun r => set_retries (Some t) (pr_release_retry_action_json r) (pr_release_retry_at r) r) db)
    end.
Definition clear_enforcement_retry (d : DeviceId) : Repo unit :=
  fun db => (Ok tt, update_policy d (fun r => set_retries None (pr_release_retry_action_json r) (pr_release_retry_at r) r) db).

Definition release_retry_action (d : DeviceId) : Repo (option RequestedAction) :=
  reading (fun db => transpose (fun v => decode v "release retry action") (column pr_release_retry_action_json d db)).
Definition release_retry_due (d : DeviceId) (now : DateTime) : Repo bool :=
  reading (fun db =>
    let? o := transpose (fun v => parse_time v "release retry timestamp") (column pr_release_retry_at d db) in
    Ok (match o with Some t => t <=? now | None => false end)).
Definition schedule_release_retry (d : DeviceId) (action : RequestedAction) (now : DateTime) : Repo unit :=
  fun db =>
    match in_a_minute now with
    | Err e => (Err e, db)
    | Ok t => (Ok tt, update_policy d (fun r => set_retries (pr_enforcement_retry_at r) (Some (encode action)) (Some t) r) db)
    end.
Definition clear_release_retry (d : DeviceId) : Repo unit :=
  fun db => (Ok tt, update_policy d (fun r => set_retries (pr_enforcement_retry_at r) None None r) db).

(** *** Facts of a device *)
(** [update_json]: one column of facts; a device that is not enrolled is an error. *)
Definition update_json (d : DeviceId) (f : PolicyRow -> PolicyRow) : Repo unit :=
  fun db => if enrolled d db then (Ok tt, update_policy d f db) else (Err (Refused "policy device is not enrolled"), db).
Definition set_identification (d : DeviceId) (v : Identification) (clock : DateTime) : Repo unit :=
  update_json d (fun r => set_facts (encode v) (pr_owner_decision_json r) (pr_risk_json r) (pr_protection_json r) (to_rfc3339 clock) r).
Definition set_owner_decision (d : DeviceId) (v : OwnerDecision) (clock : DateTime) : Repo unit :=
  update_json d (fun r => set_facts (pr_identification_json r) (encode v) (pr_risk_json r) (pr_protection_json r) (to_rfc3339 clock) r).
Definition set_risk (d : DeviceId) (v : RiskSignal) (clock : DateTime) : Repo unit :=
  update_json d (fun r => set_facts (pr_identification_json r) (pr_owner_decision_json r) (encode v) (pr_protection_json r) (to_rfc3339 clock) r).
Definition set_protection (d : DeviceId) (v : Protection) (clock : DateTime) : Repo unit :=
  update_json d (fun r => set_facts (pr_identification_json r) (pr_owner_decision_json r) (pr_risk_json r) (encode v) (to_rfc3339 clock) r).

Definition set_owner_decision_and_schedule_release_retry (d : DeviceId) (v : OwnerDecision) (action : RequestedAction)
    (now clock : DateTime) : Repo unit :=
  fun db =>
    match in_a_minute now with
    | Err e => (Err e, db)
    | Ok t => (Ok tt, update_policy d (fun r =>
        set_retries (pr_enforcement_retry_at r) (Some (encode action)) (Some t)
          (set_facts (pr_identification_json r) (encode v) (pr_risk_json r) (pr_protection_json r) (to_rfc3339 clock) r)) db)
    end.

Definition extend_once (d : DeviceId) (until clock : DateTime) : Repo bool :=
  fun db =>
    match (let? o := load_in d db in
           let? current := ok_or o (MissingRow "cannot extend an unenrolled device") in
           let deadline_hours := if automatically_identified current then AUTOMATIC_POLICY_DEADLINE_HOURS else UNKNOWN_POLICY_DEADLINE_HOURS in
           let? original_due_at := plus (dp_first_seen_at current) (hours deadline_hours) in
           if negb (original_due_at <? until) then Err (Refused "extension must move the applicable deadline later") else Ok tt) with
    | Err e => (Err e, db)
    | Ok _ =>
      if is_some_and (fun r => pr_extension_used r =? 0) (db_device_policy db !! d)
      then (Ok true, update_policy d (set_extension (to_rfc3339 until) (to_rfc3339 clock)) db)
      else (Ok false, db)
    end.

(** *** Verified control states *)
Definition is_control (r : TransitionRow) : bool :=
  bool_decide (tn_trigger_kind r = "enforcement_blocked"%string) || bool_decide (tn_trigger_kind r = "enforcement_unblocked"%string).
(** [a] comes before [b] in [ORDER BY occurred_at DESC, transition_id ASC]. *)
Definition newer_control (a b : TransitionRow) : bool :=
  String.ltb (tn_occurred_at b) (tn_occurred_at a) || (bool_decide (tn_occurred_at a = tn_occurred_at b) && (tn_id a <? tn_id b)).
(** ... and in [ORDER BY occurred_at DESC, transition_id DESC]. *)
Definition newer_other (a b : TransitionRow) : bool :=
  String.ltb (tn_occurred_at b) (tn_occurred_at a) || (bool_decide (tn_occurred_at a = tn_occurred_at b) && (tn_id b <? tn_id a)).
(** [LIMIT 1] of the rows under an order. *)
Definition first_row (before : TransitionRow -> TransitionRow -> bool) (l : list TransitionRow) : option TransitionRow :=
  fold_left (fun o r => match o with Some b => if before r b then Some r else o | None => Some r end) l None.
Definition controls_of (d : DeviceId) (db : PolicyDb) : list TransitionRow :=
  List.filter (fun r => bool_decide (tn_device_id r = d) && is_control r) (db_transitions db).
Definition others_of (d : DeviceId) (db : PolicyDb) : list TransitionRow :=
  List.filter (fun r => bool_decide (tn_device_id r = d) && negb (is_control r)) (db_transitions db).

Definition control_blocked (d : DeviceId) (db : PolicyDb) : bool :=
  is_some_and (fun r => bool_decide (tn_to_state r = "blocked"%string)) (first_row newer_control (controls_of d db)).
Definition verified_control_blocked (d : DeviceId) : Repo bool := reading (fun db => Ok (control_blocked d db)).

(** The state that a new block leaves: control rows come first. *)
Definition current_state (d : DeviceId) (db : PolicyDb) : option string :=
  option_map tn_to_state (match first_row newer_control (controls_of d db) with
                          | Some r => Some r
                          | None => first_row newer_other (others_of d db)
                          end).
(** [COALESCE(MIN(transition_id), 0) - 1] over the negative identifiers. *)
Definition next_control_id (db : PolicyDb) : Z :=
  fold_left (fun m r => if tn_id r <? 0 then Z.min m (tn_id r) else m) (db_transitions db) 0 - 1.
Definition control_row (id : Z) (d : DeviceId) (from to_ reason kind at_ : string) : TransitionRow := {|
  tn_id := id; tn_device_id := d; tn_from_state := from; tn_to_state := to_; tn_occurred_at := at_; tn_reason := reason;
  tn_trigger_source := "policy"; tn_trigger_kind := kind; tn_evidence_observed_at := at_; tn_trigger_arrival_at := at_ |}.
(** The table references [devices], and its identifiers are unique. *)
Definition insert_transition (r : TransitionRow) : Repo unit :=
  fun db =>
    if negb (bool_decide (is_Some (db_devices db !! tn_device_id r))) || existsb (fun o => tn_id o =? tn_id r) (db_transitions db)
    then (Err Constraint, db)
    else (Ok tt, with_transitions (db_transitions db ++ [r]) db).

Definition record_verified_block (d : DeviceId) (at_ : DateTime) : Repo unit :=
  fun db =>
    let current := current_state d db in
    if bool_decide (current = Some "blocked"%string) then (Ok tt, db)
    else insert_transition (control_row (next_control_id db) d (default "unknown"%string current) "blocked"
           "verified_policy_enforcement" "enforcement_blocked" (to_rfc3339 at_)) db.
Definition record_verified_unblock (d : DeviceId) (at_ : DateTime) : Repo unit :=
  fun db => insert_transition (control_row (next_control_id db) d "blocked" "unknown" "verified_policy_release"
              "enforcement_unblocked" (to_rfc3339 at_)) db.
End Repository.

(** ** Batches *)
Section Batches.
Context {V B : Type} (f : DeviceId -> V -> result (option B) StoreError) (tbl : gmap DeviceId V).

(** The reading of one device. *)
Definition single (d : DeviceId) : result (option B) StoreError := match tbl !! d with Some v => f d v | None => Ok None end.
(** What a map holds once the devices [ids] are read into [acc]. *)
Definition read_into (ids : list DeviceId) (acc m : gmap DeviceId B) : Prop :=
  forall d, (d ∉ ids -> m !! d = acc !! d) /\ (d ∈ ids -> exists o, single d = Ok o /\ m !! d = match o with Some b => Some b | None => acc !! d end).

Lemma collect_spec rows acc : Forall (fun r => tbl !! fst r = Some (snd r)) rows -> NoDup (map fst rows) ->
  match collect f rows acc with
  | Ok m => read_into (map fst rows) acc m
  | Err e => exists d, d ∈ map fst rows /\ single d = Err e
  end.
Proof.
  revert acc. induction rows as [|[d v] rows IH]; intros acc Hr Hn; cbn [collect map fst].
  { intros d. split; [done|]. by intros ?%not_elem_of_nil. }
  apply Forall_cons in Hr as [Hd Hr]. cbn [map] in Hn. apply NoDup_cons in Hn as [Hnew Hn]. cbn in Hd, Hnew.
  assert (single d = f d v) as Hs by (unfold single; by rewrite Hd). destruct (f d v) as [o|e] eqn:Ef; cbn [result_bind]; [|exists d; split; [by left|congruence]].
  specialize (IH (match o with Some b => <[d := b]> acc | None => acc end) Hr Hn). destruct (collect f rows _) as [m|e]; [|destruct IH as (d' & ? & ?); exists d'; by split; [right|]].
  intros d'. destruct (IH d') as [I1 I2]. split.
  - intros [Hne Hni]%not_elem_of_cons. rewrite (I1 Hni). destruct o; [by rewrite lookup_insert_ne|done].
  - intros [->|Hin]%elem_of_cons.
    + exists o. split; [congruence|]. rewrite (I1 Hnew). destruct o; [by rewrite lookup_insert_eq|done].
    + destruct (I2 Hin) as (o' & Ho' & Hm). exists o'. split; [done|]. rewrite Hm. destruct o'; [done|]. destruct o; [|done]. rewrite lookup_insert_ne; [done|]. by intros ->.
Qed.

Lemma rows_in_spec ids : Forall (fun r => tbl !! fst r = Some (snd r)) (rows_in tbl ids) /\ NoDup (map fst (rows_in tbl ids)) /\
  forall d, d ∈ map fst (rows_in tbl ids) <-> d ∈ ids /\ is_Some (tbl !! d).
Proof.
  unfold rows_in. split_and!.
  - apply Forall_forall. intros [d v] Hin. apply elem_of_map_to_list, map_lookup_filter_Some in Hin as [? _]. done.
  - apply NoDup_fst_map_to_list.
  - intros d. rewrite list_elem_of_fmap. split.
    + intros ([d' v] & -> & Hin). apply elem_of_map_to_list, map_lookup_filter_Some in Hin as [Hl Hd]. cbn. by split.
    + intros [Hd [v Hv]]. exists (d, v). split; [done|]. apply elem_of_map_to_list, map_lookup_filter_Some. by split.
Qed.

Lemma batches_spec bs acc : (forall d b, acc !! d = Some b -> single d = Ok (Some b)) ->
  match collect_batches f tbl bs acc with
  | Ok m => read_into (concat bs) acc m
  | Err e => exists d, d ∈ concat bs /\ single d = Err e
  end.
Proof.
  revert acc. induction bs as [|b bs IH]; intros acc Hacc; cbn [collect_batches concat].
  { intros d. split; [done|]. by intros ?%not_elem_of_nil. }
  destruct (rows_in_spec b) as (Hr & Hn & Hk). pose proof (collect_spec (rows_in tbl b) acc Hr Hn) as Hc.
  destruct (collect f (rows_in tbl b) acc) as [acc'|e]; cbn [result_bind].
  2: { destruct Hc as (d & Hd & He). exists d. split; [|done]. apply elem_of_app. left. by apply Hk. }
  assert (forall d b', acc' !! d = Some b' -> single d = Ok (Some b')) as Hacc'.
  { intros d b' Hb'. destruct (Hc d) as [C1 C2]. destruct (decide (d ∈ map fst (rows_in tbl b))) as [Hin|Hin].
    - destruct (C2 Hin) as (o & Ho & Hm). rewrite Hm in Hb'. destruct o; [congruence|by apply Hacc].
    - rewrite C1 in Hb' by done. by apply Hacc. }
  specialize (IH acc' Hacc'). destruct (collect_batches f tbl bs acc') as [m|e].
  2: { destruct IH as (d & Hd & He). exists d. split; [apply elem_of_app; by right|done]. }
  intros d. destruct (IH d) as [I1 I2]. destruct (Hc d) as [C1 C2]. split.
  - intros [Hb Hbs]%not_elem_of_app. rewrite I1 by done. apply C1. by intros [? _]%Hk.
  - intros Hin. destruct (decide (d ∈ concat bs)) as [Hbs|Hbs].
    + destruct (I2 Hbs) as (o & Ho & Hm). exists o. split; [done|]. rewrite Hm. destruct o as [x|]; [done|]. destruct (acc' !! d) as [b'|] eqn:E; [apply Hacc' in E; congruence|].
      destruct (acc !! d) as [b'|] eqn:E'; [apply Hacc in E'; congruence|done].
    + apply elem_of_app in Hin as [Hb|]; [|done]. rewrite (I1 Hbs). destruct (decide (d ∈ map fst (rows_in tbl b))) as [Hi|Hi]; [by apply C2|].
      rewrite C1 by done. exists None. unfold single. destruct (tbl !! d) eqn:Ed; [|done]. destruct Hi. apply Hk. by split; [|eexists].
Qed.
End Batches.

Lemma concat_chunks fuel l : (length l <= fuel)%nat -> concat (chunks fuel l) = l.
Proof.
  revert l. induction fuel as [|fuel IH]; intros l Hl; [by destruct l; cbn in Hl; [|lia]|]. cbn [chunks]. destruct l as [|x l]; [done|]. cbn [concat].
  rewrite IH, take_drop; [done|]. rewrite length_drop. cbn in Hl |- *. unfold SQL_BATCH_SIZE. lia.
Qed.

Section Repository.
Context `{Calendar} `{PolicyLibs}.

(** Reading many devices at once is reading each: whatever batches the list of devices is cut
    into and however often it repeats a device, the map holds exactly the policies that single
    readings give, and the query fails exactly when one of them does. *)
Theorem batched_load_is_load ids db :
  match fst (load_many ids db) with
  | Ok m => forall d, if decide (d ∈ ids) then load_in d db = Ok (m !! d) else m !! d = None
  | Err e => exists d, d ∈ ids /\ load_in d db = Err e
  end.
Proof.
  unfold load_many, reading. cbn [fst]. set (f := fun d r => _). pose proof (batches_spec f (db_device_policy db) (batches ids) ∅) as Hb.
  assert (forall d, single f (db_device_policy db) d = load_in d db) as Hs.
  { intros d. unfold single, load_in, policy_join, f. destruct (db_device_policy db !! d) as [r|]; [|by destruct (db_devices db !! d)]. destruct (db_devices db !! d) as [fs|]; cbn; done. }
  specialize (Hb ltac:(by intros d b; rewrite lookup_empty)). unfold batches in *. rewrite concat_chunks in Hb by done.
  destruct (collect_batches f _ _ ∅) as [m|e]; [|destruct Hb as (d & Hd & He); exists d; by rewrite <- Hs].
  intros d. destruct (Hb d) as [B1 B2]. case_decide as Hd; [|by rewrite B1, lookup_empty]. destruct (B2 Hd) as (o & Ho & Hm). rewrite <- Hs, Ho, Hm, lookup_empty. by destruct o.
Qed.

(** ** Extensions *)
(** An extension is granted at most once, and only to a later time than the original deadline. *)
Lemma extension_is_granted_once d until clock db db' : extend_once d until clock db = (Ok true, db') ->
  (exists p due, load_in d db = Ok (Some p) /\ original_deadline p = Some due /\ due < until) /\
  forall until' clock', fst (extend_once d until' clock' db') <> Ok true /\ snd (extend_once d until' clock' db') = db'.
Proof.
  unfold extend_once at 1. destruct (load_in d db) as [[p|]|e] eqn:El; cbn [result_bind ok_or]; try done.
  destruct (plus _ _) as [due|e] eqn:Ep; cbn [result_bind]; [|done]. destruct (Z.ltb_spec due until) as [Elt|]; cbn [negb]; [|done]. destruct (is_some_and _ _) eqn:Eu; [|done]. intros [= <-]. split.
  - exists p, due. split_and!; [done| |done]. unfold plus in Ep. unfold original_deadline, AUTOMATIC_DEADLINE, UNKNOWN_DEADLINE.
    destruct (automatically_identified p); (destruct (checked_add_signed _ _); [by simplify_eq/=|done]).
  - intros until' clock'. unfold extend_once. destruct (result_bind _ _); [|by split]. apply is_some_and_true in Eu as (r & Hr & _).
    unfold update_policy at 1 3. cbn. rewrite lookup_alter_eq, Hr. cbn. by split.
Qed.

(** ** Verified control states *)
Lemma first_row_newest before l r : first_row before (l ++ [r]) = match first_row before l with Some b => if before r b then Some r else Some b | None => Some r end.
Proof. unfold first_row. rewrite fold_left_app. cbn. destruct (fold_left _ l None); [case_match|]; done. Qed.
Lemma first_row_in before l b : first_row before l = Some b -> In b l.
Proof.
  revert b. induction l as [|r l IH] using rev_ind; intros b; [done|]. rewrite first_row_newest. rewrite in_app_iff. destruct (first_row before l) as [b'|]; [case_match|]; intros [= <-]; cbn; auto.
Qed.
Lemma next_control_id_fresh db r : In r (db_transitions db) -> next_control_id db < tn_id r.
Proof.
  unfold next_control_id. assert (forall l m, m <= 0 -> fold_left (fun m r => if tn_id r <? 0 then Z.min m (tn_id r) else m) l m <= m /\
    forall r, In r l -> fold_left (fun m r => if tn_id r <? 0 then Z.min m (tn_id r) else m) l m <= tn_id r) as Hl.
  { induction l as [|x l IH]; intros m Hm; cbn [fold_left]; [split; [lia|done]|]. set (m' := if tn_id x <? 0 then Z.min m (tn_id x) else m).
    assert (m' <= m /\ m' <= tn_id x) as [H1' H2']. { unfold m'. destruct (Z.ltb_spec (tn_id x) 0); lia. }
    destruct (IH m' ltac:(lia)) as [I1 I2]. split; [lia|]. intros y [<-|Hy]; [lia|by apply I2]. }
  intros Hr. destruct (Hl (db_transitions db) 0 ltac:(lia)) as [_ Hm]. specialize (Hm r Hr). lia.
Qed.
Lemma ltb_false_cases a b : String.ltb a b = false -> String.ltb b a = true \/ b = a.
Proof.
  unfold String.ltb. rewrite (String.compare_antisym a b). destruct (String.compare b a) eqn:E; cbn; auto. apply String.compare_eq_iff in E as ->. by right.
Qed.

(** A control row at a time that no control row of the device is past becomes the first. *)
Lemma insert_control_newest d r db db' :
  tn_device_id r = d -> is_control r = true -> tn_id r = next_control_id db ->
  Forall (fun c => String.ltb (tn_occurred_at r) (tn_occurred_at c) = false) (controls_of d db) ->
  insert_transition r db = (Ok tt, db') -> first_row newer_control (controls_of d db') = Some r.
Proof.
  intros Hd Hc Hid Hall. unfold insert_transition. case_match; [done|]. intros [= <-].
  assert (controls_of d (with_transitions (db_transitions db ++ [r]) db) = controls_of d db ++ [r]) as ->.
  { unfold controls_of. cbn [db_transitions with_transitions]. rewrite List.filter_app. cbn [List.filter]. by rewrite bool_decide_true, Hc. }
  rewrite first_row_newest. destruct (first_row newer_control (controls_of d db)) as [b|] eqn:E; [|done]. apply first_row_in in E.
  rewrite List.Forall_forall in Hall. specialize (Hall b E). unfold controls_of in E. apply filter_In in E as [Hin _]. unfold newer_control.
  apply ltb_false_cases in Hall as [-> | ->]; [done|]. rewrite bool_decide_true by done. pose proof (next_control_id_fresh db b Hin). replace (tn_id r <? tn_id b) with true by lia. by rewrite orb_true_r.
Qed.

(** The record of control states answers with its last entry: once a verified release is
    recorded the device is not held for blocked, and once a verified block is recorded it is,
    as long as no recorded control of the device lies later than the new one; records of equal
    times are told apart by their identifiers. *)
Theorem control_state_is_the_last_record d now db :
  Forall (fun c => String.ltb (to_rfc3339 now) (tn_occurred_at c) = false) (controls_of d db) ->
  (forall db', record_verified_unblock d now db = (Ok tt, db') -> control_blocked d db' = false) /\
  (forall db', record_verified_block d now db = (Ok tt, db') ->
     (controls_of d db = [] -> current_state d db <> Some "blocked"%string) -> control_blocked d db' = true).
Proof.
  intros Hall. split; intros db'.
  - unfold record_verified_unblock. intros Hi. unfold control_blocked. apply insert_control_newest with (d := d) in Hi; [by rewrite Hi|done..].
  - unfold record_verified_block. case_bool_decide as Eb.
    + intros [= <-] Hnone. unfold control_blocked. unfold current_state in Eb, Hnone. destruct (first_row newer_control (controls_of d db)) as [r|] eqn:E.
      * cbn in *. injection Eb as ->. by rewrite bool_decide_true.
      * destruct (Hnone ltac:(destruct (controls_of d db) as [|x l] using rev_ind; [done|]; rewrite first_row_newest in E; by repeat case_match) Eb).
    + intros Hi _. unfold control_blocked. apply insert_control_newest with (d := d) in Hi; [by rewrite Hi|done..].
Qed.
End Repository.
