(* ===== verification/PolicyCoordinator.v ===== *)
(** * Policy coordinator

    crates/lattice-service/src/policy.rs: the coordinator that evaluates the policy of a device,
    enforces the requested action through an actuator and publishes the decision. Every effect,
    a transaction of the repository, a call of the actuator or a publication, may be where the
    process stops or the database fails: an oracle of faults says for each effect whether it goes
    through, does not happen, or happens with its answer lost. Since every error is passed on by
    [?], an I/O error and a crash leave the same state behind. The trace records the calls of the
    actuator with the answers received, and the decisions whose publication was acknowledged. *)

From S2P Require Import Prelude Time Text F32 Domain Policy EventBus PolicyStore.
From Stdlib Require Import SpecFloat.

Inductive ActuationReconciliation := VerifiedApplied | ProvenNotApplied | Indeterminate | ReconcileManual | ReconcileFailed.
#[global] Instance ActuationReconciliation_eq_dec : EqDecision ActuationReconciliation.
Proof. solve_decision. Defined.
Inductive PolicyActionError := NotEnrolled | PendingRelease.

(** The trait [PolicyActuator], over the world that the actuator controls. *)
Class PolicyActuator (W : Type) := {
  act_enforce : DeviceId -> RequestedAction -> M W EnforcementStatus;
  act_reconcile : DeviceId -> RequestedAction -> M W ActuationReconciliation;
  act_undo_available : DeviceId -> RequestedAction -> M W bool;
  act_undo : DeviceId -> RequestedAction -> M W EnforcementStatus
}.

(** [ManualRequiredActuator], with the default methods of the trait. *)
Definition manual_required_actuator : PolicyActuator unit := {|
  act_enforce _ _ := mret_st ManualRequired;
  act_reconcile _ _ := mret_st Indeterminate;
  act_undo_available _ _ := mret_st false;
  act_undo _ _ := mret_st ManualRequired
|}.

Record AuditedDecision := {
  ad_evaluation : Evaluation; ad_reason : PolicyReason; ad_policy_version : Z; ad_evidence_summary : string;
  ad_requested_action : RequestedAction; ad_enforcement : EnforcementStatus; ad_undo_available : bool }.

(** ** Worlds *)
Inductive Fault := Go | Before | After.
Inductive Step :=
  | SEnforce (d : DeviceId) (a : RequestedAction)
  | SReconcile (d : DeviceId) (a : RequestedAction) (r : ActuationReconciliation)
  | SUndo (d : DeviceId) (a : RequestedAction)
  | SPublished (e : PolicyChanged)
  | SAcknowledged (e : PolicyChanged).

Inductive Stop := Interrupted | StoreFailure (e : StoreError) | ActionRefused (e : PolicyActionError) | SequenceExhausted.

Record World (W : Type) := {
  w_db : PolicyDb; w_actuator : W; w_bus : option (EventBus PolicyChanged); w_clock : DateTime; w_faults : list Fault; w_trace : list Step }.
Arguments w_db {W}. Arguments w_actuator {W}. Arguments w_bus {W}. Arguments w_clock {W}. Arguments w_faults {W}. Arguments w_trace {W}.
Arguments Build_World {W}.

(** [evaluate_policy]: the baseline of the engine plays no role after enrolment. *)
Definition evaluate_policy `{Calendar} (p : DevicePolicy) (now : DateTime) : Evaluation :=
  Policy.evaluate {| baseline_started_at := dp_first_seen_at p |} p now.
Definition evidence_summary (p : DevicePolicy) : string :=
  match dp_risk p with
  | HighConfidenceDangerSignal _ _ => "high-confidence danger"
  | RiskNone => "policy facts evaluated"
  end.
Definition policy_event (p : DevicePolicy) (evaluation : Evaluation) (enforcement : EnforcementStatus) (undo_available : bool) : PolicyChanged := {|
  pc_device_id := dp_device_id p; pc_policy_version := policy_version evaluation; pc_evaluation := evaluation;
  pc_requested_action := requested_action evaluation; pc_evidence_summary := evidence_summary p;
  pc_enforcement_result := enforcement; pc_undo_available := undo_available |}.

(** [matches!(action, Quarantine | PermanentBan)] *)
Definition blocking (a : RequestedAction) : bool := match a with ActQuarantine | PermanentBan => true | _ => false end.

(** [confidence.clamp(0.0, 1.0)] and [as u16]. *)
Definition f32_clamp_unit (x : f32) : f32 := if f32_lt x f32_zero then f32_zero else if f32_lt f32_one x then f32_one else x.
Definition f32_as_u16 (x : f32) : Z :=
  match x with
  | S754_finite false m e => Z.min 65535 (if 0 <=? e then Z.pos m * 2 ^ e else Z.pos m / 2 ^ (- e))
  | S754_infinity false => 65535
  | _ => 0
  end.
Definition confidence_basis_points (confidence : f32) : Z := f32_as_u16 (f32_mul (f32_clamp_unit confidence) (f32_of_Z 10000)).

Section Coordinator.
Context `{Calendar} `{PolicyLibs} {W : Type} `{PolicyActuator W}.
(** Whether the coordinator has a repository of verified control states. *)
Variable attached : bool.

Definition Coord (A : Type) : Type := M (World W) (result A Stop).

(** ** Effects *)
Definition take_fault (w : World W) : Fault * World W :=
  match w_faults w with
  | [] => (Go, w)
  | f :: fs => (f, {| w_db := w_db w; w_actuator := w_actuator w; w_bus := w_bus w; w_clock := w_clock w; w_faults := fs; w_trace := w_trace w |})
  end.
Definition set_db (db : PolicyDb) (w : World W) : World W := {|
  w_db := db; w_actuator := w_actuator w; w_bus := w_bus w; w_clock := w_clock w; w_faults := w_faults w; w_trace := w_trace w |}.
Definition set_actuator (a : W) (w : World W) : World W := {|
  w_db := w_db w; w_actuator := a; w_bus := w_bus w; w_clock := w_clock w; w_faults := w_faults w; w_trace := w_trace w |}.
Definition set_bus (b : option (EventBus PolicyChanged)) (w : World W) : World W := {|
  w_db := w_db w; w_actuator := w_actuator w; w_bus := b; w_clock := w_clock w; w_faults := w_faults w; w_trace := w_trace w |}.
Definition log_step (s : Step) (w : World W) : World W := {|
  w_db := w_db w; w_actuator := w_actuator w; w_bus := w_bus w; w_clock := w_clock w; w_faults := w_faults w; w_trace := w_trace w ++ [s] |}.

(** One effect under the oracle. *)
Definition effect {A} (m : Coord A) : Coord A :=
  fun w =>
    match take_fault w with
    | (Go, w') => m w'
    | (Before, w') => (Err Interrupted, w')
    | (After, w') => (Err Interrupted, snd (m w'))
    end.
Definition store {A} (m : Repo A) : Coord A :=
  effect (fun w => let '(r, db) := m (w_db w) in (match r with Ok a => Ok a | Err e => Err (StoreFailure e) end, set_db db w)).
Definition store_now {A} (m : DateTime -> Repo A) : Coord A := fun w => store (m (w_clock w)) w.
Definition actuate {A} (m : M W A) : Coord A := fun w => let '(a, s) := m (w_actuator w) in (Ok a, set_actuator s w).
(** A mutation is in the trace as soon as the actuator is called, an answer once it arrives. *)
Definition enforce (d : DeviceId) (a : RequestedAction) : Coord EnforcementStatus :=
  effect (fun w => actuate (act_enforce d a) (log_step (SEnforce d a) w)).
Definition undo (d : DeviceId) (a : RequestedAction) : Coord EnforcementStatus :=
  effect (fun w => actuate (act_undo d a) (log_step (SUndo d a) w)).
Definition reconcile (d : DeviceId) (a : RequestedAction) : Coord ActuationReconciliation :=
  try! r := effect (actuate (act_reconcile d a)) in
  fun w => (Ok r, log_step (SReconcile d a r) w).
Definition undo_available (d : DeviceId) (a : RequestedAction) : Coord bool := effect (actuate (act_undo_available d a)).
Definition bus_publish (now : DateTime) (e : PolicyChanged) : Coord unit :=
  effect (fun w =>
    match w_bus w with
    | None => (Ok tt, w)
    | Some bus =>
      match EventBus.publish bus now e with
      | None => (Err SequenceExhausted, w)
      | Some (_, bus') => (Ok tt, log_step (SPublished e) (set_bus (Some bus') w))
      end
    end).
(** The acknowledgement is in the trace once its transaction commits. *)
Definition acknowledge (e : PolicyChanged) (fingerprint : string) (attempt : option ActuationAttempt) : Coord unit :=
  effect (fun w =>
    let '(r, db) := mark_decision_published_and_clear_attempt (pc_device_id e) fingerprint e attempt (w_clock w) (w_db w) in
    match r with
    | Ok _ => (Ok tt, log_step (SAcknowledged e) (set_db db w))
    | Err x => (Err (StoreFailure x), set_db db w)
    end).

(** ** Publication *)
Definition matching_attempt (e : PolicyChanged) : Coord (option ActuationAttempt) :=
  if bool_decide (pc_enforcement_result e = Verified) && blocking (pc_requested_action e)
  then
    try! o := store (actuation_attempt (pc_device_id e)) in
    mret_st (Ok (match o with
                 | Some a => if (at_policy_version a =? pc_policy_version e) && bool_decide (at_action a = pc_requested_action e)
                                && bool_decide (at_decision a = Some e) then Some a else None
                 | None => None
                 end))
  else mret_st (Ok None).
Definition publish_exact (e : PolicyChanged) (attempt : option ActuationAttempt) (now : DateTime) : Coord unit :=
  let fingerprint := encode e in
  try! fresh := store_now (prepare_exact_decision_publication (pc_device_id e) fingerprint e) in
  if negb fresh then mret_st (Ok tt)
  else
    try! _ := bus_publish now e in
    try! matching := (match attempt with Some a => mret_st (Ok (Some a)) | None => matching_attempt e end) in
    acknowledge e fingerprint matching.

Definition finish (p : DevicePolicy) (evaluation : Evaluation) (enforcement : EnforcementStatus) (undo_available : bool) (now : DateTime)
  : Coord AuditedDecision :=
  let event := policy_event p evaluation enforcement undo_available in
  try! _ := publish_exact event None now in
  mret_st (Ok {| ad_evaluation := evaluation; ad_reason := reason evaluation; ad_policy_version := policy_version evaluation;
                 ad_evidence_summary := evidence_summary p; ad_requested_action := requested_action evaluation;
                 ad_enforcement := enforcement; ad_undo_available := undo_available |}).

(** ** Evaluation *)
(** An acknowledged verified decision retires exactly its own stale reservation. *)
Definition retire_acknowledged (d : DeviceId) (previously_published : option PolicyChanged) : Coord unit :=
  match previously_published with
  | Some last =>
    if bool_decide (pc_enforcement_result last = Verified) then
      try! o := store (actuation_attempt d) in
      match o with
      | Some attempt =>
        if (at_policy_version attempt =? pc_policy_version last) && bool_decide (at_action attempt = pc_requested_action last)
           && bool_decide (at_decision attempt = Some last)
        then store (clear_actuation_attempt d (at_policy_version attempt) (at_action attempt))
        else mret_st (Ok tt)
      | None => mret_st (Ok tt)
      end
    else mret_st (Ok tt)
  | None => mret_st (Ok tt)
  end.

(** What the record of verified control states says, if there is one. *)
Definition record_unblock (d : DeviceId) (now : DateTime) : Coord unit :=
  if attached then store (record_verified_unblock d now) else mret_st (Ok tt).
Definition record_block (d : DeviceId) (now : DateTime) : Coord unit :=
  if attached then store (record_verified_block d now) else mret_st (Ok tt).
(** [presence] is attached and does not hold the device for blocked. *)
Definition released (d : DeviceId) : Coord bool :=
  if attached then try! blocked := store (verified_control_blocked d) in mret_st (Ok (negb blocked)) else mret_st (Ok false).

(** A release whose time has come. *)
Definition retry_release (p : DevicePolicy) (evaluation : Evaluation) (action : RequestedAction) (now : DateTime) : Coord AuditedDecision :=
  let d := dp_device_id p in
  try! already := released d in
  if (already : bool) then
    try! _ := store (clear_release_retry d) in
    finish p evaluation Verified false now
  else
    try! outcome := undo d action in
    try! available := undo_available d action in
    try! _ := (if bool_decide (outcome = Verified)
               then try! _ := record_unblock d now in store (clear_release_retry d)
               else store (schedule_release_retry d action now)) in
    finish p evaluation outcome available now.

(** Before the current action: an older reservation is reconciled first; [k] is what follows. *)
Definition reconcile_superseded (p : DevicePolicy) (evaluation : Evaluation) (previously_published : option PolicyChanged) (now : DateTime)
    (k : Coord AuditedDecision) : Coord AuditedDecision :=
  let d := dp_device_id p in
  let guidance := finish p evaluation ManualRequired false now in
  try! o := store (actuation_attempt d) in
  match o with
  | None => k
  | Some old =>
    if (at_policy_version old =? policy_version evaluation) && bool_decide (at_action old = requested_action evaluation) then k
    else
      try! r := reconcile d (at_action old) in
      match r with
      | ProvenNotApplied =>
        try! _ := store (clear_actuation_attempt d (at_policy_version old) (at_action old)) in k
      | VerifiedApplied =>
        match at_decision old with
        | Some event =>
          try! available := (if blocking (at_action old) then undo_available d (at_action old) else mret_st (Ok false)) in
          let recovered := {| pc_device_id := pc_device_id event; pc_policy_version := pc_policy_version event;
                              pc_evaluation := pc_evaluation event; pc_requested_action := pc_requested_action event;
                              pc_evidence_summary := pc_evidence_summary event; pc_enforcement_result := pc_enforcement_result event;
                              pc_undo_available := available |} in
          try! _ := publish_exact recovered (Some old) now in
          if bool_decide (at_action old = PermanentBan) && bool_decide (requested_action evaluation = ActQuarantine) then
            try! _ := store (schedule_release_retry d (at_action old) now) in
            guidance
          else k
        | None =>
          if is_some_and (fun last => bool_decide (pc_enforcement_result last = Verified)
                                      && (pc_policy_version last =? at_policy_version old)
                                      && bool_decide (pc_requested_action last = at_action old)) previously_published
          then try! _ := store (clear_actuation_attempt d (at_policy_version old) (at_action old)) in k
          else guidance
        end
      | Indeterminate | ReconcileManual | ReconcileFailed => guidance
      end
  end.

(** [prior_matches] *)
Definition prior_matches (evaluation : Evaluation) (previously_published : option PolicyChanged) (result_ : EnforcementStatus) : bool :=
  is_some_and (fun last => bool_decide (pc_evaluation last = evaluation)
                           && bool_decide (pc_requested_action last = requested_action evaluation)
                           && bool_decide (pc_enforcement_result last = result_)) previously_published.

(** The reservation, and the call that it fences. *)
Definition reserve (p : DevicePolicy) (evaluation : Evaluation) (now : DateTime) : Coord ActuationReservation :=
  store (reserve_actuation_with_decision (dp_device_id p) (policy_version evaluation) (requested_action evaluation) now
           (Some (policy_event p evaluation Verified false))).
Definition enforce_fenced (p : DevicePolicy) (evaluation : Evaluation) (now : DateTime) : Coord EnforcementStatus :=
  let d := dp_device_id p in
  let action := requested_action evaluation in
  try! reservation := reserve p evaluation now in
  match reservation with
  | Reserved => enforce d action
  | Existing =>
    try! r := reconcile d action in
    match r with
    | VerifiedApplied => mret_st (Ok Verified)
    | ProvenNotApplied =>
      try! _ := store (clear_actuation_attempt d (policy_version evaluation) action) in
      try! _ := reserve p evaluation now in
      enforce d action
    | Indeterminate | ReconcileManual => mret_st (Ok ManualRequired)
    | ReconcileFailed => mret_st (Ok Failed)
    end
  end.
(** [prior_matches(result) && !enforcement_retry_due] *)
Definition waiting (d : DeviceId) (evaluation : Evaluation) (previously_published : option PolicyChanged) (result_ : EnforcementStatus)
    (now : DateTime) : Coord bool :=
  if prior_matches evaluation previously_published result_
  then try! due := store (enforcement_retry_due d now) in mret_st (Ok (negb due))
  else mret_st (Ok false).
Definition enforcement_of (p : DevicePolicy) (evaluation : Evaluation) (previously_published : option PolicyChanged) (now : DateTime)
  : Coord EnforcementStatus :=
  let d := dp_device_id p in
  if (match requested_action evaluation with ActNone | OwnerAttention => true | _ => false end)
     || negb (bool_decide (dp_protection p = ProtNone)) then mret_st (Ok NotRequested)
  else if prior_matches evaluation previously_published Verified then mret_st (Ok Verified)
  else
    try! manual := waiting d evaluation previously_published ManualRequired now in
    if (manual : bool) then mret_st (Ok ManualRequired)
    else
      try! failed := waiting d evaluation previously_published Failed now in
      if (failed : bool) then mret_st (Ok Failed) else enforce_fenced p evaluation now.

(** The retry, the verified control state and the decision of an enforcement. *)
Definition conclude (p : DevicePolicy) (evaluation : Evaluation) (enforcement : EnforcementStatus) (now : DateTime) : Coord AuditedDecision :=
  let d := dp_device_id p in
  let verified_block := bool_decide (enforcement = Verified) && blocking (requested_action evaluation) in
  try! _ := (match enforcement with
             | ManualRequired | Failed => store (schedule_enforcement_retry d now)
             | Verified | NotRequested => store (clear_enforcement_retry d)
             end) in
  try! _ := (if verified_block then record_block d now else mret_st (Ok tt)) in
  try! available := (if verified_block then undo_available d (requested_action evaluation) else mret_st (Ok false)) in
  finish p evaluation enforcement available now.

Definition coordinator_evaluate (p : DevicePolicy) (now : DateTime) : Coord AuditedDecision :=
  let d := dp_device_id p in
  let evaluation := evaluate_policy p now in
  try! previously_published := store (published_decision d) in
  try! _ := retire_acknowledged d previously_published in
  let proceed :=
    reconcile_superseded p evaluation previously_published now
      (try! enforcement := enforcement_of p evaluation previously_published now in
       conclude p evaluation enforcement now) in
  try! release_action := store (release_retry_action d) in
  match release_action with
  | None => proceed
  | Some action =>
    try! due := store (release_retry_due d now) in
    if (due : bool) then retry_release p evaluation action now
    else
      match previously_published with
      | Some last => finish p evaluation (pc_enforcement_result last) (pc_undo_available last) now
      | None => proceed
      end
  end.

(** ** Operations *)
Definition refuse {A} (e : PolicyActionError) : Coord A := mret_st (Err (ActionRefused e)).
(** [load(d).await?.context("policy disappeared")?] *)
Definition load_present (d : DeviceId) : Coord DevicePolicy :=
  try! o := store (load d) in
  mret_st (match o with Some p => Ok p | None => Err (StoreFailure (MissingRow "policy disappeared")) end).

Definition enroll_and_evaluate (d : DeviceId) (now : DateTime) : Coord AuditedDecision :=
  try! p := store_now (enroll d) in coordinator_evaluate p now.
(** The identification is given by its confidence and evidence families. *)
Definition enroll_identification_and_evaluate (d : DeviceId) (identification : option (f32 * list EvidenceFamily)) (now : DateTime)
  : Coord AuditedDecision :=
  try! policy := store_now (enroll d) in
  try! _ := store_now (set_identification d (match identification with
                                             | Some (confidence, families) => IdAutomatic (confidence_basis_points confidence) families
                                             | None => IdUnknown
                                             end)) in
  try! o := store (load d) in
  coordinator_evaluate (default policy o) now.
Definition coordinator_enabled : Coord bool :=
  try! o := store repo_baseline_started_at in mret_st (Ok (bool_decide (is_Some o))).
Definition control_blocks (d : DeviceId) : Coord bool :=
  if attached then store (verified_control_blocked d) else mret_st (Ok false).
Definition needs_recovery (d : DeviceId) : Coord bool :=
  try! o := store (load d) in mret_st (Ok (negb (bool_decide (is_Some o)))).

Fixpoint sweep_policies (l : list DevicePolicy) (now : DateTime) : Coord (list AuditedDecision) :=
  match l with
  | [] => mret_st (Ok [])
  | p :: l' =>
    try! a := coordinator_evaluate p now in
    try! rest := sweep_policies l' now in
    mret_st (Ok (a :: rest))
  end.
Definition sweep (now : DateTime) : Coord (list AuditedDecision) :=
  try! l := store repo_list in sweep_policies l now.

Definition approve_verified_action (d : DeviceId) (action : RequestedAction) (now : DateTime) : Coord AuditedDecision :=
  try! _ := store_now (set_owner_decision_and_schedule_release_retry d Approved action now) in
  try! p := load_present d in
  try! can_undo := undo_available d action in
  try! outcome := (if (can_undo : bool) then undo d action else mret_st (Ok ManualRequired)) in
  try! _ := (if bool_decide (outcome = Verified)
             then try! _ := record_unblock d now in store (clear_release_retry d)
             else store (schedule_release_retry d action now)) in
  finish p (evaluate_policy p now) outcome (can_undo && negb (bool_decide (outcome = Verified))) now.
Definition approve_pending_release (d : DeviceId) (action : RequestedAction) (outcome : EnforcementStatus) (now : DateTime)
  : Coord AuditedDecision :=
  try! _ := store_now (set_owner_decision_and_schedule_release_retry d Approved action now) in
  try! p := load_present d in
  try! available := undo_available d action in
  finish p (evaluate_policy p now) outcome available now.

(** The rest of [approve] once nothing is left to reconcile. *)
Definition approve_settled (d : DeviceId) (prior : option PolicyChanged) (now : DateTime) : Coord AuditedDecision :=
  let rest :=
    try! _ := store_now (set_owner_decision d Approved) in
    try! p := load_present d in
    coordinator_evaluate p now in
  match prior with
  | Some last =>
    if bool_decide (pc_enforcement_result last = Verified) && blocking (pc_requested_action last)
    then approve_verified_action d (pc_requested_action last) now else rest
  | None => rest
  end.
Definition approve (d : DeviceId) (now : DateTime) : Coord AuditedDecision :=
  try! o := store (load d) in
  match o with
  | None => refuse NotEnrolled
  | Some _ =>
    try! prior := store (published_decision d) in
    try! pending := store (actuation_attempt d) in
    match pending with
    | None => approve_settled d prior now
    | Some attempt =>
      if is_some_and (fun published => bool_decide (pc_enforcement_result published = Verified)
                                       && (pc_policy_version published =? at_policy_version attempt)
                                       && bool_decide (pc_requested_action published = at_action attempt)) prior
      then approve_settled d prior now
      else
        try! r := reconcile d (at_action attempt) in
        match r with
        | VerifiedApplied =>
          match at_decision attempt with
          | None => approve_pending_release d (at_action attempt) ManualRequired now
          | Some recovered =>
            try! _ := publish_exact recovered (Some attempt) now in
            try! _ := record_block d now in
            approve_verified_action d (at_action attempt) now
          end
        | ProvenNotApplied =>
          try! _ := store (clear_actuation_attempt d (at_policy_version attempt) (at_action attempt)) in
          approve_settled d prior now
        | Indeterminate | ReconcileManual => approve_pending_release d (at_action attempt) ManualRequired now
        | ReconcileFailed => approve_pending_release d (at_action attempt) Failed now
        end
    end
  end.

Definition with_owner_decision (v : OwnerDecision) (p : DevicePolicy) : DevicePolicy := {|
  dp_device_id := dp_device_id p; dp_first_seen_at := dp_first_seen_at p; dp_baseline_exempt := dp_baseline_exempt p;
  dp_identification := dp_identification p; dp_owner_decision := v; dp_risk := dp_risk p; dp_protection := dp_protection p;
  dp_extension_until := dp_extension_until p |}.
Definition set_owner_decision_after_release_guard (d : DeviceId) (owner : OwnerDecision) (now : DateTime) : Coord AuditedDecision :=
  try! o := store (load d) in
  match o with
  | None => refuse NotEnrolled
  | Some current =>
    let intended := with_owner_decision owner current in
    let evaluation := evaluate_policy intended now in
    let rest :=
      try! _ := store_now (set_owner_decision d owner) in
      try! p := load_present d in
      coordinator_evaluate p now in
    try! retry := store (release_retry_action d) in
    match retry with
    | None => rest
    | Some release_action =>
      if bool_decide (requested_action evaluation = release_action) then
        try! r := reconcile d release_action in
        match r with
        | VerifiedApplied =>
          try! _ := store (clear_release_retry d) in
          try! _ := store_now (set_owner_decision d owner) in
          try! p := load_present d in
          try! available := undo_available d release_action in
          finish p (evaluate_policy intended now) Verified available now
        | ProvenNotApplied => try! _ := store (clear_release_retry d) in rest
        | Indeterminate | ReconcileManual | ReconcileFailed => refuse PendingRelease
        end
      else try! _ := store (clear_release_retry d) in rest
    end
  end.
Definition reject (d : DeviceId) (now : DateTime) : Coord AuditedDecision := set_owner_decision_after_release_guard d Rejected now.
Definition coordinator_quarantine (d : DeviceId) (now : DateTime) : Coord AuditedDecision :=
  set_owner_decision_after_release_guard d Quarantined now.
Definition coordinator_extend_once (d : DeviceId) (until now : DateTime) : Coord AuditedDecision :=
  try! o := store (load d) in
  match o with
  | None => refuse NotEnrolled
  | Some _ =>
    try! _ := store_now (extend_once d until) in
    try! p := load_present d in
    coordinator_evaluate p now
  end.
End Coordinator.
