(* ===== verification/PolicyCoordinatorProps.v ===== *)
(** * Enforcement is fenced

    The journal of reservations fences the mutations of the actuator: after a call of [enforce]
    whose outcome is not known, the reservation of that call stays in the journal, and no other
    call is made before the first one is resolved. The invariant is kept by every effect of the
    coordinator, so it holds wherever an operation is interrupted. *)

From S2P Require Import Prelude Time Text F32 Domain Policy EventBus PolicyStore PolicyCoordinator.

Create HintDb fence discriminated.

(** ** The trace *)
(** A step that settles what became of the last mutation of the device: reconciliation found it
    applied or not applied, or a verified decision was durably acknowledged. *)
Definition resolves (d : DeviceId) (s : Step) : bool :=
  match s with
  | SReconcile d' _ (ProvenNotApplied | VerifiedApplied) => bool_decide (d' = d)
  | SAcknowledged e => bool_decide (pc_device_id e = d) && bool_decide (pc_enforcement_result e = Verified)
  | _ => false
  end.
Definition enforces (d : DeviceId) (s : Step) : bool := match s with SEnforce d' _ => bool_decide (d' = d) | _ => false end.
(** Whether the last mutation of the device is still unresolved. *)
Definition open_after (d : DeviceId) (b : bool) (s : Step) : bool := if enforces d s then true else if resolves d s then false else b.
Definition open (d : DeviceId) (t : list Step) : bool := fold_left (open_after d) t false.

Lemma open_snoc d t s : open d (t ++ [s]) = open_after d (open d t) s.
Proof. unfold open. by rewrite fold_left_app. Qed.

(** Every mutation was called with no unresolved mutation of the device before it. *)
Definition fenced (t : list Step) : Prop := forall t1 d a t2, t = t1 ++ SEnforce d a :: t2 -> open d t1 = false.

Lemma fenced_snoc t s : fenced t -> (forall d a, s = SEnforce d a -> open d t = false) -> fenced (t ++ [s]).
Proof.
  intros Ht Hs t1 d a t2 E. destruct t2 as [|x t2 _] using rev_ind.
  - apply app_inj_tail in E as [<- ->]. by eapply Hs.
  - rewrite app_comm_cons, app_assoc in E. apply app_inj_tail in E as [E _]. by eapply Ht.
Qed.

Lemma open_resolved d l b : fold_left (open_after d) l b = false -> b = true -> exists s, In s l /\ resolves d s = true.
Proof.
  revert b. induction l as [|s l IH]; intros b; cbn [fold_left]; [congruence|]. intros Hl ->.
  destruct (resolves d s) eqn:Er; [exists s; by split; [left|]|].
  destruct (IH (open_after d true s)) as (s' & Hin & Hr); [done|unfold open_after; rewrite Er; by case_match|]. exists s'. by split; [right|].
Qed.

Section Fence.
Context `{Calendar} `{PolicyLibs}.

(** ** The invariant *)
(** The decisions of the journal are those of their rows. *)
Definition journal_sound (db : PolicyDb) : Prop := forall d r s D,
  db_journal db !! d = Some r -> jr_decision_json r = Some s -> from_json s = Some D ->
  pc_device_id D = d /\ pc_enforcement_result D = Verified /\ pc_policy_version D = jr_policy_version r /\
  jr_action_json r = encode (pc_requested_action D).

Definition fence (db : PolicyDb) (t : list Step) (d : DeviceId) : Prop :=
  open d t = true -> exists r D, db_journal db !! d = Some r /\ jr_decision_json r = Some (encode D) /\
    published_decision_in d db <> Ok (Some D).
Record FenceInv (db : PolicyDb) (t : list Step) : Prop := {
  fi_fenced : fenced t;
  fi_sound : journal_sound db;
  fi_fence : forall d, fence db t d }.

(** What the invariant reads of a database. *)
Definition same_fence (db db' : PolicyDb) : Prop :=
  db_journal db' = db_journal db /\ forall d, column pr_published_decision_json d db' = column pr_published_decision_json d db.

Lemma same_fence_refl db : same_fence db db.
Proof. by split. Qed.
Lemma same_fence_published db db' d : same_fence db db' -> published_decision_in d db' = published_decision_in d db.
Proof. intros [_ Hp]. unfold published_decision_in. by rewrite Hp. Qed.
Lemma same_fence_inv db db' t : same_fence db db' -> FenceInv db t -> FenceInv db' t.
Proof.
  intros Hs [Hf Hj Hd]. pose proof (fun d => same_fence_published db db' d Hs) as Hp. destruct Hs as [Hjr _]. split; [done| |].
  - intros d r s D. rewrite Hjr. apply Hj.
  - intros d Ho. destruct (Hd d Ho) as (r & D & ? & ? & ?). exists r, D. by rewrite Hjr, Hp.
Qed.

Lemma quiet_inv db t s : (forall d, enforces d s = false) -> FenceInv db t -> FenceInv db (t ++ [s]).
Proof.
  intros He [Hf Hj Hd]. split; [apply fenced_snoc; [done|]|done|].
  - intros d a ->. specialize (He d). cbn in He. bprop. done.
  - intros d. unfold fence. rewrite open_snoc. unfold open_after. rewrite He. case_match; [done|apply Hd].
Qed.

(** ** Transactions *)
Lemma column_update {A} (g : PolicyRow -> option A) d d' f db :
  (forall r, g (f r) = g r) -> column g d' (update_policy d f db) = column g d' db.
Proof.
  intros Hg. unfold column, update_policy. cbn. destruct (decide (d = d')) as [<-|Hne]; [rewrite lookup_alter_eq|by rewrite lookup_alter_ne].
  destruct (db_device_policy db !! d); cbn; [apply Hg|done].
Qed.
Lemma update_same_fence d f db : (forall r, pr_published_decision_json (f r) = pr_published_decision_json r) -> same_fence db (update_policy d f db).
Proof. intros Hf. split; [done|]. intros d'. by apply column_update. Qed.
Lemma outbox_same_fence db v : same_fence db (with_outbox v db).
Proof. by split. Qed.
Lemma transitions_same_fence db v : same_fence db (with_transitions v db).
Proof. by split. Qed.
#[local] Hint Resolve same_fence_refl outbox_same_fence transitions_same_fence : fence.
#[local] Hint Extern 1 (same_fence _ (update_policy _ _ _)) => apply update_same_fence; intros; reflexivity : fence.

(** Every transaction but those on the journal and the acknowledgement. *)
Lemma schedule_enforcement_retry_quiet d now db : same_fence db (snd (schedule_enforcement_retry d now db)).
Proof. unfold schedule_enforcement_retry. case_match; cbn [snd]; auto with fence. Qed.
Lemma clear_enforcement_retry_quiet d db : same_fence db (snd (clear_enforcement_retry d db)).
Proof. cbv [clear_enforcement_retry clear_release_retry]. cbn [snd]. auto with fence. Qed.
Lemma schedule_release_retry_quiet d a now db : same_fence db (snd (schedule_release_retry d a now db)).
Proof. unfold schedule_release_retry. case_match; cbn [snd]; auto with fence. Qed.
Lemma clear_release_retry_quiet d db : same_fence db (snd (clear_release_retry d db)).
Proof. cbv [clear_enforcement_retry clear_release_retry]. cbn [snd]. auto with fence. Qed.
Lemma update_json_quiet d f db : (forall r, pr_published_decision_json (f r) = pr_published_decision_json r) -> same_fence db (snd (update_json d f db)).
Proof. intros Hf. unfold update_json. case_match; [by apply update_same_fence|cbn [snd]; auto with fence]. Qed.
Lemma set_owner_and_schedule_quiet d v a now clock db : same_fence db (snd (set_owner_decision_and_schedule_release_retry d v a now clock db)).
Proof. unfold set_owner_decision_and_schedule_release_retry. case_match; cbn [snd]; auto with fence. Qed.
Lemma extend_once_quiet d until clock db : same_fence db (snd (extend_once d until clock db)).
Proof. unfold extend_once. case_match; [|cbn [snd]; auto with fence]. case_match; cbn [snd]; auto with fence. Qed.
Lemma insert_transition_quiet r db : same_fence db (snd (insert_transition r db)).
Proof. unfold insert_transition. case_match; cbn [snd]; auto with fence. Qed.
Lemma record_block_quiet d now db : same_fence db (snd (record_verified_block d now db)).
Proof. unfold record_verified_block. case_match; [cbn [snd]; auto with fence|apply insert_transition_quiet]. Qed.
Lemma prepare_exact_quiet d f e clock db : same_fence db (snd (prepare_exact_decision_publication d f e clock db)).
Proof.
  unfold prepare_exact_decision_publication. case_match; [apply same_fence_refl|]. unfold prepare_decision_publication_inner.
  case_match; [apply same_fence_refl|]. destruct (insert_pending _ _) as [n t]. repeat case_match; cbn [snd]; auto with fence.
Qed.
Lemma enroll_quiet d clock db : same_fence db (snd (enroll d clock db)).
Proof.
  unfold enroll. destruct (enrolment d clock db) as [row|e] eqn:E; [|apply same_fence_refl]. cbn. split; [done|]. intros d'. unfold column. cbn. unfold insert_or_ignore.
  destruct (db_device_policy db !! d) eqn:El; [done|]. destruct (decide (d = d')) as [<-|Hne]; [rewrite lookup_insert_eq, El|by rewrite lookup_insert_ne].
  unfold enrolment in E. repeat (apply result_bind_ok in E as (? & _ & E)). by simplify_eq.
Qed.

(** *** The journal *)
Lemma delete_attempt_cases d v a db : delete_attempt d v a db = (0, db) \/
  delete_attempt d v a db = (1, with_journal (delete d (db_journal db)) db).
Proof. unfold delete_attempt. case_match; [case_match|]; auto. Qed.
Lemma delete_journal_inv d db t : FenceInv db t -> open d t = false -> FenceInv (with_journal (delete d (db_journal db)) db) t.
Proof.
  intros [Hf Hj Hd] Ho. split; [done| |].
  - intros d' r s D. cbn. rewrite lookup_delete_Some. intros [_ Hr]. by apply Hj.
  - intros d' Ho'. destruct (Hd d' Ho') as (r & D & Hr & ?). exists r, D. cbn. rewrite lookup_delete_ne; [done|]. congruence.
Qed.
Lemma clear_attempt_inv d v a db t : FenceInv db t -> open d t = false -> FenceInv (snd (clear_actuation_attempt d v a db)) t.
Proof.
  intros Hi Ho. unfold clear_actuation_attempt. destruct (delete_attempt_cases d v a db) as [-> | ->]; cbn; [done|]. by apply delete_journal_inv.
Qed.
Lemma clear_attempt_published d v a db d' : published_decision_in d' (snd (clear_actuation_attempt d v a db)) = published_decision_in d' db.
Proof. unfold clear_actuation_attempt. by destruct (delete_attempt_cases d v a db) as [-> | ->]. Qed.
Lemma clear_attempt_gone d v a db u : fst (clear_actuation_attempt d v a db) = Ok u ->
  db_journal (snd (clear_actuation_attempt d v a db)) !! d = None.
Proof. unfold clear_actuation_attempt. destruct (delete_attempt_cases d v a db) as [-> | ->]; cbn; [done|]. intros _. by rewrite lookup_delete_eq. Qed.

(** What is known of a reservation that was read. *)
Definition sound_attempt (d : DeviceId) (o : option ActuationAttempt) : Prop := forall a e, o = Some a -> at_decision a = Some e ->
  pc_device_id e = d /\ pc_enforcement_result e = Verified /\ pc_policy_version e = at_policy_version a /\ pc_requested_action e = at_action a.
Lemma read_attempt d db a : actuation_attempt_in d db = Ok (Some a) -> exists r, db_journal db !! d = Some r /\
  at_policy_version a = jr_policy_version r /\ from_json (jr_action_json r) = Some (at_action a) /\
  match jr_decision_json r with Some s => from_json s = at_decision a /\ is_Some (at_decision a) | None => at_decision a = None end.
Proof.
  unfold actuation_attempt_in, transpose. destruct (db_journal db !! d) as [r|]; [|done]. intros E. exists r. split; [done|].
  apply result_bind_ok in E as (a' & E & [= <-]). unfold decode_attempt in E. case_match; [done|]. apply result_bind_ok in E as (act & Ea & E).
  apply result_bind_ok in E as (dec & Ed & [= <-]). cbn. unfold decode in *. split; [done|]. split; [by destruct (from_json (jr_action_json r)); simplify_eq/=|].
  unfold transpose in Ed. destruct (jr_decision_json r) as [s|]; [|by simplify_eq]. apply result_bind_ok in Ed as (D & ED & [= <-]).
  destruct (from_json s); simplify_eq/=. by split.
Qed.
Lemma read_attempt_sound d db t o : FenceInv db t -> actuation_attempt_in d db = Ok o -> sound_attempt d o.
Proof.
  intros [_ Hj _] E a e -> He. apply read_attempt in E as (r & Hr & Hv & Ha & Hd). rewrite He in Hd. destruct (jr_decision_json r) as [s|] eqn:Es; [|done].
  destruct Hd as [Hs _]. destruct (Hj d r s e Hr Es Hs) as (? & ? & ? & Hact). split_and!; [done|done|congruence|].
  rewrite Hact in Ha. unfold encode in Ha. rewrite from_to_json in Ha. by simplify_eq.
Qed.

(** ** Triples *)
Section Triples.
Context {W : Type} `{PolicyActuator W} (attached : bool).

(** The condition reads no more of a database than the invariant, and of a trace which devices
    are open. *)
Definition stable (P : PolicyDb -> list Step -> Prop) : Prop :=
  forall db db' t t', same_fence db db' -> (forall d, open d t' = open d t) -> P db t -> P db' t'.

(** From a state with the invariant and [P], the computation keeps the invariant wherever it
    stops, and [Q] holds of its value. *)
Definition keeps {A} (P : PolicyDb -> list Step -> Prop) (m : Coord (W := W) A) (Q : A -> PolicyDb -> list Step -> Prop) : Prop :=
  forall w, FenceInv (w_db w) (w_trace w) -> P (w_db w) (w_trace w) ->
    wp m (fun r w' => FenceInv (w_db w') (w_trace w') /\ match r with Ok a => Q a (w_db w') (w_trace w') | Err _ => True end) w.

Lemma keeps_ret {A} P (r : result A Stop) Q :
  (forall a db t, r = Ok a -> P db t -> Q a db t) -> keeps P (mret_st r) Q.
Proof. intros Hq w Hi Hp. unfold wp, mret_st. cbn. split; [done|]. destruct r; [by apply Hq|done]. Qed.
Lemma keeps_try {A B} P (m : Coord A) (k : A -> Coord B) Q R : keeps P m Q -> (forall a, keeps (Q a) (k a) R) -> keeps P (try_bind m k) R.
Proof.
  intros Hm Hk w Hi Hp. apply wp_try. eapply wp_mono; [by apply Hm|]. intros r w' [Hi' Hr]. destruct r as [a|e]; [by apply Hk|done].
Qed.
Lemma keeps_weaken {A} (P P' : PolicyDb -> list Step -> Prop) (m : Coord A) (Q Q' : A -> PolicyDb -> list Step -> Prop) :
  keeps P m Q -> (forall db t, P' db t -> P db t) -> (forall a db t, Q a db t -> Q' a db t) -> keeps P' m Q'.
Proof.
  intros Hm HP HQ w Hi Hp. eapply wp_mono; [by apply Hm; [|apply HP]|]. intros r w' [Hi' Hr]. split; [done|]. destruct r; [by apply HQ|done].
Qed.

Lemma take_fault_view (w : World W) : w_db (snd (take_fault w)) = w_db w /\ w_trace (snd (take_fault w)) = w_trace w.
Proof. unfold take_fault. by destruct (w_faults w). Qed.
Lemma keeps_effect {A} P (m : Coord A) Q : keeps P m Q -> keeps P (effect m) Q.
Proof.
  intros Hm w Hi Hp. unfold wp, effect. destruct (take_fault_view w) as [E1 E2]. destruct (take_fault w) as [f w1]. cbn [snd] in *.
  destruct f; cbn [fst snd]; [apply Hm; congruence|rewrite E1, E2; done|]. split; [|done]. apply (Hm w1); congruence.
Qed.
Lemma keeps_store {A} P (m : Repo A) Q :
  (forall db t, FenceInv db t -> P db t -> FenceInv (snd (m db)) t /\ forall a, fst (m db) = Ok a -> Q a (snd (m db)) t) ->
  keeps P (store m) Q.
Proof.
  intros Hm. apply keeps_effect. intros w Hi Hp. unfold wp. destruct (Hm _ _ Hi Hp) as [Hi' Hq]. destruct (m (w_db w)) as [r db']. cbn [fst snd] in *.
  destruct r; cbn; split; auto.
Qed.
Lemma keeps_store_now {A} P (m : DateTime -> Repo A) Q : (forall clock, keeps P (store (m clock)) Q) -> keeps P (store_now m) Q.
Proof. intros Hm w. apply (Hm (w_clock w)). Qed.
Lemma keeps_read {A} P (f : PolicyDb -> result A StoreError) : keeps P (store (reading f)) (fun a db t => P db t /\ f db = Ok a /\ FenceInv db t).
Proof. apply keeps_store. intros db t Hi Hp. cbn. by split. Qed.
(** A transaction that the invariant does not see. *)
Lemma keeps_quiet {A} P (m : Repo A) : stable P -> (forall db, same_fence db (snd (m db))) -> keeps P (store m) (fun _ => P).
Proof.
  intros HP Hm. apply keeps_store. intros db t Hi Hp. split; [by eapply same_fence_inv|]. intros a _. by eapply HP.
Qed.
Lemma keeps_actuate {A} P (m : M W A) : keeps P (actuate m) (fun _ => P).
Proof. intros w Hi Hp. unfold wp, actuate. by destruct (m (w_actuator w)). Qed.
Lemma keeps_log {A} P (s : Step) (a : A) Q :
  (forall db t, FenceInv db t -> P db t -> FenceInv db (t ++ [s]) /\ Q a db (t ++ [s])) -> keeps P (fun w => (Ok a, log_step s w)) Q.
Proof. intros Hs w Hi Hp. unfold wp. cbn. by apply Hs. Qed.

Lemma keeps_undo P d a : stable P -> keeps P (undo d a) (fun _ => P).
Proof.
  intros HP. apply keeps_effect. intros w Hi Hp. unfold wp, actuate. cbn [log_step w_actuator]. destruct (act_undo d a (w_actuator w)) as [r s]. cbn.
  split; [by apply quiet_inv|]. eapply HP; [apply same_fence_refl| |exact Hp]. intros d'. rewrite open_snoc. done.
Qed.
Lemma keeps_undo_available P d a : keeps P (undo_available d a) (fun _ => P).
Proof. apply keeps_effect, keeps_actuate. Qed.
Lemma keeps_bus P now e : stable P -> keeps P (bus_publish now e) (fun _ => P).
Proof.
  intros HP. apply keeps_effect. intros w Hi Hp. unfold wp. destruct (w_bus w) as [bus|]; [|done].
  destruct (EventBus.publish bus now e) as [[env bus']|]; [|done]. cbn.
  split; [by apply quiet_inv|]. eapply HP; [apply same_fence_refl| |exact Hp]. intros d'. rewrite open_snoc. done.
Qed.

(** Reconciliation that finds the mutation applied or not applied settles it. *)
Definition settled (d : DeviceId) (db : PolicyDb) (t : list Step) : Prop := open d t = false.
Definition settles (r : ActuationReconciliation) : bool := match r with ProvenNotApplied | VerifiedApplied => true | _ => false end.
Lemma keeps_reconcile P d a : (forall db t t', P db t -> P db t') ->
  keeps P (reconcile d a) (fun r db t => P db t /\ (settles r = true -> settled d db t)).
Proof.
  intros HP. eapply keeps_try; [apply keeps_effect, keeps_actuate|]. intros r. apply keeps_log. intros db t Hi Hp.
  split; [by apply quiet_inv|]. split; [by eapply HP|]. unfold settled. rewrite open_snoc. unfold open_after. destruct r; cbn; try done; by rewrite bool_decide_true.
Qed.

(** ** Publication *)
(** What an acknowledgement of [e] does to the published decisions. *)
Definition marks (e : PolicyChanged) (db db' : PolicyDb) : Prop := forall d,
  published_decision_in d db' = published_decision_in d db \/ (d = pc_device_id e /\ published_decision_in d db' = Ok (Some e)).
Lemma marks_same e db db' : same_fence db db' -> marks e db db'.
Proof. intros Hs d. left. by apply same_fence_published. Qed.
Definition forgiving (e : PolicyChanged) (P : PolicyDb -> list Step -> Prop) : Prop :=
  forall db db' t t', marks e db db' -> P db t -> P db' t'.
Lemma forgiving_stable e P : forgiving e P -> stable P.
Proof. intros HP db db' t t' Hs _. apply HP. by apply marks_same. Qed.

Lemma published_after_mark d f e clock db :
  published_decision_in d (update_policy d (set_published f (encode e) clock) db) = Ok (Some e) \/ published_decision_in d (update_policy d (set_published f (encode e) clock) db) = published_decision_in d db.
Proof.
  unfold published_decision_in, column, update_policy. cbn. rewrite lookup_alter_eq. destruct (db_device_policy db !! d); cbn; [left|by right].
  unfold decode, encode. by rewrite from_to_json.
Qed.
Lemma mark_inv e f attempt clock db t :
  FenceInv db t -> (is_Some attempt -> pc_enforcement_result e = Verified) ->
  let r := mark_decision_published_and_clear_attempt (pc_device_id e) f e attempt clock db in
  match fst r with
  | Ok _ => FenceInv (snd r) (t ++ [SAcknowledged e]) /\ marks e db (snd r)
  | Err _ => snd r = db
  end.
Proof.
  intros Hi Ha. cbv zeta. unfold mark_decision_published_and_clear_attempt. set (d := pc_device_id e).
  set (db2 := with_outbox _ (update_policy d _ db)). assert (marks e db db2) as Hm.
  { intros d'. destruct (decide (d' = d)) as [->|Hne]; [destruct (published_after_mark d f e (to_rfc3339 clock) db); auto|left].
    unfold published_decision_in, column. cbn. by rewrite lookup_alter_ne. }
  assert (db_journal db2 = db_journal db) as Hjr by done.
  assert (pc_enforcement_result e = Verified \/ attempt = None -> forall j, (j = db_journal db \/ pc_enforcement_result e = Verified /\ j = delete d (db_journal db)) ->
    FenceInv (with_journal j db2) (t ++ [SAcknowledged e])) as Hend.
  { intros _ j Hj. destruct Hi as [Hf Hs Hd]. split; [by apply fenced_snoc| |].
    - intros d' r s D Hr. apply (Hs d' r s D). cbn in Hr. destruct Hj as [->|[_ ->]]; [done|]. by apply lookup_delete_Some in Hr as [_ Hr].
    - intros d' Ho. rewrite open_snoc in Ho. unfold open_after in Ho. cbn [enforces resolves] in Ho. destruct (bool_decide_reflect (d = d')) as [<-|Hne].
      + destruct (bool_decide_reflect (pc_enforcement_result e = Verified)) as [Hv|Hv]; fold d in Ho; rewrite ?(bool_decide_true (d = d)) in Ho by done; cbn in Ho; [done|].
        destruct (Hd d Ho) as (r & D & Hr & HD & Hp). exists r, D. destruct Hj as [->|[? _]]; [|done]. split_and!; [done|done|].
        destruct (Hm d) as [Hm'|[_ Hm']]; [by rewrite <- Hm' in Hp|]. change (published_decision_in d db2 <> Ok (Some D)). rewrite Hm'. intros [= <-].
        destruct (Hs d r (encode e) e Hr HD (from_to_json e)) as (_ & ? & _). done.
      + fold d in Ho. rewrite bool_decide_false in Ho by done. cbn in Ho. destruct (Hd d' Ho) as (r & D & Hr & HD & Hp). exists r, D. split_and!; [|done|].
        * cbn. destruct Hj as [->|[_ ->]]; [done|]. by rewrite lookup_delete_ne.
        * change (published_decision_in d' db2 <> Ok (Some D)). destruct (Hm d') as [->|[? _]]; [done|destruct Hne; unfold d; congruence]. }
  destruct attempt as [a|]; [|].
  - specialize (Ha (mk_is_Some _ _ eq_refl)). destruct (delete_attempt_cases d (at_policy_version a) (at_action a) db2) as [-> | ->]; cbn [fst snd]; [done|].
    split; [apply Hend; auto|exact Hm].
  - cbn [fst snd]. split; [|exact Hm]. apply (Hend (or_intror eq_refl) (db_journal db)). by left.
Qed.

Lemma keeps_acknowledge P e f attempt : forgiving e P -> (is_Some attempt -> pc_enforcement_result e = Verified) ->
  keeps P (acknowledge e f attempt) (fun _ => P).
Proof.
  intros HP Ha. apply keeps_effect. intros w Hi Hp. unfold wp. pose proof (mark_inv e f attempt (w_clock w) _ _ Hi Ha) as Hm. cbv zeta in Hm.
  destruct (mark_decision_published_and_clear_attempt _ _ _ _ _ _) as [[u|x] db']; cbn [fst snd] in *; [|subst db'; done].
  destruct Hm as [Hi' Hm]. cbn. split; [done|]. by eapply HP.
Qed.
Lemma keeps_publish_exact P e attempt now : forgiving e P -> (is_Some attempt -> pc_enforcement_result e = Verified) ->
  keeps P (publish_exact e attempt now) (fun _ => P).
Proof.
  intros HP Ha. pose proof (forgiving_stable e P HP) as Hs. eapply keeps_try.
  { apply keeps_store_now. intros clock. apply (keeps_quiet P); [done|]. apply prepare_exact_quiet. }
  intros []; cbn [negb]; [|by apply keeps_ret]. eapply keeps_try; [by apply keeps_bus|]. intros u; cbv beta. eapply (keeps_try _ _ _ (fun o db t => P db t /\ (is_Some o -> pc_enforcement_result e = Verified))).
  - destruct attempt as [old|]; [apply keeps_ret; intros a' db t [= <-] Hp; split; [done|exact (fun _ => Ha (mk_is_Some _ _ eq_refl))]|]. unfold matching_attempt.
    destruct (bool_decide_reflect (pc_enforcement_result e = Verified)) as [Hv|Hv]; cbn [andb]; [destruct (blocking _)|]; try (apply keeps_ret; intros o db t [= <-] Hp; split; [done|by intros [? ?]]).
    eapply keeps_try; [apply keeps_read|]. intros o. apply keeps_ret. intros o' db t _ [Hp _]. by split.
  - intros o. intros w Hi [Hp Ho]. by apply (keeps_acknowledge P).
Qed.

Definition anything (_ : PolicyDb) (_ : list Step) : Prop := True.
Lemma keeps_finish P p ev result_ available now : keeps P (finish p ev result_ available now) (fun _ => anything).
Proof.
  apply (keeps_weaken anything _ _ (fun _ => anything)); [|done|done]. eapply keeps_try; [apply (keeps_publish_exact anything); [done|by intros [? ?]]|].
  intros ?. by apply keeps_ret.
Qed.

(** ** Evaluation *)
Definition published (d : DeviceId) (o : option PolicyChanged) (db : PolicyDb) (_ : list Step) : Prop := published_decision_in d db = Ok o.
(** The decision is not the published one. *)
Definition unpublished (d : DeviceId) (D : PolicyChanged) (db : PolicyDb) (_ : list Step) : Prop := published_decision_in d db <> Ok (Some D).

Lemma published_stable d o : stable (published d o).
Proof. intros db db' t t' Hs _. unfold published. by rewrite (same_fence_published db db' d Hs). Qed.
Lemma anything_stable : stable anything.
Proof. done. Qed.

Lemma keeps_clear P d v a : (forall db t, P db t -> settled d db t) ->
  keeps P (store (clear_actuation_attempt d v a)) (fun _ db _ => db_journal db !! d = None /\ exists db0 t0, P db0 t0 /\ forall d', published_decision_in d' db = published_decision_in d' db0).
Proof.
  intros Hs. apply keeps_store. intros db t Hi Hp. split; [apply clear_attempt_inv; [done|by apply (Hs db)]|]. intros u Hu.
  split; [by eapply clear_attempt_gone|]. exists db, t. split; [done|]. intros d'. apply clear_attempt_published.
Qed.

Lemma keeps_retire d o : keeps (published d o) (retire_acknowledged d o) (fun _ => published d o).
Proof.
  unfold retire_acknowledged. destruct o as [last|]; [|by apply keeps_ret]. case_bool_decide as Hv; [|by apply keeps_ret].
  eapply keeps_try; [apply keeps_read|]. intros [a|]; [|apply keeps_ret; by intros ? ? ? _ [? _]].
  destruct (_ && _) eqn:E; [|apply keeps_ret; by intros ? ? ? _ [? _]]. bprop.
  eapply keeps_weaken; [eapply (keeps_clear (fun db t => published d (Some last) db t /\ settled d db t))|..].
  - by intros db t [_ ?].
  - intros db t (Hp & Ha & Hi). split; [done|]. unfold settled. destruct (open d t) eqn:Eo; [|done]. exfalso.
    destruct (fi_fence _ _ Hi d Eo) as (r & D & Hr & HD & Hne). apply read_attempt in Ha as (r' & Hr' & _ & _ & Hd). simplify_eq. rewrite HD in Hd.
    destruct Hd as [Hd _]. unfold encode in Hd. rewrite from_to_json in Hd. apply Hne. unfold published in Hp. rewrite Hp. congruence.
  - intros u db t (_ & db0 & t0 & [Hp _] & Hsame). unfold published in *. by rewrite Hsame.
Qed.

Lemma keeps_record_block P d now : stable P -> keeps P (record_block attached d now) (fun _ => P).
Proof. intros HP. unfold record_block. destruct attached; [|by apply keeps_ret; intros ? ? ? [= <-]]. apply keeps_quiet; [done|]. apply record_block_quiet. Qed.
Lemma keeps_record_unblock P d now : stable P -> keeps P (record_unblock attached d now) (fun _ => P).
Proof. intros HP. unfold record_unblock. destruct attached; [|by apply keeps_ret; intros ? ? ? [= <-]]. apply keeps_quiet; [done|]. intros db. apply insert_transition_quiet. Qed.

Lemma keeps_retry_release p ev a now : keeps anything (retry_release attached p ev a now) (fun _ => anything).
Proof.
  unfold retry_release. eapply (keeps_try _ _ _ (fun _ => anything)).
  { unfold released. destruct attached; [|by apply keeps_ret]. eapply keeps_try; [apply keeps_read|]. intros b. by apply keeps_ret. }
  intros []; [eapply keeps_try; [apply (keeps_quiet anything); [done|apply clear_release_retry_quiet]|]; intros ?; apply keeps_finish|].
  eapply keeps_try; [by apply keeps_undo|]. intros r; cbv beta. eapply keeps_try; [apply keeps_undo_available|]. intros av; cbv beta.
  eapply (keeps_try _ _ _ (fun _ => anything)); [|intros ?; apply keeps_finish]. case_bool_decide.
  - eapply keeps_try; [by apply keeps_record_unblock|]. intros ?; cbv beta. apply (keeps_quiet anything); [done|apply clear_release_retry_quiet].
  - apply (keeps_quiet anything); [done|apply schedule_release_retry_quiet].
Qed.

(** What is known of the published decision where the current action starts. *)
Definition before_action (d : DeviceId) (ev : Evaluation) (o : option PolicyChanged) (db : PolicyDb) (t : list Step) : Prop :=
  published_decision_in d db = Ok o \/
  exists e, published_decision_in d db = Ok (Some e) /\ ~ (pc_policy_version e = policy_version ev /\ pc_requested_action e = requested_action ev).

Lemma keeps_read_attempt P d : keeps P (store (actuation_attempt d)) (fun o db t => P db t /\ sound_attempt d o).
Proof. eapply keeps_weaken; [apply keeps_read|intros db t Hp; exact Hp|]. intros o db t (Hp & Ho & Hi). split; [done|]. by eapply read_attempt_sound. Qed.

Lemma keeps_superseded p ev o now k :
  keeps (before_action (dp_device_id p) ev o) k (fun _ => anything) ->
  keeps (published (dp_device_id p) o) (reconcile_superseded p ev o now k) (fun _ => anything).
Proof.
  intros Hk. unfold reconcile_superseded. set (d := dp_device_id p) in *. eapply keeps_try; [apply keeps_read_attempt|]. intros [old|].
  2: { eapply keeps_weaken; [exact Hk| |done]. intros db t [Hp _]. by left. }
  destruct (_ && _) eqn:Esame. { eapply keeps_weaken; [exact Hk| |done]. intros db t [Hp _]. by left. }
  eapply (keeps_try _ _ _ (fun r db t => (published d o db t /\ sound_attempt d (Some old)) /\ (settles r = true -> settled d db t))).
  { apply keeps_reconcile. done. }
  assert (forall v act, keeps (fun db t => published d o db t /\ settled d db t) (store (clear_actuation_attempt d v act)) (fun _ => before_action d ev o)) as Hclear.
  { intros v act. eapply keeps_weaken; [apply (keeps_clear (fun db t => published d o db t /\ settled d db t)); by intros db t [_ ?]|done|]. intros u db t (_ & db0 & t0 & [Hp _] & Hsame). left. by rewrite Hsame. }
  intros r; cbv beta. destruct r; try (apply keeps_finish).
  - destruct (at_decision old) as [event|] eqn:Ed.
    + eapply (keeps_try _ _ _ (fun _ db t => published d o db t /\ sound_attempt d (Some old))).
      { eapply keeps_weaken; [|intros db t [Hp _]; exact Hp|intros a db t Hq; exact Hq]. destruct (blocking _); [apply keeps_undo_available|by apply keeps_ret]. }
      intros av; cbv beta. set (recovered := {| pc_device_id := _ |}).
      intros w Hi [Hp Hs]. destruct (Hs old event eq_refl Ed) as (E1 & E2 & E3 & E4).
      assert (~ (pc_policy_version recovered = policy_version ev /\ pc_requested_action recovered = requested_action ev)) as Hne.
      { intros [Hv Ha]. cbn in Hv, Ha. apply andb_false_iff in Esame as [Esame|Esame]; bprop; congruence. }
      assert (forgiving recovered (before_action d ev o)) as Hforg.
      { intros db db' t t' Hm [Hb|(e & He & Hn)]; (destruct (Hm d) as [Hd|[_ Hd]]; [|right; exists recovered; by split]); [left|right; exists e]; by rewrite Hd. }
      apply (keeps_try (before_action d ev o) _ _ (fun _ => before_action d ev o) (fun _ => anything)); [by apply keeps_publish_exact| |exact Hi|by left].
      intros u. cbv beta. clear Esame. destruct (bool_decide (at_action old = PermanentBan) && _); [|exact Hk].
      eapply (keeps_weaken anything); [|done|intros a db t Hq; exact Hq].
      eapply keeps_try; [apply (keeps_quiet anything); [done|apply schedule_release_retry_quiet]|]. intros ?. apply keeps_finish.
    + destruct (is_some_and _ o); [|apply keeps_finish]. eapply keeps_try; [eapply keeps_weaken; [apply Hclear| |intros u db t Hq; exact Hq]|].
      * intros db t [[Hp _] Hs]. split; [done|by apply Hs].
      * intros u. exact Hk.
  - eapply keeps_try; [eapply keeps_weaken; [apply Hclear| |intros u db t Hq; exact Hq]|intros u; exact Hk]. intros db t [[Hp _] Hs]. split; [done|by apply Hs].
Qed.

(** The reservation of the decision [D] stands, and nothing of the device is open. *)
Definition standing (d : DeviceId) (D : PolicyChanged) (db : PolicyDb) (t : list Step) : Prop :=
  settled d db t /\ unpublished d D db t /\ exists r, db_journal db !! d = Some r /\ jr_decision_json r = Some (encode D).

Lemma reserve_step p ev now db t :
  let d := dp_device_id p in
  let D := policy_event p ev Verified false in
  let out := reserve_actuation_with_decision d (policy_version ev) (requested_action ev) now (Some D) db in
  FenceInv db t -> unpublished d D db t ->
  FenceInv (snd out) t /\ unpublished d D (snd out) t /\
  (forall r, fst out = Ok r -> r = Reserved \/ db_journal db !! d = None -> standing d D (snd out) t).
Proof.
  cbv zeta. set (d := dp_device_id p). set (D := policy_event p ev Verified false). intros Hi Hu. unfold reserve_actuation_with_decision.
  destruct (actuation_attempt_in d db) as [[a|]|e] eqn:Ea; [|..].
  - apply read_attempt in Ea as (r & Hr & _). destruct (_ && _); cbn [fst snd]; split_and!; try done. intros r' [= <-] [?|?]; congruence.
  - assert (db_journal db !! d = None) as Hnone.
    { unfold actuation_attempt_in, transpose in Ea. destruct (db_journal db !! d); [|done]. by apply result_bind_ok in Ea as (? & _ & ?). }
    destruct (enrolled d db); cbn [negb fst snd]; [|by split_and!]. assert (open d t = false) as Ho.
    { destruct (open d t) eqn:Eo; [|done]. destruct (fi_fence _ _ Hi d Eo) as (r & ? & Hr & _). congruence. }
    split_and!; [|done|].
    + destruct Hi as [Hf Hj Hd]. split; [done| |].
      * intros d' r s D'. cbn. destruct (decide (d = d')) as [<-|Hne]; [rewrite lookup_insert_eq; intros [= <-]|rewrite lookup_insert_ne by done; apply Hj].
        cbn. intros [= <-]. unfold encode. rewrite from_to_json. intros [= <-]. done.
      * intros d' Ho'. destruct (Hd d' Ho') as (r & D' & Hr & ?). exists r, D'. cbn. rewrite lookup_insert_ne; [done|]. congruence.
    + intros _ _ _. split_and!; [done|done|]. eexists. cbn. rewrite lookup_insert_eq. done.
  - cbn [fst snd]. by split_and!.
Qed.

Lemma keeps_enforce d a D : keeps (standing d D) (enforce d a) (fun _ => anything).
Proof.
  apply keeps_effect. intros w Hi (Ho & Hu & r & Hr & HD). unfold wp, actuate. cbn [log_step w_actuator]. destruct (act_enforce d a (w_actuator w)) as [x s]. cbn.
  split; [|done]. destruct Hi as [Hf Hj Hd]. split; [apply fenced_snoc; [done|by intros d' a' [= <- _]]|done|].
  intros d'. unfold fence. rewrite open_snoc. unfold open_after. cbn. destruct (bool_decide_reflect (d = d')) as [<-|Hne]; [intros _; by exists r, D|apply Hd].
Qed.

Lemma keeps_enforce_fenced p ev now :
  keeps (unpublished (dp_device_id p) (policy_event p ev Verified false)) (enforce_fenced p ev now) (fun _ => anything).
Proof.
  set (d := dp_device_id p). set (D := policy_event p ev Verified false). unfold enforce_fenced.
  eapply (keeps_try _ _ _ (fun r db t => unpublished d D db t /\ (r = Reserved -> standing d D db t))).
  { apply keeps_store. intros db t Hi Hu. destruct (reserve_step p ev now db t Hi Hu) as (Hi' & Hu' & Hs). split; [done|]. intros r Hr. split; [done|]. intros ->. by eapply Hs; [|left]. }
  intros []; cbv beta. { eapply keeps_weaken; [apply (keeps_enforce _ _ D)| |done]. intros db t [_ Hs]. by apply Hs. }
  eapply (keeps_try _ _ _ (fun r db t => unpublished d D db t /\ (settles r = true -> settled d db t))).
  { eapply keeps_weaken; [apply (keeps_reconcile (unpublished d D)); done|by intros db t [? _]|done]. }
  intros []; cbv beta; try (by apply keeps_ret). 
  eapply (keeps_try _ _ _ (fun _ db t => unpublished d D db t /\ db_journal db !! d = None)).
  { eapply keeps_weaken; [apply (keeps_clear (fun db t => unpublished d D db t /\ settled d db t)); by intros db t [_ ?]|..].
    - intros db t [Hu Hs]. split; [done|by apply Hs].
    - intros u db t (Hn & db0 & t0 & [Hu _] & Hsame). split; [|done]. unfold unpublished. rewrite Hsame. exact Hu. }
  intros u; cbv beta. eapply (keeps_try _ _ _ (fun _ => standing d D)); [|intros r; apply keeps_enforce].
  apply keeps_store. intros db t Hi [Hu Hn]. destruct (reserve_step p ev now db t Hi Hu) as (Hi' & Hu' & Hs). split; [done|]. intros r Hr. eapply Hs; [done|by right].
Qed.

Lemma keeps_waiting P d ev o x now : keeps P (waiting d ev o x now) (fun _ => P).
Proof.
  unfold waiting. destruct (prior_matches ev o x); [|by apply keeps_ret]. eapply keeps_try; [apply keeps_read|]. intros b. apply keeps_ret. by intros ? ? ? _ [? _].
Qed.
Lemma keeps_enforcement_of p ev o now :
  keeps (before_action (dp_device_id p) ev o) (enforcement_of p ev o now) (fun _ => anything).
Proof.
  unfold enforcement_of. set (d := dp_device_id p). destruct (_ || _); [by apply keeps_ret|]. destruct (prior_matches ev o Verified) eqn:Ep; [by apply keeps_ret|].
  eapply keeps_try; [apply keeps_waiting|]. intros []; cbv beta; [by apply keeps_ret|]. eapply keeps_try; [apply keeps_waiting|]. intros []; cbv beta; [by apply keeps_ret|].
  eapply keeps_weaken; [apply keeps_enforce_fenced| |done]. intros db t Hb. unfold unpublished. fold d. intros E. destruct Hb as [Hb|(e & He & Hne)].
  - rewrite Hb in E. injection E as ->. unfold prior_matches in Ep. cbn in Ep. by rewrite !bool_decide_true in Ep.
  - rewrite He in E. injection E as ->. apply Hne. done.
Qed.

Lemma keeps_conclude p ev x now : keeps anything (conclude attached p ev x now) (fun _ => anything).
Proof.
  unfold conclude. eapply (keeps_try _ _ _ (fun _ => anything)).
  { destruct x; apply (keeps_quiet anything); try done; (apply clear_enforcement_retry_quiet || apply schedule_enforcement_retry_quiet). }
  intros ?; cbv beta. eapply (keeps_try _ _ _ (fun _ => anything)); [destruct (_ && _); [by apply keeps_record_block|by apply keeps_ret]|].
  intros ?; cbv beta. eapply (keeps_try _ _ _ (fun _ => anything)); [destruct (_ && _); [apply keeps_undo_available|by apply keeps_ret]|]. intros ?. apply keeps_finish.
Qed.

Lemma keeps_evaluate p now : keeps anything (coordinator_evaluate attached p now) (fun _ => anything).
Proof.
  unfold coordinator_evaluate. set (d := dp_device_id p). set (ev := evaluate_policy p now).
  eapply (keeps_try _ _ _ (published d)); [eapply keeps_weaken; [apply keeps_read|done|by intros o db t (_ & Ho & _)]|].
  intros o; cbv beta. eapply keeps_try; [apply keeps_retire|]. intros u; cbv beta.
  assert (keeps (published d o) (reconcile_superseded p ev o now (try! x := enforcement_of p ev o now in conclude attached p ev x now)) (fun _ => anything)) as Hproceed.
  { apply keeps_superseded. eapply keeps_try; [apply keeps_enforcement_of|]. intros x. apply keeps_conclude. }
  eapply keeps_try; [apply keeps_read|]. intros [a|]; [|eapply keeps_weaken; [exact Hproceed|by intros db t [? _]|done]].
  eapply keeps_try; [apply keeps_read|]. intros []; cbv beta; [eapply keeps_weaken; [apply keeps_retry_release|done|done]|].
  destruct o as [last|]; [apply keeps_finish|]. eapply keeps_weaken; [exact Hproceed|by intros db t [[? _] _]|done].
Qed.

(** ** Operations *)
Inductive CoordOp :=
  | OpEvaluate (p : DevicePolicy) (now : DateTime)
  | OpEnroll (d : DeviceId) (now : DateTime)
  | OpEnrollIdentified (d : DeviceId) (identification : option (f32 * list EvidenceFamily)) (now : DateTime)
  | OpSweep (now : DateTime)
  | OpApprove (d : DeviceId) (now : DateTime)
  | OpReject (d : DeviceId) (now : DateTime)
  | OpQuarantine (d : DeviceId) (now : DateTime)
  | OpExtend (d : DeviceId) (until now : DateTime).

(** The world that an operation leaves, whether it succeeds, fails or is interrupted. *)
Definition run_coord (o : CoordOp) (w : World W) : World W :=
  match o with
  | OpEvaluate p now => snd (coordinator_evaluate attached p now w)
  | OpEnroll d now => snd (enroll_and_evaluate attached d now w)
  | OpEnrollIdentified d i now => snd (enroll_identification_and_evaluate attached d i now w)
  | OpSweep now => snd (sweep attached now w)
  | OpApprove d now => snd (approve attached d now w)
  | OpReject d now => snd (reject attached d now w)
  | OpQuarantine d now => snd (coordinator_quarantine attached d now w)
  | OpExtend d until now => snd (coordinator_extend_once attached d until now w)
  end.

Lemma keeps_load_present P d : keeps P (load_present d) (fun _ => P).
Proof. eapply keeps_try; [apply keeps_read|]. intros [p|]; apply keeps_ret; [by intros ? ? ? _ [? _]|done]. Qed.
Lemma keeps_set_owner d v : keeps anything (store_now (set_owner_decision d v)) (fun _ => anything).
Proof. apply keeps_store_now. intros clock. apply (keeps_quiet anything); [done|]. intros db. by apply update_json_quiet. Qed.
Lemma keeps_set_owner_evaluate P d v now :
  keeps P (try! _ := store_now (set_owner_decision d v) in try! p := load_present d in coordinator_evaluate attached p now) (fun _ => anything).
Proof.
  apply (keeps_weaken anything _ _ (fun _ => anything)); [|done|done]. eapply keeps_try; [apply keeps_set_owner|]. intros ?; cbv beta.
  eapply keeps_try; [apply keeps_load_present|]. intros p. apply keeps_evaluate.
Qed.

Lemma keeps_approve_verified P d a now : keeps P (approve_verified_action attached d a now) (fun _ => anything).
Proof.
  apply (keeps_weaken anything _ _ (fun _ => anything)); [|done|done]. unfold approve_verified_action.
  eapply keeps_try; [apply keeps_store_now; intros clock; apply (keeps_quiet anything); [done|apply set_owner_and_schedule_quiet]|]. intros ?; cbv beta.
  eapply keeps_try; [apply keeps_load_present|]. intros p; cbv beta. eapply keeps_try; [apply keeps_undo_available|]. intros can; cbv beta.
  eapply (keeps_try _ _ _ (fun _ => anything)); [destruct can; [by apply keeps_undo|by apply keeps_ret]|]. intros x; cbv beta.
  eapply (keeps_try _ _ _ (fun _ => anything)); [|intros ?; apply keeps_finish]. case_bool_decide.
  - eapply keeps_try; [by apply keeps_record_unblock|]. intros ?; cbv beta. apply (keeps_quiet anything); [done|apply clear_release_retry_quiet].
  - apply (keeps_quiet anything); [done|apply schedule_release_retry_quiet].
Qed.
Lemma keeps_approve_pending P d a x now : keeps P (approve_pending_release d a x now) (fun _ => anything).
Proof.
  apply (keeps_weaken anything _ _ (fun _ => anything)); [|done|done]. unfold approve_pending_release.
  eapply keeps_try; [apply keeps_store_now; intros clock; apply (keeps_quiet anything); [done|apply set_owner_and_schedule_quiet]|]. intros ?; cbv beta.
  eapply keeps_try; [apply keeps_load_present|]. intros p; cbv beta. eapply keeps_try; [apply keeps_undo_available|]. intros ?. apply keeps_finish.
Qed.
Lemma keeps_approve_settled P d o now : keeps P (approve_settled attached d o now) (fun _ => anything).
Proof. unfold approve_settled. destruct o as [last|]; [destruct (_ && _); [apply keeps_approve_verified|]|]; apply keeps_set_owner_evaluate. Qed.
Lemma keeps_approve d now : keeps anything (approve attached d now) (fun _ => anything).
Proof.
  unfold approve. eapply keeps_try; [apply keeps_read|]. intros [p|]; [|by apply keeps_ret]. eapply keeps_try; [apply keeps_read|]. intros prior; cbv beta.
  eapply keeps_try; [apply keeps_read_attempt|]. intros [old|]; cbv beta; [|apply keeps_approve_settled]. destruct (is_some_and _ prior); [apply keeps_approve_settled|].
  eapply (keeps_try _ _ _ (fun r db t => sound_attempt d (Some old) /\ (settles r = true -> settled d db t))).
  { eapply keeps_weaken; [apply (keeps_reconcile (fun _ _ => sound_attempt d (Some old))); done|by intros db t [_ ?]|done]. }
  intros []; cbv beta; try apply keeps_approve_pending.
  - destruct (at_decision old) as [e|] eqn:Ed; [|apply keeps_approve_pending]. intros w Hi [Hs _]. destruct (Hs old e eq_refl Ed) as (_ & E2 & _).
    apply (keeps_try anything _ _ (fun _ => anything) (fun _ => anything)); [apply keeps_publish_exact; [done|by intros _]| |exact Hi|done].
    intros ?; cbv beta. eapply keeps_try; [by apply keeps_record_block|]. intros ?. apply keeps_approve_verified.
  - eapply (keeps_try _ _ _ (fun _ => anything)); [|intros ?; apply keeps_approve_settled].
    eapply keeps_weaken; [apply (keeps_clear (settled d)); done|intros db t [_ Hs]; by apply Hs|done].
Qed.

Lemma keeps_release_guard d v now : keeps anything (set_owner_decision_after_release_guard attached d v now) (fun _ => anything).
Proof.
  unfold set_owner_decision_after_release_guard. eapply keeps_try; [apply keeps_read|]. intros [cur|]; [|by apply keeps_ret].
  eapply keeps_try; [apply keeps_read|]. intros [a|]; cbv beta; [|apply keeps_set_owner_evaluate].
  assert (forall P, keeps P (store (clear_release_retry d)) (fun _ => anything)) as Hclear.
  { intros P. apply (keeps_weaken anything _ _ (fun _ => anything)); [|done|done]. apply (keeps_quiet anything); [done|apply clear_release_retry_quiet]. }
  case_bool_decide; [|eapply keeps_try; [apply Hclear|]; intros ?; apply keeps_set_owner_evaluate].
  eapply keeps_try; [eapply keeps_weaken; [apply (keeps_reconcile anything); done|done|intros r db t Hq; exact Hq]|]. intros []; cbv beta; try (by apply keeps_ret).
  - eapply keeps_try; [apply Hclear|]. intros ?; cbv beta. eapply keeps_try; [apply keeps_set_owner|]. intros ?; cbv beta.
    eapply keeps_try; [apply keeps_load_present|]. intros ?; cbv beta. eapply keeps_try; [apply keeps_undo_available|]. intros ?. apply keeps_finish.
  - eapply keeps_try; [apply Hclear|]. intros ?. apply keeps_set_owner_evaluate.
Qed.

Lemma keeps_sweep l now : keeps anything (sweep_policies attached l now) (fun _ => anything).
Proof.
  induction l as [|p l IH]; [by apply keeps_ret|]. cbn [sweep_policies]. eapply keeps_try; [apply keeps_evaluate|]. intros ?; cbv beta.
  eapply keeps_try; [exact IH|]. intros ?. by apply keeps_ret.
Qed.

Lemma run_coord_inv o w : FenceInv (w_db w) (w_trace w) -> FenceInv (w_db (run_coord o w)) (w_trace (run_coord o w)).
Proof.
  assert (forall A (m : Coord (W := W) A), keeps anything m (fun _ => anything) -> FenceInv (w_db w) (w_trace w) -> FenceInv (w_db (snd (m w))) (w_trace (snd (m w)))) as Hk.
  { intros A m Hm Hi. by destruct (Hm w Hi I). }
  assert (forall d, keeps anything (store_now (enroll d)) (fun _ => anything)) as He.
  { intros d. apply keeps_store_now. intros clock. apply (keeps_quiet anything); [done|]. apply enroll_quiet. }
  intros Hi. destruct o; cbn [run_coord]; apply Hk; try done.
  - apply keeps_evaluate.
  - eapply keeps_try; [apply He|]. intros p. apply keeps_evaluate.
  - eapply keeps_try; [apply He|]. intros p; cbv beta. eapply (keeps_try _ _ _ (fun _ => anything)).
    { apply keeps_store_now. intros clock. apply (keeps_quiet anything); [done|]. intros db. by apply update_json_quiet. }
    intros ?; cbv beta. eapply keeps_try; [apply keeps_read|]. intros ?. eapply keeps_weaken; [apply keeps_evaluate|done|done].
  - eapply keeps_try; [apply keeps_read|]. intros l. eapply keeps_weaken; [apply keeps_sweep|done|done].
  - apply keeps_approve.
  - apply keeps_release_guard.
  - apply keeps_release_guard.
  - eapply keeps_try; [apply keeps_read|]. intros [p|]; [|by apply keeps_ret]. eapply (keeps_try _ _ _ (fun _ => anything)).
    { apply keeps_store_now. intros clock. eapply (keeps_weaken anything _ _ (fun _ => anything)); [|done|done]. apply (keeps_quiet anything); [done|apply extend_once_quiet]. }
    intros ?; cbv beta. eapply keeps_try; [apply keeps_load_present|]. intros ?. apply keeps_evaluate.
Qed.

(** ** Histories *)
(** A history: operations one after the other, each interrupted anywhere its faults say. Between
    operations the process may restart: actuator, bus, clock and faults are arbitrary, and other
    writers may have changed the database, except for the journal and the published decisions. *)
Inductive history : World W -> Prop :=
| history_start w : journal_sound (w_db w) -> w_trace w = [] -> history w
| history_op w o : history w -> history (run_coord o w)
| history_restart w db actuator bus clock faults : history w -> same_fence (w_db w) db ->
    history {| w_db := db; w_actuator := actuator; w_bus := bus; w_clock := clock; w_faults := faults; w_trace := w_trace w |}.

Lemma history_inv w : history w -> FenceInv (w_db w) (w_trace w).
Proof.
  induction 1 as [w Hj Ht|w o Hh IH|w db act bus clock faults Hh IH Hs].
  - rewrite Ht. split; [by intros [|] ? ? ?|done|by intros d ?].
  - by apply run_coord_inv.
  - by eapply same_fence_inv.
Qed.

(** C14. A mutation is never repeated blindly: in every history, with every operation interrupted
    at any effect, failing transactions, lost answers and restarts included, between two calls
    of [enforce] for the same device the first one was resolved, by a reconciliation that found
    it applied or not applied, or by a verified decision that was durably acknowledged. *)
Theorem enforcement_is_fenced w t1 d a t2 a' t3 :
  history w -> w_trace w = t1 ++ SEnforce d a :: t2 ++ SEnforce d a' :: t3 ->
  exists s, In s t2 /\ resolves d s = true.
Proof.
  intros Hh Ht. pose proof (fi_fenced _ _ (history_inv w Hh) (t1 ++ SEnforce d a :: t2) d a' t3) as Hf.
  specialize (Hf ltac:(by rewrite Ht, <- app_assoc)). unfold open in Hf. rewrite fold_left_app in Hf. cbn [fold_left] in Hf.
  eapply open_resolved; [exact Hf|]. unfold open_after. cbn. by rewrite bool_decide_true.
Qed.
End Triples.
End Fence.
