(* ===== verification/PolicyCoordinatorTheorems.v ===== *)
(** * Grounds, publication and control states

    Which mutations the coordinator asks for, that a decision is published at least once and
    acknowledged exactly, that batched reading is reading, and what the record of verified
    blocks answers. *)

From S2P Require Import Prelude Time Text Order F32 Domain Policy EventBus PolicyStore PolicyCoordinator PolicyCoordinatorProps.

Create HintDb adds discriminated.

(** ** Grounds *)
Section Grounds.
Context `{Calendar} `{PolicyLibs} {W : Type} `{PolicyActuator W} (attached : bool).

(** *** The stored policy *)
Definition with_identification (v : Identification) (p : DevicePolicy) : DevicePolicy := {|
  dp_device_id := dp_device_id p; dp_first_seen_at := dp_first_seen_at p; dp_baseline_exempt := dp_baseline_exempt p;
  dp_identification := v; dp_owner_decision := dp_owner_decision p; dp_risk := dp_risk p; dp_protection := dp_protection p;
  dp_extension_until := dp_extension_until p |}.
Definition with_extension (v : option DateTime) (p : DevicePolicy) : DevicePolicy := {|
  dp_device_id := dp_device_id p; dp_first_seen_at := dp_first_seen_at p; dp_baseline_exempt := dp_baseline_exempt p;
  dp_identification := dp_identification p; dp_owner_decision := dp_owner_decision p; dp_risk := dp_risk p; dp_protection := dp_protection p;
  dp_extension_until := v |}.
Definition stored_as (d : DeviceId) (p : DevicePolicy) (db : PolicyDb) (_ : DateTime) : Prop := load_in d db = Ok (Some p).

Lemma load_in_some d db p : load_in d db = Ok (Some p) <-> exists r t, db_device_policy db !! d = Some r /\ db_devices db !! d = Some t /\ load_row d t r = Ok p.
Proof.
  unfold load_in, policy_join, transpose. destruct (db_device_policy db !! d) as [r|], (db_devices db !! d) as [t|]; cbn; try (split; [done|naive_solver]).
  split; [intros (x & Hx & [= <-])%result_bind_ok; eauto|]. intros (? & ? & [= <-] & [= <-] & ->). done.
Qed.
Lemma load_updated d f db p q : load_in d db = Ok (Some q) -> load_in d (update_policy d f db) = Ok (Some p) ->
  exists r t, load_row d t r = Ok q /\ load_row d t (f r) = Ok p.
Proof.
  intros (r & t & Hr & Ht & Hq)%load_in_some (r' & t' & Hr' & Ht' & Hp)%load_in_some. cbn in Hr', Ht'. rewrite lookup_alter_eq, Hr in Hr'. cbn in Hr'. simplify_eq. eauto.
Qed.
Lemma load_present_still d f db q : load_in d db = Ok (Some q) -> load_in d (update_policy d f db) <> Ok None.
Proof.
  intros (r & t & Hr & Ht & _)%load_in_some. unfold load_in, policy_join. cbn. rewrite lookup_alter_eq, Hr, Ht. cbn. by destruct (load_row d t (f r)).
Qed.
(** The decoded columns of a row. *)
Lemma load_row_ok d t r p : load_row d t r = Ok p -> exists o, parse_time t "device first-seen timestamp" = Ok (dp_first_seen_at p) /\ dp_device_id p = d /\
  dp_baseline_exempt p = negb (pr_baseline_exempt r =? 0) /\ from_json (pr_identification_json r) = Some (dp_identification p) /\
  from_json (pr_owner_decision_json r) = Some (dp_owner_decision p) /\ from_json (pr_risk_json r) = Some (dp_risk p) /\
  from_json (pr_protection_json r) = Some (dp_protection p) /\ transpose (fun v => parse_time v "extension timestamp") (pr_extension_until r) = Ok o /\ o = dp_extension_until p.
Proof.
  unfold load_row. intros (x1 & E1 & K)%result_bind_ok. apply result_bind_ok in K as (x2 & E2 & K). apply result_bind_ok in K as (x3 & E3 & K).
  apply result_bind_ok in K as (x4 & E4 & K). apply result_bind_ok in K as (x5 & E5 & K). apply result_bind_ok in K as (x6 & E6 & [= <-]).
  unfold decode, ok_or in *. repeat case_match; simplify_eq. exists x6. by split_and!.
Qed.
Lemma set_owner_loads d v clock db q p : load_in d db = Ok (Some q) -> fst (set_owner_decision d v clock db) = Ok tt ->
  load_in d (snd (set_owner_decision d v clock db)) = Ok (Some p) -> p = with_owner_decision v q.
Proof.
  unfold set_owner_decision, update_json. destruct (enrolled d db); cbn [fst snd]; [|done]. intros Hq _ Hp.
  destruct (load_updated _ _ _ _ _ Hq Hp) as (r & t & (o & Q1 & Q2 & Q3 & Q4 & Q5 & Q6 & Q7 & Q8 & Q9)%load_row_ok & (o' & P1 & P2 & P3 & P4 & P5 & P6 & P7 & P8 & P9)%load_row_ok).
  cbn in *. unfold encode in P5. rewrite from_to_json in P5. destruct p, q. cbn in *. unfold with_owner_decision. cbn. congruence.
Qed.
Lemma set_identification_loads d v clock db q p : load_in d db = Ok (Some q) -> fst (set_identification d v clock db) = Ok tt ->
  load_in d (snd (set_identification d v clock db)) = Ok (Some p) -> p = with_identification v q.
Proof.
  unfold set_identification, update_json. destruct (enrolled d db); cbn [fst snd]; [|done]. intros Hq _ Hp.
  destruct (load_updated _ _ _ _ _ Hq Hp) as (r & t & (o & Q1 & Q2 & Q3 & Q4 & Q5 & Q6 & Q7 & Q8 & Q9)%load_row_ok & (o' & P1 & P2 & P3 & P4 & P5 & P6 & P7 & P8 & P9)%load_row_ok).
  cbn in *. unfold encode in P4. rewrite from_to_json in P4. destruct p, q. cbn in *. unfold with_identification. cbn. congruence.
Qed.
Lemma extend_loads d until clock db q p : load_in d db = Ok (Some q) -> load_in d (snd (extend_once d until clock db)) = Ok (Some p) -> p = q \/ p = with_extension (parse_from_rfc3339 (to_rfc3339 until)) q.
Proof.
  intros Hq. unfold extend_once. destruct (result_bind _ _); cbn [snd]; [|intros; left; congruence]. destruct (is_some_and _ _); cbn [snd]; [|intros; left; congruence]. intros Hp. right.
  destruct (load_updated _ _ _ _ _ Hq Hp) as (r & t & (o & Q1 & Q2 & Q3 & Q4 & Q5 & Q6 & Q7 & Q8 & Q9)%load_row_ok & (o' & P1 & P2 & P3 & P4 & P5 & P6 & P7 & P8 & P9)%load_row_ok).
  cbn in *. unfold parse_time, ok_or in P8. destruct (parse_from_rfc3339 (to_rfc3339 until)) as [x|]; [|done]. cbn in P8. destruct p, q. cbn in *. unfold with_extension. cbn. congruence.
Qed.
Lemma update_stored d p f db clock : (forall r t, load_row d t (f r) = load_row d t r) -> stored_as d p db clock -> stored_as d p (update_policy d f db) clock.
Proof.
  unfold stored_as. intros Hf (r & t & Hr & Ht & Hp)%load_in_some. apply load_in_some. exists (f r), t. cbn. rewrite lookup_alter_eq, Hr. by rewrite Hf.
Qed.
Lemma load_all_in ids db l p : load_all ids db = Ok l -> In p l -> load_in (dp_device_id p) db = Ok (Some p).
Proof.
  revert l. induction ids as [|d ids IH]; intros l; cbn; [by intros [= <-]|]. intros (o & Ho & K)%result_bind_ok. apply result_bind_ok in K as (rest & Hrest & [= <-]).
  destruct o as [q|]; [|by apply IH]. intros [<-|Hin]; [|by eapply IH]. pose proof Ho as (r & t & _ & _ & (o & _ & -> & _)%load_row_ok)%load_in_some. done.
Qed.

(** The identification that enrolment records. *)
Definition identified_as (i : option (f32 * list EvidenceFamily)) : Identification :=
  match i with Some (confidence, families) => IdAutomatic (confidence_basis_points confidence) families | None => IdUnknown end.

(** Why an action may be carried out on a device. *)
Definition warranted (p : DevicePolicy) (now : DateTime) (a : RequestedAction) : Prop :=
  dp_protection p = ProtNone /\
  ((a = PermanentBan /\ dp_owner_decision p = Rejected) \/
   (a = ActQuarantine /\ (dp_owner_decision p = Quarantined \/ grounds p now))).

Section Evaluated.
(** The policies that an operation evaluates, and its time. *)
Variables (G : DevicePolicy -> Prop) (now : DateTime).
(** A call of [enforce] is for a device with such a policy, which warrants it. *)
Definition justified (s : Step) : Prop :=
  match s with SEnforce d a => exists p, G p /\ dp_device_id p = d /\ warranted p now a | _ => True end.

Definition adds {A} (m : Coord (W := W) A) : Prop := forall w, exists l, w_trace (snd (m w)) = w_trace w ++ l /\ Forall justified l.

Lemma adds_ret {A} (r : result A Stop) : adds (mret_st r).
Proof. intros w. exists []. by rewrite app_nil_r. Qed.
Lemma adds_try {A B} (m : Coord A) (k : A -> Coord B) : adds m -> (forall a, adds (k a)) -> adds (try_bind m k).
Proof.
  intros Hm Hk w. destruct (Hm w) as (l & El & Hl). unfold try_bind, mbind_st. destruct (m w) as [[a|e] w']; cbn in *; [|by exists l].
  destruct (Hk a w') as (l' & El' & Hl'). exists (l ++ l'). rewrite El', El, app_assoc. split; [done|by apply Forall_app].
Qed.
Lemma adds_effect {A} (m : Coord A) : adds m -> adds (effect m).
Proof.
  intros Hm w. unfold effect. destruct (take_fault_view w) as [_ E2]. destruct (take_fault w) as [f w1]. cbn [snd] in E2. rewrite <- E2.
  destruct f; cbn [snd]; [apply Hm|exists []; by rewrite app_nil_r|apply Hm].
Qed.
Lemma adds_actuate {A} (m : M W A) (s : list Step) (w0 w : World W) :
  w_trace w = w_trace w0 ++ s -> Forall justified s -> exists l, w_trace (snd (actuate m w)) = w_trace w0 ++ l /\ Forall justified l.
Proof. intros Hs Hj. unfold actuate. destruct (m (w_actuator w)). by exists s. Qed.
Lemma adds_store {A} (m : Repo A) : adds (store m).
Proof. apply adds_effect. intros w. exists []. rewrite app_nil_r. by destruct (m (w_db w)). Qed.
Lemma adds_store_now {A} (m : DateTime -> Repo A) : adds (store_now m).
Proof. intros w. apply adds_store. Qed.
Lemma adds_undo d a : adds (undo d a).
Proof. apply adds_effect. intros w. apply adds_actuate with [SUndo d a]; [done|by apply Forall_singleton]. Qed.
Lemma adds_undo_available d a : adds (undo_available d a).
Proof. apply adds_effect. intros w. apply adds_actuate with []; [by rewrite app_nil_r|done]. Qed.
Lemma adds_reconcile d a : adds (reconcile d a).
Proof.
  apply adds_try; [apply adds_effect; intros w; apply adds_actuate with []; [by rewrite app_nil_r|done]|]. intros r w. exists [SReconcile d a r]. by split; [|apply Forall_singleton].
Qed.
Lemma adds_enforce d a : (exists p, G p /\ dp_device_id p = d /\ warranted p now a) -> adds (enforce d a).
Proof. intros Hj. apply adds_effect. intros w. apply adds_actuate with [SEnforce d a]; [done|]. by apply Forall_singleton. Qed.
Lemma adds_bus at_ e : adds (bus_publish at_ e).
Proof.
  apply adds_effect. intros w. destruct (w_bus w) as [bus|]; [|exists []; by rewrite app_nil_r].
  destruct (EventBus.publish bus at_ e) as [[env bus']|]; [exists [SPublished e]; by split; [|apply Forall_singleton]|exists []; by rewrite app_nil_r].
Qed.
Lemma adds_acknowledge e f o : adds (acknowledge e f o).
Proof.
  apply adds_effect. intros w. destruct (mark_decision_published_and_clear_attempt _ _ _ _ _ _) as [[u|x] db]; cbn; [exists [SAcknowledged e]; by split; [|apply Forall_singleton]|exists []; by rewrite app_nil_r].
Qed.

(** Every computation of the coordinator, down to its effects. *)
#[local] Hint Resolve adds_ret adds_store adds_store_now adds_undo adds_undo_available adds_reconcile adds_bus adds_acknowledge : adds.
Ltac adds :=
  repeat first [ solve [auto 1 with adds nocore] | assumption | apply adds_try; [|intros ?] | progress cbv beta zeta | case_match ].

Lemma adds_publish_exact e o at_ : adds (publish_exact e o at_).
Proof. unfold publish_exact, matching_attempt. adds. Qed.
#[local] Hint Resolve adds_publish_exact : adds.
Lemma adds_finish p ev x b at_ : adds (finish p ev x b at_).
Proof. unfold finish. adds. Qed.
Lemma adds_record_block d at_ : adds (record_block attached d at_).
Proof. unfold record_block. adds. Qed.
Lemma adds_record_unblock d at_ : adds (record_unblock attached d at_).
Proof. unfold record_unblock. adds. Qed.
#[local] Hint Resolve adds_finish adds_record_block adds_record_unblock : adds.

Lemma enforced_is_warranted p : (match requested_action (evaluate_policy p now) with ActNone | OwnerAttention => true | _ => false end)
    || negb (bool_decide (dp_protection p = ProtNone)) = false -> warranted p now (requested_action (evaluate_policy p now)).
Proof.
  intros E. apply orb_false_iff in E as [Ea Ep]. bprop. split; [done|]. revert Ea. unfold evaluate_policy. rewrite evaluate_action. unfold grounds.
  destruct (dp_owner_decision p) eqn:Eo; [| |by left|by right; split; [|left]]; (destruct (decide (dp_protection p = ProtNone)); [|done]);
    (destruct (dangerous p) eqn:Ed; [intros _; right; split; [done|]; right; rewrite list_elem_of_In; cbn; split; [tauto|by left]|]);
    (destruct (awaiting_owner p) eqn:Ew; [|done]); (destruct (effective_deadline p) as [due|] eqn:Edl; [|done]); (destruct (Z.leb_spec due now); [|done]);
    intros _; right; (split; [done|]); right; rewrite list_elem_of_In; cbn; (split; [tauto|]); right; (split; [done|]); by exists due.
Qed.

Lemma adds_evaluate p : G p -> adds (coordinator_evaluate attached p now).
Proof.
  intros HG.
  unfold coordinator_evaluate. apply adds_try; [adds|]. intros o. apply adds_try; [unfold retire_acknowledged; adds|]. intros ?.
  assert (adds (enforcement_of p (evaluate_policy p now) o now)) as He.
  { unfold enforcement_of. destruct (_ || _) eqn:E; [adds|]. apply enforced_is_warranted in E. case_match; [adds|]. unfold waiting.
    apply adds_try; [adds|]. intros m. case_match; [adds|]. apply adds_try; [adds|]. intros f. case_match; [adds|]. unfold enforce_fenced, reserve.
    assert (adds (enforce (dp_device_id p) (requested_action (evaluate_policy p now)))) by (apply adds_enforce; by exists p). adds. }
  assert (forall x, adds (conclude attached p (evaluate_policy p now) x now)) as Hc by (intros x; unfold conclude; adds).
  assert (adds (reconcile_superseded p (evaluate_policy p now) o now (try! x := enforcement_of p (evaluate_policy p now) o now in conclude attached p (evaluate_policy p now) x now))) as Hr.
  { assert (adds (try! x := enforcement_of p (evaluate_policy p now) o now in conclude attached p (evaluate_policy p now) x now)) by (apply adds_try; [exact He|exact Hc]).
    unfold reconcile_superseded. adds. }
  unfold retry_release, released. apply adds_try; [adds|]. intros r. case_match; [|exact Hr]. apply adds_try; [adds|]. intros due. case_match; adds.
Qed.

Lemma adds_sweep l : (forall p, In p l -> G p) -> adds (sweep_policies attached l now).
Proof.
  induction l as [|p l IH]; intros Hl; cbn [sweep_policies]; [adds|]. apply adds_try; [apply adds_evaluate, Hl; by left|]. intros a.
  apply adds_try; [apply IH; intros q Hq; apply Hl; by right|]. intros ?. adds.
Qed.

(** *** What is known of the database meanwhile
    [P] of the database and the clock before, [Q] after a success. *)
Definition adds_in {A} (P : PolicyDb -> DateTime -> Prop) (m : Coord (W := W) A) (Q : A -> PolicyDb -> DateTime -> Prop) : Prop :=
  forall w, P (w_db w) (w_clock w) ->
    (exists l, w_trace (snd (m w)) = w_trace w ++ l /\ Forall justified l) /\
    (forall a, fst (m w) = Ok a -> Q a (w_db (snd (m w))) (w_clock (snd (m w)))).

Lemma in_adds {A} P (m : Coord A) : adds m -> adds_in P m (fun _ _ _ => True).
Proof. intros Hm w _. split; [apply Hm|done]. Qed.
Lemma in_try {A B} P (m : Coord A) (k : A -> Coord B) Q R : adds_in P m Q -> (forall a, adds_in (Q a) (k a) R) -> adds_in P (try_bind m k) R.
Proof.
  intros Hm Hk w Hw. destruct (Hm w Hw) as [(l & El & Hl) Hq]. unfold try_bind, mbind_st. destruct (m w) as [[a|e] w'] eqn:E; cbn in *; [|split; [by exists l|done]].
  destruct (Hk a w' (Hq a eq_refl)) as [(l' & El' & Hl') Hr]. split; [|exact Hr]. exists (l ++ l'). rewrite El', El, app_assoc. split; [done|by apply Forall_app].
Qed.
Lemma take_fault_clock (w : World W) : w_clock (snd (take_fault w)) = w_clock w.
Proof. unfold take_fault. by destruct (w_faults w). Qed.
Lemma in_store_now {A} P (m : DateTime -> Repo A) Q :
  (forall clock db a, P db clock -> fst (m clock db) = Ok a -> Q a (snd (m clock db)) clock) -> adds_in P (store_now m) Q.
Proof.
  intros Hm w Hw. split; [apply adds_store_now|]. unfold store_now, store, effect. destruct (take_fault_view w) as [E1 _]. pose proof (take_fault_clock w) as E2.
  destruct (take_fault w) as [[] w1]; cbn in *; [|done|done]. specialize (Hm (w_clock w) (w_db w1)). rewrite E1 in *. destruct (m (w_clock w) (w_db w)) as [[a|e] db]; cbn in *; [|done].
  intros a' [= <-]. rewrite E2. by apply Hm.
Qed.
Lemma in_store {A} P (m : Repo A) Q :
  (forall clock db a, P db clock -> fst (m db) = Ok a -> Q a (snd (m db)) clock) -> adds_in P (store m) Q.
Proof. apply (in_store_now P (fun _ => m)). Qed.
Lemma in_read {A} P (f : PolicyDb -> result A StoreError) : adds_in P (store (reading f)) (fun a db clock => P db clock /\ f db = Ok a).
Proof. apply in_store. intros clock db a HP Hf. by split. Qed.
Lemma in_reconcile P d a : adds_in P (reconcile d a) (fun _ => P).
Proof.
  intros w Hw. split; [apply adds_reconcile|]. unfold reconcile, try_bind, mbind_st, effect, actuate. destruct (take_fault_view w) as [E1 _]. pose proof (take_fault_clock w) as E2.
  destruct (take_fault w) as [[] w1]; cbn in *; [|done|by destruct (act_reconcile d a (w_actuator w1))].
  destruct (act_reconcile d a (w_actuator w1)). cbn. intros x _. by rewrite E1, E2.
Qed.
Lemma in_weaken {A} (P P' : PolicyDb -> DateTime -> Prop) (m : Coord A) Q : adds_in P m Q -> (forall db clock, P' db clock -> P db clock) -> adds_in P' m Q.
Proof. intros Hm HP w Hw. apply Hm. auto. Qed.
Lemma in_pure {A} (P : PolicyDb -> DateTime -> Prop) (X : Prop) (P' : PolicyDb -> DateTime -> Prop) (m : Coord A) Q :
  (forall db clock, P' db clock -> P db clock /\ X) -> (X -> adds_in P m Q) -> adds_in P' m Q.
Proof. intros HP Hm w Hw. destruct (HP _ _ Hw) as [? HX]. by apply Hm. Qed.

(** *** The operations *)
Definition anyhow {A : Type} (_ : A) (_ : PolicyDb) (_ : DateTime) : Prop := True.
Definition at_start (db0 : PolicyDb) (clock0 : DateTime) (db : PolicyDb) (clock : DateTime) : Prop := db = db0 /\ clock = clock0.

Lemma in_load_present P d : adds_in P (load_present d) (fun p db clock => P db clock /\ load_in d db = Ok (Some p)).
Proof.
  unfold load_present. eapply in_try; [apply in_read|]. intros o w [HP Ho]. split; [apply adds_ret|]. destruct o as [p|]; cbn; [|done]. by intros ? [= <-].
Qed.
Lemma in_evaluate (P : PolicyDb -> DateTime -> Prop) p : (forall db clock, P db clock -> G p) -> adds_in P (coordinator_evaluate attached p now) anyhow.
Proof. intros HG w Hw. apply (in_adds P); [|done]. by eapply adds_evaluate, HG. Qed.

Lemma in_set_owner_evaluate d v q : G (with_owner_decision v q) ->
  adds_in (stored_as d q) (try! _ := store_now (set_owner_decision d v) in try! p := load_present d in coordinator_evaluate attached p now) anyhow.
Proof.
  intros HG. eapply (in_try _ _ _ (fun _ db _ => forall p, load_in d db = Ok (Some p) -> p = with_owner_decision v q)).
  { apply in_store_now. intros clock db [] Hq Hok p. by apply set_owner_loads. }
  intros ?; cbv beta. eapply in_try; [apply in_load_present|]. intros p. apply in_evaluate. by intros db clock [Hp ->%Hp].
Qed.

Lemma clear_release_stored d q : adds_in (stored_as d q) (store (clear_release_retry d)) (fun _ => stored_as d q).
Proof. apply in_store. intros clock db a Hq _. by apply update_stored. Qed.
Lemma clear_attempt_stored d q v a : adds_in (stored_as d q) (store (clear_actuation_attempt d v a)) (fun _ => stored_as d q).
Proof.
  apply in_store. intros clock db x Hq _. unfold clear_actuation_attempt. destruct (delete_attempt_cases d v a db) as [->| ->]; cbn; exact Hq.
Qed.

Lemma in_release_guard d v db0 clock0 : (forall q, load_in d db0 = Ok (Some q) -> G (with_owner_decision v q)) ->
  adds_in (at_start db0 clock0) (set_owner_decision_after_release_guard attached d v now) anyhow.
Proof.
  intros HG. unfold set_owner_decision_after_release_guard. eapply in_try; [apply in_read|]. intros [q|]; [|unfold refuse; apply in_adds; adds].
  apply (in_pure (stored_as d q) (G (with_owner_decision v q))); [intros db clock [[-> _] Hq]; split; [done|by apply HG]|]. intros HGq. cbv zeta.
  pose proof (in_set_owner_evaluate d v q HGq) as Hrest. eapply in_try; [apply in_read|]. intros [a|]; [|eapply in_weaken; [exact Hrest|by intros ? ? [? _]]].
  apply (in_weaken (stored_as d q)); [|by intros ? ? [? _]]. case_bool_decide; [|eapply in_try; [apply clear_release_stored|]; intros ?; exact Hrest].
  eapply in_try; [apply in_reconcile|]. intros []; cbv beta; try solve [unfold refuse, load_present; apply in_adds; adds].
  eapply in_try; [apply clear_release_stored|]. intros ?. exact Hrest.
Qed.

Lemma in_approve d db0 clock0 : (forall q, load_in d db0 = Ok (Some q) -> G (with_owner_decision Approved q)) ->
  adds_in (at_start db0 clock0) (approve attached d now) anyhow.
Proof.
  intros HG. unfold approve. eapply in_try; [apply in_read|]. intros [q|]; [|unfold refuse; apply in_adds; adds].
  apply (in_pure (stored_as d q) (G (with_owner_decision Approved q))); [intros db clock [[-> _] Hq]; split; [done|by apply HG]|]. intros HGq.
  assert (forall o, adds_in (stored_as d q) (approve_settled attached d o now) anyhow) as Hsettled.
  { intros o. unfold approve_settled. pose proof (in_set_owner_evaluate d Approved q HGq). destruct o as [last|]; [|done]. destruct (_ && _); [|done].
    unfold approve_verified_action, load_present. apply in_adds. adds. }
  eapply in_try; [apply in_read|]. intros prior. apply (in_weaken (stored_as d q)); [|by intros ? ? [? _]].
  eapply in_try; [apply in_read|]. intros pending. apply (in_weaken (stored_as d q)); [|by intros ? ? [? _]].
  destruct pending as [attempt|]; [|apply Hsettled]. destruct (is_some_and _ prior); [apply Hsettled|].
  eapply in_try; [apply in_reconcile|]. intros []; cbv beta; try solve [unfold approve_pending_release, approve_verified_action, load_present; apply in_adds; adds].
  eapply in_try; [apply clear_attempt_stored|]. intros ?. apply Hsettled.
Qed.

Lemma in_extend d until db0 clock0 : (forall q p, load_in d db0 = Ok (Some q) -> p = q \/ p = with_extension (parse_from_rfc3339 (to_rfc3339 until)) q -> G p) ->
  adds_in (at_start db0 clock0) (coordinator_extend_once attached d until now) anyhow.
Proof.
  intros HG. unfold coordinator_extend_once. eapply in_try; [apply in_read|]. intros [q|]; [|unfold refuse; apply in_adds; adds].
  apply (in_pure (stored_as d q) (forall p, p = q \/ p = with_extension (parse_from_rfc3339 (to_rfc3339 until)) q -> G p)); [intros db clock [[-> _] Hq]; split; [done|intros p; by apply HG]|]. intros HGq.
  eapply (in_try _ _ _ (fun _ db _ => forall p, load_in d db = Ok (Some p) -> p = q \/ p = with_extension (parse_from_rfc3339 (to_rfc3339 until)) q)).
  { apply in_store_now. intros clock db a Hq _ p. by apply extend_loads. }
  intros ?; cbv beta. eapply in_try; [apply in_load_present|]. intros p. apply in_evaluate. intros db clock [Hp Hl%Hp]. by apply HGq.
Qed.

Lemma in_enroll d db0 clock0 : (forall p, fst (enroll d clock0 db0) = Ok p -> G p) -> adds_in (at_start db0 clock0) (enroll_and_evaluate attached d now) anyhow.
Proof.
  intros HG. unfold enroll_and_evaluate. eapply (in_try _ _ _ (fun p _ _ => G p)); [apply in_store_now; intros clock db p [-> ->]; apply HG|].
  intros p. apply in_evaluate. by intros.
Qed.
Lemma enroll_stored d clock db p : fst (enroll d clock db) = Ok p -> stored_as d p (snd (enroll d clock db)) clock.
Proof.
  unfold enroll, stored_as. destruct (enrolment d clock db) as [row|]; [cbn [fst snd]|done]. intros (o & -> & Ho)%result_bind_ok. destruct o; [|done]. by injection Ho as ->.
Qed.
Lemma in_enroll_identified d i db0 clock0 : (forall q, fst (enroll d clock0 db0) = Ok q -> G (with_identification (identified_as i) q)) ->
  adds_in (at_start db0 clock0) (enroll_identification_and_evaluate attached d i now) anyhow.
Proof.
  intros HG. unfold enroll_identification_and_evaluate. fold (identified_as i).
  eapply (in_try _ _ _ (fun q db clock => stored_as d q db clock /\ G (with_identification (identified_as i) q))).
  { apply in_store_now. intros clock db q [-> ->] Hq. split; [by apply enroll_stored|by apply HG]. }
  intros q. apply (in_pure (stored_as d q) (G (with_identification (identified_as i) q))); [done|]. intros HGq.
  eapply (in_try _ _ _ (fun _ db _ => forall o, load_in d db = Ok o -> default q o = with_identification (identified_as i) q)).
  { apply in_store_now. intros clock db [] Hq Hok [p|] Hp; [by eapply set_identification_loads|exfalso]. revert Hp.
    unfold set_identification, update_json. destruct (enrolled d db); cbn [snd]; [by eapply load_present_still|]. unfold stored_as in Hq. congruence. }
  intros ?; cbv beta. eapply in_try; [apply in_read|]. intros o. apply in_evaluate. intros db clock [Hd Ho]. by rewrite (Hd o Ho).
Qed.
End Evaluated.

(** The policy that an operation evaluates when it begins in [w]: the one that its caller gives, or the stored
    one of the device, with what the operation itself writes. *)
Definition evaluated (o : CoordOp) (w : World W) (p : DevicePolicy) : Prop :=
  match o with
  | OpEvaluate q _ => p = q
  | OpEnroll d _ => fst (enroll d (w_clock w) (w_db w)) = Ok p
  | OpEnrollIdentified d i _ => exists q, fst (enroll d (w_clock w) (w_db w)) = Ok q /\ p = with_identification (identified_as i) q
  | OpSweep _ => load_in (dp_device_id p) (w_db w) = Ok (Some p)
  | OpApprove d _ => exists q, load_in d (w_db w) = Ok (Some q) /\ p = with_owner_decision Approved q
  | OpReject d _ => exists q, load_in d (w_db w) = Ok (Some q) /\ p = with_owner_decision Rejected q
  | OpQuarantine d _ => exists q, load_in d (w_db w) = Ok (Some q) /\ p = with_owner_decision Quarantined q
  | OpExtend d until _ => exists q, load_in d (w_db w) = Ok (Some q) /\ (p = q \/ p = with_extension (parse_from_rfc3339 (to_rfc3339 until)) q)
  end.
Definition op_time (o : CoordOp) : DateTime :=
  match o with
  | OpEvaluate _ now | OpEnroll _ now | OpEnrollIdentified _ _ now | OpSweep now | OpApprove _ now | OpReject _ now | OpQuarantine _ now
  | OpExtend _ _ now => now
  end.

(** C16. No device is acted on without grounds: every call of [enforce] that an operation makes, in any world and
    however it is interrupted, is for the device of a policy that the operation evaluated (the one it
    was given, or the stored one with what the operation writes, such as the owner's decision),
    which is unprotected and warrants exactly that action at the time of the operation: a ban by the
    owner's rejection, a quarantine by the owner's decision or by danger or an expired deadline. *)
Theorem no_action_without_grounds o w : exists l, w_trace (run_coord attached o w) = w_trace w ++ l /\
  forall d a, In (SEnforce d a) l -> exists p, evaluated o w p /\ dp_device_id p = d /\ warranted p (op_time o) a.
Proof.
  assert (exists l, w_trace (run_coord attached o w) = w_trace w ++ l /\ Forall (justified (evaluated o w) (op_time o)) l) as (l & El & Hl).
  2: { exists l. split; [done|]. intros d a Hin. rewrite List.Forall_forall in Hl. exact (Hl _ Hin). }
  assert (at_start (w_db w) (w_clock w) (w_db w) (w_clock w)) as Hw by done.
  destruct o; cbn [run_coord op_time].
  - by apply adds_evaluate.
  - eapply in_enroll; [|exact Hw]. done.
  - eapply in_enroll_identified; [|exact Hw]. intros q Hq. by exists q.
  - unfold sweep. eapply (in_try _ _ (at_start (w_db w) (w_clock w))); [apply in_read| |exact Hw]. intros ps.
    apply (in_pure _ _ (at_start (w_db w) (w_clock w)) (load_all (policy_ids (w_db w)) (w_db w) = Ok ps)); [by intros db clock [[-> ->] Hps]|]. intros Hps. apply in_adds, adds_sweep. intros p Hp. by eapply load_all_in.
  - eapply in_approve; [|exact Hw]. intros q Hq. by exists q.
  - eapply in_release_guard; [|exact Hw]. intros q Hq. by exists q.
  - eapply in_release_guard; [|exact Hw]. intros q Hq. by exists q.
  - eapply in_extend; [|exact Hw]. intros q p Hq Hp. by exists q.
Qed.
End Grounds.

(** ** Publication *)
Section Publication.
Context `{Calendar} `{PolicyLibs} {W : Type} `{PolicyActuator W}.

(** The rows that the repository writes: the primary key of the outbox, and its exact decisions. *)
Definition outbox_key (r : OutboxRow) : DeviceId * string := (ob_device_id r, ob_fingerprint r).
Definition outbox_written (t : list OutboxRow) : Prop :=
  NoDup (map outbox_key t) /\ Forall (fun r => ob_decision_json r = None \/ ob_decision_json r = Some (ob_fingerprint r)) t.
Definition journal_written (d : DeviceId) (db : PolicyDb) : Prop := forall r, db_journal db !! d = Some r ->
  exists (a : RequestedAction) (o : option PolicyChanged), jr_action_json r = encode a /\ jr_decision_json r = option_map encode o /\ 0 <= jr_policy_version r <= u32_max.

Definition acknowledged (e : PolicyChanged) (db : PolicyDb) : Prop :=
  exists r, db_device_policy db !! pc_device_id e = Some r /\ pr_decision_fingerprint r = Some (encode e).

Lemma outbox_at_key d f r : outbox_at d f r = true <-> outbox_key r = (d, f).
Proof. unfold outbox_at, outbox_key. rewrite andb_true_iff, !bool_decide_eq_true. split; [intros [-> ->]|intros [= -> ->]]; done. Qed.
Lemma count_at d f t : NoDup (map outbox_key t) -> existsb (outbox_at d f) t = true -> length (List.filter (outbox_at d f) t) = 1%nat.
Proof.
  induction t as [|r t IH]; cbn; [done|]. intros [Hr Hn]%NoDup_cons. destruct (outbox_at d f r) eqn:E; cbn; [|by apply IH]. intros _. f_equal.
  apply length_zero_iff_nil, filter_nothing, List.Forall_forall. intros r' Hin. destruct (outbox_at d f r') eqn:E'; [|done].
  apply outbox_at_key in E, E'. destruct Hr. rewrite E, <- E'. by apply list_elem_of_In, in_map.
Qed.
Lemma filter_written p t : outbox_written t -> outbox_written (List.filter p t).
Proof.
  intros [Hn Hf]. split; [|rewrite List.Forall_forall in *; intros r [Hr _]%filter_In; by apply Hf]. clear Hf.
  induction t as [|r t IH]; cbn; [done|]. cbn in Hn. apply NoDup_cons in Hn as [Hr Hn]. destruct (p r); [|by apply IH]. cbn. apply NoDup_cons. split; [|by apply IH].
  rewrite list_elem_of_In, in_map_iff in *. intros (r' & E & Hin). apply Hr. exists r'. split; [done|]. by apply filter_In in Hin as [? _].
Qed.
Lemma fill_written d f t : outbox_written t -> outbox_written (fill_decision d f f t).
Proof.
  intros [Hn Hf]. unfold fill_decision. split.
  - rewrite map_map. erewrite map_ext; [exact Hn|]. intros r. unfold outbox_key. by case_match.
  - rewrite List.Forall_forall in *. intros r (r0 & <- & Hin)%in_map_iff. destruct (outbox_at d f r0 && _) eqn:E; [|by apply Hf]. cbn. right.
    apply andb_true_iff in E as [E _]. apply outbox_at_key in E. by injection E as _ ->.
Qed.

(** The preparation of an exact decision. *)
Lemma prepare_exact_spec e clock db :
  let out := prepare_exact_decision_publication (pc_device_id e) (encode e) e clock db in
  outbox_written (db_outbox db) -> enrolled (pc_device_id e) db = true ->
  (out = (Ok false, db) /\ acknowledged e db) \/
  (fst out = Ok true /\ ~ acknowledged e db /\ exists t, snd out = with_outbox t db /\ outbox_written t).
Proof.
  cbv zeta. set (d := pc_device_id e). set (f := encode e). intros Hw He. unfold prepare_exact_decision_publication. fold f. rewrite bool_decide_true by done. cbn [negb].
  unfold enrolled in He. apply bool_decide_eq_true in He as [row Hrow]. unfold prepare_decision_publication_inner. rewrite Hrow. cbn [is_some_and].
  case_bool_decide as Ef.
  { left. split; [done|]. by exists row. }
  right.
  assert (~ acknowledged e db) as Hna by (intros (r & Hr & Hf); fold d in Hr; simplify_eq; done).
  set (t1 := delete_superseded d f (db_outbox db)). assert (outbox_written t1) as Hw1 by (by apply filter_written).
  unfold insert_pending. cbn [with_outbox db_device_policy ob_device_id ob_fingerprint db_outbox]. rewrite Hrow. cbn [is_some_and]. rewrite bool_decide_false by done. cbn [negb orb].
  destruct (existsb (outbox_at d f) t1) eqn:Eex.
  - cbn [Z.eqb orb]. rewrite (count_at d f t1 (proj1 Hw1) Eex). cbn. destruct (iter_find (outbox_at d f) t1) as [r|] eqn:Ei.
    2: { apply iter_find_none in Ei. apply existsb_exists in Eex as (r & Hin & Hr). rewrite List.Forall_forall in Ei. specialize (Ei r Hin). congruence. }
    apply iter_find_some in Ei as [Hin Hr]. destruct Hw1 as [Hn1 Hf1]. rewrite List.Forall_forall in Hf1. apply outbox_at_key in Hr as Hk. injection Hk as _ Hk.
    destruct (Hf1 r Hin) as [Hd|Hd]; rewrite Hd.
    + cbn. split_and!; [done|done|]. exists (fill_decision d f f t1). split; [done|]. apply fill_written. split; [done|by apply List.Forall_forall].
    + rewrite Hk, bool_decide_true by done. cbn. split_and!; [done|done|]. exists t1. split; [done|]. split; [done|by apply List.Forall_forall].
  - set (new := {| ob_device_id := d |}). assert (outbox_at d f new = true) as Hnew by (apply outbox_at_key; done).
    assert (iter_find (outbox_at d f) (t1 ++ [new]) = Some new) as ->.
    { apply existsb_false_forall in Eex. clear -Eex Hnew. induction t1 as [|x t1 IH]; cbn; [by rewrite Hnew|]. apply Forall_cons in Eex as [-> Hx]. by apply IH. }
    cbn [ob_decision_json new]. rewrite bool_decide_true by done. cbn. split_and!; [done|done|]. exists (t1 ++ [new]). split; [done|]. destruct Hw1 as [Hn1 Hf1]. split.
    + rewrite map_app. apply NoDup_app. split_and!; [done| |apply NoDup_singleton]. intros k Hk Hk'. apply list_elem_of_singleton in Hk' as ->. apply existsb_false_forall in Eex.
      rewrite list_elem_of_In, in_map_iff in Hk. destruct Hk as (r & Hkr & Hin). rewrite List.Forall_forall in Eex. specialize (Eex r Hin).
      apply not_true_iff_false in Eex. apply Eex, outbox_at_key. exact Hkr.
    + apply Forall_app. split; [done|]. apply Forall_singleton. by right.
Qed.

Record sound_db (e : PolicyChanged) (db : PolicyDb) : Prop := {
  sd_outbox : outbox_written (db_outbox db);
  sd_enrolled : enrolled (pc_device_id e) db = true;
  sd_journal : journal_written (pc_device_id e) db }.

(** The decision is the published one, and none of its rows is pending. *)
Definition clean (e : PolicyChanged) (db : PolicyDb) : Prop :=
  published_decision_in (pc_device_id e) db = Ok (Some e) /\ Forall (fun r => outbox_key r <> (pc_device_id e, encode e)) (db_outbox db).

(** The acknowledgement of a decision, with no reservation or with the one that was read. *)
Lemma mark_spec e o clock db :
  sound_db e db -> (forall a, o = Some a -> actuation_attempt_in (pc_device_id e) db = Ok (Some a)) ->
  let out := mark_decision_published_and_clear_attempt (pc_device_id e) (encode e) e o clock db in
  fst out = Ok tt /\ sound_db e (snd out) /\ acknowledged e (snd out) /\ clean e (snd out).
Proof.
  intros [Hw He Hj] Ho. cbv zeta. unfold mark_decision_published_and_clear_attempt. set (d := pc_device_id e) in *. set (f := encode e) in *.
  set (db2 := with_outbox _ (update_policy d _ db)). unfold enrolled in He. apply bool_decide_eq_true in He as [row Hrow].
  assert (db_device_policy db2 !! d = Some (set_published f f (to_rfc3339 clock) row)) as Hrow2 by (cbn; rewrite lookup_alter_eq, Hrow; done).
  assert (forall j, journal_written d (with_journal j db2) -> sound_db e (with_journal j db2) /\ acknowledged e (with_journal j db2) /\
    clean e (with_journal j db2)) as Hend.
  { intros j Hj'. split_and!.
    - split; [by apply filter_written| |done]. unfold enrolled. fold d. cbn. rewrite bool_decide_true; [done|]. by rewrite lookup_alter_eq, Hrow.
    - eexists. by split.
    - unfold clean. fold d f. split; [unfold published_decision_in, column; cbn [with_journal db_device_policy]; rewrite Hrow2; cbn; unfold decode, f, encode; by rewrite from_to_json|].
      apply List.Forall_forall. intros r [_ Hr]%filter_In E. apply outbox_at_key in E. by rewrite E in Hr. }
  destruct o as [a|].
  - specialize (Ho a eq_refl). apply read_attempt in Ho as (r & Hr & Hv & Ha & _). unfold delete_attempt. change (db_journal db2) with (db_journal db). rewrite Hr.
    unfold journal_matches. rewrite Hv, Z.eqb_refl. destruct (Hj r Hr) as (act & o & Hact & _ & _). rewrite Hact in Ha |- *. unfold encode in Ha. rewrite from_to_json in Ha.
    injection Ha as <-. rewrite bool_decide_true by done. cbn [andb Z.eqb fst snd]. split; [done|]. apply Hend. intros r' Hr'. cbn in Hr'. by rewrite lookup_delete_eq in Hr'.
  - cbn [fst snd]. split; [done|]. exact (Hend (db_journal db) Hj).
Qed.

(** Where a publication stands: [done_] once the bus has taken the decision. *)
Record publishing (e : PolicyChanged) (w0 : World W) (limit : Z) (done_ : bool) (w : World W) : Prop := {
  pb_sound : sound_db e (w_db w);
  pb_bus : exists b, w_bus w = Some b /\ next_sequence (state b) + (if done_ then 0 else 1) <= limit;
  pb_trace : exists l, w_trace w = w_trace w0 ++ l /\ (done_ = true -> In (SPublished e) l);
  pb_ack : acknowledged e (w_db w) -> (acknowledged e (w_db w0) /\ w_db w = w_db w0) \/ (done_ = true /\ clean e (w_db w));
  pb_faults : w_faults w0 = [] -> w_faults w = [] }.

Lemma wp_effect {A} (m : Coord (W := W) A) Q w :
  (forall f w1, take_fault w = (f, w1) -> (w_faults w = [] -> f = Go /\ w1 = w) ->
     wp m (fun r w' => (f = Go -> Q r w') /\ (f = After -> Q (Err Interrupted) w')) w1 /\ (f = Before -> Q (Err Interrupted) w1)) -> wp (effect m) Q w.
Proof.
  intros HQ. unfold wp, effect. destruct (take_fault w) as [f w1] eqn:E. destruct (HQ f w1 eq_refl) as [[Q1 Q2] Q3].
  { unfold take_fault in E. intros Hf. rewrite Hf in E. by simplify_eq. }
  destruct f; cbn; auto.
Qed.
Lemma publishing_fault e w0 limit b w f w1 : take_fault w = (f, w1) -> publishing e w0 limit b w -> publishing e w0 limit b w1 /\ w_db w1 = w_db w.
Proof.
  unfold take_fault. destruct (w_faults w) as [|x l] eqn:Ef; intros [= <- <-] [S B T A F]; (split; [|done]); split; try done. intros Hf. specialize (F Hf). congruence.
Qed.

(** The end of an interrupted publication, and the end of a complete one. *)
Definition published_run (e : PolicyChanged) (w0 : World W) (limit : Z) (r : result unit Stop) (w : World W) : Prop :=
  (exists b, publishing e w0 limit b w) /\
  (w_faults w0 = [] -> r = Ok tt /\ acknowledged e (w_db w)).

Lemma publish_exact_run e now w limit b :
  sound_db e (w_db w) -> w_bus w = Some b -> next_sequence (state b) + 1 <= limit -> limit <= u64_max ->
  wp (publish_exact e None now) (published_run e w limit) w.
Proof.
  intros Hs Hb Hl Hm. assert (publishing e w limit false w) as Hstart.
  { split; [done|by exists b|exists []; rewrite app_nil_r; by split|by left|done]. }
  assert (forall x w', publishing e w limit x w' -> (w_faults w = [] -> False) -> published_run e w limit (Err Interrupted) w') as Hstop.
  { intros x w' Hp Hf. split; [by exists x|]. intros E. by destruct (Hf E). }
  unfold publish_exact. apply wp_try. unfold store_now, wp. match goal with |- context [store ?m w] => change (wp (store m) (fun r s' => match r with
    | Ok fresh => wp (if negb fresh then mret_st (Ok tt) else try! _ := bus_publish now e in try! matching := matching_attempt e in acknowledge e (encode e) matching) (published_run e w limit) s'
    | Err x => published_run e w limit (Err x) s' end) w) end.
  unfold store. apply wp_effect. intros f w1 Ef Hgo. destruct (publishing_fault _ _ _ _ _ _ _ Ef Hstart) as [Hp1 Edb].
  assert (f <> Go -> w_faults w = [] -> False) as Hno by (intros ? [? _]%Hgo; done).
  split; [|intros ->; by eapply Hstop, Hno].
  destruct (prepare_exact_spec e (w_clock w) (w_db w1)) as [[Hout Hack]|(Hr & Hnack & t & Ht & Hw)]; [apply Hp1|apply Hp1| |].
  { unfold wp. rewrite Hout. cbn [fst snd]. assert (set_db (w_db w1) w1 = w1) as -> by (by destruct w1).
    split; [intros ->|intros ->; by eapply Hstop, Hno]. cbn. split; [by exists false|]. intros Hf. destruct (Hgo Hf) as [_ ->]. done. }
  unfold wp. destruct (prepare_exact_decision_publication _ _ _ _ (w_db w1)) as [r db1]. cbn [fst snd] in *. subst db1 r.
  assert (publishing e w limit false (set_db (with_outbox t (w_db w1)) w1)) as Hp2.
  { destruct Hp1 as [[? ? ?] ? ? ? ?]. split; try done; by split. }
  cbn [negb]. split; [intros ->|intros ->; by eapply Hstop, Hno].
  apply wp_try, wp_effect. intros f2 w2 Ef2 Hgo2. destruct (publishing_fault _ _ _ _ _ _ _ Ef2 Hp2) as [Hp3 _].
  assert (f2 <> Go -> w_faults w = [] -> False) as Hno2.
  { intros Hf2 Hf. destruct (Hgo Hf) as [_ ->]. destruct Hgo2 as [? _]; [done|done]. }
  split; [|intros ->; by eapply Hstop, Hno2]. unfold wp. destruct (pb_bus _ _ _ _ _ Hp3) as (b3 & Hb3 & Hl3). rewrite Hb3. cbn [Z.add] in Hl3.
  unfold EventBus.publish. assert (checked_add_u64 (next_sequence (state b3)) 1 = Some (next_sequence (state b3) + 1)) as -> by (apply checked_add_u64_some; lia). cbn.
  set (w4 := log_step (SPublished e) _). assert (publishing e w limit true w4) as Hp4.
  { destruct Hp3 as [S B (l & Tl & _) A F]. split; cbn; [done|eexists; split; [done|cbn; lia]|exists (l ++ [SPublished e]); rewrite app_assoc; split; [by f_equal|intros _; apply in_or_app; right; by left]|intros Ha; left; by destruct (A Ha) as [?|[? _]]|done]. }
  split; [intros ->|intros ->; by eapply Hstop, Hno2]. clear Hno2. apply wp_try.
  assert (wp (matching_attempt e) (fun r w' => (exists o, r = Ok o /\ publishing e w limit true w' /\ (forall a, o = Some a -> actuation_attempt_in (pc_device_id e) (w_db w') = Ok (Some a)))
     \/ (r = Err Interrupted /\ publishing e w limit true w' /\ (w_faults w = [] -> False))) w4) as Hmatch.
  { unfold matching_attempt. destruct (_ && _); [|unfold wp; cbn; left; by exists None]. apply wp_try, wp_effect. intros f3 w5 Ef3 Hgo3.
    destruct (publishing_fault _ _ _ _ _ _ _ Ef3 Hp4) as [Hp5 _]. assert (f3 <> Go -> w_faults w = [] -> False) as Hno3.
    { intros Hf3 Hf. destruct Hgo3 as [? _]; [by apply (pb_faults _ _ _ _ _ Hp4)|done]. }
    split; [|intros ->; right; split_and!; [done|done|by apply Hno3]]. unfold wp. cbn.
    assert (exists o, actuation_attempt_in (pc_device_id e) (w_db w5) = Ok o) as [o Eo].
    { destruct (pb_sound _ _ _ _ _ Hp5) as [_ _ Hj]. unfold actuation_attempt_in, transpose. destruct (db_journal (w_db w5) !! pc_device_id e) as [r|] eqn:Er; [|by eexists].
      destruct (Hj r Er) as (act & o & Ha & Hd & Hv). unfold decode_attempt, decode. rewrite Ha, Hd. unfold encode. rewrite from_to_json.
      replace ((0 <=? jr_policy_version r) && _) with true by (symmetry; rewrite andb_true_iff, !Z.leb_le; lia). cbn. destruct o as [D|]; cbn; [rewrite from_to_json|]; by eexists. }
    rewrite Eo. cbn. assert (set_db (w_db w5) w5 = w5) as -> by (by destruct w5).
    split; [intros ->; left; eexists; split_and!; [done|done|]|intros ->; right; split_and!; [done|done|by apply Hno3]].
    intros a. destruct o as [a'|]; [|done]. destruct (_ && _); [|done]. by intros [= <-]. }
  eapply wp_mono; [exact Hmatch|]. intros r6 w6 [(o & -> & Hp6 & Ho)|(-> & Hp6 & Hno6)]; [|by eapply Hstop].
  apply wp_effect. intros f7 w7 Ef7 Hgo7. destruct (publishing_fault _ _ _ _ _ _ _ Ef7 Hp6) as [Hp7 Edb7]. rewrite <- Edb7 in Ho.
  assert (f7 <> Go -> w_faults w = [] -> False) as Hno7. { intros Hf7 Hf. destruct Hgo7 as [? _]; [by apply (pb_faults _ _ _ _ _ Hp6)|done]. }
  split; [|intros ->; by eapply Hstop, Hno7]. destruct (mark_spec e o (w_clock w7) (w_db w7) (pb_sound _ _ _ _ _ Hp7) Ho) as (K1 & K2 & K3 & K4).
  unfold wp. destruct (mark_decision_published_and_clear_attempt _ _ _ _ _ _) as [r8 db8]. cbn [fst snd] in *. subst r8.
  assert (publishing e w limit true (log_step (SAcknowledged e) (set_db db8 w7))) as Hp8.
  { destruct Hp7 as [S B (l & Tl & Hin) A F]. split; cbn; [done|done|exists (l ++ [SAcknowledged e]); rewrite app_assoc; split; [by f_equal|intros _; apply in_or_app; left; by apply Hin]|by right|done]. }
  split; [intros ->|intros ->; by eapply Hstop, Hno7]. split; [by exists true|]. intros Hf. cbn. by split_and!.
Qed.

(** C15. A decision is published at least once and acknowledged exactly. Let the decision not be
    acknowledged yet, the outbox and the journal hold rows as the repository writes them, the device be
    enrolled, and the event bus be there with two sequence numbers left. Then, after a publication
    that was interrupted anywhere, one more attempt without faults succeeds, leaves the
    decision acknowledged as the published one with no row of it pending, whether the acknowledgement
    is of the first or of the second attempt, and the event bus has taken the decision. *)
Theorem publication_survives_interruption e now (w : World W) b later :
  sound_db e (w_db w) -> w_bus w = Some b -> next_sequence (state b) + 2 <= u64_max -> ~ acknowledged e (w_db w) ->
  let w1 := snd (publish_exact e None now w) in
  let w2 := {| w_db := w_db w1; w_actuator := w_actuator w1; w_bus := w_bus w1; w_clock := w_clock w1; w_faults := []; w_trace := w_trace w1 |} in
  exists w3 l, publish_exact e None later w2 = (Ok tt, w3) /\ acknowledged e (w_db w3) /\
    w_trace w3 = w_trace w ++ l /\ In (SPublished e) l /\
    published_decision_in (pc_device_id e) (w_db w3) = Ok (Some e) /\
    Forall (fun r => outbox_key r <> (pc_device_id e, encode e)) (db_outbox (w_db w3)).
Proof.
  intros Hs Hb Hl Hn. cbv zeta. destruct (publish_exact_run e now w (next_sequence (state b) + 1) b Hs Hb) as [[x1 [S1 (b1 & B1 & L1) (l1 & T1 & D1) A1 _]] _]; [lia|lia|].
  set (w1 := snd (publish_exact e None now w)) in *. set (w2 := {| w_db := w_db w1 |}).
  destruct (publish_exact_run e later w2 (next_sequence (state b) + 2) b1) as [[x2 [S2 _ (l2 & T2 & D2) A2 _]] Hdone]; [done|done|destruct x1; lia|lia|].
  destruct (Hdone eq_refl) as (Er & Hack). destruct (publish_exact e None later w2) as [r w3]. cbn [fst snd] in *. subst r.
  assert (acknowledged e (w_db w1) -> x1 = true /\ clean e (w_db w1)) as Hfirst by (intros Ha; by destruct (A1 Ha) as [[? _]|?]).
  assert (In (SPublished e) (l1 ++ l2) /\ clean e (w_db w3)) as [Hin [Hpub Hrows]].
  { rewrite in_app_iff. destruct (A2 Hack) as [[[-> Hc]%Hfirst Edb]|[-> Hc]]; [|split; [right; by apply D2|done]]. split; [left; by apply D1|by rewrite Edb]. }
  exists w3, (l1 ++ l2). split_and!; [done|done|by rewrite T2, app_assoc; cbn; rewrite T1|done..].
Qed.
End Publication.
