(* ===== verification/W6Actuator.v ===== *)
(** * W6 policy actuator

    crates/lattice-store/src/w6.rs (the table of prior states) and [W6PolicyActuator] of
    crates/lattice-service/src/policy.rs, which carries out the actions of the policy through a
    W6 connector. A statement of the table may fail: an oracle says which ones do. *)

From S2P Require Import Prelude Domain Policy W6 PolicyStore PolicyCoordinator.

Record W6Row := {
  wr_state_json : string; wr_action_json : option string; wr_prepared_before_json : option string; wr_verified_after_json : option string }.
Record W6Attempt := { wa_restore : DeviceState; wa_action : RequestedAction; wa_prepared_before : DeviceState; wa_verified_after : option DeviceState }.

(** ** The table of prior states *)
Abbreviation PriorTable := (gmap DeviceId W6Row).
Section PriorStates.
Context `{Serde RequestedAction} `{Serde DeviceState}.

(** [ON CONFLICT(device_id) DO NOTHING] *)
Definition w6_save (d : DeviceId) (s : DeviceState) (t : PriorTable) : PriorTable :=
  match t !! d with
  | Some _ => t
  | None => <[d := {| wr_state_json := to_json s; wr_action_json := None; wr_prepared_before_json := None; wr_verified_after_json := None |}]> t
  end.
(** A conflict keeps the state to restore and replaces the attempt. *)
Definition begin_attempt (d : DeviceId) (a : RequestedAction) (before : DeviceState) (t : PriorTable) : PriorTable :=
  let state := match t !! d with Some r => wr_state_json r | None => to_json before end in
  <[d := {| wr_state_json := state; wr_action_json := Some (to_json a); wr_prepared_before_json := Some (to_json before);
            wr_verified_after_json := None |}]> t.
(** [None]: no row was changed, which is an error. *)
Definition mark_verified (d : DeviceId) (a : RequestedAction) (after : DeviceState) (t : PriorTable) : option PriorTable :=
  match t !! d with
  | Some r =>
    if bool_decide (wr_action_json r = Some (to_json a)) && bool_decide (is_Some (wr_prepared_before_json r))
    then Some (<[d := {| wr_state_json := wr_state_json r; wr_action_json := wr_action_json r;
                         wr_prepared_before_json := wr_prepared_before_json r; wr_verified_after_json := Some (to_json after) |}]> t)
    else None
  | None => None
  end.
(** The outer [None] is an error: an incomplete row or a text that does not parse. *)
Definition w6_row_attempt (r : W6Row) : option W6Attempt :=
  match wr_action_json r, wr_prepared_before_json r with
  | Some action, Some before =>
    match from_json (wr_state_json r), from_json action, from_json before,
          match wr_verified_after_json r with Some s => option_map Some (from_json s) | None => Some None end with
    | Some restore, Some action, Some before, Some after =>
      Some {| wa_restore := restore; wa_action := action; wa_prepared_before := before; wa_verified_after := after |}
    | _, _, _, _ => None
    end
  | _, _ => None
  end.
Definition load_attempt (d : DeviceId) (t : PriorTable) : option (option W6Attempt) :=
  match t !! d with None => Some None | Some r => option_map Some (w6_row_attempt r) end.
Definition w6_load (d : DeviceId) (t : PriorTable) : option (option DeviceState) :=
  match t !! d with None => Some None | Some r => option_map Some (from_json (wr_state_json r)) end.
Definition w6_remove (d : DeviceId) (t : PriorTable) : PriorTable := delete d t.
End PriorStates.

(** ** The actuator *)
Section Actuator.
Context {W : Type} `{W6Transport W} `{Serde RequestedAction} `{Serde DeviceState}.

Record W6World := {
  aw_connector : Connector W; aw_previous : gmap DeviceId DeviceState; aw_durable : option PriorTable; aw_io : list bool }.
Definition set_connector (c : Connector W) (w : W6World) : W6World := {|
  aw_connector := c; aw_previous := aw_previous w; aw_durable := aw_durable w; aw_io := aw_io w |}.
Definition set_previous (m : gmap DeviceId DeviceState) (w : W6World) : W6World := {|
  aw_connector := aw_connector w; aw_previous := m; aw_durable := aw_durable w; aw_io := aw_io w |}.
Definition set_durable (t : PriorTable) (w : W6World) : W6World := {|
  aw_connector := aw_connector w; aw_previous := aw_previous w; aw_durable := Some t; aw_io := aw_io w |}.

(** [W6PolicyActuator::new] and [with_sqlite]. *)
Definition actuator_new (c : Connector W) : W6World := {| aw_connector := c; aw_previous := ∅; aw_durable := None; aw_io := [] |}.
Definition actuator_with_sqlite (c : Connector W) (t : PriorTable) : W6World := {|
  aw_connector := c; aw_previous := ∅; aw_durable := Some t; aw_io := [] |}.

Definition on_connector {A} (m : M (Connector W) A) : M W6World A :=
  fun w => let '(a, c) := m (aw_connector w) in (a, set_connector c w).
Definition io_fails : M W6World bool :=
  fun w => match aw_io w with
           | [] => (false, w)
           | b :: l => (b, {| aw_connector := aw_connector w; aw_previous := aw_previous w; aw_durable := aw_durable w; aw_io := l |})
           end.
(** A reading statement; [None] is a failure. *)
Definition w6_query {A} (f : PriorTable -> option A) (t : PriorTable) : M W6World (option A) :=
  let! b := io_fails in mret_st (if (b : bool) then None else f t).
(** A writing statement. *)
Definition w6_execute (f : PriorTable -> option PriorTable) (t : PriorTable) : M W6World bool :=
  let! b := io_fails in
  match (if (b : bool) then None else f t) with
  | None => mret_st false
  | Some t' => fun w => (true, set_durable t' w)
  end.

Definition requested_quarantine (a : RequestedAction) : option RequestedQuarantine :=
  match a with ActQuarantine => Some RqDenyInternet | PermanentBan => Some RqPersistentFilter | _ => None end.

(** The errors that leave the device to the owner, and those that are failures. *)
Definition prepare_failure (e : W6Error) : EnforcementStatus :=
  match e with Transport | Authentication | SessionExpired => Failed | _ => ManualRequired end.
Definition apply_failure (e : W6Error) : EnforcementStatus :=
  match e with Transport | Authentication | SessionExpired | VerificationFailed => Failed | _ => ManualRequired end.

(** After a verified mutation. *)
Definition note_verified (d : DeviceId) (a : RequestedAction) (report : MutationReport) : M W6World EnforcementStatus :=
  fun w =>
    match aw_durable w with
    | Some _ =>
      (let! r := on_connector read_state in
       match r with
       | Err _ => mret_st Failed
       | Ok after => fun w =>
         match aw_durable w with
         | Some t => (let! ok := w6_execute (mark_verified d a after) t in mret_st (if (ok : bool) then Verified else Failed)) w
         | None => (Verified, w)
         end
       end) w
    | None =>
      (Verified, match mr_previous report with Some s => set_previous (<[d := s]> (aw_previous w)) w | None => w end)
    end.
Definition w6_enforce (d : DeviceId) (a : RequestedAction) : M W6World EnforcementStatus :=
  match requested_quarantine a with
  | None => mret_st ManualRequired
  | Some request => fun w =>
    if negb (bool_decide (discovery_status (aw_connector w) = Trusted)) then (ManualRequired, w)
    else
      (let! p := on_connector (prepare_quarantine request) in
       match p with
       | Err e => mret_st (prepare_failure e)
       | Ok prepared => fun w =>
         let apply :=
           let! r := on_connector (apply_prepared prepared) in
           match r with
           | Ok report => match mr_verification report with WVerified => note_verified d a report | WUnverified => mret_st ManualRequired end
           | Err e => mret_st (apply_failure e)
           end in
         match aw_durable w with
         | Some t => (let! ok := w6_execute (fun t => Some (begin_attempt d a (pm_previous prepared) t)) t in
                      if (ok : bool) then apply else mret_st Failed) w
         | None => apply w
         end
       end) w
  end.

(** The attempt that is known of a device; the outer [None] is a failure. *)
Definition known_attempt (d : DeviceId) (a : RequestedAction) : M W6World (option (option W6Attempt)) :=
  fun w =>
    match aw_durable w with
    | Some t => w6_query (load_attempt d) t w
    | None => (Some (option_map (fun s => {| wa_restore := s; wa_action := a; wa_prepared_before := s; wa_verified_after := None |})
                       (aw_previous w !! d)), w)
    end.
Definition judge_state (attempt : W6Attempt) (current : DeviceState) : ActuationReconciliation :=
  if bool_decide (current = wa_prepared_before attempt) && bool_decide (wa_verified_after attempt = None) then ProvenNotApplied
  else if bool_decide (wa_verified_after attempt = Some current) then VerifiedApplied
  else Indeterminate.
Definition w6_reconcile (d : DeviceId) (a : RequestedAction) : M W6World ActuationReconciliation :=
  match requested_quarantine a with
  | None => mret_st ReconcileManual
  | Some _ =>
    let! o := known_attempt d a in
    match o with
    | None => mret_st Indeterminate
    | Some None => mret_st ProvenNotApplied
    | Some (Some attempt) => fun w =>
      if negb (bool_decide (wa_action attempt = a)) then (Indeterminate, w)
      else if negb (bool_decide (discovery_status (aw_connector w) = Trusted)) then (ReconcileManual, w)
      else
        (let! r := on_connector read_state in
         mret_st (match r with
                  | Ok current => judge_state attempt current
                  | Err (Transport | Authentication | SessionExpired) => ReconcileFailed
                  | Err _ => ReconcileManual
                  end)) w
    end
  end.

Definition w6_undo (d : DeviceId) (a : RequestedAction) : M W6World EnforcementStatus :=
  if negb (blocking a) then mret_st ManualRequired
  else
    let! previous := (fun w => match aw_durable w with
                               | Some t => (let! o := w6_query (w6_load d) t in mret_st (match o with Some s => s | None => None end)) w
                               | None => (aw_previous w !! d, w)
                               end) in
    match previous with
    | None => mret_st ManualRequired
    | Some s =>
      let! r := on_connector (connector_restore s) in
      match r with
      | Ok WVerified => fun w =>
        match aw_durable w with
        | Some t => (let! ok := w6_execute (fun t => Some (w6_remove d t)) t in mret_st (if (ok : bool) then Verified else Failed)) w
        | None => (Verified, set_previous (delete d (aw_previous w)) w)
        end
      | Ok WUnverified | Err VerificationFailed => mret_st Failed
      | Err _ => mret_st ManualRequired
      end
    end.
Definition w6_undo_available (d : DeviceId) (a : RequestedAction) : M W6World bool :=
  if negb (blocking a) then mret_st false
  else fun w =>
    match aw_durable w with
    | Some t => (let! o := w6_query (w6_load d) t in mret_st (match o with Some (Some _) => true | _ => false end)) w
    | None => (bool_decide (is_Some (aw_previous w !! d)), w)
    end.

#[global] Instance w6_policy_actuator : PolicyActuator W6World := {
  act_enforce := w6_enforce; act_reconcile := w6_reconcile; act_undo_available := w6_undo_available; act_undo := w6_undo
}.
End Actuator.
Arguments W6World : clear implicits.

Section Accountable.
Context {W : Type} `{W6Transport W} `{!ObservedW6 W} `{Serde RequestedAction} `{Serde DeviceState}.
Implicit Types w : W6World W.

Definition aw_calls w : list W6Call := cn_calls (aw_connector w).
(** Calls that only read. *)
Definition reading_log (log : list W6Call) : Prop := applied log = [] /\ tried log = [] /\ restores log = [].

Lemma reading_log_app l r : reading_log l -> reading_log r -> reading_log (l ++ r).
Proof. intros (A & B & C) (D & E & F). unfold reading_log. autorewrite with w6_log. by rewrite A, B, C, D, E, F. Qed.
Lemma reading_log_nil : reading_log [].
Proof. done. Qed.

Lemma read_state_spec (c : Connector W) : wp read_state (fun r c' => same_session c c' /\ exists log, cn_calls c' = cn_calls c ++ log /\ reading_log log /\
  forall s, r = Ok s -> exists log0, log = log0 ++ [CState (Ok s)]) c.
Proof.
  unfold read_state. apply wp_trusted; [intros Ht|intros e _; split; [apply same_session_refl|exists []; rewrite app_nil_r; by split_and!]].
  apply wp_first_state.
  - intros s ren c' log Hs Hc Ha Htr Hr Hn Hl. apply wp_ret. split; [done|]. exists log. split_and!; try done. cbn. by intros s' [= <-].
  - intros e c' log Hs Hc Ha Htr Hr Hn. split; [done|]. exists log. by split_and!.
Qed.
Lemma prepare_spec request (c : Connector W) : wp (prepare_quarantine request) (fun r c' => same_session c c' /\ exists log, cn_calls c' = cn_calls c ++ log /\ reading_log log /\
  forall p, r = Ok p -> pm_capability p = capability request /\ cn_status c = Trusted /\ exists log0, log = log0 ++ [CState (Ok (pm_previous p))]) c.
Proof.
  unfold prepare_quarantine. assert (forall e, same_session c c /\ exists log, cn_calls c = cn_calls c ++ log /\ reading_log log /\
    forall p, @Err PreparedMutation W6Error e = Ok p -> pm_capability p = capability request /\ cn_status c = Trusted /\ exists log0, log = log0 ++ [CState (Ok (pm_previous p))]) as Hnone.
  { intros e. split; [apply same_session_refl|]. exists []. rewrite app_nil_r. by split_and!. }
  apply wp_trusted; [intros Ht|intros; apply Hnone]. apply wp_profile; [intros p Hp|apply Hnone]. destruct (advertises p _); cbn [negb]; [|apply Hnone].
  apply wp_first_state.
  - intros s ren c' log Hs Hc Ha Htr Hr Hn Hl. cbn [fst]. apply wp_try. unfold wp, mret_st. cbn [fst snd]. destruct (filter_room p _ _) as [[]|e]; (split; [done|]); exists log; split_and!; try done.
    intros p' [= <-]. done.
  - intros e c' log Hs Hc Ha Htr Hr Hn. split; [done|]. exists log. by split_and!.
Qed.

Lemma wp_on_connector {A} (m : M (Connector W) A) (P : A -> Connector W -> Prop) Q w :
  wp m P (aw_connector w) -> (forall a c, P a c -> Q a (set_connector c w)) -> wp (on_connector m) Q w.
Proof. unfold wp, on_connector. destruct (m (aw_connector w)) as [a c]. cbn. auto. Qed.
(** The oracle only costs an entry. *)
Definition same_but_io w w' : Prop := aw_connector w' = aw_connector w /\ aw_previous w' = aw_previous w /\ aw_durable w' = aw_durable w.
Lemma wp_io (Q : bool -> W6World W -> Prop) w : (forall b w', same_but_io w w' -> Q b w') -> wp io_fails Q w.
Proof. intros HQ. unfold wp, io_fails. destruct (aw_io w); apply HQ; done. Qed.

(** What is recorded of an attempt on the device. *)
Definition recorded (d : DeviceId) (w : W6World W) (attempt : W6Attempt) : Prop :=
  exists t, aw_durable w = Some t /\ load_attempt d t = Some (Some attempt).

Lemma known_attempt_spec d a w t : aw_durable w = Some t ->
  wp (known_attempt d a) (fun o w' => same_but_io w w' /\ (o = None \/ o = load_attempt d t)) w.
Proof.
  intros Ht. unfold known_attempt, wp. rewrite Ht. change (wp (w6_query (load_attempt d) t) (fun o w' => same_but_io w w' /\ (o = None \/ o = load_attempt d t)) w).
  unfold w6_query. apply wp_bind, wp_io. intros b w' Hs. apply wp_ret. split; [done|]. destruct b; auto.
Qed.

(** What an answer of reconciliation means: nothing was ever recorded, or the appliance, read last,
    is in the state from before a mutation that was not verified; or it is in the verified state
    of this very action. *)
Definition reconciled (d : DeviceId) (a : RequestedAction) (t : PriorTable) w (r : ActuationReconciliation) (w' : W6World W) : Prop :=
  aw_durable w' = aw_durable w /\ exists log, aw_calls w' = aw_calls w ++ log /\ reading_log log /\
    (r = ProvenNotApplied -> load_attempt d t = Some None \/ exists attempt log0, recorded d w attempt /\ wa_action attempt = a /\
       wa_verified_after attempt = None /\ log = log0 ++ [CState (Ok (wa_prepared_before attempt))]) /\
    (r = VerifiedApplied -> exists attempt after log0, recorded d w attempt /\ wa_action attempt = a /\
       wa_verified_after attempt = Some after /\ log = log0 ++ [CState (Ok after)]).

Lemma w6_reconcile_spec d a w t : aw_durable w = Some t -> wp (w6_reconcile d a) (reconciled d a t w) w.
Proof.
  intros Ht. unfold w6_reconcile.
  assert (forall w' r, same_but_io w w' -> r <> VerifiedApplied -> (r = ProvenNotApplied -> load_attempt d t = Some None) -> reconciled d a t w r w') as Hplain.
  { intros w' r (E1 & E2 & E3) Hr Hp. split; [done|]. exists []. unfold aw_calls. rewrite E1, app_nil_r. split_and!; try done. intros Er. left. by apply Hp. }
  destruct (requested_quarantine a) as [rq|]; [|by apply wp_ret, Hplain]. apply wp_bind. eapply wp_mono; [by apply known_attempt_spec|].
  intros o w1 [Hs Ho]. destruct o as [[attempt|]|]; [| |by apply wp_ret, Hplain].
  2: { apply wp_ret, Hplain; [done|done|]. intros _. destruct Ho as [?|<-]; done. }
  destruct Ho as [?|Ho]; [done|]. assert (recorded d w attempt) as Hrec by (by exists t).
  unfold wp. case_bool_decide as Ea; cbn [negb]; [|by apply Hplain]. case_bool_decide as Etr; cbn [negb]; [|by apply Hplain].
  match goal with |- context [mbind_st ?m ?k w1] => change (wp (mbind_st m k) (reconciled d a t w) w1) end.
  destruct Hs as (E1 & E2 & E3). apply wp_bind. eapply wp_on_connector; [apply read_state_spec|]. intros r c' (_ & log & Hc & Hl & Hlast). apply wp_ret.
  split; [done|]. exists log. unfold aw_calls. cbn. rewrite Hc, E1. split_and!; [done|done|..].
  - destruct r as [s|[]]; try done. unfold judge_state. case_bool_decide as Eb; cbn [andb]; [subst s|]; repeat case_bool_decide; try done; intros _.
    right. destruct (Hlast _ eq_refl) as [log0 ->]. by exists attempt, log0.
  - destruct r as [s|[]]; try done. unfold judge_state. destruct (_ && _); [done|]. case_bool_decide as Ev; [|done]. intros _.
    destruct (Hlast _ eq_refl) as [log0 ->]. by exists attempt, s, log0.
Qed.

Lemma begin_attempt_recorded d a before t :
  is_Some (match t !! d with Some r => from_json (wr_state_json r) | None => Some before end) ->
  exists restore, load_attempt d (begin_attempt d a before t) =
    Some (Some {| wa_restore := restore; wa_action := a; wa_prepared_before := before; wa_verified_after := None |}).
Proof.
  intros [restore Hr]. exists restore. unfold load_attempt, begin_attempt. rewrite lookup_insert_eq. cbn. unfold w6_row_attempt. cbn.
  rewrite !from_to_json. destruct (t !! d); cbn in Hr; [by rewrite Hr|rewrite from_to_json; by injection Hr as <-].
Qed.
Lemma mark_verified_recorded d a after t t' attempt :
  load_attempt d t = Some (Some attempt) -> mark_verified d a after t = Some t' ->
  load_attempt d t' = Some (Some {| wa_restore := wa_restore attempt; wa_action := wa_action attempt;
                                    wa_prepared_before := wa_prepared_before attempt; wa_verified_after := Some after |}).
Proof.
  unfold mark_verified, load_attempt. destruct (t !! d) as [r|]; [|done]. intros Hl. destruct (_ && _); [|done]. intros [= <-]. rewrite lookup_insert_eq. cbn.
  unfold w6_row_attempt in *. cbn. destruct (wr_action_json r); [|done]. destruct (wr_prepared_before_json r); [|done].
  destruct (from_json (wr_state_json r)); [|done]. destruct (from_json _) as [x|]; [|done]. destruct (from_json _) as [y|]; [|done]. rewrite from_to_json. cbn.
  by destruct (match wr_verified_after_json r with Some _ => _ | None => _ end); simplify_eq/=.
Qed.

(** What an enforcement leaves: only readings, or a recorded attempt of this action from the state
    that was read before it, with at most one accepted mutation, of the capability of the action;
    and a verified one has its last reading recorded as the verified state. *)
Definition enforced (d : DeviceId) (a : RequestedAction) w (r : EnforcementStatus) (w' : W6World W) : Prop :=
  exists log, aw_calls w' = aw_calls w ++ log /\ restores log = [] /\
    ((r <> Verified /\ tried log = [] /\ applied log = []) \/
     exists request attempt, requested_quarantine a = Some request /\ recorded d w' attempt /\ wa_action attempt = a /\
       Forall (eq (capability request)) (tried log) /\ (applied log = [] \/ applied log = [capability request]) /\
       (exists l1 l2, log = l1 ++ CState (Ok (wa_prepared_before attempt)) :: l2 /\ tried l1 = []) /\
       (r = Verified -> applied log = [capability request] /\ exists after log0, wa_verified_after attempt = Some after /\ log = log0 ++ [CState (Ok after)])).

Lemma wp_execute f t (Q : bool -> W6World W -> Prop) w :
  (forall w', same_but_io w w' -> Q false w') -> (forall t' w', same_but_io w w' -> f t = Some t' -> Q true (set_durable t' w')) -> wp (w6_execute f t) Q w.
Proof.
  intros Hf Ht. unfold w6_execute. apply wp_bind, wp_io. intros b w' Hs. destruct b; [by apply wp_ret, Hf|]. destruct (f t) as [t'|]; [|by apply wp_ret, Hf].
  unfold wp. cbn. by apply Ht.
Qed.

(** The part of an enforcement that starts with the record in place. *)
Lemma applied_spec d a request prepared attempt w l0 w0 :
  requested_quarantine a = Some request -> pm_capability prepared = capability request -> recorded d w attempt -> wa_action attempt = a ->
  wa_prepared_before attempt = pm_previous prepared -> aw_calls w = aw_calls w0 ++ l0 ++ [CState (Ok (pm_previous prepared))] -> reading_log (l0 ++ [CState (Ok (pm_previous prepared))]) ->
  wp (let! r := on_connector (apply_prepared prepared) in
      match r with
      | Ok report => match mr_verification report with WVerified => note_verified d a report | WUnverified => mret_st ManualRequired end
      | Err e => mret_st (apply_failure e)
      end) (enforced d a w0) w.
Proof.
  intros Hrq Hcap Hrec Hact Hbefore Hcalls (L1 & L2 & L3). apply wp_bind. eapply wp_on_connector; [apply apply_prepared_run|].
  intros r c [[_ (log & Hc & [M1 M2 M3 M4] & Hver)] _]. rewrite Hcap in *. set (w1 := set_connector c w).
  set (first := CState (Ok (pm_previous prepared))) in *. set (full := l0 ++ first :: log).
  assert (aw_calls w1 = aw_calls w0 ++ full) as Hfull. { unfold aw_calls, w1 in *. cbn. rewrite Hc, Hcalls. unfold full. by rewrite <- !app_assoc. }
  unfold aw_calls in Hcalls. autorewrite with w6_log in L1, L2, L3. apply app_nil in L2 as [L2 _]. apply app_nil in L1 as [L1 _]. apply app_nil in L3 as [L3 _].
  assert (restores full = [] /\ tried full = tried log /\ applied full = applied log) as (F1 & F2 & F3).
  { unfold full. change (first :: log) with ([first] ++ log). autorewrite with w6_log. cbn. by rewrite L1, L2, L3. }
  assert (recorded d w1 attempt) as Hrec1 by exact Hrec.
  assert (forall x, x <> Verified -> enforced d a w0 x w1) as Hother.
  { intros x Hx. exists full. split_and!; [done|done|]. right. exists request, attempt. rewrite F2, F3, Hbefore. split_and!; try done. by exists l0, log. }
  destruct r as [report|e]; [|by apply wp_ret, Hother; destruct e]. destruct (Hver report eq_refl) as (_ & V1 & V2 & _). rewrite V2.
  unfold wp, note_verified. destruct Hrec as (t & Ht & Hload). change (aw_durable w1) with (aw_durable w). rewrite Ht.
  match goal with |- context [mbind_st ?m ?k w1] => change (wp (mbind_st m k) (enforced d a w0) w1) end.
  apply wp_bind. eapply wp_on_connector; [apply read_state_spec|]. intros r2 c2 (_ & log2 & Hc2 & (N1 & N2 & N3) & Hlast). set (w2 := set_connector c2 w1).
  assert (aw_calls w2 = aw_calls w0 ++ full ++ log2) as Hfull2. { unfold aw_calls, w2 in *. cbn in *. rewrite Hc2, Hfull. by rewrite <- app_assoc. }
  assert (forall attempt' w3 x, aw_connector w3 = aw_connector w2 -> recorded d w3 attempt' -> wa_action attempt' = a -> wa_prepared_before attempt' = pm_previous prepared ->
    (x = Verified -> exists after log0, wa_verified_after attempt' = Some after /\ log2 = log0 ++ [CState (Ok after)]) -> enforced d a w0 x w3) as Hend.
  { intros attempt' w3 x Hw3 Hr3 Ha3 Hb3 Hx. exists (full ++ log2). unfold aw_calls in *. rewrite Hw3. split_and!; [done|by autorewrite with w6_log; rewrite F1, N3|].
    right. exists request, attempt'. autorewrite with w6_log. rewrite F2, F3, N1, N2, !app_nil_r, Hb3. split_and!; try done.
    - exists l0, (log ++ log2). unfold full. by rewrite <- app_assoc.
    - intros ->. destruct (Hx eq_refl) as (after & log0 & Hva & ->). split; [done|]. exists after, (full ++ log0). by rewrite <- app_assoc. }
  destruct r2 as [after|e]; [|by apply wp_ret, (Hend attempt)]. unfold wp. change (aw_durable w2) with (aw_durable w). rewrite Ht.
  match goal with |- context [mbind_st ?m ?k w2] => change (wp (mbind_st m k) (enforced d a w0) w2) end.
  apply wp_bind, wp_execute.
  - intros w3 (E1 & E2 & E3). apply wp_ret, (Hend attempt); try done. exists t. rewrite E3. done.
  - intros t' w3 (E1 & E2 & E3) Hm. apply wp_ret. eapply Hend; [done|exists t'; split; [done|by eapply mark_verified_recorded]|done|done|].
    intros _. destruct (Hlast _ eq_refl) as [log0 ->]. by exists after, log0.
Qed.

Lemma w6_enforce_spec d a w t : aw_durable w = Some t -> (forall row, t !! d = Some row -> is_Some (from_json (A := DeviceState) (wr_state_json row))) ->
  wp (w6_enforce d a) (enforced d a w) w.
Proof.
  intros Ht Hsound. unfold w6_enforce.
  assert (forall x w' log, aw_calls w' = aw_calls w ++ log -> reading_log log -> x <> Verified -> enforced d a w x w') as Hnone.
  { intros x w' log Hc (L1 & L2 & L3) Hx. exists log. split_and!; try done. by left. }
  destruct (requested_quarantine a) as [request|] eqn:Erq; [|apply wp_ret, (Hnone _ w []); [by rewrite app_nil_r|done|done]].
  unfold wp. case_bool_decide as Etr; cbn [negb]; [|apply (Hnone _ w []); [by rewrite app_nil_r|done|done]].
  match goal with |- context [mbind_st ?m ?k w] => change (wp (mbind_st m k) (enforced d a w) w) end.
  apply wp_bind. eapply wp_on_connector; [apply prepare_spec|]. intros r c (_ & log & Hc & Hl & Hp). set (w1 := set_connector c w).
  destruct r as [prepared|e]; [|apply wp_ret, (Hnone _ w1 log); [done|done|by destruct e]]. destruct (Hp prepared eq_refl) as (P1 & P2 & l0 & ->).
  unfold wp. change (aw_durable w1) with (aw_durable w). rewrite Ht.
  match goal with |- context [mbind_st ?m ?k w1] => change (wp (mbind_st m k) (enforced d a w) w1) end.
  apply wp_bind, wp_execute.
  - intros w2 (E1 & _). apply wp_ret, (Hnone _ w2 (l0 ++ [CState (Ok (pm_previous prepared))])); [|done|done]. unfold aw_calls. rewrite E1. exact Hc.
  - intros t' w2 (E1 & E2 & E3) [= <-]. destruct (begin_attempt_recorded d a (pm_previous prepared) t) as [restore Hrec].
    { destruct (t !! d) as [row|] eqn:Er; [by apply Hsound|by eexists]. }
    eapply (applied_spec d a request prepared _ _ l0); [done|done|by eexists|done|done| |done]. unfold aw_calls. cbn. rewrite E1. exact Hc.
Qed.

(** The W6 actuator is accountable for every mutation: an enforcement that tries one has recorded
    the action and the state read before it, has at most one mutation accepted, of the
    capability that stands for the action, and is reported as verified only with the last
    reading recorded as the verified state. Reconciliation only reads, and its answer is what the
    record and a fresh reading say: not applied means nothing was recorded or the appliance is
    still in the state from before, applied means it is in the verified state. *)
Theorem w6_actuator_is_accountable d a w t :
  aw_durable w = Some t -> (forall row, t !! d = Some row -> is_Some (from_json (A := DeviceState) (wr_state_json row))) ->
  wp (w6_enforce d a) (enforced d a w) w /\ wp (w6_reconcile d a) (reconciled d a t w) w.
Proof. intros Ht Hs. split; [by eapply w6_enforce_spec|by apply w6_reconcile_spec]. Qed.
End Accountable.
