(* ===== verification/PolicyWitness.v ===== *)
(** * Witnesses of the policy repository, coordinator and actuator

    serde_json is instantiated by the binary text of an injective numbering, times by the number
    of their ticks, the appliance by one that does exactly what it is told. *)

From S2P Require Import Prelude Time Text Order Domain Policy EventBus PolicyStore PolicyCoordinator PolicyCoordinatorProps PolicyCoordinatorTheorems W6 W6Actuator.

(** ** Texts of countable types *)
Fixpoint bits (p : positive) : string :=
  match p with xH => "" | xO p' => String "0" (bits p') | xI p' => String "1" (bits p') end.
Fixpoint of_bits (s : string) : option positive :=
  match s with
  | EmptyString => Some xH
  | String "0" s' => xO <$> of_bits s'
  | String "1" s' => xI <$> of_bits s'
  | _ => None
  end.
Lemma of_bits_bits p : of_bits (bits p) = Some p.
Proof. by induction p as [p IH|p IH|]; cbn; rewrite ?IH. Qed.
Definition text_of {A} `{Countable A} (a : A) : string := bits (countable.encode a).
Definition of_text {A} `{Countable A} (s : string) : option A := match of_bits s with Some p => countable.decode p | None => None end.
Lemma of_text_of {A} `{Countable A} (a : A) : of_text (text_of a) = Some a.
Proof. unfold of_text, text_of. by rewrite of_bits_bits, decode_encode. Qed.
Definition serde_of (A : Type) `{Countable A} : Serde A := {| to_json := text_of; from_json := of_text; from_to_json := of_text_of |}.

(** An enumeration is numbered by the position in the list of its values. *)
Definition position {A} `{EqDecision A} (l : list A) (a : A) : nat := match list_find (a =.) l with Some (i, _) => i | None => 0 end.
Lemma position_spec {A} `{EqDecision A} (l : list A) : (forall a, a ∈ l) -> forall a, l !! position l a = Some a.
Proof.
  intros Hl a. unfold position. destruct (list_find (a =.) l) as [[i x]|] eqn:E; [by apply list_find_Some in E as (Hi & -> & _)|].
  apply list_find_None in E. rewrite Forall_forall in E. by destruct (E a (Hl a)).
Qed.
Definition enum_countable {A} `{EqDecision A} (l : list A) (Hl : forall a, a ∈ l) : Countable A :=
  inj_countable (position l) (fun n => l !! n) (position_spec l Hl).

Ltac enumeration := let a := fresh in intros a; apply list_elem_of_In; destruct a; cbn; tauto.
#[local] Instance EvidenceFamily_countable : Countable EvidenceFamily :=
  enum_countable [LinkLayer; Addressing; Naming; Service; Cryptographic; RouterHint; Owner] ltac:(enumeration).
#[local] Instance OwnerDecision_countable : Countable OwnerDecision := enum_countable [Pending; Approved; Rejected; Quarantined] ltac:(enumeration).
#[local] Instance Protection_countable : Countable Protection :=
  enum_countable [ProtNone; Router; Collector; AdministratorPhone; SafetyDevice] ltac:(enumeration).
#[local] Instance RequestedAction_countable : Countable RequestedAction :=
  enum_countable [ActNone; ActQuarantine; PermanentBan; OwnerAttention] ltac:(enumeration).
#[local] Instance PolicyReason_countable : Countable PolicyReason :=
  enum_countable [PendingConfirmation; BaselineExempt; HighConfidenceDanger; UnknownDeadlineExpired; AutomaticDeadlineExpired;
                  OwnerExtension; OwnerApproved; OwnerRejected; OwnerQuarantined; ProtectedDevice] ltac:(enumeration).
#[local] Instance DeadlineKind_countable : Countable DeadlineKind := enum_countable [Unknown48Hours; Automatic7Days] ltac:(enumeration).
#[local] Instance DeadlineWarning_countable : Countable DeadlineWarning := enum_countable [Hours24; Hours6; Hour1] ltac:(enumeration).
#[local] Instance EnforcementStatus_countable : Countable EnforcementStatus :=
  enum_countable [NotRequested; Verified; ManualRequired; Failed] ltac:(enumeration).

#[local] Instance Identification_eq_dec : EqDecision Identification.
Proof. solve_decision. Defined.
#[local] Instance RiskSignal_eq_dec : EqDecision RiskSignal.
Proof. solve_decision. Defined.
#[local] Instance Identification_countable : Countable Identification :=
  inj_countable' (fun i => match i with IdUnknown => None | IdAutomatic c l => Some (c, l) end)
    (fun o => match o with None => IdUnknown | Some (c, l) => IdAutomatic c l end) ltac:(by intros []).
#[local] Instance RiskSignal_countable : Countable RiskSignal :=
  inj_countable' (fun r => match r with RiskNone => None | HighConfidenceDangerSignal c e => Some (c, e) end)
    (fun o => match o with None => RiskNone | Some (c, e) => HighConfidenceDangerSignal c e end) ltac:(by intros []).
#[local] Instance Deadline_countable : Countable Deadline :=
  inj_countable' (fun x => (dl_kind x, dl_due_at x)) (fun '(k, t) => {| dl_kind := k; dl_due_at := t |}) ltac:(by intros []).
#[local] Instance Evaluation_countable : Countable Evaluation :=
  inj_countable' (fun e => ((policy_version e, reason e), (requested_action e, (deadline e, warning e))))
    (fun '((v, r), (a, (d, w))) => {| policy_version := v; reason := r; requested_action := a; deadline := d; warning := w |}) ltac:(by intros []).
#[local] Instance PolicyChanged_countable : Countable PolicyChanged :=
  inj_countable' (fun e => (pc_evidence_summary e, (pc_evaluation e, ((pc_device_id e, pc_policy_version e), (pc_requested_action e, (pc_enforcement_result e, pc_undo_available e))))))
    (fun '(s, (ev, ((d, v), (a, (r, u))))) => {| pc_device_id := d; pc_policy_version := v; pc_evaluation := ev; pc_requested_action := a;
       pc_evidence_summary := s; pc_enforcement_result := r; pc_undo_available := u |}) ltac:(by intros []).
#[local] Instance DeviceState_countable : Countable DeviceState :=
  inj_countable' (fun s => ((disconnect_now s, deny_wifi_association s), ((deny_internet s, deny_lan s), (persistent_filter s, filter_entries s))))
    (fun '((a, b), ((c, d), (e, n))) => {| disconnect_now := a; deny_wifi_association := b; deny_internet := c; deny_lan := d;
       persistent_filter := e; filter_entries := n |}) ltac:(by intros []).

(** The seventy binary digits of a time, the highest first, so that texts sort as times do. *)
Fixpoint time_digits (width : nat) (t : Z) : string :=
  match width with O => "" | S n => String (if Z.testbit t (Z.of_nat n) then "1" else "0")%char (time_digits n t) end.
Fixpoint of_time_digits (acc : Z) (s : string) : option DateTime :=
  match s with
  | EmptyString => Some acc
  | String "0" s' => of_time_digits (2 * acc) s'
  | String "1" s' => of_time_digits (2 * acc + 1) s'
  | _ => None
  end.
#[local] Instance toy_chrono : ChronoText := {|
  to_rfc3339 t := time_digits 70 (t + 2 ^ 69); parse_from_rfc3339 s := option_map (fun n => n - 2 ^ 69) (of_time_digits 0 s) |}.
#[local] Instance toy_policy_libs : PolicyLibs := {|
  libs_chrono := toy_chrono; libs_identification := serde_of _; libs_owner := serde_of _; libs_risk := serde_of _;
  libs_protection := serde_of _; libs_action := serde_of _; libs_changed := serde_of _ |}.
#[local] Instance toy_state_serde : Serde DeviceState := serde_of _.

(** ** An appliance that does what it is told *)
#[local] Instance obedient : PolicyActuator (gmap DeviceId RequestedAction) := {|
  act_enforce d a s := (Verified, <[d := a]> s);
  act_reconcile d a s := (if decide (s !! d = Some a) then VerifiedApplied else ProvenNotApplied, s);
  act_undo_available d a s := (bool_decide (s !! d = Some a), s);
  act_undo d a s := (Verified, delete d s)
|}.
Definition seen_at : DateTime := 1000000.
Definition hour (n : Z) : DateTime := seen_at + hours n.
(** One device, first seen before the baseline, and its policy. *)
Definition fresh_db : PolicyDb := {|
  db_devices := {[ 7%N := to_rfc3339 seen_at ]}; db_install_state := true; db_policy_install_state := Some (to_rfc3339 (hour 100));
  db_device_policy := {[ 7%N := new_policy_row false (to_rfc3339 (hour 1)) ]}; db_outbox := []; db_journal := ∅; db_transitions := [] |}.
Definition fresh_bus : option (EventBus PolicyChanged) := EventBus.new 16 16.
Definition fresh_world (faults : list Fault) : World (gmap DeviceId RequestedAction) := {|
  w_db := fresh_db; w_actuator := ∅; w_bus := fresh_bus; w_clock := hour 1; w_faults := faults; w_trace := [] |}.

(** ** Two runs of the coordinator *)
Definition quarantined_world : World (gmap DeviceId RequestedAction) := run_coord true (OpQuarantine 7%N (hour 2)) (fresh_world []).
Definition rejected_world : World (gmap DeviceId RequestedAction) := run_coord true (OpReject 7%N (hour 3)) quarantined_world.

(** A quarantine whose undo is available stands in the way of a ban: with an appliance that does
    exactly what it is told and no fault at all, the owner quarantines a device and then rejects
    it. The published decision says that the undo is available while the reservation holds the
    decision without it, so the reservation is neither retired nor cleared: the rejection fails,
    the appliance never sees a ban, and from then on every sweep fails as well. *)
Theorem quarantine_then_reject_is_stuck :
  let stuck := StoreFailure (Refused "superseded actuation attempt requires explicit reconciliation") in
  fst (coordinator_quarantine true 7%N (hour 2) (fresh_world [])) =
    Ok {| ad_evaluation := quarantine OwnerQuarantined; ad_reason := OwnerQuarantined; ad_policy_version := 1;
          ad_evidence_summary := "policy facts evaluated"; ad_requested_action := ActQuarantine; ad_enforcement := Verified; ad_undo_available := true |} /\
  fst (reject true 7%N (hour 3) quarantined_world) = Err stuck /\
  fst (sweep true (hour 200) rejected_world) = Err stuck /\
  w_actuator (snd (sweep true (hour 200) rejected_world)) = {[ 7%N := ActQuarantine ]}.
Proof. vm_compute. done. Qed.

Definition dangerous_world : World (gmap DeviceId RequestedAction) :=
  set_db (snd (set_risk 7%N (HighConfidenceDangerSignal 9500 "beacon") (hour 1) fresh_db)) (fresh_world []).
Definition contained_world : World (gmap DeviceId RequestedAction) := run_coord true (OpSweep (hour 2)) dangerous_world.
Definition approved_world : World (gmap DeviceId RequestedAction) := run_coord true (OpApprove 7%N (hour 3)) contained_world.

(** Approving a device that is still dangerous releases it and books a verified quarantine: the
    verified undo is published as the verified outcome of the quarantine that the evaluation asks
    for, so the next sweep takes the device for contained, calls nothing and records a verified
    block, while the appliance has no restriction on it. *)
Theorem approved_danger_is_released_but_booked_as_blocked :
  w_actuator contained_world = {[ 7%N := ActQuarantine ]} /\
  w_actuator approved_world = ∅ /\ control_blocked 7%N (w_db approved_world) = false /\
  let '(r, w) := sweep true (hour 4) approved_world in
  r = Ok [{| ad_evaluation := quarantine HighConfidenceDanger; ad_reason := HighConfidenceDanger; ad_policy_version := 1;
             ad_evidence_summary := "high-confidence danger"; ad_requested_action := ActQuarantine; ad_enforcement := Verified; ad_undo_available := false |}] /\
  w_actuator w = ∅ /\ w_trace w = w_trace approved_world /\ control_blocked 7%N (w_db w) = true.
Proof. vm_compute. done. Qed.

(** ** Witnesses *)
(** The answer of the appliance is lost, the appliance is replaced, the next sweep tries again. *)
Definition lost_world : World (gmap DeviceId RequestedAction) :=
  run_coord true (OpQuarantine 7%N (hour 2)) (fresh_world (replicate 9 Go ++ [After])).
Definition restarted_world : World (gmap DeviceId RequestedAction) := {|
  w_db := w_db lost_world; w_actuator := ∅; w_bus := fresh_bus; w_clock := hour 3; w_faults := []; w_trace := w_trace lost_world |}.
Definition retried_world : World (gmap DeviceId RequestedAction) := run_coord true (OpSweep (hour 3)) restarted_world.
Lemma retried_history : history true retried_world.
Proof.
  apply history_op, (history_restart _ lost_world); [|apply same_fence_refl]. apply history_op, history_start; [|done].
  intros d r s D. cbn. by rewrite lookup_empty.
Qed.

Lemma enforcement_is_fenced_witness :
  exists t2 t3, w_trace retried_world = [] ++ SEnforce 7%N ActQuarantine :: t2 ++ SEnforce 7%N ActQuarantine :: t3 /\
  exists s, In s t2 /\ resolves 7%N s = true.
Proof.
  eexists [SReconcile 7%N ActQuarantine ProvenNotApplied], (drop 3 (w_trace retried_world)). split; [vm_compute; reflexivity|].
  apply (enforcement_is_fenced true retried_world [] 7%N ActQuarantine _ ActQuarantine (drop 3 (w_trace retried_world)) retried_history). vm_compute. reflexivity.
Defined.

(** The call whose answer is lost: the owner had just asked for the quarantine. *)
Lemma no_action_without_grounds_witness :
  exists p, evaluated (OpQuarantine 7%N (hour 2)) (fresh_world (replicate 9 Go ++ [After])) p /\ dp_device_id p = 7%N /\ warranted p (hour 2) ActQuarantine.
Proof.
  destruct (no_action_without_grounds true (OpQuarantine 7%N (hour 2)) (fresh_world (replicate 9 Go ++ [After]))) as (l & El & Hl).
  apply (Hl 7%N ActQuarantine). vm_compute in El. rewrite <- El. by left.
Defined.

Definition quarantine_event : PolicyChanged := {|
  pc_device_id := 7%N; pc_policy_version := 1; pc_evaluation := quarantine OwnerQuarantined; pc_requested_action := ActQuarantine;
  pc_evidence_summary := "policy facts evaluated"; pc_enforcement_result := Verified; pc_undo_available := false |}.
(** The bus takes the decision, its acknowledgement is lost. *)
Lemma publication_survives_interruption_witness :
  let w1 := snd (publish_exact quarantine_event None (hour 2) (fresh_world [Go; Go; Before])) in
  let w2 := {| w_db := w_db w1; w_actuator := w_actuator w1; w_bus := w_bus w1; w_clock := w_clock w1; w_faults := []; w_trace := w_trace w1 |} in
  exists w3, publish_exact quarantine_event None (hour 3) w2 = (Ok tt, w3) /\ acknowledged quarantine_event (w_db w3).
Proof.
  cbv zeta. edestruct (publication_survives_interruption quarantine_event (hour 2) (fresh_world [Go; Go; Before])) as (w3 & l & E & Ha & _).
  - split; [split; [apply NoDup_nil_2|apply Forall_nil_2]|done|]. intros r. cbn. by rewrite lookup_empty.
  - reflexivity.
  - done.
  - intros (r & Hr & Hf). vm_compute in Hr. injection Hr as <-. done.
  - exists w3. split; [exact E|exact Ha].
Defined.

(** A block recorded at the third hour, a release at the fourth. *)
Definition blocked_db : PolicyDb := snd (record_verified_block 7%N (hour 3) fresh_db).
Lemma control_state_is_the_last_record_witness : control_blocked 7%N blocked_db = true /\ control_blocked 7%N (snd (record_verified_unblock 7%N (hour 4) blocked_db)) = false.
Proof.
  split; [done|]. refine (proj1 (control_state_is_the_last_record 7%N (hour 4) blocked_db _) _ _); [|vm_compute; reflexivity].
  apply Forall_singleton. vm_compute. reflexivity.
Defined.

(** An appliance that denies the internet and filters persistently. *)
Definition appliance_profile : Profile := {| fingerprint := "w6-1.0"; capabilities := [DenyInternet; PersistentFilter]; filter_capacity := Some 32 |}.
Definition applied_to (c : Capability) (s : DeviceState) : DeviceState := {|
  disconnect_now := disconnect_now s || bool_decide (c = DisconnectNow); deny_wifi_association := deny_wifi_association s || bool_decide (c = DenyWifiAssociation);
  deny_internet := deny_internet s || bool_decide (c = DenyInternet); deny_lan := deny_lan s || bool_decide (c = DenyLan);
  persistent_filter := persistent_filter s || bool_decide (c = PersistentFilter);
  filter_entries := filter_entries s + (if bool_decide (c = PersistentFilter) then 1 else 0) |}.
#[local] Instance appliance : W6Transport DeviceState := {|
  tr_login _ _ s := (Ok tt, s); tr_renew s := (Ok tt, s); tr_profile s := (Ok appliance_profile, s); tr_state s := (Ok s, s);
  tr_apply c s := (Ok tt, applied_to c s); tr_restore previous s := (Ok tt, previous) |}.
Definition idle_state : DeviceState := {|
  disconnect_now := false; deny_wifi_association := false; deny_internet := false; deny_lan := false; persistent_filter := false; filter_entries := 3 |}.
Definition new_connector : Connector (W6Recorded DeviceState) := {|
  cn_transport := (idle_state, []); cn_profile := None; cn_logged_in := false; cn_known_profiles := [appliance_profile]; cn_status := ManualProfile |}.
Definition trusted_connector : Connector (W6Recorded DeviceState) := snd (login "owner" "secret" new_connector).

Lemma w6_mutates_once_and_verifies_witness :
  (exists report, fst (connector_quarantine RqPersistentFilter trusted_connector) = Ok report) /\
  mutation_run PersistentFilter trusted_connector (fst (connector_quarantine RqPersistentFilter trusted_connector)) (snd (connector_quarantine RqPersistentFilter trusted_connector)).
Proof. split; [eexists; vm_compute; reflexivity|]. exact (proj1 (w6_mutates_once_and_verifies trusted_connector) RqPersistentFilter). Defined.
Lemma only_known_profiles_are_mutated_witness : exists e, connector_quarantine RqDenyInternet new_connector = (Err e, new_connector).
Proof. exact (proj1 (proj2 (only_known_profiles_are_mutated new_connector) ltac:(done)) RqDenyInternet). Defined.

Definition w6_world : W6World (W6Recorded DeviceState) := actuator_with_sqlite trusted_connector ∅.
Lemma w6_actuator_is_accountable_witness :
  fst (w6_enforce 7%N ActQuarantine w6_world) = Verified /\
  enforced 7%N ActQuarantine w6_world (fst (w6_enforce 7%N ActQuarantine w6_world)) (snd (w6_enforce 7%N ActQuarantine w6_world)).
Proof. split; [vm_compute; reflexivity|]. refine (proj1 (w6_actuator_is_accountable 7%N ActQuarantine w6_world ∅ eq_refl _)). intros row. by rewrite lookup_empty. Defined.
