(* ===== verification/Home.v ===== *)
(** * The home plan

    crates/lattice-domain/src/home.rs (the plan with its validation, placements and estimates),
    crates/lattice-store/src/home.rs (its repository) and crates/lattice-service/src/home.rs (its
    routes). The tables are a record; a transaction is one step from a database to the next, which
    an error leaves as it was. The constraints of migration 021 hold of what the code writes by
    the formats of its texts; the one on the length of the evidence text can fail and is written
    out, and so is the sign of zero, which a REAL column drops. A query that the database itself
    fails (a full disk, a closed pool) is left out. The texts of serde_json, chrono and uuid, and
    [hypot] of the C library, are parameters. *)

From S2P Require Import Prelude Time Text F32 F64 Order Bytes Domain EventBus Wire.
From Stdlib Require Import SpecFloat.

(** ** Floats *)
(** [(a..=b).contains(&x)] *)
Definition f64_within (a b x : f64) : bool := f64_le a x && f64_le x b.
Definition f64_lit (n d : Z) : f64 := f64_div (f64_of_Z n) (f64_of_Z d).
Definition f64_plus (a b : f64) : f64 := SFadd 53 1024 a b.
(** [f64::from(x)] and [x as f32] *)
Definition f64_of_f32 (x : f32) : f64 :=
  match x with S754_finite s m e => binary_normalize 53 1024 (if s then Z.neg m else Z.pos m) e s | _ => x end.
Definition f32_of_f64 (x : f64) : f32 :=
  match x with S754_finite s m e => binary_normalize 24 128 (if s then Z.neg m else Z.pos m) e s | _ => x end.

(** A float as a REAL column gives it back: SQLite writes -0.0 as 0.0. *)
Definition real_column (x : f64) : f64 := match x with S754_zero _ => f64_zero | _ => x end.

(** [f64::hypot] *)
Class Libm := { hypot : f64 -> f64 -> f64 }.

(** ** The plan *)
Definition UNCERTAIN_CONFIDENCE_THRESHOLD : f32 := f32_lit 6 10.
Definition MAX_FLOORS : Z := 64.
Definition MAX_WALLS_PER_FLOOR : Z := 4096.
Definition MAX_ROOMS_PER_FLOOR : Z := 1024.
Definition MIN_CEILING_HEIGHT_M : f64 := f64_lit 18 10.
Definition MAX_CEILING_HEIGHT_M : f64 := f64_of_Z 6.
Definition MAX_COORDINATE_M : f64 := f64_of_Z 1000.
Definition MIN_NAME_CHARS : nat := 1.
Definition MAX_NAME_CHARS : nat := 128.

(** A UUID, by its 128-bit value. *)
Definition HomeId : Type := N.
Definition FloorId : Type := N.
Definition RoomId : Type := N.
Definition WallId : Type := N.
Definition OpeningId : Type := N.
Definition PlacementId : Type := N.

Record Point := { pt_x : f64; pt_y : f64 }.
Inductive OpeningKind := Door | Window | Stair.
Record Opening := { op_opening_id : OpeningId; op_kind : OpeningKind; op_offset_m : f64; op_width_m : f64 }.
Record Wall := { wl_wall_id : WallId; wl_start : Point; wl_end : Point; wl_openings : list Opening }.
Record Room := { rm_room_id : RoomId; rm_name : string; rm_polygon : list Point }.
Record Floor := { fl_floor_id : FloorId; fl_level : Z; fl_name : string; fl_ceiling_height_m : f64; fl_walls : list Wall; fl_rooms : list Room }.
Record HomePlan := { hp_home_id : HomeId; hp_version : Z; hp_name : string; hp_floors : list Floor }.

Inductive PlanValidationError :=
  | InvalidName (what : string)
  | TooManyFloors (count : Z)
  | TooManyWalls (floor_id : FloorId) (count : Z)
  | TooManyRooms (floor_id : FloorId) (count : Z)
  | CeilingHeightOutOfRange (floor_id : FloorId) (ceiling_height_m : f64)
  | CoordinateOutOfRange (what : string)
  | DegenerateWall (wall_id : WallId)
  | PolygonTooSmall (room_id : RoomId) (points : Z)
  | OpeningOutOfBounds (wall_id : WallId) (opening_id : OpeningId).

Definition count {A} (l : list A) : Z := Z.of_nat (length l).
(** [Result::map_err] *)
Definition map_err {A E F} (f : E -> F) (r : result A E) : result A F := match r with Ok a => Ok a | Err e => Err (f e) end.
(** [for x in l { f(x)?; }] *)
Fixpoint try_each {A E} (f : A -> result unit E) (l : list A) : result unit E :=
  match l with [] => Ok tt | x :: l' => let? _ := f x in try_each f l' end.

Definition validate_name (value what : string) : result unit PlanValidationError :=
  let chars := char_count value in
  if Nat.leb MIN_NAME_CHARS chars && Nat.leb chars MAX_NAME_CHARS then Ok tt else Err (InvalidName what).
Definition coordinate_ok (c : f64) : bool := f64_is_finite c && f64_within (f64_neg MAX_COORDINATE_M) MAX_COORDINATE_M c.
Definition validate_point (value : Point) (what : string) : result unit PlanValidationError :=
  if coordinate_ok (pt_x value) && coordinate_ok (pt_y value) then Ok tt else Err (CoordinateOutOfRange what).

Section Validate.
Context `{Libm}.
Definition length_m (w : Wall) : f64 :=
  hypot (f64_sub (pt_x (wl_end w)) (pt_x (wl_start w))) (f64_sub (pt_y (wl_end w)) (pt_y (wl_start w))).
Definition opening_fits (length : f64) (o : Opening) : bool :=
  f64_is_finite (op_offset_m o) && f64_is_finite (op_width_m o) && f64_le f64_zero (op_offset_m o) && f64_lt f64_zero (op_width_m o)
  && f64_le (f64_plus (op_offset_m o) (op_width_m o)) length.
Definition validate_wall (w : Wall) : result unit PlanValidationError :=
  let? _ := validate_point (wl_start w) "wall start" in
  let? _ := validate_point (wl_end w) "wall end" in
  let length := length_m w in
  if f64_le length f64_zero then Err (DegenerateWall (wl_wall_id w))
  else try_each (fun o => if opening_fits length o then Ok tt else Err (OpeningOutOfBounds (wl_wall_id w) (op_opening_id o))) (wl_openings w).
Definition validate_room (r : Room) : result unit PlanValidationError :=
  let? _ := validate_name (rm_name r) "room name" in
  if count (rm_polygon r) <? 3 then Err (PolygonTooSmall (rm_room_id r) (count (rm_polygon r)))
  else try_each (fun p => validate_point p "room polygon") (rm_polygon r).
Definition validate_floor (f : Floor) : result unit PlanValidationError :=
  let? _ := validate_name (fl_name f) "floor name" in
  if negb (f64_within MIN_CEILING_HEIGHT_M MAX_CEILING_HEIGHT_M (fl_ceiling_height_m f)) then Err (CeilingHeightOutOfRange (fl_floor_id f) (fl_ceiling_height_m f))
  else if MAX_WALLS_PER_FLOOR <? count (fl_walls f) then Err (TooManyWalls (fl_floor_id f) (count (fl_walls f)))
  else if MAX_ROOMS_PER_FLOOR <? count (fl_rooms f) then Err (TooManyRooms (fl_floor_id f) (count (fl_rooms f)))
  else let? _ := try_each validate_wall (fl_walls f) in try_each validate_room (fl_rooms f).
Definition plan_validate (p : HomePlan) : result unit PlanValidationError :=
  let? _ := validate_name (hp_name p) "plan name" in
  if MAX_FLOORS <? count (hp_floors p) then Err (TooManyFloors (count (hp_floors p))) else try_each validate_floor (hp_floors p).
End Validate.

Inductive Mounting := MountWall | MountCeiling | MountFloor | MountShelf.
Record OwnerPlacement := {
  pl_placement_id : PlacementId; pl_device_id : DeviceId; pl_floor_id : FloorId; pl_x : f64; pl_y : f64; pl_height_m : option f64;
  pl_mounting : option Mounting }.
Record LocationEstimate := {
  le_device_id : DeviceId; le_floor_id : option FloorId; le_room_id : option RoomId; le_confidence : f32; le_evidence : list string;
  le_estimated_at : DateTime }.
Inductive EffectiveLocation :=
  | LocatedByOwner (p : OwnerPlacement)
  | Estimated (floor_id : option FloorId) (room_id : option RoomId) (confidence : f32)
  | Uncertain.
Definition effective_location (owner : option OwnerPlacement) (estimate : option LocationEstimate) : EffectiveLocation :=
  match owner with
  | Some p => LocatedByOwner p
  | None =>
    match estimate with
    | Some e => if f32_le UNCERTAIN_CONFIDENCE_THRESHOLD (le_confidence e) then Estimated (le_floor_id e) (le_room_id e) (le_confidence e) else Uncertain
    | None => Uncertain
    end
  end.
Record HomeChanged := { hc_home_id : HomeId; hc_version : Z; hc_summary : string }.

(** ** The repository *)
Definition MAX_DRAFT_BYTES : Z := 524288.
Definition MAX_PLAN_BYTES : Z := 1048576.
Definition PLAN_HISTORY_KEEP : Z := 100.
Definition MAX_ESTIMATE_EVIDENCE : Z := 32.
Definition MAX_EVIDENCE_ENTRY_CHARS : nat := 128.
Definition MAX_PLACEMENT_HEIGHT_M : f64 := f64_of_Z 6.

(** The library code that the repository calls; what is written reads back, of plans only those that
    the theorems name. *)
Class HomeLibs := {
  #[global] home_libm :: Libm;
  uuid_text : N -> string;
  uuid_parse : string -> option N;
  uuid_reads_back : forall u, uuid_parse (uuid_text u) = Some u;
  plan_to_json : HomePlan -> string;
  plan_from_json : string -> option HomePlan;
  evidence_to_json : list string -> string;
  evidence_from_json : string -> option (list string);
  evidence_reads_back : forall l, evidence_from_json (evidence_to_json l) = Some l;
  is_json : string -> bool;
  nanos_text : DateTime -> string;
  nanos_parse : string -> option DateTime;
  nanos_reads_back : forall t, nanos_parse (nanos_text t) = Some t
}.

Record PlanRow := { pw_home_id : string; pw_version : Z; pw_plan : string; pw_saved_at : string }.
Record PlacementRow := { rp_placement_id : string; rp_floor_id : string; rp_x : f64; rp_y : f64; rp_height_m : option f64; rp_mounting : option string }.
Record EstimateRow := { re_floor_id : option string; re_room_id : option string; re_confidence : f64; re_evidence : string; re_estimated_at : string }.
Record HomeDb := {
  hd_plan : option PlanRow;
  hd_history : gmap (string * Z) (string * string);
  hd_drafts : gmap string (string * string);
  hd_placements : gmap string PlacementRow;
  hd_estimates : gmap string EstimateRow }.

Record LoadedPlan := { lp_plan : HomePlan; lp_recovered_from_history : bool }.
Inductive HomeStoreError :=
  | VersionConflict (expected actual : Z) | InvalidPlan (e : PlanValidationError) | InvalidHome | DraftTooLarge | DraftCorrupt | CorruptHome | StorageFailed.

Section Repository.
Context `{HomeLibs}.

(** Years 1970 to 9999. *)
Definition home_encode_time (t : DateTime) : option string := if (0 <=? t) && (t <? seconds 253402300800) then Some (nanos_text t) else None.
Definition home_decode_time (s : string) : result DateTime HomeStoreError :=
  let? parsed := ok_or (nanos_parse s) CorruptHome in
  if bool_decide (home_encode_time parsed = Some s) then Ok parsed else Err CorruptHome.
Definition decode_id (s : string) : result N HomeStoreError :=
  let? u := ok_or (uuid_parse s) CorruptHome in
  if bool_decide (uuid_text u = s) then Ok u else Err CorruptHome.
Definition decode_confidence (v : f64) : result f32 HomeStoreError :=
  if f64_is_finite v && f64_within f64_zero f64_one v then Ok (f32_of_f64 v) else Err CorruptHome.
Definition mounting_string (m : Mounting) : string :=
  match m with MountWall => "wall" | MountCeiling => "ceiling" | MountFloor => "floor" | MountShelf => "shelf" end.
Definition decode_mounting (s : string) : result Mounting HomeStoreError :=
  if bool_decide (s = "wall"%string) then Ok MountWall
  else if bool_decide (s = "ceiling"%string) then Ok MountCeiling
  else if bool_decide (s = "floor"%string) then Ok MountFloor
  else if bool_decide (s = "shelf"%string) then Ok MountShelf
  else Err CorruptHome.

Definition with_version (v : Z) (p : HomePlan) : HomePlan := {| hp_home_id := hp_home_id p; hp_version := v; hp_name := hp_name p; hp_floors := hp_floors p |}.
Definition decode_plan (json : string) (home_id : HomeId) (version : Z) (require_version_match : bool) : option HomePlan :=
  match plan_from_json json with
  | None => None
  | Some plan =>
    if negb (bool_decide (hp_home_id plan = home_id)) then None
    else if require_version_match && negb (hp_version plan =? version) then None
    else match plan_validate plan with Err _ => None | Ok _ => Some (with_version version plan) end
  end.

(** [SELECT plan ... WHERE home_id = ? ORDER BY version DESC LIMIT ?] *)
Definition history_of (home_id : string) (db : HomeDb) : list string :=
  map snd (take (Z.to_nat PLAN_HISTORY_KEEP)
    (in_order (fun a b => Z.compare b a)
      (omap (fun '((h, v), (plan, _)) => if bool_decide (h = home_id) then Some (v, plan) else None) (map_to_list (hd_history db))))).
Fixpoint first_decoded (l : list string) (home_id : HomeId) (version : Z) : option HomePlan :=
  match l with
  | [] => None
  | json :: l' => match decode_plan json home_id version false with Some p => Some p | None => first_decoded l' home_id version end
  end.
Definition load_plan (db : HomeDb) : result (option LoadedPlan) HomeStoreError :=
  match hd_plan db with
  | None => Ok None
  | Some row =>
    let? home_id := decode_id (pw_home_id row) in
    if (pw_version row <? 0) || (u32_max <? pw_version row) then Err CorruptHome
    else match decode_plan (pw_plan row) home_id (pw_version row) true with
         | Some plan => Ok (Some {| lp_plan := plan; lp_recovered_from_history := false |})
         | None =>
           match first_decoded (history_of (pw_home_id row) db) home_id (pw_version row) with
           | Some plan => Ok (Some {| lp_plan := plan; lp_recovered_from_history := true |})
           | None => Err CorruptHome
           end
         end
  end.

(** [DELETE FROM home_plan_history WHERE version <= ?] *)
Definition prune_history (below : Z) (h : gmap (string * Z) (string * string)) : gmap (string * Z) (string * string) :=
  if 0 <? below then filter (fun '((_, v), _) => below < v) h else h.
Definition current_version (db : HomeDb) : result Z HomeStoreError :=
  match hd_plan db with
  | Some row => if (pw_version row <? 0) || (u32_max <? pw_version row) then Err CorruptHome else Ok (pw_version row)
  | None => Ok 0
  end.
(** The transaction, once the row is encoded. *)
Definition commit_plan (row : PlanRow) (db : HomeDb) : result HomeDb HomeStoreError :=
  match hd_history db !! (pw_home_id row, pw_version row) with
  | Some _ => Err StorageFailed
  | None =>
    Ok {| hd_plan := Some row;
          hd_history := prune_history (pw_version row - PLAN_HISTORY_KEEP) (<[(pw_home_id row, pw_version row) := (pw_plan row, pw_saved_at row)]> (hd_history db));
          hd_drafts := hd_drafts db; hd_placements := hd_placements db; hd_estimates := hd_estimates db |}
  end.
Definition save_plan (expected_version : Z) (plan : HomePlan) (now : DateTime) (db : HomeDb) : result Z HomeStoreError * HomeDb :=
  match
    let? _ := map_err InvalidPlan (plan_validate plan) in
    let? saved_at := ok_or (home_encode_time now) InvalidHome in
    if u32_max <? expected_version + 1 then Err InvalidHome
    else
      let new_version := expected_version + 1 in
      let json := plan_to_json (with_version new_version plan) in
      if MAX_PLAN_BYTES <? str_len json then Err InvalidHome
      else
        let? actual := current_version db in
        if negb (actual =? expected_version) then Err (VersionConflict expected_version actual)
        else
          let? db' := commit_plan {| pw_home_id := uuid_text (hp_home_id plan); pw_version := new_version; pw_plan := json; pw_saved_at := saved_at |} db in
          Ok (new_version, db')
  with
  | Ok (v, db') => (Ok v, db')
  | Err e => (Err e, db)
  end.

Definition with_drafts (d : gmap string (string * string)) (db : HomeDb) : HomeDb := {|
  hd_plan := hd_plan db; hd_history := hd_history db; hd_drafts := d; hd_placements := hd_placements db; hd_estimates := hd_estimates db |}.
Definition put_draft (home_id : HomeId) (draft : string) (now : DateTime) (db : HomeDb) : result unit HomeStoreError * HomeDb :=
  if MAX_DRAFT_BYTES <? str_len draft then (Err DraftTooLarge, db)
  else if negb (is_json draft) then (Err InvalidHome, db)
  else match home_encode_time now with
       | None => (Err InvalidHome, db)
       | Some updated_at => (Ok tt, with_drafts (<[uuid_text home_id := (draft, updated_at)]> (hd_drafts db)) db)
       end.
Definition get_draft (home_id : HomeId) (db : HomeDb) : result (option string) HomeStoreError * HomeDb :=
  match hd_drafts db !! uuid_text home_id with
  | None => (Ok None, db)
  | Some (draft, _) =>
    if negb (is_json draft) then (Err DraftCorrupt, with_drafts (delete (uuid_text home_id) (hd_drafts db)) db)
    else (Ok (Some draft), db)
  end.
Definition delete_draft (home_id : HomeId) (db : HomeDb) : result bool HomeStoreError * HomeDb :=
  (Ok (bool_decide (is_Some (hd_drafts db !! uuid_text home_id))), with_drafts (delete (uuid_text home_id) (hd_drafts db)) db).

Definition height_ok (h : option f64) : bool :=
  match h with None => true | Some h => f64_is_finite h && f64_within f64_zero MAX_PLACEMENT_HEIGHT_M h end.
Definition with_placements (p : gmap string PlacementRow) (db : HomeDb) : HomeDb := {|
  hd_plan := hd_plan db; hd_history := hd_history db; hd_drafts := hd_drafts db; hd_placements := p; hd_estimates := hd_estimates db |}.
Definition placement_row (v : OwnerPlacement) : PlacementRow := {|
  rp_placement_id := uuid_text (pl_placement_id v); rp_floor_id := uuid_text (pl_floor_id v); rp_x := real_column (pl_x v); rp_y := real_column (pl_y v);
  rp_height_m := option_map real_column (pl_height_m v); rp_mounting := option_map mounting_string (pl_mounting v) |}.
Definition upsert_placement (v : OwnerPlacement) (db : HomeDb) : result unit HomeStoreError * HomeDb :=
  if negb (coordinate_ok (pl_x v)) || negb (coordinate_ok (pl_y v)) then (Err InvalidHome, db)
  else if negb (height_ok (pl_height_m v)) then (Err InvalidHome, db)
  else (Ok tt, with_placements (<[uuid_text (pl_device_id v) := placement_row v]> (hd_placements db)) db).
Definition delete_placement (device_id : DeviceId) (db : HomeDb) : result bool HomeStoreError * HomeDb :=
  (Ok (bool_decide (is_Some (hd_placements db !! uuid_text device_id))), with_placements (delete (uuid_text device_id) (hd_placements db)) db).

(** [into_iter().map(f).collect()] into a [Result] *)
Fixpoint collect_rows {A B} (f : A -> result B HomeStoreError) (l : list A) : result (list B) HomeStoreError :=
  match l with [] => Ok [] | x :: l' => let? y := f x in let? ys := collect_rows f l' in Ok (y :: ys) end.
(** [map(f).transpose()] on an optional column *)
Definition decode_opt {A B} (f : A -> result B HomeStoreError) (o : option A) : result (option B) HomeStoreError :=
  match o with None => Ok None | Some a => let? b := f a in Ok (Some b) end.
Definition decode_placement (r : string * PlacementRow) : result OwnerPlacement HomeStoreError :=
  let '(device_id, r) := r in
  if negb (coordinate_ok (rp_x r)) || negb (coordinate_ok (rp_y r)) then Err CorruptHome
  else if negb (height_ok (rp_height_m r)) then Err CorruptHome
  else
    let? placement := decode_id (rp_placement_id r) in
    let? device := decode_id device_id in
    let? floor := decode_id (rp_floor_id r) in
    let? mounting := decode_opt decode_mounting (rp_mounting r) in
    Ok {| pl_placement_id := placement; pl_device_id := device; pl_floor_id := floor; pl_x := rp_x r; pl_y := rp_y r;
          pl_height_m := rp_height_m r; pl_mounting := mounting |}.
Definition list_placements (db : HomeDb) : result (list OwnerPlacement) HomeStoreError :=
  collect_rows decode_placement (in_order String.compare (map_to_list (hd_placements db))).

Definition evidence_ok (l : list string) : bool :=
  (count l <=? MAX_ESTIMATE_EVIDENCE) && forallb (fun e => Nat.leb 1 (char_count e) && Nat.leb (char_count e) MAX_EVIDENCE_ENTRY_CHARS) l.
Definition with_estimates (e : gmap string EstimateRow) (db : HomeDb) : HomeDb := {|
  hd_plan := hd_plan db; hd_history := hd_history db; hd_drafts := hd_drafts db; hd_placements := hd_placements db; hd_estimates := e |}.
(** [CHECK(length(evidence) <= 8192)] of the table. *)
Definition EVIDENCE_COLUMN_CHARS : nat := Z.to_nat 8192.
Definition upsert_estimate (v : LocationEstimate) (db : HomeDb) : result unit HomeStoreError * HomeDb :=
  if negb (f32_is_finite (le_confidence v) && f32_unit_interval (le_confidence v)) then (Err InvalidHome, db)
  else if negb (evidence_ok (le_evidence v)) then (Err InvalidHome, db)
  else match home_encode_time (le_estimated_at v) with
       | None => (Err InvalidHome, db)
       | Some estimated_at =>
         if Nat.ltb EVIDENCE_COLUMN_CHARS (char_count (evidence_to_json (le_evidence v))) then (Err StorageFailed, db)
         else (Ok tt, with_estimates (<[uuid_text (le_device_id v) := {|
                 re_floor_id := option_map uuid_text (le_floor_id v); re_room_id := option_map uuid_text (le_room_id v);
                 re_confidence := real_column (f64_of_f32 (le_confidence v)); re_evidence := evidence_to_json (le_evidence v);
                 re_estimated_at := estimated_at |}]> (hd_estimates db)) db)
       end.
Definition decode_estimate (r : string * EstimateRow) : result LocationEstimate HomeStoreError :=
  let '(device_id, r) := r in
  let? evidence := ok_or (evidence_from_json (re_evidence r)) CorruptHome in
  if negb (evidence_ok evidence) then Err CorruptHome
  else
    let? device := decode_id device_id in
    let? floor := decode_opt decode_id (re_floor_id r) in
    let? room := decode_opt decode_id (re_room_id r) in
    let? confidence := decode_confidence (re_confidence r) in
    let? estimated_at := home_decode_time (re_estimated_at r) in
    Ok {| le_device_id := device; le_floor_id := floor; le_room_id := room; le_confidence := confidence; le_evidence := evidence;
          le_estimated_at := estimated_at |}.
Definition list_estimates (db : HomeDb) : result (list LocationEstimate) HomeStoreError :=
  collect_rows decode_estimate (in_order String.compare (map_to_list (hd_estimates db))).
End Repository.

(** ** The routes *)
Record HomeSnapshot := { hs_plan : HomePlan; hs_placements : list OwnerPlacement; hs_estimates : list LocationEstimate; hs_recovered : bool }.
Record SavePlanRequest := { sp_expected_version : Z; sp_plan : HomePlan }.
Record PlacementRequest := { pq_placement_id : option PlacementId; pq_floor_id : FloorId; pq_x : f64; pq_y : f64; pq_height_m : option f64; pq_mounting : option Mounting }.
(** A status with an empty body, or a body; a rejected plan keeps its reason, which the body shows as text. *)
Inductive HomeResponse :=
  | HomeStatus (code : Z)
  | SnapshotBody (s : HomeSnapshot)
  | SavePlanResponse (version : Z)
  | PlanVersionConflict (actual_version : Z)
  | PlanRejected (error : PlanValidationError)
  | PlacementBody (p : OwnerPlacement)
  | DraftBody (draft : string)
  | DraftCorruptBody.
Definition home_status (r : HomeResponse) : Z :=
  match r with
  | HomeStatus c => c
  | PlanVersionConflict _ => 409
  | PlanRejected _ => 400
  | _ => 200
  end.

Definition unset_home_id : HomeId := 0%N.
Definition default_plan : HomePlan := {| hp_home_id := unset_home_id; hp_version := 0; hp_name := "Home"; hp_floors := [] |}.
Definition storage_status (e : HomeStoreError) : HomeResponse :=
  HomeStatus match e with
  | VersionConflict _ _ => 409
  | InvalidPlan _ | InvalidHome => 400
  | DraftTooLarge => 413
  | DraftCorrupt | CorruptHome | StorageFailed => 503
  end.

Section Routes.
Context `{HomeLibs} {EventPayload : Type}.
(** [EventPayload::HomeChanged] *)
Context (home_changed : HomeChanged -> EventPayload).

Record HomeService := { sv_db : HomeDb; sv_events : @EventBus EventPayload }.
Definition with_home (db : HomeDb) (s : HomeService) : HomeService := {| sv_db := db; sv_events := sv_events s |}.

Definition home_current_plan (db : HomeDb) : result (HomePlan * bool) HomeStoreError :=
  let? loaded := load_plan db in
  match loaded with Some l => Ok (lp_plan l, lp_recovered_from_history l) | None => Ok (default_plan, false) end.
(** [None] is the panic of an exhausted sequence. *)
Definition publish_home_changed (home_id : HomeId) (version : Z) (summary : string) (now : DateTime) (s : HomeService) : option HomeService :=
  option_map (fun '(_, bus) => {| sv_db := sv_db s; sv_events := bus |})
    (publish (sv_events s) now (home_changed {| hc_home_id := home_id; hc_version := version; hc_summary := summary |})).
Definition parse_canonical_device_id (value : string) : option DeviceId :=
  match uuid_parse value with Some d => if bool_decide (uuid_text d = value) then Some d else None | None => None end.

Definition home_snapshot (db : HomeDb) : HomeResponse :=
  match home_current_plan db with
  | Err e => storage_status e
  | Ok (plan, recovered) =>
    match list_placements db with
    | Err e => storage_status e
    | Ok placements =>
      match list_estimates db with
      | Err e => storage_status e
      | Ok estimates => SnapshotBody {| hs_plan := plan; hs_placements := placements; hs_estimates := estimates; hs_recovered := recovered |}
      end
    end
  end.

Definition save_plan_route (body : option SavePlanRequest) (now : DateTime) (s : HomeService) : option (HomeResponse * HomeService) :=
  match body with
  | None => Some (HomeStatus 400, s)
  | Some request =>
    match plan_validate (sp_plan request) with
    | Err reason => Some (PlanRejected reason, s)
    | Ok _ =>
      let '(saved, db) := save_plan (sp_expected_version request) (sp_plan request) now (sv_db s) in
      match saved with
      | Ok version => option_map (pair (SavePlanResponse version)) (publish_home_changed (hp_home_id (sp_plan request)) version "plan saved" now (with_home db s))
      | Err (VersionConflict _ actual) => Some (PlanVersionConflict actual, with_home db s)
      | Err (InvalidPlan reason) => Some (PlanRejected reason, with_home db s)
      | Err e => Some (storage_status e, with_home db s)
      end
    end
  end.

Definition emit_placement_change (summary : string) (now : DateTime) (s : HomeService) : option HomeService :=
  match home_current_plan (sv_db s) with
  | Ok (plan, _) => publish_home_changed (hp_home_id plan) (hp_version plan) summary now s
  | Err _ => Some s
  end.
(** [fresh] is the identifier that [PlacementId::default] draws. *)
Definition upsert_placement_route (path : option string) (body : option PlacementRequest) (fresh : PlacementId) (now : DateTime) (s : HomeService)
  : option (HomeResponse * HomeService) :=
  match path, body with
  | Some device_id, Some request =>
    match parse_canonical_device_id device_id with
    | None => Some (HomeStatus 400, s)
    | Some device_id =>
      let placement := {| pl_placement_id := default fresh (pq_placement_id request); pl_device_id := device_id; pl_floor_id := pq_floor_id request;
                          pl_x := pq_x request; pl_y := pq_y request; pl_height_m := pq_height_m request; pl_mounting := pq_mounting request |} in
      match upsert_placement placement (sv_db s) with
      | (Ok _, db) => option_map (pair (PlacementBody placement)) (emit_placement_change "placement updated" now (with_home db s))
      | (Err e, db) => Some (storage_status e, with_home db s)
      end
    end
  | _, _ => Some (HomeStatus 400, s)
  end.
Definition delete_placement_route (path : option string) (now : DateTime) (s : HomeService) : option (HomeResponse * HomeService) :=
  match path with
  | None => Some (HomeStatus 400, s)
  | Some device_id =>
    match parse_canonical_device_id device_id with
    | None => Some (HomeStatus 400, s)
    | Some device_id =>
      match delete_placement device_id (sv_db s) with
      | (Ok removed, db) =>
        if removed then option_map (pair (HomeStatus 204)) (emit_placement_change "placement removed" now (with_home db s))
        else Some (HomeStatus 204, with_home db s)
      | (Err e, db) => Some (storage_status e, with_home db s)
      end
    end
  end.

Definition get_draft_route (s : HomeService) : HomeResponse * HomeService :=
  match home_current_plan (sv_db s) with
  | Err e => (storage_status e, s)
  | Ok (plan, _) =>
    match get_draft (hp_home_id plan) (sv_db s) with
    | (Ok (Some draft), db) => (DraftBody draft, with_home db s)
    | (Ok None, db) => (HomeStatus 204, with_home db s)
    | (Err DraftCorrupt, db) => (DraftCorruptBody, with_home db s)
    | (Err e, db) => (storage_status e, with_home db s)
    end
  end.
Definition put_draft_route (body : option bytes) (now : DateTime) (s : HomeService) : HomeResponse * HomeService :=
  match body with
  | None => (HomeStatus 413, s)
  | Some body =>
    if MAX_DRAFT_BYTES <? count body then (HomeStatus 413, s)
    else match from_utf8 body with
    | None => (HomeStatus 400, s)
    | Some draft =>
      match home_current_plan (sv_db s) with
      | Err e => (storage_status e, s)
      | Ok (plan, _) =>
        match put_draft (hp_home_id plan) draft now (sv_db s) with
        | (Ok _, db) => (HomeStatus 204, with_home db s)
        | (Err e, db) => (storage_status e, with_home db s)
        end
      end
    end
  end.
Definition delete_draft_route (s : HomeService) : HomeResponse * HomeService :=
  match home_current_plan (sv_db s) with
  | Err e => (storage_status e, s)
  | Ok (plan, _) =>
    match delete_draft (hp_home_id plan) (sv_db s) with
    | (Ok _, db) => (HomeStatus 204, with_home db s)
    | (Err e, db) => (storage_status e, with_home db s)
    end
  end.
End Routes.
