(* ===== verification/HomeProps.v ===== *)
(** * The home plan: theorems

    Plan validation against its declarative reading; the invariant of the databases that the
    repository can reach (the history holds exactly the last hundred versions); optimistic
    concurrency, load after save and the recovery of a damaged plan; owner placements as a map that
    only the owner's operations change; the routes and the events that they publish. *)

From S2P Require Import Prelude Time Text F32 F64 Order Bytes Domain EventBus Wire Home.
From Stdlib Require Import SpecFloat.

(** ** Validation *)
Lemma try_each_ok {A E} (f : A -> result unit E) l : try_each f l = Ok tt <-> Forall (fun x => f x = Ok tt) l.
Proof.
  induction l as [|x l IH]; simpl; [split; [constructor|done]|]. rewrite Forall_cons, <- IH.
  destruct (f x) as [[]|e]; simpl; naive_solver.
Qed.

(** The first element that fails decides the error. *)
Lemma try_each_err {A E} (f : A -> result unit E) l e :
  try_each f l = Err e <-> exists l1 x l2, l = l1 ++ x :: l2 /\ Forall (fun x => f x = Ok tt) l1 /\ f x = Err e.
Proof.
  induction l as [|x l IH]; simpl; [split; [done|intros ([] & ? & ? & ? & _); done]|]. destruct (f x) as [[]|e'] eqn:Ef; simpl.
  - rewrite IH. split.
    + intros (l1 & y & l2 & -> & H1 & H2). exists (x :: l1), y, l2. by rewrite Forall_cons.
    + intros ([|z l1] & y & l2 & [= -> ->] & H1 & H2); [congruence|]. apply Forall_cons in H1 as [_ H1]. by exists l1, y, l2.
  - split.
    + intros [= ->]. by exists [], x, l.
    + intros ([|z l1] & y & l2 & [= -> ->] & H1 & H2); [congruence|]. apply Forall_cons in H1 as [H1 _]. congruence.
Qed.

Definition name_ok (s : string) : Prop := (1 <= char_count s <= 128)%nat.
Definition coordinate_in (c : f64) : Prop := f64_le (f64_neg MAX_COORDINATE_M) c = true /\ f64_le c MAX_COORDINATE_M = true.
Definition point_ok (p : Point) : Prop := coordinate_in (pt_x p) /\ coordinate_in (pt_y p).
Definition room_ok (r : Room) : Prop := name_ok (rm_name r) /\ (3 <= length (rm_polygon r))%nat /\ Forall point_ok (rm_polygon r).

Section Declarative.
Context `{Libm}.
Definition opening_ok (w : Wall) (o : Opening) : Prop :=
  f64_is_finite (op_offset_m o) = true /\ f64_is_finite (op_width_m o) = true /\ f64_le f64_zero (op_offset_m o) = true /\
  f64_lt f64_zero (op_width_m o) = true /\ f64_le (f64_plus (op_offset_m o) (op_width_m o)) (length_m w) = true.
Definition wall_ok (w : Wall) : Prop :=
  point_ok (wl_start w) /\ point_ok (wl_end w) /\ f64_le (length_m w) f64_zero = false /\ Forall (opening_ok w) (wl_openings w).
Definition floor_ok (f : Floor) : Prop :=
  name_ok (fl_name f) /\ f64_le MIN_CEILING_HEIGHT_M (fl_ceiling_height_m f) = true /\ f64_le (fl_ceiling_height_m f) MAX_CEILING_HEIGHT_M = true /\
  (length (fl_walls f) <= 4096)%nat /\ (length (fl_rooms f) <= 1024)%nat /\ Forall wall_ok (fl_walls f) /\ Forall room_ok (fl_rooms f).
Definition plan_ok (p : HomePlan) : Prop := name_ok (hp_name p) /\ (length (hp_floors p) <= 64)%nat /\ Forall floor_ok (hp_floors p).
End Declarative.

(** A value between two finite values is finite. *)
Lemma f64_between_finite a b x : f64_is_finite a = true -> f64_is_finite b = true -> f64_le a x = true -> f64_le x b = true -> f64_is_finite x = true.
Proof. unfold f64_le, SFleb. destruct a as [|[]| |], b as [|[]| |], x as [|[]| |]; simpl; try done. Qed.

Lemma coordinate_ok_iff c : coordinate_ok c = true <-> coordinate_in c.
Proof.
  unfold coordinate_ok, f64_within, coordinate_in. rewrite !andb_true_iff. split; [tauto|]. intros [H1 H2]. split; [|done].
  by apply (f64_between_finite (f64_neg MAX_COORDINATE_M) MAX_COORDINATE_M).
Qed.

Lemma validate_name_ok s what : validate_name s what = Ok tt <-> name_ok s.
Proof.
  unfold validate_name, name_ok, MIN_NAME_CHARS, MAX_NAME_CHARS. case_match eqn:E; split; try done; intros.
  - rewrite andb_true_iff, !Nat.leb_le in E. done.
  - rewrite andb_false_iff, !Nat.leb_gt in E. lia.
Qed.
Lemma validate_point_ok p what : validate_point p what = Ok tt <-> point_ok p.
Proof.
  unfold validate_point, point_ok. rewrite <- !coordinate_ok_iff. destruct (coordinate_ok (pt_x p)), (coordinate_ok (pt_y p)); simpl; naive_solver.
Qed.
Lemma check_then_ok {E} (b : bool) (e : E) (r : result unit E) : (if b then Err e else r) = Ok tt <-> b = false /\ r = Ok tt.
Proof. destruct b; naive_solver. Qed.
Lemma bind_unit_ok {E} (c r : result unit E) : result_bind c (fun _ => r) = Ok tt <-> c = Ok tt /\ r = Ok tt.
Proof. destruct c as [[]|]; simpl; naive_solver. Qed.

Lemma validate_room_ok r : validate_room r = Ok tt <-> room_ok r.
Proof.
  unfold validate_room, room_ok. rewrite bind_unit_ok, check_then_ok, try_each_ok, validate_name_ok.
  rewrite (Forall_iff _ _ point_ok) by (intros; apply validate_point_ok). unfold count. rewrite Z.ltb_ge. intuition lia.
Qed.

Section Validation.
Context `{Libm}.
Lemma opening_fits_ok w o : (if opening_fits (length_m w) o then Ok tt else Err (OpeningOutOfBounds (wl_wall_id w) (op_opening_id o))) = Ok tt <-> opening_ok w o.
Proof.
  unfold opening_ok. destruct (opening_fits (length_m w) o) eqn:E; unfold opening_fits in E.
  - rewrite !andb_true_iff in E. tauto.
  - split; [done|]. intros (H1 & H2 & H3 & H4 & H5). by rewrite H1, H2, H3, H4, H5 in E.
Qed.
Lemma validate_wall_ok w : validate_wall w = Ok tt <-> wall_ok w.
Proof.
  unfold validate_wall, wall_ok. rewrite !bind_unit_ok, check_then_ok, try_each_ok, !validate_point_ok.
  rewrite (Forall_iff _ _ (opening_ok w)) by (intros; apply opening_fits_ok). done.
Qed.
Lemma validate_floor_ok f : validate_floor f = Ok tt <-> floor_ok f.
Proof.
  unfold validate_floor, floor_ok. rewrite bind_unit_ok, !check_then_ok, bind_unit_ok, !try_each_ok, validate_name_ok.
  rewrite (Forall_iff _ _ wall_ok) by (intros; apply validate_wall_ok). rewrite (Forall_iff _ _ room_ok) by (intros; apply validate_room_ok).
  unfold f64_within. rewrite negb_false_iff, andb_true_iff, !Z.ltb_ge. unfold count, MAX_WALLS_PER_FLOOR, MAX_ROOMS_PER_FLOOR. intuition lia.
Qed.

(** Every float of a plan. *)
Definition point_floats (p : Point) : list f64 := [pt_x p; pt_y p].
Definition wall_floats (w : Wall) : list f64 :=
  point_floats (wl_start w) ++ point_floats (wl_end w) ++ (wl_openings w ≫= fun o => [op_offset_m o; op_width_m o]).
Definition floor_floats (f : Floor) : list f64 :=
  fl_ceiling_height_m f :: (fl_walls f ≫= wall_floats) ++ (fl_rooms f ≫= fun r => rm_polygon r ≫= point_floats).
Definition plan_floats (p : HomePlan) : list f64 := hp_floors p ≫= floor_floats.

Lemma Forall_bind_in {A B} (P : A -> Prop) (Q : B -> Prop) (f : A -> list B) l :
  (forall x, P x -> Forall Q (f x)) -> Forall P l -> Forall Q (l ≫= f).
Proof. intros Hf Hl. apply Forall_bind. eapply Forall_impl; [exact Hl|done]. Qed.
Definition finite (x : f64) : Prop := f64_is_finite x = true.
Lemma coordinate_finite c : coordinate_in c -> finite c.
Proof. intros [H1 H2]. by apply (f64_between_finite (f64_neg MAX_COORDINATE_M) MAX_COORDINATE_M). Qed.
Lemma point_finite p : point_ok p -> Forall finite (point_floats p).
Proof. intros [H1 H2]. repeat (apply Forall_cons; split; [by apply coordinate_finite|]). by apply Forall_nil_2. Qed.
Lemma wall_finite w : wall_ok w -> Forall finite (wall_floats w).
Proof.
  intros (Hs & He & _ & Ho). unfold wall_floats. rewrite !Forall_app. split_and!; [by apply point_finite|by apply point_finite|].
  revert Ho. apply Forall_bind_in. intros o (H1 & H2 & _). by repeat (apply Forall_cons; split); try apply Forall_nil_2.
Qed.
Lemma floor_finite f : floor_ok f -> Forall finite (floor_floats f).
Proof.
  intros (_ & H1 & H2 & _ & _ & Hw & Hr). unfold floor_floats. rewrite Forall_cons, Forall_app. split_and!.
  - by apply (f64_between_finite MIN_CEILING_HEIGHT_M MAX_CEILING_HEIGHT_M).
  - by apply (Forall_bind_in wall_ok); [apply wall_finite|].
  - apply (Forall_bind_in room_ok); [|done]. intros r (_ & _ & Hp). by apply (Forall_bind_in point_ok); [apply point_finite|].
Qed.

Lemma plan_validate_ok p : plan_validate p = Ok tt <-> plan_ok p.
Proof.
  unfold plan_validate, plan_ok. rewrite bind_unit_ok, check_then_ok, try_each_ok, validate_name_ok.
  rewrite (Forall_iff _ _ floor_ok) by (intros; apply validate_floor_ok). unfold count, MAX_FLOORS. rewrite Z.ltb_ge. intuition lia.
Qed.

(** Plan validation accepts exactly the plans that the limits describe: names of 1 to 128
    characters, at most 64 floors of 4096 walls and 1024 rooms, ceilings between 1.8 and 6 m, every
    coordinate within 1000 m, walls whose length is not zero and whose openings lie within them,
    and rooms of at least three corners. No float of an accepted plan is infinite or NaN, which
    JSON cannot write. *)
Theorem plan_validation_is_declarative p :
  (plan_validate p = Ok tt <-> plan_ok p) /\ ((plan_validate p = Ok tt) -> Forall finite (plan_floats p)).
Proof.
  split; [apply plan_validate_ok|]. intros (_ & _ & Hf)%plan_validate_ok. by apply (Forall_bind_in floor_ok); [apply floor_finite|].
Qed.
End Validation.

(** ** Reachable databases *)
Definition home_empty : HomeDb := {| hd_plan := None; hd_history := ∅; hd_drafts := ∅; hd_placements := ∅; hd_estimates := ∅ |}.
Inductive HomeOp :=
  | SavePlan (expected : Z) (plan : HomePlan) (now : DateTime)
  | PutDraft (home : HomeId) (draft : string) (now : DateTime)
  | GetDraft (home : HomeId)
  | DeleteDraft (home : HomeId)
  | UpsertPlacement (p : OwnerPlacement)
  | DeletePlacement (d : DeviceId)
  | UpsertEstimate (e : LocationEstimate).

(** The oldest version that the history no longer holds. *)
Definition history_floor (version : Z) : Z := Z.max 0 (version - PLAN_HISTORY_KEEP).
Definition versions_of (h : gmap (string * Z) (string * string)) : list Z := map (fun kv => snd (fst kv)) (map_to_list h).

Section Reachable.
Context `{HomeLibs}.
Definition home_step (op : HomeOp) (db : HomeDb) : HomeDb :=
  match op with
  | SavePlan e p now => snd (save_plan e p now db)
  | PutDraft h d now => snd (put_draft h d now db)
  | GetDraft h => snd (get_draft h db)
  | DeleteDraft h => snd (delete_draft h db)
  | UpsertPlacement p => snd (upsert_placement p db)
  | DeletePlacement d => snd (delete_placement d db)
  | UpsertEstimate e => snd (upsert_estimate e db)
  end.
Definition home_run (ops : list HomeOp) (db : HomeDb) : HomeDb := fold_left (fun db op => home_step op db) ops db.

Record plan_inv (row : PlanRow) (h : gmap (string * Z) (string * string)) : Prop := {
  pi_version : 1 <= pw_version row <= u32_max;
  pi_current : h !! (pw_home_id row, pw_version row) = Some (pw_plan row, pw_saved_at row);
  pi_range : forall id v r, h !! (id, v) = Some r -> history_floor (pw_version row) < v <= pw_version row;
  pi_full : forall v, history_floor (pw_version row) < v <= pw_version row -> exists id, is_Some (h !! (id, v));
  pi_one : forall id id' v, is_Some (h !! (id, v)) -> is_Some (h !! (id', v)) -> id = id';
  pi_written : exists plan, plan_validate plan = Ok tt /\ pw_home_id row = uuid_text (hp_home_id plan) /\ pw_plan row = plan_to_json (with_version (pw_version row) plan)
}.
Definition home_inv (db : HomeDb) : Prop := match hd_plan db with None => hd_history db = ∅ | Some row => plan_inv row (hd_history db) end.

(** The row that a save writes. *)
Definition saved_row (v : Z) (plan : HomePlan) (at_ : string) : PlanRow :=
  {| pw_home_id := uuid_text (hp_home_id plan); pw_version := v; pw_plan := plan_to_json (with_version v plan); pw_saved_at := at_ |}.
Definition version_of (db : HomeDb) : Z := match hd_plan db with Some row => pw_version row | None => 0 end.

Lemma save_plan_cases e p now db :
  (exists err, save_plan e p now db = (Err err, db)) \/
  (exists at_ db', save_plan e p now db = (Ok (e + 1), db') /\ home_encode_time now = Some at_ /\ plan_validate p = Ok tt /\ e + 1 <= u32_max /\
     str_len (plan_to_json (with_version (e + 1) p)) <= MAX_PLAN_BYTES /\ current_version db = Ok e /\ commit_plan (saved_row (e + 1) p at_) db = Ok db').
Proof.
  unfold save_plan. destruct (plan_validate p) as [[]|]; simpl; [|left; eauto]. destruct (home_encode_time now) as [at_|]; simpl; [|left; eauto].
  destruct (u32_max <? e + 1) eqn:E1; [left; eauto|]. destruct (MAX_PLAN_BYTES <? _) eqn:E2; [left; eauto|].
  destruct (current_version db) as [a|]; simpl; [|left; eauto]. destruct (a =? e) eqn:E3; simpl; [|left; eauto]. destruct (commit_plan _ db) as [db'|] eqn:E4; simpl; [|left; eauto].
  bprop. subst a. right. by exists at_, db'.
Qed.

Lemma plan_inv_insert row h new :
  (match row with None => h = ∅ | Some row => plan_inv row h end) ->
  pw_version new = (match row with Some row => pw_version row | None => 0 end) + 1 -> pw_version new <= u32_max ->
  (exists plan, plan_validate plan = Ok tt /\ pw_home_id new = uuid_text (hp_home_id plan) /\ pw_plan new = plan_to_json (with_version (pw_version new) plan)) ->
  h !! (pw_home_id new, pw_version new) = None /\
  plan_inv new (prune_history (pw_version new - PLAN_HISTORY_KEEP) (<[(pw_home_id new, pw_version new) := (pw_plan new, pw_saved_at new)]> h)).
Proof.
  intros Hinv Hv Hmax Hw. set (old := match row with Some row => pw_version row | None => 0 end) in *.
  assert (0 <= old /\ (forall id v r, h !! (id, v) = Some r -> history_floor old < v <= old) /\ (forall v, history_floor old < v <= old -> exists id, is_Some (h !! (id, v))) /\
    (forall id id' v, is_Some (h !! (id, v)) -> is_Some (h !! (id', v)) -> id = id')) as (H0 & Hr & Hf & Ho).
  { destruct row as [row|]; subst old; [destruct Hinv as [[]]; split; [lia|done]|]. rewrite Hinv. split_and!; [done|..].
    - intros id v r. by rewrite lookup_empty.
    - unfold history_floor, PLAN_HISTORY_KEEP. lia.
    - intros id id' v [r Hr]. by rewrite lookup_empty in Hr. }
  clearbody old. clear Hinv row. assert (forall id, h !! (id, pw_version new) = None) as Hnew.
  { intros id. destruct (h !! (id, pw_version new)) as [r|] eqn:E; [|done]. apply Hr in E. lia. }
  split; [apply Hnew|]. set (h' := <[_ := _]> h).
  assert (forall id v, prune_history (pw_version new - PLAN_HISTORY_KEEP) h' !! (id, v) = if decide (history_floor (pw_version new) < v) then h' !! (id, v) else None) as Hl.
  { intros id v. unfold prune_history. destruct (0 <? _) eqn:E; bprop.
    - destruct (decide _) as [Hd|Hd]; unfold history_floor in Hd.
      + destruct (h' !! (id, v)) as [r|] eqn:El; [|by apply map_lookup_filter_None; left].
        apply map_lookup_filter_Some. split; [done|]. simpl. lia.
      + apply map_lookup_filter_None. right. intros r _. simpl. lia.
    - destruct (decide _) as [Hd|Hd]; [done|]. unfold history_floor in Hd. subst h'. rewrite lookup_insert_ne by (intros [= _ <-]; lia).
      destruct (h !! (id, v)) as [r|] eqn:El; [|done]. apply Hr in El. unfold history_floor in El. lia. }
  split.
  - lia.
  - rewrite Hl. rewrite decide_True by (unfold history_floor, PLAN_HISTORY_KEEP; lia). subst h'. by rewrite lookup_insert_eq.
  - intros id v r. rewrite Hl. case_decide as Hd; [|done]. subst h'. intros [[[= <- <-] _]|[_ El]]%lookup_insert_Some; [lia|]. apply Hr in El. lia.
  - intros v Hv'. destruct (decide (v = pw_version new)) as [->|Hne].
    + exists (pw_home_id new). rewrite Hl, decide_True by lia. subst h'. rewrite lookup_insert_eq. eauto.
    + destruct (Hf v) as [id Hid]; [unfold history_floor, PLAN_HISTORY_KEEP in *; lia|]. exists id. rewrite Hl, decide_True by lia. subst h'.
      rewrite lookup_insert_ne by congruence. done.
  - intros id id' v. rewrite !Hl. case_decide; [|by intros []]. subst h'. intros [r1 E1] [r2 E2].
    apply lookup_insert_Some in E1, E2. destruct E1 as [[[= <- <-] _]|[_ E1]], E2 as [[E2 _]|[_ E2]].
    + by injection E2.
    + by rewrite Hnew in E2.
    + injection E2 as <- <-. by rewrite Hnew in E1.
    + by apply (Ho id id' v); eauto.
  - done.
Qed.

Lemma current_version_ok db : home_inv db -> current_version db = Ok (version_of db).
Proof.
  unfold home_inv, current_version, version_of. destruct (hd_plan db) as [row|]; [|done]. intros []. case_match eqn:E; [|done].
  apply orb_true_iff in E as [E|E]; bprop; lia.
Qed.

(** A reachable database never refuses the row of a save for its key. *)
Lemma commit_plan_inv p at_ db e :
  home_inv db -> current_version db = Ok e -> e + 1 <= u32_max -> plan_validate p = Ok tt ->
  exists db', commit_plan (saved_row (e + 1) p at_) db = Ok db' /\ home_inv db'.
Proof.
  intros Hinv He Hmax Hv. rewrite (current_version_ok _ Hinv) in He. injection He as <-.
  destruct (plan_inv_insert (hd_plan db) (hd_history db) (saved_row (version_of db + 1) p at_)) as [Hn Hi]; [done|done|done|by exists p|].
  unfold commit_plan. rewrite Hn. by eexists.
Qed.

Lemma home_step_inv op db : home_inv db -> home_inv (home_step op db).
Proof.
  intros Hinv. destruct op as [e p now|h d now|h|h|p|d|v]; simpl.
  - destruct (save_plan_cases e p now db) as [[err ->]|(at_ & db' & -> & _ & Hv & Hm & _ & He & Hc)]; simpl; [done|].
    destruct (commit_plan_inv p at_ db e) as (db2 & Hc2 & Hi); try done. congruence.
  - unfold put_draft. by repeat case_match.
  - unfold get_draft. by repeat case_match.
  - done.
  - unfold upsert_placement. by repeat case_match.
  - done.
  - unfold upsert_estimate. by repeat case_match.
Qed.
Lemma home_run_inv ops db : home_inv db -> home_inv (home_run ops db).
Proof. revert db. induction ops as [|op ops IH]; intros db Hi; simpl; [done|]. by apply IH, home_step_inv. Qed.
Lemma home_reached_inv ops : home_inv (home_run ops home_empty).
Proof. by apply home_run_inv. Qed.

Lemma versions_nodup h : (forall id id' v, is_Some (h !! (id, v)) -> is_Some (h !! (id', v)) -> id = id') -> NoDup (versions_of h).
Proof.
  intros Ho. unfold versions_of. apply (NoDup_fmap_2_strong (fun kv : string * Z * (string * string) => snd (fst kv))); [|apply NoDup_map_to_list].
  intros [[id v] r] [[id' v'] r'] Hx Hy. simpl. intros ->. apply elem_of_map_to_list in Hx, Hy.
  assert (id = id') as -> by (eapply Ho; eauto). congruence.
Qed.
Lemma versions_elem h v : v ∈ versions_of h <-> exists id, is_Some (h !! (id, v)).
Proof.
  unfold versions_of. rewrite list_elem_of_fmap. split.
  - intros ([[id v'] r] & -> & Hin). apply elem_of_map_to_list in Hin. simpl. eauto.
  - intros (id & r & Hr). exists ((id, v), r). by rewrite elem_of_map_to_list.
Qed.

(** C22. Whatever is saved, in any order and with any failures, the history holds exactly the last
    hundred versions up to the current one, each once and the current row among them. (The owner
    documentation promises every version.) *)
Theorem history_is_the_last_hundred ops :
  let db := home_run ops home_empty in
  versions_of (hd_history db) ≡ₚ seqZ (history_floor (version_of db) + 1) (Z.min PLAN_HISTORY_KEEP (version_of db)) /\
  (forall row, hd_plan db = Some row -> hd_history db !! (pw_home_id row, pw_version row) = Some (pw_plan row, pw_saved_at row)).
Proof.
  intros db. pose proof (home_reached_inv ops) as Hinv. fold db in Hinv. unfold home_inv, version_of in *.
  destruct (hd_plan db) as [row|].
  - destruct Hinv. split; [|by intros ? [= <-]]. apply NoDup_Permutation; [by apply versions_nodup|apply NoDup_seqZ|].
    intros v. rewrite versions_elem, elem_of_seqZ. unfold history_floor, PLAN_HISTORY_KEEP in *. split.
    + intros (id & r & Hr). apply pi_range0 in Hr. lia.
    + intros. apply pi_full0. lia.
  - rewrite Hinv. split; [|done]. by vm_compute.
Qed.
End Reachable.

(** ** Optimistic concurrency *)
Section Concurrency.
Context `{HomeLibs}.
(** What a save needs beside the version. *)
Definition savable (e : Z) (p : HomePlan) (now : DateTime) : Prop :=
  plan_ok p /\ is_Some (home_encode_time now) /\ e + 1 <= u32_max /\ str_len (plan_to_json (with_version (e + 1) p)) <= MAX_PLAN_BYTES.

Lemma savable_save e p now db : savable e p now ->
  exists at_, save_plan e p now db =
    match (let? actual := current_version db in
           if negb (actual =? e) then Err (VersionConflict e actual) else let? db' := commit_plan (saved_row (e + 1) p at_) db in Ok (e + 1, db')) with
    | Ok (v, db') => (Ok v, db') | Err err => (Err err, db) end.
Proof.
  intros (Hv%plan_validate_ok & [at_ Ht] & Hm & Hl). exists at_. unfold save_plan. rewrite Hv, Ht. simpl.
  rewrite (proj2 (Z.ltb_ge _ _) Hm), (proj2 (Z.ltb_ge _ _) Hl). done.
Qed.

Lemma commit_plan_row row db db' : commit_plan row db = Ok db' -> hd_plan db' = Some row.
Proof. unfold commit_plan. case_match; [done|]. by intros [= <-]. Qed.
Lemma current_version_of db v : current_version db = Ok v -> version_of db = v.
Proof. unfold current_version, version_of. destruct (hd_plan db); [case_match; [done|]|]; by intros [= <-]. Qed.

(** The version never goes back. *)
Lemma home_step_version op db : version_of db <= version_of (home_step op db).
Proof.
  destruct op as [e p now|h d now|h|h|p|d|v]; simpl; [|unfold put_draft, get_draft, upsert_placement, upsert_estimate; by repeat case_match..].
  destruct (save_plan_cases e p now db) as [[err ->]|(at_ & db' & -> & _ & _ & _ & _ & He & Hc)]; simpl; [done|].
  apply current_version_of in He. apply commit_plan_row in Hc. unfold version_of at 2. rewrite Hc. simpl. lia.
Qed.
Lemma home_run_version ops db : version_of db <= version_of (home_run ops db).
Proof. revert db. induction ops as [|op ops IH]; intros db; simpl; [done|]. etrans; [apply home_step_version|apply IH]. Qed.

(** C23. Two writers that started from the same version cannot both win: once a save that expected
    version [e] has committed version [e + 1], then, whatever runs in between, every other save that
    expects [e] fails and changes nothing, and a plan that could otherwise be saved is told the
    current version. *)
Theorem stale_save_is_refused ops0 ops e p1 t1 p2 t2 v db1 :
  save_plan e p1 t1 (home_run ops0 home_empty) = (Ok v, db1) ->
  let db2 := home_run ops db1 in
  v = e + 1 /\ e + 1 <= version_of db2 /\
  exists err, save_plan e p2 t2 db2 = (Err err, db2) /\ (savable e p2 t2 -> err = VersionConflict e (version_of db2)).
Proof.
  intros Hs db2. set (db := home_run ops0 home_empty) in *. assert (home_inv db1) as Hi1.
  { pose proof (home_step_inv (SavePlan e p1 t1) db (home_reached_inv ops0)) as Hi. simpl in Hi. by rewrite Hs in Hi. }
  destruct (save_plan_cases e p1 t1 db) as [[err Hf]|(at_ & db' & Hs' & _ & _ & _ & _ & He & Hc)]; [congruence|].
  assert (v = e + 1 /\ db1 = db') as [-> ->] by (split; congruence). apply commit_plan_row in Hc.
  assert (e + 1 <= version_of db2) as Hge. { etrans; [|apply home_run_version]. unfold version_of. by rewrite Hc. }
  assert (current_version db2 = Ok (version_of db2)) as Hcur by (by apply current_version_ok, home_run_inv).
  split; [done|]. split; [done|]. destruct (save_plan_cases e p2 t2 db2) as [[err Hf]|(? & ? & _ & _ & _ & _ & _ & He2 & _)].
  - exists err. split; [done|]. intros (at2 & Hs2)%(savable_save _ _ _ db2). rewrite Hcur in Hs2. simpl in Hs2.
    rewrite (proj2 (Z.eqb_neq (version_of db2) e)) in Hs2 by lia. simpl in Hs2. congruence.
  - rewrite Hcur in He2. injection He2. lia.
Qed.

Lemma load_current db row q :
  hd_plan db = Some row -> 1 <= pw_version row <= u32_max -> pw_home_id row = uuid_text (hp_home_id q) -> plan_from_json (pw_plan row) = Some q ->
  hp_version q = pw_version row -> plan_validate q = Ok tt ->
  load_plan db = Ok (Some {| lp_plan := with_version (pw_version row) q; lp_recovered_from_history := false |}).
Proof.
  intros Hr Hb Hh Hj Hq Hv. unfold load_plan. rewrite Hr, Hh. unfold decode_id. rewrite uuid_reads_back. simpl. rewrite bool_decide_eq_true_2 by done. simpl.
  rewrite (proj2 (Z.ltb_ge _ _)), (proj2 (Z.ltb_ge _ _)) by lia. simpl. unfold decode_plan. rewrite Hj. rewrite bool_decide_eq_true_2 by done. simpl.
  rewrite (proj2 (Z.eqb_eq _ _) Hq). simpl. by rewrite Hv.
Qed.

Definition is_save (op : HomeOp) : bool := match op with SavePlan _ _ _ => true | _ => false end.
Lemma load_plan_frame db db' : hd_plan db = hd_plan db' -> hd_history db = hd_history db' -> load_plan db = load_plan db'.
Proof. intros H1 H2. unfold load_plan, history_of. by rewrite H1, H2. Qed.
Lemma home_run_frame ops db : forallb (fun op => negb (is_save op)) ops = true -> load_plan (home_run ops db) = load_plan db.
Proof.
  revert db. induction ops as [|op ops IH]; intros db; simpl; [done|]. intros [Hop Hops]%andb_true_iff. rewrite (IH _ Hops). apply load_plan_frame.
  all: destruct op; [done|..]; simpl; unfold put_draft, get_draft, upsert_placement, upsert_estimate; by repeat case_match.
Qed.

(** A save that expects the current version of a reachable database succeeds, whatever the
    history holds, and until the next save the plan that is loaded is the saved one with the new
    version, taken from the current row (for a plan whose JSON reads back). *)
Theorem save_then_load ops0 ops p now :
  let db := home_run ops0 home_empty in let v := version_of db + 1 in
  savable (version_of db) p now -> plan_from_json (plan_to_json (with_version v p)) = Some (with_version v p) ->
  forallb (fun op => negb (is_save op)) ops = true ->
  exists db', save_plan (version_of db) p now db = (Ok v, db') /\
    load_plan (home_run ops db') = Ok (Some {| lp_plan := with_version v p; lp_recovered_from_history := false |}).
Proof.
  intros db v Hs Hj Hops. pose proof (home_reached_inv ops0) as Hi. fold db in Hi. destruct (savable_save _ _ _ db Hs) as [at_ ->].
  destruct Hs as (Hv%plan_validate_ok & _ & Hm & _). rewrite current_version_ok by done. simpl. rewrite Z.eqb_refl. simpl.
  destruct (commit_plan_inv p at_ db (version_of db)) as (db' & Hc & Hi'); [done|by apply current_version_ok|done|done|]. rewrite Hc. simpl. exists db'. split; [done|].
  rewrite home_run_frame by done. apply commit_plan_row in Hc. unfold home_inv in Hi'. rewrite Hc in Hi'.
  by rewrite (load_current db' _ (with_version v p) Hc (pi_version _ _ Hi')).
Qed.
End Concurrency.

(** ** Recovery of a damaged row *)
Lemma newest_first_le {V} (x y : Z * V) : cmp_le (key_cmp (fun a b => Z.compare b a)) x y <-> fst y <= fst x.
Proof. unfold cmp_le, key_cmp. rewrite <- Z.compare_le_iff. done. Qed.
Lemma newest_first_sorted {V} (l : list (Z * V)) : StronglySorted (fun x y => fst y <= fst x) (in_order (fun a b => Z.compare b a) l).
Proof.
  assert (Transitive (cmp_le (key_cmp (V := V) (fun a b => Z.compare b a)))) by (intros x y z; rewrite !newest_first_le; lia).
  assert (Total (cmp_le (key_cmp (V := V) (fun a b => Z.compare b a)))) by (intros x y; rewrite !newest_first_le; lia).
  assert (StronglySorted (cmp_le (key_cmp (fun a b => Z.compare b a))) (in_order (fun a b => Z.compare b a) l)) as Hs.
  { apply Sorted_StronglySorted; [done|]. by apply (Sorted_merge_sort (cmp_le (key_cmp (fun a b => Z.compare b a)))). }
  induction Hs as [|x l' _ IH Hx]; constructor; [done|]. eapply Forall_impl; [exact Hx|]. intros y. by rewrite newest_first_le.
Qed.
(** The entry of the largest key comes first. *)
Lemma newest_first_head {V} (l : list (Z * V)) k a :
  (k, a) ∈ l -> (forall k' a', (k', a') ∈ l -> k' <= k /\ (k' = k -> a' = a)) -> exists rest, in_order (fun a b => Z.compare b a) l = (k, a) :: rest.
Proof.
  intros Hin Hall. pose proof (newest_first_sorted l) as Hs. pose proof (sort_by_perm (key_cmp (fun a b => Z.compare b a)) l) as Hp. fold (in_order (fun a b => Z.compare b a) l) in Hp.
  rewrite <- Hp in Hin. destruct (in_order _ l) as [|[k' a'] rest]; [by apply elem_of_nil in Hin|]. exists rest. f_equal.
  apply StronglySorted_inv in Hs as [_ Hs]. assert ((k', a') ∈ l) as Hhd by (rewrite <- Hp; left). apply Hall in Hhd as [Hle Heq].
  apply elem_of_cons in Hin as [Hin|Hin]; [congruence|]. rewrite Forall_forall in Hs. apply Hs in Hin. simpl in Hin.
  assert (k' = k) as -> by lia. by rewrite Heq.
Qed.

Section Recovery.
Context `{HomeLibs}.
Lemma history_newest db row :
  plan_inv row (hd_history db) -> exists rest, history_of (pw_home_id row) db = pw_plan row :: rest.
Proof.
  intros []. unfold history_of.
  destruct (newest_first_head (omap (fun '((h, v), (plan, _)) => if bool_decide (h = pw_home_id row) then Some (v, plan) else None) (map_to_list (hd_history db))) (pw_version row) (pw_plan row)) as [rest ->].
  - apply list_elem_of_omap. exists ((pw_home_id row, pw_version row), (pw_plan row, pw_saved_at row)). split; [by apply elem_of_map_to_list|]. by rewrite bool_decide_eq_true_2.
  - intros k' a' ([[h v] [plan t]] & Hin & Heq)%list_elem_of_omap. apply elem_of_map_to_list in Hin. case_bool_decide as Hh; [|done]. injection Heq as <- <-. subst h.
    split; [by eapply pi_range0|]. intros ->. congruence.
  - change (Z.to_nat PLAN_HISTORY_KEEP) with (S 99). simpl. by eexists.
Qed.

Lemma decode_plan_weaken json h v p : decode_plan json h v true = Some p -> decode_plan json h v false = Some p.
Proof. unfold decode_plan. destruct (plan_from_json json) as [q|]; [|done]. case_match; [done|]. simpl. by case_match. Qed.

(** The current row with another text in its plan column. *)
Definition damage (bad : string) (db : HomeDb) : HomeDb := {|
  hd_plan := option_map (fun row => {| pw_home_id := pw_home_id row; pw_version := pw_version row; pw_plan := bad; pw_saved_at := pw_saved_at row |}) (hd_plan db);
  hd_history := hd_history db; hd_drafts := hd_drafts db; hd_placements := hd_placements db; hd_estimates := hd_estimates db |}.

Lemma commit_damaged bad row db : commit_plan row (damage bad db) = commit_plan row db.
Proof. done. Qed.

(** A current row whose plan text no longer reads costs nothing: the plan that is loaded is the
    one from before the damage, with the same version and marked as recovered, and a save that
    expects that version still succeeds. *)
Theorem damaged_plan_is_recovered ops l bad :
  let db := home_run ops home_empty in
  load_plan db = Ok (Some l) -> lp_recovered_from_history l = false ->
  decode_plan bad (hp_home_id (lp_plan l)) (hp_version (lp_plan l)) true = None ->
  load_plan (damage bad db) = Ok (Some {| lp_plan := lp_plan l; lp_recovered_from_history := true |}) /\
  (forall p now, savable (hp_version (lp_plan l)) p now -> fst (save_plan (hp_version (lp_plan l)) p now (damage bad db)) = Ok (hp_version (lp_plan l) + 1)).
Proof.
  intros db Hl Hr Hb. pose proof (home_reached_inv ops) as Hi. fold db in Hi. unfold load_plan in Hl. pose proof Hi as Hi0. unfold home_inv in Hi. destruct (hd_plan db) as [row|] eqn:Hrow; [|done].
  destruct (pi_version _ _ Hi) as [Hv1 Hv2]. destruct (decode_id (pw_home_id row)) as [h|] eqn:Hid; simpl in Hl; [|done].
  assert ((pw_version row <? 0) || (u32_max <? pw_version row) = false) as Hrange by (rewrite (proj2 (Z.ltb_ge _ _)), (proj2 (Z.ltb_ge _ _)) by lia; done).
  rewrite Hrange in Hl. destruct (decode_plan (pw_plan row) h (pw_version row) true) as [p|] eqn:Hd.
  2: { destruct (first_decoded _ _ _); [injection Hl as <-; done|done]. }
  injection Hl as <-. simpl in *. assert (hp_home_id p = h /\ hp_version p = pw_version row) as [Hh Hpv].
  { unfold decode_plan in Hd. destruct (plan_from_json _) as [q|]; [|done]. case_bool_decide; [|done]. simpl in Hd. repeat case_match; try done. by injection Hd as <-. }
  rewrite Hh, Hpv in Hb. split.
  - unfold load_plan, damage. simpl. rewrite Hrow. simpl. rewrite Hid. simpl. rewrite Hrange, Hb.
    destruct (history_newest db row Hi) as [rest Hrest]. unfold history_of in *. simpl. rewrite Hrest. simpl. by rewrite (decode_plan_weaken _ _ _ _ Hd).
  - intros q now Hs. rewrite Hpv in *. destruct (savable_save _ _ _ (damage bad db) Hs) as [at_ ->]. destruct Hs as (Hv%plan_validate_ok & _ & Hm & _).
    assert (current_version (damage bad db) = current_version db) as -> by (unfold current_version, damage; simpl; by rewrite Hrow).
    rewrite (current_version_ok _ Hi0). simpl. assert (version_of db = pw_version row) as Hver by (unfold version_of; by rewrite Hrow).
    rewrite Hver, Z.eqb_refl. simpl. rewrite commit_damaged.
    destruct (commit_plan_inv q at_ db (pw_version row)) as (db' & -> & _); [done|by rewrite (current_version_ok _ Hi0), Hver|done|done|done].
Qed.
End Recovery.

(** ** Placements and estimates *)
Lemma collect_rows_map {A B C} (f : A -> result B HomeStoreError) (h : C -> A) (g : C -> B) l :
  (forall x, x ∈ l -> f (h x) = Ok (g x)) -> collect_rows f (map h l) = Ok (map g l).
Proof.
  induction l as [|x l IH]; intros Hf; simpl; [done|]. rewrite (Hf x) by left. simpl. rewrite IH; [done|]. intros y Hy. apply Hf. by right.
Qed.
Lemma real_column_le a b : f64_le (real_column a) (real_column b) = f64_le a b.
Proof. unfold f64_le, SFleb. by destruct a as [[]|[]| |[]], b as [[]|[]| |[]]. Qed.
Lemma real_column_finite a : f64_is_finite (real_column a) = f64_is_finite a.
Proof. by destruct a. Qed.
Lemma real_column_idemp a : real_column (real_column a) = real_column a.
Proof. by destruct a. Qed.
Lemma real_column_within a b x : real_column a = a -> real_column b = b -> f64_within a b (real_column x) = f64_within a b x.
Proof. intros Ha Hb. unfold f64_within. rewrite <- Ha, <- Hb, !real_column_le. by rewrite Ha, Hb. Qed.
Lemma coordinate_ok_column c : coordinate_ok (real_column c) = coordinate_ok c.
Proof. unfold coordinate_ok. rewrite real_column_finite. by rewrite real_column_within by done. Qed.
Lemma height_ok_column h : height_ok (option_map real_column h) = height_ok h.
Proof. destruct h as [h|]; [|done]. simpl. rewrite real_column_finite. by rewrite real_column_within by done. Qed.
Lemma mounting_reads_back m : decode_mounting (mounting_string m) = Ok m.
Proof. by destruct m. Qed.

(** Abstractly the placements are a map from devices, which only the owner's operations change. *)
Definition placement_ok (p : OwnerPlacement) : bool := coordinate_ok (pl_x p) && coordinate_ok (pl_y p) && height_ok (pl_height_m p).
Definition as_stored (p : OwnerPlacement) : OwnerPlacement := {|
  pl_placement_id := pl_placement_id p; pl_device_id := pl_device_id p; pl_floor_id := pl_floor_id p; pl_x := real_column (pl_x p); pl_y := real_column (pl_y p);
  pl_height_m := option_map real_column (pl_height_m p); pl_mounting := pl_mounting p |}.
Definition owner_step (op : HomeOp) (m : gmap DeviceId OwnerPlacement) : gmap DeviceId OwnerPlacement :=
  match op with
  | UpsertPlacement p => if placement_ok p then <[pl_device_id p := as_stored p]> m else m
  | DeletePlacement d => delete d m
  | _ => m
  end.
Definition owner_run (ops : list HomeOp) : gmap DeviceId OwnerPlacement := fold_left (fun m op => owner_step op m) ops ∅.

Section Placements.
Context `{HomeLibs}.
#[local] Instance uuid_text_inj : Inj (=) (=) uuid_text.
Proof. intros a b Hab. apply (f_equal uuid_parse) in Hab. rewrite !uuid_reads_back in Hab. congruence. Qed.
Lemma decode_id_text u : decode_id (uuid_text u) = Ok u.
Proof. unfold decode_id. rewrite uuid_reads_back. simpl. by rewrite bool_decide_eq_true_2. Qed.

Definition stored_form (d : DeviceId) (p : OwnerPlacement) : Prop := pl_device_id p = d /\ placement_ok p = true /\ as_stored p = p.
Definition placements_match (m : gmap DeviceId OwnerPlacement) (db : HomeDb) : Prop :=
  hd_placements db = kmap uuid_text (placement_row <$> m) /\ map_Forall stored_form m.

Lemma upsert_placement_eq p db :
  upsert_placement p db = if placement_ok p then (Ok tt, with_placements (<[uuid_text (pl_device_id p) := placement_row p]> (hd_placements db)) db) else (Err InvalidHome, db).
Proof. unfold upsert_placement, placement_ok. destruct (coordinate_ok (pl_x p)), (coordinate_ok (pl_y p)), (height_ok (pl_height_m p)); done. Qed.
Lemma as_stored_form p : placement_ok p = true -> stored_form (pl_device_id p) (as_stored p).
Proof.
  intros Hp. split; [done|]. split; [unfold placement_ok; simpl; by rewrite !coordinate_ok_column, height_ok_column|].
  unfold as_stored; simpl. rewrite !real_column_idemp. f_equal. destruct (pl_height_m p); simpl; [by rewrite real_column_idemp|done].
Qed.
Lemma placement_row_stored p : placement_row (as_stored p) = placement_row p.
Proof. unfold placement_row; simpl. rewrite !real_column_idemp. f_equal. destruct (pl_height_m p); simpl; [by rewrite real_column_idemp|done]. Qed.

Lemma owner_step_match op m db : placements_match m db -> placements_match (owner_step op m) (home_step op db).
Proof.
  intros [Hm Hf]. destruct op as [e p now|h d now|h|h|p|d|v]; simpl.
  - destruct (save_plan_cases e p now db) as [[err ->]|(at_ & db' & -> & _ & _ & _ & _ & _ & Hc)]; simpl; [done|].
    unfold commit_plan in Hc. case_match; [done|]. by injection Hc as <-.
  - unfold put_draft. by repeat case_match.
  - unfold get_draft. by repeat case_match.
  - done.
  - rewrite upsert_placement_eq. destruct (placement_ok p) eqn:Hp; simpl; [|done]. split; simpl.
    + rewrite Hm, fmap_insert, kmap_insert by apply _. by rewrite placement_row_stored.
    + apply map_Forall_insert_2; [by apply as_stored_form|done].
  - split; simpl; [|by apply map_Forall_delete]. rewrite Hm, fmap_delete. by rewrite kmap_delete by apply _.
  - unfold upsert_estimate. by repeat case_match.
Qed.
Lemma owner_run_match ops m db : placements_match m db -> placements_match (fold_left (fun m op => owner_step op m) ops m) (home_run ops db).
Proof. revert m db. induction ops as [|op ops IH]; intros m db Hm; simpl; [done|]. by apply IH, owner_step_match. Qed.

Lemma decode_placement_row d p : stored_form d p -> decode_placement (uuid_text d, placement_row p) = Ok p.
Proof.
  intros (<- & Hp & Hs). destruct p as [pid dev fl x y h mt]. unfold as_stored in Hs. simpl in *. injection Hs as Hx Hy Hh.
  unfold placement_ok in Hp. simpl in Hp. apply andb_true_iff in Hp as [[Hpx Hpy]%andb_true_iff Hph].
  unfold placement_row. simpl. rewrite Hx, Hy, Hh, Hpx, Hpy, Hph. simpl. rewrite !decode_id_text. simpl.
  destruct mt as [mt|]; simpl; [by rewrite mounting_reads_back|done].
Qed.

(** C24. The placements that are listed are exactly those the owner set: after any operations, saves,
    drafts and automatic estimates included, the repository lists the abstract map of the accepted
    placements that were not removed since, one per device, and never fails on its own rows. *)
Theorem placements_refine_the_owner_map ops :
  exists l, list_placements (home_run ops home_empty) = Ok l /\ l ≡ₚ map snd (map_to_list (owner_run ops)).
Proof.
  destruct (owner_run_match ops ∅ home_empty) as [Hm Hf]; [split; [done|apply map_Forall_empty]|]. fold (owner_run ops) in Hm, Hf.
  set (db := home_run ops home_empty) in *. set (m := owner_run ops) in *. unfold list_placements.
  pose proof (sort_by_perm (key_cmp String.compare) (map_to_list (hd_placements db))) as Hp. fold (in_order String.compare (map_to_list (hd_placements db))) in Hp.
  rewrite Hm in Hp at 2. rewrite map_to_list_kmap, map_to_list_fmap in Hp by apply _.  change (list_fmap) with (@map) in Hp. unfold fmap, list_fmap in Hp. rewrite map_map in Hp.
  apply Permutation_map_inv in Hp as (l3 & -> & Hl3). exists (map snd l3). split; [|by rewrite Hl3].
  apply collect_rows_map. intros [d p] Hin. simpl. apply decode_placement_row, Hf. rewrite <- Hl3 in Hin. by apply elem_of_map_to_list in Hin.
Qed.
End Placements.

(** ** The routes *)
Inductive HomeRequest :=
  | GetHome
  | PutPlan (body : option SavePlanRequest)
  | PutPlacement (path : option string) (body : option PlacementRequest) (fresh : PlacementId)
  | RemovePlacement (path : option string)
  | ReadDraft
  | WriteDraft (body : option bytes)
  | RemoveDraft.

Section Service.
Context `{HomeLibs} {EventPayload : Type} (home_changed : HomeChanged -> EventPayload).
(** The router, for requests that carry the token. *)
Definition home_serve (req : HomeRequest) (now : DateTime) (s : @HomeService EventPayload) : option (HomeResponse * HomeService) :=
  match req with
  | GetHome => Some (home_snapshot (sv_db s), s)
  | PutPlan body => save_plan_route home_changed body now s
  | PutPlacement path body fresh => upsert_placement_route home_changed path body fresh now s
  | RemovePlacement path => delete_placement_route home_changed path now s
  | ReadDraft => Some (get_draft_route s)
  | WriteDraft body => Some (put_draft_route body now s)
  | RemoveDraft => Some (delete_draft_route s)
  end.

(** The event tells the identity and version that a client finds when it asks again. *)
Definition event_of (ev : HomeChanged) (db : HomeDb) : Prop :=
  forall plan recovered, home_current_plan db = Ok (plan, recovered) -> hc_home_id ev = hp_home_id plan /\ hc_version ev = hp_version plan.
(** One request: at most one operation of the repository and at most one event, of a success. *)
Definition served (now : DateTime) (s s' : @HomeService EventPayload) (r : HomeResponse) : Prop :=
  (exists ops, (length ops <= 1)%nat /\ sv_db s' = home_run ops (sv_db s)) /\
  (sv_events s' = sv_events s \/
   exists ev env, publish (sv_events s) now (home_changed ev) = Some (env, sv_events s') /\ event_of ev (sv_db s') /\ (home_status r = 200 \/ home_status r = 204)).

Lemma served_op op now (s : @HomeService EventPayload) db r : db = home_step op (sv_db s) -> served now s (with_home db s) r.
Proof. intros ->. split; [by exists [op]|by left]. Qed.
Lemma served_same now (s : @HomeService EventPayload) r : served now s s r.
Proof. split; [by exists []; split; [simpl; lia|]|by left]. Qed.

Lemma decode_plan_identity json h v b p : decode_plan json h v b = Some p -> hp_home_id p = h /\ hp_version p = v.
Proof.
  unfold decode_plan. destruct (plan_from_json json) as [q|]; [|done]. case_bool_decide; [|done]. simpl. intros Hd. repeat case_match; try done. by injection Hd as <-.
Qed.
Lemma first_decoded_identity l h v p : first_decoded l h v = Some p -> hp_home_id p = h /\ hp_version p = v.
Proof. induction l as [|j l IH]; simpl; [done|]. case_match eqn:E; [|done]. intros [= <-]. by eapply decode_plan_identity. Qed.
(** A plan that is loaded has the identity and the version of the current row. *)
Lemma current_plan_identity db plan b row :
  hd_plan db = Some row -> home_current_plan db = Ok (plan, b) -> uuid_text (hp_home_id plan) = pw_home_id row /\ hp_version plan = pw_version row.
Proof.
  intros Hr. unfold home_current_plan, load_plan. rewrite Hr. unfold decode_id. destruct (uuid_parse _) as [h|]; simpl; [|done].
  case_bool_decide as Hh; simpl; [|done]. case_match; simpl; [done|]. rewrite <- Hh. case_match eqn:Ed; simpl.
  - intros [= <- _]. apply decode_plan_identity in Ed as [-> ->]. done.
  - case_match eqn:Ef; simpl; [|done]. intros [= <- _]. apply first_decoded_identity in Ef as [-> ->]. done.
Qed.

Lemma save_route_served body now (s s' : @HomeService EventPayload) r : save_plan_route home_changed body now s = Some (r, s') -> served now s s' r.
Proof.
  unfold save_plan_route. destruct body as [req|]; [|intros [= <- <-]; apply served_same]. destruct (plan_validate (sp_plan req)) as [[]|e]; [|intros [= <- <-]; apply served_same].
  set (op := SavePlan (sp_expected_version req) (sp_plan req) now).
  destruct (save_plan_cases (sp_expected_version req) (sp_plan req) now (sv_db s)) as [[err E]|(at_ & db' & E & _ & _ & _ & _ & _ & Hc)]; rewrite E.
  - intros Hr. assert (s' = with_home (sv_db s) s) as -> by (destruct err; congruence). apply (served_op op). simpl. by rewrite E.
  - unfold publish_home_changed. destruct (publish _ now _) as [[env bus]|] eqn:Ep; simpl; [|done]. intros [= <- <-]. split.
    + exists [op]. split; [done|]. simpl. by rewrite E.
    + right. eexists _, env. split; [exact Ep|]. split; [|by left]. intros plan b Hp. simpl in *. apply commit_plan_row in Hc.
      destruct (current_plan_identity _ _ _ _ Hc Hp) as [Hid Hv]. simpl in Hid, Hv. split; [|done].
      apply (f_equal uuid_parse) in Hid. rewrite !uuid_reads_back in Hid. congruence.
Qed.

Lemma emit_served op summary now (s s' : @HomeService EventPayload) db r :
  db = home_step op (sv_db s) -> emit_placement_change home_changed summary now (with_home db s) = Some s' -> home_status r = 200 \/ home_status r = 204 -> served now s s' r.
Proof.
  intros Hdb He Hr. unfold emit_placement_change in He. simpl in He. destruct (home_current_plan db) as [[plan b]|] eqn:Hp.
  - unfold publish_home_changed in He. destruct (publish _ now _) as [[env bus]|] eqn:Ep; [|done]. injection He as <-. split.
    + exists [op]. by split.
    + right. eexists _, env. split; [exact Ep|]. split; [|done]. intros plan' b' Hp'. simpl in *. rewrite Hp in Hp'. by injection Hp' as <- <-.
  - injection He as <-. by apply (served_op op).
Qed.

Lemma upsert_route_served path body fresh now (s s' : @HomeService EventPayload) r :
  upsert_placement_route home_changed path body fresh now s = Some (r, s') -> served now s s' r.
Proof.
  unfold upsert_placement_route. destruct path as [d|], body as [req|]; try by intros [= <- <-]; apply served_same.
  destruct (parse_canonical_device_id d) as [d'|]; [|by intros [= <- <-]; apply served_same].
  set (p := {| pl_placement_id := _ |}). destruct (upsert_placement p (sv_db s)) as [[[]|e] db] eqn:E.
  - destruct (emit_placement_change _ _ _ _) as [s2|] eqn:He; simpl; [|done]. intros [= <- <-].
    apply (emit_served (UpsertPlacement p) "placement updated" now s s2 db); [simpl; by rewrite E|done|by left].
  - intros [= <- <-]. apply (served_op (UpsertPlacement p)). simpl. by rewrite E.
Qed.
Lemma delete_route_served path now (s s' : @HomeService EventPayload) r :
  delete_placement_route home_changed path now s = Some (r, s') -> served now s s' r.
Proof.
  unfold delete_placement_route. destruct path as [d|]; [|by intros [= <- <-]; apply served_same].
  destruct (parse_canonical_device_id d) as [d'|]; [|by intros [= <- <-]; apply served_same].
  destruct (delete_placement d' (sv_db s)) as [[[]|e] db] eqn:E.
  - destruct (emit_placement_change _ _ _ _) as [s2|] eqn:He; simpl; [|done]. intros [= <- <-].
    apply (emit_served (DeletePlacement d') "placement removed" now s s2 db); [exact (eq_sym (f_equal snd E))|done|by right].
  - intros [= <- <-]. apply (served_op (DeletePlacement d')). exact (eq_sym (f_equal snd E)).
  - intros [= <- <-]. apply (served_op (DeletePlacement d')). exact (eq_sym (f_equal snd E)).
Qed.

(** Every route does at most one operation of the repository, so that its theorems hold of the
    served database, and publishes at most one event, only with a success and after the commit; the
    event names the home and the version that a client that asks again is given. *)
Theorem routes_commit_then_announce req now (s s' : @HomeService EventPayload) r : home_serve req now s = Some (r, s') -> served now s s' r.
Proof.
  destruct req as [|body|path body fresh|path| |body|]; simpl.
  - intros [= <- <-]. apply served_same.
  - apply save_route_served.
  - apply upsert_route_served.
  - apply delete_route_served.
  - unfold get_draft_route. destruct (home_current_plan _) as [[plan b]|e]; [|intros [= <- <-]; apply served_same].
    destruct (get_draft _ _) as [[[d|]|[]] db] eqn:E; intros [= <- <-]; apply (served_op (GetDraft (hp_home_id plan))); simpl; by rewrite E.
  - unfold put_draft_route. destruct body as [body|]; [|intros [= <- <-]; apply served_same].
    destruct (MAX_DRAFT_BYTES <? count body); [intros [= <- <-]; apply served_same|]. destruct (from_utf8 body) as [d|]; [|intros [= <- <-]; apply served_same].
    destruct (home_current_plan _) as [[plan b]|e]; [|intros [= <- <-]; apply served_same].
    destruct (put_draft _ _ _ _) as [[?|e] db] eqn:E; intros [= <- <-]; apply (served_op (PutDraft (hp_home_id plan) d now)); simpl; by rewrite E.
  - unfold delete_draft_route. destruct (home_current_plan _) as [[plan b]|e]; [|intros [= <- <-]; apply served_same].
    intros [= <- <-]. by apply (served_op (DeleteDraft (hp_home_id plan))).
Qed.
End Service.

(** ** Concrete runs *)
Module HomeRuns.
(** A stand-in for the libraries' texts: the digits of the code of a value. *)
Fixpoint pos_text (p : positive) : string :=
  match p with xH => "" | xO p => String "0"%char (pos_text p) | xI p => String "1"%char (pos_text p) end.
Fixpoint pos_parse (s : string) : option positive :=
  match s with
  | ""%string => Some xH
  | String c s => match pos_parse s with Some p => if Ascii.eqb c "0"%char then Some (xO p) else if Ascii.eqb c "1"%char then Some (xI p) else None | None => None end
  end.
Lemma pos_text_parse p : pos_parse (pos_text p) = Some p.
Proof. induction p as [p IH|p IH|]; simpl; [by rewrite IH|by rewrite IH|done]. Qed.
Definition code_text {A} `{Countable A} (a : A) : string := pos_text (encode a).
Definition code_parse {A} `{Countable A} (s : string) : option A := pos_parse s ≫= decode.
Lemma code_reads_back {A} `{Countable A} (a : A) : code_parse (code_text a) = Some a.
Proof. unfold code_parse, code_text. rewrite pos_text_parse. simpl. apply decode_encode. Qed.

Definition toy_plan (v : Z) : HomePlan := {|
  hp_home_id := 7%N; hp_version := v; hp_name := "Home"; hp_floors := [
    {| fl_floor_id := 1%N; fl_level := 0; fl_name := "Ground"; fl_ceiling_height_m := f64_lit 24 10; fl_rooms := [
         {| rm_room_id := 2%N; rm_name := "Hall"; rm_polygon := [ {| pt_x := f64_of_Z 0; pt_y := f64_of_Z 0 |}; {| pt_x := f64_of_Z 4; pt_y := f64_of_Z 0 |}; {| pt_x := f64_of_Z 4; pt_y := f64_of_Z 3 |} ] |} ];
       fl_walls := [ {| wl_wall_id := 3%N; wl_start := {| pt_x := f64_of_Z 0; pt_y := f64_of_Z 0 |}; wl_end := {| pt_x := f64_of_Z 4; pt_y := f64_of_Z 0 |};
         wl_openings := [ {| op_opening_id := 4%N; op_kind := Door; op_offset_m := f64_of_Z 1; op_width_m := f64_of_Z 1 |} ] |} ] |} ] |}.
(** [hypot] of the axis-parallel walls of the example; a text per version of the example plan. *)
#[local] Instance toy_libs : HomeLibs := {|
  home_libm := {| hypot := fun x y => f64_plus x y |};
  uuid_text := code_text; uuid_parse := code_parse; uuid_reads_back := code_reads_back;
  plan_to_json := fun p => code_text (hp_version p); plan_from_json := fun s => option_map toy_plan (code_parse s);
  evidence_to_json := code_text; evidence_from_json := code_parse; evidence_reads_back := code_reads_back;
  is_json := fun s => negb (String.eqb s "");
  nanos_text := code_text; nanos_parse := code_parse; nanos_reads_back := code_reads_back |}.

Definition toy_saves (n : nat) : list HomeOp := map (fun v => SavePlan v (toy_plan 0) 5) (seqZ 0 (Z.of_nat n)).
Definition toy_placement (d : DeviceId) (x : Z) : OwnerPlacement :=
  {| pl_placement_id := 9%N; pl_device_id := d; pl_floor_id := 1%N; pl_x := f64_of_Z x; pl_y := f64_zero; pl_height_m := Some f64_one; pl_mounting := Some MountShelf |}.

(** A hundred and three saves keep the versions 4 to 103. *)
Example toy_history : Z.of_nat (size (hd_history (home_run (toy_saves 103) home_empty))) = 100 /\ version_of (home_run (toy_saves 103) home_empty) = 103.
Proof. split; by vm_compute. Qed.
(** A placement out of bounds changes nothing; an estimate neither. *)
Example toy_placements :
  list_placements (home_run [UpsertPlacement (toy_placement 5%N 4); UpsertPlacement (toy_placement 5%N 2000); UpsertPlacement (toy_placement 6%N 1); DeletePlacement 6%N] home_empty)
  = Ok [toy_placement 5%N 4].
Proof. by vm_compute. Qed.

Lemma toy_plan_ok v : plan_ok (toy_plan v).
Proof. apply plan_validate_ok. by vm_compute. Qed.
Lemma toy_savable e : e + 1 <= u32_max -> str_len (code_text (e + 1)) <= MAX_PLAN_BYTES -> savable e (toy_plan 0) 5.
Proof. intros H1 H2. split_and!; [apply toy_plan_ok|by eexists|done|done]. Qed.

Lemma stale_save_is_refused_witness :
  exists err, save_plan 1 (toy_plan 0) 6 (home_run [SavePlan 2 (toy_plan 0) 6] (snd (save_plan 1 (toy_plan 0) 5 (home_run (toy_saves 1) home_empty)))) =
    (Err err, home_run [SavePlan 2 (toy_plan 0) 6] (snd (save_plan 1 (toy_plan 0) 5 (home_run (toy_saves 1) home_empty)))) .
Proof.
  destruct (stale_save_is_refused (toy_saves 1) [SavePlan 2 (toy_plan 0) 6] 1 (toy_plan 0) 5 (toy_plan 0) 6 2
    (snd (save_plan 1 (toy_plan 0) 5 (home_run (toy_saves 1) home_empty)))) as (_ & _ & err & Herr & _).
  - apply injective_projections; [by vm_compute|reflexivity].
  - by exists err.
Defined.

Lemma save_then_load_witness :
  exists db', save_plan 2 (toy_plan 0) 5 (home_run (toy_saves 2) home_empty) = (Ok (2 + 1), db') /\
    load_plan (home_run [UpsertPlacement (toy_placement 5%N 4)] db') = Ok (Some {| lp_plan := with_version (2 + 1) (toy_plan 0); lp_recovered_from_history := false |}).
Proof.
  assert (version_of (home_run (toy_saves 2) home_empty) = 2) as Hv by (by vm_compute).
  pose proof (save_then_load (toy_saves 2) [UpsertPlacement (toy_placement 5%N 4)] (toy_plan 0) 5) as W. cbv zeta in W. rewrite Hv in W. apply W.
  - apply toy_savable; by vm_compute.
  - by vm_compute.
  - reflexivity.
Defined.

Lemma damaged_plan_is_recovered_witness :
  load_plan (damage "torn" (home_run (toy_saves 2) home_empty)) = Ok (Some {| lp_plan := toy_plan 2; lp_recovered_from_history := true |}).
Proof.
  apply (damaged_plan_is_recovered (toy_saves 2) {| lp_plan := toy_plan 2; lp_recovered_from_history := false |} "torn"); by vm_compute.
Defined.

Definition toy_service : @HomeService HomeChanged :=
  {| sv_db := home_run (toy_saves 1) home_empty; sv_events := {| replay_capacity := 4; state := {| next_sequence := 1; replay := [] |}; sender := [] |} |}.
Definition toy_request : HomeRequest := PutPlan (Some {| sp_expected_version := 1; sp_plan := toy_plan 0 |}).
Definition toy_served : HomeResponse * HomeService := default (HomeStatus 0, toy_service) (home_serve id toy_request 8 toy_service).
Lemma routes_commit_then_announce_witness : fst toy_served = SavePlanResponse 2 /\ served id 8 toy_service (snd toy_served) (fst toy_served).
Proof.
  split; [by vm_compute|]. apply (routes_commit_then_announce id toy_request 8 toy_service). unfold toy_served.
  destruct (home_serve id toy_request 8 toy_service) as [[r s]|] eqn:E; [reflexivity|]. exfalso. revert E. by vm_compute.
Defined.
End HomeRuns.
