(* ===== verification/Vault.v ===== *)
(** * The vault of camera secrets

    crates/lattice-service/src/vault.rs: references and slots, the vault over a keyring, the fake
    vault, and the encrypted file that stands in for the keyring on Linux. The directory of the
    file vault is a map from names to files; every call of the operating system goes through, fails
    or is where the machine halts, as a list of faults says, and a halted machine does nothing any
    more. What an uncompleted [fsync] may leave behind is part of the state. Uuids, the operating
    system's keyring, serde_json and the cipher are parameters; clearing memory is left out. *)

From S2P Require Import Prelude Text Bytes.

(** The uuid crate. *)
Class UuidLib := {
  Uuid : Type;
  #[global] uuid_eq_dec :: EqDecision Uuid;
  #[global] uuid_countable :: Countable Uuid;
  uuid_hyphenated : Uuid -> string;
  uuid_parse_str : string -> option Uuid;
  uuid_version_num : Uuid -> Z;
  uuid_parse_hyphenated : forall u, uuid_parse_str (uuid_hyphenated u) = Some u;
  uuid_hyphenated_length : forall u, String.length (uuid_hyphenated u) = 36%nat
}.

Inductive VaultError := InvalidReference | NotFound | Unavailable | PartialDeletion.
Definition vault_error_text (e : VaultError) : string :=
  match e with
  | InvalidReference => "invalid vault reference"
  | NotFound => "vault secret not found"
  | Unavailable => "vault unavailable"
  | PartialDeletion => "vault deletion incomplete"
  end.

Definition CredentialRef : Type := string.
Definition StreamSourceRef : Type := string.
Definition SecretString : Type := string.
Definition CREDENTIAL_REF_BYTES : Z := 36.
Definition MAX_OPAQUE_REF_BYTES : Z := 128.

Definition is_ascii_alphanumeric (c : ascii) : bool :=
  let n := Z.of_N (N_of_ascii c) in ((48 <=? n) && (n <=? 57)) || ((65 <=? n) && (n <=? 90)) || ((97 <=? n) && (n <=? 122)).
Definition opaque_char (c : ascii) : bool := is_ascii_alphanumeric c || Ascii.eqb c "-" || Ascii.eqb c "_".
(** [StreamSourceRef::new] *)
Definition stream_source_ref_new (value : string) : option StreamSourceRef :=
  if str_is_empty value || (MAX_OPAQUE_REF_BYTES <? str_len value) || negb (forallb opaque_char (String.list_ascii_of_string value)) then None else Some value.

(** The trait [Vault]; the argument of a put is the reference that the uuid crate draws. *)
Class Vault `{UuidLib} (W : Type) := {
  vault_put_credential : Uuid -> Uuid -> SecretString -> M W (result CredentialRef VaultError);
  vault_get_credential : Uuid -> CredentialRef -> M W (result SecretString VaultError);
  vault_put_stream_source : Uuid -> Uuid -> Uuid -> SecretString -> M W (result StreamSourceRef VaultError);
  vault_get_stream_source : Uuid -> Uuid -> StreamSourceRef -> M W (result SecretString VaultError);
  vault_delete_camera_secrets : Uuid -> option CredentialRef -> list (Uuid * StreamSourceRef) -> M W (result unit VaultError)
}.
(** The trait [KeyringBackend]. *)
Class KeyringBackend (W : Type) := {
  backend_put : string -> SecretString -> M W (result unit VaultError);
  backend_get : string -> M W (result SecretString VaultError);
  backend_delete : string -> M W (result unit VaultError)
}.

Section References.
Context `{UuidLib}.
Definition CameraId : Type := Uuid.
Definition StreamId : Type := Uuid.
Definition is_canonical_opaque_id (value : string) : bool :=
  match uuid_parse_str value with Some id => (uuid_version_num id =? 7) && bool_decide (uuid_hyphenated id = value) | None => false end.
Definition credential_ref_parse (value : string) : result CredentialRef VaultError := if is_canonical_opaque_id value then Ok value else Err InvalidReference.
(** [CredentialRefVisitor::visit_str] *)
Definition credential_ref_visit (value : string) : option CredentialRef :=
  if negb (str_len value =? CREDENTIAL_REF_BYTES) then None else match credential_ref_parse value with Ok r => Some r | Err _ => None end.
Definition credential_ref_generate (fresh : Uuid) : CredentialRef := uuid_hyphenated fresh.
Definition validate_credential_ref (reference : CredentialRef) : result unit VaultError := if is_canonical_opaque_id reference then Ok tt else Err InvalidReference.
Definition generated_stream_ref (fresh : Uuid) : result StreamSourceRef VaultError := ok_or (stream_source_ref_new (uuid_hyphenated fresh)) InvalidReference.
Definition credential_slot (owner : CameraId) (reference : CredentialRef) : string := uuid_hyphenated owner ++ ":" ++ reference.
Definition stream_slot (owner : CameraId) (stream : StreamId) (reference : StreamSourceRef) : string :=
  uuid_hyphenated owner ++ ":" ++ uuid_hyphenated stream ++ ":" ++ reference.
End References.

(** ** The vault over a keyring *)
(** [unavailable] and [partial_failure] after one more deletion *)
Definition record_delete_result (r : result unit VaultError) (flags : bool * bool) : bool * bool :=
  match r with
  | Ok _ | Err NotFound => flags
  | Err Unavailable => (true, snd flags)
  | Err (InvalidReference | PartialDeletion) => (fst flags, true)
  end.

Section Keyring.
Context `{UuidLib} {W : Type} `{KeyringBackend W}.
Definition keyring_put_credential (fresh owner : Uuid) (credential : SecretString) : M W (result CredentialRef VaultError) :=
  let reference := credential_ref_generate fresh in
  try! _ := backend_put (credential_slot owner reference) credential in
  mret_st (Ok reference).
Definition keyring_get_credential (owner : Uuid) (reference : CredentialRef) : M W (result SecretString VaultError) :=
  try! _ := mret_st (validate_credential_ref reference) in
  backend_get (credential_slot owner reference).
Definition keyring_put_stream_source (fresh owner stream : Uuid) (source : SecretString) : M W (result StreamSourceRef VaultError) :=
  try! reference := mret_st (generated_stream_ref fresh) in
  try! _ := backend_put (stream_slot owner stream reference) source in
  mret_st (Ok reference).
Definition keyring_get_stream_source (owner stream : Uuid) (reference : StreamSourceRef) : M W (result SecretString VaultError) :=
  backend_get (stream_slot owner stream reference).
Fixpoint delete_streams (owner : Uuid) (streams : list (Uuid * StreamSourceRef)) (flags : bool * bool) : M W (bool * bool) :=
  match streams with
  | [] => mret_st flags
  | (stream, reference) :: streams' =>
    let! r := backend_delete (stream_slot owner stream reference) in
    delete_streams owner streams' (record_delete_result r flags)
  end.
Definition delete_verdict (flags : bool * bool) : result unit VaultError :=
  let '(unavailable, partial_failure) := flags in
  if unavailable then Err Unavailable else if partial_failure then Err PartialDeletion else Ok tt.
Definition keyring_delete_camera_secrets (owner : Uuid) (credential : option CredentialRef) (streams : list (Uuid * StreamSourceRef)) : M W (result unit VaultError) :=
  let! flags :=
    match credential with
    | None => mret_st (false, false)
    | Some reference =>
      match validate_credential_ref reference with
      | Err _ => mret_st (false, true)
      | Ok _ => let! r := backend_delete (credential_slot owner reference) in mret_st (record_delete_result r (false, false))
      end
    end in
  let! flags := delete_streams owner streams flags in
  mret_st (delete_verdict flags).
Definition keyring_vault : Vault W := {|
  vault_put_credential := keyring_put_credential; vault_get_credential := keyring_get_credential; vault_put_stream_source := keyring_put_stream_source;
  vault_get_stream_source := keyring_get_stream_source; vault_delete_camera_secrets := keyring_delete_camera_secrets |}.
End Keyring.

(** ** The keyring of the operating system *)
Inductive TargetOs := Windows | Linux | OtherOs.
Definition keyring_os (os : TargetOs) : bool := match os with OtherOs => false | _ => true end.
Inductive KeyringError := NoEntry | BadEncoding (data : bytes) | BadDataFormat (data : bytes) | OtherKeyringError.
(** [keyring::Entry], over the world of the credential store. *)
Class KeyringCrate (W : Type) := {
  Entry : Type;
  store_status : M W bool;
  entry_new : string -> string -> M W (result Entry KeyringError);
  set_password : Entry -> string -> M W (result unit KeyringError);
  get_password : Entry -> M W (result string KeyringError);
  delete_entry : Entry -> M W (result unit KeyringError)
}.
Definition CAMERA_VAULT_SERVICE : string := "neonhearth-camera-vault-v1".
Definition map_keyring_error (e : KeyringError) : VaultError := match e with NoEntry => NotFound | _ => Unavailable end.
Definition mapped {A W} (m : M W (result A KeyringError)) : M W (result A VaultError) :=
  let! r := m in mret_st match r with Ok a => Ok a | Err e => Err (map_keyring_error e) end.

Section SystemKeyring.
Context {W : Type} `{KeyringCrate W} (os : TargetOs).
Definition put_secret (slot : string) (secret : SecretString) : M W (result unit VaultError) :=
  if keyring_os os then try! entry := mapped (entry_new CAMERA_VAULT_SERVICE slot) in mapped (set_password entry secret)
  else mret_st (Err Unavailable).
Definition get_secret (slot : string) : M W (result SecretString VaultError) :=
  if keyring_os os then try! entry := mapped (entry_new CAMERA_VAULT_SERVICE slot) in mapped (get_password entry)
  else mret_st (Err Unavailable).
Definition delete_secret (slot : string) : M W (result unit VaultError) :=
  if keyring_os os then
    try! entry := mapped (entry_new CAMERA_VAULT_SERVICE slot) in
    let! r := delete_entry entry in
    mret_st match r with Ok _ | Err NoEntry => Ok tt | Err e => Err (map_keyring_error e) end
  else mret_st (Err Unavailable).
Definition system_keyring : KeyringBackend W := {| backend_put := put_secret; backend_get := get_secret; backend_delete := delete_secret |}.
Definition ensure_available : M W (result unit VaultError) :=
  if keyring_os os then let! ok := store_status in mret_st (if ok : bool then Ok tt else Err Unavailable) else mret_st (Err Unavailable).
Definition vault_capability : M W bool := let! r := ensure_available in mret_st (is_ok r).
End SystemKeyring.

(** ** The fake vault *)
Section Fake.
Context `{UuidLib}.
Record FakeVault := {
  fv_credentials : gmap (Uuid * CredentialRef) SecretString;
  fv_streams : gmap (Uuid * Uuid * StreamSourceRef) SecretString;
  fv_failed_stream_deletes : gset (Uuid * Uuid * StreamSourceRef);
  fv_delete_attempts : list string;
  fv_labels : list string }.
Definition fake_new : FakeVault := {| fv_credentials := ∅; fv_streams := ∅; fv_failed_stream_deletes := ∅; fv_delete_attempts := []; fv_labels := [] |}.
Definition fail_next_stream_delete (owner stream : Uuid) (reference : StreamSourceRef) (v : FakeVault) : FakeVault := {|
  fv_credentials := fv_credentials v; fv_streams := fv_streams v; fv_failed_stream_deletes := {[ (owner, stream, reference) ]} ∪ fv_failed_stream_deletes v;
  fv_delete_attempts := fv_delete_attempts v; fv_labels := fv_labels v |}.
Definition record_label (label : string) (v : FakeVault) : FakeVault := {|
  fv_credentials := fv_credentials v; fv_streams := fv_streams v; fv_failed_stream_deletes := fv_failed_stream_deletes v;
  fv_delete_attempts := fv_delete_attempts v; fv_labels := fv_labels v ++ [label] |}.
Definition record_attempt (label : string) (v : FakeVault) : FakeVault := {|
  fv_credentials := fv_credentials v; fv_streams := fv_streams v; fv_failed_stream_deletes := fv_failed_stream_deletes v;
  fv_delete_attempts := fv_delete_attempts v ++ [label]; fv_labels := fv_labels v |}.
Definition set_credentials (c : gmap (Uuid * CredentialRef) SecretString) (v : FakeVault) : FakeVault := {|
  fv_credentials := c; fv_streams := fv_streams v; fv_failed_stream_deletes := fv_failed_stream_deletes v;
  fv_delete_attempts := fv_delete_attempts v; fv_labels := fv_labels v |}.
Definition set_streams (s : gmap (Uuid * Uuid * StreamSourceRef) SecretString) (f : gset (Uuid * Uuid * StreamSourceRef)) (v : FakeVault) : FakeVault := {|
  fv_credentials := fv_credentials v; fv_streams := s; fv_failed_stream_deletes := f; fv_delete_attempts := fv_delete_attempts v; fv_labels := fv_labels v |}.

Definition fake_put_credential (fresh owner : Uuid) (credential : SecretString) : M FakeVault (result CredentialRef VaultError) :=
  fun v =>
    let reference := credential_ref_generate fresh in
    let v := record_label (credential_slot owner reference) v in
    (Ok reference, set_credentials (<[(owner, reference) := credential]> (fv_credentials v)) v).
Definition fake_get_credential (owner : Uuid) (reference : CredentialRef) : M FakeVault (result SecretString VaultError) :=
  try! _ := mret_st (validate_credential_ref reference) in
  fun v => (ok_or (fv_credentials v !! (owner, reference)) NotFound, v).
Definition fake_put_stream_source (fresh owner stream : Uuid) (source : SecretString) : M FakeVault (result StreamSourceRef VaultError) :=
  try! reference := mret_st (generated_stream_ref fresh) in
  fun v =>
    let v := record_label (stream_slot owner stream reference) v in
    (Ok reference, set_streams (<[(owner, stream, reference) := source]> (fv_streams v)) (fv_failed_stream_deletes v) v).
Definition fake_get_stream_source (owner stream : Uuid) (reference : StreamSourceRef) : M FakeVault (result SecretString VaultError) :=
  fun v => (ok_or (fv_streams v !! (owner, stream, reference)) NotFound, v).
Fixpoint fake_delete_streams (owner : Uuid) (streams : list (Uuid * StreamSourceRef)) (failed : bool) : M FakeVault bool :=
  match streams with
  | [] => mret_st failed
  | (stream, reference) :: streams' =>
    fun v =>
      let v := record_attempt (stream_slot owner stream reference) v in
      let key := (owner, stream, reference) in
      if bool_decide (key ∈ fv_failed_stream_deletes v)
      then fake_delete_streams owner streams' true (set_streams (fv_streams v) (fv_failed_stream_deletes v ∖ {[ key ]}) v)
      else fake_delete_streams owner streams' failed (set_streams (delete key (fv_streams v)) (fv_failed_stream_deletes v) v)
  end.
Definition fake_delete_camera_secrets (owner : Uuid) (credential : option CredentialRef) (streams : list (Uuid * StreamSourceRef)) : M FakeVault (result unit VaultError) :=
  let! failed :=
    match credential with
    | None => mret_st false
    | Some reference =>
      fun v =>
        let v := record_attempt (credential_slot owner reference) v in
        match validate_credential_ref reference with
        | Err _ => (true, v)
        | Ok _ => (false, set_credentials (delete (owner, reference) (fv_credentials v)) v)
        end
    end in
  let! failed := fake_delete_streams owner streams failed in
  mret_st (if failed : bool then Err PartialDeletion else Ok tt).
Definition fake_vault : Vault FakeVault := {|
  vault_put_credential := fake_put_credential; vault_get_credential := fake_get_credential; vault_put_stream_source := fake_put_stream_source;
  vault_get_stream_source := fake_get_stream_source; vault_delete_camera_secrets := fake_delete_camera_secrets |}.
End Fake.

(** ** The directory of the file vault *)
Record VFile := { f_bytes : bytes; f_synced : bool; f_mode : Z }.
(** The directory as programs see it, and the directories that a crash may bring back: those
    since the last [fsync] of the directory. *)
Record Disk := { dk_mode : option Z; dk_now : gmap string VFile; dk_past : list (gmap string VFile) }.
(** A call succeeds, fails, or is the last one before the machine halts; an interrupted write has
    written some of its bytes. *)
Inductive IoFault := IoGo | IoFails (written : nat) | IoHalts (written : nat).
Record VaultWorld := { vw_disk : Disk; vw_faults : list IoFault; vw_halted : bool; vw_draws : nat }.
Inductive IoError := IoNotFound | IoOther.

(** After a crash: some directory since the last synchronisation, in which the files that were not
    synchronised themselves hold anything. *)
Definition after_crash (d : Disk) (dir : gmap string VFile) : Prop :=
  exists snap, (snap = dk_now d \/ snap ∈ dk_past d) /\
    forall name, match snap !! name with
                 | None => dir !! name = None
                 | Some f => if f_synced f then dir !! name = Some f else exists b, dir !! name = Some {| f_bytes := b; f_synced := true; f_mode := f_mode f |}
                 end.

Definition set_disk (d : Disk) (w : VaultWorld) : VaultWorld := {| vw_disk := d; vw_faults := vw_faults w; vw_halted := vw_halted w; vw_draws := vw_draws w |}.
(** Next directory. *)
Definition step_dir (dir : gmap string VFile) (d : Disk) : Disk := {| dk_mode := dk_mode d; dk_now := dir; dk_past := dk_now d :: dk_past d |}.
(** One system call: what it does, and what it leaves when it is cut after [n] bytes. *)
Definition syscall {A} (op : Disk -> result (A * Disk) IoError) (cut : nat -> Disk -> Disk) : M VaultWorld (result A IoError) :=
  fun w =>
    if vw_halted w then (Err IoOther, w)
    else
      let rest h := {| vw_disk := vw_disk w; vw_faults := tl (vw_faults w); vw_halted := h; vw_draws := vw_draws w |} in
      match default IoGo (hd_error (vw_faults w)) with
      | IoGo => match op (vw_disk w) with Ok (a, d) => (Ok a, set_disk d (rest false)) | Err e => (Err e, rest false) end
      | IoFails n => (Err IoOther, set_disk (cut n (vw_disk w)) (rest false))
      | IoHalts n => (Err IoOther, set_disk (cut n (vw_disk w)) (rest true))
      end.
Definition uncut (_ : nat) (d : Disk) : Disk := d.
(** [create_dir_all], [set_permissions], [metadata], [read] *)
Definition sys_create_dir : M VaultWorld (result unit IoError) :=
  syscall (fun d => Ok (tt, {| dk_mode := Some (default 493 (dk_mode d)); dk_now := dk_now d; dk_past := dk_past d |})) uncut.
Definition sys_set_permissions (mode : Z) : M VaultWorld (result unit IoError) :=
  syscall (fun d => match dk_mode d with Some _ => Ok (tt, {| dk_mode := Some mode; dk_now := dk_now d; dk_past := dk_past d |}) | None => Err IoNotFound end) uncut.
Definition sys_len (name : string) : M VaultWorld (result Z IoError) :=
  syscall (fun d => match dk_now d !! name with Some f => Ok (Z.of_nat (length (f_bytes f)), d) | None => Err IoNotFound end) uncut.
Definition sys_read (name : string) : M VaultWorld (result bytes IoError) :=
  syscall (fun d => match dk_now d !! name with Some f => Ok (f_bytes f, d) | None => Err IoNotFound end) uncut.
(** [OpenOptions::open] with [create_new] and a mode, [write_all], [sync_all], [rename], the
    [sync_all] of the directory, [remove_file] *)
Definition sys_create_new (name : string) (mode : Z) : M VaultWorld (result unit IoError) :=
  syscall (fun d => match dk_now d !! name with Some _ => Err IoOther | None => Ok (tt, step_dir (<[name := {| f_bytes := []; f_synced := false; f_mode := mode |}]> (dk_now d)) d) end) uncut.
Definition put_bytes (name : string) (b : bytes) (d : Disk) : Disk :=
  match dk_now d !! name with Some f => step_dir (<[name := {| f_bytes := b; f_synced := false; f_mode := f_mode f |}]> (dk_now d)) d | None => d end.
Definition sys_write_all (name : string) (b : bytes) : M VaultWorld (result unit IoError) := syscall (fun d => Ok (tt, put_bytes name b d)) (fun n d => put_bytes name (take n b) d).
Definition sys_sync (name : string) : M VaultWorld (result unit IoError) :=
  syscall (fun d => match dk_now d !! name with
                    | Some f => Ok (tt, step_dir (<[name := {| f_bytes := f_bytes f; f_synced := true; f_mode := f_mode f |}]> (dk_now d)) d)
                    | None => Err IoOther end) uncut.
Definition sys_rename (from to : string) : M VaultWorld (result unit IoError) :=
  syscall (fun d => match dk_now d !! from with Some f => Ok (tt, step_dir (<[to := f]> (delete from (dk_now d))) d) | None => Err IoNotFound end) uncut.
Definition sys_sync_dir : M VaultWorld (result unit IoError) := syscall (fun d => Ok (tt, {| dk_mode := dk_mode d; dk_now := dk_now d; dk_past := [] |})) uncut.
Definition sys_remove (name : string) : M VaultWorld (result unit IoError) :=
  syscall (fun d => match dk_now d !! name with Some _ => Ok (tt, step_dir (delete name (dk_now d)) d) | None => Err IoNotFound end) uncut.

(** ** The encrypted file *)
Definition FILE_VAULT_MAGIC : bytes := str_bytes "NHV1".
Definition FILE_VAULT_KEY_BYTES : nat := 32.
Definition FILE_VAULT_NONCE_BYTES : nat := 24.
Definition FILE_VAULT_MAX_BYTES : Z := 4194304.
Definition KEY_FILE : string := "vault.key".
Definition DATA_FILE : string := "vault.dat".

Notation Slots := (gmap string string).
(** XChaCha20-Poly1305 and serde_json: what is sealed opens, what is written parses, and the
    cipher appends a tag of 16 bytes. *)
Class VaultLibs := {
  encrypt : bytes -> bytes -> bytes -> bytes -> option bytes;
  decrypt : bytes -> bytes -> bytes -> bytes -> option bytes;
  slots_to_json : Slots -> bytes;
  slots_from_json : bytes -> option Slots;
  random_bytes : nat -> nat -> bytes;
  simple_uuid : nat -> string;
  decrypt_encrypt : forall key nonce aad msg c, encrypt key nonce aad msg = Some c -> decrypt key nonce aad c = Some msg;
  encrypt_length : forall key nonce aad msg c, encrypt key nonce aad msg = Some c -> length c = (length msg + 16)%nat;
  slots_read_back : forall m, slots_from_json (slots_to_json m) = Some m;
  random_length : forall k n, length (random_bytes k n) = n
}.

Section FileVault.
Context `{VaultLibs}.
(** The next random draw. *)
Definition draw {A} (f : nat -> A) : M VaultWorld A :=
  fun w => (f (vw_draws w), {| vw_disk := vw_disk w; vw_faults := vw_faults w; vw_halted := vw_halted w; vw_draws := S (vw_draws w) |}).
(** [getrandom::fill] *)
Definition getrandom (n : nat) : M VaultWorld (result bytes IoError) :=
  let! b := draw (fun k => random_bytes k n) in
  syscall (fun d => Ok (b, d)) uncut.
Definition unavailable {A} (m : M VaultWorld (result A IoError)) : M VaultWorld (result A VaultError) :=
  let! r := m in mret_st match r with Ok a => Ok a | Err _ => Err Unavailable end.

Definition temp_name (name uuid : string) : string := "." ++ name ++ "." ++ uuid ++ ".tmp".
Definition write_temp (temp path : string) (b : bytes) : M VaultWorld (result unit IoError) :=
  try! _ := sys_create_new temp 384 in
  try! _ := sys_write_all temp b in
  try! _ := sys_sync temp in
  try! _ := sys_rename temp path in
  sys_sync_dir.
Definition write_private_atomically (path : string) (b : bytes) : M VaultWorld (result unit VaultError) :=
  let! uuid := draw simple_uuid in
  let temp := temp_name path uuid in
  let! written := write_temp temp path b in
  match written with
  | Ok _ => mret_st (Ok tt)
  | Err _ => let! _ := sys_remove temp in mret_st (Err Unavailable)
  end.
(** [0o700] *)
Definition restrict_directory : M VaultWorld (result unit VaultError) := unavailable (sys_set_permissions 448).
Definition load_or_create_key : M VaultWorld (result bytes VaultError) :=
  let! r := sys_read KEY_FILE in
  match r with
  | Ok b => mret_st (if negb (Nat.eqb (length b) FILE_VAULT_KEY_BYTES) then Err Unavailable else Ok b)
  | Err IoNotFound =>
    try! key := unavailable (getrandom FILE_VAULT_KEY_BYTES) in
    try! _ := write_private_atomically KEY_FILE key in
    mret_st (Ok key)
  | Err IoOther => mret_st (Err Unavailable)
  end.

(** The checks on the bytes of a container. *)
Definition open_container (key b : bytes) : option Slots :=
  let header := (length FILE_VAULT_MAGIC + FILE_VAULT_NONCE_BYTES)%nat in
  if Nat.ltb (length b) header || negb (bool_decide (take (length FILE_VAULT_MAGIC) b = FILE_VAULT_MAGIC)) then None
  else
    match decrypt key (take FILE_VAULT_NONCE_BYTES (drop (length FILE_VAULT_MAGIC) b)) FILE_VAULT_MAGIC (drop header b) with
    | Some plaintext => slots_from_json plaintext
    | None => None
    end.
Definition read_map (key : bytes) : M VaultWorld (result Slots VaultError) :=
  let! meta := sys_len DATA_FILE in
  match meta with
  | Ok len =>
    if FILE_VAULT_MAX_BYTES <? len then mret_st (Err Unavailable)
    else try! b := unavailable (sys_read DATA_FILE) in mret_st (ok_or (open_container key b) Unavailable)
  | Err IoNotFound => mret_st (Ok ∅)
  | Err IoOther => mret_st (Err Unavailable)
  end.
Definition write_map (key : bytes) (map : Slots) : M VaultWorld (result unit VaultError) :=
  let plaintext := slots_to_json map in
  try! nonce := unavailable (getrandom FILE_VAULT_NONCE_BYTES) in
  try! ciphertext := mret_st (ok_or (encrypt key nonce FILE_VAULT_MAGIC plaintext) Unavailable) in
  write_private_atomically DATA_FILE (FILE_VAULT_MAGIC ++ nonce ++ ciphertext).

(** [update] answers with a value and whether the map has changed. *)
Definition modify {T} (key : bytes) (update : Slots -> result (T * bool) VaultError * Slots) : M VaultWorld (result T VaultError) :=
  try! map := read_map key in
  let '(r, map) := update map in
  try! _ := match r with Ok (_, true) => write_map key map | _ => mret_st (Ok tt) end in
  mret_st match r with Ok (value, _) => Ok value | Err e => Err e end.

Definition file_put (key : bytes) (slot : string) (secret : SecretString) : M VaultWorld (result unit VaultError) :=
  modify key (fun map => (Ok (tt, true), <[slot := secret]> map)).
Definition file_get (key : bytes) (slot : string) : M VaultWorld (result SecretString VaultError) :=
  modify key (fun map => (match map !! slot with Some secret => Ok (secret, false) | None => Err NotFound end, map)).
Definition file_delete (key : bytes) (slot : string) : M VaultWorld (result unit VaultError) :=
  modify key (fun map => match map !! slot with Some _ => (Ok (tt, true), delete slot map) | None => (Err NotFound, map) end).
Definition file_backend (key : bytes) : KeyringBackend VaultWorld := {| backend_put := file_put key; backend_get := file_get key; backend_delete := file_delete key |}.
Definition file_vault `{UuidLib} (key : bytes) : Vault VaultWorld := @keyring_vault _ _ (file_backend key).

(** [FileVaultShared::open]: the key of the opened vault. *)
Definition file_vault_open : M VaultWorld (result bytes VaultError) :=
  try! _ := unavailable sys_create_dir in
  try! _ := restrict_directory in
  try! key := load_or_create_key in
  try! _ := read_map key in
  mret_st (Ok key).

Inductive VaultBackend := BackendKeyring | EncryptedFile.
(** The choice of the backend, with the key of the file vault. *)
Definition platform_vault `{KeyringCrate VaultWorld} (os : TargetOs) : M VaultWorld (result (VaultBackend * bytes) VaultError) :=
  let! ready := ensure_available os in
  match ready with
  | Ok _ => mret_st (Ok (BackendKeyring, []))
  | Err Unavailable =>
    match os with
    | Linux => try! key := file_vault_open in mret_st (Ok (EncryptedFile, key))
    | _ => mret_st (Err Unavailable)
    end
  | Err e => mret_st (Err e)
  end.
End FileVault.
