(* ===== verification/VaultProps.v ===== *)
(** * The vault of camera secrets: theorems

    Slots determine what they belong to; the file vault answers as the fake vault does; a crash at
    any system call leaves a container that was there before or the new one, and an acknowledged
    change is durable; deletion tries every slot; the files are private; a container that outgrows
    the limit locks the vault. *)

From S2P Require Import Prelude Text Bytes Vault.

(** ** System calls *)
Lemma syscall_cases {A} (op : Disk -> result (A * Disk) IoError) cut w r w' :
  syscall op cut w = (r, w') ->
  vw_draws w' = vw_draws w /\
  ((exists a, r = Ok a /\ op (vw_disk w) = Ok (a, vw_disk w') /\ vw_halted w = false /\ vw_halted w' = false) \/
   (exists e, r = Err e /\ (vw_disk w' = vw_disk w \/ exists n, vw_disk w' = cut n (vw_disk w)))).
Proof.
  unfold syscall. destruct (vw_halted w) eqn:Eh; [intros [= <- <-]; split; [done|right; eauto]|].
  destruct (default IoGo _) as [|n|n]; [|intros [= <- <-]; split; [done|right; eauto]..].
  destruct (op (vw_disk w)) as [[a d]|e] eqn:Eo; intros [= <- <-]; simpl; split; try done; [left; eauto|right; eauto].
Qed.

(** The directories of [d'] beyond those of [d] agree with the current one outside of [S]. *)
Definition frame (S : gset string) (d d' : Disk) : Prop :=
  (forall n, n ∉ S -> dk_now d' !! n = dk_now d !! n) /\
  (forall snap, snap ∈ dk_past d' -> snap ∈ dk_past d \/ forall n, n ∉ S -> snap !! n = dk_now d !! n).
Definition frames {A} (S : gset string) (m : M VaultWorld A) : Prop := forall w, frame S (vw_disk w) (vw_disk (snd (m w))).

#[export] Instance frame_refl S : Reflexive (frame S).
Proof. intros d. split; [done|by left]. Qed.
#[export] Instance frame_trans S : Transitive (frame S).
Proof.
  intros d1 d2 d3 [H1 P1] [H2 P2]. split; [intros n Hn; by rewrite H2, H1|]. intros snap Hs. apply P2 in Hs as [Hs|Hs]; [by apply P1|].
  right. intros n Hn. by rewrite Hs, H1.
Qed.
Lemma frame_weaken S S' d d' : S ⊆ S' -> frame S d d' -> frame S' d d'.
Proof. intros HS [H1 P1]. split; [intros n Hn; apply H1; set_solver|]. intros snap Hs. apply P1 in Hs as [Hs|Hs]; [by left|]. right. intros n Hn. apply Hs. set_solver. Qed.

Lemma frames_syscall {A} S (op : Disk -> result (A * Disk) IoError) cut :
  (forall d a d', op d = Ok (a, d') -> frame S d d') -> (forall n d, frame S d (cut n d)) -> frames S (syscall op cut).
Proof.
  intros Ho Hc w. destruct (syscall op cut w) as [r w'] eqn:E. simpl. apply syscall_cases in E as (_ & [(a & _ & Hop & _)|(e & _ & [->|[n ->]])]); [by eapply Ho|done|done].
Qed.
Lemma frames_ret {A} S (a : A) : frames S (mret_st a).
Proof. intros w. done. Qed.
Lemma frames_bind {A B} S (m : M VaultWorld A) (k : A -> M VaultWorld B) : frames S m -> (forall a, frames S (k a)) -> frames S (mbind_st m k).
Proof. intros Hm Hk w. unfold mbind_st. specialize (Hm w). destruct (m w) as [a w']. simpl in Hm. etrans; [exact Hm|apply Hk]. Qed.
Lemma frames_try {A B E} S (m : M VaultWorld (result A E)) (k : A -> M VaultWorld (result B E)) : frames S m -> (forall a, frames S (k a)) -> frames S (try_bind m k).
Proof. intros Hm Hk. apply frames_bind; [done|]. intros [a|e]; [apply Hk|apply frames_ret]. Qed.
Lemma frames_draw {A} S (f : nat -> A) : frames S (draw f).
Proof. intros w. done. Qed.
Lemma frames_unavailable {A} S (m : M VaultWorld (result A IoError)) : frames S m -> frames S (unavailable m).
Proof. intros Hm. apply frames_bind; [done|]. intros r. apply frames_ret. Qed.
#[export] Hint Resolve frames_ret frames_bind frames_try frames_draw frames_unavailable : lattice.

(** One step of the directory that changes the names of [S]. *)
Lemma frame_step S dir d : (forall n, n ∉ S -> dir !! n = dk_now d !! n) -> frame S d (step_dir dir d).
Proof. intros Hn. split; simpl; [done|]. intros snap [->|Hs]%elem_of_cons; [right|left]; done. Qed.
Lemma frame_put S name b d : name ∈ S -> frame S d (put_bytes name b d).
Proof. intros HS. unfold put_bytes. case_match; [|done]. apply frame_step. intros n Hn. apply lookup_insert_ne. set_solver. Qed.
Ltac frame_op :=
  intros; apply frames_syscall; [|intros; try (by apply frame_put); reflexivity];
  let d := fresh "d" in let a := fresh "a" in let d' := fresh "d'" in let H := fresh "H" in
  intros d a d' H; repeat case_match; simplify_eq; try reflexivity;
  apply frame_step; intros; rewrite ?lookup_insert_ne, ?lookup_delete_ne by set_solver; reflexivity.
Lemma frames_create S name mode : name ∈ S -> frames S (sys_create_new name mode).
Proof. frame_op. Qed.
Lemma frames_sync S name : name ∈ S -> frames S (sys_sync name).
Proof. frame_op. Qed.
Lemma frames_rename S from to : from ∈ S -> to ∈ S -> frames S (sys_rename from to).
Proof. frame_op. Qed.
Lemma frames_remove S name : name ∈ S -> frames S (sys_remove name).
Proof. frame_op. Qed.
Lemma frames_write S name b : name ∈ S -> frames S (sys_write_all name b).
Proof. intros HS. apply frames_syscall; [intros d a d' [= <- <-]; by apply frame_put|intros n d; by apply frame_put]. Qed.
Lemma frames_sync_dir S : frames S sys_sync_dir.
Proof. apply frames_syscall; [|done]. intros d a d' [= <- <-]. split; simpl; [done|]. intros snap []%elem_of_nil. Qed.
Lemma frames_read S name : frames S (sys_read name).
Proof. frame_op. Qed.
Lemma frames_len S name : frames S (sys_len name).
Proof. frame_op. Qed.
#[export] Hint Resolve frames_create frames_sync frames_rename frames_remove frames_write frames_sync_dir frames_read frames_len : lattice.

(** ** Writing a file atomically *)
(** The entry at [path] is in [N] for programs and in [P] after a crash. *)
Definition good (N P : option VFile -> Prop) (path : string) (d : Disk) : Prop := N (dk_now d !! path) /\ forall snap, snap ∈ dk_past d -> P (snap !! path).
Lemma good_frame S (N P : option VFile -> Prop) path d d' : (forall o, N o -> P o) -> path ∉ S -> frame S d d' -> good N P path d -> good N P path d'.
Proof.
  intros HNP Hp [H1 P1] [Hn Hs]. split; [by rewrite H1|]. intros snap Hin. apply P1 in Hin as [Hin|Hin]; [by apply Hs|rewrite Hin by done; by apply HNP].
Qed.
Lemma good_weaken (N P N' P' : option VFile -> Prop) path d : (forall o, N o -> N' o) -> (forall o, P o -> P' o) -> good N P path d -> good N' P' path d.
Proof. intros HN HP [H1 H2]. split; [by apply HN|]. intros snap Hs. by apply HP, H2. Qed.

Lemma frames_at {A} S (m : M VaultWorld A) w r w' : frames S m -> m w = (r, w') -> frame S (vw_disk w) (vw_disk w').
Proof. intros Hm E. specialize (Hm w). by rewrite E in Hm. Qed.

Definition private_file (b : bytes) : VFile := {| f_bytes := b; f_synced := true; f_mode := 384 |}.
Definition write_steps (temp : string) (b : bytes) : M VaultWorld (result unit IoError) :=
  try! _ := sys_create_new temp 384 in try! _ := sys_write_all temp b in sys_sync temp.
Lemma write_temp_eq temp path b w : write_temp temp path b w = (try! _ := write_steps temp b in try! _ := sys_rename temp path in sys_sync_dir) w.
Proof.
  unfold write_temp, write_steps, try_bind, mbind_st. destruct (sys_create_new temp 384 w) as [[[]|e] w1]; [|done].
  destruct (sys_write_all temp b w1) as [[[]|e] w2]; [|done]. by destruct (sys_sync temp w2) as [[[]|e] w3].
Qed.

Lemma try_bind_cases {S A B E} (m : M S (result A E)) (k : A -> M S (result B E)) w r w' :
  try_bind m k w = (r, w') -> (exists a w1, m w = (Ok a, w1) /\ k a w1 = (r, w')) \/ (exists e, m w = (Err e, w') /\ r = Err e).
Proof. unfold try_bind, mbind_st. destruct (m w) as [[a|e] w1]; [left; eauto|intros [= <- <-]; right; eauto]. Qed.

Lemma write_steps_ok temp b w w' : write_steps temp b w = (Ok tt, w') -> dk_now (vw_disk w') !! temp = Some (private_file b).
Proof.
  intros H. apply try_bind_cases in H as [([] & w1 & H1 & H)|(e & _ & [=])]. apply try_bind_cases in H as [([] & w2 & H2 & H)|(e & _ & [=])].
  apply syscall_cases in H1 as (_ & [(a1 & _ & O1 & _)|(e & [=] & _)]). apply syscall_cases in H2 as (_ & [(a2 & _ & O2 & _)|(e & [=] & _)]).
  apply syscall_cases in H as (_ & [(a3 & _ & O3 & _)|(e & [=] & _)]).
  simpl in O1. destruct (dk_now (vw_disk w) !! temp); [done|]. injection O1 as _ O1. rewrite <- O1 in O2. unfold put_bytes in O2. simpl in O2. rewrite lookup_insert_eq in O2. injection O2 as _ O2.
  rewrite <- O2 in O3. simpl in O3. rewrite lookup_insert_eq in O3. injection O3 as _ O3. rewrite <- O3. simpl. by rewrite lookup_insert_eq.
Qed.
Lemma frames_write_steps S temp b : temp ∈ S -> frames S (write_steps temp b).
Proof. unfold write_steps. auto 10 with lattice. Qed.
Lemma frames_write_temp S temp path b : temp ∈ S -> path ∈ S -> frames S (write_temp temp path b).
Proof. unfold write_temp. auto 20 with lattice. Qed.

Lemma write_temp_good (N P : option VFile -> Prop) temp path b w r w' :
  (forall o, N o -> P o) -> temp <> path -> good N P path (vw_disk w) -> N (Some (private_file b)) -> write_temp temp path b w = (r, w') ->
  good N P path (vw_disk w') /\ (r = Ok tt -> dk_now (vw_disk w') !! path = Some (private_file b) /\ dk_past (vw_disk w') = [] /\ vw_halted w' = false).
Proof.
  intros HNP Hne Hg HQ. rewrite write_temp_eq. intros H. apply try_bind_cases in H as [([] & w1 & H1 & H)|(e & H & ->)].
  2: { split; [|done]. eapply (good_frame {[temp]}); [done|set_solver| |exact Hg]. eapply frames_at; [|exact H]. apply frames_write_steps. set_solver. }
  assert (good N P path (vw_disk w1)) as Hg1. { eapply (good_frame {[temp]}); [done|set_solver| |exact Hg]. eapply frames_at; [|exact H1]. apply frames_write_steps. set_solver. }
  apply write_steps_ok in H1. apply try_bind_cases in H as [([] & w2 & H2 & H)|(e & H & ->)].
  2: { apply syscall_cases in H as (_ & [(a & [=] & _)|(e' & _ & Hd)]). split; [|done]. destruct Hd as [->|[n ->]]; done. }
  assert (good N P path (vw_disk w2) /\ dk_now (vw_disk w2) !! path = Some (private_file b)) as [Hg2 Hn].
  { apply syscall_cases in H2 as (_ & [(a & _ & Ho & _)|(e & [=] & _)]). rewrite H1 in Ho. injection Ho as _ <-. simpl. rewrite lookup_insert_eq. split; [|done].
    split; simpl; [by rewrite lookup_insert_eq|]. intros snap [->|Hs]%elem_of_cons; [exact (HNP _ (proj1 Hg1))|by apply (proj2 Hg1)]. }
  apply syscall_cases in H as (_ & [(a & -> & Ho & _ & Hh)|(e & -> & Hd)]).
  - injection Ho as _ <-. simpl. split; [|done]. split; simpl; [exact (proj1 Hg2)|]. intros snap []%elem_of_nil.
  - split; [|done]. destruct Hd as [->|[n ->]]; done.
Qed.

Section Spec.
Context `{VL : VaultLibs}.
Lemma temp_name_ne path uuid name : head (String.list_ascii_of_string name) <> Some "."%char -> temp_name path uuid <> name.
Proof. intros Hn <-. done. Qed.
Definition plain_name (n : string) : Prop := head (String.list_ascii_of_string n) <> Some "."%char.

Lemma write_private_good (N P : option VFile -> Prop) path b w r w' :
  (forall o, N o -> P o) -> plain_name path -> good N P path (vw_disk w) -> N (Some (private_file b)) -> write_private_atomically path b w = (r, w') ->
  good N P path (vw_disk w') /\ (r = Ok tt -> dk_now (vw_disk w') !! path = Some (private_file b) /\ dk_past (vw_disk w') = [] /\ vw_halted w' = false).
Proof.
  intros HNP Hp Hg HQ. unfold write_private_atomically. unfold mbind_st at 1. unfold draw at 1. set (w0 := {| vw_disk := vw_disk w |}). set (temp := temp_name path _).
  assert (temp <> path) as Hne by (by apply temp_name_ne). unfold mbind_st. destruct (write_temp temp path b w0) as [[[]|e] w1] eqn:E.
  - intros [= <- <-]. apply (write_temp_good N P temp path b w0) in E as [Hg1 Hok]; [|done..]. split; [done|]. intros _. by apply Hok.
  - apply (write_temp_good N P temp path b w0) in E as [Hg1 _]; [|done..]. destruct (sys_remove temp w1) as [r2 w2] eqn:E2. intros [= <- <-]. split; [|done].
    eapply (good_frame {[temp]}); [done|set_solver| |exact Hg1]. eapply frames_at; [|exact E2]. apply frames_remove. set_solver.
Qed.
(** Another file is not touched. *)
Lemma write_private_other (N P : option VFile -> Prop) path other b w r w' :
  (forall o, N o -> P o) -> plain_name other -> other <> path -> good N P other (vw_disk w) -> write_private_atomically path b w = (r, w') -> good N P other (vw_disk w').
Proof.
  intros HNP Hp Hne Hg. unfold write_private_atomically. unfold mbind_st at 1. unfold draw at 1. set (w0 := {| vw_disk := vw_disk w |}). set (temp := temp_name path _).
  assert (temp <> other) as Hne' by (by apply temp_name_ne). intros E. eapply (good_frame {[temp; path]}); [done|set_solver| |exact Hg].
  change (vw_disk w) with (vw_disk w0). eapply frames_at; [|exact E]. apply frames_bind; [apply frames_write_temp; set_solver|]. intros [[]|e]; [apply frames_ret|].
  apply frames_bind; [apply frames_remove; set_solver|]. intros ?. apply frames_ret.
Qed.

(** ** Containers *)
Lemma open_container_seal key nonce c m :
  length nonce = FILE_VAULT_NONCE_BYTES -> encrypt key nonce FILE_VAULT_MAGIC (slots_to_json m) = Some c ->
  open_container key (FILE_VAULT_MAGIC ++ nonce ++ c) = Some m.
Proof.
  intros Hn Hc. unfold open_container. rewrite !length_app, Hn.
  assert (take (length FILE_VAULT_MAGIC) (FILE_VAULT_MAGIC ++ nonce ++ c) = FILE_VAULT_MAGIC) as -> by apply take_app_length.
  rewrite bool_decide_eq_true_2 by done. rewrite orb_false_r. rewrite (proj2 (Nat.ltb_ge _ _)) by lia.
  rewrite drop_app_length. rewrite <- Hn at 1. rewrite take_app_length.
  assert (drop (length FILE_VAULT_MAGIC + FILE_VAULT_NONCE_BYTES) (FILE_VAULT_MAGIC ++ nonce ++ c) = c) as ->.
  { rewrite <- drop_drop, drop_app_length, <- Hn. apply drop_app_length. }
  rewrite (decrypt_encrypt _ _ _ _ _ Hc). apply slots_read_back.
Qed.

#[local] Arguments open_container : simpl never.
(** What an entry of the directory holds, read without regard to its size. *)
Definition holds (key : bytes) (m : Slots) (o : option VFile) : Prop :=
  match o with None => m = ∅ | Some f => f_synced f = true /\ open_container key (f_bytes f) = Some m end.
(** The map that programs see, and the maps that a crash may bring back. *)
Definition vault_state (key : bytes) (m : Slots) (ms : Slots -> Prop) (d : Disk) : Prop :=
  good (holds key m) (fun o => exists m', ms m' /\ holds key m' o) DATA_FILE d.
Definition small_enough (o : option VFile) : Prop := match o with None => True | Some f => Z.of_nat (length (f_bytes f)) <= FILE_VAULT_MAX_BYTES end.
Definition quiet (w : VaultWorld) : Prop := vw_faults w = [] /\ vw_halted w = false.

Lemma syscall_quiet {A} (op : Disk -> result (A * Disk) IoError) cut w :
  quiet w -> syscall op cut w =
    match op (vw_disk w) with Ok (a, d) => (Ok a, set_disk d w) | Err e => (Err e, w) end.
Proof. intros [Hf Hh]. unfold syscall. rewrite Hh, Hf. simpl. destruct w as [d f h n]. simpl in *. subst. by destruct (op d) as [[a d']|]. Qed.

Lemma syscall_pure {A} (op : Disk -> result (A * Disk) IoError) w r w' :
  (forall d a d', op d = Ok (a, d') -> d' = d) -> syscall op uncut w = (r, w') ->
  vw_disk w' = vw_disk w /\ (r = Err IoOther \/ match op (vw_disk w) with Ok (a, _) => r = Ok a | Err e => r = Err e end).
Proof.
  intros Hp. unfold syscall. destruct (vw_halted w); [intros [= <- <-]; auto|]. destruct (default IoGo _) as [|n|n]; [|intros [= <- <-]; auto..].
  destruct (op (vw_disk w)) as [[a d]|e] eqn:E; intros [= <- <-]; simpl; [apply Hp in E as ->|]; auto.
Qed.

Lemma read_map_spec key m w r w' :
  holds key m (dk_now (vw_disk w) !! DATA_FILE) -> read_map key w = (r, w') -> vw_disk w' = vw_disk w /\ (r = Ok m \/ r = Err Unavailable).
Proof.
  intros Hm. unfold read_map, mbind_st at 1. destruct (sys_len DATA_FILE w) as [r1 w1] eqn:E1. apply syscall_pure in E1 as [Hd1 Hr1].
  2: { intros d a d'. case_match; [|done]. by intros [= _ <-]. }
  destruct Hr1 as [->|Hr1]; [intros [= <- <-]; auto|]. destruct (dk_now (vw_disk w) !! DATA_FILE) as [f|] eqn:Ef.
  2: { subst r1. simpl in Hm. subst m. intros [= <- <-]. auto. }
  subst r1. destruct Hm as [_ Hm]. case_match; [intros [= <- <-]; auto|]. unfold unavailable, try_bind, mbind_st. destruct (sys_read DATA_FILE w1) as [r2 w2] eqn:E2.
  apply syscall_pure in E2 as [Hd2 Hr2]; [|intros d a d'; case_match; [|done]; by intros [= _ <-]]. rewrite Hd1, Ef in Hr2.
  destruct Hr2 as [->| ->]; intros [= <- <-]; rewrite Hd2; [auto|]. rewrite Hm. auto.
Qed.
Lemma read_map_quiet key m w : quiet w -> holds key m (dk_now (vw_disk w) !! DATA_FILE) -> small_enough (dk_now (vw_disk w) !! DATA_FILE) -> read_map key w = (Ok m, w).
Proof.
  intros Hq Hm Hs. unfold read_map, mbind_st at 1. unfold sys_len. rewrite syscall_quiet by done. destruct (dk_now (vw_disk w) !! DATA_FILE) as [f|] eqn:Ef.
  - simpl in *. rewrite (proj2 (Z.ltb_ge _ _) Hs). destruct w as [d fl h n]. unfold set_disk. simpl in *. unfold unavailable, try_bind, mbind_st, sys_read.
    rewrite syscall_quiet by done. simpl. rewrite Ef. unfold mret_st. simpl. destruct Hm as [_ ->]. done.
  - simpl in Hm. by subst m.
Qed.

(** What a write of the map may leave. *)
Lemma vault_state_now key m (ms : Slots -> Prop) d : vault_state key m ms d -> holds key m (dk_now d !! DATA_FILE).
Proof. by intros [? _]. Qed.
Lemma vault_state_more key m (ms ms' : Slots -> Prop) d : (forall x, ms x -> ms' x) -> vault_state key m ms d -> vault_state key m ms' d.
Proof. intros Hms. apply good_weaken; [done|]. intros o (x & Hx & Ho). eauto. Qed.
Lemma getrandom_spec n w r w' : unavailable (getrandom n) w = (r, w') -> vw_disk w' = vw_disk w /\ (r = Ok (random_bytes (vw_draws w) n) \/ r = Err Unavailable).
Proof.
  unfold unavailable, mbind_st at 1, getrandom, mbind_st at 1, draw. destruct (syscall _ _ _) as [r2 w2] eqn:E2.
  apply syscall_pure in E2 as [Hd2 Hr2]; [|by intros d a d' [= _ <-]]. simpl in Hd2, Hr2. intros [= <- <-]. split; [done|]. destruct Hr2 as [->| ->]; auto.
Qed.
Lemma write_map_spec key m m1 (ms : Slots -> Prop) w r w' :
  ms m -> vault_state key m ms (vw_disk w) -> write_map key m1 w = (r, w') ->
  exists m', vault_state key m' (fun x => ms x \/ x = m1) (vw_disk w') /\ (m' = m \/ m' = m1) /\
    (r = Ok tt -> m' = m1 /\ dk_past (vw_disk w') = [] /\ vw_halted w' = false).
Proof.
  intros Hms Hst0 H. assert (vault_state key m (fun x => ms x \/ x = m1) (vw_disk w)) as Hst by (eapply vault_state_more; [|exact Hst0]; auto).
  unfold write_map in H. apply try_bind_cases in H as [(nonce & w1 & H1 & H)|(e & H & ->)].
  2: { exists m. apply getrandom_spec in H as [-> _]. split_and!; [done|by left|done]. }
  apply getrandom_spec in H1 as [Hd [Hn|Hn]]; [|done]. injection Hn as Hn. rewrite <- Hd in Hst.
  apply try_bind_cases in H as [(c & w2 & [= Hc <-] & H)|(e & [= _ <-] & ->)]; [|exists m; split_and!; [done|by left|done]].
  destruct (encrypt key nonce FILE_VAULT_MAGIC (slots_to_json m1)) as [c'|] eqn:Ec; [|done]. injection Hc as ->.
  assert (open_container key (FILE_VAULT_MAGIC ++ nonce ++ c) = Some m1) as Hopen by (apply open_container_seal; [subst; apply random_length|done]).
  apply (write_private_good (fun o => holds key m o \/ holds key m1 o) (fun o => exists m', (ms m' \/ m' = m1) /\ holds key m' o) DATA_FILE) in H as [Hg Hok].
  - destruct r as [[]|e].
    + destruct (Hok eq_refl) as (Hnow & Hpast & Hh). exists m1. split; [|auto]. split; [rewrite Hnow; by split|]. rewrite Hpast. intros snap []%elem_of_nil.
    + destruct Hg as [[Hg|Hg] Hp]; [exists m|exists m1]; (split; [by split|split; [auto|done]]).
  - intros o [Ho|Ho]; [exists m|exists m1]; auto.
  - done.
  - eapply good_weaken; [| |exact Hst]; auto.
  - right. by split.
Qed.

(** ** Runs, crashes and restarts *)
Inductive SlotOp := OpPut (slot : string) (secret : SecretString) | OpGet (slot : string) | OpDelete (slot : string).
Definition slot_run (key : bytes) (op : SlotOp) : M VaultWorld bool :=
  match op with
  | OpPut slot secret => let! r := file_put key slot secret in mret_st (is_ok r)
  | OpGet slot => let! r := file_get key slot in mret_st (is_ok r)
  | OpDelete slot => let! r := file_delete key slot in mret_st (is_ok r)
  end.
Definition slots_run (key : bytes) (ops : list SlotOp) (w : VaultWorld) : VaultWorld := fold_left (fun w op => snd (slot_run key op w)) ops w.
(** The map after an operation that takes effect. *)
Definition slot_effect (op : SlotOp) (m : Slots) : Slots :=
  match op with OpPut slot secret => <[slot := secret]> m | OpGet _ => m | OpDelete slot => delete slot m end.
Definition slot_effects (ops : list SlotOp) (m : Slots) : Slots := fold_left (fun m op => slot_effect op m) ops m.
(** An operation that changes the map when it succeeds. *)
Definition slot_change (op : SlotOp) : bool := match op with OpGet _ => false | _ => true end.

Lemma modify_spec {T} key (update : Slots -> result (T * bool) VaultError * Slots) m (ms : Slots -> Prop) w r w' :
  ms m -> vault_state key m ms (vw_disk w) -> modify key update w = (r, w') ->
  exists m', vault_state key m' (fun x => ms x \/ x = snd (update m)) (vw_disk w') /\ (m' = m \/ m' = snd (update m)) /\
    (forall v c, fst (update m) = Ok (v, c) -> is_ok r = true -> if c then m' = snd (update m) /\ dk_past (vw_disk w') = [] /\ vw_halted w' = false else m' = m) /\
    (is_ok (fst (update m)) = false -> is_ok r = false).
Proof.
  intros Hms Hst H. assert (vault_state key m (fun x => ms x \/ x = snd (update m)) (vw_disk w)) as Hst' by (eapply vault_state_more; [|exact Hst]; auto).
  unfold modify in H. apply try_bind_cases in H as [(m0 & w1 & H1 & H)|(e & H & ->)].
  2: { apply (read_map_spec _ m) in H as [-> _]; [|by eapply vault_state_now]. exists m. split_and!; [done|by left|done|done]. }
  apply (read_map_spec _ m) in H1 as [Hd Hm0]; [|by eapply vault_state_now]. destruct Hm0 as [[= ->]|]; [|done]. rewrite <- Hd in Hst', Hst.
  destruct (update m) as [u m1]. simpl in *. apply try_bind_cases in H as [([] & w2 & H2 & H)|(e & H & ->)].
  - injection H as <- <-. destruct u as [[v [|]]|e].
    + apply (write_map_spec _ m _ ms) in H2 as (m' & Hs & Hm' & Hok); [|done..]. exists m'. split_and!; [done|done| |done]. intros v' c' [= <- <-] _. by apply Hok.
    + injection H2 as <-. exists m. split_and!; [done|by left|by intros v' c' [= <- <-] _|done].
    + injection H2 as <-. exists m. split_and!; [done|by left|done|done].
  - destruct u as [[v [|]]|e']; [|done..]. apply (write_map_spec _ m _ ms) in H as (m' & Hs & Hm' & _); [|done..]. exists m'. by split_and!.
Qed.

Lemma slot_run_spec key op m (ms : Slots -> Prop) w ok w' :
  ms m -> vault_state key m ms (vw_disk w) -> slot_run key op w = (ok, w') ->
  exists m', vault_state key m' (fun x => ms x \/ x = slot_effect op m) (vw_disk w') /\ (m' = m \/ m' = slot_effect op m) /\
    (ok = true -> slot_change op = true -> m' = slot_effect op m /\ dk_past (vw_disk w') = [] /\ vw_halted w' = false).
Proof.
  intros Hms Hst H. destruct op as [slot secret|slot|slot]; simpl in H; unfold mbind_st in H.
  - destruct (file_put key slot secret w) as [r w1] eqn:E. injection H as <- <-. eapply modify_spec in E as (m' & Hs & Hm & Hok & _); [|done..].
    exists m'. split_and!; [done|done|]. intros Hr _. by apply (Hok _ _ eq_refl).
  - destruct (file_get key slot w) as [r w1] eqn:E. injection H as <- <-. eapply modify_spec in E as (m' & Hs & Hm & _ & _); [|done..]. exists m'. by split_and!.
  - destruct (file_delete key slot w) as [r w1] eqn:E. injection H as <- <-. eapply modify_spec in E as (m' & Hs & Hm & Hok & Hbad); [|done..]. simpl in *.
    destruct (m !! slot) as [old|] eqn:El.
    + exists m'. split_and!; [done|done|]. intros Hr _. by apply (Hok _ _ eq_refl).
    + simpl in *. assert (delete slot m = m) as Hdel by (by apply delete_id). rewrite Hdel. exists m'. split_and!; [done|done|]. intros Hr. by rewrite Hbad in Hr.
Qed.

(** What the container of a directory holds. *)
Definition container (key : bytes) (dir : gmap string VFile) : option Slots :=
  match dir !! DATA_FILE with None => Some ∅ | Some f => open_container key (f_bytes f) end.
Lemma holds_container key m dir : holds key m (dir !! DATA_FILE) -> container key dir = Some m.
Proof. unfold holds, container. destruct (dir !! DATA_FILE) as [f|]; [by intros [_ ?]|by intros ->]. Qed.
Lemma after_crash_holds key m d (ms : Slots -> Prop) dir : ms m -> vault_state key m ms d -> after_crash d dir -> exists m', ms m' /\ holds key m' (dir !! DATA_FILE).
Proof.
  intros Hms [Hn Hp] (snap & Hs & Hf). assert (exists m', ms m' /\ holds key m' (snap !! DATA_FILE)) as (m' & Hm' & Hh) by (destruct Hs as [->|Hs]; eauto).
  exists m'. split; [done|]. specialize (Hf DATA_FILE). destruct (snap !! DATA_FILE) as [f|]; [|by rewrite Hf]. destruct Hh as [Hsy Ho]. rewrite Hsy in Hf. by rewrite Hf.
Qed.

(** The maps that some of the operations, in their order, make of the map [m]. *)
Definition partial_effect (ops : list SlotOp) (m x : Slots) : Prop := exists sub, sub `sublist_of` ops /\ x = slot_effects sub m.
Lemma partial_effect_snoc ops op m x : partial_effect ops m x -> partial_effect (ops ++ [op]) m x /\ partial_effect (ops ++ [op]) m (slot_effect op x).
Proof.
  intros (sub & Hs & ->). split; [exists sub; split; [by apply sublist_inserts_r|done]|]. exists (sub ++ [op]). split; [by apply sublist_app|]. unfold slot_effects. by rewrite fold_left_app.
Qed.
Lemma slots_run_state key m0 ops w :
  vault_state key m0 (fun x => x = m0) (vw_disk w) -> exists m, partial_effect ops m0 m /\ vault_state key m (partial_effect ops m0) (vw_disk (slots_run key ops w)).
Proof.
  intros Hst. induction ops as [|op ops IH] using rev_ind.
  - exists m0. assert (partial_effect [] m0 m0) by (by exists []). split; [done|]. eapply vault_state_more; [|exact Hst]. by intros x ->.
  - destruct IH as (m & Hm & Hs). unfold slots_run. rewrite fold_left_app. simpl. fold (slots_run key ops w). destruct (slot_run key op (slots_run key ops w)) as [ok w'] eqn:E.
    apply (slot_run_spec _ _ m (partial_effect ops m0)) in E as (m' & Hs' & Hm' & _); [|done..]. destruct (partial_effect_snoc ops op m0 m Hm) as [H1 H2].
    exists m'. split; [by destruct Hm' as [->| ->]|]. eapply vault_state_more; [|exact Hs']. intros x [Hx| ->]; [|done]. by apply partial_effect_snoc.
Qed.

(** C26. An acknowledged change of the file vault is durable: after any operations with any faults,
    once a put or a deletion has answered with success, every crash leaves exactly the map that it
    made of the map that was visible before. *)
Theorem acknowledged_change_is_durable key m0 ops op w w' :
  vault_state key m0 (fun x => x = m0) (vw_disk w) -> slot_change op = true ->
  slot_run key op (slots_run key ops w) = (true, w') ->
  exists m, partial_effect ops m0 m /\ container key (dk_now (vw_disk (slots_run key ops w))) = Some m /\
    container key (dk_now (vw_disk w')) = Some (slot_effect op m) /\ forall dir, after_crash (vw_disk w') dir -> container key dir = Some (slot_effect op m).
Proof.
  intros Hst Hop H. destruct (slots_run_state key m0 ops w Hst) as (m & Hm & Hs). exists m. split; [done|]. split; [by apply holds_container, (vault_state_now _ _ _ _ Hs)|].
  destruct (slot_run_spec key op m (partial_effect ops m0) _ _ _ Hm Hs H) as (m' & Hs' & _ & Hok). destruct (Hok eq_refl Hop) as (-> & Hpast & _).
  split; [by apply holds_container, (vault_state_now _ _ _ _ Hs')|]. intros dir Hdir. apply holds_container.
  destruct (after_crash_holds key (slot_effect op m) (vw_disk w') (fun x => x = slot_effect op m) dir) as (x & -> & Hx); [done| |done|done].
  split; [by apply (vault_state_now _ _ _ _ Hs')|]. rewrite Hpast. intros snap []%elem_of_nil.
Qed.

Definition empty_world (faults : list IoFault) : VaultWorld := {| vw_disk := {| dk_mode := None; dk_now := ∅; dk_past := [] |}; vw_faults := faults; vw_halted := false; vw_draws := 0 |}.
(** The machine after a restart, with the directory that the crash left. *)
Definition boot (dir : gmap string VFile) : VaultWorld := {| vw_disk := {| dk_mode := Some 448; dk_now := dir; dk_past := [] |}; vw_faults := []; vw_halted := false; vw_draws := 0 |}.

Lemma frames_read_map S key : frames S (read_map key).
Proof.
  unfold read_map. apply frames_bind; [apply frames_len|]. intros [len|[]]; [|apply frames_ret..]. case_match; [apply frames_ret|]. auto with lattice.
Qed.
Lemma frames_create_dir S : frames S sys_create_dir.
Proof. apply frames_syscall; [|done]. intros d a d' [= _ <-]. split; simpl; [done|by left]. Qed.
Lemma frames_set_permissions S mode : frames S (sys_set_permissions mode).
Proof. apply frames_syscall; [|done]. intros d a d'. case_match; [|done]. intros [= _ <-]. split; simpl; [done|by left]. Qed.

Lemma good_same_frame (N P : option VFile -> Prop) path {A} (m : M VaultWorld A) w r w' :
  (forall o, N o -> P o) -> frames ∅ m -> m w = (r, w') -> good N P path (vw_disk w) -> good N P path (vw_disk w').
Proof. intros HNP Hm E. eapply (good_frame ∅); [done|set_solver|by eapply frames_at]. Qed.

(** The other file of the directory stays as it is. *)
Lemma slot_run_key_file key op k w : good (eq (Some k)) (eq (Some k)) KEY_FILE (vw_disk w) -> good (eq (Some k)) (eq (Some k)) KEY_FILE (vw_disk (snd (slot_run key op w))).
Proof.
  intros Hg. assert (forall T (update : Slots -> result (T * bool) VaultError * Slots) r w', modify key update w = (r, w') -> good (eq (Some k)) (eq (Some k)) KEY_FILE (vw_disk w')) as Hm.
  { intros T update r w' H. unfold modify in H. apply try_bind_cases in H as [(m0 & w1 & H1 & H)|(e & H & ->)]; [|by eapply good_same_frame; [|apply frames_read_map|exact H|]].
    assert (good (eq (Some k)) (eq (Some k)) KEY_FILE (vw_disk w1)) as Hg1 by (by eapply good_same_frame; [|apply frames_read_map|exact H1|]).
    destruct (update m0) as [u m1]. assert (forall r2 w2, write_map key m1 w1 = (r2, w2) -> good (eq (Some k)) (eq (Some k)) KEY_FILE (vw_disk w2)) as Hw.
    { intros r2 w2 H2. unfold write_map in H2. apply try_bind_cases in H2 as [(nonce & w3 & H3 & H2)|(e & H2 & ->)].
      2: { apply getrandom_spec in H2 as [-> _]. done. }
      apply getrandom_spec in H3 as [Hd _]. rewrite <- Hd in Hg1. apply try_bind_cases in H2 as [(c & w4 & [= _ <-] & H2)|(e & [= _ <-] & ->)]; [|done].
      by eapply write_private_other; [| | | |exact H2]. }
    apply try_bind_cases in H as [([] & w2 & H2 & [= _ <-])|(e & H & ->)].
    - destruct u as [[v [|]]|e]; [by eapply Hw|by injection H2 as <-..].
    - destruct u as [[v [|]]|e']; [by eapply Hw|done..]. }
  destruct op as [slot secret|slot|slot]; simpl; unfold mbind_st, file_put, file_get, file_delete;
    (destruct (modify key _ w) as [r w'] eqn:Em; by apply Hm in Em).
Qed.

Lemma open_fresh key faults w : file_vault_open (empty_world faults) = (Ok key, w) ->
  good (eq (Some (private_file key))) (eq (Some (private_file key))) KEY_FILE (vw_disk w) /\ length key = FILE_VAULT_KEY_BYTES /\ vault_state key ∅ (fun x => x = ∅) (vw_disk w).
Proof.
  intros H. set (w0 := empty_world faults) in *. assert (good (eq None) (eq None) KEY_FILE (vw_disk w0) /\ good (eq None) (eq None) DATA_FILE (vw_disk w0)) as [Hk0 Hd0].
  { split; (split; [done|intros snap []%elem_of_nil]). }
  unfold file_vault_open in H. apply try_bind_cases in H as [([] & w1 & H1 & H)|(e & _ & [=])]. apply try_bind_cases in H as [([] & w2 & H2 & H)|(e & _ & [=])].
  assert (frame ∅ (vw_disk w0) (vw_disk w2)) as Hf.
  { etrans; [eapply (frames_at ∅ (unavailable sys_create_dir)); [apply frames_unavailable, frames_create_dir|exact H1]|].
    eapply (frames_at ∅ restrict_directory); [apply frames_unavailable, frames_set_permissions|exact H2]. }
  pose proof (good_frame ∅ (eq None) (eq None) KEY_FILE _ _ (fun o Ho => Ho) ltac:(set_solver) Hf Hk0) as Hk2.
  pose proof (good_frame ∅ (eq None) (eq None) DATA_FILE _ _ (fun o Ho => Ho) ltac:(set_solver) Hf Hd0) as Hd2. clear Hf Hk0 Hd0 H1 H2.
  apply try_bind_cases in H as [(k & w3 & H3 & H)|(e & _ & [=])]. apply try_bind_cases in H as [(m & w4 & H4 & [= -> ->])|(e & _ & [=])].
  unfold load_or_create_key, mbind_st at 1 in H3. destruct (sys_read KEY_FILE w2) as [r5 w5] eqn:E5. apply syscall_pure in E5 as [Hd5 Hr5]; [|intros d a d'; destruct (dk_now d !! KEY_FILE); [by intros [= _ <-]|by intros [=]]].
  destruct Hr5 as [->|Hr5]; [done|]. rewrite <- (proj1 Hk2) in Hr5. subst r5. rewrite <- Hd5 in Hk2, Hd2.
  apply try_bind_cases in H3 as [(k' & w6 & H6 & H3)|(e & _ & [=])]. apply getrandom_spec in H6 as [Hd6 [Hk6|[=]]]. injection Hk6 as ->. rewrite <- Hd6 in Hk2, Hd2.
  apply try_bind_cases in H3 as [([] & w7 & H7 & [= <- <-])|(e & _ & [=])]. set (key := random_bytes _ FILE_VAULT_KEY_BYTES) in *.
  pose proof H7 as Hd7. apply (write_private_other (eq None) (eq None) _ DATA_FILE) in Hd7; [|done..].
  apply (write_private_good (fun _ => True) (fun _ => True)) in H7 as [_ Hok]; [|done|done|by split|done]. destruct (Hok eq_refl) as (Hnow & Hpast & _).
  assert (good (eq (Some (private_file key))) (eq (Some (private_file key))) KEY_FILE (vw_disk w7)) as Hk7 by (split; [done|]; rewrite Hpast; intros snap []%elem_of_nil).
  split_and!; [by eapply good_same_frame; [|apply frames_read_map|exact H4|]|apply random_length|].
  eapply good_same_frame in Hd7; [|done|apply frames_read_map|exact H4]. eapply good_weaken; [| |exact Hd7]; intros o <-; [done|by exists ∅].
Qed.

Lemma slots_run_key_file key ops k w : good (eq (Some k)) (eq (Some k)) KEY_FILE (vw_disk w) -> good (eq (Some k)) (eq (Some k)) KEY_FILE (vw_disk (slots_run key ops w)).
Proof. revert w. induction ops as [|op ops IH]; intros w Hg; simpl; [done|]. by apply IH, slot_run_key_file. Qed.

Lemma boot_quiet dir : quiet (boot dir).
Proof. done. Qed.
Lemma read_map_big key w f : quiet w -> dk_now (vw_disk w) !! DATA_FILE = Some f -> FILE_VAULT_MAX_BYTES < Z.of_nat (length (f_bytes f)) -> fst (read_map key w) = Err Unavailable.
Proof.
  intros Hq Hf Hb. unfold read_map, mbind_st at 1. unfold sys_len. rewrite syscall_quiet by done. rewrite Hf. simpl. by rewrite (proj2 (Z.ltb_lt _ _) Hb).
Qed.
Lemma open_boot key dir m :
  dir !! KEY_FILE = Some (private_file key) -> length key = FILE_VAULT_KEY_BYTES -> holds key m (dir !! DATA_FILE) -> small_enough (dir !! DATA_FILE) ->
  fst (file_vault_open (boot dir)) = Ok key.
Proof.
  intros Hk Hl Hm Hs. unfold file_vault_open, restrict_directory, load_or_create_key, unavailable, try_bind, mbind_st, sys_create_dir, sys_set_permissions, sys_read.
  rewrite !syscall_quiet by done. simpl. rewrite syscall_quiet by done. simpl. rewrite Hk. simpl. rewrite Hl. simpl.
  rewrite (read_map_quiet key m); [done|done|exact Hm|exact Hs].
Qed.

(** C25. A vault that was opened in an empty directory survives every crash: whatever faults occur
    and wherever in a system call the machine halts, what is left is the key file and a whole
    container with the effects of some of the operations, in their order; never a torn or a mixed
    one. The vault opens again with the same key if the container is within the size limit. *)
Theorem file_vault_survives_crashes key faults w ops dir :
  file_vault_open (empty_world faults) = (Ok key, w) -> after_crash (vw_disk (slots_run key ops w)) dir ->
  dir !! KEY_FILE = Some (private_file key) /\
  exists m, partial_effect ops ∅ m /\ container key dir = Some m /\ (small_enough (dir !! DATA_FILE) -> fst (file_vault_open (boot dir)) = Ok key).
Proof.
  intros Ho Hc. apply open_fresh in Ho as (Hk & Hl & Hst). apply (slots_run_key_file key ops) in Hk. destruct (slots_run_state key ∅ ops w Hst) as (m & Hm & Hs).
  assert (dir !! KEY_FILE = Some (private_file key)) as Hkd.
  { destruct Hc as (snap & Hsn & Hf). specialize (Hf KEY_FILE). assert (Some (private_file key) = snap !! KEY_FILE) as Hsk by (destruct Hsn as [->|Hsn]; [exact (proj1 Hk)|by apply (proj2 Hk)]). by rewrite <- Hsk in Hf. }
  split; [done|]. destruct (after_crash_holds key m _ _ dir Hm Hs Hc) as (x & Hx & Hh). exists x. split; [done|]. split; [by apply holds_container|].
  intros Hsmall. by apply (open_boot key dir x).
Qed.

(** ** Without faults *)
Definition clean (d : Disk) : Prop := forall n, is_Some (dk_now d !! n) -> plain_name n.
Lemma temp_fresh path uuid d : clean d -> dk_now d !! temp_name path uuid = None.
Proof. intros Hc. destruct (dk_now d !! temp_name path uuid) eqn:E; [|done]. exfalso. by apply (Hc (temp_name path uuid)); [eauto|]. Qed.

Lemma write_private_quiet path b w :
  quiet w -> clean (vw_disk w) -> plain_name path ->
  exists w', write_private_atomically path b w = (Ok tt, w') /\ quiet w' /\ clean (vw_disk w') /\ dk_now (vw_disk w') !! path = Some (private_file b) /\
    (forall n, n <> path -> dk_now (vw_disk w') !! n = dk_now (vw_disk w) !! n).
Proof.
  intros Hq Hc Hp. unfold write_private_atomically. unfold mbind_st at 1. unfold draw at 1. set (w0 := {| vw_disk := vw_disk w |}).
  assert (quiet w0) as Hq0 by (destruct Hq; done). set (temp := temp_name path _). assert (dk_now (vw_disk w0) !! temp = None) as Ht by (by apply temp_fresh).
  assert (temp <> path) as Hne by (by apply temp_name_ne).
  unfold write_temp, mbind_st, try_bind, mbind_st, sys_create_new, sys_write_all, sys_sync, sys_rename, sys_sync_dir.
  rewrite syscall_quiet, Ht by done. rewrite syscall_quiet by done. cbv iota beta. unfold put_bytes. cbn [vw_disk set_disk dk_now step_dir]. rewrite lookup_insert_eq.
  rewrite syscall_quiet by done. cbn [vw_disk set_disk dk_now step_dir]. rewrite lookup_insert_eq.
  rewrite syscall_quiet by done. cbn [vw_disk set_disk dk_now step_dir]. rewrite lookup_insert_eq.
  rewrite syscall_quiet by done. cbn [vw_disk set_disk dk_now step_dir f_bytes f_mode]. eexists. split; [reflexivity|]. cbn [vw_disk set_disk dk_now].
  split; [done|]. split_and!.
  - intros n. cbn [dk_now]. rewrite lookup_insert_is_Some. intros [->|[_ Hn]]; [done|]. destruct (decide (n = temp)) as [->|Hnt].
    + by rewrite lookup_delete_eq in Hn; destruct Hn.
    + rewrite lookup_delete_ne, !lookup_insert_ne in Hn by done. by apply Hc.
  - by rewrite lookup_insert_eq.
  - intros n Hn. rewrite lookup_insert_ne by done. destruct (decide (n = temp)) as [->|Hnt]; [by rewrite lookup_delete_eq, <- Ht|]. by rewrite lookup_delete_ne, !lookup_insert_ne by done.
Qed.

(** The cipher seals the map; its container is within the limit. *)
Definition seals (key : bytes) (m : Slots) : Prop := forall nonce, length nonce = FILE_VAULT_NONCE_BYTES -> is_Some (encrypt key nonce FILE_VAULT_MAGIC (slots_to_json m)).
Definition container_bytes (m : Slots) : Z := Z.of_nat (length (slots_to_json m)) + 44.
(** A world without faults whose container holds [m]. *)
Record settled (key : bytes) (m : Slots) (w : VaultWorld) : Prop := {
  st_quiet : quiet w; st_clean : clean (vw_disk w); st_holds : holds key m (dk_now (vw_disk w) !! DATA_FILE) }.

Lemma write_map_quiet key m m1 w : settled key m w -> seals key m1 ->
  exists w' f, write_map key m1 w = (Ok tt, w') /\ settled key m1 w' /\ dk_now (vw_disk w') !! DATA_FILE = Some f /\ Z.of_nat (length (f_bytes f)) = container_bytes m1.
Proof.
  intros [Hq Hc Hh] Hs. unfold write_map, unavailable, getrandom, try_bind, mbind_st, draw. rewrite syscall_quiet by (by destruct Hq). unfold mret_st.
  set (nonce := random_bytes _ _). assert (length nonce = FILE_VAULT_NONCE_BYTES) as Hn by apply random_length.
  destruct (Hs nonce Hn) as [c Hc']. rewrite Hc'. cbn [ok_or].
  match goal with |- context [write_private_atomically _ _ ?x] => destruct (write_private_quiet DATA_FILE (FILE_VAULT_MAGIC ++ nonce ++ c) x) as (w' & -> & Hq' & Hc2 & Hnow & _); [by destruct Hq|done|done|] end.
  exists w', (private_file (FILE_VAULT_MAGIC ++ nonce ++ c)). split_and!; [done| |done|].
  - split; [done|done|]. rewrite Hnow. split; [done|]. by apply open_container_seal.
  - simpl. rewrite !length_app, Hn, (encrypt_length _ _ _ _ _ Hc'). unfold container_bytes. change (length FILE_VAULT_MAGIC) with 4%nat. unfold FILE_VAULT_NONCE_BYTES. lia.
Qed.

Lemma modify_quiet {T} key (update : Slots -> result (T * bool) VaultError * Slots) m w :
  settled key m w -> small_enough (dk_now (vw_disk w) !! DATA_FILE) -> seals key (snd (update m)) ->
  match fst (update m) with
  | Ok (v, true) => exists w' f, modify key update w = (Ok v, w') /\ settled key (snd (update m)) w' /\
      dk_now (vw_disk w') !! DATA_FILE = Some f /\ Z.of_nat (length (f_bytes f)) = container_bytes (snd (update m))
  | Ok (v, false) => modify key update w = (Ok v, w)
  | Err e => modify key update w = (Err e, w)
  end.
Proof.
  intros Hst Hsm Hse. assert (read_map key w = (Ok m, w)) as Hr by (apply read_map_quiet; [apply Hst|apply Hst|done]).
  destruct (update m) as [u m1] eqn:Eu. simpl in *. destruct u as [[v [|]]|e].
  - destruct (write_map_quiet key m m1 w Hst Hse) as (w' & f & Hw & Hs' & Hf & Hl). exists w', f. unfold modify, try_bind, mbind_st. by rewrite Hr, Eu, Hw.
  - unfold modify, try_bind, mbind_st. by rewrite Hr, Eu.
  - unfold modify, try_bind, mbind_st. by rewrite Hr, Eu.
Qed.

(** ** A container that is too large *)
Definition set_faults (faults : list IoFault) (w : VaultWorld) : VaultWorld := {| vw_disk := vw_disk w; vw_faults := faults; vw_halted := vw_halted w; vw_draws := vw_draws w |}.
Definition locked (d : Disk) : Prop := ~ small_enough (dk_now d !! DATA_FILE).
Lemma read_map_locked key w : locked (vw_disk w) -> exists w', read_map key w = (Err Unavailable, w') /\ vw_disk w' = vw_disk w.
Proof.
  intros Hl. unfold locked, small_enough in Hl. destruct (dk_now (vw_disk w) !! DATA_FILE) as [f|] eqn:Ef; [|tauto].
  unfold read_map, mbind_st at 1. destruct (sys_len DATA_FILE w) as [r1 w1] eqn:E1.
  apply syscall_pure in E1 as [Hd1 Hr1]; [|intros d a d'; destruct (dk_now d !! DATA_FILE); [by intros [= _ <-]|by intros [=]]]. rewrite Ef in Hr1.
  exists w1. split; [|done]. destruct Hr1 as [->| ->]; [done|]. rewrite (proj2 (Z.ltb_lt _ _)) by lia. done.
Qed.
Lemma modify_locked {T} key (update : Slots -> result (T * bool) VaultError * Slots) w :
  locked (vw_disk w) -> exists w', modify key update w = (Err Unavailable, w') /\ vw_disk w' = vw_disk w.
Proof. intros Hl. destruct (read_map_locked key w Hl) as (w' & Hr & Hd). exists w'. unfold modify, try_bind at 1, mbind_st at 1. by rewrite Hr. Qed.
Lemma slot_run_locked key op w : locked (vw_disk w) -> exists w', slot_run key op w = (false, w') /\ vw_disk w' = vw_disk w.
Proof.
  intros Hl. destruct op as [slot secret|slot|slot]; simpl; unfold mbind_st, file_put, file_get, file_delete;
    match goal with |- context [@modify _ ?T key ?u w] => destruct (@modify_locked T key u w Hl) as (w' & -> & Hd) end; by exists w'.
Qed.

(** The file vault does not hold a write to its own limit on reading: a put whose container
    is larger than 4 MiB succeeds, and from then on every put, get and deletion fails and changes
    nothing, so that no secret can be read or removed any more. *)
Theorem oversized_put_locks_the_vault key slot secret m w :
  settled key m w -> small_enough (dk_now (vw_disk w) !! DATA_FILE) -> seals key (<[slot := secret]> m) -> FILE_VAULT_MAX_BYTES < container_bytes (<[slot := secret]> m) ->
  exists w', file_put key slot secret w = (Ok tt, w') /\
    forall faults ops op, let w2 := slots_run key ops (set_faults faults w') in vw_disk w2 = vw_disk w' /\ fst (slot_run key op w2) = false.
Proof.
  intros Hst Hsm Hse Hbig. destruct (modify_quiet key (fun map => (Ok (tt, true), <[slot := secret]> map)) m w Hst Hsm Hse) as (w' & f & Hp & _ & Hf & Hl).
  exists w'. split; [exact Hp|]. intros faults ops op w2. assert (locked (vw_disk w')) as Hlock by (unfold locked; rewrite Hf; simpl in *; lia).
  assert (vw_disk w2 = vw_disk w') as Hd.
  { subst w2. assert (forall w0, vw_disk w0 = vw_disk w' -> vw_disk (slots_run key ops w0) = vw_disk w') as Hrun; [|by apply Hrun].
    induction ops as [|op' ops IH]; intros w0 H0; simpl; [done|]. apply IH. destruct (slot_run_locked key op' w0) as (w1 & -> & Hd1); [by rewrite H0|]. by rewrite <- H0. }
  split; [done|]. destruct (slot_run_locked key op w2) as (w3 & -> & _); [by rewrite Hd|done].
Qed.
End Spec.

(** ** Slots *)
Lemma string_app_inj (a a' b b' : string) : String.length a = String.length a' -> (a ++ b)%string = (a' ++ b')%string -> a = a' /\ b = b'.
Proof.
  revert a'. induction a as [|c a IH]; intros [|c' a'] Hl Hs; simpl in *; try done. injection Hl as Hl. injection Hs as -> Hs. by destruct (IH a' Hl Hs) as [-> ->].
Qed.
Lemma string_length_app (a b : string) : String.length (a ++ b) = (String.length a + String.length b)%nat.
Proof. induction a as [|c a IH]; simpl; [done|by rewrite IH]. Qed.
Section Slots.
Context `{UL : UuidLib}.
#[local] Instance uuid_hyphenated_inj : Inj (=) (=) uuid_hyphenated.
Proof. intros a b Hab. apply (f_equal uuid_parse_str) in Hab. rewrite !uuid_parse_hyphenated in Hab. congruence. Qed.
Lemma credential_slot_inj o r o' r' : credential_slot o r = credential_slot o' r' -> o = o' /\ r = r'.
Proof.
  unfold credential_slot. intros H. apply string_app_inj in H as [Ho H]; [|by rewrite !uuid_hyphenated_length]. apply uuid_hyphenated_inj in Ho as ->. by injection H.
Qed.
Lemma stream_slot_inj o s r o' s' r' : stream_slot o s r = stream_slot o' s' r' -> (o, s, r) = (o', s', r').
Proof.
  unfold stream_slot. intros H. apply string_app_inj in H as [Ho H]; [|by rewrite !uuid_hyphenated_length]. apply uuid_hyphenated_inj in Ho as ->. apply string_app_inj in H as [_ H]; [|done].
  apply string_app_inj in H as [Hs H]; [|by rewrite !uuid_hyphenated_length]. apply uuid_hyphenated_inj in Hs as ->. by apply string_app_inj in H as [_ ->].
Qed.
Lemma slots_disjoint o r o' s' r' : String.length r = 36%nat -> credential_slot o r <> stream_slot o' s' r'.
Proof.
  intros Hr H. apply (f_equal String.length) in H. unfold credential_slot, stream_slot in H. rewrite !string_length_app, !uuid_hyphenated_length in H. simpl in H. lia.
Qed.
Lemma canonical_length r : is_canonical_opaque_id r = true -> String.length r = 36%nat.
Proof. unfold is_canonical_opaque_id. destruct (uuid_parse_str r); [|done]. intros [_ Hb]%andb_true_iff. apply bool_decide_eq_true in Hb as <-. apply uuid_hyphenated_length. Qed.
End Slots.

(** ** The file vault and the fake vault *)
Section Clients.
Context `{UL : UuidLib}.
(** A client's call of the trait, with the reference that a put draws. *)
Inductive VaultOp :=
  | VPutCredential (fresh owner : Uuid) (secret : SecretString)
  | VGetCredential (owner : Uuid) (reference : CredentialRef)
  | VPutStream (fresh owner stream : Uuid) (secret : SecretString)
  | VGetStream (owner stream : Uuid) (reference : StreamSourceRef)
  | VDelete (owner : Uuid) (credential : option CredentialRef) (streams : list (Uuid * StreamSourceRef)).
Definition answer {A} (f : A -> string) (r : result A VaultError) : result string VaultError := match r with Ok a => Ok (f a) | Err e => Err e end.
Definition vault_run {W} `{V : !Vault W} (op : VaultOp) : M W (result string VaultError) :=
  match op with
  | VPutCredential fresh owner secret => vault_put_credential fresh owner secret
  | VGetCredential owner reference => vault_get_credential owner reference
  | VPutStream fresh owner stream secret => vault_put_stream_source fresh owner stream secret
  | VGetStream owner stream reference => vault_get_stream_source owner stream reference
  | VDelete owner credential streams => let! r := vault_delete_camera_secrets owner credential streams in mret_st (answer (fun _ => ""%string) r)
  end.
Fixpoint vault_runs {W} `{V : !Vault W} (ops : list VaultOp) : M W (list (result string VaultError)) :=
  match ops with
  | [] => mret_st []
  | op :: ops => let! r := vault_run op in let! rs := vault_runs ops in mret_st (r :: rs)
  end.

(** What an operation makes of the slots. *)
Definition delete_slots (slots : list string) (m : Slots) : Slots := fold_left (fun m slot => delete slot m) slots m.
Definition stream_slots (owner : Uuid) (streams : list (Uuid * StreamSourceRef)) : list string := map (fun '(s, r) => stream_slot owner s r) streams.
Definition vault_effect (op : VaultOp) (m : Slots) : Slots :=
  match op with
  | VPutCredential fresh owner secret => <[credential_slot owner (credential_ref_generate fresh) := secret]> m
  | VPutStream fresh owner stream secret => match generated_stream_ref fresh with Ok r => <[stream_slot owner stream r := secret]> m | Err _ => m end
  | VDelete owner credential streams =>
    delete_slots (stream_slots owner streams) match credential with Some r => if is_canonical_opaque_id r then delete (credential_slot owner r) m else m | None => m end
  | _ => m
  end.

Definition slots_match (v : FakeVault) (m : Slots) : Prop :=
  (forall o r, String.length r = 36%nat -> m !! credential_slot o r = fv_credentials v !! (o, r)) /\
  (forall o s r, m !! stream_slot o s r = fv_streams v !! (o, s, r)) /\ fv_failed_stream_deletes v = ∅.

Lemma match_put_credential v m o r secret l : String.length r = 36%nat -> slots_match v m ->
  slots_match (set_credentials (<[(o, r) := secret]> (fv_credentials v)) (record_label l v)) (<[credential_slot o r := secret]> m).
Proof.
  intros Hr (Hc & Hs & Hf). split_and!; simpl; [|by intros o' s' r'; rewrite lookup_insert_ne by (by apply slots_disjoint)|done].
  intros o' r' Hr'. destruct (decide ((o, r) = (o', r'))) as [[= <- <-]|Hne]; [by rewrite !lookup_insert_eq|]. rewrite !lookup_insert_ne; [by apply Hc|done|].
  intros [-> ->]%credential_slot_inj. done.
Qed.
Lemma match_put_stream v m o s r secret l : slots_match v m ->
  slots_match (set_streams (<[(o, s, r) := secret]> (fv_streams v)) (fv_failed_stream_deletes v) (record_label l v)) (<[stream_slot o s r := secret]> m).
Proof.
  intros (Hc & Hs & Hf). split_and!; simpl; [|intros o' s' r'|done].
  - intros o' r' Hr'. rewrite lookup_insert_ne; [by apply Hc|]. intros Heq. by apply (slots_disjoint o' r' o s r).
  - destruct (decide ((o, s, r) = (o', s', r'))) as [[= <- <- <-]|Hne]; [by rewrite !lookup_insert_eq|]. rewrite !lookup_insert_ne; [apply Hs|done|].
    intros Heq%stream_slot_inj. done.
Qed.
Lemma match_delete_credential v m o r l : String.length r = 36%nat -> slots_match v m ->
  slots_match (set_credentials (delete (o, r) (fv_credentials v)) (record_attempt l v)) (delete (credential_slot o r) m).
Proof.
  intros Hr (Hc & Hs & Hf). split_and!; simpl; [|by intros o' s' r'; rewrite lookup_delete_ne by (by apply slots_disjoint)|done].
  intros o' r' Hr'. destruct (decide ((o, r) = (o', r'))) as [[= <- <-]|Hne]; [by rewrite !lookup_delete_eq|]. rewrite !lookup_delete_ne; [by apply Hc|done|].
  intros [-> ->]%credential_slot_inj. done.
Qed.
Lemma match_delete_stream v m o s r l : slots_match v m ->
  slots_match (set_streams (delete (o, s, r) (fv_streams v)) (fv_failed_stream_deletes v) (record_attempt l v)) (delete (stream_slot o s r) m).
Proof.
  intros (Hc & Hs & Hf). split_and!; simpl; [|intros o' s' r'|done].
  - intros o' r' Hr'. rewrite lookup_delete_ne; [by apply Hc|]. intros Heq. by apply (slots_disjoint o' r' o s r).
  - destruct (decide ((o, s, r) = (o', s', r'))) as [[= <- <- <-]|Hne]; [by rewrite !lookup_delete_eq|]. rewrite !lookup_delete_ne; [apply Hs|done|].
    intros Heq%stream_slot_inj. done.
Qed.

Context `{VL : VaultLibs} (key : bytes).
(** The map and every part of it can be sealed within the limit. *)
Definition roomy (m : Slots) : Prop := forall m', m' ⊆ m -> seals key m' /\ container_bytes m' <= FILE_VAULT_MAX_BYTES.
Fixpoint roomy_run (ops : list VaultOp) (m : Slots) : Prop :=
  match ops with [] => True | op :: ops => roomy (vault_effect op m) /\ roomy_run ops (vault_effect op m) end.
Record stored (m : Slots) (w : VaultWorld) : Prop := { sd_settled : settled key m w; sd_small : small_enough (dk_now (vw_disk w) !! DATA_FILE) }.

Lemma roomy_sub m m' : m' ⊆ m -> roomy m -> roomy m'.
Proof. intros Hm Hr x Hx. apply Hr. by etrans. Qed.
Lemma file_put_stored slot secret m w : stored m w -> roomy (<[slot := secret]> m) -> exists w', file_put key slot secret w = (Ok tt, w') /\ stored (<[slot := secret]> m) w'.
Proof.
  intros [Hs Hsm] Hr. destruct (Hr _ (reflexivity _)) as [Hse Hle]. destruct (modify_quiet key (fun map => (Ok (tt, true), <[slot := secret]> map)) m w Hs Hsm Hse) as (w' & f & Hp & Hs' & Hf & Hl).
  exists w'. split; [exact Hp|]. split; [exact Hs'|]. rewrite Hf. simpl in *. lia.
Qed.
Lemma file_get_stored slot m w : stored m w -> roomy m -> file_get key slot w = (ok_or (m !! slot) NotFound, w).
Proof.
  intros [Hs Hsm] Hr. destruct (Hr _ (reflexivity _)) as [Hse _].
  pose proof (modify_quiet key (fun map => (match map !! slot with Some secret => Ok (secret, false) | None => Err NotFound end, map)) m w Hs Hsm Hse) as Hm.
  unfold file_get. simpl in Hm. destruct (m !! slot); exact Hm.
Qed.
Lemma file_delete_stored slot m w : stored m w -> roomy m -> exists w' r, file_delete key slot w = (r, w') /\ (r = Ok tt \/ r = Err NotFound) /\ stored (delete slot m) w'.
Proof.
  intros [Hs Hsm] Hr. destruct (Hr (delete slot m) (delete_subseteq m slot)) as [Hse Hle].
  pose proof (modify_quiet key (fun map => match map !! slot with Some _ => (Ok (tt, true), delete slot map) | None => (Err NotFound, map) end) m w Hs Hsm) as Hm.
  unfold file_delete. destruct (m !! slot) as [old|] eqn:El; simpl in Hm; rewrite ?El in Hm; simpl in Hm.
  - destruct (Hm Hse) as (w' & f & Hp & Hs' & Hf & Hl). exists w', (Ok tt). split; [exact Hp|]. split; [by left|]. split; [exact Hs'|]. rewrite Hf. simpl in *. lia.
  - destruct (Hr _ (reflexivity _)) as [Hse' _]. exists w, (Err NotFound). split; [exact (Hm Hse')|]. split; [by right|]. assert (delete slot m = m) as -> by (by apply delete_id). by split.
Qed.

Lemma delete_slots_sub slots m : delete_slots slots m ⊆ m.
Proof. revert m. induction slots as [|slot slots IH]; intros m; simpl; [done|]. etrans; [apply IH|apply delete_subseteq]. Qed.
Lemma delete_streams_file owner streams flags m w : stored m w -> roomy m ->
  exists w', @delete_streams UL _ (file_backend key) owner streams flags w = (flags, w') /\ stored (delete_slots (stream_slots owner streams) m) w'.
Proof.
  revert m w. induction streams as [|[s r] streams IH]; intros m w Hst Hr; simpl; [by exists w|].
  destruct (file_delete_stored (stream_slot owner s r) m w Hst Hr) as (w1 & r1 & Hd & Hr1 & Hst1). unfold mbind_st. rewrite Hd.
  assert (record_delete_result r1 flags = flags) as -> by (by destruct Hr1 as [->| ->]). apply IH; [done|]. eapply roomy_sub; [apply delete_subseteq|done].
Qed.
Lemma delete_streams_fake owner streams failed v m : slots_match v m ->
  exists v', fake_delete_streams owner streams failed v = (failed, v') /\ slots_match v' (delete_slots (stream_slots owner streams) m).
Proof.
  revert v m. induction streams as [|[s r] streams IH]; intros v m Hm; simpl; [by exists v|].
  assert (fv_failed_stream_deletes v = ∅) as Hf by apply Hm. rewrite bool_decide_eq_false_2 by (simpl; rewrite Hf; set_solver).
  apply IH. exact (match_delete_stream v m owner s r _ Hm).
Qed.

Lemma vault_step op v m w :
  stored m w -> roomy m -> slots_match v m -> roomy (vault_effect op m) ->
  exists r v' w', vault_run (V := fake_vault) op v = (r, v') /\ vault_run (V := file_vault key) op w = (r, w') /\
    stored (vault_effect op m) w' /\ slots_match v' (vault_effect op m).
Proof.
  intros Hst Hr Hm Hr'. destruct op as [fresh owner secret|owner r|fresh owner stream secret|owner stream r|owner credential streams]; simpl in *.
  - destruct (file_put_stored _ _ _ _ Hst Hr') as (w' & Hp & Hst'). eexists _, _, w'. split_and!; [reflexivity| |done|exact (match_put_credential v m owner (credential_ref_generate fresh) secret _ (uuid_hyphenated_length fresh) Hm)].
    unfold keyring_put_credential, try_bind, mbind_st. simpl. by rewrite Hp.
  - unfold fake_get_credential, keyring_get_credential, try_bind, mbind_st, mret_st. destruct (validate_credential_ref r) as [[]|e] eqn:E; [|by eexists _, v, w].
    simpl. rewrite (file_get_stored _ m) by done. unfold validate_credential_ref in E. destruct (is_canonical_opaque_id r) eqn:Ec; [|done].
    rewrite (proj1 Hm) by (by apply canonical_length). by eexists _, v, w.
  - unfold fake_put_stream_source, keyring_put_stream_source, try_bind, mbind_st, mret_st. destruct (generated_stream_ref fresh) as [r|e]; [|by eexists _, v, w].
    destruct (file_put_stored _ _ _ _ Hst Hr') as (w' & Hp & Hst'). eexists _, _, w'. split_and!; [reflexivity| |done|exact (match_put_stream v m owner stream r secret _ Hm)]. simpl. by rewrite Hp.
  - unfold keyring_get_stream_source, fake_get_stream_source. simpl. rewrite (file_get_stored _ m) by done. rewrite (proj1 (proj2 Hm)). by eexists _, v, w.
  - unfold fake_delete_camera_secrets, keyring_delete_camera_secrets. destruct credential as [r|].
    + unfold validate_credential_ref. destruct (is_canonical_opaque_id r) eqn:Ec; unfold mbind_st, mret_st; simpl.
      * destruct (file_delete_stored (credential_slot owner r) m w Hst Hr) as (w1 & r1 & -> & Hr1 & Hst1).
        assert (record_delete_result r1 (false, false) = (false, false)) as -> by (by destruct Hr1 as [->| ->]).
        destruct (delete_streams_file owner streams (false, false) _ w1 Hst1) as (w' & -> & Hst'); [eapply roomy_sub; [apply delete_subseteq|done]|].
        match goal with |- context [fake_delete_streams owner streams false ?x] =>
          destruct (delete_streams_fake owner streams false x (delete (credential_slot owner r) m)) as (v' & -> & Hm'); [exact (match_delete_credential v m owner r _ (canonical_length _ Ec) Hm)|] end.
        by eexists _, v', w'.
      * destruct (delete_streams_file owner streams (false, true) _ w Hst Hr) as (w' & -> & Hst').
        destruct (delete_streams_fake owner streams true (record_attempt (credential_slot owner r) v) m Hm) as (v' & -> & Hm'). by eexists _, v', w'.
    + unfold mbind_st, mret_st; simpl. destruct (delete_streams_file owner streams (false, false) _ w Hst Hr) as (w' & -> & Hst').
      destruct (delete_streams_fake owner streams false v m Hm) as (v' & -> & Hm'). by eexists _, v', w'.
Qed.

(** C27. The file vault refines the fake vault that the tests use: from matching states, without
    faults and while its container stays within the limit, every sequence of calls of the trait
    gets the same answers from both, so that no secret is visible under another camera, stream or
    reference and deleted secrets stay deleted. *)
Theorem file_vault_refines_fake ops v m w :
  stored m w -> roomy m -> slots_match v m -> roomy_run ops m ->
  fst (vault_runs (V := file_vault key) ops w) = fst (vault_runs (V := fake_vault) ops v).
Proof.
  revert v m w. induction ops as [|op ops IH]; intros v m w Hst Hr Hm Hrun; [done|]. destruct Hrun as [Hr' Hrun].
  destruct (vault_step op v m w Hst Hr Hm Hr') as (r & v' & w' & Hv & Hw & Hst' & Hm'). simpl. unfold mbind_st. rewrite Hv, Hw.
  specialize (IH v' _ w' Hst' Hr' Hm' Hrun). destruct (vault_runs (V := file_vault key) ops w') as [rs w2], (vault_runs (V := fake_vault) ops v') as [rs2 v2]. simpl in *. by subst.
Qed.
End Clients.

(** ** Deletion over any keyring *)
Section Deletion.
Context `{UL : UuidLib} {W : Type} `{KB : KeyringBackend W}.
(** Every slot is deleted once, in order; what the backend answers. *)
Fixpoint delete_each (slots : list string) : M W (list (result unit VaultError)) :=
  match slots with
  | [] => mret_st []
  | slot :: slots => let! r := backend_delete slot in let! rs := delete_each slots in mret_st (r :: rs)
  end.
Definition bad_credential (credential : option CredentialRef) : bool := match credential with Some r => negb (is_canonical_opaque_id r) | None => false end.
Definition camera_slots (owner : Uuid) (credential : option CredentialRef) (streams : list (Uuid * StreamSourceRef)) : list string :=
  match credential with Some r => if is_canonical_opaque_id r then [credential_slot owner r] else [] | None => [] end ++ stream_slots owner streams.
Definition is_unavailable (r : result unit VaultError) : bool := match r with Err Unavailable => true | _ => false end.
Definition is_partial (r : result unit VaultError) : bool := match r with Err InvalidReference | Err PartialDeletion => true | _ => false end.
Definition verdict (bad : bool) (rs : list (result unit VaultError)) : result unit VaultError :=
  if existsb is_unavailable rs then Err Unavailable else if bad || existsb is_partial rs then Err PartialDeletion else Ok tt.

Lemma delete_streams_each owner streams flags w :
  delete_streams owner streams flags w =
    let '(rs, w') := delete_each (stream_slots owner streams) w in ((fst flags || existsb is_unavailable rs, snd flags || existsb is_partial rs), w').
Proof.
  revert flags w. induction streams as [|[s r] streams IH]; intros [u p] w; simpl; [by rewrite !orb_false_r|]. unfold mbind_st. destruct (backend_delete _ w) as [r1 w1].
  rewrite IH. destruct (delete_each _ w1) as [rs w2]. unfold mret_st. destruct r1 as [[]|[]]; simpl; rewrite ?orb_true_r; done.
Qed.

(** Deleting the secrets of a camera tries every slot once and in order, whatever earlier
    deletions answered; it succeeds exactly when each was deleted or absent, is unavailable if
    one of them was, and partial otherwise. *)
Theorem deletion_tries_every_slot owner credential streams w :
  keyring_delete_camera_secrets owner credential streams w =
    let '(rs, w') := delete_each (camera_slots owner credential streams) w in (verdict (bad_credential credential) rs, w').
Proof.
  unfold keyring_delete_camera_secrets, camera_slots, bad_credential, verdict. destruct credential as [r|]; [unfold validate_credential_ref; destruct (is_canonical_opaque_id r)|]; simpl; unfold mbind_st, mret_st.
  - destruct (backend_delete _ w) as [r1 w1]. rewrite delete_streams_each. destruct (delete_each _ w1) as [rs w2]. destruct r1 as [[]|[]]; simpl; rewrite ?orb_true_r; try done;
      by destruct (existsb is_unavailable rs).
  - rewrite delete_streams_each. by destruct (delete_each _ w) as [rs w2].
  - rewrite delete_streams_each. by destruct (delete_each _ w) as [rs w2].
Qed.
End Deletion.

(** ** Privacy *)
(** Every file in the directory, temporary ones included, is [0o600]; the mode of the directory. *)
Definition private_dir (mode : option Z) (d : Disk) : Prop := dk_mode d = mode /\ map_Forall (fun _ f => f_mode f = 384) (dk_now d).
Definition keeps {A} (mode : option Z) (m : M VaultWorld A) : Prop := forall w, private_dir mode (vw_disk w) -> private_dir mode (vw_disk (snd (m w))).
Section Privacy.
Context `{VL : VaultLibs} (mode : option Z).
Lemma keeps_syscall {A} (op : Disk -> result (A * Disk) IoError) cut :
  (forall d a d', op d = Ok (a, d') -> private_dir mode d -> private_dir mode d') -> (forall n d, private_dir mode d -> private_dir mode (cut n d)) -> keeps mode (syscall op cut).
Proof.
  intros Ho Hc w Hw. destruct (syscall op cut w) as [r w'] eqn:E. simpl. apply syscall_cases in E as (_ & [(a & _ & Hop & _)|(e & _ & [->|[n ->]])]); [by eapply Ho|done|by apply Hc].
Qed.
Lemma survives_ret {A} (a : A) : keeps mode (mret_st a).
Proof. by intros w. Qed.
Lemma keeps_draw {A} (f : nat -> A) : keeps mode (draw f).
Proof. by intros w. Qed.
Lemma keeps_bind {A B} (m : M VaultWorld A) (k : A -> M VaultWorld B) : keeps mode m -> (forall a, keeps mode (k a)) -> keeps mode (mbind_st m k).
Proof. intros Hm Hk w Hw. unfold mbind_st. specialize (Hm w Hw). destruct (m w) as [a w']. by apply Hk. Qed.
Lemma survives_try {A B E} (m : M VaultWorld (result A E)) (k : A -> M VaultWorld (result B E)) : keeps mode m -> (forall a, keeps mode (k a)) -> keeps mode (try_bind m k).
Proof. intros Hm Hk. apply keeps_bind; [done|]. intros [a|e]; [apply Hk|apply survives_ret]. Qed.
Lemma keeps_unavailable {A} (m : M VaultWorld (result A IoError)) : keeps mode m -> keeps mode (unavailable m).
Proof. intros Hm. apply keeps_bind; [done|]. intros r. apply survives_ret. Qed.
Lemma private_put name b d : private_dir mode d -> private_dir mode (put_bytes name b d).
Proof. intros [Hm Hf]. unfold put_bytes. destruct (dk_now d !! name) as [f|] eqn:El; [|done]. split; [done|]. apply map_Forall_insert_2; [exact (Hf name _ El)|done]. Qed.
Ltac keeps_op := apply keeps_syscall; [|intros; try (by apply private_put); done];
  let d := fresh "d" in let a := fresh "a" in let d' := fresh "d'" in let H := fresh "H" in let Hm := fresh "Hm" in let Hf := fresh "Hf" in
  intros d a d' H [Hm Hf]; repeat case_match; simplify_eq; split; simpl; try done;
  repeat first [apply map_Forall_insert_2; simpl|apply map_Forall_delete]; eauto; done.
Lemma keeps_create name : keeps mode (sys_create_new name 384).
Proof. keeps_op. Qed.
Lemma keeps_write name b : keeps mode (sys_write_all name b).
Proof. apply keeps_syscall; [|intros; by apply private_put]. intros d a d' [= _ <-]. apply private_put. Qed.
Lemma keeps_sync name : keeps mode (sys_sync name).
Proof. apply keeps_syscall; [|done]. intros d a d' Ho [Hm Hf]. destruct (dk_now d !! name) as [f|] eqn:El; [|done]. injection Ho as _ <-. split; [done|]. apply map_Forall_insert_2; [exact (Hf name _ El)|done]. Qed.
Lemma keeps_rename from to : keeps mode (sys_rename from to).
Proof.
  apply keeps_syscall; [|done]. intros d a d' Ho [Hm Hf]. destruct (dk_now d !! from) as [f|] eqn:El; [|done]. injection Ho as _ <-. split; [done|].
  apply map_Forall_insert_2; [exact (Hf from _ El)|by apply map_Forall_delete].
Qed.
Lemma keeps_remove name : keeps mode (sys_remove name).
Proof. keeps_op. Qed.
Lemma keeps_sync_dir : keeps mode sys_sync_dir.
Proof. apply keeps_syscall; [|done]. by intros d a d' [= _ <-]. Qed.
Lemma survives_read name : keeps mode (sys_read name).
Proof. apply keeps_syscall; [|done]. intros d a d'. destruct (dk_now d !! name); [by intros [= _ <-]|done]. Qed.
Lemma keeps_len name : keeps mode (sys_len name).
Proof. apply keeps_syscall; [|done]. intros d a d'. destruct (dk_now d !! name); [by intros [= _ <-]|done]. Qed.
Lemma keeps_getrandom n : keeps mode (getrandom n).
Proof. apply keeps_bind; [apply keeps_draw|]. intros b. apply keeps_syscall; [|done]. by intros d a d' [= _ <-]. Qed.
Hint Resolve survives_ret keeps_draw keeps_bind survives_try keeps_unavailable keeps_create keeps_write keeps_sync keeps_rename keeps_remove keeps_sync_dir survives_read keeps_len keeps_getrandom : lattice.
Lemma keeps_write_private path b : keeps mode (write_private_atomically path b).
Proof. apply keeps_bind; [apply keeps_draw|]. intros uuid. apply keeps_bind; [unfold write_temp; auto 20 with lattice|]. intros [[]|e]; auto with lattice. Qed.
Lemma keeps_read_map key : keeps mode (read_map key).
Proof. apply keeps_bind; [apply keeps_len|]. intros [len|[]]; [|auto with lattice..]. case_match; auto with lattice. Qed.
Lemma keeps_modify {T} key (update : Slots -> result (T * bool) VaultError * Slots) : keeps mode (modify key update).
Proof.
  apply survives_try; [apply keeps_read_map|]. intros m. destruct (update m) as [u m1]. apply survives_try; [|intros ?; apply survives_ret].
  destruct u as [[v [|]]|e]; [|apply survives_ret..]. unfold write_map. apply survives_try; [auto with lattice|]. intros nonce. apply survives_try; [apply survives_ret|]. intros c. apply keeps_write_private.
Qed.
Lemma keeps_slot_run key op : keeps mode (slot_run key op).
Proof. destruct op; (apply keeps_bind; [apply keeps_modify|]; intros ?; apply survives_ret). Qed.
Lemma keeps_load_key : keeps mode load_or_create_key.
Proof.
  apply keeps_bind; [apply survives_read|]. intros [b|[]]; [apply survives_ret| |apply survives_ret]. apply survives_try; [auto with lattice|]. intros k. apply survives_try; [apply keeps_write_private|]. intros ?. apply survives_ret.
Qed.
End Privacy.

Section PrivacyRuns.
Context `{VL : VaultLibs}.
(** Once a vault is open in a new directory, the directory is [0o700] and every file in it,
    temporary files and those that a failed write left behind included, is [0o600], whatever is
    stored and whatever faults occur. *)
Theorem vault_directory_is_private key faults w ops :
  file_vault_open (empty_world faults) = (Ok key, w) -> private_dir (Some 448) (vw_disk (slots_run key ops w)).
Proof.
  intros H. unfold file_vault_open in H. apply try_bind_cases in H as [([] & w1 & H1 & H)|(e & _ & [=])]. apply try_bind_cases in H as [([] & w2 & H2 & H)|(e & _ & [=])].
  assert (dk_now (vw_disk w1) = ∅) as Hn1.
  { unfold unavailable, mbind_st, mret_st in H1. destruct (sys_create_dir _) as [r w3] eqn:E. injection H1 as _ <-. apply syscall_cases in E as (_ & [(a & _ & Ho & _)|(e & _ & [->|[n ->]])]); [|done..]. by injection Ho as _ <-. }
  assert (private_dir (Some 448) (vw_disk w2)) as Hp.
  { unfold restrict_directory, unavailable, mbind_st, mret_st in H2. destruct (sys_set_permissions 448 w1) as [r w3] eqn:E. injection H2 as Hr <-. destruct r as [[]|]; [|done].
    apply syscall_cases in E as (_ & [(a & _ & Ho & _)|(e & [=] & _)]). destruct (dk_mode (vw_disk w1)); [|done]. injection Ho as _ <-. split; [done|]. simpl. rewrite Hn1. apply map_Forall_empty. }
  apply try_bind_cases in H as [(k & w3 & H3 & H)|(e & _ & [=])]. apply try_bind_cases in H as [(m & w4 & H4 & [= -> ->])|(e & _ & [=])].
  pose proof (keeps_load_key _ w2 Hp) as Hp3. rewrite H3 in Hp3. pose proof (keeps_read_map _ key w3 Hp3) as Hp4. rewrite H4 in Hp4. clear -Hp4.
  simpl in Hp4. revert w Hp4. induction ops as [|op ops IH]; intros w Hw; simpl; [done|]. by apply IH, keeps_slot_run.
Qed.
End PrivacyRuns.

(** ** Concrete runs *)
Module VaultRuns.
(** Two uuids; a map as the binary digits of its code and [pad] more bytes; a cipher that only appends a tag. *)
#[local] Instance toy_uuid : UuidLib := {|
  Uuid := bool;
  uuid_hyphenated := fun b => if b : bool then "018f47a0-9b5c-7a22-8a33-112233445566"%string else "018f47a0-9b5c-7a22-8a33-112233445567"%string;
  uuid_parse_str := fun s => if String.eqb s "018f47a0-9b5c-7a22-8a33-112233445566" then Some true else if String.eqb s "018f47a0-9b5c-7a22-8a33-112233445567" then Some false else None;
  uuid_version_num := fun _ => 7;
  uuid_parse_hyphenated := ltac:(by intros []); uuid_hyphenated_length := ltac:(by intros []) |}.
Fixpoint digits (p : positive) : bytes := match p with xH => [2] | xO p => 0 :: digits p | xI p => 1 :: digits p end.
Fixpoint undigits (b : bytes) : option positive :=
  match b with [] => None | 2 :: _ => Some xH | 0 :: b => option_map xO (undigits b) | _ :: b => option_map xI (undigits b) end.
Lemma undigits_digits p pad : undigits (digits p ++ pad) = Some p.
Proof. induction p as [p IH|p IH|]; simpl; [by rewrite IH|by rewrite IH|done]. Qed.
Definition toy_tag (key : bytes) : bytes := take 16 (key ++ repeat 0 16).
Lemma toy_tag_length key : length (toy_tag key) = 16%nat.
Proof. unfold toy_tag. rewrite length_take, length_app, repeat_length. lia. Qed.
Definition toy_decrypt (key c : bytes) : option bytes :=
  if bool_decide (drop (length c - 16) c = toy_tag key) then Some (take (length c - 16) c) else None.
Lemma toy_decrypt_tag key msg : toy_decrypt key (msg ++ toy_tag key) = Some msg.
Proof.
  unfold toy_decrypt. rewrite length_app, toy_tag_length. replace (length msg + 16 - 16)%nat with (length msg) by lia. rewrite drop_app_length, bool_decide_eq_true_2 by done. by rewrite take_app_length.
Qed.
Definition toy_vault_libs (pad : nat) : VaultLibs.
Proof.
  refine {| encrypt := fun key _ _ msg => Some (msg ++ toy_tag key); decrypt := fun key _ _ c => toy_decrypt key c;
    slots_to_json := fun m => digits (encode m) ++ repeat 3 pad; slots_from_json := fun b => undigits b ≫= decode;
    random_bytes := fun k n => repeat (Z.of_nat k) n; simple_uuid := fun k => String (ascii_of_nat (65 + k)) "" |}.
  - intros key nonce aad msg c [= <-]. apply toy_decrypt_tag.
  - intros key nonce aad msg c [= <-]. by rewrite length_app, toy_tag_length.
  - intros m. rewrite undigits_digits. simpl. apply decode_encode.
  - intros k n. apply repeat_length.
Defined.
#[local] Instance toy_libs : VaultLibs := toy_vault_libs 0.

(** Opening takes ten calls; the rename of the second put is where the machine halts. *)
Definition toy_key : bytes := repeat 0 32.
Definition toy_open (faults : list IoFault) : VaultWorld := snd (file_vault_open (empty_world faults)).
Definition toy_ops : list SlotOp := [OpPut "a" "one"; OpPut "b" "two"].
Definition toy_halt : list IoFault := repeat IoGo 23 ++ [IoHalts 0].
Lemma fst_pair {A B} (p : A * B) a : fst p = a -> p = (a, snd p).
Proof. destruct p. simpl. congruence. Qed.
Lemma toy_opened faults : fst (file_vault_open (empty_world faults)) = Ok toy_key -> file_vault_open (empty_world faults) = (Ok toy_key, toy_open faults).
Proof. apply fst_pair. Qed.

Example toy_first_survives :
  container toy_key (dk_now (vw_disk (slots_run toy_key toy_ops (toy_open toy_halt)))) = Some (<["a" := "one"]> ∅)%string /\
  vw_halted (slots_run toy_key toy_ops (toy_open toy_halt)) = true.
Proof. split; by vm_compute. Qed.

Lemma crash_now d : bool_decide (map_Forall (fun _ f => f_synced f = true) (dk_now d)) = true -> after_crash d (dk_now d).
Proof.
  intros Hs%bool_decide_eq_true. exists (dk_now d). split; [by left|]. intros name. destruct (dk_now d !! name) as [f|] eqn:E; [|done]. by rewrite (Hs name f E).
Qed.

Lemma file_vault_survives_crashes_witness :
  dk_now (vw_disk (slots_run toy_key toy_ops (toy_open toy_halt))) !! KEY_FILE = Some (private_file toy_key) /\
  exists m, partial_effect toy_ops ∅ m /\ container toy_key (dk_now (vw_disk (slots_run toy_key toy_ops (toy_open toy_halt)))) = Some m /\
    (small_enough (dk_now (vw_disk (slots_run toy_key toy_ops (toy_open toy_halt))) !! DATA_FILE) ->
     fst (file_vault_open (boot (dk_now (vw_disk (slots_run toy_key toy_ops (toy_open toy_halt)))))) = Ok toy_key).
Proof.
  apply (file_vault_survives_crashes toy_key toy_halt (toy_open toy_halt) toy_ops).
  - apply toy_opened. by vm_compute.
  - apply crash_now. by vm_compute.
Defined.

Lemma acknowledged_change_is_durable_witness :
  exists m, partial_effect [OpPut "a" "one"] ∅ m /\
    container toy_key (dk_now (vw_disk (slots_run toy_key [OpPut "a" "one"] (toy_open [])))) = Some m /\
    container toy_key (dk_now (vw_disk (snd (slot_run toy_key (OpPut "b" "two") (slots_run toy_key [OpPut "a" "one"] (toy_open [])))))) = Some (<["b" := "two"]> m) /\
    forall dir, after_crash (vw_disk (snd (slot_run toy_key (OpPut "b" "two") (slots_run toy_key [OpPut "a" "one"] (toy_open []))))) dir -> container toy_key dir = Some (<["b" := "two"]> m).
Proof.
  apply (acknowledged_change_is_durable toy_key ∅ [OpPut "a" "one"] (OpPut "b" "two") (toy_open [])).
  - eapply open_fresh, toy_opened. by vm_compute.
  - reflexivity.
  - apply fst_pair. by vm_compute.
Defined.

Lemma vault_directory_is_private_witness : private_dir (Some 448) (vw_disk (slots_run toy_key toy_ops (toy_open toy_halt))).
Proof. apply (vault_directory_is_private toy_key toy_halt). apply toy_opened. by vm_compute. Defined.

Lemma empty_settled `{VaultLibs} key : settled key ∅ (empty_world []).
Proof. split; [done| |done]. intros n [f Hf]. change ((∅ : gmap string VFile) !! n = Some f) in Hf. by rewrite lookup_empty in Hf. Qed.

(** A map whose text is more than 4 MiB long. *)
Definition big : VaultLibs := toy_vault_libs (Z.to_nat FILE_VAULT_MAX_BYTES).
Lemma oversized_put_locks_the_vault_witness :
  exists w', @file_put big toy_key "a" "one" (empty_world []) = (Ok tt, w') /\
    forall faults ops op, let w2 := @slots_run big toy_key ops (set_faults faults w') in vw_disk w2 = vw_disk w' /\ fst (@slot_run big toy_key op w2) = false.
Proof.
  apply (@oversized_put_locks_the_vault big toy_key "a" "one" ∅ (empty_world [])).
  - apply empty_settled.
  - exact I.
  - intros nonce _. by eexists.
  - unfold container_bytes. cbn [slots_to_json big toy_vault_libs]. rewrite length_app, repeat_length. unfold FILE_VAULT_MAX_BYTES. lia.
Defined.

Definition toy_calls : list VaultOp := [VPutCredential true false "pw"; VGetCredential false "018f47a0-9b5c-7a22-8a33-112233445566"; VGetCredential true "018f47a0-9b5c-7a22-8a33-112233445566";
  VDelete false (Some "018f47a0-9b5c-7a22-8a33-112233445566"%string) []; VGetCredential false "018f47a0-9b5c-7a22-8a33-112233445566"].
Example toy_answers : fst (vault_runs (V := fake_vault) toy_calls fake_new) =
  [Ok "018f47a0-9b5c-7a22-8a33-112233445566"; Ok "pw"; Err NotFound; Ok ""; Err NotFound]%string.
Proof. by vm_compute. Qed.
Lemma roomy_one k s : container_bytes {[ k := s ]} <= FILE_VAULT_MAX_BYTES -> roomy toy_key {[ k := s ]}.
Proof.
  intros Hb m' Hm. destruct (m' !! k) as [x|] eqn:E.
  - assert (m' = {[ k := s ]}) as ->; [|split; [intros n _; by eexists|done]]. apply map_eq. intros i. destruct (decide (i = k)) as [->|Hne].
    + rewrite lookup_singleton_eq, E. apply (lookup_weaken _ _ _ _ E) in Hm. by rewrite lookup_singleton_eq in Hm.
    + rewrite lookup_singleton_ne by done. destruct (m' !! i) as [y|] eqn:Ei; [|done]. apply (lookup_weaken _ _ _ _ Ei) in Hm. by rewrite lookup_singleton_ne in Hm.
  - assert (m' = ∅) as ->; [|split; [intros n _; by eexists|by vm_compute]]. apply map_eq. intros i. rewrite lookup_empty. destruct (decide (i = k)) as [->|Hne]; [done|].
    destruct (m' !! i) as [y|] eqn:Ei; [|done]. apply (lookup_weaken _ _ _ _ Ei) in Hm. by rewrite lookup_singleton_ne in Hm.
Qed.
Lemma roomy_empty : roomy toy_key ∅.
Proof. eapply roomy_sub; [|apply (roomy_one "" ""); by vm_compute]. apply map_empty_subseteq. Qed.
Lemma file_vault_refines_fake_witness :
  fst (vault_runs (V := file_vault toy_key) toy_calls (empty_world [])) = [Ok "018f47a0-9b5c-7a22-8a33-112233445566"; Ok "pw"; Err NotFound; Ok ""; Err NotFound]%string.
Proof.
  rewrite (file_vault_refines_fake toy_key toy_calls fake_new ∅ (empty_world [])).
  - by vm_compute.
  - split; [apply empty_settled|exact I].
  - apply roomy_empty.
  - split_and!; intros; reflexivity.
  - assert (roomy toy_key (vault_effect (VPutCredential true false "pw") ∅)) as H1 by (apply roomy_one; by vm_compute).
    unfold toy_calls; cbn [roomy_run]; split_and!; try exact H1; try exact I.
    all: eapply roomy_sub; [|exact H1]; etrans; [apply delete_slots_sub|]; cbn [vault_effect]; destruct (is_canonical_opaque_id _); [apply delete_subseteq|done].
Defined.
End VaultRuns.
