(* ===== verification/DoctorSettings.v ===== *)
(** * Network Doctor service: settings, the probe gate and the local transports

    The first half of crates/lattice-service/src/doctor.rs: the probe targets an owner can see and
    change, where the platform's own targets come from, the gate in front of every probe, and the
    transports that answer only what the service itself can observe. [IpAddr::from_str] is
    written out as the standard library has it; the files that the kernel and the resolver
    library provide are arguments. *)

From stdpp Require Import pretty.
From S2P Require Import Prelude Time Text F64 Net NetProps Wire DoctorCheck DoctorEngine DoctorEngineProps DoctorDiagnosis DoctorRepair DoctorExecutor.

(** ** Text of the standard library *)

(** [str::lines] *)
Definition strip_cr (s : string) : string :=
  match rev (String.list_ascii_of_string s) with
  | "013"%char :: r => string_of_list_ascii (rev r)
  | _ => s
  end.
Fixpoint lines_from (line s : string) : list string :=
  match s with
  | EmptyString => if str_is_empty line then [] else [line]
  | String a s' => if Ascii.eqb a "010" then strip_cr line :: lines_from EmptyString s' else lines_from (line +:+ String a EmptyString)%string s'
  end.
Definition lines (s : string) : list string := lines_from EmptyString s.

(** [str::split_whitespace], on the bytes of valid UTF-8. *)
Definition flush (word : string) : list string := if str_is_empty word then [] else [word].
Fixpoint words_from (word s : string) : list string :=
  match s with
  | EmptyString => flush word
  | String a r =>
    if white1 (byte_of a) then flush word ++ words_from EmptyString r
    else match r with
         | EmptyString => flush (word +:+ String a EmptyString)%string
         | String b r2 =>
           if white2 (byte_of a) (byte_of b) then flush word ++ words_from EmptyString r2
           else match r2 with
                | String c r3 =>
                  if white3 (byte_of a) (byte_of b) (byte_of c) then flush word ++ words_from EmptyString r3
                  else words_from (word +:+ String a EmptyString)%string r
                | EmptyString => words_from (word +:+ String a EmptyString)%string r
                end
         end
  end.
Definition split_whitespace (s : string) : list string := words_from EmptyString s.

(** [s.chars().any(char::is_whitespace)] *)
Fixpoint has_white (s : string) : bool :=
  match s with
  | EmptyString => false
  | String a r =>
    white1 (byte_of a)
    || match r with
       | EmptyString => false
       | String b r2 => white2 (byte_of a) (byte_of b) || match r2 with EmptyString => false | String c _ => white3 (byte_of a) (byte_of b) (byte_of c) end
       end
    || has_white r
  end.

(** [char::to_digit] up to base 16 *)
Definition to_digit (radix : Z) (a : ascii) : option Z :=
  let n := Z.of_N (byte_of a) in
  let digit := if (48 <=? n) && (n <=? 57) then n - 48
               else if (97 <=? n) && (n <=? 102) then n - 87
               else if (65 <=? n) && (n <=? 70) then n - 55 else radix in
  if digit <? radix then Some digit else None.

(** [u32::from_str_radix]: one optional plus sign, at least one digit, no overflow. *)
Fixpoint radix_value (radix acc : Z) (s : string) : option Z :=
  match s with
  | EmptyString => Some acc
  | String a s' =>
    match to_digit radix a with
    | Some d => if u32_max <? radix * acc + d then None else radix_value radix (radix * acc + d) s'
    | None => None
    end
  end.
Definition u32_from_str_radix (radix : Z) (s : string) : option Z :=
  let digits := match s with String "+" s' => s' | _ => s end in
  if str_is_empty digits then None else radix_value radix 0 digits.

(** ** [IpAddr::from_str] *)

(** The loop of [read_number]: the value, how many digits were read and the rest. *)
Fixpoint read_digits (radix max_digits count acc : Z) (s : string) : option (Z * Z * string) :=
  match s with
  | EmptyString => Some (acc, count, s)
  | String a s' =>
    match to_digit radix a with
    | Some d => if max_digits <? count + 1 then None else read_digits radix max_digits (count + 1) (radix * acc + d) s'
    | None => Some (acc, count, s)
    end
  end.
Definition read_number (radix max_digits type_max : Z) (allow_zero_prefix : bool) (s : string) : option (Z * string) :=
  match read_digits radix max_digits 0 0 s with
  | None => None
  | Some (value, count, rest) =>
    if count =? 0 then None
    else if negb allow_zero_prefix && String.prefix "0" s && (1 <? count) then None
    else if type_max <? value then None else Some (value, rest)
  end.
Definition read_separator {A} (sep : ascii) (index : nat) (inner : string -> option (A * string)) (s : string) : option (A * string) :=
  match index, s with
  | O, _ => inner s
  | S _, String a s' => if Ascii.eqb a sep then inner s' else None
  | S _, EmptyString => None
  end.
Definition read_octet (index : nat) : string -> option (Z * string) := read_separator "." index (read_number 10 3 255 false).
Definition read_ipv4 (s : string) : option (Z * string) :=
  '(a, s) ← read_octet 0 s; '(b, s) ← read_octet 1 s; '(c, s) ← read_octet 2 s; '(d, s) ← read_octet 3 s;
  Some (v4 a b c d, s).

(** [read_groups]: the groups from [index] on, whether they end in an IPv4 address, the rest. *)
Fixpoint read_groups (left_ index : nat) (s : string) : list Z * bool * string :=
  match left_ with
  | O => ([], false, s)
  | S left' =>
    let group :=
      match read_separator ":" index (read_number 16 4 65535 true) s with
      | None => ([], false, s)
      | Some (g, s') => let '(gs, ipv4, rest) := read_groups left' (S index) s' in (g :: gs, ipv4, rest)
      end in
    match left' with
    | O => group
    | S _ => match read_separator ":" index read_ipv4 s with
             | Some (a, s') => ([Z.shiftr a 16; Z.land a 65535], true, s')
             | None => group
             end
    end
  end.
Definition join_groups (l : list Z) : Z := fold_left (fun acc g => 65536 * acc + g) l 0.
Definition read_ipv6 (s : string) : option (Z * string) :=
  let '(head, head_ipv4, rest) := read_groups 8 0 s in
  if Nat.eqb (length head) 8 then Some (join_groups head, rest)
  else if head_ipv4 then None
  else match rest with
       | String ":" (String ":" rest) =>
         let '(tail, _, rest) := read_groups (8 - (length head + 1)) 0 rest in
         Some (join_groups (head ++ repeat 0 (8 - length head - length tail) ++ tail), rest)
       | _ => None
       end.
Definition parse_ip (s : string) : option IpAddr :=
  let found := match read_ipv4 s with
               | Some (a, rest) => Some (V4 a, rest)
               | None => '(a, rest) ← read_ipv6 s; Some (V6 a, rest)
               end in
  '(ip, rest) ← found; if str_is_empty rest then Some ip else None.
Definition is_ip (s : string) : bool := is_some_and (fun _ => true) (parse_ip s).

(** [Display] of [Ipv4Addr] *)
Definition ipv4_to_string (a : Z) : string :=
  str_join "." (map (fun i => pretty (octet a i)) [0; 1; 2; 3]).
(** [Ipv4Addr::from(raw.to_le_bytes())] *)
Definition from_le_bytes (raw : Z) : Z := v4 (octet raw 3) (octet raw 2) (octet raw 1) (octet raw 0).

(** ** Settings *)
Definition UNCONFIGURED_TARGET : string := "unconfigured".
Definition MAX_SETTING_LEN : Z := 253.
Definition MAX_SETTING_RESOLVERS : nat := 8.

Inductive TargetSource := SourcePlatform | SourceOwner | SourceUnknown.
#[global] Instance TargetSource_eq_dec : EqDecision TargetSource.
Proof. solve_decision. Defined.

Record DoctorSettings := {
  ds_interface : string;
  ds_gateway : option string;
  ds_gateway_source : TargetSource;
  ds_configured_resolvers : list string;
  ds_independent_resolver : string;
  ds_internet_probe_address : string;
  ds_internet_probe_port : Z;
  ds_dns_probe_name : string;
  ds_external_probes_confirmed : bool
}.
#[global] Instance DoctorSettings_eq_dec : EqDecision DoctorSettings.
Proof. solve_decision. Defined.

Record DoctorSettingsUpdate := {
  du_interface : option string;
  du_gateway : option string;
  du_configured_resolvers : option (list string);
  du_independent_resolver : option string;
  du_internet_probe_address : option string;
  du_internet_probe_port : option Z;
  du_dns_probe_name : option string;
  du_external_probes_confirmed : option bool
}.
Definition no_update : DoctorSettingsUpdate := {|
  du_interface := None; du_gateway := None; du_configured_resolvers := None; du_independent_resolver := None;
  du_internet_probe_address := None; du_internet_probe_port := None; du_dns_probe_name := None;
  du_external_probes_confirmed := None |}.

(** The parts of the engine configuration that are no target. *)
Record ProbeProfile := { pf_ping_count : Z; pf_mtu_probe_sizes : list Z; pf_thresholds : Thresholds }.
Definition default_profile : ProbeProfile := {|
  pf_ping_count := 4; pf_mtu_probe_sizes := [1472; 1400; 1200]; pf_thresholds := default_thresholds |}.
Definition default_context : RepairContext := {|
  rc_interface := "primary"; lease_renewal_severs_only_management_path := true; fallback_dns_servers := [] |}.

Definition from_config (c : DoctorConfig) : DoctorSettings := {|
  ds_interface := dc_interface c; ds_gateway := Some (dc_gateway c); ds_gateway_source := SourceOwner;
  ds_configured_resolvers := dc_configured_resolvers c; ds_independent_resolver := dc_independent_resolver c;
  ds_internet_probe_address := dc_internet_probe_address c; ds_internet_probe_port := dc_internet_probe_port c;
  ds_dns_probe_name := dc_dns_probe_name c; ds_external_probes_confirmed := true |}.

(** [apply]: the gateway and its source change together; the other fields are replaced when
    the update has them. *)
Definition apply_gateway (s : DoctorSettings) (u : DoctorSettingsUpdate) : option string * TargetSource :=
  match du_gateway u with
  | Some gateway => if str_is_empty gateway then (None, SourceUnknown) else (Some gateway, SourceOwner)
  | None => (ds_gateway s, ds_gateway_source s)
  end.
Definition apply (s : DoctorSettings) (u : DoctorSettingsUpdate) : DoctorSettings := {|
  ds_interface := default (ds_interface s) (du_interface u);
  ds_gateway := fst (apply_gateway s u);
  ds_gateway_source := snd (apply_gateway s u);
  ds_configured_resolvers := default (ds_configured_resolvers s) (du_configured_resolvers u);
  ds_independent_resolver := default (ds_independent_resolver s) (du_independent_resolver u);
  ds_internet_probe_address := default (ds_internet_probe_address s) (du_internet_probe_address u);
  ds_internet_probe_port := default (ds_internet_probe_port s) (du_internet_probe_port u);
  ds_dns_probe_name := default (ds_dns_probe_name s) (du_dns_probe_name u);
  ds_external_probes_confirmed := default (ds_external_probes_confirmed s) (du_external_probes_confirmed u) |}.

Definition valid_name (value : string) : bool :=
  negb (str_is_empty value) && (str_len value <=? MAX_SETTING_LEN) && negb (has_control value) && negb (has_white value).

Definition last_char (s : string) : option ascii := hd_error (rev (String.list_ascii_of_string s)).
Definition is_ascii_alphanumeric (c : ascii) : bool :=
  let n := Z.of_N (byte_of c) in ((48 <=? n) && (n <=? 57)) || ((65 <=? n) && (n <=? 90)) || ((97 <=? n) && (n <=? 122)).
Definition valid_label (label : string) : bool :=
  negb (str_is_empty label) && (str_len label <=? 63)
  && negb (String.prefix "-" label) && negb (bool_decide (last_char label = Some "-"%char))
  && forallb (fun c => is_ascii_alphanumeric c || Ascii.eqb c "-") (String.list_ascii_of_string label).
Definition valid_hostname (value : string) : bool :=
  negb (str_is_empty value) && (str_len value <=? MAX_SETTING_LEN)
  && negb (String.prefix "." value) && negb (bool_decide (last_char value = Some "."%char))
  && forallb valid_label (split_on "." value).

Definition settings_validate (s : DoctorSettings) : result unit string :=
  if negb (valid_name (ds_interface s)) then Err "interface must be 1..=253 printable characters"
  else if is_some_and (fun g => negb (is_ip g)) (ds_gateway s) then Err "gateway must be an IP address"
  else if Nat.ltb MAX_SETTING_RESOLVERS (length (ds_configured_resolvers s)) then Err "at most 8 configured resolvers"
  else if existsb (fun r => negb (is_ip r)) (ds_configured_resolvers s) then Err "configured resolvers must be IP addresses"
  else if negb (is_ip (ds_independent_resolver s)) then Err "independent resolver must be an IP address"
  else if negb (is_ip (ds_internet_probe_address s)) then Err "internet probe address must be an IP address"
  else if ds_internet_probe_port s =? 0 then Err "internet probe port must be 1..=65535"
  else if negb (valid_hostname (ds_dns_probe_name s)) then Err "dns probe name must be a hostname"
  else Ok tt.

Definition to_config (s : DoctorSettings) (profile : ProbeProfile) : DoctorConfig := {|
  dc_interface := ds_interface s;
  dc_gateway := default UNCONFIGURED_TARGET (ds_gateway s);
  dc_configured_resolvers := match ds_configured_resolvers s with [] => [UNCONFIGURED_TARGET] | rs => rs end;
  dc_independent_resolver := ds_independent_resolver s;
  dc_internet_probe_address := ds_internet_probe_address s;
  dc_internet_probe_port := ds_internet_probe_port s;
  dc_dns_probe_name := ds_dns_probe_name s;
  dc_ping_count := pf_ping_count profile;
  dc_mtu_probe_sizes := pf_mtu_probe_sizes profile;
  dc_thresholds := pf_thresholds profile |}.

(** ** Targets of the platform *)
Definition RTF_UP : Z := 1.
Definition RTF_GATEWAY : Z := 2.

(** One row of the table: metric, interface and gateway of a default route through a gateway. *)
Definition route_row (line : string) : option (Z * string * string) :=
  match split_whitespace line with
  | interface :: destination :: gateway :: flags :: _ :: _ :: metric :: _ =>
    if negb (bool_decide (destination = "00000000"%string)) then None
    else
      flags ← u32_from_str_radix 16 flags;
      if (Z.land flags RTF_UP =? 0) || (Z.land flags RTF_GATEWAY =? 0) then None
      else
        raw ← u32_from_str_radix 16 gateway;
        Some (default u32_max (u32_from_str_radix 10 metric), interface, ipv4_to_string (from_le_bytes raw))
  | _ => None
  end.
Fixpoint best_route (best : option (Z * string * string)) (rows : list string) : option (Z * string * string) :=
  match rows with
  | [] => best
  | line :: rows' =>
    match route_row line with
    | None => best_route best rows'
    | Some row => best_route (if is_none_or (fun b => fst (fst row) <? fst (fst b)) best then Some row else best) rows'
    end
  end.
Definition parse_proc_net_route (table : string) : option (string * string) :=
  '(_, interface, gateway) ← best_route None (drop 1 (lines table)); Some (interface, gateway).

Definition nameserver (line : string) : option string :=
  rest ← strip_prefix "nameserver" (trim line);
  address ← hd_error (split_whitespace rest);
  hd_error (split_on "%" address).
Fixpoint collect_resolvers (resolvers rows : list string) : list string :=
  match rows with
  | [] => resolvers
  | line :: rows' =>
    match nameserver line with
    | None => collect_resolvers resolvers rows'
    | Some address =>
      if is_ip address && negb (bool_decide (address ∈ resolvers)) then
        let resolvers := resolvers ++ [address] in
        if Nat.eqb (length resolvers) MAX_SETTING_RESOLVERS then resolvers else collect_resolvers resolvers rows'
      else collect_resolvers resolvers rows'
    end
  end.
Definition parse_resolv_conf (text : string) : list string := collect_resolvers [] (lines text).

(** [from_platform] on Linux; [None] is a file that cannot be read. *)
Definition from_platform (proc_net_route resolv_conf : option string) : DoctorSettings :=
  let route := table ← proc_net_route; parse_proc_net_route table in
  {| ds_interface := default "primary"%string (fst <$> route);
     ds_gateway := snd <$> route;
     ds_gateway_source := match route with Some _ => SourcePlatform | None => SourceUnknown end;
     ds_configured_resolvers := default [] (parse_resolv_conf <$> resolv_conf);
     ds_independent_resolver := "9.9.9.9";
     ds_internet_probe_address := "1.1.1.1";
     ds_internet_probe_port := 443;
     ds_dns_probe_name := "example.com";
     ds_external_probes_confirmed := false |}.

(** ** The probe gate *)
Definition is_private_ip (ip : IpAddr) : bool :=
  match ip with
  | V4 a => is_private_v4 a || is_link_local_v4 a || (octet a 0 =? 127)
  | V6 a => is_loopback_v6 a || (Z.land (Z.shiftr a 112) 65024 =? 64512) || (Z.land (Z.shiftr a 112) 65472 =? 65152)
  end.
Definition is_private_target (target : string) : bool := is_some_and is_private_ip (parse_ip target).

Definition probe_target (request : ProbeRequest) : option string :=
  match request with
  | ReqPing target _ _ => Some target
  | ReqDnsQuery resolver _ => Some resolver
  | ReqReachIp address _ => Some address
  | ReqArpProbe _ address => Some address
  | ReqCollectorStatus | ReqLinkStatus _ | ReqIpConfig _ | ReqWifiMetrics _ | ReqRouteTable | ReqRouterStatus => None
  end.

(** Why the gate refuses a request. *)
Definition gate_refusal (allow_external : bool) (request : ProbeRequest) : option ProbeError :=
  target ← probe_target request;
  if bool_decide (target = UNCONFIGURED_TARGET)
  then Some (ProbeTransportFailed "target is not configured; set it in doctor settings")
  else if negb allow_external && negb (is_private_target target)
  then Some (ProbeTransportFailed "external probe targets are not confirmed by the owner")
  else None.
Definition gated_probes {W} `{ProbeTransport W} (allow_external : bool) : ProbeTransport W :=
  fun p => match gate_refusal allow_external (pr_request p) with
           | Some e => mret_st (Err e)
           | None => probe p
           end.

(** ** The transports of the service *)

(** [AppState::service_status] *)
Class ServiceStatus (W : Type) := service_status : M W string.
Definition ready {W} `{ServiceStatus W} : M W bool :=
  let! status := service_status in mret_st (bool_decide (status = "ready"%string)).

Definition service_probe_transport {W} `{ServiceStatus W} : ProbeTransport W :=
  fun p => match pr_request p with
           | ReqCollectorStatus => let! ready := ready in mret_st (Ok (RespCollectorStatus ready ready true))
           | _ => mret_st (Err ProbeUnsupported)
           end.

(** [{:?}] of a [StateKey] and of a [CheckKind] *)
Definition state_key_debug (k : StateKey) : string :=
  match k with
  | WorkerState => "WorkerState" | CacheState => "CacheState" | DhcpLease => "DhcpLease" | RouterSession => "RouterSession"
  | TailscaleConfig => "TailscaleConfig" | AdapterConfig => "AdapterConfig" | DnsServers => "DnsServers"
  | DhcpReservations => "DhcpReservations" | FirewallRules => "FirewallRules"
  end.
Definition check_kind_debug (k : CheckKind) : string :=
  match k with
  | CollectorHealth => "CollectorHealth" | AdapterLink => "AdapterLink" | AddressDhcp => "AddressDhcp"
  | DuplicateIp => "DuplicateIp" | WifiQuality => "WifiQuality" | Gateway => "Gateway" | RouterHealth => "RouterHealth"
  | LossLatency => "LossLatency" | Mtu => "Mtu" | Dns => "Dns" | RouteVpn => "RouteVpn"
  | InternetReachability => "InternetReachability"
  end.

Section ServiceTransport.
Context {W : Type} `{ServiceStatus W, Clock W}.

Definition service_local (k : StateKey) : bool := match k with WorkerState | CacheState => true | _ => false end.
Fixpoint service_snapshot (keys : list StateKey) (entries : list StateEntry) : M W (result (list StateEntry) RepairTransportError) :=
  match keys with
  | [] => mret_st (Ok entries)
  | key :: keys' =>
    if service_local key then
      let! value := service_status in service_snapshot keys' (entries ++ [{| se_key := key; se_value := value |}])
    else mret_st (Err (ErrSnapshot (state_key_debug key +:+ " is not snapshotable from service state")))
  end.
Fixpoint service_restore (entries : list StateEntry) : result unit RepairTransportError :=
  match entries with
  | [] => Ok tt
  | e :: entries' =>
    if service_local (se_key e) then service_restore entries'
    else Err (ErrRestore (state_key_debug (se_key e) +:+ " cannot be restored from service state"))
  end.
Definition service_measure (check : CheckKind) : M W (result (list Measurement) RepairTransportError) :=
  match check with
  | CollectorHealth =>
    let! ready := ready in
    let! observed_at := now in
    let flag metric value := {| m_metric := metric; m_value := bool_value value; m_unit := Boolean; m_observed_at := observed_at |} in
    mret_st (Ok [flag CollectorPrivileged ready; flag CaptureHealthy ready; flag WorkerRunning true])
  | other => mret_st (Err (ErrMeasure (check_kind_debug other +:+ " is not measurable from service state")))
  end.
Definition service_repair_transport : RepairTransport W := {|
  snapshot keys := service_snapshot keys [];
  apply_repair repair := mret_st (Err (ErrApply (describe repair +:+ " has no local execution hook in this service build")));
  restore entries := mret_st (service_restore entries);
  measure := service_measure |}.
End ServiceTransport.

(** ** Addresses read back *)
Lemma read_octet_digits o : 0 <= o < 256 ->
  (forall rest, read_number 10 3 255 false (pretty o +:+ String "." rest)%string = Some (o, String "." rest)) /\
  read_number 10 3 255 false (pretty o) = Some (o, EmptyString).
Proof.
  intros Ho.
  assert (Forall (fun o => (forall rest, read_number 10 3 255 false (pretty o +:+ String "." rest)%string = Some (o, String "." rest)) /\
                           read_number 10 3 255 false (pretty o) = Some (o, EmptyString)) (map Z.of_nat (seq 0 256))) as Hall.
  { simpl map. repeat (constructor; [split; [intros rest; vm_compute; reflexivity|vm_compute; reflexivity]|]). constructor. }
  rewrite List.Forall_forall in Hall. apply Hall. apply in_map_iff. exists (Z.to_nat o). rewrite in_seq. lia.
Qed.
Lemma octet_range a i : 0 <= octet a i < 256.
Proof. unfold octet. change 255 with (Z.ones 8). rewrite Z.land_ones by lia. apply Z.mod_pos_bound. lia. Qed.
Lemma lor_add x y k : 0 <= k -> 0 <= y < 2 ^ k -> Z.lor (Z.shiftl x k) y = x * 2 ^ k + y.
Proof.
  intros Hk Hy. assert (Z.land (Z.shiftl x k) y = 0) as Hl.
  { apply Z.bits_inj'. intros n Hn. rewrite Z.land_spec, Z.bits_0. destruct (Z.ltb_spec n k).
    - by rewrite Z.shiftl_spec_low by lia.
    - rewrite <- (Z.mod_small y (2 ^ k)) by lia. rewrite Z.mod_pow2_bits_high by lia. apply andb_false_r. }
  by rewrite <- Z.lxor_lor, <- Z.add_nocarry_lxor, Z.shiftl_mul_pow2.
Qed.
Lemma v4_octets a : 0 <= a <= u32_mask -> v4 (octet a 0) (octet a 1) (octet a 2) (octet a 3) = a.
Proof.
  unfold u32_mask. intros Ha. pose proof (octet_range a) as Ho. unfold v4.
  pose proof (Ho 1). pose proof (Ho 2). pose proof (Ho 3).
  rewrite (lor_add (octet a 2) _ 8) by lia. rewrite (lor_add (octet a 1) _ 16) by lia. rewrite (lor_add (octet a 0) _ 24) by lia.
  rewrite (octet_div a 0 24), (octet_div a 1 16), (octet_div a 2 8), (octet_div a 3 0) by lia.
  change (2 ^ 24) with 16777216. change (2 ^ 16) with 65536. change (2 ^ 8) with 256. change (2 ^ 0) with 1.
  clear - Ha. Z.div_mod_to_equations. lia.
Qed.

(** Every address is read back from its text. *)
Lemma ipv4_reads_back a : 0 <= a <= u32_mask -> parse_ip (ipv4_to_string a) = Some (V4 a).
Proof.
  intros Ha. assert (read_ipv4 (ipv4_to_string a) = Some (a, EmptyString)) as Hr.
  { change (ipv4_to_string a) with (pretty (octet a 0) +:+ String "." (pretty (octet a 1) +:+ String "." (pretty (octet a 2) +:+ String "." (pretty (octet a 3)))))%string.
    unfold read_ipv4, read_octet, read_separator.
    rewrite (proj1 (read_octet_digits _ (octet_range a 0))). cbn -[read_number v4].
    rewrite (proj1 (read_octet_digits _ (octet_range a 1))). cbn -[read_number v4].
    rewrite (proj1 (read_octet_digits _ (octet_range a 2))). cbn -[read_number v4].
    rewrite (proj2 (read_octet_digits _ (octet_range a 3))). cbn -[read_number v4]. by rewrite v4_octets. }
  unfold parse_ip. by rewrite Hr.
Qed.

(** ** Valid settings configure the engine *)
Lemma is_ip_nonempty s : is_ip s = true -> str_is_empty s = false.
Proof. by destruct s. Qed.

(** What the checks of [validate] say. *)
Record settings_ok (s : DoctorSettings) : Prop := {
  so_interface : valid_name (ds_interface s) = true;
  so_gateway : forall g, ds_gateway s = Some g -> is_ip g = true;
  so_count : (length (ds_configured_resolvers s) <= MAX_SETTING_RESOLVERS)%nat;
  so_resolvers : Forall (fun r => is_ip r = true) (ds_configured_resolvers s);
  so_independent : is_ip (ds_independent_resolver s) = true;
  so_internet : is_ip (ds_internet_probe_address s) = true;
  so_port : ds_internet_probe_port s <> 0;
  so_name : valid_hostname (ds_dns_probe_name s) = true
}.
Lemma settings_validate_ok s : settings_validate s = Ok tt <-> settings_ok s.
Proof.
  unfold settings_validate. split.
  - intros Hv.
    destruct (valid_name (ds_interface s)) eqn:E1; [|done]. destruct (is_some_and _ (ds_gateway s)) eqn:E2; [done|].
    destruct (Nat.ltb _ _) eqn:E3; [done|]. destruct (existsb _ _) eqn:E4; [done|].
    destruct (is_ip (ds_independent_resolver s)) eqn:E5; [|done]. destruct (is_ip (ds_internet_probe_address s)) eqn:E6; [|done].
    destruct (_ =? 0) eqn:E7; [done|]. destruct (valid_hostname _) eqn:E8; [|done].
    split; try done; [|by apply Nat.ltb_ge in E3| |by apply Z.eqb_neq in E7].
    + intros g Hg. rewrite Hg in E2. simpl in E2. by destruct (is_ip g).
    + apply Forall_forall. intros r Hr. destruct (is_ip r) eqn:Er; [done|].
      assert (existsb (fun r => negb (is_ip r)) (ds_configured_resolvers s) = true) as E9; [|by rewrite E9 in E4].
      apply existsb_exists. exists r. by rewrite Er, <- list_elem_of_In.
  - intros [H1 H2 H3 H4 H5 H6 H7 H8]. rewrite H1, H5, H6, H8. simpl.
    destruct (is_some_and _ (ds_gateway s)) eqn:E2.
    { destruct (ds_gateway s) as [g|]; [|done]. simpl in E2. by rewrite (H2 g eq_refl) in E2. }
    destruct (Nat.ltb _ _) eqn:E3; [apply Nat.ltb_lt in E3; lia|].
    destruct (existsb _ _) eqn:E4; [|by apply Z.eqb_neq in H7; rewrite H7].
    apply existsb_exists in E4 as (r & Hr & E). rewrite <- list_elem_of_In in Hr. rewrite Forall_forall in H4. by rewrite (H4 r Hr) in E.
Qed.

(** The engine only looks at the targets for emptiness and number. *)
Lemma valid_settings_configure s s0 p :
  settings_ok s -> validate (to_config s0 p) = Ok tt -> validate (to_config s p) = Ok tt.
Proof.
  intros [H1 H2 H3 H4 H5 H6 _ H8]. unfold validate. cbn [to_config dc_interface dc_gateway dc_configured_resolvers dc_independent_resolver dc_internet_probe_address dc_dns_probe_name dc_ping_count dc_mtu_probe_sizes dc_thresholds].
  intros H0.
  repeat match type of H0 with (if ?b then Err _ else _) = _ => destruct b eqn:?; [discriminate H0|] end.
  assert (str_is_empty (ds_interface s) = false) as ->.
  { unfold valid_name in H1. by destruct (str_is_empty (ds_interface s)). }
  assert (str_is_empty (default UNCONFIGURED_TARGET (ds_gateway s)) = false) as ->.
  { destruct (ds_gateway s) as [g|] eqn:Eg; [|done]. by apply is_ip_nonempty, H2. }
  rewrite (is_ip_nonempty _ H5), (is_ip_nonempty _ H6).
  assert (str_is_empty (ds_dns_probe_name s) = false) as ->.
  { unfold valid_hostname in H8. by destruct (str_is_empty (ds_dns_probe_name s)). }
  unfold MAX_RESOLVERS, MAX_SETTING_RESOLVERS in *.
  destruct (ds_configured_resolvers s) as [|r rs]; [done|].
  rewrite bool_decide_eq_false_2 by done. destruct (Nat.ltb 8 (length (r :: rs))) eqn:E; [apply Nat.ltb_lt in E; lia|done].
Qed.

(** ** What the platform derives *)
Lemma collect_resolvers_ok acc rows :
  NoDup acc -> Forall (fun r => is_ip r = true) acc -> (length acc < MAX_SETTING_RESOLVERS)%nat ->
  NoDup (collect_resolvers acc rows) /\ Forall (fun r => is_ip r = true) (collect_resolvers acc rows) /\
  (length (collect_resolvers acc rows) <= MAX_SETTING_RESOLVERS)%nat.
Proof.
  revert acc. induction rows as [|line rows IH]; intros acc Hn Ha Hl; simpl; [split_and!; [done..|lia]|].
  destruct (nameserver line) as [address|]; [|by apply IH].
  destruct (is_ip address) eqn:Ei; [|by apply IH]. destruct (bool_decide (address ∈ acc)) eqn:Ed; [by apply IH|]. simpl.
  apply bool_decide_eq_false in Ed.
  assert (NoDup (acc ++ [address]) /\ Forall (fun r => is_ip r = true) (acc ++ [address])) as [Hn' Ha'].
  { split; [|by apply Forall_app; auto]. apply NoDup_app. split_and!; [done| |apply NoDup_singleton].
    intros x Hx ->%list_elem_of_singleton. done. }
  destruct (Nat.eqb _ _) eqn:E; [apply Nat.eqb_eq in E; rewrite E; split_and!; [done..|lia]|].
  apply Nat.eqb_neq in E. apply IH; [done..|]. rewrite length_app in *. simpl in *. lia.
Qed.

Lemma from_le_bytes_range raw : 0 <= from_le_bytes raw <= u32_mask.
Proof.
  unfold from_le_bytes, v4. pose proof (octet_range raw 0). pose proof (octet_range raw 1). pose proof (octet_range raw 2). pose proof (octet_range raw 3).
  rewrite (lor_add (octet raw 1) _ 8) by lia. rewrite (lor_add (octet raw 2) _ 16) by lia. rewrite (lor_add (octet raw 3) _ 24) by lia. unfold u32_mask. lia.
Qed.
Lemma route_row_gateway line metric interface gateway :
  route_row line = Some (metric, interface, gateway) -> is_ip gateway = true.
Proof.
  unfold route_row. destruct (split_whitespace line) as [|? [|? [|? [|? [|? [|? [|? ?]]]]]]]; try done.
  destruct (negb _); [done|]. intros (f & _ & Hf)%bind_Some. destruct (_ || _); [done|].
  apply bind_Some in Hf as (raw & _ & [= _ _ <-]). unfold is_ip. by rewrite ipv4_reads_back by apply from_le_bytes_range.
Qed.
Lemma best_route_row best rows m i g : best_route best rows = Some (m, i, g) ->
  best = Some (m, i, g) \/ exists line, line ∈ rows /\ route_row line = Some (m, i, g).
Proof.
  revert best. induction rows as [|line rows IH]; intros best; simpl; [by left|].
  destruct (route_row line) as [row|] eqn:Er; intros [Hb|(l & Hl & Hr)]%IH;
    try (by left); try (by right; exists l; split; [right|]).
  destruct (is_none_or _ best); [|by left]. injection Hb as ->. right. exists line. split; [by left|done].
Qed.
(** Among the usable rows no metric is lower than that of the chosen one. *)
Lemma best_route_lowest best rows m i g : best_route best rows = Some (m, i, g) ->
  is_none_or (fun b => m <=? fst (fst b)) best = true /\ forall line b, line ∈ rows -> route_row line = Some b -> m <= fst (fst b).
Proof.
  revert best. induction rows as [|line rows IH]; intros best; simpl.
  { intros ->. simpl. split; [by apply Z.leb_refl|]. by intros line b ?%elem_of_nil. }
  destruct (route_row line) as [row|] eqn:Er; intros [Hb Hl]%IH.
  - destruct best as [b|]; simpl in *; [destruct (_ <? _) eqn:E; simpl in Hb|]; bprop;
      (split; [try apply Z.leb_le; try done; lia|]); intros l b' [->|Hin]%elem_of_cons Hr; try (by eapply Hl); simplify_eq; lia.
  - split; [done|]. intros l b' [->|Hin]%elem_of_cons Hr; [by rewrite Er in Hr|by eapply Hl].
Qed.

Lemma flush_nonempty word : Forall (fun w => str_is_empty w = false) (flush word).
Proof. unfold flush. destruct (str_is_empty word) eqn:E; repeat constructor; done. Qed.
Lemma words_nonempty word s : Forall (fun w => str_is_empty w = false) (words_from word s).
Proof.
  remember (String.length s) as n eqn:Hn. assert (String.length s <= n)%nat as Hle by lia. clear Hn.
  revert word s Hle. induction n as [|n IH]; intros word s Hle; destruct s as [|a r]; simpl in Hle; try lia; [apply flush_nonempty..|].
  cbn [words_from]. destruct (white1 _); [apply Forall_app; split; [apply flush_nonempty|apply IH; lia]|].
  destruct r as [|b r2]; [apply flush_nonempty|]. simpl in Hle.
  destruct (white2 _ _); [apply Forall_app; split; [apply flush_nonempty|apply IH; lia]|].
  destruct r2 as [|c r3]; [apply IH; simpl; lia|]. simpl in Hle.
  destruct (white3 _ _ _); [apply Forall_app; split; [apply flush_nonempty|apply IH; lia]|apply IH; simpl; lia].
Qed.

Lemma route_row_interface line metric interface gateway :
  route_row line = Some (metric, interface, gateway) -> str_is_empty interface = false.
Proof.
  unfold route_row, split_whitespace. pose proof (words_nonempty EmptyString line) as Hw.
  destruct (words_from EmptyString line) as [|? [|? [|? [|? [|? [|? [|? ?]]]]]]]; try done.
  destruct (negb _); [done|]. intros (f & _ & Hf)%bind_Some. destruct (_ || _); [done|].
  apply bind_Some in Hf as (raw & _ & [= _ <- _]). by inversion Hw.
Qed.

(** What the platform offers never carries a guess: the gateway comes from the cheapest usable
    row, its text is the address that the row holds, and nothing outside may be probed. *)
Definition derived_from (table : option string) (s : DoctorSettings) : Prop :=
  match ds_gateway s with
  | None => ds_gateway_source s = SourceUnknown /\ ds_interface s = "primary"%string
  | Some gateway =>
      ds_gateway_source s = SourcePlatform /\
      exists text line metric, table = Some text /\ line ∈ drop 1 (lines text) /\
        route_row line = Some (metric, ds_interface s, gateway) /\
        forall line' row, line' ∈ drop 1 (lines text) -> route_row line' = Some row -> metric <= fst (fst row)
  end.

(** What is derived from the platform is usable and never a guess: whatever the kernel's
    route table and the resolver file say, probes outside the private network start unconfirmed,
    the engine accepts the configuration, the settings pass their own validation as soon as the
    interface name does, and the gateway, when there is one, is that of a usable row of the
    route table with the lowest metric. *)
Theorem platform_settings_are_usable table resolv :
  let s := from_platform table resolv in
  ds_external_probes_confirmed s = false /\ derived_from table s /\
  validate (to_config s default_profile) = Ok tt /\
  (settings_validate s = Ok tt <-> valid_name (ds_interface s) = true).
Proof.
  intros s. assert (derived_from table s) as Hd.
  { unfold derived_from, s, from_platform, parse_proc_net_route. destruct table as [text|]; simpl; [|done].
    destruct (best_route None (drop 1 (lines text))) as [[[m i] g]|] eqn:E; simpl; [|done]. split; [done|].
    pose proof (best_route_lowest _ _ _ _ _ E) as [_ Hlow]. apply best_route_row in E as [E|(line & Hin & Hr)]; [done|].
    exists text, line, m. eauto. }
  assert (forall g, ds_gateway s = Some g -> is_ip g = true /\ str_is_empty (ds_interface s) = false) as Hg.
  { intros g Hg. unfold derived_from in Hd. rewrite Hg in Hd. destruct Hd as (_ & text & line & m & _ & _ & Hr & _).
    split; [by eapply route_row_gateway|by eapply route_row_interface]. }
  assert (Forall (fun r => is_ip r = true) (ds_configured_resolvers s) /\ (length (ds_configured_resolvers s) <= MAX_SETTING_RESOLVERS)%nat) as [Hr Hl].
  { unfold s, from_platform. cbn [ds_configured_resolvers]. destruct resolv as [text|]; simpl; [|split; [constructor|lia]].
    apply collect_resolvers_ok; simpl; [constructor..|unfold MAX_SETTING_RESOLVERS; lia]. }
  split_and!; [done|done| |].
  - assert (str_is_empty (ds_interface s) = false /\ str_is_empty (ds_independent_resolver s) = false /\
            str_is_empty (ds_internet_probe_address s) = false /\ str_is_empty (ds_dns_probe_name s) = false) as (Hne & Hi1 & Hi2 & Hi3).
    { split; [|done]. destruct (ds_gateway s) as [g|] eqn:E; [by eapply Hg|].
      unfold derived_from in Hd. rewrite E in Hd. by destruct Hd as [_ ->]. }
    clearbody s.
    unfold validate. cbn [to_config dc_interface dc_gateway dc_configured_resolvers dc_independent_resolver dc_internet_probe_address dc_dns_probe_name dc_ping_count dc_mtu_probe_sizes dc_thresholds].
    rewrite Hne, Hi1, Hi2, Hi3. assert (str_is_empty (default UNCONFIGURED_TARGET (ds_gateway s)) = false) as ->.
    { destruct (ds_gateway s) as [g|] eqn:E; [|done]. by apply is_ip_nonempty, (Hg g). }
    unfold MAX_SETTING_RESOLVERS, MAX_RESOLVERS in *. destruct (ds_configured_resolvers s) as [|r rs]; [done|].
    rewrite bool_decide_eq_false_2 by done. destruct (Nat.ltb 8 (length (r :: rs))) eqn:E; [apply Nat.ltb_lt in E; lia|done].
  - rewrite settings_validate_ok. split; [by intros []|]. intros Hn. split; try done. intros g Hg'. by apply (Hg g).
Qed.

(** ** A run stays behind its transport: whatever every probe and every reading of the clock
    preserve, a run preserves. *)
Section Confined.
Context {W : Type} `{ProbeTransport W, Clock W} (R : W -> W -> Prop) `{!PreOrder R}.
Hypothesis probe_confined : forall p w, R w (snd (probe p w)).
Hypothesis now_confined : forall w, R w (snd (now w)).
Variable eng : DiagnosticEngine.

Definition confined {A} (m : M (RunState W) A) : Prop := forall s, R (world s) (world (snd (m s))).

Lemma confined_ret {A} (a : A) : confined (mret_st a).
Proof. intros s. simpl. reflexivity. Qed.
Lemma confined_bind {A B} (m : M (RunState W) A) (k : A -> M (RunState W) B) :
  confined m -> (forall a, confined (k a)) -> confined (mbind_st m k).
Proof. intros Hm Hk s. unfold mbind_st. specialize (Hm s). destruct (m s) as [a s']. etransitivity; [exact Hm|apply Hk]. Qed.
Lemma confined_send r : confined (send eng r).
Proof.
  intros s. unfold send. pose proof (probe_confined {| pr_request := r; pr_timeout_ms := per_probe_timeout_ms (budget eng) |} (world s)) as Hp.
  by destruct (probe _ _).
Qed.
Lemma confined_clock : confined clock_now.
Proof. intros s. unfold clock_now. pose proof (now_confined (world s)) as Hn. by destruct (now _). Qed.
Lemma confined_measurement metric v u : confined (measurement metric v u).
Proof. apply confined_bind; [apply confined_clock|]. intros t. apply confined_ret. Qed.
Lemma confined_push_some e metric v u : confined (push_some e metric v u).
Proof. destruct v; [apply confined_bind; [apply confined_measurement|]; intros ?|]; apply confined_ret. Qed.
Create HintDb confined.
Hint Resolve confined_ret confined_bind confined_send confined_clock confined_measurement confined_push_some : confined.
Ltac confine := repeat first
  [ apply confined_ret | apply confined_send | apply confined_measurement | apply confined_push_some
  | apply confined_bind; [|intros ?]
  | match goal with |- confined (match ?x with _ => _ end) => destruct x end
  | solve [auto with confined] ].

Lemma confined_ping_loop n target sent rtts : confined (ping_loop eng n target sent rtts).
Proof. revert sent rtts. induction n; intros sent rtts; simpl; confine; auto. Qed.
Lemma confined_mtu_loop sizes a b : confined (mtu_loop eng sizes a b).
Proof. revert a b. induction sizes; intros a' b; simpl; confine; auto. Qed.
Lemma confined_query_all rs acc : confined (query_all eng rs acc).
Proof. revert acc. induction rs; intros acc; simpl; unfold query_resolver; confine; auto. Qed.
Hint Resolve confined_ping_loop confined_mtu_loop confined_query_all : confined.
Lemma confined_check k prior : confined (run_check eng k prior).
Proof.
  destruct k; simpl;
    unfold check_collector, check_adapter_link, check_address, check_duplicate_ip, check_wifi, check_gateway, check_router, check_loss_latency,
      check_mtu, check_dns, check_route_vpn, check_internet, ping_sample, query_resolver, fail_with, unexpected; confine.
Qed.
Lemma confined_loop kinds checks e : confined (run_loop eng kinds checks e).
Proof.
  revert checks e. induction kinds as [|k kinds IH]; intros checks e; simpl; [apply confined_ret|].
  destruct (dependency_skip k checks); [apply IH|]. intros s. destruct (_ || _); [apply IH|].
  apply (confined_bind (run_check eng k checks)); [apply confined_check|intros ?; apply IH].
Qed.
Lemma confined_run w : R w (snd (run eng w)).
Proof.
  unfold run. pose proof (now_confined w) as Hn. destruct (now w) as [t w1]. simpl in Hn.
  pose proof (confined_loop EXECUTION_ORDER [] false {| world := w1; used := 0 |}) as Hl.
  destruct (run_loop _ _ _ _ _) as [[checks ex] s]. simpl in Hl.
  pose proof (now_confined (world s)) as Hn'. destruct (now (world s)) as [t' w2]. simpl in *.
  etransitivity; [exact Hn|]. etransitivity; [exact Hl|exact Hn'].
Qed.
End Confined.

(** ** What passes the gate *)
Section Gate.
Context {W : Type} `{ObservedTransport W} (allow_external : bool).

(** A probe that the gate lets through. *)
Definition admitted (p : Probe) : Prop :=
  forall target, probe_target (pr_request p) = Some target ->
    target <> UNCONFIGURED_TARGET /\
    (allow_external = false -> exists ip, parse_ip target = Some ip /\ is_private_ip ip = true).
Definition only_admitted (w w' : W) : Prop := exists ps, issued w' = issued w ++ ps /\ Forall admitted ps.

#[global] Instance only_admitted_preorder : PreOrder only_admitted.
Proof.
  split.
  - intros w. exists []. split; [by rewrite app_nil_r|constructor].
  - intros w w' w'' (ps & E & Hp) (ps' & E' & Hp'). exists (ps ++ ps'). rewrite E', E, app_assoc. split; [done|by apply Forall_app].
Qed.

Lemma gate_refusal_none r : gate_refusal allow_external r = None <-> admitted {| pr_request := r; pr_timeout_ms := 0 |}.
Proof.
  unfold gate_refusal, admitted. simpl. destruct (probe_target r) as [t|]; simpl; [|split; [by intros _ ?|done]].
  case_bool_decide as Ht; [split; [done|intros Ha; by destruct (Ha t eq_refl)]|].
  unfold is_private_target. destruct allow_external; simpl; [split; [by intros _ ? [= <-]|done]|].
  destruct (parse_ip t) as [ip|] eqn:Ep; simpl; [destruct (is_private_ip ip) eqn:Ei; simpl|].
  - split; [|done]. intros _ ? [= <-]. split; [done|]. eauto.
  - split; [done|]. intros Ha. destruct (Ha t eq_refl) as [_ (ip' & ? & ?)]; [done|congruence].
  - split; [done|]. intros Ha. destruct (Ha t eq_refl) as [_ (ip' & ? & ?)]; [done|congruence].
Qed.
Lemma gate_admits p w : only_admitted w (snd (@probe W (gated_probes allow_external) p w)).
Proof.
  unfold probe at 1, gated_probes. destruct (gate_refusal _ _) eqn:Eg; [exists []; split; [by rewrite app_nil_r|constructor]|].
  exists [p]. split; [apply issued_probe|]. apply gate_refusal_none in Eg.
  apply Forall_cons; split; [exact Eg|constructor].
Qed.

End Gate.
