(* ===== verification/DoctorService.v ===== *)
(** * Network Doctor service: runs, approvals and repairs as interleaved requests

    The routes of crates/lattice-service/src/doctor.rs. A request is a program counter; one poll
    of it is what the code does between two points where another request can get in (an await or
    the release of a lock), so any number of requests interleave as the runtime interleaves
    them, and a request can be dropped at any such point, which releases the running flag. A
    diagnostic run and the execution of a repair are one poll each; what else happens in the
    process, other writers of the audit log included, is a step of the environment. The trace of
    events is for the statements only. Authorization, the decoding of bodies, uuids and the JSON
    of the audit entries are left to the parameters; so is the panic of chrono at the end of
    its range. *)

From stdpp Require Import strings gmap.
From S2P Require Import Prelude Time Text Bytes F64 AuditLog AuditLogTheorems Net Wire DoctorCheck DoctorEngine DoctorEngineProps DoctorDiagnosis DoctorRepair DoctorExecutor DoctorSettings.

(** ** Equality of diagnoses, as [PartialEq] is derived *)
Definition f64_eq (a b : f64) : bool := SpecFloat.SFeqb a b.
#[global] Instance LeaseState_eq_dec : EqDecision LeaseState.
Proof. solve_decision. Defined.
#[global] Instance DnsFailureReason_eq_dec : EqDecision DnsFailureReason.
Proof. solve_decision. Defined.
#[global] Instance RouteEntry_eq_dec : EqDecision RouteEntry.
Proof. solve_decision. Defined.

Definition option_eq {A} (eq : A -> A -> bool) (a b : option A) : bool :=
  match a, b with Some x, Some y => eq x y | None, None => true | _, _ => false end.
Fixpoint list_eq {A} (eq : A -> A -> bool) (a b : list A) : bool :=
  match a, b with [], [] => true | x :: a', y :: b' => eq x y && list_eq eq a' b' | _, _ => false end.
Definition outcome_eq (a b : ResolverOutcome) : bool :=
  match a, b with
  | Answered x, Answered y => f64_eq x y
  | ResolverFailed x, ResolverFailed y => bool_decide (x = y)
  | DoctorCheck.Unavailable x, DoctorCheck.Unavailable y => bool_decide (x = y)
  | _, _ => false
  end.
Definition resolver_eq (a b : ResolverEvidence) : bool :=
  bool_decide (rv_resolver a = rv_resolver b) && eqb (rv_independent a) (rv_independent b) && outcome_eq (rv_outcome a) (rv_outcome b).
Definition kind_eq (a b : DiagnosisKind) : bool :=
  match a, b with
  | CollectorFault p c w, CollectorFault p' c' w' => eqb p p' && eqb c c' && eqb w w'
  | AdapterLinkDown, AdapterLinkDown | GatewayUnreachable, GatewayUnreachable | RouterFault, RouterFault => true
  | AddressMissing l, AddressMissing l' => bool_decide (l = l')
  | DuplicateIpDiagnosis a m, DuplicateIpDiagnosis a' m' => bool_decide (a = a') && bool_decide (m = m')
  | WeakWifiQuality r, WeakWifiQuality r' => r =? r'
  | LossLatencyDegraded l m, LossLatencyDegraded l' m' => f64_eq l l' && option_eq f64_eq m m'
  | MtuBlackhole l s, MtuBlackhole l' s' => bool_decide (l = l') && bool_decide (s = s')
  | DnsFailure r, DnsFailure r' => list_eq resolver_eq r r'
  | RouteVpnConflict r, RouteVpnConflict r' => bool_decide (r = r')
  | InternetUnreachable l, InternetUnreachable l' => eqb l l'
  | DiagnosticProbeFailure c e, DiagnosticProbeFailure c' e' => bool_decide (c = c') && bool_decide (e = e')
  | _, _ => false
  end.

Definition kind_tag (k : DiagnosisKind) : string :=
  match k with
  | CollectorFault _ _ _ => "collector_fault"
  | AdapterLinkDown => "adapter_link_down"
  | AddressMissing _ => "address_missing"
  | DuplicateIpDiagnosis _ _ => "duplicate_ip"
  | WeakWifiQuality _ => "weak_wifi_quality"
  | GatewayUnreachable => "gateway_unreachable"
  | RouterFault => "router_fault"
  | LossLatencyDegraded _ _ => "loss_latency_degraded"
  | MtuBlackhole _ _ => "mtu_blackhole"
  | DnsFailure _ => "dns_failure"
  | RouteVpnConflict _ => "route_vpn_conflict"
  | InternetUnreachable _ => "internet_unreachable"
  | DiagnosticProbeFailure _ _ => "diagnostic_probe_failure"
  end.

(** ** The symptom a repair is verified against *)
Definition f64_half : f64 := f64_div f64_one (f64_of_Z 2).
Definition symptom_row (k : DiagnosisKind) : option (CheckKind * Metric * MetricDirection * f64) :=
  match k with
  | CollectorFault privileged capture_ok worker_running =>
    let metric := if negb worker_running then WorkerRunning
                  else if negb capture_ok then CaptureHealthy
                  else if negb privileged then CollectorPrivileged else WorkerRunning in
    Some (CollectorHealth, metric, HigherIsBetter, f64_half)
  | AdapterLinkDown => Some (AdapterLink, LinkUp, HigherIsBetter, f64_half)
  | AddressMissing lease =>
    let metric := match lease with LeaseExpired | LeaseMissing => LeaseValidMetric | LeaseStatic | LeaseValid => AddressPresent end in
    Some (AddressDhcp, metric, HigherIsBetter, f64_half)
  | DuplicateIpDiagnosis _ _ => Some (DuplicateIp, ConflictingMacCount, LowerIsBetter, f64_one)
  | WeakWifiQuality _ => Some (WifiQuality, RssiDbm, HigherIsBetter, f64_of_Z 3)
  | GatewayUnreachable => Some (Gateway, LossPercent, LowerIsBetter, f64_one)
  | RouterFault => Some (RouterHealth, RouterResponsive, HigherIsBetter, f64_half)
  | LossLatencyDegraded _ _ => Some (LossLatency, LossPercent, LowerIsBetter, f64_one)
  | MtuBlackhole _ _ => Some (Mtu, PassingMtuBytes, HigherIsBetter, f64_one)
  | DnsFailure _ => Some (Dns, ResolverFailureCount, LowerIsBetter, f64_one)
  | RouteVpnConflict _ => Some (RouteVpn, DefaultRouteCount, LowerIsBetter, f64_one)
  | InternetUnreachable _ => Some (InternetReachability, ReachabilitySuccess, HigherIsBetter, f64_half)
  | DiagnosticProbeFailure _ _ => None
  end.
Definition symptom_for (k : DiagnosisKind) : option Symptom :=
  '(check, metric, direction, delta) ← symptom_row k;
  match symptom_new check metric direction delta with Ok s => Some s | Err _ => None end.

(** ** Envelopes, requests and answers *)
Definition APPROVAL_TTL_MINUTES : Z := 10.

Record DoctorFinding := { df_diagnosis : Diagnosis; df_plan : RepairPlan }.
Record DoctorRun := { dr_run_id : string; dr_started_at : DateTime; dr_report : DiagnosticReport; dr_findings : list DoctorFinding }.
Record ApprovalRecord := { ap_fingerprint : string; ap_expires_at : DateTime; ap_used : bool }.

(** [None] is a body that is rejected. *)
Inductive Request :=
  | PostRun
  | GetReport
  | PostApproval (body : option DiagnosisKind)
  | PostRepair (body : option (DiagnosisKind * option string))
  | GetSettings
  | PutSettings (body : option DoctorSettingsUpdate).
Inductive Response :=
  | Status (code : Z)
  | RunResponse (r : DoctorRun)
  | ApprovalResponse (approval_id : string) (expires_at : DateTime)
  | RepairResponse (r : RepairReport)
  | SettingsResponse (s : DoctorSettings)
  | RejectedResponse (error : string).

(** Uuids, and what serde_json makes of the entries' details. *)
Class UuidSource (W : Type) := new_v4 : M W string.
Class DoctorJson `{AuditLibs} := {
  kind_fingerprint : DiagnosisKind -> option string;
  approval_detail : string -> DiagnosisKind -> DateTime -> Value;
  repair_detail : DiagnosisKind -> RepairReport -> option string -> Value;
  settings_detail : DoctorSettings -> DoctorSettings -> Value
}.

(** Events, for the statements. *)
Inductive Event :=
  | Published (run : DoctorRun)
  | Minted (approval_id : string) (kind : DiagnosisKind) (fingerprint : string) (at_ expires_at : DateTime)
  | Withdrawn (approval_id : string)
  | Spent (approval_id : string) (kind : DiagnosisKind) (fingerprint : string) (at_ : DateTime) (action : ApprovalAction)
  | Executed (kind : DiagnosisKind) (repair : ExecutableRepair) (report : RepairReport)
  | Changed (settings : DoctorSettings).

(** ** The shared state *)
Section Service.
Context {W : Type} `{ProbeTransport W, RepairTransport W, Clock W, UuidSource W}.
Context `{Sha256} `{AuditLibs} `{!DoctorJson}.
Context (f64_display : f64 -> string) (budget : DiagnosticBudget) (profile : ProbeProfile) (context : RepairContext).

Record Shared := {
  sh_settings : DoctorSettings;
  sh_running : bool;
  sh_latest : option DoctorRun;
  sh_approvals : gmap string ApprovalRecord;
  sh_audit : AuditDb;
  sh_world : W;
  sh_trace : list Event
}.

Definition assemble (settings : DoctorSettings) (audit : AuditDb) (w : W) : result Shared DoctorError :=
  let? _ := with_clock (to_config settings profile) budget in
  Ok {| sh_settings := settings; sh_running := false; sh_latest := None; sh_approvals := ∅;
        sh_audit := audit; sh_world := w; sh_trace := [] |}.

Definition set_running (b : bool) (s : Shared) : Shared := {|
  sh_settings := sh_settings s; sh_running := b; sh_latest := sh_latest s; sh_approvals := sh_approvals s;
  sh_audit := sh_audit s; sh_world := sh_world s; sh_trace := sh_trace s |}.
Definition set_settings (v : DoctorSettings) (s : Shared) : Shared := {|
  sh_settings := v; sh_running := sh_running s; sh_latest := sh_latest s; sh_approvals := sh_approvals s;
  sh_audit := sh_audit s; sh_world := sh_world s; sh_trace := sh_trace s ++ [Changed v] |}.
Definition set_approvals (a : gmap string ApprovalRecord) (e : list Event) (s : Shared) : Shared := {|
  sh_settings := sh_settings s; sh_running := sh_running s; sh_latest := sh_latest s; sh_approvals := a;
  sh_audit := sh_audit s; sh_world := sh_world s; sh_trace := sh_trace s ++ e |}.
Definition publish (r : DoctorRun) (s : Shared) : Shared := {|
  sh_settings := sh_settings s; sh_running := sh_running s; sh_latest := Some r; sh_approvals := ∅;
  sh_audit := sh_audit s; sh_world := sh_world s; sh_trace := sh_trace s ++ [Published r] |}.
Definition on_world {A} (m : M W A) (e : A -> list Event) : M Shared A := fun s =>
  let '(a, w) := m (sh_world s) in
  (a, {| sh_settings := sh_settings s; sh_running := sh_running s; sh_latest := sh_latest s; sh_approvals := sh_approvals s;
         sh_audit := sh_audit s; sh_world := w; sh_trace := sh_trace s ++ e a |}).
Definition silent {A} (a : A) : list Event := [].
(** [append_audit] *)
Definition append_audit (e : NewAuditEntry) : M Shared bool := fun s =>
  let '(r, db) := append (sh_audit s) e in
  (is_ok r, {| sh_settings := sh_settings s; sh_running := sh_running s; sh_latest := sh_latest s; sh_approvals := sh_approvals s;
               sh_audit := db; sh_world := sh_world s; sh_trace := sh_trace s |}).

(** ** Where a request can stand *)
Inductive Pc :=
  | Start (r : Request)
  (** a run: the flag taken, the engine built, the report taken *)
  | RunTaken
  | RunReady (settings : DoctorSettings) (engine : DiagnosticEngine)
  | RunDone (settings : DoctorSettings) (run : DoctorRun)
  (** an approval: before the lock, before the audit entry, before the withdrawal *)
  | MintReady (kind : DiagnosisKind) (fingerprint : string) (now expires_at : DateTime) (approval_id : string)
  | MintAudit (kind : DiagnosisKind) (now expires_at : DateTime) (approval_id : string)
  | MintWithdraw (approval_id : string)
  (** a repair: the flag taken, before the token is spent, before and after the execution *)
  | RepairTaken (kind : DiagnosisKind) (approval : option string)
  | RepairSpend (kind : DiagnosisKind) (approval_id fingerprint : string) (now : DateTime) (action : ApprovalAction)
  | RepairExecute (kind : DiagnosisKind) (approval : option string) (repair : ExecutableRepair) (symptom : Symptom)
  | RepairAudit (kind : DiagnosisKind) (approval : option string) (report : RepairReport) (now : DateTime)
  (** an update: before the lock, before the audit entry, before the old settings are restored *)
  | UpdateReady (now : DateTime) (update : DoctorSettingsUpdate)
  | UpdateAudit (now : DateTime) (previous next : DoctorSettings)
  | UpdateRestore (previous : DoctorSettings)
  | Answered (r : Response)
  | Dropped.

(** The requests that hold the [RunningGuard]. *)
Definition holds_guard (p : Pc) : bool :=
  match p with
  | RunTaken | RunReady _ _ | RunDone _ _ | RepairTaken _ _ | RepairSpend _ _ _ _ _ | RepairExecute _ _ _ _ | RepairAudit _ _ _ _ => true
  | _ => false
  end.

Definition answer (r : Response) : M Shared Pc := mret_st (Answered r).
(** The answer of a request that holds the guard: returning drops it. *)
Definition release (r : Response) : M Shared Pc := fun s => (Answered r, set_running false s).
(** [compare_exchange(false, true)] *)
Definition take_guard (next : Pc) : M Shared Pc := fun s =>
  if sh_running s then (Answered (Status 409), s) else (next, set_running true s).

(** ** The routes *)
Definition run_engine (settings : DoctorSettings) (engine : DiagnosticEngine) : M W DoctorRun :=
  let! report := @run W (gated_probes (ds_external_probes_confirmed settings)) _ engine in
  let plan_context := {| rc_interface := ds_interface settings;
                         lease_renewal_severs_only_management_path := lease_renewal_severs_only_management_path context;
                         fallback_dns_servers := fallback_dns_servers context |} in
  let! run_id := new_v4 in
  mret_st {| dr_run_id := run_id; dr_started_at := rp_started_at report; dr_report := report;
             dr_findings := map (fun d => {| df_diagnosis := d; df_plan := plan_repair (d_kind d) plan_context |}) (diagnose report) |}.

Definition approvable (kind : DiagnosisKind) (run : DoctorRun) : bool :=
  existsb (fun f => kind_eq (d_kind (df_diagnosis f)) kind && match df_plan f with ApprovalRequiredReversible _ _ => true | _ => false end) (dr_findings run).
Definition mint (kind : DiagnosisKind) (fingerprint : string) (now expires_at : DateTime) (approval_id : string) : M Shared Pc := fun s =>
  match sh_latest s with
  | None => (Answered (Status 404), s)
  | Some run =>
    if approvable kind run then
      let kept := filter (fun '(_, r) => now < ap_expires_at r) (sh_approvals s) in
      let minted := <[approval_id := {| ap_fingerprint := fingerprint; ap_expires_at := expires_at; ap_used := false |}]> kept in
      (MintAudit kind now expires_at approval_id, set_approvals minted [Minted approval_id kind fingerprint now expires_at] s)
    else (Answered (Status 404), s)
  end.

Definition finding_plan (kind : DiagnosisKind) (run : DoctorRun) : option RepairPlan :=
  df_plan <$> iter_find (fun f => kind_eq (d_kind (df_diagnosis f)) kind) (dr_findings run).
(** The symptom of an executable repair; without one the route answers 500. *)
Definition prepare (kind : DiagnosisKind) (approval : option string) (repair : ExecutableRepair) : M Shared Pc :=
  match symptom_for kind with
  | None => release (Status 500)
  | Some symptom => mret_st (RepairExecute kind approval repair symptom)
  end.
Definition choose (kind : DiagnosisKind) (approval : option string) : M Shared Pc := fun s =>
  match sh_latest s with
  | None => release (Status 404) s
  | Some run =>
    match finding_plan kind run with
    | None => release (Status 404) s
    | Some (SafeAutomatic action _) => prepare kind approval (Safe action) s
    | Some (ApprovalRequiredReversible action _) =>
      match approval with
      | None => release (Status 403) s
      | Some approval_id =>
        match kind_fingerprint kind with
        | None => release (Status 400) s
        | Some fingerprint => (let! now := on_world now silent in mret_st (RepairSpend kind approval_id fingerprint now action)) s
        end
      end
    | Some (GuidedPhysical _ _) | Some (ObservationOnly _) => release (Status 400) s
    end
  end.
Definition spend (kind : DiagnosisKind) (approval_id fingerprint : string) (now : DateTime) (action : ApprovalAction) : M Shared Pc := fun s =>
  match sh_approvals s !! approval_id with
  | None => release (Status 403) s
  | Some record =>
    if ap_used record || (ap_expires_at record <=? now) || negb (bool_decide (ap_fingerprint record = fingerprint)) then release (Status 403) s
    else
      let used := {| ap_fingerprint := ap_fingerprint record; ap_expires_at := ap_expires_at record; ap_used := true |} in
      let s := set_approvals (<[approval_id := used]> (sh_approvals s)) [Spent approval_id kind fingerprint now action] s in
      match approval_try_new approval_id with
      | Err _ => release (Status 403) s
      | Ok token => prepare kind (Some approval_id) (Approved {| ar_action := action; ar_approval := token |}) s
      end
  end.

Definition doctor_entry (at_ : DateTime) (action : string) (subject : string) (detail : Value) : NewAuditEntry := {|
  ne_occurred_at := at_; ne_actor := Owner; ne_category := DoctorAction; ne_action := action; ne_subject := Some subject; ne_detail := detail |}.

Definition update (now : DateTime) (u : DoctorSettingsUpdate) : M Shared Pc := fun s =>
  let next := apply (sh_settings s) u in
  match settings_validate next with
  | Err error => (Answered (RejectedResponse error), s)
  | Ok _ => (UpdateAudit now (sh_settings s) next, set_settings next s)
  end.

Definition start (r : Request) : M Shared Pc :=
  match r with
  | PostRun => take_guard RunTaken
  | GetReport => fun s => (Answered (match sh_latest s with Some run => RunResponse run | None => Status 204 end), s)
  | PostApproval None => answer (Status 400)
  | PostApproval (Some kind) =>
    match kind_fingerprint kind with
    | None => answer (Status 400)
    | Some fingerprint =>
      let! now := on_world now silent in
      let! approval_id := on_world new_v4 silent in
      mret_st (MintReady kind fingerprint now (now + minutes APPROVAL_TTL_MINUTES) approval_id)
    end
  | PostRepair None => answer (Status 400)
  | PostRepair (Some (kind, approval)) => take_guard (RepairTaken kind approval)
  | GetSettings => fun s => (Answered (SettingsResponse (sh_settings s)), s)
  | PutSettings None => answer (Status 400)
  | PutSettings (Some u) => let! now := on_world now silent in mret_st (UpdateReady now u)
  end.

(** One poll of a request. *)
Definition poll (p : Pc) : M Shared Pc :=
  match p with
  | Start r => start r
  | RunTaken => fun s =>
    let settings := sh_settings s in
    match with_clock (to_config settings profile) budget with
    | Err _ => release (Status 503) s
    | Ok engine => (RunReady settings engine, s)
    end
  | RunReady settings engine => let! run := on_world (run_engine settings engine) silent in mret_st (RunDone settings run)
  | RunDone _ run => fun s => release (RunResponse run) (publish run s)
  | MintReady kind fingerprint now expires_at approval_id => mint kind fingerprint now expires_at approval_id
  | MintAudit kind now expires_at approval_id =>
    let! audited := append_audit (doctor_entry now "approval_minted" (kind_tag kind) (approval_detail approval_id kind expires_at)) in
    if audited then answer (ApprovalResponse approval_id expires_at) else mret_st (MintWithdraw approval_id)
  | MintWithdraw approval_id => fun s =>
    (Answered (Status 503), set_approvals (delete approval_id (sh_approvals s)) [Withdrawn approval_id] s)
  | RepairTaken kind approval => choose kind approval
  | RepairSpend kind approval_id fingerprint now action => spend kind approval_id fingerprint now action
  | RepairExecute kind approval repair symptom =>
    let! report := on_world (execute f64_display repair symptom) (fun report => [Executed kind repair report]) in
    let! now := on_world now silent in
    mret_st (RepairAudit kind approval report now)
  | RepairAudit kind approval report now =>
    let! audited := append_audit (doctor_entry now "repair_executed" (kind_tag kind) (repair_detail kind report approval)) in
    if audited then release (RepairResponse report) else release (Status 503)
  | UpdateReady now u => update now u
  | UpdateAudit now previous next =>
    let! audited := append_audit (doctor_entry now "settings_updated" "doctor_settings" (settings_detail previous next)) in
    if audited then answer (SettingsResponse next) else mret_st (UpdateRestore previous)
  | UpdateRestore previous => fun s => (Answered (Status 503), set_settings previous s)
  | Answered r => answer r
  | Dropped => mret_st Dropped
  end.

(** ** The system: any number of requests over the shared state *)
Record System := { shared : Shared; requests : list Pc }.

(** What happens outside of this module: time passes, other components work and write to the
    audit log. *)
Definition elsewhere (w : W) (db : AuditDb) (s : Shared) : Shared := {|
  sh_settings := sh_settings s; sh_running := sh_running s; sh_latest := sh_latest s; sh_approvals := sh_approvals s;
  sh_audit := db; sh_world := w; sh_trace := sh_trace s |}.

Inductive step : System -> System -> Prop :=
  | step_arrive r s ps : step {| shared := s; requests := ps |} {| shared := s; requests := ps ++ [Start r] |}
  | step_poll i p s ps : ps !! i = Some p ->
      step {| shared := s; requests := ps |} {| shared := snd (poll p s); requests := <[i := fst (poll p s)]> ps |}
  | step_drop i p s ps : ps !! i = Some p ->
      step {| shared := s; requests := ps |}
           {| shared := if holds_guard p then set_running false s else s; requests := <[i := Dropped]> ps |}
  | step_elsewhere w db s ps : step {| shared := s; requests := ps |} {| shared := elsewhere w db s; requests := ps |}.

Definition initial (y : System) : Prop := exists settings db w, assemble settings db w = Ok (shared y) /\ requests y = [].
Inductive reachable : System -> Prop :=
  | reach_start y : initial y -> reachable y
  | reach_step y y' : reachable y -> step y y' -> reachable y'.
End Service.

(** ** Every step of a request *)
Section Theorems.
Context {W : Type} `{ProbeTransport W, RepairTransport W, Clock W, UuidSource W}.
Context `{Sha256} `{AuditLibs} `{!DoctorJson}.
Context (f64_display : f64 -> string) (budget : DiagnosticBudget) (profile : ProbeProfile) (context : RepairContext).
Abbreviation Shared := (Shared (W := W)).
Abbreviation poll := (poll f64_display budget profile context).
Abbreviation step := (step f64_display budget profile context).
Abbreviation reachable := (reachable f64_display budget profile context).

(** The events that only the holder of the guard causes. *)
Definition guarded (e : Event) : bool := match e with Published _ | Spent _ _ _ _ _ | Executed _ _ _ => true | _ => false end.

(** The effect of [m] on the flag and the trace when the request stands at [p]: a request that
    does not hold the guard either leaves the flag alone or takes it when it is free, and causes
    no guarded event; one that holds it keeps it, or releases the flag with it. *)
Definition guard_ok (holds : bool) (s s' : Shared) (p' : Pc) : Prop :=
  (exists es, sh_trace s' = sh_trace s ++ es /\ (holds = false -> Forall (fun e => guarded e = false) es)) /\
  (if holds then sh_running s' = (if holds_guard p' then sh_running s else false)
   else if holds_guard p' then sh_running s = false /\ sh_running s' = true else sh_running s' = sh_running s).

Ltac trace := eexists; split; [first [reflexivity | symmetry; apply app_nil_r | rewrite <- app_assoc; reflexivity | done]|repeat constructor; done].
Lemma poll_guard p s : guard_ok (holds_guard p) s (snd (poll p s)) (fst (poll p s)).
Proof.
  assert (forall h p', holds_guard p' = h -> guard_ok h s s p') as Hstay.
  { intros h p' <-. split; [exists []; split; [by rewrite app_nil_r|constructor]|]. by destruct (holds_guard p'). }
  assert (forall r, guard_ok true s (set_running false s) (Answered r)) as Hrel.
  { intros r. split; [exists []; split; [by rewrite app_nil_r|constructor]|done]. }
  destruct p; simpl; try by apply Hstay.
  - destruct r as [| |[k|]|[[k a]|]| |[u|]]; simpl; try by apply Hstay.
    + unfold take_guard. destruct (sh_running s) eqn:Er; [by apply Hstay|]. split; [trace|done].
    + destruct (kind_fingerprint k); [|by apply Hstay]. unfold mbind_st, on_world. destruct (now _), (new_v4 _). cbn. split; [|done].
      exists []. cbn. rewrite !app_nil_r. split; [done|constructor].
    + unfold take_guard. destruct (sh_running s) eqn:Er; [by apply Hstay|]. split; [trace|done].
    + unfold mbind_st, on_world. destruct (now _). split; [trace|done].
  - destruct (with_clock _ _); [by apply Hstay|apply Hrel].
  - unfold mbind_st, on_world. destruct (run_engine _ _ _ _). split; [trace|done].
  - split; [trace|done].
  - unfold mint. destruct (sh_latest s); [|by apply Hstay]. destruct (approvable _ _); [|by apply Hstay]. split; [trace|done].
  - unfold mbind_st, append_audit. destruct (append _ _) as [a db]. destruct (is_ok a); split; try done; trace.
  - split; [trace|done].
  - unfold choose. destruct (sh_latest s) as [run|]; [|apply Hrel]. destruct (finding_plan _ run) as [[]|]; try apply Hrel.
    + unfold prepare. destruct (symptom_for _); [by apply Hstay|apply Hrel].
    + destruct approval; [|apply Hrel]. destruct (kind_fingerprint _); [|apply Hrel]. unfold mbind_st, on_world. destruct (now _). split; [trace|done].
  - unfold spend. destruct (_ !! _) as [r|]; [|apply Hrel]. destruct (_ || _); [apply Hrel|].
    destruct (approval_try_new _); [|split; [trace|done]]. unfold prepare. destruct (symptom_for _); (split; [trace|done]).
  - unfold mbind_st, on_world. destruct (execute _ _ _ _) as [r w]. cbn. destruct (now w). cbn. split; [|done].
    exists [Executed kind repair r]. cbn. rewrite app_nil_r. split; [done|by intros]. 
  - unfold mbind_st, append_audit. destruct (append _ _) as [a db]. destruct (is_ok a); (split; [trace|done]).
  - unfold update. destruct (settings_validate _); [|by apply Hstay]. split; [trace|done].
  - unfold mbind_st, append_audit. destruct (append _ _) as [a db]. destruct (is_ok a); split; try done; trace.
  - split; [trace|done].
Qed.

(** ** Single flight *)
Record guard_inv (running : bool) (ps : list (Pc)) : Prop := {
  gi_one : forall i j p q, ps !! i = Some p -> ps !! j = Some q -> holds_guard p = true -> holds_guard q = true -> i = j;
  gi_flag : running = true <-> exists i p, ps !! i = Some p /\ holds_guard p = true
}.

Lemma lookup_replace {A} (ps : list A) i j p p' q : ps !! i = Some p -> <[i := p']> ps !! j = Some q -> (j = i /\ q = p') \/ (j <> i /\ ps !! j = Some q).
Proof.
  intros Hi Hj. destruct (decide (j = i)) as [->|Hn]; [left|right; split; [done|]].
  - rewrite list_lookup_insert_eq in Hj by (by eapply lookup_lt_Some). by injection Hj as <-.
  - by rewrite list_lookup_insert_ne in Hj.
Qed.

Lemma guard_inv_replace b b' ps i p p' : ps !! i = Some p -> guard_inv b ps ->
  (if holds_guard p then b' = (if holds_guard p' then b else false)
   else if holds_guard p' then b = false /\ b' = true else b' = b) ->
  guard_inv b' (<[i := p']> ps).
Proof.
  intros Hi [Hone Hflag] Hb.
  assert (<[i := p']> ps !! i = Some p') as Hi' by (apply list_lookup_insert_eq; by eapply lookup_lt_Some).
  assert (holds_guard p = true -> b = true) as Hp by (intros Hh; apply Hflag; eauto).
  assert (forall j q, j <> i -> ps !! j = Some q -> holds_guard q = true -> b = true /\ holds_guard p = false) as Hother.
  { intros j q Hn Hj Hq. split; [apply Hflag; eauto|]. destruct (holds_guard p) eqn:Ep; [|done]. by destruct (Hn (Hone j i q p Hj Hi Hq Ep)). }
  split.
  - intros j k q r Hj Hk Hq Hr. apply (lookup_replace _ _ _ _ _ _ Hi) in Hj as [[-> ->]|[Hnj Hj]];
      apply (lookup_replace _ _ _ _ _ _ Hi) in Hk as [[-> ->]|[Hnk Hk]]; [done|..|by eapply Hone].
    + destruct (Hother k r Hnk Hk Hr) as [-> Ep]. rewrite Ep, Hq in Hb. by destruct Hb.
    + destruct (Hother j q Hnj Hj Hq) as [-> Ep]. rewrite Ep, Hr in Hb. by destruct Hb.
  - split.
    + intros ->. destruct (holds_guard p') eqn:Ep'; [by exists i, p'|]. destruct (holds_guard p) eqn:Ep; [done|]. subst b.
      destruct (proj1 Hflag eq_refl) as (j & q & Hj & Hq). exists j, q. split; [|done]. destruct (decide (j = i)) as [->|Hn]; [|by rewrite list_lookup_insert_ne].
      by rewrite Hi in Hj; injection Hj as ->; rewrite Ep in Hq.
    + intros (j & q & Hj & Hq). apply (lookup_replace _ _ _ _ _ _ Hi) in Hj as [[-> ->]|[Hn Hj]].
      * rewrite Hq in Hb. destruct (holds_guard p); [|by destruct Hb]. by rewrite Hb, Hp.
      * destruct (Hother j q Hn Hj Hq) as [-> Ep]. rewrite Ep in Hb. destruct (holds_guard p'); [by destruct Hb|done].
Qed.

Lemma guard_inv_arrive b ps r : guard_inv b ps -> guard_inv b (ps ++ [Start r]).
Proof.
  intros [Hone Hflag].
  assert (forall j q, (ps ++ [Start r]) !! j = Some q -> holds_guard q = true -> ps !! j = Some q) as Hj.
  { intros j q Hj Hq. apply lookup_app_Some in Hj as [Hj|[_ Hj]]; [done|]. by apply list_lookup_singleton_Some in Hj as [_ <-]. }
  split.
  - intros i j p q Hi Hj' Hp Hq. eapply Hone; eauto.
  - rewrite Hflag. split; intros (i & p & Hi & Hp); exists i, p; (split; [|done]); [by apply lookup_app_l_Some|by apply Hj].
Qed.

Lemma reachable_guard y : reachable y -> guard_inv (sh_running (shared y)) (requests y).
Proof.
  induction 1 as [y (settings & db & w & Ha & Hr)|y y' _ IH Hs].
  - unfold assemble in Ha. destruct (with_clock _ _); [|done]. injection Ha as <-. rewrite Hr. split; [by intros ? ?|]. split; [done|by intros (? & ? & ? & ?)].
  - destruct Hs as [r s ps|i p s ps Hi|i p s ps Hi|w db s ps]; simpl in *; [by apply guard_inv_arrive| | |done].
    + eapply guard_inv_replace; [done..|]. apply poll_guard.
    + eapply guard_inv_replace; [done..|]. simpl. by destruct (holds_guard p).
Qed.

(** ** What the trace says of the tokens *)

(** The run whose findings count, and the tokens that were minted for it. *)
Definition latest_event (o : option DoctorRun) (e : Event) : option DoctorRun := match e with Published r => Some r | _ => o end.
Definition latest_in (tr : list Event) : option DoctorRun := fold_left latest_event tr None.

Record Grant := { g_kind : DiagnosisKind; g_fingerprint : string; g_at : DateTime; g_expires_at : DateTime; g_used : bool }.
Definition use_grant (g : Grant) : Grant := {|
  g_kind := g_kind g; g_fingerprint := g_fingerprint g; g_at := g_at g; g_expires_at := g_expires_at g; g_used := true |}.
Definition ledger_event (m : gmap string Grant) (e : Event) : gmap string Grant :=
  match e with
  | Published _ => ∅
  | Minted id k fp at_ exp => <[id := {| g_kind := k; g_fingerprint := fp; g_at := at_; g_expires_at := exp; g_used := false |}]> m
  | Withdrawn id => delete id m
  | Spent id _ _ _ _ => alter use_grant id m
  | Executed _ _ _ | Changed _ => m
  end.
Definition ledger (tr : list Event) : gmap string Grant := fold_left ledger_event tr ∅.

Lemma latest_snoc tr e : latest_in (tr ++ [e]) = latest_event (latest_in tr) e.
Proof. unfold latest_in. by rewrite fold_left_app. Qed.
Lemma ledger_snoc tr e : ledger (tr ++ [e]) = ledger_event (ledger tr) e.
Proof. unfold ledger. by rewrite fold_left_app. Qed.
Lemma latest_skip tr es : Forall (fun e => guarded e = false) es -> latest_in (tr ++ es) = latest_in tr.
Proof.
  unfold latest_in. rewrite fold_left_app. generalize (fold_left latest_event tr None). intros o He. revert o.
  induction He as [|e es He _ IH]; intros o; simpl; [done|]. rewrite IH. by destruct e.
Qed.

(** Nothing happens to the token. *)
Definition untouched (id : string) (e : Event) : Prop :=
  match e with
  | Published _ => False
  | Minted id' _ _ _ _ | Withdrawn id' | Spent id' _ _ _ _ => id' <> id
  | Executed _ _ _ | Changed _ => True
  end.
Lemma ledger_grant tr id g : ledger tr !! id = Some g -> g_used g = false ->
  exists pre post, tr = pre ++ Minted id (g_kind g) (g_fingerprint g) (g_at g) (g_expires_at g) :: post /\ Forall (untouched id) post.
Proof.
  induction tr as [|e tr IH] using rev_ind; [by unfold ledger; cbn; rewrite lookup_empty|]. rewrite ledger_snoc. intros Hl Hu.
  assert (ledger tr !! id = Some g -> untouched id e ->
    exists pre post, tr ++ [e] = pre ++ Minted id (g_kind g) (g_fingerprint g) (g_at g) (g_expires_at g) :: post /\ Forall (untouched id) post) as Hskip.
  { intros Hl' He. destruct (IH Hl' Hu) as (pre & post & -> & Hp). exists pre, (post ++ [e]). rewrite <- app_assoc. split; [done|].
    apply Forall_app. auto. }
  destruct e as [r|id' k fp at_ exp|id'|id' k fp at_ a|k r rep|v]; simpl in Hl; [by rewrite lookup_empty in Hl|..]; [| | |by apply Hskip..].
  - apply lookup_insert_Some in Hl as [[-> <-]|[Hn Hl]]; [|by apply Hskip]. exists tr, []. split; [done|constructor].
  - apply lookup_delete_Some in Hl as [Hn Hl]. by apply Hskip.
  - apply lookup_alter_Some in Hl as [(-> & g' & Hg & ->)|[Hn Hl]]; [done|by apply Hskip].
Qed.

(** ** Why each event may happen *)
Definition planned (tr : list Event) (k : DiagnosisKind) (p : RepairPlan) : Prop :=
  exists run, latest_in tr = Some run /\ finding_plan k run = Some p.
Definition spent_before (pre : list Event) (k : DiagnosisKind) (id : string) (a : ApprovalAction) : Prop :=
  exists pre0 fp now mid, pre = pre0 ++ Spent id k fp now a :: mid /\ Forall (fun e => guarded e = false) mid.
Definition executable (tr : list Event) (k : DiagnosisKind) (r : ExecutableRepair) : Prop :=
  match r with
  | Safe a => exists why, planned tr k (SafeAutomatic a why)
  | Approved ar => spent_before tr k (approval_token (ar_approval ar)) (ar_action ar)
  end.
Definition justified (pre : list Event) (e : Event) : Prop :=
  match e with
  | Minted id k fp at_ exp =>
      kind_fingerprint k = Some fp /\ exp = at_ + minutes APPROVAL_TTL_MINUTES /\
      exists run, latest_in pre = Some run /\ approvable k run = true
  | Spent id k fp now a =>
      kind_fingerprint k = Some fp /\ (exists why, planned pre k (ApprovalRequiredReversible a why)) /\
      exists g, ledger pre !! id = Some g /\ g_used g = false /\ g_fingerprint g = fp /\ now < g_expires_at g
  | Executed k r _ => executable pre k r
  | Published _ | Withdrawn _ | Changed _ => True
  end.
Definition all_justified (tr : list Event) : Prop := forall pre e post, tr = pre ++ e :: post -> justified pre e.

Lemma all_justified_snoc tr e : all_justified tr -> justified tr e -> all_justified (tr ++ [e]).
Proof.
  intros Ha He pre e' post Heq. destruct post as [|x post _] using rev_ind.
  - apply app_inj_tail in Heq as [-> ->]. done.
  - change (e' :: post ++ [x]) with ((e' :: post) ++ [x]) in Heq. rewrite app_assoc in Heq. apply app_inj_tail in Heq as [Heq _]. by eapply Ha.
Qed.

(** What a request that is under way relies on. *)
Definition pc_ok (tr : list Event) (p : Pc) : Prop :=
  match p with
  | MintReady k fp now exp _ => kind_fingerprint k = Some fp /\ exp = now + minutes APPROVAL_TTL_MINUTES
  | RepairSpend k id fp now a => kind_fingerprint k = Some fp /\ exists why, planned tr k (ApprovalRequiredReversible a why)
  | RepairExecute k _ r _ => executable tr k r
  | _ => True
  end.
Lemma planned_extend tr es k p : Forall (fun e => guarded e = false) es -> planned tr k p -> planned (tr ++ es) k p.
Proof. intros He (run & Hl & Hp). exists run. by rewrite latest_skip. Qed.
Lemma pc_ok_extend tr es p : Forall (fun e => guarded e = false) es -> pc_ok tr p -> pc_ok (tr ++ es) p.
Proof.
  intros He. destruct p; simpl; try done.
  - intros (Hf & why & Hp). split; [done|]. exists why. by apply planned_extend.
  - destruct repair as [a|ar]; simpl; [intros (why & Hp); exists why; by apply planned_extend|].
    intros (pre0 & fp & now & mid & -> & Hm). exists pre0, fp, now, (mid ++ es). rewrite <- app_assoc. split; [done|]. by apply Forall_app.
Qed.
Lemma pc_ok_free tr tr' p : holds_guard p = false -> pc_ok tr p -> pc_ok tr' p.
Proof. by destruct p. Qed.

(** The shared state agrees with the trace. *)
Record coherent (s : Shared) : Prop := {
  co_latest : sh_latest s = latest_in (sh_trace s);
  co_ledger : forall id r, sh_approvals s !! id = Some r -> exists g, ledger (sh_trace s) !! id = Some g /\
    g_fingerprint g = ap_fingerprint r /\ g_expires_at g = ap_expires_at r /\ g_used g = ap_used r
}.
Definition advances (s s' : Shared) (p' : Pc) : Prop :=
  coherent s' /\ pc_ok (sh_trace s') p' /\
  (sh_trace s' = sh_trace s \/ exists e, sh_trace s' = sh_trace s ++ [e] /\ justified (sh_trace s) e).

(** A change that touches neither the runs nor the tokens. *)
Lemma coherent_same s s' : coherent s -> sh_latest s' = sh_latest s -> sh_approvals s' = sh_approvals s -> sh_trace s' = sh_trace s -> coherent s'.
Proof. intros [Hl Hg] El Ea Et. split; rewrite ?El, ?Ea, Et; done. Qed.
Lemma advances_same s s' p' : coherent s -> sh_latest s' = sh_latest s -> sh_approvals s' = sh_approvals s -> sh_trace s' = sh_trace s ->
  pc_ok (sh_trace s) p' -> advances s s' p'.
Proof. intros Hc El Ea Et Hp. split; [by eapply coherent_same|]. rewrite Et. auto. Qed.

Lemma spent_one tr k id a fp now : spent_before (tr ++ [Spent id k fp now a]) k id a.
Proof. exists tr, fp, now, []. split; [done|constructor]. Qed.
Lemma approval_token_of id token : approval_try_new id = Ok token -> approval_token token = id.
Proof. unfold approval_try_new. destruct (_ || _); [done|]. by intros [= <-]. Qed.

Lemma choose_advances k approval s : coherent s -> advances s (snd (choose k approval s)) (fst (choose k approval s)).
Proof.
  intros Hc. unfold choose. rewrite (co_latest _ Hc). destruct (latest_in (sh_trace s)) as [run|] eqn:El; [|by apply advances_same].
  destruct (finding_plan k run) as [[a why|a why|a why|why]|] eqn:Ep; try by apply advances_same.
  - unfold prepare. destruct (symptom_for k); [|by apply advances_same]. apply advances_same; try done. simpl. exists why, run. auto.
  - destruct approval as [id|]; [|by apply advances_same]. destruct (kind_fingerprint k) eqn:Ef; [|by apply advances_same].
    unfold mbind_st, on_world, silent. destruct (now _). apply advances_same; try done; simpl; [by rewrite app_nil_r|]. split; [done|]. exists why, run. auto.
Qed.

Lemma spend_advances k id fp now a s : coherent s -> pc_ok (sh_trace s) (RepairSpend k id fp now a) ->
  advances s (snd (spend k id fp now a s)) (fst (spend k id fp now a s)).
Proof.
  intros Hc [Hf Hplan]. unfold spend. destruct (sh_approvals s !! id) as [r|] eqn:Er; [|by apply advances_same].
  destruct (_ || _) eqn:Ec; [by apply advances_same|]. apply orb_false_iff in Ec as [[Hu Ht]%orb_false_iff Hfp].
  apply Z.leb_gt in Ht. apply negb_false_iff, bool_decide_eq_true in Hfp.
  destruct (co_ledger _ Hc _ _ Er) as (g & Hg & Gf & Ge & Gu).
  assert (justified (sh_trace s) (Spent id k fp now a)) as Hj.
  { split; [done|]. split; [done|]. exists g. split_and!; congruence || lia. }
  set (used := {| ap_fingerprint := ap_fingerprint r; ap_expires_at := ap_expires_at r; ap_used := true |}).
  assert (forall b, coherent (set_running b (set_approvals (<[id := used]> (sh_approvals s)) [Spent id k fp now a] s)) /\
                    coherent (set_approvals (<[id := used]> (sh_approvals s)) [Spent id k fp now a] s)) as Hco.
  { intros b. assert (coherent (set_approvals (<[id := used]> (sh_approvals s)) [Spent id k fp now a] s)) as Hs; [|split; [by eapply coherent_same|done]].
    split; simpl; [rewrite latest_snoc; apply Hc|]. intros id' r' Hr'. rewrite ledger_snoc. cbn [ledger_event].
    apply lookup_insert_Some in Hr' as [[<- <-]|[Hn Hr']].
    - exists (use_grant g). rewrite lookup_alter_eq, Hg. done.
    - rewrite lookup_alter_ne by done. by apply Hc. }
  destruct (approval_try_new id) as [token|] eqn:Etok; [unfold prepare; destruct (symptom_for k)|];
    (split; [apply (Hco false)|]; split; [|right; eexists; split; [reflexivity|exact Hj]]); simpl; [|done..].
  rewrite (approval_token_of _ _ Etok). apply spent_one.
Qed.

Lemma mint_advances k fp now exp id s : coherent s -> pc_ok (sh_trace s) (MintReady k fp now exp id) ->
  advances s (snd (mint k fp now exp id s)) (fst (mint k fp now exp id s)).
Proof.
  intros Hc [Hf He]. unfold mint. destruct (sh_latest s) as [run|] eqn:El; [|by apply advances_same].
  destruct (approvable k run) eqn:Ea; [|by apply advances_same]. split; [|split; [done|]].
  - split; simpl; [rewrite latest_snoc; apply Hc|]. intros id' r' Hr'. rewrite ledger_snoc. cbn [ledger_event].
    apply lookup_insert_Some in Hr' as [[<- <-]|[Hn Hr']]; [rewrite lookup_insert_eq; by eexists|].
    rewrite lookup_insert_ne by done. apply map_lookup_filter_Some in Hr' as [Hr' _]. by apply Hc.
  - right. eexists. split; [reflexivity|]. split_and!; [done..|]. exists run. rewrite <- (co_latest _ Hc). auto.
Qed.

Lemma poll_advances p s : coherent s -> pc_ok (sh_trace s) p -> advances s (snd (poll p s)) (fst (poll p s)).
Proof.
  intros Hc Hp. destruct p; simpl poll; try by apply advances_same.
  - destruct r as [| |[k|]|[[k a]|]| |[u|]]; simpl; try by apply advances_same.
    + unfold take_guard. destruct (sh_running s); by apply advances_same.
    + destruct (kind_fingerprint k) eqn:Ef; [|by apply advances_same]. unfold mbind_st, on_world, silent. destruct (now _), (new_v4 _).
      apply advances_same; try done; simpl; by rewrite ?app_nil_r.
    + unfold take_guard. destruct (sh_running s); by apply advances_same.
    + unfold mbind_st, on_world, silent. destruct (now _). apply advances_same; try done; simpl; by rewrite app_nil_r.
  - destruct (with_clock _ _); by apply advances_same.
  - unfold mbind_st, on_world, silent. destruct (run_engine _ _ _ _). apply advances_same; try done; simpl; by rewrite app_nil_r.
  - split; [|split; [done|right; eexists; split; [reflexivity|done]]]. split; simpl; [by rewrite latest_snoc|]. intros id r. by rewrite lookup_empty.
  - by apply mint_advances.
  - unfold mbind_st, append_audit. destruct (append _ _) as [a db]. destruct (is_ok a); by apply advances_same.
  - split; [|split; [done|right; eexists; split; [reflexivity|done]]]. split; simpl; [rewrite latest_snoc; apply Hc|]. intros id r Hr.
    rewrite ledger_snoc. cbn [ledger_event]. apply lookup_delete_Some in Hr as [Hn Hr]. rewrite lookup_delete_ne by done. by apply Hc.
  - by apply choose_advances.
  - by apply spend_advances.
  - unfold mbind_st, on_world, silent. destruct (execute _ _ _ _) as [r w]. cbn. destruct (now w). cbn. rewrite app_nil_r.
    split; [|split; [done|right; eexists; split; [reflexivity|done]]]. split; simpl; [rewrite latest_snoc; apply Hc|].
    intros id' r'. rewrite ledger_snoc. apply Hc.
  - unfold mbind_st, append_audit. destruct (append _ _) as [a db]. destruct (is_ok a); by apply advances_same.
  - unfold update. destruct (settings_validate _); [|by apply advances_same].
    split; [|split; [done|right; eexists; split; [reflexivity|done]]]. split; simpl; [rewrite latest_snoc; apply Hc|].
    intros id' r'. rewrite ledger_snoc. apply Hc.
  - unfold mbind_st, append_audit. destruct (append _ _) as [a db]. destruct (is_ok a); by apply advances_same.
  - split; [|split; [done|right; eexists; split; [reflexivity|done]]]. split; simpl; [rewrite latest_snoc; apply Hc|].
    intros id' r'. rewrite ledger_snoc. apply Hc.
Qed.

(** ** The invariant of the system *)
Record doctor_inv (y : System) : Prop := {
  di_guard : guard_inv (sh_running (shared y)) (requests y);
  di_coherent : coherent (shared y);
  di_events : all_justified (sh_trace (shared y));
  di_pcs : forall i p, requests y !! i = Some p -> pc_ok (sh_trace (shared y)) p
}.

Lemma reachable_inv y : reachable y -> doctor_inv y.
Proof.
  intros Hr. pose proof (reachable_guard y Hr) as Hg. induction Hr as [y Hi|y y' Hr IH Hs].
  - destruct Hi as (settings & db & w & Ha & Hps). unfold assemble in Ha. destruct (with_clock _ _); [|done]. injection Ha as Ha.
    destruct y as [s ps]. simpl in *. subst s ps. split; [done|..]; simpl.
    + split; simpl; [done|]. intros id r. by rewrite lookup_empty.
    + intros pre e post Heq. by destruct pre.
    + done.
  - specialize (IH (reachable_guard y Hr)). pose proof (reachable_guard y Hr) as Hg0. destruct IH as [_ Hc He Hp].
    destruct Hs as [r s ps|i p s ps Hi|i p s ps Hi|w db s ps]; simpl in *.
    + split; try done. simpl. intros j q [Hj|[_ Hj]]%lookup_app_Some; [by eapply Hp|]. by apply list_lookup_singleton_Some in Hj as [_ <-].
    + destruct (poll_advances p s Hc (Hp _ _ Hi)) as (Hc' & Hp' & Ht). destruct (poll_guard p s) as [(es & Hes & Hun) _].
      split; [done|done|..]; simpl.
      * destruct Ht as [->|(e & -> & Hj)]; [done|by apply all_justified_snoc].
      * intros j q [[-> ->]|[Hn Hj]]%(lookup_replace _ _ _ _ _ _ Hi); [done|]. specialize (Hp _ _ Hj).
        destruct (holds_guard q) eqn:Eq; [|by eapply pc_ok_free]. destruct (holds_guard p) eqn:Epp.
        -- destruct Hn. by apply (gi_one _ _ Hg0 j i q p).
        -- rewrite Hes. by apply pc_ok_extend; [apply Hun|].
    + assert (sh_trace (if holds_guard p then set_running false s else s) = sh_trace s) as Et by (by destruct (holds_guard p)).
      split; simpl; rewrite ?Et; try done.
      * destruct (holds_guard p); [by eapply coherent_same|done].
      * intros j q [[-> ->]|[Hn Hj]]%(lookup_replace _ _ _ _ _ _ Hi); [done|by eapply Hp].
    + split; simpl; try done. by eapply coherent_same.
Qed.

(** C30. One at a time: however requests interleave and wherever they are dropped, at most one
    request is inside a diagnostic run or a repair, and the running flag is set exactly while one
    is; a flag is never left behind. *)
Theorem single_flight y : reachable y ->
  (forall i j p q, requests y !! i = Some p -> requests y !! j = Some q -> holds_guard p = true -> holds_guard q = true -> i = j) /\
  (sh_running (shared y) = true <-> exists i p, requests y !! i = Some p /\ holds_guard p = true).
Proof. intros Hr. destruct (reachable_guard y Hr) as [Hone Hflag]. auto. Qed.

(** Where the permission for an execution came from. *)
Definition permitted (pre : list Event) (kind : DiagnosisKind) (repair : ExecutableRepair) : Prop :=
  match repair with
  | Safe action => exists run why, latest_in pre = Some run /\ finding_plan kind run = Some (SafeAutomatic action why)
  | Approved ar =>
      let id := approval_token (ar_approval ar) in
      exists run why kind' fp at_ now before between after,
        pre = before ++ Minted id kind' fp at_ (at_ + minutes 10) :: between ++ Spent id kind fp now (ar_action ar) :: after /\
        latest_in before = Some run /\ approvable kind' run = true /\
        finding_plan kind run = Some (ApprovalRequiredReversible (ar_action ar) why) /\
        kind_fingerprint kind' = Some fp /\ kind_fingerprint kind = Some fp /\ now < at_ + minutes 10 /\
        Forall (untouched id) between /\ Forall (fun e => guarded e = false) after
  end.

Lemma untouched_latest id es tr : Forall (untouched id) es -> latest_in (tr ++ es) = latest_in tr.
Proof.
  intros He. induction es as [|e es IH] using rev_ind; [by rewrite app_nil_r|]. apply Forall_app in He as [He Hx]. inversion_clear Hx.
  rewrite app_assoc, latest_snoc, (IH He). by destruct e.
Qed.

(** C28. No repair without permission: in every interleaving, a repair that is executed without a
    token is a safe one that the latest run proposed for that diagnosis, and one that needs
    approval is the repair that the latest run proposed, under a token that was minted for the
    same diagnosis of that very run less than ten minutes before it was spent, that nothing had
    spent, withdrawn or replaced in between, and that no other execution shares. *)
Theorem repairs_need_permission y pre kind repair report post : reachable y ->
  sh_trace (shared y) = pre ++ Executed kind repair report :: post -> permitted pre kind repair.
Proof.
  intros [_ _ He _]%reachable_inv Heq. pose proof (He _ _ _ Heq) as Hx. destruct repair as [action|ar]; simpl in Hx.
  { destruct Hx as (why & run & Hl & Hp). exists run, why. auto. }
  destruct Hx as (pre0 & fp & now & after & -> & Hafter). rewrite <- app_assoc in Heq. simpl in Heq.
  destruct (He _ _ _ Heq) as (Hf & (why & run & Hl & Hp) & g & Hg & Gu & Gf & Hnow).
  destruct (ledger_grant _ _ _ Hg Gu) as (before & between & -> & Hbetween). rewrite <- app_assoc in Heq. simpl in Heq.
  destruct (He _ _ _ Heq) as (Hf' & Hexp & run' & Hl' & Ha). subst fp.
  assert (run' = run) as ->.
  { change (Minted (approval_token (ar_approval ar)) (g_kind g) (g_fingerprint g) (g_at g) (g_expires_at g) :: between)
      with ([Minted (approval_token (ar_approval ar)) (g_kind g) (g_fingerprint g) (g_at g) (g_expires_at g)] ++ between) in Hl.
    rewrite app_assoc, (untouched_latest _ _ _ Hbetween), latest_snoc in Hl. simpl in Hl. congruence. }
  simpl. exists run, why, (g_kind g), (g_fingerprint g), (g_at g), now, before, between, after. unfold APPROVAL_TTL_MINUTES in Hexp. rewrite Hexp in *.
  rewrite <- app_assoc. split_and!; done.
Qed.

(** ** Every request is answered *)

(** Polls that are left at most. *)
Definition polls_left (p : Pc) : nat :=
  match p with
  | Start _ => 5
  | RunTaken => 3
  | RunReady _ _ => 2
  | RunDone _ _ => 1
  | MintReady _ _ _ _ _ => 3
  | MintAudit _ _ _ _ => 2
  | MintWithdraw _ => 1
  | RepairTaken _ _ => 4
  | RepairSpend _ _ _ _ _ => 3
  | RepairExecute _ _ _ _ => 2
  | RepairAudit _ _ _ _ => 1
  | UpdateReady _ _ => 3
  | UpdateAudit _ _ _ => 2
  | UpdateRestore _ => 1
  | Answered _ | Dropped => 0
  end.
Lemma poll_progress p s : p <> Dropped ->
  (polls_left (fst (poll p s)) <= polls_left p - 1)%nat /\ fst (poll p s) <> Dropped.
Proof.
  assert (forall k a r s', (polls_left (fst (prepare (W := W) k a r s')) <= 2)%nat /\ fst (prepare (W := W) k a r s') <> Dropped) as Hprep.
  { intros k a r s'. unfold prepare. destruct (symptom_for k); simpl; (split; [lia|done]). }
  intros Hp. destruct p; simpl; try done; try (split; [lia|done]).
  - destruct r as [| |[k|]|[[k a]|]| |[u|]]; simpl; try (split; [lia|done]).
    + unfold take_guard. destruct (sh_running s); simpl; (split; [lia|done]).
    + destruct (kind_fingerprint k); [|simpl; split; [lia|done]]. unfold mbind_st, on_world. destruct (now _), (new_v4 _). simpl. split; [lia|done].
    + unfold take_guard. destruct (sh_running s); simpl; (split; [lia|done]).
    + unfold mbind_st, on_world. destruct (now _). simpl. split; [lia|done].
  - destruct (with_clock _ _); simpl; (split; [lia|done]).
  - unfold mbind_st, on_world. destruct (run_engine _ _ _ _). simpl. split; [lia|done].
  - unfold mint. destruct (sh_latest s); [destruct (approvable _ _)|]; simpl; (split; [lia|done]).
  - unfold mbind_st. destruct (append_audit _ _) as [[] ?]; simpl; (split; [lia|done]).
  - unfold choose. destruct (sh_latest s) as [run|]; [|simpl; split; [lia|done]]. destruct (finding_plan _ run) as [[]|]; try (simpl; split; [lia|done]).
    + destruct (Hprep kind approval (Safe action) s). split; [lia|done].
    + destruct approval; [|simpl; split; [lia|done]]. destruct (kind_fingerprint _); [|simpl; split; [lia|done]]. unfold mbind_st, on_world. destruct (now _). simpl. split; [lia|done].
  - unfold spend. destruct (_ !! _) as [r|]; [|simpl; split; [lia|done]]. destruct (_ || _); [simpl; split; [lia|done]|].
    destruct (approval_try_new _); [|simpl; split; [lia|done]]. apply Hprep.
  - unfold mbind_st, on_world. destruct (execute _ _ _ _) as [r w]. cbn. destruct (now w). simpl. split; [lia|done].
  - unfold mbind_st. destruct (append_audit _ _) as [[] ?]; simpl; (split; [lia|done]).
  - unfold update. destruct (settings_validate _); simpl; (split; [lia|done]).
  - unfold mbind_st. destruct (append_audit _ _) as [[] ?]; simpl; (split; [lia|done]).
Qed.

(** Polling one request, with whatever the others do to the shared state in between. *)
Fixpoint serve (n : nat) (others : nat -> Shared -> Shared) (p : Pc) (s : Shared) : Pc * Shared :=
  match n with
  | O => (p, s)
  | S n' => let '(p', s') := poll p s in serve n' others p' (others n' s')
  end.

(** Every request is answered: five polls are enough for any request, from any state and
    whatever other requests and the rest of the process do to the state in between; none waits
    for another. *)
Theorem every_request_is_answered r others s : exists a, fst (serve 5 others (Start r) s) = Answered a.
Proof.
  assert (forall n p s, p <> Dropped -> (polls_left p <= n)%nat -> exists a, fst (serve n others p s) = Answered a) as Hs.
  { intros n. induction n as [|n IH]; intros p s' Hp Hn; simpl.
    - destruct p; simpl in Hn; try lia; [by eexists|done].
    - destruct (poll_progress p s' Hp) as [Hl Hd]. destruct (poll p s') as [p' s'']. simpl in *. apply IH; [done|lia]. }
  apply Hs; [done|simpl; lia].
Qed.

(** ** The answers that never come *)
Definition configures (v : DoctorSettings) : Prop := validate (to_config v profile) = Ok tt.
Definition derived_run (run : DoctorRun) : Prop :=
  Forall (fun f => exists c, df_plan f = plan_repair (d_kind (df_diagnosis f)) c) (dr_findings run).
Definition sound (s : Shared) : Prop := configures (sh_settings s) /\ (forall run, sh_latest s = Some run -> derived_run run).
Definition has_symptom (k : DiagnosisKind) : Prop := symptom_for k <> None.
Definition pc_sound (p : Pc) : Prop :=
  match p with
  | RunDone _ run => derived_run run
  | RepairSpend k _ _ _ _ => has_symptom k
  | UpdateAudit _ previous _ | UpdateRestore previous => configures previous
  | _ => True
  end.

Lemma with_clock_configures v : configures v <-> exists engine, with_clock (to_config v profile) budget = Ok engine.
Proof.
  unfold configures, with_clock. destruct (validate _) as [[]|]; simpl; [|split; [done|by intros (? & ?)]]. split; [eauto|done].
Qed.

(** A kind with no symptom is only ever observed. *)
Lemma symptom_exists k : (forall c e, k <> DiagnosticProbeFailure c e) -> has_symptom k.
Proof.
  intros Hk. unfold has_symptom, symptom_for. destruct k as [[] [] []| |[]| | | | | | | | | |c e]; try (vm_compute; discriminate). by destruct (Hk c e).
Qed.
Lemma executable_symptom k run plan : derived_run run -> finding_plan k run = Some plan ->
  (forall why, plan <> ObservationOnly why) -> has_symptom k.
Proof.
  unfold finding_plan. intros Hd Hf Hp. apply fmap_Some in Hf as (f & Hf & ->). apply iter_find_some in Hf as [Hin Hk].
  unfold derived_run in Hd. rewrite Forall_forall in Hd. destruct (Hd f) as [c Hc]; [by apply list_elem_of_In|].
  apply symptom_exists. intros c' e ->. destruct (d_kind (df_diagnosis f)); try done. by destruct (Hp _ Hc).
Qed.
Lemma run_engine_derived v engine w : derived_run (fst (run_engine (W := W) context v engine w)).
Proof.
  unfold run_engine, mbind_st. destruct (run engine w) as [rp w1]. destruct (new_v4 w1). simpl. unfold derived_run. simpl.
  apply Forall_forall. intros f (d & -> & _)%list_elem_of_fmap. simpl. by eexists.
Qed.

(** Neither a run that cannot start nor a repair without a symptom. *)
Definition broken (p p' : Pc) : Prop :=
  match p' with
  | Answered (Status code) => (p = RunTaken /\ code = 503) \/ ((forall r, p <> Answered r) /\ code = 500)
  | _ => False
  end.
Ltac no_break := solve [split; [done|split; [done|simpl; first [tauto | intros [[? ?]|[? ?]]; discriminate]]]].
Lemma poll_sound p s : sound s -> pc_sound p ->
  sound (snd (poll p s)) /\ pc_sound (fst (poll p s)) /\ ~ broken p (fst (poll p s)).
Proof.
  intros Hs Hp. assert (forall b, sound (set_running b s)) as Hset by done.
  assert (forall k a r s', has_symptom k -> sound s' -> sound (snd (prepare (W := W) k a r s')) /\ pc_sound (fst (prepare (W := W) k a r s')) /\ ~ broken p (fst (prepare (W := W) k a r s'))) as Hprep.
  { intros k a r s' Hk Hs'. unfold prepare, has_symptom in *. destruct (symptom_for k); [simpl; tauto|done]. }
  destruct p; simpl; try no_break.
  - destruct r as [| |[k|]|[[k a]|]| |[u|]]; simpl; try no_break.
    + unfold take_guard. destruct (sh_running s); no_break.
    + destruct (sh_latest s); no_break.
    + destruct (kind_fingerprint k); [|no_break]. unfold mbind_st, on_world. destruct (now _), (new_v4 _). no_break.
    + unfold take_guard. destruct (sh_running s); no_break.
    + unfold mbind_st, on_world. destruct (now _). no_break.
  - pose proof (proj1 Hs) as Hc. apply with_clock_configures in Hc as [engine ->]. no_break.
  - unfold mbind_st, on_world. pose proof (run_engine_derived settings engine (sh_world s)) as Hd. destruct (run_engine _ _ _ _). no_break.
  - split; [|simpl; tauto]. split; [apply Hs|]. by intros ? [= <-].
  - unfold mint. destruct (sh_latest s) eqn:El; [destruct (approvable _ _)|]; no_break.
  - unfold mbind_st, append_audit. destruct (append _ _) as [a db]. destruct (is_ok a); no_break.
  - unfold choose. destruct (sh_latest s) as [run|] eqn:El; [|no_break]. destruct (finding_plan _ run) as [plan|] eqn:Ep; [|no_break].
    assert ((forall why, plan <> ObservationOnly why) -> has_symptom kind) as Hk.
    { intros Hn. eapply executable_symptom; [by apply Hs|done..]. }
    destruct plan; try no_break; [by apply Hprep; [apply Hk|]|]. destruct approval; [|no_break]. destruct (kind_fingerprint _); [|no_break].
    unfold mbind_st, on_world. destruct (now _). simpl. split; [done|]. split; [by apply Hk|tauto].
  - unfold spend. destruct (_ !! _) as [r|]; [|no_break]. destruct (_ || _); [no_break|].
    destruct (approval_try_new _); [by apply Hprep|no_break].
  - unfold mbind_st, on_world. destruct (execute _ _ _ _) as [r w]. cbn. destruct (now w). no_break.
  - unfold mbind_st, append_audit. destruct (append _ _) as [a db]. destruct (is_ok a); no_break.
  - unfold update. destruct (settings_validate _) as [[]|] eqn:Ev; [|no_break]. split; [|split; [apply Hs|simpl; tauto]].
    split; [|apply Hs]. destruct Hs as [Hc _]. simpl. eapply valid_settings_configure; [by apply settings_validate_ok|exact Hc].
  - unfold mbind_st, append_audit. destruct (append _ _) as [a db]. destruct (is_ok a); no_break.
  - split; [split; [done|apply Hs]|]. split; [done|]. simpl. intros [[? ?]|[? ?]]; discriminate.
  - split; [done|]. split; [done|]. destruct r; simpl; try tauto. intros [[? ?]|[Hn _]]; [done|by eapply Hn].
Qed.

Lemma reachable_sound y : reachable y -> sound (shared y) /\ forall i p, requests y !! i = Some p -> pc_sound p.
Proof.
  induction 1 as [y (settings & db & w & Ha & Hps)|y y' _ [Hs Hp] Hstep].
  - destruct y as [s ps]. simpl in *. subst ps. unfold assemble in Ha. split; [|done].
    destruct (with_clock _ _) eqn:Ew; [|done]. injection Ha as <-. split; [apply with_clock_configures; simpl; eauto|done].
  - destruct Hstep as [r s ps|i p s ps Hi|i p s ps Hi|w db s ps]; simpl in *.
    + split; [done|]. intros j q [Hj|[_ Hj]]%lookup_app_Some; [by eapply Hp|]. by apply list_lookup_singleton_Some in Hj as [_ <-].
    + destruct (poll_sound p s Hs (Hp _ _ Hi)) as (Hs' & Hp' & _). split; [done|].
      intros j q [[-> ->]|[_ Hj]]%(lookup_replace _ _ _ _ _ _ Hi); [done|by eapply Hp].
    + split; [by destruct (holds_guard p)|]. intros j q [[-> ->]|[_ Hj]]%(lookup_replace _ _ _ _ _ _ Hi); [done|by eapply Hp].
    + done.
Qed.

(** The tables agree: in every state that the service reaches, the owner's settings still
    give a configuration that the engine accepts, so a run never fails to start, and every
    repair that may be executed has a symptom to verify it against, so the internal error of a
    plan without a symptom is never answered. *)
Theorem service_never_breaks y i p : reachable y -> requests y !! i = Some p ->
  validate (to_config (sh_settings (shared y)) profile) = Ok tt /\
  (p = RunTaken -> fst (poll p (shared y)) <> Answered (Status 503)) /\
  ((forall r, p <> Answered r) -> fst (poll p (shared y)) <> Answered (Status 500)).
Proof.
  intros Hr Hi. destruct (reachable_sound y Hr) as [Hs Hp]. destruct (poll_sound p (shared y) Hs (Hp _ _ Hi)) as (_ & _ & Hb).
  split; [apply Hs|]. split; intros Hx Hy; rewrite Hy in Hb; apply Hb; simpl; auto.
Qed.

(** ** The audit log *)

(** The log has a row for the entry. *)
Definition recorded (db : AuditDb) (e : NewAuditEntry) : Prop :=
  exists row, row ∈ audit_log db /\ r_actor row = "owner"%string /\ r_category row = "doctor_action"%string /\
    r_action row = ne_action e /\ r_subject row = ne_subject e /\ json_to_string (ne_detail e) = Some (r_detail row).

Lemma insert_sorted_in r t : r ∈ insert_sorted r t.
Proof. induction t as [|x t IH]; simpl; [by left|]. destruct (r_id r <? r_id x); [by left|by right]. Qed.
Lemma append_recorded db at_ action subject detail a db' :
  append db (doctor_entry at_ action subject detail) = (Ok a, db') -> recorded db' (doctor_entry at_ action subject detail).
Proof.
  set (e := doctor_entry at_ action subject detail). unfold append.
  destruct (prepare_entry e) as [[occurred text]|] eqn:Ep; simpl; [|done].
  destruct (append_locked db e occurred text) as [[a' db'']|] eqn:E; [|done]. intros [= <- <-].
  assert (json_to_string detail = Some text) as Hd.
  { unfold prepare_entry in Ep. destruct (encode_time _); simpl in Ep; [|done]. destruct (_ || _); [done|].
    match type of Ep with (if ?b then _ else _) = _ => destruct b; [done|] end. simpl in Ep. destruct (json_to_string detail); simpl in Ep; [|done].
    destruct (_ <? _); [done|]. by injection Ep as _ <-. }
  unfold append_locked in E. destruct (checked_add_i64 _ _) as [id|]; simpl in E; [|done].
  unfold insert_row in E. destruct (_ && _); simpl in E; [|done]. destruct (json_from_str text); simpl in E; [|done].
  destruct (decode_time occurred); simpl in E; [|done]. injection E as _ <-.
  eexists. split; [apply insert_sorted_in|]. by split_and!.
Qed.
Lemma append_audit_cases at_ action subject detail (s : Shared) :
  append_audit (doctor_entry at_ action subject detail) s = (true, snd (append_audit (doctor_entry at_ action subject detail) s)) /\
    recorded (sh_audit (snd (append_audit (doctor_entry at_ action subject detail) s))) (doctor_entry at_ action subject detail) \/
  fst (append_audit (doctor_entry at_ action subject detail) s) = false.
Proof.
  unfold append_audit. destruct (append _ _) as [[a|x] db] eqn:E; simpl; [left|by right]. split; [done|by eapply append_recorded].
Qed.

(** C31. Nothing is acknowledged unrecorded: when a request is answered with a token, with the
    report of an executed repair or with new settings, the audit log holds the owner's entry for
    exactly that; a request whose entry the log refuses is answered with an error. *)
Theorem answers_are_audited p s : (forall r, p <> Answered r) -> p <> Start GetSettings ->
  match fst (poll p s) with
  | Answered (ApprovalResponse id exp) => exists k now,
      recorded (sh_audit (snd (poll p s))) (doctor_entry now "approval_minted" (kind_tag k) (approval_detail id k exp))
  | Answered (RepairResponse report) => exists k now approval,
      recorded (sh_audit (snd (poll p s))) (doctor_entry now "repair_executed" (kind_tag k) (repair_detail k report approval))
  | Answered (SettingsResponse v) => exists previous now,
      recorded (sh_audit (snd (poll p s))) (doctor_entry now "settings_updated" "doctor_settings" (settings_detail previous v))
  | _ => True
  end.
Proof.
  intros Hp Hg. destruct p; simpl; try done; try (by destruct (Hp r)).
  - destruct r as [| |[k|]|[[k a]|]| |[u|]]; simpl; try done.
    + unfold take_guard. by destruct (sh_running s).
    + by destruct (sh_latest s).
    + destruct (kind_fingerprint k); [|done]. unfold mbind_st, on_world. by destruct (now _), (new_v4 _).
    + unfold take_guard. by destruct (sh_running s).
    + unfold mbind_st, on_world. by destruct (now _).
  - by destruct (with_clock _ _).
  - unfold mbind_st, on_world. by destruct (run_engine _ _ _ _).
  - unfold mint. destruct (sh_latest s); [|done]. by destruct (approvable _ _).
  - unfold mbind_st. destruct (append_audit_cases now "approval_minted" (kind_tag kind) (approval_detail approval_id kind expires_at) s) as [[-> Hr]|Hf];
      [simpl; eauto|]. destruct (append_audit _ _) as [b s']. simpl in Hf. by subst b.
  - unfold choose. destruct (sh_latest s) as [run|]; [|done]. destruct (finding_plan _ run) as [[]|]; try done.
    + unfold prepare. by destruct (symptom_for _).
    + destruct approval; [|done]. destruct (kind_fingerprint _); [|done]. unfold mbind_st, on_world. by destruct (now _).
  - unfold spend. destruct (_ !! _) as [r|]; [|done]. destruct (_ || _); [done|]. destruct (approval_try_new _); [|done].
    unfold prepare. by destruct (symptom_for _).
  - unfold mbind_st, on_world. destruct (execute _ _ _ _) as [r w]. cbn. by destruct (now w).
  - unfold mbind_st. destruct (append_audit_cases now "repair_executed" (kind_tag kind) (repair_detail kind report approval) s) as [[-> Hr]|Hf];
      [simpl; eauto|]. destruct (append_audit _ _) as [b s']. simpl in Hf. by subst b.
  - unfold update. by destruct (settings_validate _).
  - unfold mbind_st. destruct (append_audit_cases now "settings_updated" "doctor_settings" (settings_detail previous next) s) as [[-> Hr]|Hf];
      [simpl; eauto|]. destruct (append_audit _ _) as [b s']. simpl in Hf. by subst b.
Qed.

(** A live token is honoured: when no run or repair is under way, the latest run proposed the
    repair for the diagnosis, and the token was minted for it, is unspent and has not expired at
    the clock's next reading, the request goes on to execute exactly that repair; the token is
    spent by then, and a second request with it is refused. *)
Theorem live_token_is_honoured s kind run a why fp id exp token symptom others :
  sh_running s = false -> sh_latest s = Some run -> finding_plan kind run = Some (ApprovalRequiredReversible a why) ->
  kind_fingerprint kind = Some fp -> sh_approvals s !! id = Some {| ap_fingerprint := fp; ap_expires_at := exp; ap_used := false |} ->
  approval_try_new id = Ok token -> symptom_for kind = Some symptom ->
  fst (now (sh_world (others 2%nat (set_running true s)))) < exp ->
  (forall n t, sh_latest (others n t) = sh_latest t /\ sh_approvals (others n t) = sh_approvals t) ->
  let y := serve 3 others (Start (PostRepair (Some (kind, Some id)))) s in
  fst y = RepairExecute kind (Some id) (Approved {| ar_action := a; ar_approval := token |}) symptom /\
  sh_approvals (snd y) !! id = Some {| ap_fingerprint := fp; ap_expires_at := exp; ap_used := true |} /\
  forall now', fst (poll (RepairSpend kind id fp now' a) (snd y)) = Answered (Status 403).
Proof.
  intros Hrun Hl Hp Hf Ha Ht Hs Hnow Ho. cbn [serve]. change (poll (Start (PostRepair (Some (kind, Some id)))) s) with (take_guard (RepairTaken kind (Some id)) s).
  unfold take_guard. rewrite Hrun. pose proof (Ho 2%nat (set_running true s)) as [L2 A2]. simpl in L2, A2.
  remember (others 2%nat (set_running true s)) as s2 eqn:E2. clear E2.
  assert (exists w, poll (RepairTaken kind (Some id)) s2 = (RepairSpend kind id fp (fst (now (sh_world s2))) a, elsewhere w (sh_audit s2) s2)) as [w ->].
  { simpl. unfold choose. rewrite L2, Hl, Hp, Hf. unfold mbind_st, on_world, silent, elsewhere. destruct (now (sh_world s2)) as [t w]. exists w. simpl. by rewrite app_nil_r. }
  pose proof (Ho 1%nat (elsewhere w (sh_audit s2) s2)) as [L1 A1]. simpl in L1, A1.
  remember (others 1%nat (elsewhere w (sh_audit s2) s2)) as s1 eqn:E1. clear E1.
  simpl. unfold spend. rewrite A1, A2, Ha. simpl. destruct (Z.leb_spec exp (fst (now (sh_world s2)))); [lia|]. rewrite bool_decide_eq_true_2 by done. simpl. rewrite Ht.
  unfold prepare. rewrite Hs. simpl.
  match goal with |- context [others 0%nat ?st] => pose proof (Ho 0%nat st) as [_ A0] end. simpl in A0. rewrite A0, lookup_insert_eq. done.
Qed.

(** A refused update undoes a later one: when the log refuses the entry of an update, the
    settings from before it are put back whatever happened since; so an update that another
    request made in between, that the log recorded and that was answered with success, is gone,
    a withdrawn confirmation of external probes included. *)
Theorem refused_update_undoes_later_one s u1 u2 t1 t2 x db db' entry :
  let v1 := apply (sh_settings s) u1 in
  let v2 := apply v1 u2 in
  settings_validate v1 = Ok tt -> settings_validate v2 = Ok tt ->
  append (sh_audit s) (doctor_entry t2 "settings_updated" "doctor_settings" (settings_detail v1 v2)) = (Ok entry, db) ->
  append db (doctor_entry t1 "settings_updated" "doctor_settings" (settings_detail (sh_settings s) v1)) = (Err x, db') ->
  let '(first, s1) := poll (UpdateReady t1 u1) s in
  let '(second, s2) := poll (UpdateReady t2 u2) s1 in
  let '(answer2, s3) := poll second s2 in
  let '(restore, s4) := poll first s3 in
  let '(answer1, s5) := poll restore s4 in
  answer2 = Answered (SettingsResponse v2) /\ sh_settings s3 = v2 /\ recorded (sh_audit s3) (doctor_entry t2 "settings_updated" "doctor_settings" (settings_detail v1 v2)) /\
  answer1 = Answered (Status 503) /\ sh_settings s5 = sh_settings s.
Proof.
  intros v1 v2 H1' H2' Ha2 Ha1. simpl. unfold update. fold v1. rewrite H1'. simpl. fold v2. rewrite H2'. simpl.
  unfold mbind_st, append_audit. simpl. rewrite Ha2. simpl. rewrite Ha1. simpl. split_and!; try done. by eapply append_recorded.
Qed.

(** Dropped requests escape the log: a request that is dropped after its change and before
    its entry leaves the change in force and the log as it was: new settings that are valid, and
    a repair that has been executed. *)
Theorem dropped_requests_escape_the_log s t u kind approval repair symptom :
  settings_validate (apply (sh_settings s) u) = Ok tt ->
  (exists y, rtc step {| shared := s; requests := [UpdateReady t u] |} y /\ requests y = [Dropped] /\
     sh_settings (shared y) = apply (sh_settings s) u /\ sh_audit (shared y) = sh_audit s) /\
  (exists y report, rtc step {| shared := s; requests := [RepairExecute kind approval repair symptom] |} y /\ requests y = [Dropped] /\
     sh_trace (shared y) = sh_trace s ++ [Executed kind repair report] /\ sh_audit (shared y) = sh_audit s).
Proof.
  intros Hv.
  assert (forall p, rtc step {| shared := s; requests := [p] |}
            {| shared := (if holds_guard (fst (poll p s)) then set_running false (snd (poll p s)) else snd (poll p s)); requests := [Dropped] |}) as Hrtc.
  { intros p. eapply rtc_l; [exact (step_poll _ _ _ _ 0 p s [p] eq_refl)|]. apply rtc_once. simpl.
    exact (step_drop _ _ _ _ 0 (fst (poll p s)) (snd (poll p s)) [fst (poll p s)] eq_refl). }
  split.
  - eexists. split; [apply Hrtc|]. simpl. unfold update. rewrite Hv. done.
  - eexists. exists (fst (execute f64_display repair symptom (sh_world s))). split; [apply Hrtc|]. simpl. unfold mbind_st, on_world, silent.
    destruct (execute _ _ _ _) as [r w]. simpl. destruct (now w). simpl. rewrite app_nil_r. done.
Qed.
End Theorems.

(** ** Concrete runs: an adapter whose link is down *)
Module ServiceRuns.
#[local] Existing Instance toy_sha256.
#[local] Existing Instance toy_libs.

Record ToyWorld := { tw_tokens : nat; tw_time : DateTime }.
#[local] Instance toy_probes : ProbeTransport ToyWorld := fun p w =>
  (match pr_request p with
   | ReqCollectorStatus => Ok (RespCollectorStatus true true true)
   | ReqLinkStatus _ => Ok (RespLinkStatus false None)
   | _ => Err ProbeUnsupported
   end, w).
#[local] Instance toy_clock : Clock ToyWorld := fun w => (tw_time w, w).
#[local] Instance toy_repairs : RepairTransport ToyWorld := {|
  snapshot _ w := (Ok [], w); apply_repair _ w := (Ok tt, w); restore _ w := (Ok tt, w);
  measure _ w := (Ok [{| m_metric := LinkUp; m_value := f64_one; m_unit := Boolean; m_observed_at := tw_time w |}], w) |}.
#[local] Instance toy_uuids : UuidSource ToyWorld := fun w =>
  (string_of_list_ascii (repeat "u"%char (tw_tokens w)), {| tw_tokens := S (tw_tokens w); tw_time := tw_time w |}).
#[local] Instance toy_json : DoctorJson := {|
  kind_fingerprint k := Some (kind_tag k);
  approval_detail id _ _ := id : Value;
  repair_detail _ _ _ := "{}"%string : Value;
  settings_detail _ _ := "{}"%string : Value |}.

Definition toy_budget : DiagnosticBudget := {| max_probes := 64; per_probe_timeout_ms := 2000 |}.
Definition toy_display (x : f64) : string := "1".
Abbreviation toy_poll := (poll toy_display toy_budget default_profile default_context).
Abbreviation toy_reachable := (reachable toy_display toy_budget default_profile default_context).

(** A schedule: requests that arrive, and the numbers of those that are polled or dropped. *)
Inductive Move := Arrive (r : Request) | Poll (i : nat) | Drop (i : nat).
Definition move (m : Move) (y : System (W := ToyWorld)) : System :=
  match m with
  | Arrive r => {| shared := shared y; requests := requests y ++ [Start r] |}
  | Poll i =>
    match requests y !! i with
    | Some p => {| shared := snd (toy_poll p (shared y)); requests := <[i := fst (toy_poll p (shared y))]> (requests y) |}
    | None => y
    end
  | Drop i =>
    match requests y !! i with
    | Some p => {| shared := if holds_guard p then set_running false (shared y) else shared y; requests := <[i := Dropped]> (requests y) |}
    | None => y
    end
  end.
Definition schedule (ms : list Move) (y : System) : System := fold_left (fun y m => move m y) ms y.

Definition toy_world : ToyWorld := {| tw_tokens := 1; tw_time := 10 |}.
Definition toy_shared : Shared (W := ToyWorld) := {|
  sh_settings := from_platform None None; sh_running := false; sh_latest := None; sh_approvals := ∅;
  sh_audit := empty_audit_db; sh_world := toy_world; sh_trace := [] |}.
Definition idle : System := {| shared := toy_shared; requests := [] |}.

Lemma schedule_reachable ms : toy_reachable (schedule ms idle).
Proof.
  unfold schedule. induction ms as [|m ms IH] using rev_ind; simpl.
  - apply reach_start. exists (from_platform None None), empty_audit_db, toy_world. split; [vm_compute; reflexivity|done].
  - rewrite fold_left_app. simpl. set (y := fold_left _ ms idle) in *. destruct y as [s ps]. destruct m as [r|i|i]; simpl.
    + eapply reach_step; [exact IH|apply step_arrive].
    + destruct (ps !! i) as [p|] eqn:E; [|done]. eapply reach_step; [exact IH|by apply step_poll].
    + destruct (ps !! i) as [p|] eqn:E; [|done]. eapply reach_step; [exact IH|by apply step_drop].
Qed.

(** A run, a token for its finding, and the repair under it, beside a second run that is turned
    away and an update of the settings. *)
Definition link_down : DiagnosisKind := AdapterLinkDown.
Definition token_of (y : System (W := ToyWorld)) (i : nat) : string :=
  match requests y !! i with Some (Answered (ApprovalResponse id _)) => id | _ => EmptyString end.
Definition diagnosed : System := schedule [Arrive PostRun; Poll 0; Arrive PostRun; Poll 1; Poll 0; Poll 0; Poll 0] idle.
Definition approved : System := schedule [Arrive (PostApproval (Some link_down)); Poll 2; Poll 2; Poll 2] diagnosed.
Definition repaired : System :=
  schedule [Arrive (PostRepair (Some (link_down, Some (token_of approved 2)))); Poll 3; Poll 3; Poll 3; Poll 3; Poll 3] approved.

Lemma schedule_app l l' y : schedule (l ++ l') y = schedule l' (schedule l y).
Proof. unfold schedule. apply fold_left_app. Qed.
Lemma approved_reachable : toy_reachable approved.
Proof. unfold approved, diagnosed. rewrite <- schedule_app. apply schedule_reachable. Qed.
Lemma repaired_reachable : toy_reachable repaired.
Proof. unfold repaired, approved, diagnosed. rewrite <- !schedule_app. apply schedule_reachable. Qed.

Definition summary (p : Pc) : string * Z :=
  match p with
  | Answered (Status code) => ("status", code)
  | Answered (RunResponse r) => ("findings", Z.of_nat (length (dr_findings r)))
  | Answered (ApprovalResponse id _) => (id, 200)
  | Answered (RepairResponse r) => (rr_description r, 200)
  | _ => ("", 0)
  end.
Example repaired_answers : map summary (requests repaired) =
  [("findings", 1); ("status", 409); ("uu", 200); ("reset_adapter primary", 200)]%string.
Proof. vm_compute. reflexivity. Qed.
Example repaired_log : map r_action (audit_log (sh_audit (shared repaired))) = ["approval_minted"; "repair_executed"]%string.
Proof. vm_compute. reflexivity. Qed.

(** The last event of that run is the execution. *)
Definition is_executed (e : Event) : bool := match e with Executed _ (Approved _) _ => true | _ => false end.
Lemma repaired_trace : exists pre ar report,
  sh_trace (shared repaired) = pre ++ [Executed link_down (Approved ar) report].
Proof.
  assert (match last (sh_trace (shared repaired)) with Some (Executed AdapterLinkDown (Approved _) _) => true | _ => false end = true) as Hl by (vm_compute; reflexivity).
  revert Hl. generalize (sh_trace (shared repaired)). intros tr Hl.
  destruct (last tr) as [e|] eqn:E; [|done]. apply last_Some in E as [pre E]. rewrite E.
  destruct e as [| | | |k r rep|]; try done. destruct k; try done. destruct r as [|ar]; [done|]. eauto.
Qed.

Lemma repairs_need_permission_witness : exists pre kind repair report post,
  sh_trace (shared repaired) = pre ++ Executed kind repair report :: post /\ permitted pre kind repair.
Proof.
  destruct repaired_trace as (pre & ar & report & E). exists pre, link_down, (Approved ar), report, [].
  split; [exact E|]. exact (repairs_need_permission _ _ _ _ repaired pre link_down (Approved ar) report [] repaired_reachable E).
Defined.

Definition underway : System := schedule [Arrive PostRun; Poll 0; Arrive PostRun; Poll 1; Arrive (PutSettings (Some no_update)); Poll 2] idle.
Lemma underway_reachable : toy_reachable underway.
Proof. apply schedule_reachable. Qed.
Lemma single_flight_witness :
  (exists i p, requests underway !! i = Some p /\ holds_guard p = true) /\
  (forall i j p q, requests underway !! i = Some p -> requests underway !! j = Some q -> holds_guard p = true -> holds_guard q = true -> i = j).
Proof.
  pose proof (single_flight _ _ _ _ underway underway_reachable) as [Hone Hflag]. split; [|exact Hone]. apply Hflag. vm_compute. reflexivity.
Defined.

Lemma service_never_breaks_witness : requests underway !! 0%nat = Some RunTaken /\
  fst (toy_poll RunTaken (shared underway)) <> Answered (Status 503).
Proof.
  assert (requests underway !! 0%nat = Some RunTaken) as E by (vm_compute; reflexivity). split; [exact E|].
  exact (proj1 (proj2 (service_never_breaks _ _ _ _ underway 0 RunTaken underway_reachable E)) eq_refl).
Defined.

Definition minted : Pc := MintAudit link_down 10 (10 + minutes 10) "uu".
Lemma answers_are_audited_witness : exists k t,
  recorded (sh_audit (snd (toy_poll minted (shared diagnosed)))) (doctor_entry t "approval_minted" (kind_tag k) (approval_detail "uu" k (10 + minutes 10))).
Proof.
  pose proof (answers_are_audited toy_display toy_budget default_profile default_context minted (shared diagnosed) ltac:(discriminate) ltac:(discriminate)) as Ha.
  assert (fst (toy_poll minted (shared diagnosed)) = Answered (ApprovalResponse "uu" (10 + minutes 10))) as E by (vm_compute; reflexivity).
  rewrite E in Ha. exact Ha.
Defined.

Lemma every_request_is_answered_demo : map (fun r => match fst (serve toy_display toy_budget default_profile default_context 5 (fun _ s => s) (Start r) (shared approved)) with
    | Answered _ => true | _ => false end)
  [PostRun; GetReport; PostApproval (Some link_down); PostRepair (Some (link_down, Some (token_of approved 2))); GetSettings; PutSettings (Some no_update)] = repeat true 6.
Proof. vm_compute. reflexivity. Qed.

Lemma live_token_is_honoured_witness : exists token, approval_try_new "uu" = Ok token /\
  match sh_latest (shared approved), symptom_for link_down with
  | Some run, Some symptom =>
    let y := serve toy_display toy_budget default_profile default_context 3 (fun _ s => s) (Start (PostRepair (Some (link_down, Some "uu"%string)))) (shared approved) in
    fst y = RepairExecute link_down (Some "uu"%string) (Approved {| ar_action := ResetAdapter "primary"; ar_approval := token |}) symptom /\
    fst (toy_poll (RepairSpend link_down "uu" (kind_tag link_down) 10 (ResetAdapter "primary")) (snd y)) = Answered (Status 403)
  | _, _ => False
  end.
Proof.
  exists {| approval_token := "uu" |}. split; [reflexivity|]. destruct (sh_latest (shared approved)) as [run|] eqn:El; [|vm_compute in El; discriminate El].
  destruct (symptom_for link_down) as [symptom|] eqn:Es; [|vm_compute in Es; discriminate Es].
  assert (exists why, finding_plan link_down run = Some (ApprovalRequiredReversible (ResetAdapter "primary") why)) as [why Hp].
  { vm_compute in El. injection El as <-. eexists. vm_compute. reflexivity. }
  assert (sh_running (shared approved) = false) as Hrun by (vm_compute; reflexivity).
  assert (sh_approvals (shared approved) !! "uu"%string = Some {| ap_fingerprint := kind_tag link_down; ap_expires_at := 10 + minutes 10; ap_used := false |}) as Ha by (vm_compute; reflexivity).
  assert (fst (now (sh_world (set_running true (shared approved)))) < 10 + minutes 10) as Ht by (vm_compute; reflexivity).
  assert (kind_fingerprint link_down = Some (kind_tag link_down)) as Hf by reflexivity.
  assert (approval_try_new "uu" = Ok {| approval_token := "uu" |}) as Htok by reflexivity.
  revert El Hrun Ha Ht. generalize (shared approved). intros s El Hrun Ha Ht.
  assert (forall (n : nat) (t : Shared (W := ToyWorld)), sh_latest t = sh_latest t /\ sh_approvals t = sh_approvals t) as Ho by done.
  destruct (live_token_is_honoured toy_display toy_budget default_profile default_context s link_down run (ResetAdapter "primary") why
    (kind_tag link_down) "uu" (10 + minutes 10) {| approval_token := "uu" |} symptom (fun _ s => s) Hrun El Hp Hf Ha Htok Es Ht Ho) as (Hy & _ & Hagain).
  split; [exact Hy|apply Hagain].
Defined.

(** The owner confirms external probes and withdraws that; the first update cannot be recorded. *)
Definition confirm (b : bool) : DoctorSettingsUpdate := {|
  du_interface := None; du_gateway := None; du_configured_resolvers := None; du_independent_resolver := None;
  du_internet_probe_address := None; du_internet_probe_port := None; du_dns_probe_name := None; du_external_probes_confirmed := Some b |}.
#[local] Opaque append.
Definition confirmed_shared : Shared (W := ToyWorld) := set_settings (apply (from_platform None None) (confirm true)) toy_shared.

Lemma refused_update_undoes_later_one_witness :
  let '(first, s1) := toy_poll (UpdateReady 50 no_update) confirmed_shared in
  let '(second, s2) := toy_poll (UpdateReady 10 (confirm false)) s1 in
  let '(answer2, s3) := toy_poll second s2 in
  let '(restore, s4) := toy_poll first s3 in
  let '(answer1, s5) := toy_poll restore s4 in
  ds_external_probes_confirmed (sh_settings s3) = false /\ ds_external_probes_confirmed (sh_settings s5) = true.
Proof.
  set (e2 := doctor_entry 10 "settings_updated" "doctor_settings" (settings_detail (apply (sh_settings confirmed_shared) no_update) (apply (apply (sh_settings confirmed_shared) no_update) (confirm false)))).
  set (e1 := doctor_entry 50 "settings_updated" "doctor_settings" (settings_detail (sh_settings confirmed_shared) (apply (sh_settings confirmed_shared) no_update))).
  assert (is_ok (fst (append (sh_audit confirmed_shared) e2)) = true) as H2 by (vm_compute; reflexivity).
  assert (is_ok (fst (append (snd (append (sh_audit confirmed_shared) e2)) e1)) = false) as H1 by (vm_compute; reflexivity).
  destruct (append (sh_audit confirmed_shared) e2) as [[entry|?] db] eqn:Ha; [|discriminate H2]. simpl in H1.
  destruct (append db e1) as [[?|x] db'] eqn:Hb; [discriminate H1|].
  pose proof (refused_update_undoes_later_one toy_display toy_budget default_profile default_context confirmed_shared no_update (confirm false) 50 10 x db db' entry
    ltac:(vm_compute; reflexivity) ltac:(vm_compute; reflexivity) Ha Hb) as Hl.
  destruct (toy_poll (UpdateReady 50 no_update) confirmed_shared) as [first s1]. destruct (toy_poll (UpdateReady 10 (confirm false)) s1) as [second s2].
  destruct (toy_poll second s2) as [a2 s3]. destruct (toy_poll first s3) as [restore s4]. destruct (toy_poll restore s4) as [a1 s5].
  destruct Hl as (_ & -> & _ & _ & ->). split; reflexivity.
Defined.

Lemma dropped_requests_escape_the_log_witness : exists y : System (W := ToyWorld),
  requests y = [Dropped] /\ ds_external_probes_confirmed (sh_settings (shared y)) = true /\ sh_audit (shared y) = sh_audit toy_shared.
Proof.
  destruct (dropped_requests_escape_the_log toy_display toy_budget default_profile default_context toy_shared 10 (confirm true) link_down None (Safe RestartCollectorWorker)
    {| sy_check := CollectorHealth; sy_metric := WorkerRunning; sy_direction := HigherIsBetter; min_meaningful_delta := f64_one |}
    ltac:(vm_compute; reflexivity)) as [(y & _ & Hr & Hs & Ha) _].
  exists y. split; [exact Hr|]. rewrite Hs. split; [reflexivity|exact Ha].
Defined.
(** Everything on the network answers; only the private addresses were asked. *)
Definition healthy_answers (r : ProbeRequest) : result ProbeResponse ProbeError :=
  Ok (match r with
      | ReqCollectorStatus => RespCollectorStatus true true true
      | ReqLinkStatus _ => RespLinkStatus true None
      | ReqIpConfig _ => RespIpConfig (Some "192.168.1.7"%string) LeaseValid
      | ReqArpProbe _ _ => RespArpProbe []
      | ReqWifiMetrics _ => RespWifiMetrics false None None
      | ReqPing _ _ _ => RespPingReply f64_one
      | ReqDnsQuery _ _ => RespDnsAnswer [] f64_one
      | ReqRouteTable => RespRouteTable []
      | ReqRouterStatus => RespRouterStatus true None
      | ReqReachIp _ _ => RespReachable f64_one
      end).
Definition home_settings : DoctorSettings := apply (from_platform None None) {|
  du_interface := None; du_gateway := Some "192.168.1.1"%string; du_configured_resolvers := Some ["192.168.1.1"; "8.8.8.8"]%string;
  du_independent_resolver := None; du_internet_probe_address := None; du_internet_probe_port := None; du_dns_probe_name := None;
  du_external_probes_confirmed := None |}.
Definition dialled (confirmed : bool) : list string :=
  omap (fun p => probe_target (pr_request p))
    (fake_log (snd (@DoctorEngine.run FakeProbeTransport (gated_probes confirmed) (FixedClock FakeProbeTransport 10)
      {| config := to_config home_settings default_profile; DoctorEngine.budget := toy_budget |} (fake_new healthy_answers)))).
Example dialled_unconfirmed : remove_dups (dialled false) = ["192.168.1.7"; "192.168.1.1"]%string.
Proof. vm_compute. reflexivity. Qed.
Example dialled_confirmed : remove_dups (dialled true) = ["192.168.1.7"; "192.168.1.1"; "8.8.8.8"; "9.9.9.9"; "1.1.1.1"]%string.
Proof. vm_compute. reflexivity. Qed.
End ServiceRuns.
