(* ===== verification/IpText.v ===== *)
(** * Addresses read back from their text

    [Display] of [IpAddr] (Wire) and [IpAddr::from_str] (DoctorSettings) of the standard library are
    inverse to each other. *)

From stdpp Require Import pretty.
From S2P Require Import Prelude Bytes Text Net NetProps Wire DoctorSettings.

(** ** Numbers *)
Fixpoint digits_value (radix acc : Z) (s : string) : option Z :=
  match s with
  | EmptyString => Some acc
  | String a s' => d ← to_digit radix a; digits_value radix (radix * acc + d) s'
  end.
Definition no_digit (radix : Z) (s : string) : Prop :=
  match s with EmptyString => True | String a _ => to_digit radix a = None end.

Lemma read_digits_all radix max s rest count acc v :
  digits_value radix acc s = Some v -> no_digit radix rest -> count + str_len s <= max ->
  read_digits radix max count acc (s +:+ rest) = Some (v, count + str_len s, rest).
Proof.
  revert count acc. induction s as [|a s IH]; intros count acc; unfold str_len; simpl.
  - intros [= ->] Hr _. rewrite Z.add_0_r. destruct rest as [|b rest]; simpl; [done|]. simpl in Hr. by rewrite Hr.
  - destruct (to_digit radix a) as [d|]; [|done]. simpl. intros Hv Hr Hl. destruct (Z.ltb_spec max (count + 1)); [lia|].
    rewrite IH by (done || unfold str_len; lia). unfold str_len. f_equal. f_equal. f_equal. lia.
Qed.

(** Leading zeros do not count. *)
Lemma drop_zeros_value s : digits_value 16 0 (drop_zeros s) = digits_value 16 0 s.
Proof.
  induction s as [|a s IH]; [done|]. destruct s as [|b s]; [by destruct a as [[] [] [] [] [] [] [] []]|].
  destruct (decide (a = "0"%char)) as [->|Ha].
  - change (drop_zeros (String "0" (String b s))) with (drop_zeros (String b s)). rewrite IH. done.
  - destruct a as [[] [] [] [] [] [] [] []]; done.
Qed.
Lemma drop_zeros_len s : s <> EmptyString -> 1 <= str_len (drop_zeros s) <= str_len s.
Proof.
  induction s as [|a s IH]; [done|]. intros _. unfold str_len in *. destruct s as [|b s]; [destruct a as [[] [] [] [] [] [] [] []]; simpl; lia|].
  specialize (IH ltac:(done)). destruct (decide (a = "0"%char)) as [->|Ha].
  - change (drop_zeros (String "0" (String b s))) with (drop_zeros (String b s)). cbn [String.length] in *. lia.
  - assert (drop_zeros (String a (String b s)) = String a (String b s)) as -> by (by destruct a as [[] [] [] [] [] [] [] []]).
    cbn [String.length]. lia.
Qed.

Lemma to_digit_hex h : 0 <= h < 16 -> to_digit 16 (hex_char h) = Some h.
Proof.
  intros Hh. assert (In h [0; 1; 2; 3; 4; 5; 6; 7; 8; 9; 10; 11; 12; 13; 14; 15]) as Hin by (simpl; lia).
  repeat (destruct Hin as [<-|Hin]; [reflexivity|]). done.
Qed.

Lemma hex_group_value g : 0 <= g < 65536 -> digits_value 16 0 (hex_group g) = Some g.
Proof.
  intros Hg. unfold hex_group. rewrite drop_zeros_value. unfold hex_width. cbn [be_bytes app hex_text digits_value].
  rewrite (to_digit_hex (_ / 16)) by (Z.div_mod_to_equations; lia). simpl.
  rewrite (to_digit_hex (_ mod 16)) by (Z.div_mod_to_equations; lia). simpl.
  rewrite (to_digit_hex (_ / 16)) by (Z.div_mod_to_equations; lia). simpl.
  rewrite (to_digit_hex (_ mod 16)) by (Z.div_mod_to_equations; lia). simpl. f_equal. Z.div_mod_to_equations. lia.
Qed.

Lemma hex_group_reads g rest :
  0 <= g < 65536 -> no_digit 16 rest -> read_number 16 4 65535 true (hex_group g +:+ rest) = Some (g, rest).
Proof.
  intros Hg Hr. pose proof (hex_group_value g Hg) as Hv.
  pose proof (drop_zeros_len (hex_width 2 g) ltac:(done)) as Hl. fold (hex_group g) in Hl.
  change (str_len (hex_width 2 g)) with 4 in Hl.
  unfold read_number. rewrite (read_digits_all 16 4 _ _ _ _ g) by (done || lia).
  destruct (Z.eqb_spec (0 + str_len (hex_group g)) 0); [lia|]. simpl. destruct (Z.ltb_spec 65535 g); [lia|done].
Qed.

(** ** No IPv4 address in front of a colon *)

(** What is left after the hexadecimal digits in front. *)
Fixpoint after_digits (s : string) : string :=
  match s with
  | EmptyString => EmptyString
  | String a s' => if is_some_and (fun _ => true) (to_digit 16 a) then after_digits s' else s
  end.

Lemma to_digit_10_16 a d : to_digit 10 a = Some d -> is_Some (to_digit 16 a).
Proof. destruct a as [[] [] [] [] [] [] [] []]; vm_compute; try done; eauto. Qed.

Lemma read_digits_after max count acc s v n s' :
  read_digits 10 max count acc s = Some (v, n, s') -> after_digits s = after_digits s'.
Proof.
  revert count acc. induction s as [|a s IH]; intros count acc; simpl; [by intros [= _ _ <-]|].
  destruct (to_digit 10 a) as [d|] eqn:Hd; [|by intros [= _ _ <-]].
  destruct (to_digit_10_16 a d Hd) as [x Hx]. rewrite Hx. simpl. destruct (max <? count + 1); [done|]. apply IH.
Qed.

Lemma read_ipv4_dot s x : read_ipv4 s = Some x -> exists s', after_digits s = String "." s'.
Proof.
  unfold read_ipv4, read_octet. simpl. destruct (read_number 10 3 255 false s) as [[a s1]|] eqn:H1; simpl; [|done].
  unfold read_number in H1. destruct (read_digits 10 3 0 0 s) as [[[v n] r]|] eqn:Hd; [|done].
  apply read_digits_after in Hd. destruct (n =? 0); [done|]. destruct (negb false && _ && _); [done|].
  destruct (255 <? v); [done|]. injection H1 as -> ->. destruct s1 as [|b s1]; [done|]. simpl.
  destruct (Ascii.eqb_spec b ".") as [->|]; [|done]. intros _. exists s1. by rewrite Hd.
Qed.

Lemma after_hex_group g rest : 0 <= g < 65536 -> no_digit 16 rest -> after_digits (hex_group g +:+ rest) = rest.
Proof.
  intros Hg Hr. assert (forall s, (exists acc v, digits_value 16 acc s = Some v) -> after_digits (s +:+ rest) = rest) as Hs.
  { induction s as [|a s IH]; intros (acc & v & Hv); simpl in *.
    - destruct rest as [|b rest]; [done|]. simpl in *. by rewrite Hr.
    - destruct (to_digit 16 a) as [d|]; [|done]. simpl in *. apply IH. eauto. }
  apply Hs. exists 0, g. by apply hex_group_value.
Qed.

(** ** Groups *)
Fixpoint group_text (index : nat) (gs : list Z) (rest : string) : string :=
  match gs with
  | [] => rest
  | g :: gs' => ((match index with O => EmptyString | S _ => ":" end) +:+ (hex_group g +:+ group_text (S index) gs' rest))%string
  end.
Definition stops (rest : string) : Prop := rest = EmptyString \/ exists r, rest = String ":" (String ":" r).
Definition is_group (g : Z) : Prop := 0 <= g < 65536.

Lemma group_text_stops index gs rest : stops rest -> no_digit 16 (group_text (S index) gs rest) /\
  forall s, group_text (S index) gs rest <> String "." s.
Proof. destruct gs; simpl; [intros [->|[r ->]]|]; split; done. Qed.

Lemma no_ipv4 index g rest : is_group g -> no_digit 16 rest -> (forall s, rest <> String "." s) ->
  read_separator ":" index read_ipv4 ((match index with O => EmptyString | S _ => ":" end) +:+ (hex_group g +:+ rest))%string = None.
Proof.
  intros Hg Hr Hd. assert (read_ipv4 (hex_group g +:+ rest) = None) as Hn.
  { destruct (read_ipv4 (hex_group g +:+ rest)) as [x|] eqn:E; [|done]. apply read_ipv4_dot in E as (s & Hs).
    rewrite after_hex_group in Hs by done. by destruct (Hd s). }
  destruct index; done.
Qed.

Lemma read_groups_text left_ index gs rest :
  Forall is_group gs -> (length gs <= left_)%nat -> stops rest -> read_groups left_ index (group_text index gs rest) = (gs, false, rest).
Proof.
  revert index gs. induction left_ as [|left_ IH]; intros index gs Hgs Hl Hr; [by destruct gs; [|simpl in Hl; lia]|].
  destruct gs as [|g gs].
  - simpl. destruct Hr as [->|[r ->]], index; simpl; destruct left_; reflexivity.
  - apply Forall_cons in Hgs as [Hg Hgs]. cbn [read_groups group_text].
    destruct (group_text_stops index gs rest Hr) as [Hnd Hdot].
    assert (read_separator ":" index (read_number 16 4 65535 true)
              ((match index with O => EmptyString | S _ => ":" end) +:+ (hex_group g +:+ group_text (S index) gs rest))%string
            = Some (g, group_text (S index) gs rest)) as ->.
    { pose proof (hex_group_reads g _ Hg Hnd) as Hx. destruct index; exact Hx. }
    rewrite (IH (S index) gs Hgs) by (done || simpl in Hl; lia). rewrite no_ipv4 by done. by destruct left_.
Qed.

Lemma string_app_assoc (a b c : string) : ((a +:+ b) +:+ c)%string = (a +:+ (b +:+ c))%string.
Proof. induction a as [|x a IH]; [done|]. exact (f_equal (String x) IH). Qed.
Lemma string_app_nil (a : string) : (a +:+ "")%string = a.
Proof. induction a as [|x a IH]; [done|]. exact (f_equal (String x) IH). Qed.

Lemma group_text_later i j gs rest : group_text (S i) gs rest = group_text (S j) gs rest.
Proof.
  revert i j. induction gs as [|g gs IH]; intros i j; [done|]. cbn [group_text]. by rewrite (IH (S i) (S j)).
Qed.

Lemma join_groups_text gs rest : (str_join ":" (map hex_group gs) +:+ rest)%string = group_text 0 gs rest.
Proof.
  assert (forall g gs, (str_join ":" (map hex_group (g :: gs)) +:+ rest)%string = (hex_group g +:+ group_text 1 gs rest)%string) as Hc.
  { clear. intros g gs. revert g. induction gs as [|g' gs IH]; intros g; [done|].
    change (str_join ":" (map hex_group (g :: g' :: gs))) with (hex_group g +:+ (":" +:+ str_join ":" (map hex_group (g' :: gs))))%string.
    rewrite !string_app_assoc. rewrite (IH g'), (group_text_later 0 1). reflexivity. }
  destruct gs as [|g gs]; [done|]. apply Hc.
Qed.

(** ** Whole addresses *)
Lemma octet_alt a i : 0 <= i <= 3 -> octet a i = a / 256 ^ (3 - i) mod 256.
Proof.
  intros Hi. assert (i = 0 \/ i = 1 \/ i = 2 \/ i = 3) as [->|[->|[->| ->]]] by lia.
  - by rewrite (octet_div a 0 24) by lia.
  - by rewrite (octet_div a 1 16) by lia.
  - by rewrite (octet_div a 2 8) by lia.
  - by rewrite (octet_div a 3 0) by lia.
Qed.
Lemma v4_text_reads a : v4_text a = ipv4_to_string a.
Proof. unfold v4_text, ipv4_to_string. simpl map. rewrite !octet_alt by lia. done. Qed.

Lemma v6_groups_join a : 0 <= a < 2 ^ 128 -> join_groups (v6_groups a) = a /\ Forall is_group (v6_groups a).
Proof.
  intros Ha. split.
  - unfold join_groups, v6_groups. simpl map. cbn [fold_left].
    assert (forall k, 0 <= k -> 65536 * (a / 65536 ^ (k + 1)) + a / 65536 ^ k mod 65536 = a / 65536 ^ k) as Hk.
    { intros k Hk. rewrite Z.pow_add_r, Z.pow_1_r, <- Z.div_div by lia. symmetry. apply Z.div_mod. lia. }
    assert (65536 * 0 + a / 65536 ^ (7 - 0) mod 65536 = a / 65536 ^ 7) as ->.
    { change (7 - 0) with 7. rewrite Z.mod_small; [lia|]. split; [apply Z.div_pos; lia|]. apply Z.div_lt_upper_bound; [lia|].
      change (65536 ^ 7 * 65536) with (2 ^ 128). lia. }
    pose proof (Hk 6 ltac:(lia)) as H6. pose proof (Hk 5 ltac:(lia)) as H5. pose proof (Hk 4 ltac:(lia)) as H4. pose proof (Hk 3 ltac:(lia)) as H3.
    pose proof (Hk 2 ltac:(lia)) as H2. pose proof (Hk 1 ltac:(lia)) as H1. pose proof (Hk 0 ltac:(lia)) as H0.
    change (6 + 1) with 7 in H6. change (5 + 1) with 6 in H5. change (4 + 1) with 5 in H4. change (3 + 1) with 4 in H3.
    change (2 + 1) with 3 in H2. change (1 + 1) with 2 in H1. change (0 + 1) with 1 in H0.
    change (7 - 1) with 6. change (7 - 2) with 5. change (7 - 3) with 4. change (7 - 4) with 3. change (7 - 5) with 2. change (7 - 6) with 1. change (7 - 7) with 0.
    rewrite H6, H5, H4, H3, H2, H1, H0. apply Z.div_1_r.
  - unfold v6_groups. apply List.Forall_forall. intros g (i & <- & _)%in_map_iff. apply Z.mod_pos_bound. lia.
Qed.

(** The run that the text leaves out holds only zeros. *)
Definition zeros (l : list Z) (s n : nat) : Prop := (s + n <= length l)%nat /\ forall i, (s <= i < s + n)%nat -> l !! i = Some 0.

Lemma zeros_app l l' s n : zeros l s n -> zeros (l ++ l') s n.
Proof. intros [Hl Hz]. split; [rewrite length_app; lia|]. intros i Hi. rewrite lookup_app_l by lia. auto. Qed.

Lemma zeros_snoc p s n : zeros p s n -> (s + n = length p)%nat -> zeros (p ++ [0]) s (S n).
Proof.
  intros [Hl Hz] He. split; [rewrite length_app; simpl; lia|]. intros i Hi. destruct (decide (i < length p)%nat) as [Hlt|Hge].
  - rewrite lookup_app_l by done. apply Hz. lia.
  - rewrite lookup_app_r by lia. by replace (i - length p)%nat with O by lia.
Qed.

Lemma zero_run_zeros p l cs cl bs bl s n :
  zero_run (length p) cs cl bs bl l = (s, n) -> zeros p bs bl -> (cl = 0%nat \/ (cs + cl)%nat = length p /\ zeros p cs cl) -> zeros (p ++ l) s n.
Proof.
  revert p cs cl bs bl. induction l as [|g l IH]; intros p cs cl bs bl; cbn [zero_run].
  { rewrite (right_id_L [] (++)). intros [= <- <-] Hb _. done. }
  replace (p ++ g :: l) with ((p ++ [g]) ++ l) by (by rewrite <- (assoc_L (++))).
  assert (S (length p) = length (p ++ [g])) as Hlen by (rewrite length_app; simpl; lia). rewrite Hlen.
  destruct (Z.eqb_spec g 0) as [->|Hg].
  - intros Hrun Hb Hc. assert ((if Nat.eqb cl 0 then length p else cs) + S cl = length (p ++ [0%Z]) /\
        zeros (p ++ [0%Z]) (if Nat.eqb cl 0 then length p else cs) (S cl))%nat as [Hc1 Hc2].
    { destruct Hc as [->|[Hc Hz]]; simpl.
      - split; [rewrite length_app; simpl; lia|]. apply zeros_snoc; [split; [lia|intros; lia]|lia].
      - destruct (Nat.eqb_spec cl 0) as [->|]; (split; [rewrite length_app; simpl; lia|]).
        + apply zeros_snoc; [split; [lia|intros; lia]|lia].
        + apply zeros_snoc; [done|lia]. }
    destruct (Nat.ltb bl (S cl)); apply IH in Hrun; auto using zeros_app.
  - intros Hrun Hb Hc. apply IH in Hrun; auto using zeros_app.
Qed.

Lemma zeros_split l s n : zeros l s n -> take s l ++ repeat 0 n ++ drop (s + n) l = l.
Proof.
  intros [Hl Hz]. rewrite <- (take_drop s l) at 3. f_equal. revert s Hl Hz. induction n as [|n IH]; intros s Hl Hz.
  - simpl. by rewrite Nat.add_0_r.
  - rewrite (drop_S l 0 s) by (apply Hz; lia). cbn [repeat app]. f_equal. rewrite <- (IH (S s)); [by replace (S s + n)%nat with (s + S n)%nat by lia|lia|].
    intros i Hi. apply Hz. lia.
Qed.

Lemma no_ipv4_front s : (forall s', after_digits s <> String "." s') -> read_ipv4 s = None.
Proof. intros Hs. destruct (read_ipv4 s) as [x|] eqn:E; [|done]. apply read_ipv4_dot in E as (s' & Hs'). by destruct (Hs s'). Qed.

Lemma group_text_no_ipv4 gs rest : Forall is_group gs -> stops rest -> read_ipv4 (group_text 0 gs rest) = None.
Proof.
  intros Hgs Hr. destruct gs as [|g gs].
  - simpl. destruct Hr as [->|[r ->]]; reflexivity.
  - apply Forall_cons in Hgs as [Hg _]. destruct (group_text_stops 0 gs rest Hr). by apply (no_ipv4 0 g).
Qed.

Lemma v6_text_reads a : 0 <= a < 2 ^ 128 -> to_ipv4_mapped a = None -> parse_ip (v6_text a) = Some (V6 a).
Proof.
  intros Ha Hm. destruct (v6_groups_join a Ha) as [Hj Hgs]. unfold v6_text. rewrite Hm.
  destruct (zero_run 0 0 0 0 0 (v6_groups a)) as [start len] eqn:Hrun.
  pose proof (zero_run_zeros [] (v6_groups a) 0 0 0 0 start len Hrun) as Hz. simpl in Hz.
  assert (zeros (v6_groups a) start len) as Hz' by (apply Hz; [split; simpl; [lia|intros; lia]|by left]). clear Hz.
  pose proof (zeros_split _ _ _ Hz') as Hsplit. destruct Hz' as [Hlen _]. change (length (v6_groups a)) with 8%nat in Hlen.
  unfold parse_ip, read_ipv6. destruct (Nat.ltb_spec 1 len) as [Hlt|Hle].
  - assert (stops ("::" +:+ str_join ":" (map hex_group (drop (start + len) (v6_groups a))))%string) as Hst.
    { right. eexists. reflexivity. }
    rewrite join_groups_text. rewrite group_text_no_ipv4 by (done || by apply Forall_take).
    assert (length (take start (v6_groups a)) = start) as Hlt1 by (rewrite length_take; change (length (v6_groups a)) with 8%nat; lia).
    rewrite read_groups_text by (done || (by apply Forall_take) || lia). rewrite Hlt1.
    destruct (Nat.eqb_spec start 8); [lia|].
    change ("::" +:+ str_join ":" (map hex_group (drop (start + len) (v6_groups a))))%string
      with (String ":" (String ":" (str_join ":" (map hex_group (drop (start + len) (v6_groups a)))))).
    rewrite <- (string_app_nil (str_join ":" (map hex_group (drop (start + len) (v6_groups a))))). rewrite join_groups_text.
    assert (length (drop (start + len) (v6_groups a)) = 8 - start - len)%nat as Hlt2 by (rewrite length_drop; change (length (v6_groups a)) with 8%nat; lia).
    rewrite read_groups_text; [|by apply Forall_drop|lia|by left]. rewrite Hlt2. cbn [str_is_empty].
    replace (8 - start - (8 - start - len))%nat with len by lia. rewrite Hsplit, Hj. reflexivity.
  - rewrite <- (string_app_nil (str_join ":" _)), join_groups_text. rewrite group_text_no_ipv4 by (done || by left).
    rewrite read_groups_text; [|done|done|by left]. change (length (v6_groups a)) with 8%nat. simpl. rewrite Hj. reflexivity.
Qed.

Lemma v4_text_read_ipv4 a : 0 <= a <= u32_mask -> read_ipv4 (v4_text a) = Some (a, EmptyString).
Proof.
  intros Ha. pose proof (ipv4_reads_back a Ha) as Hr. rewrite <- v4_text_reads in Hr. unfold parse_ip in Hr.
  destruct (read_ipv4 (v4_text a)) as [[b rest]|].
  - simpl in Hr. destruct rest; simpl in Hr; [by simplify_eq|done].
  - destruct (read_ipv6 (v4_text a)) as [[b rest]|]; simpl in Hr; [destruct rest; simpl in Hr; done|done].
Qed.

Lemma read_groups_step left_ index s :
  read_groups (S (S left_)) index s =
  match read_separator ":" index read_ipv4 s with
  | Some (a, s') => ([Z.shiftr a 16; Z.land a 65535], true, s')
  | None => match read_separator ":" index (read_number 16 4 65535 true) s with
            | None => ([], false, s)
            | Some (g, s') => let '(gs, ipv4, rest) := read_groups (S left_) (S index) s' in (g :: gs, ipv4, rest)
            end
  end.
Proof. reflexivity. Qed.

Lemma mapped_text_reads a b : 0 <= a < 2 ^ 128 -> to_ipv4_mapped a = Some b -> parse_ip (v6_text a) = Some (V6 a).
Proof.
  intros Ha Hm. unfold v6_text. rewrite Hm. unfold to_ipv4_mapped in Hm. destruct (Z.eqb_spec (Z.shiftr a 32) 65535) as [Hs|]; [|done].
  injection Hm as <-. assert (Z.land a u32_mask = a mod 2 ^ 32) as Hl by (change u32_mask with (Z.ones 32); apply Z.land_ones; lia).
  rewrite Z.shiftr_div_pow2 in Hs by lia. rewrite Hl. pose proof (Z.mod_pos_bound a (2 ^ 32) ltac:(lia)) as Hb.
  pose proof (v4_text_read_ipv4 (a mod 2 ^ 32) ltac:(unfold u32_mask; lia)) as Hv. generalize dependent (v4_text (a mod 2 ^ 32)). intros text Hv.
  assert (read_groups 7 0 (String "f" (String "f" (String "f" (String "f" (String ":" text)))))
          = ([65535; Z.shiftr (a mod 2 ^ 32) 16; Z.land (a mod 2 ^ 32) 65535], true, EmptyString)) as Hg.
  { assert (read_ipv4 (String "f" (String "f" (String "f" (String "f" (String ":" text))))) = None) as Hn by reflexivity.
    assert (read_number 16 4 65535 true (String "f" (String "f" (String "f" (String "f" (String ":" text))))) = Some (65535, String ":" text)) as Hf by reflexivity.
    rewrite read_groups_step. cbn [read_separator]. rewrite Hn, Hf. rewrite read_groups_step. cbn [read_separator Ascii.eqb Bool.eqb].
    rewrite Hv. reflexivity. }
  change ("::ffff:" +:+ text)%string with (String ":" (String ":" (String "f" (String "f" (String "f" (String "f" (String ":" text))))))).
  set (S := String ":" (String ":" (String "f" (String "f" (String "f" (String "f" (String ":" text))))))).
  assert (read_ipv4 S = None) as H4 by reflexivity. assert (read_groups 8 0 S = ([], false, S)) as H8 by (rewrite read_groups_step; reflexivity).
  unfold parse_ip, read_ipv6. rewrite H4, H8. unfold S. cbn [length Nat.eqb]. change (8 - (0 + 1))%nat with 7%nat. rewrite Hg.
  cbn -[Z.pow Z.modulo Z.shiftr Z.land Z.mul Z.add].
  f_equal. f_equal. rewrite Z.shiftr_div_pow2 by lia. change 65535 with (Z.ones 16) at 2. rewrite Z.land_ones by lia.
  change (2 ^ 16) with 65536. pose proof (Z.div_mod a (2 ^ 32) ltac:(lia)) as Hd. change (2 ^ 32) with 4294967296 in *.
  pose proof (Z.div_mod (a mod 4294967296) 65536 ltac:(lia)). lia.
Qed.

(** Every address is read back from its text. *)
Lemma ip_reads_back ip : ip_wf ip -> parse_ip (ip_text ip) = Some ip.
Proof.
  destruct ip as [a|a]; simpl; intros Ha.
  - rewrite v4_text_reads. by apply ipv4_reads_back.
  - unfold u128_mask in Ha. destruct (to_ipv4_mapped a) as [b|] eqn:Hm; [eapply mapped_text_reads|apply v6_text_reads]; eauto; lia.
Qed.
