(* ===== verification/Live.v ===== *)
(** * Live bandwidth

    crates/lattice-sensor/src/live.rs: the coalescer of bandwidth samples and the adapter that
    turns the changes of the flow engine into them. The [BTreeMap]s are [gmap]s that are iterated
    in key order. Every operation of the source works on a clone or checks before it assigns, so an
    operation returns the new state, or an error with which the old one stays. *)

From S2P Require Import Prelude Order Time Text Bytes Domain Net Flow.

Record LiveConfig := { lc_min_interval_ms : Z; lc_max_devices : Z; lc_max_pending : Z; lc_max_work : Z }.
Definition default_live_config : LiveConfig :=
  {| lc_min_interval_ms := 250; lc_max_devices := 1024; lc_max_pending := 1024; lc_max_work := 8192 |}.

Record LiveSample := {
  ls_device_id : DeviceId; ls_delta : ByteCount; ls_coverage : Coverage; ls_observed_at : DateTime }.
#[global] Instance LiveSample_eq_dec : EqDecision LiveSample.
Proof. solve_decision. Defined.

Inductive LiveError := LiveConfigError | LiveClock | LiveCapacity | LiveWork | LiveOverflow.

Record BandwidthSample := {
  bs_device_id : DeviceId; bs_delta : ByteCount; bs_upload_bytes_per_second : Z; bs_download_bytes_per_second : Z;
  bs_coverage : Coverage }.
Record BandwidthFrame := {
  bf_interval_ms : Z; bf_observed_at : DateTime; bf_emitted_at : DateTime; bf_samples : list BandwidthSample }.

Record LiveCoalescer := {
  co_cfg : LiveConfig; co_pending : gmap string LiveSample; co_last_tick : option Z; co_last_emit : option Z;
  co_last_emitted_at : option DateTime }.

(** ** The coalescer *)
Definition coalescer_new (cfg : LiveConfig) : result LiveCoalescer LiveError :=
  if (lc_min_interval_ms cfg <? 250) || (lc_max_devices cfg =? 0) || (lc_max_pending cfg =? 0) || (lc_max_work cfg =? 0)
  then Err LiveConfigError
  else Ok {| co_cfg := cfg; co_pending := ∅; co_last_tick := None; co_last_emit := None; co_last_emitted_at := None |}.

Definition in_key_order {V} (m : gmap string V) : list (string * V) := in_order String.compare (map_to_list m).

Definition rate (bytes ms : Z) : result Z LiveError :=
  let? x := ok_or (if bytes * 1000 <=? u64_max then Some (bytes * 1000) else None) LiveOverflow in
  Ok (x / ms).

Fixpoint frame_samples (interval : Z) (l : list LiveSample) : result (list BandwidthSample) LiveError :=
  match l with
  | [] => Ok []
  | s :: l' =>
    let? u := rate (upload (ls_delta s)) interval in
    let? d := rate (download (ls_delta s)) interval in
    let? rest := frame_samples interval l' in
    Ok ({| bs_device_id := ls_device_id s; bs_delta := ls_delta s; bs_upload_bytes_per_second := u;
           bs_download_bytes_per_second := d; bs_coverage := ls_coverage s |} :: rest)
  end.

Definition set_pending (p : gmap string LiveSample) (c : LiveCoalescer) : LiveCoalescer := {|
  co_cfg := co_cfg c; co_pending := p; co_last_tick := co_last_tick c; co_last_emit := co_last_emit c;
  co_last_emitted_at := co_last_emitted_at c |}.
Definition set_tick (t : Z) (c : LiveCoalescer) : LiveCoalescer := {|
  co_cfg := co_cfg c; co_pending := co_pending c; co_last_tick := Some t; co_last_emit := co_last_emit c;
  co_last_emitted_at := co_last_emitted_at c |}.

Definition flush (c : LiveCoalescer) (tick_ms : Z) (emitted_at : DateTime)
  : result (option BandwidthFrame * LiveCoalescer) LiveError :=
  if is_some_and (fun x => tick_ms <? x) (co_last_tick c) || is_some_and (fun x => tick_ms <? x) (co_last_emit c)
     || is_some_and (fun x => emitted_at <? x) (co_last_emitted_at c)
  then Err LiveClock
  else if bool_decide (co_pending c = ∅) then Ok (None, set_tick tick_ms c)
  else
    let? interval := match co_last_emit c with
                     | Some last => ok_or (if tick_ms <? last then None else Some (tick_ms - last)) LiveClock
                     | None => Ok (lc_min_interval_ms (co_cfg c))
                     end in
    if interval <? lc_min_interval_ms (co_cfg c) then Ok (None, c)
    else if lc_max_work (co_cfg c) <? msize (co_pending c) then Err LiveWork
    else
      let pending := map snd (in_key_order (co_pending c)) in
      let? observed_at := ok_or (iter_max (map ls_observed_at pending)) LiveCapacity in
      let? samples := frame_samples interval pending in
      Ok (Some {| bf_interval_ms := interval; bf_observed_at := observed_at; bf_emitted_at := emitted_at;
                  bf_samples := samples |},
          {| co_cfg := co_cfg c; co_pending := ∅; co_last_tick := Some tick_ms; co_last_emit := Some tick_ms;
             co_last_emitted_at := Some emitted_at |}).

Definition sync_devices (ids : list string) (samples p : gmap string LiveSample) : gmap string LiveSample :=
  fold_left (fun p d => match samples !! d with Some s => <[d := s]> p | None => delete d p end) ids p.

Section Live.
Context `{Calendar} `{DeviceText}.

Fixpoint replace_loop (cfg : LiveConfig) (next : gmap string LiveSample) (l : list LiveSample)
  : result (gmap string LiveSample) LiveError :=
  match l with
  | [] => Ok next
  | s :: l' =>
    let k := device_to_string (ls_device_id s) in
    if bool_decide (next !! k = None) && (lc_max_pending cfg <=? msize next) then Err LiveCapacity
    else replace_loop cfg (<[k := s]> next) l'
  end.

Definition replace (c : LiveCoalescer) (tick_ms : Z) (samples : list LiveSample) : result LiveCoalescer LiveError :=
  if is_some_and (fun x => tick_ms <? x) (co_last_tick c) then Err LiveClock
  else if lc_max_work (co_cfg c) <? Z.of_nat (length samples) then Err LiveWork
  else
    let? next := replace_loop (co_cfg c) (co_pending c) samples in
    if lc_max_devices (co_cfg c) <? msize next then Err LiveCapacity
    else Ok (set_tick tick_ms (set_pending next c)).

(** ** The adapter *)
Record FlowLiveAdapter := {
  la_current : gmap RollupKey Rollup;
  la_emitted : gmap RollupKey ByteCount;
  la_pending_baselines : gmap RollupKey ByteCount;
  la_coalescer : LiveCoalescer;
  la_max_rows : Z }.

Definition adapter_new (cfg : LiveConfig) (max_rows : Z) : result FlowLiveAdapter LiveError :=
  if max_rows =? 0 then Err LiveConfigError
  else
    let? c := coalescer_new cfg in
    Ok {| la_current := ∅; la_emitted := ∅; la_pending_baselines := ∅; la_coalescer := c; la_max_rows := max_rows |}.

Record CurrentSamples := {
  cs_by_device : gmap string LiveSample; cs_baselines : gmap RollupKey ByteCount; cs_resets : gmap RollupKey ByteCount }.

Definition baseline_of (emitted : gmap RollupKey ByteCount) (r : Rollup) : ByteCount :=
  default zero_bytes (emitted !! ro_key r).
Definition lower (b : ByteCount) (r : Rollup) : ByteCount :=
  {| upload := Z.min (upload b) (upload (ro_bytes r)); download := Z.min (download b) (download (ro_bytes r)) |}.
Definition delta_of (b : ByteCount) (r : Rollup) : ByteCount :=
  {| upload := saturating_sub_u64 (upload (ro_bytes r)) (upload b);
     download := saturating_sub_u64 (download (ro_bytes r)) (download b) |}.

(** The body of the loop of [samples_for_current]. *)
Definition sample_row (emitted : gmap RollupKey ByteCount) (r : Rollup) (cs : CurrentSamples) : result CurrentSamples LiveError :=
  let k := device_to_string (rk_device_id (ro_key r)) in
  let baseline := baseline_of emitted r in
  let reset_changed := (upload (ro_bytes r) <? upload baseline) || (download (ro_bytes r) <? download baseline) in
  let resets := if reset_changed then <[ro_key r := lower baseline r]> (cs_resets cs) else cs_resets cs in
  let delta := delta_of baseline r in
  if (upload delta =? 0) && (download delta =? 0)
  then Ok {| cs_by_device := cs_by_device cs; cs_baselines := cs_baselines cs; cs_resets := resets |}
  else
    let x := default {| ls_device_id := rk_device_id (ro_key r); ls_delta := zero_bytes; ls_coverage := ro_coverage r;
                        ls_observed_at := rk_bucket (ro_key r) |} (cs_by_device cs !! k) in
    let? u := ok_or (checked_add_u64 (upload (ls_delta x)) (upload delta)) LiveOverflow in
    let? d := ok_or (checked_add_u64 (download (ls_delta x)) (download delta)) LiveOverflow in
    Ok {| cs_by_device := <[k := {| ls_device_id := ls_device_id x; ls_delta := {| upload := u; download := d |};
                                    ls_coverage := if bool_decide (ls_coverage x = ro_coverage r) then ls_coverage x else Estimated;
                                    ls_observed_at := ls_observed_at x |}]> (cs_by_device cs);
          cs_baselines := <[ro_key r := ro_bytes r]> (cs_baselines cs);
          cs_resets := resets |}.

Fixpoint sample_rows (emitted : gmap RollupKey ByteCount) (l : list Rollup) (cs : CurrentSamples) : result CurrentSamples LiveError :=
  match l with
  | [] => Ok cs
  | r :: l' => let? cs := sample_row emitted r cs in sample_rows emitted l' cs
  end.

Definition rows_in_order (m : gmap RollupKey Rollup) : list Rollup := map snd (in_order rollup_cmp (map_to_list m)).

Definition samples_for_current (next : gmap RollupKey Rollup) (emitted : gmap RollupKey ByteCount)
  : result CurrentSamples LiveError :=
  sample_rows emitted (rows_in_order next) {| cs_by_device := ∅; cs_baselines := ∅; cs_resets := ∅ |}.

(** The loop of [apply_inner]: rows, emitted and pending baselines, whether there was traffic, and
    the devices of retired rows. *)
Record Applying := {
  ay_next : gmap RollupKey Rollup; ay_emitted : gmap RollupKey ByteCount; ay_baselines : gmap RollupKey ByteCount;
  ay_traffic : bool; ay_retired : gset string }.

Definition of_device {V} (d : DeviceId) (m : gmap RollupKey V) : gmap RollupKey V :=
  filter (fun p => rk_device_id (fst p) = d) m.
Definition not_of_device {V} (d : DeviceId) (m : gmap RollupKey V) : gmap RollupKey V :=
  filter (fun p => rk_device_id (fst p) <> d) m.

Definition latest_bucket (d : DeviceId) (m : gmap RollupKey Rollup) : option DateTime :=
  iter_max (map (fun p => rk_bucket (fst p)) (map_to_list (of_device d m))).

Definition apply_change (a : Applying) (c : RollupChange) : Applying :=
  match c with
  | Upsert r | Correction r =>
    if bool_decide (rk_resolution (ro_key r) = Second) then
      let device := rk_device_id (ro_key r) in
      let latest := latest_bucket device (ay_next a) in
      if is_some_and (fun b => rk_bucket (ro_key r) <? b) latest then a
      else if is_some_and (fun b => b <? rk_bucket (ro_key r)) latest then
        {| ay_next := <[ro_key r := r]> (not_of_device device (ay_next a)); ay_emitted := not_of_device device (ay_emitted a);
           ay_baselines := not_of_device device (ay_baselines a); ay_traffic := true; ay_retired := ay_retired a |}
      else {| ay_next := <[ro_key r := r]> (ay_next a); ay_emitted := ay_emitted a; ay_baselines := ay_baselines a;
              ay_traffic := true; ay_retired := ay_retired a |}
    else a
  | Retire r =>
    if rt_cache_only r && bool_decide (rk_resolution (rt_key r) = Second) && bool_decide (is_Some (ay_next a !! rt_key r)) then
      {| ay_next := delete (rt_key r) (ay_next a); ay_emitted := delete (rt_key r) (ay_emitted a);
         ay_baselines := delete (rt_key r) (ay_baselines a); ay_traffic := ay_traffic a;
         ay_retired := {[device_to_string (rk_device_id (rt_key r))]} ∪ ay_retired a |}
    else a
  end.

Definition row_devices (m : gmap RollupKey Rollup) : gset string :=
  list_to_set (map (fun p => device_to_string (rk_device_id (fst p))) (map_to_list m)).

Definition apply_inner (a : FlowLiveAdapter) (tick_ms : Z) (changes : list RollupChange) : result FlowLiveAdapter LiveError :=
  if lc_max_work (co_cfg (la_coalescer a)) <? Z.of_nat (length changes) then Err LiveWork
  else
    let st := fold_left apply_change changes
      {| ay_next := la_current a; ay_emitted := la_emitted a; ay_baselines := la_pending_baselines a; ay_traffic := false;
         ay_retired := ∅ |} in
    let next := ay_next st in
    if la_max_rows a <? msize next then Err LiveCapacity
    else
      let? samples := samples_for_current next (ay_emitted st) in
      let emitted := cs_resets samples ∪ ay_emitted st in
      if ay_traffic st then
        let? c := replace (la_coalescer a) tick_ms (map snd (in_key_order (cs_by_device samples))) in
        let affected := elements (row_devices next ∪ row_devices (la_current a)) in
        Ok {| la_current := next; la_emitted := emitted; la_pending_baselines := cs_baselines samples;
              la_coalescer := set_pending (sync_devices affected (cs_by_device samples) (co_pending c)) c;
              la_max_rows := la_max_rows a |}
      else
        Ok {| la_current := next; la_emitted := emitted; la_pending_baselines := ay_baselines st;
              la_coalescer := set_pending (sync_devices (elements (ay_retired st)) (cs_by_device samples) (co_pending (la_coalescer a)))
                                          (la_coalescer a);
              la_max_rows := la_max_rows a |}.

(** [apply] stages a clone, so an error leaves the adapter as it was. *)
Definition live_apply (a : FlowLiveAdapter) (tick_ms : Z) (changes : list RollupChange) : result FlowLiveAdapter LiveError :=
  apply_inner a tick_ms changes.

Definition flush_payload (a : FlowLiveAdapter) (tick_ms : Z) (now : DateTime)
  : result (option BandwidthFrame * FlowLiveAdapter) LiveError :=
  let? (frame, c) := flush (la_coalescer a) tick_ms now in
  match frame with
  | Some _ => Ok (frame, {| la_current := la_current a; la_emitted := la_pending_baselines a ∪ la_emitted a;
                            la_pending_baselines := ∅; la_coalescer := c; la_max_rows := la_max_rows a |})
  | None => Ok (None, {| la_current := la_current a; la_emitted := la_emitted a; la_pending_baselines := la_pending_baselines a;
                         la_coalescer := c; la_max_rows := la_max_rows a |})
  end.

Definition staged_payload (a : FlowLiveAdapter) (tick_ms : Z) (changes : list RollupChange) (now : DateTime)
  : result (FlowLiveAdapter * option BandwidthFrame) LiveError :=
  let? staged := live_apply a tick_ms changes in
  let? (payload, staged) := flush_payload staged tick_ms now in
  Ok (staged, payload).

Definition cached_rollups (a : FlowLiveAdapter) : list Rollup := rows_in_order (la_current a).
End Live.
