(* ===== verification/FlowStore.v ===== *)
(** * Flow repository: data and operations

    crates/lattice-store/src/flow.rs over its tables in migrations 001 and 002. A column of type
    TEXT is a string, so the primary key of a row is made of strings, and texts are compared by
    their bytes as SQLite does. A transaction is a function from a database to the next one; an
    error, also one of a statement, rolls it back. The date functions of SQLite and the time
    formats of chrono are the class [SqlTime]; [None] is NULL. *)

From stdpp Require Import sorting.
From S2P Require Import Prelude Order Time Text Bytes Domain Net Wire Flow PolicyStore DoctorSettings Live.

Class SqlTime := {
  #[global] sqltime_chrono :: ChronoText;
  rfc3339_secs : DateTime -> string;         (* [to_rfc3339_opts(SecondsFormat::Secs, true)] *)
  unixepoch : string -> option Z;
  strftime : Z -> option string              (* ['%Y-%m-%dT%H:%M:%SZ'] of a Unix time *)
}.

Inductive FlowStoreError := FsInvalid | FsCapacity | FsCompactionConflict | FsOverflow | FsSql | FsLive (e : LiveError).

(** ** Tables *)
Record DeviceRow := {
  dv_first_seen_at : string; dv_last_seen_at : string; dv_owner_name : option string; dv_owner_type : option string;
  dv_owner_confirmed : Z }.
#[global] Instance DeviceRow_eq_dec : EqDecision DeviceRow.
Proof. solve_decision. Defined.

Record FlowKey := {
  fk_resolution : string; fk_bucket : string; fk_device_id : string; fk_protocol : string; fk_destination : string;
  fk_interface : Z; fk_metadata_ip : string; fk_metadata_domain : string }.
#[global] Instance FlowKey_eq_dec : EqDecision FlowKey.
Proof. solve_decision. Defined.
#[global] Program Instance FlowKey_countable : Countable FlowKey :=
  inj_countable' (fun k => (fk_resolution k, fk_bucket k, fk_device_id k, fk_protocol k, fk_destination k,
                            fk_interface k, fk_metadata_ip k, fk_metadata_domain k))
    (fun '(r, b, d, p, c, i, m, n) => {| fk_resolution := r; fk_bucket := b; fk_device_id := d; fk_protocol := p;
       fk_destination := c; fk_interface := i; fk_metadata_ip := m; fk_metadata_domain := n |}) _.
Next Obligation. by intros []. Qed.

Record FlowRow := { fr_upload : Z; fr_download : Z; fr_coverage : string; fr_updated_at : string }.
#[global] Instance FlowRow_eq_dec : EqDecision FlowRow.
Proof. solve_decision. Defined.

(** A seal has the columns of a key, with [child_resolution] and [parent_bucket] in the first two. *)
Record FlowDb := { fd_devices : gmap string DeviceRow; fd_rollups : gmap FlowKey FlowRow; fd_seals : gset FlowKey }.

(** ** Text of the enums *)
Definition res_s (x : Resolution) : string := match x with Second => "second" | Minute => "minute" | Hour => "hour" end.
Definition proto_s (x : Protocol) : string :=
  match x with Tcp => "tcp" | Udp => "udp" | Icmp => "icmp" | OtherProtocol => "other" end.
Definition dest_s (x : DestinationCategory) : string :=
  match x with Local_ => "local" | Lan => "lan" | Internet => "internet" | UnknownDestination => "unknown" end.
Definition cov_s (x : Coverage) : string :=
  match x with Complete => "complete" | RouterReported => "router-reported" | LocalOnly => "local-only" | Estimated => "estimated" end.
Definition one_of_texts {A} (table : list (string * A)) (x : string) : result A FlowStoreError :=
  match List.find (fun p => bool_decide (fst p = x)) table with Some (_, a) => Ok a | None => Err FsInvalid end.
Definition parse_proto : string -> result Protocol FlowStoreError :=
  one_of_texts [("tcp"%string, Tcp); ("udp"%string, Udp); ("icmp"%string, Icmp); ("other"%string, OtherProtocol)].
Definition parse_dest : string -> result DestinationCategory FlowStoreError :=
  one_of_texts [("local"%string, Local_); ("lan"%string, Lan); ("internet"%string, Internet); ("unknown"%string, UnknownDestination)].
Definition parse_cov : string -> result Coverage FlowStoreError :=
  one_of_texts [("complete"%string, Complete); ("router-reported"%string, RouterReported); ("local-only"%string, LocalOnly);
                ("estimated"%string, Estimated)].

Definition validate_meta (ip d : string) : result unit FlowStoreError :=
  if (45 <? str_len ip) || (253 <? str_len d)
     || (negb (str_is_empty ip) && bool_decide (parse_ip ip = None))
     || (negb (str_is_empty d)
         && (bool_decide (first_byte d = Some "."%char) || bool_decide (last_byte d = Some "."%char)
             || negb (all_bytes (fun a => (N_of_ascii a <? 128)%N) d) || existsb bad_label (split_dot d)))
  then Err FsInvalid else Ok tt.

(** ** Configuration *)
Record CompactionPolicy := { po_seconds : Duration; po_minutes : Duration; po_hours : option Duration; po_max_rows : Z }.
Definition default_compaction : CompactionPolicy :=
  {| po_seconds := hours 24; po_minutes := hours (24 * 90); po_hours := None; po_max_rows := 100000 |}.
Definition validate_compaction (p : CompactionPolicy) : result unit FlowStoreError :=
  if (po_seconds p <=? 0) || (po_minutes p <? po_seconds p) || is_some_and (fun _ => true) (po_hours p) || (po_max_rows p =? 0)
  then Err FsInvalid else Ok tt.

Record FlowRepository := { fl_max_batch : Z }.
Definition flow_repository_new (max_batch : Z) : result FlowRepository FlowStoreError :=
  if max_batch =? 0 then Err FsInvalid else Ok {| fl_max_batch := max_batch |}.

Definition MAX_COMPACTION_GROUPS : nat := 4096.

Definition text_min (l : list string) : option string :=
  match l with [] => None | x :: l' => Some (fold_left (fun a b => if String.ltb b a then b else a) l' x) end.
Definition text_max (l : list string) : option string :=
  match l with [] => None | x :: l' => Some (fold_left (fun a b => if String.ltb a b then b else a) l' x) end.

Section Store.
Context `{Calendar} `{DeviceText} `{SqlTime}.

(** ** Applying changes *)
Definition metadata_texts (m : option DestinationMetadata) : string * string :=
  match m with
  | Some m => (match md_ip m with Some ip => ip_text ip | None => EmptyString end, default EmptyString (md_domain m))
  | None => (EmptyString, EmptyString)
  end.

Definition flow_key (k : RollupKey) (ip domain : string) : FlowKey := {|
  fk_resolution := res_s (rk_resolution k); fk_bucket := rfc3339_secs (rk_bucket k);
  fk_device_id := device_to_string (rk_device_id k); fk_protocol := proto_s (rk_protocol k);
  fk_destination := dest_s (rk_destination k); fk_interface := rk_interface k; fk_metadata_ip := ip; fk_metadata_domain := domain |}.

(** The statement on [devices]: [last_seen_at] moves to the later text. *)
Definition see_device (d at_ : string) (m : gmap string DeviceRow) : gmap string DeviceRow :=
  match m !! d with
  | None => <[d := {| dv_first_seen_at := at_; dv_last_seen_at := at_; dv_owner_name := None; dv_owner_type := None;
                      dv_owner_confirmed := 0 |}]> m
  | Some r => <[d := {| dv_first_seen_at := dv_first_seen_at r;
                        dv_last_seen_at := if String.ltb (dv_last_seen_at r) at_ then at_ else dv_last_seen_at r;
                        dv_owner_name := dv_owner_name r; dv_owner_type := dv_owner_type r;
                        dv_owner_confirmed := dv_owner_confirmed r |}]> m
  end.

(** The seal that refuses a row: the one of its parent bucket. *)
Definition seal_of (r : Rollup) (ip domain : string) : result (option FlowKey) FlowStoreError :=
  match rk_resolution (ro_key r) with
  | Hour => Ok None
  | res =>
    let width := match res with Second => 60 | _ => 3600 end in
    let? epoch := ok_or (checked_mul_i64 (timestamp (rk_bucket (ro_key r)) / width) width) FsOverflow in
    let? parent := ok_or (from_timestamp epoch) FsInvalid in
    let k := flow_key (ro_key r) ip domain in
    Ok (Some {| fk_resolution := fk_resolution k; fk_bucket := rfc3339_secs parent; fk_device_id := fk_device_id k;
                fk_protocol := fk_protocol k; fk_destination := fk_destination k; fk_interface := fk_interface k;
                fk_metadata_ip := ip; fk_metadata_domain := domain |})
  end.

Definition upsert (r : Rollup) (now : DateTime) (db : FlowDb) : result FlowDb FlowStoreError :=
  if bool_decide (rk_metadata (ro_key r) <> ro_metadata r) || negb (rk_bucket (ro_key r) mod 1000000000 =? 0) then Err FsInvalid
  else if negb (timestamp (rk_bucket (ro_key r)) mod resolution_width (rk_resolution (ro_key r)) =? 0) then Err FsInvalid
  else
    let? up := ok_or (if upload (ro_bytes r) <=? i64_max then Some (upload (ro_bytes r)) else None) FsOverflow in
    let? down := ok_or (if download (ro_bytes r) <=? i64_max then Some (download (ro_bytes r)) else None) FsOverflow in
    let '(ip, domain) := metadata_texts (ro_metadata r) in
    let? _ := validate_meta ip domain in
    let? seal := seal_of r ip domain in
    if is_some_and (fun s => bool_decide (s ∈ fd_seals db)) seal then Err FsInvalid
    else if rk_interface (ro_key r) <=? 0 then Err FsSql
    else
      let at_ := rfc3339_secs (rk_bucket (ro_key r)) in
      Ok {| fd_devices := see_device (device_to_string (rk_device_id (ro_key r))) at_ (fd_devices db);
            fd_rollups := <[flow_key (ro_key r) ip domain :=
              {| fr_upload := up; fr_download := down; fr_coverage := cov_s (ro_coverage r); fr_updated_at := rfc3339_secs now |}]>
              (fd_rollups db);
            fd_seals := fd_seals db |}.

Fixpoint apply_changes (changes : list RollupChange) (now : DateTime) (db : FlowDb) : result FlowDb FlowStoreError :=
  match changes with
  | [] => Ok db
  | c :: changes' =>
    let? db := match c with
               | Upsert r | Correction r => upsert r now db
               | Retire r => if rt_cache_only r then Ok db else Err FsInvalid
               end in
    apply_changes changes' now db
  end.

Definition apply_in_transaction (repo : FlowRepository) (changes : list RollupChange) (now : DateTime) (db : FlowDb)
  : result FlowDb FlowStoreError :=
  if fl_max_batch repo <? Z.of_nat (length changes) then Err FsCapacity else apply_changes changes now db.

(** [FlowRepository::apply]; [fault]: a statement or the commit fails for a reason of the database. *)
Definition store_apply (fault : bool) (repo : FlowRepository) (changes : list RollupChange) (now : DateTime) (db : FlowDb)
  : result unit FlowStoreError * FlowDb :=
  if fault then (Err FsSql, db)
  else match apply_in_transaction repo changes now db with
       | Ok db' => (Ok tt, db')
       | Err e => (Err e, db)
       end.

(** ** Reading *)
Definition decode (res : Resolution) (x : FlowKey * FlowRow) : result Rollup FlowStoreError :=
  let '(k, r) := x in
  let? bucket := ok_or (parse_from_rfc3339 (fk_bucket k)) FsInvalid in
  let? device := ok_or (device_parse (fk_device_id k)) FsInvalid in
  let? p := parse_proto (fk_protocol k) in
  let? d := parse_dest (fk_destination k) in
  let ip := fk_metadata_ip k in
  let domain := fk_metadata_domain k in
  let? _ := validate_meta ip domain in
  let? metadata :=
    if str_is_empty ip && str_is_empty domain then Ok None
    else
      let? a := if str_is_empty ip then Ok None else (let? a := ok_or (parse_ip ip) FsInvalid in Ok (Some a)) in
      Ok (Some {| md_ip := a; md_domain := if str_is_empty domain then None else Some domain |}) in
  let? interface := ok_or (if (0 <=? fk_interface k) && (fk_interface k <=? u32_max) then Some (fk_interface k) else None) FsInvalid in
  let? up := ok_or (if 0 <=? fr_upload r then Some (fr_upload r) else None) FsInvalid in
  let? down := ok_or (if 0 <=? fr_download r then Some (fr_download r) else None) FsInvalid in
  let? cov := parse_cov (fr_coverage r) in
  Ok {| ro_key := {| rk_resolution := res; rk_bucket := bucket; rk_device_id := device; rk_protocol := p; rk_destination := d;
                     rk_interface := interface; rk_metadata := metadata |};
        ro_bytes := {| upload := up; download := down |}; ro_coverage := cov; ro_metadata := metadata |}.

Fixpoint decode_all (res : Resolution) (l : list (FlowKey * FlowRow)) : result (list Rollup) FlowStoreError :=
  match l with
  | [] => Ok []
  | x :: l' => let? r := decode res x in let? rest := decode_all res l' in Ok (r :: rest)
  end.

(** ORDER BY bucket, device_id, protocol, destination, interface, metadata_ip, metadata_domain *)
Definition flow_key_cmp (a b : FlowKey) : comparison :=
  then_cmp (String.compare (fk_bucket a) (fk_bucket b)) (then_cmp (String.compare (fk_device_id a) (fk_device_id b))
  (then_cmp (String.compare (fk_protocol a) (fk_protocol b)) (then_cmp (String.compare (fk_destination a) (fk_destination b))
  (then_cmp (Z.compare (fk_interface a) (fk_interface b)) (then_cmp (String.compare (fk_metadata_ip a) (fk_metadata_ip b))
  (String.compare (fk_metadata_domain a) (fk_metadata_domain b))))))).

Definition range (repo : FlowRepository) (res : Resolution) (start end_ : DateTime) (limit : Z) (db : FlowDb)
  : result (list Rollup) FlowStoreError :=
  if (end_ <? start) || (limit =? 0) || (fl_max_batch repo <? limit) then Err FsInvalid
  else if i64_max <? limit then Err FsOverflow
  else
    let rows := List.filter (fun x => bool_decide (fk_resolution (fst x) = res_s res)
                                      && String.leb (rfc3339_secs start) (fk_bucket (fst x))
                                      && String.leb (fk_bucket (fst x)) (rfc3339_secs end_)) (map_to_list (fd_rollups db)) in
    decode_all res (take (Z.to_nat limit) (in_order flow_key_cmp rows)).

(** ** Compaction *)

(** [unixepoch(bucket)-((unixepoch(bucket)%width+width)%width)]; the remainder truncates. *)
Definition floor_to (width u : Z) : Z := u - Z.rem (Z.rem u width + width) width.
Definition group_start (width : Z) (k : FlowKey) : option Z := floor_to width <$> unixepoch (fk_bucket k).

Definition eligible (child : string) (width : Z) (cut : string) (k : FlowKey) : bool :=
  bool_decide (fk_resolution k = child)
  && match group_start width k, unixepoch cut with
     | Some p, Some c => p + width <=? c
     | _, _ => false
     end.
Definition eligible_rows (child : string) (width : Z) (cut : string) (db : FlowDb) : list (FlowKey * FlowRow) :=
  List.filter (fun x => eligible child width cut (fst x)) (map_to_list (fd_rollups db)).

(** The oldest groups with the number of their rows. *)
Definition parents_of (width : Z) (rows : list (FlowKey * FlowRow)) : list Z :=
  vec_dedup (sort_by Z.compare (omap (fun x => group_start width (fst x)) rows)).
Definition count_in (width : Z) (rows : list (FlowKey * FlowRow)) (p : Z) : Z :=
  Z.of_nat (length (List.filter (fun x => bool_decide (group_start width (fst x) = Some p)) rows)).
Definition groups_of (width : Z) (rows : list (FlowKey * FlowRow)) : list (Z * Z) :=
  take MAX_COMPACTION_GROUPS (map (fun p => (p, count_in width rows p)) (parents_of width rows)).

(** The loop that extends the batch: the end of the last group that fits. *)
Fixpoint extend_batch (width batch rows batch_end : Z) (groups : list (Z * Z)) : result Z FlowStoreError :=
  match groups with
  | [] => Ok batch_end
  | (parent, count) :: groups' =>
    let? next := ok_or (checked_add_i64 rows count) FsOverflow in
    if batch <? next then Ok batch_end
    else
      let? batch_end := ok_or (checked_add_i64 parent width) FsOverflow in
      extend_batch width batch next batch_end groups'
  end.

(** The group that a row is summed into. *)
Definition parent_key (parent : string) (width : Z) (k : FlowKey) : option FlowKey :=
  p ← group_start width k; b ← strftime p;
  Some {| fk_resolution := parent; fk_bucket := b; fk_device_id := fk_device_id k; fk_protocol := fk_protocol k;
          fk_destination := fk_destination k; fk_interface := fk_interface k; fk_metadata_ip := fk_metadata_ip k;
          fk_metadata_domain := fk_metadata_domain k |}.

(** [SUM], which fails when it leaves 64 bits. *)
Fixpoint sql_sum (acc : Z) (l : list Z) : option Z :=
  match l with [] => Some acc | x :: l' => acc ← checked_add_i64 acc x; sql_sum acc l' end.
(** [CASE WHEN MIN(coverage)=MAX(coverage) THEN MIN(coverage) ELSE 'estimated' END] *)
Definition group_coverage (l : list string) : string :=
  match text_min l, text_max l with
  | Some a, Some b => if bool_decide (a = b) then a else "estimated"%string
  | _, _ => "estimated"%string
  end.

Definition members (parent : string) (width : Z) (rows : list (FlowKey * FlowRow)) (g : FlowKey) : list FlowRow :=
  map snd (List.filter (fun x => bool_decide (parent_key parent width (fst x) = Some g)) rows).
Definition aggregate_row (updated_at : string) (l : list FlowRow) : option FlowRow :=
  u ← sql_sum 0 (map fr_upload l); d ← sql_sum 0 (map fr_download l);
  Some {| fr_upload := u; fr_download := d; fr_coverage := group_coverage (map fr_coverage l); fr_updated_at := updated_at |}.

(** The groups with their sums, unless a text of a group is NULL or a sum overflows. *)
Definition group_keys (parent : string) (width : Z) (rows : list (FlowKey * FlowRow)) : list FlowKey :=
  elements (list_to_set (omap (fun x => parent_key parent width (fst x)) rows) : gset FlowKey).
Definition grouped (parent : string) (width : Z) (updated_at : string) (rows : list (FlowKey * FlowRow))
  : option (list (FlowKey * FlowRow)) :=
  if forallb (fun x => is_some_and (fun _ => true) (parent_key parent width (fst x))) rows
  then mapM (fun g => r ← aggregate_row updated_at (members parent width rows g); Some (g, r)) (group_keys parent width rows)
  else None.

Definition conflicts (db : FlowDb) (g : FlowKey * FlowRow) : bool :=
  is_some_and (fun p => negb (fr_upload p =? fr_upload (snd g)) || negb (fr_download p =? fr_download (snd g))
                        || bool_decide (fr_coverage p <> fr_coverage (snd g))) (fd_rollups db !! fst g).

Definition seal_key (child : string) (g : FlowKey) : FlowKey := {|
  fk_resolution := child; fk_bucket := fk_bucket g; fk_device_id := fk_device_id g; fk_protocol := fk_protocol g;
  fk_destination := fk_destination g; fk_interface := fk_interface g; fk_metadata_ip := fk_metadata_ip g;
  fk_metadata_domain := fk_metadata_domain g |}.

Definition level_names (seconds_to_minutes : bool) : string * Z * string :=
  if seconds_to_minutes then ("second"%string, 60, "minute"%string) else ("minute"%string, 3600, "hour"%string).

Definition aggregate (seconds_to_minutes : bool) (cut now : DateTime) (db : FlowDb) : result FlowDb FlowStoreError :=
  let '(child, width, parent) := level_names seconds_to_minutes in
  let rows := eligible_rows child width (to_rfc3339 cut) db in
  let? groups := ok_or (grouped parent width (to_rfc3339 now) rows) FsSql in
  if existsb (conflicts db) groups then Err FsCompactionConflict
  else Ok {| fd_devices := fd_devices db;
             fd_rollups := fd_rollups db ∪ list_to_map groups;
             fd_seals := fd_seals db ∪ list_to_set (map (fun g => seal_key child (fst g)) groups) |}.

(** One transaction of the loop: [None] when nothing is eligible, else the rows removed. *)
Definition compact_batch (seconds_to_minutes : bool) (cut now : DateTime) (batch : Z) (db : FlowDb)
  : result (option (Z * FlowDb)) FlowStoreError :=
  let '(child, width, _) := level_names seconds_to_minutes in
  match groups_of width (eligible_rows child width (to_rfc3339 cut) db) with
  | [] => Ok None
  | (first_parent, first_count) :: others =>
    let? first_end := ok_or (checked_add_i64 first_parent width) FsOverflow in
    let? batch_end := extend_batch width batch first_count first_end others in
    let? batch_cut := ok_or (from_timestamp batch_end) FsOverflow in
    let? db := aggregate seconds_to_minutes batch_cut now db in
    let gone := eligible_rows child width (to_rfc3339 batch_cut) db in
    Ok (Some (Z.of_nat (length gone),
              {| fd_devices := fd_devices db;
                 fd_rollups := filter (fun x => eligible child width (to_rfc3339 batch_cut) (fst x) = false) (fd_rollups db);
                 fd_seals := fd_seals db |}))
  end.

(** The loop; [faults] says which transactions the database fails, [None] that the fuel is used up.
    The result comes with the database that is then on disk and the number of transactions so far. *)
Fixpoint compact_level (fuel : nat) (faults : nat -> bool) (n : nat) (seconds_to_minutes : bool) (cut now : DateTime)
    (batch removed : Z) (db : FlowDb) : option (result Z FlowStoreError * FlowDb * nat) :=
  match fuel with
  | O => None
  | S fuel' =>
    if faults n then Some (Err FsSql, db, S n)
    else match compact_batch seconds_to_minutes cut now batch db with
         | Err e => Some (Err e, db, S n)
         | Ok None => Some (Ok removed, db, S n)
         | Ok (Some (deleted, db')) =>
           match checked_add_u64 removed deleted with
           | None => Some (Err FsOverflow, db', S n)
           | Some removed' =>
             if deleted =? 0 then Some (Ok removed', db', S n)
             else compact_level fuel' faults (S n) seconds_to_minutes cut now batch removed' db'
           end
         end
  end.

Definition compact (fuel : nat) (faults : nat -> bool) (now : DateTime) (p : CompactionPolicy) (db : FlowDb)
  : option (result Z FlowStoreError * FlowDb) :=
  match (let? _ := validate_compaction p in
         let? sec := ok_or (checked_sub_signed now (po_seconds p)) FsOverflow in
         let? min := ok_or (checked_sub_signed now (po_minutes p)) FsOverflow in
         let? batch := ok_or (if po_max_rows p <=? i64_max then Some (po_max_rows p) else None) FsOverflow in
         Ok (sec, min, batch)) with
  | Err e => Some (Err e, db)
  | Ok (sec, min, batch) =>
    '(r1, db1, n) ← compact_level fuel faults 0 true sec now batch 0 db;
    match r1 with
    | Err e => Some (Err e, db1)
    | Ok removed =>
      '(r2, db2, _) ← compact_level fuel faults n false min now batch 0 db1;
      match r2 with
      | Err e => Some (Err e, db2)
      | Ok more => Some (ok_or (checked_add_u64 removed more) FsOverflow, db2)
      end
    end
  end.

(** ** The ingestor *)
Record FlowIngestor := { in_repository : FlowRepository; in_live : FlowLiveAdapter }.
Definition ingestor_new (repository : FlowRepository) (live : LiveConfig) (max_live_rows : Z) : result FlowIngestor FlowStoreError :=
  match adapter_new live max_live_rows with
  | Ok a => Ok {| in_repository := repository; in_live := a |}
  | Err e => Err (FsLive e)
  end.

Definition ingestor_apply (fault : bool) (changes : list RollupChange) (tick_ms : Z) (now : DateTime) (st : FlowIngestor * FlowDb)
  : result (option BandwidthFrame) FlowStoreError * (FlowIngestor * FlowDb) :=
  let '(i, db) := st in
  match staged_payload (in_live i) tick_ms changes now with
  | Err e => (Err (FsLive e), st)
  | Ok (staged, payload) =>
    match store_apply fault (in_repository i) changes now db with
    | (Err e, db') => (Err e, (i, db'))
    | (Ok _, db') => (Ok payload, ({| in_repository := in_repository i; in_live := staged |}, db'))
    end
  end.

Definition flush_idle (tick_ms : Z) (now : DateTime) (i : FlowIngestor) : result (option BandwidthFrame) FlowStoreError * FlowIngestor :=
  match flush_payload (in_live i) tick_ms now with
  | Err e => (Err (FsLive e), i)
  | Ok (payload, a) => (Ok payload, {| in_repository := in_repository i; in_live := a |})
  end.
End Store.
