(* ===== verification/FlowStoreProps.v ===== *)
(** * Flow repository: theorems

    Compaction keeps every reported total, whatever statement fails on the way, ends, and removes
    exactly what is old enough; what it sealed does not come back; rows that were applied are read
    back. The documented behaviour of SQLite's date functions and of chrono's formats, for the years
    that SQLite knows, is the class [SqlTimeLaws]. *)

From stdpp Require Import sorting.
From S2P Require Import Prelude Order Time Text Bytes Domain Net NetProps Wire Flow FlowTheorems PolicyStore DoctorSettings Live FlowStore.

(** 0000-01-01T00:00:00Z and 9999-12-31T23:59:59Z *)
Definition sql_min : Z := -62167219200.
Definition sql_max : Z := 253402300799.
Definition in_sql (s : Z) : Prop := sql_min <= s <= sql_max.

Class SqlTimeLaws `{Calendar} `{SqlTime} : Prop := {
  epoch_of_secs : forall s, in_sql s -> unixepoch (rfc3339_secs (seconds s)) = Some s;
  secs_truncates : forall t, rfc3339_secs t = rfc3339_secs (seconds (timestamp t));
  strftime_secs : forall s, in_sql s -> strftime s = Some (rfc3339_secs (seconds s));
  epoch_of_time : forall t, in_sql (timestamp t) ->
    exists u, unixepoch (to_rfc3339 t) = Some u /\ timestamp t <= u <= timestamp t + 1 /\ (t mod 1000000000 = 0 -> u = timestamp t);
  epoch_mono : forall t t' u u', in_sql (timestamp t) -> in_sql (timestamp t') -> t <= t' ->
    unixepoch (to_rfc3339 t) = Some u -> unixepoch (to_rfc3339 t') = Some u' -> u <= u';
  secs_parse : forall s, in_sql s -> parse_from_rfc3339 (rfc3339_secs (seconds s)) = Some (seconds s);
  secs_order : forall s s', in_sql s -> in_sql s' -> s < s' -> String.compare (rfc3339_secs (seconds s)) (rfc3339_secs (seconds s')) = Lt;
  calendar_has_sql : cal_min <= seconds sql_min /\ seconds sql_max <= cal_max
}.

Lemma floor_to_div width u : 0 < width -> floor_to width u = u / width * width.
Proof.
  intros Hw. unfold floor_to. assert (Z.rem (Z.rem u width + width) width = u mod width) as ->.
  { rewrite (Z.rem_mod_nonneg (Z.rem u width + width)) by (pose proof (Z.rem_bound_abs u width); lia).
    rewrite <- (Zplus_mod_idemp_r width), Z_mod_same_full, Z.add_0_r.
    destruct (Z.le_ge_cases 0 u).
    - rewrite Z.rem_mod_nonneg by lia. apply Zmod_mod.
    - rewrite <- (Z.opp_involutive u) at 1. rewrite Z.rem_opp_l by lia. rewrite Z.rem_mod_nonneg by lia.
      rewrite <- (Z.opp_involutive u) at 2.
      apply Z.cong_iff_0. replace (- (- u mod width) - - - u) with (- u - (- u) mod width) by lia.
      apply Z.mod_divide; [lia|]. exists (- u / width). pose proof (Z.div_mod (- u) width). lia. }
  pose proof (Z.div_mod u width). lia.
Qed.

Lemma timestamp_of_seconds s : timestamp (seconds s) = s.
Proof. unfold timestamp, seconds. apply Z.div_mul. lia. Qed.

(** ** Sums over a table *)
Definition row_sum (f : FlowRow -> Z) (P : FlowKey -> bool) (m : gmap FlowKey FlowRow) : Z :=
  map_fold (fun k r acc => (if P k then f r else 0) + acc) 0 m.

Definition list_sum (l : list Z) : Z := fold_right Z.add 0 l.

Lemma list_sum_app l l' : list_sum (l ++ l') = list_sum l + list_sum l'.
Proof. induction l; simpl; lia. Qed.
Lemma list_sum_perm l l' : l ≡ₚ l' -> list_sum l = list_sum l'.
Proof. induction 1; simpl; lia. Qed.

Lemma row_sum_list f P m : row_sum f P m = list_sum (map (fun x => f (snd x)) (List.filter (fun x => P (fst x)) (map_to_list m))).
Proof.
  unfold row_sum. rewrite map_fold_foldr. induction (map_to_list m) as [|[k r] l IH]; [done|].
  cbn [foldr List.filter fst]. rewrite IH. unfold uncurry; simpl. destruct (P k); simpl; lia.
Qed.

Lemma row_sum_insert_fresh f P m k r : m !! k = None -> row_sum f P (<[k := r]> m) = (if P k then f r else 0) + row_sum f P m.
Proof. intros Hk. unfold row_sum. apply (map_fold_insert_L (fun k r acc => (if P k then f r else 0) + acc)); [|done]. intros; lia. Qed.

Lemma row_sum_ext f P Q m : (forall k r, m !! k = Some r -> P k = Q k) -> row_sum f P m = row_sum f Q m.
Proof.
  induction m as [|k r m Hk IH] using map_ind; intros HPQ; [done|].
  rewrite !row_sum_insert_fresh by done. rewrite (HPQ k r) by apply lookup_insert_eq. rewrite IH; [done|].
  intros k' r' Hk'. apply (HPQ k' r'). rewrite lookup_insert_ne; [done|]. intros ->. congruence.
Qed.

Lemma row_sum_split f P Q m : row_sum f P m = row_sum f (fun k => P k && Q k) m + row_sum f (fun k => P k && negb (Q k)) m.
Proof.
  induction m as [|k r m Hk IH] using map_ind; [done|]. rewrite !row_sum_insert_fresh, IH by done.
  destruct (P k), (Q k); simpl; lia.
Qed.

Lemma row_sum_none f P m : (forall k r, m !! k = Some r -> P k = false) -> row_sum f P m = 0.
Proof.
  intros HP. rewrite (row_sum_ext f P (fun _ => false) m HP). clear HP.
  induction m as [|k r m Hk IH] using map_ind; [done|]. rewrite row_sum_insert_fresh by done. lia.
Qed.

Lemma row_sum_filter f P (Q : FlowKey -> bool) m :
  row_sum f P (filter (fun x => Q (fst x) = true) m) = row_sum f (fun k => P k && Q k) m.
Proof.
  induction m as [|k r m Hk IH] using map_ind; [done|]. rewrite row_sum_insert_fresh by done. destruct (Q k) eqn:HQ.
  - rewrite map_filter_insert_True by done. rewrite row_sum_insert_fresh by (apply map_lookup_filter_None; by left).
    rewrite IH. by rewrite andb_true_r.
  - rewrite map_filter_insert_False by (simpl; congruence). rewrite delete_id by done. rewrite IH, andb_false_r. lia.
Qed.

(** A union keeps the rows that are there. *)
Lemma row_sum_union f P m g : row_sum f P (m ∪ g) = row_sum f P m + row_sum f (fun k => P k && bool_decide (m !! k = None)) g.
Proof.
  induction g as [|k r g Hk IH] using map_ind.
  - rewrite map_union_empty. unfold row_sum at 3. rewrite map_fold_empty. lia.
  - rewrite (row_sum_insert_fresh _ _ g) by done. destruct (m !! k) as [r'|] eqn:Hm.
    + rewrite bool_decide_eq_false_2 by congruence. rewrite andb_false_r.
      assert (m ∪ <[k := r]> g = m ∪ g) as ->; [|lia].
      apply map_eq. intros i. rewrite !lookup_union. destruct (decide (i = k)) as [->|Hi]; [|by rewrite lookup_insert_ne].
      rewrite Hm, lookup_insert_eq, Hk. done.
    + rewrite bool_decide_eq_true_2 by done. rewrite andb_true_r. rewrite <- insert_union_r by done.
      rewrite row_sum_insert_fresh by (by rewrite lookup_union, Hm, Hk). lia.
Qed.

Definition one (r : FlowRow) : Z := 1.
Lemma row_sum_count P m : row_sum one P m = Z.of_nat (length (List.filter (fun x => P (fst x)) (map_to_list m))).
Proof. rewrite row_sum_list. induction (List.filter _ _) as [|x l IH]; [done|].
  cbn [length]. rewrite Nat2Z.inj_succ, <- IH. cbn [map list_sum fold_right]. unfold one at 1. unfold list_sum. lia. Qed.

(** Sums over groups are sums over the rows of the groups. *)
Lemma filter_disjoint_sum {A} (h : A -> Z) (P Q : A -> bool) l :
  (forall x, P x = true -> Q x = true -> False) ->
  list_sum (map h (List.filter (fun x => P x || Q x) l)) = list_sum (map h (List.filter P l)) + list_sum (map h (List.filter Q l)).
Proof.
  intros HPQ. induction l as [|x l IH]; [done|]. simpl. destruct (P x) eqn:HP, (Q x) eqn:HQ; simpl; try (rewrite IH; lia).
  exfalso. eauto.
Qed.

Lemma regroup {A G} `{EqDecision G} (h : A -> Z) (pk : A -> option G) (P : G -> bool) (keys : list G) (rows : list A) :
  NoDup keys ->
  list_sum (map (fun g => if P g then list_sum (map h (List.filter (fun x => bool_decide (pk x = Some g)) rows)) else 0) keys)
  = list_sum (map h (List.filter (fun x => is_some_and (fun g => P g && bool_decide (g ∈ keys)) (pk x)) rows)).
Proof.
  induction 1 as [|g keys Hg _ IH].
  - symmetry. rewrite filter_nothing; [done|]. apply Forall_forall. intros x _. destruct (pk x); [|done]. cbn [is_some_and].
    rewrite bool_decide_eq_false_2 by apply not_elem_of_nil. apply andb_false_r.
  - cbn [map list_sum fold_right]. unfold list_sum in IH at 1. rewrite IH. clear IH.
    transitivity (list_sum (map h (List.filter (fun x => (P g && bool_decide (pk x = Some g))
        || is_some_and (fun g => P g && bool_decide (g ∈ keys)) (pk x)) rows))).
    + rewrite filter_disjoint_sum.
      * f_equal. destruct (P g); simpl; [done|]. by rewrite filter_nothing by (by apply Forall_forall).
      * intros x [_ Hx%bool_decide_eq_true]%andb_true_iff. rewrite Hx. simpl. intros [_ ?%bool_decide_eq_true]%andb_true_iff. done.
    + f_equal. f_equal. apply filter_ext. intros x. destruct (pk x) as [g'|]; simpl; [|by rewrite andb_false_r].
      destruct (decide (g' = g)) as [->|Hne].
      * rewrite (bool_decide_eq_true_2 (Some g = Some g)) by done. rewrite (bool_decide_eq_false_2 (g ∈ keys)) by done.
        rewrite (bool_decide_eq_true_2 (g ∈ g :: keys)) by apply list_elem_of_here. by rewrite andb_false_r, orb_false_r.
      * rewrite (bool_decide_eq_false_2 (Some g' = Some g)) by congruence. rewrite andb_false_r. simpl. f_equal.
        apply bool_decide_ext. rewrite elem_of_cons. naive_solver.
Qed.

(** ** Parents *)
Definition is_res (r : Resolution) (k : FlowKey) : bool := bool_decide (fk_resolution k = res_s r).

Section Parents.
Context `{Calendar} `{DeviceText} `{SqlTime}.

Definition to_minute (k : FlowKey) : option FlowKey := parent_key "minute" 60 k.
Definition to_hour (k : FlowKey) : option FlowKey := parent_key "hour" 3600 k.
Definition below (up : FlowKey -> option FlowKey) (g k : FlowKey) : bool := bool_decide (up k = Some g).

(** What the table reports for a minute and for an hour: the row, or else what is below it. *)
Definition minute_total (f : FlowRow -> Z) (m : gmap FlowKey FlowRow) (g : FlowKey) : Z :=
  match m !! g with
  | Some r => f r
  | None => row_sum f (fun k => is_res Second k && below to_minute g k) m
  end.
Definition uncovered (m : gmap FlowKey FlowRow) (k : FlowKey) : bool :=
  is_none_or (fun g => bool_decide (m !! g = None)) (to_minute k).
Definition hour_total (f : FlowRow -> Z) (m : gmap FlowKey FlowRow) (g : FlowKey) : Z :=
  match m !! g with
  | Some r => f r
  | None => row_sum f (fun k => is_res Minute k && below to_hour g k) m
            + row_sum f (fun k => is_res Second k && below to_hour g k && uncovered m k) m
  end.

(** Every row has the text of a whole second of the years that SQLite knows. *)
Definition dated (k : FlowKey) : Prop := exists s, in_sql s /\ fk_bucket k = rfc3339_secs (seconds s).
Definition table_dated (m : gmap FlowKey FlowRow) : Prop := map_Forall (fun k _ => dated k) m.

Context `{!SqlTimeLaws}.

Lemma floor_in_sql width s : width = 60 \/ width = 3600 -> in_sql s -> in_sql (s / width * width).
Proof. unfold in_sql, sql_min, sql_max. intros [-> | ->] Hs; Z.div_mod_to_equations; lia. Qed.

Lemma group_start_dated width k s :
  width = 60 \/ width = 3600 -> in_sql s -> fk_bucket k = rfc3339_secs (seconds s) -> group_start width k = Some (s / width * width).
Proof. intros Hw Hs Hk. unfold group_start. rewrite Hk, epoch_of_secs by done. simpl. by rewrite floor_to_div by lia. Qed.

Definition rebase (parent bucket : string) (k : FlowKey) : FlowKey := {|
  fk_resolution := parent; fk_bucket := bucket; fk_device_id := fk_device_id k; fk_protocol := fk_protocol k;
  fk_destination := fk_destination k; fk_interface := fk_interface k; fk_metadata_ip := fk_metadata_ip k;
  fk_metadata_domain := fk_metadata_domain k |}.

Lemma parent_key_dated parent width k s :
  width = 60 \/ width = 3600 -> in_sql s -> fk_bucket k = rfc3339_secs (seconds s) ->
  parent_key parent width k = Some (rebase parent (rfc3339_secs (seconds (s / width * width))) k).
Proof.
  intros Hw Hs Hk. unfold parent_key. rewrite (group_start_dated width k s) by done. simpl.
  by rewrite strftime_secs by (by apply floor_in_sql).
Qed.

Lemma parent_key_start parent width k g :
  width = 60 \/ width = 3600 -> dated k -> parent_key parent width k = Some g ->
  exists p, group_start width k = Some p /\ in_sql p /\ p mod width = 0 /\ fk_bucket g = rfc3339_secs (seconds p) /\ fk_resolution g = parent.
Proof.
  intros Hw (s & Hs & Hk) Hg. rewrite (parent_key_dated parent width k s) in Hg by done. injection Hg as <-.
  exists (s / width * width). split; [by apply group_start_dated|]. split; [by apply floor_in_sql|].
  split; [|done]. destruct Hw as [-> | ->]; apply Z_mod_mult.
Qed.

Lemma same_group parent width k k' g :
  width = 60 \/ width = 3600 -> dated k -> dated k' -> parent_key parent width k = Some g -> parent_key parent width k' = Some g ->
  group_start width k = group_start width k'.
Proof.
  intros Hw Hk Hk' (p & -> & Hp & _ & Hb & _)%parent_key_start (p' & -> & Hp' & _ & Hb' & _)%parent_key_start; try done.
  f_equal. apply (f_equal unixepoch) in Hb, Hb'. rewrite epoch_of_secs in Hb, Hb' by done. congruence.
Qed.

(** The hour of a row is the hour of its minute. *)
Lemma to_hour_to_minute k g : dated k -> to_minute k = Some g -> dated g /\ to_hour g = to_hour k.
Proof.
  intros (s & Hs & Hk) Hg. unfold to_minute in Hg. rewrite (parent_key_dated "minute" 60 k s) in Hg by auto. injection Hg as <-.
  assert (in_sql (s / 60 * 60)) as Hs' by (apply floor_in_sql; auto).
  split; [by exists (s / 60 * 60)|]. unfold to_hour.
  rewrite (parent_key_dated "hour" 3600 k s) by auto.
  rewrite (parent_key_dated "hour" 3600 _ (s / 60 * 60)) by auto. f_equal. unfold rebase. simpl. f_equal. f_equal. f_equal.
  f_equal. Z.div_mod_to_equations. lia.
Qed.

(** ** Cuts *)
Lemma timestamp_mono t t' : t <= t' -> timestamp t <= timestamp t'.
Proof. intros. unfold timestamp. apply Z.div_le_mono; lia. Qed.

Lemma whole_cut s : in_sql s -> unixepoch (to_rfc3339 (seconds s)) = Some s.
Proof.
  intros Hs. destruct (epoch_of_time (seconds s)) as (u & Hu & _ & Hw); rewrite timestamp_of_seconds in *; [done|].
  rewrite Hu. f_equal. apply Hw. unfold seconds. apply Z_mod_mult.
Qed.

Lemma from_timestamp_sql s : in_sql s -> from_timestamp s = Some (seconds s).
Proof.
  intros Hs. pose proof calendar_has_sql. unfold from_timestamp.
  assert ((cal_min <=? seconds s) && (seconds s <=? cal_max) = true) as ->; [|done].
  unfold in_sql, seconds in *. apply andb_true_intro. split; apply Z.leb_le; lia.
Qed.

Lemma eligible_at child width cut c k :
  unixepoch cut = Some c ->
  eligible child width cut k = true <-> fk_resolution k = child /\ exists p, group_start width k = Some p /\ p + width <= c.
Proof.
  intros Hc. unfold eligible. rewrite Hc, andb_true_iff, bool_decide_eq_true.
  destruct (group_start width k) as [p|]; [rewrite Z.leb_le|]; naive_solver.
Qed.
End Parents.

(** ** One batch *)
Section Batch.
Context `{Calendar} `{DeviceText} `{SqlTime} `{!SqlTimeLaws}.

Lemma extend_batch_ok width batch rows batch_end groups e :
  extend_batch width batch rows batch_end groups = Ok e ->
  exists taken rest, groups = taken ++ rest /\
    ((taken = [] /\ e = batch_end)
     \/ (exists p c, last taken = Some (p, c) /\ e = p + width /\ rows + list_sum (map snd taken) <= batch)).
Proof.
  revert rows batch_end. induction groups as [|[p c] groups IH]; intros rows batch_end; simpl; [intros [= ->]; exists [], []; auto|].
  intros (next & Hn & Hk)%result_bind_ok. unfold checked_add_i64 in Hn. destruct (in_i64 (rows + c)); [|done]. injection Hn as <-.
  destruct (Z.ltb_spec batch (rows + c)); [injection Hk as ->; exists [], ((p, c) :: groups); auto|].
  apply result_bind_ok in Hk as (e' & He & Hk). unfold checked_add_i64 in He. destruct (in_i64 (p + width)); [|done]. injection He as <-.
  apply IH in Hk as (taken & rest & -> & Hk). exists ((p, c) :: taken), rest. split; [done|]. right.
  destruct Hk as [[-> ->]|(p' & c' & Hl & -> & Hs)].
  - exists p, c. split_and!; [done|done|unfold list_sum; simpl; lia].
  - exists p', c'. split_and!; [by rewrite last_cons, Hl|done|unfold list_sum in *; simpl in *; lia].
Qed.

(** The parents of the rows, and what the groups count. *)
Lemma parents_of_in width rows p : In p (parents_of width rows) <-> exists x, In x rows /\ group_start width (fst x) = Some p.
Proof.
  unfold parents_of. rewrite in_vec_dedup, in_sort_by, <- list_elem_of_In, list_elem_of_omap.
  setoid_rewrite list_elem_of_In. done.
Qed.
Lemma parents_of_sorted width rows : StronglySorted Z.lt (parents_of width rows).
Proof.
  pose proof (sort_dedup_strict Z.compare (omap (fun x : FlowKey * FlowRow => group_start width (fst x)) rows)) as Hs.
  revert Hs. fold (parents_of width rows). generalize (parents_of width rows). intros l. induction 1 as [|a l _ IH Ha]; constructor; [done|].
  eapply Forall_impl; [exact Ha|]. intros x Hx. by apply Z.compare_lt_iff.
Qed.

Lemma sorted_take_last l1 l2 p :
  StronglySorted Z.lt (l1 ++ l2) -> last l1 = Some p -> forall x, In x (l1 ++ l2) -> x <= p <-> In x l1.
Proof.
  intros (Hcross & Hleft & _)%StronglySorted_app (l & ->)%last_Some x Hx.
  apply StronglySorted_app in Hleft as (Hlp & _ & _). setoid_rewrite list_elem_of_In in Hcross. setoid_rewrite list_elem_of_In in Hlp.
  split; intros Hle.
  - apply in_app_iff in Hx as [Hx|Hx]; [done|]. exfalso. specialize (Hcross p x). rewrite in_app_iff in Hcross.
    specialize (Hcross (or_intror (or_introl eq_refl)) Hx). lia.
  - apply in_app_iff in Hle as [Hle|[<-|[]]]; [|lia]. specialize (Hlp x p Hle (or_introl eq_refl)). lia.
Qed.

Lemma list_sum_ones {A} (l : list A) : list_sum (map (fun _ => 1) l) = Z.of_nat (length l).
Proof. induction l as [|x l IH]; [done|]. unfold list_sum in *. cbn [map fold_right length]. lia. Qed.

(** The end of a batch: that of a non-empty prefix of the parents, which is one parent or fits. *)
Lemma batch_end_ok width batch rows p1 c1 others e :
  groups_of width rows = (p1, c1) :: others ->
  extend_batch width batch c1 (p1 + width) others = Ok e ->
  exists taken rest pl, parents_of width rows = taken ++ rest /\ last taken = Some pl /\ e = pl + width /\ (taken = [p1] \/ list_sum (map (count_in width rows) taken) <= batch).
Proof.
  unfold groups_of. intros Hg He.
  assert (exists tail, parents_of width rows = p1 :: map fst others ++ tail /\ c1 = count_in width rows p1 /\ others = map (fun p => (p, count_in width rows p)) (map fst others)) as (tail & Hp & Hc & Ho).
  { revert Hg. generalize MAX_COMPACTION_GROUPS. intros max.
    destruct (parents_of width rows) as [|p ps]; [by rewrite firstn_nil|]. destruct max as [|max]; [done|].
    cbn [map firstn]. rewrite firstn_map. intros [= -> <- <-]. exists (skipn max ps).
    rewrite !map_map. simpl. rewrite map_id. split_and!; [by rewrite firstn_skipn|done|done]. }
  apply extend_batch_ok in He as (taken & rest & Hr & He). rewrite Ho in Hr. apply map_eq_app in Hr as (t & r & Hf & Ht & _).
  rewrite Hf in Hp. destruct He as [[-> ->]|(p & c & Hl & -> & Hs)].
  - exists [p1], (t ++ r ++ tail), p1. rewrite Hp. apply map_eq_nil in Ht as ->. simpl. auto.
  - exists (p1 :: t), (r ++ tail), p. rewrite Hp. rewrite <- Ht in Hl, Hs. rewrite fmap_last in Hl.
    rewrite map_map in Hs. simpl in Hs. split_and!.
    + simpl. by rewrite <- (assoc_L (++)).
    + rewrite last_cons. destruct (last t); simplify_eq/=. done.
    + done.
    + right. change (count_in width rows p1 + list_sum (map (fun x => count_in width rows x) t) <= batch). lia.
Qed.

Lemma batch_rows child width cut c rows0 p1 c1 others batch e ecut :
  width = 60 \/ width = 3600 -> unixepoch cut = Some c -> unixepoch ecut = Some e ->
  let rows := List.filter (fun x => eligible child width cut (fst x)) rows0 in
  let gone := List.filter (fun x => eligible child width ecut (fst x)) rows0 in
  groups_of width rows = (p1, c1) :: others ->
  extend_batch width batch c1 (p1 + width) others = Ok e ->
  (forall k, eligible child width ecut k = true -> eligible child width cut k = true) /\ e <= c /\ (exists p, e = p + width /\ exists x, In x rows0 /\ group_start width (fst x) = Some p) /\ 0 < Z.of_nat (length gone) /\ (Z.of_nat (length gone) <= batch \/ exists p, forall x, In x gone -> group_start width (fst x) = Some p).
Proof.
  intros Hw Hc He rows gone Hg Hx. pose proof (batch_end_ok _ _ _ _ _ _ _ Hg Hx) as (taken & rest & pl & Hp & Hl & -> & Hb).
  pose proof (parents_of_sorted width rows) as Hs. rewrite Hp in Hs. pose proof (sorted_take_last taken rest pl Hs Hl) as Hle.
  assert (In pl (parents_of width rows)) as Hpl.
  { rewrite Hp. apply in_app_iff. left. apply last_Some in Hl as (l & ->). apply in_app_iff. right. by left. }
  apply parents_of_in in Hpl as (x & Hin & Hpx). apply filter_In in Hin as [Hin Hex].
  pose proof Hex as (Hres & p & Hp' & Hpc)%(eligible_at _ _ _ _ _ Hc). rewrite Hpx in Hp'. injection Hp' as <-.
  assert (forall k, eligible child width ecut k = true -> eligible child width cut k = true) as Hmono.
  { intros k (Hk & q & Hq & Hqe)%(eligible_at _ _ _ _ _ He). apply (eligible_at _ _ _ _ _ Hc). split; [done|]. exists q. split; [done|lia]. }
  assert (forall y, In y gone <-> In y rows /\ exists q, group_start width (fst y) = Some q /\ In q taken) as Hgone.
  { intros y. unfold gone, rows. rewrite !filter_In, (eligible_at _ _ _ _ _ He). split.
    - intros (Hy & Hk & q & Hq & Hqe). assert (eligible child width cut (fst y) = true) as Hcy.
      { apply Hmono, (eligible_at _ _ _ _ _ He). eauto. }
      split; [done|]. exists q. split; [done|]. apply Hle; [|lia]. rewrite <- Hp. apply parents_of_in. exists y. split; [|done]. by apply filter_In.
    - intros [[Hy Hcy] (q & Hq & Hqt)]. apply (eligible_at _ _ _ _ _ Hc) in Hcy as (Hk & _). split_and!; [done|done|]. exists q. split; [done|].
      apply Hle in Hqt; [lia|]. apply in_app_iff. by left. }
  split; [done|]. split; [done|]. split; [exists pl; eauto|]. split.
  { assert (In x gone) as Hxg.
    { apply filter_In. split; [done|]. apply (eligible_at _ _ _ _ _ He). split; [done|]. exists pl. split; [done|lia]. }
    destruct gone; [done|]. simpl. lia. }
  destruct Hb as [->|Hb].
  - right. exists p1. intros y (_ & q & Hq & [->|[]])%Hgone. done.
  - left. etrans; [|exact Hb]. apply Z.eq_le_incl.
    assert (Z.of_nat (length gone) = list_sum (map (fun _ => 1) (List.filter (fun y => is_some_and (fun q => true && bool_decide (q ∈ taken)) (group_start width (fst y))) rows))) as ->.
    { rewrite list_sum_ones. f_equal. unfold gone, rows. f_equal. clear - Hgone. unfold gone, rows in Hgone. clear gone rows.
      assert (forall y, In y rows0 -> eligible child width ecut (fst y) = eligible child width cut (fst y) && is_some_and (fun q => true && bool_decide (q ∈ taken)) (group_start width (fst y))) as Heq.
      { intros y Hy. specialize (Hgone y). rewrite !filter_In in Hgone. apply eq_true_iff_eq. rewrite andb_true_iff, is_some_and_true.
        setoid_rewrite bool_decide_eq_true. setoid_rewrite list_elem_of_In. naive_solver. }
      clear Hgone. induction rows0 as [|y l IH]; [done|]. cbn [List.filter].
      rewrite (Heq y) by (by left). destruct (eligible child width cut (fst y)); cbn [andb List.filter];
        [destruct (is_some_and _ _)|]; rewrite ?IH by (intros; apply Heq; by right); done. }
    rewrite <- regroup. 2: { apply StronglySorted_app in Hs as (_ & Hs & _). clear - Hs.
      induction Hs as [|q l _ IH Hq]; constructor; [|done]. rewrite list_elem_of_In. intros Hin. rewrite List.Forall_forall in Hq. specialize (Hq q Hin). lia. }
    f_equal. apply map_ext. intros q. unfold count_in. by rewrite list_sum_ones.
Qed.

(** What [grouped] returns: one row for each parent of a row, the sum of what is below it. *)
Lemma grouped_ok parent width at_ rows groups :
  grouped parent width at_ rows = Some groups ->
  NoDup (map fst groups) /\ map fst groups = group_keys parent width rows /\
  (forall x, In x rows -> exists g, parent_key parent width (fst x) = Some g) /\
  forall g r, In (g, r) groups -> aggregate_row at_ (members parent width rows g) = Some r.
Proof.
  unfold grouped. destruct (forallb _ rows) eqn:Hall; [|done]. intros Hm.
  assert (map fst groups = group_keys parent width rows /\
          forall g r, In (g, r) groups -> aggregate_row at_ (members parent width rows g) = Some r) as [Hk Hr].
  { apply mapM_Some in Hm. induction Hm as [|g [g' r'] l k Hg Hm IH]; [done|]. destruct IH as [IH1 IH2]. simpl in *.
    destruct (aggregate_row at_ (members parent width rows g)) as [r|] eqn:Ha; simplify_eq/=. split; [done|].
    intros g r [[= <- <-]|Hin]; [done|by apply IH2]. }
  split_and!; [|done| |done].
  - rewrite Hk. unfold group_keys. apply NoDup_elements.
  - intros x Hx. rewrite forallb_forall in Hall. specialize (Hall x Hx). apply is_some_and_true in Hall as (g & Hg & _). eauto.
Qed.

Lemma in_group_keys parent width rows g :
  g ∈ group_keys parent width rows <-> exists x, In x rows /\ parent_key parent width (fst x) = Some g.
Proof.
  unfold group_keys. rewrite elem_of_elements, elem_of_list_to_set, list_elem_of_omap. setoid_rewrite list_elem_of_In. done.
Qed.

Lemma groups_lookup (groups : list (FlowKey * FlowRow)) g r :
  NoDup (map fst groups) -> (list_to_map groups : gmap FlowKey FlowRow) !! g = Some r <-> In (g, r) groups.
Proof. intros Hn. rewrite <- list_elem_of_In. symmetry. by apply elem_of_list_to_map. Qed.

Lemma parent_key_res parent width k g : parent_key parent width k = Some g -> fk_resolution g = parent.
Proof. unfold parent_key. destruct (group_start width k) as [p|]; [simpl|done]. destruct (strftime p); [|done]. by intros [= <-]. Qed.

Lemma group_res parent width at_ rows groups g r :
  grouped parent width at_ rows = Some groups -> (list_to_map groups : gmap FlowKey FlowRow) !! g = Some r -> fk_resolution g = parent.
Proof.
  intros (Hn & Hk & _ & _)%grouped_ok Hg. apply groups_lookup in Hg; [|done]. apply (in_map fst) in Hg. rewrite Hk in Hg.
  apply list_elem_of_In, in_group_keys in Hg as (x & _ & Hx). by eapply parent_key_res.
Qed.

Record Level (child : string) (width : Z) (parent : string) : Prop := {
  lv_width : width = 60 \/ width = 3600;
  lv_ne : child <> parent }.
Lemma level_ok b child width parent : level_names b = (child, width, parent) -> Level child width parent.
Proof. destruct b; intros [= <- <- <-]; by split; auto. Qed.

(** The cut of a call, as SQLite reads it. *)
Definition cut_at (cut : DateTime) (c : Z) : Prop := unixepoch (to_rfc3339 cut) = Some c /\ c <= sql_max.

Record BatchDone (child : string) (width : Z) (parent : string) (at_ : string) (c batch : Z) (db db' : FlowDb) (n e : Z)
    (groups : list (FlowKey * FlowRow)) : Prop := {
  bd_end : in_sql e;
  bd_le : e <= c;
  bd_groups : grouped parent width at_ (eligible_rows child width (to_rfc3339 (seconds e)) db) = Some groups;
  bd_agrees : forall g r p, (list_to_map groups : gmap FlowKey FlowRow) !! g = Some r -> fd_rollups db !! g = Some p ->
              fr_upload p = fr_upload r /\ fr_download p = fr_download r /\ fr_coverage p = fr_coverage r;
  bd_rollups : fd_rollups db' = filter (fun x => eligible child width (to_rfc3339 (seconds e)) (fst x) = false)
                                       (fd_rollups db ∪ list_to_map groups);
  bd_seals : fd_seals db' = fd_seals db ∪ list_to_set (map (fun g => seal_key child (fst g)) groups);
  bd_devices : fd_devices db' = fd_devices db;
  bd_count : n = row_sum one (eligible child width (to_rfc3339 (seconds e))) (fd_rollups db);
  bd_some : 0 < n;
  bd_bound : n <= batch \/ exists p, forall k r, fd_rollups db !! k = Some r ->
             eligible child width (to_rfc3339 (seconds e)) k = true -> group_start width k = Some p }.

Lemma compact_batch_ok b child width parent cut c now batch db n db' :
  level_names b = (child, width, parent) -> table_dated (fd_rollups db) -> cut_at cut c ->
  compact_batch b cut now batch db = Ok (Some (n, db')) ->
  exists e groups, BatchDone child width parent (to_rfc3339 now) c batch db db' n e groups.
Proof.
  intros Hl Hd [Hc Hmax]. pose proof (level_ok _ _ _ _ Hl) as [Hw Hne]. unfold compact_batch, aggregate. rewrite Hl.
  destruct (groups_of width _) as [|[p1 c1] others] eqn:Hg; [done|].
  intros (e1 & He1 & Hk)%result_bind_ok. unfold checked_add_i64 in He1. destruct (in_i64 (p1 + width)); [|done]. injection He1 as <-.
  apply result_bind_ok in Hk as (e & He & Hk). apply result_bind_ok in Hk as (ecut & Hec & Hk).
  assert (in_sql e /\ e <= c) as [Hsql Hle].
  { unfold eligible_rows in Hg. pose proof (batch_end_ok _ _ _ _ _ _ _ Hg He) as (taken & rest & q & Hp & Hlast & -> & _).
    assert (In q (parents_of width (eligible_rows child width (to_rfc3339 cut) db))) as Hq.
    { unfold eligible_rows. rewrite Hp. apply in_app_iff. left. apply last_Some in Hlast as (l & ->). apply in_app_iff. right. by left. }
    apply parents_of_in in Hq as (x & Hx & Hq). apply filter_In in Hx as [Hx Hex].
    destruct x as [k r]. simpl in *. apply list_elem_of_In, elem_of_map_to_list in Hx.
    apply (eligible_at _ _ _ _ _ Hc) in Hex as (_ & q' & Hq' & Hqc). rewrite Hq in Hq'. injection Hq' as <-.
    destruct (Hd k r Hx) as (s & Hs & Hb). rewrite (group_start_dated width k s) in Hq by done. injection Hq as <-.
    pose proof (floor_in_sql width s Hw Hs) as Hf. unfold in_sql in *. lia. }
  unfold from_timestamp in Hec. destruct (_ && _); [|done]. injection Hec as <-.
  pose proof (batch_rows child width (to_rfc3339 cut) c (map_to_list (fd_rollups db)) p1 c1 others batch e (to_rfc3339 (seconds e))
                Hw Hc (whole_cut e Hsql) Hg He) as (_ & _ & _ & Hpos & Hbound).
  apply result_bind_ok in Hk as (db1 & Ha & Hk). apply result_bind_ok in Ha as (groups & Hgr & Ha).
  unfold ok_or in Hgr. destruct (grouped parent width (to_rfc3339 now) _) as [gs|] eqn:Hgs; [|done]. injection Hgr as ->.
  destruct (existsb (conflicts db) groups) eqn:Hcf; [done|]. injection Ha as <-. injection Hk as <- <-. exists e, groups.
  pose proof (grouped_ok _ _ _ _ _ Hgs) as (Hnd & _).
  assert (row_sum one (eligible child width (to_rfc3339 (seconds e))) (fd_rollups db ∪ list_to_map groups)
          = row_sum one (eligible child width (to_rfc3339 (seconds e))) (fd_rollups db)) as Hcount.
  { rewrite row_sum_union. rewrite (row_sum_none _ _ (list_to_map groups)); [lia|]. intros g r Hg'.
    apply (group_res _ _ _ _ _ _ _ Hgs) in Hg'. unfold eligible. rewrite (bool_decide_eq_false_2 (fk_resolution g = child)) by congruence. done. }
  split; simpl; try done.
  - intros g r p Hg' Hp. apply groups_lookup in Hg'; [|done]. apply existsb_false_forall in Hcf. rewrite List.Forall_forall in Hcf.
    specialize (Hcf _ Hg'). unfold conflicts in Hcf. simpl in Hcf. rewrite Hp in Hcf. simpl in Hcf. bprop.
    split_and!; [done|done|]. destruct (decide (fr_coverage p = fr_coverage r)); [done|exfalso]. eauto.
  - rewrite <- Hcount, row_sum_count. done.
  - rewrite <- row_sum_count in Hpos. unfold eligible_rows. simpl. rewrite <- row_sum_count, Hcount. done.
  - unfold eligible_rows. simpl. rewrite <- row_sum_count, Hcount, row_sum_count. destruct Hbound as [Hb|(p & Hb)]; [by left|right].
    exists p. intros k r Hk Hek. apply (Hb (k, r)). apply filter_In. split; [|done]. by apply list_elem_of_In, elem_of_map_to_list.
Qed.

Lemma compact_batch_none b child width parent cut c now batch db :
  level_names b = (child, width, parent) -> cut_at cut c -> compact_batch b cut now batch db = Ok None ->
  forall k r, fd_rollups db !! k = Some r -> eligible child width (to_rfc3339 cut) k = false.
Proof.
  intros Hl [Hc _]. unfold compact_batch. rewrite Hl. destruct (groups_of width _) as [|[p1 c1] others] eqn:Hg.
  2: { intros (? & _ & Hk)%result_bind_ok. apply result_bind_ok in Hk as (? & _ & Hk). apply result_bind_ok in Hk as (? & _ & Hk).
       by apply result_bind_ok in Hk as (? & _ & Hk). }
  intros _ k r Hk. destruct (eligible child width (to_rfc3339 cut) k) eqn:He; [|done]. exfalso.
  pose proof He as (_ & p & Hp & _)%(eligible_at _ _ _ _ _ Hc).
  assert (In p (parents_of width (eligible_rows child width (to_rfc3339 cut) db))) as Hin.
  { apply parents_of_in. exists (k, r). split; [|done]. apply filter_In. split; [|done]. by apply list_elem_of_In, elem_of_map_to_list. }
  unfold groups_of in Hg. destruct (parents_of _ _); [done|]. unfold MAX_COMPACTION_GROUPS in Hg. simpl in Hg. done.
Qed.
End Batch.

(** ** What a batch does to the totals *)
Lemma none_union {A} (o : option A) : None ∪ o = o.
Proof. by destruct o. Qed.
Lemma union_none {A} (o : option A) : o ∪ None = o.
Proof. by destruct o. Qed.

Section Conservation.
Context `{Calendar} `{DeviceText} `{SqlTime} `{!SqlTimeLaws}.

Definition counted (f : FlowRow -> Z) : Prop := f = fr_upload \/ f = fr_download.

Lemma sql_sum_some acc l s : sql_sum acc l = Some s -> s = acc + list_sum l.
Proof.
  revert acc. induction l as [|x l IH]; intros acc; simpl; [intros [= ->]; unfold list_sum; simpl; lia|].
  unfold checked_add_i64. destruct (in_i64 (acc + x)); simpl; [|done]. intros ->%IH. unfold list_sum. simpl. lia.
Qed.

Lemma aggregate_row_sum f at_ l r : counted f -> aggregate_row at_ l = Some r -> f r = list_sum (map f l).
Proof.
  intros Hf. unfold aggregate_row. destruct (sql_sum 0 (map fr_upload l)) as [u|] eqn:Hu; simpl; [|done].
  destruct (sql_sum 0 (map fr_download l)) as [d|] eqn:Hd; simpl; [|done]. intros [= <-].
  apply sql_sum_some in Hu, Hd. destruct Hf as [-> | ->]; simpl; lia.
Qed.

Lemma filter_twice {A} (P Q : A -> bool) l : List.filter P (List.filter Q l) = List.filter (fun x => Q x && P x) l.
Proof. induction l as [|x l IH]; simpl; [done|]. destruct (Q x); simpl; [destruct (P x)|]; by rewrite ?IH. Qed.

(** The sums of the new rows are sums over the rows that they were made of. *)
Lemma new_rows_sum f P parent width at_ E db groups :
  counted f ->
  grouped parent width at_ (List.filter (fun x => E (fst x)) (map_to_list (fd_rollups db))) = Some groups ->
  row_sum f P (list_to_map groups) = row_sum f (fun k => E k && is_some_and P (parent_key parent width k)) (fd_rollups db).
Proof.
  intros Hf Hg. set (rows := List.filter _ _) in *. pose proof (grouped_ok _ _ _ _ _ Hg) as (Hnd & Hk & _ & Hr).
  rewrite row_sum_list.
  transitivity (list_sum (map (fun x => if P (fst x) then f (snd x) else 0) groups)).
  { transitivity (list_sum (map (fun x => if P (fst x) then f (snd x) else 0) (map_to_list (list_to_map groups : gmap FlowKey FlowRow)))).
    - generalize (map_to_list (list_to_map groups : gmap FlowKey FlowRow)). intros l.
      induction l as [|[g r] l IH]; [done|]. simpl. destruct (P g); unfold list_sum in *; simpl; lia.
    - apply list_sum_perm, Permutation_map, map_to_list_to_map, Hnd. }
  transitivity (list_sum (map (fun g => if P g then list_sum (map (fun x => f (snd x))
      (List.filter (fun x => bool_decide (parent_key parent width (fst x) = Some g)) rows)) else 0) (map fst groups))).
  { rewrite map_map. f_equal. apply map_ext_in. intros [g r] Hin. simpl. destruct (P g); [|done].
    rewrite (aggregate_row_sum f _ _ _ Hf (Hr g r Hin)). unfold members. by rewrite map_map. }
  rewrite regroup by done. rewrite row_sum_list. f_equal. f_equal. unfold rows. rewrite filter_twice. apply filter_ext_in.
  intros x Hx. destruct (E (fst x)) eqn:HE; [|done]. simpl. destruct (parent_key parent width (fst x)) as [g|] eqn:Hp; [|done]. simpl.
  rewrite bool_decide_eq_true_2; [by rewrite andb_true_r|]. rewrite Hk. apply in_group_keys. exists x. split; [|done].
  by apply filter_In.
Qed.

Section Step.
Context (child : string) (width : Z) (parent at_ : string) (c batch n e : Z) (db db' : FlowDb) (groups : list (FlowKey * FlowRow)).
Context (Hlv : Level child width parent) (Hbd : BatchDone child width parent at_ c batch db db' n e groups)
        (Hd : table_dated (fd_rollups db)).
Let E := eligible child width (to_rfc3339 (seconds e)).
Let m := fd_rollups db.
Let gm : gmap FlowKey FlowRow := list_to_map groups.

Lemma step_eligible k : E k = true <-> fk_resolution k = child /\ exists p, group_start width k = Some p /\ p + width <= e.
Proof. apply eligible_at, whole_cut. eapply bd_end, Hbd. Qed.

Lemma step_lookup k : fk_resolution k <> child -> fd_rollups db' !! k = (m ∪ gm) !! k.
Proof.
  intros Hk. rewrite (bd_rollups _ _ _ _ _ _ _ _ _ _ _ Hbd). apply option_eq. intros r. rewrite map_lookup_filter_Some. simpl.
  split; [by intros []|]. intros Hr. split; [done|]. unfold eligible. by rewrite bool_decide_eq_false_2.
Qed.

Lemma step_group g r : gm !! g = Some r -> fk_resolution g = parent.
Proof. eapply group_res, bd_groups, Hbd. Qed.

Lemma step_sum f P :
  row_sum f P (fd_rollups db') = row_sum f (fun k => P k && negb (E k)) m
    + row_sum f (fun k => P k && negb (E k) && bool_decide (m !! k = None)) gm.
Proof.
  rewrite (bd_rollups _ _ _ _ _ _ _ _ _ _ _ Hbd). rewrite <- row_sum_union. fold m gm.
  rewrite <- row_sum_filter. f_equal. apply map_filter_ext. intros k r _. simpl. fold (E k). by rewrite negb_true_iff.
Qed.

Lemma step_new f P :
  counted f -> row_sum f P gm = row_sum f (fun k => E k && is_some_and P (parent_key parent width k)) m.
Proof. intros Hf. eapply (new_rows_sum f P parent width at_ E db); [done|]. exact (bd_groups _ _ _ _ _ _ _ _ _ _ _ Hbd). Qed.

(** A group has a row exactly when a row below it is old enough, and then all rows below it are. *)
Lemma step_group_iff g :
  is_Some (gm !! g) <-> exists k r, m !! k = Some r /\ E k = true /\ parent_key parent width k = Some g.
Proof.
  pose proof (bd_groups _ _ _ _ _ _ _ _ _ _ _ Hbd) as Hg. pose proof (grouped_ok _ _ _ _ _ Hg) as (Hnd & Hk & _).
  transitivity (g ∈ map fst groups).
  - split.
    + intros [r Hr]. apply groups_lookup in Hr; [|done]. apply list_elem_of_In. by apply (in_map fst) in Hr.
    + intros ([g' r] & -> & Hin)%list_elem_of_fmap. exists r. apply groups_lookup; [done|]. by apply list_elem_of_In.
  - rewrite Hk, in_group_keys. split.
    + intros ([k r] & Hin & Hp). apply filter_In in Hin as [Hin HE]. apply list_elem_of_In, elem_of_map_to_list in Hin. eauto.
    + intros (k & r & Hkr & HE & Hp). exists (k, r). split; [|done]. apply filter_In. split; [|done].
      by apply list_elem_of_In, elem_of_map_to_list.
Qed.

Lemma step_all_below g k r : is_Some (gm !! g) -> m !! k = Some r -> fk_resolution k = child -> parent_key parent width k = Some g -> E k = true.
Proof.
  intros (k' & r' & Hk' & HE & Hp')%step_group_iff Hk Hres Hp. apply step_eligible in HE as (_ & p & Hs & Hle).
  apply step_eligible. split; [done|]. exists p. split; [|done]. rewrite <- Hs.
  eapply (same_group parent width); [apply Hlv|eapply Hd; eassumption..|done|done].
Qed.

Lemma step_group_sum f g r :
  counted f -> gm !! g = Some r -> f r = row_sum f (fun k => bool_decide (fk_resolution k = child) && below (parent_key parent width) g k) m.
Proof.
  intros Hf Hg. transitivity (row_sum f (fun k => bool_decide (k = g)) gm).
  - rewrite <- (insert_delete_id gm g r Hg). rewrite row_sum_insert_fresh by apply lookup_delete_eq.
    rewrite bool_decide_eq_true_2 by done. rewrite (row_sum_none _ _ (delete g gm)); [lia|].
    intros k r' Hk. apply bool_decide_eq_false. intros ->. by rewrite lookup_delete_eq in Hk.
  - rewrite step_new by done. apply row_sum_ext. intros k r' Hk. unfold below.
    destruct (decide (parent_key parent width k = Some g)) as [Hp|Hp].
    + rewrite Hp. simpl. rewrite (bool_decide_eq_true_2 (g = g)), (bool_decide_eq_true_2 (Some g = Some g)), !andb_true_r by done.
      destruct (decide (fk_resolution k = child)) as [Hr|Hr].
      * rewrite bool_decide_eq_true_2 by done. eapply step_all_below; eauto.
      * rewrite bool_decide_eq_false_2 by done. apply not_true_iff_false. intros HE. by apply step_eligible in HE as [? _].
    + rewrite (bool_decide_eq_false_2 _ Hp), andb_false_r. destruct (parent_key parent width k) as [g'|]; simpl; [|by rewrite andb_false_r].
      rewrite bool_decide_eq_false_2 by congruence. apply andb_false_r.
Qed.

Lemma step_dated : table_dated (fd_rollups db').
Proof.
  intros k r. rewrite (bd_rollups _ _ _ _ _ _ _ _ _ _ _ Hbd). rewrite map_lookup_filter_Some. intros [Hk _].
  apply lookup_union_Some_raw in Hk as [Hk|[_ Hk]]; [by eapply Hd|].
  assert (is_Some (gm !! k)) as (k' & r' & Hk' & _ & Hp)%step_group_iff by eauto.
  apply parent_key_start in Hp as (p & _ & Hp & _ & Hb & _); [|apply Hlv|by eapply Hd]. by exists p.
Qed.
End Step.

Lemma level_second : Level "second" 60 "minute". Proof. by split; auto. Qed.
Lemma level_minute : Level "minute" 3600 "hour". Proof. by split; auto. Qed.

Lemma is_res_false r k s : fk_resolution k = s -> s <> res_s r -> is_res r k = false.
Proof. intros Hk Hs. apply bool_decide_eq_false. congruence. Qed.

Section Seconds.
Context (at_ : string) (c batch n e : Z) (db db' : FlowDb) (groups : list (FlowKey * FlowRow)).
Context (Hbd : BatchDone "second" 60 "minute" at_ c batch db db' n e groups) (Hd : table_dated (fd_rollups db)).
Let E := eligible "second" 60 (to_rfc3339 (seconds e)).
Let m := fd_rollups db.
Let gm : gmap FlowKey FlowRow := list_to_map groups.

Lemma seconds_minute_total f g : counted f -> fk_resolution g = "minute"%string -> minute_total f (fd_rollups db') g = minute_total f m g.
Proof.
  intros Hf Hg. unfold minute_total. rewrite (step_lookup _ _ _ _ _ _ _ _ _ _ _ Hbd) by (by rewrite Hg).
  fold m gm. rewrite lookup_union. destruct (m !! g) as [r|] eqn:Hm; [by destruct (gm !! g)|]. rewrite none_union.
  destruct (gm !! g) as [r|] eqn:Hgm.
  - rewrite (step_group_sum _ _ _ _ _ _ _ _ _ _ _ level_second Hbd Hd f g r Hf Hgm). done.
  - rewrite (step_sum _ _ _ _ _ _ _ _ _ _ _ Hbd). fold m gm E.
    rewrite (row_sum_none f _ gm).
    2: { intros k r Hk. apply (step_group _ _ _ _ _ _ _ _ _ _ _ Hbd) in Hk. by rewrite (is_res_false Second k _ Hk). }
    rewrite Z.add_0_r. apply row_sum_ext. intros k r Hk. destruct (E k) eqn:HE; [|by rewrite andb_true_r].
    rewrite andb_false_r. symmetry. apply andb_false_iff. right. apply bool_decide_eq_false. intros Hp.
    assert (is_Some (gm !! g)) as [? ?]; [|congruence]. apply (step_group_iff _ _ _ _ _ _ _ _ _ _ _ Hbd). exists k, r. done.
Qed.

Lemma seconds_hour_total f g : counted f -> fk_resolution g = "hour"%string -> hour_total f (fd_rollups db') g = hour_total f m g.
Proof.
  intros Hf Hg. unfold hour_total. rewrite (step_lookup _ _ _ _ _ _ _ _ _ _ _ Hbd) by (by rewrite Hg).
  fold m gm. rewrite lookup_union. destruct (gm !! g) as [r|] eqn:Hgm.
  { apply (step_group _ _ _ _ _ _ _ _ _ _ _ Hbd) in Hgm. congruence. }
  destruct (m !! g) as [r|] eqn:Hm; [done|]. simpl.
  rewrite !(step_sum _ _ _ _ _ _ _ _ _ _ _ Hbd). fold m gm E.
  rewrite (step_new _ _ _ _ _ _ _ _ _ _ _ Hbd f _ Hf). fold m E.
  rewrite (row_sum_none f _ gm).
  2: { intros k r Hk. apply (step_group _ _ _ _ _ _ _ _ _ _ _ Hbd) in Hk. by rewrite (is_res_false Second k _ Hk). }
  rewrite (row_sum_split f (fun k => is_res Second k && below to_hour g k && uncovered m k) E).
  assert (forall a b c a' b' c' : Z, a = a' -> b = b' -> c = c' -> a + b + (c + 0) = a' + (b' + c')) as Hsum by lia.
  apply Hsum; clear Hsum; apply row_sum_ext; intros k r Hk.
  - destruct (E k) eqn:HE; [|by rewrite andb_true_r]. apply (step_eligible _ _ _ _ _ _ _ _ _ _ _ Hbd) in HE as [Hr _].
    by rewrite (is_res_false Minute k _ Hr).
  - destruct (E k) eqn:HE; [|by rewrite andb_false_r]. rewrite andb_true_r. simpl.
    apply (step_eligible _ _ _ _ _ _ _ _ _ _ _ Hbd) in HE as [Hr _].
    assert (is_res Second k = true) as -> by (by apply bool_decide_eq_true). simpl. unfold uncovered. fold (to_minute k).
    destruct (Hd k r Hk) as (s & Hs & Hb). destruct (to_minute k) as [q|] eqn:Hq.
    2: { unfold to_minute in Hq. rewrite (parent_key_dated "minute" 60 k s) in Hq by auto. done. }
    simpl. destruct (to_hour_to_minute k q (Hd k r Hk) Hq) as [Hqd Hqh]. unfold below. rewrite Hqh.
    pose proof (parent_key_res _ _ _ _ Hq) as Hqr. assert (is_res Minute q = true) as -> by (by apply bool_decide_eq_true). simpl.
    assert (E q = false) as ->; [|by rewrite andb_true_r].
    apply not_true_iff_false. intros [Hqs _]%(step_eligible _ _ _ _ _ _ _ _ _ _ _ Hbd). congruence.
  - destruct (E k) eqn:HE; [by rewrite !andb_false_r|]. rewrite !andb_true_r.
    destruct (decide (fk_resolution k = "second"%string)) as [Hr|Hr].
    2: { unfold is_res. by rewrite (bool_decide_eq_false_2 (fk_resolution k = _)). }
    f_equal. unfold uncovered. destruct (to_minute k) as [q|] eqn:Hq; [|done]. simpl. apply bool_decide_ext.
    pose proof (parent_key_res _ _ _ _ Hq) as Hqr.
    rewrite (step_lookup _ _ _ _ _ _ _ _ _ _ _ Hbd) by (by rewrite Hqr). fold m gm. rewrite lookup_union_None.
    split; [by intros []|]. intros Hqm. split; [done|]. destruct (gm !! q) as [x|] eqn:Hx; [|done]. exfalso.
    assert (is_Some (gm !! q)) as His by eauto.
    pose proof (step_all_below _ _ _ _ _ _ _ _ _ _ _ level_second Hbd Hd q k r His Hk Hr Hq) as HE'. fold E in HE'. congruence.
Qed.
End Seconds.

Section Minutes.
Context (at_ : string) (c batch n e : Z) (db db' : FlowDb) (groups : list (FlowKey * FlowRow)).
Context (Hbd : BatchDone "minute" 3600 "hour" at_ c batch db db' n e groups) (Hd : table_dated (fd_rollups db)).
Let E := eligible "minute" 3600 (to_rfc3339 (seconds e)).
Let m := fd_rollups db.
Let gm : gmap FlowKey FlowRow := list_to_map groups.

(** Seconds in hours that are old enough: the first level leaves none. *)
Definition no_old_seconds (c : Z) (m : gmap FlowKey FlowRow) : Prop :=
  forall k r p, m !! k = Some r -> fk_resolution k = "second"%string -> group_start 3600 k = Some p -> c < p + 3600.

Lemma minutes_minute_total f g :
  fk_resolution g = "minute"%string -> E g = false -> minute_total f (fd_rollups db') g = minute_total f m g.
Proof.
  intros Hg HEg. unfold minute_total. rewrite (step_sum _ _ _ _ _ _ _ _ _ _ _ Hbd). fold m gm E.
  assert (fd_rollups db' !! g = m !! g) as ->.
  { rewrite (bd_rollups _ _ _ _ _ _ _ _ _ _ _ Hbd). fold m gm. apply option_eq. intros r. rewrite map_lookup_filter_Some. fold (E g).
    rewrite lookup_union. destruct (gm !! g) as [x|] eqn:Hx.
    { apply (step_group _ _ _ _ _ _ _ _ _ _ _ Hbd) in Hx. congruence. }
    rewrite union_none. naive_solver. }
  destruct (m !! g); [done|]. rewrite (row_sum_none f _ gm).
  2: { intros k r Hk. apply (step_group _ _ _ _ _ _ _ _ _ _ _ Hbd) in Hk. by rewrite (is_res_false Second k _ Hk). }
  rewrite Z.add_0_r. apply row_sum_ext. intros k r Hk. destruct (E k) eqn:HE; [|by rewrite andb_true_r].
  apply (step_eligible _ _ _ _ _ _ _ _ _ _ _ Hbd) in HE as [Hr _]. by rewrite (is_res_false Second k _ Hr).
Qed.

Lemma minutes_hour_total f g :
  no_old_seconds c m -> counted f -> fk_resolution g = "hour"%string -> hour_total f (fd_rollups db') g = hour_total f m g.
Proof.
  intros Hold Hf Hg. unfold hour_total. rewrite (step_lookup _ _ _ _ _ _ _ _ _ _ _ Hbd) by (by rewrite Hg).
  fold m gm. rewrite lookup_union. destruct (m !! g) as [r|] eqn:Hm; [by destruct (gm !! g)|]. rewrite none_union.
  assert (forall k r, m !! k = Some r -> is_Some (gm !! g) -> is_res Second k && below to_hour g k = false) as Hnone.
  { intros k r Hk (k' & r' & Hk' & HE & Hp')%(step_group_iff _ _ _ _ _ _ _ _ _ _ _ Hbd). apply andb_false_iff.
    destruct (decide (fk_resolution k = "second"%string)) as [Hr|Hr]; [right|by left; apply bool_decide_eq_false].
    apply bool_decide_eq_false. intros Hp. apply (step_eligible _ _ _ _ _ _ _ _ _ _ _ Hbd) in HE as (_ & p & Hs & Hle).
    rewrite <- (same_group "hour" 3600 k k' g (or_intror eq_refl) (Hd k r Hk) (Hd k' r' Hk') Hp Hp') in Hs.
    pose proof (Hold k r p Hk Hr Hs). pose proof (bd_le _ _ _ _ _ _ _ _ _ _ _ Hbd). lia. }
  destruct (gm !! g) as [r|] eqn:Hgm.
  - rewrite (step_group_sum _ _ _ _ _ _ _ _ _ _ _ level_minute Hbd Hd f g r Hf Hgm).
    rewrite (row_sum_none f (fun k => is_res Second k && below to_hour g k && uncovered m k)); [by rewrite Z.add_0_r|].
    intros k r' Hk. by rewrite (Hnone k r' Hk).
  - rewrite !(step_sum _ _ _ _ _ _ _ _ _ _ _ Hbd). fold m gm E. rewrite !(row_sum_none f _ gm).
    2,3: intros k r Hk; apply (step_group _ _ _ _ _ _ _ _ _ _ _ Hbd) in Hk; rewrite ?(is_res_false Second k _ Hk), ?(is_res_false Minute k _ Hk); done.
    rewrite !Z.add_0_r.
    assert (forall k r, m !! k = Some r -> E k = true -> below to_hour g k = false) as HnE.
    { intros k r Hk HE. apply bool_decide_eq_false. intros Hp. assert (is_Some (gm !! g)) as [? ?]; [|congruence].
      apply (step_group_iff _ _ _ _ _ _ _ _ _ _ _ Hbd). exists k, r. done. }
    f_equal; apply row_sum_ext; intros k r Hk; (destruct (E k) eqn:HE; [rewrite (HnE k r Hk HE); by rewrite ?andb_false_r, ?andb_false_l|]);
      rewrite andb_true_r; [done|].
    destruct (decide (below to_hour g k = true)) as [Hb|Hb%not_true_is_false]; [|by rewrite Hb, !andb_false_r].
    f_equal. unfold uncovered. destruct (to_minute k) as [q|] eqn:Hq; [|done]. simpl. apply bool_decide_ext.
    pose proof (parent_key_res _ _ _ _ Hq) as Hqr. destruct (to_hour_to_minute k q (Hd k r Hk) Hq) as [_ Hqh].
    rewrite (bd_rollups _ _ _ _ _ _ _ _ _ _ _ Hbd). fold m gm. split; intros Hn.
    + apply map_lookup_filter_None in Hn as [[Hn _]%lookup_union_None|Hn]; [done|]. destruct (m !! q) as [x|] eqn:Hx; [|done]. exfalso.
      specialize (Hn x). rewrite lookup_union, Hx in Hn. unfold m in Hb.
      assert (E q = true) as HEq.
      { destruct (E q) eqn:HEq; [done|]. exfalso. apply Hn; [by destruct (gm !! q)|done]. }
      specialize (HnE q x Hx HEq). apply bool_decide_eq_false in HnE. apply bool_decide_eq_true in Hb. congruence.
    + apply map_lookup_filter_None. left. apply lookup_union_None. split; [done|]. destruct (gm !! q) as [x|] eqn:Hx; [|done].
      apply (step_group _ _ _ _ _ _ _ _ _ _ _ Hbd) in Hx. congruence.
Qed.
End Minutes.
End Conservation.

(** ** Levels *)
Section Levels.
Context `{Calendar} `{DeviceText} `{SqlTime} `{!SqlTimeLaws}.

Definition batch_step (child : string) (width : Z) (parent : string) (c batch : Z) (db db' : FlowDb) : Prop :=
  exists at_ n e groups, BatchDone child width parent at_ c batch db db' n e groups.

Definition old (child : string) (width : Z) (cut : DateTime) (db : FlowDb) : Z :=
  row_sum one (eligible child width (to_rfc3339 cut)) (fd_rollups db).

Lemma row_sum_one_nonneg P m : 0 <= row_sum one P m.
Proof. rewrite row_sum_count. lia. Qed.

Lemma batch_old child width parent at_ cut c batch db db' n e groups :
  Level child width parent -> cut_at cut c -> BatchDone child width parent at_ c batch db db' n e groups ->
  old child width cut db' = old child width cut db - n.
Proof.
  intros [Hw Hne] [Hc _] Hbd. unfold old. rewrite (step_sum _ _ _ _ _ _ _ _ _ _ _ Hbd).
  rewrite (row_sum_none one _ (list_to_map groups)).
  2: { intros k r Hk. apply (step_group _ _ _ _ _ _ _ _ _ _ _ Hbd) in Hk. unfold eligible.
       by rewrite (bool_decide_eq_false_2 (fk_resolution k = child)) by congruence. }
  rewrite (row_sum_split one (eligible child width (to_rfc3339 cut)) (eligible child width (to_rfc3339 (seconds e))) (fd_rollups db)).
  rewrite (bd_count _ _ _ _ _ _ _ _ _ _ _ Hbd).
  rewrite (row_sum_ext one (fun k => eligible child width (to_rfc3339 cut) k && eligible child width (to_rfc3339 (seconds e)) k)
             (eligible child width (to_rfc3339 (seconds e)))); [lia|].
  intros k r _. destruct (eligible child width (to_rfc3339 (seconds e)) k) eqn:HE; [|apply andb_false_r]. rewrite andb_true_r.
  apply (step_eligible _ _ _ _ _ _ _ _ _ _ _ Hbd) in HE as (Hr & p & Hp & Hle). apply (eligible_at _ _ _ _ _ Hc).
  split; [done|]. exists p. split; [done|]. pose proof (bd_le _ _ _ _ _ _ _ _ _ _ _ Hbd). lia.
Qed.

Lemma level_run child width parent b fuel faults k cut c now batch removed db res db' k' :
  level_names b = (child, width, parent) -> cut_at cut c -> table_dated (fd_rollups db) ->
  compact_level fuel faults k b cut now batch removed db = Some (res, db', k') ->
  rtc (batch_step child width parent c batch) db db' /\
  forall n, res = Ok n -> n = removed + old child width cut db /\ old child width cut db' = 0.
Proof.
  intros Hl Hcut. pose proof (level_ok _ _ _ _ Hl) as Hlv. revert k removed db. induction fuel as [|fuel IH]; intros k removed db Hd; [done|].
  simpl. destruct (faults k); [intros [= <- <- <-]; by split|].
  destruct (compact_batch b cut now batch db) as [[[n db1]|]|err] eqn:Hb; [|intros [= <- <- <-]|intros [= <- <- <-]; by split].
  2: { split; [done|]. intros n [= <-]. assert (old child width cut db = 0) as H0'; [|lia].
       apply row_sum_none. by eapply compact_batch_none. }
  pose proof (compact_batch_ok b child width parent cut c now batch db n db1 Hl Hd Hcut Hb) as (e & groups & Hbd).
  pose proof (batch_old _ _ _ _ _ _ _ _ _ _ _ _ Hlv Hcut Hbd) as Hold. pose proof (bd_some _ _ _ _ _ _ _ _ _ _ _ Hbd) as Hpos.
  assert (batch_step child width parent c batch db db1) as Hstep by (do 4 eexists; exact Hbd).
  destruct (checked_add_u64 removed n) as [removed'|] eqn:Ha; [|intros [= <- <- <-]; split; [by apply rtc_once|done]].
  apply checked_add_u64_some in Ha as [-> _]. destruct (Z.eqb_spec n 0); [lia|].
  intros Hrun. apply IH in Hrun as [Hrtc Hok]; [|by eapply step_dated]. split; [by eapply rtc_l|].
  intros m Hm. destruct (Hok m Hm) as [-> ->]. lia.
Qed.

(** Every batch removes a row, so one unit of fuel per row and one more suffice. *)
Lemma level_ends child width parent b fuel faults k cut c now batch removed db :
  level_names b = (child, width, parent) -> cut_at cut c -> table_dated (fd_rollups db) ->
  old child width cut db < Z.of_nat fuel -> is_Some (compact_level fuel faults k b cut now batch removed db).
Proof.
  intros Hl Hcut. pose proof (level_ok _ _ _ _ Hl) as Hlv. revert k removed db. induction fuel as [|fuel IH]; intros k removed db Hd Hf.
  { pose proof (row_sum_one_nonneg (eligible child width (to_rfc3339 cut)) (fd_rollups db)). unfold old in Hf. lia. }
  simpl. destruct (faults k); [by eexists|].
  destruct (compact_batch b cut now batch db) as [[[n db1]|]|err] eqn:Hb; [|by eexists|by eexists].
  pose proof (compact_batch_ok b child width parent cut c now batch db n db1 Hl Hd Hcut Hb) as (e & groups & Hbd).
  pose proof (batch_old _ _ _ _ _ _ _ _ _ _ _ _ Hlv Hcut Hbd). pose proof (bd_some _ _ _ _ _ _ _ _ _ _ _ Hbd).
  destruct (checked_add_u64 removed n) as [removed'|]; [|by eexists]. destruct (n =? 0); [by eexists|].
  apply IH; [by eapply step_dated|lia].
Qed.

(** ** Invariants of the steps *)
Lemma steps_dated child width parent c batch db db' :
  Level child width parent -> rtc (batch_step child width parent c batch) db db' -> table_dated (fd_rollups db) -> table_dated (fd_rollups db').
Proof. intros Hl. induction 1 as [|db db1 db' (at_ & n & e & groups & Hbd) _ IH]; [done|]. intros Hd. apply IH. by eapply step_dated. Qed.

Lemma steps_rows child width parent c batch db db' k :
  rtc (batch_step child width parent c batch) db db' -> fk_resolution k <> child -> fk_resolution k <> parent ->
  fd_rollups db' !! k = fd_rollups db !! k.
Proof.
  intros Hrtc Hc Hp. induction Hrtc as [|db db1 db' (at_ & n & e & groups & Hbd) _ IH]; [done|]. rewrite IH.
  rewrite (step_lookup _ _ _ _ _ _ _ _ _ _ _ Hbd) by done. rewrite lookup_union.
  destruct ((list_to_map groups : gmap FlowKey FlowRow) !! k) as [x|] eqn:Hx; [|apply union_none].
  apply (step_group _ _ _ _ _ _ _ _ _ _ _ Hbd) in Hx. congruence.
Qed.

(** A row that is not old enough is not touched. *)
Lemma steps_young child width parent cut c batch db db' k :
  cut_at cut c -> Level child width parent -> rtc (batch_step child width parent c batch) db db' ->
  fk_resolution k = child -> eligible child width (to_rfc3339 cut) k = false -> fd_rollups db' !! k = fd_rollups db !! k.
Proof.
  intros [Hc _] [_ Hne] Hrtc Hk Hy. induction Hrtc as [|db db1 db' (at_ & n & e & groups & Hbd) _ IH]; [done|]. rewrite IH.
  rewrite (bd_rollups _ _ _ _ _ _ _ _ _ _ _ Hbd). apply option_eq. intros r. rewrite map_lookup_filter_Some, lookup_union. simpl.
  destruct ((list_to_map groups : gmap FlowKey FlowRow) !! k) as [x|] eqn:Hx.
  { apply (step_group _ _ _ _ _ _ _ _ _ _ _ Hbd) in Hx. congruence. }
  rewrite union_none. split; [by intros []|]. intros Hr. split; [done|]. apply not_true_iff_false.
  intros (_ & p & Hp & Hle)%(step_eligible _ _ _ _ _ _ _ _ _ _ _ Hbd). apply not_true_iff_false in Hy. apply Hy.
  apply (eligible_at _ _ _ _ _ Hc). split; [done|]. exists p. split; [done|]. pose proof (bd_le _ _ _ _ _ _ _ _ _ _ _ Hbd). lia.
Qed.

Lemma seconds_steps f c batch db db' :
  counted f -> rtc (batch_step "second" 60 "minute" c batch) db db' -> table_dated (fd_rollups db) ->
  (forall g, fk_resolution g = "minute"%string -> minute_total f (fd_rollups db') g = minute_total f (fd_rollups db) g) /\
  (forall g, fk_resolution g = "hour"%string -> hour_total f (fd_rollups db') g = hour_total f (fd_rollups db) g).
Proof.
  intros Hf. induction 1 as [|db db1 db' (at_ & n & e & groups & Hbd) _ IH]; [done|]. intros Hd.
  destruct IH as [IHm IHh]; [eapply step_dated; [apply level_second|done..]|]. split; intros g Hg.
  - rewrite IHm by done. by eapply seconds_minute_total.
  - rewrite IHh by done. by eapply seconds_hour_total.
Qed.

Lemma minutes_steps f cut c batch db db' :
  counted f -> cut_at cut c -> rtc (batch_step "minute" 3600 "hour" c batch) db db' -> table_dated (fd_rollups db) ->
  no_old_seconds c (fd_rollups db) ->
  (forall g, fk_resolution g = "minute"%string -> eligible "minute" 3600 (to_rfc3339 cut) g = false ->
     minute_total f (fd_rollups db') g = minute_total f (fd_rollups db) g) /\
  (forall g, fk_resolution g = "hour"%string -> hour_total f (fd_rollups db') g = hour_total f (fd_rollups db) g).
Proof.
  intros Hf [Hc Hmax]. induction 1 as [|db db1 db' (at_ & n & e & groups & Hbd) Hrtc IH]; [done|]. intros Hd Hold.
  destruct IH as [IHm IHh].
  - eapply step_dated; [apply level_minute|done..].
  - intros k r p Hk Hr Hp. assert (fd_rollups db1 !! k = fd_rollups db !! k) as Heq.
    { eapply (steps_rows "minute" 3600 "hour" c batch); [apply rtc_once; do 4 eexists; exact Hbd|by rewrite Hr|by rewrite Hr]. }
    rewrite Heq in Hk. by eapply Hold.
  - split; intros g Hg.
    + intros Hy. rewrite IHm by done. eapply minutes_minute_total; [done|done|]. apply not_true_iff_false.
      intros (_ & p & Hp & Hle)%(step_eligible _ _ _ _ _ _ _ _ _ _ _ Hbd). apply not_true_iff_false in Hy. apply Hy.
      apply (eligible_at _ _ _ _ _ Hc). split; [done|]. exists p. split; [done|]. pose proof (bd_le _ _ _ _ _ _ _ _ _ _ _ Hbd). lia.
    + rewrite IHh by done. by eapply minutes_hour_total.
Qed.
End Levels.

Section Compaction.
Context `{Calendar} `{DeviceText} `{SqlTime} `{!SqlTimeLaws}.

(** The years of the clock that the dates of SQLite can hold. *)
Definition now_ok (now : DateTime) (p : CompactionPolicy) : Prop :=
  sql_min <= timestamp (now - po_minutes p) /\ timestamp now < sql_max.

Lemma validate_compaction_ok p : validate_compaction p = Ok tt -> 0 < po_seconds p /\ po_seconds p <= po_minutes p.
Proof. unfold validate_compaction. destruct (_ || _) eqn:Hv; [done|]. bprop. lia. Qed.

Lemma cut_exists now d p : now_ok now p -> 0 < d <= po_minutes p -> exists c, cut_at (now - d) c.
Proof.
  intros [Hmin Hmax] Hd. pose proof (timestamp_mono (now - po_minutes p) (now - d)).
  pose proof (timestamp_mono (now - d) now). destruct (epoch_of_time (now - d)) as (u & Hu & Hb & _); [unfold in_sql; lia|].
  exists u. split; [done|lia].
Qed.

(** The two levels of a call. *)
Lemma compact_inv fuel faults now p db r db' :
  now_ok now p -> table_dated (fd_rollups db) -> compact fuel faults now p db = Some (r, db') ->
  db' = db /\ (exists e, r = Err e)
  \/ validate_compaction p = Ok tt /\ exists c1 c2 db1, cut_at (now - po_seconds p) c1 /\ cut_at (now - po_minutes p) c2 /\ c2 <= c1 /\
     rtc (batch_step "second" 60 "minute" c1 (po_max_rows p)) db db1 /\
     ((db' = db1 /\ exists e, r = Err e)
      \/ old "second" 60 (now - po_seconds p) db1 = 0 /\ rtc (batch_step "minute" 3600 "hour" c2 (po_max_rows p)) db1 db' /\
         forall n, r = Ok n -> old "minute" 3600 (now - po_minutes p) db' = 0 /\
           n = old "second" 60 (now - po_seconds p) db + old "minute" 3600 (now - po_minutes p) db1).
Proof.
  intros Hnow Hd. unfold compact. destruct (validate_compaction p) as [[]|e] eqn:Hv; [|intros [= <- <-]; left; eauto]. simpl.
  pose proof (validate_compaction_ok p Hv) as [Hs Hm].
  destruct (cut_exists now (po_seconds p) p Hnow) as (c1 & Hc1); [lia|]. destruct (cut_exists now (po_minutes p) p Hnow) as (c2 & Hc2); [lia|].
  destruct (ok_or (checked_sub_signed now (po_seconds p)) FsOverflow) as [sec|e] eqn:E1; [|intros [= <- <-]; left; eauto]. simpl.
  destruct (ok_or (checked_sub_signed now (po_minutes p)) FsOverflow) as [min|e] eqn:E2; [|intros [= <- <-]; left; eauto]. simpl.
  unfold checked_sub_signed, checked_add_signed in E1, E2.
  destruct ((cal_min <=? now + - po_seconds p) && _); [|done]. destruct ((cal_min <=? now + - po_minutes p) && _); [|done].
  injection E1 as <-. injection E2 as <-. rewrite !Z.add_opp_r.
  destruct (po_max_rows p <=? i64_max); [simpl|intros [= <- <-]; left; eauto].
  destruct (compact_level fuel faults 0 true _ _ _ _ _) as [[[r1 db1] k]|] eqn:L1; [|done]. simpl.
  pose proof (level_run "second" 60 "minute" true _ _ _ _ c1 _ _ _ _ _ _ _ eq_refl Hc1 Hd L1) as [Hr1 Ho1].
  assert (c2 <= c1) as Hle.
  { destruct Hnow, Hc1 as [Hu1 _], Hc2 as [Hu2 _]. eapply (epoch_mono (now - po_minutes p) (now - po_seconds p)); [| |lia|done|done].
    - unfold in_sql. pose proof (timestamp_mono (now - po_minutes p) now). lia.
    - unfold in_sql. pose proof (timestamp_mono (now - po_minutes p) (now - po_seconds p)). pose proof (timestamp_mono (now - po_seconds p) now). lia. }
  destruct r1 as [n1|e]; [|intros [= <- <-]; right; split; [done|]; exists c1, c2, db1; split_and!; try done; left; eauto].
  destruct (Ho1 n1 eq_refl) as [Hn1 Hz1].
  destruct (compact_level fuel faults k false _ _ _ _ _) as [[[r2 db2] k2]|] eqn:L2; [|done]. simpl.
  assert (table_dated (fd_rollups db1)) as Hd1 by (eapply steps_dated; [apply level_second|done..]).
  pose proof (level_run "minute" 3600 "hour" false _ _ _ _ c2 _ _ _ _ _ _ _ eq_refl Hc2 Hd1 L2) as [Hr2 Ho2].
  intros Hres. right. split; [done|]. exists c1, c2, db1. split_and!; try done. right.
  destruct r2 as [n2|e]; injection Hres as <- <-; split_and!; try done.
  intros n Hn. destruct (Ho2 n2 eq_refl) as [-> ->]. split; [done|]. unfold ok_or in Hn.
  destruct (checked_add_u64 n1 _) as [x|] eqn:Ha; [|done]. injection Hn as <-. apply checked_add_u64_some in Ha as [-> _]. lia.
Qed.

Lemma no_old_seconds_after now p c1 c2 db :
  cut_at (now - po_seconds p) c1 -> c2 <= c1 -> table_dated (fd_rollups db) -> old "second" 60 (now - po_seconds p) db = 0 ->
  no_old_seconds c2 (fd_rollups db).
Proof.
  intros [Hc1 _] Hle Hd Hz k r q Hk Hres Hq. destruct (Z_lt_le_dec c2 (q + 3600)) as [|Hold]; [done|exfalso].
  destruct (Hd k r Hk) as (s & Hs & Hb). rewrite (group_start_dated 3600 k s) in Hq by auto. injection Hq as <-.
  assert (eligible "second" 60 (to_rfc3339 (now - po_seconds p)) k = true) as He.
  { apply (eligible_at _ _ _ _ _ Hc1). split; [done|]. exists (s / 60 * 60). split; [apply group_start_dated; auto|].
    Z.div_mod_to_equations. lia. }
  unfold old in Hz. rewrite row_sum_count in Hz.
  assert (In (k, r) (List.filter (fun x => eligible "second" 60 (to_rfc3339 (now - po_seconds p)) (fst x)) (map_to_list (fd_rollups db)))) as Hin.
  { apply filter_In. split; [|done]. by apply list_elem_of_In, elem_of_map_to_list. }
  destruct (List.filter _ _); [done|simpl in Hz; lia].
Qed.

(** C32. Compaction keeps the history: whatever the call returns, and whichever transaction the
    database fails, the bytes of every hour are afterwards what they were, those of every minute of
    an hour that is not past the retention of minutes too, and no second that is younger than
    the retention of seconds changes. The bytes of an hour are its row or else its minutes and the
    seconds no minute stands for. *)
Theorem compaction_keeps_totals fuel faults now p db r db' f :
  now_ok now p -> table_dated (fd_rollups db) -> counted f ->
  compact fuel faults now p db = Some (r, db') ->
  (forall g, fk_resolution g = "hour"%string -> hour_total f (fd_rollups db') g = hour_total f (fd_rollups db) g) /\
  (forall g, fk_resolution g = "minute"%string -> eligible "minute" 3600 (to_rfc3339 (now - po_minutes p)) g = false ->
     minute_total f (fd_rollups db') g = minute_total f (fd_rollups db) g) /\
  (forall k, fk_resolution k = "second"%string -> eligible "second" 60 (to_rfc3339 (now - po_seconds p)) k = false ->
     fd_rollups db' !! k = fd_rollups db !! k).
Proof.
  intros Hnow Hd Hf [[-> _]|(Hv & c1 & c2 & db1 & Hc1 & Hc2 & Hle & Hr1 & Hrest)]%compact_inv; [by split_and!| |done|done].
  pose proof (seconds_steps f c1 _ db db1 Hf Hr1 Hd) as [Hm1 Hh1].
  assert (table_dated (fd_rollups db1)) as Hd1 by (eapply steps_dated; [apply level_second|done..]).
  assert (forall k, fk_resolution k = "second"%string -> eligible "second" 60 (to_rfc3339 (now - po_seconds p)) k = false ->
            fd_rollups db1 !! k = fd_rollups db !! k) as Hy1 by (intros; by eapply (steps_young _ _ _ _ _ _ _ _ _ Hc1 level_second Hr1)).
  destruct Hrest as [[-> _]|(Hz & Hr2 & _)]; [by split_and!; eauto|].
  pose proof (no_old_seconds_after now p c1 c2 db1 Hc1 Hle Hd1 Hz) as Hno.
  pose proof (minutes_steps f _ c2 _ db1 db' Hf Hc2 Hr2 Hd1 Hno) as [Hm2 Hh2]. split_and!.
  - intros g Hg. by rewrite Hh2, Hh1.
  - intros g Hg Hy. by rewrite Hm2, Hm1.
  - intros k Hk Hy. rewrite <- Hy1 by done. eapply steps_rows; [done|by rewrite Hk|by rewrite Hk].
Qed.

Lemma old_zero child width cut db k r :
  old child width cut db = 0 -> fd_rollups db !! k = Some r -> eligible child width (to_rfc3339 cut) k = false.
Proof.
  unfold old. rewrite row_sum_count. intros Hz Hk. destruct (eligible child width (to_rfc3339 cut) k) eqn:He; [exfalso|done].
  assert (In (k, r) (List.filter (fun x => eligible child width (to_rfc3339 cut) (fst x)) (map_to_list (fd_rollups db)))) as Hin.
  { apply filter_In. split; [|done]. by apply list_elem_of_In, elem_of_map_to_list. }
  destruct (List.filter _ _); [done|simpl in Hz; lia].
Qed.

(** A batch never makes the table longer. *)
Lemma list_set_size (l : list FlowKey) : (size (list_to_set l : gset FlowKey) <= length l)%nat.
Proof.
  induction l as [|g l IH]; [done|]. cbn [list_to_set length]. rewrite size_union_alt, size_singleton.
  pose proof (subseteq_size (list_to_set l ∖ {[g]} : gset FlowKey) (list_to_set l) ltac:(set_solver)). lia.
Qed.

Lemma groups_le_rows parent width at_ rows groups :
  grouped parent width at_ rows = Some groups -> (length groups <= length rows)%nat.
Proof.
  intros (_ & Hk & _)%grouped_ok. rewrite <- (length_map fst groups), Hk. unfold group_keys. etrans; [apply list_set_size|].
  clear. induction rows as [|x rows IH]; [done|]. csimpl. destruct (parent_key parent width (fst x)); csimpl; lia.
Qed.

Definition rows_in (db : FlowDb) : Z := row_sum one (fun _ => true) (fd_rollups db).
Lemma rows_in_size db : rows_in db = Z.of_nat (size (fd_rollups db)).
Proof. unfold rows_in. rewrite row_sum_count, filter_all by (by apply Forall_forall). by rewrite length_map_to_list. Qed.

Lemma row_sum_one_le P Q m : (forall k, P k = true -> Q k = true) -> row_sum one P m <= row_sum one Q m.
Proof.
  intros HPQ. rewrite (row_sum_split one Q P). pose proof (row_sum_one_nonneg (fun k => Q k && negb (P k)) m).
  rewrite (row_sum_ext one (fun k => Q k && P k) P); [lia|]. intros k r _. destruct (P k) eqn:HP; [|apply andb_false_r].
  by rewrite (HPQ k HP).
Qed.

Lemma batch_rows_in child width parent at_ c batch db db' n e groups :
  BatchDone child width parent at_ c batch db db' n e groups -> rows_in db' <= rows_in db.
Proof.
  intros Hbd. unfold rows_in. rewrite (step_sum _ _ _ _ _ _ _ _ _ _ _ Hbd).
  pose proof (row_sum_split one (fun _ => true) (eligible child width (to_rfc3339 (seconds e))) (fd_rollups db)) as Hs.
  cbn [andb] in Hs |- *. rewrite Hs.
  rewrite (row_sum_ext one (fun k => eligible child width (to_rfc3339 (seconds e)) k) (eligible child width (to_rfc3339 (seconds e)))) by done.
  rewrite Z.add_comm. apply Z.add_le_mono_r.
  etrans; [apply (row_sum_one_le _ (fun _ => true)); done|]. rewrite !row_sum_count, filter_all by (by apply Forall_forall).
  pose proof (bd_groups _ _ _ _ _ _ _ _ _ _ _ Hbd) as Hg. pose proof (grouped_ok _ _ _ _ _ Hg) as (Hnd & _).
  apply groups_le_rows in Hg. rewrite (Permutation_length (map_to_list_to_map groups Hnd)). unfold eligible_rows in Hg. lia.
Qed.

Lemma steps_rows_in child width parent c batch db db' :
  rtc (batch_step child width parent c batch) db db' -> rows_in db' <= rows_in db.
Proof. induction 1 as [|db db1 db' (at_ & n & e & groups & Hbd) _ IH]; [done|]. etrans; [exact IH|]. by eapply batch_rows_in. Qed.

(** ** What a level leaves *)
(** The rows of a level that are still there, and those of the level above that were made. *)
Lemma step_child child width parent at_ c batch db db' n e groups k :
  Level child width parent -> BatchDone child width parent at_ c batch db db' n e groups -> fk_resolution k = child ->
  fd_rollups db' !! k = if eligible child width (to_rfc3339 (seconds e)) k then None else fd_rollups db !! k.
Proof.
  intros [_ Hne] Hbd Hk. rewrite (bd_rollups _ _ _ _ _ _ _ _ _ _ _ Hbd). apply option_eq. intros r. rewrite map_lookup_filter_Some, lookup_union. simpl.
  destruct ((list_to_map groups : gmap FlowKey FlowRow) !! k) as [x|] eqn:Hx; [apply (step_group _ _ _ _ _ _ _ _ _ _ _ Hbd) in Hx; congruence|].
  rewrite union_none. destruct (eligible _ _ _ k); naive_solver.
Qed.

Lemma steps_child child width parent c batch db db' k r :
  Level child width parent -> rtc (batch_step child width parent c batch) db db' -> fk_resolution k = child ->
  fd_rollups db' !! k = Some r -> fd_rollups db !! k = Some r.
Proof.
  intros Hlv. induction 1 as [|db db1 db' (at_ & n & e & groups & Hbd) _ IH]; [done|]. intros Hk Hr. specialize (IH Hk Hr).
  rewrite (step_child _ _ _ _ _ _ _ _ _ _ _ _ Hlv Hbd Hk) in IH. by destruct (eligible _ _ _ k).
Qed.

Lemma steps_parents child width parent c batch db db' g :
  Level child width parent -> rtc (batch_step child width parent c batch) db db' -> fk_resolution g = parent ->
  is_Some (fd_rollups db' !! g) <->
  is_Some (fd_rollups db !! g) \/ exists k r, fk_resolution k = child /\ fd_rollups db !! k = Some r /\ fd_rollups db' !! k = None /\
                                           parent_key parent width k = Some g.
Proof.
  intros Hlv Hrtc Hg. induction Hrtc as [|db db1 db' (at_ & n & e & groups & Hbd) Hrtc IH]; [naive_solver|]. rewrite IH. clear IH.
  rewrite (step_lookup _ _ _ _ _ _ _ _ _ _ _ Hbd) by (rewrite Hg; apply not_eq_sym, Hlv). rewrite lookup_union, union_is_Some.
  pose proof (step_group_iff _ _ _ _ _ _ _ _ _ _ _ Hbd g) as Hgi. pose proof (fun k => step_child _ _ _ _ _ _ _ _ _ _ _ k Hlv Hbd) as Hch. split.
  - intros [[Hs|(k & r & Hk & HE & Hp)%Hgi]|(k & r & Hk & Hr & Hn & Hp)]; [by left| |]; right; exists k, r.
    + pose proof HE as [Hres _]%(step_eligible _ _ _ _ _ _ _ _ _ _ _ Hbd). split_and!; [done|done| |done].
      specialize (Hch k Hres). rewrite HE in Hch. destruct (fd_rollups db' !! k) as [r'|] eqn:Hr'; [|done].
      apply (steps_child _ _ _ _ _ _ _ _ _ Hlv Hrtc Hres) in Hr'. congruence.
    + split_and!; [done| |done|done]. rewrite (Hch k Hk) in Hr. by destruct (eligible _ _ _ k).
  - intros [Hs|(k & r & Hk & Hr & Hn & Hp)]; [by left; left|]. specialize (Hch k Hk).
    destruct (eligible child width (to_rfc3339 (seconds e)) k) eqn:HE; [left; right; apply Hgi; eauto|right]. exists k, r. rewrite Hr in Hch. by split_and!.
Qed.

Lemma row_sum_one_size (P : FlowKey -> bool) (m : gmap FlowKey FlowRow) :
  row_sum one P m = Z.of_nat (size (filter (fun k => P k = true) (dom m))).
Proof.
  induction m as [|k r m Hk IH] using map_ind.
  - assert (filter (fun k => P k = true) (dom (∅ : gmap FlowKey FlowRow)) = ∅) as -> by (apply set_eq; set_solver). rewrite size_empty.
    apply row_sum_none. intros k r Hk. by rewrite lookup_empty in Hk.
  - rewrite row_sum_insert_fresh, IH, dom_insert_L by done. apply not_elem_of_dom in Hk. destruct (P k) eqn:HP; unfold one.
    + assert (filter (fun k => P k = true) ({[k]} ∪ dom m) = {[k]} ∪ filter (fun k => P k = true) (dom m)) as -> by (apply set_eq; set_solver).
      rewrite size_union, size_singleton by set_solver. lia.
    + assert (filter (fun k => P k = true) ({[k]} ∪ dom m) = filter (fun k => P k = true) (dom m)) as ->; [|lia].
      apply set_eq. intros x. rewrite !elem_of_filter, elem_of_union, elem_of_singleton. naive_solver congruence.
Qed.

(** The minutes that are past their retention: those in the table, and those that the call itself makes
    out of the seconds that are past theirs. *)
Definition old_minutes (now : DateTime) (p : CompactionPolicy) (db : FlowDb) : gset FlowKey :=
  filter (fun g => eligible "minute" 3600 (to_rfc3339 (now - po_minutes p)) g = true)
    (dom (fd_rollups db) ∪ list_to_set (omap (fun x => to_minute (fst x)) (eligible_rows "second" 60 (to_rfc3339 (now - po_seconds p)) db))).

Lemma old_minutes_after now p c1 db db1 :
  cut_at (now - po_seconds p) c1 -> rtc (batch_step "second" 60 "minute" c1 (po_max_rows p)) db db1 ->
  old "second" 60 (now - po_seconds p) db1 = 0 ->
  old "minute" 3600 (now - po_minutes p) db1 = Z.of_nat (size (old_minutes now p db)).
Proof.
  intros Hc Hrtc Hz. unfold old. rewrite row_sum_one_size. do 2 f_equal. apply set_eq. intros g. unfold old_minutes.
  rewrite !elem_of_filter, elem_of_union, !elem_of_dom, elem_of_list_to_set, list_elem_of_omap.
  assert (eligible "minute" 3600 (to_rfc3339 (now - po_minutes p)) g = true -> fk_resolution g = "minute"%string) as Hres.
  { unfold eligible. case_bool_decide; done. }
  split; (intros [Hg Hin]; split; [done|]); apply Hres in Hg; rewrite (steps_parents _ _ _ _ _ _ _ g level_second Hrtc Hg) in *.
  - destruct Hin as [Hin|(k & r & Hk & Hr & Hn & Hp)]; [by left|right]. exists (k, r). split; [|done]. unfold eligible_rows.
    apply list_elem_of_In, filter_In. split; [by apply list_elem_of_In, elem_of_map_to_list|]. apply not_false_iff_true. intros He.
    rewrite (steps_young _ _ _ _ _ _ _ _ _ Hc level_second Hrtc Hk He) in Hn. congruence.
  - destruct Hin as [Hin|([k r] & [Hin He]%list_elem_of_In%filter_In & Hp)]; [by left|right]. apply list_elem_of_In, elem_of_map_to_list in Hin.
    simpl in *. exists k, r. split_and!; [|done| |done].
    + clear -He. unfold eligible in He. case_bool_decide; done.
    + destruct (fd_rollups db1 !! k) as [r'|] eqn:Hr'; [|done]. by rewrite (old_zero _ _ _ _ _ _ Hz Hr') in He.
Qed.

(** C33. Compaction ends: one unit of fuel per row of the table and one more is enough for both levels,
    whatever the database fails. A call that succeeds leaves nothing that is older than its
    retention, and returns exactly the number of rows that it removed: the seconds that were past
    their retention, and the minutes past theirs, those that the call itself made of the seconds
    included. *)
Theorem compaction_ends fuel faults now p db :
  now_ok now p -> table_dated (fd_rollups db) -> (size (fd_rollups db) < fuel)%nat ->
  exists r db', compact fuel faults now p db = Some (r, db') /\
    forall n, r = Ok n ->
      (forall k row, fd_rollups db' !! k = Some row ->
         eligible "second" 60 (to_rfc3339 (now - po_seconds p)) k = false /\
         eligible "minute" 3600 (to_rfc3339 (now - po_minutes p)) k = false) /\
      n = old "second" 60 (now - po_seconds p) db + Z.of_nat (size (old_minutes now p db)).
Proof.
  intros Hnow Hd Hfuel. assert (is_Some (compact fuel faults now p db)) as [[r db'] Hrun].
  { assert (forall child width cut db0, rows_in db0 <= rows_in db -> old child width cut db0 < Z.of_nat fuel) as Hlt.
    { intros child width cut db0 Hle. rewrite rows_in_size in Hle at 1. rewrite rows_in_size in Hle.
      pose proof (row_sum_one_le (eligible child width (to_rfc3339 cut)) (fun _ => true) (fd_rollups db0) ltac:(done)) as Ho.
      fold (rows_in db0) in Ho. rewrite rows_in_size in Ho. unfold old. lia. }
    unfold compact. destruct (validate_compaction p) as [[]|e] eqn:Hv; [|by eexists]. simpl.
    pose proof (validate_compaction_ok p Hv) as [Hs Hm].
    destruct (cut_exists now (po_seconds p) p Hnow) as (c1 & Hc1); [lia|]. destruct (cut_exists now (po_minutes p) p Hnow) as (c2 & Hc2); [lia|].
    unfold checked_sub_signed, checked_add_signed.
    destruct ((cal_min <=? now + - po_seconds p) && _); [simpl|by eexists]. destruct ((cal_min <=? now + - po_minutes p) && _); [simpl|by eexists].
    rewrite !Z.add_opp_r. destruct (po_max_rows p <=? i64_max); [simpl|by eexists].
    destruct (level_ends "second" 60 "minute" true fuel faults 0 _ c1 now (po_max_rows p) 0 db eq_refl Hc1 Hd (Hlt _ _ _ _ (Z.le_refl _)))
      as [[[r1 db1] k] L1]. rewrite L1. simpl. destruct r1 as [n1|]; [|by eexists].
    pose proof (level_run "second" 60 "minute" true _ _ _ _ c1 _ _ _ _ _ _ _ eq_refl Hc1 Hd L1) as [Hr1 _].
    assert (table_dated (fd_rollups db1)) as Hd1 by (eapply steps_dated; [apply level_second|done..]).
    destruct (level_ends "minute" 3600 "hour" false fuel faults k _ c2 now (po_max_rows p) 0 db1 eq_refl Hc2 Hd1
                (Hlt _ _ _ _ (steps_rows_in _ _ _ _ _ _ _ Hr1))) as [[[r2 db2] k2] L2]. rewrite L2. simpl.
    destruct r2; by eexists. }
  exists r, db'. split; [done|]. intros n ->.
  destruct (compact_inv _ _ _ _ _ _ _ Hnow Hd Hrun) as [(_ & e & ?)|(Hv & c1 & c2 & db1 & Hc1 & Hc2 & Hle & Hr1 & Hrest)]; [done|].
  destruct Hrest as [(_ & e & ?)|(Hz & Hr2 & Hok)]; [done|]. destruct (Hok n eq_refl) as [Hz2 Hn]. split.
  - intros k row Hk. split; [|by eapply old_zero].
    destruct (decide (fk_resolution k = "second"%string)) as [Hres|Hres]; [|by unfold eligible; rewrite bool_decide_eq_false_2].
    eapply old_zero; [exact Hz|]. rewrite <- (steps_rows _ _ _ _ _ _ _ k Hr2) by (by rewrite Hres). done.
  - by rewrite Hn, (old_minutes_after now p c1 db db1).
Qed.
End Compaction.
