(* ===== verification/FlowStoreTheorems.v ===== *)
(** * Flow repository: what is stored

    Rows that a compaction removed are refused, what was applied is read back, an apply is all or
    nothing and applying the same changes again changes no row. Runs of the flow engine and the
    repository together, among them one that compaction never gets past. *)

From S2P Require Import Prelude Order Time Text Bytes Domain Net NetProps Wire Flow FlowTheorems PolicyStore DoctorSettings IpText Live FlowStore FlowStoreProps.

(** ** Seals *)
Section Seals.
Context `{Calendar} `{DeviceText} `{SqlTime}.

Lemma compact_batch_seals b cut now batch db n db' :
  compact_batch b cut now batch db = Ok (Some (n, db')) -> fd_seals db ⊆ fd_seals db'.
Proof.
  unfold compact_batch, aggregate. destruct (level_names b) as [[child width] parent]. destruct (groups_of _ _) as [|[p c] others]; [done|].
  intros (? & _ & Hk)%result_bind_ok. apply result_bind_ok in Hk as (? & _ & Hk). apply result_bind_ok in Hk as (? & _ & Hk).
  apply result_bind_ok in Hk as (db1 & Ha & Hk). apply result_bind_ok in Ha as (groups & _ & Ha).
  destruct (existsb _ _); [done|]. injection Ha as <-. injection Hk as _ <-. simpl. set_solver.
Qed.

Lemma compact_level_seals fuel faults k b cut now batch removed db res db' k' :
  compact_level fuel faults k b cut now batch removed db = Some (res, db', k') -> fd_seals db ⊆ fd_seals db'.
Proof.
  revert k removed db. induction fuel as [|fuel IH]; intros k removed db; [done|]. simpl. destruct (faults k); [by intros [= _ <- _]|].
  destruct (compact_batch b cut now batch db) as [[[n db1]|]|e] eqn:Hb; [|by intros [= _ <- _]..].
  apply compact_batch_seals in Hb. destruct (checked_add_u64 removed n); [|by intros [= _ <- _]].
  destruct (n =? 0); [by intros [= _ <- _]|]. intros Hr%IH. set_solver.
Qed.

Lemma compact_seals fuel faults now p db r db' : compact fuel faults now p db = Some (r, db') -> fd_seals db ⊆ fd_seals db'.
Proof.
  unfold compact. destruct (result_bind _ _) as [[[sec min] batch]|e]; [|by intros [= _ <-]].
  destruct (compact_level fuel faults 0 true _ _ _ _ _) as [[[r1 db1] k]|] eqn:L1; [|done]. simpl.
  apply compact_level_seals in L1. destruct r1; [|by intros [= _ <-]].
  destruct (compact_level fuel faults k false _ _ _ _ _) as [[[r2 db2] k2]|] eqn:L2; [|done]. simpl.
  apply compact_level_seals in L2. destruct r2; intros [= _ <-]; set_solver.
Qed.

Lemma upsert_seals r now db db' : upsert r now db = Ok db' -> fd_seals db' = fd_seals db.
Proof.
  unfold upsert. destruct (_ || _); [done|]. destruct (negb _); [done|]. intros (? & _ & Hk)%result_bind_ok.
  apply result_bind_ok in Hk as (? & _ & Hk). destruct (metadata_texts _) as [ip domain]. apply result_bind_ok in Hk as (? & _ & Hk).
  apply result_bind_ok in Hk as (s & _ & Hk). destruct (is_some_and _ s); [done|]. destruct (_ <=? 0); [done|]. by injection Hk as <-.
Qed.

Lemma apply_changes_seals changes now db db' : apply_changes changes now db = Ok db' -> fd_seals db' = fd_seals db.
Proof.
  revert db. induction changes as [|c changes IH]; intros db; cbn [apply_changes]; [by intros [= ->]|].
  intros (db1 & Hc & Hk)%result_bind_ok. rewrite (IH db1 Hk).
  destruct c as [r|r|r]; [by eapply upsert_seals|by eapply upsert_seals|]. destruct (rt_cache_only r); [by injection Hc as ->|done].
Qed.

Definition key_of (r : Rollup) : FlowKey :=
  flow_key (ro_key r) (fst (metadata_texts (ro_metadata r))) (snd (metadata_texts (ro_metadata r))).

(** [upsert] stores the rollup under its key and touches nothing else. *)
Lemma upsert_ok r now db db' :
  upsert r now db = Ok db' ->
  exists row, fd_rollups db' = <[key_of r := row]> (fd_rollups db) /\ fr_upload row = upload (ro_bytes r) /\
    fr_download row = download (ro_bytes r) /\ fr_coverage row = cov_s (ro_coverage r).
Proof.
  unfold upsert, key_of. destruct (_ || _); [done|]. destruct (negb _); [done|].
  destruct (upload (ro_bytes r) <=? i64_max); [simpl|done]. destruct (download (ro_bytes r) <=? i64_max); [simpl|done].
  destruct (metadata_texts (ro_metadata r)) as [ip domain]. intros (? & _ & Hk)%result_bind_ok. apply result_bind_ok in Hk as (s & _ & Hk).
  destruct (is_some_and _ s); [done|]. destruct (_ <=? 0); [done|]. injection Hk as <-. eexists. simpl. split; [reflexivity|]. done.
Qed.

(** ** What changes leave behind *)
Definition row_facts (row : FlowRow) : Z * Z * string := (fr_upload row, fr_download row, fr_coverage row).

(** The facts that the changes leave under a key. *)
Fixpoint last_facts (changes : list RollupChange) (k : FlowKey) (before : option (Z * Z * string)) : option (Z * Z * string) :=
  match changes with
  | [] => before
  | (Upsert r | Correction r) :: changes' =>
    last_facts changes' k (if bool_decide (key_of r = k) then Some (upload (ro_bytes r), download (ro_bytes r), cov_s (ro_coverage r)) else before)
  | Retire _ :: changes' => last_facts changes' k before
  end.

Lemma upsert_facts r now db db' k :
  upsert r now db = Ok db' ->
  row_facts <$> fd_rollups db' !! k
  = if bool_decide (key_of r = k) then Some (upload (ro_bytes r), download (ro_bytes r), cov_s (ro_coverage r)) else row_facts <$> fd_rollups db !! k.
Proof.
  intros (row & -> & Hu & Hd & Hc)%upsert_ok. case_bool_decide as Hk.
  - subst. rewrite lookup_insert_eq. simpl. unfold row_facts. by rewrite Hu, Hd, Hc.
  - by rewrite lookup_insert_ne.
Qed.

Lemma apply_changes_facts changes now db db' k :
  apply_changes changes now db = Ok db' -> row_facts <$> fd_rollups db' !! k = last_facts changes k (row_facts <$> fd_rollups db !! k).
Proof.
  revert db. induction changes as [|c changes IH]; intros db; cbn [apply_changes]; [by intros [= ->]|].
  intros (db1 & Hc & Hk)%result_bind_ok. rewrite (IH db1 Hk). destruct c as [r|r|r]; cbn [last_facts].
  1,2: by rewrite (upsert_facts _ _ _ _ _ Hc).
  destruct (rt_cache_only r); [by injection Hc as ->|done].
Qed.

(** What can happen to the repository afterwards. *)
Definition writes (changes : list RollupChange) (r : Rollup) : Prop := In (Upsert r) changes \/ In (Correction r) changes.
Definition in_years (changes : list RollupChange) : Prop := forall r, writes changes r -> in_sql (timestamp (rk_bucket (ro_key r))).
Definition store_op (db db' : FlowDb) : Prop :=
  (exists fault repo changes now, in_years changes /\ snd (store_apply fault repo changes now db) = db')
  \/ (exists fuel faults now p r, compact fuel faults now p db = Some (r, db')).

Lemma store_op_seals db db' : store_op db db' -> fd_seals db ⊆ fd_seals db'.
Proof.
  intros [(fault & repo & changes & now & _ & <-)|(fuel & faults & now & p & r & Hc)].
  - unfold store_apply, apply_in_transaction. destruct fault; [done|]. destruct (_ <? _); [done|].
    destruct (apply_changes changes now db) as [db2|] eqn:Ha; [|done]. simpl. by rewrite (apply_changes_seals _ _ _ _ Ha).
  - by eapply compact_seals.
Qed.

Lemma store_ops_seals db db' : rtc store_op db db' -> fd_seals db ⊆ fd_seals db'.
Proof. induction 1 as [|db db1 db' Hop _ IH]; [done|]. etrans; [by apply store_op_seals|done]. Qed.

(** No compaction writes a second. *)
Lemma compact_level_seconds fuel faults n b cut now batch removed db res db' n' k :
  compact_level fuel faults n b cut now batch removed db = Some (res, db', n') -> fk_resolution k = "second"%string ->
  fd_rollups db !! k = None -> fd_rollups db' !! k = None.
Proof.
  intros Hrun Hk. revert n removed db Hrun. induction fuel as [|fuel IH]; intros n removed db; [done|]. simpl. destruct (faults n); [by intros [= _ <- _]|].
  destruct (compact_batch b cut now batch db) as [[[m db1]|]|e] eqn:Hb; [|by intros [= _ <- _]..].
  assert (fd_rollups db !! k = None -> fd_rollups db1 !! k = None) as Hstep.
  { intros Hn. unfold compact_batch, aggregate in Hb. destruct (level_names b) as [[child width] parent] eqn:Hl. destruct (groups_of _ _) as [|[q c] others]; [done|].
    apply result_bind_ok in Hb as (? & _ & Hb). apply result_bind_ok in Hb as (? & _ & Hb). apply result_bind_ok in Hb as (? & _ & Hb).
    apply result_bind_ok in Hb as (db2 & Ha & Hb). apply result_bind_ok in Ha as (groups & Hg & Ha). unfold ok_or in Hg.
    destruct (grouped _ _ _ _) as [gs|] eqn:Hgs; [|done]. injection Hg as ->. destruct (existsb _ _); [done|]. injection Ha as <-. injection Hb as _ <-. simpl.
    apply map_lookup_filter_None. left. apply lookup_union_None. split; [done|]. apply eq_None_not_Some. intros [r Hr].
    apply (group_res _ _ _ _ _ _ _ Hgs) in Hr. rewrite Hk in Hr. destruct b; injection Hl as _ _ <-; done. }
  destruct (checked_add_u64 removed m); [|by intros [= _ <- _]]. destruct (m =? 0); [by intros [= _ <- _]|]. eauto.
Qed.
Lemma compact_seconds fuel faults now p db r db' k :
  compact fuel faults now p db = Some (r, db') -> fk_resolution k = "second"%string -> fd_rollups db !! k = None -> fd_rollups db' !! k = None.
Proof.
  unfold compact. intros Hc Hk. destruct (result_bind _ _) as [[[sec min] batch]|e]; [|by injection Hc as _ <-].
  destruct (compact_level fuel faults 0 true _ _ _ _ _) as [[[r1 db1] n]|] eqn:L1; [|done]. simpl in Hc. intros Hn.
  apply (compact_level_seconds _ _ _ _ _ _ _ _ _ _ _ _ k) in L1; [|done..]. destruct r1; [|by injection Hc as _ <-].
  destruct (compact_level fuel faults n false _ _ _ _ _) as [[[r2 db2] n2]|] eqn:L2; [|done]. simpl in Hc.
  apply (compact_level_seconds _ _ _ _ _ _ _ _ _ _ _ _ k) in L2; [|done..]. destruct r2; by injection Hc as _ <-.
Qed.

Context `{!SqlTimeLaws}.

Lemma seal_of_ok r ip domain child width parent g :
  level_names (bool_decide (rk_resolution (ro_key r) = Second)) = (child, width, parent) -> rk_resolution (ro_key r) <> Hour ->
  in_sql (timestamp (rk_bucket (ro_key r))) -> parent_key parent width (flow_key (ro_key r) ip domain) = Some g ->
  seal_of r ip domain = Ok (Some (seal_key (res_s (rk_resolution (ro_key r))) g)).
Proof.
  intros Hl Hh Hs Hg. set (s := timestamp (rk_bucket (ro_key r))) in *.
  assert (width = 60 \/ width = 3600) as Hw by (by apply level_ok in Hl as []).
  rewrite (parent_key_dated parent width _ s) in Hg by (done || (simpl; apply secs_truncates)). injection Hg as <-.
  pose proof (floor_in_sql width s Hw Hs) as Hf. unfold seal_of.
  assert (forall res, rk_resolution (ro_key r) = res -> (match res with Second => 60 | _ => 3600 end) = width ->
    (let? epoch := ok_or (checked_mul_i64 (timestamp (rk_bucket (ro_key r)) / match res with Second => 60 | _ => 3600 end)
                            match res with Second => 60 | _ => 3600 end) FsOverflow in
     let? parent := ok_or (from_timestamp epoch) FsInvalid in
     let k := flow_key (ro_key r) ip domain in
     Ok (Some {| fk_resolution := fk_resolution k; fk_bucket := rfc3339_secs parent; fk_device_id := fk_device_id k;
                 fk_protocol := fk_protocol k; fk_destination := fk_destination k; fk_interface := fk_interface k;
                 fk_metadata_ip := ip; fk_metadata_domain := domain |}))
    = Ok (Some (seal_key (res_s (rk_resolution (ro_key r))) (rebase parent (rfc3339_secs (seconds (s / width * width))) (flow_key (ro_key r) ip domain))))) as Hmain.
  { intros res Hres ->. fold s. unfold checked_mul_i64. assert (in_i64 (s / width * width) = true) as ->.
    { unfold in_i64, i64_min, i64_max, in_sql, sql_min, sql_max in *. apply andb_true_intro. split; apply Z.leb_le; lia. }
    cbn [ok_or result_bind]. rewrite from_timestamp_sql by done. reflexivity. }
  destruct (rk_resolution (ro_key r)) eqn:Hres; [| |done]; injection Hl as <- <- <-; [by apply (Hmain Second)|by apply (Hmain Minute)].
Qed.

Lemma step_sealed child width parent at_ c batch db db' n e groups k row :
  BatchDone child width parent at_ c batch db db' n e groups -> fd_rollups db !! k = Some row -> fd_rollups db' !! k = None ->
  fk_resolution k = child /\ exists g, parent_key parent width k = Some g /\ seal_key child g ∈ fd_seals db'.
Proof.
  intros Hbd Hk Hk'. assert (eligible child width (to_rfc3339 (seconds e)) k = true) as HE.
  { rewrite (bd_rollups _ _ _ _ _ _ _ _ _ _ _ Hbd) in Hk'. apply map_lookup_filter_None in Hk' as [[Hn _]%lookup_union_None|Hn]; [congruence|].
    apply not_false_iff_true. apply (Hn row). rewrite lookup_union, Hk. by destruct ((list_to_map groups : gmap FlowKey FlowRow) !! k). }
  pose proof HE as [Hres _]%(step_eligible _ _ _ _ _ _ _ _ _ _ _ Hbd). split; [done|].
  pose proof (bd_groups _ _ _ _ _ _ _ _ _ _ _ Hbd) as Hg. pose proof (grouped_ok _ _ _ _ _ Hg) as (_ & Hkeys & Hall & _).
  assert (In (k, row) (eligible_rows child width (to_rfc3339 (seconds e)) db)) as Hin.
  { apply filter_In. split; [|done]. by apply list_elem_of_In, elem_of_map_to_list. }
  destruct (Hall _ Hin) as (g & Hpg). simpl in Hpg. exists g. split; [done|]. rewrite (bd_seals _ _ _ _ _ _ _ _ _ _ _ Hbd).
  apply elem_of_union_r, elem_of_list_to_set, list_elem_of_In, in_map_iff.
  assert (In g (map fst groups)) as Hgin by (rewrite Hkeys; apply list_elem_of_In, in_group_keys; eauto).
  apply in_map_iff in Hgin as (x & <- & Hx). eauto.
Qed.

Lemma steps_sealed child width parent c batch db db' k row :
  rtc (batch_step child width parent c batch) db db' -> fd_rollups db !! k = Some row -> fd_rollups db' !! k = None ->
  fk_resolution k = child /\ exists g, parent_key parent width k = Some g /\ seal_key child g ∈ fd_seals db'.
Proof.
  intros Hrtc. revert row. induction Hrtc as [|db db1 db' (at_ & n & e & groups & Hbd) Hrtc IH]; [congruence|]. intros row Hk Hk'.
  destruct (fd_rollups db1 !! k) as [row1|] eqn:H1k; [by eapply IH|].
  destruct (step_sealed _ _ _ _ _ _ _ _ _ _ _ _ _ Hbd Hk H1k) as (Hres & g & Hg & Hs). split; [done|]. exists g. split; [done|].
  clear - Hrtc Hs. induction Hrtc as [|db1 db2 db' (at_ & n & e & groups & Hbd) _ IH]; [done|]. apply IH.
  rewrite (bd_seals _ _ _ _ _ _ _ _ _ _ _ Hbd). by apply elem_of_union_l.
Qed.

(** The seal of the bucket above refuses a row. *)
Definition sealed (k : FlowKey) (db : FlowDb) : Prop :=
  exists b child width parent g, level_names b = (child, width, parent) /\ fk_resolution k = child /\
    parent_key parent width k = Some g /\ seal_key child g ∈ fd_seals db.
Lemma sealed_mono k db db' : fd_seals db ⊆ fd_seals db' -> sealed k db -> sealed k db'.
Proof. intros Hs (b & child & width & parent & g & Hl & Hres & Hg & Hin). exists b, child, width, parent, g. split_and!; try done. set_solver. Qed.

Lemma sealed_refused r now db : in_sql (timestamp (rk_bucket (ro_key r))) -> sealed (key_of r) db -> exists e, upsert r now db = Err e.
Proof.
  intros Hsql (b & child & width & parent & g & Hl & Hres & Hg & Hseal). unfold upsert, key_of in *. destruct (_ || _); [by eexists|].
  destruct (negb _); [by eexists|]. destruct (ok_or _ _); [simpl|by eexists]. destruct (ok_or _ _); [simpl|by eexists].
  destruct (metadata_texts (ro_metadata r)) as [ip domain]. simpl in *. destruct (validate_meta ip domain); [simpl|by eexists].
  assert (b = bool_decide (rk_resolution (ro_key r) = Second) /\ rk_resolution (ro_key r) <> Hour) as [-> Hh].
  { destruct b; injection Hl as <- <- <-; destruct (rk_resolution (ro_key r)); done. }
  rewrite (seal_of_ok r ip domain child width parent g Hl Hh Hsql Hg). simpl. rewrite Hres, bool_decide_eq_true_2 by done. by eexists.
Qed.

Lemma sealed_apply changes now db r :
  writes changes r -> in_sql (timestamp (rk_bucket (ro_key r))) -> sealed (key_of r) db -> exists e, apply_changes changes now db = Err e.
Proof.
  intros Hw Hsql. revert db. induction changes as [|c changes IH]; intros db Hs; [by destruct Hw|]. cbn [apply_changes].
  assert (writes changes r -> forall db1, fd_seals db1 = fd_seals db -> exists e, apply_changes changes now db1 = Err e) as Hrest.
  { intros Hin db1 Hd. apply IH; [done|]. apply (sealed_mono _ db); [by rewrite Hd|done]. }
  destruct c as [r'|r'|r'].
  1,2: destruct (decide (r' = r)) as [->|Hne]; [destruct (sealed_refused r now db Hsql Hs) as (e & ->); by eexists|];
    destruct (upsert r' now db) as [db1|e] eqn:Hu; [simpl|by eexists]; apply Hrest; [unfold writes in *; cbn in Hw; naive_solver|by eapply upsert_seals].
  destruct (rt_cache_only r'); [simpl|by eexists]. apply Hrest; [unfold writes in *; cbn in Hw; naive_solver|done].
Qed.

(** A second that is sealed and gone stays gone. *)
Lemma store_op_gone db db' k :
  store_op db db' -> sealed k db -> fk_resolution k = "second"%string -> fd_rollups db !! k = None -> fd_rollups db' !! k = None.
Proof.
  intros [(fault & repo & changes & now & Hyears & <-)|(fuel & faults & now & p & r & Hc)] Hs Hk Hn; [|by eapply compact_seconds].
  unfold store_apply, apply_in_transaction. destruct fault; [done|]. destruct (_ <? _); [done|].
  destruct (apply_changes changes now db) as [db2|] eqn:Ha; [simpl|done]. pose proof (apply_changes_facts changes now db db2 k Ha) as Hf.
  rewrite Hn in Hf. simpl in Hf. assert (last_facts changes k None = None) as Hl; [|rewrite Hl in Hf; by destruct (fd_rollups db2 !! k)].
  assert (forall r, writes changes r -> key_of r <> k) as Hne.
  { intros r Hr <-. destruct (sealed_apply changes now db r Hr (Hyears r Hr) Hs) as (e & He). congruence. }
  clear -Hne. induction changes as [|c changes IH]; [done|]. assert (forall r, writes changes r -> key_of r <> k) as Hne'.
  { intros r Hr. apply Hne. unfold writes in *. cbn. naive_solver. }
  destruct c as [r|r|r]; cbn [last_facts]; [| |by apply IH].
  1,2: rewrite bool_decide_eq_false_2; [by apply IH|]; apply Hne; unfold writes; cbn; auto.
Qed.

Lemma compact_sealed fuel faults now p db r db' k row :
  now_ok now p -> table_dated (fd_rollups db) -> compact fuel faults now p db = Some (r, db') ->
  fd_rollups db !! k = Some row -> fd_rollups db' !! k = None -> sealed k db'.
Proof.
  intros Hnow Hd Hc Hk Hk'. pose proof (compact_inv _ _ _ _ _ _ _ Hnow Hd Hc) as [[-> _]|(_ & c1 & c2 & db1 & _ & _ & _ & Hr1 & Hrest)]; [congruence|].
  destruct (fd_rollups db1 !! k) as [row1|] eqn:H1k.
  - destruct Hrest as [[-> _]|(_ & Hr2 & _)]; [congruence|].
    destruct (steps_sealed _ _ _ _ _ _ _ _ _ Hr2 H1k Hk') as (Hres & g & Hg & Hs). by exists false, "minute"%string, 3600, "hour"%string, g.
  - destruct (steps_sealed _ _ _ _ _ _ _ _ _ Hr1 Hk H1k) as (Hres & g & Hg & Hs). exists true, "second"%string, 60, "minute"%string, g. split_and!; try done.
    destruct Hrest as [[-> _]|(_ & Hr2 & _)]; [done|]. clear - Hr2 Hs.
    induction Hr2 as [|db1 db2 db' (at_ & n & e & groups & Hbd) _ IH]; [done|]. apply IH.
    rewrite (bd_seals _ _ _ _ _ _ _ _ _ _ _ Hbd). by apply elem_of_union_l.
Qed.

(** C34. What compaction removed is refused from then on: whatever the call that removed a row returned,
    and whatever applies (of rows in the years 0 to 9999) and compactions came after it, an apply
    that contains a change for that row fails as a whole and changes nothing, and a second that was
    removed is never in the table again. A minute may be made again, by a compaction of seconds that
    are written later, but never out of a row that is sent a second time. *)
Theorem compacted_rows_are_refused fuel faults now p db r db' k row later :
  now_ok now p -> table_dated (fd_rollups db) ->
  compact fuel faults now p db = Some (r, db') ->
  fd_rollups db !! k = Some row -> fd_rollups db' !! k = None ->
  rtc store_op db' later ->
  (fk_resolution k = "second"%string -> fd_rollups later !! k = None) /\
  forall fault repo changes now' rollup,
    writes changes rollup -> key_of rollup = k -> in_sql (timestamp (rk_bucket (ro_key rollup))) ->
    exists e, store_apply fault repo changes now' later = (Err e, later).
Proof.
  intros Hnow Hd Hc Hk Hk' Hlater. pose proof (compact_sealed _ _ _ _ _ _ _ _ _ Hnow Hd Hc Hk Hk') as Hs.
  assert (sealed k later /\ (fk_resolution k = "second"%string -> fd_rollups later !! k = None)) as [Hsl Hgone].
  { clear Hc Hk. induction Hlater as [|db1 db2 db3 Hop Hlater IH]; [done|].
    destruct (decide (fk_resolution k = "second"%string)) as [Hres|Hres]; [|split; [|done]].
    - apply IH; [by eapply store_op_gone|]. eapply sealed_mono; [by apply store_op_seals|done].
    - clear IH Hk'. eapply sealed_mono; [|exact Hs]. etrans; [by apply store_op_seals|]. by apply store_ops_seals. }
  split; [done|]. intros fault repo changes now' rollup Hw <- Hsql. unfold store_apply, apply_in_transaction. destruct fault; [by eexists|].
  destruct (_ <? _); [by eexists|]. destruct (sealed_apply changes now' later rollup Hw Hsql Hsl) as (e & ->). by eexists.
Qed.
End Seals.

(** ** Stored rows *)
Section Stored.
Context `{Calendar} `{DeviceText} `{SqlTime} `{!SqlTimeLaws}.

(** What the types of a rollup and the checks of [upsert] allow, with metadata that says something. *)
Definition storable (r : Rollup) : Prop :=
  rk_metadata (ro_key r) = ro_metadata r /\ (exists s, in_sql s /\ rk_bucket (ro_key r) = seconds s) /\
  0 < rk_interface (ro_key r) <= u32_max /\ 0 <= upload (ro_bytes r) <= i64_max /\ 0 <= download (ro_bytes r) <= i64_max /\
  validate_meta (fst (metadata_texts (ro_metadata r))) (snd (metadata_texts (ro_metadata r))) = Ok tt /\
  match ro_metadata r with
  | None => True
  | Some m => (md_ip m <> None \/ md_domain m <> None) /\ md_domain m <> Some EmptyString /\ match md_ip m with Some ip => ip_wf ip | None => True end
  end.
Definition stored (r : Rollup) (k : FlowKey) (row : FlowRow) : Prop :=
  storable r /\ k = key_of r /\ fr_upload row = upload (ro_bytes r) /\ fr_download row = download (ro_bytes r) /\
  fr_coverage row = cov_s (ro_coverage r).
Definition stored_table (m : gmap FlowKey FlowRow) : Prop := map_Forall (fun k row => exists r, stored r k row) m.

Lemma parse_proto_s x : parse_proto (proto_s x) = Ok x. Proof. by destruct x. Qed.
Lemma parse_dest_s x : parse_dest (dest_s x) = Ok x. Proof. by destruct x. Qed.
Lemma parse_cov_s x : parse_cov (cov_s x) = Ok x. Proof. by destruct x. Qed.
Lemma res_s_inj a b : res_s a = res_s b -> a = b. Proof. by destruct a, b. Qed.

Lemma ip_text_nonempty ip : ip_wf ip -> str_is_empty (ip_text ip) = false.
Proof.
  intros Hip. pose proof (ip_reads_back ip Hip) as Hr. destruct (str_is_empty (ip_text ip)) eqn:He; [|done].
  unfold str_is_empty in He. apply bool_decide_eq_true in He. rewrite He in Hr. done.
Qed.

(** A stored row decodes to the rollup it was made of. *)
Lemma decode_stored r k row : stored r k row -> decode (rk_resolution (ro_key r)) (k, row) = Ok r.
Proof.
  intros ((Hm & (s & Hs & Hb) & Hi & Hu & Hd & Hv & Hmd) & -> & Eu & Ed & Ec). unfold decode, key_of, flow_key. simpl.
  rewrite Hb, secs_parse by done. simpl. rewrite device_parse_to_string. simpl. rewrite parse_proto_s, parse_dest_s. simpl.
  rewrite Hv. simpl. rewrite Eu, Ed, Ec, parse_cov_s.
  assert ((0 <=? rk_interface (ro_key r)) && (rk_interface (ro_key r) <=? u32_max) = true) as Hi' by (apply andb_true_intro; split; apply Z.leb_le; lia).
  destruct (Z.leb_spec 0 (upload (ro_bytes r))); [|lia]. destruct (Z.leb_spec 0 (download (ro_bytes r))); [|lia]. rewrite Hi'.
  assert (forall md, md = ro_metadata r ->
    (if str_is_empty (fst (metadata_texts md)) && str_is_empty (snd (metadata_texts md)) then Ok None
     else let? a := if str_is_empty (fst (metadata_texts md)) then Ok None
                    else let? a := ok_or (parse_ip (fst (metadata_texts md))) FsInvalid in Ok (Some a) in
          Ok (Some {| md_ip := a; md_domain := if str_is_empty (snd (metadata_texts md)) then None else Some (snd (metadata_texts md)) |}))
    = Ok md) as Hmeta.
  { intros md ->. destruct (ro_metadata r) as [[ip dom]|]; [|done]. simpl in *. destruct Hmd as (Hsome & Hne & Hip).
    destruct ip as [ip|]; simpl.
    - rewrite ip_text_nonempty, ip_reads_back by done. simpl. destruct dom as [dom|]; simpl; [|done].
      unfold str_is_empty. rewrite bool_decide_eq_false_2 by congruence. done.
    - destruct dom as [dom|]; [|naive_solver]. simpl. unfold str_is_empty. by rewrite bool_decide_eq_false_2 by congruence. }
  rewrite (Hmeta _ eq_refl). simpl. destruct r as [[res b dev pr de ifc md] [up dn] cov md']. simpl in *. by subst.
Qed.

Lemma key_of_inj r r' : storable r -> storable r' -> key_of r = key_of r' -> ro_key r = ro_key r'.
Proof.
  intros Hr Hr' Hk. pose (row := {| fr_upload := upload (ro_bytes r); fr_download := download (ro_bytes r); fr_coverage := cov_s (ro_coverage r); fr_updated_at := EmptyString |}).
  pose proof (decode_stored r (key_of r) row ltac:(done)) as H1d.
  pose (r2 := {| ro_key := ro_key r'; ro_bytes := ro_bytes r; ro_coverage := ro_coverage r; ro_metadata := ro_metadata r' |}).
  assert (stored r2 (key_of r) row) as Hst.
  { destruct Hr as (_ & _ & _ & Hu & Hd & _), Hr' as (A1 & A2 & A3 & _ & _ & A6 & A7).
    exact (conj (conj A1 (conj A2 (conj A3 (conj Hu (conj Hd (conj A6 A7)))))) (conj Hk (conj eq_refl (conj eq_refl eq_refl)))). }
  apply decode_stored in Hst. assert (rk_resolution (ro_key r) = rk_resolution (ro_key r2)) as Hres.
  { simpl. apply res_s_inj. apply (f_equal fk_resolution) in Hk. done. }
  rewrite <- Hres, H1d in Hst. injection Hst as Hst. unfold r2 in Hst. by rewrite Hst.
Qed.

Lemma apply_changes_stored changes now db db' :
  stored_table (fd_rollups db) -> (forall r, writes changes r -> storable r) ->
  apply_changes changes now db = Ok db' -> stored_table (fd_rollups db').
Proof.
  revert db. induction changes as [|c changes IH]; intros db Hst Hall; cbn [apply_changes]; [by intros [= <-]|].
  intros (db1 & Hc & Hk)%result_bind_ok. apply (IH db1); [|intros r [Hr|Hr]; apply Hall; [left|right]; by right|done].
  assert (forall r, storable r -> upsert r now db = Ok db1 -> stored_table (fd_rollups db1)) as Hup.
  { intros r Hr (row & -> & Hrow)%upsert_ok. apply map_Forall_insert_2; [|done]. exists r. done. }
  destruct c as [r|r|r]; [apply (Hup r); [apply Hall; by left; left|done]|apply (Hup r); [apply Hall; by right; left|done]|].
  destruct (rt_cache_only r); [by injection Hc as <-|done].
Qed.

Lemma secs_leb s s' : in_sql s -> in_sql s' -> String.leb (rfc3339_secs (seconds s)) (rfc3339_secs (seconds s')) = true <-> s <= s'.
Proof.
  intros Hs Hs'. unfold String.leb. destruct (Z_lt_le_dec s s') as [Hlt|Hge]; [|destruct (Z.eq_dec s s') as [->|Hne]].
  - rewrite secs_order by done. split; [intros _; lia|done].
  - pose proof (String.compare_antisym (rfc3339_secs (seconds s')) (rfc3339_secs (seconds s'))) as Ha.
    destruct (String.compare _ _); [split; [intros _; lia|done]|done|done].
  - rewrite String.compare_antisym, secs_order by (done || lia). split; [done|intros ?; lia].
Qed.

Lemma decode_all_ok res l :
  (forall x, In x l -> exists r, decode res x = Ok r) -> exists rs, decode_all res l = Ok rs /\ Forall2 (fun x r => decode res x = Ok r) l rs.
Proof.
  induction l as [|x l IH]; intros Hall; [by exists []|]. cbn [decode_all].
  destruct (Hall x (or_introl eq_refl)) as (r & Hr). destruct IH as (rs & Hrs & Hin); [intros; apply Hall; by right|].
  rewrite Hr, Hrs. simpl. exists (r :: rs). split; [done|]. by constructor.
Qed.

(** A row of a table that was stored says of a rollup what the table says under its key. *)
Lemma stored_facts m r : stored_table m -> storable r ->
  (exists row, m !! key_of r = Some row /\ stored r (key_of r) row) <->
  row_facts <$> m !! key_of r = Some (upload (ro_bytes r), download (ro_bytes r), cov_s (ro_coverage r)).
Proof.
  intros Hst Hr. unfold row_facts. destruct (m !! key_of r) as [row|]; simpl; [|naive_solver]. split.
  - intros (row' & [= <-] & _ & _ & -> & -> & ->). done.
  - intros [= E1 E2 E3]. exists row. split; [done|]. by split_and!.
Qed.

Lemma store_apply_facts repo changes now db db' : stored_table (fd_rollups db) -> (forall r, writes changes r -> storable r) -> store_apply false repo changes now db = (Ok tt, db') ->
  stored_table (fd_rollups db') /\ forall k, row_facts <$> fd_rollups db' !! k = last_facts changes k (row_facts <$> fd_rollups db !! k).
Proof.
  intros Hst Hall Happ. unfold store_apply, apply_in_transaction in Happ. destruct (_ <? _); [done|].
  destruct (apply_changes changes now db) as [db1|] eqn:Ha; [|done]. injection Happ as <-. split; [by eapply apply_changes_stored|].
  intros k. by apply (apply_changes_facts _ now).
Qed.

(** The rows of a window, and what a range with room for the whole table makes of them. *)
Definition window_rows (res : Resolution) (start end_ : DateTime) (m : gmap FlowKey FlowRow) : list (FlowKey * FlowRow) :=
  List.filter (fun x => bool_decide (fk_resolution (fst x) = res_s res) && String.leb (rfc3339_secs start) (fk_bucket (fst x)) && String.leb (fk_bucket (fst x)) (rfc3339_secs end_)) (map_to_list m).
Lemma range_whole repo res start end_ limit db : start <= end_ -> Z.of_nat (size (fd_rollups db)) <= limit -> 0 < limit <= fl_max_batch repo -> limit <= i64_max ->
  range repo res start end_ limit db = decode_all res (in_order flow_key_cmp (window_rows res start end_ (fd_rollups db))).
Proof.
  intros Hle Hsize Hlim Hmax. unfold range.
  destruct (Z.ltb_spec end_ start); [lia|]. destruct (Z.eqb_spec limit 0); [lia|]. destruct (Z.ltb_spec (fl_max_batch repo) limit); [lia|].
  destruct (Z.ltb_spec i64_max limit); [lia|]. cbn [orb]. f_equal. apply take_ge. unfold in_order. rewrite (Permutation_length (sort_by_perm (key_cmp flow_key_cmp) _)).
  etrans; [apply List.filter_length_le|]. rewrite length_map_to_list. lia.
Qed.
Lemma window_rows_in res start end_ m : stored_table m -> in_sql (timestamp start) -> in_sql (timestamp end_) ->
  forall k row, In (k, row) (window_rows res start end_ m) <-> m !! k = Some row /\ exists r, stored r k row /\ rk_resolution (ro_key r) = res /\
    timestamp start <= timestamp (rk_bucket (ro_key r)) <= timestamp end_.
Proof.
  intros Hst Hss Hse k row. unfold window_rows. rewrite filter_In, <- list_elem_of_In, elem_of_map_to_list. split.
  - intros [Hk [[Hres Hlo]%andb_true_iff Hhi]%andb_true_iff]. split; [done|]. destruct (Hst k row Hk) as (r & Hr). exists r. split; [done|].
    simpl in *. destruct Hr as ((_ & (s & Hs & Hb) & _) & -> & _). apply bool_decide_eq_true in Hres.
    split; [by apply res_s_inj|]. unfold key_of, flow_key in Hlo, Hhi. simpl in Hlo, Hhi. rewrite Hb in *. rewrite timestamp_of_seconds.
    rewrite secs_truncates, secs_leb in Hlo by done. rewrite (secs_truncates end_), secs_leb in Hhi by done. done.
  - intros (Hk & r & ((_ & (s & Hs & Hb) & _) & -> & _) & Hres & Hw). split; [done|]. simpl. rewrite Hb in *. rewrite timestamp_of_seconds in Hw.
    rewrite !andb_true_iff, bool_decide_eq_true, (secs_truncates start), (secs_truncates end_), !secs_leb by done. rewrite Hres. by destruct Hw.
Qed.
(** Rows with different keys are read as different rollups. *)
Lemma decoded_once res l rs : Forall2 (fun x r => decode res x = Ok r) l rs -> NoDup (map fst l) -> (forall k row r, In (k, row) l -> decode res (k, row) = Ok r -> stored r k row) -> NoDup rs.
Proof.
  induction 1 as [|[k row] r l rs Hx Hall IH]; intros Hnd Hdec; [constructor|]. simpl in Hnd. apply NoDup_cons in Hnd as [Hk Hnd].
  apply NoDup_cons. split; [|apply IH; [done|intros; apply Hdec; [by right|done]]]. intros Hin.
  apply list_elem_of_lookup in Hin as [i Hi]. destruct (Forall2_lookup_r _ _ _ _ _ Hall Hi) as ([k' row'] & Hi' & Hx'). apply list_elem_of_lookup_2 in Hi'.
  destruct (Hdec k row r) as (_ & -> & _); [by left|done|]. destruct (Hdec k' row' r) as (_ & -> & _); [right; by apply list_elem_of_In|done|].
  apply Hk. apply list_elem_of_fmap. by exists (key_of r, row').
Qed.

End Stored.

(** ** Applying again *)
Section Again.
Context `{Calendar} `{DeviceText} `{SqlTime}.

Lemma last_facts_twice changes k before : last_facts changes k (last_facts changes k before) = last_facts changes k before.
Proof.
  assert ((exists v, forall b, last_facts changes k b = v) \/ (forall b, last_facts changes k b = b)) as Hc.
  { induction changes as [|c changes IH]; [right; done|].
    destruct c as [r|r|r]; cbn [last_facts]; [| |exact IH].
    all: destruct (bool_decide (key_of r = k)); [left; eexists; reflexivity|exact IH]. }
  destruct Hc as [[v Hv]|Hv]; by rewrite !Hv.
Qed.

Lemma upsert_guard r now now' db db1 db' :
  upsert r now db = Ok db1 -> fd_seals db' = fd_seals db -> exists db2, upsert r now' db' = Ok db2.
Proof.
  unfold upsert. intros Hu Hs. destruct (_ || _); [done|]. destruct (negb _); [done|].
  destruct (ok_or (if upload _ <=? _ then _ else _) _); [simpl in *|done]. destruct (ok_or (if download _ <=? _ then _ else _) _); [simpl in *|done].
  destruct (metadata_texts (ro_metadata r)) as [ip domain]. destruct (validate_meta ip domain); [simpl in *|done].
  destruct (seal_of r ip domain); [simpl in *|done]. rewrite Hs. destruct (is_some_and _ _); [done|]. destruct (_ <=? 0); [done|]. by eexists.
Qed.

Lemma apply_changes_again changes now now' db db1 db' :
  apply_changes changes now db = Ok db1 -> fd_seals db' = fd_seals db -> exists db2, apply_changes changes now' db' = Ok db2.
Proof.
  revert db db'. induction changes as [|c changes IH]; intros db db'; cbn [apply_changes]; [by eexists|].
  intros (dba & Hc & Hk)%result_bind_ok Hs.
  assert (exists dbb, match c with Upsert r | Correction r => upsert r now' db' | Retire r => if rt_cache_only r then Ok db' else Err FsInvalid end = Ok dbb
            /\ fd_seals dbb = fd_seals dba) as (dbb & -> & Hsb).
  { destruct c as [r|r|r].
    1,2: destruct (upsert_guard r now now' db dba db' Hc Hs) as (dbb & Hb); exists dbb; split; [done|];
      by rewrite (upsert_seals _ _ _ _ Hb), (upsert_seals _ _ _ _ Hc).
    destruct (rt_cache_only r); [|done]. injection Hc as <-. by exists db'. }
  by eapply IH.
Qed.

(** Applying is idempotent: changes that were applied can be applied again, at any later time, and every
    row then has the bytes and the coverage that it had after the first time. *)
Theorem applying_again_changes_no_row repo changes now now' db db' :
  store_apply false repo changes now db = (Ok tt, db') ->
  exists db'', store_apply false repo changes now' db' = (Ok tt, db'') /\
    forall k, row_facts <$> fd_rollups db'' !! k = row_facts <$> fd_rollups db' !! k.
Proof.
  unfold store_apply, apply_in_transaction. destruct (_ <? _); [done|]. destruct (apply_changes changes now db) as [db1|] eqn:Ha; [|done].
  intros [= <-]. destruct (apply_changes_again changes now now' db db1 db1 Ha (apply_changes_seals _ _ _ _ Ha)) as (db2 & Hb). rewrite Hb.
  exists db2. split; [done|]. intros k. rewrite (apply_changes_facts _ _ _ _ k Hb), (apply_changes_facts _ _ _ _ k Ha). apply last_facts_twice.
Qed.

(** The ingestor's live state moves only with the database: a failed call leaves both as they
    were, a successful one is the staged live state together with the applied changes. *)
Theorem ingestor_moves_both_or_none fault changes tick_ms now i db r i' db' :
  ingestor_apply fault changes tick_ms now (i, db) = (r, (i', db')) ->
  match r with
  | Err _ => i' = i /\ db' = db
  | Ok payload =>
    store_apply false (in_repository i) changes now db = (Ok tt, db') /\
    staged_payload (in_live i) tick_ms changes now = Ok (in_live i', payload) /\ in_repository i' = in_repository i
  end.
Proof.
  unfold ingestor_apply. destruct (staged_payload (in_live i) tick_ms changes now) as [[staged payload]|e]; [|by intros [= <- <- <-]].
  unfold store_apply. destruct fault; [by intros [= <- <- <-]|].
  destruct (apply_in_transaction (in_repository i) changes now db) as [db1|e]; by intros [= <- <- <-].
Qed.
End Again.

(** ** Concrete runs

    A time is written as the seconds since the year 0 in six digits of base 256. *)
Definition digit_place (n : nat) : Z := 256 ^ Z.of_nat n.
Fixpoint fixed_text (n : nat) (z : Z) : string :=
  match n with O => EmptyString | S n' => String (char_of (z / digit_place n')) (fixed_text n' (z mod digit_place n')) end.
Fixpoint fixed_value (s : string) : Z :=
  match s with EmptyString => 0 | String a s' => Z.of_N (N_of_ascii a) * digit_place (String.length s') + fixed_value s' end.

Lemma fixed_text_length n z : String.length (fixed_text n z) = n.
Proof. revert z. induction n as [|n IH]; intros z; simpl; [done|]. by rewrite IH. Qed.
Lemma digit_place_pos n : 0 < digit_place n. Proof. unfold digit_place. lia. Qed.
Lemma digit_place_S n : digit_place (S n) = 256 * digit_place n.
Proof. unfold digit_place. rewrite Nat2Z.inj_succ, Z.pow_succ_r by lia. done. Qed.
Lemma char_of_value d : 0 <= d < 256 -> Z.of_N (N_of_ascii (char_of d)) = d.
Proof. intros Hd. unfold char_of. rewrite N_ascii_embedding by lia. lia. Qed.
Lemma leading_digit n z : 0 <= z < digit_place (S n) -> 0 <= z / digit_place n < 256.
Proof.
  intros Hz. pose proof (digit_place_pos n). rewrite digit_place_S in Hz.
  split; [apply Z.div_pos; lia|apply Z.div_lt_upper_bound; lia].
Qed.

Lemma fixed_value_text n z : 0 <= z < digit_place n -> fixed_value (fixed_text n z) = z.
Proof.
  revert z. induction n as [|n IH]; intros z Hz; [change (digit_place 0) with 1 in Hz; simpl; lia|].
  cbn [fixed_text fixed_value]. pose proof (digit_place_pos n). rewrite fixed_text_length, char_of_value by (by apply leading_digit).
  rewrite IH by (apply Z.mod_pos_bound; lia). pose proof (Z.div_mod z (digit_place n)). lia.
Qed.

Lemma fixed_text_order n x y : 0 <= x -> x < y < digit_place n -> String.compare (fixed_text n x) (fixed_text n y) = Lt.
Proof.
  revert x y. induction n as [|n IH]; intros x y Hx Hy; [change (digit_place 0) with 1 in Hy; lia|].
  cbn [fixed_text String.compare]. pose proof (digit_place_pos n) as Hp.
  pose proof (leading_digit n x ltac:(lia)) as Hdx. pose proof (leading_digit n y ltac:(lia)) as Hdy.
  assert (x / digit_place n <= y / digit_place n) as Hle by (apply Z.div_le_mono; lia).
  unfold Ascii.compare. rewrite <- N2Z.inj_compare. rewrite !char_of_value by done.
  destruct (Z.compare_spec (x / digit_place n) (y / digit_place n)) as [He|Hlt|Hgt]; [|done|lia].
  apply IH; [apply Z.mod_pos_bound; lia|]. pose proof (Z.mod_pos_bound y (digit_place n) ltac:(lia)).
  pose proof (Z.div_mod x (digit_place n) ltac:(lia)). pose proof (Z.div_mod y (digit_place n) ltac:(lia)). rewrite He in *. lia.
Qed.

Definition time_text (s : Z) : string := fixed_text 6 (s - sql_min).
Definition text_time (t : string) : option Z := if Nat.eqb (String.length t) 6 then Some (fixed_value t + sql_min) else None.

#[local] Instance digit_chrono : ChronoText := {|
  to_rfc3339 t := time_text (timestamp t); parse_from_rfc3339 x := seconds <$> text_time x |}.
#[local] Instance digit_time : SqlTime := {|
  sqltime_chrono := digit_chrono; rfc3339_secs t := time_text (timestamp t); unixepoch := text_time; strftime s := Some (time_text s) |}.

Lemma text_time_text s : in_sql s -> text_time (time_text s) = Some s.
Proof.
  intros Hs. unfold text_time, time_text. rewrite fixed_text_length. cbn [Nat.eqb]. rewrite fixed_value_text; [f_equal; lia|].
  unfold in_sql, sql_min, sql_max in *. change (digit_place 6) with 281474976710656. lia.
Qed.

#[local] Instance digit_laws : SqlTimeLaws.
Proof.
  split.
  - intros s Hs. simpl. rewrite timestamp_of_seconds. by apply text_time_text.
  - intros t. simpl. by rewrite timestamp_of_seconds.
  - intros s Hs. simpl. by rewrite timestamp_of_seconds.
  - intros t Ht. simpl. rewrite text_time_text by done. exists (timestamp t). split; [done|]. split; [lia|done].
  - intros t t' u u' Ht Ht' Hle. simpl. rewrite !text_time_text by done. intros [= <-] [= <-]. by apply timestamp_mono.
  - intros s Hs. change (seconds <$> text_time (time_text (timestamp (seconds s))) = Some (seconds s)).
    by rewrite timestamp_of_seconds, text_time_text.
  - intros s s' Hs Hs' Hlt. change (String.compare (time_text (timestamp (seconds s))) (time_text (timestamp (seconds s'))) = Lt).
    rewrite !timestamp_of_seconds. apply fixed_text_order; unfold in_sql, sql_min, sql_max in *; [lia|].
    change (digit_place 6) with 281474976710656. lia.
  - split; vm_compute; discriminate.
Qed.

#[local] Existing Instance letter_text.
Definition no_faults (n : nat) : bool := false.
Definition empty_db : FlowDb := {| fd_devices := ∅; fd_rollups := ∅; fd_seals := ∅ |}.
Definition big_repo : FlowRepository := {| fl_max_batch := 4096 |}.
Definition applied (changes : list RollupChange) (ms : Z) (db : FlowDb) : FlowDb := snd (store_apply false big_repo changes (at_ms ms) db).
Definition after_days (d : Z) : DateTime := hours (24 * d).

(** A collector on the host and a gateway, and an event that both see in the same second. *)
Definition two_kinds : list SourceRegistration := [collector_local 1; verified_gateway 2].
Definition start_two : FlowEngine :=
  or_else (start default_flow_config) (flow_new default_flow_config two_kinds).
Definition seen_by (source : FlowSourceId) (replay event arrival bytes : Z) : FlowObservation :=
  let o := flow_obs replay event arrival bytes in {|
  fo_replay_id := replay; fo_event_time := fo_event_time o; fo_arrival_time := fo_arrival_time o; fo_device_id := fo_device_id o;
  fo_upload := bytes; fo_download := 1; fo_protocol := Tcp; fo_destination := Internet; fo_interface := 1; fo_source := source;
  fo_metadata := None |}.

(** The collector's seconds are closed before the gateway's arrive, within the lateness. *)
Definition corrected_db : FlowDb :=
  let '(cs1, e1) := tick 11000 (see (seen_by 1 1 10000 10000 7) start_two) in
  let '(cs2, _) := tick 13000 (see (seen_by 2 2 10000 12000 9) e1) in
  applied cs2 13000 (applied cs1 11000 empty_db).

(** The service restarts in the middle of a minute. *)
Definition restarted_db : FlowDb :=
  let '(cs1, _) := tick 11000 (see (flow_obs 1 10000 10000 7) (start default_flow_config)) in
  let '(cs2, _) := tick 31000 (see (flow_obs 2 30000 30000 5) (start default_flow_config)) in
  applied cs2 31000 (applied cs1 11000 empty_db).

Definition fate (days : Z) (db : FlowDb) : option (option FlowStoreError * bool) :=
  '(r, db') ← compact 20 no_faults (after_days days) default_compaction db;
  Some (match r with Ok _ => None | Err e => Some e end, bool_decide (map_to_list (fd_rollups db') = map_to_list (fd_rollups db))).

(** Two ordinary histories of the flow engine that compaction never gets past: a second whose source is
    corrected from the collector of the host to the gateway, after which the minute says
    "estimated" and its seconds say "complete"; and a restart in the middle of a minute, after which the
    minute's row lacks the bytes from before. Two days later, and a year later, the call fails
    with a conflict and nothing is compacted. *)
Theorem compaction_gets_stuck :
  size (fd_rollups corrected_db) = 3%nat /\ size (fd_rollups restarted_db) = 4%nat /\
  Forall (fun days => fate days corrected_db = Some (Some FsCompactionConflict, true) /\
                      fate days restarted_db = Some (Some FsCompactionConflict, true)) [2; 365].
Proof. split; [vm_compute; reflexivity|]. split; [vm_compute; reflexivity|]. repeat constructor; vm_compute; reflexivity. Qed.

(** ** Witnesses *)
Definition plain_rollup (res : Resolution) (s : Z) : Rollup := {|
  ro_key := row_key res s; ro_bytes := {| upload := 7; download := 1 |}; ro_coverage := Complete; ro_metadata := None |}.
Definition plain_changes : list RollupChange := [Upsert (plain_rollup Second 10); Upsert (plain_rollup Minute 0)].
Definition plain_db : FlowDb := applied plain_changes 11000 empty_db.
Lemma plain_apply : store_apply false big_repo plain_changes (at_ms 11000) empty_db = (Ok tt, plain_db).
Proof.
  unfold plain_db, applied. rewrite (surjective_pairing (store_apply _ _ _ _ _)) at 1. by f_equal.
Qed.

Lemma plain_storable res s : in_sql s -> storable (plain_rollup res s).
Proof.
  intros Hs. split; [done|]. split; [by exists s|]. split; [vm_compute; split; [reflexivity|discriminate]|].
  split; [vm_compute; split; discriminate|]. split; [vm_compute; split; discriminate|]. split; [reflexivity|exact I].
Qed.
Lemma plain_changes_storable r : writes plain_changes r -> storable r.
Proof.
  intros [[E|[E|[]]]|[E|[E|[]]]]; try discriminate E; injection E as <-; apply plain_storable; vm_compute; split; discriminate.
Qed.
Lemma plain_stored : stored_table (fd_rollups plain_db).
Proof.
  pose proof plain_apply as Ha. unfold store_apply, apply_in_transaction in Ha. destruct (_ <? _); [done|].
  destruct (apply_changes plain_changes (at_ms 11000) empty_db) as [db|] eqn:E; [|done]. injection Ha as Hdb. rewrite <- Hdb.
  eapply apply_changes_stored; [|apply plain_changes_storable|exact E]. apply map_Forall_empty.
Qed.
Lemma stored_dated m : stored_table m -> table_dated m.
Proof. intros Hst k row Hk. destruct (Hst k row Hk) as (r & (_ & (s & Hs & Hb) & _) & -> & _). exists s. split; [done|]. simpl. by rewrite Hb. Qed.

Definition two_days : DateTime := after_days 2.
Lemma two_days_ok : now_ok two_days default_compaction.
Proof. vm_compute. split; [discriminate|reflexivity]. Qed.
Definition plain_run : option (result Z FlowStoreError * FlowDb) := compact 20 no_faults two_days default_compaction plain_db.
Definition compacted_db : FlowDb := match plain_run with Some (_, db) => db | None => plain_db end.
Definition compacted_result : result Z FlowStoreError := match plain_run with Some (r, _) => r | None => Err FsInvalid end.
Lemma plain_run_ok : compact 20 no_faults two_days default_compaction plain_db = Some (compacted_result, compacted_db).
Proof.
  unfold compacted_result, compacted_db, plain_run. assert (is_Some (compact 20 no_faults two_days default_compaction plain_db)) as [[r db] ->]; [|done].
  apply is_Some_alt. vm_compute. exact I.
Qed.
Definition plain_key (res : Resolution) (s : Z) : FlowKey := key_of (plain_rollup res s).

Lemma compaction_keeps_totals_witness :
  fd_rollups compacted_db !! plain_key Second 10 = None /\
  hour_total fr_upload (fd_rollups compacted_db) (plain_key Hour 0) = hour_total fr_upload (fd_rollups plain_db) (plain_key Hour 0).
Proof.
  split; [vm_compute; reflexivity|].
  exact (proj1 (compaction_keeps_totals 20 no_faults two_days default_compaction plain_db compacted_result compacted_db fr_upload
    two_days_ok (stored_dated _ plain_stored) (or_introl eq_refl) plain_run_ok) (plain_key Hour 0) eq_refl).
Defined.

Lemma compaction_ends_witness :
  exists r db', compact 20 no_faults two_days default_compaction plain_db = Some (r, db').
Proof.
  destruct (compaction_ends 20 no_faults two_days default_compaction plain_db two_days_ok (stored_dated _ plain_stored)) as (r & db' & Hrun & _).
  - apply Nat.ltb_lt. vm_compute. reflexivity.
  - exists r, db'. exact Hrun.
Defined.

Lemma compacted_rows_are_refused_witness :
  fd_rollups compacted_db !! plain_key Second 10 = None /\
  exists e, store_apply false big_repo plain_changes two_days compacted_db = (Err e, compacted_db).
Proof.
  destruct (compacted_rows_are_refused 20 no_faults two_days default_compaction plain_db compacted_result compacted_db (plain_key Second 10)
    {| fr_upload := 7; fr_download := 1; fr_coverage := "complete"; fr_updated_at := time_text 11 |} compacted_db
    two_days_ok (stored_dated _ plain_stored) plain_run_ok) as [Hgone Hrefused].
  - vm_compute. reflexivity.
  - vm_compute. reflexivity.
  - apply rtc_refl.
  - split; [exact (Hgone eq_refl)|]. apply (Hrefused false big_repo plain_changes two_days (plain_rollup Second 10)).
    + left. left. reflexivity.
    + reflexivity.
    + vm_compute. split; discriminate.
Defined.


Lemma applying_again_changes_no_row_witness :
  exists db'', store_apply false big_repo plain_changes two_days plain_db = (Ok tt, db'').
Proof.
  destruct (applying_again_changes_no_row big_repo plain_changes (at_ms 11000) two_days empty_db plain_db plain_apply) as (db'' & Hb & _).
  exists db''. exact Hb.
Defined.

Definition plain_ingestor : FlowIngestor := {|
  in_repository := big_repo;
  in_live := {| la_current := ∅; la_emitted := ∅; la_pending_baselines := ∅;
                la_coalescer := {| co_cfg := default_live_config; co_pending := ∅; co_last_tick := None; co_last_emit := None; co_last_emitted_at := None |};
                la_max_rows := 8 |} |}.
Lemma split3 {A B C} (x : A * (B * C)) : x = (fst x, (fst (snd x), snd (snd x))).
Proof. destruct x as [a [b c]]. reflexivity. Qed.
Definition ingested := ingestor_apply false plain_changes 0 (at_ms 11000) (plain_ingestor, empty_db).
Lemma ingestor_moves_both_or_none_witness :
  is_ok (fst ingested) = true /\ (is_ok (fst ingested) = true -> store_apply false big_repo plain_changes (at_ms 11000) empty_db = (Ok tt, snd (snd ingested))).
Proof.
  split; [vm_compute; reflexivity|].
  pose proof (ingestor_moves_both_or_none false plain_changes 0 (at_ms 11000) plain_ingestor empty_db (fst ingested) (fst (snd ingested)) (snd (snd ingested))) as Hm.
  assert (ingestor_apply false plain_changes 0 (at_ms 11000) (plain_ingestor, empty_db) = (fst ingested, (fst (snd ingested), snd (snd ingested)))) as He
    by apply (split3 ingested).
  specialize (Hm He). destruct (fst ingested) as [payload|e]; [|discriminate]. intros _. exact (proj1 Hm).
Defined.
